(* ===== verification/_CoqProject ===== *)
-Q . S2P
Prelude.v
Jstring.v
RecordStream.v
Crc32.v
Posix.v
SparseFormat.v
BackedBlock.v
OutputFile.v
SparseFile.v
SparseRead.v
ConfigUtils.v
Diskconfig.v
Hashmap.v
ConfigParser.v
TbootConfig.v
Fstab.v
Backlight.v
Fastboot.v
StreamFlash.v
StreamProps.v
StreamFlaws.v
TbootUtil.v
Aboot.v
AbootStream.v
Uevent.v
Battery.v
LoadFile.v
PreosReboot.v
Events.v
MinUi.v
TbootUi.v
TbootMain.v
Sha1.v
Ext4Utils.v
Ext4Alloc.v
Ext4AllocBits.v
Ext4AllocProps.v
Ext4AllocLists.v
Ext4Extent.v
Ext4ExtentProps.v
Ext4ExtentFiles.v
Ext4Indirect.v
Ext4Contents.v
Ext4ContentsProps.v
Ext4Dirs.v
Ext4Tree.v
Ext4Links.v
Ext4Super.v
Ext4SuperProps.v
Ext4Disk.v
MakeExt4fs.v
MakeExt4Init.v
MakeExt4Fill.v
MakeExt4Inodes.v
MakeExt4Resize.v
MakeExt4Room.v
MakeExt4Image.v
MakeExt4Memory.v
MakeExt4Disk.v
MakeExt4Props.v
MakeExt4File.v
