(* ===== verification/Prelude.v ===== *)
(** * tboot: a verification development

    tboot is a user-space fastboot server. A host sends it commands and images
    over USB; it lays out the disk, expands sparse images and writes them to
    partitions. This library models the parts that carry that work and proves
    what makes them correct.

    ** The program and its model

    - [src/libsparse]: the sparse image library. A sparse file
      ([sparse.c]) keeps a list of blocks ([backed_block.c]), each backed by
      memory, a file or a fill value. It is written through an output file
      ([output_file.c]) in sparse or in normal form, and read back
      ([sparse_read.c]); both sides share the format ([sparse_format.h]) and the
      checksum ([sparse_crc32.c]).
      Files: [SparseFormat] (the bytes of headers and chunks), [Crc32],
      [BackedBlock], [OutputFile], [SparseFile], [SparseRead].
    - [src/libcutils/config_utils.c]: configuration trees and their parser.
      File: [ConfigUtils].
    - [src/libdiskconfig]: the disk layout. [diskconfig.c] reads it from a
      configuration tree and checks it against the device, [config_mbr.c] turns
      it into a partition table as a list of writes, [write_lst.c] commits the
      list, [diskutils.c] copies raw images. File: [Diskconfig].
    - [src/libcutils/hashmap.c]: the hash map of the configuration and of the
      command tables. File: [Hashmap].
    - [src/libcutils/config_parser.c]: files of keys and values, searched
      line by line. File: [ConfigParser]. [src/src/tboot.c] keeps the
      configuration in a hash map filled from such a file. File: [TbootConfig].
    - [src/src/fstab.c]: the table of volumes and the lookup of a path.
      File: [Fstab].
    - [src/src/backlight_control.c]: the backlight and its timeout.
      File: [Backlight].
    - [src/src/fastboot.c]: the server: commands, variables, transfers,
      responses, the command loop. File: [Fastboot].
    - [src/src/buffer.c] and the two threads of [cmd_stream_flash] in
      [src/src/aboot.c]: one downloads an image into two buffers, the other
      writes them to a pipe. Each thread is a step function on a shared state, and
      a transfer is any interleaving of their steps, a broken pipe and a failed join.
      Files: [StreamFlash] (the model and its invariants), [StreamProps] (what
      holds in every interleaving), [StreamFlaws] (interleavings that go wrong).
    - [src/src/tboot_util.c]: processes, mounting, formatting, the kernel
      command line. File: [TbootUtil].
    - [src/src/aboot.c]: the commands of the server (erase, flash, oem, push,
      reboot) and the tables of commands that plugins fill. They are handlers of
      [Fastboot] and use the disk layout, the volume table, the hash map and the
      transfer. Files: [Aboot], [AbootStream] (streaming flash as a whole).
    - [src/src/uevent.c] and [platform.c]: the status of USB, charger and
      battery, from the kernel's messages. File: [Uevent].
    - [src/src/battery.c]: the power supply files. File: [Battery].
    - [src/src/tboot.c]: options, the countdown and its keys, starting kernels,
      updates, the disk's set-up, battery check and signals. File: [TbootMain].
    - [src/src/tboot_ui.c]: the screen: its configuration, its four windows, the
      menu and the log. File: [TbootUi]. It is made of the widgets of
      [src/libminui/minui.c] (file [MinUi]: windows, menus, text areas, bars), and
      the keys come from [src/libminui/events.c] (file [Events]: the devices, the
      dispatch of their events, the state of the keys).
    - [src/ext4_utils]: making ext4 file systems (for erasing a partition).
      [make_ext4fs.c] chooses the parameters and [ext4_utils.c] derives the
      geometry (file [Ext4Utils]); [allocate.c] keeps a bitmap per group and hands
      out blocks as linked regions, and inodes (file [Ext4Alloc]); [extent.c]
      lists the regions in the inode or in a leaf block and queues the contents
      in the sparse file (file [Ext4Extent]); [contents.c] writes directories and
      files (file [Ext4Contents]). [indirect.c] lists blocks in the old format, for
      long symbolic links, the journal and the resize inode (file
      [Ext4Indirect]); [uuid.c] and [sha1.c] make the identifier of a volume from
      its name (file [Sha1]). The rest of [ext4_utils.c] fills in the super block and
      the group descriptors and makes the journal and the resize inode (file
      [Ext4Super]); [make_ext4fs] puts everything together and copies a directory
      of the host (file [MakeExt4fs]). The regions are nodes of a heap, buffers are
      addressed memory, and the image is the block list of [BackedBlock].
      The proofs are in [Ext4AllocBits] (bitmaps and groups), [Ext4AllocProps] and
      [Ext4AllocLists] (regions, allocation), [Ext4ExtentProps] and
      [Ext4ExtentFiles] (trees and files), [Ext4ContentsProps] (the bytes of a
      directory), [Ext4Dirs], [Ext4Tree] and [Ext4Links] (directories, files and
      links of one image), [Ext4SuperProps] (fields, super block, counters). The
      image as a whole: [MakeExt4Init] (which geometries can be made, and the
      groups when the allocator starts), [MakeExt4Fill] (the super block, its
      copies and the descriptors), [MakeExt4Inodes] (the reserved inodes and the
      journal), [MakeExt4Resize] (the resize inode), [MakeExt4Room] (what is left
      for the tree), [MakeExt4Image] (the steps composed) and [MakeExt4Props]
      (the parameters for a length, and the theorems). [Ext4Disk] is a reader of
      an image that has nothing but its bytes, [MakeExt4Memory] shows that the
      buffers are never at the same addresses and that whole blocks are queued,
      [MakeExt4Disk] goes from the queue and the memory to the bytes of the file,
      and [MakeExt4File] reads the file [make_ext4fs] leaves.
    - [src/libcutils/strdup8to16.c], [strdup16to8.c]: strings of 8 and of 16 bits.
      File: [Jstring]. [record_stream.c]: records cut out of a stream. File:
      [RecordStream]. [load_file.c]: a file as a string. File: [LoadFile].
      [preos_reboot.c]: reboots, and the file systems remounted before them. File:
      [PreosReboot].
    - [Posix] is the file interface of the C library; this file holds machine
      integers, outcomes, byte lists, shared lemmas, hints and tactics.

    ** How the code is represented

    A C structure is a [Record], a tagged union an [Inductive], a function a
    [Definition] or a [Fixpoint] with the source's name, and a global variable a
    field of a state that is passed along. Integers are [Z]; wherever the code
    may leave the range of a type the conversion ([u32], [s32], [u64], [s64]) is
    written out, for a target with 32-bit [int], [long] and pointers (the program
    is built with [-m32]). Every call can end in a value, a failed [assert] (or a
    call of [die]), undefined behaviour or exhausted fuel: the type [outcome].
    Allocation failures, short reads and writes and device errors are inputs of
    the model, so the theorems quantify over them. The commands of the server and
    the main program make system calls; these are recorded in a log, and a
    function [os] of the log so far and the call gives every answer, so that the
    theorems hold for all systems, or for those of a named hypothesis. Where
    aliasing matters (the nodes of a block list and [last_used], the buffers of
    the two threads), objects have addresses or states, and one that was freed
    cannot be used. (The buffers of a transfer are taken for the time before they
    are freed; what the code does behind that is the flaw [reader_after_free].)

    Fuel: a loop that is not structural takes a number of rounds. [config_load]
    takes four rounds per character, [usb_read] one per 4096 bytes,
    [usb_read_progress] and the loop of [cmd_flash] 102 (at most 101 slices),
    [hashmapCreate] 32 (the bucket count doubles within 32 bits),
    [callback_file_skip] and [read_all] one per request, the loops of
    [ConfigParser] and [Fstab] and of the kernel command line one per character
    and one more; the theorems on these functions show a value, so the rounds
    suffice. [write_raw_image] and [sparse_file_resparse] get theirs from the
    caller; a transfer runs as long as its schedule, and C26 and
    C11 show that there are schedules to its end.

    ** What the theorems show

    - Block lists: queueing, splitting and moving keep the list ordered, without
      overlaps, and lose no data (C5,
      [backed_block_split_correct], [backed_block_list_move_correct]).
    - Writing: the sparse and normal forms are exactly the specified bytes, and
      their length is the announced one (C2,
      C3, [sparse_file_len_correct]); reads that are short
      are completed ([read_all_correct]), callbacks are asked for exactly the
      skipped bytes ([callback_file_skip_total]), rejected writes are reported by
      the chunk writers ([sparse_chunk_write_error]). The back ends meet the
      interfaces [AppendDevice] and [ImageDevice], against which the writers are
      proved.
    - Reading: importing restores the image, expanding it gives the image
      (C1, C4); checksums are verified
      ([import_checks_crc], [crc_roundtrip]) with the table of the reflected
      CRC-32 (C21, [sparse_crc32_incremental]).
    - Configuration trees: loading always terminates (C39) and
      inverts printing (C31); setting and finding agree
      ([config_set_find]).
    - Disk layout: partitions are ordered, disjoint and inside the disk
      (C9); the committed table holds exactly their entries
      (C10); raw images are copied whole ([write_raw_image_copies]).
    - Hash map: it refines a finite map, for any hash and equality functions
      that meet the interface [HashKey] (C8,
      [hashmapCreate_correct], [forEach_visits]); so do the tables of commands
      ([aboot_register_cmd_correct]).
    - Server: every command that is read gets its own complete answer, for handlers
      that meet [HandlerOk] (C6), and those of [Aboot] do, but for two
      (C12); downloads are stored exactly (C7);
      responses of any length arrive whole (C38); files are pulled whole
      ([pull_file_correct]); variables are answered ([getvar_published]); a low
      battery blocks writing commands ([battery_blocks]); erasing formats the
      right volume and tells whether it did (C25); pushed files stay in their directory
      ([push_to_correct]); flashing from memory writes the image
      ([flash_loop_writes]).
    - Streaming flash: in every interleaving no piece is lost on the way and the
      threads exclude each other (C20); they can always finish
      (C26); for images of one buffer [OKAY] means flashed
      (C11, [stream_one_piece]).
    - Configuration files: a lookup finds the value of the first line with the
      key ([config_parser_lookup]), the configuration keys take the values of the
      file ([load_config_values]), setting and getting a key agree
      ([tboot_config_set_get]).
    - Strings and streams: 16-bit strings come back from 8 bits
      (C32), in buffers of the computed sizes
      ([strdup8to16_fits], [strnlen16to8_correct]); records come out of a stream
      as they went in, however the reads cut it (C33).
    - Battery: the batteries are found and their files read
      (C30), and freed when the array has room
      ([battery_free_correct]).
    - Volumes: loading a printed table gives the table back
      ([load_volume_table_print]), a path is looked up at the volume that holds it
      ([volume_for_path_correct]). The backlight follows the requests and its
      timeout ([backlight_follows]).
    - Main program: the last value of an option counts ([import_options_correct]);
      keys stop or shorten the countdown (C29,
      [autoboot_cancelled]); no kernel is started without its files
      ([start_kernel_checked]); a key that wakes the display does nothing else
      ([input_wakes]); the status follows the kernel's messages
      ([uevent_thread_follows], C28) and decides the battery
      check ([check_battery_correct]). Files are written whole
      ([named_file_write_correct]), parameters and arguments are split and joined
      ([import_kernel_cmdline_words], [array_to_string_join]).
    - Screen and keys: the windows fill the screen without overlapping
      (C23), with the values of the configuration
      ([ui_load_config_values]); a text area shows the end of what was put in it
      (C27); the menu follows the keys ([menu_follows_keys],
      [menu_entry_reboots]) and the bar stays inside its frame
      ([bouncebar_inside]); the devices that report keys are opened and their events
      go to their functions ([ev_init_devices], [ev_add_fd_correct],
      [ev_dispatch_calls]), and the keys that are held are told
      ([ev_sync_key_state_correct]).
    - Files and reboots: a file is loaded whole ([load_file_whole]); a reboot is
      asked for as the command says ([preos_reboot_correct]), and waiting for the
      read-only file systems ends when there are none left
      ([remount_ro_done_correct]).
    - File systems: the allocator starts with exactly the headers marked
      (C24), reserves, takes and gives back exactly the
      blocks asked for (C17,
      [reduce_allocation_correct]), and chooses free inodes
      ([allocate_inode_correct]). What is written is stated against a reader of
      the format: the extents of an inode lead to the contents
      (C16,
      [inode_allocate_file_extents_correct]), the bytes of a directory give back
      its entries (C19), and directories and files built one
      after another are all found, each in blocks of its own
      (C18, C22,
      C37, [build_default_directory_structure_correct]). The
      identifier is made with SHA-1 (C34,
      [generate_uuid_correct]), the super block is read back
      (C35) and its counters are those of the bitmaps
      ([ext4_update_free_correct]); the resize inode names the reserved
      blocks, but for the words the code gets wrong (C36,
      [resize_index_intended]). All of it together: [make_ext4fs]
      leaves the image of an empty file system in the queue
      (C15) and hands it to the writer, whose result it drops
      (C14); through
      [libsparse] and down to the bytes, the file is the file system: a reader
      finds the super block, the descriptors, bitmaps that agree with the counts,
      and the directories (C13). The memory the writer
      sees is a parameter that holds the buffers of the state; one such memory is
      [memory_image]. Walking a list of regions takes one round per node of the
      heap and one more.
    - Flaws of the code, as theorems on the same definitions:
      [stream_flash_no_thread], [setup_bypassed], [autoboot_stuck],
      C40, [stream_swaps_pieces], [writer_spins],
      [reader_after_free], [second_buffer_double_free], [cmd_oem_blank],
      [erase_first_device], [push_no_space], [named_file_write_interrupted],
      [bootdir_sets_part], [countdown_bar], [preos_version_unterminated],
      [uevent_unterminated], [own_crc_rejected], [add_fill_use_after_free],
      [split_file_double_free], [sparse_file_write_full_device],
      [merge_fill_wraps], [end_chunk_ignores_error],
      [write_partial_block_asserts], [raw_write_short], [pull_file_read_error],
      [read_normal_use_after_free], [import_crc_null_deref], [ack_write_error],
      [config_mbr_overflow], [queue_bb_duplicate],
      [config_parser_init_undefined], [strcpylen8to16_zero],
      [strcpylen8to16_reads_past], [strdup8to16_no_memory], [record_too_long],
      [record_length_wraps], [battery_free_reads_past],
      [battery_status_reads_past], [battery_dirs_not_cleared],
      [capacity_level_taken], [capacity_stale], [status_stale],
      [key_without_value], [charge_overflow], [textarea_refresh_early],
      [textarea_no_lines], [textarea_not_cleared], [narrow_font_overflows],
      [empty_bar_color], [empty_menu_selected], [color_saturates],
      [menu_result_unset], [preos_reboot_unknown], [ev_init_twice],
      [ev_sync_wrong_order].

    ** What is not modelled

    Of the user interface: opening and closing the display ([tboot_ui_init],
    [tboot_ui_exit]), which are calls of DirectFB, and the functions that free
    widgets. The drawing operations are the results of the models; the server and
    the main program only record that they call the interface. zlib is a parameter
    of the gzip back end, the line breaking of fonts one of the widgets, and the
    functions of plugins are parameters of the commands. Of [aboot.c], three
    functions that nothing registers are left out, of [tboot.c] the body of [main],
    which starts the threads in order, and what only prints; of [ext4_utils] the
    fixing tool and the command-line programs, which tboot does not call; of
    [libcutils] the files it does not link, but for those named above; and
    [charging.c], which nothing calls. There is no theorem on
    [sparse_file_resparse], whose model is used by no other part. *)

From stdpp Require Export base numbers list strings gmap.
From Stdlib Require Export Lia ZArith.

#[export] Set Default Goal Selector "!".

Global Open Scope Z_scope.

(** ** Machine integers

    The program is built with [-m32]: [int], [unsigned], [long] and [size_t]
    are 32 bits wide, [int64_t], [long long] and [loff_t] are 64 bits wide.
    A machine integer is a [Z] in its range; arithmetic that may leave the
    range is written with the conversion functions below. *)

Definition u8 (z : Z) : Z := z mod 2 ^ 8.
Definition u16 (z : Z) : Z := z mod 2 ^ 16.
Definition u32 (z : Z) : Z := z mod 2 ^ 32.
Definition u64 (z : Z) : Z := z mod 2 ^ 64.
Definition s32 (z : Z) : Z :=
  let w := z mod 2 ^ 32 in if w <? 2 ^ 31 then w else w - 2 ^ 32.
Definition s64 (z : Z) : Z :=
  let w := z mod 2 ^ 64 in if w <? 2 ^ 63 then w else w - 2 ^ 64.

(** Integer macros of [libsparse/sparse_defs.h], over mathematical integers;
    the callers say at which width they are evaluated. *)

Definition DIV_ROUND_UP (x y : Z) : Z := (x + y - 1) / y.
Definition ALIGN (x y : Z) : Z := y * DIV_ROUND_UP x y.
Definition ALIGN_DOWN (x y : Z) : Z := y * (x / y).

(** ** Outcomes

    C code either returns a value, stops in a failed [assert], or does
    something the language does not define (a dereference of freed or null
    memory, a division by zero). [NoFuel] is the value of a loop that was cut
    off after the number of rounds its definition allows; the theorems show
    that the code does not reach it. *)

Inductive outcome (A : Type) : Type :=
  | Ok (a : A)
  | AssertFail
  | Undef
  | NoFuel.
Arguments Ok {A} a.
Arguments AssertFail {A}.
Arguments Undef {A}.
Arguments NoFuel {A}.

Definition obind {A B : Type} (m : outcome A) (k : A -> outcome B) : outcome B :=
  match m with
  | Ok a => k a
  | AssertFail => AssertFail
  | Undef => Undef
  | NoFuel => NoFuel
  end.

Definition oof {A : Type} (m : option A) : outcome A :=
  match m with Some a => Ok a | None => Undef end.

Declare Scope tboot_scope.
Delimit Scope tboot_scope with tboot.
Notation "'let!' p := m 'in' k" :=
  (obind m (fun x => match x with p => k end))
  (at level 10, p pattern, m at level 100, k at level 200) : tboot_scope.
Global Open Scope tboot_scope.

#[export] Instance outcome_eq_dec {A} `{EqDecision A} : EqDecision (outcome A).
Proof. solve_decision. Defined.

(** ** Bytes

    A byte is a [Z] below 256; a buffer is a list of bytes. [le_bytes n z] is
    the [n]-byte little-endian image of [z], the layout the target (x86) gives
    integers in memory. *)

Definition byte_ok (b : Z) : Prop := 0 <= b < 256.
Definition bytes_ok (l : list Z) : Prop := Forall byte_ok l.
Definition bytes_okb (l : list Z) : bool := forallb (fun b => (0 <=? b) && (b <? 256)) l.

Fixpoint le_bytes (n : nat) (z : Z) : list Z :=
  match n with
  | O => []
  | S n' => z mod 256 :: le_bytes n' (z / 256)
  end.

Arguments le_bytes : simpl never.

Fixpoint le_val (l : list Z) : Z :=
  match l with
  | [] => 0
  | b :: l' => b + 256 * le_val l'
  end.

Definition zlen {A : Type} (l : list A) : Z := Z.of_nat (length l).
Definition zeros (n : Z) : list Z := replicate (Z.to_nat n) 0.

(** [sub_bytes l off n]: the bytes of [l] in [off, off+n), as many as exist. *)
Definition sub_bytes {A : Type} (l : list A) (off n : Z) : list A :=
  take (Z.to_nat n) (drop (Z.to_nat off) l).

(** ** Generic lemmas *)

Ltac wrap_pow :=
  change (2 ^ 8) with 256 in *; change (2 ^ 16) with 65536 in *;
  change (2 ^ 31) with 2147483648 in *;
  change (2 ^ 32) with 4294967296 in *;
  change (2 ^ 63) with 9223372036854775808 in *;
  change (2 ^ 64) with 18446744073709551616 in *.

Lemma u8_id z : 0 <= z < 2 ^ 8 -> u8 z = z.
Proof. intros. apply Z.mod_small. lia. Qed.

Lemma u16_id z : 0 <= z < 2 ^ 16 -> u16 z = z.
Proof. intros. apply Z.mod_small. lia. Qed.

Lemma u32_id z : 0 <= z < 2 ^ 32 -> u32 z = z.
Proof. intros. apply Z.mod_small. lia. Qed.

Lemma u64_id z : 0 <= z < 2 ^ 64 -> u64 z = z.
Proof. intros. apply Z.mod_small. lia. Qed.

Lemma u32_range z : 0 <= u32 z < 2 ^ 32.
Proof. apply Z.mod_pos_bound. lia. Qed.

Lemma u64_range z : 0 <= u64 z < 2 ^ 64.
Proof. apply Z.mod_pos_bound. lia. Qed.

Lemma s32_id z : - 2 ^ 31 <= z < 2 ^ 31 -> s32 z = z.
Proof.
  unfold s32. wrap_pow. intros.
  destruct (Z.ltb_spec (z mod 4294967296) 2147483648); Z.div_mod_to_equations; lia.
Qed.

Lemma s64_id z : - 2 ^ 63 <= z < 2 ^ 63 -> s64 z = z.
Proof.
  unfold s64. wrap_pow. intros.
  destruct (Z.ltb_spec (z mod 18446744073709551616) 9223372036854775808);
    Z.div_mod_to_equations; lia.
Qed.

Lemma s64_mod a b : a mod 2 ^ 64 = b mod 2 ^ 64 -> s64 a = s64 b.
Proof. unfold s64. by intros ->. Qed.

Lemma s64_eqm z : s64 z mod 2 ^ 64 = z mod 2 ^ 64.
Proof.
  unfold s64. wrap_pow.
  destruct (Z.ltb_spec (z mod 18446744073709551616) 9223372036854775808);
    Z.div_mod_to_equations; lia.
Qed.

Lemma s64_add_l a b : s64 (s64 a + b) = s64 (a + b).
Proof. apply s64_mod. by rewrite Zplus_mod, s64_eqm, <- Zplus_mod. Qed.

Lemma s64_s64 z : s64 (s64 z) = s64 z.
Proof. apply s64_mod, s64_eqm. Qed.

Lemma le_bytes_S n z : le_bytes (S n) z = z mod 256 :: le_bytes n (z / 256).
Proof. done. Qed.

Lemma le_bytes_length n z : length (le_bytes n z) = n.
Proof. revert z. induction n as [|n IH]; intros z; [done|]. rewrite le_bytes_S. simpl. by rewrite IH. Qed.

Lemma le_bytes_ok n z : bytes_ok (le_bytes n z).
Proof.
  revert z. induction n as [|n IH]; intros z; [constructor|]. rewrite le_bytes_S. constructor; [|apply IH].
  apply Z.mod_pos_bound. lia.
Qed.

Lemma le_val_bytes n z : le_val (le_bytes n z) = z mod 256 ^ Z.of_nat n.
Proof.
  revert z. induction n as [|n IH]; intros z.
  - simpl. by rewrite Z.mod_1_r.
  - rewrite le_bytes_S. simpl le_val. rewrite IH, Nat2Z.inj_succ, Z.pow_succ_r by lia.
    rewrite Z.rem_mul_r; [lia | lia | apply Z.pow_pos_nonneg; lia].
Qed.

Lemma le_val_bytes_id n z : 0 <= z < 256 ^ Z.of_nat n -> le_val (le_bytes n z) = z.
Proof. intros. rewrite le_val_bytes. by apply Z.mod_small. Qed.

Lemma bytes_okb_ok l : bytes_okb l = true -> bytes_ok l.
Proof.
  unfold bytes_okb, bytes_ok. rewrite forallb_forall. intros H.
  apply Forall_forall. intros x Hx. specialize (H x (proj1 (list_elem_of_In _ _) Hx)).
  unfold byte_ok. lia.
Qed.

Lemma zlen_nonneg {A} (l : list A) : 0 <= zlen l.
Proof. unfold zlen. lia. Qed.

Lemma zlen_app {A} (l k : list A) : zlen (l ++ k) = zlen l + zlen k.
Proof. unfold zlen. rewrite length_app. lia. Qed.

Lemma zlen_nil {A} : zlen (@nil A) = 0.
Proof. done. Qed.

Lemma zlen_cons {A} (x : A) l : zlen (x :: l) = 1 + zlen l.
Proof. unfold zlen. simpl. lia. Qed.

Lemma zlen_le_bytes n z : zlen (le_bytes n z) = Z.of_nat n.
Proof. unfold zlen. by rewrite le_bytes_length. Qed.

Lemma zeros_app a b : 0 <= a -> 0 <= b -> zeros (a + b) = zeros a ++ zeros b.
Proof. intros. unfold zeros. rewrite Z2Nat.inj_add by lia. apply replicate_add. Qed.

Lemma zlen_zeros n : 0 <= n -> zlen (zeros n) = n.
Proof. intros. unfold zlen, zeros. rewrite length_replicate. lia. Qed.

Lemma zlen_sub {A} (l : list A) off n :
  0 <= off -> 0 <= n -> off + n <= zlen l -> zlen (sub_bytes l off n) = n.
Proof.
  unfold zlen, sub_bytes. intros. rewrite length_take, length_drop. lia.
Qed.

Lemma sub_bytes_app_l {A} (l k : list A) off n :
  0 <= off -> 0 <= n -> off + n <= zlen l -> sub_bytes (l ++ k) off n = sub_bytes l off n.
Proof.
  unfold zlen, sub_bytes. intros. rewrite drop_app_le by lia.
  rewrite take_app_le; [done|]. rewrite length_drop. lia.
Qed.

Lemma sub_bytes_app_r {A} (l k : list A) off n :
  zlen l <= off -> sub_bytes (l ++ k) off n = sub_bytes k (off - zlen l) n.
Proof.
  unfold zlen, sub_bytes. intros. rewrite drop_app_ge by lia.
  do 2 f_equal. lia.
Qed.

Lemma sub_bytes_all {A} (l : list A) n : zlen l <= n -> sub_bytes l 0 n = l.
Proof. unfold zlen, sub_bytes. intros. simpl. apply take_ge. lia. Qed.

Lemma sub_bytes_exact {A} (pre l post : list A) off n :
  off = zlen pre -> n = zlen l -> sub_bytes (pre ++ l ++ post) off n = l.
Proof.
  intros -> ->. rewrite sub_bytes_app_r by lia. rewrite Z.sub_diag.
  pose proof (zlen_nonneg l).
  rewrite sub_bytes_app_l by lia. by apply sub_bytes_all.
Qed.

Lemma take_sub_app {A} (l : list A) off n k :
  0 <= off -> 0 <= n -> 0 <= k -> sub_bytes l off n ++ sub_bytes l (off + n) k = sub_bytes l off (n + k).
Proof.
  intros. unfold sub_bytes. rewrite !Z2Nat.inj_add, <- drop_drop by lia.
  generalize (drop (Z.to_nat off) l). intros m. rewrite (Nat.add_comm _ (Z.to_nat k)), Nat.add_comm.
  by rewrite take_take_drop.
Qed.

Lemma sub_sub_bytes {A} (l : list A) a n o m : 0 <= a -> 0 <= o -> 0 <= m -> o + m <= n -> sub_bytes (sub_bytes l a n) o m = sub_bytes l (a + o) m.
Proof.
  intros Ha Ho Hm Hn. unfold sub_bytes. rewrite skipn_firstn_comm, take_take, drop_drop. f_equal; [lia|]. f_equal. lia.
Qed.

Lemma DIV_ROUND_UP_mul k y : 0 < y -> DIV_ROUND_UP (k * y) y = k.
Proof.
  intros. unfold DIV_ROUND_UP. symmetry.
  apply (Z.div_unique (k * y + y - 1) y k (y - 1)); lia.
Qed.

Lemma DIV_ROUND_UP_bound x y : 0 < y -> y * DIV_ROUND_UP x y - y < x <= y * DIV_ROUND_UP x y.
Proof. intros. unfold DIV_ROUND_UP. Z.div_mod_to_equations. nia. Qed.

Lemma DIV_ROUND_UP_pos x y : 0 < y -> 0 < x -> 0 < DIV_ROUND_UP x y.
Proof. intros. pose proof (DIV_ROUND_UP_bound x y). nia. Qed.

Lemma DIV_ROUND_UP_nonneg x y : 0 < y -> 0 <= x -> 0 <= DIV_ROUND_UP x y.
Proof. intros. pose proof (DIV_ROUND_UP_bound x y). nia. Qed.

(** ** Automation *)

Create HintDb tboot.
Create Rewrite HintDb zlen.
#[export] Hint Resolve le_bytes_ok zlen_nonneg u32_range : tboot.
#[export] Hint Rewrite @zlen_app @zlen_cons @zlen_nil zlen_le_bytes : zlen.

(** Closes [bytes_ok] of a concrete buffer by evaluation. *)
Ltac bytes_tac := apply bytes_okb_ok; vm_compute; reflexivity.

(** Splits a boolean test of the code into its two arithmetic cases. *)
Ltac bool_cases :=
  repeat match goal with
  | |- context [if (?a <? ?b) then _ else _] => destruct (Z.ltb_spec a b)
  | |- context [if (?a <=? ?b) then _ else _] => destruct (Z.leb_spec a b)
  | |- context [if (?a =? ?b) then _ else _] => destruct (Z.eqb_spec a b)
  end.
