(* ===== verification/Jstring.v ===== *)
(** * Strings of 8 and of 16 bits

    [libcutils/strdup8to16.c] and [libcutils/strdup16to8.c]: between Java's
    modified UTF-8 and UTF-16, with the lengths that the buffers get. *)

From S2P Require Import Prelude.

Module Jstring.

Definition SIZE_MAX : Z := 2 ^ 32 - 1.
Definition UTF16_REPLACEMENT_CHAR : Z := 0xfffd.
Definition UNICODE_UPPER_LIMIT : Z := 0x10fffd.

(** A [char] is signed. *)
Definition s8 (b : Z) : Z := if b <? 128 then b else b - 256.

(** ** From 8 to 16 bits

    A pointer into a string is what is left of the memory it points to. *)

Definition UTF8_SEQ_LENGTH (ch : Z) : Z :=
  Z.land (Z.shiftr 0xe5000000 (Z.land (Z.shiftr ch 3) 0x1e)) 3 + 1.

(** [(byte & 0xc0) == 0x80] *)
Definition extension (b : Z) : bool := Z.land (s8 b) 0xc0 =? 0x80.

Fixpoint strlen_loop (s : list Z) (len expected : Z) : outcome Z :=
  match s with
  | [] => Undef
  | ic :: s =>
      if ic =? 0 then Ok len
      else if extension ic then
        let expected := s32 (expected - 1) in
        strlen_loop s (if expected <? 0 then u32 (len + 1) else len) expected
      else
        let len := u32 (len + 1) in
        let expected := UTF8_SEQ_LENGTH (s8 ic) - 1 in
        strlen_loop s (if expected =? 3 then u32 (len + 1) else len) expected
  end.

Definition strlen8to16 (utf8Str : list Z) : outcome Z := strlen_loop utf8Str 0 0.

Definition leaderMask (i : Z) : Z := nth (Z.to_nat i) [s8 0xff; 0x1f; 0x0f; 0x07] 0.

Definition UTF8_SHIFT_AND_MASK (unicode byte : Z) : Z :=
  Z.lor (u32 (Z.shiftl unicode 6)) (Z.land 0x3f (s8 byte)).

(** The extension bytes of a sequence: [n] are left. *)
Fixpoint extension_loop (n : nat) (ret : Z) (p : list Z) : outcome (Z * list Z) :=
  match n with
  | O => Ok (ret, p)
  | S n =>
      match p with
      | [] => Undef
      | b :: p' =>
          if b =? 0 then Ok (UTF16_REPLACEMENT_CHAR, p)
          else if negb (extension b) then Ok (UTF16_REPLACEMENT_CHAR, p)
          else extension_loop n (UTF8_SHIFT_AND_MASK ret b) p'
      end
  end.

(** The next character, and the pointer behind it. *)
Definition getUtf32FromUtf8 (p : list Z) : outcome (Z * list Z) :=
  match p with
  | [] => Undef
  | b :: p' =>
      if extension b then Ok (UTF16_REPLACEMENT_CHAR, p')
      else
        let seq_len := UTF8_SEQ_LENGTH (s8 b) in
        let ret := u32 (Z.land (s8 b) (leaderMask (seq_len - 1))) in
        if b =? 0 then Ok (ret, p) else extension_loop (Z.to_nat (seq_len - 1)) ret p'
  end.

(** The units written for a character. *)
Definition utf16_units (ret : Z) : list Z :=
  if ret <=? 0xffff then [u16 ret]
  else if ret <=? UNICODE_UPPER_LIMIT then
    [u16 (Z.lor 0xd800 (Z.shiftr (ret - 0x10000) 10)); u16 (Z.lor 0xdc00 (Z.land (ret - 0x10000) 0x3ff))]
  else [UTF16_REPLACEMENT_CHAR].

(** Writing behind what is written, in a buffer for [cap] units. *)
Definition write_units (cap : Z) (dest units : list Z) : outcome (list Z) :=
  if zlen dest + zlen units <=? cap then Ok (dest ++ units) else Undef.

Fixpoint copy_loop (fuel : nat) (cap : Z) (utf8Str dest : list Z) : outcome (list Z) :=
  match fuel with
  | O => NoFuel
  | S f =>
      match utf8Str with
      | [] => Undef
      | b :: _ =>
          if b =? 0 then Ok dest
          else
            let! (ret, utf8Str) := getUtf32FromUtf8 utf8Str in
            let! dest := write_units cap dest (utf16_units ret) in
            copy_loop f cap utf8Str dest
      end
  end.

(** The units, whose number is [*out_len]. *)
Definition strcpy8to16 (cap : Z) (utf8Str : list Z) : outcome (list Z) :=
  copy_loop (S (length utf8Str)) cap utf8Str [].

(** [end] is reached when [stop] bytes are left. *)
Fixpoint copylen_loop (fuel : nat) (cap stop : Z) (utf8Str dest : list Z) : outcome (list Z) :=
  match fuel with
  | O => NoFuel
  | S f =>
      if zlen utf8Str <=? stop then Ok dest
      else
        let! (ret, utf8Str) := getUtf32FromUtf8 utf8Str in
        let! dest := write_units cap dest (utf16_units ret) in
        copylen_loop f cap stop utf8Str dest
  end.

Definition strcpylen8to16 (fuel : nat) (cap : Z) (utf8Str : list Z) (length : Z) : outcome (list Z) :=
  copylen_loop fuel cap (zlen utf8Str - length) utf8Str [].

(** [alloc] tells if [malloc] succeeds; without memory the copy goes through
    [NULL]. *)
Definition strdup8to16 (alloc : bool) (s : option (list Z)) : outcome (option (list Z)) :=
  match s with
  | None => Ok None
  | Some s =>
      let! len := strlen8to16 s in
      if negb (len =? 0) && (SIZE_MAX / len <? 2) then Ok None
      else let! units := strcpy8to16 (if alloc then len else 0) s in Ok (if alloc then Some units else None)
  end.

(** ** From 16 to 8 bits *)

Definition utf8_width (uic : Z) : Z :=
  if 0x07ff <? uic then 3 else if (0x7f <? uic) || (uic =? 0) then 2 else 1.

Fixpoint fast_loop (utf16Str : list Z) (utf8Len : Z) : Z :=
  match utf16Str with
  | [] => utf8Len
  | uic :: l => fast_loop l (u32 (utf8Len + utf8_width uic))
  end.

Fixpoint paranoid_loop (utf16Str : list Z) (utf8Len : Z) : Z :=
  match utf16Str with
  | [] => if utf8Len =? SIZE_MAX then SIZE_MAX - 1 else utf8Len
  | uic :: l =>
      let utf8Cur := utf8Len in
      let utf8Len := u32 (utf8Len + utf8_width uic) in
      if utf8Len <? utf8Cur then SIZE_MAX - 1 else paranoid_loop l utf8Len
  end.

(** The string is its units, [len] of them. *)
Definition strnlen16to8 (utf16Str : list Z) : Z :=
  if zlen utf16Str <? (SIZE_MAX - 1) / 3 then fast_loop utf16Str 0 else paranoid_loop utf16Str 0.

(** The bytes of a unit, and whether the loop goes on. *)
Definition utf8_bytes (uic : Z) : list Z * bool :=
  if 0x07ff <? uic then
    ([u8 (Z.lor (Z.shiftr uic 12) 0xe0); u8 (Z.lor (Z.land (Z.shiftr uic 6) 0x3f) 0x80); u8 (Z.lor (Z.land uic 0x3f) 0x80)], true)
  else if (0x7f <? uic) || (uic =? 0) then
    ([u8 (Z.lor (Z.shiftr uic 6) 0xc0); u8 (Z.lor (Z.land uic 0x3f) 0x80)], true)
  else ([u8 uic], negb (uic =? 0)).

(** Writing into a buffer of [cap] bytes, the end included. *)
Fixpoint encode_loop (cap : Z) (utf16Str utf8 : list Z) : outcome (list Z) :=
  match utf16Str with
  | [] => write_units cap utf8 [0]
  | uic :: l =>
      let '(bytes, more) := utf8_bytes uic in
      let! utf8 := write_units cap utf8 bytes in
      if more then encode_loop cap l utf8 else write_units cap utf8 [0]
  end.

Definition strncpy16to8 (cap : Z) (utf16Str : list Z) : outcome (list Z) := encode_loop cap utf16Str [].

Definition strndup16to8 (alloc : bool) (s : option (list Z)) : outcome (option (list Z)) :=
  match s with
  | None => Ok None
  | Some s =>
      let len := strnlen16to8 s in
      if SIZE_MAX - 1 <=? len then Ok None
      else if negb alloc then Ok None
      else let! bytes := strncpy16to8 (len + 1) s in Ok (Some bytes)
  end.

(** ** Lemmas: bits of a byte *)

Lemma check_bytes (P : Z -> bool) : forallb P (seqZ 0 256) = true -> forall b, byte_ok b -> P b = true.
Proof.
  rewrite forallb_forall. intros H b Hb. apply H, list_elem_of_In, elem_of_seqZ. unfold byte_ok in Hb. lia.
Qed.

Lemma extension_range b : byte_ok b -> extension b = (128 <=? b) && (b <? 192).
Proof.
  intros Hb. apply eqb_prop. revert b Hb. apply check_bytes. vm_compute. reflexivity.
Qed.

(** The length of the sequence a byte starts. *)
Definition seq_len (b : Z) : Z := if b <? 192 then 1 else if b <? 224 then 2 else if b <? 240 then 3 else 4.

Lemma seq_length_range b : byte_ok b -> UTF8_SEQ_LENGTH (s8 b) = seq_len b.
Proof.
  intros Hb. apply Z.eqb_eq. revert b Hb. apply check_bytes. vm_compute. reflexivity.
Qed.

(** What the first byte of a sequence adds. *)
Definition lead_bits (b : Z) : Z :=
  if b <? 192 then b else if b <? 224 then b - 192 else if b <? 240 then b - 224 else b mod 8.

Lemma lead_range b : byte_ok b -> extension b = false ->
  u32 (Z.land (s8 b) (leaderMask (seq_len b - 1))) = lead_bits b.
Proof.
  intros Hb He. assert (extension b || (u32 (Z.land (s8 b) (leaderMask (seq_len b - 1))) =? lead_bits b) = true) as H
    by (clear He; revert b Hb; apply check_bytes; vm_compute; reflexivity).
  rewrite He in H. apply Z.eqb_eq. exact H.
Qed.

Lemma low_bits b : byte_ok b -> Z.land 0x3f (s8 b) = b mod 64.
Proof.
  intros Hb. apply Z.eqb_eq. revert b Hb. apply check_bytes. vm_compute. reflexivity.
Qed.

Lemma lor_low a b k : 0 <= k -> 0 <= b < 2 ^ k -> Z.lor (a * 2 ^ k) b = a * 2 ^ k + b.
Proof.
  intros Hk Hb. assert (Z.land (a * 2 ^ k) b = 0) as H0.
  { apply Z.bits_inj'. intros n Hn. rewrite Z.land_spec, Z.bits_0. destruct (Z.lt_ge_cases n k) as [H|H].
    - rewrite Z.mul_pow2_bits_low by exact H. reflexivity.
    - assert (2 ^ k <= 2 ^ n) by (apply Z.pow_le_mono_r; lia).
      rewrite (Z.testbit_eqb b n), Z.div_small by lia. apply andb_false_r. }
  rewrite <- Z.lxor_lor by exact H0. symmetry. apply Z.add_nocarry_lxor. exact H0.
Qed.

Lemma shift_and_mask ret b : 0 <= ret < 2 ^ 26 -> byte_ok b -> UTF8_SHIFT_AND_MASK ret b = ret * 64 + b mod 64.
Proof.
  intros Hr Hb. unfold UTF8_SHIFT_AND_MASK. rewrite low_bits by exact Hb. rewrite Z.shiftl_mul_pow2 by lia.
  rewrite u32_id by lia. apply (lor_low ret (b mod 64) 6); [lia|]. apply Z.mod_pos_bound. lia.
Qed.

(** ** Lemmas: from 8 to 16 bits *)

(** A string in memory: bytes, with an end. *)
Definition c_string (s : list Z) : Prop := bytes_ok s /\ 0 ∈ s.

Lemma c_string_cons b s : c_string (b :: s) -> b <> 0 -> byte_ok b /\ c_string s.
Proof.
  intros (Hb & Hz) Hne. apply Forall_cons in Hb as [Hb Hs]. split; [exact Hb|]. split; [exact Hs|].
  apply elem_of_cons in Hz as [Hz|Hz]; [congruence|exact Hz].
Qed.

(** What [strlen8to16] counts, without bounds. *)
Fixpoint count_units (s : list Z) (expected : Z) : Z :=
  match s with
  | [] => 0
  | b :: s =>
      if b =? 0 then 0
      else if extension b then (if expected - 1 <? 0 then 1 else 0) + count_units s (expected - 1)
      else (if seq_len b =? 4 then 2 else 1) + count_units s (seq_len b - 1)
  end.

Lemma count_bound s : forall e, 0 <= count_units s e <= 2 * zlen s.
Proof.
  induction s as [|b s IH]; intros e; [unfold zlen; cbn; lia|]. rewrite zlen_cons. cbn [count_units].
  pose proof (zlen_nonneg s). destruct (b =? 0); [lia|]. destruct (extension b).
  - specialize (IH (e - 1)). destruct (_ <? 0); lia.
  - specialize (IH (seq_len b - 1)). destruct (_ =? 4); lia.
Qed.

Lemma strlen_counts s : forall len e, c_string s -> 0 <= len -> len + 2 * zlen s < 2 ^ 32 -> zlen s - 2 ^ 31 <= e < 2 ^ 31 ->
  strlen_loop s len e = Ok (len + count_units s e).
Proof.
  induction s as [|b s IH]; intros len e Hs Hl Hb He; [destruct Hs as (_ & Hz); inversion Hz|].
  rewrite zlen_cons in *. pose proof (zlen_nonneg s). cbn [strlen_loop count_units]. destruct (Z.eqb_spec b 0) as [->|Hne]; [f_equal; lia|].
  destruct (c_string_cons b s Hs Hne) as (Hbyte & Hs'). destruct (extension b).
  - rewrite s32_id by lia. destruct (e - 1 <? 0); rewrite ?u32_id by lia; rewrite IH by (auto; lia); f_equal; lia.
  - rewrite (seq_length_range b Hbyte). rewrite (u32_id (len + 1)) by lia. unfold seq_len.
    destruct (b <? 192); [|destruct (b <? 224); [|destruct (b <? 240)]];
      match goal with |- context [?a - 1 =? 3] => let v := eval vm_compute in (a - 1 =? 3) in change (a - 1 =? 3) with v end;
      match goal with |- context [?a =? 4] => let v := eval vm_compute in (a =? 4) in change (a =? 4) with v end;
      cbv iota; rewrite ?u32_id by lia; rewrite IH by (auto; lia); f_equal; lia.
Qed.

(** The string goes on with a character. *)
Definition fresh_start (s : list Z) (e : Z) : Prop := e <= 0 \/ forall b s', s = b :: s' -> extension b = false.

Lemma extension_steps n : forall ret p, c_string p -> 0 <= ret -> (ret + 1) * 64 ^ Z.of_nat n <= 2 ^ 26 ->
  exists r p' e, extension_loop n ret p = Ok (r, p') /\ c_string p' /\ (length p' <= length p)%nat /\
    count_units p (Z.of_nat n) = count_units p' e /\ fresh_start p' e /\
    (r = UTF16_REPLACEMENT_CHAR \/ 0 <= r < (ret + 1) * 64 ^ Z.of_nat n).
Proof.
  induction n as [|n IH]; intros ret p Hp Hr Hm.
  - exists ret, p, 0. split; [reflexivity|]. split; [exact Hp|]. split; [lia|]. split; [reflexivity|]. split; [left; lia|right; cbn; lia].
  - rewrite Nat2Z.inj_succ in Hm |- *. rewrite (Z.pow_succ_r 64 (Z.of_nat n)) in Hm |- * by lia. cbn [extension_loop]. destruct p as [|b p]; [destruct Hp as (_ & Hz); inversion Hz|].
    assert (1 <= 64 ^ Z.of_nat n) by (apply (Z.pow_le_mono_r 64 0); lia).
    destruct (Z.eqb_spec b 0) as [->|Hne].
    { exists UTF16_REPLACEMENT_CHAR, (0 :: p), 0. split; [reflexivity|]. split; [exact Hp|]. split; [lia|].
      split; [reflexivity|]. split; [left; lia|left; reflexivity]. }
    destruct (extension b) eqn:Eb; cbn [negb].
    + destruct (c_string_cons b p Hp Hne) as (Hb & Hp'). rewrite shift_and_mask by (auto; nia).
      pose proof (Z.mod_pos_bound b 64 ltac:(lia)) as Hm64.
      destruct (IH (ret * 64 + b mod 64) p Hp' ltac:(lia)) as (r & p' & e & E & Hc & Hlen & Hcnt & Hfs & Hbound);
        [nia|].
      exists r, p', e. split; [exact E|]. split; [exact Hc|]. split; [cbn [length]; lia|]. split.
      * cbn [count_units]. rewrite (proj2 (Z.eqb_neq b 0) Hne), Eb. replace (Z.succ (Z.of_nat n) - 1) with (Z.of_nat n) by lia.
        rewrite (proj2 (Z.ltb_ge (Z.of_nat n) 0)) by lia. exact Hcnt.
      * split; [exact Hfs|]. destruct Hbound as [Hx|Hx]; [left; exact Hx|right; nia].
    + exists UTF16_REPLACEMENT_CHAR, (b :: p), (Z.succ (Z.of_nat n)). split; [reflexivity|]. split; [exact Hp|]. split; [lia|].
      split; [reflexivity|]. split; [right; intros c q [= <- <-]; exact Eb|left; reflexivity].
Qed.


Lemma units_length r : 1 <= zlen (utf16_units r) <= 2.
Proof. unfold utf16_units, zlen. destruct (_ <=? _); [cbn [length]; lia|]. destruct (_ <=? _); cbn [length]; lia. Qed.

Lemma units_short r : r <= 0xffff -> zlen (utf16_units r) = 1.
Proof. intros H. unfold utf16_units. rewrite (proj2 (Z.leb_le _ _)) by lia. reflexivity. Qed.

Lemma lead_bound b : byte_ok b -> extension b = false ->
  0 <= lead_bits b /\ (lead_bits b + 1) * 64 ^ (seq_len b - 1) <= (if seq_len b =? 4 then 2 ^ 26 else 2 ^ 16).
Proof.
  intros Hb He. rewrite extension_range in He by exact Hb. unfold byte_ok in Hb. unfold lead_bits, seq_len.
  destruct (Z.ltb_spec b 192); [|destruct (Z.ltb_spec b 224); [|destruct (Z.ltb_spec b 240)]].
  - change (64 ^ (1 - 1)) with 1. change (1 =? 4) with false. cbv iota. destruct (Z.leb_spec 128 b), (Z.ltb_spec b 192); cbn in He; try discriminate; lia.
  - change (64 ^ (2 - 1)) with 64. change (2 =? 4) with false. cbv iota. lia.
  - change (64 ^ (3 - 1)) with 4096. change (3 =? 4) with false. cbv iota. lia.
  - change (64 ^ (4 - 1)) with 262144. change (4 =? 4) with true. pose proof (Z.mod_pos_bound b 8 ltac:(lia)). lia.
Qed.

(** A character takes what was counted for it. *)
Lemma character_step b s e : c_string (b :: s) -> b <> 0 -> fresh_start (b :: s) e ->
  exists r p e', getUtf32FromUtf8 (b :: s) = Ok (r, p) /\ c_string p /\ (length p <= length s)%nat /\ fresh_start p e' /\
    zlen (utf16_units r) + count_units p e' <= count_units (b :: s) e.
Proof.
  intros Hs Hne Hf. destruct (c_string_cons b s Hs Hne) as (Hb & Hs'). cbn [getUtf32FromUtf8 count_units].
  rewrite (proj2 (Z.eqb_neq b 0) Hne). destruct (extension b) eqn:Eb.
  - destruct Hf as [Hf|Hf]; [|specialize (Hf b s eq_refl); congruence]. exists UTF16_REPLACEMENT_CHAR, s, (e - 1).
    rewrite (proj2 (Z.ltb_lt (e - 1) 0)) by lia. split; [reflexivity|]. split; [exact Hs'|]. split; [lia|]. split; [left; lia|]. change (zlen (utf16_units UTF16_REPLACEMENT_CHAR)) with 1. lia.
  - rewrite (seq_length_range b Hb), (lead_range b Hb Eb). destruct (lead_bound b Hb Eb) as (Hl & Hm).
    assert (1 <= seq_len b <= 4) as Hn by (unfold seq_len; destruct (b <? 192), (b <? 224), (b <? 240); lia).
    destruct (extension_steps (Z.to_nat (seq_len b - 1)) (lead_bits b) s Hs' Hl) as (r & p & e' & E & Hp & Hlen & Hcnt & Hfs & Hr);
      [rewrite Z2Nat.id by lia; destruct (seq_len b =? 4); lia|].
    rewrite Z2Nat.id in Hcnt, Hr by lia. exists r, p, e'. split; [exact E|]. split; [exact Hp|]. split; [exact Hlen|]. split; [exact Hfs|].
    rewrite Hcnt. pose proof (units_length r). destruct (seq_len b =? 4); [lia|]. rewrite units_short; [lia|].
    destruct Hr as [->|Hr]; [vm_compute; discriminate|lia].
Qed.

Lemma copy_fits fuel : forall s e cap dest, c_string s -> fresh_start s e -> (length s < fuel)%nat -> zlen dest + count_units s e <= cap ->
  exists units, copy_loop fuel cap s dest = Ok (dest ++ units) /\ zlen units <= count_units s e.
Proof.
  induction fuel as [|fuel IH]; intros s e cap dest Hs Hf Hlen Hcap; [lia|]. destruct s as [|b s]; [destruct Hs as (_ & Hz); inversion Hz|].
  cbn [copy_loop]. destruct (Z.eqb_spec b 0) as [->|Hne].
  { exists []. rewrite app_nil_r. split; [reflexivity|]. exact (proj1 (count_bound (0 :: s) e)). }
  destruct (character_step b s e Hs Hne Hf) as (r & p & e' & E & Hp & Hl & Hf' & Hc). rewrite E. cbn [obind].
  pose proof (count_bound p e'). unfold write_units. rewrite (proj2 (Z.leb_le _ cap)) by lia. cbn [obind].
  destruct (IH p e' cap (dest ++ utf16_units r) Hp Hf') as (units & Eu & Hu); [cbn [length] in Hlen; lia|rewrite zlen_app; lia|].
  exists (utf16_units r ++ units). rewrite app_assoc. split; [exact Eu|]. rewrite zlen_app. lia.
Qed.

(** The length is enough for the copy. *)
Lemma strlen_enough s : c_string s -> 2 * zlen s < 2 ^ 32 ->
  exists len units, strlen8to16 s = Ok len /\ 0 <= len <= 2 * zlen s /\ strcpy8to16 len s = Ok units /\ zlen units <= len.
Proof.
  intros Hs Hl. pose proof (count_bound s 0). pose proof (zlen_nonneg s). exists (count_units s 0).
  destruct (copy_fits (S (length s)) s 0 (count_units s 0) [] Hs ltac:(left; lia) ltac:(lia)) as (units & E & Hu); [unfold zlen at 1; cbn; lia|].
  exists units. unfold strlen8to16. rewrite strlen_counts by (auto; lia). split; [reflexivity|]. split; [lia|]. split; [exact E|exact Hu].
Qed.

(** ** Lemmas: from 16 to 8 bits *)

Definition unit_ok (u : Z) : Prop := 0 <= u < 2 ^ 16.

(** The bytes of a string. *)
Definition encode (us : list Z) : list Z := concat (map (fun u => fst (utf8_bytes u)) us).

Lemma utf8_goes_on u : snd (utf8_bytes u) = true.
Proof.
  unfold utf8_bytes. destruct (_ <? u); [reflexivity|]. destruct (_ || _) eqn:E; [reflexivity|].
  apply orb_false_iff in E as (_ & E). cbn. rewrite E. reflexivity.
Qed.

Lemma utf8_width_bytes u : zlen (fst (utf8_bytes u)) = utf8_width u.
Proof. unfold utf8_bytes, utf8_width. destruct (_ <? u); [reflexivity|]. destruct (_ || _); reflexivity. Qed.

Lemma utf8_width_range u : 1 <= utf8_width u <= 3.
Proof. unfold utf8_width. destruct (_ <? u); [lia|]. destruct (_ || _); lia. Qed.

Lemma encode_cons u us : encode (u :: us) = fst (utf8_bytes u) ++ encode us.
Proof. reflexivity. Qed.

Lemma encode_length u us : zlen (encode (u :: us)) = utf8_width u + zlen (encode us).
Proof. rewrite encode_cons, zlen_app, utf8_width_bytes. reflexivity. Qed.

Lemma encode_loop_spec us : forall cap acc, zlen acc + zlen (encode us) + 1 <= cap -> encode_loop cap us acc = Ok (acc ++ encode us ++ [0]).
Proof.
  induction us as [|u us IH]; intros cap acc H.
  - cbn [encode_loop]. unfold write_units. rewrite (proj2 (Z.leb_le _ cap)) by (unfold encode, zlen in *; cbn in *; lia). reflexivity.
  - rewrite encode_length in H. pose proof (utf8_goes_on u) as Hm. pose proof (utf8_width_bytes u) as Hw. cbn [encode_loop].
    rewrite encode_cons. destruct (utf8_bytes u) as [bytes more]. cbn [fst snd] in *. subst more. unfold write_units at 1.
    pose proof (zlen_nonneg (encode us)). rewrite (proj2 (Z.leb_le _ cap)) by lia. cbn [obind].
    rewrite IH by (rewrite zlen_app; lia). rewrite <- !app_assoc. reflexivity.
Qed.

Lemma fast_loop_spec us : forall n, 0 <= n -> n + zlen (encode us) < 2 ^ 32 -> fast_loop us n = n + zlen (encode us).
Proof.
  induction us as [|u us IH]; intros n Hn H; [unfold encode, zlen; cbn; lia|]. rewrite encode_length in *.
  pose proof (utf8_width_range u). pose proof (zlen_nonneg (encode us)). cbn [fast_loop]. rewrite u32_id by lia. rewrite IH by lia. lia.
Qed.

Lemma paranoid_loop_spec us : forall n, 0 <= n < 2 ^ 32 -> paranoid_loop us n = Z.min (n + zlen (encode us)) (SIZE_MAX - 1).
Proof.
  unfold SIZE_MAX. induction us as [|u us IH]; intros n Hn.
  - cbn [paranoid_loop]. unfold SIZE_MAX. change (zlen (encode [])) with 0. destruct (Z.eqb_spec n (2 ^ 32 - 1)); lia.
  - rewrite encode_length. pose proof (utf8_width_range u). pose proof (zlen_nonneg (encode us)). cbn [paranoid_loop]. unfold SIZE_MAX.
    destruct (Z.lt_ge_cases (n + utf8_width u) (2 ^ 32)) as [Hs|Hs].
    + rewrite u32_id by lia. rewrite (proj2 (Z.ltb_ge _ n)) by lia. rewrite IH by lia. lia.
    + assert (u32 (n + utf8_width u) = n + utf8_width u - 2 ^ 32) as ->.
      { unfold u32. symmetry. apply (Z.mod_unique _ _ 1); lia. }
      rewrite (proj2 (Z.ltb_lt _ n)) by lia. lia.
Qed.

Lemma encode_bound us : zlen us <= zlen (encode us) <= 3 * zlen us.
Proof.
  induction us as [|u us IH]; [unfold encode, zlen; cbn; lia|]. rewrite encode_length, zlen_cons. pose proof (utf8_width_range u). lia.
Qed.

Lemma strnlen_spec us : strnlen16to8 us = Z.min (zlen (encode us)) (SIZE_MAX - 1).
Proof.
  pose proof (encode_bound us) as Hb. unfold strnlen16to8. destruct (Z.ltb_spec (zlen us) ((SIZE_MAX - 1) / 3)) as [H|H].
  - unfold SIZE_MAX in *. change ((2 ^ 32 - 1 - 1) / 3) with 1431655764 in H. rewrite fast_loop_spec by lia. lia.
  - rewrite paranoid_loop_spec by lia. reflexivity.
Qed.


(** ** Lemmas: there and back *)

Lemma lor_byte x k a : 0 <= k <= 7 -> 0 <= x < 2 ^ k -> 0 <= a -> (a + 1) * 2 ^ k <= 256 -> u8 (Z.lor x (a * 2 ^ k)) = a * 2 ^ k + x.
Proof. intros Hk Hx Ha Hm. rewrite Z.lor_comm, lor_low by lia. apply u8_id. nia. Qed.

Lemma land_63 x : Z.land x 0x3f = x mod 64.
Proof. exact (Z.land_ones x 6 ltac:(lia)). Qed.

(** The bytes of a unit. *)
Lemma utf8_bytes_long u : 0x7ff < u < 2 ^ 16 -> fst (utf8_bytes u) = [224 + u / 4096; 128 + (u / 64) mod 64; 128 + u mod 64].
Proof.
  intros Hu. unfold utf8_bytes. rewrite (proj2 (Z.ltb_lt _ u)) by lia. cbn [fst]. rewrite !land_63, !Z.shiftr_div_pow2 by lia.
  change (2 ^ 12) with 4096. change (2 ^ 6) with 64.
  pose proof (Z.mod_pos_bound (u / 64) 64 ltac:(lia)). pose proof (Z.mod_pos_bound u 64 ltac:(lia)).
  assert (0 <= u / 4096 < 16) by (split; [apply Z.div_pos; lia|apply Z.div_lt_upper_bound; lia]).
  f_equal; [exact (lor_byte (u / 4096) 4 14 ltac:(lia) ltac:(lia) ltac:(lia) ltac:(lia))|].
  f_equal; [exact (lor_byte ((u / 64) mod 64) 6 2 ltac:(lia) ltac:(lia) ltac:(lia) ltac:(lia))|].
  f_equal. exact (lor_byte (u mod 64) 6 2 ltac:(lia) ltac:(lia) ltac:(lia) ltac:(lia)).
Qed.

Lemma utf8_bytes_two u : 0x7f < u <= 0x7ff \/ u = 0 -> fst (utf8_bytes u) = [192 + u / 64; 128 + u mod 64].
Proof.
  intros Hu. unfold utf8_bytes. rewrite (proj2 (Z.ltb_ge _ u)) by lia.
  assert ((0x7f <? u) || (u =? 0) = true) as -> by lia. cbn [fst]. rewrite !land_63, !Z.shiftr_div_pow2 by lia. change (2 ^ 6) with 64.
  pose proof (Z.mod_pos_bound u 64 ltac:(lia)).
  assert (0 <= u / 64 < 64) by (split; [apply Z.div_pos; lia|apply Z.div_lt_upper_bound; lia]).
  f_equal; [exact (lor_byte (u / 64) 6 3 ltac:(lia) ltac:(lia) ltac:(lia) ltac:(lia))|].
  f_equal. exact (lor_byte (u mod 64) 6 2 ltac:(lia) ltac:(lia) ltac:(lia) ltac:(lia)).
Qed.

Lemma utf8_bytes_one u : 0 < u <= 0x7f -> fst (utf8_bytes u) = [u].
Proof.
  intros Hu. unfold utf8_bytes. rewrite (proj2 (Z.ltb_ge _ u)) by lia. assert ((0x7f <? u) || (u =? 0) = false) as -> by lia.
  cbn [fst]. rewrite u8_id by lia. reflexivity.
Qed.

Lemma not_extension b : 0 <= b < 256 -> b < 128 \/ 192 <= b -> extension b = false.
Proof. intros Hb H. rewrite extension_range by exact Hb. lia. Qed.

Lemma is_extension x : 0 <= x < 64 -> byte_ok (128 + x) /\ extension (128 + x) = true /\ (128 + x =? 0) = false /\ (128 + x) mod 64 = x.
Proof.
  intros Hx. assert (byte_ok (128 + x)) as Hb by (unfold byte_ok; lia). split; [exact Hb|]. rewrite extension_range by exact Hb.
  split; [lia|]. split; [lia|]. replace (128 + x) with (x + 2 * 64) by lia. rewrite Z.mod_add, Z.mod_small; lia.
Qed.

(** A unit is read back, and counts one. *)
Lemma unit_roundtrip u rest e : unit_ok u -> exists b bs, fst (utf8_bytes u) = b :: bs /\ b <> 0 /\ bytes_ok (b :: bs) /\
  getUtf32FromUtf8 ((b :: bs) ++ rest) = Ok (u, rest) /\ count_units ((b :: bs) ++ rest) e = 1 + count_units rest 0.
Proof.
  intros Hu. unfold unit_ok in Hu. pose proof (Z.div_mod u 64 ltac:(lia)) as D1. pose proof (Z.mod_pos_bound u 64 ltac:(lia)) as R1.
  pose proof (Z.div_mod (u / 64) 64 ltac:(lia)) as D2. pose proof (Z.mod_pos_bound (u / 64) 64 ltac:(lia)) as R2.
  rewrite (Z.div_div u 64 64) in D2 by lia. change (64 * 64) with 4096 in D2.
  destruct (is_extension _ R1) as (B1 & X1 & N1 & M1). destruct (is_extension _ R2) as (B2 & X2 & N2 & M2).
  assert (0 <= u / 4096 < 16) as R3 by (split; [apply Z.div_pos; lia|apply Z.div_lt_upper_bound; lia]).
  destruct (Z.lt_ge_cases 0x7ff u) as [H|H]; [|destruct (Z.lt_ge_cases 0x7f u) as [H'|H']; [|destruct (Z.eq_dec u 0) as [H0|H0]]].
  - rewrite utf8_bytes_long by lia. exists (224 + u / 4096), [128 + (u / 64) mod 64; 128 + u mod 64].
    assert (byte_ok (224 + u / 4096)) as B0 by (unfold byte_ok; lia).
    assert (extension (224 + u / 4096) = false) as X0 by (apply not_extension; [exact B0|lia]).
    assert (seq_len (224 + u / 4096) = 3) as S0 by (unfold seq_len; destruct (_ <? 192) eqn:?; [lia|]; destruct (_ <? 224) eqn:?; [lia|]; destruct (_ <? 240) eqn:?; lia).
    assert (lead_bits (224 + u / 4096) = u / 4096) as L0 by (unfold lead_bits; destruct (_ <? 192) eqn:?; [lia|]; destruct (_ <? 224) eqn:?; [lia|]; destruct (_ <? 240) eqn:?; lia).
    split; [reflexivity|]. split; [lia|]. split; [repeat constructor; assumption || (unfold byte_ok in *; lia)|].
    cbn [app getUtf32FromUtf8 count_units]. rewrite X0, (seq_length_range _ B0), (lead_range _ B0 X0), S0, L0, X1, X2, N1, N2.
    rewrite (proj2 (Z.eqb_neq (224 + u / 4096) 0)) by lia. change (Z.to_nat (3 - 1)) with 2%nat. cbn [extension_loop].
    rewrite N1, N2, X1, X2. cbn [negb]. rewrite (shift_and_mask (u / 4096)), M2, shift_and_mask, M1 by (auto; lia).
    split; [do 2 f_equal; lia|]. change (3 - 1 - 1 - 1) with 0. change (3 - 1 - 1) with 1. reflexivity.
  - rewrite utf8_bytes_two by lia. exists (192 + u / 64), [128 + u mod 64].
    assert (0 <= u / 64 < 32) as R4 by lia. assert (byte_ok (192 + u / 64)) as B0 by (unfold byte_ok; lia).
    assert (extension (192 + u / 64) = false) as X0 by (apply not_extension; [exact B0|lia]).
    assert (seq_len (192 + u / 64) = 2) as S0 by (unfold seq_len; destruct (_ <? 192) eqn:?; [lia|]; destruct (_ <? 224) eqn:?; lia).
    assert (lead_bits (192 + u / 64) = u / 64) as L0 by (unfold lead_bits; destruct (_ <? 192) eqn:?; [lia|]; destruct (_ <? 224) eqn:?; lia).
    split; [reflexivity|]. split; [lia|]. split; [repeat constructor; assumption || (unfold byte_ok in *; lia)|].
    cbn [app getUtf32FromUtf8 count_units]. rewrite X0, (seq_length_range _ B0), (lead_range _ B0 X0), S0, L0, X1, N1.
    rewrite (proj2 (Z.eqb_neq (192 + u / 64) 0)) by lia. change (Z.to_nat (2 - 1)) with 1%nat. cbn [extension_loop].
    rewrite N1, X1. cbn [negb]. rewrite shift_and_mask, M1 by (auto; lia). split; [do 2 f_equal; lia|]. change (2 - 1 - 1) with 0. reflexivity.
  - subst u. exists 192, [128]. split; [reflexivity|]. split; [lia|]. split; [bytes_tac|]. split; reflexivity.
  - rewrite utf8_bytes_one by lia. exists u, []. assert (byte_ok u) as B0 by (unfold byte_ok; lia).
    assert (extension u = false) as X0 by (apply not_extension; [exact B0|lia]).
    assert (seq_len u = 1 /\ lead_bits u = u) as (S0 & L0) by (unfold seq_len, lead_bits; rewrite (proj2 (Z.ltb_lt u 192)) by lia; auto).
    split; [reflexivity|]. split; [exact H0|]. split; [repeat constructor; apply B0|].
    cbn [app getUtf32FromUtf8 count_units]. rewrite X0, (seq_length_range _ B0), (lead_range _ B0 X0), S0, L0, (proj2 (Z.eqb_neq u 0) H0).
    split; reflexivity.
Qed.

Lemma encoded_string us tl : Forall unit_ok us -> bytes_ok tl -> c_string (encode us ++ 0 :: tl) /\
  forall e, count_units (encode us ++ 0 :: tl) e = zlen us.
Proof.
  intros Hu Ht. induction us as [|u us IH].
  - split; [|reflexivity]. split; [constructor; [unfold byte_ok; lia|exact Ht]|left].
  - apply Forall_cons in Hu as [Hu Hus]. destruct (IH Hus) as ((Hb & Hz) & Hc). rewrite encode_cons, <- app_assoc.
    destruct (unit_roundtrip u (encode us ++ 0 :: tl) 0 Hu) as (b & bs & E & _ & Hbs & _). split.
    + rewrite E. split; [apply Forall_app; split; assumption|apply elem_of_app; right; exact Hz].
    + intros e. destruct (unit_roundtrip u (encode us ++ 0 :: tl) e Hu) as (b' & bs' & E' & _ & _ & _ & Ec).
      rewrite E', Ec, Hc, zlen_cons. reflexivity.
Qed.

Lemma copy_roundtrip us tl : Forall unit_ok us -> forall fuel cap dest, (length (encode us) < fuel)%nat -> zlen dest + zlen us <= cap ->
  copy_loop fuel cap (encode us ++ 0 :: tl) dest = Ok (dest ++ us).
Proof.
  induction us as [|u us IH]; intros Hu fuel cap dest Hf Hcap.
  - destruct fuel; [lia|]. cbn. rewrite app_nil_r. reflexivity.
  - apply Forall_cons in Hu as [Hu Hus]. rewrite encode_cons, length_app in Hf. rewrite zlen_cons in Hcap. pose proof (zlen_nonneg us).
    destruct (unit_roundtrip u (encode us ++ 0 :: tl) 0 Hu) as (b & bs & E & Hne & _ & Eg & _).
    rewrite encode_cons, <- app_assoc, E in *. destruct fuel as [|fuel]; [lia|]. cbn [copy_loop app]. rewrite (proj2 (Z.eqb_neq b 0) Hne).
    change (b :: bs ++ encode us ++ 0 :: tl) with ((b :: bs) ++ encode us ++ 0 :: tl). rewrite Eg. cbn [obind].
    assert (utf16_units u = [u]) as -> by (unfold utf16_units, unit_ok in *; rewrite (proj2 (Z.leb_le u _)), u16_id by lia; reflexivity).
    unfold write_units. change (zlen [u]) with 1. rewrite (proj2 (Z.leb_le _ cap)) by lia. cbn [obind].
    rewrite (IH Hus) by (first [rewrite zlen_app; change (zlen [u]) with 1; lia|cbn [length] in Hf; lia]). rewrite <- app_assoc. reflexivity.
Qed.


(** ** Properties *)

(** C32: Every string of at most 2^29 16-bit units (a gigabyte), with zeros and surrogates anywhere in it, is converted to 8
    bits and comes back unit for unit when it is converted again. The buffers of both directions have exactly the size that
    is written: the computed length in bytes and one more for the end, and as many units as the string has. *)
Theorem jstring_roundtrip us : Forall unit_ok us -> zlen us <= 2 ^ 29 ->
  exists bytes, strndup16to8 true (Some us) = Ok (Some bytes) /\ zlen bytes = strnlen16to8 us + 1 /\
    strlen8to16 bytes = Ok (zlen us) /\ strdup8to16 true (Some bytes) = Ok (Some us).
Proof.
  intros Hu Hl. pose proof (encode_bound us) as Hb. pose proof (zlen_nonneg us). pose proof (strnlen_spec us) as Hs. unfold SIZE_MAX in Hs.
  rewrite Z.min_l in Hs by lia. exists (encode us ++ [0]). unfold strndup16to8, strncpy16to8, SIZE_MAX. rewrite Hs.
  rewrite (proj2 (Z.leb_gt _ (zlen (encode us)))) by lia. cbn [negb]. rewrite encode_loop_spec by (unfold zlen at 1; cbn; lia).
  split; [reflexivity|]. split; [rewrite zlen_app; reflexivity|].
  destruct (encoded_string us [] Hu (Forall_nil_2 _)) as (Hc & Hn). unfold strdup8to16, strlen8to16, SIZE_MAX.
  rewrite strlen_counts by (auto; rewrite ?zlen_app; change (zlen [0]) with 1; lia). rewrite Hn, Z.add_0_l. split; [reflexivity|]. cbn [obind].
  assert (negb (zlen us =? 0) && ((2 ^ 32 - 1) / zlen us <? 2) = false) as ->.
  { destruct (Z.eqb_spec (zlen us) 0) as [E|E]; [reflexivity|]. cbn [negb andb]. apply Z.ltb_ge. apply Z.div_le_lower_bound; lia. }
  unfold strcpy8to16. rewrite (copy_roundtrip us [] Hu) by (first [rewrite length_app; cbn; lia|unfold zlen at 1; cbn; lia]). reflexivity.
Qed.

Lemma jstring_roundtrip_witness : exists bytes, strndup16to8 true (Some [0x41; 0; 0xd83d; 0xde00; 0x20ac]) = Ok (Some bytes) /\
  strdup8to16 true (Some bytes) = Ok (Some [0x41; 0; 0xd83d; 0xde00; 0x20ac]).
Proof.
  destruct (jstring_roundtrip [0x41; 0; 0xd83d; 0xde00; 0x20ac]) as (bytes & E & _ & _ & E').
  - repeat constructor; vm_compute; congruence.
  - vm_compute. discriminate.
  - exists bytes. auto.
Defined.

(** Any string of bytes, valid or not, is converted without writing past the units
    that were counted for it. *)
Theorem strdup8to16_fits s : c_string s -> zlen s < 2 ^ 30 ->
  exists len units, strlen8to16 s = Ok len /\ strdup8to16 true (Some s) = Ok (Some units) /\ zlen units <= len.
Proof.
  intros Hs Hl. destruct (strlen_enough s Hs ltac:(lia)) as (len & units & El & Hlen & E & Hu). exists len, units.
  split; [exact El|]. split; [|exact Hu]. unfold strdup8to16, SIZE_MAX. rewrite El. cbn [obind].
  assert (negb (len =? 0) && ((2 ^ 32 - 1) / len <? 2) = false) as ->.
  { destruct (Z.eqb_spec len 0) as [H|H]; [reflexivity|]. cbn [negb andb]. apply Z.ltb_ge. apply Z.div_le_lower_bound; lia. }
  rewrite E. reflexivity.
Qed.

(** The length in bytes is exact, and one below the largest when it would not be
    below that. *)
Theorem strnlen16to8_correct us : strnlen16to8 us = Z.min (zlen (encode us)) (SIZE_MAX - 1).
Proof. exact (strnlen_spec us). Qed.

(** ** Flaws *)

(** At a zero inside of the length, [strcpylen8to16] stays where it is and writes
    zeros until it leaves the buffer: it never returns. *)
Theorem strcpylen8to16_zero : forall fuel cap stop p dest out, stop < zlen (0 :: p) ->
  copylen_loop fuel cap stop (0 :: p) dest <> Ok out.
Proof.
  induction fuel as [|fuel IH]; intros cap stop p dest out H; [discriminate|]. cbn [copylen_loop].
  rewrite (proj2 (Z.leb_gt _ stop)) by lia. change (getUtf32FromUtf8 (0 :: p)) with (Ok (0, 0 :: p)). cbn [obind].
  unfold write_units. destruct (_ <=? cap); [cbn [obind]; apply IH; exact H|discriminate].
Qed.

(** It reads past the length when the last sequence is not complete. *)
Theorem strcpylen8to16_reads_past : strcpylen8to16 2 1 [0xe2] 1 = Undef.
Proof. reflexivity. Qed.

(** Without memory the copy goes through [NULL]. *)
Theorem strdup8to16_no_memory : strdup8to16 false (Some [65; 0]) = Undef.
Proof. reflexivity. Qed.

End Jstring.
