(* ===== verification/RecordStream.v ===== *)
(** * Records in a stream

    [libcutils/record_stream.c]: a stream of records, each behind its length,
    cut out of whatever pieces the reads deliver. *)

From S2P Require Import Prelude.

Module RecordStream.

Definition HEADER_SIZE : Z := 4.
Definition EAGAIN : Z := 11.

(** The pointers are addresses; [content] is the memory at [buffer]. *)
Record RecordStream := mk_rs {
  maxRecordLen : Z;
  buffer : Z;
  content : list Z;
  unconsumed : Z;
  read_end : Z;
  buffer_end : Z
}.

Definition set_content (rs : RecordStream) (c : list Z) : RecordStream :=
  mk_rs (maxRecordLen rs) (buffer rs) c (unconsumed rs) (read_end rs) (buffer_end rs).
Definition set_unconsumed (rs : RecordStream) (p : Z) : RecordStream :=
  mk_rs (maxRecordLen rs) (buffer rs) (content rs) p (read_end rs) (buffer_end rs).
Definition set_read_end (rs : RecordStream) (p : Z) : RecordStream :=
  mk_rs (maxRecordLen rs) (buffer rs) (content rs) (unconsumed rs) p (buffer_end rs).

(** The buffer is what [malloc] finds at [addr]. *)
Definition record_stream_new (addr : Z) (garbage : list Z) (maxRecordLen : Z) : outcome RecordStream :=
  if negb (maxRecordLen <=? 0xffff) then AssertFail
  else Ok (mk_rs maxRecordLen addr garbage addr addr (u32 (u32 (addr + maxRecordLen) + HEADER_SIZE))).

(** Memory outside of the buffer is not touched. *)
Definition load (rs : RecordStream) (p n : Z) : outcome (list Z) :=
  if (buffer rs <=? p) && (0 <=? n) && (p + n <=? buffer rs + zlen (content rs))
  then Ok (sub_bytes (content rs) (p - buffer rs) n) else Undef.

Definition store (rs : RecordStream) (p : Z) (bs : list Z) : outcome RecordStream :=
  if (buffer rs <=? p) && (p + zlen bs <=? buffer rs + zlen (content rs))
  then Ok (set_content rs (take (Z.to_nat (p - buffer rs)) (content rs) ++ bs ++
                           drop (Z.to_nat (p - buffer rs) + length bs) (content rs)))
  else Undef.

(** [ntohl] of the four bytes at a pointer. *)
Definition ntohl (bs : list Z) : Z := le_val (rev bs).

Definition getEndOfRecord (rs : RecordStream) (p_begin p_end : Z) : outcome (option Z) :=
  if p_end <? u32 (p_begin + HEADER_SIZE) then Ok None
  else
    let! header := load rs p_begin 4 in
    let len := ntohl header in
    let p_ret := u32 (u32 (p_begin + HEADER_SIZE) + len) in
    if p_end <? p_ret then Ok None else Ok (Some p_ret).

(** The record (its address and its length). *)
Definition getNextRecord (rs : RecordStream) : outcome (option (Z * Z) * RecordStream) :=
  let! record_end := getEndOfRecord rs (unconsumed rs) (read_end rs) in
  match record_end with
  | Some record_end =>
      let record_start := u32 (unconsumed rs + HEADER_SIZE) in
      Ok (Some (record_start, u32 (record_end - record_start)), set_unconsumed rs record_end)
  | None => Ok (None, rs)
  end.

(** The answer: the return value, the record or [NULL], and [errno] if it was set. *)
Record answer := mk_answer { ret : Z; outRecord : option (Z * Z); errno : option Z }.

(** Move the remainder to the beginning of the buffer. *)
Definition move_remainder (rs : RecordStream) : outcome RecordStream :=
  if negb (unconsumed rs =? buffer rs) then
    let toMove := u32 (read_end rs - unconsumed rs) in
    let! rs :=
      if negb (toMove =? 0) then let! bs := load rs (unconsumed rs) toMove in store rs (buffer rs) bs
      else Ok rs in
    Ok (set_unconsumed (set_read_end rs (u32 (buffer rs + toMove))) (buffer rs))
  else Ok rs.

Section Stream.
(** [read fd n]: the state of the descriptor, the result, and the bytes. *)
Context {fd : Type} (read : fd -> Z -> fd * Z * list Z).

Definition record_stream_get_next (rs : RecordStream) (w : fd) : outcome (answer * RecordStream * fd) :=
  let! (r, rs) := getNextRecord rs in
  match r with
  | Some _ => Ok (mk_answer 0 r None, rs, w)
  | None =>
      if (unconsumed rs =? buffer rs) && (read_end rs =? buffer_end rs) then AssertFail
      else
        let! rs := move_remainder rs in
        let '(w, countRead, bs) := read w (u32 (buffer_end rs - read_end rs)) in
        if countRead <=? 0 then Ok (mk_answer countRead None None, rs, w)
        else
          let! rs := store rs (read_end rs) bs in
          let rs := set_read_end rs (u32 (read_end rs + countRead)) in
          let! (r, rs) := getNextRecord rs in
          match r with
          | None => Ok (mk_answer (-1) None (Some EAGAIN), rs, w)
          | Some _ => Ok (mk_answer 0 r None, rs, w)
          end
  end.

(** What a client does: records are taken until the stream ends, and [EAGAIN] is
    tried again. *)
Fixpoint read_records (fuel : nat) (rs : RecordStream) (w : fd) : outcome (list (list Z)) :=
  match fuel with
  | O => NoFuel
  | S f =>
      let! (a, rs, w) := record_stream_get_next rs w in
      match outRecord a with
      | Some (p, n) => let! r := load rs p n in let! l := read_records f rs w in Ok (r :: l)
      | None => if ret a =? 0 then Ok [] else read_records f rs w
      end
  end.

End Stream.

(** ** A pipe

    The bytes that are still to come, and how many each read gets: at least
    one. *)

Record pipe := mk_pipe { p_data : list Z; p_sizes : list Z }.

Definition pipe_read (p : pipe) (n : Z) : pipe * Z * list Z :=
  let k := Z.max 1 (Z.min (match p_sizes p with [] => n | x :: _ => x end) n) in
  if n <=? 0 then (p, 0, [])
  else
    let bs := take (Z.to_nat k) (p_data p) in
    (mk_pipe (drop (Z.to_nat k) (p_data p)) (tl (p_sizes p)), zlen bs, bs).

(** A record as it is sent. *)
Definition frame (r : list Z) : list Z := rev (le_bytes 4 (zlen r)) ++ r.
Definition frames (l : list (list Z)) : list Z := concat (map frame l).

(** ** Lemmas *)

(** The buffer is where its pointers say, away from the end of the addresses. *)
Record stream_ok (rs : RecordStream) : Prop := {
  so_max : 0 <= maxRecordLen rs <= 0xffff;
  so_buffer : 0 < buffer rs;
  so_size : zlen (content rs) = maxRecordLen rs + 4;
  so_end : buffer_end rs = buffer rs + maxRecordLen rs + 4;
  so_room : buffer rs + 2 * (maxRecordLen rs + 4) < 2 ^ 32;
  so_order : buffer rs <= unconsumed rs /\ unconsumed rs <= read_end rs /\ read_end rs <= buffer_end rs
}.

(** What was read and not consumed. *)
Definition pending (rs : RecordStream) : list Z :=
  sub_bytes (content rs) (unconsumed rs - buffer rs) (read_end rs - unconsumed rs).

Lemma zlen_pending rs : stream_ok rs -> zlen (pending rs) = read_end rs - unconsumed rs.
Proof. intros [H1 H2 H3 H4 H5 (H6 & H7 & H8)]. apply zlen_sub; lia. Qed.

Lemma zlen_frame r : zlen (frame r) = 4 + zlen r.
Proof. unfold frame. rewrite zlen_app. unfold zlen at 1. rewrite length_rev, le_bytes_length. lia. Qed.

(** The bytes that are waiting begin with what comes first. *)
Lemma prefix_part {A} (p d l : list A) o n : p ++ d = l -> 0 <= o -> 0 <= n -> o + n <= zlen p -> sub_bytes p o n = sub_bytes l o n.
Proof. intros <- Ho Hn H. symmetry. apply sub_bytes_app_l; lia. Qed.

(** The next record, if all of it was read. *)
Lemma next_record rs data recs : stream_ok rs -> pending rs ++ data = frames recs -> Forall (fun r => zlen r <= maxRecordLen rs) recs ->
  (exists r recs', recs = r :: recs' /\ getNextRecord rs = Ok (Some (unconsumed rs + 4, zlen r), set_unconsumed rs (unconsumed rs + 4 + zlen r)) /\
     stream_ok (set_unconsumed rs (unconsumed rs + 4 + zlen r)) /\
     pending (set_unconsumed rs (unconsumed rs + 4 + zlen r)) ++ data = frames recs' /\ load rs (unconsumed rs + 4) (zlen r) = Ok r) \/
  (getNextRecord rs = Ok (None, rs) /\ (recs = [] \/ exists r recs', recs = r :: recs' /\ zlen (pending rs) < 4 + zlen r)).
Proof.
  intros Hok Hp Hmax. pose proof (zlen_pending rs Hok) as Lp. pose proof Hok as [H1 H2 H3 H4 H5 (H6 & H7 & H8)].
  unfold getNextRecord, getEndOfRecord, HEADER_SIZE. rewrite (u32_id (unconsumed rs + 4)) by lia.
  destruct recs as [|r recs].
  { right. apply app_eq_nil in Hp as (Hp & _). rewrite Hp in Lp. change (zlen []) with 0 in Lp.
    rewrite (proj2 (Z.ltb_lt (read_end rs) _)) by lia. auto. }
  apply Forall_cons in Hmax as [Hr Hmax]. change (frames (r :: recs)) with (frame r ++ frames recs) in Hp.
  pose proof (zlen_nonneg r). destruct (Z.ltb_spec (read_end rs) (unconsumed rs + 4)) as [Hs|Hs].
  { right. split; [reflexivity|]. right. exists r, recs. split; [reflexivity|lia]. }
  assert (load rs (unconsumed rs) 4 = Ok (rev (le_bytes 4 (zlen r)))) as El.
  { unfold load. rewrite (proj2 (Z.leb_le (buffer rs) _)), (proj2 (Z.leb_le (unconsumed rs + 4) _)) by lia. cbn [andb Z.leb Z.compare].
    f_equal. pose proof (sub_sub_bytes (content rs) (unconsumed rs - buffer rs) (read_end rs - unconsumed rs) 0 4) as E.
    fold (pending rs) in E. rewrite Z.add_0_r in E. rewrite <- E by lia.
    rewrite (prefix_part _ _ _ 0 4 Hp) by lia. unfold frame. rewrite <- app_assoc. apply (sub_bytes_exact []); [reflexivity|].
    unfold zlen. rewrite length_rev, le_bytes_length. reflexivity. }
  rewrite El. cbn [obind]. unfold ntohl. rewrite rev_involutive, le_val_bytes_id by lia.
  rewrite (u32_id (unconsumed rs + 4 + zlen r)) by lia.
  destruct (Z.ltb_spec (read_end rs) (unconsumed rs + 4 + zlen r)) as [Hl|Hl].
  { right. split; [reflexivity|]. right. exists r, recs. split; [reflexivity|lia]. }
  left. exists r, recs. split; [reflexivity|]. split.
  { cbn [obind]. rewrite u32_id by lia. do 4 f_equal. lia. }
  assert (stream_ok (set_unconsumed rs (unconsumed rs + 4 + zlen r))) as Hok' by (split; cbn; auto; lia).
  split; [exact Hok'|]. assert (pending rs = frame r ++ pending (set_unconsumed rs (unconsumed rs + 4 + zlen r))) as Ep.
  { assert (take (length (frame r)) (pending rs) = frame r) as Et.
    { assert (take (length (frame r)) (pending rs ++ data) = frame r) as E by (rewrite Hp; apply take_app_length).
      rewrite take_app_le in E; [exact E|]. pose proof (zlen_frame r). unfold zlen in *. lia. }
    rewrite <- (take_drop (length (frame r)) (pending rs)) at 1. rewrite Et. f_equal. unfold pending. cbn [set_unconsumed content unconsumed buffer read_end].
    unfold sub_bytes. pose proof (zlen_frame r) as Lf. rewrite skipn_firstn_comm, drop_drop. f_equal; [unfold zlen in *; lia|]. f_equal. unfold zlen in *. lia. }
  split.
  - rewrite Ep, <- app_assoc in Hp. apply app_inv_head in Hp. exact Hp.
  - unfold load. rewrite (proj2 (Z.leb_le (buffer rs) _)), (proj2 (Z.leb_le 0 (zlen r))), (proj2 (Z.leb_le (unconsumed rs + 4 + zlen r) _)) by lia.
    cbn [andb]. f_equal. pose proof (sub_sub_bytes (content rs) (unconsumed rs - buffer rs) (read_end rs - unconsumed rs) 4 (zlen r)) as E.
    fold (pending rs) in E. replace (unconsumed rs + 4 - buffer rs) with (unconsumed rs - buffer rs + 4) by lia. rewrite <- E by lia.
    rewrite Ep. unfold frame. rewrite <- app_assoc. apply sub_bytes_exact; [|reflexivity]. unfold zlen. rewrite length_rev, le_bytes_length. reflexivity.
Qed.

(** What is written is what is then there. *)
Lemma store_spec rs p bs : buffer rs <= p -> p + zlen bs <= buffer rs + zlen (content rs) ->
  exists c, store rs p bs = Ok (set_content rs c) /\ zlen c = zlen (content rs) /\ sub_bytes c (p - buffer rs) (zlen bs) = bs /\
    forall o n, 0 <= o -> 0 <= n -> o + n <= p - buffer rs -> sub_bytes c o n = sub_bytes (content rs) o n.
Proof.
  intros H1 H2. unfold store. rewrite (proj2 (Z.leb_le (buffer rs) p)), (proj2 (Z.leb_le (p + zlen bs) _)) by lia. cbn [andb].
  eexists. split; [reflexivity|]. pose proof (zlen_nonneg bs).
  assert (zlen (take (Z.to_nat (p - buffer rs)) (content rs)) = p - buffer rs) as Et by (unfold zlen in *; rewrite length_take; lia).
  split; [|split].
  - rewrite !zlen_app, Et. unfold zlen in *. rewrite length_drop. lia.
  - apply sub_bytes_exact; [symmetry; exact Et|reflexivity].
  - intros o n Ho Hn Hon. rewrite sub_bytes_app_l by lia. unfold sub_bytes. rewrite skipn_firstn_comm, take_take. f_equal. lia.
Qed.

(** The remainder moves to the beginning. *)
Lemma move_spec rs : stream_ok rs -> exists rs',
  move_remainder rs = Ok rs' /\
  stream_ok rs' /\ pending rs' = pending rs /\ unconsumed rs' = buffer rs' /\ maxRecordLen rs' = maxRecordLen rs /\
  buffer rs' = buffer rs /\ buffer_end rs' = buffer_end rs.
Proof.
  intros Hok. unfold move_remainder. pose proof (zlen_pending rs Hok) as Lp. pose proof Hok as [H1 H2 H3 H4 H5 (H6 & H7 & H8)].
  destruct (Z.eqb_spec (unconsumed rs) (buffer rs)) as [E|E]; cbn [negb].
  { exists rs. auto 8. }
  cbn zeta. rewrite (u32_id (read_end rs - unconsumed rs)) by lia.
  destruct (Z.eqb_spec (read_end rs - unconsumed rs) 0) as [E0|E0]; cbn [negb obind].
  - rewrite (u32_id (buffer rs + _)) by lia. eexists. split; [reflexivity|]. split; [split; cbn; auto; lia|]. repeat split; try reflexivity.
    unfold pending. cbn. rewrite E0. replace (buffer rs + 0 - buffer rs) with 0 by lia. reflexivity.
  - unfold load. rewrite (proj2 (Z.leb_le (buffer rs) (unconsumed rs))), (proj2 (Z.leb_le 0 _)), (proj2 (Z.leb_le (unconsumed rs + _) _)) by lia.
    cbn [andb obind]. fold (pending rs).
    destruct (store_spec rs (buffer rs) (pending rs)) as (c & -> & Lc & Es & _); [lia|lia|]. cbn [obind set_content buffer unconsumed set_read_end set_unconsumed].
    rewrite (u32_id (buffer rs + _)) by lia. eexists. split; [reflexivity|]. split; [split; cbn; auto; lia|]. repeat split; try reflexivity.
    unfold pending at 1. cbn. replace (buffer rs + (read_end rs - unconsumed rs) - buffer rs) with (zlen (pending rs)) by lia. exact Es.
Qed.

(** What was read is behind what is pending. *)
Lemma receive_spec rs bs : stream_ok rs -> read_end rs + zlen bs <= buffer_end rs -> exists rs',
  store rs (read_end rs) bs = Ok rs' /\ let rs' := set_read_end rs' (u32 (read_end rs' + zlen bs)) in
  stream_ok rs' /\ pending rs' = pending rs ++ bs /\ maxRecordLen rs' = maxRecordLen rs.
Proof.
  intros [H1 H2 H3 H4 H5 (H6 & H7 & H8)] Hb. pose proof (zlen_nonneg bs).
  destruct (store_spec rs (read_end rs) bs) as (c & -> & Lc & Es & Eo); [lia|lia|].
  eexists. split; [reflexivity|]. cbn zeta. cbn [set_content read_end]. rewrite (u32_id (read_end rs + zlen bs)) by lia.
  split; [split; cbn; auto; lia|]. split; [|reflexivity]. unfold pending. cbn [set_read_end set_content content unconsumed buffer read_end].
  rewrite <- (Eo (unconsumed rs - buffer rs) (read_end rs - unconsumed rs)) by lia. rewrite <- Es at 2.
  replace (read_end rs + zlen bs - unconsumed rs) with ((read_end rs - unconsumed rs) + zlen bs) by lia.
  rewrite <- take_sub_app by lia. f_equal. f_equal. lia.
Qed.

(** What a call does on a pipe: it gets the next record, or needs another read,
    or the stream is at its end. *)
Lemma get_next_spec rs w recs : stream_ok rs -> pending rs ++ p_data w = frames recs -> Forall (fun r => zlen r <= maxRecordLen rs) recs ->
  exists a rs' w', record_stream_get_next pipe_read rs w = Ok (a, rs', w') /\ stream_ok rs' /\ maxRecordLen rs' = maxRecordLen rs /\
    ((exists r recs' p, recs = r :: recs' /\ a = mk_answer 0 (Some (p, zlen r)) None /\ load rs' p (zlen r) = Ok r /\
        pending rs' ++ p_data w' = frames recs' /\ zlen (p_data w') <= zlen (p_data w)) \/
     (a = mk_answer (-1) None (Some EAGAIN) /\ pending rs' ++ p_data w' = frames recs /\ zlen (p_data w') < zlen (p_data w)) \/
     (recs = [] /\ a = mk_answer 0 None None)).
Proof.
  intros Hok Hp Hmax. unfold record_stream_get_next.
  destruct (next_record rs _ recs Hok Hp Hmax) as [(r & recs' & -> & -> & Hok' & Hp' & Hl)|(-> & Hno)]; cbn [obind].
  { do 3 eexists. split; [reflexivity|]. split; [exact Hok'|]. split; [reflexivity|]. left. exists r, recs', (unconsumed rs + 4). auto with lia. }
  pose proof (zlen_pending rs Hok) as Lp. pose proof Hok as [H1 H2 H3 H4 H5 (H6 & H7 & H8)].
  assert (read_end rs - unconsumed rs < maxRecordLen rs + 4) as Hroom.
  { destruct Hno as [->|(r & recs' & -> & Hlt)].
    - apply app_eq_nil in Hp as (Hp & _). rewrite Hp in Lp. change (zlen []) with 0 in Lp. lia.
    - apply Forall_cons in Hmax as [Hr _]. lia. }
  replace ((unconsumed rs =? buffer rs) && (read_end rs =? buffer_end rs)) with false
    by (destruct (Z.eqb_spec (unconsumed rs) (buffer rs)), (Z.eqb_spec (read_end rs) (buffer_end rs)); cbn; lia || reflexivity).
  destruct (move_spec rs Hok) as (rs1 & -> & Hok1 & Hp1 & Hu1 & Hm1 & Hb1 & Hbe1). cbn [obind].
  rewrite <- Hp1 in Hp, Hno.
  pose proof (zlen_pending rs1 Hok1) as Lp1. rewrite Hp1 in Lp1. pose proof Hok1 as [G1 G2 G3 G4 G5 (G6 & G7 & G8)].
  rewrite (u32_id (buffer_end rs1 - read_end rs1)) by lia. unfold pipe_read.
  rewrite (proj2 (Z.leb_gt _ 0)) by lia. set (k := Z.max 1 _). assert (1 <= k <= buffer_end rs1 - read_end rs1) as Hk by (subst k; destruct (p_sizes w); lia).
  clearbody k. destruct (p_data w) as [|b d] eqn:Ed.
  { rewrite take_nil. change (zlen [] <=? 0) with true. cbn iota. do 3 eexists. split; [reflexivity|]. split; [exact Hok1|]. split; [exact Hm1|].
    right. right. split; [|reflexivity]. destruct Hno as [->|(r & recs' & -> & Hlt)]; [reflexivity|]. exfalso.
    rewrite app_nil_r in Hp. rewrite Hp in Hlt. change (frames (r :: recs')) with (frame r ++ frames recs') in Hlt.
    rewrite zlen_app, zlen_frame in Hlt. pose proof (zlen_nonneg (frames recs')). lia. }
  rewrite <- Ed in *. set (bs := take (Z.to_nat k) (p_data w)).
  assert (1 <= zlen bs <= k) as Hbs by (subst bs; rewrite Ed; unfold zlen; rewrite length_take; cbn [length]; lia).
  assert (zlen (p_data w) = zlen bs + zlen (drop (Z.to_nat k) (p_data w))) as Ldata by (subst bs; rewrite <- zlen_app, take_drop; reflexivity).
  assert (p_data w = bs ++ drop (Z.to_nat k) (p_data w)) as Edata by (symmetry; apply take_drop). clearbody bs.
  rewrite (proj2 (Z.leb_gt (zlen bs) 0)) by lia.
  destruct (receive_spec rs1 bs Hok1) as (rs2 & -> & Hok2 & Hp2 & Hm2); [lia|]. cbn [obind].
  set (rs3 := set_read_end rs2 _) in *. set (w' := mk_pipe _ _).
  assert (pending rs3 ++ p_data w' = frames recs) as Hp3 by (rewrite Hp2, <- app_assoc; subst w'; cbn [p_data]; rewrite <- Edata; exact Hp).
  destruct (next_record rs3 _ recs Hok2 Hp3) as [(r & recs' & -> & -> & Hok' & Hp' & Hl)|(-> & _)]; [rewrite Hm2, Hm1; exact Hmax| |]; cbn [obind].
  - do 3 eexists. split; [reflexivity|]. split; [exact Hok'|]. split; [cbn [set_unconsumed maxRecordLen]; congruence|].
    left. exists r, recs', (unconsumed rs3 + 4). split; [reflexivity|]. repeat split; auto. subst w'. cbn [p_data]. lia.
  - do 3 eexists. split; [reflexivity|]. split; [exact Hok2|]. split; [congruence|].
    right. left. split; [reflexivity|]. split; [exact Hp3|]. subst w'. cbn [p_data]. lia.
Qed.

(** A client gets all of the records, however the reads cut the stream. *)
Lemma read_records_spec fuel : forall rs w recs, stream_ok rs -> pending rs ++ p_data w = frames recs ->
  Forall (fun r => zlen r <= maxRecordLen rs) recs -> Z.of_nat (length recs) + zlen (p_data w) < Z.of_nat fuel ->
  read_records pipe_read fuel rs w = Ok recs.
Proof.
  induction fuel as [|f IH]; intros rs w recs Hok Hp Hmax Hf; [unfold zlen in Hf; lia|]. cbn [read_records].
  destruct (get_next_spec rs w recs Hok Hp Hmax) as (a & rs' & w' & -> & Hok' & Hm & H). cbn [obind].
  destruct H as [(r & recs' & p & -> & -> & Hl & Hp' & Hd)|[(-> & Hp' & Hd)|(-> & ->)]]; cbn [outRecord ret].
  - rewrite Hl. cbn [obind]. apply Forall_cons in Hmax as [_ Hmax]. rewrite (IH rs' w' recs'); [reflexivity| | | |]; auto.
    + rewrite Hm. exact Hmax.
    + cbn [length] in Hf. lia.
  - change (-1 =? 0) with false. cbn iota. apply IH; auto; [rewrite Hm; exact Hmax|lia].
  - reflexivity.
Qed.

(** ** Properties *)

(** C33: A stream of records that are not longer than the maximum, which is at most 0xffff, each behind its length in four
    bytes as the code reads it, is read record by record: every record comes back as it was sent, in order, none is lost
    and none is split, whatever pieces the reads deliver and whatever the buffer held before; [EAGAIN] is only answered
    after a read that brought bytes, so the client ends. *)
Theorem record_stream_delivers max addr garbage sizes recs fuel :
  0 <= max <= 0xffff -> 0 < addr -> addr + 2 * (max + 4) < 2 ^ 32 -> zlen garbage = max + 4 ->
  Forall (fun r => zlen r <= max) recs -> Z.of_nat (length recs) + zlen (frames recs) < Z.of_nat fuel ->
  exists rs, record_stream_new addr garbage max = Ok rs /\ read_records pipe_read fuel rs (mk_pipe (frames recs) sizes) = Ok recs.
Proof.
  intros Hm Ha Hr Hg Hrecs Hf. unfold record_stream_new, HEADER_SIZE. rewrite (proj2 (Z.leb_le max 0xffff)) by lia. cbn [negb].
  rewrite (u32_id (addr + max)), u32_id by lia. eexists. split; [reflexivity|]. apply read_records_spec; cbn; auto.
  - split; cbn; auto; lia.
  - unfold pending. cbn. replace (addr - addr) with 0 by lia. reflexivity.
Qed.

(** Three records, one of them empty, read one byte, three bytes and then all at a time. *)
Lemma record_stream_delivers_witness : exists rs, record_stream_new 4096 (replicate 12 7) 8 = Ok rs /\
  read_records pipe_read 40 rs (mk_pipe (frames [[1; 2; 3]; []; [4; 5; 6; 7; 8; 9; 10; 11]]) [1; 3; 1; 9]) =
  Ok [[1; 2; 3]; []; [4; 5; 6; 7; 8; 9; 10; 11]].
Proof.
  apply (record_stream_delivers 8 4096 (replicate 12 7) [1; 3; 1; 9] [[1; 2; 3]; []; [4; 5; 6; 7; 8; 9; 10; 11]] 40);
    [lia|lia|lia|reflexivity| |reflexivity]. repeat constructor; unfold zlen; cbn; lia.
Defined.

(** ** Flaws *)

(** A record that is longer than the maximum ends the program as soon as the buffer
    is full: the check comes behind [assert (0)]. *)
Theorem record_too_long : exists rs, record_stream_new 4096 (replicate 6 0) 2 = Ok rs /\
  read_records pipe_read 40 rs (mk_pipe (frames [[1; 2; 3]]) []) = AssertFail.
Proof. eexists. split; reflexivity. Qed.

(** A length close to [2 ^ 32] wraps the pointer, and the record that comes back
    ends before it begins. *)
Theorem record_length_wraps : exists rs, record_stream_new 4096 (replicate 12 0) 8 = Ok rs /\
  exists rs' w, record_stream_get_next pipe_read rs (mk_pipe [0xff; 0xff; 0xff; 0xfe; 1; 2; 3; 4] []) =
    Ok (mk_answer 0 (Some (4100, 0xfffffffe)) None, rs', w).
Proof. eexists. split; [reflexivity|]. do 2 eexists. reflexivity. Qed.

End RecordStream.
