(* ===== verification/Crc32.v ===== *)
(** * libsparse/sparse_crc32.c

    The table-driven CRC-32 of the sparse image format, and its equivalence
    with the bit-at-a-time definition of the checksum (reflected polynomial
    0xedb88320, the one the file's comment describes). *)

From S2P Require Import Prelude.

Module Crc32.

Definition crc32_tab : list Z := [
        0x00000000; 0x77073096; 0xee0e612c; 0x990951ba; 0x076dc419; 0x706af48f;
        0xe963a535; 0x9e6495a3; 0x0edb8832; 0x79dcb8a4; 0xe0d5e91e; 0x97d2d988;
        0x09b64c2b; 0x7eb17cbd; 0xe7b82d07; 0x90bf1d91; 0x1db71064; 0x6ab020f2;
        0xf3b97148; 0x84be41de; 0x1adad47d; 0x6ddde4eb; 0xf4d4b551; 0x83d385c7;
        0x136c9856; 0x646ba8c0; 0xfd62f97a; 0x8a65c9ec; 0x14015c4f; 0x63066cd9;
        0xfa0f3d63; 0x8d080df5; 0x3b6e20c8; 0x4c69105e; 0xd56041e4; 0xa2677172;
        0x3c03e4d1; 0x4b04d447; 0xd20d85fd; 0xa50ab56b; 0x35b5a8fa; 0x42b2986c;
        0xdbbbc9d6; 0xacbcf940; 0x32d86ce3; 0x45df5c75; 0xdcd60dcf; 0xabd13d59;
        0x26d930ac; 0x51de003a; 0xc8d75180; 0xbfd06116; 0x21b4f4b5; 0x56b3c423;
        0xcfba9599; 0xb8bda50f; 0x2802b89e; 0x5f058808; 0xc60cd9b2; 0xb10be924;
        0x2f6f7c87; 0x58684c11; 0xc1611dab; 0xb6662d3d; 0x76dc4190; 0x01db7106;
        0x98d220bc; 0xefd5102a; 0x71b18589; 0x06b6b51f; 0x9fbfe4a5; 0xe8b8d433;
        0x7807c9a2; 0x0f00f934; 0x9609a88e; 0xe10e9818; 0x7f6a0dbb; 0x086d3d2d;
        0x91646c97; 0xe6635c01; 0x6b6b51f4; 0x1c6c6162; 0x856530d8; 0xf262004e;
        0x6c0695ed; 0x1b01a57b; 0x8208f4c1; 0xf50fc457; 0x65b0d9c6; 0x12b7e950;
        0x8bbeb8ea; 0xfcb9887c; 0x62dd1ddf; 0x15da2d49; 0x8cd37cf3; 0xfbd44c65;
        0x4db26158; 0x3ab551ce; 0xa3bc0074; 0xd4bb30e2; 0x4adfa541; 0x3dd895d7;
        0xa4d1c46d; 0xd3d6f4fb; 0x4369e96a; 0x346ed9fc; 0xad678846; 0xda60b8d0;
        0x44042d73; 0x33031de5; 0xaa0a4c5f; 0xdd0d7cc9; 0x5005713c; 0x270241aa;
        0xbe0b1010; 0xc90c2086; 0x5768b525; 0x206f85b3; 0xb966d409; 0xce61e49f;
        0x5edef90e; 0x29d9c998; 0xb0d09822; 0xc7d7a8b4; 0x59b33d17; 0x2eb40d81;
        0xb7bd5c3b; 0xc0ba6cad; 0xedb88320; 0x9abfb3b6; 0x03b6e20c; 0x74b1d29a;
        0xead54739; 0x9dd277af; 0x04db2615; 0x73dc1683; 0xe3630b12; 0x94643b84;
        0x0d6d6a3e; 0x7a6a5aa8; 0xe40ecf0b; 0x9309ff9d; 0x0a00ae27; 0x7d079eb1;
        0xf00f9344; 0x8708a3d2; 0x1e01f268; 0x6906c2fe; 0xf762575d; 0x806567cb;
        0x196c3671; 0x6e6b06e7; 0xfed41b76; 0x89d32be0; 0x10da7a5a; 0x67dd4acc;
        0xf9b9df6f; 0x8ebeeff9; 0x17b7be43; 0x60b08ed5; 0xd6d6a3e8; 0xa1d1937e;
        0x38d8c2c4; 0x4fdff252; 0xd1bb67f1; 0xa6bc5767; 0x3fb506dd; 0x48b2364b;
        0xd80d2bda; 0xaf0a1b4c; 0x36034af6; 0x41047a60; 0xdf60efc3; 0xa867df55;
        0x316e8eef; 0x4669be79; 0xcb61b38c; 0xbc66831a; 0x256fd2a0; 0x5268e236;
        0xcc0c7795; 0xbb0b4703; 0x220216b9; 0x5505262f; 0xc5ba3bbe; 0xb2bd0b28;
        0x2bb45a92; 0x5cb36a04; 0xc2d7ffa7; 0xb5d0cf31; 0x2cd99e8b; 0x5bdeae1d;
        0x9b64c2b0; 0xec63f226; 0x756aa39c; 0x026d930a; 0x9c0906a9; 0xeb0e363f;
        0x72076785; 0x05005713; 0x95bf4a82; 0xe2b87a14; 0x7bb12bae; 0x0cb61b38;
        0x92d28e9b; 0xe5d5be0d; 0x7cdcefb7; 0x0bdbdf21; 0x86d3d2d4; 0xf1d4e242;
        0x68ddb3f8; 0x1fda836e; 0x81be16cd; 0xf6b9265b; 0x6fb077e1; 0x18b74777;
        0x88085ae6; 0xff0f6a70; 0x66063bca; 0x11010b5c; 0x8f659eff; 0xf862ae69;
        0x616bffd3; 0x166ccf45; 0xa00ae278; 0xd70dd2ee; 0x4e048354; 0x3903b3c2;
        0xa7672661; 0xd06016f7; 0x4969474d; 0x3e6e77db; 0xaed16a4a; 0xd9d65adc;
        0x40df0b66; 0x37d83bf0; 0xa9bcae53; 0xdebb9ec5; 0x47b2cf7f; 0x30b5ffe9;
        0xbdbdf21c; 0xcabac28a; 0x53b39330; 0x24b4a3a6; 0xbad03605; 0xcdd70693;
        0x54de5729; 0x23d967bf; 0xb3667a2e; 0xc4614ab8; 0x5d681b02; 0x2a6f2b94;
        0xb40bbe37; 0xc30c8ea1; 0x5a05df1b; 0x2d02ef8d
].

(** One step of the loop: [crc = crc32_tab[(crc ^ *p++) & 0xFF] ^ (crc >> 8)]. *)
Definition crc32_step (crc p : Z) : Z :=
  Z.lxor (nth (Z.to_nat (Z.land (Z.lxor crc p) 0xFF)) crc32_tab 0) (Z.shiftr crc 8).

Definition sparse_crc32 (crc_in : Z) (buf : list Z) : Z :=
  Z.lxor (fold_left crc32_step buf (Z.lxor crc_in 0xFFFFFFFF)) 0xFFFFFFFF.

(** The checksum as the standard defines it: shift the register right by one
    bit, and add the polynomial when a one falls out. *)
Definition crc_bit (c : Z) : Z :=
  if Z.testbit c 0 then Z.lxor (Z.shiftr c 1) 0xEDB88320 else Z.shiftr c 1.

Definition crc_byte (c p : Z) : Z := Nat.iter 8 crc_bit (Z.lxor c p).

Definition crc32_bitwise (crc_in : Z) (buf : list Z) : Z :=
  Z.lxor (fold_left crc_byte buf (Z.lxor crc_in 0xFFFFFFFF)) 0xFFFFFFFF.

(** ** The table is the eight-fold bit step *)

Lemma crc32_tab_spec :
  crc32_tab = map (fun i => Nat.iter 8 crc_bit (Z.of_nat i)) (seq 0 256).
Proof. vm_compute. reflexivity. Qed.

Lemma crc32_tab_nth i :
  0 <= i < 256 -> nth (Z.to_nat i) crc32_tab 0 = Nat.iter 8 crc_bit i.
Proof.
  intros Hi. rewrite crc32_tab_spec.
  rewrite (nth_indep _ 0 (Nat.iter 8 crc_bit (Z.of_nat 0))) by (simpl; lia).
  rewrite (map_nth (fun i => Nat.iter 8 crc_bit (Z.of_nat i))).
  rewrite seq_nth by lia. f_equal. lia.
Qed.

(** ** Linearity of the bit step *)

Lemma crc_bit_shift x y : crc_bit (Z.lxor x (Z.shiftl y 1)) = Z.lxor (crc_bit x) y.
Proof.
  unfold crc_bit.
  assert (Hb : Z.testbit (Z.lxor x (Z.shiftl y 1)) 0 = Z.testbit x 0).
  { rewrite Z.lxor_spec, Z.shiftl_spec by lia.
    rewrite (Z.testbit_neg_r y (0 - 1)) by lia. apply xorb_false_r. }
  assert (Hs : Z.shiftr (Z.lxor x (Z.shiftl y 1)) 1 = Z.lxor (Z.shiftr x 1) y).
  { rewrite Z.shiftr_lxor, Z.shiftr_shiftl_l by lia. by rewrite Z.shiftl_0_r. }
  rewrite Hb, Hs. destruct (Z.testbit x 0); [|done].
  by rewrite !Z.lxor_assoc, (Z.lxor_comm y).
Qed.

Lemma crc_bits_shift n x y :
  Nat.iter n crc_bit (Z.lxor x (Z.shiftl y (Z.of_nat n))) = Z.lxor (Nat.iter n crc_bit x) y.
Proof.
  revert x y. induction n as [|n IH]; intros x y.
  - simpl. by rewrite Z.shiftl_0_r.
  - rewrite !Nat.iter_succ.
    replace (Z.shiftl y (Z.of_nat (S n))) with (Z.shiftl (Z.shiftl y 1) (Z.of_nat n))
      by (rewrite Z.shiftl_shiftl by lia; f_equal; lia).
    rewrite IH. apply crc_bit_shift.
Qed.

Lemma split_low_byte c : Z.lxor (Z.land c 0xFF) (Z.shiftl (Z.shiftr c 8) 8) = c.
Proof.
  apply Z.bits_inj'. intros n Hn.
  rewrite Z.lxor_spec, Z.land_spec, Z.shiftl_spec by lia.
  change 0xFF with (Z.ones 8).
  destruct (Z.lt_ge_cases n 8).
  - rewrite Z.ones_spec_low by lia. rewrite (Z.testbit_neg_r _ (n - 8)) by lia.
    by rewrite andb_true_r, xorb_false_r.
  - rewrite Z.ones_spec_high, Z.shiftr_spec by lia.
    rewrite andb_false_r, xorb_false_l. f_equal. lia.
Qed.

Lemma shiftr_byte p : byte_ok p -> Z.shiftr p 8 = 0.
Proof. intros [? ?]. rewrite Z.shiftr_div_pow2 by lia. by apply Z.div_small. Qed.

Lemma land_ff_range z : 0 <= Z.land z 0xFF < 256.
Proof. change 0xFF with (Z.ones 8). rewrite Z.land_ones by lia. apply Z.mod_pos_bound. lia. Qed.

Lemma crc32_step_byte crc p : byte_ok p -> crc32_step crc p = crc_byte crc p.
Proof.
  intros Hp. unfold crc32_step, crc_byte.
  rewrite crc32_tab_nth by apply land_ff_range.
  rewrite <- (crc_bits_shift 8). f_equal.
  rewrite <- (split_low_byte (Z.lxor crc p)) at 2. f_equal. f_equal.
  by rewrite Z.shiftr_lxor, (shiftr_byte p), Z.lxor_0_r.
Qed.

Lemma lxor_ones_cancel c : Z.lxor (Z.lxor c 0xFFFFFFFF) 0xFFFFFFFF = c.
Proof. by rewrite Z.lxor_assoc, Z.lxor_nilpotent, Z.lxor_0_r. Qed.

Lemma lxor_u32_range a b :
  0 <= a < 2 ^ 32 -> 0 <= b < 2 ^ 32 -> 0 <= Z.lxor a b < 2 ^ 32.
Proof.
  intros Ha Hb.
  rewrite <- (Z.mod_small a (2 ^ 32)), <- (Z.mod_small b (2 ^ 32)) by lia.
  rewrite <- !(Z.land_ones _ 32) by lia.
  replace (Z.lxor (Z.land a (Z.ones 32)) (Z.land b (Z.ones 32)))
    with (Z.land (Z.lxor a b) (Z.ones 32)).
  - rewrite Z.land_ones by lia. apply Z.mod_pos_bound. lia.
  - apply Z.bits_inj'. intros n Hn.
    rewrite !Z.land_spec, !Z.lxor_spec, !Z.land_spec.
    by destruct (Z.testbit a n), (Z.testbit b n), (Z.testbit (Z.ones 32) n).
Qed.

Lemma crc_bit_range c : 0 <= c < 2 ^ 32 -> 0 <= crc_bit c < 2 ^ 32.
Proof.
  intros Hc. unfold crc_bit.
  assert (Hs : 0 <= Z.shiftr c 1 < 2 ^ 32).
  { rewrite Z.shiftr_div_pow2 by lia. wrap_pow. change (2 ^ 1) with 2.
    Z.div_mod_to_equations. lia. }
  destruct (Z.testbit c 0); [|done]. apply lxor_u32_range; [done|]. wrap_pow. lia.
Qed.

Lemma crc_byte_range c p : 0 <= c < 2 ^ 32 -> byte_ok p -> 0 <= crc_byte c p < 2 ^ 32.
Proof.
  intros Hc [? ?]. unfold crc_byte.
  assert (Hx : 0 <= Z.lxor c p < 2 ^ 32) by (apply lxor_u32_range; [done | wrap_pow; lia]).
  revert Hx. generalize (Z.lxor c p). generalize 8%nat.
  intros n. induction n as [|n IH]; intros z Hz; [done|].
  rewrite Nat.iter_succ. by apply crc_bit_range, IH.
Qed.

Lemma crc_fold_range buf c :
  0 <= c < 2 ^ 32 -> bytes_ok buf -> 0 <= fold_left crc32_step buf c < 2 ^ 32.
Proof.
  intros Hc Hb. revert c Hc. induction Hb as [|p buf Hp Hb IH]; intros c Hc; [done|].
  simpl. apply IH. rewrite crc32_step_byte by done. by apply crc_byte_range.
Qed.

Lemma sparse_crc32_app c a b :
  sparse_crc32 c (a ++ b) = sparse_crc32 (sparse_crc32 c a) b.
Proof. unfold sparse_crc32. by rewrite fold_left_app, lxor_ones_cancel. Qed.

Lemma sparse_crc32_nil c : sparse_crc32 c [] = c.
Proof. unfold sparse_crc32. simpl. apply lxor_ones_cancel. Qed.

Lemma crc32_tab_range i : 0 <= nth i crc32_tab 0 < 2 ^ 32.
Proof.
  assert (H : forallb (fun x => (0 <=? x) && (x <? 2 ^ 32)) crc32_tab = true) by (vm_compute; reflexivity).
  rewrite forallb_forall in H. destruct (nth_in_or_default i crc32_tab 0) as [Hin|E].
  - specialize (H _ Hin). lia.
  - rewrite E. wrap_pow. lia.
Qed.

Lemma sparse_crc32_range c buf : 0 <= c < 2 ^ 32 -> 0 <= sparse_crc32 c buf < 2 ^ 32.
Proof.
  intros Hc. unfold sparse_crc32. apply lxor_u32_range; [|wrap_pow; lia].
  assert (Hc' : 0 <= Z.lxor c 0xFFFFFFFF < 2 ^ 32) by (apply lxor_u32_range; [done|wrap_pow; lia]).
  revert Hc'. generalize (Z.lxor c 0xFFFFFFFF). induction buf as [|p buf IH]; intros x Hx; [done|].
  simpl. apply IH. unfold crc32_step. apply lxor_u32_range; [apply crc32_tab_range|].
  rewrite Z.shiftr_div_pow2 by lia. change (2 ^ 8) with 256. wrap_pow. Z.div_mod_to_equations. lia.
Qed.

(** ** Properties *)

(** C21: on every buffer of bytes the table-driven [sparse_crc32] computes the
    bit-at-a-time CRC-32 with the reflected polynomial 0xedb88320. *)
Theorem sparse_crc32_correct crc_in buf :
  bytes_ok buf -> sparse_crc32 crc_in buf = crc32_bitwise crc_in buf.
Proof.
  intros Hb. unfold sparse_crc32, crc32_bitwise. f_equal.
  generalize (Z.lxor crc_in 0xFFFFFFFF).
  induction Hb as [|p buf Hp Hb IH]; intros c; [done|].
  simpl. rewrite crc32_step_byte by done. apply IH.
Qed.

Lemma sparse_crc32_correct_witness :
  sparse_crc32 0 [49; 50; 51; 52; 53; 54; 55; 56; 57] = 0xCBF43926 /\
  crc32_bitwise 0 [49; 50; 51; 52; 53; 54; 55; 56; 57] = 0xCBF43926.
Proof.
  rewrite <- (sparse_crc32_correct 0 [49; 50; 51; 52; 53; 54; 55; 56; 57]).
  - split; vm_compute; reflexivity.
  - bytes_tac.
Defined.

(** The checksum fits the 32-bit field that stores it, and it can be
    computed piecewise: continuing from the checksum of a prefix gives the
    checksum of the whole buffer. *)
Theorem sparse_crc32_incremental crc_in a b :
  0 <= crc_in < 2 ^ 32 -> bytes_ok a -> bytes_ok b ->
  sparse_crc32 crc_in (a ++ b) = sparse_crc32 (sparse_crc32 crc_in a) b /\
  0 <= sparse_crc32 crc_in (a ++ b) < 2 ^ 32.
Proof.
  intros Hc Ha Hb. split; [apply sparse_crc32_app|].
  unfold sparse_crc32. apply lxor_u32_range; [|wrap_pow; lia].
  apply crc_fold_range; [|by apply Forall_app].
  apply lxor_u32_range; [done | wrap_pow; lia].
Qed.

Lemma sparse_crc32_incremental_witness :
  sparse_crc32 0 [1; 2; 3] = sparse_crc32 (sparse_crc32 0 [1]) [2; 3].
Proof.
  apply (sparse_crc32_incremental 0 [1] [2; 3]);
    [lia | bytes_tac | bytes_tac].
Defined.

End Crc32.
