(* ===== verification/Posix.v ===== *)
(** * The part of the C library's file interface the program relies on

    A [file] is an open file description: its bytes, its position, and how
    much one [read] or [write] at a given position transfers at most (a
    negative limit is an error with that [errno]). So short transfers and
    failures are ordinary behaviours of the model, as they are of the
    system. *)

From S2P Require Import Prelude.

Module Posix.

Definition EINVAL : Z := 22.

Record file := mk_file {
  f_data : list Z;
  f_pos : Z;
  f_rlimit : Z -> Z;
  f_wlimit : Z -> Z
}.

Definition f_size (f : file) : Z := zlen (f_data f).

Definition set_pos (f : file) (p : Z) : file :=
  mk_file (f_data f) p (f_rlimit f) (f_wlimit f).

(** [read(fd, buf, n)]: the file, the return value and the bytes stored; a
    failure returns [- errno] (the caller sees -1 and reads [errno]). *)
Definition read (f : file) (n : Z) : file * Z * list Z :=
  if f_rlimit f (f_pos f) <? 0 then (f, f_rlimit f (f_pos f), [])
  else
    let k := Z.max 0 (Z.min n (Z.min (f_rlimit f (f_pos f)) (f_size f - f_pos f))) in
    (set_pos f (f_pos f + k), k, sub_bytes (f_data f) (f_pos f) k).

(** The bytes of a file after [bs] is stored at [pos]; a gap reads as zeros. *)
Definition put_bytes (data : list Z) (pos : Z) (bs : list Z) : list Z :=
  let p := Z.to_nat pos in
  take p (data ++ replicate (p - length data) 0) ++ bs ++ drop (p + length bs) data.

Definition write (f : file) (bs : list Z) : file * Z :=
  if f_wlimit f (f_pos f) <? 0 then (f, f_wlimit f (f_pos f))
  else
    let k := Z.min (zlen bs) (f_wlimit f (f_pos f)) in
    let out := take (Z.to_nat k) bs in
    (mk_file (put_bytes (f_data f) (f_pos f) out) (f_pos f + k) (f_rlimit f) (f_wlimit f), k).

Inductive whence : Set := SEEK_SET | SEEK_CUR | SEEK_END.

Definition lseek64 (f : file) (off : Z) (w : whence) : file * Z :=
  let p := match w with
           | SEEK_SET => off
           | SEEK_CUR => f_pos f + off
           | SEEK_END => f_size f + off
           end in
  if p <? 0 then (f, - EINVAL) else (set_pos f p, p).

Definition ftruncate64 (f : file) (n : Z) : file * Z :=
  if n <? 0 then (f, - EINVAL)
  else (mk_file (take (Z.to_nat n) (f_data f ++ replicate (Z.to_nat n - length (f_data f)) 0))
          (f_pos f) (f_rlimit f) (f_wlimit f), 0).

(** An in-memory file that never fails and transfers everything at once. *)
Definition plain_file (data : list Z) : file :=
  mk_file data 0 (fun _ => 2 ^ 63) (fun _ => 2 ^ 63).

(** A write at the end of a file without a limit appends. *)
Lemma write_append f bs :
  f_pos f = f_size f -> zlen bs <= f_wlimit f (f_pos f) ->
  write f bs = (mk_file (f_data f ++ bs) (f_pos f + zlen bs) (f_rlimit f) (f_wlimit f), zlen bs).
Proof.
  intros Hp Hl. unfold write. pose proof (zlen_nonneg bs).
  assert (H0 : (f_wlimit f (f_pos f) <? 0) = false) by lia. rewrite H0.
  rewrite Z.min_l by lia. rewrite take_ge by (unfold zlen; lia). f_equal. f_equal.
  unfold put_bytes, f_size, zlen in *. rewrite Hp, Nat2Z.id, Nat.sub_diag. simpl.
  rewrite app_nil_r, take_ge by lia. rewrite drop_ge by lia. by rewrite app_nil_r.
Qed.

(** A read that is not limited and stays inside the file. *)
Lemma read_inside f n :
  0 <= n -> 0 <= f_pos f -> f_pos f + n <= f_size f -> n <= f_rlimit f (f_pos f) ->
  read f n = (set_pos f (f_pos f + n), n, sub_bytes (f_data f) (f_pos f) n).
Proof.
  intros. unfold read. assert (H' : (f_rlimit f (f_pos f) <? 0) = false) by lia. rewrite H'.
  by rewrite (Z.max_r 0) by lia; rewrite Z.min_l by lia.
Qed.

End Posix.
