(* ===== verification/SparseFormat.v ===== *)
(** * libsparse/sparse_format.h

    The on-disk structures of the Android sparse image format: the records,
    their little-endian image, and the round trip between the two. *)

From S2P Require Import Prelude.

Module SparseFormat.

Definition SPARSE_HEADER_MAGIC : Z := 0xed26ff3a.
Definition CHUNK_TYPE_RAW : Z := 0xCAC1.
Definition CHUNK_TYPE_FILL : Z := 0xCAC2.
Definition CHUNK_TYPE_DONT_CARE : Z := 0xCAC3.
Definition CHUNK_TYPE_CRC32 : Z := 0xCAC4.

Record sparse_header := mk_sparse_header {
  magic : Z;
  major_version : Z;
  minor_version : Z;
  file_hdr_sz : Z;
  chunk_hdr_sz : Z;
  blk_sz : Z;
  total_blks : Z;
  total_chunks : Z;
  image_checksum : Z
}.

Record chunk_header := mk_chunk_header {
  chunk_type : Z;
  reserved1 : Z;
  chunk_sz : Z;
  total_sz : Z
}.

(** [sizeof] of the two structures: their fields need no padding. *)
Definition SPARSE_HEADER_LEN : Z := 28.
Definition CHUNK_HEADER_LEN : Z := 12.

Definition sparse_header_bytes (h : sparse_header) : list Z :=
  le_bytes 4 (magic h) ++ le_bytes 2 (major_version h) ++ le_bytes 2 (minor_version h) ++
  le_bytes 2 (file_hdr_sz h) ++ le_bytes 2 (chunk_hdr_sz h) ++ le_bytes 4 (blk_sz h) ++
  le_bytes 4 (total_blks h) ++ le_bytes 4 (total_chunks h) ++ le_bytes 4 (image_checksum h).

Definition chunk_header_bytes (h : chunk_header) : list Z :=
  le_bytes 2 (chunk_type h) ++ le_bytes 2 (reserved1 h) ++ le_bytes 4 (chunk_sz h) ++
  le_bytes 4 (total_sz h).

(** A field of a structure as the reader sees it in the bytes it was given. *)
Definition field (l : list Z) (off n : Z) : Z := le_val (sub_bytes l off n).

Definition sparse_header_of_bytes (l : list Z) : sparse_header :=
  mk_sparse_header (field l 0 4) (field l 4 2) (field l 6 2) (field l 8 2) (field l 10 2)
    (field l 12 4) (field l 16 4) (field l 20 4) (field l 24 4).

Definition chunk_header_of_bytes (l : list Z) : chunk_header :=
  mk_chunk_header (field l 0 2) (field l 2 2) (field l 4 4) (field l 8 4).

(** ** Chunks

    What one chunk of a sparse image says: [k] blocks of data, [k] blocks
    filled with a 32-bit value, [k] blocks that are not given, or the checksum
    of all blocks so far. *)
Inductive chunk : Set :=
  | Raw (data : list Z)
  | Fill (k v : Z)
  | Skip (k : Z)
  | Crc (c : Z).

Definition chunk_hdr (bs : Z) (c : chunk) : chunk_header :=
  match c with
  | Raw d => mk_chunk_header CHUNK_TYPE_RAW 0 (zlen d / bs) (CHUNK_HEADER_LEN + zlen d)
  | Fill k _ => mk_chunk_header CHUNK_TYPE_FILL 0 k (CHUNK_HEADER_LEN + 4)
  | Skip k => mk_chunk_header CHUNK_TYPE_DONT_CARE 0 k CHUNK_HEADER_LEN
  | Crc _ => mk_chunk_header CHUNK_TYPE_CRC32 0 0 (CHUNK_HEADER_LEN + 4)
  end.

Definition chunk_body (c : chunk) : list Z :=
  match c with
  | Raw d => d
  | Fill _ v => le_bytes 4 v
  | Skip _ => []
  | Crc c => le_bytes 4 c
  end.

Definition chunk_bytes (bs : Z) (c : chunk) : list Z :=
  chunk_header_bytes (chunk_hdr bs c) ++ chunk_body c.

Definition chunks_bytes (bs : Z) (l : list chunk) : list Z := concat (map (chunk_bytes bs) l).

(** The number of blocks a chunk stands for. *)
Definition chunk_blocks (bs : Z) (c : chunk) : Z := chunk_sz (chunk_hdr bs c).

(** [n] words of value [v]. *)
Definition fill_words (n v : Z) : list Z := concat (replicate (Z.to_nat n) (le_bytes 4 v)).

(** The bytes of the image a chunk stands for; skipped blocks read as zeros. *)
Definition chunk_image (bs : Z) (c : chunk) : list Z :=
  match c with
  | Raw d => d
  | Fill k v => fill_words (k * bs / 4) v
  | Skip k => zeros (k * bs)
  | Crc _ => []
  end.

Definition chunks_image (bs : Z) (l : list chunk) : list Z := concat (map (chunk_image bs) l).

(** Data padded with zeros to whole blocks. *)
Definition pad_block (bs : Z) (data : list Z) : list Z :=
  data ++ zeros (ALIGN (zlen data) bs - zlen data).

Definition u16_ok (z : Z) : Prop := 0 <= z < 2 ^ 16.
Definition u32_ok (z : Z) : Prop := 0 <= z < 2 ^ 32.

Definition sparse_header_ok (h : sparse_header) : Prop :=
  u32_ok (magic h) /\ u16_ok (major_version h) /\ u16_ok (minor_version h) /\
  u16_ok (file_hdr_sz h) /\ u16_ok (chunk_hdr_sz h) /\ u32_ok (blk_sz h) /\
  u32_ok (total_blks h) /\ u32_ok (total_chunks h) /\ u32_ok (image_checksum h).

Definition chunk_header_ok (h : chunk_header) : Prop :=
  u16_ok (chunk_type h) /\ u16_ok (reserved1 h) /\ u32_ok (chunk_sz h) /\ u32_ok (total_sz h).

Lemma sparse_header_bytes_len h : zlen (sparse_header_bytes h) = SPARSE_HEADER_LEN.
Proof. unfold sparse_header_bytes. rewrite !zlen_app, !zlen_le_bytes. reflexivity. Qed.

Lemma chunk_header_bytes_len h : zlen (chunk_header_bytes h) = CHUNK_HEADER_LEN.
Proof. unfold chunk_header_bytes. rewrite !zlen_app, !zlen_le_bytes. reflexivity. Qed.

Lemma zlen_pad_block bs data : 0 < bs -> zlen (pad_block bs data) = bs * DIV_ROUND_UP (zlen data) bs.
Proof.
  intros. unfold pad_block, ALIGN. pose proof (DIV_ROUND_UP_bound (zlen data) bs).
  rewrite zlen_app, zlen_zeros by lia. lia.
Qed.

Lemma zlen_fill_words n v : 0 <= n -> zlen (fill_words n v) = 4 * n.
Proof.
  intros. unfold fill_words. rewrite <- (Z2Nat.id n) at 2 by lia.
  induction (Z.to_nat n) as [|m IH]; [done|]. cbn [replicate concat].
  rewrite zlen_app, IH, zlen_le_bytes. lia.
Qed.

Lemma fill_words_add a b v : 0 <= a -> 0 <= b ->
  fill_words (a + b) v = fill_words a v ++ fill_words b v.
Proof. intros. unfold fill_words. by rewrite Z2Nat.inj_add, replicate_add, concat_app by lia. Qed.

Lemma take_fill_words a n v : 0 <= a <= n ->
  take (Z.to_nat (4 * a)) (fill_words n v) = fill_words a v.
Proof.
  intros. replace n with (a + (n - a)) by lia. rewrite fill_words_add by lia.
  rewrite take_app_length'; [done|]. pose proof (zlen_fill_words a v). unfold zlen in *. lia.
Qed.

Lemma zeros_fill_words n : 0 <= n -> zeros (4 * n) = fill_words n 0.
Proof.
  intros Hn. unfold zeros, fill_words. rewrite Z2Nat.inj_mul by lia.
  induction (Z.to_nat n) as [|m IH]; [done|]. rewrite Nat.mul_succ_r, Nat.add_comm.
  cbn [replicate concat]. rewrite <- IH. reflexivity.
Qed.

Lemma chunks_bytes_app bs l k : chunks_bytes bs (l ++ k) = chunks_bytes bs l ++ chunks_bytes bs k.
Proof. unfold chunks_bytes. by rewrite map_app, concat_app. Qed.

Lemma chunks_bytes_cons bs c l : chunks_bytes bs (c :: l) = chunk_bytes bs c ++ chunks_bytes bs l.
Proof. done. Qed.

Lemma chunks_image_app bs l k : chunks_image bs (l ++ k) = chunks_image bs l ++ chunks_image bs k.
Proof. unfold chunks_image. by rewrite map_app, concat_app. Qed.

Lemma field_at pre n z post off m :
  off = zlen pre -> m = Z.of_nat n -> 0 <= z < 256 ^ Z.of_nat n ->
  field (pre ++ le_bytes n z ++ post) off m = z.
Proof.
  intros -> -> Hz. unfold field.
  rewrite (sub_bytes_exact pre (le_bytes n z) post) by (by rewrite ?zlen_le_bytes).
  by apply le_val_bytes_id.
Qed.

(** Solves a field of a concrete structure: moves the fields before it to the
    left until [field_at] applies. *)
Ltac field_tac :=
  first [ apply (field_at []); [reflexivity | reflexivity | assumption]
        | apply field_at; [rewrite ?zlen_app, ?zlen_le_bytes; reflexivity | reflexivity | assumption]
        | rewrite app_assoc; field_tac ].

Lemma sparse_header_of_bytes_ok h post :
  sparse_header_ok h -> sparse_header_of_bytes (sparse_header_bytes h ++ post) = h.
Proof.
  intros (H1 & H2 & H3 & H4 & H5 & H6 & H7 & H8 & H9).
  destruct h as [a b c d e f g i j]. unfold sparse_header_of_bytes, sparse_header_bytes.
  cbn [magic major_version minor_version file_hdr_sz chunk_hdr_sz blk_sz total_blks total_chunks
       image_checksum] in *.
  rewrite <- !app_assoc. f_equal; field_tac.
Qed.

Lemma chunk_header_of_bytes_ok h post :
  chunk_header_ok h -> chunk_header_of_bytes (chunk_header_bytes h ++ post) = h.
Proof.
  intros (H1 & H2 & H3 & H4). destruct h as [a b c d].
  unfold chunk_header_of_bytes, chunk_header_bytes.
  cbn [chunk_type reserved1 chunk_sz total_sz] in *. rewrite <- !app_assoc. f_equal; field_tac.
Qed.

End SparseFormat.
