(* ===== verification/BackedBlock.v ===== *)
(** * libsparse/backed_block.c

    The list of backed blocks of a sparse file. A node keeps its address, so
    that the [last_used] pointer of the list, which the code dereferences, can
    be followed or found dangling; the order of the Rocq list is the chain of
    the [next] pointers. [libsparse] is compiled without [NDEBUG], so a failed
    [assert] stops the program. *)

From S2P Require Import Prelude.

Module BackedBlock.

Definition EINVAL : Z := 22.
Definition ENOMEM : Z := 12.

Inductive backed_block_type_t : Set :=
  | BACKED_BLOCK_DATA
  | BACKED_BLOCK_FILE
  | BACKED_BLOCK_FD
  | BACKED_BLOCK_FILL.

#[export] Instance backed_block_type_eq_dec : EqDecision backed_block_type_t.
Proof. solve_decision. Defined.

(** The union of [struct backed_block]. A file name is the pointer [strdup]
    returned together with the string it points to: the code compares the
    pointers. *)
Inductive bb_payload : Set :=
  | bb_data (data : Z)
  | bb_file (filename : Z) (name : string) (offset : Z)
  | bb_fd (fd offset : Z)
  | bb_fill (val : Z).

#[export] Instance bb_payload_eq_dec : EqDecision bb_payload.
Proof. solve_decision. Defined.

Record backed_block := mk_bb {
  bb_addr : Z;
  block : Z;
  len : Z;
  payload : bb_payload
}.

#[export] Instance backed_block_eq_dec : EqDecision backed_block.
Proof. solve_decision. Defined.

Record backed_block_list := mk_bbl {
  data_blocks : list backed_block;
  last_used : option Z;
  block_size : Z
}.

#[export] Instance backed_block_list_eq_dec : EqDecision backed_block_list.
Proof. solve_decision. Defined.

(** ** Accessors *)

Definition backed_block_type (bb : backed_block) : backed_block_type_t :=
  match payload bb with
  | bb_data _ => BACKED_BLOCK_DATA
  | bb_file _ _ _ => BACKED_BLOCK_FILE
  | bb_fd _ _ => BACKED_BLOCK_FD
  | bb_fill _ => BACKED_BLOCK_FILL
  end.

Definition backed_block_iter_new (bbl : backed_block_list) : option backed_block :=
  head (data_blocks bbl).

Definition backed_block_len (bb : backed_block) : Z := len bb.
Definition backed_block_block (bb : backed_block) : Z := block bb.

Definition backed_block_data (bb : backed_block) : outcome Z :=
  match payload bb with bb_data d => Ok d | _ => AssertFail end.

Definition backed_block_filename (bb : backed_block) : outcome string :=
  match payload bb with bb_file _ n _ => Ok n | _ => AssertFail end.

Definition backed_block_fd (bb : backed_block) : outcome Z :=
  match payload bb with bb_fd f _ => Ok f | _ => AssertFail end.

Definition backed_block_file_offset (bb : backed_block) : outcome Z :=
  match payload bb with
  | bb_file _ _ o => Ok o
  | bb_fd _ o => Ok o
  | _ => AssertFail
  end.

Definition backed_block_fill_val (bb : backed_block) : outcome Z :=
  match payload bb with bb_fill v => Ok v | _ => AssertFail end.

(** ** Creation and destruction

    The result of a destructor is the sequence of pointers it passes to
    [free]. *)

Definition backed_block_destroy (bb : backed_block) : list Z :=
  match payload bb with
  | bb_file f _ _ => [f; bb_addr bb]
  | _ => [bb_addr bb]
  end.

Definition backed_block_list_new (bs : Z) : backed_block_list :=
  mk_bbl [] None bs.

Definition backed_block_list_destroy (self : Z) (bbl : backed_block_list) : list Z :=
  flat_map backed_block_destroy (data_blocks bbl) ++ [self].

(** ** Pointers into the list *)

Definition deref (p : Z) (l : list backed_block) : option backed_block :=
  find (fun b => bb_addr b =? p) l.

(** The list around the node at [p]. *)
Fixpoint split_at (p : Z) (l : list backed_block)
  : option (list backed_block * backed_block * list backed_block) :=
  match l with
  | [] => None
  | b :: l' =>
    if bb_addr b =? p then Some ([], b, l')
    else match split_at p l' with
         | Some (pre, c, post) => Some (b :: pre, c, post)
         | None => None
         end
  end.

(** ** Queueing *)

Definition set_len (bb : backed_block) (n : Z) : backed_block :=
  mk_bb (bb_addr bb) (block bb) n (payload bb).

(** The comparison of the [switch] in [merge_bb]. *)
Definition mergeable (a b : backed_block) : bool :=
  match payload a, payload b with
  | bb_fill va, bb_fill vb => va =? vb
  | bb_file fa _ oa, bb_file fb _ ob => (fa =? fb) && (s64 (oa + len a) =? ob)
  | bb_fd fa oa, bb_fd fb ob => (fa =? fb) && (s64 (oa + len a) =? ob)
  | _, _ => false
  end.

(** On success the second component is [a] with [b] merged into it (and [b] is
    freed); otherwise both nodes are left as they are. *)
Definition merge_bb (bbl : backed_block_list) (a b : option backed_block)
  : outcome (Z * option backed_block) :=
  match a, b with
  | Some a, Some b =>
    if negb (block a <? block b) then AssertFail
    else if negb (bool_decide (backed_block_type a = backed_block_type b)) then
      Ok (- EINVAL, None)
    else if block_size bbl =? 0 then Undef
    else
      let block_len := len a / block_size bbl in
      if negb (u32 (block a + block_len) =? block b) then Ok (- EINVAL, None)
      else if negb (mergeable a b) then Ok (- EINVAL, None)
      else Ok (0, Some (set_len a (u32 (len a + len b))))
  | _, _ => Ok (- EINVAL, None)
  end.

(** The search loop: starting at [bb], whose successors are [post], move on
    while the next node starts before block [b]. *)
Fixpoint walk (bb : backed_block) (post : list backed_block) (b : Z)
  : list backed_block * backed_block * list backed_block :=
  match post with
  | nx :: post' =>
    if block nx <? b then
      let '(w, bb', rest) := walk nx post' b in (bb :: w, bb', rest)
    else ([], bb, post)
  | [] => ([], bb, [])
  end.

(** Where the search starts: at [last_used] when the new block lies behind it,
    else at the head of the list. *)
Definition queue_start (bbl : backed_block_list) (new_bb hd : backed_block)
    (tl : list backed_block)
  : outcome (list backed_block * backed_block * list backed_block) :=
  match last_used bbl with
  | None => Ok ([], hd, tl)
  | Some p =>
    let! lu := oof (deref p (new_bb :: hd :: tl)) in
    if block lu <? block new_bb then oof (split_at p (hd :: tl))
    else Ok ([], hd, tl)
  end.

Definition queue_bb (bbl : backed_block_list) (new_bb : backed_block)
  : outcome (Z * backed_block_list) :=
  match data_blocks bbl with
  | [] => Ok (0, mk_bbl [new_bb] (last_used bbl) (block_size bbl))
  | hd :: tl =>
    if block new_bb <? block hd then
      Ok (0, mk_bbl (new_bb :: hd :: tl) (last_used bbl) (block_size bbl))
    else
      let! (pre, bb0, post) := queue_start bbl new_bb hd tl in
      let '(w, bb, rest) := walk bb0 post (block new_bb) in
      let! m1 := merge_bb bbl (Some new_bb) (head rest) in
      let '(new1, rest1) :=
        match m1 with
        | (_, Some n) => (n, tail rest)
        | (_, None) => (new_bb, rest)
        end in
      let! m2 := merge_bb bbl (Some bb) (Some new1) in
      let nodes :=
        match m2 with
        | (_, Some b) => [b]
        | (_, None) => [bb; new1]
        end in
      Ok (0, mk_bbl (pre ++ w ++ nodes ++ rest1) (Some (bb_addr new_bb)) (block_size bbl))
  end.

(** The four [backed_block_add_*] functions. [alloc] is what [calloc] returns
    ([None] for NULL), [dup] the pointer [strdup] returns. *)

Definition backed_block_add_fill (bbl : backed_block_list) (alloc : option Z)
    (fill_val l b : Z) : outcome (Z * backed_block_list) :=
  match alloc with
  | None => Ok (- ENOMEM, bbl)
  | Some p => queue_bb bbl (mk_bb p b l (bb_fill fill_val))
  end.

Definition backed_block_add_data (bbl : backed_block_list) (alloc : option Z)
    (data l b : Z) : outcome (Z * backed_block_list) :=
  match alloc with
  | None => Ok (- ENOMEM, bbl)
  | Some p => queue_bb bbl (mk_bb p b l (bb_data data))
  end.

Definition backed_block_add_file (bbl : backed_block_list) (alloc : option Z) (dup : Z)
    (filename : string) (offset l b : Z) : outcome (Z * backed_block_list) :=
  match alloc with
  | None => Ok (- ENOMEM, bbl)
  | Some p => queue_bb bbl (mk_bb p b l (bb_file dup filename offset))
  end.

Definition backed_block_add_fd (bbl : backed_block_list) (alloc : option Z)
    (fd offset l b : Z) : outcome (Z * backed_block_list) :=
  match alloc with
  | None => Ok (- ENOMEM, bbl)
  | Some p => queue_bb bbl (mk_bb p b l (bb_fd fd offset))
  end.

(** ** Splitting and moving *)

(** The payload [off] bytes further on. *)
Definition payload_at (p : bb_payload) (off : Z) : bb_payload :=
  match p with
  | bb_data d => bb_data (d + off)
  | bb_file f n o => bb_file f n (o + off)
  | bb_fd f o => bb_fd f (o + off)
  | bb_fill v => bb_fill v
  end.

(** [bb] points to a node of [bbl]. A failed [malloc] is not noticed (the code
    tests [bb] instead of [new_bb]), so it is a write through NULL. *)
Definition backed_block_split (bbl : backed_block_list) (bb : Z) (max_len : Z)
    (alloc : option Z) : outcome (Z * backed_block_list) :=
  if block_size bbl =? 0 then Undef
  else
    let max_len := u32 (ALIGN_DOWN max_len (block_size bbl)) in
    let! (pre, n, post) := oof (split_at bb (data_blocks bbl)) in
    if len n <=? max_len then Ok (0, bbl)
    else
      let! p := oof alloc in
      let new_bb :=
        mk_bb p (u32 (block n + max_len / block_size bbl)) (len n - max_len)
          (payload_at (payload n) max_len) in
      Ok (0, mk_bbl (pre ++ set_len n max_len :: new_bb :: post) (last_used bbl)
               (block_size bbl)).

(** The insertion loop of [backed_block_list_move]: the moved segment goes
    behind the first node whose successor starts after block [b]. *)
Fixpoint insert_segment (seg l : list backed_block) (b : Z) : list backed_block :=
  match l with
  | [] => seg
  | bb :: l' =>
    match l' with
    | [] => bb :: seg
    | nx :: _ => if b <? block nx then bb :: seg ++ l' else bb :: insert_segment seg l' b
    end
  end.

Definition backed_block_list_move (from to : backed_block_list) (start end_ : option Z)
  : outcome (backed_block_list * backed_block_list) :=
  let start := match start with Some p => Some p | None => bb_addr <$> head (data_blocks from) end in
  match start with
  | None => Ok (from, to)
  | Some s =>
    let! (pre, sb, post) := oof (split_at s (data_blocks from)) in
    let! (seg, rest) :=
      match end_ with
      | None => Ok (sb :: post, [])
      | Some e =>
        let! (mid, eb, rest) := oof (split_at e (sb :: post)) in
        Ok (mid ++ [eb], rest)
      end in
    Ok (mk_bbl (pre ++ rest) None (block_size from),
        mk_bbl (insert_segment seg (data_blocks to) (block sb)) None (block_size to))
  end.

(** ** What a list of blocks stands for

    [cover bs bb] is the sequence of device blocks the node [bb] provides:
    block number, where the bytes come from, and how many of the [bs] bytes
    are given. *)

Definition slice (bs : Z) (bb : backed_block) (i : Z) : Z * bb_payload * Z :=
  (block bb + i, payload_at (payload bb) (i * bs), Z.min bs (len bb - i * bs)).

Definition cover (bs : Z) (bb : backed_block) : list (Z * bb_payload * Z) :=
  map (slice bs bb) (seqZ 0 (DIV_ROUND_UP (len bb) bs)).

Definition covers (bs : Z) (l : list backed_block) : list (Z * bb_payload * Z) :=
  flat_map (cover bs) l.

Definition bb_end (bs : Z) (bb : backed_block) : Z := block bb + DIV_ROUND_UP (len bb) bs.

(** The ranges the C types and the callers guarantee. *)
Definition node_ok (bs : Z) (bb : backed_block) : Prop :=
  0 <= block bb /\ 0 < len bb < 2 ^ 32 /\ bb_end bs bb <= 2 ^ 32 /\
  match payload bb with
  | bb_file _ _ o | bb_fd _ o => 0 <= o /\ o + len bb < 2 ^ 63
  | _ => True
  end.

(** The nodes lie in [lo, hi), in order and without overlap. *)
Fixpoint blocks_ok (bs lo : Z) (l : list backed_block) (hi : Z) : Prop :=
  match l with
  | [] => lo <= hi
  | bb :: l' => lo <= block bb /\ node_ok bs bb /\ blocks_ok bs (bb_end bs bb) l' hi
  end.

Definition bbl_ok (bbl : backed_block_list) : Prop :=
  0 < block_size bbl /\
  blocks_ok (block_size bbl) 0 (data_blocks bbl) (2 ^ 32) /\
  NoDup (map bb_addr (data_blocks bbl)).

(** [last_used] is NULL or points to a node of the list. *)
Definition last_used_live (bbl : backed_block_list) : Prop :=
  match last_used bbl with
  | None => True
  | Some p => In p (map bb_addr (data_blocks bbl))
  end.

(** Equal file name pointers point to the same string. *)
Definition same_name (a b : backed_block) : Prop :=
  match payload a, payload b with
  | bb_file f n _, bb_file f' n' _ => f = f' -> n = n'
  | _, _ => True
  end.

(** The new block overlaps nothing, its address is new, and no merge it can
    take part in reaches 4 GiB. *)
Definition addable (bbl : backed_block_list) (new_bb : backed_block) : Prop :=
  node_ok (block_size bbl) new_bb /\
  ~ In (bb_addr new_bb) (map bb_addr (data_blocks bbl)) /\
  (forall a, In a (data_blocks bbl) -> same_name a new_bb) /\
  (forall a, In a (data_blocks bbl) ->
     bb_end (block_size bbl) a <= block new_bb \/ bb_end (block_size bbl) new_bb <= block a) /\
  (forall a b, In a (data_blocks bbl) -> In b (data_blocks bbl) ->
     len a + len new_bb + len b < 2 ^ 32).

(** ** Lemmas: covers *)

Lemma payload_at_at p x y : payload_at (payload_at p x) y = payload_at p (x + y).
Proof. destruct p; simpl; f_equal; lia. Qed.

Lemma payload_at_0 p : payload_at p 0 = p.
Proof. destruct p; simpl; f_equal; lia. Qed.

Lemma covers_app bs l k : covers bs (l ++ k) = covers bs l ++ covers bs k.
Proof. apply flat_map_app. Qed.

Lemma seqZ_split a b : 0 <= a -> 0 <= b -> seqZ 0 (a + b) = seqZ 0 a ++ map (Z.add a) (seqZ 0 b).
Proof.
  intros. rewrite seqZ_app by lia. f_equal. change (map (Z.add a) (seqZ 0 b)) with (Z.add a <$> seqZ 0 b).
  rewrite fmap_add_seqZ. f_equal. lia.
Qed.

(** Two adjacent nodes cover what one node of their joint length covers. *)
Lemma cover_join bs (a b : backed_block) k n :
  0 < bs -> 0 <= k -> 0 < len b -> len a = k * bs -> n = len a + len b ->
  block b = block a + k -> payload b = payload_at (payload a) (len a) ->
  cover bs (set_len a n) = cover bs a ++ cover bs b.
Proof.
  intros Hbs Hk Hb Ha -> Hblk Hp. unfold cover. simpl.
  assert (Hd : DIV_ROUND_UP (len a + len b) bs = k + DIV_ROUND_UP (len b) bs).
  { rewrite Ha. unfold DIV_ROUND_UP.
    replace (k * bs + len b + bs - 1) with (k * bs + (len b + bs - 1)) by lia.
    by rewrite Z.div_add_l by lia. }
  rewrite Hd. pose proof (DIV_ROUND_UP_nonneg (len b) bs).
  rewrite seqZ_split, map_app by lia.
  f_equal.
  - rewrite Ha, DIV_ROUND_UP_mul by lia. apply map_ext_in. intros i Hi.
    apply list_elem_of_In, elem_of_seqZ in Hi. unfold slice. simpl.
    rewrite Ha. f_equal. rewrite !Z.min_l by nia. done.
  - rewrite map_map. apply map_ext. intros i. unfold slice. simpl.
    rewrite Hblk, Hp, payload_at_at, Ha.
    replace (k * bs + i * bs) with ((k + i) * bs) by lia.
    replace (k * bs + len b - (k + i) * bs) with (len b - i * bs) by lia.
    by rewrite Z.add_assoc.
Qed.

(** ** Lemmas: ordered segments *)

Lemma blocks_ok_app bs lo l k hi :
  blocks_ok bs lo (l ++ k) hi <-> exists mid, blocks_ok bs lo l mid /\ blocks_ok bs mid k hi.
Proof.
  revert lo. induction l as [|a l IH]; intros lo; simpl.
  - split; [|intros (mid & ? & ?)].
    + intros H. exists lo. split; [lia|done].
    + destruct k; simpl in *; intuition lia.
  - rewrite IH. split; [intros (? & ? & mid & ? & ?) | intros (mid & (? & ? & ?) & ?)]; eauto 10.
Qed.

Lemma bb_end_gt bs bb : 0 < bs -> node_ok bs bb -> block bb < bb_end bs bb.
Proof. intros Hbs (? & ? & _). unfold bb_end. pose proof (DIV_ROUND_UP_pos (len bb) bs). lia. Qed.

Lemma blocks_ok_le bs lo l hi : 0 < bs -> blocks_ok bs lo l hi -> lo <= hi.
Proof.
  intros Hbs. revert lo. induction l as [|a l IH]; intros lo; simpl; [done|].
  intros (H1 & H2 & H3). apply IH in H3. pose proof (bb_end_gt bs a Hbs H2). lia.
Qed.

Lemma blocks_ok_in bs lo l hi a :
  0 < bs -> blocks_ok bs lo l hi -> In a l -> lo <= block a /\ node_ok bs a /\ bb_end bs a <= hi.
Proof.
  intros Hbs. revert lo. induction l as [|b l IH]; intros lo; simpl; [done|].
  intros (H1 & H2 & H3) [->|Hin].
  - split; [done|]. split; [done|]. by apply blocks_ok_le in H3.
  - destruct (IH _ H3 Hin) as (? & ? & ?). pose proof (bb_end_gt bs b Hbs H2). repeat split; try done; try apply H0. lia.
Qed.

(** The upper bound of a segment can come down to the last end. *)
Lemma blocks_ok_upper bs lo l hi x :
  blocks_ok bs lo l hi -> lo <= x -> (forall a, In a l -> bb_end bs a <= x) -> blocks_ok bs lo l x.
Proof.
  revert lo. induction l as [|a l IH]; intros lo; simpl; [done|].
  intros (H1 & H2 & H3) Hlo Hall. split; [done|]. split; [done|].
  apply IH; [done | apply Hall; by left | intros; apply Hall; by right].
Qed.

Lemma blocks_ok_lower bs lo l hi y :
  blocks_ok bs lo l hi -> y <= hi -> (forall a, In a l -> y <= block a) -> blocks_ok bs y l hi.
Proof. destruct l as [|a l]; simpl; [done|]. intros (H1 & H2 & H3) ? Hall. auto. Qed.

Lemma blocks_ok_weaken bs lo lo' l hi hi' :
  blocks_ok bs lo l hi -> lo' <= lo -> hi <= hi' -> blocks_ok bs lo' l hi'.
Proof.
  revert lo lo'. induction l as [|a l IH]; intros lo lo'; simpl; [lia|].
  intros (H1 & H2 & H3) ? ?. split; [lia|]. split; [done|]. by eapply IH; eauto; lia.
Qed.

(** ** Lemmas: pointers *)

Lemma split_at_spec p l pre b post :
  split_at p l = Some (pre, b, post) -> l = pre ++ b :: post /\ bb_addr b = p.
Proof.
  revert pre. induction l as [|a l IH]; intros pre; simpl; [done|].
  destruct (Z.eqb_spec (bb_addr a) p).
  - intros [= <- <- <-]. done.
  - destruct (split_at p l) as [[[pre' c] post']|]; [|done].
    intros [= <- <- <-]. destruct (IH pre') as [-> ?]; done.
Qed.

Lemma split_at_in p l : In p (map bb_addr l) -> exists r, split_at p l = Some r.
Proof.
  induction l as [|a l IH]; simpl; [done|].
  intros [<-|Hin]; [rewrite Z.eqb_refl; eauto|].
  destruct (Z.eqb_spec (bb_addr a) p); [eauto|].
  destruct (IH Hin) as [[[pre c] post] ->]. eauto.
Qed.

Lemma deref_cons p a l :
  deref p (a :: l) = if bb_addr a =? p then Some a else deref p l.
Proof. done. Qed.

Lemma split_at_deref p l pre c post :
  split_at p l = Some (pre, c, post) -> deref p l = Some c.
Proof.
  revert pre. induction l as [|a l IH]; intros pre; [done|].
  rewrite deref_cons. simpl. destruct (bb_addr a =? p).
  - by intros [= <- <- <-].
  - destruct (split_at p l) as [[[pre' c'] post']|]; [|done].
    intros [= <- <- <-]. by eapply IH.
Qed.

Lemma deref_in p l : In p (map bb_addr l) -> exists b, deref p l = Some b /\ In b l /\ bb_addr b = p.
Proof.
  intros Hin. unfold deref. destruct (find _ l) as [b|] eqn:E.
  - apply find_some in E as [? ?]. exists b. repeat split; [done|]. lia.
  - apply in_map_iff in Hin as (b & <- & Hb).
    pose proof (find_none _ _ E b Hb) as Hn. simpl in Hn. lia.
Qed.

Lemma walk_spec bb post b w bb' rest :
  walk bb post b = (w, bb', rest) ->
  bb :: post = w ++ bb' :: rest /\
  (block bb <= b -> block bb' <= b) /\
  (forall r, head rest = Some r -> b <= block r).
Proof.
  revert bb w. induction post as [|nx post IH]; intros bb w; simpl.
  - intros [= <- <- <-]. done.
  - destruct (Z.ltb_spec (block nx) b).
    + destruct (walk nx post b) as [[w' c] r'] eqn:E. intros [= <- <- <-].
      destruct (IH _ _ E) as (-> & ? & ?). repeat split; [|done]. intros. apply H0. lia.
    + intros [= <- <- <-]. repeat split; [done|]. by intros r [= <-].
Qed.

(** ** Lemmas: merging *)

Lemma mergeable_payload bs a b :
  node_ok bs a -> same_name a b -> mergeable a b = true ->
  payload b = payload_at (payload a) (len a).
Proof.
  intros (? & ? & ? & Hp) Hn. unfold mergeable, same_name in *.
  destruct (payload a), (payload b); simpl; try done.
  - intros [? ?]%andb_true_iff. rewrite s64_id in * by lia. rewrite Hn by lia. f_equal; lia.
  - intros [? ?]%andb_true_iff. rewrite s64_id in * by lia. f_equal; lia.
  - intros. f_equal. lia.
Qed.

Lemma merge_bb_ok bbl a b :
  0 < block_size bbl -> node_ok (block_size bbl) a -> node_ok (block_size bbl) b ->
  bb_end (block_size bbl) a <= block b -> same_name a b -> len a + len b < 2 ^ 32 ->
  exists r m, merge_bb bbl (Some a) (Some b) = Ok (r, m) /\
    forall c, m = Some c ->
      c = set_len a (len a + len b) /\ node_ok (block_size bbl) c /\
      bb_end (block_size bbl) c = bb_end (block_size bbl) b /\
      cover (block_size bbl) c = cover (block_size bbl) a ++ cover (block_size bbl) b.
Proof.
  set (bs := block_size bbl). intros Hbs Ha Hb Hle Hn Hlen. unfold merge_bb. fold bs.
  pose proof (bb_end_gt bs a Hbs Ha) as Hgt.
  assert (Hlt : (block a <? block b) = true) by lia. rewrite Hlt. simpl.
  case_bool_decide as Ht; simpl; [|by do 2 eexists].
  assert (Hz : (bs =? 0) = false) by lia. rewrite Hz.
  destruct (Z.eqb_spec (u32 (block a + len a / bs)) (block b)) as [Heq|]; simpl; [|by do 2 eexists].
  destruct (mergeable a b) eqn:Hm; simpl; [|by do 2 eexists].
  do 2 eexists. split; [done|]. intros c [= <-].
  destruct Ha as (Ha1 & Ha2 & Ha3 & Ha4), Hb as (Hb1 & Hb2 & Hb3 & Hb4).
  unfold bb_end in *. pose proof (DIV_ROUND_UP_bound (len a) bs Hbs) as Hd.
  assert (Hdiv : 0 <= len a / bs <= DIV_ROUND_UP (len a) bs).
  { split; [apply Z.div_pos; lia|]. unfold DIV_ROUND_UP. apply Z.div_le_mono; lia. }
  pose proof (DIV_ROUND_UP_pos (len b) bs Hbs ltac:(lia)) as Hbp.
  rewrite u32_id in Heq by lia.
  assert (Hk : len a = len a / bs * bs).
  { pose proof (Z.mul_div_le (len a) bs Hbs). nia. }
  rewrite u32_id by lia.
  assert (Hp : payload b = payload_at (payload a) (len a)).
  { apply (mergeable_payload bs); [|done|done]. repeat split; try done; lia. }
  assert (Hend : block a + DIV_ROUND_UP (len a + len b) bs = block b + DIV_ROUND_UP (len b) bs).
  { rewrite Hk at 1. unfold DIV_ROUND_UP.
    replace (len a / bs * bs + len b + bs - 1) with (len a / bs * bs + (len b + bs - 1)) by lia.
    rewrite Z.div_add_l by lia. lia. }
  split; [done|]. split; [|split; [done|]].
  - repeat split; simpl; try lia; [unfold bb_end; simpl; lia|].
    revert Ha4 Hb4. rewrite Hp. destruct (payload a); simpl; lia.
  - apply (cover_join bs a b (len a / bs)); lia || done.
Qed.

(** ** Lemmas: queueing *)

Lemma queue_start_ok bbl new_bb hd tl :
  data_blocks bbl = hd :: tl -> last_used_live bbl -> block hd <= block new_bb ->
  ~ In (bb_addr new_bb) (map bb_addr (hd :: tl)) ->
  exists pre bb post, queue_start bbl new_bb hd tl = Ok (pre, bb, post) /\
    hd :: tl = pre ++ bb :: post /\ block bb <= block new_bb.
Proof.
  intros Hl Hlive Hhd Hfresh. unfold queue_start, last_used_live in *. rewrite Hl in Hlive.
  destruct (last_used bbl) as [p|]; [|by do 3 eexists].
  assert (Hne : (bb_addr new_bb =? p) = false).
  { apply Z.eqb_neq. intros <-. done. }
  destruct (split_at_in p (hd :: tl) Hlive) as [[[pre c] post] Hs].
  pose proof (split_at_spec _ _ _ _ _ Hs) as [Heq Hc].
  rewrite deref_cons, Hne, (split_at_deref _ _ _ _ _ Hs).
  cbn [oof obind]. destruct (Z.ltb_spec (block c) (block new_bb)).
  - rewrite Hs. do 3 eexists. repeat split; [done|]. lia.
  - by do 3 eexists.
Qed.

(** Where a new block falls between two neighbours. *)
Lemma order_split bs p bb rest new_bb :
  0 < bs -> blocks_ok bs 0 (p ++ bb :: rest) (2 ^ 32) -> node_ok bs new_bb ->
  (forall a, In a (p ++ bb :: rest) ->
     bb_end bs a <= block new_bb \/ bb_end bs new_bb <= block a) ->
  block bb <= block new_bb -> (forall r, head rest = Some r -> block new_bb <= block r) ->
  blocks_ok bs 0 (p ++ [bb]) (block new_bb) /\ blocks_ok bs (bb_end bs new_bb) rest (2 ^ 32) /\
  node_ok bs bb /\ bb_end bs bb <= block new_bb.
Proof.
  intros Hbs Hok Hnew Hdis Hbb Hrest.
  pose proof (bb_end_gt bs new_bb Hbs Hnew) as Hg.
  apply blocks_ok_app in Hok as (mid & Hp & Hok). simpl in Hok. destruct Hok as (Hmid & Hn & Hr).
  pose proof (bb_end_gt bs bb Hbs Hn) as Hgb.
  assert (Hebb : bb_end bs bb <= block new_bb).
  { destruct (Hdis bb) as [?|?]; [apply in_elt|done|lia]. }
  assert (Hafter : forall a, In a rest -> bb_end bs new_bb <= block a).
  { intros a Ha. assert (block new_bb <= block a).
    { destruct rest as [|r rest']; [done|]. specialize (Hrest r eq_refl). simpl in Hr.
      destruct Hr as (_ & Hr2 & Hr3). destruct Ha as [->|Ha]; [done|].
      pose proof (bb_end_gt bs r Hbs Hr2).
      destruct (blocks_ok_in bs _ _ _ a Hbs Hr3 Ha). lia. }
    destruct (Hdis a) as [Hd|Hd]; [apply in_or_app; right; by right| |done].
    destruct (blocks_ok_in bs _ _ _ a Hbs Hr Ha) as (? & Hna & ?).
    pose proof (bb_end_gt bs a Hbs Hna). lia. }
  split; [|split; [|done]].
  - apply blocks_ok_app. exists mid. split; [done|]. simpl. repeat split; try done; apply Hn.
  - eapply blocks_ok_lower; [done| |done]. by destruct Hnew as (_ & _ & ? & _).
Qed.

(** The first merge of [queue_bb]: the new node with its successor. *)
Lemma merge_next_ok bbl new_bb rest :
  let bs := block_size bbl in
  0 < bs -> node_ok bs new_bb -> blocks_ok bs (bb_end bs new_bb) rest (2 ^ 32) ->
  (forall b, In b rest -> same_name new_bb b) ->
  (forall b, In b rest -> len new_bb + len b < 2 ^ 32) ->
  exists m, merge_bb bbl (Some new_bb) (head rest) = Ok m /\
  let '(new1, rest1) := match m with (_, Some n) => (n, tail rest) | (_, None) => (new_bb, rest) end in
  new1 = set_len new_bb (len new1) /\ node_ok bs new1 /\ blocks_ok bs (bb_end bs new1) rest1 (2 ^ 32) /\
  cover bs new1 ++ covers bs rest1 = cover bs new_bb ++ covers bs rest /\
  (rest1 = rest \/ exists b, rest = b :: rest1) /\
  (len new1 = len new_bb \/ exists b, In b rest /\ len new1 = len new_bb + len b).
Proof.
  intros bs Hbs Hnew Hr Hname Hlen. subst bs. destruct rest as [|r rest].
  - exists (- EINVAL, None). split; [done|]. split; [by destruct new_bb|]. auto 10.
  - simpl in Hr. destruct Hr as (Hle & Hrn & Hr).
    destruct (merge_bb_ok bbl new_bb r Hbs Hnew Hrn Hle) as (rc & m & Heq & Hm);
      [apply Hname; by left | apply Hlen; by left |].
    exists (rc, m). split; [done|]. destruct m as [c|].
    + destruct (Hm c eq_refl) as (-> & Hcn & Hce & Hcc).
      split; [done|]. split; [done|]. split; [by rewrite Hce|]. split.
      * simpl. rewrite Hcc. by rewrite app_assoc.
      * split; [right; eauto|]. right. exists r. simpl. auto.
    + split; [by destruct new_bb|]. split; [done|]. split; [simpl; auto|]. auto 10.
Qed.

Lemma set_len_same a : set_len a (len a) = a.
Proof. by destruct a. Qed.

Lemma nodup_insert (p m rest rest1 : list Z) a n :
  NoDup (p ++ a :: rest) -> ~ In n (p ++ a :: rest) ->
  (rest1 = rest \/ exists b, rest = b :: rest1) ->
  (m = [a] \/ m = [a; n]) -> NoDup (p ++ m ++ rest1).
Proof.
  intros Hnd Hn Hr Hm.
  assert (H1 : NoDup (p ++ a :: rest1) /\ ~ In n (p ++ a :: rest1)).
  { destruct Hr as [->|(b & ->)]; [done|]. split.
    - replace (p ++ a :: b :: rest1) with ((p ++ [a]) ++ b :: rest1) in Hnd by by rewrite <- app_assoc.
      replace (p ++ a :: rest1) with ((p ++ [a]) ++ rest1) by by rewrite <- app_assoc.
      apply NoDup_ListNoDup in Hnd. apply NoDup_ListNoDup. by apply NoDup_remove_1 in Hnd.
    - intros Hin. apply Hn. rewrite !in_app_iff in *. simpl in *. intuition. }
  destruct H1 as [H1 H2]. destruct Hm as [->| ->]; [done|]. simpl.
  replace (p ++ a :: n :: rest1) with ((p ++ [a]) ++ n :: rest1) by by rewrite <- app_assoc.
  apply NoDup_ListNoDup, NoDup_Add with (a := n) (l := (p ++ [a]) ++ rest1); [apply Add_app|].
  rewrite <- app_assoc. split; [by apply NoDup_ListNoDup|done].
Qed.

(** Replacing [bb] and what is behind it by nodes that start no earlier. *)
Lemma blocks_ok_replace bs p bb mid l hi :
  blocks_ok bs 0 (p ++ [bb]) mid -> blocks_ok bs (block bb) l hi -> blocks_ok bs 0 (p ++ l) hi.
Proof.
  intros Hp Hl. apply blocks_ok_app. apply blocks_ok_app in Hp as (m & Hp & ? & _).
  exists (block bb). split; [|done]. eapply blocks_ok_weaken; eauto; lia.
Qed.

Lemma addrs_insert p bb rest rest1 nodes n :
  NoDup (map bb_addr (p ++ bb :: rest)) -> ~ In n (map bb_addr (p ++ bb :: rest)) ->
  (rest1 = rest \/ exists b, rest = b :: rest1) ->
  (map bb_addr nodes = [bb_addr bb] \/ map bb_addr nodes = [bb_addr bb; n]) ->
  NoDup (map bb_addr (p ++ nodes ++ rest1)).
Proof.
  intros Hnd Hfresh Hsub Hno. rewrite !map_app. rewrite map_app in Hnd, Hfresh. simpl in Hnd, Hfresh.
  apply (nodup_insert _ _ (map bb_addr rest) _ (bb_addr bb) n); try done.
  destruct Hsub as [->|(b & ->)]; [by left|]. right. by exists (bb_addr b).
Qed.

(** The second merge, and the whole tail of [queue_bb] behind the search. *)
Lemma queue_insert_ok bbl p bb rest new_bb :
  let bs := block_size bbl in
  0 < bs -> data_blocks bbl = p ++ bb :: rest -> bbl_ok bbl -> addable bbl new_bb ->
  block bb <= block new_bb -> (forall r, head rest = Some r -> block new_bb <= block r) ->
  exists m1, merge_bb bbl (Some new_bb) (head rest) = Ok m1 /\
  let '(new1, rest1) := match m1 with (_, Some n) => (n, tail rest) | (_, None) => (new_bb, rest) end in
  exists m2, merge_bb bbl (Some bb) (Some new1) = Ok m2 /\
  let nodes := match m2 with (_, Some b) => [b] | (_, None) => [bb; new1] end in
  blocks_ok bs 0 (p ++ nodes ++ rest1) (2 ^ 32) /\
  covers bs (p ++ nodes ++ rest1) = covers bs (p ++ [bb]) ++ cover bs new_bb ++ covers bs rest /\
  NoDup (map bb_addr (p ++ nodes ++ rest1)).
Proof.
  intros bs Hbs Hl (_ & Hok & Hnd) (Hnew & Hfresh & Hname & Hdis & Hfit) Hbb Hrest.
  rewrite Hl in Hok, Hnd, Hfresh, Hname, Hdis, Hfit. subst bs.
  destruct (order_split (block_size bbl) p bb rest new_bb) as (Hp & Hr & Hbn & Hbe); try done.
  assert (Hbin : In bb (p ++ bb :: rest)) by apply in_elt.
  assert (Hrin : forall b, In b rest -> In b (p ++ bb :: rest))
    by (intros b Hb; apply in_or_app; right; by right).
  destruct Hbn as (Hb1 & Hb2 & Hb3). pose proof Hnew as (Hn1 & Hn2 & _).
  destruct (merge_next_ok bbl new_bb rest) as (m1 & Hm1 & H1); try done.
  { intros b Hb. specialize (Hname b (Hrin b Hb)). unfold same_name in *.
    destruct (payload b), (payload new_bb); try done. intros ->. symmetry. by apply Hname. }
  { intros b Hb. specialize (Hfit bb b Hbin (Hrin b Hb)). lia. }
  exists m1. split; [done|].
  destruct (match m1 with (_, Some n) => (n, tail rest) | (_, None) => (new_bb, rest) end)
    as [new1 rest1].
  destruct H1 as (Heq & Hn1ok & Hr1 & Hcov & Hsub & Hlen1).
  assert (Hblk : block new1 = block new_bb) by (by rewrite Heq).
  assert (Haddr : bb_addr new1 = bb_addr new_bb) by (by rewrite Heq).
  assert (Hpay : payload new1 = payload new_bb) by (by rewrite Heq).
  destruct (merge_bb_ok bbl bb new1) as (r2 & m2 & Hm2 & H2); try done.
  { by rewrite Hblk. }
  { specialize (Hname bb Hbin). unfold same_name in *. by rewrite Hpay. }
  { destruct Hlen1 as [->|(b & Hb & ->)].
    - specialize (Hfit bb bb Hbin Hbin). lia.
    - specialize (Hfit bb b Hbin (Hrin b Hb)). lia. }
  exists (r2, m2). split; [done|].
  destruct m2 as [c|].
  - destruct (H2 c eq_refl) as (-> & Hcn & Hce & Hcc). split; [|split].
    + eapply blocks_ok_replace; [done|]. simpl. split; [lia|]. split; [done|]. by rewrite Hce.
    + rewrite !covers_app. simpl. rewrite !app_nil_r, Hcc, <- !app_assoc.
      by rewrite Hcov.
    + eapply addrs_insert; eauto.
  - split; [|split].
    + eapply blocks_ok_replace; [done|]. simpl. split; [lia|]. split; [done|]. rewrite Hblk. auto.
    + rewrite !covers_app. simpl. rewrite !app_nil_r, <- !app_assoc.
      by rewrite Hcov.
    + eapply addrs_insert; eauto. right. simpl. by rewrite Haddr.
Qed.

Lemma queue_bb_spec bbl new_bb :
  bbl_ok bbl -> last_used_live bbl -> addable bbl new_bb ->
  exists l1 l2 bbl', data_blocks bbl = l1 ++ l2 /\
    queue_bb bbl new_bb = Ok (0, bbl') /\ bbl_ok bbl' /\
    block_size bbl' = block_size bbl /\
    covers (block_size bbl) (data_blocks bbl') =
      covers (block_size bbl) l1 ++ cover (block_size bbl) new_bb ++ covers (block_size bbl) l2.
Proof.
  intros Hok Hlive Hadd. pose proof Hok as (Hbs & Hblk & Hnd).
  pose proof Hadd as (Hnew & Hfresh & Hname & Hdis & Hfit). unfold queue_bb.
  pose proof (bb_end_gt _ _ Hbs Hnew) as Hg. pose proof Hnew as (Hn1 & Hn2 & Hn3 & Hn4).
  destruct (data_blocks bbl) as [|hd tl] eqn:El.
  - exists [], []. eexists. split; [done|]. split; [done|]. split; [|split; [done|]].
    + split; [done|]. split; [done|]. apply NoDup_singleton.
    + simpl. by rewrite !app_nil_r.
  - destruct (Z.ltb_spec (block new_bb) (block hd)) as [Hlt|Hge].
    + exists [], (hd :: tl). eexists. split; [done|]. split; [done|]. split; [|done]. split; [done|]. split.
      * simpl in Hblk |- *. destruct Hblk as (? & ? & ?). split; [done|]. split; [done|].
        split; [|done]. destruct (Hdis hd) as [Hd|Hd]; [by left| |done].
        pose proof (bb_end_gt (block_size bbl) hd Hbs). intuition lia.
      * apply NoDup_cons. split; [|done]. by rewrite list_elem_of_In.
    + destruct (queue_start_ok bbl new_bb hd tl) as (pre & bb0 & post & Hs & Heq & Hb0); try done.
      rewrite Hs. cbn [obind]. destruct (walk bb0 post (block new_bb)) as [[w bb] rest] eqn:Ew.
      destruct (walk_spec _ _ _ _ _ _ Ew) as (Hw & Hwb & Hwr).
      destruct (queue_insert_ok bbl (pre ++ w) bb rest new_bb) as (m1 & Hm1 & H1); auto.
      { rewrite El, Heq, Hw. by rewrite app_assoc. }
      rewrite Hm1. cbn [obind].
      destruct (match m1 with (_, Some n) => (n, tail rest) | (_, None) => (new_bb, rest) end)
        as [new1 rest1].
      destruct H1 as (m2 & Hm2 & Hbo & Hcov & Hndo). rewrite Hm2. cbn [obind].
      exists ((pre ++ w) ++ [bb]), rest. eexists. split; [rewrite Heq, Hw; by rewrite <- !app_assoc|].
      split; [done|]. rewrite <- !app_assoc in *. by repeat split.
Qed.

(** ** Lemmas: the remaining operations *)

Lemma queue_bb_dangling bbl new_bb hd tl p :
  data_blocks bbl = hd :: tl -> last_used bbl = Some p -> block hd <= block new_bb ->
  p <> bb_addr new_bb -> ~ In p (map bb_addr (hd :: tl)) -> queue_bb bbl new_bb = Undef.
Proof.
  intros Hl Hu Hb Hne Hin. unfold queue_bb, queue_start. rewrite Hl, Hu.
  assert (H : (block new_bb <? block hd) = false) by lia. rewrite H.
  rewrite deref_cons. assert (H' : (bb_addr new_bb =? p) = false) by lia. rewrite H'.
  unfold deref. destruct (find _ (hd :: tl)) as [b|] eqn:E; [|done].
  apply find_some in E as [E1 E2]. exfalso. apply Hin.
  replace p with (bb_addr b) by lia. by apply in_map.
Qed.

(** The new block lies behind [a] and does not continue it. *)
Definition no_merge (bs : Z) (a new_bb : backed_block) : Prop :=
  bb_end bs a < block new_bb \/ (bb_end bs a <= block new_bb /\ mergeable a new_bb = false).

Lemma merge_bb_no bbl a b :
  0 < block_size bbl -> node_ok (block_size bbl) a -> no_merge (block_size bbl) a b ->
  merge_bb bbl (Some a) (Some b) = Ok (- EINVAL, None).
Proof.
  intros Hbs Ha Hno. pose proof (bb_end_gt _ _ Hbs Ha) as Hgt. destruct Ha as (Ha1 & Ha2 & Ha3 & _).
  unfold merge_bb. assert (H1 : (block a <? block b) = true) by (destruct Hno; lia). rewrite H1. simpl.
  destruct (bool_decide _); [|done]. simpl.
  assert (Hz : (block_size bbl =? 0) = false) by lia. rewrite Hz.
  destruct Hno as [Hlt|[_ Hm]]; [|rewrite Hm; by destruct (_ =? block b)].
  unfold bb_end in *. pose proof (DIV_ROUND_UP_bound (len a) (block_size bbl) Hbs).
  assert (Hq : 0 <= len a / block_size bbl <= DIV_ROUND_UP (len a) (block_size bbl)).
  { split; [apply Z.div_pos; lia|]. apply Z.div_le_upper_bound; lia. }
  destruct (Z.eq_dec (block a + len a / block_size bbl) (2 ^ 32)) as [E|E].
  - rewrite E. assert (H2 : (u32 (2 ^ 32) =? block b) = false) by (unfold u32; rewrite Z.mod_same; lia).
    by rewrite H2.
  - rewrite u32_id by lia.
    assert (H2 : (block a + len a / block_size bbl =? block b) = false) by lia. by rewrite H2.
Qed.

(** Queueing behind all blocks without a merge appends. *)
Lemma queue_bb_append bbl new_bb :
  0 < block_size bbl -> blocks_ok (block_size bbl) 0 (data_blocks bbl) (block new_bb) ->
  last_used_live bbl -> ~ In (bb_addr new_bb) (map bb_addr (data_blocks bbl)) ->
  (forall a, last (data_blocks bbl) = Some a -> no_merge (block_size bbl) a new_bb) ->
  exists lu, queue_bb bbl new_bb = Ok (0, mk_bbl (data_blocks bbl ++ [new_bb]) lu (block_size bbl)) /\
    (lu = last_used bbl \/ lu = Some (bb_addr new_bb)).
Proof.
  intros Hbs Hok Hlive Hfresh Hno. unfold queue_bb.
  destruct (data_blocks bbl) as [|hd tl] eqn:El; [eauto|].
  assert (Hin : forall a, In a (hd :: tl) -> node_ok (block_size bbl) a /\ block a < block new_bb).
  { intros a Ha. destruct (blocks_ok_in _ _ _ _ _ Hbs Hok Ha) as (? & Hn & ?).
    pose proof (bb_end_gt _ _ Hbs Hn). split; [done|lia]. }
  destruct (Hin hd ltac:(by left)) as [_ Hhd].
  assert (H1 : (block new_bb <? block hd) = false) by lia. rewrite H1.
  destruct (queue_start_ok bbl new_bb hd tl) as (pre & bb0 & post & Hs & Heq & Hb0); auto; [lia|].
  rewrite Hs. cbn [obind]. destruct (walk bb0 post (block new_bb)) as [[w bb] rest] eqn:Ew.
  destruct (walk_spec _ _ _ _ _ _ Ew) as (Hw & Hwb & Hwr).
  assert (Hall : hd :: tl = (pre ++ w) ++ bb :: rest) by (rewrite Heq, Hw; by rewrite app_assoc).
  destruct rest as [|r rest].
  - cbn [head]. change (merge_bb bbl (Some new_bb) None) with (Ok (- EINVAL, @None backed_block)).
    cbn [obind]. rewrite Hall, last_snoc in Hno. specialize (Hno bb eq_refl).
    destruct (Hin bb) as [Hbn _]; [rewrite Hall; apply in_elt|].
    rewrite merge_bb_no by done. cbn [obind]. eexists. split; [|by right].
    rewrite Hall. by rewrite <- !app_assoc.
  - exfalso. specialize (Hwr r eq_refl). destruct (Hin r) as [_ Hr]; [|lia].
    rewrite Hall. apply in_or_app. right. right. by left.
Qed.

(** A block that merges with none of the list is inserted as it is. *)
Lemma queue_bb_insert bbl new_bb :
  bbl_ok bbl -> last_used_live bbl -> node_ok (block_size bbl) new_bb ->
  ~ In (bb_addr new_bb) (map bb_addr (data_blocks bbl)) ->
  (forall a, In a (data_blocks bbl) ->
     bb_end (block_size bbl) a <= block new_bb \/ bb_end (block_size bbl) new_bb <= block a) ->
  (forall a, In a (data_blocks bbl) -> mergeable a new_bb = false /\ mergeable new_bb a = false) ->
  exists l1 l2 lu, data_blocks bbl = l1 ++ l2 /\
    queue_bb bbl new_bb = Ok (0, mk_bbl (l1 ++ new_bb :: l2) lu (block_size bbl)) /\
    bbl_ok (mk_bbl (l1 ++ new_bb :: l2) lu (block_size bbl)) /\
    last_used_live (mk_bbl (l1 ++ new_bb :: l2) lu (block_size bbl)).
Proof.
  intros Hok Hlive Hnew Hfresh Hdis Hnm. pose proof Hok as (Hbs & Hblk & Hnd). unfold queue_bb.
  pose proof (bb_end_gt _ _ Hbs Hnew) as Hg. pose proof Hnew as (Hn1 & Hn2 & Hn3 & Hn4).
  assert (Hmn : forall l1 l2, data_blocks bbl = l1 ++ l2 -> NoDup (map bb_addr (l1 ++ new_bb :: l2))).
  { intros l1 l2 E. rewrite E, map_app in Hnd, Hfresh. rewrite map_app. simpl.
    apply NoDup_ListNoDup, NoDup_Add with (a := bb_addr new_bb) (l := map bb_addr l1 ++ map bb_addr l2);
      [apply Add_app|]. split; [by apply NoDup_ListNoDup|done]. }
  assert (Hll : forall l1 l2, data_blocks bbl = l1 ++ l2 ->
    last_used_live (mk_bbl (l1 ++ new_bb :: l2) (last_used bbl) (block_size bbl))).
  { intros l1 l2 E. unfold last_used_live in *. simpl. destruct (last_used bbl); [|done].
    rewrite E, map_app in Hlive. rewrite map_app. simpl. rewrite in_app_iff in *. simpl. tauto. }
  destruct (data_blocks bbl) as [|hd tl] eqn:El.
  - exists [], [], (last_used bbl). split; [done|]. split; [done|]. split; [|by apply (Hll [] [])].
    split; [done|]. split; [done|]. apply NoDup_singleton.
  - destruct (Z.ltb_spec (block new_bb) (block hd)) as [Hlt|Hge].
    + exists [], (hd :: tl), (last_used bbl). split; [done|]. split; [done|].
      split; [|by apply (Hll [] (hd :: tl))]. split; [done|]. split; [|by apply (Hmn [] (hd :: tl))].
      simpl in Hblk |- *. destruct Hblk as (? & ? & ?). split; [done|]. split; [done|].
      split; [|done]. destruct (Hdis hd) as [Hd|Hd]; [by left| |done].
      pose proof (bb_end_gt (block_size bbl) hd Hbs). intuition lia.
    + destruct (queue_start_ok bbl new_bb hd tl) as (pre & bb0 & post & Hs & Heq & Hb0); try done.
      rewrite Hs. cbn [obind]. destruct (walk bb0 post (block new_bb)) as [[w bb] rest] eqn:Ew.
      destruct (walk_spec _ _ _ _ _ _ Ew) as (Hw & Hwb & Hwr).
      assert (Hall : hd :: tl = (pre ++ w) ++ bb :: rest) by (rewrite Heq, Hw; by rewrite app_assoc).
      rewrite Hall in Hblk, Hdis, Hnm.
      destruct (order_split (block_size bbl) (pre ++ w) bb rest new_bb) as (Hp & Hr & Hbn & Hbe); auto.
      assert (Hm1 : merge_bb bbl (Some new_bb) (head rest) = Ok (- EINVAL, None)).
      { destruct rest as [|r rest]; [done|]. cbn [head]. apply merge_bb_no; [done|done|].
        simpl in Hr. right. split; [apply Hr|]. apply (Hnm r). apply in_or_app. right. right. by left. }
      rewrite Hm1. cbn [obind].
      rewrite merge_bb_no; [|done|done|right; split; [done|]; apply (Hnm bb); apply in_elt].
      cbn [obind]. exists ((pre ++ w) ++ [bb]), rest, (Some (bb_addr new_bb)).
      split; [rewrite Hall; by rewrite <- !app_assoc|].
      split; [by rewrite <- !app_assoc|]. split.
      * split; [done|]. split.
        -- apply blocks_ok_app. exists (block new_bb). split; [done|]. simpl. by repeat split; try lia.
        -- apply Hmn. rewrite Hall. by rewrite <- !app_assoc.
      * unfold last_used_live. simpl. rewrite map_app. simpl. apply in_or_app. right. by left.
Qed.

Lemma covers_split_node bs n max_len q :
  0 < bs -> node_ok bs n -> 0 <= max_len < len n -> max_len mod bs = 0 ->
  let new_bb := mk_bb q (u32 (block n + max_len / bs)) (len n - max_len)
                  (payload_at (payload n) max_len) in
  cover bs n = cover bs (set_len n max_len) ++ cover bs new_bb /\
  block new_bb = bb_end bs (set_len n max_len) /\ bb_end bs new_bb = bb_end bs n.
Proof.
  intros Hbs (H1 & H2 & H3 & H4) Hm Hmod new_bb.
  assert (Hk : max_len = max_len / bs * bs) by (apply Z.div_exact in Hmod; lia).
  assert (Hq : 0 <= max_len / bs) by (apply Z.div_pos; lia).
  unfold bb_end in *.
  assert (Hd : DIV_ROUND_UP (len n) bs = max_len / bs + DIV_ROUND_UP (len n - max_len) bs).
  { unfold DIV_ROUND_UP.
    replace (len n + bs - 1) with (max_len / bs * bs + (len n - max_len + bs - 1)) by lia.
    by rewrite Z.div_add_l by lia. }
  pose proof (DIV_ROUND_UP_pos (len n - max_len) bs Hbs ltac:(lia)).
  assert (Hblk : block new_bb = block n + max_len / bs).
  { unfold new_bb. simpl. apply u32_id. lia. }
  split; [|split].
  - rewrite <- (set_len_same n) at 1.
    rewrite <- (cover_join bs (set_len n max_len) new_bb (max_len / bs) (len n));
      try done; simpl; lia.
  - rewrite Hblk. simpl. rewrite Hk at 2. by rewrite DIV_ROUND_UP_mul by lia.
  - rewrite Hblk. simpl. lia.
Qed.

Lemma insert_segment_perm seg l b : insert_segment seg l b ≡ₚ seg ++ l.
Proof.
  induction l as [|a l IH]; simpl; [by rewrite app_nil_r|].
  destruct l as [|c l]; [by rewrite Permutation_app_comm|].
  destruct (b <? block c).
  - by rewrite Permutation_middle.
  - rewrite IH. by rewrite Permutation_middle.
Qed.

#[export] Instance covers_perm bs : Proper ((≡ₚ) ==> (≡ₚ)) (covers bs).
Proof. intros l k H. unfold covers. by apply Permutation_flat_map. Qed.

(** ** Properties *)

(** C5: queueing a block. Let [last_used] be NULL or point into the list (after a merge that frees the new node it does
    not, see [add_fill_use_after_free]), and let the new block be addable: it overlaps no other, its node is new, equal
    file name pointers mean equal names, and no merge reaches 4 GiB. Then [queue_bb] succeeds, keeps the list ordered and
    free of overlaps, and the device blocks provided afterwards are those of the nodes before the new one, then the new
    ones, then those of the nodes behind it: merging loses and duplicates nothing. *)
Theorem queue_bb_correct bbl new_bb :
  bbl_ok bbl -> last_used_live bbl -> addable bbl new_bb ->
  exists l1 l2 bbl', data_blocks bbl = l1 ++ l2 /\
    queue_bb bbl new_bb = Ok (0, bbl') /\ bbl_ok bbl' /\
    block_size bbl' = block_size bbl /\
    covers (block_size bbl) (data_blocks bbl') =
      covers (block_size bbl) l1 ++ cover (block_size bbl) new_bb ++ covers (block_size bbl) l2.
Proof. apply queue_bb_spec. Qed.

Lemma queue_bb_correct_witness :
  let bbl := mk_bbl [mk_bb 16 0 8192 (bb_fill 0); mk_bb 17 5 100 (bb_data 64)] (Some 16) 4096 in
  let new_bb := mk_bb 18 2 4096 (bb_fill 0) in
  exists l1 l2 bbl', data_blocks bbl = l1 ++ l2 /\
    queue_bb bbl new_bb = Ok (0, bbl') /\ bbl_ok bbl' /\
    block_size bbl' = block_size bbl /\
    covers (block_size bbl) (data_blocks bbl') =
      covers (block_size bbl) l1 ++ cover (block_size bbl) new_bb ++ covers (block_size bbl) l2.
Proof.
  intros bbl new_bb. apply (queue_bb_correct bbl new_bb).
  - split; [done|]. split; [vm_compute; intuition congruence|].
    apply NoDup_ListNoDup. repeat constructor; simpl; intuition lia.
  - vm_compute. auto.
  - split; [vm_compute; intuition congruence|]. split; [simpl; intuition lia|].
    split; [intros a [<-|[<-|[]]]; exact I|]. split.
    + intros a [<-|[<-|[]]]; vm_compute; intuition congruence.
    + intros a b [<-|[<-|[]]] [<-|[<-|[]]]; simpl; lia.
Defined.

(** A block whose number is already in the list is never overwritten or
    merged silently: the assertion of [merge_bb] stops the program. *)
Theorem queue_bb_duplicate bbl new_bb a :
  bbl_ok bbl -> last_used_live bbl -> In a (data_blocks bbl) -> block a = block new_bb ->
  ~ In (bb_addr new_bb) (map bb_addr (data_blocks bbl)) ->
  queue_bb bbl new_bb = AssertFail.
Proof.
  intros (Hbs & Hok & Hnd) Hlive Hin Hblk Hfresh. unfold queue_bb.
  destruct (data_blocks bbl) as [|hd tl] eqn:El; [done|].
  assert (Hhd : block hd <= block new_bb).
  { rewrite <- Hblk. simpl in Hok. destruct Hok as (_ & Hn & Hok).
    pose proof (bb_end_gt _ _ Hbs Hn). destruct Hin as [->|Hin]; [done|].
    destruct (blocks_ok_in _ _ _ _ _ Hbs Hok Hin). lia. }
  assert (H : (block new_bb <? block hd) = false) by lia. rewrite H.
  destruct (queue_start_ok bbl new_bb hd tl) as (pre & bb0 & post & Hs & Heq & Hb0); try done.
  rewrite Hs. cbn [obind]. destruct (walk bb0 post (block new_bb)) as [[w bb] rest] eqn:Ew.
  destruct (walk_spec _ _ _ _ _ _ Ew) as (Hw & Hwb & Hwr).
  rewrite Heq, Hw, app_assoc in Hok, Hin.
  apply blocks_ok_app in Hok as (mid & Hp & Hok). simpl in Hok. destruct Hok as (Hmid & Hbn & Hr).
  pose proof (bb_end_gt _ _ Hbs Hbn) as Hgt.
  assert (Hcase : block bb = block new_bb \/ exists r rest', rest = r :: rest' /\ block r = block new_bb).
  { apply in_app_or in Hin as [Hin|[->|Hin]]; [|by left|].
    - destruct (blocks_ok_in _ _ _ _ _ Hbs Hp Hin) as (_ & Han & ?).
      pose proof (bb_end_gt _ _ Hbs Han). specialize (Hwb Hb0). lia.
    - right. destruct rest as [|r rest']; [done|]. exists r, rest'. split; [done|].
      specialize (Hwr r eq_refl). destruct Hin as [->|Hin]; [done|].
      simpl in Hr. destruct Hr as (_ & Hrn & Hr). pose proof (bb_end_gt _ _ Hbs Hrn).
      destruct (blocks_ok_in _ _ _ _ _ Hbs Hr Hin). lia. }
  destruct Hcase as [He|(r & rest' & -> & He)].
  - assert (Hm1 : merge_bb bbl (Some new_bb) (head rest) = AssertFail \/
      exists rc m, merge_bb bbl (Some new_bb) (head rest) = Ok (rc, m) /\
        forall c, m = Some c -> block c = block new_bb).
    { unfold merge_bb. assert (Hz : (block_size bbl =? 0) = false) by lia.
      destruct (head rest) as [r|]; [|right; by do 2 eexists]. rewrite Hz.
      destruct (negb (block new_bb <? block r)); [by left|]. right.
      destruct (negb (bool_decide _)); [by do 2 eexists|].
      destruct (negb (_ =? block r)); [by do 2 eexists|].
      destruct (negb (mergeable new_bb r)); [by do 2 eexists|].
      do 2 eexists. split; [done|]. by intros c [= <-]. }
    destruct Hm1 as [->|(rc & m & -> & Hm)]; [done|]. cbn [obind].
    destruct m as [c|]; simpl; [specialize (Hm c eq_refl)|].
    + assert (Hl : (block bb <? block c) = false) by lia. by rewrite Hl.
    + assert (Hl : (block bb <? block new_bb) = false) by lia. by rewrite Hl.
  - simpl. assert (Hl : (block new_bb <? block r) = false) by lia. by rewrite Hl.
Qed.

Lemma queue_bb_duplicate_witness :
  queue_bb (mk_bbl [mk_bb 16 0 4096 (bb_fill 0); mk_bb 17 4 4096 (bb_fill 1)] None 4096)
    (mk_bb 18 4 4096 (bb_fill 1)) = AssertFail.
Proof.
  apply (queue_bb_duplicate _ _ (mk_bb 17 4 4096 (bb_fill 1))).
  - split; [done|]. split; [vm_compute; intuition congruence|].
    apply NoDup_ListNoDup. repeat constructor; simpl; intuition lia.
  - exact I.
  - simpl. auto.
  - reflexivity.
  - simpl. intuition lia.
Defined.

(** [last_used] outlives the node it points to. Adding the same fill value
    to three consecutive blocks merges the second into the first and frees
    it while [last_used] still points to it, so the third call reads freed
    memory, whatever the block size, value and position, unless the
    allocator happens to hand out the freed address again. *)
Theorem add_fill_use_after_free bs v b p1 p2 p3 bbl1 bbl2 :
  0 < bs < 2 ^ 31 -> 0 <= b -> b + 3 <= 2 ^ 32 -> p1 <> p2 -> p2 <> p3 ->
  backed_block_add_fill (backed_block_list_new bs) (Some p1) v bs b = Ok (0, bbl1) ->
  backed_block_add_fill bbl1 (Some p2) v bs (b + 1) = Ok (0, bbl2) ->
  map bb_addr (data_blocks bbl2) = [p1] /\ last_used bbl2 = Some p2 /\
  backed_block_add_fill bbl2 (Some p3) v bs (b + 2) = Undef.
Proof.
  intros Hbs Hb Hb3 H12 H23 H1 H2. simpl in H1. injection H1 as <-.
  assert (E2 : bbl2 = mk_bbl [mk_bb p1 b (u32 (bs + bs)) (bb_fill v)] (Some p2) bs).
  { unfold backed_block_add_fill, queue_bb in H2. simpl in H2.
    assert (Hl : (b + 1 <? b) = false) by lia. rewrite Hl in H2. simpl in H2.
    assert (Hl' : (b <? b + 1) = true) by lia. rewrite Hl' in H2. simpl in H2.
    assert (Hz : (bs =? 0) = false) by lia. rewrite Hz in H2.
    rewrite Z.div_same in H2 by lia. rewrite u32_id in H2 by lia.
    unfold mergeable in H2. simpl in H2. rewrite !Z.eqb_refl in H2. simpl in H2. by injection H2. }
  subst bbl2. split; [done|]. split; [done|].
  apply (queue_bb_dangling _ _ (mk_bb p1 b (u32 (bs + bs)) (bb_fill v)) [] p2); simpl; auto; [lia|].
  intros [?|[]]. done.
Qed.

Lemma add_fill_use_after_free_witness :
  exists bbl1 bbl2,
    backed_block_add_fill (backed_block_list_new 4096) (Some 16) 0 4096 0 = Ok (0, bbl1) /\
    backed_block_add_fill bbl1 (Some 17) 0 4096 1 = Ok (0, bbl2) /\
    backed_block_add_fill bbl2 (Some 18) 0 4096 2 = Undef.
Proof.
  do 2 eexists. split; [reflexivity|]. split; [reflexivity|].
  eapply (add_fill_use_after_free 4096 0 0 16 17 18); try lia; reflexivity.
Defined.

(** Splitting a block at a length of at least one block keeps the list
    well-formed and the device blocks it provides, and leaves at most
    [max_len] bytes in the first part. *)
Theorem backed_block_split_correct bbl bb max_len q pre n post :
  bbl_ok bbl -> split_at bb (data_blocks bbl) = Some (pre, n, post) ->
  block_size bbl <= max_len < 2 ^ 32 -> ~ In q (map bb_addr (data_blocks bbl)) ->
  exists bbl' n' post', backed_block_split bbl bb max_len (Some q) = Ok (0, bbl') /\
    bbl_ok bbl' /\ data_blocks bbl' = pre ++ n' :: post' /\ bb_addr n' = bb /\ len n' <= max_len /\
    covers (block_size bbl) (data_blocks bbl') = covers (block_size bbl) (data_blocks bbl).
Proof.
  intros (Hbs & Hok & Hnd) Hs Hm Hq. unfold backed_block_split.
  assert (Hz : (block_size bbl =? 0) = false) by lia. rewrite Hz, Hs.
  destruct (split_at_spec _ _ _ _ _ Hs) as [Hl Ha]. cbn [oof obind].
  assert (Hdn : 0 < ALIGN_DOWN max_len (block_size bbl) <= max_len).
  { unfold ALIGN_DOWN. split; [|apply Z.mul_div_le; lia].
    apply Z.mul_pos_pos; [lia|]. apply Z.div_str_pos. lia. }
  rewrite u32_id by lia. set (m := ALIGN_DOWN max_len (block_size bbl)) in *.
  destruct (Z.leb_spec (len n) m) as [Hle|Hgt].
  - exists bbl, n, post. repeat split; auto; lia.
  - assert (Hmod : m mod block_size bbl = 0)
      by (unfold m, ALIGN_DOWN; rewrite Z.mul_comm; apply Z.mod_mul; lia).
    pose proof Hok as Hok'. rewrite Hl in Hok'. apply blocks_ok_app in Hok' as (mid & Hp & Hn).
    simpl in Hn. destruct Hn as (Hmid & Hn & Hpost).
    destruct (covers_split_node (block_size bbl) n m q) as (Hcov & Hb & He); try done; [lia|].
    cbn [oof obind]. eexists _, (set_len n m), _. split; [done|]. split; [|split; [done|]].
    + split; [done|]. split.
      * simpl. apply blocks_ok_app. exists mid. split; [done|]. simpl.
        destruct Hn as (Hn1 & Hn2 & Hn3 & Hn4).
        assert (Hend : bb_end (block_size bbl) (set_len n m) <= 2 ^ 32).
        { rewrite <- Hb. pose proof (bb_end_gt (block_size bbl)). unfold bb_end in *. simpl in *.
          pose proof (DIV_ROUND_UP_pos (len n - m) (block_size bbl) Hbs). lia. }
        repeat split; simpl; try lia; try done.
        -- destruct (payload n); auto; lia.
        -- by rewrite <- Hb.
        -- apply u32_range.
        -- destruct (payload n); simpl; auto; lia.
        -- by rewrite He.
      * simpl. rewrite Hl in Hnd, Hq. rewrite map_app in Hnd, Hq |- *. simpl in *.
        apply (nodup_insert _ [_; _] (map bb_addr post) (map bb_addr post) (bb_addr n) q); auto.
    + simpl. split; [done|]. split; [lia|].
      rewrite Hl, !covers_app. simpl. by rewrite Hcov, <- app_assoc.
Qed.

Lemma backed_block_split_correct_witness :
  exists bbl' n' post',
    backed_block_split (mk_bbl [mk_bb 16 3 10000 (bb_fd 5 512)] None 4096) 16 9000 (Some 17)
      = Ok (0, bbl') /\ data_blocks bbl' = n' :: post' /\ len n' <= 9000.
Proof.
  destruct (backed_block_split_correct (mk_bbl [mk_bb 16 3 10000 (bb_fd 5 512)] None 4096)
    16 9000 17 [] (mk_bb 16 3 10000 (bb_fd 5 512)) [])
    as (bbl' & n' & post' & H1 & H2 & H3 & H4 & H5 & H6).
  - split; [done|]. split; [vm_compute; intuition congruence|]. apply NoDup_singleton.
  - reflexivity.
  - simpl. lia.
  - simpl. lia.
  - exists bbl', n', post'. auto.
Defined.

(** Moving a segment between lists. The two lists together provide the same
    device blocks as before; a move into an empty list takes exactly the
    nodes from [start] to [end]; and both [last_used] pointers are reset. *)
Theorem backed_block_list_move_correct from to pre mid eb rest sb :
  data_blocks from = pre ++ (mid ++ [eb]) ++ rest -> head (mid ++ [eb]) = Some sb ->
  NoDup (map bb_addr (data_blocks from)) ->
  exists from' to',
    backed_block_list_move from to (Some (bb_addr sb)) (Some (bb_addr eb)) = Ok (from', to') /\
    data_blocks from' = pre ++ rest /\ data_blocks to' ≡ₚ (mid ++ [eb]) ++ data_blocks to /\
    (data_blocks to = [] -> data_blocks to' = mid ++ [eb]) /\
    covers (block_size from) (data_blocks from' ++ data_blocks to') ≡ₚ
      covers (block_size from) (data_blocks from ++ data_blocks to) /\
    last_used from' = None /\ last_used to' = None.
Proof.
  intros Hl Hh Hnd.
  assert (Hsplit : forall l1 (b : backed_block) l2, NoDup (map bb_addr (l1 ++ b :: l2)) ->
            split_at (bb_addr b) (l1 ++ b :: l2) = Some (l1, b, l2)).
  { clear. intros l1 b l2. induction l1 as [|a l1 IH]; simpl; intros H.
    - by rewrite Z.eqb_refl.
    - apply NoDup_cons in H as [Hni H]. rewrite IH by done.
      destruct (Z.eqb_spec (bb_addr a) (bb_addr b)) as [E|]; [|done].
      exfalso. apply Hni. rewrite E, map_app. simpl. apply list_elem_of_In, in_elt. }
  assert (Hsb : exists mid', mid ++ [eb] = sb :: mid').
  { destruct mid as [|x mid]; simpl in Hh; injection Hh as <-; simpl; eauto. }
  destruct Hsb as (mid' & Hsb).
  assert (H1 : split_at (bb_addr sb) (data_blocks from) = Some (pre, sb, mid' ++ rest)).
  { rewrite Hl, Hsb in Hnd |- *. simpl in *. by apply Hsplit. }
  assert (H2 : split_at (bb_addr eb) (sb :: mid' ++ rest) = Some (mid, eb, rest)).
  { replace (sb :: mid' ++ rest) with (mid ++ eb :: rest).
    - apply Hsplit. rewrite Hl in Hnd. rewrite map_app, NoDup_app in Hnd.
      destruct Hnd as (_ & _ & Hnd). by rewrite <- app_assoc in Hnd.
    - change (sb :: mid' ++ rest) with ((sb :: mid') ++ rest). by rewrite <- Hsb, <- app_assoc. }
  unfold backed_block_list_move. rewrite H1. cbn [oof obind]. rewrite H2. cbn [oof obind].
  do 2 eexists. split; [done|]. simpl. pose proof (insert_segment_perm (mid ++ [eb]) (data_blocks to) (block sb)) as Hperm.
  split; [done|]. split; [done|]. split; [intros ->; done|]. split; [|done].
  rewrite Hperm, Hl. apply covers_perm. solve_Permutation.
Qed.

Lemma backed_block_list_move_correct_witness :
  let a := mk_bb 16 0 4096 (bb_fill 1) in
  let b := mk_bb 17 2 4096 (bb_fd 3 0) in
  let c := mk_bb 18 9 4096 (bb_data 64) in
  exists from' to',
    backed_block_list_move (mk_bbl [a; b; c] (Some 18) 4096) (mk_bbl [] None 4096)
      (Some (bb_addr a)) (Some (bb_addr b)) = Ok (from', to') /\
    data_blocks from' = [c] /\ data_blocks to' = [a; b].
Proof.
  intros a b c.
  destruct (backed_block_list_move_correct (mk_bbl [a; b; c] (Some 18) 4096) (mk_bbl [] None 4096)
    [] [a] b [c] a) as (from' & to' & H1 & H2 & H3 & H4 & H5 & H6).
  - reflexivity.
  - reflexivity.
  - apply NoDup_ListNoDup. repeat constructor; simpl; intuition lia.
  - exists from', to'. auto.
Defined.

(** [backed_block_split] copies the file name pointer of a file block.
    After splitting one, destroying the list passes the same pointer to [free]
    twice. *)
Theorem split_file_double_free bbl bb max_len q self pre post p b l f name off bbl' :
  data_blocks bbl = pre ++ mk_bb p b l (bb_file f name off) :: post -> bb = p ->
  (forall x, In x pre -> bb_addr x <> p) ->
  u32 (ALIGN_DOWN max_len (block_size bbl)) < l ->
  backed_block_split bbl bb max_len (Some q) = Ok (0, bbl') ->
  ~ NoDup (backed_block_list_destroy self bbl').
Proof.
  intros Hl -> Hpre Hlt H.
  assert (Hs : split_at p (data_blocks bbl) = Some (pre, mk_bb p b l (bb_file f name off), post)).
  { rewrite Hl. clear -Hpre. induction pre as [|x pre IH]; simpl.
    - by rewrite Z.eqb_refl.
    - rewrite IH by (intros; apply Hpre; by right).
      destruct (Z.eqb_spec (bb_addr x) p); [|done]. exfalso. by apply (Hpre x); [left|]. }
  unfold backed_block_split in H. destruct (block_size bbl =? 0); [done|].
  rewrite Hs in H. cbn [oof obind] in H.
  destruct (Z.leb_spec (len (mk_bb p b l (bb_file f name off)))
              (u32 (ALIGN_DOWN max_len (block_size bbl)))); [simpl in *; lia|].
  injection H as <-. unfold backed_block_list_destroy. simpl. rewrite flat_map_app. simpl.
  intros Hnd. rewrite <- app_assoc in Hnd. apply NoDup_app in Hnd as (_ & _ & Hnd).
  simpl in Hnd. apply NoDup_cons in Hnd as [Hni _]. apply Hni.
  apply list_elem_of_In. simpl. auto.
Qed.

Lemma split_file_double_free_witness :
  exists bbl', backed_block_split (mk_bbl [mk_bb 16 0 8192 (bb_file 90 ""%string 0)] None 4096)
                 16 4096 (Some 17) = Ok (0, bbl') /\
               ~ NoDup (backed_block_list_destroy 1 bbl').
Proof.
  eexists. split; [reflexivity|].
  apply (split_file_double_free (mk_bbl [mk_bb 16 0 8192 (bb_file 90 ""%string 0)] None 4096)
    16 4096 17 1 [] [] 16 0 8192 90 ""%string 0); try reflexivity. simpl. done.
Defined.

(** The length of a merged block is a 32-bit sum. Two adjacent fill blocks
    of the same value that together reach 4 GiB merge into a block whose
    length is the sum modulo 2^32: the rest of the region is lost. *)
Theorem merge_fill_wraps bbl p1 p2 b v l1 l2 :
  0 < block_size bbl -> l1 mod block_size bbl = 0 -> 0 < l1 -> 0 <= b ->
  b + l1 / block_size bbl < 2 ^ 32 -> 2 ^ 32 <= l1 + l2 < 2 ^ 33 ->
  merge_bb bbl (Some (mk_bb p1 b l1 (bb_fill v)))
    (Some (mk_bb p2 (b + l1 / block_size bbl) l2 (bb_fill v))) =
  Ok (0, Some (mk_bb p1 b (l1 + l2 - 2 ^ 32) (bb_fill v))).
Proof.
  intros Hbs Hmod Hl1 Hb Hu Hsum. unfold merge_bb. simpl.
  assert (Hq : 0 < l1 / block_size bbl).
  { apply Z.div_str_pos. split; [done|]. apply Z.mod_divide in Hmod; [|lia].
    apply Z.divide_pos_le; done. }
  assert (H1 : (b <? b + l1 / block_size bbl) = true) by lia. rewrite H1. simpl.
  assert (Hz : (block_size bbl =? 0) = false) by lia. rewrite Hz.
  rewrite u32_id by lia. rewrite Z.eqb_refl. simpl.
  unfold mergeable. simpl. rewrite Z.eqb_refl. simpl.
  unfold set_len, u32. simpl. do 4 f_equal. symmetry.
  apply (Z.mod_unique _ _ 1); wrap_pow; lia.
Qed.

Lemma merge_fill_wraps_witness :
  merge_bb (mk_bbl [] None 4096) (Some (mk_bb 16 0 0xFFFFF000 (bb_fill 0)))
    (Some (mk_bb 17 0xFFFFF 4096 (bb_fill 0))) = Ok (0, Some (mk_bb 16 0 0 (bb_fill 0))).
Proof.
  apply (merge_fill_wraps (mk_bbl [] None 4096) 16 17 0 0 0xFFFFF000 4096);
    try done; vm_compute; intuition congruence.
Defined.

End BackedBlock.
