(* ===== verification/OutputFile.v ===== *)
(** * libsparse/output_file.c

    The back ends of an output file (plain file, gzip file, callback) as
    records of operations, the sparse and the normal way of writing chunks on
    top of them, and the opening and closing of an output file. An operation
    takes the output file and returns it changed together with the C return
    value; [outcome] adds failed assertions and undefined behaviour. *)

From S2P Require Import Prelude Crc32 Posix SparseFormat.

Module OutputFile.
Import SparseFormat.

Definition INT_MAX : Z := 2147483647.
Definition EINVAL : Z := 22.
Definition ENOMEM : Z := 12.

(** [struct output_file_ops]; [W] is what the back end keeps. A buffer is
    passed as the bytes its pointer points to, followed by the [int] length. *)
Record output_file_ops (W : Type) := mk_ops {
  op_open : W -> Posix.file -> W * Z;
  op_skip : W -> Z -> W * Z;
  op_pad : W -> Z -> W * Z;
  op_write : W -> list Z -> Z -> W * Z;
  op_close : W -> W
}.
Arguments mk_ops {W}.
Arguments op_open {W}.
Arguments op_skip {W}.
Arguments op_pad {W}.
Arguments op_write {W}.
Arguments op_close {W}.

(** Which of the two tables [sparse_ops] points to. *)
Inductive sparse_ops_t : Set := sparse_file_ops | normal_file_ops.

Record output_file (W : Type) := mk_out {
  cur_out_ptr : Z;
  chunk_cnt : Z;
  crc32 : Z;
  sparse_ops : sparse_ops_t;
  use_crc : bool;
  block_size : Z;
  len : Z;
  zero_buf : list Z;
  fill_buf : list Z;
  backend : W
}.
Arguments mk_out {W}.
Arguments cur_out_ptr {W}.
Arguments chunk_cnt {W}.
Arguments crc32 {W}.
Arguments sparse_ops {W}.
Arguments use_crc {W}.
Arguments block_size {W}.
Arguments len {W}.
Arguments zero_buf {W}.
Arguments fill_buf {W}.
Arguments backend {W}.

(** ** The plain file back end *)

Definition file_open (_ : Posix.file) (fd : Posix.file) : Posix.file * Z := (fd, 0).

Definition file_skip (f : Posix.file) (cnt : Z) : Posix.file * Z :=
  let '(f', ret) := Posix.lseek64 f cnt Posix.SEEK_CUR in
  if ret <? 0 then (f', -1) else (f', 0).

Definition file_pad (f : Posix.file) (n : Z) : Posix.file * Z :=
  let '(f', ret) := Posix.ftruncate64 f n in
  if ret <? 0 then (f', ret) else (f', 0).

Definition file_write (f : Posix.file) (data : list Z) (n : Z) : Posix.file * Z :=
  let '(f', r) := Posix.write f (take (Z.to_nat (u32 n)) data) in
  let ret := s32 r in
  if ret <? 0 then (f', -1) else if ret <? n then (f', -1) else (f', 0).

Definition file_close (f : Posix.file) : Posix.file := f.

Definition file_ops : output_file_ops Posix.file :=
  mk_ops file_open file_skip file_pad file_write file_close.

(** ** The gzip back end, over zlib's functions

    [None] is the NULL handle of a failed [gzdopen]; [gz_close] is what
    [gzclose] leaves behind. *)

Section Gz.
Context {G : Type}.
Variable gzdopen : Posix.file -> option G.
Variable open_errno : Z.
Variable gzseek : option G -> Z -> Posix.whence -> option G * Z.
Variable gztell : option G -> Z.
Variable gzwrite : option G -> list Z -> option G * Z.
Variable gzclose : option G -> option G.

Definition gz_file_open (_ : option G) (fd : Posix.file) : option G * Z :=
  match gzdopen fd with
  | None => (None, - open_errno)
  | Some g => (Some g, 0)
  end.

Definition gz_file_skip (g : option G) (cnt : Z) : option G * Z :=
  let '(g', ret) := gzseek g cnt Posix.SEEK_CUR in
  if ret <? 0 then (g', -1) else (g', 0).

Definition gz_file_pad (g : option G) (n : Z) : option G * Z :=
  if gztell g <? 0 then (g, -1)
  else if n <=? gztell g then (g, 0)
  else
    let '(g', ret) := gzseek g (n - 1) Posix.SEEK_SET in
    if ret <? 0 then (g', -1)
    else let '(g'', _) := gzwrite g' [0] in (g'', 0).

Definition gz_file_write (g : option G) (data : list Z) (n : Z) : option G * Z :=
  let '(g', ret) := gzwrite g (take (Z.to_nat (u32 n)) data) in
  if ret <? 0 then (g', -1) else if ret <? n then (g', -1) else (g', 0).

Definition gz_file_close (g : option G) : option G := gzclose g.

Definition gz_file_ops : output_file_ops (option G) :=
  mk_ops gz_file_open gz_file_skip gz_file_pad gz_file_write gz_file_close.
End Gz.

(** ** The callback back end

    The user's function gets its private data, a buffer ([None] is NULL) and a
    length. *)

Section Callback.
Context {P : Type}.
Variable write : P -> option (list Z) -> Z -> P * Z.

Definition callback_file_open (p : P) (_ : Posix.file) : P * Z := (p, 0).

Fixpoint callback_skip_loop (fuel : nat) (p : P) (off : Z) : P * Z :=
  match fuel with
  | O => (p, 0)
  | S fuel' =>
    if 0 <? off then
      let to_write := Z.min off INT_MAX in
      let '(p', ret) := write p None to_write in
      if ret <? 0 then (p', ret) else callback_skip_loop fuel' p' (off - to_write)
    else (p, 0)
  end.

(** One round takes off [INT_MAX] bytes. *)
Definition callback_file_skip (p : P) (off : Z) : P * Z :=
  callback_skip_loop (Z.to_nat (DIV_ROUND_UP off INT_MAX)) p off.

Definition callback_file_pad (p : P) (_ : Z) : P * Z := (p, -1).

Definition callback_file_write (p : P) (data : list Z) (n : Z) : P * Z :=
  write p (Some (take (Z.to_nat (u32 n)) data)) n.

Definition callback_file_close (p : P) : P := p.

Definition callback_file_ops : output_file_ops P :=
  mk_ops callback_file_open callback_file_skip callback_file_pad callback_file_write
    callback_file_close.
End Callback.

(** ** [read_all] *)

Fixpoint read_all_loop (fuel : nat) (f : Posix.file) (acc : list Z) (n : Z)
  : outcome (Posix.file * Z * list Z) :=
  match fuel with
  | O => NoFuel
  | S fuel' =>
    if zlen acc <? n then
      let '(f', ret, bs) := Posix.read f (n - zlen acc) in
      if ret <? 0 then Ok (f', ret, acc)
      else if ret =? 0 then Ok (f', - EINVAL, acc)
      else read_all_loop fuel' f' (acc ++ bs) n
    else Ok (f, 0, acc)
  end.

(** The bytes stored in the buffer are the third component. *)
Definition read_all (f : Posix.file) (n : Z) : outcome (Posix.file * Z * list Z) :=
  read_all_loop (S (Z.to_nat n)) f [] n.

(** ** Changing an output file *)

Section Out.
Context {W : Type}.
Implicit Types out : output_file W.

Definition set_backend out (w : W) : output_file W :=
  mk_out (cur_out_ptr out) (chunk_cnt out) (crc32 out) (sparse_ops out) (use_crc out)
    (block_size out) (len out) (zero_buf out) (fill_buf out) w.

Definition set_crc32 out (c : Z) : output_file W :=
  mk_out (cur_out_ptr out) (chunk_cnt out) c (sparse_ops out) (use_crc out)
    (block_size out) (len out) (zero_buf out) (fill_buf out) (backend out).

Definition set_fill_buf out (b : list Z) : output_file W :=
  mk_out (cur_out_ptr out) (chunk_cnt out) (crc32 out) (sparse_ops out) (use_crc out)
    (block_size out) (len out) (zero_buf out) b (backend out).

(** [cur_out_ptr += n; chunk_cnt++] *)
Definition advance out (n : Z) : output_file W :=
  mk_out (s64 (cur_out_ptr out + n)) (u32 (chunk_cnt out + 1)) (crc32 out) (sparse_ops out)
    (use_crc out) (block_size out) (len out) (zero_buf out) (fill_buf out) (backend out).

Definition count_chunk out : output_file W :=
  mk_out (cur_out_ptr out) (u32 (chunk_cnt out + 1)) (crc32 out) (sparse_ops out)
    (use_crc out) (block_size out) (len out) (zero_buf out) (fill_buf out) (backend out).
End Out.

(** [ALIGN] of [unsigned int] arguments. *)
Definition align_u32 (x y : Z) : Z := u32 (y * (u32 (x + y - 1) / y)).

Section Write.
Context {W : Type} (ops : output_file_ops W).
Implicit Types out : output_file W.

(** [out->ops->write(out, data, n)]; reading past the buffer is undefined. *)
Definition ops_write out (data : list Z) (n : Z) : outcome (output_file W * Z) :=
  if zlen data <? u32 n then Undef
  else let '(w, ret) := op_write ops (backend out) data n in Ok (set_backend out w, ret).

(** ** Sparse chunks *)

Definition write_sparse_skip_chunk out (skip_len : Z) : outcome (output_file W * Z) :=
  if block_size out =? 0 then Undef
  else if negb (Z.rem skip_len (block_size out) =? 0) then Ok (out, -1)
  else
    let h := mk_chunk_header CHUNK_TYPE_DONT_CARE 0
               (u32 (Z.quot skip_len (block_size out))) CHUNK_HEADER_LEN in
    let! (out, ret) := ops_write out (chunk_header_bytes h) CHUNK_HEADER_LEN in
    if ret <? 0 then Ok (out, -1) else Ok (advance out skip_len, 0).

(** The CRC loop of a fill chunk covers one block. *)
Definition fill_crc (bs fill_val c : Z) : Z :=
  Nat.iter (Z.to_nat (bs / 4)) (fun c => Crc32.sparse_crc32 c (le_bytes 4 fill_val)) c.

Definition write_sparse_fill_chunk out (n fill_val : Z) : outcome (output_file W * Z) :=
  if block_size out =? 0 then Undef
  else
    let rnd_up_len := s32 (align_u32 n (block_size out)) in
    let h := mk_chunk_header CHUNK_TYPE_FILL 0 (u32 rnd_up_len / block_size out)
               (CHUNK_HEADER_LEN + 4) in
    let! (out, ret) := ops_write out (chunk_header_bytes h) CHUNK_HEADER_LEN in
    if ret <? 0 then Ok (out, -1)
    else
      let! (out, ret) := ops_write out (le_bytes 4 fill_val) 4 in
      if ret <? 0 then Ok (out, -1)
      else
        let out := if use_crc out
                   then set_crc32 out (fill_crc (block_size out) fill_val (crc32 out))
                   else out in
        Ok (advance out rnd_up_len, 0).

(** [data] is the [n] bytes the [data] pointer points to. *)
Definition write_sparse_data_chunk out (n : Z) (data : list Z) : outcome (output_file W * Z) :=
  if block_size out =? 0 then Undef
  else
    let rnd_up_len := s32 (align_u32 n (block_size out)) in
    let zero_len := s32 (rnd_up_len - n) in
    let h := mk_chunk_header CHUNK_TYPE_RAW 0 (u32 rnd_up_len / block_size out)
               (u32 (CHUNK_HEADER_LEN + rnd_up_len)) in
    let! (out, ret) := ops_write out (chunk_header_bytes h) CHUNK_HEADER_LEN in
    if ret <? 0 then Ok (out, -1)
    else
      let! (out, ret) := ops_write out data (s32 n) in
      if ret <? 0 then Ok (out, -1)
      else
        let! (out, ret) :=
          if zero_len =? 0 then Ok (out, 0) else ops_write out (zero_buf out) zero_len in
        if ret <? 0 then Ok (out, -1)
        else
          let out :=
            if use_crc out then
              let c := Crc32.sparse_crc32 (crc32 out) data in
              set_crc32 out
                (if zero_len =? 0 then c
                 else Crc32.sparse_crc32 c (take (Z.to_nat zero_len) (zero_buf out)))
            else out in
          Ok (advance out rnd_up_len, 0).

(** The result of the second write is not looked at: [ret] is still the first
    one's. *)
Definition write_sparse_end_chunk out : outcome (output_file W * Z) :=
  if use_crc out then
    let h := mk_chunk_header CHUNK_TYPE_CRC32 0 0 (CHUNK_HEADER_LEN + 4) in
    let! (out, ret) := ops_write out (chunk_header_bytes h) CHUNK_HEADER_LEN in
    if ret <? 0 then Ok (out, ret)
    else
      let! (out, _) := ops_write out (le_bytes 4 (crc32 out)) 4 in
      if ret <? 0 then Ok (out, ret) else Ok (count_chunk out, 0)
  else Ok (out, 0).

(** ** Normal chunks *)

Definition ops_skip out (n : Z) : output_file W * Z :=
  let '(w, ret) := op_skip ops (backend out) n in (set_backend out w, ret).

Definition write_normal_data_chunk out (n : Z) (data : list Z) : outcome (output_file W * Z) :=
  if block_size out =? 0 then Undef
  else
    let rnd_up_len := align_u32 n (block_size out) in
    let! (out, ret) := ops_write out data (s32 n) in
    if ret <? 0 then Ok (out, ret)
    else if n <? rnd_up_len then Ok (ops_skip out (rnd_up_len - n))
    else Ok (out, ret).

Fixpoint normal_fill_loop (fuel : nat) out (n : Z) : outcome (output_file W * Z) :=
  match fuel with
  | O => NoFuel
  | S fuel' =>
    if n =? 0 then Ok (out, 0)
    else
      let write_len := Z.min n (block_size out) in
      let! (out, ret) := ops_write out (fill_buf out) (s32 write_len) in
      if ret <? 0 then Ok (out, ret) else normal_fill_loop fuel' out (n - write_len)
  end.

(** [fill_buf] with its words set to [fill_val]. *)
Definition filled (bs fill_val : Z) (buf : list Z) : list Z :=
  concat (replicate (Z.to_nat (bs / 4)) (le_bytes 4 fill_val)) ++
  drop (Z.to_nat (4 * (bs / 4))) buf.

Definition write_normal_fill_chunk out (n fill_val : Z) : outcome (output_file W * Z) :=
  normal_fill_loop (S (Z.to_nat (DIV_ROUND_UP n (block_size out))))
    (set_fill_buf out (filled (block_size out) fill_val (fill_buf out))) n.

Definition write_normal_skip_chunk out (n : Z) : outcome (output_file W * Z) :=
  Ok (ops_skip out n).

Definition write_normal_end_chunk out : outcome (output_file W * Z) :=
  let '(w, ret) := op_pad ops (backend out) (len out) in Ok (set_backend out w, ret).

(** ** The dispatch on [sparse_ops] *)

Definition write_data_chunk out (n : Z) (data : list Z) : outcome (output_file W * Z) :=
  match sparse_ops out with
  | sparse_file_ops => write_sparse_data_chunk out n data
  | normal_file_ops => write_normal_data_chunk out n data
  end.

Definition write_fill_chunk out (n fill_val : Z) : outcome (output_file W * Z) :=
  match sparse_ops out with
  | sparse_file_ops => write_sparse_fill_chunk out n fill_val
  | normal_file_ops => write_normal_fill_chunk out n fill_val
  end.

Definition write_skip_chunk out (n : Z) : outcome (output_file W * Z) :=
  match sparse_ops out with
  | sparse_file_ops => write_sparse_skip_chunk out n
  | normal_file_ops => write_normal_skip_chunk out n
  end.

Definition write_end_chunk out : outcome (output_file W * Z) :=
  match sparse_ops out with
  | sparse_file_ops => write_sparse_end_chunk out
  | normal_file_ops => write_normal_end_chunk out
  end.
End Write.

(** ** Data that comes from files

    What the process can see of the system: its memory, the contents of its
    descriptors, what [open] and [mmap64] return ([h_mmap] is 0 or the
    [errno]). *)

Record host := mk_host {
  h_mem : Z -> Z;
  h_fd : Z -> list Z;
  h_open : string -> Z;
  h_mmap : Z -> Z -> Z -> Z
}.

Definition mem_bytes (h : host) (p n : Z) : list Z := map (h_mem h) (seqZ p n).

Definition PAGE : Z := 4096.

(** The bytes of a shared mapping: the file, then zeros up to the end of its
    last page, and nothing behind. *)
Definition mapped_bytes (data : list Z) (off n : Z) : outcome (list Z) :=
  if off + n <=? ALIGN (zlen data) PAGE then Ok (sub_bytes (data ++ zeros PAGE) off n) else Undef.

Section Files.
Context {W : Type} (ops : output_file_ops W) (h : host).
Implicit Types out : output_file W.

Definition write_fd_chunk out (n fd offset : Z) : outcome (output_file W * Z) :=
  let aligned_offset := Z.land offset (-4096) in
  let aligned_diff := s32 (offset - aligned_offset) in
  let buffer_size := s32 (n + aligned_diff) in
  let err := h_mmap h fd (u32 buffer_size) aligned_offset in
  if negb (err =? 0) then Ok (out, - err)
  else if u32 buffer_size <? aligned_diff + n then Undef
  else
    let! data := mapped_bytes (h_fd h fd) (aligned_offset + aligned_diff) n in
    write_data_chunk ops out n data.

Definition write_file_chunk out (n : Z) (file : string) (offset : Z)
  : outcome (output_file W * Z) :=
  let file_fd := h_open h file in
  if file_fd <? 0 then Ok (out, file_fd) else write_fd_chunk out n file_fd offset.
End Files.

(** ** Opening and closing

    [allocs] says which of the two [calloc]s of [output_file_init] succeed. *)

Section Open.
Context {W : Type} (ops : output_file_ops W).

Definition init_header (bs len : Z) (chunks : Z) (crc : bool) : sparse_header :=
  mk_sparse_header SPARSE_HEADER_MAGIC 1 0 SPARSE_HEADER_LEN CHUNK_HEADER_LEN bs
    (u32 (Z.quot len bs)) (u32 (u32 chunks + if crc then 1 else 0)) 0.

Definition output_file_init (w : W) (allocs : bool * bool) (bs len : Z) (sparse : bool)
    (chunks : Z) (crc : bool) : outcome (output_file W * Z) :=
  let out := mk_out 0 0 0 (if sparse then sparse_file_ops else normal_file_ops) crc bs len
               (zeros bs) (zeros bs) w in
  if negb (fst allocs) then Ok (out, - ENOMEM)
  else if negb (snd allocs) then Ok (out, - ENOMEM)
  else if sparse then
    if bs =? 0 then Undef
    else
      let! (out, ret) :=
        ops_write ops out (sparse_header_bytes (init_header bs len chunks crc)) SPARSE_HEADER_LEN in
      if ret <? 0 then Ok (out, ret) else Ok (out, 0)
  else Ok (out, 0).

(** [None] is a NULL result. The [calloc] of the output file itself is
    checked by [output_file_open_callback]; [output_file_open_fd] uses the
    result of the constructor unchecked. *)

Definition output_file_open_callback (w : W) (alloc : bool) (allocs : bool * bool)
    (bs len : Z) (sparse : bool) (chunks : Z) (crc : bool)
  : outcome (W * option (output_file W)) :=
  if negb alloc then Ok (w, None)
  else
    let! (out, ret) := output_file_init w allocs bs len sparse chunks crc in
    if ret <? 0 then Ok (backend out, None) else Ok (backend out, Some out).

Definition output_file_open_fd (w0 : W) (fd : Posix.file) (alloc : bool) (allocs : bool * bool)
    (bs len : Z) (sparse : bool) (chunks : Z) (crc : bool)
  : outcome (W * option (output_file W)) :=
  if negb alloc then Undef
  else
    let '(w, _) := op_open ops w0 fd in
    let! (out, ret) := output_file_init w allocs bs len sparse chunks crc in
    if ret <? 0 then Ok (backend out, None) else Ok (backend out, Some out).

Definition output_file_close (out : output_file W) : outcome W :=
  let! (out, _) := write_end_chunk ops out in
  Ok (op_close ops (backend out)).
End Open.

(** ** The interface of an appending device

    What the sparse writer needs from a back end. [rep w l] says that the
    device [w] has received the bytes [l]; every write succeeds and appends
    its bytes. *)

Class AppendDevice {W : Type} (ops : output_file_ops W) (rep : W -> list Z -> Prop) : Prop := {
  dev_write : forall w l data n, rep w l -> 0 <= n <= zlen data -> n < 2 ^ 31 ->
    exists w' ret, op_write ops w data n = (w', ret) /\ 0 <= ret /\
      rep w' (l ++ take (Z.to_nat n) data)
}.

(** A file opened at its end whose writes transfer everything. *)
Definition file_rep (f : Posix.file) (l : list Z) : Prop :=
  Posix.f_data f = l /\ Posix.f_pos f = Posix.f_size f /\ forall p, 2 ^ 31 <= Posix.f_wlimit f p.

#[export] Instance file_append : AppendDevice file_ops file_rep.
Proof.
  constructor. intros f l data n (Hd & Hp & Hl) Hn Hn31. cbn [op_write file_ops]. unfold file_write.
  rewrite (u32_id n) by lia.
  assert (Hz : zlen (take (Z.to_nat n) data) = n) by (unfold zlen in *; rewrite length_take; lia).
  rewrite Posix.write_append; [|done|rewrite Hz; specialize (Hl (Posix.f_pos f)); lia].
  rewrite Hz, s32_id by lia.
  assert (H1 : (n <? 0) = false) by lia. assert (H2 : (n <? n) = false) by lia. rewrite H1, H2.
  do 2 eexists. split; [done|]. split; [done|]. split; [by subst l|].
  split; [|done]. unfold Posix.f_size in *. simpl. rewrite zlen_app. lia.
Qed.

(** A callback that stores what it is given. *)
Definition store_write (p : list Z) (b : option (list Z)) (n : Z) : list Z * Z :=
  (p ++ default (zeros n) b, 0).

#[export] Instance callback_append : AppendDevice (callback_file_ops store_write) eq.
Proof.
  constructor. intros p l data n -> Hn Hn31. do 2 eexists. split; [done|]. simpl.
  rewrite u32_id by lia. done.
Qed.

(** ** Lemmas: the sparse writer over such a device *)

Section Append.
Context {W : Type} (ops : output_file_ops W) (rep : W -> list Z -> Prop).
Context `{!AppendDevice ops rep}.
Implicit Types out : output_file W.

Lemma ops_write_ok out l data n :
  rep (backend out) l -> 0 <= n <= zlen data -> n < 2 ^ 31 ->
  exists w ret, ops_write ops out data n = Ok (set_backend out w, ret) /\ (ret <? 0) = false /\
    rep w (l ++ take (Z.to_nat n) data).
Proof.
  intros Hd Hn H31. destruct (dev_write _ l data n Hd Hn H31) as (w & ret & Hw & Hr & Hok).
  exists w, ret. unfold ops_write. rewrite u32_id, Hw by lia.
  assert (H1 : (zlen data <? n) = false) by lia. rewrite H1. repeat split; auto. lia.
Qed.

(** The same for a buffer written as a whole. *)
Lemma ops_write_all out l data n :
  rep (backend out) l -> n = zlen data -> n < 2 ^ 31 ->
  exists w ret, ops_write ops out data n = Ok (set_backend out w, ret) /\ (ret <? 0) = false /\
    rep w (l ++ data).
Proof.
  intros Hd -> H31. destruct (ops_write_ok out l data (zlen data)) as (w & ret & H & Hr & Hok);
    [done|pose proof (zlen_nonneg data); lia|done|].
  exists w, ret. rewrite take_ge in Hok by (unfold zlen; lia). auto.
Qed.

(** The checksum the writer keeps: a fill chunk counts once, whatever its
    length, and a skipped chunk not at all. *)
Definition crc_after out (c : chunk) : Z :=
  if use_crc out then
    match c with
    | Raw d => Crc32.sparse_crc32 (crc32 out) d
    | Fill _ v => fill_crc (block_size out) v (crc32 out)
    | _ => crc32 out
    end
  else crc32 out.

(** [out] after the chunk [c] went to the device [w]. *)
Definition emitted out (w : W) (c : chunk) : output_file W :=
  advance (set_crc32 (set_backend out w) (crc_after out c)) (chunk_blocks (block_size out) c * block_size out).

(** [c] was appended to the device of [out]. *)
Definition appended out (l : list Z) (c : chunk) (r : outcome (output_file W * Z)) : Prop :=
  exists w, r = Ok (emitted out w c, 0) /\ rep w (l ++ chunk_bytes (block_size out) c).

Lemma set_crc32_same out : set_crc32 out (crc32 out) = out.
Proof. by destruct out. Qed.

Lemma align_u32_id x y : 0 <= x -> 0 < y -> ALIGN x y < 2 ^ 31 -> y < 2 ^ 31 ->
  align_u32 x y = ALIGN x y.
Proof.
  intros Hx Hy Ha Hy32. unfold align_u32, ALIGN in *.
  pose proof (DIV_ROUND_UP_bound x y Hy). pose proof (DIV_ROUND_UP_nonneg x y Hy Hx).
  unfold DIV_ROUND_UP in *. rewrite (u32_id (x + y - 1)) by lia. apply u32_id. nia.
Qed.

Lemma write_sparse_skip_ok out l k :
  rep (backend out) l -> 0 < block_size out < 2 ^ 32 -> 0 <= k < 2 ^ 32 ->
  appended out l (Skip k) (write_sparse_skip_chunk ops out (k * block_size out)).
Proof.
  intros Hd Hbs Hk. unfold write_sparse_skip_chunk, appended.
  assert (Hz : (block_size out =? 0) = false) by lia. rewrite Hz.
  rewrite Z.rem_mul, Z.quot_mul, u32_id by lia. cbn [Z.eqb negb].
  destruct (ops_write_all out l (chunk_header_bytes (chunk_hdr (block_size out) (Skip k))) CHUNK_HEADER_LEN)
    as (w & ret & Hw & Hr & Hok); [done|by rewrite chunk_header_bytes_len|done|].
  cbn [chunk_hdr] in Hw. rewrite Hw. cbn [obind]. rewrite Hr. exists w. split.
  - unfold emitted, crc_after. by destruct out as [? ? ? ? [] ? ? ? ? ?].
  - unfold chunk_bytes. simpl chunk_body. by rewrite app_nil_r.
Qed.

Lemma write_sparse_fill_ok out l n v :
  rep (backend out) l -> 0 < block_size out -> 0 < n -> ALIGN n (block_size out) < 2 ^ 31 ->
  appended out l (Fill (DIV_ROUND_UP n (block_size out)) v) (write_sparse_fill_chunk ops out n v).
Proof.
  intros Hd Hbs Hn Ha. unfold write_sparse_fill_chunk, appended.
  assert (Hz : (block_size out =? 0) = false) by lia. rewrite Hz.
  pose proof (DIV_ROUND_UP_pos n (block_size out) Hbs Hn).
  assert (Hbs32 : block_size out < 2 ^ 31) by (unfold ALIGN in Ha; nia).
  assert (Ha0 : 0 < ALIGN n (block_size out)) by (unfold ALIGN; nia).
  rewrite align_u32_id, s32_id, u32_id by lia.
  assert (Hq : ALIGN n (block_size out) / block_size out = DIV_ROUND_UP n (block_size out)).
  { unfold ALIGN. rewrite Z.mul_comm. apply Z.div_mul. lia. }
  rewrite Hq.
  set (c := Fill (DIV_ROUND_UP n (block_size out)) v).
  destruct (ops_write_all out l (chunk_header_bytes (chunk_hdr (block_size out) c)) CHUNK_HEADER_LEN)
    as (w & ret & Hw & Hr & Hok); [done|by rewrite chunk_header_bytes_len|done|].
  cbn [chunk_hdr c] in Hw. rewrite Hw. cbn [obind]. rewrite Hr.
  destruct (ops_write_all (set_backend out w) _ (le_bytes 4 v) 4 Hok)
    as (w2 & ret2 & Hw2 & Hr2 & Hok2); [by rewrite zlen_le_bytes|done|].
  rewrite Hw2. cbn [obind]. rewrite Hr2. exists w2. split.
  - unfold emitted, crc_after, c. cbn [chunk_blocks chunk_hdr chunk_sz].
    unfold ALIGN. rewrite (Z.mul_comm (block_size out)). by destruct out as [? ? ? ? [] ? ? ? ? ?].
  - unfold chunk_bytes. by rewrite app_assoc.
Qed.

Lemma write_sparse_data_ok out l n data :
  rep (backend out) l -> 0 < block_size out -> n = zlen data -> 0 < n ->
  ALIGN n (block_size out) + CHUNK_HEADER_LEN < 2 ^ 31 -> zero_buf out = zeros (block_size out) ->
  appended out l (Raw (pad_block (block_size out) data)) (write_sparse_data_chunk ops out n data).
Proof.
  intros Hd Hbs Hn Hn0 Ha Hzb. unfold write_sparse_data_chunk, appended.
  assert (Hz : (block_size out =? 0) = false) by lia. rewrite Hz.
  pose proof (DIV_ROUND_UP_bound n (block_size out) Hbs) as Hb.
  change (block_size out * DIV_ROUND_UP n (block_size out)) with (ALIGN n (block_size out)) in Hb.
  pose proof (DIV_ROUND_UP_pos n (block_size out) Hbs Hn0). unfold CHUNK_HEADER_LEN in Ha.
  assert (Hbs32 : block_size out < 2 ^ 31) by (unfold ALIGN in *; nia).
  rewrite align_u32_id by lia. rewrite !(s32_id (ALIGN _ _)) by lia.
  rewrite (s32_id (_ - _)), (s32_id n), (u32_id (ALIGN _ _)), (u32_id (_ + _))
    by (unfold CHUNK_HEADER_LEN; lia).
  set (c := Raw (pad_block (block_size out) data)).
  assert (Hlen : zlen (pad_block (block_size out) data) = ALIGN n (block_size out))
    by (rewrite zlen_pad_block, Hn by done; done).
  destruct (ops_write_all out l (chunk_header_bytes (chunk_hdr (block_size out) c)) CHUNK_HEADER_LEN)
    as (w & ret & Hw & Hr & Hok); [done|by rewrite chunk_header_bytes_len|done|].
  cbn [chunk_hdr c] in Hw. rewrite Hlen in Hw. rewrite Hw. cbn [obind]. rewrite Hr.
  destruct (ops_write_all (set_backend out w) _ data n Hok)
    as (w2 & ret2 & Hw2 & Hr2 & Hok2); [done|lia|].
  rewrite Hw2. cbn [obind]. rewrite Hr2. set (zl := ALIGN n (block_size out) - n) in *.
  assert (Hpad : pad_block (block_size out) data = data ++ zeros zl) by (unfold pad_block, zl; by rewrite Hn).
  assert (Htk : take (Z.to_nat zl) (zero_buf out) = zeros zl).
  { rewrite Hzb. unfold zeros. rewrite take_replicate. f_equal. lia. }
  assert (Hbl : chunk_blocks (block_size out) c * block_size out = ALIGN n (block_size out)).
  { unfold c, chunk_blocks. cbn [chunk_hdr chunk_sz]. rewrite Hlen. unfold ALIGN.
    rewrite (Z.mul_comm (block_size out)), Z.div_mul by lia. done. }
  destruct (Z.eqb_spec zl 0) as [E|E].
  - exists w2. cbn [obind]. split.
    + unfold emitted. rewrite Hbl. unfold crc_after, c. rewrite Hpad, E. unfold zeros. simpl.
      rewrite app_nil_r. by destruct out as [? ? ? ? [] ? ? ? ? ?].
    + unfold chunk_bytes. change (chunk_body c) with (pad_block (block_size out) data).
      rewrite Hpad, E. unfold zeros. simpl replicate. by rewrite app_nil_r, app_assoc.
  - destruct (ops_write_ok (set_backend (set_backend out w) w2) _ (zero_buf out) zl Hok2)
      as (w3 & ret3 & Hw3 & Hr3 & Hok3); [rewrite Hzb, zlen_zeros by lia; lia|lia|].
    cbn [set_backend zero_buf] in Hw3 |- *. rewrite Hw3. cbn [obind]. rewrite Hr3.
    exists w3. split.
    + unfold emitted. rewrite Hbl. unfold crc_after, c. rewrite Hpad, Crc32.sparse_crc32_app.
      cbn [set_backend use_crc zero_buf]. rewrite Htk. by destruct out as [? ? ? ? [] ? ? ? ? ?].
    + rewrite Htk in Hok3. unfold chunk_bytes.
      change (chunk_body c) with (pad_block (block_size out) data). by rewrite Hpad, !app_assoc in *.
Qed.

Lemma write_sparse_end_ok out l :
  rep (backend out) l ->
  exists out', write_sparse_end_chunk ops out = Ok (out', 0) /\
    rep (backend out')
      (l ++ if use_crc out then chunk_bytes (block_size out) (Crc (crc32 out)) else []).
Proof.
  intros Hd. unfold write_sparse_end_chunk. destruct (use_crc out) eqn:Eu; [|exists out; by rewrite app_nil_r].
  destruct (ops_write_all out l (chunk_header_bytes (chunk_hdr (block_size out) (Crc (crc32 out)))) CHUNK_HEADER_LEN)
    as (w & ret & Hw & Hr & Hok); [done|by rewrite chunk_header_bytes_len|done|].
  cbn [chunk_hdr] in Hw. rewrite Hw. cbn [obind]. rewrite Hr.
  destruct (ops_write_all (set_backend out w) _ (le_bytes 4 (crc32 out)) 4 Hok)
    as (w2 & ret2 & Hw2 & Hr2 & Hok2); [by rewrite zlen_le_bytes|done|].
  cbn [set_backend crc32] in Hw2 |- *. rewrite Hw2. cbn [obind].
  eexists. split; [done|]. cbn [count_chunk backend set_backend].
  unfold chunk_bytes. by rewrite app_assoc.
Qed.
End Append.

(** ** The interface of a seekable device

    What the normal writer needs: [rep w l] says that the image on the device
    [w] is [l] so far; it grows at its end by writes and by skips, and skipped
    bytes read as zeros. *)

Class ImageDevice {W : Type} (ops : output_file_ops W) (rep : W -> list Z -> Prop) : Prop := {
  img_append :: AppendDevice ops rep;
  img_skip : forall w l n, rep w l -> 0 <= n ->
    exists w', op_skip ops w n = (w', 0) /\ rep w' (l ++ zeros n)
}.

(** A file written up to its position, with a hole before it at most. *)
Definition file_image (f : Posix.file) (l : list Z) : Prop :=
  Posix.f_data f ++ zeros (Posix.f_pos f - Posix.f_size f) = l /\
  Posix.f_size f <= Posix.f_pos f /\ forall p, 2 ^ 31 <= Posix.f_wlimit f p.

Lemma zlen_disk_image f l : file_image f l -> zlen l = Posix.f_pos f.
Proof.
  intros (<- & H & _). rewrite zlen_app, zlen_zeros by lia. unfold Posix.f_size in *. lia.
Qed.

#[export] Instance file_images_append : AppendDevice file_ops file_image.
Proof.
  constructor. intros f l data n Hf Hn Hn31. pose proof (zlen_disk_image _ _ Hf) as Hi.
  destruct Hf as (Hd & Hp & Hl). cbn [op_write file_ops]. unfold file_write, Posix.write.
  rewrite (u32_id n) by lia.
  assert (Hz : zlen (take (Z.to_nat n) data) = n) by (unfold zlen in *; rewrite length_take; lia).
  specialize (Hl (Posix.f_pos f)) as Hlp. rewrite Hz.
  assert (H0 : (Posix.f_wlimit f (Posix.f_pos f) <? 0) = false) by lia. rewrite H0.
  rewrite Z.min_l, s32_id by lia. rewrite take_ge by (unfold zlen in Hz; lia).
  assert (H1 : (n <? 0) = false) by lia. assert (H2 : (n <? n) = false) by lia. rewrite H1, H2.
  set (bs := take (Z.to_nat n) data) in *.
  assert (Hput : Posix.put_bytes (Posix.f_data f) (Posix.f_pos f) bs = l ++ bs).
  { rewrite <- Hd. unfold Posix.put_bytes, zeros, Posix.f_size, zlen in *.
    rewrite take_ge by (rewrite length_app, length_replicate; lia).
    rewrite (drop_ge (Posix.f_data f)) by lia. rewrite app_nil_r. do 3 f_equal. lia. }
  do 2 eexists. split; [done|]. split; [done|].
  assert (Hs : zlen (l ++ bs) = Posix.f_pos f + n) by (rewrite zlen_app; lia).
  split; [|split; [|done]]; unfold Posix.f_size; simpl; rewrite Hput, Hs; [|lia].
  rewrite Z.sub_diag. unfold zeros. simpl. by rewrite app_nil_r.
Qed.

#[export] Instance file_images : ImageDevice file_ops file_image.
Proof.
  constructor; [apply _|]. intros f l n (Hd & Hp & Hl) Hn. cbn [op_skip file_ops].
  unfold file_skip, Posix.lseek64.
  assert (H1 : (Posix.f_pos f + n <? 0) = false) by (unfold Posix.f_size, zlen in *; lia).
  rewrite !H1. eexists. split; [done|]. split; [|split; [|done]].
  - change (Posix.f_size (Posix.set_pos f _)) with (Posix.f_size f). simpl.
    rewrite <- Hd, <- app_assoc, <- zeros_app by lia. do 2 f_equal. lia.
  - change (Posix.f_size f <= Posix.f_pos f + n). lia.
Qed.

#[export] Instance callback_images : ImageDevice (callback_file_ops store_write) eq.
Proof.
  constructor; [apply _|]. intros p l n -> Hn. cbn [op_skip callback_file_ops].
  unfold callback_file_skip. pose proof (DIV_ROUND_UP_bound n INT_MAX ltac:(done)) as Hb.
  pose proof (DIV_ROUND_UP_nonneg n INT_MAX ltac:(done) Hn).
  assert (Hf : n <= Z.of_nat (Z.to_nat (DIV_ROUND_UP n INT_MAX)) * INT_MAX) by (unfold INT_MAX in *; lia).
  revert Hf Hn. generalize (Z.to_nat (DIV_ROUND_UP n INT_MAX)). clear Hb H. intros fuel.
  revert l n. unfold INT_MAX. induction fuel as [|fuel IH]; intros l n Hf Hn; cbn [callback_skip_loop].
  - assert (n = 0) as -> by lia. exists l. unfold zeros. simpl. by rewrite app_nil_r.
  - destruct (Z.ltb_spec 0 n); [|assert (n = 0) as -> by lia; exists l; unfold zeros; simpl; by rewrite app_nil_r].
    unfold store_write at 1. cbn [default]. change (0 <? 0) with false. cbv iota beta.
    destruct (IH (l ++ zeros (Z.min n INT_MAX)) (n - Z.min n INT_MAX)) as (w & Hw & ->);
      [unfold INT_MAX; lia|lia|].
    exists (l ++ zeros n). split; [|done]. unfold default, id. rewrite Hw. f_equal.
    rewrite <- app_assoc. rewrite <- zeros_app by (unfold INT_MAX; lia). do 2 f_equal. lia.
Qed.

(** Padding turns the hole at the end into bytes of the file. *)
Lemma file_pad_image f l :
  file_image f l -> exists f', file_pad f (zlen l) = (f', 0) /\ Posix.f_data f' = l.
Proof.
  intros Hf. pose proof (zlen_disk_image _ _ Hf) as Hi. destruct Hf as (Hd & Hp & Hl).
  unfold file_pad, Posix.ftruncate64. pose proof (zlen_nonneg l).
  assert (H1 : (zlen l <? 0) = false) by lia. rewrite H1. eexists. split; [done|]. simpl.
  unfold Posix.f_size, zeros, zlen in *. rewrite <- Hd at 3.
  rewrite take_ge by (rewrite length_app, length_replicate; lia). do 2 f_equal. lia.
Qed.

(** ** Lemmas: the normal writer over such a device *)

Section Image.
Context {W : Type} (ops : output_file_ops W) (rep : W -> list Z -> Prop).
Context `{!ImageDevice ops rep}.
Implicit Types out : output_file W.

(** The chunk [c] was appended to the image [l] on the device of [out]. *)
Definition imaged out (l : list Z) (c : chunk) (r : outcome (output_file W * Z)) : Prop :=
  exists w b ret, r = Ok (set_fill_buf (set_backend out w) b, ret) /\ 0 <= ret /\
    zlen b = zlen (fill_buf out) /\ rep w (l ++ chunk_image (block_size out) c).

Lemma write_normal_skip_ok out l k :
  rep (backend out) l -> 0 <= k -> 0 < block_size out ->
  imaged out l (Skip k) (write_normal_skip_chunk ops out (k * block_size out)).
Proof.
  intros Hd Hk Hbs. unfold write_normal_skip_chunk, ops_skip.
  destruct (img_skip _ _ (k * block_size out) Hd) as (w & Hw & Hok); [nia|]. rewrite Hw.
  exists w, (fill_buf out), 0. by destruct out.
Qed.

Lemma write_normal_data_ok out l n data :
  rep (backend out) l -> 0 < block_size out -> n = zlen data -> 0 < n ->
  ALIGN n (block_size out) < 2 ^ 31 ->
  imaged out l (Raw (pad_block (block_size out) data)) (write_normal_data_chunk ops out n data).
Proof.
  intros Hd Hbs Hn Hn0 Ha. unfold write_normal_data_chunk, imaged.
  assert (Hz : (block_size out =? 0) = false) by lia. rewrite Hz.
  pose proof (DIV_ROUND_UP_bound n (block_size out) Hbs) as Hb.
  pose proof (DIV_ROUND_UP_pos n (block_size out) Hbs Hn0).
  assert (Hbs32 : block_size out < 2 ^ 31) by (unfold ALIGN in *; nia).
  rewrite align_u32_id by lia.
  change (block_size out * DIV_ROUND_UP n (block_size out)) with (ALIGN n (block_size out)) in Hb.
  rewrite s32_id by lia. cbn [chunk_image]. unfold pad_block. rewrite <- Hn.
  destruct (ops_write_all ops rep out l data n) as (w & ret & Hw & Hr & Hok); [done|lia|lia|].
  rewrite Hw. cbn [obind]. rewrite Hr.
  destruct (Z.ltb_spec n (ALIGN n (block_size out))).
  - unfold ops_skip. cbn [set_backend backend].
    destruct (img_skip w _ (ALIGN n (block_size out) - n) Hok) as (w2 & Hw2 & Hok2); [lia|].
    rewrite Hw2. exists w2, (fill_buf out), 0. split; [by destruct out|]. split; [done|].
    split; [done|]. by rewrite app_assoc.
  - exists w, (fill_buf out), ret. split; [by destruct out|]. split; [lia|]. split; [done|].
    replace (ALIGN n (block_size out) - n) with 0 by lia.
    unfold zeros. simpl. by rewrite app_nil_r.
Qed.

Lemma normal_fill_loop_ok k : forall fuel out l n,
  n = Z.of_nat k * block_size out -> (k < fuel)%nat -> rep (backend out) l ->
  0 < block_size out < 2 ^ 31 -> zlen (fill_buf out) = block_size out ->
  exists w, normal_fill_loop ops fuel out n = Ok (set_backend out w, 0) /\
    rep w (l ++ concat (replicate k (fill_buf out))).
Proof.
  induction k as [|k IH]; intros fuel out l n Hn Hf Hd Hbs Hfb.
  - destruct fuel; [lia|]. cbn [normal_fill_loop]. rewrite Hn, Z.mul_0_l.
    exists (backend out). simpl. rewrite app_nil_r. split; [by destruct out|done].
  - destruct fuel as [|fuel]; [lia|]. cbn [normal_fill_loop].
    assert (Hz : (n =? 0) = false) by nia. rewrite Hz. rewrite Z.min_r by nia. rewrite s32_id by lia.
    destruct (ops_write_all ops rep out l (fill_buf out) (block_size out)) as (w & ret & Hw & Hr & Hok);
      [done|lia|lia|].
    rewrite Hw. cbn [obind]. rewrite Hr.
    destruct (IH fuel (set_backend out w) (l ++ fill_buf out) (n - block_size out)) as (w2 & Hw2 & Hok2);
      [simpl; lia|lia|done|done|done|].
    exists w2. cbn [set_backend backend fill_buf] in *. rewrite Hw2. split; [done|].
    simpl. by rewrite app_assoc.
Qed.

Lemma fill_words_mul k n v : 0 <= k -> 0 <= n ->
  concat (replicate (Z.to_nat k) (fill_words n v)) = fill_words (k * n) v.
Proof.
  intros Hk Hn. unfold fill_words. rewrite Z2Nat.inj_mul by lia. clear Hk.
  induction (Z.to_nat k) as [|m IH]; [done|]. simpl.
  by rewrite IH, replicate_add, concat_app.
Qed.

Lemma write_normal_fill_ok out l k n v :
  rep (backend out) l -> 0 < block_size out < 2 ^ 31 -> block_size out mod 4 = 0 ->
  n = k * block_size out -> 0 <= k -> zlen (fill_buf out) = block_size out ->
  imaged out l (Fill k v) (write_normal_fill_chunk ops out n v).
Proof.
  intros Hd Hbs H4 Hn Hk Hfb. unfold write_normal_fill_chunk.
  assert (Hfill : filled (block_size out) v (fill_buf out) = fill_words (block_size out / 4) v).
  { unfold filled, fill_words. rewrite drop_ge, app_nil_r; [done|].
    unfold zlen in Hfb. Z.div_mod_to_equations. lia. }
  rewrite Hfill. set (out1 := set_fill_buf out (fill_words (block_size out / 4) v)).
  assert (Hlen : zlen (fill_words (block_size out / 4) v) = block_size out)
    by (rewrite zlen_fill_words by (Z.div_mod_to_equations; lia); Z.div_mod_to_equations; lia).
  destruct (normal_fill_loop_ok (Z.to_nat k) (S (Z.to_nat (DIV_ROUND_UP n (block_size out)))) out1 l n)
    as (w & Hw & Hok).
  - simpl. lia.
  - rewrite Hn, DIV_ROUND_UP_mul by lia. lia.
  - done.
  - done.
  - done.
  - exists w, (fill_words (block_size out / 4) v), 0. split; [by rewrite Hw; destruct out|].
    split; [done|]. split; [by rewrite Hlen, Hfb|]. simpl in Hok.
    rewrite fill_words_mul in Hok by (Z.div_mod_to_equations; lia). cbn [chunk_image].
    rewrite Z.divide_div_mul_exact; [done|done|]. by apply Z.mod_divide.
Qed.
End Image.

(** ** Properties *)

(** A file whose reads make progress and do not fail. *)
Definition readable (f : Posix.file) : Prop := forall p, 0 < Posix.f_rlimit f p.

Lemma read_all_loop_spec f n : forall fuel acc p,
  readable f -> 0 <= p <= Posix.f_size f -> zlen acc <= n -> n - zlen acc < Z.of_nat fuel ->
  read_all_loop fuel (Posix.set_pos f p) acc n =
    let k := n - zlen acc in
    if p + k <=? Posix.f_size f then
      Ok (Posix.set_pos f (p + k), 0, acc ++ sub_bytes (Posix.f_data f) p k)
    else
      Ok (Posix.set_pos f (Posix.f_size f), - EINVAL,
          acc ++ sub_bytes (Posix.f_data f) p (Posix.f_size f - p)).
Proof.
  induction fuel as [|fuel IH]; intros acc p Hr Hp Ha Hf; [pose proof (zlen_nonneg acc); lia|].
  cbn [read_all_loop]. cbv zeta. destruct (Z.ltb_spec (zlen acc) n) as [Hlt|Hge].
  - unfold Posix.read. cbn [Posix.set_pos Posix.f_rlimit Posix.f_pos Posix.f_data].
    specialize (Hr p) as Hrp. assert (H0 : (Posix.f_rlimit f p <? 0) = false) by lia. rewrite H0.
    change (Posix.f_size (Posix.set_pos f p)) with (Posix.f_size f). cbv zeta beta iota.
    set (k := Z.max 0 (Z.min (n - zlen acc) (Z.min (Posix.f_rlimit f p) (Posix.f_size f - p)))).
    assert (H1 : (k <? 0) = false) by lia. rewrite H1.
    destruct (Z.eqb_spec k 0) as [E|E].
    + assert (Hend : Posix.f_size f <= p) by lia.
      assert (H2 : (p + (n - zlen acc) <=? Posix.f_size f) = false) by lia. rewrite H2.
      assert (p = Posix.f_size f) as -> by lia. rewrite E, Z.add_0_r. unfold sub_bytes.
      change (Posix.set_pos (Posix.set_pos f ?x) ?y) with (Posix.set_pos f y).
      replace (Z.to_nat (Posix.f_size f - Posix.f_size f)) with 0%nat by lia. simpl. by rewrite app_nil_r.
    + assert (Hk : zlen (sub_bytes (Posix.f_data f) p k) = k)
        by (apply zlen_sub; unfold Posix.f_size in *; lia).
      change (Posix.set_pos (Posix.set_pos f p) (p + k)) with (Posix.set_pos f (p + k)).
      rewrite IH; [|done|lia|rewrite zlen_app, Hk; lia|rewrite zlen_app, Hk; lia].
      rewrite zlen_app, Hk. cbv zeta. rewrite <- !app_assoc.
      replace (p + k + (n - (zlen acc + k))) with (p + (n - zlen acc)) by lia.
      destruct (Z.leb_spec (p + (n - zlen acc)) (Posix.f_size f)).
      * rewrite take_sub_app by lia. by replace (k + (n - (zlen acc + k))) with (n - zlen acc) by lia.
      * rewrite take_sub_app by lia.
        by replace (k + (Posix.f_size f - (p + k))) with (Posix.f_size f - p) by lia.
  - assert (zlen acc = n) as -> by lia. rewrite Z.sub_diag, Z.add_0_r.
    unfold sub_bytes. simpl. rewrite app_nil_r. bool_cases; [done|]. lia.
Qed.

Lemma read_all_inside f n :
  readable f -> 0 <= Posix.f_pos f -> 0 <= n -> Posix.f_pos f + n <= Posix.f_size f ->
  read_all f n =
    Ok (Posix.set_pos f (Posix.f_pos f + n), 0, sub_bytes (Posix.f_data f) (Posix.f_pos f) n).
Proof.
  intros Hr Hp Hn Hs. unfold read_all. destruct f as [d p r w].
  etransitivity; [apply (read_all_loop_spec (Posix.mk_file d p r w)); auto; rewrite ?zlen_nil; simpl in *; lia|].
  cbv zeta. change (zlen (@nil Z)) with 0. rewrite Z.sub_0_r.
  assert (H : (p + n <=? Posix.f_size (Posix.mk_file d p r w)) = true) by (simpl in Hs; lia). by rewrite H.
Qed.

(** [read_all] hides short reads. Whatever number of bytes each [read]
    transfers, as long as it makes progress, [read_all] terminates; it
    returns 0 with exactly the [n] bytes at the file position when the file
    has them and moves the position behind them, and -EINVAL at the end of a
    file that is too short. *)
Theorem read_all_correct f n :
  readable f -> 0 <= Posix.f_pos f <= Posix.f_size f -> 0 <= n ->
  read_all f n =
    if Posix.f_pos f + n <=? Posix.f_size f then
      Ok (Posix.set_pos f (Posix.f_pos f + n), 0, sub_bytes (Posix.f_data f) (Posix.f_pos f) n)
    else
      Ok (Posix.set_pos f (Posix.f_size f), - EINVAL,
          sub_bytes (Posix.f_data f) (Posix.f_pos f) (Posix.f_size f - Posix.f_pos f)).
Proof.
  intros Hr Hp Hn. unfold read_all. destruct f as [d p r w].
  etransitivity; [apply (read_all_loop_spec (Posix.mk_file d p r w)); auto; rewrite ?zlen_nil; lia|].
  cbv zeta. change (zlen (@nil Z)) with 0. by rewrite Z.sub_0_r.
Qed.

Lemma read_all_correct_witness :
  read_all (Posix.mk_file [1; 2; 3; 4; 5; 6] 1 (fun p => 1 + p mod 2) (fun _ => 0)) 4 =
    Ok (Posix.mk_file [1; 2; 3; 4; 5; 6] 5 (fun p => 1 + p mod 2) (fun _ => 0), 0, [2; 3; 4; 5]).
Proof.
  rewrite read_all_correct; [reflexivity| |vm_compute; intuition congruence|done].
  intros p. simpl. pose proof (Z.mod_pos_bound p 2). lia.
Defined.

Section SkipTotal.
Context {P : Type} (write : P -> option (list Z) -> Z -> P * Z) (total : P -> Z).

(** The callback accepts every request of 1 to [INT_MAX] bytes, and [total]
    adds the requests up. *)
Definition accepts : Prop := forall p b n, 1 <= n <= INT_MAX ->
  0 <= snd (write p b n) /\ total (fst (write p b n)) = total p + n.

Lemma callback_skip_loop_total : accepts -> forall fuel p off,
  off <= Z.of_nat fuel * INT_MAX -> exists p',
    callback_skip_loop write fuel p off = (p', 0) /\ total p' = total p + Z.max 0 off.
Proof.
  intros Hacc. unfold INT_MAX in *. induction fuel as [|fuel IH]; intros p off Hf.
  - exists p. split; [done|]. lia.
  - cbn [callback_skip_loop]. destruct (Z.ltb_spec 0 off) as [Hpos|]; [|exists p; split; [done|lia]].
    destruct (Hacc p None (Z.min off INT_MAX)) as [Hr Ht]; [unfold INT_MAX; lia|].
    destruct (write p None (Z.min off INT_MAX)) as [p1 r] eqn:E. simpl in Hr, Ht.
    assert (H : (r <? 0) = false) by lia. rewrite H.
    destruct (IH p1 (off - Z.min off INT_MAX)) as (p' & Hp' & Ht'); [unfold INT_MAX; lia|].
    exists p'. split; [done|]. unfold INT_MAX in *. lia.
Qed.
End SkipTotal.

(** Skipping over a callback output terminates and asks the callback for
    exactly the skipped number of bytes, in requests that fit an [int], also
    when the skip is longer than [INT_MAX]. *)
Theorem callback_file_skip_total {P} write (total : P -> Z) p off :
  accepts write total -> 0 <= off ->
  exists p', callback_file_skip write p off = (p', 0) /\ total p' = total p + off.
Proof.
  intros Ha Ho. unfold callback_file_skip.
  destruct (callback_skip_loop_total write total Ha (Z.to_nat (DIV_ROUND_UP off INT_MAX)) p off)
    as (p' & H1 & H2); [|exists p'; split; [done|lia]].
  pose proof (DIV_ROUND_UP_bound off INT_MAX). pose proof (DIV_ROUND_UP_nonneg off INT_MAX).
  unfold INT_MAX in *. lia.
Qed.

Lemma callback_file_skip_total_witness :
  exists p', callback_file_skip (fun l _ n => (l ++ [n], 0)) [] 5000000000 = (p', 0) /\
    foldr Z.add 0 p' = 0 + 5000000000.
Proof.
  apply (callback_file_skip_total (fun l _ n => (l ++ [n], 0)) (foldr Z.add 0)); [|done].
  intros p b n _. split; [done|]. simpl. induction p as [|x p IH]; simpl; lia.
Defined.

(** When the back end rejects writes, the three sparse chunk writers return
    -1 and leave the position, the chunk count and the checksum alone. *)
Theorem sparse_chunk_write_error {W} (ops : output_file_ops W) out n v data skip_len :
  (forall w d k, snd (op_write ops w d k) < 0) ->
  0 < block_size out -> n = zlen data ->
  forall r, In r [write_sparse_skip_chunk ops out skip_len; write_sparse_fill_chunk ops out n v;
                  write_sparse_data_chunk ops out n data] ->
  exists out', r = Ok (out', -1) /\ cur_out_ptr out' = cur_out_ptr out /\
    chunk_cnt out' = chunk_cnt out /\ crc32 out' = crc32 out.
Proof.
  intros Hf Hbs Hn r Hr.
  assert (Hw : forall hd, exists w ret,
    ops_write ops out (chunk_header_bytes hd) CHUNK_HEADER_LEN = Ok (set_backend out w, ret) /\
    (ret <? 0) = true).
  { intros hd. unfold ops_write. rewrite chunk_header_bytes_len.
    specialize (Hf (backend out) (chunk_header_bytes hd) CHUNK_HEADER_LEN).
    destruct (op_write ops _ _ _) as [w ret]. exists w, ret. split; [done|]. simpl in Hf. lia. }
  assert (Hz : (block_size out =? 0) = false) by lia.
  destruct Hr as [<-|[<-|[<-|[]]]];
    unfold write_sparse_skip_chunk, write_sparse_fill_chunk, write_sparse_data_chunk; rewrite Hz;
    [destruct (negb _); [by exists out|]| |];
    match goal with |- context [ops_write ops out (chunk_header_bytes ?hd)] =>
      destruct (Hw hd) as (w & ret & -> & Hret) end;
    cbn [obind]; rewrite Hret; by exists (set_backend out w).
Qed.

Lemma sparse_chunk_write_error_witness :
  let f := Posix.mk_file [] 0 (fun _ => 0) (fun _ => -28) in
  let out := mk_out 0 0 7 sparse_file_ops true 4096 8192 (zeros 4096) (zeros 4096) f in
  let bad := mk_ops file_open file_skip file_pad (fun f _ _ => (f, -1)) file_close in
  exists out', write_sparse_fill_chunk bad out 3 9 = Ok (out', -1) /\ chunk_cnt out' = 0.
Proof.
  intros f out bad.
  destruct (sparse_chunk_write_error bad out 3 9 [1; 2; 3] 0) with
    (r := write_sparse_fill_chunk bad out 3 9) as (out' & H & _ & Hc & _).
  - intros w d k. reflexivity.
  - reflexivity.
  - reflexivity.
  - simpl. auto.
  - by exists out'.
Defined.

(** The checksum chunk is lost silently. If the back end takes the 12 bytes
    of the chunk header and rejects the 4 bytes of the checksum,
    [write_sparse_end_chunk] still counts the chunk and returns 0. *)
Theorem end_chunk_ignores_error {W} (ops : output_file_ops W) out w1 w2 r1 r2 :
  use_crc out = true ->
  op_write ops (backend out) (chunk_header_bytes (chunk_hdr (block_size out) (Crc 0)))
    CHUNK_HEADER_LEN = (w1, r1) -> 0 <= r1 ->
  op_write ops w1 (le_bytes 4 (crc32 out)) 4 = (w2, r2) -> r2 < 0 ->
  write_sparse_end_chunk ops out = Ok (count_chunk (set_backend out w2), 0).
Proof.
  intros Hu H1 Hr1 H2 Hr2. unfold write_sparse_end_chunk. rewrite Hu.
  unfold ops_write at 1. rewrite chunk_header_bytes_len. cbn [chunk_hdr] in H1.
  change (CHUNK_HEADER_LEN <? u32 CHUNK_HEADER_LEN) with false. cbv iota. rewrite H1.
  cbn [obind]. assert (Hb : (r1 <? 0) = false) by lia. rewrite Hb.
  unfold ops_write. rewrite zlen_le_bytes. cbn [set_backend crc32 backend]. rewrite H2. done.
Qed.

Lemma end_chunk_ignores_error_witness :
  let f := Posix.mk_file [] 0 (fun _ => 0) (fun p => if p =? 0 then 100 else -28) in
  let out := mk_out 0 0 7 sparse_file_ops true 4096 8192 [] [] f in
  exists out', write_sparse_end_chunk file_ops out = Ok (out', 0) /\ zlen (Posix.f_data (backend out')) = 12.
Proof.
  intros f out. eexists. split.
  - eapply (end_chunk_ignores_error file_ops out); reflexivity.
  - reflexivity.
Defined.

End OutputFile.
