(* ===== verification/SparseFile.v ===== *)
(** * libsparse/sparse.c

    A sparse file: the list of backed blocks, how it is written to an output
    file in sparse and in normal form, how long the result is, and how a
    sparse file is cut into pieces. *)

From S2P Require Import Prelude Crc32 Posix SparseFormat BackedBlock OutputFile.

Module SparseFile.
Import SparseFormat BackedBlock.
Module OF := OutputFile.
#[local] Existing Instances OF.img_append OF.file_append OF.file_images_append OF.file_images
  OF.callback_append OF.callback_images.

Definition ENOMEM : Z := 12.

Record sparse_file := mk_sparse_file {
  s_block_size : Z;
  s_len : Z;
  verbose : bool;
  s_list : backed_block_list
}.

Definition set_list (s : sparse_file) (l : backed_block_list) : sparse_file :=
  mk_sparse_file (s_block_size s) (s_len s) (verbose s) l.

(** [None] is a NULL result; [allocs] says which of the two allocations
    succeed. *)
Definition sparse_file_new (allocs : bool * bool) (block_size len : Z) : option sparse_file :=
  if negb (fst allocs) then None
  else if negb (snd allocs) then None
  else Some (mk_sparse_file block_size len false (backed_block_list_new block_size)).

(** The pointers passed to [free]. *)
Definition sparse_file_destroy (list_ptr self : Z) (s : sparse_file) : list Z :=
  backed_block_list_destroy list_ptr (s_list s) ++ [self].

Definition with_list (s : sparse_file) (r : outcome (Z * backed_block_list))
  : outcome (Z * sparse_file) :=
  let! (ret, l) := r in Ok (ret, set_list s l).

Definition sparse_file_add_data (s : sparse_file) (alloc : option Z) (data len block : Z) :=
  with_list s (backed_block_add_data (s_list s) alloc data len block).

Definition sparse_file_add_fill (s : sparse_file) (alloc : option Z) (fill_val len block : Z) :=
  with_list s (backed_block_add_fill (s_list s) alloc fill_val len block).

Definition sparse_file_add_file (s : sparse_file) (alloc : option Z) (dup : Z)
    (filename : string) (file_offset len block : Z) :=
  with_list s (backed_block_add_file (s_list s) alloc dup filename file_offset len block).

Definition sparse_file_add_fd (s : sparse_file) (alloc : option Z) (fd file_offset len block : Z) :=
  with_list s (backed_block_add_fd (s_list s) alloc fd file_offset len block).

(** [backed_block_block(bb) + DIV_ROUND_UP(backed_block_len(bb), bs)], unsigned. *)
Definition next_block (bs : Z) (bb : backed_block) : Z :=
  u32 (block bb + u32 (len bb + bs - 1) / bs).

Fixpoint count_loop (bs : Z) (l : list backed_block) (last_block chunks : Z) : Z * Z :=
  match l with
  | [] => (last_block, chunks)
  | bb :: l' =>
    let chunks := if last_block <? block bb then u32 (chunks + 1) else chunks in
    count_loop bs l' (next_block bs bb) (u32 (chunks + 1))
  end.

Definition sparse_count_chunks (s : sparse_file) : outcome Z :=
  if s_block_size s =? 0 then Undef
  else
    let '(last_block, chunks) := count_loop (s_block_size s) (data_blocks (s_list s)) 0 0 in
    if last_block <? Z.quot (s64 (s_len s + s_block_size s - 1)) (s_block_size s)
    then Ok (u32 (chunks + 1)) else Ok chunks.

Section Write.
Context {W : Type} (ops : OF.output_file_ops W) (h : OF.host).

(** The results of the chunk writers are dropped. *)
Definition sparse_file_write_block (out : OF.output_file W) (bb : backed_block) : outcome (OF.output_file W) :=
  let! (out', _) :=
    match backed_block_type bb with
    | BACKED_BLOCK_DATA =>
      let! p := backed_block_data bb in
      OF.write_data_chunk ops out (len bb) (OF.mem_bytes h p (len bb))
    | BACKED_BLOCK_FILE =>
      let! f := backed_block_filename bb in
      let! o := backed_block_file_offset bb in
      OF.write_file_chunk ops h out (len bb) f o
    | BACKED_BLOCK_FD =>
      let! f := backed_block_fd bb in
      let! o := backed_block_file_offset bb in
      OF.write_fd_chunk ops h out (len bb) f o
    | BACKED_BLOCK_FILL =>
      let! v := backed_block_fill_val bb in
      OF.write_fill_chunk ops out (len bb) v
    end in
  Ok out'.

Fixpoint write_blocks_loop (bs : Z) (l : list backed_block) (out : OF.output_file W) (last_block : Z)
  : outcome (OF.output_file W * Z) :=
  match l with
  | [] => Ok (out, last_block)
  | bb :: l' =>
    let! out :=
      if last_block <? block bb then
        let! (out', _) := OF.write_skip_chunk ops out (s64 (u32 (block bb - last_block) * bs)) in
        Ok out'
      else Ok out in
    let! out := sparse_file_write_block out bb in
    if bs =? 0 then Undef else write_blocks_loop bs l' out (next_block bs bb)
  end.

Definition write_all_blocks (s : sparse_file) (out : OF.output_file W) : outcome (OF.output_file W * Z) :=
  let! (out, last_block) :=
    write_blocks_loop (s_block_size s) (data_blocks (s_list s)) out 0 in
  let pad := s64 (s_len s - s64 (last_block * s_block_size s)) in
  if pad <? 0 then AssertFail
  else if 0 <? pad then
    let! (out', _) := OF.write_skip_chunk ops out pad in Ok (out', 0)
  else Ok (out, 0).

(** What follows the opening of the output in [sparse_file_write] and
    [sparse_file_callback]. *)
Definition write_opened (s : sparse_file) (opened : outcome (W * option (OF.output_file W)))
  : outcome (W * Z) :=
  let! (w, o) := opened in
  match o with
  | None => Ok (w, - ENOMEM)
  | Some out =>
    let! (out, ret) := write_all_blocks s out in
    let! w := OF.output_file_close ops out in
    Ok (w, ret)
  end.

(** [ops] is [file_ops] or [gz_file_ops], as the flag [gz] says. *)
Definition sparse_file_write (s : sparse_file) (w0 : W) (fd : Posix.file) (alloc : bool)
    (allocs : bool * bool) (sparse crc : bool) : outcome (W * Z) :=
  let! chunks := sparse_count_chunks s in
  write_opened s
    (OF.output_file_open_fd ops w0 fd alloc allocs (s_block_size s) (s_len s) sparse (s32 chunks) crc).

End Write.

Definition sparse_file_callback {P} (h : OF.host) (s : sparse_file) (alloc : bool)
    (allocs : bool * bool) (sparse crc : bool) (write : P -> option (list Z) -> Z -> P * Z)
    (priv : P) : outcome (P * Z) :=
  let! chunks := sparse_count_chunks s in
  write_opened (OF.callback_file_ops write) h s
    (OF.output_file_open_callback (OF.callback_file_ops write) priv alloc allocs (s_block_size s)
       (s_len s) sparse (s32 chunks) crc).

(** ** Lengths *)

Definition out_counter_write (count : Z) (data : option (list Z)) (len : Z) : Z * Z :=
  (s64 (count + len), 0).

Definition sparse_file_len (h : OF.host) (s : sparse_file) (alloc : bool) (allocs : bool * bool)
    (sparse crc : bool) : outcome Z :=
  let ops := OF.callback_file_ops out_counter_write in
  let! chunks := sparse_count_chunks s in
  let! (_, o) :=
    OF.output_file_open_callback ops 0 alloc allocs (s_block_size s) (s_len s) sparse
      (s32 chunks) crc in
  match o with
  | None => Ok (-1)
  | Some out =>
    let! (out, ret) := write_all_blocks ops h s out in
    let! count := OF.output_file_close ops out in
    if ret <? 0 then Ok (-1) else Ok count
  end.

(** ** Cutting a sparse file into pieces *)

(** [sizeof(sparse_header_t) + 4 * sizeof(chunk_header_t) + sizeof(uint32_t)] *)
Definition overhead : Z := 80.

(** The loop of [move_chunks_up_to_len] over the rest of the list: the source
    list (a block may have been split), the last block to move, the block the
    loop stopped at, and the counting output. *)
Fixpoint up_to_len_loop (h : OF.host) (bbl : backed_block_list) (alloc : option Z) (len : Z)
    (out : OF.output_file Z) (l : list backed_block) (file_len : Z) (last_bb : option Z)
  : outcome (backed_block_list * option Z * option Z * OF.output_file Z) :=
  match l with
  | [] => Ok (bbl, last_bb, None, out)
  | bb :: l' =>
    let! out :=
      sparse_file_write_block (OF.callback_file_ops out_counter_write) h (OF.set_backend out 0) bb in
    let count := OF.backend out in
    if len <? s64 (file_len + count) then
      if match last_bb with None => true | Some _ => len / 8 <? s64 (len - file_len) end then
        let! (_, bbl) := backed_block_split bbl (bb_addr bb) (u32 (len - file_len)) alloc in
        Ok (bbl, Some (bb_addr bb), Some (bb_addr bb), out)
      else Ok (bbl, last_bb, Some (bb_addr bb), out)
    else
      up_to_len_loop h bbl alloc len out l' (s64 (file_len + count)) (Some (bb_addr bb))
  end.

(** The result is the pointer the function returns. [open] says whether the
    allocations of the counting output succeed. *)
Definition move_chunks_up_to_len (h : OF.host) (from to : sparse_file) (len : Z)
    (open : bool) (alloc : option Z) : outcome (sparse_file * sparse_file * option Z) :=
  let len := u32 (len - overhead) in
  let ops := OF.callback_file_ops out_counter_write in
  let start := bb_addr <$> backed_block_iter_new (s_list from) in
  let! (_, o) :=
    OF.output_file_open_callback ops 0 open (true, true) (s_block_size to) (s_len to) true 0 false in
  match o with
  | None => Ok (from, to, None)
  | Some out =>
    let! (bbl, last_bb, bb, out) :=
      up_to_len_loop h (s_list from) alloc len out (data_blocks (s_list from)) 0 None in
    let! (from_l, to_l) := backed_block_list_move bbl (s_list to) start last_bb in
    let! _ := OF.output_file_close ops out in
    Ok (set_list from from_l, set_list to to_l, bb)
  end.

(** What the allocator hands out in round [c] of the loop: whether
    [sparse_file_new] and the counting output succeed, and the address of a
    split block. *)
Record round_alloc := mk_round { r_new : bool; r_open : bool; r_split : option Z }.

(** The [do ... while] loop: the pieces stored in [out_s], the source and the
    leftover file, and the number of pieces. *)
Fixpoint resparse_loop (fuel : nat) (h : OF.host) (in_s tmp : sparse_file) (max_len : Z)
    (out_s_count c : Z) (al : Z -> round_alloc)
  : outcome (list sparse_file * sparse_file * sparse_file * Z) :=
  match fuel with
  | O => NoFuel
  | S fuel' =>
    let! s := oof (sparse_file_new (r_new (al c), true) (s_block_size in_s) (s_len in_s)) in
    let! (in_s, s, bb) :=
      move_chunks_up_to_len h in_s s max_len (r_open (al c)) (r_split (al c)) in
    let! (pieces, tmp) :=
      if c <? out_s_count then Ok ([s], tmp)
      else
        let! (_, l) := backed_block_list_move (s_list s) (s_list tmp) None None in
        Ok ([], set_list tmp l) in
    match bb with
    | None => Ok (pieces, in_s, tmp, c + 1)
    | Some _ =>
      let! (more, in_s, tmp, n) := resparse_loop fuel' h in_s tmp max_len out_s_count (c + 1) al in
      Ok (pieces ++ more, in_s, tmp, n)
    end
  end.

(** The pieces, the source file and the return value. *)
Definition sparse_file_resparse (fuel : nat) (h : OF.host) (in_s : sparse_file) (max_len : Z)
    (out_s_count : Z) (tmp_ok : bool * bool) (al : Z -> round_alloc)
  : outcome (list sparse_file * sparse_file * Z) :=
  match sparse_file_new tmp_ok (s_block_size in_s) (s_len in_s) with
  | None => Ok ([], in_s, - ENOMEM)
  | Some tmp =>
    let! (pieces, in_s, tmp, c) := resparse_loop fuel h in_s tmp max_len out_s_count 0 al in
    let! (_, l) := backed_block_list_move (s_list tmp) (s_list in_s) None None in
    Ok (pieces, set_list in_s l, c)
  end.

Definition sparse_file_verbose (s : sparse_file) : sparse_file :=
  mk_sparse_file (s_block_size s) (s_len s) true (s_list s).

(** ** What a sparse file stands for

    The chunks of its blocks, with a skip chunk for every gap up to block
    [endb]. *)

Definition bb_bytes (h : OF.host) (bb : backed_block) : list Z :=
  match payload bb with
  | bb_data p => OF.mem_bytes h p (len bb)
  | bb_file _ n o => sub_bytes (OF.h_fd h (OF.h_open h n)) o (len bb)
  | bb_fd f o => sub_bytes (OF.h_fd h f) o (len bb)
  | bb_fill _ => []
  end.

Definition bb_chunk (h : OF.host) (bs : Z) (bb : backed_block) : chunk :=
  match payload bb with
  | bb_fill v => Fill (DIV_ROUND_UP (len bb) bs) v
  | _ => Raw (pad_block bs (bb_bytes h bb))
  end.

Definition gap (last b : Z) : list chunk := if last <? b then [Skip (b - last)] else [].

Fixpoint chunks_from (h : OF.host) (bs last : Z) (l : list backed_block) (endb : Z) : list chunk :=
  match l with
  | [] => gap last endb
  | bb :: l' => gap last (block bb) ++ bb_chunk h bs bb :: chunks_from h bs (bb_end bs bb) l' endb
  end.

(** The block behind the last one. *)
Definition ends (bs last : Z) (l : list backed_block) : Z :=
  fold_left (fun _ bb => bb_end bs bb) l last.

Definition file_chunks (h : OF.host) (s : sparse_file) : list chunk :=
  chunks_from h (s_block_size s) 0 (data_blocks (s_list s)) (s_len s / s_block_size s).

(** The image: [s_len] bytes. *)
Definition file_image (h : OF.host) (s : sparse_file) : list Z :=
  chunks_image (s_block_size s) (file_chunks h s).

(** The source of a block can be read: a file is long enough and can be
    mapped. *)
Definition fd_ok (h : OF.host) (fd o n : Z) : Prop :=
  0 <= o < 2 ^ 62 /\ n + OF.PAGE <= 2 ^ 31 /\ o + n <= zlen (OF.h_fd h fd) /\
  forall size off, OF.h_mmap h fd size off = 0.

Definition source_ok (h : OF.host) (bs : Z) (bb : backed_block) : Prop :=
  ALIGN (len bb) bs + CHUNK_HEADER_LEN < 2 ^ 31 /\
  match payload bb with
  | bb_data _ => True
  | bb_file _ n o => 0 <= OF.h_open h n /\ fd_ok h (OF.h_open h n) o (len bb)
  | bb_fd f o => fd_ok h f o (len bb)
  | bb_fill v => len bb mod bs = 0 /\ 0 <= v < 2 ^ 32
  end.

(** [s] has [nb] blocks of [bs] bytes, a multiple of 4, and its list lies
    inside them, with readable sources. *)
Definition sparse_ok (h : OF.host) (s : sparse_file) (nb : Z) : Prop :=
  0 < s_block_size s < 2 ^ 31 /\ s_block_size s mod 4 = 0 /\
  0 <= nb < 2 ^ 31 /\ s_len s = nb * s_block_size s /\
  blocks_ok (s_block_size s) 0 (data_blocks (s_list s)) nb /\
  Forall (source_ok h (s_block_size s)) (data_blocks (s_list s)).

(** ** Lemmas: reading a block's source *)

Lemma land_page o : Z.land o (-4096) = o - o mod 4096.
Proof.
  change (-4096) with (Z.lnot (Z.ones 12)). rewrite <- Z.ldiff_land, Z.ldiff_ones_r by lia.
  rewrite Z.shiftl_mul_pow2, Z.shiftr_div_pow2 by lia. change (2 ^ 12) with 4096.
  pose proof (Z.div_mod o 4096). lia.
Qed.

Lemma write_fd_chunk_data {W} (ops : OF.output_file_ops W) h out n fd o :
  fd_ok h fd o n -> 0 < n ->
  OF.write_fd_chunk ops h out n fd o =
  OF.write_data_chunk ops out n (sub_bytes (OF.h_fd h fd) o n).
Proof.
  intros (Ho & Hn & Hlen & Hm) Hn0. unfold OF.write_fd_chunk, OF.PAGE in *. rewrite land_page.
  pose proof (Z.mod_pos_bound o 4096).
  replace (o - (o - o mod 4096)) with (o mod 4096) by lia.
  rewrite (s32_id (o mod 4096)) by lia. rewrite Hm. cbn [Z.eqb negb].
  rewrite s32_id, u32_id by lia.
  assert (H1 : (n + o mod 4096 <? o mod 4096 + n) = false) by lia. rewrite H1.
  replace (o - o mod 4096 + o mod 4096) with o by lia. unfold OF.mapped_bytes, OF.PAGE.
  pose proof (DIV_ROUND_UP_bound (zlen (OF.h_fd h fd)) 4096).
  assert (H2 : (o + n <=? ALIGN (zlen (OF.h_fd h fd)) 4096) = true) by (unfold ALIGN; lia).
  rewrite H2. cbn [obind]. by rewrite sub_bytes_app_l by lia.
Qed.

Lemma zlen_mem_bytes h p n : 0 <= n -> zlen (OF.mem_bytes h p n) = n.
Proof. intros. unfold OF.mem_bytes, zlen. rewrite length_map, length_seqZ. lia. Qed.

Lemma zlen_bb_bytes h bs bb :
  source_ok h bs bb -> node_ok bs bb -> (forall v, payload bb <> bb_fill v) ->
  zlen (bb_bytes h bb) = len bb.
Proof.
  intros [_ Hs] (_ & Hn & _) Hf. unfold bb_bytes. destruct (payload bb).
  - apply zlen_mem_bytes. lia.
  - destruct Hs as (_ & Ho & _ & Hl & _). apply zlen_sub; lia.
  - destruct Hs as (Ho & _ & Hl & _). apply zlen_sub; lia.
  - by destruct (Hf val).
Qed.

Lemma bb_end_next bs bb :
  0 < bs < 2 ^ 31 -> node_ok bs bb -> ALIGN (len bb) bs < 2 ^ 31 -> bb_end bs bb < 2 ^ 32 ->
  next_block bs bb = bb_end bs bb.
Proof.
  intros Hbs (Hb & Hl & _) Ha He. unfold next_block, bb_end in *.
  pose proof (DIV_ROUND_UP_bound (len bb) bs). unfold ALIGN in Ha.
  pose proof (DIV_ROUND_UP_nonneg (len bb) bs).
  rewrite (u32_id (len bb + bs - 1)) by lia. apply u32_id. unfold DIV_ROUND_UP in *. lia.
Qed.

(** ** Lemmas: writing to a device *)

(** What a chunk becomes on the device, and the checksum the sparse writer
    keeps of it. *)
Definition enc (m : OF.sparse_ops_t) (bs : Z) (c : chunk) : list Z :=
  match m with
  | OF.sparse_file_ops => chunk_bytes bs c
  | OF.normal_file_ops => chunk_image bs c
  end.

Definition encs (m : OF.sparse_ops_t) (bs : Z) (cs : list chunk) : list Z := concat (map (enc m bs) cs).

Definition writer_crc (bs crc : Z) (c : chunk) : Z :=
  match c with
  | Raw d => Crc32.sparse_crc32 crc d
  | Fill _ v => OF.fill_crc bs v crc
  | _ => crc
  end.

Section Device.
Context {W : Type} (ops : OF.output_file_ops W) (rep : W -> list Z -> Prop).
Context `{!OF.AppendDevice ops rep}.
Variable h : OF.host.

(** The settings of a fresh output file; the normal writer needs a device it
    can skip on. *)
Definition good_out (out : OF.output_file W) : Prop :=
  0 < OF.block_size out < 2 ^ 31 /\ OF.block_size out mod 4 = 0 /\
  OF.zero_buf out = zeros (OF.block_size out) /\ zlen (OF.fill_buf out) = OF.block_size out /\
  (OF.sparse_ops out = OF.normal_file_ops -> OF.ImageDevice ops rep).

(** [out'] has the settings of [out]. *)
Definition like (out out' : OF.output_file W) : Prop :=
  OF.sparse_ops out' = OF.sparse_ops out /\ OF.use_crc out' = OF.use_crc out /\
  OF.block_size out' = OF.block_size out /\ OF.len out' = OF.len out /\
  OF.zero_buf out' = OF.zero_buf out /\ zlen (OF.fill_buf out') = zlen (OF.fill_buf out).

Definition crc_run (out : OF.output_file W) (cs : list chunk) : Z :=
  match OF.sparse_ops out, OF.use_crc out with
  | OF.sparse_file_ops, true => fold_left (writer_crc (OF.block_size out)) cs (OF.crc32 out)
  | _, _ => OF.crc32 out
  end.

(** [out'] is [out] after the chunks [cs] were added to the bytes [l]. *)
Definition steps (out : OF.output_file W) (l : list Z) (cs : list chunk)
    (out' : OF.output_file W) : Prop :=
  like out out' /\ OF.crc32 out' = crc_run out cs /\
  rep (OF.backend out') (l ++ encs (OF.sparse_ops out) (OF.block_size out) cs).

Lemma good_like out out' : good_out out -> like out out' -> good_out out'.
Proof.
  intros (H1 & H2 & H3 & H4 & H5) (E1 & E2 & E3 & E4 & E5 & E6). unfold good_out.
  rewrite E1, E3, E5, E6. auto.
Qed.

Lemma steps_trans out l cs out1 ds out2 :
  steps out l cs out1 ->
  steps out1 (l ++ encs (OF.sparse_ops out) (OF.block_size out) cs) ds out2 ->
  steps out l (cs ++ ds) out2.
Proof.
  intros ((E1 & E2 & E3 & E4 & E5 & E6) & Hc & Hr) ((F1 & F2 & F3 & F4 & F5 & F6) & Hd & Hs).
  split; [|split].
  - repeat split; congruence.
  - rewrite Hd. unfold crc_run in *. rewrite E1, E2, E3, Hc, fold_left_app.
    by destruct (OF.sparse_ops out), (OF.use_crc out).
  - unfold encs in *. rewrite E1, E3, <- app_assoc in Hs. by rewrite map_app, concat_app.
Qed.

Lemma steps_nil out l : rep (OF.backend out) l -> steps out l [] out.
Proof.
  intros. split; [by repeat split|]. split; [by unfold crc_run; destruct (OF.sparse_ops out), (OF.use_crc out)|].
  unfold encs. simpl. by rewrite app_nil_r.
Qed.

(** One chunk, by either table of operations. *)

Lemma appended_steps out l c r :
  OF.sparse_ops out = OF.sparse_file_ops -> OF.appended rep out l c r ->
  exists out' ret, r = Ok (out', ret) /\ steps out l [c] out'.
Proof.
  intros Hm (w & -> & Hr). exists (OF.emitted out w c), 0. split; [done|]. split; [done|].
  unfold crc_run, encs. rewrite Hm. simpl. rewrite app_nil_r. split; [|done].
  unfold OF.crc_after. by destruct (OF.use_crc out), c.
Qed.

Lemma imaged_steps out l c r :
  OF.sparse_ops out = OF.normal_file_ops -> OF.imaged rep out l c r ->
  exists out' ret, r = Ok (out', ret) /\ steps out l [c] out'.
Proof.
  intros Hm (w & b & ret & -> & Hret & Hb & Hr).
  exists (OF.set_fill_buf (OF.set_backend out w) b), ret. split; [done|].
  split; [by repeat split|]. unfold crc_run, encs. rewrite Hm. simpl. by rewrite app_nil_r.
Qed.

Lemma write_skip_steps out l k :
  good_out out -> rep (OF.backend out) l -> 0 <= k < 2 ^ 32 ->
  exists out' ret, OF.write_skip_chunk ops out (k * OF.block_size out) = Ok (out', ret) /\
    steps out l [Skip k] out'.
Proof.
  intros (Hbs & H4 & Hz & Hf & Him) Hr Hk. unfold OF.write_skip_chunk. destruct (OF.sparse_ops out) eqn:Em; [|specialize (Him eq_refl)].
  - apply appended_steps; [done|]. apply (OF.write_sparse_skip_ok ops rep); auto; lia.
  - apply imaged_steps; [done|]. apply OF.write_normal_skip_ok; auto; lia.
Qed.

Lemma write_data_steps out l data :
  good_out out -> rep (OF.backend out) l -> 0 < zlen data ->
  ALIGN (zlen data) (OF.block_size out) + CHUNK_HEADER_LEN < 2 ^ 31 ->
  exists out' ret, OF.write_data_chunk ops out (zlen data) data = Ok (out', ret) /\
    steps out l [Raw (pad_block (OF.block_size out) data)] out'.
Proof.
  intros (Hbs & H4 & Hz & Hf & Him) Hr Hn Ha. unfold OF.write_data_chunk. destruct (OF.sparse_ops out) eqn:Em; [|specialize (Him eq_refl)].
  - apply appended_steps; [done|]. apply (OF.write_sparse_data_ok ops rep); auto; lia.
  - apply imaged_steps; [done|]. unfold CHUNK_HEADER_LEN in Ha. apply OF.write_normal_data_ok; auto; lia.
Qed.

Lemma write_fill_steps out l n v :
  good_out out -> rep (OF.backend out) l -> 0 < n -> n mod OF.block_size out = 0 ->
  ALIGN n (OF.block_size out) < 2 ^ 31 ->
  exists out' ret, OF.write_fill_chunk ops out n v = Ok (out', ret) /\
    steps out l [Fill (DIV_ROUND_UP n (OF.block_size out)) v] out'.
Proof.
  intros (Hbs & H4 & Hz & Hf & Him) Hr Hn Hm Ha. unfold OF.write_fill_chunk. destruct (OF.sparse_ops out) eqn:Em; [|specialize (Him eq_refl)].
  - apply appended_steps; [done|]. apply (OF.write_sparse_fill_ok ops rep); auto; lia.
  - apply imaged_steps; [done|].
    assert (Hk : n = n / OF.block_size out * OF.block_size out).
    { pose proof (Z.div_mod n (OF.block_size out)). lia. }
    assert (Hd : DIV_ROUND_UP n (OF.block_size out) = n / OF.block_size out)
      by (rewrite Hk at 1; apply DIV_ROUND_UP_mul; lia).
    rewrite Hd. apply OF.write_normal_fill_ok; auto. apply Z.div_pos; lia.
Qed.

Lemma write_block_steps out l bb :
  good_out out -> rep (OF.backend out) l -> node_ok (OF.block_size out) bb ->
  source_ok h (OF.block_size out) bb ->
  exists out', sparse_file_write_block ops h out bb = Ok out' /\
    steps out l [bb_chunk h (OF.block_size out) bb] out'.
Proof.
  intros Hg Hr Hn Hs. pose proof Hn as (_ & Hl & _). pose proof (zlen_bb_bytes h _ bb Hs Hn) as Hlen.
  destruct Hs as [Ha Hs]. unfold sparse_file_write_block, bb_chunk in *.
  unfold backed_block_type, backed_block_data, backed_block_filename, backed_block_fd,
    backed_block_file_offset, backed_block_fill_val.
  assert (Hdata : (forall v, payload bb <> bb_fill v) -> exists out' ret,
    OF.write_data_chunk ops out (len bb) (bb_bytes h bb) = Ok (out', ret) /\
    steps out l [Raw (pad_block (OF.block_size out) (bb_bytes h bb))] out').
  { intros Hf. specialize (Hlen Hf). destruct (write_data_steps out l (bb_bytes h bb))
      as (out' & ret & Hw & Hst); rewrite ?Hlen in *; [done|done|lia|done|]. eauto. }
  unfold bb_bytes in Hdata |- *. destruct (payload bb) as [p|f nm o|f o|v]; cbn [obind].
  - destruct Hdata as (out' & ret & -> & Hst); [done|]. by exists out'.
  - destruct Hs as [Ho Hs]. unfold OF.write_file_chunk.
    assert (H1 : (OF.h_open h nm <? 0) = false) by lia. rewrite H1, write_fd_chunk_data by (auto; lia).
    destruct Hdata as (out' & ret & -> & Hst); [done|]. by exists out'.
  - rewrite write_fd_chunk_data by (auto; lia).
    destruct Hdata as (out' & ret & -> & Hst); [done|]. by exists out'.
  - destruct Hs as [Hm _]. unfold CHUNK_HEADER_LEN in Ha.
    destruct (write_fill_steps out l (len bb) v) as (out' & ret & -> & Hst); auto; try lia. by exists out'.
Qed.

Lemma write_loop_steps bs : forall l out d last nb endb,
  bs = OF.block_size out -> good_out out -> rep (OF.backend out) d ->
  0 <= last -> blocks_ok bs last l nb -> nb < 2 ^ 31 -> Forall (source_ok h bs) l ->
  exists out' last' cs, write_blocks_loop ops h bs l out last = Ok (out', last') /\
    chunks_from h bs last l endb = cs ++ gap last' endb /\ steps out d cs out' /\
    last <= last' <= nb /\ last' = ends bs last l.
Proof.
  induction l as [|bb l IH]; intros out d last nb endb Hbs Hg Hr Hl Hok Hnb Hs.
  - exists out, last, []. simpl in *. split; [done|]. split; [done|]. split; [by apply steps_nil|]. by split; [lia|].
  - simpl in Hok. destruct Hok as (Hlast & Hn & Hok). apply Forall_cons in Hs as [Hsb Hs].
    pose proof Hg as (Hbs31 & _). rewrite <- Hbs in Hbs31.
    pose proof (bb_end_gt bs bb) as Hgt. specialize (Hgt ltac:(lia) Hn).
    assert (Hend : bb_end bs bb <= nb) by (apply (blocks_ok_le bs _ l); [lia|done]).
    assert (Hgap : exists out1,
      (if last <? block bb then
         let! (out', _) := OF.write_skip_chunk ops out (s64 (u32 (block bb - last) * bs)) in Ok out'
       else Ok out) = Ok out1 /\ steps out d (gap last (block bb)) out1).
    { unfold gap. destruct (Z.ltb_spec last (block bb)); [|exists out; split; [done|by apply steps_nil]].
      rewrite u32_id, s64_id by (wrap_pow; nia).
      destruct (write_skip_steps out d (block bb - last)) as (o & ret & Hw & Hst); auto; [lia|].
      rewrite Hbs, Hw. by exists o. }
    destruct Hgap as (out1 & Hw1 & Hst1). cbn [write_blocks_loop]. rewrite Hw1. cbn [obind].
    pose proof Hst1 as (Hlk1 & _ & Hr1). pose proof (good_like _ _ Hg Hlk1) as Hg1.
    assert (Hb1 : OF.block_size out1 = bs) by (rewrite Hbs; apply Hlk1).
    destruct (write_block_steps out1 _ bb Hg1 Hr1) as (out2 & Hw2 & Hst2); rewrite ?Hb1; auto.
    rewrite Hw2. cbn [obind]. assert (Hz : (bs =? 0) = false) by lia. rewrite Hz, Hb1 in *.
    pose proof (steps_trans _ _ _ _ _ _ Hst1 Hst2) as Hst12.
    pose proof Hst12 as (Hlk2 & _ & Hr2). pose proof (good_like _ _ Hg Hlk2) as Hg2.
    destruct Hsb as [Ha _]. unfold CHUNK_HEADER_LEN in Ha.
    rewrite bb_end_next by (auto; lia).
    assert (Hb2 : bs = OF.block_size out2) by (rewrite Hbs; symmetry; apply Hlk2).
    destruct (IH out2 _ (bb_end bs bb) nb endb Hb2 Hg2 Hr2)
      as (out' & last' & cs & Hw & Hcs & Hst & Hlast' & He); [destruct Hn; lia|done|done|done|].
    exists out', last', ((gap last (block bb) ++ [bb_chunk h bs bb]) ++ cs).
    split; [done|]. split; [|split; [|split; [lia|done]]].
    + cbn [chunks_from]. rewrite Hcs, <- !app_assoc. done.
    + by eapply steps_trans.
Qed.

Lemma write_all_steps s nb out d :
  sparse_ok h s nb -> OF.block_size out = s_block_size s -> good_out out -> rep (OF.backend out) d ->
  exists out', write_all_blocks ops h s out = Ok (out', 0) /\ steps out d (file_chunks h s) out'.
Proof.
  intros (Hbs & H4 & Hnb & Hlen & Hok & Hs) Hb Hg Hr.
  destruct (write_loop_steps (s_block_size s) (data_blocks (s_list s)) out d 0 nb
    (s_len s / s_block_size s)) as (out1 & last & cs & Hw & Hcs & Hst & Hlast & _); auto; try lia.
  unfold write_all_blocks, file_chunks. rewrite Hw, Hcs. cbn [obind].
  assert (Hq : s_len s / s_block_size s = nb) by (rewrite Hlen; apply Z.div_mul; lia).
  rewrite Hq. rewrite (s64_id (last * _)), s64_id by (wrap_pow; nia).
  assert (H1 : (s_len s - last * s_block_size s <? 0) = false) by nia. rewrite H1.
  replace (s_len s - last * s_block_size s) with ((nb - last) * s_block_size s) by lia.
  pose proof Hst as (Hlk & _ & Hr1). pose proof (good_like _ _ Hg Hlk) as Hg1.
  assert (Hb1 : OF.block_size out1 = s_block_size s) by (rewrite <- Hb; apply Hlk).
  unfold gap. destruct (Z.ltb_spec last nb).
  - assert (H2 : (0 <? (nb - last) * s_block_size s) = true) by nia. rewrite H2.
    destruct (write_skip_steps out1 _ (nb - last) Hg1 Hr1) as (out2 & ret & Hw2 & Hst2); [lia|].
    rewrite <- Hb1, Hw2. cbn [obind]. exists out2. split; [done|]. by eapply steps_trans.
  - assert (H2 : (0 <? (nb - last) * s_block_size s) = false) by nia. rewrite H2.
    exists out1. by rewrite app_nil_r.
Qed.

Lemma init_ok w s nb sparse chunks crc :
  rep w [] -> (sparse = false -> OF.ImageDevice ops rep) -> sparse_ok h s nb ->
  exists out, OF.output_file_init ops w (true, true) (s_block_size s) (s_len s) sparse chunks crc
      = Ok (out, 0) /\ good_out out /\ OF.block_size out = s_block_size s /\
    OF.len out = s_len s /\ OF.use_crc out = crc /\ OF.crc32 out = 0 /\
    OF.sparse_ops out = (if sparse then OF.sparse_file_ops else OF.normal_file_ops) /\
    rep (OF.backend out)
      (if sparse then sparse_header_bytes (OF.init_header (s_block_size s) (s_len s) chunks crc) else []).
Proof.
  intros Hr Him (Hbs & H4 & Hnb & Hlen & _). unfold OF.output_file_init. cbn [fst snd negb].
  set (out0 := OF.mk_out 0 0 0 _ _ _ _ _ _ _).
  assert (Hg : good_out out0).
  { split; [done|]. split; [done|]. split; [done|]. split; [apply zlen_zeros; simpl; lia|].
    destruct sparse; [done|auto]. }
  destruct sparse.
  - assert (Hz : (s_block_size s =? 0) = false) by lia. rewrite Hz.
    destruct (OF.ops_write_all ops rep out0 []
      (sparse_header_bytes (OF.init_header (s_block_size s) (s_len s) chunks crc)) SPARSE_HEADER_LEN)
      as (w' & ret & Hw & Hret & Hr'); [done|by rewrite sparse_header_bytes_len|done|].
    rewrite Hw. cbn [obind]. rewrite Hret. by exists (OF.set_backend out0 w').
  - by exists out0.
Qed.

(** Everything between opening and closing. *)
Lemma run_ok w s nb sparse chunks crc :
  rep w [] -> (sparse = false -> OF.ImageDevice ops rep) -> sparse_ok h s nb ->
  exists out out',
    OF.output_file_init ops w (true, true) (s_block_size s) (s_len s) sparse chunks crc = Ok (out, 0) /\
    write_all_blocks ops h s out = Ok (out', 0) /\
    OF.block_size out' = s_block_size s /\ OF.len out' = s_len s /\ OF.use_crc out' = crc /\
    OF.sparse_ops out' = (if sparse then OF.sparse_file_ops else OF.normal_file_ops) /\
    (sparse = true -> crc = true ->
       OF.crc32 out' = fold_left (writer_crc (s_block_size s)) (file_chunks h s) 0) /\
    rep (OF.backend out')
      (if sparse then
         sparse_header_bytes (OF.init_header (s_block_size s) (s_len s) chunks crc) ++
         chunks_bytes (s_block_size s) (file_chunks h s)
       else file_image h s).
Proof.
  intros Hr Him Hs. destruct (init_ok w s nb sparse chunks crc Hr Him Hs)
    as (out & Hi & Hg & Hb & Hl & Hu & Hc & Hm & Hr').
  destruct (write_all_steps s nb out _ Hs Hb Hg Hr') as (out' & Hw & (E1 & E2 & E3 & E4 & _) & Hc' & Hr2).
  exists out, out'. repeat split; try congruence.
  - intros -> ->. rewrite Hc'. unfold crc_run. by rewrite Hm, Hu, Hb, Hc.
  - rewrite Hm, Hb in Hr2. by destruct sparse.
Qed.

Lemma close_sparse_ok out l :
  OF.sparse_ops out = OF.sparse_file_ops -> rep (OF.backend out) l ->
  exists w, OF.output_file_close ops out = Ok (OF.op_close ops w) /\
    rep w (l ++ if OF.use_crc out then chunk_bytes (OF.block_size out) (Crc (OF.crc32 out)) else []).
Proof.
  intros Hm Hr. unfold OF.output_file_close, OF.write_end_chunk. rewrite Hm.
  destruct (OF.write_sparse_end_ok ops rep out l Hr) as (out' & He & Hr'). rewrite He.
  cbn [obind]. eauto.
Qed.

End Device.

Lemma init_header_ok bs len chunks crc :
  0 <= bs < 2 ^ 32 -> sparse_header_ok (OF.init_header bs len chunks crc).
Proof.
  intros Hbs. unfold OF.init_header, sparse_header_ok, u16_ok, u32_ok. cbn [magic major_version
    minor_version file_hdr_sz chunk_hdr_sz blk_sz total_blks total_chunks image_checksum].
  pose proof (u32_range (Z.quot len bs)).
  pose proof (u32_range (u32 chunks + (if crc then 1 else 0))).
  repeat split; try done; lia.
Qed.

(** The bytes of the sparse form of [s]. *)
Definition sparse_stream (h : OF.host) (s : sparse_file) (crc : bool) : list Z :=
  let cs := file_chunks h s in
  sparse_header_bytes (OF.init_header (s_block_size s) (s_len s) (zlen cs) crc) ++
  chunks_bytes (s_block_size s) cs ++
  (if crc then chunk_bytes (s_block_size s) (Crc (fold_left (writer_crc (s_block_size s)) cs 0)) else []).

#[export] Instance counter_append :
  OF.AppendDevice (OF.callback_file_ops out_counter_write) (fun w l => w = s64 (zlen l)).
Proof.
  constructor. intros w l data n -> Hn H31. do 2 eexists. split; [done|]. split; [done|]. simpl.
  rewrite s64_add_l, zlen_app. do 2 f_equal. unfold zlen in *. rewrite length_take. lia.
Qed.

#[export] Instance counter_images :
  OF.ImageDevice (OF.callback_file_ops out_counter_write) (fun w l => w = s64 (zlen l)).
Proof.
  constructor; [apply _|]. intros w l n -> Hn. cbn [OF.op_skip OF.callback_file_ops].
  unfold OF.callback_file_skip.
  assert (Hg : forall fuel w off, off <= Z.of_nat fuel * OF.INT_MAX -> 0 <= off -> w = s64 w ->
    OF.callback_skip_loop out_counter_write fuel w off = (s64 (w + off), 0)).
  { clear. unfold OF.INT_MAX. induction fuel as [|fuel IH]; intros w off Hf Ho Hw.
    - assert (off = 0) as -> by lia. simpl. by rewrite Z.add_0_r, <- Hw.
    - cbn [OF.callback_skip_loop]. destruct (Z.ltb_spec 0 off).
      + unfold out_counter_write at 1. simpl Z.ltb. cbv iota beta. rewrite IH.
        * rewrite s64_add_l. do 2 f_equal. lia.
        * unfold OF.INT_MAX. lia.
        * lia.
        * by rewrite s64_s64.
      + assert (off = 0) as -> by lia. by rewrite Z.add_0_r, <- Hw. }
  rewrite Hg; [| |lia|by rewrite s64_s64].
  - eexists. split; [done|]. by rewrite s64_add_l, zlen_app, zlen_zeros by lia.
  - pose proof (DIV_ROUND_UP_bound n OF.INT_MAX). pose proof (DIV_ROUND_UP_nonneg n OF.INT_MAX).
    unfold OF.INT_MAX in *. lia.
Qed.

(** ** Lemmas: counting chunks *)

Lemma count_loop_spec h bs : forall l last nb endb chunks,
  0 < bs < 2 ^ 31 -> 0 <= last -> blocks_ok bs last l nb -> nb < 2 ^ 31 ->
  Forall (source_ok h bs) l -> 0 <= chunks -> chunks + 2 * zlen l < 2 ^ 32 ->
  exists last' cs, count_loop bs l last chunks = (last', chunks + zlen cs) /\
    chunks_from h bs last l endb = cs ++ gap last' endb /\ last <= last' <= nb /\ zlen cs <= 2 * zlen l.
Proof.
  induction l as [|bb l IH]; intros last nb endb chunks Hbs Hl Hok Hnb Hs Hc Hc2.
  - exists last, []. simpl in *. change (zlen (@nil chunk)) with 0.
    change (zlen (@nil backed_block)) with 0. rewrite Z.add_0_r. repeat split; auto; lia.
  - simpl in Hok. destruct Hok as (Hlast & Hn & Hok). apply Forall_cons in Hs as [Hsb Hs].
    pose proof (bb_end_gt bs bb) as Hgt. specialize (Hgt ltac:(lia) Hn).
    assert (Hend : bb_end bs bb <= nb) by (apply (blocks_ok_le bs _ l); [lia|done]).
    destruct Hsb as [Ha _]. unfold CHUNK_HEADER_LEN in Ha.
    rewrite zlen_cons in Hc2. pose proof (zlen_nonneg l).
    cbn [count_loop]. rewrite bb_end_next by (auto; lia).
    set (c1 := if last <? block bb then u32 (chunks + 1) else chunks).
    assert (Hc1 : c1 = chunks + zlen (gap last (block bb)) /\ zlen (gap last (block bb)) <= 1).
    { unfold c1, gap. destruct (last <? block bb); [rewrite u32_id by lia|]; unfold zlen; simpl; lia. }
    destruct Hc1 as [Hc1 Hg]. pose proof (zlen_nonneg (gap last (block bb))).
    rewrite Hc1, u32_id by lia.
    destruct (IH (bb_end bs bb) nb endb (chunks + zlen (gap last (block bb)) + 1))
      as (last' & cs & Hcl & Hcs & Hl' & Hlen); auto; try lia.
    exists last', (gap last (block bb) ++ bb_chunk h bs bb :: cs). rewrite Hcl.
    rewrite zlen_app, !zlen_cons. split; [f_equal; lia|]. split; [|lia].
    cbn [chunks_from]. by rewrite Hcs, <- app_assoc.
Qed.

Lemma count_chunks_spec h s nb :
  sparse_ok h s nb -> 2 * zlen (data_blocks (s_list s)) < 2 ^ 31 - 1 ->
  sparse_count_chunks s = Ok (zlen (file_chunks h s)) /\
  0 <= zlen (file_chunks h s) < 2 ^ 31.
Proof.
  intros (Hbs & H4 & Hnb & Hlen & Hok & Hs) Hc. unfold sparse_count_chunks, file_chunks.
  assert (Hz : (s_block_size s =? 0) = false) by lia. rewrite Hz.
  destruct (count_loop_spec h (s_block_size s) (data_blocks (s_list s)) 0 nb
    (s_len s / s_block_size s) 0) as (last & cs & Hcl & Hcs & Hl & Hle); auto; try lia.
  rewrite Hcl, Hcs. pose proof (zlen_nonneg cs).
  assert (Hq : s_len s / s_block_size s = nb) by (rewrite Hlen; apply Z.div_mul; lia).
  rewrite Hq. rewrite s64_id by (wrap_pow; nia). rewrite Z.quot_div_nonneg by nia.
  change ((s_len s + s_block_size s - 1) / s_block_size s) with (DIV_ROUND_UP (s_len s) (s_block_size s)).
  rewrite Hlen, DIV_ROUND_UP_mul by lia. unfold gap. rewrite zlen_app.
  destruct (last <? nb).
  - rewrite u32_id by lia. change (zlen [Skip (nb - last)]) with 1. split; [f_equal; lia|lia].
  - change (zlen (@nil chunk)) with 0. split; [f_equal; lia|lia].
Qed.

Lemma zlen_chunks_image h bs : forall l last nb,
  0 < bs -> bs mod 4 = 0 -> blocks_ok bs last l nb -> Forall (source_ok h bs) l ->
  zlen (chunks_image bs (chunks_from h bs last l nb)) = (nb - last) * bs.
Proof.
  assert (Hgap : forall bs a b, 0 < bs -> a <= b -> zlen (chunks_image bs (gap a b)) = (b - a) * bs).
  { intros bs' a b Hbs Hab. unfold gap. destruct (Z.ltb_spec a b).
    - unfold chunks_image. simpl. rewrite app_nil_r, zlen_zeros; nia.
    - unfold chunks_image. simpl. assert (a = b) as -> by lia. rewrite zlen_nil. lia. }
  induction l as [|bb l IH]; intros last nb Hbs H4 Hok Hs.
  - simpl. apply Hgap; [done|]. apply Hok.
  - destruct Hok as (Hl & Hn & Hok). apply Forall_cons in Hs as [Hsb Hs]. cbn [chunks_from].
    rewrite chunks_image_app, zlen_app, Hgap by done.
    change (bb_chunk h bs bb :: chunks_from h bs (bb_end bs bb) l nb) with
      ([bb_chunk h bs bb] ++ chunks_from h bs (bb_end bs bb) l nb).
    rewrite chunks_image_app, zlen_app, IH by done.
    assert (Hc : zlen (chunks_image bs [bb_chunk h bs bb]) = bs * DIV_ROUND_UP (len bb) bs).
    { unfold chunks_image. simpl. rewrite app_nil_r. pose proof (zlen_bb_bytes h bs bb Hsb Hn) as Hz.
      pose proof (DIV_ROUND_UP_nonneg (len bb) bs) as Hd. destruct Hn as (_ & Hlen & _).
      unfold bb_chunk. destruct (payload bb); cbn [chunk_image];
        try (rewrite zlen_pad_block, Hz by done; done).
      rewrite (Z.mul_comm _ bs). apply Z.mod_divide in H4 as [q ->]; [|lia].
      replace (q * 4 * DIV_ROUND_UP (len bb) (q * 4)) with (q * DIV_ROUND_UP (len bb) (q * 4) * 4) by lia.
      rewrite Z.div_mul, zlen_fill_words by nia. lia. }
    rewrite Hc. unfold bb_end. lia.
Qed.

Lemma zlen_file_image h s nb : sparse_ok h s nb -> zlen (file_image h s) = s_len s.
Proof.
  intros (Hbs & H4 & Hnb & Hlen & Hok & Hs). unfold file_image, file_chunks.
  assert (Hq : s_len s / s_block_size s = nb) by (rewrite Hlen; apply Z.div_mul; lia).
  rewrite Hq, zlen_chunks_image by (auto; lia). lia.
Qed.

(** ** Properties *)

(** The list is short enough for its chunks to be counted in an [int]. *)
Definition countable (s : sparse_file) : Prop := 2 * zlen (data_blocks (s_list s)) < 2 ^ 31 - 1.

(** An empty file that takes what is written to it. *)
Definition blank (f : Posix.file) : Prop :=
  Posix.f_data f = [] /\ Posix.f_pos f = 0 /\ forall p, 2 ^ 31 <= Posix.f_wlimit f p.

Definition ex_host : OF.host :=
  OF.mk_host (fun p => p mod 256) (fun _ => [1; 2; 3; 4; 5; 6; 7; 8; 9; 10; 11; 12; 13; 14])
    (fun _ => 3) (fun _ _ _ => 0).

Definition ex_file : sparse_file :=
  mk_sparse_file 8 56 false
    (mk_bbl [mk_bb 16 1 16 (bb_fill 7); mk_bb 17 3 11 (bb_fd 3 2); mk_bb 18 6 4 (bb_data 100)] None 8).

Lemma ex_file_ok : sparse_ok ex_host ex_file 7.
Proof.
  split; [done|]. split; [done|]. split; [done|]. split; [done|].
  split; [vm_compute; intuition congruence|]. repeat constructor; vm_compute; congruence.
Qed.



Lemma write_normal_ok h s nb f :
  sparse_ok h s nb -> countable s -> blank f ->
  exists f', sparse_file_write OF.file_ops h s f f true (true, true) false false = Ok (f', 0) /\
    Posix.f_data f' = file_image h s.
Proof.
  intros Hs Hc (Hd & Hp & Hl). unfold sparse_file_write.
  destruct (count_chunks_spec h s nb Hs Hc) as [-> Hn]. cbn [obind].
  unfold OF.output_file_open_fd. cbn [negb OF.op_open OF.file_ops]. unfold OF.file_open.
  assert (Hr : OF.file_image f []).
  { unfold OF.file_image, Posix.f_size. rewrite Hd, Hp. split; [done|]. split; [done|done]. }
  destruct (run_ok OF.file_ops OF.file_image h f s nb false (s32 (zlen (file_chunks h s))) false Hr ltac:(intros; apply _) Hs)
    as (out & out' & -> & Hw & Hb & Hlen & Hu & Hm & _ & Hr').
  cbn [obind Z.ltb Z.compare]. unfold write_opened. cbn [obind]. rewrite Hw. cbn [obind].
  unfold OF.output_file_close, OF.write_end_chunk, OF.write_normal_end_chunk. rewrite Hm, Hlen.
  rewrite <- (zlen_file_image h s nb Hs).
  destruct (OF.file_pad_image _ _ Hr') as (f' & Hpad & Hf'). cbn [OF.op_pad OF.file_ops].
  rewrite Hpad. cbn [obind]. exists f'. by rewrite Hf'.
Qed.



(** [sparse_file_len] is the number of bytes [sparse_file_write] produces,
    in sparse form with and without checksum and in normal form. *)
Theorem sparse_file_len_correct h s nb sparse crc :
  sparse_ok h s nb -> countable s -> zlen (sparse_stream h s crc) < 2 ^ 63 ->
  sparse_file_len h s true (true, true) sparse crc =
    Ok (if sparse then zlen (sparse_stream h s crc) else s_len s).
Proof.
  intros Hs Hc Hsz. unfold sparse_file_len.
  destruct (count_chunks_spec h s nb Hs Hc) as [-> Hn]. cbn [obind]. rewrite s32_id by lia.
  unfold OF.output_file_open_callback. cbn [negb].
  destruct (run_ok (OF.callback_file_ops out_counter_write) (fun w l => w = s64 (zlen l)) h 0 s nb
    sparse (zlen (file_chunks h s)) crc) as (out & out' & -> & Hw & Hb & Hlen & Hu & Hm & Hcrc & Hr');
    [done|intros; apply _|done|].
  cbn [obind Z.ltb Z.compare]. rewrite Hw. cbn [obind]. destruct sparse.
  - destruct (close_sparse_ok (OF.callback_file_ops out_counter_write) (fun w l => w = s64 (zlen l))
      out' _ Hm Hr') as (w & -> & ->).
    cbn [obind OF.op_close OF.callback_file_ops Z.ltb Z.compare]. unfold OF.callback_file_close.
    f_equal. unfold sparse_stream. rewrite <- app_assoc, Hu, Hb. destruct crc.
    + rewrite Hcrc by done. apply s64_id. pose proof (zlen_nonneg (sparse_stream h s true)). unfold sparse_stream in *. lia.
    + apply s64_id. pose proof (zlen_nonneg (sparse_stream h s false)). unfold sparse_stream in *. lia.
  - unfold OF.output_file_close, OF.write_end_chunk, OF.write_normal_end_chunk. rewrite Hm. cbn.
    rewrite Hr', (zlen_file_image h s nb Hs). destruct Hs as (? & ? & ? & -> & _).
    f_equal. apply s64_id. wrap_pow. nia.
Qed.

Lemma sparse_file_len_correct_witness :
  sparse_file_len ex_host ex_file true (true, true) true true = Ok 132 /\
  sparse_file_len ex_host ex_file true (true, true) false false = Ok 56.
Proof.
  split.
  - rewrite (sparse_file_len_correct ex_host ex_file 7 true true ex_file_ok); [reflexivity|done|done].
  - rewrite (sparse_file_len_correct ex_host ex_file 7 false false ex_file_ok); [reflexivity|done|done].
Defined.

(** ** Writing to a device that is full *)

(** A file every write to which fails with an [errno]. *)
Definition full (f : Posix.file) : Prop := forall p, - 2 ^ 31 <= Posix.f_wlimit f p < 0.

(** An output file over an empty full device, positioned somewhere in it. *)
Definition full_out (s : sparse_file) (out : OF.output_file Posix.file) : Prop :=
  OF.block_size out = s_block_size s /\ OF.len out = s_len s /\
  OF.sparse_ops out = OF.normal_file_ops /\ zlen (OF.fill_buf out) = s_block_size s /\
  full (OF.backend out) /\ Posix.f_data (OF.backend out) = [] /\ 0 <= Posix.f_pos (OF.backend out).

Lemma full_write s out data n :
  full_out s out -> u32 n <= zlen data -> OF.ops_write OF.file_ops out data n = Ok (out, -1).
Proof.
  intros (_ & _ & _ & _ & Hf & _) Hn. unfold OF.ops_write.
  assert (H1 : (zlen data <? u32 n) = false) by lia. rewrite H1.
  cbn [OF.op_write OF.file_ops]. unfold OF.file_write, Posix.write.
  specialize (Hf (Posix.f_pos (OF.backend out))).
  assert (H2 : (Posix.f_wlimit (OF.backend out) (Posix.f_pos (OF.backend out)) <? 0) = true) by lia.
  rewrite H2, s32_id by lia. rewrite H2. by destruct out.
Qed.

Lemma full_skip s out n :
  full_out s out -> 0 <= n ->
  exists out' r, OF.write_skip_chunk OF.file_ops out n = Ok (out', r) /\ full_out s out'.
Proof.
  intros (H1 & H2 & H3 & H4 & H5 & H6 & H7) Hn. unfold OF.write_skip_chunk. rewrite H3.
  unfold OF.write_normal_skip_chunk, OF.ops_skip. cbn [OF.op_skip OF.file_ops].
  unfold OF.file_skip, Posix.lseek64.
  assert (Hp : (Posix.f_pos (OF.backend out) + n <? 0) = false) by lia. rewrite !Hp.
  do 2 eexists. split; [done|]. repeat split; simpl; auto; try apply H5. lia.
Qed.

Lemma full_block h s out bb :
  full_out s out -> 0 < s_block_size s < 2 ^ 31 -> node_ok (s_block_size s) bb ->
  source_ok h (s_block_size s) bb ->
  exists out', sparse_file_write_block OF.file_ops h out bb = Ok out' /\ full_out s out'.
Proof.
  intros Hf Hbs Hn Hs. pose proof (zlen_bb_bytes h _ bb Hs Hn) as Hlen.
  destruct Hs as [Ha Hs]. pose proof Hn as (_ & Hl & _). pose proof Hf as (Hb & _ & Hm & Hfb & _).
  pose proof (DIV_ROUND_UP_bound (len bb) (s_block_size s)). unfold ALIGN, CHUNK_HEADER_LEN in Ha.
  assert (Hdata : forall data, zlen data = len bb ->
    OF.write_data_chunk OF.file_ops out (len bb) data = Ok (out, -1)).
  { intros data Hd. unfold OF.write_data_chunk. rewrite Hm. unfold OF.write_normal_data_chunk.
    assert (Hz : (OF.block_size out =? 0) = false) by lia. rewrite Hz.
    rewrite s32_id by lia. rewrite (full_write s) by (auto; rewrite u32_id; lia). done. }
  unfold sparse_file_write_block, bb_bytes in *. unfold backed_block_type, backed_block_data,
    backed_block_filename, backed_block_fd, backed_block_file_offset, backed_block_fill_val.
  destruct (payload bb) as [p|f nm o|f o|v]; cbn [obind].
  - rewrite Hdata by (by apply Hlen). by exists out.
  - destruct Hs as [Ho Hs]. unfold OF.write_file_chunk.
    assert (H1 : (OF.h_open h nm <? 0) = false) by lia. rewrite H1, write_fd_chunk_data by (auto; lia).
    rewrite Hdata by (by apply Hlen). by exists out.
  - rewrite write_fd_chunk_data by (auto; lia). rewrite Hdata by (by apply Hlen). by exists out.
  - unfold OF.write_fill_chunk. rewrite Hm. unfold OF.write_normal_fill_chunk. rewrite Hb.
    cbn [OF.normal_fill_loop]. assert (H1 : (len bb =? 0) = false) by lia. rewrite H1.
    set (buf := OF.filled _ _ _).
    assert (Hbuf : zlen buf = s_block_size s).
    { unfold buf, OF.filled. rewrite zlen_app.
      change (concat (replicate (Z.to_nat (s_block_size s / 4)) (le_bytes 4 v)))
        with (fill_words (s_block_size s / 4) v).
      assert (Hd4 : 0 <= s_block_size s / 4 /\ 4 * (s_block_size s / 4) <= s_block_size s)
        by (Z.div_mod_to_equations; lia).
      rewrite zlen_fill_words by lia. unfold zlen in *. rewrite length_drop. lia. }
    assert (Hf' : full_out s (OF.set_fill_buf out buf)).
    { destruct Hf as (F1 & F2 & F3 & F4 & F5 & F6 & F7). repeat split; auto; apply F5. }
    rewrite (full_write s); [|done|].
    + cbn [obind Z.ltb Z.compare]. by exists (OF.set_fill_buf out buf).
    + cbn [OF.set_fill_buf OF.fill_buf OF.block_size]. rewrite Hb, Hbuf, s32_id, u32_id by lia. lia.
Qed.

Lemma full_loop h s nb : forall l out last,
  0 < s_block_size s < 2 ^ 31 -> nb < 2 ^ 31 -> 0 <= last -> full_out s out ->
  blocks_ok (s_block_size s) last l nb -> Forall (source_ok h (s_block_size s)) l ->
  exists out' last', write_blocks_loop OF.file_ops h (s_block_size s) l out last = Ok (out', last') /\
    full_out s out' /\ 0 <= last' <= nb.
Proof.
  induction l as [|bb l IH]; intros out last Hbs Hnb Hl Hf Hok Hs.
  - exists out, last. simpl in Hok. split; [done|]. split; [done|lia].
  - destruct Hok as (Hlast & Hn & Hok). apply Forall_cons in Hs as [Hsb Hs].
    pose proof (bb_end_gt (s_block_size s) bb ltac:(lia) Hn) as Hgt.
    assert (Hend : bb_end (s_block_size s) bb <= nb) by (apply (blocks_ok_le (s_block_size s) _ l); [lia|done]).
    assert (Hgap : exists out1,
      (if last <? block bb then
         let! (out', _) :=
           OF.write_skip_chunk OF.file_ops out (s64 (u32 (block bb - last) * s_block_size s)) in Ok out'
       else Ok out) = Ok out1 /\ full_out s out1).
    { destruct (Z.ltb_spec last (block bb)); [|by exists out].
      rewrite u32_id, s64_id by (wrap_pow; nia).
      destruct (full_skip s out ((block bb - last) * s_block_size s)) as (o & r & -> & Ho); [done|nia|].
      by exists o. }
    destruct Hgap as (out1 & Hw1 & Hf1). cbn [write_blocks_loop]. rewrite Hw1. cbn [obind].
    destruct (full_block h s out1 bb) as (out2 & Hw2 & Hf2); auto. rewrite Hw2. cbn [obind].
    assert (Hz : (s_block_size s =? 0) = false) by lia. rewrite Hz.
    destruct Hsb as [Ha _]. unfold CHUNK_HEADER_LEN in Ha. rewrite bb_end_next by (auto; lia).
    apply IH; auto. destruct Hn. lia.
Qed.

(** Errors while writing are not reported. On a device that rejects every
    write, [sparse_file_write] in normal form still returns 0, and leaves a
    file of the right length that holds nothing but zeros. *)
Theorem sparse_file_write_full_device h s nb f :
  sparse_ok h s nb -> countable s -> full f -> Posix.f_data f = [] -> Posix.f_pos f = 0 ->
  exists f', sparse_file_write OF.file_ops h s f f true (true, true) false false = Ok (f', 0) /\
    Posix.f_data f' = zeros (s_len s).
Proof.
  intros Hs Hc Hf Hd Hp. unfold sparse_file_write.
  destruct (count_chunks_spec h s nb Hs Hc) as [-> Hn]. cbn [obind].
  destruct Hs as (Hbs & H4 & Hnb & Hlen & Hok & Hs).
  unfold OF.output_file_open_fd, OF.output_file_init, write_opened, write_all_blocks.
  cbn [negb OF.op_open OF.file_ops OF.file_open fst snd obind Z.ltb Z.compare].
  set (out0 := OF.mk_out _ _ _ _ _ _ _ _ _ _).
  assert (Hf0 : full_out s out0).
  { repeat split; simpl; auto; try apply Hf; try lia. apply zlen_zeros. lia. }
  destruct (full_loop h s nb (data_blocks (s_list s)) out0 0) as (out1 & last & -> & Hf1 & Hl); auto; try lia.
  cbn [obind]. rewrite (s64_id (last * _)), s64_id by (wrap_pow; nia).
  assert (H1 : (s_len s - last * s_block_size s <? 0) = false) by nia. rewrite H1.
  assert (Hfin : exists out2 : OF.output_file Posix.file,
    (if 0 <? s_len s - last * s_block_size s
     then let! (out', _) := OF.write_skip_chunk OF.file_ops out1 (s_len s - last * s_block_size s) in
          Ok (out', 0)
     else Ok (out1, 0)) = Ok (out2, 0) /\ full_out s out2).
  { destruct (0 <? _); [|by exists out1].
    destruct (full_skip s out1 (s_len s - last * s_block_size s)) as (o & r & -> & Ho); [done|nia|].
    by exists o. }
  destruct Hfin as (out2 & -> & (G1 & G2 & G3 & G4 & G5 & G6 & G7)). cbn [obind].
  unfold OF.output_file_close, OF.write_end_chunk, OF.write_normal_end_chunk. rewrite G3, G2.
  cbn [OF.op_pad OF.file_ops]. unfold OF.file_pad, Posix.ftruncate64. rewrite G6.
  assert (H2 : (s_len s <? 0) = false) by nia. rewrite H2. cbn [Z.ltb Z.compare obind].
  eexists. split; [done|]. cbn. rewrite Nat.sub_0_r. unfold zeros. by rewrite take_ge by (by rewrite length_replicate).
Qed.

Lemma sparse_file_write_full_device_witness :
  let f := Posix.mk_file [] 0 (fun _ => 0) (fun _ => -28) in
  exists f', sparse_file_write OF.file_ops ex_host ex_file f f true (true, true) false false = Ok (f', 0) /\
    Posix.f_data f' = zeros 56.
Proof.
  intros f. apply (sparse_file_write_full_device ex_host ex_file 7 f ex_file_ok); done.
Defined.

(** A length that is not a multiple of the block size cannot be written. If
    the blocks reach into the partial last block, the padding computed by
    [write_all_blocks] is negative and the program stops in an assertion, in
    sparse and in normal form. *)
Theorem write_partial_block_asserts h s nb f sparse crc :
  sparse_ok h (mk_sparse_file (s_block_size s) (nb * s_block_size s) (verbose s) (s_list s)) nb ->
  0 < s_len s < nb * s_block_size s -> ends (s_block_size s) 0 (data_blocks (s_list s)) = nb ->
  blank f ->
  sparse_file_write OF.file_ops h s f f true (true, true) sparse crc = AssertFail.
Proof.
  intros (Hbs & H4 & Hnb & Hlen & Hok & Hs) Hl He (Hd & Hp & Hw).
  cbn [s_block_size s_len s_list] in *. unfold sparse_file_write.
  assert (Hch : exists n, sparse_count_chunks s = Ok n).
  { unfold sparse_count_chunks. assert (Hz : (s_block_size s =? 0) = false) by lia. rewrite Hz.
    destruct (count_loop _ _ _ _). destruct (_ <? _); eauto. }
  destruct Hch as (n & ->). cbn [obind]. unfold OF.output_file_open_fd.
  cbn [negb OF.op_open OF.file_ops]. unfold OF.file_open.
  assert (Hr : OF.file_image f []).
  { unfold OF.file_image, Posix.f_size. rewrite Hd, Hp. by split. }
  assert (Hi : exists out d, OF.output_file_init OF.file_ops f (true, true) (s_block_size s) (s_len s)
      sparse (s32 n) crc = Ok (out, 0) /\ good_out OF.file_ops OF.file_image out /\
      OF.block_size out = s_block_size s /\ OF.file_image (OF.backend out) d).
  { unfold OF.output_file_init. cbn [fst snd negb].
    set (out0 := OF.mk_out 0 0 0 _ _ _ _ _ _ _).
    assert (Hg : good_out OF.file_ops OF.file_image out0).
    { split; [done|]. split; [done|]. split; [done|]. split; [apply zlen_zeros; simpl; lia|].
      intros; apply _. }
    destruct sparse; [|by exists out0, []].
    assert (Hz : (s_block_size s =? 0) = false) by lia. rewrite Hz.
    destruct (OF.ops_write_all OF.file_ops OF.file_image out0 []
      (sparse_header_bytes (OF.init_header (s_block_size s) (s_len s) (s32 n) crc)) SPARSE_HEADER_LEN)
      as (w' & ret & Hw' & Hret & Hr'); [done|by rewrite sparse_header_bytes_len|done|].
    rewrite Hw'. cbn [obind]. rewrite Hret. eexists (OF.set_backend out0 w'), _. split; [done|].
    split; [exact Hg|]. split; [done|exact Hr']. }
  destruct Hi as (out & d & -> & Hg & Hb & Hrd). cbn [obind Z.ltb Z.compare]. unfold write_opened.
  cbn [obind]. unfold write_all_blocks.
  destruct (write_loop_steps OF.file_ops OF.file_image h (s_block_size s) (data_blocks (s_list s)) out d
    0 nb 0) as (out1 & last & cs & -> & _ & _ & Hlast & ->); auto; try lia.
  cbn [obind]. rewrite He. rewrite (s64_id (nb * _)), s64_id by (wrap_pow; nia).
  assert (H1 : (s_len s - nb * s_block_size s <? 0) = true) by lia. by rewrite H1.
Qed.

Lemma write_partial_block_asserts_witness :
  sparse_file_write OF.file_ops ex_host
    (mk_sparse_file 8 53 false (s_list ex_file)) (Posix.plain_file []) (Posix.plain_file [])
    true (true, true) true false = AssertFail.
Proof.
  apply (write_partial_block_asserts ex_host (mk_sparse_file 8 53 false (s_list ex_file)) 7);
    [exact ex_file_ok|done|reflexivity|by repeat split].
Defined.

End SparseFile.
