(* ===== verification/SparseRead.v ===== *)
(** * libsparse/sparse_read.c

    Reading a file, sparse or normal, into the block list of a sparse file.
    [fd] is the number the blocks refer to, the [Posix.file] its open file
    description. The checksum is [None] when the caller passes a null
    [crc_ptr]. *)

From S2P Require Import Prelude Crc32 Posix SparseFormat BackedBlock OutputFile SparseFile.

Module SparseRead.
Import SparseFormat BackedBlock SparseFile.
Module OF := OutputFile.

Definition EINVAL : Z := 22.
Definition ENOMEM : Z := 12.
Definition SPARSE_HEADER_MAJOR_VER : Z := 1.
Definition COPY_BUF_SIZE : Z := 1048576.

(** ** Chunks *)

(** The checksum loop of a raw chunk: reads [n] bytes through [copybuf]. *)
Fixpoint raw_crc_loop (fuel : nat) (f : Posix.file) (n crc : Z) : outcome (Posix.file * Z * Z) :=
  match fuel with
  | O => NoFuel
  | S fuel' =>
    if n =? 0 then Ok (f, crc, 0)
    else
      let chunk := Z.min n COPY_BUF_SIZE in
      let! (f, ret, bs) := OF.read_all f chunk in
      if ret <? 0 then Ok (f, crc, ret)
      else raw_crc_loop fuel' f (n - chunk) (Crc32.sparse_crc32 crc bs)
  end.

(** Rounds of a loop over [n] bytes in steps of [COPY_BUF_SIZE]. *)
Definition copy_rounds (n : Z) : nat := S (Z.to_nat (DIV_ROUND_UP n COPY_BUF_SIZE)).

(** The checksum loop of fill and skip chunks over a prepared [copybuf]. *)
Fixpoint buf_crc_loop (fuel : nat) (copybuf : list Z) (n crc : Z) : outcome Z :=
  match fuel with
  | O => NoFuel
  | S fuel' =>
    if n =? 0 then Ok crc
    else
      let chunk := Z.min n COPY_BUF_SIZE in
      buf_crc_loop fuel' copybuf (n - chunk)
        (Crc32.sparse_crc32 crc (take (Z.to_nat chunk) copybuf))
  end.

(** What a chunk function leaves: the sparse file, the input, the checksum and
    the return value. *)
Definition read_state : Type := sparse_file * Posix.file * option Z * Z.

Definition process_raw_chunk (s : sparse_file) (alloc : option Z) (chunk_size fd : Z)
    (f : Posix.file) (offset blocks block : Z) (crc : option Z) : outcome read_state :=
  let n := u32 (blocks * s_block_size s) in
  if s_block_size s =? 0 then Undef
  else if negb (chunk_size mod s_block_size s =? 0) then Ok (s, f, crc, - EINVAL)
  else if negb (chunk_size / s_block_size s =? blocks) then Ok (s, f, crc, - EINVAL)
  else
    let! (ret, s) := sparse_file_add_fd s alloc fd offset n block in
    if ret <? 0 then Ok (s, f, crc, ret)
    else
      match crc with
      | Some c =>
        let! (f, c, ret) := raw_crc_loop (copy_rounds n) f n c in
        if ret <? 0 then Ok (s, f, Some c, ret) else Ok (s, f, Some c, 0)
      | None => let '(f, _) := Posix.lseek64 f n Posix.SEEK_CUR in Ok (s, f, None, 0)
      end.

Definition process_fill_chunk (s : sparse_file) (alloc : option Z) (chunk_size : Z)
    (f : Posix.file) (blocks block : Z) (crc : option Z) : outcome read_state :=
  let n := s64 (blocks * s_block_size s) in
  if negb (chunk_size =? 4) then Ok (s, f, crc, - EINVAL)
  else
    let! (f, ret, bs) := OF.read_all f 4 in
    if ret <? 0 then Ok (s, f, crc, ret)
    else
      let fill_val := le_val bs in
      let! (ret, s) := sparse_file_add_fill s alloc fill_val (u32 n) block in
      if ret <? 0 then Ok (s, f, crc, ret)
      else
        match crc with
        | Some c =>
          let! c := buf_crc_loop (copy_rounds n) (fill_words (COPY_BUF_SIZE / 4) fill_val) n c in
          Ok (s, f, Some c, 0)
        | None => Ok (s, f, None, 0)
        end.

Definition process_skip_chunk (s : sparse_file) (chunk_size : Z) (f : Posix.file)
    (blocks block : Z) (crc : option Z) : outcome read_state :=
  let n := s64 (blocks * s_block_size s) in
  if negb (chunk_size =? 0) then Ok (s, f, crc, - EINVAL)
  else
    match crc with
    | Some c =>
      let! c := buf_crc_loop (copy_rounds n) (zeros COPY_BUF_SIZE) n c in
      Ok (s, f, Some c, 0)
    | None => Ok (s, f, None, 0)
    end.

Definition process_crc32_chunk (f : Posix.file) (chunk_size crc32 : Z) : outcome (Posix.file * Z) :=
  if negb (chunk_size =? 4) then Ok (f, - EINVAL)
  else
    let! (f, ret, bs) := OF.read_all f 4 in
    if ret <? 0 then Ok (f, ret)
    else if negb (le_val bs =? crc32) then Ok (f, - EINVAL)
    else Ok (f, 0).

(** An unknown chunk counts as 0 blocks and its data is not skipped; the
    result is an [int], whatever [chunk_sz] is. *)
Definition process_chunk (s : sparse_file) (alloc : option Z) (fd : Z) (f : Posix.file)
    (offset chunk_hdr_sz : Z) (ch : chunk_header) (cur_block : Z) (crc : option Z)
  : outcome read_state :=
  let chunk_data_size := u32 (total_sz ch - chunk_hdr_sz) in
  if chunk_type ch =? CHUNK_TYPE_RAW then
    let! (s, f, crc, ret) :=
      process_raw_chunk s alloc chunk_data_size fd f offset (chunk_sz ch) cur_block crc in
    if ret <? 0 then Ok (s, f, crc, ret) else Ok (s, f, crc, s32 (chunk_sz ch))
  else if chunk_type ch =? CHUNK_TYPE_FILL then
    let! (s, f, crc, ret) :=
      process_fill_chunk s alloc chunk_data_size f (chunk_sz ch) cur_block crc in
    if ret <? 0 then Ok (s, f, crc, ret) else Ok (s, f, crc, s32 (chunk_sz ch))
  else if chunk_type ch =? CHUNK_TYPE_DONT_CARE then
    let! (s, f, crc, ret) :=
      process_skip_chunk s chunk_data_size f (chunk_sz ch) cur_block crc in
    if negb (chunk_data_size =? 0) && (ret <? 0) then Ok (s, f, crc, ret)
    else Ok (s, f, crc, s32 (chunk_sz ch))
  else if chunk_type ch =? CHUNK_TYPE_CRC32 then
    let! c := oof crc in
    let! (f, ret) := process_crc32_chunk f chunk_data_size c in
    if ret <? 0 then Ok (s, f, crc, ret) else Ok (s, f, crc, 0)
  else Ok (s, f, crc, 0).

(** ** Sparse input *)

(** The loop over the chunks, from chunk [i]; [al i] is what [calloc] returns
    for the block of chunk [i]. The result holds [cur_block] where the loop
    ends normally. *)
Fixpoint chunks_loop (n : nat) (i : Z) (al : Z -> option Z) (fd chunk_hdr_sz : Z) (s : sparse_file)
    (f : Posix.file) (cur_block : Z) (crc : option Z) : outcome (read_state * Z) :=
  match n with
  | O => Ok (s, f, crc, 0, cur_block)
  | S n' =>
    let! (f, ret, bs) := OF.read_all f CHUNK_HEADER_LEN in
    if ret <? 0 then Ok (s, f, crc, ret, cur_block)
    else
      let f := if CHUNK_HEADER_LEN <? chunk_hdr_sz
               then fst (Posix.lseek64 f (chunk_hdr_sz - CHUNK_HEADER_LEN) Posix.SEEK_CUR) else f in
      let '(f, offset) := Posix.lseek64 f 0 Posix.SEEK_CUR in
      let! (s, f, crc, ret) :=
        process_chunk s (al i) fd f offset chunk_hdr_sz (chunk_header_of_bytes bs) cur_block crc in
      if ret <? 0 then Ok (s, f, crc, ret, cur_block)
      else chunks_loop n' (i + 1) al fd chunk_hdr_sz s f (u32 (cur_block + ret)) crc
  end.

(** [copybuf] says whether the copy buffer is there. *)
Definition sparse_file_read_sparse (copybuf : bool) (al : Z -> option Z) (s : sparse_file) (fd : Z)
    (f : Posix.file) (crc : bool) : outcome (sparse_file * Posix.file * Z) :=
  if negb copybuf then Ok (s, f, - ENOMEM)
  else
    let! (f, ret, bs) := OF.read_all f SPARSE_HEADER_LEN in
    if ret <? 0 then Ok (s, f, ret)
    else
      let h := sparse_header_of_bytes bs in
      if negb (magic h =? SPARSE_HEADER_MAGIC) then Ok (s, f, - EINVAL)
      else if negb (major_version h =? SPARSE_HEADER_MAJOR_VER) then Ok (s, f, - EINVAL)
      else if file_hdr_sz h <? SPARSE_HEADER_LEN then Ok (s, f, - EINVAL)
      else if chunk_hdr_sz h <? CHUNK_HEADER_LEN then Ok (s, f, - EINVAL)
      else
        let f := if SPARSE_HEADER_LEN <? file_hdr_sz h
                 then fst (Posix.lseek64 f (file_hdr_sz h - SPARSE_HEADER_LEN) Posix.SEEK_CUR) else f in
        let! (s, f, _, ret, cur_block) :=
          chunks_loop (Z.to_nat (total_chunks h)) 0 al fd (chunk_hdr_sz h) s f 0
            (if crc then Some 0 else None) in
        if ret <? 0 then Ok (s, f, ret)
        else if negb (total_blks h =? cur_block) then Ok (s, f, - EINVAL)
        else Ok (s, f, 0).

(** ** Normal input *)

Definition word (buf : list Z) (i : Z) : Z := field buf (4 * i) 4.

(** All words of the block are equal to the first one. *)
Definition uniform (bs : Z) (buf : list Z) : bool :=
  forallb (fun i => word buf 0 =? word buf i) (seqZ 1 (bs / 4 - 1)).

(** The results of the [sparse_file_add_*] calls are dropped. A block of less
    than four bytes has no first word to read. *)
Fixpoint normal_loop (fuel : nat) (al : Z -> option Z) (s : sparse_file) (fd : Z) (f : Posix.file)
    (remain offset block : Z) : outcome (sparse_file * Posix.file * Z) :=
  match fuel with
  | O => NoFuel
  | S fuel' =>
    if 0 <? remain then
      let to_read := Z.min remain (s_block_size s) in
      let! (f, ret, buf) := OF.read_all f to_read in
      if ret <? 0 then Ok (s, f, ret)
      else
        let sparse_block := (to_read =? s_block_size s) && uniform (s_block_size s) buf in
        let! (_, s) :=
          if sparse_block then
            if s_block_size s <? 4 then Undef
            else sparse_file_add_fill s (al block) (word buf 0) to_read block
          else sparse_file_add_fd s (al block) fd offset to_read block in
        normal_loop fuel' al s fd f (remain - to_read) (offset + to_read) (u32 (block + 1))
    else Ok (s, f, 0)
  end.

Definition sparse_file_read_normal (buf : bool) (al : Z -> option Z) (s : sparse_file) (fd : Z)
    (f : Posix.file) : outcome (sparse_file * Posix.file * Z) :=
  if negb buf then Ok (s, f, - ENOMEM)
  else normal_loop (S (Z.to_nat (DIV_ROUND_UP (s_len s) (s_block_size s)))) al s fd f (s_len s) 0 0.

(** ** Entry points *)

Definition sparse_file_read (bufs : bool) (al : Z -> option Z) (s : sparse_file) (fd : Z)
    (f : Posix.file) (sparse crc : bool) : outcome (sparse_file * Posix.file * Z) :=
  if crc && negb sparse then Ok (s, f, - EINVAL)
  else if sparse then sparse_file_read_sparse bufs al s fd f crc
  else sparse_file_read_normal bufs al s fd f.

(** [None] is a NULL result. *)
Definition sparse_file_import (allocs : bool * bool) (copybuf : bool) (al : Z -> option Z)
    (fd : Z) (f : Posix.file) (verbose crc : bool) : outcome (option sparse_file * Posix.file) :=
  let! (f, ret, bs) := OF.read_all f SPARSE_HEADER_LEN in
  if ret <? 0 then Ok (None, f)
  else
    let h := sparse_header_of_bytes bs in
    if negb (magic h =? SPARSE_HEADER_MAGIC) then Ok (None, f)
    else if negb (major_version h =? SPARSE_HEADER_MAJOR_VER) then Ok (None, f)
    else if file_hdr_sz h <? SPARSE_HEADER_LEN then Ok (None, f)
    else if chunk_hdr_sz h <? CHUNK_HEADER_LEN then Ok (None, f)
    else
      let len := s64 (total_blks h * blk_sz h) in
      match sparse_file_new allocs (blk_sz h) len with
      | None => Ok (None, f)
      | Some s =>
        let '(f, ret) := Posix.lseek64 f 0 Posix.SEEK_SET in
        if s32 ret <? 0 then Ok (None, f)
        else
          let s := mk_sparse_file (s_block_size s) (s_len s) verbose (s_list s) in
          let! (s, f, ret) := sparse_file_read copybuf al s fd f true crc in
          if ret <? 0 then Ok (None, f) else Ok (Some s, f)
      end.

Definition sparse_file_import_auto (allocs allocs2 : bool * bool) (copybuf : bool)
    (al al2 : Z -> option Z) (fd : Z) (f : Posix.file) (crc : bool)
  : outcome (option sparse_file * Posix.file) :=
  let! (o, f) := sparse_file_import allocs copybuf al fd f true crc in
  match o with
  | Some s => Ok (Some s, f)
  | None =>
    let '(f, len) := Posix.lseek64 f 0 Posix.SEEK_END in
    if len <? 0 then Ok (None, f)
    else
      let '(f, _) := Posix.lseek64 f 0 Posix.SEEK_SET in
      match sparse_file_new allocs2 4096 len with
      | None => Ok (None, f)
      | Some s =>
        let! (s, f, ret) := sparse_file_read_normal copybuf al2 s fd f in
        if ret <? 0 then Ok (None, f) else Ok (Some s, f)
      end
  end.

(** ** Lemmas: the checksum loops *)

Lemma copy_rounds_step n fuel :
  0 < n -> DIV_ROUND_UP n COPY_BUF_SIZE < Z.of_nat (S fuel) ->
  DIV_ROUND_UP (n - Z.min n COPY_BUF_SIZE) COPY_BUF_SIZE < Z.of_nat fuel.
Proof.
  intros Hn Hf. pose proof (DIV_ROUND_UP_bound n COPY_BUF_SIZE ltac:(done)).
  pose proof (DIV_ROUND_UP_bound (n - Z.min n COPY_BUF_SIZE) COPY_BUF_SIZE ltac:(done)).
  unfold COPY_BUF_SIZE in *. lia.
Qed.

Lemma raw_crc_loop_spec f : forall fuel p n c,
  OF.readable f -> 0 <= p -> 0 <= n -> p + n <= Posix.f_size f ->
  DIV_ROUND_UP n COPY_BUF_SIZE < Z.of_nat fuel ->
  raw_crc_loop fuel (Posix.set_pos f p) n c =
    Ok (Posix.set_pos f (p + n), Crc32.sparse_crc32 c (sub_bytes (Posix.f_data f) p n), 0).
Proof.
  induction fuel as [|fuel IH]; intros p n c Hr Hp Hn Hs Hf.
  - pose proof (DIV_ROUND_UP_nonneg n COPY_BUF_SIZE ltac:(done) Hn). lia.
  - cbn [raw_crc_loop]. destruct (Z.eqb_spec n 0) as [->|E].
    + rewrite Z.add_0_r. unfold sub_bytes. simpl take. by rewrite Crc32.sparse_crc32_nil.
    + set (k := Z.min n COPY_BUF_SIZE).
      assert (Hk : 0 < k <= n) by (unfold k, COPY_BUF_SIZE; lia).
      rewrite OF.read_all_inside; [|done|done|lia|].
      * cbn [obind Z.ltb Z.compare Posix.f_pos Posix.set_pos Posix.f_data].
        change (Posix.set_pos (Posix.set_pos f p) (p + k)) with (Posix.set_pos f (p + k)).
        rewrite IH; [|done|lia|lia|lia|apply copy_rounds_step; lia].
        rewrite <- Crc32.sparse_crc32_app. rewrite take_sub_app by lia.
        by replace (p + k + (n - k)) with (p + n) by lia; replace (k + (n - k)) with n by lia.
      * change (p + k <= Posix.f_size f). lia.
Qed.

Lemma copy_rounds_enough n : 0 <= n -> DIV_ROUND_UP n COPY_BUF_SIZE < Z.of_nat (copy_rounds n).
Proof.
  intros. pose proof (DIV_ROUND_UP_nonneg n COPY_BUF_SIZE ltac:(done)). unfold copy_rounds. lia.
Qed.

Lemma buf_crc_loop_spec v : forall fuel n c,
  0 <= n -> n mod 4 = 0 -> DIV_ROUND_UP n COPY_BUF_SIZE < Z.of_nat fuel ->
  buf_crc_loop fuel (fill_words (COPY_BUF_SIZE / 4) v) n c =
    Ok (Crc32.sparse_crc32 c (fill_words (n / 4) v)).
Proof.
  induction fuel as [|fuel IH]; intros n c Hn H4 Hf.
  - pose proof (DIV_ROUND_UP_nonneg n COPY_BUF_SIZE ltac:(done) Hn). lia.
  - cbn [buf_crc_loop]. destruct (Z.eqb_spec n 0) as [->|E].
    + change (fill_words (0 / 4) v) with (@nil Z). by rewrite Crc32.sparse_crc32_nil.
    + set (k := Z.min n COPY_BUF_SIZE).
      assert (Hk : 0 < k <= n /\ k mod 4 = 0 /\ k <= COPY_BUF_SIZE).
      { unfold k, COPY_BUF_SIZE. Z.div_mod_to_equations. lia. }
      destruct Hk as (Hk1 & Hk2 & Hk3).
      assert (Hk4 : k = 4 * (k / 4)) by (Z.div_mod_to_equations; lia).
      assert (Ht : take (Z.to_nat k) (fill_words (COPY_BUF_SIZE / 4) v) = fill_words (k / 4) v).
      { rewrite Hk4 at 1. apply take_fill_words. unfold COPY_BUF_SIZE in *.
        clear -Hk1 Hk3. Z.div_mod_to_equations. lia. }
      rewrite IH, Ht; [|lia|Z.div_mod_to_equations; lia|apply copy_rounds_step; lia].
      rewrite <- Crc32.sparse_crc32_app, <- fill_words_add by (Z.div_mod_to_equations; lia).
      do 3 f_equal. Z.div_mod_to_equations. lia.
Qed.

(** The checksum of a chunk as the reader computes it. *)
Definition crc_read (bs : Z) (c : chunk) (crc : option Z) : option Z :=
  (fun x => Crc32.sparse_crc32 x (chunk_image bs c)) <$> crc.

(** ** Lemmas: one chunk *)

(** A chunk the reader accepts. *)
Definition chunk_ok (bs : Z) (c : chunk) : Prop :=
  match c with
  | Raw d => 0 < zlen d < 2 ^ 32 - CHUNK_HEADER_LEN /\ zlen d mod bs = 0
  | Fill k v => 0 < k < 2 ^ 31 /\ k * bs < 2 ^ 32 /\ 0 <= v < 2 ^ 32
  | Skip k => 0 < k < 2 ^ 31
  | Crc c => 0 <= c < 2 ^ 32
  end.

(** The block the reader adds for a chunk whose data is at [off]. *)
Definition chunk_node (bs fd addr off b : Z) (c : chunk) : list backed_block :=
  match c with
  | Raw d => [mk_bb addr b (zlen d) (bb_fd fd off)]
  | Fill k v => [mk_bb addr b (k * bs) (bb_fill v)]
  | _ => []
  end.

(** [s] is a sparse file whose blocks lie below block [b]. *)
Definition rd_ok (s : sparse_file) (b : Z) : Prop :=
  0 < s_block_size s < 2 ^ 31 /\ s_block_size s mod 4 = 0 /\
  block_size (s_list s) = s_block_size s /\
  blocks_ok (s_block_size s) 0 (data_blocks (s_list s)) b /\ last_used_live (s_list s).

(** [s'] is [s] with the nodes [ns] behind its list. *)
Definition extended (s s' : sparse_file) (ns : list backed_block) : Prop :=
  s_block_size s' = s_block_size s /\ s_len s' = s_len s /\ verbose s' = verbose s /\
  data_blocks (s_list s') = data_blocks (s_list s) ++ ns.

Definition fits (s : sparse_file) (ns : list backed_block) : Prop :=
  Forall (fun n => node_ok (s_block_size s) n /\
    ~ In (bb_addr n) (map bb_addr (data_blocks (s_list s))) /\
    (forall a, last (data_blocks (s_list s)) = Some a -> no_merge (s_block_size s) a n)) ns.

Lemma queue_read s b n :
  rd_ok s b -> block n = b -> fits s [n] ->
  exists s', with_list s (queue_bb (s_list s) n) = Ok (0, s') /\ extended s s' [n] /\
    rd_ok s' (bb_end (s_block_size s) n).
Proof.
  intros (Hbs & H4 & Hsz & Hok & Hlive) Hb Hf. apply Forall_singleton in Hf as (Hn & Hfresh & Hno).
  destruct (queue_bb_append (s_list s) n) as (lu & Hq & Hlu); rewrite ?Hsz in *; auto; [lia|by rewrite Hb|].
  unfold with_list. rewrite Hq. cbn [obind]. eexists. split; [done|]. split; [done|].
  repeat split; simpl; auto; try lia.
  - apply blocks_ok_app. exists b. split; [done|]. simpl. rewrite Hb. repeat split; try apply Hn; lia.
  - unfold last_used_live in *. simpl. rewrite map_app. destruct Hlu as [-> | ->].
    + destruct (last_used (s_list s)); [|done]. apply in_or_app. by left.
    + apply in_or_app. right. by left.
Qed.

Lemma rd_ok_mono s b b' : rd_ok s b -> b <= b' -> rd_ok s b'.
Proof.
  intros (H1 & H2 & H3 & H4 & H5) Hb. repeat split; auto; try lia. by eapply blocks_ok_weaken; eauto; lia.
Qed.

Lemma process_raw_ok s addr fd f off b crc d :
  rd_ok s b -> chunk_ok (s_block_size s) (Raw d) -> OF.readable f -> Posix.f_pos f = off -> 0 <= off ->
  off + zlen d <= Posix.f_size f -> sub_bytes (Posix.f_data f) off (zlen d) = d ->
  fits s (chunk_node (s_block_size s) fd addr off b (Raw d)) ->
  exists s', process_raw_chunk s (Some addr) (zlen d) fd f off (zlen d / s_block_size s) b crc =
      Ok (s', Posix.set_pos f (off + zlen d), crc_read (s_block_size s) (Raw d) crc, 0) /\
    extended s s' (chunk_node (s_block_size s) fd addr off b (Raw d)) /\
    rd_ok s' (b + zlen d / s_block_size s).
Proof.
  intros Hrd [Hlen Hmod] Hr Hp Ho Hs Hd Hf. pose proof Hrd as (Hbs & _). unfold CHUNK_HEADER_LEN in Hlen.
  assert (Hk : zlen d = zlen d / s_block_size s * s_block_size s).
  { pose proof (Z.div_mod (zlen d) (s_block_size s)). lia. }
  unfold process_raw_chunk. assert (Hz : (s_block_size s =? 0) = false) by lia. rewrite Hz.
  rewrite <- Hk, Hmod, !Z.eqb_refl, u32_id by lia. cbn [negb].
  destruct (queue_read s b (mk_bb addr b (zlen d) (bb_fd fd off))) as (s' & Hq & Hext & Hrd'); auto.
  unfold sparse_file_add_fd, backed_block_add_fd. rewrite Hq. cbn [obind Z.ltb Z.compare].
  assert (Hend : bb_end (s_block_size s) (mk_bb addr b (zlen d) (bb_fd fd off)) =
                 b + zlen d / s_block_size s).
  { unfold bb_end. simpl. rewrite Hk at 1. by rewrite DIV_ROUND_UP_mul by lia. }
  rewrite Hend in Hrd'. exists s'. split; [|done].
  assert (Hfp : f = Posix.set_pos f off) by (destruct f; simpl in *; by subst).
  destruct crc as [c|]; cbn [crc_read fmap option_fmap option_map chunk_image].
  - replace (raw_crc_loop (copy_rounds (zlen d)) f (zlen d) c) with
      (raw_crc_loop (copy_rounds (zlen d)) (Posix.set_pos f off) (zlen d) c) by (by rewrite <- Hfp).
    rewrite raw_crc_loop_spec; auto; [|lia|apply copy_rounds_enough; lia].
    rewrite Hd. cbn [obind Z.ltb Z.compare]. done.
  - unfold Posix.lseek64. rewrite Hp.
    assert (H1 : (off + zlen d <? 0) = false) by lia. by rewrite H1.
Qed.

Lemma process_fill_ok s addr fd f off b crc k v :
  rd_ok s b -> chunk_ok (s_block_size s) (Fill k v) -> OF.readable f -> Posix.f_pos f = off -> 0 <= off ->
  off + 4 <= Posix.f_size f -> sub_bytes (Posix.f_data f) off 4 = le_bytes 4 v ->
  fits s (chunk_node (s_block_size s) fd addr off b (Fill k v)) ->
  exists s', process_fill_chunk s (Some addr) 4 f k b crc =
      Ok (s', Posix.set_pos f (off + 4), crc_read (s_block_size s) (Fill k v) crc, 0) /\
    extended s s' (chunk_node (s_block_size s) fd addr off b (Fill k v)) /\ rd_ok s' (b + k).
Proof.
  intros Hrd (Hk & Hlen & Hv) Hr Hp Ho Hs Hd Hf. pose proof Hrd as (Hbs & H4 & _).
  unfold process_fill_chunk. cbn [negb Z.eqb Pos.eqb].
  assert (Hfp : f = Posix.set_pos f off) by (destruct f; simpl in *; by subst).
  rewrite OF.read_all_inside; [|done|lia|lia|rewrite Hp; lia]. rewrite Hp, Hd. cbn [obind Z.ltb Z.compare].
  rewrite le_val_bytes_id by done. rewrite s64_id, u32_id by (wrap_pow; nia).
  destruct (queue_read s b (mk_bb addr b (k * s_block_size s) (bb_fill v))) as (s' & Hq & Hext & Hrd'); auto.
  unfold sparse_file_add_fill, backed_block_add_fill. rewrite Hq. cbn [obind Z.ltb Z.compare].
  assert (Hend : bb_end (s_block_size s) (mk_bb addr b (k * s_block_size s) (bb_fill v)) = b + k).
  { unfold bb_end. simpl. by rewrite DIV_ROUND_UP_mul by lia. }
  rewrite Hend in Hrd'. exists s'. split; [|done].
  destruct crc as [c|]; cbn [crc_read fmap option_fmap option_map chunk_image]; [|done].
  rewrite buf_crc_loop_spec; [done|nia| |apply copy_rounds_enough; nia].
  apply Z.mod_divide in H4 as [q Hq4]; [|lia]. rewrite Hq4, Z.mul_assoc. apply Z.mod_mul. lia.
Qed.

Lemma process_skip_ok s f b crc k :
  rd_ok s b -> 0 < k < 2 ^ 31 ->
  process_skip_chunk s 0 f k b crc = Ok (s, f, crc_read (s_block_size s) (Skip k) crc, 0).
Proof.
  intros (Hbs & H4 & _) Hk. unfold process_skip_chunk. cbn [negb Z.eqb].
  rewrite s64_id by (wrap_pow; nia).
  destruct crc as [c|]; cbn [crc_read fmap option_fmap option_map chunk_image]; [|done].
  assert (Hm : (k * s_block_size s) mod 4 = 0).
  { apply Z.mod_divide in H4 as [q Hq4]; [|lia]. rewrite Hq4, Z.mul_assoc. apply Z.mod_mul. lia. }
  assert (Hz : zeros COPY_BUF_SIZE = fill_words (COPY_BUF_SIZE / 4) 0)
    by (rewrite <- zeros_fill_words by done; reflexivity).
  rewrite Hz, buf_crc_loop_spec by (auto; try apply copy_rounds_enough; nia). cbn [obind].
  rewrite <- zeros_fill_words by (apply Z.div_pos; nia).
  do 5 f_equal. apply Z.mod_divide in Hm; [|lia]. rewrite <- Z.divide_div_mul_exact by (auto; lia).
  by rewrite (Z.mul_comm 4), Z.div_mul by lia.
Qed.

Lemma process_chunk_ok s addr fd f off b crc c :
  let bs := s_block_size s in
  rd_ok s b -> chunk_ok bs c -> (forall x, c <> Crc x) -> OF.readable f -> Posix.f_pos f = off -> 0 <= off ->
  off + zlen (chunk_body c) <= Posix.f_size f ->
  sub_bytes (Posix.f_data f) off (zlen (chunk_body c)) = chunk_body c ->
  fits s (chunk_node bs fd addr off b c) ->
  exists s', process_chunk s (Some addr) fd f off CHUNK_HEADER_LEN (chunk_hdr bs c) b crc =
      Ok (s', Posix.set_pos f (off + zlen (chunk_body c)), crc_read bs c crc, chunk_blocks bs c) /\
    extended s s' (chunk_node bs fd addr off b c) /\ rd_ok s' (b + chunk_blocks bs c).
Proof.
  intros bs Hrd Hc Hcrc Hr Hp Ho Hs Hd Hf. subst bs. pose proof Hrd as (Hbs & _).
  unfold process_chunk. destruct c as [d|k v|k|x]; [| | |by destruct (Hcrc x)];
    cbn [chunk_hdr chunk_type total_sz chunk_sz chunk_body chunk_blocks] in *.
  - change (CHUNK_TYPE_RAW =? CHUNK_TYPE_RAW) with true. cbv iota.
    destruct (process_raw_ok s addr fd f off b crc d) as (s' & Hpr & Hext & Hrd'); auto.
    destruct Hc as [Hl Hm]. unfold CHUNK_HEADER_LEN in *.
    replace (12 + zlen d - 12) with (zlen d) by lia. rewrite u32_id by lia. rewrite Hpr.
    cbn [obind Z.ltb Z.compare]. exists s'. split; [|done]. do 2 f_equal. apply s32_id.
    split; [transitivity 0; [done|apply Z.div_pos; lia]|]. apply Z.div_lt_upper_bound; [lia|].
    assert (4 <= s_block_size s).
    { destruct Hrd as (_ & H4 & _). Z.div_mod_to_equations. lia. }
    wrap_pow. nia.
  - change (CHUNK_TYPE_FILL =? CHUNK_TYPE_RAW) with false.
    change (CHUNK_TYPE_FILL =? CHUNK_TYPE_FILL) with true. cbv iota.
    rewrite zlen_le_bytes in *. change (Z.of_nat 4) with 4 in *.
    destruct (process_fill_ok s addr fd f off b crc k v) as (s' & Hpr & Hext & Hrd'); auto.
    change (u32 (CHUNK_HEADER_LEN + 4 - CHUNK_HEADER_LEN)) with 4. rewrite Hpr.
    cbn [obind Z.ltb Z.compare]. exists s'. destruct Hc as (Hk & _). split; [|done].
    rewrite s32_id by lia. done.
  - change (CHUNK_TYPE_DONT_CARE =? CHUNK_TYPE_RAW) with false.
    change (CHUNK_TYPE_DONT_CARE =? CHUNK_TYPE_FILL) with false.
    change (CHUNK_TYPE_DONT_CARE =? CHUNK_TYPE_DONT_CARE) with true. cbv iota.
    change (u32 (CHUNK_HEADER_LEN - CHUNK_HEADER_LEN)) with 0.
    rewrite process_skip_ok by done. cbn [obind Z.eqb negb andb]. exists s.
    change (zlen (@nil Z)) with 0. rewrite Z.add_0_r, s32_id by (simpl in Hc; lia).
    split; [|split].
    + unfold chunk_blocks. simpl. destruct f; simpl in *; by subst.
    + unfold extended. simpl. by rewrite app_nil_r.
    + eapply rd_ok_mono; [done|]. simpl in Hc. unfold chunk_blocks. simpl. lia.
Qed.

(** ** Lemmas: all chunks *)

(** The blocks the reader adds for the chunks [cs], the first of which is
    chunk [i], at byte [off] of the input, for device block [b]. *)
Fixpoint nodes_of (bs fd : Z) (al : Z -> Z) (i off b : Z) (cs : list chunk) : list backed_block :=
  match cs with
  | [] => []
  | c :: cs' =>
    chunk_node bs fd (al i) (off + CHUNK_HEADER_LEN) b c ++
    nodes_of bs fd al (i + 1) (off + zlen (chunk_bytes bs c)) (b + chunk_blocks bs c) cs'
  end.

Definition blocks_sum (bs : Z) (cs : list chunk) : Z := foldr (fun c n => chunk_blocks bs c + n) 0 cs.

(** No fill chunk directly follows one of the same value ([prev] is the value
    of the chunk before). *)
Fixpoint fills_distinct (prev : option Z) (cs : list chunk) : Prop :=
  match cs with
  | [] => True
  | Fill _ v :: cs' => prev <> Some v /\ fills_distinct (Some v) cs'
  | _ :: cs' => fills_distinct None cs'
  end.

Definition is_data (c : chunk) : Prop := match c with Crc _ => False | _ => True end.

(** What is known of the last block: it lies below [b] and its data below
    byte [off]; if it is a fill block that reaches [b], then [prev] is its
    value. *)
Definition last_inv (s : sparse_file) (b off : Z) (prev : option Z) : Prop :=
  forall a, last (data_blocks (s_list s)) = Some a ->
    bb_end (s_block_size s) a <= b /\
    match payload a with
    | bb_fd _ o => 0 <= o /\ 0 <= len a /\ o + len a <= off
    | bb_fill v => bb_end (s_block_size s) a < b \/ prev = Some v
    | _ => True
    end.

Definition addr_inv (s : sparse_file) (al : Z -> Z) (i : Z) : Prop :=
  Forall (fun a => exists j, j < i /\ bb_addr a = al j) (data_blocks (s_list s)).

Lemma chunk_hdr_ok bs c : 0 < bs -> chunk_ok bs c -> chunk_header_ok (chunk_hdr bs c).
Proof.
  intros Hbs Hc. unfold chunk_header_ok, u16_ok, u32_ok. destruct c as [d|k v|k|x]; simpl in Hc;
    cbn [chunk_hdr chunk_type reserved1 chunk_sz total_sz]; unfold CHUNK_HEADER_LEN in *.
  - destruct Hc as [Hl _]. assert (0 <= zlen d / bs <= zlen d).
    { split; [apply Z.div_pos; lia|]. apply Z.div_le_upper_bound; nia. }
    repeat split; try done; lia.
  - repeat split; try done; lia.
  - repeat split; try done; lia.
  - repeat split; try done; lia.
Qed.

Lemma chunk_blocks_nonneg bs c : 0 < bs -> chunk_ok bs c -> 0 <= chunk_blocks bs c.
Proof.
  intros Hbs Hc. unfold chunk_blocks. destruct c; simpl in *; try lia. apply Z.div_pos; lia.
Qed.

Lemma chunk_node_fits s al i off b prev fd c cs :
  rd_ok s b -> 0 <= b -> chunk_ok (s_block_size s) c -> fills_distinct prev (c :: cs) ->
  (forall j k, al j = al k -> j = k) -> addr_inv s al i -> last_inv s b off prev -> 0 <= off ->
  off + zlen (chunk_bytes (s_block_size s) c) < 2 ^ 62 ->
  b + chunk_blocks (s_block_size s) c < 2 ^ 32 ->
  fits s (chunk_node (s_block_size s) fd (al i) (off + CHUNK_HEADER_LEN) b c).
Proof.
  intros (Hbs & _) Hb Hc Hfd Hinj Ha Hl Hoff Hsz Hend.
  assert (Hfresh : ~ In (al i) (map bb_addr (data_blocks (s_list s)))).
  { intros (a & Hai & Hin)%in_map_iff. unfold addr_inv in Ha. rewrite Forall_forall in Ha.
    destruct (Ha a ltac:(by apply list_elem_of_In)) as (j & Hj & Haj).
    rewrite Haj in Hai. apply Hinj in Hai. lia. }
  unfold chunk_bytes in Hsz. rewrite zlen_app, chunk_header_bytes_len in Hsz.
  unfold CHUNK_HEADER_LEN in *. pose proof (zlen_nonneg (chunk_body c)).
  destruct c as [d|k v|k|x]; cbn [chunk_node chunk_body] in *; try apply Forall_nil_2;
    apply Forall_singleton; (split; [|split; [done|]]).
  - destruct Hc as [Hd Hm]. unfold CHUNK_HEADER_LEN in Hd. repeat split; simpl; try lia. unfold bb_end. simpl.
    unfold chunk_blocks in Hend. cbn [chunk_hdr chunk_sz] in Hend.
    assert (Hk : zlen d = zlen d / s_block_size s * s_block_size s).
    { pose proof (Z.div_mod (zlen d) (s_block_size s)). lia. }
    rewrite Hk, DIV_ROUND_UP_mul by lia. lia.
  - intros a Hla. destruct (Hl a Hla) as [He Hp]. right. split; [done|].
    unfold mergeable. simpl. destruct (payload a); try done.
    rewrite s64_id by lia. apply andb_false_iff. right. lia.
  - destruct Hc as (Hk & Hkb & Hv). repeat split; simpl; try nia. unfold bb_end. simpl.
    rewrite DIV_ROUND_UP_mul by lia. unfold chunk_blocks in Hend. simpl in Hend. lia.
  - intros a Hla. destruct (Hl a Hla) as [He Hp]. unfold no_merge, mergeable. simpl.
    destruct Hfd as [Hne _]. destruct (payload a) as [| | |v']; auto.
    destruct Hp as [Hp| ->]; [by left|]. right. split; [done|]. apply Z.eqb_neq. congruence.
Qed.

Lemma last_inv_step s s' (al : Z -> Z) i off b prev fd c cs :
  rd_ok s b -> chunk_ok (s_block_size s) c -> is_data c -> fills_distinct prev (c :: cs) ->
  last_inv s b off prev -> 0 <= off ->
  extended s s' (chunk_node (s_block_size s) fd (al i) (off + CHUNK_HEADER_LEN) b c) ->
  exists prev', fills_distinct prev' cs /\
    last_inv s' (b + chunk_blocks (s_block_size s) c) (off + zlen (chunk_bytes (s_block_size s) c)) prev'.
Proof.
  intros (Hbs & _) Hc Hdata Hfd Hl Hoff (Esz & _ & _ & Enodes). unfold last_inv in *. rewrite Esz, Enodes.
  unfold chunk_bytes. rewrite zlen_app, chunk_header_bytes_len. unfold CHUNK_HEADER_LEN in *.
  destruct c as [d|k v|k|x]; cbn [chunk_node chunk_body fills_distinct] in *; [| | |done].
  - exists None. split; [done|]. intros a Hla. rewrite last_snoc in Hla. injection Hla as <-.
    unfold bb_end. simpl. unfold chunk_blocks. cbn [chunk_hdr chunk_sz]. destruct Hc as [Hd Hm].
    assert (Hk : zlen d = zlen d / s_block_size s * s_block_size s).
    { pose proof (Z.div_mod (zlen d) (s_block_size s)). lia. }
    rewrite Hk at 1. rewrite DIV_ROUND_UP_mul by lia. lia.
  - destruct Hfd as [_ Hfd]. exists (Some v). split; [done|]. intros a Hla. rewrite last_snoc in Hla.
    injection Hla as <-. unfold bb_end. simpl. rewrite DIV_ROUND_UP_mul by lia. unfold chunk_blocks. simpl.
    split; [lia|by right].
  - exists None. split; [done|]. intros a Hla. rewrite app_nil_r in Hla. destruct (Hl a Hla) as [He Hp].
    unfold chunk_blocks. simpl in *. split; [lia|]. destruct (payload a); try done; [|left; lia].
    change (zlen (@nil Z)) with 0. lia.
Qed.

Lemma addr_inv_step s s' (al : Z -> Z) i off b fd c :
  addr_inv s al i -> extended s s' (chunk_node (s_block_size s) fd (al i) off b c) -> addr_inv s' al (i + 1).
Proof.
  intros Ha (_ & _ & _ & En). unfold addr_inv in *. rewrite En. apply Forall_app. split.
  - eapply Forall_impl; [done|]. intros a (j & Hj & E). exists j. split; [lia|done].
  - destruct c; simpl; repeat constructor; exists i; (split; [lia|done]).
Qed.

Lemma extended_trans s s1 s2 ns1 ns2 :
  extended s s1 ns1 -> extended s1 s2 ns2 -> extended s s2 (ns1 ++ ns2).
Proof.
  intros (E1 & E2 & E3 & E4) (F1 & F2 & F3 & F4). unfold extended.
  rewrite F1, F2, F3, F4, E4, app_assoc. auto.
Qed.

(** The state before a chunk of the input at byte [off]. *)
Record loop_inv (s : sparse_file) (f : Posix.file) (al : Z -> Z) (i off b : Z)
    (prev : option Z) (cs : list chunk) : Prop := {
  li_rd : rd_ok s b;
  li_b : 0 <= b;
  li_cs : Forall (chunk_ok (s_block_size s)) cs;
  li_data : Forall is_data cs;
  li_fills : fills_distinct prev cs;
  li_read : OF.readable f;
  li_pos : Posix.f_pos f = off;
  li_off : 0 <= off;
  li_addr : addr_inv s al i;
  li_last : last_inv s b off prev;
  li_size : off + zlen (chunks_bytes (s_block_size s) cs) < 2 ^ 62;
  li_blocks : b + blocks_sum (s_block_size s) cs < 2 ^ 32
}.

Lemma sub_at (d pre body post : list Z) off n :
  d = pre ++ body ++ post -> off = zlen pre -> n = zlen body ->
  sub_bytes d off n = body /\ off + n <= zlen d.
Proof.
  intros -> -> ->. split; [by apply sub_bytes_exact|]. rewrite !zlen_app.
  pose proof (zlen_nonneg post). lia.
Qed.

(** One round of the loop. *)
Lemma loop_step s f al fd i off b prev c cs crc pre post m :
  (forall j k, al j = al k -> j = k) -> loop_inv s f al i off b prev (c :: cs) ->
  Posix.f_data f = pre ++ chunks_bytes (s_block_size s) (c :: cs) ++ post -> off = zlen pre ->
  let bs := s_block_size s in
  exists s' prev',
    chunks_loop (S m) i (fun j => Some (al j)) fd CHUNK_HEADER_LEN s f b crc =
    chunks_loop m (i + 1) (fun j => Some (al j)) fd CHUNK_HEADER_LEN s'
      (Posix.set_pos f (off + zlen (chunk_bytes bs c))) (b + chunk_blocks bs c) (crc_read bs c crc) /\
    extended s s' (chunk_node bs fd (al i) (off + CHUNK_HEADER_LEN) b c) /\
    loop_inv s' (Posix.set_pos f (off + zlen (chunk_bytes bs c))) al (i + 1)
      (off + zlen (chunk_bytes bs c)) (b + chunk_blocks bs c) prev' cs.
Proof.
  intros Hinj [Hrd Hb Hcs Hdat Hfd Hr Hp Hoff Ha Hl Hsz Hbl] Hd Hpre bs. subst bs.
  apply Forall_cons in Hcs as [Hc Hcs]. apply Forall_cons in Hdat as [Hdc Hdat].
  pose proof Hrd as (Hbs & _). cbn [blocks_sum foldr] in Hbl. fold (blocks_sum (s_block_size s) cs) in Hbl.
  rewrite chunks_bytes_cons, zlen_app in Hsz. pose proof (zlen_nonneg (chunks_bytes (s_block_size s) cs)).
  pose proof (chunk_blocks_nonneg (s_block_size s) c ltac:(lia) Hc) as Hcb.
  assert (Hbs0 : 0 <= blocks_sum (s_block_size s) cs).
  { clear -Hcs Hbs. induction Hcs as [|x l Hx _ IH]; [done|]. simpl. fold (blocks_sum (s_block_size s) l).
    pose proof (chunk_blocks_nonneg (s_block_size s) x ltac:(lia) Hx). lia. }
  rewrite chunks_bytes_cons in Hd. unfold chunk_bytes in Hd. rewrite <- !app_assoc in Hd.
  set (hdr := chunk_header_bytes (chunk_hdr (s_block_size s) c)) in *.
  assert (Hh : zlen hdr = CHUNK_HEADER_LEN) by apply chunk_header_bytes_len.
  destruct (sub_at _ pre hdr _ off CHUNK_HEADER_LEN Hd Hpre (eq_sym Hh)) as [Hsub1 Hle1].
  assert (Hd2 : Posix.f_data f = (pre ++ hdr) ++ chunk_body c ++ chunks_bytes (s_block_size s) cs ++ post)
    by (by rewrite <- app_assoc).
  destruct (sub_at _ (pre ++ hdr) (chunk_body c) _ (off + CHUNK_HEADER_LEN) (zlen (chunk_body c)) Hd2) as [Hsub2 Hle2];
    [rewrite zlen_app; lia|done|].
  cbn [chunks_loop]. rewrite OF.read_all_inside; [|done|lia|done|rewrite Hp; exact Hle1].
  rewrite Hp, Hsub1. cbn [obind Z.ltb Z.compare].
  change (CHUNK_HEADER_LEN <? CHUNK_HEADER_LEN) with false. cbv iota zeta.
  unfold Posix.lseek64 at 1. cbn [Posix.f_pos Posix.set_pos]. rewrite Z.add_0_r.
  unfold CHUNK_HEADER_LEN in *.
  assert (H1 : (off + 12 <? 0) = false) by lia. rewrite H1.
  unfold hdr. rewrite <- (app_nil_r (chunk_header_bytes _)), chunk_header_of_bytes_ok
    by (apply chunk_hdr_ok; [lia|done]).
  set (f1 := Posix.set_pos f (off + 12)).
  destruct (process_chunk_ok s (al i) fd f1 (off + 12) b crc c) as (s' & Hpc & Hext & Hrd'); auto.
  { intros x ->. done. }
  { lia. }
  { apply (chunk_node_fits s al i off b prev fd c cs); auto; lia. }
  change (Posix.set_pos f1 (off + 12)) with f1.
  unfold CHUNK_HEADER_LEN in Hpc. rewrite Hpc. cbn [obind].
  assert (H2 : (chunk_blocks (s_block_size s) c <? 0) = false) by lia. rewrite H2, u32_id by lia.
  destruct (last_inv_step s s' al i off b prev fd c cs) as (prev' & Hfd' & Hl'); auto.
  assert (Hzl : zlen (chunk_bytes (s_block_size s) c) = 12 + zlen (chunk_body c)).
  { unfold chunk_bytes. fold hdr. by rewrite zlen_app, Hh. }
  exists s', prev'. rewrite Hzl in *. rewrite Z.add_assoc in *. split; [done|]. split; [done|].
  pose proof Hext as (Esz & _). constructor; rewrite ?Esz; auto; try lia.
  - pose proof (zlen_nonneg (chunk_body c)). lia.
  - by eapply addr_inv_step.
Qed.

Definition crcs_read (bs : Z) (cs : list chunk) (crc : option Z) : option Z :=
  fold_left (fun x c => crc_read bs c x) cs crc.

Lemma chunks_loop_ok al fd m : forall cs s f i off b prev crc pre post,
  (forall j k, al j = al k -> j = k) -> loop_inv s f al i off b prev cs ->
  Posix.f_data f = pre ++ chunks_bytes (s_block_size s) cs ++ post -> off = zlen pre ->
  let bs := s_block_size s in
  exists s',
    chunks_loop (length cs + m) i (fun j => Some (al j)) fd CHUNK_HEADER_LEN s f b crc =
    chunks_loop m (i + zlen cs) (fun j => Some (al j)) fd CHUNK_HEADER_LEN s'
      (Posix.set_pos f (off + zlen (chunks_bytes bs cs))) (b + blocks_sum bs cs) (crcs_read bs cs crc) /\
    extended s s' (nodes_of bs fd al i off b cs) /\ rd_ok s' (b + blocks_sum bs cs).
Proof.
  induction cs as [|c cs IH]; intros s f i off b prev crc pre post Hinj Hinv Hd Hpre bs; subst bs.
  - exists s. change (zlen (@nil chunk)) with 0. change (zlen (chunks_bytes (s_block_size s) [])) with 0.
    simpl. rewrite !Z.add_0_r. destruct Hinv. split; [|split; [|done]].
    + by destruct f; simpl in *; subst.
    + unfold extended. by rewrite app_nil_r.
  - destruct (loop_step s f al fd i off b prev c cs crc pre post (length cs + m) Hinj Hinv Hd Hpre)
      as (s1 & prev' & Hstep & Hext & Hinv').
    pose proof Hext as (Esz & _).
    destruct (IH s1 (Posix.set_pos f (off + zlen (chunk_bytes (s_block_size s) c))) (i + 1)
      (off + zlen (chunk_bytes (s_block_size s) c)) (b + chunk_blocks (s_block_size s) c) prev'
      (crc_read (s_block_size s) c crc) (pre ++ chunk_bytes (s_block_size s) c) post Hinj Hinv')
      as (s' & Hloop & Hext' & Hrd').
    { simpl. rewrite Hd, Esz, chunks_bytes_cons, <- !app_assoc. done. }
    { rewrite zlen_app. lia. }
    rewrite Esz in *. exists s'. cbn [length Nat.add]. rewrite Hstep, Hloop.
    rewrite chunks_bytes_cons, zlen_app, zlen_cons.
    cbn [blocks_sum foldr nodes_of crcs_read fold_left]. rewrite !Z.add_assoc.
    split; [done|]. split; [|done].
    by eapply extended_trans.
Qed.

(** ** Lemmas: the image of what was read *)

Lemma gap_image bs a b : 0 < bs -> a <= b -> chunks_image bs (gap a b) = zeros ((b - a) * bs).
Proof.
  intros Hbs Hab. unfold gap. destruct (Z.ltb_spec a b).
  - unfold chunks_image. simpl. by rewrite app_nil_r.
  - assert (a = b) as -> by lia. by rewrite Z.sub_diag.
Qed.

Lemma pad_block_id bs d : 0 < bs -> zlen d mod bs = 0 -> pad_block bs d = d.
Proof.
  intros Hbs Hm. unfold pad_block, ALIGN.
  assert (Hk : zlen d = zlen d / bs * bs) by (pose proof (Z.div_mod (zlen d) bs); lia).
  assert (Hd : DIV_ROUND_UP (zlen d) bs = zlen d / bs) by (rewrite Hk at 1; apply DIV_ROUND_UP_mul; lia).
  rewrite Hd. replace (bs * (zlen d / bs) - zlen d) with 0 by lia. unfold zeros. simpl. apply app_nil_r.
Qed.

Lemma nodes_image h bs fd al : forall cs i off b last pre post,
  0 < bs -> last <= b -> Forall (chunk_ok bs) cs -> Forall is_data cs ->
  OF.h_fd h fd = pre ++ chunks_bytes bs cs ++ post -> off = zlen pre ->
  chunks_image bs (chunks_from h bs last (nodes_of bs fd al i off b cs) (b + blocks_sum bs cs)) =
  zeros ((b - last) * bs) ++ chunks_image bs cs.
Proof.
  induction cs as [|c cs IH]; intros i off b last pre post Hbs Hl Hcs Hdat Hd Hoff.
  - simpl. rewrite Z.add_0_r, gap_image by lia. by rewrite app_nil_r.
  - apply Forall_cons in Hcs as [Hc Hcs]. apply Forall_cons in Hdat as [Hdc Hdat].
    rewrite chunks_bytes_cons, <- app_assoc in Hd.
    assert (Hd' : OF.h_fd h fd = (pre ++ chunk_bytes bs c) ++ chunks_bytes bs cs ++ post)
      by (by rewrite <- app_assoc).
    cbn [nodes_of blocks_sum foldr]. fold (blocks_sum bs cs). rewrite Z.add_assoc.
    assert (Hoff' : off + zlen (chunk_bytes bs c) = zlen (pre ++ chunk_bytes bs c)) by (rewrite zlen_app; lia).
    change (c :: cs) with ([c] ++ cs). rewrite chunks_image_app.
    assert (Hblk : 0 <= chunk_blocks bs c) by (by apply chunk_blocks_nonneg).
    destruct c as [d|k v|k|x]; [| | |done]; cbn [chunk_node app chunks_from].
    + destruct Hc as [Hlen Hm]. unfold bb_end. cbn [block len].
      assert (Hk : zlen d = zlen d / bs * bs) by (pose proof (Z.div_mod (zlen d) bs); lia).
      assert (Hdr : DIV_ROUND_UP (zlen d) bs = zlen d / bs) by (rewrite Hk at 1; apply DIV_ROUND_UP_mul; lia).
      rewrite Hdr. change (zlen d / bs) with (chunk_blocks bs (Raw d)).
      change (?x :: chunks_from ?a1 ?a2 ?a3 ?a4 ?a5) with ([x] ++ chunks_from a1 a2 a3 a4 a5).
      rewrite !chunks_image_app, gap_image by lia.
      rewrite (IH _ _ _ _ (pre ++ chunk_bytes bs (Raw d)) post) by (auto; lia).
      rewrite Z.sub_diag. cbn [Z.mul]. change (zeros 0) with (@nil Z). cbn [app].
      unfold bb_chunk. cbn [payload]. unfold bb_bytes. cbn [payload len].
      assert (Hsub : sub_bytes (OF.h_fd h fd) (off + CHUNK_HEADER_LEN) (zlen d) = d).
      { unfold chunk_bytes in Hd. rewrite <- !app_assoc in Hd. cbn [chunk_body] in Hd.
        rewrite Hd, app_assoc. apply sub_bytes_exact; [|done].
        rewrite zlen_app, chunk_header_bytes_len. lia. }
      rewrite Hsub, pad_block_id by done. by unfold chunks_image; simpl; rewrite !app_nil_r.
    + destruct Hc as (Hk & Hkb & Hv). unfold bb_end. cbn [block len].
      rewrite DIV_ROUND_UP_mul by lia. change (chunk_blocks bs (Fill k v)) with k.
      change (?x :: chunks_from ?a1 ?a2 ?a3 ?a4 ?a5) with ([x] ++ chunks_from a1 a2 a3 a4 a5).
      rewrite !chunks_image_app, gap_image by lia.
      rewrite (IH _ _ _ _ (pre ++ chunk_bytes bs (Fill k v)) post) by (auto; lia).
      rewrite Z.sub_diag. cbn [Z.mul]. change (zeros 0) with (@nil Z). cbn [app].
      unfold bb_chunk. cbn [payload len]. rewrite DIV_ROUND_UP_mul by lia.
      by unfold chunks_image; simpl; rewrite !app_nil_r.
    + change (chunk_blocks bs (Skip k)) with k. simpl in Hc.
      rewrite (IH _ _ _ _ (pre ++ chunk_bytes bs (Skip k)) post) by (auto; lia).
      unfold chunks_image at 2. simpl. rewrite app_nil_r.
      replace ((b + k - last) * bs) with ((b - last) * bs + k * bs) by lia.
      rewrite zeros_app by nia. by rewrite <- app_assoc.
Qed.

(** The chunks of a well-formed sparse file are chunks the reader accepts. *)
Lemma chunks_from_ok h bs : forall l last nb,
  0 < bs < 2 ^ 31 -> bs mod 4 = 0 -> 0 <= last -> nb < 2 ^ 31 ->
  blocks_ok bs last l nb -> Forall (source_ok h bs) l ->
  Forall (chunk_ok bs) (chunks_from h bs last l nb) /\ Forall is_data (chunks_from h bs last l nb) /\
  blocks_sum bs (chunks_from h bs last l nb) = nb - last.
Proof.
  assert (Happ : forall bs l k, blocks_sum bs (l ++ k) = blocks_sum bs l + blocks_sum bs k).
  { intros bs' l k. unfold blocks_sum. induction l as [|x l IH]; simpl; lia. }
  assert (Hgap : forall bs a b, 0 <= a -> a <= b -> b < 2 ^ 31 -> Forall (chunk_ok bs) (gap a b) /\
    Forall is_data (gap a b) /\ blocks_sum bs (gap a b) = b - a).
  { intros bs' a b Ha Hab Hb. unfold gap. destruct (Z.ltb_spec a b).
    - unfold blocks_sum, chunk_blocks. simpl. repeat constructor; simpl; lia.
    - unfold blocks_sum. simpl. repeat constructor. lia. }
  induction l as [|bb l IH]; intros last nb Hbs H4 Hlast Hnb Hok Hs.
  - simpl. apply Hgap; auto.
  - destruct Hok as (Hl & Hn & Hok). apply Forall_cons in Hs as [Hsb Hs].
    pose proof (bb_end_gt bs bb ltac:(lia) Hn) as Hgt.
    assert (Hend : bb_end bs bb <= nb) by (apply (blocks_ok_le bs _ l); [lia|done]).
    destruct (IH (bb_end bs bb) nb) as (I1 & I2 & I3); auto; [lia|].
    destruct (Hgap bs last (block bb)) as (G1 & G2 & G3); auto; [lia|].
    assert (Hc : chunk_ok bs (bb_chunk h bs bb) /\ is_data (bb_chunk h bs bb) /\
                 chunk_blocks bs (bb_chunk h bs bb) = bb_end bs bb - block bb).
    { pose proof (zlen_bb_bytes h bs bb Hsb Hn) as Hz. destruct Hsb as [Ha Hsb].
      pose proof Hn as (_ & Hlen & _). unfold bb_end in *.
      pose proof (DIV_ROUND_UP_bound (len bb) bs ltac:(lia)) as Hd. unfold ALIGN in Ha.
      pose proof (DIV_ROUND_UP_pos (len bb) bs ltac:(lia) ltac:(lia)) as Hp.
      assert (Hraw : zlen (bb_bytes h bb) = len bb ->
        chunk_ok bs (Raw (pad_block bs (bb_bytes h bb))) /\
        chunk_blocks bs (Raw (pad_block bs (bb_bytes h bb))) = DIV_ROUND_UP (len bb) bs).
      { intros Hzl. unfold chunk_blocks. cbn [chunk_hdr chunk_sz]. simpl.
        rewrite zlen_pad_block, Hzl by lia. unfold CHUNK_HEADER_LEN in *.
        rewrite (Z.mul_comm bs), Z.mod_mul, Z.div_mul by lia. split; [lia|done]. }
      unfold bb_chunk in *. destruct (payload bb) eqn:Ep;
        try (destruct Hraw as [R1 R2]; [by apply Hz|]; split; [done|]; split; [done|]; lia).
      destruct Hsb as [Hm Hv]. unfold CHUNK_HEADER_LEN in Ha. unfold chunk_blocks. simpl.
      split; [|split; [done|lia]]. nia. }
    destruct Hc as (C1 & C2 & C3). cbn [chunks_from].
    split; [apply Forall_app; auto|]. split; [apply Forall_app; auto|].
    rewrite Happ. cbn [blocks_sum foldr]. fold (blocks_sum bs (chunks_from h bs (bb_end bs bb) l nb)). lia.
Qed.

Lemma file_chunks_ok h s nb :
  sparse_ok h s nb ->
  Forall (chunk_ok (s_block_size s)) (file_chunks h s) /\ Forall is_data (file_chunks h s) /\
  blocks_sum (s_block_size s) (file_chunks h s) = nb.
Proof.
  intros (Hbs & H4 & Hnb & Hlen & Hok & Hs). unfold file_chunks.
  assert (Hq : s_len s / s_block_size s = nb) by (rewrite Hlen; apply Z.div_mul; lia).
  rewrite Hq. destruct (chunks_from_ok h (s_block_size s) (data_blocks (s_list s)) 0 nb)
    as (H1 & H2 & H3); auto; [lia|lia|]. rewrite H3. split; [done|]. split; [done|lia].
Qed.

(** ** Lemmas: whole files *)

Lemma crcs_read_some bs cs : forall c,
  crcs_read bs cs (Some c) = Some (Crc32.sparse_crc32 c (chunks_image bs cs)).
Proof.
  induction cs as [|x cs IH]; intros c; simpl.
  - by rewrite Crc32.sparse_crc32_nil.
  - unfold crcs_read in *. rewrite IH. simpl. f_equal.
    change (chunks_image bs (x :: cs)) with (chunk_image bs x ++ chunks_image bs cs).
    by rewrite Crc32.sparse_crc32_app.
Qed.

Lemma crcs_read_none bs cs : crcs_read bs cs None = None.
Proof. induction cs as [|x cs IH]; [done|]. exact IH. Qed.

(** The file [f] starts with the sparse form of the chunks [cs] of [s], with
    the checksum chunk [cc] if there is one. *)
Definition holds_stream (h : OF.host) (s : sparse_file) (cc : option Z) (f : Posix.file) : Prop :=
  OF.readable f /\ Posix.f_pos f = 0 /\ Posix.f_size f < 2 ^ 62 /\
  (forall c, cc = Some c -> 0 <= c < 2 ^ 32) /\
  Posix.f_data f =
    sparse_header_bytes (OF.init_header (s_block_size s) (s_len s) (zlen (file_chunks h s))
      (bool_decide (is_Some cc))) ++
    chunks_bytes (s_block_size s) (file_chunks h s) ++
    match cc with Some c => chunk_bytes (s_block_size s) (Crc c) | None => [] end.

(** What the reader makes of a checksum chunk. *)
Definition crc_verdict (cc crc : option Z) : outcome Z :=
  match cc, crc with
  | None, _ => Ok 0
  | Some _, None => Undef
  | Some c, Some x => Ok (if c =? x then 0 else - EINVAL)
  end.

(** The round of the loop that meets the checksum chunk at the end of the file. *)
Lemma crc_round f pre c bs al fd i s b crc :
  OF.readable f -> 0 < bs < 2 ^ 32 -> 0 <= c < 2 ^ 32 -> 0 <= b < 2 ^ 32 ->
  Posix.f_pos f = zlen pre -> Posix.f_data f = pre ++ chunk_bytes bs (Crc c) ->
  exists f', chunks_loop 1 i al fd CHUNK_HEADER_LEN s f b crc =
    obind (crc_verdict (Some c) crc) (fun r => Ok (s, f', crc, r, b)).
Proof.
  intros Hr Hbs Hc Hb Hp Hd1.
  change (chunk_bytes bs (Crc c)) with (chunk_header_bytes (chunk_hdr bs (Crc c)) ++ le_bytes 4 c) in Hd1.
  assert (Hd2 : Posix.f_data f = (pre ++ chunk_header_bytes (chunk_hdr bs (Crc c))) ++ le_bytes 4 c ++ [])
    by (by rewrite Hd1, app_nil_r, !app_assoc).
  destruct (sub_at _ _ _ _ (Posix.f_pos f) CHUNK_HEADER_LEN Hd1 Hp) as [Hsub1 Hle1];
    [by rewrite chunk_header_bytes_len|].
  destruct (sub_at _ _ _ _ (Posix.f_pos f + CHUNK_HEADER_LEN) 4 Hd2) as [Hsub2 Hle2];
    [by rewrite zlen_app, chunk_header_bytes_len, <- Hp|by rewrite zlen_le_bytes|].
  assert (Hoff0 : 0 <= Posix.f_pos f) by (rewrite Hp; apply zlen_nonneg).
  cbn [chunks_loop]. rewrite OF.read_all_inside; [|done|done|done|exact Hle1].
  rewrite Hsub1. cbn [obind Z.ltb Z.compare].
  change (CHUNK_HEADER_LEN <? CHUNK_HEADER_LEN) with false. cbv iota zeta.
  unfold Posix.lseek64. cbn [Posix.f_pos Posix.set_pos]. rewrite Z.add_0_r.
  unfold CHUNK_HEADER_LEN in *. assert (H1 : (Posix.f_pos f + 12 <? 0) = false) by lia. rewrite H1.
  rewrite <- (app_nil_r (chunk_header_bytes _)), chunk_header_of_bytes_ok by (apply chunk_hdr_ok; [lia|done]).
  unfold process_chunk. cbn [chunk_hdr chunk_type total_sz chunk_sz].
  change (CHUNK_TYPE_CRC32 =? CHUNK_TYPE_RAW) with false.
  change (CHUNK_TYPE_CRC32 =? CHUNK_TYPE_FILL) with false.
  change (CHUNK_TYPE_CRC32 =? CHUNK_TYPE_DONT_CARE) with false.
  change (CHUNK_TYPE_CRC32 =? CHUNK_TYPE_CRC32) with true. cbv iota.
  change (u32 (CHUNK_HEADER_LEN + 4 - 12)) with 4.
  destruct crc as [x|]; cbn [oof obind crc_verdict]; [|by exists f].
  unfold process_crc32_chunk. cbn [negb Z.eqb Pos.eqb].
  rewrite OF.read_all_inside; [|done|simpl; lia|done|exact Hle2].
  cbn [Posix.f_pos Posix.set_pos Posix.f_data]. rewrite Hsub2. cbn [obind Z.ltb Z.compare].
  rewrite le_val_bytes_id by done.
  destruct (Z.eqb_spec c x) as [E|E]; cbn [negb obind]; eexists; [|done].
  do 2 (change (0 <? 0) with false; cbv iota; cbn [obind]). by rewrite Z.add_0_r, u32_id by lia.
Qed.

Section ReadBack.
Variables (h : OF.host) (s : sparse_file) (nb : Z) (cc : option Z) (f : Posix.file).
Variables (al : Z -> Z) (fd : Z).
Hypothesis Hs : sparse_ok h s nb.
Hypothesis Hcount : countable s.
Hypothesis Hfills : fills_distinct None (file_chunks h s).
Hypothesis Hf : holds_stream h s cc f.
Hypothesis Hinj : forall j k, al j = al k -> j = k.

Let bs := s_block_size s.
Let cs := file_chunks h s.
Let fresh v := mk_sparse_file bs (s_len s) v (backed_block_list_new bs).
Let hdr := OF.init_header bs (s_len s) (zlen cs) (bool_decide (is_Some cc)).

Lemma hdr_read :
  OF.read_all f SPARSE_HEADER_LEN =
    Ok (Posix.set_pos f SPARSE_HEADER_LEN, 0, sparse_header_bytes hdr) /\
  sparse_header_of_bytes (sparse_header_bytes hdr) = hdr /\
  total_blks hdr = nb /\ total_chunks hdr = zlen cs + (match cc with Some _ => 1 | None => 0 end).
Proof.
  destruct Hf as (Hr & Hp & Hsz & Hc & Hd). pose proof Hs as (Hbs & _ & Hnb & Hlen & _).
  assert (Hh : zlen (sparse_header_bytes hdr) = SPARSE_HEADER_LEN) by apply sparse_header_bytes_len.
  destruct (sub_at _ [] (sparse_header_bytes hdr) _ 0 SPARSE_HEADER_LEN Hd eq_refl (eq_sym Hh)) as [Hsub Hle].
  split; [|split; [|split]].
  - rewrite OF.read_all_inside; [|done|lia|done|by rewrite Hp]. by rewrite Hp, Hsub.
  - rewrite <- (app_nil_r (sparse_header_bytes hdr)). apply sparse_header_of_bytes_ok, init_header_ok.
    unfold bs. lia.
  - unfold hdr, OF.init_header. cbn [total_blks]. unfold bs. rewrite Hlen, Z.quot_mul by lia.
    apply u32_id. lia.
  - destruct (count_chunks_spec h s nb Hs Hcount) as [_ Hn]. fold cs in Hn.
    unfold hdr, OF.init_header. cbn [total_chunks]. rewrite (u32_id (zlen cs)) by lia.
    destruct cc; simpl; apply u32_id; lia.
Qed.

Lemma stream_inv v :
  loop_inv (fresh v) (Posix.set_pos f SPARSE_HEADER_LEN) al 0 SPARSE_HEADER_LEN 0 None cs.
Proof.
  destruct Hf as (Hr & Hp & Hsz & Hc & Hd). pose proof Hs as (Hbs & H4 & Hnb & _).
  destruct (file_chunks_ok h s nb Hs) as (C1 & C2 & C3). fold cs bs in C1, C2, C3.
  assert (Hrd0 : rd_ok (fresh v) 0) by (split; [done|]; split; [done|]; split; [done|]; by split).
  constructor; auto; try done.
  - apply Forall_nil_2.
  - unfold Posix.f_size in Hsz. rewrite Hd, !zlen_app, sparse_header_bytes_len in Hsz. fold cs bs in Hsz.
    simpl s_block_size. pose proof (zlen_nonneg (match cc with Some c => chunk_bytes bs (Crc c) | None => [] end)).
    lia.
  - simpl s_block_size. lia.
Qed.

(** The whole of [sparse_file_read_sparse]. *)
Lemma read_sparse_spec v crc :
  exists s' f',
    sparse_file_read_sparse true (fun j => Some (al j)) (fresh v) fd f crc =
      obind (crc_verdict cc (if crc then Some (Crc32.sparse_crc32 0 (file_image h s)) else None))
        (fun r => Ok (s', f', r)) /\
    extended (fresh v) s' (nodes_of bs fd al 0 SPARSE_HEADER_LEN 0 cs) /\ rd_ok s' nb.
Proof.
  destruct hdr_read as (Hread & Hdec & Hblk & Hchk).
  destruct Hf as (Hr & Hp & Hsz & Hc & Hd). pose proof Hs as (Hbs & H4 & Hnb & _).
  destruct (file_chunks_ok h s nb Hs) as (C1 & C2 & C3). fold cs bs in C1, C2, C3.
  unfold sparse_file_read_sparse. cbn [negb]. rewrite Hread. cbn [obind Z.ltb Z.compare].
  rewrite Hdec, Hblk, Hchk. change (magic hdr =? SPARSE_HEADER_MAGIC) with true.
  change (major_version hdr =? SPARSE_HEADER_MAJOR_VER) with true.
  change (file_hdr_sz hdr) with SPARSE_HEADER_LEN. change (chunk_hdr_sz hdr) with CHUNK_HEADER_LEN.
  cbn [negb]. rewrite !Z.ltb_irrefl.
  set (m := match cc with Some _ => 1 | None => 0 end%nat).
  assert (Hn : Z.to_nat (zlen cs + (match cc with Some _ => 1 | None => 0 end)) = (length cs + m)%nat).
  { unfold m, zlen. destruct cc; lia. }
  rewrite Hn.
  destruct (chunks_loop_ok al fd m cs (fresh v) (Posix.set_pos f SPARSE_HEADER_LEN) 0 SPARSE_HEADER_LEN 0
    None (if crc then Some 0 else None) (sparse_header_bytes hdr)
    (match cc with Some c => chunk_bytes bs (Crc c) | None => [] end) Hinj (stream_inv v))
    as (s' & Hloop & Hext & Hrd).
  { exact Hd. }
  { by rewrite sparse_header_bytes_len. }
  simpl s_block_size in Hloop, Hext, Hrd. rewrite Hloop, C3, !Z.add_0_l in *. clear Hloop.
  assert (Hcrc : crcs_read bs cs (if crc then Some 0 else None) =
                 if crc then Some (Crc32.sparse_crc32 0 (file_image h s)) else None).
  { destruct crc; [apply crcs_read_some|apply crcs_read_none]. }
  rewrite Hcrc. set (off := SPARSE_HEADER_LEN + zlen (chunks_bytes bs cs)).
  set (f2 := Posix.set_pos (Posix.set_pos f SPARSE_HEADER_LEN) off).
  destruct cc as [c|]; subst m; [|cbn; rewrite Z.eqb_refl; cbn; do 2 eexists; by split].
  destruct (crc_round f2 (sparse_header_bytes hdr ++ chunks_bytes bs cs) c bs (fun j => Some (al j)) fd
    (zlen cs) s' nb (if crc then Some (Crc32.sparse_crc32 0 (file_image h s)) else None)) as (f' & ->).
  { done. }
  { unfold bs. lia. }
  { by apply Hc. }
  { lia. }
  { unfold f2, off. cbn [Posix.f_pos Posix.set_pos]. by rewrite zlen_app, sparse_header_bytes_len. }
  { change (Posix.f_data f2) with (Posix.f_data f). by rewrite Hd, <- app_assoc. }
  exists s', f'. split; [|done].
  destruct crc; cbn [crc_verdict obind]; [|done]. destruct (c =? _); [|done].
  cbn. by rewrite Z.eqb_refl.
Qed.

(** The whole of [sparse_file_import]. *)
Lemma import_spec v crc :
  exists s' f',
    sparse_file_import (true, true) true (fun j => Some (al j)) fd f v crc =
      obind (crc_verdict cc (if crc then Some (Crc32.sparse_crc32 0 (file_image h s)) else None))
        (fun r => Ok (if r <? 0 then None else Some s', f')) /\
    s_block_size s' = bs /\ s_len s' = s_len s /\
    data_blocks (s_list s') = nodes_of bs fd al 0 SPARSE_HEADER_LEN 0 cs /\ rd_ok s' nb.
Proof.
  destruct hdr_read as (Hread & Hdec & Hblk & Hchk).
  destruct (read_sparse_spec v crc) as (s' & f' & Hrs & Hext & Hrd).
  destruct Hf as (Hr & Hp & _). pose proof Hs as (Hbs & _ & Hnb & Hlen & _).
  unfold sparse_file_import. rewrite Hread. cbn [obind Z.ltb Z.compare]. rewrite Hdec, Hblk.
  change (magic hdr =? SPARSE_HEADER_MAGIC) with true.
  change (major_version hdr =? SPARSE_HEADER_MAJOR_VER) with true.
  change (file_hdr_sz hdr) with SPARSE_HEADER_LEN. change (chunk_hdr_sz hdr) with CHUNK_HEADER_LEN.
  cbn [negb]. rewrite !Z.ltb_irrefl. change (blk_sz hdr) with bs.
  assert (Hl : s64 (nb * bs) = s_len s) by (rewrite s64_id; [done|unfold bs; wrap_pow; nia]).
  rewrite Hl. cbn [sparse_file_new fst snd negb]. unfold Posix.lseek64. cbn [Z.ltb Z.compare].
  change (s32 0 <? 0) with false. cbn [s_block_size s_len s_list].
  assert (Hf0 : Posix.set_pos (Posix.set_pos f SPARSE_HEADER_LEN) 0 = f) by (by destruct f; simpl in *; subst).
  rewrite Hf0. unfold sparse_file_read. rewrite andb_false_r.
  change (mk_sparse_file bs (s_len s) v (backed_block_list_new bs)) with (fresh v). rewrite Hrs.
  exists s', f'. destruct Hext as (E1 & E2 & _ & E4).
  split; [|split; [done|]; split; [done|]; split; [done|done]].
  destruct (crc_verdict _ _); cbn [obind]; [by destruct (a <? 0)|done|done|done].
Qed.

Lemma import_image s' h' :
  s_block_size s' = bs -> s_len s' = s_len s ->
  data_blocks (s_list s') = nodes_of bs fd al 0 SPARSE_HEADER_LEN 0 cs ->
  OF.h_fd h' fd = Posix.f_data f -> file_image h' s' = file_image h s.
Proof.
  intros E1 E2 E3 Hh'. destruct Hf as (_ & _ & _ & _ & Hd). pose proof Hs as (Hbs & _ & Hnb & Hlen & _).
  destruct (file_chunks_ok h s nb Hs) as (C1 & C2 & C3). fold cs bs in C1, C2, C3.
  unfold file_image, file_chunks at 1. rewrite E1, E2, E3.
  assert (Hq : s_len s / bs = 0 + blocks_sum bs cs) by (rewrite C3, Hlen; unfold bs; apply Z.div_mul; lia).
  rewrite Hq.
  rewrite (nodes_image h' bs fd al cs 0 SPARSE_HEADER_LEN 0 0 (sparse_header_bytes hdr)
    (match cc with Some c => chunk_bytes bs (Crc c) | None => [] end)); auto; try (unfold bs; lia). by rewrite Hh', Hd.
Qed.
End ReadBack.

(** ** Lemmas: writing what was read *)

(** The blocks leave room for a page of alignment in a mapping. *)
Definition mappable (s : sparse_file) : Prop :=
  Forall (fun bb => ALIGN (len bb) (s_block_size s) + OF.PAGE <= 2 ^ 31) (data_blocks (s_list s)).

Definition small (bs : Z) (c : chunk) : Prop :=
  match c with
  | Raw d => zlen d + OF.PAGE <= 2 ^ 31
  | Fill k _ => k * bs + CHUNK_HEADER_LEN < 2 ^ 31
  | _ => True
  end.

Lemma file_chunks_small h s nb : sparse_ok h s nb -> mappable s -> Forall (small (s_block_size s)) (file_chunks h s).
Proof.
  intros (Hbs & _ & _ & _ & Hok & Hs) Hm. unfold file_chunks, mappable in *.
  generalize (s_len s / s_block_size s). intros endb. revert Hok Hs Hm.
  generalize 0. induction (data_blocks (s_list s)) as [|bb l IH]; intros last Hok Hs Hm; simpl.
  - unfold gap. destruct (_ <? _); repeat constructor.
  - destruct Hok as (_ & Hn & Hok). apply Forall_cons in Hs as [Hsb Hs]. apply Forall_cons in Hm as [Hmb Hm].
    apply Forall_app. split; [unfold gap; destruct (_ <? _); repeat constructor|].
    constructor; [|by apply IH]. pose proof (zlen_bb_bytes h _ bb Hsb Hn) as Hz. destruct Hsb as [Ha Hsb].
    unfold bb_chunk in *. destruct (payload bb); simpl;
      try (rewrite zlen_pad_block, Hz by (lia || done); exact Hmb).
    unfold ALIGN in Ha. lia.
Qed.

Lemma nodes_sources h bs fd al : forall cs i off b pre post,
  0 < bs -> Forall (chunk_ok bs) cs -> Forall is_data cs -> Forall (small bs) cs ->
  OF.h_fd h fd = pre ++ chunks_bytes bs cs ++ post -> off = zlen pre -> zlen (OF.h_fd h fd) < 2 ^ 62 ->
  (forall size o, OF.h_mmap h fd size o = 0) -> Forall (source_ok h bs) (nodes_of bs fd al i off b cs).
Proof.
  induction cs as [|c cs IH]; intros i off b pre post Hbs Hcs Hdat Hsm Hd Hoff Hsz Hmm; [apply Forall_nil_2|].
  apply Forall_cons in Hcs as [Hc Hcs]. apply Forall_cons in Hdat as [Hdc Hdat].
  apply Forall_cons in Hsm as [Hsc Hsm]. rewrite chunks_bytes_cons, <- app_assoc in Hd.
  cbn [nodes_of]. apply Forall_app. split.
  - pose proof (zlen_nonneg pre). unfold chunk_bytes in Hd. rewrite <- app_assoc in Hd.
    destruct c as [d|k v|k|x]; cbn [chunk_node chunk_body] in *; try apply Forall_nil_2;
      apply Forall_singleton; unfold source_ok, OF.PAGE in *; cbn [len payload].
    + destruct Hc as [Hlen Hm].
      assert (Hk : zlen d = zlen d / bs * bs) by (pose proof (Z.div_mod (zlen d) bs); lia).
      assert (Hal : ALIGN (zlen d) bs = zlen d).
      { unfold ALIGN. rewrite Hk at 1. rewrite DIV_ROUND_UP_mul by lia. lia. }
      simpl in Hsc. unfold OF.PAGE, CHUNK_HEADER_LEN in *. rewrite Hal. split; [lia|].
      rewrite Hd in Hsz. rewrite !zlen_app, chunk_header_bytes_len in Hsz. unfold CHUNK_HEADER_LEN in Hsz.
      pose proof (zlen_nonneg (chunks_bytes bs cs)). pose proof (zlen_nonneg post).
      unfold fd_ok, OF.PAGE. split; [lia|]. split; [done|]. split; [|done].
      rewrite Hd, !zlen_app, chunk_header_bytes_len. unfold CHUNK_HEADER_LEN. lia.
    + destruct Hc as (Hk & Hkb & Hv). simpl in Hsc. unfold ALIGN. rewrite DIV_ROUND_UP_mul by lia.
      split; [lia|]. split; [apply Z.mod_mul; lia|done].
  - apply (IH _ _ _ (pre ++ chunk_bytes bs c) post); auto; [by rewrite <- app_assoc|].
    rewrite zlen_app. lia.
Qed.

Definition count_data (cs : list chunk) : Z :=
  foldr (fun c n => match c with Raw _ | Fill _ _ => 1 + n | _ => n end) 0 cs.

Lemma nodes_count bs fd al : forall cs i off b, zlen (nodes_of bs fd al i off b cs) = count_data cs.
Proof.
  induction cs as [|c cs IH]; intros i off b; [done|]. cbn [nodes_of count_data foldr].
  fold (count_data cs). rewrite zlen_app, IH. destruct c; simpl; unfold zlen; simpl; lia.
Qed.

Lemma chunks_count h bs : forall l last e, count_data (chunks_from h bs last l e) = zlen l.
Proof.
  assert (Hg : forall a b l, count_data (gap a b ++ l) = count_data l)
    by (intros a b l; unfold gap; by destruct (a <? b)).
  induction l as [|bb l IH]; intros last e; cbn [chunks_from].
  - rewrite <- (app_nil_r (gap last e)), Hg. done.
  - rewrite Hg, zlen_cons. cbn [count_data foldr]. fold (count_data (chunks_from h bs (bb_end bs bb) l e)).
    rewrite IH. unfold bb_chunk. by destruct (payload bb).
Qed.

(** ** Properties *)

(** A host that sees the bytes of [f] behind the descriptor [fd]. *)
Definition sees (h : OF.host) (fd : Z) (f : Posix.file) : Prop :=
  OF.h_fd h fd = Posix.f_data f /\ forall size o, OF.h_mmap h fd size o = 0.

(** C1: importing a sparse image restores it. Let a file hold the sparse form, without a checksum chunk, of a
    well-formed sparse file [s] of less than 2^30 nodes in which no two adjacent fill chunks have the same value. Then
    [sparse_file_import], called without checking a checksum and with every allocation succeeding, succeeds, with any
    short reads, and the sparse file it returns has the block size, the length and, byte for byte, the image of [s].
    (Outside these conditions the code fails: see [import_crc_null_deref], [own_crc_rejected] and
    [BackedBlock.add_fill_use_after_free].) *)
Theorem import_roundtrip h s nb f al fd v :
  sparse_ok h s nb -> countable s -> fills_distinct None (file_chunks h s) ->
  holds_stream h s None f -> (forall j k, al j = al k -> j = k) ->
  exists s' f', sparse_file_import (true, true) true (fun j => Some (al j)) fd f v false =
      Ok (Some s', f') /\
    s_block_size s' = s_block_size s /\ s_len s' = s_len s /\
    (forall h', sees h' fd f -> file_image h' s' = file_image h s).
Proof.
  intros Hs Hc Hfd Hf Hinj.
  destruct (import_spec h s nb None f al fd Hs Hc Hfd Hf Hinj v false)
    as (s' & f' & Hi & E1 & E2 & E3 & _).
  exists s', f'. split; [done|]. split; [done|]. split; [done|].
  intros h' [Hh _]. by eapply (import_image h s nb None f al fd).
Qed.

Definition ex_stream : Posix.file :=
  Posix.mk_file (sparse_stream ex_host ex_file false) 0 (fun p => 1 + p mod 5) (fun _ => 0).

Lemma ex_stream_ok : holds_stream ex_host ex_file None ex_stream.
Proof.
  split; [|by repeat split]. intros p. simpl. pose proof (Z.mod_pos_bound p 5). lia.
Qed.

Lemma import_roundtrip_witness :
  exists s' f', sparse_file_import (true, true) true (fun j => Some j) 3 ex_stream false false =
    Ok (Some s', f') /\ s_len s' = 56.
Proof.
  destruct (import_roundtrip ex_host ex_file 7 ex_stream (fun j => j) 3 false)
    as (s' & f' & H1 & _ & H2 & _).
  - exact ex_file_ok.
  - done.
  - by repeat split.
  - exact ex_stream_ok.
  - done.
  - exists s', f'. split; [exact H1|exact H2].
Defined.

(** C4: what [simg2img] does: importing a sparse image and writing it in normal form to an empty file reproduces the
    image of the original sparse file exactly. The image has no checksum chunk and none is checked, no two adjacent fill
    chunks have the same value, there is memory, and each node leaves room for a page of alignment in a mapping
    of less than 2^31 bytes. *)
Theorem simg2img_correct h s nb f al fd v h' g :
  sparse_ok h s nb -> countable s -> mappable s -> fills_distinct None (file_chunks h s) ->
  holds_stream h s None f -> (forall j k, al j = al k -> j = k) -> sees h' fd f -> blank g ->
  exists s' f' g', sparse_file_import (true, true) true (fun j => Some (al j)) fd f v false =
      Ok (Some s', f') /\
    sparse_file_write OF.file_ops h' s' g g true (true, true) false false = Ok (g', 0) /\
    Posix.f_data g' = file_image h s.
Proof.
  intros Hs Hc Hm Hfd Hf Hinj [Hh Hmm] Hg.
  destruct (import_spec h s nb None f al fd Hs Hc Hfd Hf Hinj v false)
    as (s' & f' & Hi & E1 & E2 & E3 & (R1 & R2 & R3 & R4 & R5)).
  exists s', f'. pose proof Hf as (_ & _ & Hsz & _ & Hd). pose proof Hs as (Hbs & H4 & Hnb & Hlen & _).
  destruct (file_chunks_ok h s nb Hs) as (C1 & C2 & C3).
  assert (Hs' : sparse_ok h' s' nb).
  { split; [done|]. split; [done|]. split; [done|]. split; [by rewrite E1, E2|]. split; [done|].
    rewrite E1, E3. rewrite Hd in Hh. apply (nodes_sources h' _ fd al _ _ _ _
      (sparse_header_bytes (OF.init_header (s_block_size s) (s_len s) (zlen (file_chunks h s)) false)) []); auto.
    - lia.
    - by eapply file_chunks_small.
    - rewrite Hh. unfold Posix.f_size in Hsz. by rewrite Hd in Hsz. }
  assert (Hc' : countable s').
  { unfold countable in *. rewrite E3.
    pose proof (nodes_count (s_block_size s) fd al (file_chunks h s) 0 SPARSE_HEADER_LEN 0) as Hn1.
    pose proof (chunks_count h (s_block_size s) (data_blocks (s_list s)) 0 (s_len s / s_block_size s)) as Hn2.
    fold (file_chunks h s) in Hn2. lia. }
  destruct (write_normal_ok h' s' nb g Hs' Hc' Hg) as (g' & Hw & Hg').
  exists g'. split; [done|]. split; [done|]. rewrite Hg'.
  by eapply (import_image h s nb None f al fd).
Qed.

Lemma simg2img_correct_witness :
  let h' := OF.mk_host (fun _ => 0) (fun _ => Posix.f_data ex_stream) (fun _ => -2) (fun _ _ _ => 0) in
  exists s' f' g', sparse_file_import (true, true) true (fun j => Some j) 3 ex_stream false false =
      Ok (Some s', f') /\
    sparse_file_write OF.file_ops h' s' (Posix.plain_file []) (Posix.plain_file []) true (true, true)
      false false = Ok (g', 0) /\ zlen (Posix.f_data g') = 56.
Proof.
  intros h'. destruct (simg2img_correct ex_host ex_file 7 ex_stream (fun j => j) 3 false h'
    (Posix.plain_file [])) as (s' & f' & g' & H1 & H2 & H3).
  - exact ex_file_ok.
  - done.
  - repeat constructor; vm_compute; congruence.
  - by repeat split.
  - exact ex_stream_ok.
  - done.
  - by split.
  - by repeat split.
  - exists s', f', g'. rewrite H3. split; [exact H1|]. split; [exact H2|]. vm_compute. reflexivity.
Defined.

(** The checksum is verified. Importing an image that ends in the checksum
    chunk [c], with checking on, succeeds exactly when [c] is the CRC-32 of
    the whole image, gaps included as zeros. *)
Theorem import_checks_crc h s nb c f al fd v :
  sparse_ok h s nb -> countable s -> fills_distinct None (file_chunks h s) ->
  holds_stream h s (Some c) f -> (forall j k, al j = al k -> j = k) ->
  exists o f', sparse_file_import (true, true) true (fun j => Some (al j)) fd f v true = Ok (o, f') /\
    (is_Some o <-> c = Crc32.sparse_crc32 0 (file_image h s)).
Proof.
  intros Hs Hc Hfd Hf Hinj.
  destruct (import_spec h s nb (Some c) f al fd Hs Hc Hfd Hf Hinj v true) as (s' & f' & Hi & _).
  rewrite Hi. cbn [crc_verdict obind].
  destruct (Z.eqb_spec c (Crc32.sparse_crc32 0 (file_image h s))) as [E|E].
  - exists (Some s'), f'. split; [done|]. by split.
  - exists None, f'. split; [done|]. split; [|done]. by intros [? ?].
Qed.

(** The example file with a checksum chunk. *)
Definition ex_crc_stream (c : Z) : Posix.file :=
  Posix.mk_file (sparse_header_bytes (OF.init_header 8 56 5 true) ++
    chunks_bytes 8 (file_chunks ex_host ex_file) ++ chunk_bytes 8 (Crc c)) 0 (fun p => 1 + p mod 5) (fun _ => 0).

Lemma ex_crc_stream_ok c : 0 <= c < 2 ^ 32 -> holds_stream ex_host ex_file (Some c) (ex_crc_stream c).
Proof.
  intros Hc. split; [intros p; simpl; pose proof (Z.mod_pos_bound p 5); lia|]. split; [done|].
  split; [|split; [by intros ? [= <-]|done]].
  unfold Posix.f_size, ex_crc_stream. cbn [Posix.f_data].
  rewrite !zlen_app, sparse_header_bytes_len. unfold chunk_bytes.
  rewrite zlen_app, chunk_header_bytes_len. cbn [chunk_body]. rewrite zlen_le_bytes. vm_compute. done.
Qed.

Lemma import_checks_crc_witness :
  exists o f', sparse_file_import (true, true) true (fun j => Some j) 3 (ex_crc_stream 0x12345678) false true
    = Ok (o, f') /\ o = None.
Proof.
  destruct (import_checks_crc ex_host ex_file 7 0x12345678 (ex_crc_stream 0x12345678) (fun j => j) 3 false)
    as (o & f' & H1 & H2).
  - exact ex_file_ok.
  - done.
  - by repeat split.
  - apply ex_crc_stream_ok. done.
  - done.
  - exists o, f'. split; [exact H1|]. destruct o; [|reflexivity].
    destruct H2 as [H2 _]. specialize (H2 ltac:(eexists; reflexivity)). vm_compute in H2. discriminate H2.
Defined.

(** Importing an image that has a checksum chunk with checking off
    dereferences the null [crc_ptr]. *)
Theorem import_crc_null_deref h s nb c f al fd v :
  sparse_ok h s nb -> countable s -> fills_distinct None (file_chunks h s) ->
  holds_stream h s (Some c) f -> (forall j k, al j = al k -> j = k) ->
  sparse_file_import (true, true) true (fun j => Some (al j)) fd f v false = Undef.
Proof.
  intros Hs Hc Hfd Hf Hinj.
  destruct (import_spec h s nb (Some c) f al fd Hs Hc Hfd Hf Hinj v false) as (s' & f' & Hi & _).
  by rewrite Hi.
Qed.

Lemma import_crc_null_deref_witness :
  sparse_file_import (true, true) true (fun j => Some j) 3 (ex_crc_stream 7) false false = Undef.
Proof.
  apply (import_crc_null_deref ex_host ex_file 7 7 (ex_crc_stream 7) (fun j => j) 3 false ex_file_ok);
    [done|by repeat split|by apply ex_crc_stream_ok|done].
Defined.

(** Where writer and reader agree on the checksum: data and single blocks. *)
Definition crc_agrees (c : chunk) : Prop :=
  match c with Raw _ => True | Fill k _ => k = 1 | _ => False end.

Lemma fill_crc_words bs v c :
  0 <= bs -> OF.fill_crc bs v c = Crc32.sparse_crc32 c (fill_words (bs / 4) v).
Proof.
  intros Hbs. unfold OF.fill_crc, fill_words. revert c.
  induction (Z.to_nat (bs / 4)) as [|n IH]; intros c.
  - simpl. by rewrite Crc32.sparse_crc32_nil.
  - cbn [replicate concat]. rewrite Nat.iter_succ_r, IH. by rewrite Crc32.sparse_crc32_app.
Qed.

Lemma writer_crc_image bs cs : 0 <= bs -> Forall crc_agrees cs -> forall c,
  fold_left (writer_crc bs) cs c = Crc32.sparse_crc32 c (chunks_image bs cs).
Proof.
  intros Hbs. induction 1 as [|x cs Hx _ IH]; intros c; simpl; [by rewrite Crc32.sparse_crc32_nil|].
  rewrite IH. change (chunks_image bs (x :: cs)) with (chunk_image bs x ++ chunks_image bs cs).
  rewrite Crc32.sparse_crc32_app. f_equal. destruct x; simpl in *; try done.
  subst k. by rewrite fill_crc_words, Z.mul_1_l.
Qed.

Lemma writer_crc_range bs cs : forall c, 0 <= c < 2 ^ 32 -> 0 <= fold_left (writer_crc bs) cs c < 2 ^ 32.
Proof.
  induction cs as [|x cs IH]; intros c Hc; simpl; [done|]. apply IH.
  destruct x; simpl; auto; [by apply Crc32.sparse_crc32_range|].
  unfold OF.fill_crc. induction (Z.to_nat (bs / 4)) as [|n IHn]; [done|].
  rewrite Nat.iter_succ. by apply Crc32.sparse_crc32_range.
Qed.

(** What the library writes with a checksum it also accepts, provided the
    file has no gaps and every fill block is one block long. *)
Theorem crc_roundtrip h s nb f al fd v :
  sparse_ok h s nb -> countable s -> fills_distinct None (file_chunks h s) ->
  Forall crc_agrees (file_chunks h s) ->
  OF.readable f -> Posix.f_pos f = 0 -> Posix.f_size f < 2 ^ 62 ->
  Posix.f_data f = sparse_stream h s true -> (forall j k, al j = al k -> j = k) ->
  exists s' f', sparse_file_import (true, true) true (fun j => Some (al j)) fd f v true =
      Ok (Some s', f') /\
    (forall h', sees h' fd f -> file_image h' s' = file_image h s).
Proof.
  intros Hs Hc Hfd Hag Hr Hp Hsz Hd Hinj. pose proof Hs as (Hbs & _).
  set (c := fold_left (writer_crc (s_block_size s)) (file_chunks h s) 0).
  assert (Hf : holds_stream h s (Some c) f).
  { split; [done|]. split; [done|]. split; [done|]. split; [|exact Hd].
    intros ? [= <-]. apply writer_crc_range. lia. }
  destruct (import_spec h s nb (Some c) f al fd Hs Hc Hfd Hf Hinj v true)
    as (s' & f' & Hi & E1 & E2 & E3 & _).
  assert (Hcrc : c = Crc32.sparse_crc32 0 (file_image h s)) by (apply writer_crc_image; [lia|done]).
  exists s', f'. rewrite Hi. cbn [crc_verdict obind]. rewrite <- Hcrc, Z.eqb_refl. split; [done|].
  intros h' [Hh _]. by eapply (import_image h s nb (Some c) f al fd).
Qed.

Definition ex_dense : sparse_file :=
  mk_sparse_file 8 24 false
    (mk_bbl [mk_bb 16 0 8 (bb_fill 7); mk_bb 17 1 11 (bb_fd 3 2)] None 8).

Lemma ex_dense_ok : sparse_ok ex_host ex_dense 3.
Proof.
  split; [done|]. split; [done|]. split; [done|]. split; [done|].
  split; [vm_compute; intuition congruence|]. repeat constructor; vm_compute; congruence.
Qed.

Lemma crc_roundtrip_witness :
  let f := Posix.mk_file (sparse_stream ex_host ex_dense true) 0 (fun _ => 100) (fun _ => 0) in
  exists s' f', sparse_file_import (true, true) true (fun j => Some j) 3 f false true = Ok (Some s', f').
Proof.
  intros f. destruct (crc_roundtrip ex_host ex_dense 3 f (fun j => j) 3 false) as (s' & f' & H & _).
  - exact ex_dense_ok.
  - done.
  - by repeat split.
  - repeat constructor.
  - intros p. simpl. lia.
  - done.
  - vm_compute. done.
  - done.
  - done.
  - exists s', f'. exact H.
Defined.

(** Otherwise it may not. The checksum [sparse_file_write] puts into the
    example file, which has gaps and a two-block fill, is not the one
    [sparse_file_import] computes, so the library rejects its own output. *)
Theorem own_crc_rejected :
  exists f', sparse_file_import (true, true) true (fun j => Some j) 3
    (Posix.mk_file (sparse_stream ex_host ex_file true) 0 (fun _ => 100) (fun _ => 0)) false true =
    Ok (None, f').
Proof.
  set (f := Posix.mk_file _ _ _ _).
  set (c := fold_left (writer_crc 8) (file_chunks ex_host ex_file) 0).
  assert (Hf : holds_stream ex_host ex_file (Some c) f).
  { split; [by intros p|]. split; [reflexivity|]. split; [by vm_compute|]. split; [|reflexivity].
    intros x E. apply (f_equal (default 0)) in E. change (c = x) in E. rewrite <- E.
    apply writer_crc_range. lia. }
  destruct (import_spec ex_host ex_file 7 (Some c) f (fun j => j) 3 ex_file_ok ltac:(done)
    ltac:(by repeat split) Hf ltac:(done) false true) as (s' & f' & Hi & _).
  exists f'. rewrite Hi. cbn [crc_verdict obind].
  assert (Hne : (c =? Crc32.sparse_crc32 0 (file_image ex_host ex_file)) = false) by (vm_compute; reflexivity).
  rewrite Hne. done.
Qed.

(** One round of the loop on a block that is not uniform. *)
Lemma normal_loop_fd fuel al s fd f p remain block :
  OF.readable f -> 0 <= p -> 0 < s_block_size s <= remain -> p + s_block_size s <= Posix.f_size f ->
  uniform (s_block_size s) (sub_bytes (Posix.f_data f) p (s_block_size s)) = false ->
  normal_loop (S fuel) al s fd (Posix.set_pos f p) remain p block =
    let! (_, s') := sparse_file_add_fd s (al block) fd p (s_block_size s) block in
    normal_loop fuel al s' fd (Posix.set_pos f (p + s_block_size s)) (remain - s_block_size s)
      (p + s_block_size s) (u32 (block + 1)).
Proof.
  intros Hr Hp Hbs Hs Hu. cbn [normal_loop].
  assert (H1 : (0 <? remain) = true) by lia. rewrite H1, Z.min_r by lia.
  rewrite OF.read_all_inside; [|done|done|lia|exact Hs].
  cbn [obind Z.ltb Z.compare Posix.f_pos Posix.f_data Posix.set_pos].
  change (0 <? 0) with false. cbv iota. rewrite Hu, andb_false_r. done.
Qed.

(** Reading a normal file walks into freed memory. When the first three
    blocks of the file are not filled with one word each, every block after
    the first is merged into its predecessor and freed while [last_used]
    still points to it; the third call to [sparse_file_add_fd] then reads the
    freed block, unless the allocator reuses its address. *)
Theorem read_normal_use_after_free al fd f len v :
  let s := mk_sparse_file 4096 len v (backed_block_list_new 4096) in
  OF.readable f -> Posix.f_pos f = 0 -> 3 * 4096 <= len <= Posix.f_size f ->
  (forall b, 0 <= b < 3 -> uniform 4096 (sub_bytes (Posix.f_data f) (b * 4096) 4096) = false) ->
  al 0 <> al 1 -> al 1 <> al 2 ->
  sparse_file_read_normal true (fun j => Some (al j)) s fd f = Undef.
Proof.
  intros s Hr Hp Hlen Hu H01 H12. subst s. unfold sparse_file_read_normal.
  cbn [negb s_len s_block_size].
  pose proof (DIV_ROUND_UP_bound len 4096 ltac:(done)) as Hd.
  destruct (Z.to_nat (DIV_ROUND_UP len 4096)) as [|[|[|fuel]]] eqn:En; try lia.
  assert (Hf : f = Posix.set_pos f 0) by (destruct f; simpl in *; by subst).
  rewrite Hf at 1. pose proof (Hu 0 ltac:(lia)) as Hu0. pose proof (Hu 1 ltac:(lia)) as Hu1.
  pose proof (Hu 2 ltac:(lia)) as Hu2. clear Hu.
  change (0 * 4096) with 0 in Hu0. change (1 * 4096) with 4096 in Hu1. change (2 * 4096) with 8192 in Hu2.
  rewrite normal_loop_fd; [|exact Hr|lia|cbn [s_block_size]; lia|cbn [s_block_size]; lia|exact Hu0].
  unfold sparse_file_add_fd at 1, with_list at 1, backed_block_add_fd, queue_bb.
  cbn [s_list s_block_size backed_block_list_new data_blocks obind set_list last_used block_size].
  change (u32 (0 + 1)) with 1. rewrite Z.add_0_l.
  unfold set_list at 1. cbn [s_len s_block_size verbose].
  rewrite normal_loop_fd; [|exact Hr|lia|cbn [s_block_size]; lia|cbn [s_block_size]; lia|exact Hu1].
  assert (Hadd2 : sparse_file_add_fd
     (mk_sparse_file 4096 len v (mk_bbl [mk_bb (al 0) 0 4096 (bb_fd fd 0)] None 4096))
     (Some (al 1)) fd 4096 4096 1 =
     Ok (0, mk_sparse_file 4096 len v (mk_bbl [mk_bb (al 0) 0 8192 (bb_fd fd 0)] (Some (al 1)) 4096))).
  { unfold sparse_file_add_fd, with_list, backed_block_add_fd, queue_bb. simpl.
    unfold mergeable. simpl. rewrite Z.eqb_refl. reflexivity. }
  cbn [s_block_size]. rewrite Hadd2. cbn [obind]. change (u32 (1 + 1)) with 2.
  change (4096 + 4096) with 8192.
  rewrite normal_loop_fd; [|exact Hr|lia|cbn [s_block_size]; lia|cbn [s_block_size]; lia|exact Hu2].
  unfold sparse_file_add_fd, with_list, backed_block_add_fd. cbn [s_list s_block_size].
  rewrite (queue_bb_dangling _ _ (mk_bb (al 0) 0 8192 (bb_fd fd 0)) [] (al 1)); try done.
  simpl. intros [E|[]]. done.
Qed.

Definition ex_normal : Posix.file :=
  Posix.mk_file (concat (replicate 3 (1 :: zeros 4095))) 0 (fun _ => 5000) (fun _ => 0).

Lemma read_normal_use_after_free_witness :
  sparse_file_read_normal true (fun j => Some j)
    (mk_sparse_file 4096 12288 false (backed_block_list_new 4096)) 3 ex_normal = Undef.
Proof.
  apply (read_normal_use_after_free (fun j => j) 3 ex_normal 12288 false).
  - by intros p.
  - reflexivity.
  - vm_compute. split; discriminate.
  - intros b Hb. assert (b = 0 \/ b = 1 \/ b = 2) as [->|[->| ->]] by lia; vm_compute; reflexivity.
  - discriminate.
  - discriminate.
Defined.

End SparseRead.
