(* ===== verification/ConfigUtils.v ===== *)
(** * libcutils/config_utils.c

    The configuration tree and its parser. A [cnode] is a node with its list
    of children; the parser changes a node in the tree by returning the
    changed node to the caller that holds its parent. The text that is parsed
    is a list of characters whose end stands for the terminating NUL. *)

From S2P Require Import Prelude.
From Stdlib Require Import Ascii.

Module ConfigUtils.

Definition text : Type := list ascii.

(** A string literal. *)
Definition lit (s : string) : text := String.list_ascii_of_string s.

Inductive cnode : Type := Cnode (name value : text) (children : list cnode).

Definition c_name (n : cnode) : text := let 'Cnode a _ _ := n in a.
Definition c_value (n : cnode) : text := let 'Cnode _ v _ := n in v.
Definition c_children (n : cnode) : list cnode := let 'Cnode _ _ c := n in c.

Definition set_value (n : cnode) (v : text) : cnode := Cnode (c_name n) v (c_children n).
Definition set_children (n : cnode) (c : list cnode) : cnode := Cnode (c_name n) (c_value n) c.

(** ** Nodes *)

Definition config_node (name value : text) : cnode := Cnode name value [].

Definition text_eqb (a b : text) : bool := bool_decide (a = b).

(** The position of the last child of that name. *)
Fixpoint find_last (l : list cnode) (name : text) : option nat :=
  match l with
  | [] => None
  | n :: l' =>
    match find_last l' name with
    | Some i => Some (S i)
    | None => if text_eqb (c_name n) name then Some O else None
    end
  end.

Definition config_find (root : cnode) (name : text) : option cnode :=
  match find_last (c_children root) name with
  | Some i => c_children root !! i
  | None => None
  end.

(** The new node is the last child. *)
Definition _config_create (root : cnode) (name : text) : cnode :=
  set_children root (c_children root ++ [config_node name []]).

Definition config_bool (root : cnode) (name : text) (_default : Z) : Z :=
  match config_find root name with
  | None => _default
  | Some n =>
    match c_value n with
    | "y"%char :: _ | "Y"%char :: _ | "1"%char :: _ => 1
    | _ => 0
    end
  end.

Definition config_str (root : cnode) (name : text) (_default : option text) : option text :=
  match config_find root name with
  | None => _default
  | Some n => Some (c_value n)
  end.

Definition config_set (root : cnode) (name value : text) : cnode :=
  match find_last (c_children root) name with
  | Some i => set_children root (alter (fun n => set_value n value) i (c_children root))
  | None => set_children root (c_children root ++ [config_node name value])
  end.

(** ** The lexer *)

Inductive token : Type := T_EOF | T_TEXT (t : text) | T_DOT | T_OBRACE | T_CBRACE.

Record cstate := mk_cs { cs_data : text; cs_next : option ascii }.

Definition nl : ascii := "010"%char.

Definition isspace (c : ascii) : bool :=
  let n := nat_of_ascii c in (n =? 32)%nat || ((9 <=? n)%nat && (n <=? 13)%nat).

(** A character that ends a word and is a token of its own. *)
Definition isdelim (c : ascii) : bool :=
  (c =? ".")%char || (c =? "{")%char || (c =? "}")%char.

(** A word: what comes before white space, a delimiter or the end; the white
    space is consumed, the delimiter kept in [next]. *)
Fixpoint lex_word (l : text) : text * text * option ascii :=
  match l with
  | [] => ([], [], None)
  | c :: l' =>
    if isspace c then ([], l', None)
    else if isdelim c then ([], l', Some c)
    else let '(w, r, n) := lex_word l' in (c :: w, r, n)
  end.

(** The rest of the line, and whether a newline ended it. *)
Fixpoint lex_line (l : text) : text * text * bool :=
  match l with
  | [] => ([], [], false)
  | c :: l' =>
    if (c =? nl)%char then ([], l', true)
    else let '(w, r, e) := lex_line l' in (c :: w, r, e)
  end.

(** Drops white space at the end; the first character stays. *)
Fixpoint strip (l : text) : text :=
  match l with
  | [] => []
  | c :: l' =>
    match strip l' with
    | [] => if isspace c then [] else [c]
    | s => c :: s
    end
  end.

Definition tok_char (c : ascii) : token :=
  if (c =? ".")%char then T_DOT else if (c =? "{")%char then T_OBRACE else T_CBRACE.

(** [cur] is what [cs->data] holds when the end of the text is reached. *)
Fixpoint lex_loop (value comment : bool) (l cur : text) : token * cstate :=
  match l with
  | [] => (T_EOF, mk_cs (if comment then [] else cur) None)
  | c :: l' =>
    if comment then
      if (c =? nl)%char then lex_loop value false l' l' else lex_loop value true l' cur
    else if isspace c then lex_loop value false l' cur
    else if (c =? "#")%char then lex_loop value true l' cur
    else if isdelim c then (tok_char c, mk_cs l' None)
    else if value then
      let '(w, r, e) := lex_line l' in
      (T_TEXT (c :: if e then strip w else w), mk_cs r None)
    else
      let '(w, r, n) := lex_word l' in (T_TEXT (c :: w), mk_cs r n)
  end.

Definition _lex (cs : cstate) (value : bool) : token * cstate :=
  match cs_next cs with
  | Some c => (tok_char c, mk_cs (cs_data cs) None)
  | None => lex_loop value false (cs_data cs) (cs_data cs)
  end.

(** ** The parser

    The functions return the state of the lexer, the changed node and the
    return value. *)

Definition replace_last (l : list cnode) (n : cnode) : list cnode := removelast l ++ [n].

(** The child [parse_expr] works on: the last one of that name if its value is
    still empty, otherwise a new one. *)
Definition pick_child (root : cnode) (name : text) : cnode * nat * cnode :=
  match find_last (c_children root) name with
  | Some i =>
    match c_children root !! i with
    | Some n =>
      match c_value n with
      | [] => (root, i, n)
      | _ => (_config_create root name, length (c_children root), config_node name [])
      end
    | None => (_config_create root name, length (c_children root), config_node name [])
    end
  | None => (_config_create root name, length (c_children root), config_node name [])
  end.

Fixpoint parse_expr (fuel : nat) (cs : cstate) (name : text) (root : cnode)
  : outcome (cstate * cnode * Z) :=
  match fuel with
  | O => NoFuel
  | S fuel' =>
    let '(root, i, node) := pick_child root name in
    let! (cs, node, ret) := parse_tail fuel' cs node in
    Ok (cs, set_children root (<[i := node]> (c_children root)), ret)
  end
with parse_tail (fuel : nat) (cs : cstate) (node : cnode) : outcome (cstate * cnode * Z) :=
  match fuel with
  | O => NoFuel
  | S fuel' =>
    match _lex cs true with
    | (T_DOT, cs) =>
      match _lex cs false with
      | (T_TEXT t, cs) =>
        let! (cs, child, ret) := parse_tail fuel' cs (config_node t []) in
        Ok (cs, set_children node (c_children node ++ [child]), ret)
      | (_, cs) => Ok (cs, node, -1)
      end
    | (T_TEXT t, cs) => Ok (cs, set_value node t, 0)
    | (T_OBRACE, cs) => parse_block fuel' cs node
    | (_, cs) => Ok (cs, node, -1)
    end
  end
with parse_block (fuel : nat) (cs : cstate) (node : cnode) : outcome (cstate * cnode * Z) :=
  match fuel with
  | O => NoFuel
  | S fuel' =>
    match _lex cs false with
    | (T_TEXT t, cs) =>
      let! (cs, node, ret) := parse_expr fuel' cs t node in
      if negb (ret =? 0) then Ok (cs, node, -1) else parse_block fuel' cs node
    | (T_CBRACE, cs) => Ok (cs, node, 0)
    | (_, cs) => Ok (cs, node, -1)
    end
  end.

Fixpoint load_loop (fuel : nat) (cs : cstate) (root : cnode) : outcome cnode :=
  match fuel with
  | O => NoFuel
  | S fuel' =>
    match _lex cs false with
    | (T_TEXT t, cs) =>
      let! (cs, root, ret) := parse_expr fuel' cs t root in
      if negb (ret =? 0) then Ok root else load_loop fuel' cs root
    | (_, _) => Ok root
    end
  end.

(** Every token takes a character off the text, and one token leads to at
    most three nested calls. *)
Definition load_fuel (data : text) : nat := 4 + 4 * length data.

Definition config_load (root : cnode) (data : option text) : outcome cnode :=
  match data with
  | None => Ok root
  | Some d => load_loop (load_fuel d) (mk_cs d None) root
  end.

(** [load_file] reads a file, or gives NULL. *)
Definition config_load_file (load_file : text -> option text) (root : cnode) (fn : text)
  : outcome cnode :=
  config_load root (load_file fn).

(** The nodes that are freed, in order (a node is named by its position). *)
Fixpoint config_free (path : list nat) (root : cnode) : list (list nat) :=
  match root with
  | Cnode _ _ children =>
    (fix go (i : nat) (l : list cnode) : list (list nat) :=
       match l with
       | [] => []
       | c :: l' => config_free (path ++ [i]) c ++ [path ++ [i]] ++ go (S i) l'
       end) O children
  end.

(** ** Lemmas: the lexer consumes its input *)

Definition weight (cs : cstate) : nat :=
  length (cs_data cs) + match cs_next cs with Some _ => 1 | None => 0 end.

Lemma lex_word_len l w r n :
  lex_word l = (w, r, n) -> (length r + match n with Some _ => 1 | None => 0 end <= length l)%nat.
Proof.
  revert w r n. induction l as [|c l IH]; intros w r n; simpl; [by intros [= <- <- <-]|].
  destruct (isspace c); [intros [= <- <- <-]; simpl; lia|].
  destruct (isdelim c); [intros [= <- <- <-]; simpl; lia|].
  destruct (lex_word l) as [[w' r'] n'] eqn:E. intros [= <- <- <-].
  specialize (IH _ _ _ eq_refl). lia.
Qed.

Lemma lex_line_len l w r e : lex_line l = (w, r, e) -> (length r <= length l)%nat.
Proof.
  revert w r e. induction l as [|c l IH]; intros w r e; simpl; [by intros [= <- <- <-]|].
  destruct (c =? nl)%char; [intros [= <- <- <-]; lia|].
  destruct (lex_line l) as [[w' r'] e'] eqn:E. intros [= <- <- <-].
  specialize (IH _ _ _ eq_refl). lia.
Qed.

Lemma lex_loop_len value l : forall comment cur tok cs,
  lex_loop value comment l cur = (tok, cs) ->
  match tok with
  | T_EOF => (weight cs <= max (length l) (length cur))%nat
  | _ => (weight cs < length l)%nat
  end.
Proof.
  induction l as [|c l IH]; intros comment cur tok cs; cbn [lex_loop].
  - intros [= <- <-]. unfold weight. simpl. destruct comment; simpl; lia.
  - assert (Hrec : forall cm cur', lex_loop value cm l cur' = (tok, cs) ->
      (length cur' <= max (S (length l)) (length cur))%nat ->
      match tok with T_EOF => (weight cs <= max (length (c :: l)) (length cur))%nat
                   | _ => (weight cs < length (c :: l))%nat end).
    { intros cm cur' H Hc. apply IH in H. destruct tok; simpl in *; lia. }
    destruct comment; [destruct (c =? nl)%char; intros H; eapply Hrec; eauto; lia|].
    destruct (isspace c); [intros H; eapply Hrec; eauto; lia|].
    destruct (c =? "#")%char; [intros H; eapply Hrec; eauto; lia|].
    destruct (isdelim c).
    { intros [= <- <-]. unfold weight, tok_char. simpl.
      destruct (c =? ".")%char; [lia|]. destruct (c =? "{")%char; lia. }
    destruct value.
    + destruct (lex_line l) as [[w r] e] eqn:E. intros [= <- <-]. apply lex_line_len in E.
      unfold weight. simpl. lia.
    + destruct (lex_word l) as [[w r] n] eqn:E. intros [= <- <-]. apply lex_word_len in E.
      unfold weight. simpl. lia.
Qed.

Lemma _lex_len cs value tok cs' :
  _lex cs value = (tok, cs') ->
  (weight cs' <= weight cs)%nat /\ (tok <> T_EOF -> (weight cs' < weight cs)%nat).
Proof.
  unfold _lex. destruct (cs_next cs) as [c|] eqn:En.
  - intros [= <- <-]. unfold weight. rewrite En. simpl. split; [lia|]. intros _. lia.
  - intros H. pose proof (lex_loop_len _ _ _ _ _ _ H) as Hl. unfold weight at 2 4. rewrite En.
    destruct tok; split; intros; try lia; done.
Qed.

(** The parser returns when its fuel is three times what is left to read. *)
Lemma parse_total fuel :
  (forall cs name root, (3 * weight cs + 2 <= fuel)%nat ->
     exists cs' r ret, parse_expr fuel cs name root = Ok (cs', r, ret) /\ (weight cs' <= weight cs)%nat) /\
  (forall cs node, (3 * weight cs + 1 <= fuel)%nat ->
     exists cs' r ret, parse_tail fuel cs node = Ok (cs', r, ret) /\ (weight cs' <= weight cs)%nat) /\
  (forall cs node, (3 * weight cs + 1 <= fuel)%nat ->
     exists cs' r ret, parse_block fuel cs node = Ok (cs', r, ret) /\ (weight cs' <= weight cs)%nat).
Proof.
  induction fuel as [|fuel (IHe & IHt & IHb)]; [split; [|split]; intros; lia|]. split; [|split].
  - intros cs name root Hf. cbn [parse_expr]. destruct (pick_child root name) as [[root' i] node].
    destruct (IHt cs node ltac:(lia)) as (cs' & r & ret & -> & Hw). cbn [obind]. eauto.
  - intros cs node Hf. cbn [parse_tail]. destruct (_lex cs true) as [tok cs1] eqn:E1.
    destruct (_lex_len _ _ _ _ E1) as [Hle Hlt]. destruct tok; eauto 6.
    + specialize (Hlt ltac:(done)). destruct (_lex cs1 false) as [tok cs2] eqn:E2.
      destruct (_lex_len _ _ _ _ E2) as [Hle2 Hlt2].
      destruct tok; try (do 3 eexists; split; [done|lia]).
      destruct (IHt cs2 (config_node t []) ltac:(lia)) as (cs' & r & ret & -> & Hw). cbn [obind].
      do 3 eexists. split; [done|lia].
    + specialize (Hlt ltac:(done)).
      destruct (IHb cs1 node ltac:(lia)) as (cs' & r & ret & -> & Hw). do 3 eexists. split; [done|lia].
  - intros cs node Hf. cbn [parse_block]. destruct (_lex cs false) as [tok cs1] eqn:E1.
    destruct (_lex_len _ _ _ _ E1) as [Hle Hlt]. destruct tok; eauto 6.
    specialize (Hlt ltac:(done)).
    destruct (IHe cs1 t node ltac:(lia)) as (cs' & r & ret & -> & Hw). cbn [obind].
    destruct (negb (ret =? 0)); [do 3 eexists; split; [done|lia]|].
    destruct (IHb cs' r ltac:(lia)) as (cs2 & r2 & ret2 & -> & Hw2). do 3 eexists. split; [done|lia].
Qed.

Lemma load_loop_total fuel : forall cs root,
  (3 * weight cs + 3 <= fuel)%nat -> exists r, load_loop fuel cs root = Ok r.
Proof.
  induction fuel as [|fuel IH]; intros cs root Hf; [lia|]. cbn [load_loop].
  destruct (_lex cs false) as [tok cs1] eqn:E1. destruct (_lex_len _ _ _ _ E1) as [Hle Hlt].
  destruct tok; eauto. specialize (Hlt ltac:(done)).
  destruct (parse_total fuel) as (He & _).
  destruct (He cs1 t root ltac:(lia)) as (cs' & r & ret & -> & Hw). cbn [obind].
  destruct (negb (ret =? 0)); [eauto|]. apply IH. lia.
Qed.

(** ** Printing a tree *)

(** A node with a value is a line; any other node is a block. *)
Fixpoint print_node (n : cnode) : text :=
  match n with
  | Cnode name [] children =>
    name ++ " "%char :: "{"%char :: nl :: concat (map print_node children) ++ ["}"%char; nl]
  | Cnode name value _ => name ++ " "%char :: value ++ [nl]
  end.

Definition print_nodes (l : list cnode) : text := concat (map print_node l).

(** What comes behind the name. *)
Definition node_rest (n : cnode) : text :=
  match n with
  | Cnode _ [] children => "{"%char :: nl :: print_nodes children ++ ["}"%char; nl]
  | Cnode _ value _ => value ++ [nl]
  end.

Definition word_char (c : ascii) : bool := negb (isspace c) && negb (isdelim c).

Definition name_ok (t : text) : bool :=
  match t with
  | [] => false
  | c :: _ => negb (c =? "#")%char && forallb word_char t
  end.

Definition value_ok (t : text) : bool :=
  match t with
  | [] => false
  | c :: _ =>
    negb (c =? "#")%char && word_char c && forallb (fun c => negb (c =? nl)%char) t &&
    bool_decide (strip t = t)
  end.

(** Names are words, a node has a value or children, and siblings have
    different names. *)
Inductive node_ok : cnode -> Prop :=
  | leaf_ok name value : name_ok name = true -> value_ok value = true -> node_ok (Cnode name value [])
  | block_ok name children :
      name_ok name = true -> Forall node_ok children -> NoDup (map c_name children) ->
      node_ok (Cnode name [] children).

Lemma print_node_split n : print_node n = c_name n ++ " "%char :: node_rest n.
Proof. destruct n as [name [|v value] children]; done. Qed.

Lemma char_eqb_neq (a b : ascii) : a <> b -> (a =? b)%char = false.
Proof. intros. by apply Ascii.eqb_neq. Qed.

Lemma lex_word_app w r :
  forallb word_char w = true -> lex_word (w ++ " "%char :: r) = (w, r, None).
Proof.
  induction w as [|c w IH]; [done|]. cbn [forallb app lex_word].
  intros [Hc Hw]%andb_true_iff. unfold word_char in Hc. apply andb_true_iff in Hc as [Hs Hd].
  apply negb_true_iff in Hs, Hd. rewrite Hs, Hd, IH by done. done.
Qed.

Lemma lex_line_app w r :
  forallb (fun c => negb (c =? nl)%char) w = true -> lex_line (w ++ nl :: r) = (w, r, true).
Proof.
  induction w as [|c w IH]; [done|]. cbn [forallb app lex_line].
  intros [Hc Hw]%andb_true_iff. apply negb_true_iff in Hc. rewrite Hc, IH by done. done.
Qed.

Lemma lex_loop_space value ws l cur :
  forallb isspace ws = true -> lex_loop value false (ws ++ l) cur = lex_loop value false l cur.
Proof.
  induction ws as [|c ws IH]; [done|]. cbn [forallb app lex_loop].
  intros [Hc Hw]%andb_true_iff. by rewrite Hc, IH.
Qed.

(** The name of a node. *)
Lemma lex_name ws t r :
  forallb isspace ws = true -> name_ok t = true ->
  _lex (mk_cs (ws ++ t ++ " "%char :: r) None) false = (T_TEXT t, mk_cs r None).
Proof.
  intros Hws Ht. unfold _lex. cbn [cs_next cs_data]. rewrite lex_loop_space by done.
  destruct t as [|c t]; [done|]. cbn [name_ok] in Ht. apply andb_true_iff in Ht as [Hh Hall].
  cbn [forallb] in Hall. apply andb_true_iff in Hall as [Hc Hall]. unfold word_char in Hc.
  apply andb_true_iff in Hc as [Hs Hd]. apply negb_true_iff in Hh, Hs, Hd.
  cbn [app lex_loop]. rewrite Hs, Hh, Hd, lex_word_app by done. done.
Qed.

Lemma strip_cons c t : isspace c = false -> strip (c :: t) = c :: t -> strip t = t.
Proof.
  intros Hc. cbn [strip]. destruct (strip t) eqn:E; [|by intros [= ->]].
  rewrite Hc. by intros [= <-].
Qed.

Lemma lex_value v r :
  value_ok v = true -> _lex (mk_cs (v ++ nl :: r) None) true = (T_TEXT v, mk_cs r None).
Proof.
  intros Hv. unfold _lex. cbn [cs_next cs_data]. destruct v as [|c v]; [done|].
  cbn [value_ok] in Hv. apply andb_true_iff in Hv as [Hv Hst]. apply andb_true_iff in Hv as [Hv Hnl].
  apply andb_true_iff in Hv as [Hh Hc]. apply bool_decide_eq_true in Hst.
  cbn [forallb] in Hnl. apply andb_true_iff in Hnl as [_ Hnl]. unfold word_char in Hc.
  apply andb_true_iff in Hc as [Hs Hd]. apply negb_true_iff in Hh, Hs, Hd.
  cbn [app lex_loop]. rewrite Hs, Hh, Hd, lex_line_app by done.
  by rewrite (strip_cons _ _ Hs Hst).
Qed.

Lemma lex_delim value ws c r :
  forallb isspace ws = true -> isdelim c = true ->
  _lex (mk_cs (ws ++ c :: r) None) value = (tok_char c, mk_cs r None).
Proof.
  intros Hws Hc. unfold _lex. cbn [cs_next cs_data]. rewrite lex_loop_space by done.
  cbn [lex_loop]. unfold isdelim in *. apply orb_true_iff in Hc as [Hc|Hc].
  - apply orb_true_iff in Hc as [Hc|Hc]; apply Ascii.eqb_eq in Hc as ->; reflexivity.
  - apply Ascii.eqb_eq in Hc as ->; reflexivity.
Qed.

Lemma find_last_none l name : ~ In name (map c_name l) -> find_last l name = None.
Proof.
  induction l as [|n l IH]; [done|]. simpl. intros H. rewrite IH by tauto.
  unfold text_eqb. rewrite bool_decide_false; [done|]. tauto.
Qed.

Lemma pick_new root name :
  ~ In name (map c_name (c_children root)) ->
  pick_child root name = (_config_create root name, length (c_children root), config_node name []).
Proof. intros H. unfold pick_child. by rewrite find_last_none. Qed.

Lemma insert_last {A} (l : list A) x y : <[length l := y]> (l ++ [x]) = l ++ [y].
Proof. rewrite insert_app_r_alt by lia. by rewrite Nat.sub_diag. Qed.

Lemma len_nodes n l : length (print_nodes (n :: l)) = (length (print_node n) + length (print_nodes l))%nat.
Proof. unfold print_nodes. simpl. by rewrite length_app. Qed.

Lemma find_last_some l name i : find_last l name = Some i -> exists n, l !! i = Some n /\ c_name n = name.
Proof.
  revert i. induction l as [|n l IH]; intros i; [done|]. simpl.
  destruct (find_last l name) as [j|]; [intros [= <-]; by apply IH|].
  unfold text_eqb. case_bool_decide; [|done]. intros [= <-]. by exists n.
Qed.

Lemma find_last_alter (f : cnode -> cnode) i l name :
  (forall n, c_name (f n) = c_name n) -> find_last (alter f i l) name = find_last l name.
Proof.
  intros Hf. revert i. induction l as [|n l IH]; intros [|i]; try done.
  - change (alter f 0%nat (n :: l)) with (f n :: l). simpl. by rewrite Hf.
  - change (alter f (S i) (n :: l)) with (n :: alter f i l). simpl. by rewrite IH.
Qed.

Lemma find_last_app l k name :
  find_last (l ++ k) name =
  match find_last k name with
  | Some i => Some (length l + i)%nat
  | None => find_last l name
  end.
Proof.
  induction l as [|n l IH]; simpl; [by destruct (find_last k name)|]. rewrite IH.
  by destruct (find_last k name).
Qed.

(** Parsing what was printed: behind a name, at the value or block of a node,
    and inside a block. *)
Lemma parse_print fuel :
  (forall n root rest, node_ok n -> ~ In (c_name n) (map c_name (c_children root)) ->
     (3 * length (node_rest n ++ rest) + 2 <= fuel)%nat ->
     exists ws, forallb isspace ws = true /\ (length ws <= 1)%nat /\
       parse_expr fuel (mk_cs (node_rest n ++ rest) None) (c_name n) root =
       Ok (mk_cs (ws ++ rest) None, set_children root (c_children root ++ [n]), 0)) /\
  (forall n rest, node_ok n -> (3 * length (node_rest n ++ rest) + 1 <= fuel)%nat ->
     exists ws, forallb isspace ws = true /\ (length ws <= 1)%nat /\
       parse_tail fuel (mk_cs (node_rest n ++ rest) None) (config_node (c_name n) []) =
       Ok (mk_cs (ws ++ rest) None, n, 0)) /\
  (forall l node ws rest, Forall node_ok l -> NoDup (map c_name (c_children node ++ l)) ->
     forallb isspace ws = true ->
     (3 * length (ws ++ print_nodes l ++ "}"%char :: rest) + 1 <= fuel)%nat ->
     parse_block fuel (mk_cs (ws ++ print_nodes l ++ "}"%char :: rest) None) node =
     Ok (mk_cs rest None, set_children node (c_children node ++ l), 0)).
Proof.
  induction fuel as [|fuel (IHe & IHt & IHb)]; [split; [|split]; intros; lia|]. split; [|split].
  - intros n root rest Hn Hfresh Hf. cbn [parse_expr]. rewrite pick_new by done.
    destruct (IHt n rest Hn ltac:(lia)) as (ws & Hws & Hl & ->). cbn [obind]. exists ws. split; [done|].
    split; [done|]. unfold _config_create. cbn [c_children set_children]. by rewrite insert_last.
  - intros n rest Hn Hf. cbn [parse_tail].
    destruct Hn as [name value Hnm Hv|name children Hnm Hch Hnd]; cbn [c_name] in *.
    + exists []. split; [done|]. split; [simpl; lia|]. destruct value as [|v0 value]; [done|].
      assert (E : node_rest (Cnode name (v0 :: value) []) ++ rest = (v0 :: value) ++ nl :: rest).
      { cbn [node_rest]. by rewrite <- app_assoc. }
      by rewrite E, lex_value.
    + exists [nl]. split; [done|]. split; [simpl; lia|].
      assert (E : node_rest (Cnode name [] children) ++ rest =
                  [] ++ "{"%char :: ([nl] ++ print_nodes children ++ "}"%char :: [nl] ++ rest)).
      { cbn [node_rest app]. by rewrite <- !app_assoc. }
      rewrite E in Hf |- *. rewrite lex_delim by done. change (tok_char "{") with T_OBRACE. cbv iota.
      apply (IHb children (config_node name []) [nl] ([nl] ++ rest)); [done|done|done|].
      cbn [length app] in *. lia.
  - intros l node ws rest Hl Hnd Hws Hf. cbn [parse_block]. destruct l as [|n l].
    + cbn [print_nodes map concat app]. rewrite lex_delim by done.
      change (tok_char "}") with T_CBRACE. rewrite app_nil_r. by destruct node.
    + apply Forall_cons in Hl as [Hn Hl].
      assert (E : ws ++ print_nodes (n :: l) ++ "}"%char :: rest =
                  ws ++ c_name n ++ " "%char :: (node_rest n ++ print_nodes l ++ "}"%char :: rest)).
      { unfold print_nodes. cbn [map concat]. rewrite print_node_split, <- !app_assoc. done. }
      rewrite E in Hf |- *. assert (Hnm : name_ok (c_name n) = true) by (by destruct Hn).
      rewrite lex_name by done.
      assert (Hlen : (1 <= length (c_name n))%nat) by (destruct (c_name n); [done|simpl; lia]).
      assert (Hfresh : ~ In (c_name n) (map c_name (c_children node))).
      { rewrite map_app in Hnd. apply NoDup_app in Hnd as (_ & Hd & _). intros Hin.
        apply (Hd (c_name n)); [by apply list_elem_of_In|]. simpl. apply list_elem_of_here. }
      rewrite !length_app in Hf. simpl in Hf. rewrite !length_app in Hf. simpl in Hf.
      destruct (IHe n node (print_nodes l ++ "}"%char :: rest) Hn Hfresh) as (ws' & Hws' & Hl1 & ->).
      { rewrite !length_app. simpl. lia. }
      cbn [obind negb Z.eqb]. rewrite IHb; [|done| |done|].
      * cbn [c_children set_children c_name c_value]. by rewrite <- app_assoc.
      * cbn [c_children set_children]. by rewrite <- app_assoc.
      * rewrite !length_app. simpl. lia.
Qed.

Lemma load_print fuel : forall l root ws,
  Forall node_ok l -> NoDup (map c_name (c_children root ++ l)) -> forallb isspace ws = true ->
  (3 * length (ws ++ print_nodes l) + 3 <= fuel)%nat ->
  load_loop fuel (mk_cs (ws ++ print_nodes l) None) root =
  Ok (set_children root (c_children root ++ l)).
Proof.
  induction fuel as [|fuel IH]; intros l root ws Hl Hnd Hws Hf; [lia|]. cbn [load_loop].
  destruct l as [|n l].
  - unfold _lex. cbn [cs_next cs_data print_nodes map concat]. rewrite lex_loop_space by done.
    cbn [lex_loop]. rewrite app_nil_r. by destruct root.
  - apply Forall_cons in Hl as [Hn Hl].
    assert (E : ws ++ print_nodes (n :: l) = ws ++ c_name n ++ " "%char :: (node_rest n ++ print_nodes l)).
    { unfold print_nodes. cbn [map concat]. rewrite print_node_split, <- !app_assoc. done. }
    rewrite E in Hf |- *. assert (Hnm : name_ok (c_name n) = true) by (by destruct Hn).
    rewrite lex_name by done.
    assert (Hlen : (1 <= length (c_name n))%nat) by (destruct (c_name n); [done|simpl; lia]).
    assert (Hfresh : ~ In (c_name n) (map c_name (c_children root))).
    { rewrite map_app in Hnd. apply NoDup_app in Hnd as (_ & Hd & _). intros Hin.
      apply (Hd (c_name n)); [by apply list_elem_of_In|]. simpl. apply list_elem_of_here. }
    rewrite !length_app in Hf. simpl in Hf. rewrite !length_app in Hf. simpl in Hf.
    destruct (parse_print fuel) as (He & _).
    destruct (He n root (print_nodes l) Hn Hfresh) as (ws' & Hws' & Hl1 & ->).
    { rewrite !length_app. simpl. lia. }
    cbn [obind negb Z.eqb]. rewrite IH; [|done| |done|].
    + cbn [c_children set_children c_name c_value]. by rewrite <- app_assoc.
    + cbn [c_children set_children]. by rewrite <- app_assoc.
    + rewrite !length_app. simpl. lia.
Qed.

(** ** Properties *)

(** C39: [config_load] terminates on every text, well-formed or not. *)
Theorem config_load_total root data : exists r, config_load root (Some data) = Ok r.
Proof.
  apply load_loop_total. unfold load_fuel, weight. simpl. lia.
Qed.

(** C31: printing and parsing are inverse. A list of well-formed configuration
    nodes with different names, printed and loaded into an empty root, gives
    back exactly these nodes as the children of the root. *)
Theorem config_load_print name value l :
  Forall node_ok l -> NoDup (map c_name l) ->
  config_load (config_node name value) (Some (print_nodes l)) = Ok (Cnode name value l).
Proof.
  intros Hl Hnd. unfold config_load.
  apply (load_print (load_fuel (print_nodes l)) l (config_node name value) []); auto.
  unfold load_fuel. simpl. lia.
Qed.

Lemma config_load_print_witness :
  config_load (config_node [] []) (Some (print_nodes
    [Cnode (lit "device") [] [Cnode (lit "path") (lit "/dev/block/mmcblk0") [];
                              Cnode (lit "partitions") [] []];
     Cnode (lit "x") (lit "a b #c") []])) =
  Ok (Cnode [] []
    [Cnode (lit "device") [] [Cnode (lit "path") (lit "/dev/block/mmcblk0") [];
                              Cnode (lit "partitions") [] []];
     Cnode (lit "x") (lit "a b #c") []]).
Proof.
  apply config_load_print.
  - repeat constructor; vm_compute; intros H; inversion H; subst; try done.
    match goal with H : _ |- _ => inversion H end.
  - repeat constructor; vm_compute; intros H; inversion H; subst.
    match goal with H : _ |- _ => inversion H end.
Defined.

(** [config_set] and [config_find]. After [config_set root name value],
    looking up [name] finds the node with that value, every other name finds
    what it found before, and no node was removed. *)
Theorem config_set_find root name value :
  config_str (config_set root name value) name None = Some value /\
  (forall other, other <> name ->
     config_find (config_set root name value) other = config_find root other) /\
  (length (c_children root) <= length (c_children (config_set root name value)))%nat.
Proof.
  unfold config_str, config_find, config_set.
  destruct (find_last (c_children root) name) as [i|] eqn:E; cbn [c_children set_children].
  - destruct (find_last_some _ _ _ E) as (n & Hi & Hn). rewrite find_last_alter by done.
    rewrite E, list_lookup_alter_eq, Hi. split; [done|]. split; [|by rewrite length_alter].
    intros other Hne. rewrite find_last_alter by done.
    destruct (find_last (c_children root) other) as [j|] eqn:Ej; [|done].
    rewrite list_lookup_alter_ne; [done|]. intros ->.
    destruct (find_last_some _ _ _ Ej) as (n' & Hj & Hn'). congruence.
  - rewrite find_last_app. cbn [find_last c_name config_node]. unfold text_eqb.
    rewrite bool_decide_true by done. cbn [option_map].
    rewrite lookup_app_r by lia. rewrite Nat.add_0_r, Nat.sub_diag. split; [done|]. split.
    + intros other Hne. rewrite find_last_app. cbn [find_last c_name config_node]. unfold text_eqb.
      rewrite bool_decide_false by done. cbn [option_map].
      destruct (find_last (c_children root) other) as [j|] eqn:Ej; [|done].
      destruct (find_last_some _ _ _ Ej) as (n' & Hj & _). apply lookup_app_l.
      by eapply lookup_lt_Some.
    + rewrite length_app. lia.
Qed.

End ConfigUtils.
