(* ===== verification/Diskconfig.v ===== *)
(** * libdiskconfig: diskconfig.c, config_mbr.c, write_lst.c, diskutils.c

    Reading the disk layout from a configuration tree, checking it against a
    device, turning it into a list of writes (the MBR and the chain of
    extended boot records), and committing the writes. *)

From S2P Require Import Prelude Posix ConfigUtils.
From Stdlib Require Import Ascii.

Module Diskconfig.
Import ConfigUtils.

Definition MAX_NAME_LEN : Z := 512.
Definition MAX_NUM_PARTS : Z := 16.
Definition PART_SCHEME_MBR : Z := 1.
Definition PART_SCHEME_GPT : Z := 2.
Definition PC_PART_ACTIVE : Z := 0x80.
Definition PC_PART_NORMAL : Z := 0.
Definition PC_PART_TYPE_LINUX : Z := 0x83.
Definition PC_PART_TYPE_EXTENDED : Z := 0x05.
Definition PC_PART_TYPE_FAT32 : Z := 0x0c.
Definition PC_NUM_BOOT_RECORD_PARTS : Z := 4.
Definition PC_BIOS_BOOT_SIG : Z := 0xAA55.
Definition PART_ACTIVE_FLAG : Z := 1.

(** [(uint32_t)-1]: the partition takes the rest of the disk. *)
Definition FILL_DISK : Z := 0xffffffff.

Record part_info := mk_part {
  p_name : text;
  p_flags : Z;
  p_type : Z;
  p_len_kb : Z;
  p_start_lba : Z
}.

(** [part_lst] is [None] when NULL, else its first [num_parts] elements. *)
Record disk_info := mk_disk {
  d_device : text;
  d_scheme : Z;
  d_sect_size : Z;
  d_skip_lba : Z;
  d_num_lba : Z;
  d_part_lst : option (list part_info)
}.

Definition set_parts (d : disk_info) (l : list part_info) : disk_info :=
  mk_disk (d_device d) (d_scheme d) (d_sect_size d) (d_skip_lba d) (d_num_lba d) (Some l).

Definition set_start (p : part_info) (lba : Z) : part_info :=
  mk_part (p_name p) (p_flags p) (p_type p) (p_len_kb p) lba.

Definition set_len_kb (p : part_info) (n : Z) : part_info :=
  mk_part (p_name p) (p_flags p) (p_type p) n (p_start_lba p).

(** ** Write lists (write_lst.c) *)

Record write_item := mk_wl { w_offset : Z; w_data : list Z }.

(** The new item goes to the front. *)
Definition wlist_add (lst : list write_item) (item : write_item) : list write_item := item :: lst.

(** How many items [wlist_free] passes to [free_wl]. *)
Definition wlist_free (lst : list write_item) : nat := length lst.

Fixpoint wlist_commit (fd : Posix.file) (lst : list write_item) (test : bool) : Posix.file * Z :=
  match lst with
  | [] => (fd, 0)
  | it :: lst' =>
    let '(fd, pos) := Posix.lseek64 fd (w_offset it) Posix.SEEK_SET in
    if negb (pos =? w_offset it) then (fd, -1)
    else if test then wlist_commit fd lst' test
    else
      let '(fd, n) := Posix.write fd (w_data it) in
      if negb (n =? s32 (zlen (w_data it))) then (fd, -1) else wlist_commit fd lst' test
  end.

(** ** The MBR (config_mbr.c) *)

Record pc_partition := mk_pc {
  pc_status : Z;
  pc_start : list Z;
  pc_type : Z;
  pc_end : list Z;
  pc_start_lba : Z;
  pc_len_lba : Z
}.

Definition pc_partition_bytes (p : pc_partition) : list Z :=
  [pc_status p] ++ pc_start p ++ [pc_type p] ++ pc_end p ++
  le_bytes 4 (pc_start_lba p) ++ le_bytes 4 (pc_len_lba p).

Definition cfg_pentry (status type start len : Z) : pc_partition :=
  let chs := if 0 <? len then [0xff; 0xff; 0xff] else [0; 0; 0] in
  mk_pc status chs type chs start len.

(** [x] rounded up to a multiple of [sect_size] with the mask the code uses,
    in sectors, on 64 bits. *)
Definition round_lba (bytes sect_size : Z) : Z :=
  Z.land (u64 (bytes + (u64 sect_size - 1))) (Z.lxor (u64 (u64 sect_size - 1)) (2 ^ 64 - 1))
    / u64 sect_size.

Definition kb_to_lba (len_kb sect_size : Z) : Z :=
  Z.land (round_lba (len_kb * 1024) (u32 sect_size)) 0xffffffff.

(** Where entry [pnum] of the partition table lies in the MBR. *)
Definition pentry_offset (pnum : Z) : Z := 446 + 16 * pnum.

(** The item, the partition and the next free LBA; [None] is a NULL result. *)
Definition mk_pri_pentry (dinfo : disk_info) (pinfo : option part_info) (pnum lba : Z)
    (alloc : bool) : option (write_item * option part_info * Z) :=
  if PC_NUM_BOOT_RECORD_PARTS <=? pnum then None
  else if negb alloc then None
  else
    match pinfo with
    | Some p =>
      let len_lba :=
        if negb (p_len_kb p =? FILL_DISK) then round_lba (p_len_kb p * 1024) (d_sect_size dinfo)
        else u32 (d_num_lba dinfo - lba) in
      let status := if negb (Z.land (p_flags p) PART_ACTIVE_FLAG =? 0)
                    then PC_PART_ACTIVE else PC_PART_NORMAL in
      Some (mk_wl (pentry_offset pnum)
              (pc_partition_bytes (cfg_pentry status (p_type p) lba (u32 len_lba))),
            Some (set_start p lba), u32 (lba + u32 len_lba))
    | None =>
      Some (mk_wl (pentry_offset pnum)
              (pc_partition_bytes (cfg_pentry PC_PART_NORMAL PC_PART_TYPE_EXTENDED lba
                 (u32 (d_num_lba dinfo - lba)))),
            None, lba)
    end.

(** A boot record with two entries set. *)
Definition boot_record (p0 p1 : list Z) : list Z :=
  zeros 446 ++ p0 ++ p1 ++ zeros 32 ++ le_bytes 2 PC_BIOS_BOOT_SIG.

Definition mk_ext_pentry (dinfo : disk_info) (pinfo : part_info) (lba ext_lba : Z)
    (pnext : option part_info) (alloc : bool) : option (write_item * part_info * Z) :=
  if negb alloc then None
  else
    let offset := lba * d_sect_size dinfo in
    let lba := u32 (lba + 1) in
    let sized :=
      if negb (p_len_kb pinfo =? FILL_DISK) then
        Some (kb_to_lba (p_len_kb pinfo) (d_sect_size dinfo), pinfo)
      else
        match pnext with
        | Some _ => None
        | None =>
          let len := u32 (d_num_lba dinfo - lba) in
          Some (len, set_len_kb pinfo (u32 (u64 (len * u64 (d_sect_size dinfo)) / 1024)))
        end in
    match sized with
    | None => None
    | Some (len, pinfo) =>
      let p0 := pc_partition_bytes (cfg_pentry PC_PART_NORMAL (p_type pinfo) 1 len) in
      let pinfo := set_start pinfo lba in
      let lba := u32 (lba + len) in
      let p1 :=
        match pnext with
        | None => zeros 16
        | Some nx =>
          let next_len_lba :=
            if negb (p_len_kb nx =? FILL_DISK)
            then u32 (1 + kb_to_lba (p_len_kb nx) (d_sect_size dinfo))
            else u32 (d_num_lba dinfo - lba) in
          pc_partition_bytes
            (cfg_pentry PC_PART_NORMAL PC_PART_TYPE_EXTENDED (u32 (lba - ext_lba)) next_len_lba)
        end in
      Some (mk_wl offset (boot_record p0 p1), pinfo, lba)
    end.

Definition mk_empty_ptable (alloc : bool) : option write_item :=
  if negb alloc then None else Some (mk_wl 440 (zeros 70 ++ le_bytes 2 PC_BIOS_BOOT_SIG)).

(** The state of the loop over the partitions: the write list, the partitions
    done so far, [cur_lba], [ext_lba] and [extended]. *)
Record mbr_state := mk_mbr {
  m_wl : list write_item;
  m_parts : list part_info;
  m_cur : Z;
  m_ext_lba : Z;
  m_extended : Z
}.

(** The entry of the extended partition, when partition [cnt] is the last one
    the table has room for and more follow. *)
Definition open_extended (dinfo : disk_info) (pnext : option part_info) (alloc : bool)
    (st : mbr_state) : option mbr_state :=
  let cnt := zlen (m_parts st) in
  if (cnt =? PC_NUM_BOOT_RECORD_PARTS - 1) && bool_decide (is_Some pnext) then
    match mk_pri_pentry dinfo None cnt (m_cur st) alloc with
    | Some (it, _, lba) => Some (mk_mbr (wlist_add (m_wl st) it) (m_parts st) lba (m_cur st) 1)
    | None => None
    end
  else Some st.

(** Whether the space check jumps to [nospace]. *)
Definition no_space (dinfo : disk_info) (pinfo : part_info) (st : mbr_state) : outcome bool :=
  if d_num_lba dinfo <=? u32 (m_cur st + m_extended st) then Ok true
  else if negb (p_len_kb pinfo =? FILL_DISK) then
    if u32 (d_sect_size dinfo) =? 0 then Undef
    else
      let sz_lba := u32 (p_len_kb pinfo / u32 (d_sect_size dinfo) * 1024) in
      Ok (d_num_lba dinfo <? u32 (m_cur st + sz_lba + m_extended st))
  else Ok false.

(** The item of a partition, the partition with its start, and the next LBA. *)
Definition part_item (dinfo : disk_info) (pinfo : part_info) (pnext : option part_info)
    (alloc : bool) (st : mbr_state) : option (write_item * part_info * Z) :=
  if m_extended st =? 0 then
    match mk_pri_pentry dinfo (Some pinfo) (zlen (m_parts st)) (m_cur st) alloc with
    | Some (it, Some p, lba) => Some (it, p, lba)
    | _ => None
    end
  else mk_ext_pentry dinfo pinfo (m_cur st) (m_ext_lba st) pnext alloc.

(** [None] is one of the jumps to the error labels; the second component is
    the partition list as it was left. [al k] says whether the allocation of
    item [k] of the write list succeeds. *)
Fixpoint mbr_loop (dinfo : disk_info) (al : nat -> bool) (todo : list part_info) (st : mbr_state)
  : outcome (option mbr_state * list part_info) :=
  match todo with
  | [] => Ok (Some st, m_parts st)
  | pinfo :: todo' =>
    let pnext := head todo' in
    let fail := Ok (None, m_parts st ++ todo) in
    match open_extended dinfo pnext (al (length (m_wl st))) st with
    | None => fail
    | Some st =>
      let! nospace := no_space dinfo pinfo st in
      if nospace then fail
      else
        match part_item dinfo pinfo pnext (al (length (m_wl st))) st with
        | None => fail
        | Some (it, p, lba) =>
          mbr_loop dinfo al todo'
            (mk_mbr (wlist_add (m_wl st) it) (m_parts st ++ [p]) lba (m_ext_lba st) (m_extended st))
        end
    end
  end.

Definition blank_part : part_info := mk_part [] 0 0 0 0.

(** The loop over the unused entries [cnt .. 3]. *)
Fixpoint blank_loop (n : nat) (dinfo : disk_info) (al : nat -> bool) (cnt : Z)
    (wl : list write_item) : option (list write_item) :=
  match n with
  | O => Some wl
  | S n' =>
    if cnt <? PC_NUM_BOOT_RECORD_PARTS then
      match mk_pri_pentry dinfo (Some blank_part) cnt 0 (al (length wl)) with
      | Some (it, _, _) => blank_loop n' dinfo al (cnt + 1) (wlist_add wl it)
      | None => None
      end
    else Some wl
  end.

(** The write list ([None] is NULL) and the updated disk. *)
Definition config_mbr (dinfo : disk_info) (al : nat -> bool)
  : outcome (option (list write_item) * disk_info) :=
  match d_part_lst dinfo with
  | None => Ok (None, dinfo)
  | Some parts =>
    let! (r, parts') := mbr_loop dinfo al parts (mk_mbr [] [] (d_skip_lba dinfo) 0 0) in
    let dinfo' := set_parts dinfo parts' in
    match r with
    | None => Ok (None, dinfo')
    | Some st =>
      if (zlen parts <? PC_NUM_BOOT_RECORD_PARTS) && (u64 (d_sect_size dinfo) =? 0) then Undef
      else
      match blank_loop 4 dinfo al (zlen parts) (m_wl st) with
      | None => Ok (None, dinfo')
      | Some wl =>
        match mk_empty_ptable (al (length wl)) with
        | None => Ok (None, dinfo')
        | Some it => Ok (Some (wlist_add wl it), dinfo')
        end
      end
    end
  end.

(** The position of the first partition of that name, from [num]. *)
Fixpoint find_num (l : list part_info) (name : text) (num : Z) : option Z :=
  match l with
  | [] => None
  | p :: l' => if text_eqb (p_name p) name then Some num else find_num l' name (num + 1)
  end.

(** [%d] of a small positive number. *)
Fixpoint dec_digits (fuel : nat) (n : Z) : text :=
  match fuel with
  | O => []
  | S fuel' =>
    let d := ascii_of_nat (Z.to_nat (48 + n mod 10)) in
    if n <? 10 then [d] else dec_digits fuel' (n / 10) ++ [d]
  end.

Definition isdigit (c : ascii) : bool :=
  let n := nat_of_ascii c in (48 <=? n)%nat && (n <=? 57)%nat.

(** An empty device name is read before its start. *)
Definition find_mbr_part (dinfo : disk_info) (name : text) (alloc : bool) : outcome (option text) :=
  let! plist := oof (d_part_lst dinfo) in
  let has_extended := PC_NUM_BOOT_RECORD_PARTS <? zlen plist in
  match find_num plist name 1 with
  | None => Ok None
  | Some num =>
    let num := if has_extended && (PC_NUM_BOOT_RECORD_PARTS <=? num) then num + 1 else num in
    if negb alloc then Ok None
    else
      let! c := oof (last (d_device dinfo)) in
      let dev := d_device dinfo ++ (if isdigit c then ["p"%char] else []) ++ dec_digits 11 num in
      if MAX_NAME_LEN <=? zlen dev then Ok None else Ok (Some dev)
  end.

(** ** Numbers (the C library's [strtoull] family with base 0) *)

Definition digit_val (base : Z) (c : ascii) : option Z :=
  let n := Z.of_nat (nat_of_ascii c) in
  let d := if (48 <=? n) && (n <=? 57) then n - 48
           else if (65 <=? n) && (n <=? 90) then n - 55
           else if (97 <=? n) && (n <=? 122) then n - 87 else 99 in
  if d <? base then Some d else None.

(** The value of the leading digits. *)
Fixpoint digits_val (base acc : Z) (l : text) : Z :=
  match l with
  | [] => acc
  | c :: l' =>
    match digit_val base c with
    | Some d => digits_val base (acc * base + d) l'
    | None => acc
    end
  end.

Fixpoint skip_space (l : text) : text :=
  match l with
  | [] => []
  | c :: l' => if isspace c then skip_space l' else l
  end.

Definition split_sign (l : text) : bool * text :=
  match l with
  | "-"%char :: l' => (true, l')
  | "+"%char :: l' => (false, l')
  | _ => (false, l)
  end.

(** The magnitude of a number with an optional [0x] or [0] prefix. *)
Definition magnitude (l : text) : Z :=
  match l with
  | "0"%char :: (("x"%char | "X"%char) :: ((c :: _) as l')) =>
    match digit_val 16 c with
    | Some _ => digits_val 16 0 l'
    | None => 0
    end
  | "0"%char :: l' => digits_val 8 0 l'
  | _ => digits_val 10 0 l
  end.

(** Sign and magnitude of the number a text starts with. *)
Definition number (l : text) : bool * Z :=
  let '(neg, l) := split_sign (skip_space l) in (neg, magnitude l).

Definition strtoull (l : text) : Z :=
  let '(neg, v) := number l in
  if 2 ^ 64 <=? v then 2 ^ 64 - 1 else if neg then u64 (- v) else v.

Definition strtoul (l : text) : Z :=
  let '(neg, v) := number l in
  if 2 ^ 32 <=? v then 2 ^ 32 - 1 else if neg then u32 (- v) else v.

Definition strtol (l : text) : Z :=
  let '(neg, v) := number l in
  if neg then Z.max (- v) (- 2 ^ 31) else Z.min v (2 ^ 31 - 1).

(** ** Loading a layout (diskconfig.c) *)

(** The return value and [*plen]. *)
Definition parse_len (str : text) : Z * Z :=
  let tmp := take 63 str in
  match last tmp with
  | None => (1, 0)
  | Some c =>
    let is_m := (c =? "M")%char || (c =? "m")%char in
    let is_k := (c =? "K")%char || (c =? "k")%char in
    let multiple := if is_m then 1048576 else if is_k then 1024 else 1 in
    let tmp := if is_m || is_k then removelast tmp else tmp in
    let plen := strtoull tmp in
    if plen =? 0 then (1, plen)
    else if plen =? 2 ^ 64 - 1 then (if 1 <? multiple then 1 else 0, plen)
    else
      let multiple := if 1024 <? multiple then Z.shiftr multiple 10 else multiple in
      let plen := u64 (plen * multiple) in
      if 0xffffffff <? plen then (1, plen) else (0, plen)
  end.

(** The partitions read so far; the table has room for [MAX_NUM_PARTS], and
    the code does not check it. *)
Fixpoint load_parts (l : list cnode) (acc : list part_info) : outcome (list part_info * Z) :=
  match l with
  | [] => Ok (acc, 0)
  | node :: l' =>
    if MAX_NUM_PARTS <=? zlen acc then Undef
    else
      let flags := if negb (config_bool node (lit "active") 0 =? 0) then PART_ACTIVE_FLAG else 0 in
      match config_str node (lit "type") None with
      | None => Ok (acc, 1)
      | Some t =>
        let type := if text_eqb t (lit "linux") then Some PC_PART_TYPE_LINUX
                    else if text_eqb t (lit "fat32") then Some PC_PART_TYPE_FAT32 else None in
        match type with
        | None => Ok (acc, 1)
        | Some type =>
          match config_str node (lit "len") None with
          | None => load_parts l' (acc ++ [mk_part (c_name node) flags type 0 0])
          | Some t =>
            let '(err, plen) := parse_len t in
            if negb (err =? 0) then Ok (acc, 1)
            else load_parts l' (acc ++ [mk_part (c_name node) flags type (u32 plen) 0])
          end
        end
      end
  end.

Definition load_partitions (root : cnode) : outcome (list part_info * Z) :=
  load_parts (c_children root) [].

(** [None] is a NULL result. [load_file] reads the file; [allocs] are the two
    allocations. *)
Definition load_diskconfig (load_file : text -> option text) (allocs : bool * bool) (fn : text)
    (path_override : option text) : outcome (option disk_info) :=
  if negb (fst allocs) then Ok None
  else if negb (snd allocs) then Ok None
  else
    let! root := config_load_file load_file (config_node [] []) fn in
    match c_children root, config_find root (lit "device") with
    | [], _ => Ok None
    | _, None => Ok None
    | _, Some devroot =>
      match config_str devroot (lit "path") path_override, config_str devroot (lit "scheme") None with
      | Some path, Some scheme =>
        if negb (text_eqb scheme (lit "mbr")) then Ok None
        else
          let sect_size := strtol (default [] (config_str devroot (lit "sector_size") (Some (lit "512")))) in
          if sect_size =? 0 then Ok None
          else
            match config_str devroot (lit "start_lba") None with
            | None => Ok None
            | Some t =>
              let skip_lba := u32 (strtol t) in
              if skip_lba =? 0 then Ok None
              else
                match config_str devroot (lit "num_lba") None, config_find devroot (lit "partitions") with
                | Some n, Some partnode =>
                  let! (parts, err) := load_partitions partnode in
                  if negb (err =? 0) then Ok None
                  else Ok (Some (mk_disk path PART_SCHEME_MBR sect_size skip_lba (strtoul n) (Some parts)))
                | _, _ => Ok None
                end
            end
      | _, _ => Ok None
      end
    end.

(** ** Checking and applying it *)

Inductive dev_kind : Set := DevBlk | DevReg | DevOther.

(** What the system says about a device: whether [fstat] works, what it is,
    its sector size and its size in bytes ([None] for a failed [ioctl]). *)
Record device := mk_dev {
  dev_stat : bool;
  dev_kind_ : dev_kind;
  dev_sect : option Z;
  dev_size : option Z
}.

Definition set_num_lba (d : disk_info) (n : Z) : disk_info :=
  mk_disk (d_device d) (d_scheme d) (d_sect_size d) (d_skip_lba d) n (d_part_lst d).

(** The sector count and the size of the disk. *)
Definition disk_geometry (dinfo : disk_info) (dev : device) : option (disk_info * Z) :=
  match dev_kind_ dev with
  | DevBlk =>
    match dev_sect dev with
    | None => None
    | Some sect =>
      if (sect =? 0) || negb (sect =? d_sect_size dinfo) then None
      else if d_num_lba dinfo =? 0 then
        match dev_size dev with
        | None => None
        | Some sz => Some (set_num_lba dinfo (u32 (sz / u64 (d_sect_size dinfo))), sz)
        end
      else Some (dinfo, u64 (d_num_lba dinfo * u64 (d_sect_size dinfo)))
    end
  | DevReg =>
    if d_sect_size dinfo =? 0 then None
    else if negb (d_num_lba dinfo =? 0) then
      Some (dinfo, u64 (d_num_lba dinfo * u64 (d_sect_size dinfo)))
    else
      match dev_size dev with
      | None => None
      | Some sz => Some (set_num_lba dinfo (u32 (Z.quot sz (d_sect_size dinfo))), u64 sz)
      end
  | DevOther => None
  end.

(** The sum of the sizes, in 32-bit products added up in 64 bits, with the
    checks of the loop. *)
Fixpoint sum_parts (l : list part_info) (total : Z) : option Z :=
  match l with
  | [] => Some total
  | p :: l' =>
    let total' :=
      if negb (p_len_kb p =? FILL_DISK) then Some (u64 (total + u32 (p_len_kb p * 1024)))
      else if p_len_kb p =? 0 then None
      else match l' with [] => Some total | _ => None end in
    match total' with
    | None => None
    | Some t =>
      if negb (p_type p =? PC_PART_TYPE_LINUX) && negb (p_type p =? PC_PART_TYPE_FAT32) then None
      else sum_parts l' t
    end
  end.

(** Whether a descriptor is returned, and the updated disk; [dev] is [None]
    when the device cannot be opened. *)
Definition validate (dinfo : option disk_info) (dev : option device) : bool * option disk_info :=
  match dinfo, dev with
  | None, _ => (false, None)
  | Some d, None => (false, Some d)
  | Some d, Some dev =>
    if negb (dev_stat dev) then (false, Some d)
    else
      match disk_geometry d dev with
      | None => (false, Some d)
      | Some (d', disk_size) =>
        match sum_parts (default [] (d_part_lst d')) (u32 (d_skip_lba d' * d_sect_size d')) with
        | None => (false, Some d')
        | Some total =>
          match dev_kind_ dev with
          | DevBlk => (negb (disk_size <? total), Some d')
          | _ => (true, Some d')
          end
        end
      end
  end.

(** The return value, the write list and the updated disk. *)
Definition validate_and_config (dinfo : option disk_info) (dev : option device) (al : nat -> bool)
  : outcome (Z * option (list write_item) * option disk_info) :=
  let '(ok, dinfo) := validate dinfo dev in
  match dinfo with
  | None => Ok (1, None, None)
  | Some d =>
    if negb ok then Ok (1, None, Some d)
    else if d_scheme d =? PART_SCHEME_MBR then
      let! (lst, d) := config_mbr d al in
      Ok (match lst with None => 1 | Some _ => 0 end, lst, Some d)
    else Ok (1, None, Some d)
  end.

Definition process_disk_config (dinfo : option disk_info) (dev : option device) (al : nat -> bool)
  : outcome (Z * option disk_info) :=
  let! (err, _, d) := validate_and_config dinfo dev al in
  Ok (if negb (err =? 0) then 1 else 0, d).

(** [disk] is the open file behind the device, [sync] what [sync_ptable]
    returns. *)
Definition apply_disk_config (dinfo : option disk_info) (dev : option device) (al : nat -> bool)
    (disk : Posix.file) (sync : Z) (test : bool) : outcome (Posix.file * Z * option disk_info) :=
  let! (err, lst, d) := validate_and_config dinfo dev al in
  if negb (err =? 0) then Ok (disk, 1, d)
  else
    let '(disk, rv) := wlist_commit disk (default [] lst) test in
    Ok (disk, if 0 <=? rv then if test then 0 else sync else rv, d).

(** [fstat] failing or a failed [BLKRRPART] on a block device. *)
Definition sync_ptable (stat_ok is_blk : bool) (rrpart : Z) : Z :=
  if negb stat_ok then -1 else if is_blk && (rrpart <? 0) then -1 else 0.

Fixpoint find_part_in (l : list part_info) (name : text) : option part_info :=
  match l with
  | [] => None
  | p :: l' => if text_eqb (p_name p) name then Some p else find_part_in l' name
  end.

Definition find_part (dinfo : disk_info) (name : text) : option part_info :=
  find_part_in (default [] (d_part_lst dinfo)) name.

Definition find_part_device (dinfo : disk_info) (name : text) (alloc : bool) : outcome (option text) :=
  if d_scheme dinfo =? PART_SCHEME_MBR then find_mbr_part dinfo name alloc else Ok None.

(** ** Raw images (diskutils.c) *)

Definition EINTR : Z := 4.
Definition RAW_BUF : Z := 2048.

(** The inner loop: writes [buffer] to [dst]. The code passes the same
    pointer to every [write], also after a short one. *)
Fixpoint raw_write_loop (fuel : nat) (dst : Posix.file) (buffer : list Z) (nr_bytes : Z)
  : outcome (Posix.file * Z) :=
  match fuel with
  | O => NoFuel
  | S fuel' =>
    if 0 <? nr_bytes then
      let '(dst, tmp) := Posix.write dst (take (Z.to_nat nr_bytes) buffer) in
      if tmp <? 0 then
        if tmp =? - EINTR then raw_write_loop fuel' dst buffer nr_bytes else Ok (dst, 1)
      else raw_write_loop fuel' dst buffer (nr_bytes - tmp)
    else Ok (dst, 0)
  end.

(** The outer loop, until [read] returns 0. *)
Fixpoint raw_loop (fuel : nat) (src : Posix.file) (dst : option Posix.file)
  : outcome (option Posix.file * Z) :=
  match fuel with
  | O => NoFuel
  | S fuel' =>
    let '(src, nr_bytes, buffer) := Posix.read src RAW_BUF in
    if nr_bytes <? 0 then
      if nr_bytes =? - EINTR then raw_loop fuel' src dst else Ok (dst, 1)
    else if nr_bytes =? 0 then Ok (dst, 0)
    else
      match dst with
      | None => raw_loop fuel' src None
      | Some d =>
        let! (d, err) := raw_write_loop fuel' d buffer nr_bytes in
        if negb (err =? 0) then Ok (Some d, 1) else raw_loop fuel' src (Some d)
      end
  end.

(** [None] files could not be opened; in test mode [dst] is not opened. *)
Definition write_raw_image (fuel : nat) (dst src : option Posix.file) (offset : Z) (test : bool)
  : outcome (option Posix.file * Z) :=
  match src with
  | None => Ok (dst, 1)
  | Some src =>
    if test then
      let! (_, ret) := raw_loop fuel src None in Ok (dst, ret)
    else
      match dst with
      | None => Ok (None, 1)
      | Some d =>
        let '(d, pos) := Posix.lseek64 d offset Posix.SEEK_SET in
        if negb (pos =? offset) then Ok (Some d, 1) else raw_loop fuel src (Some d)
      end
  end.

(** ** Lemmas: sizes in sectors *)

Lemma mask_align x k :
  0 <= k < 64 -> 0 <= x < 2 ^ 64 ->
  Z.land x (Z.lxor (2 ^ k - 1) (2 ^ 64 - 1)) = 2 ^ k * (x / 2 ^ k).
Proof.
  intros Hk Hx. rewrite Z.mul_comm, <- Z.shiftl_mul_pow2, <- Z.shiftr_div_pow2 by lia.
  apply Z.bits_inj'. intros n Hn. rewrite Z.land_spec, Z.lxor_spec.
  replace (2 ^ k - 1) with (Z.ones k) by (rewrite Z.ones_equiv; lia).
  replace (2 ^ 64 - 1) with (Z.ones 64) by reflexivity.
  rewrite !Z.testbit_ones_nonneg by lia. rewrite Z.shiftl_spec by lia.
  destruct (Z.ltb_spec n k).
  - rewrite (Z.testbit_neg_r _ (n - k)) by lia. destruct (n <? 64) eqn:E; [|lia].
    simpl. apply andb_false_r.
  - rewrite Z.shiftr_spec by lia. replace (n - k + k) with n by lia.
    destruct (Z.ltb_spec n 64); [simpl; apply andb_true_r|].
    simpl. rewrite andb_false_r. symmetry. apply Z.bits_above_log2; [lia|].
    destruct (Z.eq_dec x 0) as [->|]; [simpl; lia|]. apply Z.log2_lt_pow2; [lia|].
    eapply Z.lt_le_trans; [apply Hx|]. apply Z.pow_le_mono_r; lia.
Qed.

Lemma round_lba_spec bytes k :
  0 <= k < 31 -> 0 <= bytes < 2 ^ 63 -> round_lba bytes (2 ^ k) = DIV_ROUND_UP bytes (2 ^ k).
Proof.
  intros Hk Hb. assert (H2 : 1 <= 2 ^ k < 2 ^ 31).
  { split; [apply (Z.pow_le_mono_r 2 0 k); lia|]. apply Z.pow_lt_mono_r; lia. }
  unfold round_lba. rewrite (u64_id (2 ^ k)) by lia. rewrite (u64_id (2 ^ k - 1)), u64_id by lia.
  rewrite mask_align by lia. rewrite Z.mul_comm, Z.div_mul by lia. unfold DIV_ROUND_UP. f_equal. lia.
Qed.

(** The sectors of a partition of [len_kb] kilobytes. *)
Definition part_lba (d : disk_info) (p : part_info) : Z :=
  DIV_ROUND_UP (p_len_kb p * 1024) (d_sect_size d).

(** The disk has a power of two as sector size, and the partitions have sizes. *)
Definition disk_ok (d : disk_info) : Prop :=
  (exists k, 0 <= k < 31 /\ d_sect_size d = 2 ^ k) /\ 0 < d_skip_lba d /\ d_num_lba d < 2 ^ 32.

Definition sized (p : part_info) : Prop := 0 < p_len_kb p < FILL_DISK.

Lemma part_lba_pos d p : disk_ok d -> sized p -> 0 < part_lba d p.
Proof.
  intros ((k & Hk & Hs) & _) [Hp _]. unfold part_lba. rewrite Hs.
  apply DIV_ROUND_UP_pos; [apply Z.pow_pos_nonneg|]; lia.
Qed.

Lemma round_part d p : disk_ok d -> sized p ->
  round_lba (p_len_kb p * 1024) (d_sect_size d) = part_lba d p.
Proof.
  intros ((k & Hk & Hs) & _) Hp. unfold part_lba, sized, FILL_DISK in *. rewrite Hs.
  apply round_lba_spec; [done|]. lia.
Qed.

Lemma kb_to_lba_part d p : disk_ok d -> sized p -> part_lba d p < 2 ^ 32 ->
  kb_to_lba (p_len_kb p) (d_sect_size d) = part_lba d p.
Proof.
  intros Hd Hp Hl. unfold kb_to_lba.
  assert (Hu : u32 (d_sect_size d) = d_sect_size d).
  { destruct Hd as ((k & Hk & ->) & _). apply u32_id. pose proof (Z.pow_lt_mono_r 2 k 31). lia. }
  rewrite Hu, round_part by done.
  change 0xffffffff with (Z.ones 32). rewrite Z.land_ones by lia. apply Z.mod_small.
  pose proof (part_lba_pos d p Hd Hp). lia.
Qed.

(** The size the space check uses never exceeds the real one. *)
Lemma check_size d p : disk_ok d -> sized p -> part_lba d p < 2 ^ 32 ->
  u32 (d_sect_size d) = d_sect_size d /\ 0 < d_sect_size d /\
  0 <= u32 (p_len_kb p / u32 (d_sect_size d) * 1024) <= part_lba d p.
Proof.
  intros ((k & Hk & Hs) & _) Hp Hl. rewrite Hs. unfold part_lba, sized, FILL_DISK in *. rewrite Hs in Hl |- *.
  assert (H2 : 1 <= 2 ^ k < 2 ^ 31).
  { split; [apply (Z.pow_le_mono_r 2 0 k); lia|]. apply Z.pow_lt_mono_r; lia. }
  rewrite (u32_id (2 ^ k)) by lia. split; [done|]. split; [lia|].
  pose proof (DIV_ROUND_UP_bound (p_len_kb p * 1024) (2 ^ k) ltac:(lia)).
  assert (Hq : 0 <= p_len_kb p / 2 ^ k) by (apply Z.div_pos; lia).
  pose proof (Z.mul_div_le (p_len_kb p) (2 ^ k) ltac:(lia)).
  assert (Hle : p_len_kb p / 2 ^ k * 1024 <= DIV_ROUND_UP (p_len_kb p * 1024) (2 ^ k)) by nia.
  rewrite u32_id by lia. lia.
Qed.

(** ** Lemmas: the layout *)

(** Whether partition [i] of [n] is a logical one. *)
Definition logical (n i : Z) : Z := if (4 <? n) && (3 <=? i) then 1 else 0.

(** The partitions [i ...] of [n] laid out from sector [cur]; a logical one has
    its boot record in the sector before it. *)
Fixpoint layout (d : disk_info) (n i cur : Z) (l : list part_info) : list part_info :=
  match l with
  | [] => []
  | p :: l' =>
    set_start p (cur + logical n i) ::
    layout d n (i + 1) (cur + logical n i + part_lba d p) l'
  end.

(** The sector behind the last partition. *)
Fixpoint layout_end (d : disk_info) (n i cur : Z) (l : list part_info) : Z :=
  match l with
  | [] => cur
  | p :: l' => layout_end d n (i + 1) (cur + logical n i + part_lba d p) l'
  end.

Lemma layout_end_ge d n : forall l i cur, disk_ok d -> Forall sized l -> cur <= layout_end d n i cur l.
Proof.
  induction l as [|p l IH]; intros i cur Hd Hs; simpl; [lia|]. apply Forall_cons in Hs as [Hp Hs].
  pose proof (part_lba_pos d p Hd Hp). specialize (IH (i + 1) (cur + logical n i + part_lba d p) Hd Hs).
  assert (0 <= logical n i) by (unfold logical; destruct (_ && _); lia). lia.
Qed.

Lemma mk_pri_ok d p i cur al :
  disk_ok d -> sized p -> 0 <= i < 4 -> 0 <= cur -> cur + part_lba d p < 2 ^ 32 -> al = true ->
  mk_pri_pentry d (Some p) i cur al =
    Some (mk_wl (pentry_offset i) (pc_partition_bytes (cfg_pentry
            (if negb (Z.land (p_flags p) PART_ACTIVE_FLAG =? 0) then PC_PART_ACTIVE else PC_PART_NORMAL)
            (p_type p) cur (part_lba d p))), Some (set_start p cur), cur + part_lba d p).
Proof.
  intros Hd Hp Hi Hc Hl ->. unfold mk_pri_pentry, PC_NUM_BOOT_RECORD_PARTS.
  assert (H1 : (4 <=? i) = false) by lia. rewrite H1. cbn [negb].
  assert (H2 : (p_len_kb p =? FILL_DISK) = false) by (unfold sized in Hp; lia). rewrite H2. cbn [negb].
  rewrite round_part by done. pose proof (part_lba_pos d p Hd Hp).
  rewrite (u32_id (part_lba d p)), u32_id by lia. done.
Qed.

Lemma mk_ext_ok d p cur ext pnext :
  disk_ok d -> sized p -> 0 <= cur -> cur + 1 + part_lba d p < 2 ^ 32 ->
  exists it, mk_ext_pentry d p cur ext pnext true =
    Some (it, set_start p (cur + 1), cur + 1 + part_lba d p).
Proof.
  intros Hd Hp Hc Hl. unfold mk_ext_pentry. cbn [negb].
  assert (H2 : (p_len_kb p =? FILL_DISK) = false) by (unfold sized in Hp; lia). rewrite H2. cbn [negb].
  pose proof (part_lba_pos d p Hd Hp). rewrite kb_to_lba_part by (auto; lia).
  rewrite (u32_id (cur + 1)), (u32_id (cur + 1 + part_lba d p)) by lia. eauto.
Qed.

(** The table entry of a primary partition at sector [cur]. *)
Definition pri_entry (d : disk_info) (p : part_info) (cur : Z) : list Z :=
  pc_partition_bytes (cfg_pentry
    (if negb (Z.land (p_flags p) PART_ACTIVE_FLAG =? 0) then PC_PART_ACTIVE else PC_PART_NORMAL)
    (p_type p) cur (part_lba d p)).

Fixpoint pri_items (d : disk_info) (i cur : Z) (l : list part_info) : list write_item :=
  match l with
  | [] => []
  | p :: l' => mk_wl (pentry_offset i) (pri_entry d p cur) :: pri_items d (i + 1) (cur + part_lba d p) l'
  end.

Lemma logical_range n i : 0 <= logical n i <= 1.
Proof. unfold logical. destruct (_ && _); lia. Qed.

(** The state of the loop before partition [i] of [n]: the flag is set once the
    extended partition was opened. *)
Definition at_part (n : Z) (st : mbr_state) (todo : nat) : Prop :=
  n = zlen (m_parts st) + Z.of_nat todo /\
  m_extended st = (if 3 <? zlen (m_parts st) then logical n (zlen (m_parts st)) else 0).

Lemma open_extended_ok d n p todo st :
  at_part n st (length (p :: todo)) ->
  exists s1, open_extended d (head todo) true st = Some s1 /\ m_parts s1 = m_parts st /\
    m_cur s1 = m_cur st /\ m_extended s1 = logical n (zlen (m_parts st)) /\
    (n <= 4 -> m_wl s1 = m_wl st).
Proof.
  intros [Hn He]. set (i := zlen (m_parts st)) in *. unfold open_extended. fold i.
  unfold mk_pri_pentry, PC_NUM_BOOT_RECORD_PARTS, logical in *. cbn [length] in Hn.
  destruct (Z.eqb_spec i (4 - 1)) as [Ei|Ei].
  - assert (Hb : bool_decide (is_Some (head todo)) = (4 <? n)).
    { destruct todo as [|x todo]; cbn [length head] in *.
      - rewrite bool_decide_false by (by intros [? ?]). lia.
      - rewrite bool_decide_true by eauto. lia. }
    rewrite Hb. assert (H3 : (3 <=? i) = true) by lia. rewrite H3 in *. cbn [andb].
    assert (H4 : (4 <=? i) = false) by lia. rewrite H4. cbn [negb].
    destruct (4 <? n) eqn:E4; [eexists; repeat split; auto; lia|]. exists st. rewrite He.
    assert (H5 : (3 <? i) = false) by lia. by rewrite H5.
  - cbn [andb]. exists st. rewrite He. split; [done|]. split; [done|]. split; [done|]. split; [|done].
    destruct (Z.ltb_spec 3 i); [done|].
    assert (H5 : (3 <=? i) = false) by lia. by rewrite H5, andb_false_r.
Qed.

Lemma no_space_ok d p st :
  disk_ok d -> sized p -> 0 <= m_cur st -> 0 <= m_extended st <= 1 ->
  m_cur st + m_extended st + part_lba d p <= d_num_lba d -> no_space d p st = Ok false.
Proof.
  intros Hd Hp Hc He Hend. pose proof (part_lba_pos d p Hd Hp) as Hpos. pose proof Hd as (_ & _ & Hnum).
  destruct (check_size d p Hd Hp ltac:(lia)) as (Hss & Hs0 & Hsz). unfold no_space.
  rewrite (u32_id (m_cur st + m_extended st)) by lia.
  assert (H1 : (d_num_lba d <=? m_cur st + m_extended st) = false) by lia. rewrite H1.
  assert (H2 : (p_len_kb p =? FILL_DISK) = false) by (unfold sized in Hp; lia). rewrite H2. cbn [negb].
  rewrite Hss in Hsz |- *. assert (H3 : (d_sect_size d =? 0) = false) by lia. rewrite H3.
  rewrite (u32_id (m_cur st + _ + _)) by lia. f_equal. lia.
Qed.

Lemma part_item_ok d n p pnext st :
  disk_ok d -> sized p -> 0 <= m_cur st -> m_extended st = logical n (zlen (m_parts st)) ->
  zlen (m_parts st) < n -> m_cur st + m_extended st + part_lba d p < 2 ^ 32 ->
  exists it, part_item d p pnext true st =
      Some (it, set_start p (m_cur st + m_extended st), m_cur st + m_extended st + part_lba d p) /\
    (n <= 4 -> it = mk_wl (pentry_offset (zlen (m_parts st))) (pri_entry d p (m_cur st)) /\ m_extended st = 0).
Proof.
  intros Hd Hp Hc He Hin Hend. unfold part_item. set (i := zlen (m_parts st)) in *.
  pose proof (zlen_nonneg (m_parts st)) as Hi0. fold i in Hi0.
  rewrite He in *. unfold logical in *. destruct (_ && _) eqn:El.
  - destruct (mk_ext_ok d p (m_cur st) (m_ext_lba st) pnext) as (it & Hit); auto.
    exists it. change (1 =? 0) with false. cbv iota. rewrite Hit. split; [done|]. lia.
  - assert (Hi4 : i < 4) by (apply andb_false_iff in El; lia). change (0 =? 0) with true. cbv iota.
    rewrite mk_pri_ok by (auto; lia). rewrite !Z.add_0_r. eexists. split; [done|]. done.
Qed.

(** The loop from partition [i]. *)
Lemma mbr_loop_layout d al n : forall todo st,
  disk_ok d -> (forall k, al k = true) -> Forall sized todo -> 0 <= m_cur st ->
  at_part n st (length todo) ->
  layout_end d n (zlen (m_parts st)) (m_cur st) todo <= d_num_lba d ->
  exists st', mbr_loop d al todo st =
      Ok (Some st', m_parts st ++ layout d n (zlen (m_parts st)) (m_cur st) todo) /\
    (n <= 4 -> m_wl st' = rev (pri_items d (zlen (m_parts st)) (m_cur st) todo) ++ m_wl st).
Proof.
  induction todo as [|p todo IH]; intros st Hd Hal Hs Hc Hat Hend.
  - exists st. simpl. split; [by rewrite app_nil_r|done].
  - apply Forall_cons in Hs as [Hp Hs]. cbn [layout_end] in Hend. pose proof Hat as [Hn _]. cbn [length] in Hn.
    destruct (open_extended_ok d n p todo st Hat) as (s1 & Ho & Ep & Ec & Ee & Ew).
    set (i := zlen (m_parts st)) in *. pose proof (logical_range n i) as Hlog.
    pose proof (layout_end_ge d n todo (i + 1) (m_cur st + logical n i + part_lba d p) Hd Hs) as Hge.
    pose proof (part_lba_pos d p Hd Hp) as Hpos.
    cbn [mbr_loop]. rewrite !Hal, Ho, no_space_ok by (auto; lia). cbn [obind].
    destruct (part_item_ok d n p (head todo) s1) as (it & Hit & Hite); auto;
      [lia|rewrite Ep; done|rewrite Ep; fold i; lia|pose proof Hd as (_ & _ & Hnum); lia|]. rewrite Ec, Ee in Hit. rewrite Hal, Hit.
    assert (Hz : zlen (m_parts s1 ++ [set_start p (m_cur st + logical n i)]) = i + 1)
      by (rewrite Ep, zlen_app; reflexivity).
    match goal with |- exists st', mbr_loop d al todo ?s = _ /\ _ => destruct (IH s) as (st' & Hloop & Hwl) end; auto.
    + simpl. lia.
    + unfold at_part. cbn [m_parts m_extended]. rewrite Hz. split; [lia|]. rewrite Ee. unfold logical.
      destruct (Z.ltb_spec 3 (i + 1)).
      * assert (H5 : (3 <=? i) = true) by lia. assert (H6 : (3 <=? i + 1) = true) by lia. by rewrite H5, H6.
      * assert (H5 : (3 <=? i) = false) by lia. by rewrite H5, andb_false_r.
    + cbn [m_parts m_cur]. rewrite Hz. done.
    + exists st'. rewrite Hloop. cbn [m_parts m_cur]. rewrite Hz, Ep. cbn [layout].
      split; [by rewrite <- app_assoc|]. intros H4n. destruct (Hite H4n) as [-> Hl0].
      rewrite (Hwl H4n). cbn [m_parts m_cur m_wl pri_items rev]. rewrite Hz, Ec, Ep. fold i. rewrite Ee in Hl0.
      rewrite Hl0, Z.add_0_r. unfold wlist_add. rewrite (Ew H4n). by rewrite <- app_assoc.
Qed.

Lemma mk_pri_blank d i al : disk_ok d -> 0 <= i < 4 -> al = true ->
  mk_pri_pentry d (Some blank_part) i 0 al =
    Some (mk_wl (pentry_offset i) (zeros 16), Some blank_part, 0).
Proof.
  intros ((k & Hk & Hs) & _) Hi ->. unfold mk_pri_pentry, PC_NUM_BOOT_RECORD_PARTS.
  assert (H1 : (4 <=? i) = false) by lia. rewrite H1. cbn [negb].
  assert (Hr : round_lba (p_len_kb blank_part * 1024) (d_sect_size d) = 0).
  { rewrite Hs. change (p_len_kb blank_part * 1024) with 0. rewrite round_lba_spec by lia.
    unfold DIV_ROUND_UP. apply Z.div_small. assert (0 < 2 ^ k) by (apply Z.pow_pos_nonneg; lia). lia. }
  rewrite Hr. reflexivity.
Qed.

(** The entries the blank loop adds, last one first. *)
Definition blank_items (cnt : Z) (n : nat) : list write_item :=
  rev (map (fun i => mk_wl (pentry_offset i) (zeros 16)) (seqZ cnt (Z.of_nat n))).

Lemma blank_loop_spec d al : disk_ok d -> (forall k, al k = true) -> forall n cnt wl,
  0 <= cnt -> 4 - cnt <= Z.of_nat n ->
  blank_loop n d al cnt wl = Some (blank_items cnt (Z.to_nat (4 - cnt)) ++ wl).
Proof.
  intros Hd Hal. induction n as [|n IH]; intros cnt wl Hc Hn.
  - simpl. unfold blank_items. replace (Z.to_nat (4 - cnt)) with 0%nat by lia. done.
  - cbn [blank_loop]. unfold PC_NUM_BOOT_RECORD_PARTS. destruct (Z.ltb_spec cnt 4) as [Hlt|Hge].
    + rewrite mk_pri_blank by (auto; lia). rewrite IH by lia. unfold wlist_add, blank_items.
      replace (Z.of_nat (Z.to_nat (4 - cnt))) with (4 - cnt) by lia.
      replace (Z.of_nat (Z.to_nat (4 - (cnt + 1)))) with (4 - (cnt + 1)) by lia.
      rewrite (seqZ_cons cnt (4 - cnt)) by lia. cbn [map rev].
      replace (Z.pred (4 - cnt)) with (4 - (cnt + 1)) by lia. unfold Z.succ. by rewrite <- app_assoc.
    + unfold blank_items. replace (Z.to_nat (4 - cnt)) with 0%nat by lia. done.
Qed.

Lemma config_mbr_ok d al parts :
  disk_ok d -> (forall k, al k = true) -> d_part_lst d = Some parts -> Forall sized parts ->
  layout_end d (zlen parts) 0 (d_skip_lba d) parts <= d_num_lba d ->
  exists st', mbr_loop d al parts (mk_mbr [] [] (d_skip_lba d) 0 0) =
      Ok (Some st', layout d (zlen parts) 0 (d_skip_lba d) parts) /\
    config_mbr d al =
      Ok (Some (mk_wl 440 (zeros 70 ++ le_bytes 2 PC_BIOS_BOOT_SIG) ::
                blank_items (zlen parts) (Z.to_nat (4 - zlen parts)) ++ m_wl st'),
          set_parts d (layout d (zlen parts) 0 (d_skip_lba d) parts)) /\
    (zlen parts <= 4 -> m_wl st' = rev (pri_items d 0 (d_skip_lba d) parts)).
Proof.
  intros Hd Hal Hp Hs Hend. pose proof Hd as ((k & Hk & Hsz) & Hskip & _).
  destruct (mbr_loop_layout d al (zlen parts) parts (mk_mbr [] [] (d_skip_lba d) 0 0))
    as (st' & Hloop & Hwl); auto; [simpl; lia|split; [done|by change (3 <? zlen _) with false]|].
  simpl in Hloop. exists st'. split; [done|]. split; [|simpl in Hwl; by rewrite app_nil_r in Hwl].
  unfold config_mbr. rewrite Hp, Hloop. cbn [obind].
  assert (Hu : (u64 (d_sect_size d) =? 0) = false).
  { rewrite Hsz. assert (0 < 2 ^ k < 2 ^ 31)
      by (split; [apply Z.pow_pos_nonneg; lia|apply Z.pow_lt_mono_r; lia]).
    rewrite u64_id by lia. lia. }
  rewrite Hu, andb_false_r. pose proof (zlen_nonneg parts).
  rewrite blank_loop_spec by (auto; lia). rewrite Hal. done.
Qed.

Lemma layout_lookup d n : forall l i cur j q,
  disk_ok d -> Forall sized l -> layout d n i cur l !! j = Some q ->
  exists p, l !! j = Some p /\ q = set_start p (p_start_lba q) /\ part_lba d q = part_lba d p /\
    cur + logical n (i + Z.of_nat j) <= p_start_lba q /\
    p_start_lba q + part_lba d q <= layout_end d n i cur l.
Proof.
  induction l as [|p l IH]; intros i cur j q Hd Hs Hj; [done|]. apply Forall_cons in Hs as [Hp Hs].
  assert (Hlog : 0 <= logical n i) by (unfold logical; destruct (_ && _); lia).
  pose proof (part_lba_pos d p Hd Hp). destruct j as [|j]; cbn [layout layout_end] in *.
  - injection Hj as <-. exists p. split; [done|]. split; [done|]. split; [done|].
    change (part_lba d (set_start p (cur + logical n i))) with (part_lba d p).
    cbn [p_start_lba set_start]. rewrite Z.add_0_r. split; [lia|]. apply layout_end_ge; done.
  - destruct (IH _ _ _ _ Hd Hs Hj) as (p' & H1 & H2 & H3 & H4 & H5). exists p'.
    replace (i + Z.of_nat (S j)) with (i + 1 + Z.of_nat j) by lia.
    split; [done|]. split; [done|]. split; [done|]. split; [lia|done].
Qed.

Lemma layout_ordered d n : forall l i cur j1 j2 q1 q2,
  disk_ok d -> Forall sized l -> (j1 < j2)%nat ->
  layout d n i cur l !! j1 = Some q1 -> layout d n i cur l !! j2 = Some q2 ->
  p_start_lba q1 + part_lba d q1 + logical n (i + Z.of_nat j2) <= p_start_lba q2.
Proof.
  induction l as [|p l IH]; intros i cur j1 j2 q1 q2 Hd Hs Hlt H1 H2; [done|].
  apply Forall_cons in Hs as [Hp Hs]. destruct j2 as [|j2]; [lia|]. destruct j1 as [|j1]; cbn [layout] in *.
  - injection H1 as <-. destruct (layout_lookup _ _ _ _ _ _ _ Hd Hs H2) as (p' & _ & _ & _ & H & _).
    replace (i + Z.of_nat (S j2)) with (i + 1 + Z.of_nat j2) by lia. exact H.
  - replace (i + Z.of_nat (S j2)) with (i + 1 + Z.of_nat j2) by lia. eapply (IH _ _ j1 j2); eauto. lia.
Qed.

(** ** Lemmas: committing *)

(** A file whose writes transfer everything. *)
Definition writable (f : Posix.file) : Prop := forall p, 2 ^ 31 <= Posix.f_wlimit f p.

Definition commit_data (data : list Z) (l : list write_item) : list Z :=
  fold_left (fun d it => Posix.put_bytes d (w_offset it) (w_data it)) l data.

Lemma wlist_commit_ok l : forall f,
  writable f -> Forall (fun it => 0 <= w_offset it /\ zlen (w_data it) < 2 ^ 31) l ->
  exists f', wlist_commit f l false = (f', 0) /\ writable f' /\
    Posix.f_data f' = commit_data (Posix.f_data f) l.
Proof.
  induction l as [|it l IH]; intros f Hw Hl; [by exists f|].
  apply Forall_cons in Hl as [[Ho Hz] Hl]. cbn [wlist_commit]. unfold Posix.lseek64.
  assert (H1 : (w_offset it <? 0) = false) by lia. rewrite H1, Z.eqb_refl. cbn [negb].
  unfold Posix.write. specialize (Hw (w_offset it)) as Hwo. cbn [Posix.f_wlimit Posix.set_pos Posix.f_pos].
  assert (H2 : (Posix.f_wlimit f (w_offset it) <? 0) = false) by lia. rewrite H2.
  pose proof (zlen_nonneg (w_data it)). rewrite Z.min_l, s32_id, Z.eqb_refl by lia. cbn [negb].
  rewrite take_ge by (unfold zlen; lia).
  match goal with |- exists f', wlist_commit ?g l false = _ /\ _ =>
    destruct (IH g) as (f' & Hc & Hw' & Hd); auto end.
Qed.

Lemma zlen_put data off bs : 0 <= off -> off + zlen bs <= zlen data ->
  zlen (Posix.put_bytes data off bs) = zlen data.
Proof.
  unfold Posix.put_bytes, zlen. intros. rewrite !length_app, length_take, length_app, length_replicate, length_drop.
  lia.
Qed.

Lemma put_other data off bs o n :
  0 <= off -> off + zlen bs <= zlen data -> 0 <= o -> 0 <= n ->
  o + n <= off \/ off + zlen bs <= o -> sub_bytes (Posix.put_bytes data off bs) o n = sub_bytes data o n.
Proof.
  intros Hoff Hle Ho Hn Hdis. unfold Posix.put_bytes, sub_bytes, zlen in *.
  replace (Z.to_nat off - length data)%nat with 0%nat by lia. rewrite app_nil_r.
  destruct Hdis as [H|H].
  - rewrite drop_app_le by (rewrite length_take; lia). rewrite take_app_le by (rewrite length_drop, length_take; lia).
    rewrite skipn_firstn_comm, take_take. f_equal. lia.
  - rewrite app_assoc, drop_app_ge by (rewrite length_app, length_take; lia).
    rewrite length_app, length_take, drop_drop. do 2 f_equal. lia.
Qed.

Lemma put_same data off bs : 0 <= off -> off + zlen bs <= zlen data ->
  sub_bytes (Posix.put_bytes data off bs) off (zlen bs) = bs.
Proof.
  intros Hoff Hle. unfold Posix.put_bytes. apply sub_bytes_exact; [|done].
  unfold zlen in *. rewrite length_take, length_app, length_replicate. lia.
Qed.

(** The item does not touch the bytes [o, o+n). *)
Definition apart (o n : Z) (it : write_item) : Prop :=
  o + n <= w_offset it \/ w_offset it + zlen (w_data it) <= o.

Definition inside (size : Z) (it : write_item) : Prop :=
  0 <= w_offset it /\ w_offset it + zlen (w_data it) <= size.

Lemma zlen_commit l : forall data, Forall (inside (zlen data)) l -> zlen (commit_data data l) = zlen data.
Proof.
  induction l as [|it l IH]; intros data Hl; [done|]. apply Forall_cons in Hl as [[H1 H2] Hl].
  cbn [commit_data fold_left]. pose proof (zlen_put data (w_offset it) (w_data it) H1 H2) as Hz.
  change (zlen (commit_data (Posix.put_bytes data (w_offset it) (w_data it)) l) = zlen data).
  rewrite IH by (by rewrite Hz). done.
Qed.

Lemma commit_other l o n : forall data,
  Forall (inside (zlen data)) l -> 0 <= o -> 0 <= n -> Forall (apart o n) l ->
  sub_bytes (commit_data data l) o n = sub_bytes data o n.
Proof.
  induction l as [|it l IH]; intros data Hl Ho Hn Ha; [done|].
  apply Forall_cons in Hl as [[H1 H2] Hl]. apply Forall_cons in Ha as [Hai Ha].
  pose proof (zlen_put data (w_offset it) (w_data it) H1 H2) as Hz.
  change (sub_bytes (commit_data (Posix.put_bytes data (w_offset it) (w_data it)) l) o n = sub_bytes data o n).
  rewrite IH by (auto; by rewrite Hz). apply put_other; auto.
Qed.

(** What an item wrote and no later one touched is there at the end. *)
Lemma commit_last l1 it l2 data o n :
  Forall (inside (zlen data)) (l1 ++ it :: l2) -> o = w_offset it -> n = zlen (w_data it) ->
  Forall (apart o n) l2 -> sub_bytes (commit_data data (l1 ++ it :: l2)) o n = w_data it.
Proof.
  intros Hin -> -> Ha. apply Forall_app in Hin as [H1 H2]. apply Forall_cons in H2 as [[Hi1 Hi2] H2].
  unfold commit_data. rewrite fold_left_app. cbn [fold_left].
  change (fold_left _ l1 data) with (commit_data data l1). pose proof (zlen_commit l1 data H1) as Hz.
  set (d1 := commit_data data l1) in *.
  change (sub_bytes (commit_data (Posix.put_bytes d1 (w_offset it) (w_data it)) l2) (w_offset it)
    (zlen (w_data it)) = w_data it).
  pose proof (zlen_put d1 (w_offset it) (w_data it) Hi1 ltac:(lia)) as Hz1.
  rewrite commit_other; auto; [|rewrite Hz1, Hz; done|apply zlen_nonneg].
  apply put_same; lia.
Qed.

(** ** Lemmas: the committed partition table *)

Definition table_item (e : Z * list Z) : write_item := mk_wl (pentry_offset (fst e)) (snd e).

Definition empty_item : write_item := mk_wl 440 (zeros 70 ++ le_bytes 2 PC_BIOS_BOOT_SIG).

Definition entry_ok (e : Z * list Z) : Prop := 0 <= fst e < 4 /\ zlen (snd e) = 16.

Lemma table_items_inside L size :
  512 <= size -> Forall entry_ok L -> Forall (inside size) (map table_item L).
Proof.
  intros Hs HL. apply Forall_map. eapply Forall_impl; [done|]. intros [i b] [Hi Hb].
  unfold inside, table_item, pentry_offset. simpl in *. lia.
Qed.

Lemma table_items_apart L o n :
  o + n <= 446 \/ 510 <= o -> Forall entry_ok L -> Forall (apart o n) (map table_item L).
Proof.
  intros Ho HL. apply Forall_map. eapply Forall_impl; [done|]. intros [i b] [Hi Hb].
  unfold apart, table_item, pentry_offset. simpl in *. rewrite Hb. lia.
Qed.

(** What the empty table puts in front of the entries and behind them stays. *)
Lemma empty_commit L data a b c :
  512 <= zlen data -> Forall entry_ok L -> w_data empty_item = a ++ b ++ c ->
  440 + zlen a + zlen b <= 446 \/ 510 <= 440 + zlen a ->
  sub_bytes (commit_data data (empty_item :: map table_item L)) (440 + zlen a) (zlen b) = b.
Proof.
  intros Hz HL Hw Ho. pose proof (zlen_nonneg a). pose proof (zlen_nonneg b).
  assert (zlen (w_data empty_item) = 72) as H72 by reflexivity.
  assert (zlen a + zlen b + zlen c = 72) as Habc by (rewrite <- H72, Hw, !zlen_app; lia). pose proof (zlen_nonneg c).
  change (commit_data data (empty_item :: map table_item L)) with
    (commit_data (Posix.put_bytes data 440 (w_data empty_item)) (map table_item L)).
  rewrite commit_other; [|apply table_items_inside; [|done]|lia|lia|by apply table_items_apart].
  2: { rewrite zlen_put; [done|lia|lia]. }
  unfold Posix.put_bytes. rewrite Hw. rewrite <- !app_assoc, app_assoc.
  apply sub_bytes_exact; [|done]. unfold zlen in *. rewrite length_app, length_take, length_app. lia.
Qed.

Lemma table_commit L data :
  512 <= zlen data -> NoDup (map fst L) ->
  Forall entry_ok L ->
  let d' := commit_data data (empty_item :: map table_item L) in
  (forall i b, In (i, b) L -> sub_bytes d' (pentry_offset i) 16 = b) /\
  sub_bytes d' 510 2 = [0x55; 0xAA] /\ sub_bytes d' 440 6 = zeros 6 /\ sub_bytes d' 0 440 = sub_bytes data 0 440 /\
  (forall o n, 512 <= o -> 0 <= n -> sub_bytes d' o n = sub_bytes data o n).
Proof.
  intros Hz Hnd HL d'. subst d'.
  assert (He : inside (zlen data) empty_item) by (split; [done|];
    change (w_offset empty_item + zlen (w_data empty_item)) with 512; done).
  assert (Hall : Forall (inside (zlen data)) (empty_item :: map table_item L))
    by (constructor; auto using table_items_inside).
  split; [|split; [|split; [|split]]].
  - intros i b Hib. apply in_split in Hib as (L1 & L2 & ->).
    rewrite Forall_app, Forall_cons in HL. destruct HL as (_ & [Hi Hb] & HL2). simpl in Hi, Hb.
    rewrite map_app, map_cons, app_comm_cons.
    rewrite map_app, map_cons in Hall.
    apply (commit_last (empty_item :: map table_item L1) (table_item (i, b)) (map table_item L2)); auto.
    apply Forall_map. rewrite map_app in Hnd. simpl in Hnd. apply NoDup_app in Hnd as (_ & _ & Hnd).
    apply NoDup_cons in Hnd as [Hni _]. rewrite Forall_forall in HL2 |- *. intros [j c] Hj.
    destruct (HL2 _ Hj) as [Hj4 Hc]. simpl in *.
    assert (Hne : i <> j).
    { intros ->. apply Hni. apply list_elem_of_In. apply in_map_iff. exists (j, c). split; [done|].
      by apply list_elem_of_In. }
    unfold apart, table_item, pentry_offset. simpl. lia.
  - exact (empty_commit L data (zeros 70) [0x55; 0xAA] [] Hz HL eq_refl ltac:(right; vm_compute; discriminate)).
  - exact (empty_commit L data [] (zeros 6) (zeros 64 ++ [0x55; 0xAA]) Hz HL eq_refl ltac:(left; vm_compute; discriminate)).
  - apply commit_other; [done|lia|lia|]. constructor; [|apply table_items_apart; [lia|done]].
    unfold apart, empty_item. simpl. lia.
  - intros o n Ho Hn. apply commit_other; [done|lia|lia|]. constructor; [|apply table_items_apart; [lia|done]].
    unfold apart, empty_item. right. cbn [w_offset w_data].
    change (440 + zlen (zeros 70 ++ le_bytes 2 PC_BIOS_BOOT_SIG)) with 512. lia.
Qed.

(** The entry of a partition that has its start. *)
Definition entry_of (d : disk_info) (q : part_info) : list Z := pri_entry d q (p_start_lba q).

Lemma zlen_entry d q : zlen (entry_of d q) = 16.
Proof.
  unfold entry_of, pri_entry, pc_partition_bytes, cfg_pentry. rewrite !zlen_app.
  cbn [pc_status pc_start pc_type pc_end pc_start_lba pc_len_lba]. rewrite !zlen_le_bytes.
  by destruct (0 <? part_lba d q).
Qed.

Lemma pri_items_pairs d n : n <= 4 -> forall l i cur, 0 <= i ->
  pri_items d i cur l =
  map table_item (zip (seqZ i (zlen l)) (map (entry_of d) (layout d n i cur l))).
Proof.
  intros Hn. induction l as [|p l IH]; intros i cur Hi; [done|].
  assert (Hlog : logical n i = 0) by (unfold logical; destruct (Z.ltb_spec 4 n); [lia|done]).
  cbn [pri_items layout]. rewrite Hlog, Z.add_0_r, zlen_cons.
  rewrite (seqZ_cons i (1 + zlen l)) by (pose proof (zlen_nonneg l); lia).
  replace (Z.pred (1 + zlen l)) with (zlen l) by lia. cbn [map zip zip_with].
  f_equal. rewrite IH by lia. done.
Qed.

Lemma zlen_layout d n : forall l i cur, zlen (layout d n i cur l) = zlen l.
Proof. induction l as [|p l IH]; intros i cur; [done|]. cbn [layout]. by rewrite !zlen_cons, IH. Qed.

(** The table entries of a layout of at most four partitions, last first. *)
Definition table_entries (d : disk_info) (lay : list part_info) : list (Z * list Z) :=
  rev (map (fun i => (i, zeros 16)) (seqZ (zlen lay) (4 - zlen lay))) ++
  rev (zip (seqZ 0 (zlen lay)) (map (entry_of d) lay)).

Lemma table_entries_ok d lay : zlen lay <= 4 ->
  NoDup (map fst (table_entries d lay)) /\
  Forall (fun e : Z * list Z => 0 <= fst e < 4 /\ zlen (snd e) = 16) (table_entries d lay) /\
  (forall j q, lay !! j = Some q -> In (Z.of_nat j, entry_of d q) (table_entries d lay)) /\
  (forall i, zlen lay <= i < 4 -> In (i, zeros 16) (table_entries d lay)).
Proof.
  intros H4. pose proof (zlen_nonneg lay) as H0. unfold table_entries.
  assert (Hfst : map fst (zip (seqZ 0 (zlen lay)) (map (entry_of d) lay)) = seqZ 0 (zlen lay)).
  { change (map fst ?l) with (fst <$> l). apply fst_zip. rewrite length_seqZ, length_map. unfold zlen. lia. }
  split; [|split; [|split]].
  - rewrite map_app, !map_rev, Hfst, map_map. cbn [fst]. rewrite map_id.
    apply NoDup_app. split; [|split].
    + apply NoDup_ListNoDup, NoDup_rev, NoDup_ListNoDup, NoDup_seqZ.
    + intros x Hx Hx2. rewrite list_elem_of_In, <- in_rev, <- list_elem_of_In, elem_of_seqZ in Hx, Hx2. lia.
    + apply NoDup_ListNoDup, NoDup_rev, NoDup_ListNoDup, NoDup_seqZ.
  - apply Forall_app. split; apply Forall_rev.
    + apply Forall_map, Forall_forall. intros i Hi. apply elem_of_seqZ in Hi. simpl. split; [lia|done].
    + apply Forall_forall. intros [i b] Hib. cbn [fst snd]. split.
      * apply elem_of_zip_l, elem_of_seqZ in Hib. lia.
      * apply elem_of_zip_r in Hib. apply list_elem_of_In, in_map_iff in Hib as (q & <- & _). apply zlen_entry.
  - intros j q Hj. apply in_or_app. right. rewrite <- in_rev. apply list_elem_of_In.
    apply (list_elem_of_lookup_2 _ j). rewrite lookup_zip_with.
    pose proof (lookup_lt_Some _ _ _ Hj) as Hlt. rewrite lookup_seqZ_lt by (unfold zlen; lia).
    change (map (entry_of d) lay) with (entry_of d <$> lay). rewrite list_lookup_fmap, Hj. done.
  - intros i Hi. apply in_or_app. left. rewrite <- in_rev. apply in_map_iff. exists i. split; [done|].
    apply list_elem_of_In, elem_of_seqZ. lia.
Qed.

Lemma items_table d parts :
  zlen parts <= 4 ->
  blank_items (zlen parts) (Z.to_nat (4 - zlen parts)) ++
    rev (pri_items d 0 (d_skip_lba d) parts) =
  map table_item (table_entries d (layout d (zlen parts) 0 (d_skip_lba d) parts)).
Proof.
  intros H4. unfold blank_items, table_entries. rewrite zlen_layout, Z2Nat.id by lia.
  rewrite (pri_items_pairs d (zlen parts)) by lia. rewrite map_app, !map_rev, map_map. done.
Qed.

(** ** Theorems *)

(** C9: laying out partitions. On a disk whose sector size is a power of two,
    for any number of partitions with given sizes that fit between [skip_lba]
    and [num_lba] (counting the sector each logical partition needs for its
    boot record), [config_mbr] succeeds; it keeps every partition and only
    assigns its start; the partitions lie in the order of the configuration,
    do not overlap, and stay inside the disk; before every logical partition
    (the fourth and later ones of more than four) a sector is left free for its
    boot record. *)
Theorem config_mbr_layout d al parts :
  disk_ok d -> (forall k, al k = true) -> d_part_lst d = Some parts -> Forall sized parts ->
  layout_end d (zlen parts) 0 (d_skip_lba d) parts <= d_num_lba d ->
  exists wl lay, config_mbr d al = Ok (Some wl, set_parts d lay) /\
    length lay = length parts /\
    (forall j q, lay !! j = Some q ->
       exists p, parts !! j = Some p /\ q = set_start p (p_start_lba q) /\
         d_skip_lba d + logical (zlen parts) (Z.of_nat j) <= p_start_lba q /\
         p_start_lba q + part_lba d q <= d_num_lba d) /\
    (forall j1 j2 q1 q2, (j1 < j2)%nat -> lay !! j1 = Some q1 -> lay !! j2 = Some q2 ->
       p_start_lba q1 + part_lba d q1 + logical (zlen parts) (Z.of_nat j2) <= p_start_lba q2).
Proof.
  intros Hd Hal Hp Hs Hend. destruct (config_mbr_ok d al parts Hd Hal Hp Hs Hend) as (st' & _ & Hc & _).
  eexists _, _. split; [exact Hc|]. split; [|split].
  - pose proof (zlen_layout d (zlen parts) parts 0 (d_skip_lba d)) as H. unfold zlen at 1 3 in H. lia.
  - intros j q Hj. destruct (layout_lookup _ _ _ _ _ _ _ Hd Hs Hj) as (p & H1 & H2 & _ & H4 & H5).
    exists p. rewrite Z.add_0_l in H4. split; [done|]. split; [done|]. lia.
  - intros j1 j2 q1 q2 Hlt H1 H2. rewrite <- (Z.add_0_l (Z.of_nat j2)). exact (layout_ordered _ _ _ _ _ _ _ _ _ Hd Hs Hlt H1 H2).
Qed.

Definition demo_part (name : string) (flags kb : Z) : part_info :=
  mk_part (lit name) flags PC_PART_TYPE_LINUX kb 0.

(** Six partitions, so that there is an extended one. *)
Definition demo_parts : list part_info :=
  [demo_part "boot" 1 100; demo_part "system" 0 33; demo_part "data" 0 64; demo_part "cache" 0 7;
   demo_part "misc" 0 1; demo_part "factory" 0 5].

Definition demo_disk (l : list part_info) (num_lba : Z) : disk_info :=
  mk_disk (lit "/dev/sda") PART_SCHEME_MBR 512 63 num_lba (Some l).

Lemma demo_disk_ok l n : 0 < n < 2 ^ 32 -> disk_ok (demo_disk l n).
Proof. intros. split; [exists 9; simpl; lia|]. simpl. lia. Qed.

Lemma config_mbr_layout_witness :
  exists wl lay, config_mbr (demo_disk demo_parts 500) (fun _ => true) =
      Ok (Some wl, set_parts (demo_disk demo_parts 500) lay) /\ length lay = 6%nat.
Proof.
  destruct (config_mbr_layout (demo_disk demo_parts 500) (fun _ => true) demo_parts)
    as (wl & lay & H & Hlen & _).
  - apply demo_disk_ok. lia.
  - done.
  - done.
  - repeat constructor; vm_compute; done.
  - vm_compute. discriminate.
  - exists wl, lay. split; [exact H|exact Hlen].
Defined.

(** C10: what reaches the disk. For at most four partitions, committing the
    write list that [config_mbr] returns to a disk of at least one 512-byte
    sector whose writes succeed returns 0 and leaves exactly: in entry [j] of
    the partition table the entry of partition [j] (its flag, its type, its
    assigned start and its length), zeros in the unused entries, the boot
    signature 55 AA, zeros in the six bytes before the table (the disk's own signature), and every byte
    before offset 440 and behind the sector as it was. *)
Theorem mbr_commit d al parts disk :
  disk_ok d -> (forall k, al k = true) -> d_part_lst d = Some parts -> Forall sized parts ->
  layout_end d (zlen parts) 0 (d_skip_lba d) parts <= d_num_lba d ->
  zlen parts <= 4 -> writable disk -> 512 <= Posix.f_size disk ->
  exists wl lay disk', config_mbr d al = Ok (Some wl, set_parts d lay) /\
    wlist_commit disk wl false = (disk', 0) /\
    let mbr := Posix.f_data disk' in
    let old := Posix.f_data disk in
    (forall j q, lay !! j = Some q ->
       sub_bytes mbr (446 + 16 * Z.of_nat j) 16 =
         pc_partition_bytes (cfg_pentry
           (if Z.land (p_flags q) PART_ACTIVE_FLAG =? 0 then PC_PART_NORMAL else PC_PART_ACTIVE)
           (p_type q) (p_start_lba q) (part_lba d q))) /\
    (forall i, zlen parts <= i < 4 -> sub_bytes mbr (446 + 16 * i) 16 = zeros 16) /\
    sub_bytes mbr 510 2 = [0x55; 0xAA] /\
    sub_bytes mbr 440 6 = zeros 6 /\
    sub_bytes mbr 0 440 = sub_bytes old 0 440 /\
    (forall o n, 512 <= o -> 0 <= n -> sub_bytes mbr o n = sub_bytes old o n).
Proof.
  intros Hd Hal Hp Hs Hend H4 Hw Hsize.
  destruct (config_mbr_ok d al parts Hd Hal Hp Hs Hend) as (st' & _ & Hc & Hwl).
  rewrite (Hwl H4), items_table in Hc by done. set (lay := layout _ _ _ _ _) in Hc.
  assert (Hl4 : zlen lay <= 4) by (unfold lay; by rewrite zlen_layout).
  destruct (table_entries_ok d lay Hl4) as (Hnd & Hok & Hin & Hbl).
  set (L := table_entries d lay) in *.
  destruct (wlist_commit_ok (empty_item :: map table_item L) disk Hw) as (disk' & Hcm & _ & Hdata).
  { constructor; [split; [done|by vm_compute]|]. apply Forall_map. eapply Forall_impl; [exact Hok|].
    intros [i b] [Hi Hb]. unfold table_item, pentry_offset. simpl in *. lia. }
  destruct (table_commit L (Posix.f_data disk) Hsize Hnd Hok) as (T1 & T2).
  exists (empty_item :: map table_item L), lay, disk'. split; [exact Hc|]. split; [exact Hcm|].
  cbv zeta. rewrite Hdata. split; [|split; [|done]].
  - intros j q Hj. rewrite <- if_negb. apply (T1 (Z.of_nat j)). exact (Hin j q Hj).
  - intros i Hi. apply (T1 i). apply Hbl. unfold lay. by rewrite zlen_layout.
Qed.

Lemma mbr_commit_witness :
  exists wl lay disk', config_mbr (demo_disk (take 2 demo_parts) 500) (fun _ => true) =
      Ok (Some wl, set_parts (demo_disk (take 2 demo_parts) 500) lay) /\
    wlist_commit (Posix.plain_file (replicate 600 7)) wl false = (disk', 0) /\
    sub_bytes (Posix.f_data disk') 510 2 = [0x55; 0xAA].
Proof.
  destruct (mbr_commit (demo_disk (take 2 demo_parts) 500) (fun _ => true) (take 2 demo_parts)
    (Posix.plain_file (replicate 600 7))) as (wl & lay & disk' & H1 & H2 & H3).
  - apply demo_disk_ok. lia.
  - done.
  - done.
  - repeat constructor; vm_compute; done.
  - vm_compute. discriminate.
  - vm_compute. discriminate.
  - intros p. vm_compute. discriminate.
  - vm_compute. discriminate.
  - exists wl, lay, disk'. destruct H3 as (_ & _ & H3 & _). split; [exact H1|]. split; [exact H2|exact H3].
Defined.

(** The size suffixes. On every text of at most 62 characters [parse_len]
    gives the suffixes K and M the same meaning: a length of n kilobytes is
    taken for n megabytes. *)
Theorem parse_len_suffix t :
  (length t <= 62)%nat -> parse_len (t ++ ["K"%char]) = parse_len (t ++ ["M"%char]).
Proof.
  intros Ht. unfold parse_len. rewrite !take_ge by (rewrite length_app; simpl; lia).
  rewrite !last_snoc, !removelast_last. reflexivity.
Qed.

Lemma parse_len_suffix_witness :
  parse_len (lit "100" ++ ["K"%char]) = parse_len (lit "100" ++ ["M"%char]) /\
  parse_len (lit "100M") = (0, 102400).
Proof. split; [apply (parse_len_suffix (lit "100")); vm_compute; lia|reflexivity]. Defined.

(** The space check of [config_mbr] divides before it multiplies. On a disk
    with 512-byte sectors a partition of less than 512 KB counts as 0 sectors,
    so that it is accepted, and gets a table entry, although it ends behind
    the last sector of the disk. *)
Theorem config_mbr_overflow d p :
  d_sect_size d = 512 -> 0 < d_skip_lba d -> d_skip_lba d < d_num_lba d < 2 ^ 31 ->
  d_part_lst d = Some [p] -> 0 < p_len_kb p < 512 ->
  d_num_lba d < d_skip_lba d + part_lba d p ->
  exists wl q, config_mbr d (fun _ => true) = Ok (Some wl, set_parts d [q]) /\
    In (mk_wl (pentry_offset 0) (entry_of d q)) wl /\
    d_num_lba d < p_start_lba q + part_lba d q.
Proof.
  intros Hs Hsk Hn Hp Hl Hover.
  assert (Hd : disk_ok d) by (split; [exists 9; rewrite Hs; simpl; lia|lia]).
  assert (Hsz : sized p) by (unfold sized, FILL_DISK; lia).
  assert (Hb : part_lba d p <= 1024).
  { unfold part_lba. rewrite Hs. unfold DIV_ROUND_UP. apply Z.div_le_upper_bound; lia. }
  assert (Hq : p_len_kb p / 512 = 0) by (apply Z.div_small; lia).
  assert (H1 : (d_num_lba d <=? d_skip_lba d) = false) by lia.
  assert (H2 : (d_num_lba d <? d_skip_lba d) = false) by lia.
  assert (H3 : (p_len_kb p =? FILL_DISK) = false) by (unfold FILL_DISK; lia).
  set (st0 := mk_mbr [] [] (d_skip_lba d) 0 0).
  assert (Hns : no_space d p st0 = Ok false).
  { unfold no_space. cbn [m_cur m_extended st0]. rewrite Hs. change (u32 512) with 512. rewrite H3, Hq.
    cbn [negb]. change (512 =? 0) with false. change (u32 (0 * 1024)) with 0. cbv iota.
    rewrite !Z.add_0_r, u32_id, H1 by lia. f_equal. lia. }
  destruct (part_item_ok d 1 p None st0) as (it & Hit & Hite); auto; [cbn; lia|done|cbn; lia|].
  destruct (Hite ltac:(lia)) as [-> _]. cbn [m_cur m_extended m_parts st0] in Hit. rewrite Z.add_0_r in Hit.
  unfold config_mbr. rewrite Hp. cbn [mbr_loop head]. unfold open_extended. rewrite bool_decide_false by (by intros [? ?]).
  rewrite andb_false_r. fold st0. rewrite Hns. cbn [obind]. rewrite Hit. cbn [obind mbr_loop m_parts m_wl app st0].
  rewrite Hs. change (zlen [p] <? PC_NUM_BOOT_RECORD_PARTS) with true. change (u64 512 =? 0) with false. cbn [andb].
  change (zlen [p]) with 1. rewrite blank_loop_spec by (auto; lia).
  eexists _, (set_start p (d_skip_lba d)). split; [reflexivity|]. split; [|exact Hover].
  right. apply in_or_app. right. left. reflexivity.
Qed.

Lemma config_mbr_overflow_witness :
  exists wl q, config_mbr (demo_disk [demo_part "data" 0 511] 100) (fun _ => true) =
      Ok (Some wl, set_parts (demo_disk [demo_part "data" 0 511] 100) [q]) /\
    100 < p_start_lba q + part_lba (demo_disk [demo_part "data" 0 511] 100) q.
Proof.
  destruct (config_mbr_overflow (demo_disk [demo_part "data" 0 511] 100) (demo_part "data" 0 511))
    as (wl & q & H1 & _ & H3); try (simpl; lia); try reflexivity.
  exists wl, q. split; [exact H1|exact H3].
Defined.

(** ** Raw images *)

Lemma put_put data off a b : 0 <= off ->
  Posix.put_bytes (Posix.put_bytes data off a) (off + zlen a) b = Posix.put_bytes data off (a ++ b).
Proof.
  intros Hoff. unfold Posix.put_bytes at 1 3. set (T := take (Z.to_nat off) _).
  assert (HT : length T = Z.to_nat off).
  { unfold T. rewrite length_take, length_app, length_replicate. lia. }
  unfold Posix.put_bytes. fold T. set (R := drop _ data).
  rewrite (app_assoc T a R).
  assert (Hn : Z.to_nat (off + zlen a) = length (T ++ a)) by (rewrite length_app, HT; unfold zlen; lia).
  rewrite Hn. rewrite <- (app_assoc (T ++ a)). rewrite take_app_length.
  rewrite drop_app_ge by lia. unfold R. rewrite drop_drop, <- !app_assoc. do 4 f_equal.
  rewrite !length_app. lia.
Qed.

Lemma write_full f bs : zlen bs <= Posix.f_wlimit f (Posix.f_pos f) ->
  Posix.write f bs = (Posix.mk_file (Posix.put_bytes (Posix.f_data f) (Posix.f_pos f) bs)
    (Posix.f_pos f + zlen bs) (Posix.f_rlimit f) (Posix.f_wlimit f), zlen bs).
Proof.
  intros H. unfold Posix.write. pose proof (zlen_nonneg bs).
  assert (Hlt : (Posix.f_wlimit f (Posix.f_pos f) <? 0) = false) by lia. rewrite Hlt, Z.min_l by lia.
  by rewrite take_ge by (unfold zlen; lia).
Qed.

Lemma raw_write_full fuel dst buf :
  (2 <= fuel)%nat -> 0 < zlen buf -> zlen buf <= Posix.f_wlimit dst (Posix.f_pos dst) ->
  raw_write_loop fuel dst buf (zlen buf) = Ok (fst (Posix.write dst buf), 0).
Proof.
  intros Hf Hpos Hw. destruct fuel as [|[|fuel]]; [lia|lia|]. cbn [raw_write_loop].
  assert (H1 : (0 <? zlen buf) = true) by lia. rewrite H1, take_ge by (unfold zlen; lia).
  rewrite write_full by done. assert (H2 : (zlen buf <? 0) = false) by lia. rewrite H2, Z.sub_diag. done.
Qed.

(** [read] makes progress and never fails. *)
Definition readable (f : Posix.file) : Prop := forall p, 1 <= Posix.f_rlimit f p.

Lemma drop_sub (l : list Z) p k : 0 <= p -> 0 <= k -> p + k <= zlen l ->
  sub_bytes l p k ++ drop (Z.to_nat (p + k)) l = drop (Z.to_nat p) l.
Proof.
  intros. unfold sub_bytes. rewrite Z2Nat.inj_add by lia. rewrite <- drop_drop. apply take_drop.
Qed.

Lemma raw_loop_copies : forall fuel src dst,
  readable src -> (forall p, RAW_BUF <= Posix.f_wlimit dst p) ->
  0 <= Posix.f_pos src <= Posix.f_size src -> 0 <= Posix.f_pos dst <= Posix.f_size dst ->
  Posix.f_size src - Posix.f_pos src + 3 <= Z.of_nat fuel ->
  exists dst', raw_loop fuel src (Some dst) = Ok (Some dst', 0) /\
    Posix.f_data dst' = Posix.put_bytes (Posix.f_data dst) (Posix.f_pos dst)
      (drop (Z.to_nat (Posix.f_pos src)) (Posix.f_data src)).
Proof.
  induction fuel as [|fuel IH]; intros src dst Hr Hw Hs Hd Hf; [lia|].
  cbn [raw_loop]. unfold Posix.read. specialize (Hr (Posix.f_pos src)) as Hr0.
  assert (H1 : (Posix.f_rlimit src (Posix.f_pos src) <? 0) = false) by lia. rewrite H1.
  set (k := Z.max 0 _). assert (Hk : 0 <= k <= RAW_BUF /\ k <= Posix.f_size src - Posix.f_pos src /\
    (k = 0 -> Posix.f_pos src = Posix.f_size src)) by (unfold k, RAW_BUF; lia).
  assert (H2 : (k <? 0) = false) by lia. rewrite H2. destruct (Z.eqb_spec k 0) as [E|E].
  - exists dst. split; [done|]. rewrite drop_ge by (unfold Posix.f_size, zlen in *; lia).
    unfold Posix.put_bytes. simpl. rewrite Nat.add_0_r.
    unfold Posix.f_size, zlen in *.
    replace (Z.to_nat (Posix.f_pos dst) - length (Posix.f_data dst))%nat with 0%nat by lia.
    rewrite app_nil_r. symmetry. apply take_drop.
  - set (buf := sub_bytes (Posix.f_data src) (Posix.f_pos src) k).
    assert (Hb : zlen buf = k) by (unfold buf; apply zlen_sub; unfold Posix.f_size in *; lia).
    replace (raw_write_loop fuel dst buf k) with (raw_write_loop fuel dst buf (zlen buf)) by (by rewrite Hb).
    specialize (Hw (Posix.f_pos dst)) as Hw0.
    rewrite raw_write_full by lia. rewrite write_full by lia. cbn [obind fst]. change (negb (0 =? 0)) with false.
    cbv iota.
    match goal with |- exists dst', raw_loop fuel ?s (Some ?d) = _ /\ _ =>
      destruct (IH s d) as (dst' & Hl & Hdata); auto end.
    + cbn [Posix.f_pos Posix.set_pos Posix.f_data Posix.f_size]. unfold Posix.f_size in *. simpl. lia.
    + cbn [Posix.f_pos]. unfold Posix.f_size. cbn [Posix.f_data]. split; [lia|].
      unfold Posix.put_bytes, Posix.f_size, zlen in *. rewrite !length_app, length_take, length_app, length_replicate. lia.
    + unfold Posix.f_size in *. cbn [Posix.f_pos Posix.set_pos Posix.f_data]. lia.
    + exists dst'. split; [exact Hl|]. rewrite Hdata. cbn [Posix.f_pos Posix.set_pos Posix.f_data].
      rewrite put_put by lia. f_equal. unfold buf. apply drop_sub; unfold Posix.f_size in *; lia.
Qed.

Lemma raw_loop_test : forall fuel src,
  readable src -> 0 <= Posix.f_pos src <= Posix.f_size src ->
  Posix.f_size src - Posix.f_pos src + 3 <= Z.of_nat fuel -> raw_loop fuel src None = Ok (None, 0).
Proof.
  induction fuel as [|fuel IH]; intros src Hr Hs Hf; [lia|].
  cbn [raw_loop]. unfold Posix.read. specialize (Hr (Posix.f_pos src)) as Hr0.
  assert (H1 : (Posix.f_rlimit src (Posix.f_pos src) <? 0) = false) by lia. rewrite H1.
  set (k := Z.max 0 _). assert (Hk : 0 <= k <= Posix.f_size src - Posix.f_pos src) by (unfold k, RAW_BUF; lia).
  assert (H2 : (k <? 0) = false) by lia. rewrite H2. destruct (Z.eqb_spec k 0) as [E|E]; [done|].
  apply IH; auto; unfold Posix.f_size in *; simpl in *; lia.
Qed.

(** Copying an image. When reads of the source make progress (they may be
    short) and the destination takes whole writes, [write_raw_image] with
    enough rounds returns 0, and the destination holds the whole image at
    [offset] and is otherwise unchanged. In test mode it returns 0 and does not touch the
    destination. *)
Theorem write_raw_image_copies fuel src dst offset :
  readable src -> (forall p, RAW_BUF <= Posix.f_wlimit dst p) -> Posix.f_pos src = 0 ->
  0 <= offset <= Posix.f_size dst -> Posix.f_size src + 3 <= Z.of_nat fuel ->
  (exists dst', write_raw_image fuel (Some dst) (Some src) offset false = Ok (Some dst', 0) /\
    Posix.f_data dst' = Posix.put_bytes (Posix.f_data dst) offset (Posix.f_data src)) /\
  write_raw_image fuel (Some dst) (Some src) offset true = Ok (Some dst, 0).
Proof.
  intros Hr Hw Hp Ho Hf. unfold write_raw_image. split.
  - unfold Posix.lseek64. assert (H1 : (offset <? 0) = false) by lia. rewrite H1, Z.eqb_refl. cbn [negb].
    destruct (raw_loop_copies fuel src (Posix.set_pos dst offset)) as (dst' & Hl & Hd); auto.
    + rewrite Hp. unfold Posix.f_size, zlen. lia.
    + lia.
    + exists dst'. split; [exact Hl|]. rewrite Hd, Hp. done.
  - rewrite raw_loop_test by (auto; rewrite Hp; unfold Posix.f_size, zlen in *; lia). done.
Qed.

Lemma write_raw_image_copies_witness :
  exists dst', write_raw_image 6 (Some (Posix.mk_file [9; 9; 9; 9; 9] 0 (fun _ => 1) (fun _ => RAW_BUF)))
      (Some (Posix.mk_file [1; 2; 3] 0 (fun _ => 2) (fun _ => 0))) 1 false = Ok (Some dst', 0) /\
    Posix.f_data dst' = [9; 1; 2; 3; 9].
Proof.
  destruct (write_raw_image_copies 6 (Posix.mk_file [1; 2; 3] 0 (fun _ => 2) (fun _ => 0))
    (Posix.mk_file [9; 9; 9; 9; 9] 0 (fun _ => 1) (fun _ => RAW_BUF)) 1) as [(dst' & H1 & H2) _].
  - intros p. simpl. lia.
  - intros p. simpl. lia.
  - done.
  - vm_compute. split; discriminate.
  - vm_compute. discriminate.
  - exists dst'. split; [exact H1|]. rewrite H2. reflexivity.
Defined.

(** Short writes corrupt the copy. The buffer pointer is not advanced: when
    the first [write] of a buffer of [n] bytes takes only [k] of them and the
    next one takes the rest, the loop reports success, and the destination
    holds the first [k] bytes followed by the first [n - k] bytes again. *)
Theorem raw_write_short fuel dst buf k :
  (3 <= fuel)%nat -> 0 < k < zlen buf -> Posix.f_wlimit dst (Posix.f_pos dst) = k ->
  zlen buf - k <= Posix.f_wlimit dst (Posix.f_pos dst + k) -> 0 <= Posix.f_pos dst ->
  exists dst', raw_write_loop fuel dst buf (zlen buf) = Ok (dst', 0) /\
    Posix.f_data dst' = Posix.put_bytes (Posix.f_data dst) (Posix.f_pos dst)
      (sub_bytes buf 0 k ++ sub_bytes buf 0 (zlen buf - k)).
Proof.
  intros Hf Hk Hw1 Hw2 Hp. destruct fuel as [|fuel]; [lia|]. cbn [raw_write_loop].
  assert (H1 : (0 <? zlen buf) = true) by lia. rewrite H1, take_ge by (unfold zlen; lia).
  unfold Posix.write at 1. rewrite Hw1. assert (H2 : (k <? 0) = false) by lia.
  rewrite H2, Z.min_r, H2 by lia. set (f1 := Posix.mk_file _ _ _ _).
  assert (Hz : zlen (take (Z.to_nat (zlen buf - k)) buf) = zlen buf - k)
    by (unfold zlen in *; rewrite length_take; lia).
  destruct fuel as [|[|fuel]]; [lia|lia|]. cbn [raw_write_loop].
  assert (H3 : (0 <? zlen buf - k) = true) by lia. rewrite H3, write_full by (rewrite Hz; exact Hw2).
  rewrite Hz. assert (H4 : (zlen buf - k <? 0) = false) by lia. rewrite H4, Z.sub_diag.
  eexists. split; [reflexivity|]. cbn [Posix.f_data Posix.f_pos f1]. unfold sub_bytes. change (drop (Z.to_nat 0) buf) with buf.
  assert (Hk1 : zlen (take (Z.to_nat k) buf) = k) by (unfold zlen in *; rewrite length_take; lia).
  rewrite <- put_put by done. by rewrite Hk1.
Qed.

Lemma raw_write_short_witness :
  exists dst', raw_write_loop 3 (Posix.mk_file [] 0 (fun _ => 0) (fun p => if p =? 0 then 1 else 9))
      [1; 2; 3] 3 = Ok (dst', 0) /\ Posix.f_data dst' = [1; 1; 2].
Proof.
  destruct (raw_write_short 3 (Posix.mk_file [] 0 (fun _ => 0) (fun p => if p =? 0 then 1 else 9)) [1; 2; 3] 1)
    as (dst' & H1 & H2); [lia|vm_compute; done|reflexivity|vm_compute; discriminate|vm_compute; discriminate|].
  exists dst'. split; [exact H1|exact H2].
Defined.

End Diskconfig.
