(* ===== verification/Hashmap.v ===== *)
(** * libcutils/hashmap.c

    The hash map the program keeps its configuration and its command tables
    in. Keys and values are pointers; the functions [hash] and [equals] read
    what a key points to. The interface [HashKey] says what they promise: they
    see a key only through its contents. Against that interface every
    operation refines the operation of a finite map from contents to values. *)

From S2P Require Import Prelude.
From Stdlib Require Import Ascii.

Module Hashmap.

Definition NULL : Z := 0.

Record Entry := mk_entry { e_key : Z; e_hash : Z; e_value : Z }.

(** A chain of entries is the list of them. *)
Record Hashmap := mk_map {
  buckets : list (list Entry);
  bucketCount : Z;
  hash : Z -> Z;
  equals : Z -> Z -> bool;
  size : Z
}.

(** [calloc(n, sizeof(Entry* ))] cannot succeed when the product is not a
    [size_t]. *)
Definition calloc_buckets (n : Z) (mem : bool) : option (list (list Entry)) :=
  if mem && (n * 4 <? 2 ^ 32) then Some (replicate (Z.to_nat n) []) else None.

(** The loop that doubles the number of buckets. *)
Fixpoint grow_count (fuel : nat) (count minimum : Z) : outcome Z :=
  match fuel with
  | O => NoFuel
  | S fuel' => if count <=? minimum then grow_count fuel' (u32 (Z.shiftl count 1)) minimum else Ok count
  end.

(** [None] is a NULL result; [mem] are the two allocations. *)
Definition hashmapCreate (initialCapacity : Z) (hash : Z -> Z) (equals : Z -> Z -> bool)
    (mem : bool * bool) : outcome (option Hashmap) :=
  if negb (fst mem) then Ok None
  else
    let minimumBucketCount := u32 (initialCapacity * 4) / 3 in
    let! count := grow_count 32 1 minimumBucketCount in
    match calloc_buckets count (snd mem) with
    | None => Ok None
    | Some b => Ok (Some (mk_map b count hash equals 0))
    end.

(** The secondary hash, on 32-bit integers that wrap around. *)
Definition rehash (h : Z) : Z :=
  let h := s32 (h + Z.lnot (s32 (Z.shiftl h 9))) in
  let h := s32 (Z.lxor (u32 h) (Z.shiftr (u32 h) 14)) in
  let h := s32 (h + s32 (Z.shiftl h 4)) in
  s32 (Z.lxor (u32 h) (Z.shiftr (u32 h) 10)).

Definition hashKey (map : Hashmap) (key : Z) : Z := rehash (hash map key).

Definition hashmapSize (map : Hashmap) : Z := size map.

Definition calculateIndex (bucketCount hash : Z) : Z := Z.land (u32 hash) (u32 (bucketCount - 1)).

(** An entry is moved to the front of its new chain. *)
Definition move_entry (newBucketCount : Z) (newBuckets : list (list Entry)) (e : Entry)
  : list (list Entry) :=
  alter (cons e) (Z.to_nat (calculateIndex newBucketCount (e_hash e))) newBuckets.

Definition expandIfNecessary (map : Hashmap) (mem : bool) : Hashmap :=
  if u32 (bucketCount map * 3) / 4 <? size map then
    let newBucketCount := u32 (Z.shiftl (bucketCount map) 1) in
    match calloc_buckets newBucketCount mem with
    | None => map
    | Some newBuckets =>
      mk_map
        (fold_left (fun nb chain => fold_left (move_entry newBucketCount) chain nb)
           (buckets map) newBuckets)
        newBucketCount (hash map) (equals map) (size map)
    end
  else map.

Definition equalKeys (keyA hashA keyB hashB : Z) (equals : Z -> Z -> bool) : bool :=
  if keyA =? keyB then true else if negb (hashA =? hashB) then false else equals keyA keyB.

(** The chain an operation on [key] works on. The index is inside the array,
    see [chain_lookup] below. *)
Definition key_index (map : Hashmap) (key : Z) : nat :=
  Z.to_nat (calculateIndex (bucketCount map) (hashKey map key)).

Definition matches (map : Hashmap) (key : Z) (e : Entry) : bool :=
  equalKeys (e_key e) (e_hash e) key (hashKey map key) (equals map).

(** A walk along a chain: what lies before the first match, the match, and
    what lies behind it. *)
Fixpoint walk (p : Entry -> bool) (chain : list Entry) : option (list Entry * Entry * list Entry) :=
  match chain with
  | [] => None
  | e :: chain' =>
    if p e then Some ([], e, chain')
    else
      match walk p chain' with
      | Some (l, x, r) => Some (e :: l, x, r)
      | None => None
      end
  end.

Definition set_chain (map : Hashmap) (i : nat) (chain : list Entry) (size : Z) : Hashmap :=
  mk_map (<[i := chain]> (buckets map)) (bucketCount map) (hash map) (equals map) size.

(** The map and the old value. [mem] are the allocations of the entry and of
    the larger array. *)
Definition hashmapPut (map : Hashmap) (key value : Z) (mem : bool * bool) : outcome (Hashmap * Z) :=
  let i := key_index map key in
  let! chain := oof (buckets map !! i) in
  match walk (matches map key) chain with
  | None =>
    if negb (fst mem) then Ok (map, NULL)
    else
      let e := mk_entry key (hashKey map key) value in
      Ok (expandIfNecessary (set_chain map i (chain ++ [e]) (u32 (size map + 1))) (snd mem), NULL)
  | Some (l, e, r) =>
    Ok (set_chain map i (l ++ mk_entry (e_key e) (e_hash e) value :: r) (size map), e_value e)
  end.

Definition hashmapGet (map : Hashmap) (key : Z) : outcome Z :=
  let! chain := oof (buckets map !! key_index map key) in
  Ok match walk (matches map key) chain with
     | Some (_, e, _) => e_value e
     | None => NULL
     end.

Definition hashmapContainsKey (map : Hashmap) (key : Z) : outcome bool :=
  let! chain := oof (buckets map !! key_index map key) in
  Ok match walk (matches map key) chain with
     | Some _ => true
     | None => false
     end.

Definition hashmapMemoize (map : Hashmap) (key : Z) (initialValue : Z -> Z) (mem : bool * bool)
  : outcome (Hashmap * Z) :=
  let i := key_index map key in
  let! chain := oof (buckets map !! i) in
  match walk (matches map key) chain with
  | None =>
    if negb (fst mem) then Ok (map, NULL)
    else
      let value := initialValue key in
      let e := mk_entry key (hashKey map key) value in
      Ok (expandIfNecessary (set_chain map i (chain ++ [e]) (u32 (size map + 1))) (snd mem), value)
  | Some (_, e, _) => Ok (map, e_value e)
  end.

Definition hashmapRemove (map : Hashmap) (key : Z) : outcome (Hashmap * Z) :=
  let i := key_index map key in
  let! chain := oof (buckets map !! i) in
  match walk (matches map key) chain with
  | None => Ok (map, NULL)
  | Some (l, e, r) => Ok (set_chain map i (l ++ r) (u32 (size map - 1)), e_value e)
  end.

(** The callback gets a context that it may change; [false] stops the walk. *)
Fixpoint forEach_chain {S} (cb : Z -> Z -> S -> S * bool) (chain : list Entry) (s : S) : S * bool :=
  match chain with
  | [] => (s, true)
  | e :: chain' =>
    let '(s, go) := cb (e_key e) (e_value e) s in
    if go then forEach_chain cb chain' s else (s, false)
  end.

Fixpoint forEach_buckets {S} (cb : Z -> Z -> S -> S * bool) (bs : list (list Entry)) (s : S) : S :=
  match bs with
  | [] => s
  | chain :: bs' =>
    let '(s, go) := forEach_chain cb chain s in
    if go then forEach_buckets cb bs' s else s
  end.

Definition hashmapForEach {S} (map : Hashmap) (cb : Z -> Z -> S -> S * bool) (s : S) : S :=
  forEach_buckets cb (buckets map) s.

(** The entries that [hashmapFree] passes to [free], in order. *)
Definition hashmapFree (map : Hashmap) : list Entry := concat (buckets map).

Definition hashmapCurrentCapacity (map : Hashmap) : Z := u32 (bucketCount map * 3) / 4.

(** An entry with a successor counts. *)
Fixpoint chain_collisions (chain : list Entry) : Z :=
  match chain with
  | e :: ((_ :: _) as chain') => 1 + chain_collisions chain'
  | _ => 0
  end.

Definition hashmapCountCollisions (map : Hashmap) : Z :=
  u32 (foldr (fun chain n => chain_collisions chain + n) 0 (buckets map)).

(** ** Hash and equality functions

    [mem] is the contents behind a pointer: the characters before the
    terminator, or an [int]. Characters are signed. *)

Definition s8 (c : ascii) : Z :=
  let n := Z.of_nat (nat_of_ascii c) in if n <? 128 then n else n - 256.

Definition hashmapHash (data : list ascii) (keySize : Z) : Z :=
  fold_left (fun h c => s32 (h * 31 + s8 c)) (take (Z.to_nat keySize) data) (s32 keySize).

Definition strcompare (mem : Z -> list ascii) (keyA keyB : Z) : bool :=
  bool_decide (mem keyA = mem keyB).

Definition strhash (mem : Z -> list ascii) (key : Z) : Z := hashmapHash (mem key) (zlen (mem key)).

Definition hashmapIntHash (mem : Z -> Z) (key : Z) : Z := mem key.

Definition hashmapIntEquals (mem : Z -> Z) (keyA keyB : Z) : bool := mem keyA =? mem keyB.

(** What every call of the callback keeps holds behind the walk. *)
Lemma forEach_invariant {S} (P : S -> Prop) (cb : Z -> Z -> S -> S * bool) m s :
  (forall k v s, P s -> P (fst (cb k v s))) -> P s -> P (hashmapForEach m cb s).
Proof.
  intros Hcb. assert (Hc : forall chain s, P s -> P (fst (forEach_chain cb chain s))).
  { induction chain as [|e chain IH]; intros s0 Hs; cbn; [done|]. specialize (Hcb (e_key e) (e_value e) s0 Hs).
    destruct (cb _ _ s0) as [s1 []]; [by apply IH|done]. }
  unfold hashmapForEach. generalize (buckets m). intros bs. revert s.
  induction bs as [|chain bs IH]; intros s0 Hs; cbn; [done|]. specialize (Hc chain s0 Hs).
  destruct (forEach_chain cb chain s0) as [s1 []]; [by apply IH|done].
Qed.

(** ** The interface to the functions of a map *)

Class HashKey {C : Type} `{EqDecision C} (contents : Z -> C) (hash : Z -> Z)
    (equals : Z -> Z -> bool) : Prop := {
  hash_contents a b : contents a = contents b -> hash a = hash b;
  equals_contents a b : equals a b = bool_decide (contents a = contents b)
}.

#[export] Instance str_HashKey mem : HashKey mem (strhash mem) (strcompare mem).
Proof. split; [|done]. unfold strhash. by intros a b ->. Qed.

#[export] Instance int_HashKey mem : HashKey mem (hashmapIntHash mem) (hashmapIntEquals mem).
Proof. split; [done|]. intros a b. unfold hashmapIntEquals. by case_bool_decide; lia. Qed.

#[local] Opaque rehash.

(** ** Lemmas: walking a chain *)

Lemma walk_some p chain l e r : walk p chain = Some (l, e, r) ->
  chain = l ++ e :: r /\ p e = true /\ Forall (fun x => p x = false) l.
Proof.
  revert l e r. induction chain as [|x chain IH]; intros l e r Hw; [done|]. simpl in Hw.
  destruct (p x) eqn:E.
  - injection Hw as <- <- <-. by split_and!.
  - destruct (walk p chain) as [[[l' e'] r']|] eqn:Ew; [|done]. injection Hw as <- <- <-.
    destruct (IH _ _ _ eq_refl) as (-> & H1 & H2). split_and!; [done|done|]. by constructor.
Qed.

Lemma walk_none p chain : walk p chain = None -> Forall (fun x => p x = false) chain.
Proof.
  induction chain as [|x chain IH]; intros Hw; [done|]. simpl in Hw. destruct (p x) eqn:E; [done|].
  destruct (walk p chain) as [[[l' e'] r']|] eqn:Ew; [done|]. constructor; auto.
Qed.

(** All entries but those of bucket [i]. *)
Definition others (bs : list (list Entry)) (i : nat) : list Entry :=
  concat (take i bs) ++ concat (drop (S i) bs).

Lemma concat_chain bs i chain : bs !! i = Some chain -> concat bs ≡ₚ chain ++ others bs i.
Proof.
  intros H. unfold others. rewrite <- (take_drop_middle bs i chain H) at 1.
  rewrite concat_app. simpl. solve_Permutation.
Qed.

Lemma concat_insert bs i chain chain' : bs !! i = Some chain ->
  concat (<[i := chain']> bs) ≡ₚ chain' ++ others bs i.
Proof.
  intros H. pose proof (lookup_lt_Some _ _ _ H) as Hlt. unfold others.
  rewrite insert_take_drop by done. rewrite concat_app. simpl. solve_Permutation.
Qed.

Lemma elem_of_others bs i e : e ∈ others bs i ->
  exists j chain, j <> i /\ bs !! j = Some chain /\ e ∈ chain.
Proof.
  unfold others. rewrite elem_of_app, !list_elem_of_In, !in_concat.
  intros [(chain & Hc & He)|(chain & Hc & He)]; apply list_elem_of_In, list_elem_of_lookup in Hc as (j & Hj).
  - apply lookup_take_Some in Hj as [Hj Hlt]. exists j, chain. rewrite list_elem_of_In. split; [lia|done].
  - rewrite lookup_drop in Hj. exists (S i + j)%nat, chain. rewrite list_elem_of_In. split; [lia|done].
Qed.

(** ** Lemmas: indices *)

Lemma index_mod k h : 0 <= k < 32 -> calculateIndex (2 ^ k) h = h mod 2 ^ k.
Proof.
  intros Hk. unfold calculateIndex. assert (0 < 2 ^ k < 2 ^ 32)
    by (split; [apply Z.pow_pos_nonneg; lia|apply Z.pow_lt_mono_r; lia]).
  rewrite (u32_id (2 ^ k - 1)) by lia. replace (2 ^ k - 1) with (Z.ones k) by (rewrite Z.ones_equiv; lia).
  rewrite Z.land_ones by lia. unfold u32. apply Z.mod_mod_divide.
  exists (2 ^ (32 - k)). rewrite <- Z.pow_add_r by lia. f_equal. lia.
Qed.

Lemma index_range k h : 0 <= k < 32 -> 0 <= calculateIndex (2 ^ k) h < 2 ^ k.
Proof. intros. rewrite index_mod by done. apply Z.mod_pos_bound. apply Z.pow_pos_nonneg; lia. Qed.

(** ** The invariant

    The number of buckets is a power of two; every entry lies in the bucket of
    its hash; no two entries have equal keys; [size] counts the entries. *)

Section Refinement.
Context {C : Type} `{Countable C} (contents : Z -> C).

Definition ekey (e : Entry) : C := contents (e_key e).

Record wf (m : Hashmap) : Prop := {
  wf_keys : HashKey contents (hash m) (equals m);
  wf_count : exists k, 0 <= k < 30 /\ bucketCount m = 2 ^ k;
  wf_len : zlen (buckets m) = bucketCount m;
  wf_place i chain e : buckets m !! i = Some chain -> e ∈ chain ->
    e_hash e = hashKey m (e_key e) /\
    i = Z.to_nat (calculateIndex (bucketCount m) (e_hash e));
  wf_nodup : NoDup (map ekey (concat (buckets m)));
  wf_size : size m = u32 (zlen (concat (buckets m)))
}.

(** What the map stands for. *)
Definition kv (e : Entry) : C * Z := (ekey e, e_value e).

Definition abs (m : Hashmap) : gmap C Z := list_to_map (map kv (concat (buckets m))).

Lemma map_fst_kv l : (map kv l).*1 = map ekey l.
Proof. change (map kv l) with (kv <$> l). by rewrite <- list_fmap_compose. Qed.

Lemma abs_perm m l : NoDup (map ekey (concat (buckets m))) -> concat (buckets m) ≡ₚ l ->
  abs m = list_to_map (map kv l).
Proof.
  intros Hnd Hp. apply list_to_map_proper; [by rewrite map_fst_kv|]. by apply Permutation_map.
Qed.

Lemma hashKey_ext m a b : wf m -> contents a = contents b -> hashKey m a = hashKey m b.
Proof. intros [Hk _ _ _ _ _] Hc. unfold hashKey. by rewrite (hash_contents a b Hc). Qed.

(** The index of a key is inside the array. *)
Lemma chain_lookup m key : wf m -> exists chain, buckets m !! key_index m key = Some chain.
Proof.
  intros [_ (k & Hk & Hc) Hl _ _ _]. apply lookup_lt_is_Some. unfold key_index. rewrite Hc in *.
  pose proof (index_range k (hashKey m key) ltac:(lia)). unfold zlen in Hl. lia.
Qed.

Lemma matches_spec m key i chain e : wf m -> buckets m !! i = Some chain -> e ∈ chain ->
  matches m key e = bool_decide (ekey e = contents key).
Proof.
  intros Hwf Hi He. destruct (wf_place m Hwf _ _ _ Hi He) as [Hh _]. unfold matches, equalKeys, ekey.
  destruct (Z.eqb_spec (e_key e) key) as [->|Hne]; [by rewrite bool_decide_true|].
  destruct (wf_keys m Hwf) as [_ Heq]. rewrite Hh.
  destruct (Z.eqb_spec (hashKey m (e_key e)) (hashKey m key)) as [E|E]; cbn [negb]; [apply Heq|].
  symmetry. apply bool_decide_false. intros Hc. apply E. by apply hashKey_ext.
Qed.

Lemma others_fresh m key e : wf m -> e ∈ others (buckets m) (key_index m key) -> ekey e <> contents key.
Proof.
  intros Hwf He Hc. apply elem_of_others in He as (j & chain & Hne & Hj & He).
  destruct (wf_place m Hwf _ _ _ Hj He) as [Hh Hidx]. apply Hne. rewrite Hidx, Hh.
  unfold key_index. by rewrite (hashKey_ext m (e_key e) key Hwf Hc).
Qed.
Lemma nodup_perm l l' : l ≡ₚ l' -> NoDup (map ekey l') -> NoDup (map ekey l).
Proof. intros Hp Hnd. eapply NoDup_Permutation_proper; [|exact Hnd]. by apply Permutation_map. Qed.

Lemma zlen_perm {A} (l l' : list A) : l ≡ₚ l' -> zlen l = zlen l'.
Proof. intros Hp. unfold zlen. by rewrite (Permutation_length Hp). Qed.

(** ** Lemmas: changing one chain *)

Lemma set_chain_wf m i chain chain' sz :
  wf m -> buckets m !! i = Some chain ->
  (forall e, e ∈ chain' -> e_hash e = hashKey m (e_key e) /\
     i = Z.to_nat (calculateIndex (bucketCount m) (e_hash e))) ->
  NoDup (map ekey (chain' ++ others (buckets m) i)) ->
  sz = u32 (zlen (chain' ++ others (buckets m) i)) ->
  wf (set_chain m i chain' sz) /\
  abs (set_chain m i chain' sz) = list_to_map (map kv (chain' ++ others (buckets m) i)).
Proof.
  intros Hwf Hi Hpl Hnd Hsz. pose proof (concat_insert (buckets m) i chain chain' Hi) as Hp.
  assert (Hnd' : NoDup (map ekey (concat (<[i := chain']> (buckets m))))) by (by apply (nodup_perm _ _ Hp)).
  split; [|by apply abs_perm]. destruct Hwf as [H1 H2 H3 H4 _ _].
  split; cbn [set_chain buckets bucketCount hash equals size]; auto.
  - unfold zlen in *. by rewrite length_insert.
  - intros j c e Hj He. destruct (decide (j = i)) as [->|Hne].
    + rewrite list_lookup_insert_eq in Hj by (by eapply lookup_lt_Some). injection Hj as <-. exact (Hpl e He).
    + rewrite list_lookup_insert_ne in Hj by done. exact (H4 j c e Hj He).
  - by rewrite Hsz, (zlen_perm _ _ Hp).
Qed.

(** ** Lemmas: expansion *)

Definition placed (k : Z) (bs : list (list Entry)) : Prop :=
  forall i chain e, bs !! i = Some chain -> e ∈ chain -> i = Z.to_nat (calculateIndex (2 ^ k) (e_hash e)).

Lemma move_entry_spec k bs e : 0 <= k < 32 -> zlen bs = 2 ^ k -> placed k bs ->
  let bs' := move_entry (2 ^ k) bs e in
  zlen bs' = 2 ^ k /\ placed k bs' /\ concat bs' ≡ₚ e :: concat bs.
Proof.
  intros Hk Hl Hpl bs'. subst bs'. unfold move_entry. set (i := Z.to_nat _).
  pose proof (index_range k (e_hash e) Hk) as Hr.
  assert (is_Some (bs !! i)) as [chain Hi] by (apply lookup_lt_is_Some; unfold zlen, i in *; lia).
  assert (Ha : alter (cons e) i bs = <[i := e :: chain]> bs).
  { apply list_eq. intros j. destruct (decide (j = i)) as [->|Hne].
    - rewrite list_lookup_alter_eq, Hi. symmetry. apply list_lookup_insert_eq. by eapply lookup_lt_Some.
    - by rewrite list_lookup_alter_ne, list_lookup_insert_ne by done. }
  rewrite Ha. split; [|split].
  - unfold zlen in *. by rewrite length_insert.
  - intros j c x Hj Hx. destruct (decide (j = i)) as [->|Hne].
    + rewrite list_lookup_insert_eq in Hj by (by eapply lookup_lt_Some). injection Hj as <-.
      apply elem_of_cons in Hx as [->|Hx]; [done|]. by apply (Hpl i chain).
    + rewrite list_lookup_insert_ne in Hj by done. by apply (Hpl j c).
  - rewrite (concat_insert bs i chain (e :: chain) Hi), (concat_chain bs i chain Hi). done.
Qed.

Lemma move_all k es : 0 <= k < 32 -> forall bs, zlen bs = 2 ^ k -> placed k bs ->
  let bs' := fold_left (move_entry (2 ^ k)) es bs in
  zlen bs' = 2 ^ k /\ placed k bs' /\ concat bs' ≡ₚ es ++ concat bs.
Proof.
  intros Hk. induction es as [|e es IH]; intros bs Hl Hpl; [done|]. cbn [fold_left].
  destruct (move_entry_spec k bs e Hk Hl Hpl) as (H1 & H2 & H3).
  destruct (IH _ H1 H2) as (H4 & H5 & H6). split; [done|]. split; [done|].
  rewrite H6, H3. simpl. symmetry. apply Permutation_middle.
Qed.

Lemma fold_concat {A B} (f : A -> B -> A) : forall (bs : list (list B)) a,
  fold_left (fun a l => fold_left f l a) bs a = fold_left f (concat bs) a.
Proof. induction bs as [|l bs IH]; intros a; [done|]. simpl. by rewrite IH, fold_left_app. Qed.

Lemma concat_empty n : concat (replicate n (@nil Entry)) = [].
Proof. by induction n. Qed.

Lemma expand_wf m mem : wf m ->
  wf (expandIfNecessary m mem) /\ abs (expandIfNecessary m mem) = abs m /\
  size (expandIfNecessary m mem) = size m.
Proof.
  intros Hwf. unfold expandIfNecessary. destruct (_ <? size m); [|done].
  destruct (wf_count m Hwf) as (k & Hk & Hc). rewrite Hc.
  rewrite Z.shiftl_mul_pow2 by lia. change (2 ^ 1) with 2.
  replace (2 ^ k * 2) with (2 ^ (k + 1)) by (rewrite Z.pow_add_r by lia; lia).
  assert (Hp : 0 < 2 ^ (k + 1) < 2 ^ 32)
    by (split; [apply Z.pow_pos_nonneg; lia|apply Z.pow_lt_mono_r; lia]).
  rewrite u32_id by lia. unfold calloc_buckets. destruct (mem && _) eqn:E; [|done].
  apply andb_prop in E as [_ E]. apply Z.ltb_lt in E.
  assert (Hk1 : k + 1 < 30).
  { apply Z.nle_gt. intros Hle. pose proof (Z.pow_le_mono_r 2 30 (k + 1) ltac:(lia) Hle). lia. }
  rewrite fold_concat. set (nb := replicate _ _).
  assert (Hnb : zlen nb = 2 ^ (k + 1)) by (unfold nb, zlen; rewrite length_replicate; lia).
  assert (Hpn : placed (k + 1) nb).
  { intros i c e Hi He. apply lookup_replicate in Hi as [-> _]. by apply not_elem_of_nil in He. }
  destruct (move_all (k + 1) (concat (buckets m)) ltac:(lia) nb Hnb Hpn) as (H1 & H2 & H3).
  unfold nb in H3. rewrite concat_empty, app_nil_r in H3. fold nb in H3.
  set (nb' := fold_left _ _ nb) in *. pose proof (wf_nodup m Hwf) as Hnd.
  assert (Hnd' : NoDup (map ekey (concat nb'))) by (by apply (nodup_perm _ _ H3)).
  split; [split|split]; cbn [buckets bucketCount hash equals size]; auto.
  - apply (wf_keys m Hwf).
  - exists (k + 1). split; [lia|done].
  - intros i c e Hi He. split; [|exact (H2 i c e Hi He)].
    assert (Hin : e ∈ concat (buckets m)).
    { rewrite <- H3. apply list_elem_of_In, in_concat. exists c. rewrite <- !list_elem_of_In.
      split; [by eapply list_elem_of_lookup_2|done]. }
    apply list_elem_of_In, in_concat in Hin as (c' & Hc' & He').
    apply list_elem_of_In, list_elem_of_lookup in Hc' as (j & Hj). rewrite <- list_elem_of_In in He'.
    by destruct (wf_place m Hwf j c' e Hj He') as [-> _].
  - by rewrite (wf_size m Hwf), (zlen_perm _ _ H3).
  - symmetry. rewrite (abs_perm m (concat nb')); [done|done|]. by rewrite H3.
Qed.

(** ** Lemmas: finding a key *)

Lemma find_spec m key chain : wf m -> buckets m !! key_index m key = Some chain ->
  match walk (matches m key) chain with
  | Some (l, e, r) =>
    chain = l ++ e :: r /\ ekey e = contents key /\ abs m !! contents key = Some (e_value e) /\
    abs m = list_to_map (kv e :: map kv ((l ++ r) ++ others (buckets m) (key_index m key))) /\
    NoDup (contents key :: map ekey ((l ++ r) ++ others (buckets m) (key_index m key)))
  | None =>
    abs m !! contents key = None /\
    abs m = list_to_map (map kv (chain ++ others (buckets m) (key_index m key))) /\
    NoDup (contents key :: map ekey (chain ++ others (buckets m) (key_index m key)))
  end.
Proof.
  intros Hwf Hi. set (O := others _ _). pose proof (concat_chain _ _ _ Hi) as Hp. fold O in Hp.
  pose proof (wf_nodup m Hwf) as Hnd. destruct (walk _ _) as [[[l e] r]|] eqn:E.
  - apply walk_some in E as (Hc & He & _).
    rewrite (matches_spec m key _ chain e Hwf Hi) in He by (rewrite Hc; set_solver).
    apply bool_decide_eq_true in He. split; [done|]. split; [done|].
    assert (Hp' : concat (buckets m) ≡ₚ e :: (l ++ r) ++ O).
    { rewrite Hp, Hc, <- !app_assoc. simpl. symmetry. apply Permutation_middle. }
    pose proof (abs_perm m _ Hnd Hp') as Ha.
    split; [|split; [done|]].
    + rewrite Ha. cbn [map list_to_map foldr]. unfold kv at 1. rewrite He. cbn [fst snd uncurry].
      apply lookup_insert_eq.
    + rewrite <- He. change (NoDup (map ekey (e :: (l ++ r) ++ O))). symmetry in Hp'.
      by apply (nodup_perm _ _ Hp').
  - apply walk_none in E. pose proof (abs_perm m _ Hnd Hp) as Ha.
    assert (Hfresh : contents key ∉ map ekey (chain ++ O)).
    { rewrite list_elem_of_In, in_map_iff. intros (e & He & Hin). apply list_elem_of_In, elem_of_app in Hin as [Hin|Hin].
      - rewrite Forall_forall in E. specialize (E e Hin).
        rewrite (matches_spec m key _ chain e Hwf Hi Hin) in E. by apply bool_decide_eq_false in E.
      - by apply (others_fresh m key e Hwf Hin). }
    split; [|split; [done|]].
    + rewrite Ha. apply not_elem_of_list_to_map_1. by rewrite map_fst_kv.
    + constructor; [done|]. symmetry in Hp. by apply (nodup_perm _ _ Hp).
Qed.

(** Adding an entry for a key that is not there. *)
Lemma add_entry m key value chain mem :
  wf m -> buckets m !! key_index m key = Some chain -> walk (matches m key) chain = None ->
  let m' := expandIfNecessary (set_chain m (key_index m key)
              (chain ++ [mk_entry key (hashKey m key) value]) (u32 (size m + 1))) mem in
  wf m' /\ abs m' = <[contents key := value]> (abs m) /\ size m' = u32 (size m + 1).
Proof.
  intros Hwf Hi Hw m'. subst m'. pose proof (find_spec m key chain Hwf Hi) as Hf. rewrite Hw in Hf.
  destruct Hf as (_ & Ha & Hnd). set (e := mk_entry _ _ _). set (O := others _ _) in *.
  assert (Hp : (chain ++ [e]) ++ O ≡ₚ e :: chain ++ O) by (rewrite <- app_assoc; symmetry; apply Permutation_middle).
  destruct (set_chain_wf m (key_index m key) chain (chain ++ [e]) (u32 (size m + 1))) as [Hwf' Ha']; auto.
  - intros x Hx. apply elem_of_app in Hx as [Hx|Hx]; [by apply (wf_place m Hwf _ chain)|].
    apply list_elem_of_singleton in Hx as ->. done.
  - fold O. apply (nodup_perm _ _ Hp). exact Hnd.
  - fold O. rewrite (zlen_perm _ _ Hp), (wf_size m Hwf), zlen_cons.
    rewrite (zlen_perm _ _ (concat_chain _ _ _ Hi)). fold O. unfold u32. rewrite Zplus_mod_idemp_l. f_equal. lia.
  - destruct (expand_wf _ mem Hwf') as (H1 & H2 & H3). split; [done|]. split; [|by rewrite H3].
    rewrite H2, Ha', Ha. fold O. trans (list_to_map (map kv (e :: chain ++ O)) : gmap C Z); [|reflexivity].
    apply list_to_map_proper; [|by apply (Permutation_map kv) in Hp].
    rewrite map_fst_kv. apply (nodup_perm _ _ Hp). exact Hnd.
Qed.

(** ** Lemmas: the operations *)

Lemma put_refines m key value mem : wf m ->
  exists m', hashmapPut m key value mem = Ok (m', default NULL (abs m !! contents key)) /\ wf m' /\
    abs m' = (if fst mem || bool_decide (is_Some (abs m !! contents key))
              then <[contents key := value]> (abs m) else abs m).
Proof.
  intros Hwf. destruct (chain_lookup m key Hwf) as [chain Hi]. unfold hashmapPut. rewrite Hi. cbn [oof obind].
  pose proof (find_spec m key chain Hwf Hi) as Hf. destruct (walk _ _) as [[[l e] r]|] eqn:Hw.
  - destruct Hf as (Hc & Hk & Hl & Ha & Hnd). rewrite Hl. set (O := others _ _) in *.
    set (e' := mk_entry _ _ _). rewrite bool_decide_true, orb_true_r by eauto.
    assert (Hp : (l ++ e' :: r) ++ O ≡ₚ e' :: (l ++ r) ++ O)
      by (rewrite <- !app_assoc; simpl; symmetry; apply Permutation_middle).
    assert (Hnd' : NoDup (map ekey (e' :: (l ++ r) ++ O))) by (cbn [map]; change (ekey e') with (ekey e); by rewrite Hk).
    destruct (set_chain_wf m (key_index m key) chain (l ++ e' :: r) (size m)) as [Hwf' Ha']; auto.
    + intros x Hx. assert (Hx' : x ∈ chain \/ x = e') by (rewrite Hc; set_solver).
      destruct Hx' as [Hx'| ->]; [by apply (wf_place m Hwf _ chain)|].
      apply (wf_place m Hwf _ chain e Hi). rewrite Hc. set_solver.
    + fold O. by apply (nodup_perm _ _ Hp).
    + fold O. rewrite (zlen_perm _ _ Hp), (wf_size m Hwf), (zlen_perm _ _ (concat_chain _ _ _ Hi)), Hc. fold O.
      rewrite !zlen_cons, !zlen_app, !zlen_cons. f_equal. lia.
    + eexists. split; [reflexivity|]. split; [done|]. rewrite Ha', Ha. fold O.
      trans (list_to_map (map kv (e' :: (l ++ r) ++ O)) : gmap C Z).
      * apply list_to_map_proper; [rewrite map_fst_kv; by apply (nodup_perm _ _ Hp)|by apply (Permutation_map kv)].
      * assert (H1 : kv e = (contents key, e_value e)) by (unfold kv; by rewrite Hk).
        assert (H2 : kv e' = (contents key, value)) by (unfold kv; change (ekey e') with (ekey e); by rewrite Hk).
        cbn [map]. rewrite H1, H2. symmetry. apply insert_insert_eq.
  - destruct Hf as (Hl & _). rewrite Hl. rewrite bool_decide_false by (by intros [? ?]).
    destruct (fst mem); cbn [negb orb]; [|by exists m].
    destruct (add_entry m key value chain (snd mem) Hwf Hi Hw) as (H1 & H2 & _). eexists. split; [reflexivity|]. done.
Qed.

Lemma get_refines m key : wf m -> hashmapGet m key = Ok (default NULL (abs m !! contents key)).
Proof.
  intros Hwf. destruct (chain_lookup m key Hwf) as [chain Hi]. unfold hashmapGet. rewrite Hi. cbn [oof obind].
  pose proof (find_spec m key chain Hwf Hi) as Hf. destruct (walk _ _) as [[[l e] r]|].
  - by destruct Hf as (_ & _ & -> & _).
  - by destruct Hf as (-> & _).
Qed.

Lemma contains_refines m key : wf m ->
  hashmapContainsKey m key = Ok (bool_decide (is_Some (abs m !! contents key))).
Proof.
  intros Hwf. destruct (chain_lookup m key Hwf) as [chain Hi]. unfold hashmapContainsKey. rewrite Hi. cbn [oof obind].
  pose proof (find_spec m key chain Hwf Hi) as Hf. destruct (walk _ _) as [[[l e] r]|].
  - destruct Hf as (_ & _ & -> & _). by rewrite bool_decide_true by eauto.
  - destruct Hf as (-> & _). by rewrite bool_decide_false by (by intros [? ?]).
Qed.

Lemma memoize_refines m key init mem : wf m ->
  exists m' r, hashmapMemoize m key init mem = Ok (m', r) /\ wf m' /\
    (abs m', r) = match abs m !! contents key with
                  | Some v => (abs m, v)
                  | None => if fst mem then (<[contents key := init key]> (abs m), init key) else (abs m, NULL)
                  end.
Proof.
  intros Hwf. destruct (chain_lookup m key Hwf) as [chain Hi]. unfold hashmapMemoize. rewrite Hi. cbn [oof obind].
  pose proof (find_spec m key chain Hwf Hi) as Hf. destruct (walk _ _) as [[[l e] r]|] eqn:Hw.
  - destruct Hf as (_ & _ & -> & _). eauto.
  - destruct Hf as (-> & _). destruct (fst mem); cbn [negb]; [|eauto].
    destruct (add_entry m key (init key) chain (snd mem) Hwf Hi Hw) as (H1 & H2 & _).
    eexists _, _. split; [reflexivity|]. split; [done|]. by rewrite H2.
Qed.

Lemma remove_refines m key : wf m ->
  exists m', hashmapRemove m key = Ok (m', default NULL (abs m !! contents key)) /\ wf m' /\
    abs m' = delete (contents key) (abs m).
Proof.
  intros Hwf. destruct (chain_lookup m key Hwf) as [chain Hi]. unfold hashmapRemove. rewrite Hi. cbn [oof obind].
  pose proof (find_spec m key chain Hwf Hi) as Hf. destruct (walk _ _) as [[[l e] r]|] eqn:Hw.
  - destruct Hf as (Hc & Hk & Hl & Ha & Hnd). rewrite Hl. set (O := others _ _) in *.
    apply NoDup_cons in Hnd as [Hfresh Hnd].
    destruct (set_chain_wf m (key_index m key) chain (l ++ r) (u32 (size m - 1))) as [Hwf' Ha']; auto.
    + intros x Hx. apply (wf_place m Hwf _ chain x Hi). rewrite Hc. set_solver.
    + fold O. rewrite (wf_size m Hwf), (zlen_perm _ _ (concat_chain _ _ _ Hi)), Hc. fold O.
      unfold u32. rewrite Zminus_mod_idemp_l. rewrite !zlen_app, zlen_cons. f_equal. lia.
    + eexists. split; [reflexivity|]. split; [done|]. rewrite Ha', Ha. fold O.
      assert (H1 : kv e = (contents key, e_value e)) by (unfold kv; by rewrite Hk).
      rewrite H1. symmetry. apply delete_insert_id. apply not_elem_of_list_to_map_1. by rewrite map_fst_kv.
  - destruct Hf as (Hl & _). rewrite Hl. exists m. split; [done|]. split; [done|].
    symmetry. by apply delete_id.
Qed.

Lemma size_refines m : wf m -> hashmapSize m = u32 (Z.of_nat (base.size (abs m))).
Proof.
  intros Hwf. unfold hashmapSize. rewrite (wf_size m Hwf). do 2 f_equal.
  rewrite <- length_map_to_list. unfold abs. rewrite map_to_list_to_map; [by rewrite length_map|].
  rewrite map_fst_kv. apply (wf_nodup m Hwf).
Qed.

(** ** The contract: operations on a finite map *)

Inductive map_op : Type :=
  | OpPut (key value : Z)
  | OpGet (key : Z)
  | OpContains (key : Z)
  | OpMemoize (key : Z) (initialValue : Z -> Z)
  | OpRemove (key : Z)
  | OpSize.

(** Each call comes with the results of its allocations. *)
Definition exec (m : Hashmap) (o : map_op) (mem : bool * bool) : outcome (Hashmap * Z) :=
  match o with
  | OpPut k v => hashmapPut m k v mem
  | OpGet k => let! r := hashmapGet m k in Ok (m, r)
  | OpContains k => let! r := hashmapContainsKey m k in Ok (m, if r : bool then 1 else 0)
  | OpMemoize k f => hashmapMemoize m k f mem
  | OpRemove k => hashmapRemove m k
  | OpSize => Ok (m, hashmapSize m)
  end.

Fixpoint exec_all (m : Hashmap) (l : list (map_op * (bool * bool))) : outcome (Hashmap * list Z) :=
  match l with
  | [] => Ok (m, [])
  | (o, mem) :: l' =>
    let! (m, r) := exec m o mem in
    let! (m, rs) := exec_all m l' in
    Ok (m, r :: rs)
  end.

(** What [hashmap.h] promises. *)
Definition spec (a : gmap C Z) (o : map_op) (mem : bool * bool) : gmap C Z * Z :=
  match o with
  | OpPut k v =>
    (if fst mem || bool_decide (is_Some (a !! contents k)) then <[contents k := v]> a else a,
     default NULL (a !! contents k))
  | OpGet k => (a, default NULL (a !! contents k))
  | OpContains k => (a, if decide (is_Some (a !! contents k)) then 1 else 0)
  | OpMemoize k f =>
    match a !! contents k with
    | Some v => (a, v)
    | None => if fst mem then (<[contents k := f k]> a, f k) else (a, NULL)
    end
  | OpRemove k => (delete (contents k) a, default NULL (a !! contents k))
  | OpSize => (a, u32 (Z.of_nat (base.size a)))
  end.

Fixpoint spec_all (a : gmap C Z) (l : list (map_op * (bool * bool))) : gmap C Z * list Z :=
  match l with
  | [] => (a, [])
  | (o, mem) :: l' =>
    let '(a, r) := spec a o mem in
    let '(a, rs) := spec_all a l' in (a, r :: rs)
  end.

Lemma exec_refines m o mem : wf m ->
  exists m' r, exec m o mem = Ok (m', r) /\ wf m' /\ spec (abs m) o mem = (abs m', r).
Proof.
  intros Hwf. destruct o as [k v|k|k|k f|k|]; cbn [exec spec].
  - destruct (put_refines m k v mem Hwf) as (m' & H1 & H2 & H3). rewrite <- H3. eauto.
  - rewrite get_refines by done. eexists _, _. split; [reflexivity|]. done.
  - rewrite contains_refines by done. eexists _, _. split; [reflexivity|]. split; [done|]. f_equal.
    destruct (decide _); [by rewrite bool_decide_true|by rewrite bool_decide_false].
  - destruct (memoize_refines m k f mem Hwf) as (m' & r & H1 & H2 & H3). eauto.
  - destruct (remove_refines m k Hwf) as (m' & H1 & H2 & H3). rewrite <- H3. eauto.
  - rewrite size_refines by done. eauto.
Qed.

(** C8: the hash map is a finite map. For any hash and equality functions that
    depend only on what the keys point to, any sequence of operations on a
    well-formed map, with any pattern of failing allocations, runs without
    leaving the bucket array; every result and the final contents are those of
    the same operations on a finite map from key contents to values (where a
    failed allocation of an entry leaves the map alone, and a failed growth of
    the array is not visible at all), and the map is well-formed again. *)
Theorem hashmap_refines_map m l : wf m ->
  exists m' rs, exec_all m l = Ok (m', rs) /\ wf m' /\ spec_all (abs m) l = (abs m', rs).
Proof.
  revert m. induction l as [|[o mem] l IH]; intros m Hwf; [exists m, []; done|].
  destruct (exec_refines m o mem Hwf) as (m1 & r & H1 & Hwf1 & H2).
  destruct (IH m1 Hwf1) as (m' & rs & H3 & Hwf' & H4). exists m', (r :: rs).
  cbn [exec_all spec_all]. rewrite H1. cbn [obind]. rewrite H3, H2, H4. done.
Qed.

Lemma forEach_chain_all {S} (cb : Z -> Z -> S -> S * bool) chain : (forall k v s, snd (cb k v s) = true) ->
  forall s, forEach_chain cb chain s =
    (fold_left (fun s e => fst (cb (e_key e) (e_value e) s)) chain s, true).
Proof.
  intros Hcb. induction chain as [|e chain IH]; intros s; [done|]. cbn [forEach_chain fold_left].
  specialize (Hcb (e_key e) (e_value e) s). destruct (cb _ _ s) as [s' go]. simpl in Hcb. subst go.
  cbn [fst]. apply IH.
Qed.

(** [hashmapForEach] visits every entry exactly once: with a callback that
    never stops, it is a fold over a list of entries whose keys and values are
    those of the finite map, each once. *)
Theorem forEach_visits {S} m (cb : Z -> Z -> S -> S * bool) s :
  wf m -> (forall k v s, snd (cb k v s) = true) ->
  exists es, hashmapForEach m cb s = fold_left (fun s e => fst (cb (e_key e) (e_value e) s)) es s /\
    map kv es ≡ₚ map_to_list (abs m).
Proof.
  intros Hwf Hcb. exists (concat (buckets m)). split.
  - unfold hashmapForEach. generalize (buckets m). intros bs. revert s.
    induction bs as [|chain bs IH]; intros s; [done|]. cbn [forEach_buckets concat].
    by rewrite (forEach_chain_all cb chain Hcb), fold_left_app.
  - unfold abs. rewrite map_to_list_to_map; [done|]. rewrite map_fst_kv. apply (wf_nodup m Hwf).
Qed.

End Refinement.

(** ** Creation *)

Lemma grow_count_spec minimum : 0 <= minimum < 2 ^ 31 -> forall n k,
  0 <= k -> k + Z.of_nat n = 31 -> (0 < k -> 2 ^ (k - 1) <= minimum) ->
  exists k', k <= k' <= 31 /\ grow_count (S n) (2 ^ k) minimum = Ok (2 ^ k') /\ minimum < 2 ^ k' /\
    (0 < k' -> 2 ^ (k' - 1) <= minimum).
Proof.
  intros Hm. induction n as [|n IH]; intros k Hk Hn Hprev; cbn [grow_count].
  - replace k with 31 by lia.
    assert (H1 : (2 ^ 31 <=? minimum) = false) by lia. rewrite H1. exists 31. split_and!; [lia|lia|done|lia|].
    intros _. replace 31 with k by lia. apply Hprev. lia.
  - destruct (Z.leb_spec (2 ^ k) minimum) as [Hle|Hgt].
    + rewrite Z.shiftl_mul_pow2 by lia. rewrite <- Z.pow_add_r by lia.
      assert (Hk1 : 2 ^ (k + 1) < 2 ^ 32) by (apply Z.pow_lt_mono_r; lia).
      rewrite u32_id by (split; [apply Z.pow_nonneg; lia|done]).
      destruct (IH (k + 1) ltac:(lia) ltac:(lia)) as (k' & H1 & H2 & H3 & H4).
      { intros _. by replace (k + 1 - 1) with k by lia. }
      exists k'. split; [lia|]. done.
    + exists k. split; [lia|]. done.
Qed.

Lemma create_wf {C : Type} `{Countable C} (contents : Z -> C) hash equals
    `{HK : !HashKey contents hash equals} cap mem :
  0 <= cap < 2 ^ 32 ->
  exists k, 0 <= k <= 31 /\ cap * 4 mod 2 ^ 32 / 3 < 2 ^ k /\
    (0 < k -> 2 ^ (k - 1) <= cap * 4 mod 2 ^ 32 / 3) /\
    hashmapCreate cap hash equals mem =
      Ok (if fst mem && (snd mem && (2 ^ k * 4 <? 2 ^ 32))
          then Some (mk_map (replicate (Z.to_nat (2 ^ k)) []) (2 ^ k) hash equals 0) else None) /\
    (k < 30 -> wf contents (mk_map (replicate (Z.to_nat (2 ^ k)) []) (2 ^ k) hash equals 0)).
Proof.
  intros Hc. set (minimum := cap * 4 mod 2 ^ 32 / 3).
  pose proof (Z.mod_pos_bound (cap * 4) (2 ^ 32) ltac:(lia)) as Hmod.
  assert (Hm : 0 <= minimum < 2 ^ 31) by (unfold minimum; wrap_pow; Z.div_mod_to_equations; lia).
  destruct (grow_count_spec minimum Hm 31 0) as (k & Hk & Hg & Hlt & Hle); [lia|lia|lia|].
  exists k. split; [done|]. split; [done|]. split; [done|]. split.
  - unfold hashmapCreate. destruct (fst mem); cbn [negb andb]; [|done].
    fold minimum. change (u32 (cap * 4) / 3) with minimum.
    change (grow_count 32 1 minimum) with (grow_count 32 (2 ^ 0) minimum). rewrite Hg. cbn [obind]. unfold calloc_buckets. by destruct (snd mem && _).
  - intros Hk30. split; cbn [buckets bucketCount Hashmap.hash Hashmap.equals size]; auto.
    + exists k. split; [lia|done].
    + unfold zlen. rewrite length_replicate. apply Z2Nat.id. apply Z.pow_nonneg. lia.
    + intros i chain e Hi He. apply lookup_replicate in Hi as [-> _]. by apply not_elem_of_nil in He.
    + rewrite concat_empty. constructor.
    + by rewrite concat_empty.
Qed.

(** Creation terminates for every [size_t] capacity, also where
    [initialCapacity * 4] wraps around. The result is NULL or an empty
    well-formed map, and with enough memory a capacity of up to 2^28 gives a
    map that can take that many entries before it grows. *)
Theorem hashmapCreate_correct {C : Type} `{Countable C} (contents : Z -> C) hash equals
    `{HK : !HashKey contents hash equals} cap mem :
  0 <= cap < 2 ^ 32 ->
  exists r, hashmapCreate cap hash equals mem = Ok r /\
    (forall m, r = Some m -> wf contents m /\ abs contents m = ∅) /\
    (cap <= 2 ^ 28 -> mem = (true, true) ->
       exists m, r = Some m /\ cap <= hashmapCurrentCapacity m).
Proof.
  intros Hc. destruct (create_wf contents hash equals cap mem Hc) as (k & Hk & Hlt & Hle & Hr & Hwf).
  eexists. split; [exact Hr|]. split.
  - intros m Hm. destruct (fst mem && _) eqn:E; [|done]. injection Hm as <-.
    apply andb_prop in E as [_ E]. apply andb_prop in E as [_ E]. apply Z.ltb_lt in E.
    split; [|unfold abs; cbn [buckets]; by rewrite concat_empty]. apply Hwf.
    apply Z.nle_gt. intros H30. pose proof (Z.pow_le_mono_r 2 30 k ltac:(lia) H30). lia.
  - intros Hcap ->. rewrite Z.mod_small in Hlt, Hle by lia.
    assert (Hk30 : k < 30).
    { apply Z.nle_gt. intros H30. pose proof (Z.pow_le_mono_r 2 29 (k - 1) ltac:(lia) ltac:(lia)).
      specialize (Hle ltac:(lia)). wrap_pow. Z.div_mod_to_equations. lia. }
    assert (Hp : 0 < 2 ^ k <= 2 ^ 29)
      by (split; [apply Z.pow_pos_nonneg; lia|apply Z.pow_le_mono_r; lia]).
    cbn [fst snd andb]. assert (E : (2 ^ k * 4 <? 2 ^ 32) = true) by lia. rewrite E.
    eexists. split; [reflexivity|]. unfold hashmapCurrentCapacity. cbn [bucketCount].
    rewrite u32_id by lia. apply Z.div_le_lower_bound; [lia|]. wrap_pow. Z.div_mod_to_equations. lia.
Qed.

Definition demo_mem (p : Z) : list ascii :=
  if p =? 100 then ["f"; "l"; "a"; "s"; "h"]%char
  else if p =? 200 then ["f"; "l"; "a"; "s"; "h"]%char else ["o"; "e"; "m"]%char.

Lemma hashmapCreate_correct_witness :
  exists r, hashmapCreate 8 (strhash demo_mem) (strcompare demo_mem) (true, true) = Ok r /\
    exists m, r = Some m /\ 8 <= hashmapCurrentCapacity m.
Proof.
  destruct (hashmapCreate_correct demo_mem (strhash demo_mem) (strcompare demo_mem) 8 (true, true))
    as (r & H1 & _ & H2); [lia|]. exists r. split; [exact H1|]. apply H2; [lia|reflexivity].
Defined.

Definition demo_map : Hashmap :=
  mk_map (replicate 1 []) 1 (strhash demo_mem) (strcompare demo_mem) 0.

Lemma demo_map_wf : wf demo_mem demo_map.
Proof.
  destruct (create_wf demo_mem (strhash demo_mem) (strcompare demo_mem) 0 (true, true))
    as (k & Hk & H1 & H2 & H3 & H4); [lia|].
  assert (k = 0) as ->; [|by apply H4].
  apply Z.le_antisymm; [|lia]. apply Z.nlt_ge. intros Hpos. specialize (H2 Hpos).
  pose proof (Z.pow_le_mono_r 2 0 (k - 1) ltac:(lia) ltac:(lia)). change (0 * 4 mod 2 ^ 32 / 3) with 0 in H2. lia.
Qed.

(** Two equal strings at different addresses are one key. *)
Lemma hashmap_refines_map_witness :
  exists m' rs, exec_all demo_map
      [(OpPut 100 7, (true, true)); (OpPut 300 8, (true, true)); (OpGet 200, (true, true));
       (OpPut 200 9, (true, true)); (OpRemove 100, (true, true)); (OpSize, (true, true))] = Ok (m', rs) /\
    rs = [0; 0; 7; 7; 9; 1].
Proof.
  destruct (hashmap_refines_map demo_mem demo_map
      [(OpPut 100 7, (true, true)); (OpPut 300 8, (true, true)); (OpGet 200, (true, true));
       (OpPut 200 9, (true, true)); (OpRemove 100, (true, true)); (OpSize, (true, true))] demo_map_wf)
    as (m' & rs & H1 & _ & H2).
  exists m', rs. split; [exact H1|]. apply (f_equal snd) in H2. symmetry. exact H2.
Defined.

Lemma forEach_visits_witness :
  exists m es, hashmapPut demo_map 100 7 (true, true) = Ok (m, NULL) /\
    hashmapForEach m (fun k v s => (s + v, true)) 0 =
      fold_left (fun s e => fst (s + e_value e, true)) es 0 /\
    map (kv demo_mem) es ≡ₚ map_to_list (abs demo_mem m) /\
    abs demo_mem m = {[ demo_mem 100 := 7 ]}.
Proof.
  destruct (put_refines demo_mem demo_map 100 7 (true, true) demo_map_wf) as (m & H1 & Hwf & H2).
  destruct (forEach_visits demo_mem m (fun k v s => (s + v, true)) 0 Hwf (fun _ _ _ => eq_refl)) as (es & H3 & H4).
  exists m, es. split; [exact H1|]. split; [exact H3|]. split; [exact H4|exact H2].
Defined.

End Hashmap.
