(* ===== verification/ConfigParser.v ===== *)
(** * libcutils/config_parser.c

    The parser of the program's own configuration file: lines of a key and a
    value, with comments. A file is a list of characters that may hold the
    terminator; a string is a list of characters without it. The buffer that
    [config_parser_init] allocates has the size of the file and gets no
    terminator of its own, so that the string functions run past its end unless
    the file holds one. *)

From S2P Require Import Prelude ConfigUtils.
From Stdlib Require Import Ascii.

Module ConfigParser.
Import ConfigUtils.

Definition NUL : ascii := "000"%char.
Definition hash_char : ascii := "#"%char.

Definition char_in (c : ascii) (set : text) : bool := existsb (Ascii.eqb c) set.

(** What [strchr] finds: the text before the first [c] and the text behind it. *)
Fixpoint strchr (c : ascii) (l : text) : option (text * text) :=
  match l with
  | [] => None
  | x :: l' =>
    if Ascii.eqb x c then Some ([], l')
    else match strchr c l' with Some (a, b) => Some (x :: a, b) | None => None end
  end.

Record config_parser := mk_cp { cp_path : text; cp_data : text; cp_len : Z; cp_delim : text }.

Definition PATH_MAX : Z := 4096.

(** The default delimiters. *)
Definition default_delim : text := ["="%char; " "%char; "009"%char].

(** The loop that removes comments; [dst] moves to where the comment was. *)
Fixpoint remove_comments (fuel : nat) (dst : text) : outcome text :=
  match fuel with
  | O => NoFuel
  | S fuel' =>
    match strchr hash_char dst with
    | None => Ok dst
    | Some (before, comment) =>
      match strchr nl comment with
      | None => Ok before
      | Some (_, rest) =>
        let! rest := remove_comments fuel' (nl :: rest) in Ok (before ++ rest)
      end
    end
  end.

(** What the system says about a file: [fstat] (its size) and the characters
    [read] delivers, [None] for failures. *)
Record conf_file := mk_conf { cf_size : option Z; cf_read : option text }.

(** [None] is a NULL result; [mem] are the two allocations. Before the first
    of them the pointer that the error path frees is not initialised. *)
Definition config_parser_init (fn : option text) (file : option conf_file) (mem : bool * bool)
  : outcome (option config_parser) :=
  match fn with
  | None | Some [] => Ok None
  | Some path =>
    match file with
    | None => Ok None
    | Some f =>
      match cf_size f with
      | None => Undef
      | Some st_size =>
        if st_size <=? 0 then Undef
        else if negb (fst mem) then Ok None
        else if negb (snd mem) then Ok None
        else
          match cf_read f with
          | None | Some [] => Ok None
          | Some data =>
            match strchr NUL data with
            | None => Undef
            | Some (str, _) =>
              let! str := remove_comments (S (length str)) str in
              Ok (Some (mk_cp (take (Z.to_nat PATH_MAX) path) str (zlen data) default_delim))
            end
          end
      end
    end
  end.

(** ** [strtok] *)

Fixpoint skip_delim (delim l : text) : text :=
  match l with
  | [] => []
  | c :: l' => if char_in c delim then skip_delim delim l' else l
  end.

(** The characters before the next delimiter, and what follows it. *)
Fixpoint token_end (delim l : text) : text * text :=
  match l with
  | [] => ([], [])
  | c :: l' =>
    if char_in c delim then ([], l')
    else let '(t, r) := token_end delim l' in (c :: t, r)
  end.

(** A token ([None] for NULL) and the rest of the string. *)
Definition strtok (delim l : text) : option text * text :=
  match skip_delim delim l with
  | [] => (None, [])
  | l => let '(t, r) := token_end delim l in (Some t, r)
  end.

(** The value on a line, if its first token is [key]: [Some None] when there is
    no second token. *)
Definition line_value (delim line key : text) : option (option text) :=
  match strtok delim line with
  | (Some tok1, rest) => if text_eqb tok1 key then Some (fst (strtok delim rest)) else None
  | (None, _) => None
  end.

(** The loop over the lines. *)
Fixpoint get_loop (fuel : nat) (delim line key : text) : outcome (option text) :=
  match fuel with
  | O => NoFuel
  | S fuel' =>
    match strchr nl line with
    | Some (l, next) =>
      match line_value delim l key with
      | Some v => Ok v
      | None => get_loop fuel' delim next key
      end
    | None => Ok (default None (line_value delim line key))
    end
  end.

(** [None] is a NULL parser or key. *)
Definition config_parser_get (cp : option config_parser) (key : option text) : outcome (option text) :=
  match key with
  | None | Some [] => Ok None
  | Some key =>
    match cp with
    | None => Ok None
    | Some cp => get_loop (S (length (cp_data cp))) (cp_delim cp) (cp_data cp) key
    end
  end.

(** [delim] has room for seven characters. *)
Definition config_parser_setdelim (cp : option config_parser) (delim : option text)
  : option config_parser * Z :=
  match cp with
  | None => (None, -1)
  | Some p =>
    match delim with
    | None | Some [] => (cp, -1)
    | Some d => (Some (mk_cp (cp_path p) (cp_data p) (cp_len p) (take 7 d)), 0)
    end
  end.

(** ** Reference: the lines of a text *)

Fixpoint lines_loop (fuel : nat) (l : text) : list text :=
  match fuel with
  | O => [l]
  | S fuel' =>
    match strchr nl l with
    | None => [l]
    | Some (a, b) => a :: lines_loop fuel' b
    end
  end.

Definition lines (l : text) : list text := lines_loop (length l) l.

(** A line without its comment. *)
Definition uncomment (l : text) : text :=
  match strchr hash_char l with Some (a, _) => a | None => l end.

(** The value of the first line that has the key as its first token. *)
Definition lookup_lines (delim key : text) (ls : list text) : option text :=
  default None (head (omap (fun l => line_value delim l key) ls)).

(** ** Lemmas *)

Lemma strchr_some c l a b : strchr c l = Some (a, b) ->
  l = a ++ c :: b /\ Forall (fun x => Ascii.eqb x c = false) a.
Proof.
  revert a b. induction l as [|x l IH]; intros a b Hs; [done|]. cbn [strchr] in Hs.
  destruct (Ascii.eqb x c) eqn:E.
  - apply Ascii.eqb_eq in E as ->. injection Hs as <- <-. done.
  - destruct (strchr c l) as [[a' b']|]; [|done]. injection Hs as <- <-.
    destruct (IH _ _ eq_refl) as [-> Ha]. split; [done|by constructor].
Qed.

Lemma strchr_none c l : strchr c l = None -> Forall (fun x => Ascii.eqb x c = false) l.
Proof.
  induction l as [|x l IH]; intros Hs; [done|]. cbn [strchr] in Hs.
  destruct (Ascii.eqb x c) eqn:E; [done|]. destruct (strchr c l) as [[a' b']|]; [done|]. constructor; auto.
Qed.

Lemma strchr_app c a b : Forall (fun x => Ascii.eqb x c = false) a -> strchr c (a ++ c :: b) = Some (a, b).
Proof.
  induction a as [|x a IH]; intros Ha; cbn [app strchr]; [by rewrite Ascii.eqb_refl|].
  apply Forall_cons in Ha as [-> Ha]. by rewrite IH.
Qed.

Lemma strchr_no c a : Forall (fun x => Ascii.eqb x c = false) a -> strchr c a = None.
Proof. induction a as [|x a IH]; intros Ha; [done|]. apply Forall_cons in Ha as [E Ha]. simpl. by rewrite E, IH. Qed.

Lemma lines_fuel : forall f1 f2 l, (length l <= f1)%nat -> (length l <= f2)%nat ->
  lines_loop f1 l = lines_loop f2 l.
Proof.
  induction f1 as [|f1 IH]; intros f2 l H1 H2.
  - destruct l; [|simpl in H1; lia]. by destruct f2.
  - destruct f2 as [|f2]; [destruct l; [done|simpl in H2; lia]|]. cbn [lines_loop].
    destruct (strchr nl l) as [[a b]|] eqn:E; [|done]. f_equal.
    apply strchr_some in E as [-> _]. rewrite length_app in H1, H2. simpl in H1, H2. apply IH; lia.
Qed.

Lemma lines_unfold l : lines l =
  match strchr nl l with None => [l] | Some (a, b) => a :: lines b end.
Proof.
  unfold lines at 1. destruct l as [|x l]; [done|]. cbn [length lines_loop].
  destruct (strchr nl (x :: l)) as [[a b]|] eqn:E; [|done]. f_equal.
  apply strchr_some in E as [E _]. assert (Hl : length (x :: l) = length (a ++ nl :: b)) by (by rewrite E).
  rewrite length_app in Hl. simpl in Hl. apply lines_fuel; lia.
Qed.

(** Induction along the lines of a text. *)
Lemma lines_ind (P : text -> Prop) :
  (forall l, strchr nl l = None -> P l) ->
  (forall a b, Forall (fun x => Ascii.eqb x nl = false) a -> P b -> P (a ++ nl :: b)) -> forall l, P l.
Proof.
  intros H1 H2 l. induction l as [l IH] using (induction_ltof1 _ (@length ascii)). unfold ltof in IH.
  destruct (strchr nl l) as [[a b]|] eqn:E; [|by apply H1]. apply strchr_some in E as [-> Ha].
  apply H2; [done|]. apply IH. rewrite length_app. simpl. lia.
Qed.

Lemma get_loop_spec delim key : forall l fuel, (length l < fuel)%nat ->
  get_loop fuel delim l key = Ok (lookup_lines delim key (lines l)).
Proof.
  apply (lines_ind (fun l => forall fuel, (length l < fuel)%nat -> _)).
  - intros l El fuel Hf. destruct fuel; [lia|]. cbn [get_loop]. rewrite lines_unfold, El. unfold lookup_lines. simpl.
    by destruct (line_value delim l key).
  - intros a b Ha IH fuel Hf. destruct fuel; [lia|]. cbn [get_loop]. rewrite lines_unfold, strchr_app by done.
    unfold lookup_lines in *. cbn [omap list_omap]. destruct (line_value delim a key) as [v|]; [done|].
    apply IH. rewrite length_app in Hf. simpl in Hf. lia.
Qed.

Lemma remove_comments_app fuel a l : Forall (fun x => Ascii.eqb x hash_char = false) a -> (0 < fuel)%nat ->
  remove_comments fuel (a ++ l) = (let! r := remove_comments fuel l in Ok (a ++ r)).
Proof.
  intros Ha Hf. destruct fuel as [|fuel]; [lia|]. cbn [remove_comments].
  assert (Hs : strchr hash_char (a ++ l) =
    match strchr hash_char l with Some (x, y) => Some (a ++ x, y) | None => None end).
  { induction a as [|x a IH]; cbn [app strchr]; [by destruct (strchr hash_char l) as [[? ?]|]|].
    apply Forall_cons in Ha as [-> Ha]. rewrite IH by done. by destruct (strchr hash_char l) as [[? ?]|]. }
  rewrite Hs. destruct (strchr hash_char l) as [[x y]|]; [|done].
  destruct (strchr nl y) as [[u v]|]; [|done].
  destruct (remove_comments fuel (nl :: v)); cbn [obind]; [|done..]. by rewrite app_assoc.
Qed.

Lemma lines_cons a b : Forall (fun x => Ascii.eqb x nl = false) a -> lines (a ++ nl :: b) = a :: lines b.
Proof. intros Ha. by rewrite lines_unfold, strchr_app. Qed.

Lemma lines_one a : Forall (fun x => Ascii.eqb x nl = false) a -> lines a = [a].
Proof. intros Ha. by rewrite lines_unfold, strchr_no. Qed.

Lemma remove_comments_lines : forall l fuel, (length l < fuel)%nat ->
  exists r, remove_comments fuel l = Ok r /\ lines r = map uncomment (lines l).
Proof.
  apply (lines_ind (fun l => forall fuel, (length l < fuel)%nat -> _)).
  - intros l El fuel Hf. destruct fuel as [|fuel]; [lia|]. cbn [remove_comments].
    pose proof (strchr_none _ _ El) as Hl. rewrite (lines_one l Hl). cbn [map]. unfold uncomment.
    destruct (strchr hash_char l) as [[x y]|] eqn:E; [|exists l; by rewrite lines_one].
    apply strchr_some in E as [-> _]. apply Forall_app in Hl as [Hx Hy]. apply Forall_cons in Hy as [_ Hy].
    rewrite (strchr_no nl y Hy). exists x. by rewrite lines_one.
  - intros a b Ha IH fuel Hf. rewrite length_app in Hf. cbn [length] in Hf. rewrite (lines_cons a b Ha). cbn [map].
    unfold uncomment at 1. destruct (strchr hash_char a) as [[x y]|] eqn:E.
    + apply strchr_some in E as [-> Hx]. apply Forall_app in Ha as [Hxn Hy]. apply Forall_cons in Hy as [_ Hy].
      destruct fuel as [|fuel]; [lia|]. cbn [remove_comments]. rewrite <- app_assoc. cbn [app].
      rewrite (strchr_app hash_char x), (strchr_app nl y) by done.
      destruct (IH fuel) as (r & Hr & Hl); [lia|].
      change (nl :: b) with ([nl] ++ b).
      rewrite (remove_comments_app fuel [nl] b) by (try lia; by constructor). rewrite Hr. cbn [obind].
      exists (x ++ nl :: r). split; [done|]. by rewrite lines_cons, Hl.
    + apply strchr_none in E. destruct (IH fuel) as (r & Hr & Hl); [lia|].
      change (a ++ nl :: b) with (a ++ [nl] ++ b). rewrite app_assoc.
      rewrite remove_comments_app; [|apply Forall_app; split; [done|by constructor]|lia]. rewrite Hr. cbn [obind].
      exists ((a ++ [nl]) ++ r). split; [done|]. rewrite <- app_assoc. cbn [app]. by rewrite lines_cons, Hl.
Qed.

Lemma init_get (path body : text) size :
  path <> [] -> 0 < size -> Forall (fun c => Ascii.eqb c NUL = false) body ->
  exists cp,
    config_parser_init (Some path) (Some (mk_conf (Some size) (Some (body ++ [NUL])))) (true, true) =
      Ok (Some cp) /\
    forall key : text, key <> [] -> config_parser_get (Some cp) (Some key) =
      Ok (lookup_lines default_delim key (map uncomment (lines body))).
Proof.
  intros Hp Hs Ht. unfold config_parser_init. destruct path as [|p0 path]; [done|]. cbn [cf_size cf_read].
  assert (E : (size <=? 0) = false) by lia. rewrite E. cbn [fst snd negb].
  rewrite (strchr_app NUL body []) by done.
  destruct (remove_comments_lines body (S (length body))) as (r & Hr & Hl); [lia|].
  rewrite Hr. cbn [obind]. destruct (body ++ [NUL]) eqn:En; [by destruct body|].
  eexists. split; [reflexivity|]. intros key Hk. unfold config_parser_get. destruct key as [|k0 key]; [done|].
  cbn [cp_data cp_delim]. rewrite get_loop_spec by lia. by rewrite Hl.
Qed.

(** ** Theorems *)

(** Reading the configuration. For a file whose text ends in a terminator,
    [config_parser_init] succeeds, and [config_parser_get] returns for every
    key the second token of the first line whose first token is that key,
    where each line counts up to its comment sign; NULL when there is no such
    line or it has no value. *)
Theorem config_parser_lookup (path body : text) size (key : text) :
  path <> [] -> key <> [] -> 0 < size -> Forall (fun c => Ascii.eqb c NUL = false) body ->
  exists cp,
    config_parser_init (Some path) (Some (mk_conf (Some size) (Some (body ++ [NUL])))) (true, true) =
      Ok (Some cp) /\
    config_parser_get (Some cp) (Some key) =
      Ok (lookup_lines default_delim key (map uncomment (lines body))).
Proof.
  intros Hp Hk Hs Ht. destruct (init_get path body size Hp Hs Ht) as (cp & H1 & H2). exists cp. auto.
Qed.

Definition demo_text : text :=
  String.list_ascii_of_string "# comment" ++ nl ::
  String.list_ascii_of_string "rootfs = /dev/sda # the disk" ++ nl ::
  String.list_ascii_of_string "push_dir=/tmp".

Lemma config_parser_lookup_witness :
  exists cp,
    config_parser_init (Some (String.list_ascii_of_string "/etc/x"))
      (Some (mk_conf (Some 52) (Some (demo_text ++ [NUL])))) (true, true) = Ok (Some cp) /\
    config_parser_get (Some cp) (Some (String.list_ascii_of_string "rootfs")) =
      Ok (Some (String.list_ascii_of_string "/dev/sda")).
Proof.
  destruct (config_parser_lookup (String.list_ascii_of_string "/etc/x") demo_text 52
    (String.list_ascii_of_string "rootfs")) as (cp & H1 & H2).
  - discriminate.
  - discriminate.
  - lia.
  - repeat constructor.
  - exists cp. split; [exact H1|exact H2].
Defined.

(** A file without a terminator, which is what a text file is, is scanned past
    the end of the buffer, and for an empty file a pointer is freed that was
    never set. *)
Theorem config_parser_init_undefined (path body : text) size :
  path <> [] ->
  (0 < size -> body <> [] -> Forall (fun c => Ascii.eqb c NUL = false) body ->
   config_parser_init (Some path) (Some (mk_conf (Some size) (Some body))) (true, true) = Undef) /\
  config_parser_init (Some path) (Some (mk_conf (Some 0) (Some []))) (true, true) = Undef.
Proof.
  intros Hp. unfold config_parser_init. destruct path as [|p0 path]; [done|]. cbn [cf_size cf_read]. split; [|done].
  intros Hs Hne Ht. assert (E : (size <=? 0) = false) by lia. rewrite E. cbn [fst snd negb].
  destruct body as [|c body]; [done|]. by rewrite strchr_no.
Qed.

Lemma config_parser_init_undefined_witness :
  config_parser_init (Some (String.list_ascii_of_string "/etc/x")) (Some (mk_conf (Some 0) (Some []))) (true, true) =
    Undef /\
  config_parser_init (Some (String.list_ascii_of_string "/etc/x")) (Some (mk_conf (Some 52) (Some demo_text)))
    (true, true) = Undef.
Proof.
  destruct (config_parser_init_undefined (String.list_ascii_of_string "/etc/x") demo_text 52) as [H1 H2]; [discriminate|].
  split; [exact H2|]. apply H1; [lia|discriminate|repeat constructor].
Defined.

End ConfigParser.
