(* ===== verification/TbootConfig.v ===== *)
(** * src/tboot.c: the configuration of the program

    The configuration is a hash map from key strings to value strings: defaults
    for a fixed set of keys, overridden by the configuration file. This file is
    a client of the hash map and of the configuration parser, and uses only what
    they promise. [mem] is the string behind a pointer; [place] is where the
    parser's copy of a value lies. *)

From S2P Require Import Prelude ConfigUtils Hashmap ConfigParser.
From Stdlib Require Import Ascii.

Module TbootConfig.
Import ConfigUtils Hashmap ConfigParser.

Definition TBOOT_CONFIG : text := lit "/etc/preos/preos.conf".

(** The strings of [tc_keys]. *)
Definition tc_names : list text :=
  [lit "ui_conf"; lit "disk_conf"; lit "push_dir"; lit "rootfs"; lit "enable_nfs"; lit "nfsurl";
   lit "disk_force"; lit "battery_threshold"; lit "lcd_dim_timeout"; lit "lcd_off_timeout";
   lit "lcd_dim_brightness"].

(** The strings of [tc_values]; the first one is the null pointer. *)
Definition tc_defaults : list (option text) :=
  [None; Some (lit "/etc/disk_layout.conf"); Some (lit "/tmp"); Some (lit "/dev/mmcblk1"); Some (lit "no");
   Some (lit "192.168.100.2:/home/nfs"); Some (lit "yes"); Some (lit "10"); Some (lit "30"); Some (lit "10");
   Some (lit "10")].

Section Config.
Context (mem : Z -> text) (place : text -> Z).

(** The arrays before their closing NULL. *)
Context (tc_keys tc_values : list Z).

(** The global map is [None] before it is created. *)
Definition tboot_config_get (config : option Hashmap) (key : Z) : outcome Z :=
  match config with
  | None => Ok NULL
  | Some m =>
    let! found := hashmapContainsKey m key in
    if negb found then Ok NULL else hashmapGet m key
  end.

Definition tboot_config_set (config : option Hashmap) (key value : Z) (al : bool * bool)
  : outcome (option Hashmap * Z) :=
  match config with
  | None => Ok (None, NULL)
  | Some m =>
    if negb (existsb (fun k => text_eqb (mem key) (mem k)) tc_keys) then Ok (config, NULL)
    else let! (m, r) := hashmapPut m key value al in Ok (Some m, r)
  end.

(** The loop over the defaults; every call has its allocations. *)
Fixpoint put_defaults (m : Hashmap) (kvs : list (Z * Z)) (al : bool * bool) : outcome Hashmap :=
  match kvs with
  | [] => Ok m
  | (k, v) :: kvs' => let! (m, _) := hashmapPut m k v al in put_defaults m kvs' al
  end.

(** The calls of [config_parser_get] and [tboot_config_set], one per key. *)
Fixpoint read_keys (cp : config_parser) (config : option Hashmap) (keys : list Z) (al : bool * bool)
  : outcome (option Hashmap) :=
  match keys with
  | [] => Ok config
  | k :: keys' =>
    let! value := config_parser_get (Some cp) (Some (mem k)) in
    match value with
    | None => read_keys cp config keys' al
    | Some v =>
      let! (config, _) := tboot_config_set config k (place v) al in
      read_keys cp config keys' al
    end
  end.

(** The file to read. *)
Definition config_path (config : option text) : text :=
  match config with None | Some [] => TBOOT_CONFIG | Some c => c end.

(** The map, which was NULL before, and the result. *)
Definition load_config (config : option text) (open : text -> option conf_file)
    (cp_mem map_mem al : bool * bool) : outcome (option Hashmap * Z) :=
  let path := config_path config in
  let! cp := config_parser_init (Some path) (open path) cp_mem in
  match cp with
  | None => Ok (None, -1)
  | Some cp =>
    let! m := hashmapCreate (zlen tc_keys + 1) (strhash mem) (strcompare mem) map_mem in
    match m with
    | None => Ok (None, -1)
    | Some m =>
      let! m := put_defaults m (zip tc_keys tc_values) al in
      let! config := read_keys cp (Some m) tc_keys al in
      Ok (config, 0)
    end
  end.

(** ** Lemmas *)

Lemma get_value m k : wf mem m -> tboot_config_get (Some m) k = Ok (default NULL (abs mem m !! mem k)).
Proof.
  intros Hwf. unfold tboot_config_get. rewrite (contains_refines mem) by done. cbn [obind].
  case_bool_decide as E; cbn [negb]; [by apply get_refines|].
  destruct (abs mem m !! mem k) eqn:El; [|done]. exfalso. apply E. eauto.
Qed.

Lemma set_value m k v al : wf mem m -> fst al = true ->
  existsb (fun k' => text_eqb (mem k) (mem k')) tc_keys = true ->
  exists m', tboot_config_set (Some m) k v al = Ok (Some m', default NULL (abs mem m !! mem k)) /\
    wf mem m' /\ abs mem m' = <[mem k := v]> (abs mem m).
Proof.
  intros Hwf Hal Hk. unfold tboot_config_set. rewrite Hk. cbn [negb].
  destruct (put_refines mem m k v al Hwf) as (m' & H1 & H2 & H3). rewrite H1. cbn [obind].
  exists m'. rewrite Hal in H3. done.
Qed.

Lemma put_defaults_ok al : fst al = true -> forall kvs m, wf mem m -> NoDup (map (fun kv => mem (fst kv)) kvs) ->
  exists m', put_defaults m kvs al = Ok m' /\ wf mem m' /\
    (forall k v, (k, v) ∈ kvs -> abs mem m' !! mem k = Some v) /\
    (forall t, t ∉ map (fun kv => mem (fst kv)) kvs -> abs mem m' !! t = abs mem m !! t).
Proof.
  intros Hal. induction kvs as [|[k v] kvs IH]; intros m Hwf Hnd.
  - exists m. split; [done|]. split; [done|]. split; [set_solver|done].
  - cbn [put_defaults map fst] in *. apply NoDup_cons in Hnd as [Hfresh Hnd].
    destruct (put_refines mem m k v al Hwf) as (m1 & H1 & Hwf1 & H3). rewrite H1. cbn [obind].
    rewrite Hal in H3. cbn [orb] in H3.
    destruct (IH m1 Hwf1 Hnd) as (m' & G1 & G2 & G3 & G4). exists m'. split; [done|]. split; [done|]. split.
    + intros k' v' Hin. apply elem_of_cons in Hin as [[= -> ->]|Hin]; [|by apply G3].
      rewrite G4 by done. rewrite H3. apply lookup_insert_eq.
    + intros t Ht. apply not_elem_of_cons in Ht as [Hne Ht]. rewrite G4 by done. rewrite H3.
      by apply lookup_insert_ne.
Qed.

Lemma valid_key k : k ∈ tc_keys -> existsb (fun k' => text_eqb (mem k) (mem k')) tc_keys = true.
Proof.
  intros Hk. apply existsb_exists. exists k. split; [by apply list_elem_of_In|]. by apply bool_decide_true.
Qed.

Lemma decide_here {A} (x : text) l (a b : A) : (if decide (x ∈ x :: l) then a else b) = a.
Proof. destruct (decide _) as [|Hn]; [done|]. exfalso. apply Hn. set_solver. Qed.

Lemma decide_there {A} (t x : text) l (a b : A) : t <> x ->
  (if decide (t ∈ x :: l) then a else b) = if decide (t ∈ l) then a else b.
Proof. intros Hne. destruct (decide (t ∈ x :: l)), (decide (t ∈ l)); set_solver. Qed.

(** Values of the file replace what was there, key by key. *)
Lemma read_keys_ok cp al val : fst al = true ->
  (forall k, k ∈ tc_keys -> config_parser_get (Some cp) (Some (mem k)) = Ok (val (mem k))) ->
  forall keys m, wf mem m -> (forall k, k ∈ keys -> k ∈ tc_keys) ->
  exists m', read_keys cp (Some m) keys al = Ok (Some m') /\ wf mem m' /\
    forall t, abs mem m' !! t =
      if decide (t ∈ map mem keys) then match val t with Some v => Some (place v) | None => abs mem m !! t end
      else abs mem m !! t.
Proof.
  intros Hal Hget. induction keys as [|k keys IH]; intros m Hwf Hin.
  - exists m. split; [done|]. split; [done|]. intros t. destruct (decide _) as [Hd|]; [|done]. by apply not_elem_of_nil in Hd.
  - assert (Hk : k ∈ tc_keys) by (apply Hin; set_solver). cbn [read_keys map]. rewrite (Hget k Hk). cbn [obind].
    assert (Hin' : forall k', k' ∈ keys -> k' ∈ tc_keys) by (intros; apply Hin; set_solver).
    destruct (val (mem k)) as [v|] eqn:Ev.
    + destruct (set_value m k (place v) al Hwf Hal (valid_key k Hk)) as (m1 & -> & Hwf1 & Ha1). cbn [obind].
      destruct (IH m1 Hwf1 Hin') as (m' & G1 & G2 & G3). exists m'. split; [done|]. split; [done|]. intros t.
      rewrite G3, Ha1. destruct (decide (t = mem k)) as [->|Hne].
      * rewrite lookup_insert_eq, Ev, decide_here. by destruct (decide _).
      * by rewrite lookup_insert_ne, decide_there by done.
    + destruct (IH m Hwf Hin') as (m' & G1 & G2 & G3). exists m'. split; [done|]. split; [done|]. intros t.
      rewrite G3. destruct (decide (t = mem k)) as [->|Hne].
      * rewrite Ev, decide_here. by destruct (decide _).
      * by rewrite decide_there by done.
Qed.

Lemma tc_names_nodup : NoDup tc_names.
Proof. apply (bool_decide_unpack _). vm_compute. exact I. Qed.

Lemma tc_names_nonempty t : t ∈ tc_names -> t <> [].
Proof.
  intros Ht ->. assert (H : bool_decide ([] ∈ tc_names) = false) by (by vm_compute).
  by apply bool_decide_eq_false in H.
Qed.

Lemma create_12 n : n = 12 ->
  exists m, hashmapCreate n (strhash mem) (strcompare mem) (true, true) = Ok (Some m) /\ wf mem m /\
    abs mem m = ∅.
Proof.
  intros ->. destruct (create_wf mem (strhash mem) (strcompare mem) 12 (true, true)) as (k & Hk & H1 & H2 & H3 & H4); [lia|].
  change (12 * 4 mod 2 ^ 32 / 3) with 16 in *.
  assert (Hk30 : k < 30).
  { apply Z.nle_gt. intros H30. pose proof (Z.pow_le_mono_r 2 29 (k - 1) ltac:(lia) ltac:(lia)).
    specialize (H2 ltac:(lia)). change (2 ^ 29) with 536870912 in *. lia. }
  pose proof (Z.pow_le_mono_r 2 k 29 ltac:(lia) ltac:(lia)). cbn [fst snd andb] in H3.
  assert (E : (2 ^ k * 4 <? 2 ^ 32) = true) by lia. rewrite E in H3.
  eexists. split; [exact H3|]. split; [by apply H4|]. unfold abs. cbn [buckets]. by rewrite concat_empty.
Qed.

(** ** Theorems *)

(** Loading the configuration. When the memory allocations succeed and the configuration
    file ends in a terminator, [load_config] returns 0, and [tboot_config_get]
    then gives for each of the known keys the value of the file, if the file
    has one, and else its default; for every other string it gives NULL. *)
Theorem load_config_values config open (body : text) size :
  map mem tc_keys = tc_names -> length tc_values = length tc_keys ->
  open (config_path config) = Some (mk_conf (Some size) (Some (body ++ [NUL]))) -> 0 < size ->
  Forall (fun c => Ascii.eqb c NUL = false) body ->
  exists m, load_config config open (true, true) (true, true) (true, true) = Ok (Some m, 0) /\
    (forall i k d, tc_keys !! i = Some k -> tc_values !! i = Some d ->
       tboot_config_get (Some m) k =
         Ok match lookup_lines default_delim (mem k) (map uncomment (lines body)) with
            | Some v => place v
            | None => d
            end) /\
    (forall k, mem k ∉ tc_names -> tboot_config_get (Some m) k = Ok NULL).
Proof.
  intros Hk Hv Hopen Hs Ht. set (path := config_path config) in *.
  assert (Hp : path <> []) by (unfold path; by destruct config as [[|c l]|]).
  destruct (init_get path body size Hp Hs Ht) as (cp & Hcp & Hget).
  unfold load_config. cbv zeta. fold path. rewrite Hopen, Hcp. cbn [obind].
  destruct (create_12 (zlen tc_keys + 1)) as (m0 & Hm0 & Hwf0 & Ha0).
  { unfold zlen. rewrite <- (length_map mem), Hk. done. }
  rewrite Hm0. cbn [obind].
  assert (Hkv : map (fun kv : Z * Z => mem (fst kv)) (zip tc_keys tc_values) = tc_names).
  { rewrite <- (map_map fst mem). change (map fst ?l) with (fst <$> l). rewrite fst_zip by lia. exact Hk. }
  destruct (put_defaults_ok (true, true) eq_refl (zip tc_keys tc_values) m0 Hwf0) as (m1 & H1 & Hwf1 & Hd & Ho).
  { rewrite Hkv. apply tc_names_nodup. }
  rewrite H1. cbn [obind].
  set (val := fun t => lookup_lines default_delim t (map uncomment (lines body))).
  destruct (read_keys_ok cp (true, true) val eq_refl) with (keys := tc_keys) (m := m1) as (m & H2 & Hwf & Hval); auto.
  { intros k Hin. apply Hget. apply tc_names_nonempty. rewrite <- Hk. by apply list_elem_of_In, in_map, list_elem_of_In. }
  rewrite H2. cbn [obind]. exists m. split; [done|]. split.
  - intros i k d Hi Hdi. rewrite get_value by done. rewrite Hval.
    destruct (decide _) as [_|Hn]; [|exfalso; apply Hn; apply list_elem_of_In, in_map, list_elem_of_In; by eapply list_elem_of_lookup_2].
    unfold val. destruct (lookup_lines _ _ _); [done|]. rewrite (Hd k d); [done|].
    apply (list_elem_of_lookup_2 _ i). rewrite lookup_zip_with, Hi, Hdi. done.
  - intros k Hn. rewrite get_value by done. rewrite Hval, Hk. destruct (decide _) as [|_]; [done|].
    rewrite Ho by (by rewrite Hkv). by rewrite Ha0.
Qed.

(** Setting a value. On a well-formed configuration, setting one of the known
    keys returns the previous value, and afterwards every pointer to that
    string gets the new value and every other string the value it had; setting
    an unknown key is refused and changes nothing. *)
Theorem tboot_config_set_get m key value :
  wf mem m ->
  (mem key ∈ map mem tc_keys ->
   exists m', tboot_config_set (Some m) key value (true, true) = Ok (Some m', default NULL (abs mem m !! mem key)) /\
     wf mem m' /\
     (forall k, mem k = mem key -> tboot_config_get (Some m') k = Ok value) /\
     (forall k, mem k <> mem key -> tboot_config_get (Some m') k = tboot_config_get (Some m) k)) /\
  (mem key ∉ map mem tc_keys -> tboot_config_set (Some m) key value (true, true) = Ok (Some m, NULL)).
Proof.
  intros Hwf. split.
  - intros Hin. assert (Hv : existsb (fun k => text_eqb (mem key) (mem k)) tc_keys = true).
    { apply list_elem_of_In, in_map_iff in Hin as (k & Hk & Hin). apply existsb_exists. exists k.
      split; [done|]. by apply bool_decide_true. }
    destruct (set_value m key value (true, true) Hwf eq_refl Hv) as (m' & H1 & H2 & H3).
    exists m'. split; [done|]. split; [done|]. split; intros k Hk; rewrite !get_value by done; rewrite H3.
    + by rewrite Hk, lookup_insert_eq.
    + by rewrite lookup_insert_ne.
  - intros Hn. unfold tboot_config_set.
    destruct (existsb _ tc_keys) eqn:E; [|done]. exfalso. apply Hn.
    apply existsb_exists in E as (k & Hk & Heq). apply bool_decide_eq_true in Heq.
    rewrite Heq. by apply list_elem_of_In, in_map.
Qed.

End Config.

(** ** Examples *)

(** Keys at the addresses 1 to 11, values at 101 to 111. *)
Definition demo_strings (p : Z) : text := nth (Z.to_nat (p - 1)) tc_names (lit "other").

Definition demo_keys : list Z := seqZ 1 11.
Definition demo_values : list Z := NULL :: seqZ 102 10.

Definition demo_conf (_ : text) : option conf_file :=
  Some (mk_conf (Some 52) (Some (demo_text ++ [NUL]))).

Lemma load_config_values_witness :
  exists m, load_config demo_strings (fun _ => 999) demo_keys demo_values None demo_conf (true, true) (true, true)
      (true, true) = Ok (Some m, 0) /\
    tboot_config_get (Some m) 4 = Ok 999 /\ tboot_config_get (Some m) 5 = Ok 105 /\
    tboot_config_get (Some m) 50 = Ok NULL.
Proof.
  destruct (load_config_values demo_strings (fun _ => 999) demo_keys demo_values None demo_conf demo_text 52)
    as (m & H1 & H2 & H3).
  - reflexivity.
  - reflexivity.
  - reflexivity.
  - lia.
  - repeat constructor.
  - exists m. split; [exact H1|]. split; [exact (H2 3%nat 4 104 eq_refl eq_refl)|].
    split; [exact (H2 4%nat 5 105 eq_refl eq_refl)|]. apply H3.
    apply (bool_decide_unpack _). vm_compute. exact I.
Defined.

Lemma tboot_config_set_get_witness :
  exists m', tboot_config_set demo_mem [100; 300] (Some demo_map) 200 7 (true, true) = Ok (Some m', NULL) /\
    tboot_config_get (Some m') 100 = Ok 7.
Proof.
  destruct (tboot_config_set_get demo_mem [100; 300] demo_map 200 7 demo_map_wf) as [H _].
  destruct H as (m' & H1 & _ & H2 & _); [apply (bool_decide_unpack _); vm_compute; exact I|].
  exists m'. split; [exact H1|]. apply H2. reflexivity.
Defined.

End TbootConfig.
