(* ===== verification/Fstab.v ===== *)
(** * src/fstab.c: the table of volumes

    The table is read from a file with one volume per line (mount point, file
    system, device, optional second device, options) and searched by path and by
    device. Copies of strings are assumed to succeed, as the code does. *)

From S2P Require Import Prelude ConfigUtils ConfigParser Diskconfig.
From Stdlib Require Import Ascii.

Module Fstab.
Import ConfigUtils ConfigParser.

Record Volume := mk_volume {
  mount_point : text;
  fs_type : text;
  device : option text;
  device2 : option text;
  length_ : Z
}.

(** [strncmp(l, p, strlen(p)) == 0] *)
Definition starts_with (p l : text) : bool := text_eqb (take (length p) l) p.

(** [strtoll(l, NULL, 10)] *)
Definition strtoll10 (l : text) : Z :=
  let '(neg, l) := Diskconfig.split_sign (Diskconfig.skip_space l) in
  let v := Diskconfig.digits_val 10 0 l in
  if neg then Z.max (- v) (- 2 ^ 63) else Z.min v (2 ^ 63 - 1).

(** The loop over the options: the length, or [None] for a bad option. A NULL
    argument continues a string that is used up and gives no option. *)
Fixpoint options_loop (fuel : nat) (l : text) (n : Z) : outcome (option Z) :=
  match fuel with
  | O => NoFuel
  | S fuel' =>
    match strtok [","%char] l with
    | (None, _) => Ok (Some n)
    | (Some option, rest) =>
      if starts_with (lit "length=") option then options_loop fuel' rest (strtoll10 (drop 7 option))
      else Ok None
    end
  end.

Definition parse_options (options : option text) : outcome (option Z) :=
  match options with
  | None => Ok (Some 0)
  | Some l => options_loop (S (length l)) l 0
  end.

Definition blanks : text := [" "%char; "009"%char; nl].

(** One line: [None] when it is skipped. *)
Definition parse_line (buffer : text) : outcome (option Volume) :=
  match Diskconfig.skip_space buffer with
  | [] => Ok None
  | (c :: _) as l =>
    if Ascii.eqb c hash_char then Ok None
    else
    let '(mount_point, l) := strtok blanks l in
    let '(fs_type, l) := strtok blanks l in
    let '(device, l) := strtok blanks l in
    let '(second, l) := strtok blanks l in
    let '(device2, options) :=
      match second with
      | Some d => if starts_with (lit "/") d then (second, fst (strtok blanks l)) else (None, second)
      | None => (None, None)
      end in
    match mount_point, fs_type, device with
    | Some mp, Some fs, Some dev =>
      let! opt := parse_options options in
      match opt with
      | None => Ok None
      | Some n => Ok (Some (mk_volume mp fs (Some dev) device2 n))
      end
    | _, _, _ => Ok None
    end
  end.

(** [fgets] with room for [n] characters: the characters up to and including
    the next newline, and what follows. *)
Fixpoint fgets (n : nat) (l : text) : text * text :=
  match n, l with
  | O, _ => ([], l)
  | _, [] => ([], [])
  | S n', c :: l' =>
    if Ascii.eqb c nl then ([c], l')
    else let '(a, b) := fgets n' l' in (c :: a, b)
  end.

Definition LINE_MAX : nat := Z.to_nat 1022.

Fixpoint table_loop (fuel : nat) (l : text) (volumes : list Volume) : outcome (list Volume) :=
  match fuel with
  | O => NoFuel
  | S fuel' =>
    match l with
    | [] => Ok volumes
    | _ =>
      let '(buffer, rest) := fgets LINE_MAX l in
      let! v := parse_line buffer in
      table_loop fuel' rest (match v with Some v => volumes ++ [v] | None => volumes end)
    end
  end.

Definition tmp_volume : Volume := mk_volume (lit "/tmp") (lit "ramdisk") None None 0.

(** [fstab] is the text of the file, [None] if it cannot be opened. *)
Definition load_volume_table (fstab : option text) : outcome (list Volume) :=
  match fstab with
  | None => Ok [tmp_volume]
  | Some l => table_loop (S (length l)) l [tmp_volume]
  end.

(** [rw] says whether a name is a block device that can be read and written. *)
Definition devnode_rw (rw : text -> bool) (fn : option text) : Z :=
  match fn with
  | None | Some [] => -1
  | Some f => if rw f then 0 else -1
  end.

(** A name that is NULL or empty is not checked. *)
Definition node_bad (rw : text -> bool) (fn : option text) : bool :=
  match fn with
  | None | Some [] => false
  | Some _ => negb (devnode_rw rw fn =? 0)
  end.

Fixpoint check_devnodes (rw : text -> bool) (volumes : list Volume) : Z :=
  match volumes with
  | [] => 0
  | v :: l => if node_bad rw (device v) then -1 else if node_bad rw (device2 v) then -1 else check_devnodes rw l
  end.

Fixpoint volume_for_path (volumes : list Volume) (path : text) : option Volume :=
  match volumes with
  | [] => None
  | v :: l =>
    if starts_with (mount_point v) path &&
       match drop (length (mount_point v)) path with
       | [] => true
       | c :: _ => Ascii.eqb c "/"%char
       end
    then Some v else volume_for_path l path
  end.

Fixpoint volume_for_device (volumes : list Volume) (dev : text) : option Volume :=
  match volumes with
  | [] => None
  | v :: l =>
    match device v with
    | None => volume_for_device l dev
    | Some d =>
      if text_eqb dev d || match device2 v with Some d2 => text_eqb dev d2 | None => false end
      then Some v else volume_for_device l dev
    end
  end.

(** ** Searching by path *)

(** The path is the mount point or lies below it. *)
Definition below (mp path : text) : Prop := path = mp \/ exists rest, path = mp ++ "/"%char :: rest.

Lemma path_match mp path :
  starts_with mp path && match drop (length mp) path with [] => true | c :: _ => Ascii.eqb c "/"%char end = true <->
  below mp path.
Proof.
  unfold starts_with, text_eqb, below. rewrite andb_true_iff, bool_decide_eq_true. split.
  - intros [Ht Hd]. rewrite <- (take_drop (length mp) path), Ht. destruct (drop (length mp) path) as [|c rest].
    + left. apply app_nil_r.
    + apply Ascii.eqb_eq in Hd as ->. right. by exists rest.
  - intros [->|[rest ->]].
    + rewrite take_ge by lia. rewrite drop_ge by lia. done.
    + rewrite take_app_length, drop_app_length. done.
Qed.

(** Finding the volume of a path. [volume_for_path] returns the first volume
    of the table whose mount point is the path or a directory above it, where a
    mount point only counts up to a whole path component; NULL exactly when
    there is none. *)
Theorem volume_for_path_correct volumes path :
  match volume_for_path volumes path with
  | Some v => exists pre post, volumes = pre ++ v :: post /\ below (mount_point v) path /\
      Forall (fun u => ~ below (mount_point u) path) pre
  | None => Forall (fun u => ~ below (mount_point u) path) volumes
  end.
Proof.
  induction volumes as [|v l IH]; [constructor|]. cbn [volume_for_path].
  pose proof (path_match (mount_point v) path) as Hm. destruct (_ && _).
  - exists [], l. split; [done|]. split; [by apply Hm|constructor].
  - assert (Hn : ~ below (mount_point v) path) by (intros Hb; by apply Hm in Hb).
    destruct (volume_for_path l path) as [u|]; [|by constructor].
    destruct IH as (pre & post & -> & Hb & Hp). exists (v :: pre), post. split; [done|]. split; [done|by constructor].
Qed.

(** ** Loading what was printed *)

Definition word_ok (t : text) : bool :=
  match t with [] => false | _ => forallb (fun c => negb (isspace c)) t end.

(** Words, a mount point that is no comment, a second device that is a path,
    no options, and room for the line. *)
Definition volume_ok (v : Volume) : bool :=
  word_ok (mount_point v) && negb (starts_with (lit "#") (mount_point v)) && word_ok (fs_type v) &&
  match device v with Some d => word_ok d | None => false end &&
  match device2 v with Some d => word_ok d && starts_with (lit "/") d | None => true end &&
  (length_ v =? 0).

Definition print_volume (v : Volume) : text :=
  mount_point v ++ " "%char :: fs_type v ++ " "%char :: default [] (device v) ++
  match device2 v with Some d => " "%char :: d | None => [] end ++ [nl].

Lemma word_chars t : word_ok t = true -> t <> [] /\ Forall (fun c => isspace c = false) t.
Proof.
  intros H. destruct t as [|c t]; [done|]. split; [done|]. apply Forall_forall. intros x Hx.
  unfold word_ok in H. rewrite forallb_forall in H. specialize (H x (proj1 (list_elem_of_In _ _) Hx)).
  by apply negb_true_iff in H.
Qed.

Lemma blanks_isspace c : char_in c blanks = true -> isspace c = true.
Proof.
  unfold char_in, blanks. cbn [existsb]. rewrite !orb_true_iff, !Ascii.eqb_eq.
  intros [->|[->|[->|?]]]; [reflexivity|reflexivity|reflexivity|done].
Qed.

Lemma not_blank c : isspace c = false -> char_in c blanks = false.
Proof. intros H. destruct (char_in c blanks) eqn:E; [|done]. by rewrite (blanks_isspace c E) in H. Qed.

Lemma token_end_word t d l : Forall (fun c => isspace c = false) t -> char_in d blanks = true ->
  token_end blanks (t ++ d :: l) = (t, l).
Proof.
  intros Ht Hd. induction t as [|c t IH]; cbn [app token_end]; [by rewrite Hd|].
  apply Forall_cons in Ht as [Hc Ht]. rewrite (not_blank c Hc), IH by done. done.
Qed.

Lemma strtok_word t d l : word_ok t = true -> char_in d blanks = true ->
  strtok blanks (t ++ d :: l) = (Some t, l).
Proof.
  intros Ht Hd. destruct (word_chars t Ht) as [Hne Hall]. unfold strtok.
  destruct t as [|c t]; [done|]. assert (Hs : skip_delim blanks ((c :: t) ++ d :: l) = (c :: t) ++ d :: l).
  { cbn [app skip_delim]. apply Forall_cons in Hall as [Hc _]. by rewrite (not_blank c Hc). }
  rewrite Hs. cbn [app]. change (c :: t ++ d :: l) with ((c :: t) ++ d :: l). by rewrite token_end_word.
Qed.

Lemma parse_line_print v : volume_ok v = true -> parse_line (print_volume v) = Ok (Some v).
Proof.
  unfold volume_ok. rewrite !andb_true_iff. intros [[[[[Hm Hc] Hf] Hd] Hd2] Hl].
  destruct v as [mp fs [dev|] d2 n]; cbn [mount_point fs_type device device2 length_] in *; [|done].
  apply Z.eqb_eq in Hl as ->. unfold parse_line, print_volume. cbn [mount_point fs_type device device2 default].
  destruct (word_chars mp Hm) as [Hne Hall].
  assert (Hsk : forall l, Diskconfig.skip_space (mp ++ l) = mp ++ l).
  { intros l. destruct mp as [|c mp]; [done|]. cbn [app Diskconfig.skip_space]. apply Forall_cons in Hall as [-> _]. done. }
  rewrite Hsk. set (rest := " "%char :: _). destruct (mp ++ rest) as [|c l] eqn:El.
  { destruct mp; discriminate. }
  assert (Hh : Ascii.eqb c hash_char = false).
  { destruct mp as [|c' mp]; [done|]. injection El as -> _. apply negb_true_iff in Hc. unfold starts_with in Hc.
    cbn [lit String.list_ascii_of_string length take] in Hc. unfold text_eqb in Hc. apply bool_decide_eq_false in Hc.
    apply Ascii.eqb_neq. intros ->. by apply Hc. }
  rewrite Hh, <- El. unfold rest. rewrite strtok_word by done. rewrite strtok_word by done.
  destruct d2 as [d|].
  - apply andb_true_iff in Hd2 as [Hw Hs]. cbn [app]. rewrite strtok_word by done.
    rewrite strtok_word by done. rewrite Hs. reflexivity.
  - cbn [app]. rewrite strtok_word by done. reflexivity.
Qed.

Lemma fgets_line n a l : (length a < n)%nat -> Forall (fun c => Ascii.eqb c nl = false) a ->
  fgets n (a ++ nl :: l) = (a ++ [nl], l).
Proof.
  revert n. induction a as [|c a IH]; intros n Hn Ha.
  - destruct n; [simpl in Hn; lia|]. cbn [app fgets]. by rewrite Ascii.eqb_refl.
  - destruct n; [simpl in Hn; lia|]. simpl in Hn. apply Forall_cons in Ha as [Hc Ha]. cbn [app fgets].
    rewrite Hc, IH by (auto; lia). done.
Qed.

Lemma isspace_nl c : isspace c = false -> Ascii.eqb c nl = false.
Proof. intros H. apply Ascii.eqb_neq. intros ->. discriminate. Qed.

Lemma words_no_nl l : Forall (fun c => isspace c = false) l -> Forall (fun c => Ascii.eqb c nl = false) l.
Proof. intros H. eapply Forall_impl; [exact H|]. apply isspace_nl. Qed.

Lemma print_line v : volume_ok v = true ->
  exists a, print_volume v = a ++ [nl] /\ Forall (fun c => Ascii.eqb c nl = false) a.
Proof.
  unfold volume_ok. rewrite !andb_true_iff. intros [[[[[Hm Hc] Hf] Hd] Hd2] Hl].
  destruct v as [mp fs [dev|] d2 n]; cbn [mount_point fs_type device device2 length_] in *; [|done].
  exists (mp ++ " "%char :: fs ++ " "%char :: dev ++ match d2 with Some d => " "%char :: d | None => [] end).
  split.
  { unfold print_volume. cbn [mount_point fs_type device device2 default].
    rewrite <- app_assoc. cbn [app]. rewrite <- app_assoc. cbn [app]. by rewrite <- app_assoc. }
  apply word_chars in Hm as [_ Hm]. apply word_chars in Hf as [_ Hf]. apply word_chars in Hd as [_ Hd].
  apply Forall_app. split; [by apply words_no_nl|]. constructor; [done|].
  apply Forall_app. split; [by apply words_no_nl|]. constructor; [done|].
  apply Forall_app. split; [by apply words_no_nl|]. destruct d2 as [d|]; [|constructor].
  apply andb_true_iff in Hd2 as [Hw _]. apply word_chars in Hw as [_ Hw]. constructor; [done|by apply words_no_nl].
Qed.

Lemma table_loop_print : forall vs fuel acc,
  Forall (fun v => volume_ok v = true /\ (length (print_volume v) <= LINE_MAX)%nat) vs ->
  (length (concat (map print_volume vs)) < fuel)%nat ->
  table_loop fuel (concat (map print_volume vs)) acc = Ok (acc ++ vs).
Proof.
  induction vs as [|v vs IH]; intros fuel acc Hvs Hf.
  - destruct fuel; [lia|]. cbn [map concat table_loop]. by rewrite app_nil_r.
  - apply Forall_cons in Hvs as [[Hv Hlen] Hvs]. destruct (print_line v Hv) as (a & Ha & Hn).
    cbn [map concat] in *. destruct fuel as [|fuel]; [lia|]. cbn [table_loop].
    assert (Hcons : exists x y, print_volume v ++ concat (map print_volume vs) = x :: y).
    { rewrite Ha. destruct a; simpl; eauto. }
    destruct Hcons as (x & y & Hxy). rewrite Hxy, <- Hxy. clear x y Hxy.
    rewrite length_app in Hf. rewrite Ha at 1. rewrite <- app_assoc. cbn [app].
    rewrite Ha, length_app in Hlen, Hf. simpl in Hlen, Hf.
    rewrite fgets_line by (auto; lia). rewrite <- Ha, parse_line_print by done. cbn [obind].
    rewrite IH by (auto; lia). by rewrite <- app_assoc.
Qed.

(** The table survives printing. A list of well-formed volumes, printed one
    per line, is loaded as exactly these volumes behind the one for [/tmp]. *)
Theorem load_volume_table_print vs :
  Forall (fun v => volume_ok v = true /\ (length (print_volume v) <= LINE_MAX)%nat) vs ->
  load_volume_table (Some (concat (map print_volume vs))) = Ok (tmp_volume :: vs).
Proof. intros Hvs. unfold load_volume_table. rewrite table_loop_print by (auto; lia). done. Qed.

Definition demo_volumes : list Volume :=
  [mk_volume (lit "/cache") (lit "ext4") (Some (lit "/dev/sda1")) None 0;
   mk_volume (lit "/sdcard") (lit "vfat") (Some (lit "/dev/sdb1")) (Some (lit "/dev/sdb")) 0].

Lemma load_volume_table_print_witness :
  load_volume_table (Some (concat (map print_volume demo_volumes))) = Ok (tmp_volume :: demo_volumes) /\
  volume_for_path demo_volumes (lit "/sdcard/update.zip") = last demo_volumes.
Proof.
  split; [|reflexivity]. apply (load_volume_table_print demo_volumes).
  apply Forall_cons. split; [split; [reflexivity|apply Nat.leb_le; vm_compute; reflexivity]|].
  apply Forall_cons. split; [split; [reflexivity|apply Nat.leb_le; vm_compute; reflexivity]|constructor].
Defined.

End Fstab.
