(* ===== verification/Backlight.v ===== *)
(** * src/backlight_control.c: the backlight state machine

    Three states, driven by events: being idle dims and then switches off the
    display, everything else switches it on. The functions that are the states
    of the code write the kernel's files, whose values are the output. *)

From S2P Require Import Prelude.

Module Backlight.

Inductive lcd_event : Set := LCD_COMMAND | LCD_KEY | LCD_IDLE | LCD_USB_EVENT.

(** The pointer [lcd_state] is one of the three functions. *)
Inductive lcd_state : Set := lcd_on | lcd_dim | lcd_off.

#[export] Instance lcd_state_eq_dec : EqDecision lcd_state.
Proof. solve_decision. Defined.

(** The files under [/sys]: the content of [max_brightness] as far as
    [fscanf] reads a number, the values written to [brightness] and [blank]; a
    file that cannot be opened is [None]. *)
Record panel := mk_panel {
  max_brightness : option (option Z);
  brightness : option Z;
  fb0_blank : option Z
}.

Definition write_fb0_blank (p : panel) (nu : Z) : panel * Z :=
  match fb0_blank p with
  | None => (p, -1)
  | Some _ => (mk_panel (max_brightness p) (brightness p) (Some nu), 0)
  end.

Definition set_bl_brightness (p : panel) (percent : Z) : panel * Z :=
  if (percent <? 0) || (100 <? percent) then (p, -1)
  else
    match max_brightness p with
    | None => (p, -1)
    | Some scanned =>
      let bri := match scanned with
                 | Some max_bri => if 0 <? max_bri then Z.quot (s32 (max_bri * percent)) 100 else 1
                 | None => 1
                 end in
      match brightness p with
      | None => (p, -1)
      | Some _ => (mk_panel (max_brightness p) (Some bri) (fb0_blank p), 0)
      end
    end.

Definition lcd_lighton (p : panel) : panel * Z := write_fb0_blank (fst (set_bl_brightness p 100)) 0.

Definition lcd_lightoff (p : panel) : panel * Z := write_fb0_blank p 1.

(** [dim] is the configured brightness in percent. *)
Definition lcd_state_on (dim : Z) (ev : lcd_event) (p : panel) : lcd_state * panel :=
  match ev with
  | LCD_IDLE => (lcd_dim, fst (set_bl_brightness p dim))
  | _ => (lcd_on, p)
  end.

Definition lcd_state_dim (ev : lcd_event) (p : panel) : lcd_state * panel :=
  match ev with
  | LCD_IDLE => (lcd_off, fst (lcd_lightoff p))
  | LCD_COMMAND | LCD_KEY | LCD_USB_EVENT => (lcd_on, fst (lcd_lighton p))
  end.

Definition lcd_state_off (ev : lcd_event) (p : panel) : lcd_state * panel :=
  match ev with
  | LCD_COMMAND | LCD_KEY | LCD_USB_EVENT => (lcd_on, fst (lcd_lighton p))
  | LCD_IDLE => (lcd_off, p)
  end.

(** [lcd_state = (lcd_state_t)lcd_state(ev)] *)
Definition lcd_step (dim : Z) (s : lcd_state) (ev : lcd_event) (p : panel) : lcd_state * panel :=
  match s with
  | lcd_on => lcd_state_on dim ev p
  | lcd_dim => lcd_state_dim ev p
  | lcd_off => lcd_state_off ev p
  end.

(** ** What the display shows *)

(** A panel whose files work, with a maximal brightness whose hundredfold is
    an [int]. *)
Definition panel_ok (max : Z) (p : panel) : Prop :=
  max_brightness p = Some (Some max) /\ is_Some (brightness p) /\ is_Some (fb0_blank p) /\
  0 < max /\ 100 * max < 2 ^ 31.

(** What the panel shows in a state. *)
Definition shows (max dim : Z) (s : lcd_state) (p : panel) : Prop :=
  match s with
  | lcd_on => brightness p = Some max /\ fb0_blank p = Some 0
  | lcd_dim => brightness p = Some (max * dim / 100) /\ fb0_blank p = Some 0
  | lcd_off => fb0_blank p = Some 1
  end.

Inductive reachable (dim : Z) (p0 : panel) : lcd_state -> panel -> Prop :=
  | reach_init : reachable dim p0 lcd_on p0
  | reach_step s p ev s' p' :
      reachable dim p0 s p -> lcd_step dim s ev p = (s', p') -> reachable dim p0 s' p'.

Lemma brightness_set max p percent : panel_ok max p -> 0 <= percent <= 100 ->
  set_bl_brightness p percent =
    (mk_panel (max_brightness p) (Some (max * percent / 100)) (fb0_blank p), 0).
Proof.
  intros (Hm & [b Hb] & _ & Hpos & Hbig) Hp. unfold set_bl_brightness. rewrite Hm, Hb.
  assert (E : (percent <? 0) || (100 <? percent) = false) by (apply orb_false_iff; lia). rewrite E.
  assert (E2 : (0 <? max) = true) by lia. rewrite E2. rewrite s32_id by nia. rewrite Z.quot_div_nonneg by nia. done.
Qed.

Lemma lighton_ok max p : panel_ok max p ->
  fst (lcd_lighton p) = mk_panel (max_brightness p) (Some max) (Some 0).
Proof.
  intros Hok. unfold lcd_lighton. rewrite (brightness_set max) by (auto; lia).
  rewrite Z.div_mul by lia. destruct Hok as (_ & _ & [b Hb] & _). unfold write_fb0_blank. cbn [fst fb0_blank].
  by rewrite Hb.
Qed.

(** The display follows the state machine. Starting with the light on, after
    any sequence of events the panel shows what the state says: full
    brightness, the configured share of it, or a blank screen; being idle leads
    from on to dim to off and stays there, and any other event leads to on. *)
Theorem backlight_follows max dim p0 s p ev :
  panel_ok max p0 -> 0 <= dim <= 100 -> shows max dim lcd_on p0 -> reachable dim p0 s p ->
  shows max dim s p /\
  fst (lcd_step dim s ev p) =
    match ev, s with
    | LCD_IDLE, lcd_on => lcd_dim
    | LCD_IDLE, _ => lcd_off
    | _, _ => lcd_on
    end.
Proof.
  intros Hok Hd Hon Hr. split; [|by destruct s, ev].
  assert (Hinv : panel_ok max p /\ shows max dim s p); [|by destruct Hinv].
  induction Hr as [|s p e s' p' Hr [IHok IHs] Hstep]; [done|].
  pose proof IHok as (Hm & Hb & [b Hf] & Hpos & Hbig).
  assert (Hoff : fst (lcd_lightoff p) = mk_panel (max_brightness p) (brightness p) (Some 1))
    by (unfold lcd_lightoff, write_fb0_blank; by rewrite Hf).
  pose proof (lighton_ok max p IHok) as Hlight.
  assert (Hdim : fst (set_bl_brightness p dim) =
                 mk_panel (max_brightness p) (Some (max * dim / 100)) (fb0_blank p))
    by (by rewrite (brightness_set max)).
  unfold panel_ok.
  destruct s, e; cbn [lcd_step lcd_state_on lcd_state_dim lcd_state_off] in Hstep; injection Hstep as <- <-;
    rewrite ?Hoff, ?Hlight, ?Hdim; cbn [shows max_brightness brightness fb0_blank] in *;
    rewrite ?Hm; split_and!; try done; try (by eexists); try tauto; rewrite Hf; by eexists.
Qed.

Lemma backlight_follows_witness :
  shows 255 10 lcd_dim (mk_panel (Some (Some 255)) (Some 25) (Some 0)) /\
  fst (lcd_step 10 lcd_dim LCD_IDLE (mk_panel (Some (Some 255)) (Some 25) (Some 0))) = lcd_off.
Proof.
  apply (backlight_follows 255 10 (mk_panel (Some (Some 255)) (Some 255) (Some 0)) lcd_dim
    (mk_panel (Some (Some 255)) (Some 25) (Some 0)) LCD_IDLE).
  - split_and!; try done; by eexists.
  - lia.
  - done.
  - apply (reach_step 10 (mk_panel (Some (Some 255)) (Some 255) (Some 0)) lcd_on
      (mk_panel (Some (Some 255)) (Some 255) (Some 0)) LCD_IDLE); [constructor|reflexivity].
Defined.

End Backlight.
