(* ===== verification/Fastboot.v ===== *)
(** * src/fastboot.c: the fastboot server

    The server reads a command from the USB device, runs the handler whose
    prefix matches, and sends packets back. The device is the list of what the
    coming [read] calls find ([None] is a failed one; behind the end of the
    list the device is gone and reads fail) and the list of what the coming
    [write] calls do (a negative number is a failure, another one the most
    bytes the call takes; behind the end of the list writes take everything).
    Strings and buffers are lists of bytes; a string has no byte 0. What the
    server asks of the display, the alarm clock, the keypad and the mutex is
    recorded in a log, in order. *)

From S2P Require Import Prelude Posix.
From Stdlib Require Import Ascii.

Module Fastboot.

(** A literal of the source. *)
Definition str (s : string) : list Z :=
  map (fun c => Z.of_nat (nat_of_ascii c)) (String.list_ascii_of_string s).

Definition bytes_eqb (a b : list Z) : bool := bool_decide (a = b).

Inductive fastboot_state : Set := STATE_OFFLINE | STATE_COMMAND | STATE_COMPLETE | STATE_ERROR.

#[export] Instance fastboot_state_eq_dec : EqDecision fastboot_state.
Proof. solve_decision. Defined.

Definition is_state (a b : fastboot_state) : bool := bool_decide (a = b).

(** Calls of the system that the commands make; strings are bytes. *)
Inductive sys_call : Set :=
  | SysSystem (cmd : list Z) | SysPopen (cmd : list Z) | SysFwrite (data : list Z) | SysPclose
  | SysOpen (path : list Z) | SysRead (n : Z) | SysLseek (off : Z) | SysClose
  | SysFopen (path : list Z) | SysFclose
  | SysStat (path : list Z) | SysAccess (path : list Z) | SysStatfs (path : list Z)
  | SysMkdir (path : list Z) | SysMount (dev target type : list Z) | SysUmount (target : list Z)
  | SysUnlink (path : list Z) | SysSync | SysRereadTable | SysMakeExt4 (dev : list Z) (len : Z)
  | SysReboot (arg : list Z) | SysAsprintf | SysStrdup | SysThread | SysSleep.

Inductive effect : Set :=
  | ClearAlarm | ResetAlarm | LcdCommand | DisableAutoboot
  | MutexLock | MutexUnlock | DisableKeypress | EnableKeypress
  | UiTextbar (percent : Z) | UiHidebar | UiError | UiWarn | UiInfo | UiBouncebar
  | UiMenuUp | UiMenuDown | UiMenuAction | UiText (line : list Z) | Alarm (seconds : Z)
  | Sys (c : sys_call).

(** The variables of the file: [fastboot_state], [varlist] (newest first),
    [download_base] (the bytes behind it), [download_max], [download_size],
    and the device, the coming results of [check_battery], and the log. *)
Record fb := mk_fb {
  state : fastboot_state;
  varlist : list (list Z * list Z);
  download_base : list Z;
  download_max : Z;
  download_size : Z;
  usb_in : list (option (list Z));
  usb_wr : list Z;
  usb_out : list (list Z);
  battery : list bool;
  log : list effect
}.

Definition set_state (st : fb) (s : fastboot_state) : fb :=
  mk_fb s (varlist st) (download_base st) (download_max st) (download_size st) (usb_in st)
    (usb_wr st) (usb_out st) (battery st) (log st).

Definition set_in (st : fb) (i : list (option (list Z))) : fb :=
  mk_fb (state st) (varlist st) (download_base st) (download_max st) (download_size st) i
    (usb_wr st) (usb_out st) (battery st) (log st).

Definition set_out (st : fb) (w : list Z) (o : list (list Z)) : fb :=
  mk_fb (state st) (varlist st) (download_base st) (download_max st) (download_size st) (usb_in st)
    w o (battery st) (log st).

Definition set_base (st : fb) (b : list Z) : fb :=
  mk_fb (state st) (varlist st) b (download_max st) (download_size st) (usb_in st)
    (usb_wr st) (usb_out st) (battery st) (log st).

Definition set_size (st : fb) (n : Z) : fb :=
  mk_fb (state st) (varlist st) (download_base st) (download_max st) n (usb_in st)
    (usb_wr st) (usb_out st) (battery st) (log st).

Definition set_vars (st : fb) (v : list (list Z * list Z)) : fb :=
  mk_fb (state st) v (download_base st) (download_max st) (download_size st) (usb_in st)
    (usb_wr st) (usb_out st) (battery st) (log st).

Definition set_battery (st : fb) (b : list bool) : fb :=
  mk_fb (state st) (varlist st) (download_base st) (download_max st) (download_size st) (usb_in st)
    (usb_wr st) (usb_out st) b (log st).

Definition add_log (st : fb) (l : list effect) : fb :=
  mk_fb (state st) (varlist st) (download_base st) (download_max st) (download_size st) (usb_in st)
    (usb_wr st) (usb_out st) (battery st) (log st ++ l).

(** A handler gets the text behind the prefix; the data and its size are the
    server's [download_base] and [download_size]. *)
Definition handler : Type := list Z -> fb -> outcome fb.

Record fastboot_cmd := mk_cmd { prefix : list Z; handle : handler }.

(** [mem] says whether [malloc] succeeds. *)
Definition fastboot_register (cmdlist : list fastboot_cmd) (prefix : list Z) (handle : handler)
    (mem : bool) : list fastboot_cmd :=
  if mem then mk_cmd prefix handle :: cmdlist else cmdlist.

Definition fastboot_publish (st : fb) (name value : list Z) (mem : bool) : fb :=
  if mem then set_vars st ((name, value) :: varlist st) else st.

Fixpoint find_var (l : list (list Z * list Z)) (name : list Z) : option (list Z) :=
  match l with
  | [] => None
  | (n, v) :: l' => if bytes_eqb name n then Some v else find_var l' name
  end.

Definition fastboot_getvar (st : fb) (name : list Z) : option (list Z) := find_var (varlist st) name.

(** ** The device *)

(** [read(fb_fp, buf, xfer)]: a negative result is a failure. *)
Definition dev_read (st : fb) (xfer : Z) : fb * Z * list Z :=
  match usb_in st with
  | Some bs :: i => let bs := take (Z.to_nat xfer) bs in (set_in st i, zlen bs, bs)
  | None :: i => (set_in st i, -1, [])
  | [] => (st, -1, [])
  end.

(** The loop of [usb_read]: the result and all bytes stored so far. *)
Fixpoint usb_read_loop (fuel : nat) (st : fb) (len count : Z) (acc : list Z) : outcome (fb * Z * list Z) :=
  match fuel with
  | O => NoFuel
  | S fuel' =>
    if 0 <? len then
      let xfer := if 4096 <? len then 4096 else len in
      let '(st, r, bs) := dev_read st xfer in
      if r <? 0 then Ok (set_state st STATE_ERROR, -1, acc)
      else if negb (r =? xfer) then Ok (st, s32 (count + r), acc ++ bs)
      else usb_read_loop fuel' st (len - r) (count + r) (acc ++ bs)
    else Ok (st, s32 count, acc)
  end.

Definition usb_read (st : fb) (len : Z) : outcome (fb * Z * list Z) :=
  if is_state (state st) STATE_ERROR then Ok (set_state st STATE_ERROR, -1, [])
  else usb_read_loop (S (S (Z.to_nat (len / 4096)))) st len 0 [].

Definition roundup (x y : Z) : Z := (x + (y - 1)) / y * y.

(** The loop of [usb_read_progress]. *)
Fixpoint progress_loop (fuel : nat) (st : fb) (len slice percent finished : Z) (acc : list Z)
  : outcome (fb * Z * list Z) :=
  match fuel with
  | O => NoFuel
  | S fuel' =>
    let '(slice, percent) := if slice =? 0 then (len, 99) else (slice, percent) in
    let! (st, r, bs) := usb_read st slice in
    if negb (u32 r =? slice) then Ok (st, -1, acc ++ bs)
    else
      let percent := percent + 1 in
      let finished := u32 (finished + slice) in
      let st := if percent <? 100 then add_log st [UiTextbar percent] else st in
      if len <? finished then Ok (st, -1, acc ++ bs)
      else if finished =? len then Ok (st, s32 finished, acc ++ bs)
      else if len <? u32 (finished + slice) then
        let slice := u32 (len - finished) in
        if slice =? 0 then Ok (st, s32 finished, acc ++ bs)
        else progress_loop fuel' st len slice 99 finished (acc ++ bs)
      else progress_loop fuel' st len slice percent finished (acc ++ bs)
  end.

Definition usb_read_progress (st : fb) (len : Z) : outcome (fb * Z * list Z) :=
  if len <? 4096 then usb_read st len
  else progress_loop 102 st len (u32 (roundup (len / 100) 4096)) 0 0 [].

Definition usb_write (st : fb) (buf : list Z) : fb * Z :=
  if is_state (state st) STATE_ERROR then (set_state st STATE_ERROR, -1)
  else
    match usb_wr st with
    | [] => (set_out st [] (usb_out st ++ [buf]), zlen buf)
    | r :: w =>
      if r <? 0 then (set_state (set_out st w (usb_out st)) STATE_ERROR, -1)
      else
        let buf := take (Z.to_nat r) buf in
        (set_out st w (usb_out st ++ [buf]), zlen buf)
    end.

(** ** Responses *)

Definition MAX_LEN : Z := 64.

(** [reason] is at offset [off] of its string; a pointer outside of the string
    is dereferenced or passed to [snprintf]. *)
Fixpoint ack_loop (fuel : nat) (st : fb) (code reason : list Z) (off : Z) : outcome fb :=
  match fuel with
  | O => NoFuel
  | S fuel' =>
    let buf := take (Z.to_nat (MAX_LEN - 1)) (code ++ drop (Z.to_nat off) reason) in
    let '(st, r) := usb_write st buf in
    let off := off + (r - zlen code) in
    if (off <? 0) || (zlen reason <? off) then Undef
    else if off =? zlen reason then Ok st
    else ack_loop fuel' st code reason off
  end.

(** [None] is a NULL reason. *)
Definition _fastboot_ack (st : fb) (code : list Z) (reason : option (list Z)) : outcome fb :=
  if negb (is_state (state st) STATE_COMMAND) then Ok st
  else
    let reason := default [] reason in
    ack_loop (S (length reason)) st code reason 0.

Definition fastboot_info (st : fb) (buf : list Z) : outcome fb := _fastboot_ack st (str "INFO") (Some buf).

Definition fastboot_fail (st : fb) (reason : list Z) : outcome fb :=
  let! st := _fastboot_ack st (str "FAIL") (Some reason) in Ok (set_state st STATE_COMPLETE).

Definition fastboot_okay (st : fb) (info : list Z) : outcome fb :=
  let! st := _fastboot_ack st (str "OKAY") (Some info) in Ok (set_state st STATE_COMPLETE).

(** ** Built-in commands *)

Definition newline : list Z := [10].

Fixpoint info_vars (st : fb) (l : list (list Z * list Z)) : outcome fb :=
  match l with
  | [] => Ok st
  | (n, _) :: l' =>
    let! st := fastboot_info st n in
    let! st := fastboot_info st newline in
    info_vars st l'
  end.

Definition cmd_getvar : handler := fun arg st =>
  if bytes_eqb arg [] then
    let! st := fastboot_info st (str "All available variables:" ++ newline) in
    let! st := info_vars st (varlist st) in
    let! st := fastboot_info st newline in
    fastboot_okay st []
  else
    match find_var (varlist st) arg with
    | Some v => fastboot_okay st v
    | None => fastboot_okay st []
    end.

(** [%08lx] of a 32-bit number. *)
Definition hex_digit (d : Z) : Z := if d <? 10 then 48 + d else 87 + d.

Fixpoint hex (n : nat) (v : Z) : list Z :=
  match n with
  | O => []
  | S n' => hex n' (v / 16) ++ [hex_digit (v mod 16)]
  end.

Definition response_data (st : fb) (len : Z) : fb * Z :=
  let response := str "DATA" ++ hex 8 len in
  let '(st, r) := usb_write st response in
  if negb (u32 r =? zlen response) then (st, -1) else (st, 0).

(** Stores what a read delivered at [off] of [download_base]; behind its end
    is somebody else's memory. *)
Definition store (st : fb) (off : Z) (bs : list Z) : outcome fb :=
  if off + zlen bs <=? zlen (download_base st) then
    Ok (set_base st (Posix.put_bytes (download_base st) off bs))
  else Undef.

(** [strtoul(text, NULL, 16)] *)
Definition hex_val (c : Z) : option Z :=
  if (48 <=? c) && (c <=? 57) then Some (c - 48)
  else if (65 <=? c) && (c <=? 70) then Some (c - 55)
  else if (97 <=? c) && (c <=? 102) then Some (c - 87) else None.

Fixpoint hex_value (acc : Z) (l : list Z) : Z :=
  match l with
  | [] => acc
  | c :: l' => match hex_val c with Some d => hex_value (acc * 16 + d) l' | None => acc end
  end.

Fixpoint skip_space (l : list Z) : list Z :=
  match l with
  | c :: l' => if (c =? 32) || ((9 <=? c) && (c <=? 13)) then skip_space l' else l
  | [] => []
  end.

Definition split_sign (l : list Z) : bool * list Z :=
  match l with
  | c :: l' => if c =? 45 then (true, l') else if c =? 43 then (false, l') else (false, l)
  | [] => (false, [])
  end.

Definition drop_0x (l : list Z) : list Z :=
  match l with
  | z :: x :: c :: l' =>
    if (z =? 48) && ((x =? 120) || (x =? 88)) && bool_decide (is_Some (hex_val c)) then c :: l' else l
  | _ => l
  end.

Definition strtoul16 (l : list Z) : Z :=
  let '(neg, l) := split_sign (skip_space l) in
  let v := hex_value 0 (drop_0x l) in
  if 2 ^ 32 <=? v then 2 ^ 32 - 1 else if neg then u32 (- v) else v.

(** The result and what was stored behind [*data]. *)
Definition streaming_download (st : fb) (len : Z) (response : bool) : outcome (fb * Z * list Z) :=
  if response then let '(st, r) := response_data st len in Ok (st, r, [])
  else
    let! (st, r, bs) := usb_read st len in
    Ok (st, if negb (u32 r =? len) then -1 else 0, bs).

(** 0, with [*data] set to [download_base], or -1. *)
Definition download_to (st : fb) (size : Z) : outcome (fb * Z) :=
  if download_max st <? size then
    let! st := fastboot_fail st (str "data too large") in Ok (st, -1)
  else
    let '(st, e) := response_data st size in
    if negb (e =? 0) then Ok (st, -1)
    else
      let! (st, r, bs) := usb_read_progress st size in
      let! st := store st 0 bs in
      if (r <? 0) || negb (u32 r =? size) then Ok (set_state st STATE_ERROR, -1)
      else Ok (add_log st [UiHidebar], 0).

Definition cmd_download : handler := fun arg st =>
  let len := strtoul16 arg in
  let st := set_size st 0 in
  if download_max st <? len then fastboot_fail st (str "data too large")
  else
    let '(st, e) := response_data st len in
    if negb (e =? 0) then Ok st
    else
      let! (st, r, bs) := usb_read_progress st len in
      let! st := store st 0 bs in
      if (r <? 0) || negb (u32 r =? len) then Ok (add_log (set_state st STATE_ERROR) [UiError])
      else fastboot_okay (add_log (set_size st len) [UiHidebar]) [].

(** The part of a buffer before its first byte 0. *)
Fixpoint c_string (l : list Z) : list Z :=
  match l with
  | [] => []
  | c :: l' => if c =? 0 then [] else c :: c_string l'
  end.

(** [fd] is the open file, [None] for a negative descriptor; [stat] is the size
    [fstat] gives. A read that fails leaves [response] uninitialised. *)
Definition pull_file (st : fb) (fd : option Posix.file) (stat : option Z) : outcome (fb * Z) :=
  let fail st msg := let! st := fastboot_fail st (str msg) in Ok (st, -1) in
  match fd, stat with
  | None, _ => fail st "invalid fd."
  | Some _, None => fail st "can't get file size."
  | Some f, Some st_size =>
    let offset := 12 in
    if u32 (download_max st - offset) <? st_size then fail st "file is too large."
    else
      let! st := store st 0 (take (Z.to_nat (download_max st - 1)) (str "FILE" ++ hex 8 st_size) ++ [0]) in
      let '(_, n, bs) := Posix.read f (u32 (download_max st - offset)) in
      let! st := store st offset bs in
      if negb (n =? st_size) then fail st "read file failed."
      else
        let st := set_size st (u32 (offset + st_size)) in
        let '(st, w) := usb_write st (take (Z.to_nat (download_size st)) (download_base st)) in
        if negb (u32 w =? download_size st) then fail st "usb write failed."
        else
          let! (st, r, response) := usb_read st 64 in
          if u32 r <? offset then fail st "get invalid response"
          else if r <? 0 then Undef
          else if negb (st_size =? strtoul16 (c_string (sub_bytes response 4 8)))
          then fail st "saved bytes doesn't equal sent bytes"
          else Ok (st, 0)
  end.

Definition is_fastboot_active (st : fb) : bool := is_state (state st) STATE_COMMAND.

(** ** The command loop *)

(** [memcmp] of the buffer, which is zero behind what was read. *)
Definition is_prefix (p buffer : list Z) : bool :=
  bytes_eqb (take (length p) (buffer ++ replicate (length p - length buffer) 0)) p.

(** The first command of the list that matches. *)
Fixpoint find_cmd (cmdlist : list fastboot_cmd) (buffer : list Z) : option fastboot_cmd :=
  match cmdlist with
  | [] => None
  | cmd :: l => if is_prefix (prefix cmd) buffer then Some cmd else find_cmd l buffer
  end.

(** Commands which are blocked by a low battery. *)
Definition blocked : list (list Z) := [str "flash"; str "erase"; str "oem system"].

Definition check_battery_result (st : fb) : fb * bool :=
  match battery st with
  | [] => (st, false)
  | b :: l => (set_battery st l, b)
  end.

(** What the loop does with a buffer: one round without its read. *)
Definition run_command (cmdlist : list fastboot_cmd) (st : fb) (buffer : list Z) : outcome fb :=
  let st := add_log (set_state st STATE_COMMAND) [ClearAlarm; LcdCommand] in
  match find_cmd cmdlist buffer with
  | None => fastboot_fail st (str "unknown command")
  | Some cmd =>
    let '(st, low) := check_battery_result (add_log st [DisableAutoboot]) in
    if low && existsb (fun p => is_prefix p buffer) blocked then
      fastboot_fail (add_log st [UiWarn]) (str "can't do this operation when battery low")
    else
      let st := add_log st [MutexLock; DisableKeypress] in
      let! st := handle cmd (c_string (drop (length (prefix cmd)) buffer)) st in
      let st := add_log st [EnableKeypress; MutexUnlock] in
      let! st := if is_state (state st) STATE_COMMAND then fastboot_fail st (str "unknown reason")
                 else Ok st in
      Ok (add_log st [ResetAlarm])
  end.

Fixpoint command_loop (fuel : nat) (cmdlist : list fastboot_cmd) (st : fb) : outcome fb :=
  match fuel with
  | O => NoFuel
  | S fuel' =>
    if is_state (state st) STATE_ERROR then Ok (set_state st STATE_OFFLINE)
    else
      let! (st, r, buffer) := usb_read st 64 in
      if r <? 0 then Ok (set_state st STATE_OFFLINE)
      else
        let! st := run_command cmdlist st buffer in
        command_loop fuel' cmdlist st
  end.

Definition fastboot_command_loop (cmdlist : list fastboot_cmd) (st : fb) : outcome fb :=
  command_loop (S (length (usb_in st))) cmdlist st.

(** The connections that [open] delivers one after the other; [None] is a
    failed one. *)
Fixpoint fastboot_handler (cmdlist : list fastboot_cmd)
    (opens : list (option (list (option (list Z)) * list Z))) (st : fb) : outcome fb :=
  match opens with
  | [] => Ok st
  | None :: l => fastboot_handler cmdlist l st
  | Some (i, w) :: l =>
    let! st := fastboot_command_loop cmdlist (set_out (set_in st i) w (usb_out st)) in
    fastboot_handler cmdlist l st
  end.

(** [None] when the allocation fails and [die] ends the program. *)
Definition fastboot_init (cmdlist : list fastboot_cmd) (st : fb) (size : Z) (scratch : option (list Z))
    (mem : bool * bool * bool) : option (list fastboot_cmd * fb) :=
  match scratch with
  | None => None
  | Some b =>
    let '(m1, m2, m3) := mem in
    let st := mk_fb (state st) (varlist st) b size (download_size st) (usb_in st) (usb_wr st)
                (usb_out st) (battery st) (log st) in
    let cmdlist := fastboot_register cmdlist (str "getvar:") cmd_getvar m1 in
    let cmdlist := fastboot_register cmdlist (str "download:") cmd_download m2 in
    Some (cmdlist, fastboot_publish st (str "fastboot") (str "0.6") m3)
  end.

(** ** Lemmas: chunks *)

Lemma sub_drop (l : list Z) n : sub_bytes l 0 n ++ drop (Z.to_nat n) l = l.
Proof. unfold sub_bytes. simpl. apply take_drop. Qed.

(** A list cut into pieces of [n], the last one shorter; the empty list is one
    empty piece. *)
Fixpoint chunks_loop (fuel : nat) (n : Z) (l : list Z) : list (list Z) :=
  match fuel with
  | O => [l]
  | S fuel' =>
    if zlen l <=? n then [l] else sub_bytes l 0 n :: chunks_loop fuel' n (drop (Z.to_nat n) l)
  end.

Definition chunks (n : Z) (l : list Z) : list (list Z) := chunks_loop (length l) n l.

Lemma chunks_fuel n : 0 < n -> forall f1 f2 l,
  (length l <= f1)%nat -> (length l <= f2)%nat -> chunks_loop f1 n l = chunks_loop f2 n l.
Proof.
  intros Hn. induction f1 as [|f1 IH]; intros f2 l H1 H2.
  - destruct l; [|simpl in H1; lia]. destruct f2; [done|]. cbn [chunks_loop].
    change (zlen (@nil Z)) with 0. assert (H : (0 <=? n) = true) by lia. by rewrite H.
  - destruct f2 as [|f2].
    + destruct l; [|simpl in H2; lia]. cbn [chunks_loop].
      change (zlen (@nil Z)) with 0. assert (H : (0 <=? n) = true) by lia. by rewrite H.
    + cbn [chunks_loop]. destruct (Z.leb_spec (zlen l) n); [done|]. f_equal.
      apply IH; rewrite length_drop; unfold zlen in *; lia.
Qed.

Lemma chunks_unfold n l : 0 < n -> chunks n l =
  if zlen l <=? n then [l] else sub_bytes l 0 n :: chunks n (drop (Z.to_nat n) l).
Proof.
  intros Hn. unfold chunks at 1. destruct l as [|x l].
  - change (zlen (@nil Z)) with 0. assert (H : (0 <=? n) = true) by lia. by rewrite H.
  - cbn [length chunks_loop]. destruct (Z.leb_spec (zlen (x :: l)) n) as [|Hlt]; [done|]. f_equal.
    unfold zlen in Hlt. cbn [length] in Hlt. apply chunks_fuel; [done| |lia]. rewrite length_drop. cbn [length]. lia.
Qed.

Lemma chunks_ind n (P : list Z -> Prop) : 0 < n ->
  (forall l, zlen l <= n -> P l) ->
  (forall l, n < zlen l -> P (drop (Z.to_nat n) l) -> P l) -> forall l, P l.
Proof.
  intros Hn H1 H2 l. induction l as [l IH] using (induction_ltof1 _ (@length Z)). unfold ltof in IH.
  destruct (Z.le_gt_cases (zlen l) n); [by apply H1|]. apply H2; [lia|]. apply IH.
  rewrite length_drop. unfold zlen in *. lia.
Qed.

Lemma chunks_spec n l : 0 < n ->
  concat (chunks n l) = l /\ Forall (fun c => zlen c <= n) (chunks n l) /\
  zlen (chunks n l) = Z.max 1 (DIV_ROUND_UP (zlen l) n).
Proof.
  intros Hn. revert l. apply (chunks_ind n); [done| |]; intros l Hl.
  - rewrite chunks_unfold by done. assert (H : (zlen l <=? n) = true) by lia. rewrite H.
    split; [simpl; apply app_nil_r|]. split; [by constructor|]. change (zlen [l]) with 1.
    pose proof (DIV_ROUND_UP_bound (zlen l) n Hn). pose proof (zlen_nonneg l). nia.
  - intros (IH1 & IH2 & IH3). rewrite chunks_unfold by done.
    assert (H : (zlen l <=? n) = false) by lia. rewrite H. cbn [concat]. rewrite IH1.
    split; [apply sub_drop|]. split.
    + constructor; [rewrite zlen_sub; lia|done].
    + rewrite zlen_cons, IH3.
      assert (Hd : zlen (drop (Z.to_nat n) l) = zlen l - n) by (unfold zlen in *; rewrite length_drop; lia).
      rewrite Hd. pose proof (DIV_ROUND_UP_pos (zlen l - n) n Hn ltac:(lia)).
      assert (He : DIV_ROUND_UP (zlen l) n = 1 + DIV_ROUND_UP (zlen l - n) n).
      { unfold DIV_ROUND_UP. replace (zlen l + n - 1) with (zlen l - n + n - 1 + 1 * n) by lia.
        rewrite Z.div_add by lia. lia. }
      lia.
Qed.

(** ** Lemmas: responses *)

Lemma is_state_true a b : a = b -> is_state a b = true.
Proof. apply bool_decide_true. Qed.

Lemma is_state_false a b : a <> b -> is_state a b = false.
Proof. apply bool_decide_false. Qed.

Lemma usb_write_full st buf : state st <> STATE_ERROR -> usb_wr st = [] ->
  usb_write st buf = (set_out st [] (usb_out st ++ [buf]), zlen buf).
Proof. intros Hs Hw. unfold usb_write. by rewrite is_state_false, Hw. Qed.

Lemma drop_drop_z (l : list Z) a b : 0 <= a -> 0 <= b ->
  drop (Z.to_nat b) (drop (Z.to_nat a) l) = drop (Z.to_nat (a + b)) l.
Proof. intros. rewrite drop_drop. f_equal. lia. Qed.

Lemma ack_loop_full code reason : zlen code = 4 -> forall fuel st off,
  state st <> STATE_ERROR -> usb_wr st = [] -> 0 <= off <= zlen reason ->
  zlen reason - off < Z.of_nat fuel ->
  ack_loop fuel st code reason off =
    Ok (set_out st [] (usb_out st ++ map (app code) (chunks 59 (drop (Z.to_nat off) reason)))).
Proof.
  intros Hc. induction fuel as [|fuel IH]; intros st off Hs Hw Ho Hf; [lia|].
  cbn [ack_loop]. set (rest := drop (Z.to_nat off) reason).
  assert (Hr : zlen rest = zlen reason - off) by (unfold rest, zlen in *; rewrite length_drop; lia).
  assert (Hb : take (Z.to_nat (MAX_LEN - 1)) (code ++ rest) = code ++ sub_bytes rest 0 59).
  { unfold sub_bytes. simpl drop. rewrite take_app. f_equal; [apply take_ge|f_equal]; unfold zlen, MAX_LEN in *; lia. }
  rewrite Hb, usb_write_full by done. cbv zeta. rewrite zlen_app, Hc.
  destruct (Z.le_gt_cases (zlen rest) 59) as [Hle|Hgt].
  - rewrite sub_bytes_all by done. replace (off + (4 + zlen rest - 4)) with (zlen reason) by lia.
    pose proof (zlen_nonneg reason). assert (H1 : (zlen reason <? 0) = false) by lia.
    rewrite H1, Z.ltb_irrefl, Z.eqb_refl. cbn [orb]. rewrite chunks_unfold by lia.
    assert (H2 : (zlen rest <=? 59) = true) by lia. by rewrite H2.
  - rewrite zlen_sub by lia. replace (off + (4 + 59 - 4)) with (off + 59) by lia.
    assert (H1 : (off + 59 <? 0) = false) by lia. assert (H2 : (zlen reason <? off + 59) = false) by lia.
    assert (H3 : (off + 59 =? zlen reason) = false) by lia. rewrite H1, H2, H3. cbn [orb].
    rewrite IH by (auto; simpl; lia). rewrite (chunks_unfold 59 rest) by lia.
    assert (H4 : (zlen rest <=? 59) = false) by lia. rewrite H4.
    rewrite <- (drop_drop_z reason off 59) by lia. fold rest. cbn [map set_out usb_out]. by rewrite <- app_assoc.
Qed.

Lemma ack_full st code reason : zlen code = 4 -> state st = STATE_COMMAND -> usb_wr st = [] ->
  _fastboot_ack st code (Some reason) =
    Ok (set_out st [] (usb_out st ++ map (app code) (chunks 59 reason))).
Proof.
  intros Hc Hs Hw. unfold _fastboot_ack. rewrite is_state_true by done. cbn [negb default].
  rewrite ack_loop_full; auto; [by rewrite Hs|unfold zlen; lia|unfold zlen; lia].
Qed.

(** C38: Responses are split into packets. When the device takes whole writes,
    [_fastboot_ack] with a four-letter code ends and sends the reason, however
    long, in order and complete, as packets of the code followed by at most 59
    bytes: at most 63 bytes each and as few as possible (one for an empty
    reason). Nothing else changes. *)
Theorem ack_splits st code reason :
  zlen code = 4 -> state st = STATE_COMMAND -> usb_wr st = [] ->
  exists pieces, concat pieces = reason /\ Forall (fun p => zlen (code ++ p) < MAX_LEN) pieces /\
    zlen pieces = Z.max 1 (DIV_ROUND_UP (zlen reason) 59) /\
    _fastboot_ack st code (Some reason) = Ok (set_out st [] (usb_out st ++ map (app code) pieces)).
Proof.
  intros Hc Hs Hw. exists (chunks 59 reason). destruct (chunks_spec 59 reason ltac:(lia)) as (H1 & H2 & H3).
  split; [done|]. split; [|split; [done|by apply ack_full]].
  eapply Forall_impl; [exact H2|]. intros p Hp. rewrite zlen_app, Hc. unfold MAX_LEN. simpl in Hp. lia.
Qed.

Definition idle_fb (s : fastboot_state) (i : list (option (list Z))) (w : list Z) : fb :=
  mk_fb s [] (replicate 16 0) 16 0 i w [] [] [].

Lemma ack_splits_witness :
  exists pieces, concat pieces = replicate 100 65 /\ zlen pieces = 2 /\
    _fastboot_ack (idle_fb STATE_COMMAND [] []) (str "INFO") (Some (replicate 100 65)) =
      Ok (set_out (idle_fb STATE_COMMAND [] []) [] ([] ++ map (app (str "INFO")) pieces)).
Proof.
  destruct (ack_splits (idle_fb STATE_COMMAND [] []) (str "INFO") (replicate 100 65) eq_refl eq_refl eq_refl)
    as (pieces & H1 & _ & H3 & H4).
  exists pieces. split; [exact H1|]. split; [exact H3|exact H4].
Defined.

(** A failed write is not handled. When the first write of a response fails,
    [usb_write] returns -1, which [_fastboot_ack] adds to the pointer to the
    reason: the pointer leaves the string and is dereferenced. *)
Theorem ack_write_error st code reason e w :
  zlen code = 4 -> state st = STATE_COMMAND -> usb_wr st = e :: w -> e < 0 ->
  _fastboot_ack st code (Some reason) = Undef.
Proof.
  intros Hc Hs Hw He. unfold _fastboot_ack. rewrite is_state_true by done. cbn [negb default ack_loop].
  unfold usb_write. rewrite is_state_false by (by rewrite Hs). rewrite Hw.
  assert (H : (e <? 0) = true) by lia. rewrite H. cbv zeta. rewrite Hc. reflexivity.
Qed.

Lemma ack_write_error_witness :
  _fastboot_ack (idle_fb STATE_COMMAND [] [-5]) (str "OKAY") (Some (str "done")) = Undef.
Proof. apply (ack_write_error (idle_fb STATE_COMMAND [] [-5]) (str "OKAY") (str "done") (-5) []); done. Defined.

(** ** Lemmas: reading *)

(** What a read leaves alone: all but the device's input, the log, and the
    state, which may become an error. *)
Definition kept (a b : fb) : Prop :=
  varlist b = varlist a /\ download_base b = download_base a /\ download_max b = download_max a /\
  download_size b = download_size a /\ usb_wr b = usb_wr a /\ usb_out b = usb_out a /\
  battery b = battery a.

Definition read_frame (st st' : fb) : Prop :=
  (exists used, usb_in st = used ++ usb_in st') /\ kept st st' /\
  (state st' = state st \/ state st' = STATE_ERROR).

Lemma kept_trans a b c : kept a b -> kept b c -> kept a c.
Proof. unfold kept. intuition congruence. Qed.

Lemma read_frame_refl st : read_frame st st.
Proof. split; [by exists []|]. split; [done|by left]. Qed.

Lemma read_frame_trans a b c : read_frame a b -> read_frame b c -> read_frame a c.
Proof.
  intros ((u & Hu) & Hb & Hs) ((v & Hv) & Hc & Ht). split; [|split].
  - exists (u ++ v). by rewrite Hu, Hv, app_assoc.
  - by eapply kept_trans.
  - destruct Ht as [-> | ->]; [done|by right].
Qed.

Lemma dev_read_frame st xfer st' r bs : 0 <= xfer -> dev_read st xfer = (st', r, bs) ->
  read_frame st st' /\ state st' = state st /\
  (r = -1 /\ bs = [] \/ r = zlen bs /\ zlen bs <= xfer /\ (length (usb_in st') < length (usb_in st))%nat).
Proof.
  intros Hx Hd. unfold dev_read in Hd. destruct (usb_in st) as [|[b|] i] eqn:E; injection Hd as <- <- <-.
  - split; [apply read_frame_refl|]. split; [done|]. by left.
  - split; [split; [exists [Some b]; by rewrite E|by split; [|left]]|]. split; [done|]. right.
    split; [done|]. split; [unfold zlen; rewrite length_take; lia|simpl; lia].
  - split; [split; [exists [None]; by rewrite E|by split; [|left]]|]. split; [done|]. by left.
Qed.

Lemma read_frame_error st st' : read_frame st st' -> read_frame st (set_state st' STATE_ERROR).
Proof.
  intros (Hu & Hs & _). split; [done|]. by split; [|right].
Qed.

Lemma usb_read_loop_total : forall fuel st len count acc,
  0 <= len -> (len + 4095) / 4096 < Z.of_nat fuel -> 0 <= count -> count + len < 2 ^ 31 ->
  exists st' r bs, usb_read_loop fuel st len count acc = Ok (st', r, acc ++ bs) /\
    read_frame st st' /\ zlen bs <= len /\
    (r = -1 /\ state st' = STATE_ERROR \/ r = count + zlen bs /\ state st' = state st).
Proof.
  induction fuel as [|fuel IH]; intros st len count acc Hl Hf Hc Hs.
  - pose proof (Z.div_pos (len + 4095) 4096 ltac:(lia)). lia.
  - cbn [usb_read_loop]. destruct (Z.ltb_spec 0 len) as [Hpos|Hz].
    + set (xfer := if 4096 <? len then 4096 else len).
      assert (Hx : 0 < xfer <= len /\ (xfer = 4096 \/ xfer = len /\ len <= 4096))
        by (unfold xfer; destruct (Z.ltb_spec 4096 len); lia).
      destruct (dev_read st xfer) as [[st1 r1] b1] eqn:Ed.
      destruct (dev_read_frame st xfer st1 r1 b1 ltac:(lia) Ed) as (Hfr & Hst & [[-> ->]|(-> & Hb & _)]).
      * change (-1 <? 0) with true. cbv iota. exists (set_state st1 STATE_ERROR), (-1), [].
        split; [by rewrite app_nil_r|]. split; [by apply read_frame_error|]. split; [done|]. by left.
      * pose proof (zlen_nonneg b1). assert (H1 : (zlen b1 <? 0) = false) by lia. rewrite H1.
        destruct (Z.eqb_spec (zlen b1) xfer) as [E|E]; cbn [negb].
        -- destruct (IH st1 (len - zlen b1) (count + zlen b1) (acc ++ b1)) as (st' & r & bs & Hr & Hfr' & Hbs & Hcase);
             [lia| |lia|lia|].
           { destruct Hx as [_ [Hx|[Hx Hx4]]].
             - rewrite E, Hx. replace (len - 4096 + 4095) with (len + 4095 + (-1) * 4096) by lia.
               rewrite Z.div_add by lia. lia.
             - rewrite E, Hx, Z.sub_diag. change ((0 + 4095) / 4096) with 0.
               assert ((len + 4095) / 4096 = 1) by (symmetry; apply (Z.div_unique _ _ _ (len - 1)); lia). lia. }
           exists st', r, (b1 ++ bs). rewrite Hr, app_assoc. split; [done|]. split; [by eapply read_frame_trans|].
           rewrite zlen_app. split; [lia|]. destruct Hcase as [?|[-> Hs']]; [by left|right]. split; [lia|congruence].
        -- exists st1, (count + zlen b1), b1. rewrite s32_id by lia. split; [done|]. split; [done|]. split; [lia|]. right. done.
    + exists st, count, []. rewrite s32_id, app_nil_r by lia. split; [done|]. split; [apply read_frame_refl|].
      change (zlen (@nil Z)) with 0. split; [lia|]. right. split; [lia|done].
Qed.

Lemma usb_read_total st len : 0 <= len < 2 ^ 31 ->
  exists st' r bs, usb_read st len = Ok (st', r, bs) /\ read_frame st st' /\ zlen bs <= len /\
    (r = -1 /\ state st' = STATE_ERROR \/ r = zlen bs /\ state st' = state st).
Proof.
  intros Hl. unfold usb_read. destruct (is_state (state st) STATE_ERROR) eqn:E.
  - apply bool_decide_eq_true in E. exists (set_state st STATE_ERROR), (-1), []. split; [done|].
    split; [apply read_frame_error, read_frame_refl|].
    change (zlen (@nil Z)) with 0. split; [lia|by left].
  - destruct (usb_read_loop_total (S (S (Z.to_nat (len / 4096)))) st len 0 []) as (st' & r & bs & H1 & H2 & H3 & H4);
      [lia| |lia|lia|].
    + pose proof (Z.div_pos len 4096 ltac:(lia)). rewrite !Nat2Z.inj_succ, Z2Nat.id by lia.
      apply Z.div_lt_upper_bound; [lia|]. pose proof (Z.mul_succ_div_gt len 4096 ltac:(lia)). lia.
    + exists st', r, bs. done.
Qed.

Lemma roundup_bound x : 0 <= x -> x <= roundup x 4096 < x + 4096.
Proof.
  intros Hx. unfold roundup. change (4096 - 1) with 4095.
  pose proof (Z.mul_div_le (x + 4095) 4096 ltac:(lia)). pose proof (Z.mul_succ_div_gt (x + 4095) 4096 ltac:(lia)). lia.
Qed.

Lemma roundup_mult x : roundup x 4096 mod 4096 = 0.
Proof. unfold roundup. apply Z.mod_mul. lia. Qed.

Lemma progress_total : forall fuel st len slice percent finished acc,
  0 < slice <= len - finished -> 0 <= finished -> len < 2 ^ 30 ->
  DIV_ROUND_UP (len - finished) slice <= Z.of_nat fuel ->
  exists st' r bs, progress_loop fuel st len slice percent finished acc = Ok (st', r, acc ++ bs) /\
    read_frame st st' /\ finished + zlen bs <= len /\
    (r = -1 \/ r = len /\ finished + zlen bs = len /\ state st' = state st).
Proof.
  induction fuel as [|fuel IH]; intros st len slice percent finished acc Hs Hfi Hlen Hfuel.
  - pose proof (DIV_ROUND_UP_pos (len - finished) slice ltac:(lia) ltac:(lia)). lia.
  - cbn [progress_loop]. assert (Hz : (slice =? 0) = false) by lia. rewrite Hz.
    destruct (usb_read_total st slice ltac:(lia)) as (st1 & r1 & b1 & Hr & Hfr & Hb & Hcase).
    rewrite Hr. cbn [obind]. pose proof (zlen_nonneg b1).
    destruct (Z.eqb_spec (u32 r1) slice) as [E|E]; cbn [negb].
    2:{ exists st1, (-1), b1. split; [done|]. split; [done|]. split; [lia|]. by left. }
    destruct Hcase as [[-> _]|[-> Hst]]; [vm_compute in E; lia|].
    rewrite u32_id in E by lia. rewrite u32_id by lia.
    set (st2 := if percent + 1 <? 100 then _ else _).
    assert (Hf2 : read_frame st st2 /\ state st2 = state st).
    { unfold st2. destruct (percent + 1 <? 100); done. }
    destruct Hf2 as [Hf2 Hs2].
    assert (H1 : (len <? finished + slice) = false) by lia. rewrite H1.
    destruct (Z.eqb_spec (finished + slice) len) as [El|El].
    { exists st2, len, b1. rewrite s32_id, El by lia. split; [done|]. split; [done|]. split; [lia|].
      right. split; [done|]. split; [lia|done]. }
    rewrite u32_id by lia.
    assert (Hnext : forall sl pc, 0 < sl <= len - (finished + slice) ->
      DIV_ROUND_UP (len - (finished + slice)) sl <= Z.of_nat fuel ->
      exists st' r bs, progress_loop fuel st2 len sl pc (finished + slice) (acc ++ b1) = Ok (st', r, acc ++ bs) /\
        read_frame st st' /\ finished + zlen bs <= len /\
        (r = -1 \/ r = len /\ finished + zlen bs = len /\ state st' = state st)).
    { intros sl pc Hsl Hfu. destruct (IH st2 len sl pc (finished + slice) (acc ++ b1)) as (st' & r & bs & G1 & G2 & G3 & G4);
        [done|lia|done|done|].
      exists st', r, (b1 ++ bs). rewrite G1, <- app_assoc. split; [done|]. split; [by eapply read_frame_trans|].
      rewrite zlen_app. split; [lia|]. destruct G4 as [?|(-> & ? & Hs')]; [by left|right].
      split; [done|]. split; [lia|congruence]. }
    assert (Hq : DIV_ROUND_UP (len - (finished + slice)) slice <= Z.of_nat fuel).
    { unfold DIV_ROUND_UP in *.
      replace (len - (finished + slice) + slice - 1) with (len - finished + slice - 1 + (-1) * slice) by lia.
      rewrite Z.div_add by lia. lia. }
    destruct (Z.ltb_spec len (finished + slice + slice)) as [Hlast|Hmore].
    + rewrite u32_id by lia. assert (H2 : (len - (finished + slice) =? 0) = false) by lia. rewrite H2.
      apply Hnext; [lia|]. pose proof (DIV_ROUND_UP_pos (len - (finished + slice)) slice ltac:(lia) ltac:(lia)).
      assert (Hone : DIV_ROUND_UP (len - (finished + slice)) (len - (finished + slice)) = 1)
        by (rewrite <- (Z.mul_1_l (len - (finished + slice))) at 1; apply DIV_ROUND_UP_mul; lia).
      lia.
    + apply Hnext; [lia|done].
Qed.

(** The slice of a download. *)
Lemma slice_bounds len : 4096 <= len < 2 ^ 30 ->
  u32 (roundup (len / 100) 4096) = roundup (len / 100) 4096 /\
  0 < roundup (len / 100) 4096 <= len /\ DIV_ROUND_UP len (roundup (len / 100) 4096) <= 102.
Proof.
  intros Hl. pose proof (Z.mul_div_le len 100 ltac:(lia)). pose proof (Z.mul_succ_div_gt len 100 ltac:(lia)).
  pose proof (roundup_bound (len / 100) ltac:(lia)) as Hb. pose proof (roundup_mult (len / 100)) as Hm.
  set (s := roundup (len / 100) 4096) in *. assert (Hd : s = 4096 * (s / 4096)) by (Z.div_mod_to_equations; lia).
  assert (Hs : 4096 <= s <= len).
  { split; [|destruct (Z.le_gt_cases (len / 100) 4096); nia]. nia. }
  split; [apply u32_id; lia|]. split; [lia|]. unfold DIV_ROUND_UP. apply Z.div_le_upper_bound; lia.
Qed.

Lemma usb_read_progress_total st len : 0 <= len < 2 ^ 30 ->
  exists st' r bs, usb_read_progress st len = Ok (st', r, bs) /\ read_frame st st' /\ zlen bs <= len /\
    (r = -1 \/ r = zlen bs /\ state st' = state st).
Proof.
  intros Hl. unfold usb_read_progress. destruct (Z.ltb_spec len 4096) as [Hlt|Hge].
  - destruct (usb_read_total st len ltac:(lia)) as (st' & r & bs & H1 & H2 & H3 & [[-> _]|[-> H4]]).
    + exists st', (-1), bs. split; [done|]. split; [done|]. split; [done|]. by left.
    + exists st', (zlen bs), bs. split; [done|]. split; [done|]. split; [done|]. by right.
  - destruct (slice_bounds len ltac:(lia)) as (-> & Hs & Hf).
    destruct (progress_total 102 st len (roundup (len / 100) 4096) 0 0 []) as (st' & r & bs & H1 & H2 & H3 & H4);
      [lia|lia|lia|rewrite Z.sub_0_r; lia|].
    exists st', r, bs. split; [done|]. split; [done|]. split; [lia|]. destruct H4 as [|(-> & ? & ?)]; [by left|right].
    split; [lia|done].
Qed.


(** ** Lemmas: a host that sends what was announced *)

Lemma chunks_app n b : 0 < n -> 0 < zlen b -> forall a, zlen a mod n = 0 -> 0 < zlen a ->
  chunks n (a ++ b) = chunks n a ++ chunks n b.
Proof.
  intros Hn Hb. apply (chunks_ind n (fun a => zlen a mod n = 0 -> 0 < zlen a -> chunks n (a ++ b) = chunks n a ++ chunks n b) Hn).
  - intros a Ha Hm Hpos. assert (Ez : zlen a = n).
    { destruct (Z.eq_dec (zlen a) n); [done|]. rewrite Z.mod_small in Hm by lia. lia. }
    rewrite (chunks_unfold n (a ++ b)), (chunks_unfold n a) by done. rewrite zlen_app.
    assert (H1 : (zlen a + zlen b <=? n) = false) by lia. assert (H2 : (zlen a <=? n) = true) by lia.
    rewrite H1, H2. unfold zlen in Ez. simpl.
    rewrite sub_bytes_app_l, sub_bytes_all by (unfold zlen; lia). f_equal. f_equal.
    rewrite drop_app_ge by lia. by replace (Z.to_nat n - length a)%nat with 0%nat by lia.
  - intros a Ha IH Hm _. rewrite (chunks_unfold n (a ++ b)), (chunks_unfold n a) by done.
    rewrite zlen_app. assert (H1 : (zlen a + zlen b <=? n) = false) by lia.
    assert (H2 : (zlen a <=? n) = false) by lia. rewrite H1, H2. simpl.
    rewrite sub_bytes_app_l by lia. f_equal. rewrite drop_app_le by (unfold zlen in *; lia).
    assert (Hd : zlen (drop (Z.to_nat n) a) = zlen a - n) by (unfold zlen in *; rewrite length_drop; lia).
    apply IH; rewrite Hd; [|lia]. replace (zlen a - n) with (zlen a + (-1) * n) by lia.
    by rewrite Z.mod_add by lia.
Qed.

#[local] Opaque Z.to_nat.

Lemma usb_read_loop_chunks : forall d fuel st rest count acc,
  0 < zlen d -> usb_in st = map Some (chunks 4096 d) ++ rest ->
  (zlen d + 4095) / 4096 < Z.of_nat fuel -> 0 <= count -> count + zlen d < 2 ^ 31 ->
  usb_read_loop fuel st (zlen d) count acc = Ok (set_in st rest, count + zlen d, acc ++ d).
Proof.
  apply (chunks_ind 4096 (fun d => forall fuel st rest count acc, _ -> _ -> _ -> _ -> _ -> _) ltac:(lia));
    intros d Hd.
  - intros fuel st rest count acc Hpos Hin Hf Hc Hs.
    rewrite chunks_unfold in Hin by lia. assert (H1 : (zlen d <=? 4096) = true) by lia. rewrite H1 in Hin.
    assert (Hq : (zlen d + 4095) / 4096 = 1) by (symmetry; apply (Z.div_unique _ _ _ (zlen d - 1)); lia).
    destruct fuel as [|[|fuel]]; [lia|lia|]. cbn [usb_read_loop].
    assert (H2 : (0 <? zlen d) = true) by lia. assert (H3 : (4096 <? zlen d) = false) by lia. rewrite H2, H3.
    unfold dev_read. rewrite Hin. cbn [map app]. rewrite take_ge by (unfold zlen; lia).
    assert (H4 : (zlen d <? 0) = false) by lia. rewrite H4, Z.eqb_refl, Z.sub_diag. cbn [negb].
    change (0 <? 0) with false. cbv iota. by rewrite s32_id by lia.
  - intros IH fuel st rest count acc Hpos Hin Hf Hc Hs.
    rewrite chunks_unfold in Hin by lia. assert (H1 : (zlen d <=? 4096) = false) by lia. rewrite H1 in Hin.
    destruct fuel as [|fuel]; [pose proof (Z.div_pos (zlen d + 4095) 4096); lia|]. cbn [usb_read_loop].
    assert (H2 : (0 <? zlen d) = true) by lia. assert (H3 : (4096 <? zlen d) = true) by lia. rewrite H2, H3.
    unfold dev_read. rewrite Hin. cbn [map app].
    assert (Hz : zlen (sub_bytes d 0 4096) = 4096) by (apply zlen_sub; lia).
    rewrite take_ge by (unfold zlen in Hz; lia). rewrite Hz. change (4096 <? 0) with false. cbn [negb Z.eqb].
    assert (Hdz : zlen (drop (Z.to_nat 4096) d) = zlen d - 4096) by (unfold zlen in *; rewrite length_drop; lia).
    change (4096 =? 4096) with true. cbn [negb]. rewrite <- Hdz.
    rewrite (IH fuel (set_in st (map Some (chunks 4096 (drop (Z.to_nat 4096) d)) ++ rest)) rest); [|lia|done| |lia|lia].
    + rewrite Hdz. rewrite <- app_assoc. rewrite sub_drop. do 2 f_equal. f_equal. lia.
    + rewrite Hdz. replace (zlen d - 4096 + 4095) with (zlen d + 4095 + (-1) * 4096) by lia.
      rewrite Z.div_add by lia. lia.
Qed.

Lemma usb_read_chunks st d rest :
  state st <> STATE_ERROR -> 0 < zlen d < 2 ^ 31 -> usb_in st = map Some (chunks 4096 d) ++ rest ->
  usb_read st (zlen d) = Ok (set_in st rest, zlen d, d).
Proof.
  intros Hs Hd Hin. unfold usb_read. rewrite is_state_false by done.
  rewrite (usb_read_loop_chunks d _ st rest); [done|lia|done| |lia|lia].
  pose proof (Z.div_pos (zlen d) 4096 ltac:(lia)). rewrite !Nat2Z.inj_succ, Z2Nat.id by lia.
  apply Z.div_lt_upper_bound; [lia|]. pose proof (Z.mul_succ_div_gt (zlen d) 4096 ltac:(lia)). lia.
Qed.

Lemma progress_chunks : forall fuel st d rest len slice percent finished acc,
  state st <> STATE_ERROR -> usb_in st = map Some (chunks 4096 d) ++ rest ->
  zlen d = len - finished -> 0 < slice <= zlen d -> slice mod 4096 = 0 \/ slice = zlen d ->
  0 <= finished -> len < 2 ^ 30 -> DIV_ROUND_UP (zlen d) slice <= Z.of_nat fuel ->
  exists st', progress_loop fuel st len slice percent finished acc = Ok (st', len, acc ++ d) /\
    kept st st' /\ state st' = state st /\ usb_in st' = rest.
Proof.
  induction fuel as [|fuel IH]; intros st d rest len slice percent finished acc Hs Hin Hd Hsl Hm Hfi Hlen Hfuel.
  - pose proof (DIV_ROUND_UP_pos (zlen d) slice ltac:(lia) ltac:(lia)). lia.
  - cbn [progress_loop]. assert (Hz : (slice =? 0) = false) by lia. rewrite Hz.
    set (a := sub_bytes d 0 slice). set (b := drop (Z.to_nat slice) d).
    assert (Hab : d = a ++ b) by (symmetry; apply sub_drop).
    assert (Ha : zlen a = slice) by (unfold a; apply zlen_sub; lia).
    assert (Hb : zlen b = zlen d - slice) by (unfold b, zlen in *; rewrite length_drop; lia).
    destruct (Z.eq_dec slice (zlen d)) as [Eall|Epart].
    + assert (b = []) by (destruct b; [done|rewrite zlen_cons in Hb; pose proof (zlen_nonneg b); lia]).
      rewrite Eall, (usb_read_chunks st d rest) by (auto; lia). cbn [obind]. rewrite u32_id, Z.eqb_refl by lia. cbn [negb].
      replace (finished + zlen d) with len by lia. rewrite u32_id by lia. rewrite Z.ltb_irrefl, Z.eqb_refl.
      rewrite s32_id by lia. eexists. split; [reflexivity|]. by destruct (percent + 1 <? 100).
    + destruct Hm as [Hm|]; [|lia]. rewrite Hab, chunks_app in Hin by (rewrite ?Ha; lia).
      rewrite map_app, <- app_assoc in Hin.
      pose proof (usb_read_chunks st a _ Hs ltac:(lia) Hin) as Hrd. rewrite Ha in Hrd. rewrite Hrd.
      cbn [obind]. rewrite u32_id, Z.eqb_refl by lia. cbn [negb].
      rewrite u32_id by lia. assert (H1 : (len <? finished + slice) = false) by lia.
      assert (H2 : (finished + slice =? len) = false) by lia. rewrite H1, H2, u32_id by lia.
      set (st2 := if percent + 1 <? 100 then _ else _).
      assert (Hf2 : kept st st2 /\ state st2 = state st /\ usb_in st2 = map Some (chunks 4096 b) ++ rest)
        by (unfold st2; by destruct (percent + 1 <? 100)).
      destruct Hf2 as (Hk2 & Hs2 & Hi2).
      assert (Hq : DIV_ROUND_UP (zlen b) slice <= Z.of_nat fuel).
      { unfold DIV_ROUND_UP in *. rewrite Hb.
        replace (zlen d - slice + slice - 1) with (zlen d + slice - 1 + (-1) * slice) by lia.
        rewrite Z.div_add by lia. lia. }
      assert (Hnext : forall sl pc, 0 < sl <= zlen b -> sl mod 4096 = 0 \/ sl = zlen b ->
        DIV_ROUND_UP (zlen b) sl <= Z.of_nat fuel ->
        exists st', progress_loop fuel st2 len sl pc (finished + slice) (acc ++ a) = Ok (st', len, acc ++ d) /\
          kept st st' /\ state st' = state st /\ usb_in st' = rest).
      { intros sl pc Hsl' Hm' Hfu. destruct (IH st2 b rest len sl pc (finished + slice) (acc ++ a))
          as (st' & G1 & G2 & G3 & G4); auto; [by rewrite Hs2|lia|lia|].
        exists st'. rewrite G1, <- app_assoc, <- Hab. split; [done|]. split; [by eapply kept_trans|].
        split; [congruence|done]. }
      destruct (Z.ltb_spec len (finished + slice + slice)) as [Hlast|Hmore].
      * rewrite u32_id by lia. assert (H3 : (len - (finished + slice) =? 0) = false) by lia. rewrite H3.
        pose proof (DIV_ROUND_UP_pos (zlen b) slice ltac:(lia) ltac:(lia)).
        apply Hnext; [lia|right; lia|]. replace (len - (finished + slice)) with (zlen b) by lia.
        assert (Hone : DIV_ROUND_UP (zlen b) (zlen b) = 1)
          by (rewrite <- (Z.mul_1_l (zlen b)) at 1; apply DIV_ROUND_UP_mul; lia).
        lia.
      * apply Hnext; [lia|by left|done].
Qed.

Lemma usb_read_progress_chunks st d rest :
  state st <> STATE_ERROR -> 0 < zlen d < 2 ^ 30 -> usb_in st = map Some (chunks 4096 d) ++ rest ->
  exists st', usb_read_progress st (zlen d) = Ok (st', zlen d, d) /\
    kept st st' /\ state st' = state st /\ usb_in st' = rest.
Proof.
  intros Hs Hd Hin. unfold usb_read_progress. destruct (Z.ltb_spec (zlen d) 4096) as [Hlt|Hge].
  - rewrite (usb_read_chunks st d rest) by (auto; lia). by exists (set_in st rest).
  - destruct (slice_bounds (zlen d) ltac:(lia)) as (-> & Hsl & Hf).
    apply (progress_chunks 102 st d rest (zlen d) (roundup (zlen d / 100) 4096) 0 0 []); auto; [lia|left|lia|lia].
    apply roundup_mult.
Qed.

#[local] Transparent Z.to_nat.

(** ** Lemmas: hexadecimal numbers *)

Lemma hex_val_digit d : 0 <= d < 16 -> hex_val (hex_digit d) = Some d.
Proof.
  intros Hd. assert (H : d = 0 \/ d = 1 \/ d = 2 \/ d = 3 \/ d = 4 \/ d = 5 \/ d = 6 \/ d = 7 \/ d = 8 \/ d = 9 \/
    d = 10 \/ d = 11 \/ d = 12 \/ d = 13 \/ d = 14 \/ d = 15) by lia.
  repeat (destruct H as [->|H]; [reflexivity|]). by subst.
Qed.

Lemma hex_value_app l1 l2 : forall acc, Forall (fun c => is_Some (hex_val c)) l1 ->
  hex_value acc (l1 ++ l2) = hex_value (hex_value acc l1) l2.
Proof.
  induction l1 as [|c l1 IH]; intros acc Hl; [done|]. apply Forall_cons in Hl as [[d Hd] Hl].
  cbn [hex_value app]. rewrite Hd. by apply IH.
Qed.

Lemma hex_digits n : forall v, Forall (fun c => is_Some (hex_val c)) (hex n v).
Proof.
  induction n as [|n IH]; intros v; [done|]. cbn [hex]. apply Forall_app. split; [done|].
  constructor; [|done]. rewrite hex_val_digit; [eauto|]. apply Z.mod_pos_bound. lia.
Qed.

Lemma hex_value_hex n : forall v acc, 0 <= v ->
  hex_value acc (hex n v) = acc * 16 ^ Z.of_nat n + v mod 16 ^ Z.of_nat n.
Proof.
  induction n as [|n IH]; intros v acc Hv.
  - simpl. rewrite Z.mod_1_r. lia.
  - cbn [hex]. rewrite hex_value_app by apply hex_digits. rewrite IH by (apply Z.div_pos; lia).
    cbn [hex_value]. rewrite hex_val_digit by (apply Z.mod_pos_bound; lia).
    rewrite Nat2Z.inj_succ, Z.pow_succ_r by lia.
    rewrite (Z.rem_mul_r v 16 (16 ^ Z.of_nat n)) by (try apply Z.pow_pos_nonneg; lia). lia.
Qed.

Lemma zlen_hex n : forall v, zlen (hex n v) = Z.of_nat n.
Proof.
  induction n as [|n IH]; intros v; [done|]. cbn [hex]. rewrite zlen_app, IH.
  change (zlen [_]) with 1. lia.
Qed.

(** A digit starts no space, sign or [0x] prefix. *)
Lemma hex_plain c : is_Some (hex_val c) -> c <> 32 /\ ~ (9 <= c <= 13) /\ c <> 45 /\ c <> 43 /\ c <> 120 /\ c <> 88.
Proof. unfold hex_val. intros [d Hd]. split_and!; intros ?; subst; try done. repeat case_match; try done; lia. Qed.

Lemma strtoul16_digits l : Forall (fun c => is_Some (hex_val c)) l -> hex_value 0 l < 2 ^ 32 ->
  strtoul16 l = hex_value 0 l.
Proof.
  intros Hl Hv. unfold strtoul16. destruct l as [|c l]; [done|]. apply Forall_cons in Hl as [Hc Hl].
  pose proof (hex_plain c Hc) as (H1 & H2 & H3 & H4 & H5 & H6). cbn [skip_space].
  assert (E : (c =? 32) || ((9 <=? c) && (c <=? 13)) = false).
  { apply orb_false_iff. split; [lia|]. apply andb_false_iff. destruct (Z.leb_spec 9 c); [right|left]; lia. }
  rewrite E. unfold split_sign. assert (E3 : (c =? 45) = false) by lia. assert (E4 : (c =? 43) = false) by lia.
  rewrite E3, E4. assert (Hd : drop_0x (c :: l) = c :: l).
  { destruct l as [|x [|y l]]; [done|done|]. cbn [drop_0x]. apply Forall_cons in Hl as [Hx _].
    pose proof (hex_plain x Hx) as (_ & _ & _ & _ & G5 & G6).
    assert (Ex : (x =? 120) || (x =? 88) = false) by (apply orb_false_iff; lia).
    by rewrite Ex, andb_false_r. }
  rewrite Hd. assert (Hle : (2 ^ 32 <=? hex_value 0 (c :: l)) = false) by lia. by rewrite Hle.
Qed.

Lemma strtoul16_hex v : 0 <= v < 2 ^ 32 -> strtoul16 (hex 8 v) = v.
Proof.
  intros Hv. assert (H : hex_value 0 (hex 8 v) = v).
  { rewrite hex_value_hex by lia. change (16 ^ Z.of_nat 8) with (2 ^ 32). rewrite Z.mod_small by lia. lia. }
  rewrite strtoul16_digits; [done|apply hex_digits|lia].
Qed.

(** ** The protocol

    A packet that starts with OKAY or FAIL ends the answer to a command; the
    others come before it. *)

Definition has_code (code : list Z) (p : list Z) : Prop := take 4 p = code.

Definition final (p : list Z) : Prop := has_code (str "OKAY") p \/ has_code (str "FAIL") p.

Definition interim (p : list Z) : Prop := ~ final p.

(** The packets of a complete answer: interim ones, then at least one final
    one, the final ones with one code. *)
Definition answered (o : list (list Z)) : Prop :=
  exists pre code fin, o = pre ++ fin /\ Forall interim pre /\ fin <> [] /\
    (code = str "OKAY" \/ code = str "FAIL") /\ Forall (has_code code) fin.

(** The server between commands and inside handlers: the device takes whole
    writes, and the download buffer is as large as it says. *)
Definition ready (st : fb) : Prop :=
  usb_wr st = [] /\ zlen (download_base st) = download_max st /\ download_max st < 2 ^ 30 /\
  0 <= download_size st <= download_max st.

Definition consumes (st st' : fb) : Prop := exists used, usb_in st = used ++ usb_in st'.

(** What the command loop needs from a handler: called in [STATE_COMMAND] it
    returns; it sends an answer exactly if it leaves the state complete. *)
Definition keeps_contract (st : fb) (m : outcome fb) : Prop :=
  exists st' o, m = Ok st' /\ ready st' /\ consumes st st' /\ usb_out st' = usb_out st ++ o /\
    match state st' with
    | STATE_COMPLETE => answered o
    | STATE_COMMAND | STATE_ERROR => Forall interim o
    | STATE_OFFLINE => False
    end.

Class HandlerOk (h : handler) : Prop :=
  handler_ok : forall arg st, ready st -> state st = STATE_COMMAND -> keeps_contract st (h arg st).

Lemma consumes_refl st : consumes st st.
Proof. by exists []. Qed.

Lemma consumes_trans a b c : consumes a b -> consumes b c -> consumes a c.
Proof. intros (u & Hu) (v & Hv). exists (u ++ v). by rewrite Hu, Hv, app_assoc. Qed.

Lemma code_packets code reason : zlen code = 4 -> Forall (has_code code) (map (app code) (chunks 59 reason)).
Proof.
  intros Hc. apply Forall_map, Forall_forall. intros p _. unfold has_code.
  assert (H4 : length code = 4%nat) by (unfold zlen in Hc; lia). rewrite <- H4. apply take_app_length.
Qed.

Lemma packets_nonempty code reason : map (app code) (chunks 59 reason) <> [].
Proof.
  intros H. apply map_eq_nil in H. destruct (chunks_spec 59 reason ltac:(lia)) as (_ & _ & Hz).
  rewrite H in Hz. change (zlen (@nil (list Z))) with 0 in Hz. lia.
Qed.

Lemma answered_final pre code reason :
  Forall interim pre -> code = str "OKAY" \/ code = str "FAIL" ->
  answered (pre ++ map (app code) (chunks 59 reason)).
Proof.
  intros Hp Hc. exists pre, code, (map (app code) (chunks 59 reason)). split; [done|]. split; [done|].
  split; [apply packets_nonempty|]. split; [done|]. apply code_packets. by destruct Hc as [-> | ->].
Qed.

(** Sending a final response. *)
Lemma final_response st code reason :
  code = str "OKAY" \/ code = str "FAIL" -> ready st -> state st = STATE_COMMAND ->
  (let! st := _fastboot_ack st code (Some reason) in Ok (set_state st STATE_COMPLETE)) =
    Ok (set_state (set_out st [] (usb_out st ++ map (app code) (chunks 59 reason))) STATE_COMPLETE).
Proof. intros Hc (Hw & _) Hs. rewrite ack_full; [done| |done|done]. by destruct Hc as [-> | ->]. Qed.

Lemma ready_keep a b : kept a b -> ready a -> ready b.
Proof. unfold kept, ready. intros (_ & -> & -> & -> & -> & _). done. Qed.

Lemma ready_out st o : ready st -> ready (set_out st [] o).
Proof. unfold ready. intros (_ & H). by split. Qed.

Lemma ready_state st s : ready st -> ready (set_state st s).
Proof. done. Qed.

Lemma info_response st buf : ready st -> state st = STATE_COMMAND ->
  fastboot_info st buf = Ok (set_out st [] (usb_out st ++ map (app (str "INFO")) (chunks 59 buf))).
Proof. intros (Hw & _) Hs. by apply ack_full. Qed.

Lemma info_interim buf : Forall interim (map (app (str "INFO")) (chunks 59 buf)).
Proof.
  eapply Forall_impl; [apply (code_packets (str "INFO") buf); done|]. intros p Hp [H|H];
    unfold has_code in *; rewrite Hp in H; discriminate H.
Qed.

Lemma info_vars_ok : forall l st, ready st -> state st = STATE_COMMAND ->
  exists o, info_vars st l = Ok (set_out st [] (usb_out st ++ o)) /\ Forall interim o.
Proof.
  induction l as [|[n v] l IH]; intros st Hr Hs.
  - exists []. split; [|done]. cbn [info_vars]. rewrite app_nil_r. destruct st, Hr as [Hw _]. simpl in *. by subst.
  - cbn [info_vars]. rewrite info_response by done. cbn [obind].
    rewrite info_response; [|by apply ready_out|done]. cbn [obind].
    match goal with |- exists o, info_vars ?s l = _ /\ _ => destruct (IH s) as (o & Ho & Hi) end.
    { by do 2 apply ready_out. }
    { done. }
    rewrite Ho. cbn [set_out usb_out]. eexists. split; [rewrite <- !app_assoc; reflexivity|].
    apply Forall_app. split; [apply info_interim|]. apply Forall_app. split; [apply info_interim|done].
Qed.

#[export] Instance getvar_ok : HandlerOk cmd_getvar.
Proof.
  intros arg st Hr Hs. unfold cmd_getvar. destruct (bytes_eqb arg []).
  - rewrite info_response by done. cbn [obind]. set (st1 := set_out _ _ _).
    assert (Hr1 : ready st1) by (by apply ready_out).
    destruct (info_vars_ok (varlist st1) st1 Hr1 Hs) as (o & -> & Hi). cbn [obind]. set (st2 := set_out st1 _ _).
    assert (Hr2 : ready st2) by (by apply ready_out).
    rewrite info_response by done. cbn [obind]. set (st3 := set_out st2 _ _).
    assert (Hr3 : ready st3) by (by apply ready_out).
    unfold fastboot_okay. rewrite final_response by (auto). eexists _, _. split; [reflexivity|].
    split; [by apply ready_state, ready_out|]. split; [exists []; reflexivity|].
    split; [cbn [set_state set_out usb_out st3 st2 st1]; rewrite <- !app_assoc; reflexivity|]. cbn [state set_state].
    rewrite !app_assoc. apply answered_final; [|by left].
    rewrite !Forall_app. split; [split; [apply info_interim|done]|apply info_interim].
  - assert (H : forall v, exists st' o, fastboot_okay st v = Ok st' /\ ready st' /\ consumes st st' /\
      usb_out st' = usb_out st ++ o /\ match state st' with STATE_COMPLETE => answered o
        | STATE_COMMAND | STATE_ERROR => Forall interim o | STATE_OFFLINE => False end).
    { intros v. unfold fastboot_okay. rewrite final_response by auto. eexists _, _. split; [reflexivity|].
      split; [by apply ready_state, ready_out|]. split; [exists []; reflexivity|]. split; [reflexivity|].
      apply (answered_final []); [done|by left]. }
    destruct (find_var (varlist st) arg); apply H.
Qed.

Lemma zlen_put_base data bs : zlen bs <= zlen data -> zlen (Posix.put_bytes data 0 bs) = zlen data.
Proof.
  unfold Posix.put_bytes, zlen. intros. rewrite !length_app, length_take, length_app, length_replicate, length_drop. lia.
Qed.

Lemma response_data_ok st len : ready st -> state st <> STATE_ERROR ->
  response_data st len = (set_out st [] (usb_out st ++ [str "DATA" ++ hex 8 len]), 0).
Proof.
  intros (Hw & _) Hs. unfold response_data. rewrite usb_write_full by done. rewrite zlen_app, zlen_hex. reflexivity.
Qed.

Lemma data_interim len : interim (str "DATA" ++ hex 8 len).
Proof. intros [H|H]; discriminate H. Qed.

Lemma hex_value_nonneg l : forall acc, 0 <= acc -> 0 <= hex_value acc l.
Proof.
  induction l as [|c l IH]; intros acc Ha; [done|]. cbn [hex_value].
  destruct (hex_val c) as [d|] eqn:E; [|done]. apply IH. unfold hex_val in E.
  destruct ((48 <=? c) && (c <=? 57)) eqn:E1; [injection E as <-; lia|].
  destruct ((65 <=? c) && (c <=? 70)) eqn:E2; [injection E as <-; lia|].
  destruct ((97 <=? c) && (c <=? 102)) eqn:E3; [injection E as <-; lia|done].
Qed.

Lemma strtoul16_nonneg l : 0 <= strtoul16 l.
Proof.
  unfold strtoul16. destruct (split_sign _) as [neg l']. pose proof (hex_value_nonneg (drop_0x l') 0 ltac:(lia)).
  destruct (2 ^ 32 <=? _); [lia|]. destruct neg; [apply u32_range|done].
Qed.

#[export] Instance download_ok : HandlerOk cmd_download.
Proof.
  intros arg st Hr Hs. unfold cmd_download. set (len := strtoul16 arg).
  pose proof (strtoul16_nonneg arg) as Hlen. fold len in Hlen.
  pose proof Hr as (Hw & Hb & Hmax & Hsz). set (st0 := set_size st 0).
  assert (Hr0 : ready st0) by (unfold ready; cbn; split_and!; [done|done|lia|lia|lia]).
  destruct (Z.ltb_spec (download_max st0) len) as [Hbig|Hok].
  { unfold fastboot_fail. rewrite final_response by auto. eexists _, _. split; [reflexivity|].
    split; [by apply ready_state, ready_out|]. split; [exists []; reflexivity|]. split; [reflexivity|].
    apply (answered_final []); [done|by right]. }
  rewrite response_data_ok by (auto; change (state st0) with (state st); by rewrite Hs). set (st1 := set_out st0 _ _).
  assert (Hr1 : ready st1) by (by apply ready_out). change (negb (0 =? 0)) with false. cbv iota.
  cbn in Hok. destruct (usb_read_progress_total st1 len ltac:(lia)) as (st2 & r & bs & -> & Hfr & Hbs & Hcase).
  cbn [obind]. destruct Hfr as (Hu & Hk & Hst). pose proof (ready_keep _ _ Hk Hr1) as Hr2.
  pose proof Hk as (_ & Hbase & Hm & Hz & _ & Hout & _). pose proof Hr2 as (Hw2 & Hb2 & Hm2 & Hs2).
  unfold store. assert (E : (0 + zlen bs <=? zlen (download_base st2)) = true) by (rewrite Hb2, Hm; cbn; lia).
  rewrite E. cbn [obind]. set (st3 := set_base st2 _).
  assert (Hb3 : zlen (download_base st3) = download_max st3).
  { unfold st3. cbn [set_base download_base download_max]. rewrite zlen_put_base; [done|lia]. }
  assert (Hr3 : ready st3) by (split; [exact Hw2|split; [exact Hb3|split; [exact Hm2|exact Hs2]]]).
  destruct ((r <? 0) || negb (u32 r =? len)) eqn:Er.
  - eexists _, [_]. split; [reflexivity|]. split; [exact Hr3|]. split; [exact Hu|]. split; [exact Hout|].
    constructor; [apply data_interim|done].
  - apply orb_false_iff in Er as [E1 E2]. destruct Hcase as [->|[-> Hst2]]; [done|].
    apply negb_false_iff, Z.eqb_eq in E2. unfold fastboot_okay.
    set (st4 := add_log _ _).
    assert (Hr4 : ready st4) by (split; [exact Hw2|split; [exact Hb3|split; [exact Hm2|]]]; cbn; rewrite Hm; cbn; lia).
    rewrite final_response by (auto; unfold st4; cbn; by rewrite Hst2). eexists _, _. split; [reflexivity|].
    split; [by apply ready_state, ready_out|]. split; [exact Hu|].
    split; [unfold st4; cbn [set_state set_out usb_out add_log set_size st3 set_base]; rewrite Hout;
            unfold st1; cbn [set_out usb_out]; rewrite <- app_assoc; reflexivity|].
    apply answered_final; [|by left]. constructor; [apply data_interim|done].
Qed.

(** C7: downloading. When the host announces, in hexadecimal, a length that fits the buffer
    and then sends that many bytes, in packets of 4096, the server answers
    DATA with the length, stores exactly those bytes at the start of the
    download buffer, leaves the rest of the buffer and whatever the host sends
    next alone, records the size, and answers OKAY. *)
Theorem download_correct st data rest :
  ready st -> state st = STATE_COMMAND -> 0 < zlen data <= download_max st ->
  usb_in st = map Some (chunks 4096 data) ++ rest ->
  exists st', cmd_download (hex 8 (zlen data)) st = Ok st' /\ state st' = STATE_COMPLETE /\
    usb_out st' = usb_out st ++ [str "DATA" ++ hex 8 (zlen data); str "OKAY"] /\
    download_base st' = data ++ drop (length data) (download_base st) /\
    download_size st' = zlen data /\ usb_in st' = rest.
Proof.
  intros Hr Hs Hd Hin. pose proof Hr as (Hw & Hb & Hmax & Hsz). unfold cmd_download.
  rewrite strtoul16_hex by lia. set (st0 := set_size st 0).
  assert (Hr0 : ready st0) by (unfold ready; cbn; split_and!; [done|done|lia|lia|lia]).
  assert (E : (download_max st0 <? zlen data) = false) by (cbn; lia). rewrite E.
  rewrite response_data_ok by (auto; change (state st0) with (state st); by rewrite Hs). set (st1 := set_out st0 _ _).
  assert (Hr1 : ready st1) by (by apply ready_out). change (negb (0 =? 0)) with false. cbv iota.
  destruct (usb_read_progress_chunks st1 data rest) as (st2 & -> & Hk & Hst & Hi); [by cbn; rewrite Hs|lia|done|].
  cbn [obind]. pose proof Hk as (_ & Hbase & Hm & Hz & Hw2 & Hout & _). unfold store.
  assert (E2 : (0 + zlen data <=? zlen (download_base st2)) = true) by (rewrite Hbase; cbn; lia).
  rewrite E2. cbn [obind]. rewrite u32_id by lia. rewrite Z.eqb_refl.
  assert (E3 : (zlen data <? 0) = false) by lia. rewrite E3. cbn [orb negb].
  unfold fastboot_okay. rewrite ack_full; [|done|cbn; by rewrite Hst|cbn; by rewrite Hw2].
  cbn [obind]. eexists. split; [reflexivity|]. split; [done|]. split.
  { cbn [set_state set_out usb_out add_log set_size set_base]. rewrite Hout. cbn [st1 set_out usb_out].
    rewrite <- app_assoc. done. }
  split; [|split; [done|exact Hi]].
  cbn [set_state set_out download_base add_log set_size set_base]. rewrite Hbase. reflexivity.
Qed.

Lemma download_correct_witness :
  exists st', cmd_download (hex 8 3) (idle_fb STATE_COMMAND [Some [7; 8; 9]; Some (str "next")] []) = Ok st' /\
    take 4 (download_base st') = [7; 8; 9; 0].
Proof.
  destruct (download_correct (idle_fb STATE_COMMAND [Some [7; 8; 9]; Some (str "next")] []) [7; 8; 9]
    [Some (str "next")]) as (st' & H1 & _ & _ & H2 & _).
  - split_and!; vm_compute; done.
  - done.
  - vm_compute. split; [done|discriminate].
  - reflexivity.
  - exists st'. split; [exact H1|]. rewrite H2. reflexivity.
Defined.

(** ** The command loop *)

Lemma final_session st pre code reason st0 :
  code = str "OKAY" \/ code = str "FAIL" -> ready st -> state st = STATE_COMMAND ->
  consumes st0 st -> usb_out st = usb_out st0 ++ pre -> Forall interim pre ->
  exists st' o, (let! st := _fastboot_ack st code (Some reason) in Ok (set_state st STATE_COMPLETE)) = Ok st' /\
    ready st' /\ consumes st0 st' /\ usb_out st' = usb_out st0 ++ o /\ state st' = STATE_COMPLETE /\ answered o.
Proof.
  intros Hc Hr Hs Hu Ho Hp. rewrite final_response by done.
  eexists _, (pre ++ map (app code) (chunks 59 reason)). split; [reflexivity|].
  split; [by apply ready_state, ready_out|]. split; [exact Hu|].
  split; [cbn [set_state set_out usb_out]; rewrite Ho, <- app_assoc; done|]. split; [done|]. by apply answered_final.
Qed.

Lemma find_cmd_in cmdlist buffer cmd : find_cmd cmdlist buffer = Some cmd -> cmd ∈ cmdlist.
Proof.
  induction cmdlist as [|c l IH]; [done|]. cbn [find_cmd]. destruct (is_prefix _ _); [|set_solver].
  intros [= ->]. set_solver.
Qed.

(** A state in which [o] was sent after another one, and nothing else happened but the
    log and a change of [state]. *)
Definition after (a b : fb) (o : list (list Z)) : Prop :=
  varlist b = varlist a /\ download_base b = download_base a /\ download_max b = download_max a /\
  download_size b = download_size a /\ usb_in b = usb_in a /\ usb_wr b = usb_wr a /\ battery b = battery a /\
  usb_out b = usb_out a ++ o.

(** What the host may expect for a command: [o] is the answer to [buffer], and [st'] the state after it. An
    unknown command is refused; otherwise the battery is looked at; a writing command is refused when it is low; any
    other one is answered by the first handler with its prefix, called with the text behind the prefix, and where
    the handler leaves the command open, the loop closes it. *)
Definition replies (cmdlist : list fastboot_cmd) (st : fb) (buffer : list Z) (o : list (list Z)) (st' : fb) : Prop :=
  match find_cmd cmdlist buffer with
  | None => o = [str "FAILunknown command"] /\ state st' = STATE_COMPLETE /\ after st st' o
  | Some cmd =>
    let checked := set_battery st (List.tl (battery st)) in
    if hd false (battery st) && existsb (fun p => is_prefix p buffer) blocked then
      o = [str "FAILcan't do this operation when battery low"] /\ state st' = STATE_COMPLETE /\ after checked st' o
    else
      exists called left sent, after checked called [] /\ state called = STATE_COMMAND /\
        handle cmd (c_string (drop (length (prefix cmd)) buffer)) called = Ok left /\ usb_out left = usb_out st ++ sent /\
        match state left with
        | STATE_COMMAND => Forall interim sent /\ o = sent ++ [str "FAILunknown reason"] /\ state st' = STATE_COMPLETE /\
            after left st' [str "FAILunknown reason"]
        | STATE_COMPLETE => answered sent /\ o = sent /\ state st' = STATE_COMPLETE /\ after left st' []
        | STATE_ERROR => Forall interim sent /\ o = sent /\ state st' = STATE_ERROR /\ after left st' []
        | STATE_OFFLINE => False
        end
  end.

Lemma after_ready a b o : after a b o -> ready a -> ready b.
Proof. unfold after, ready. intros (_ & -> & -> & -> & _ & -> & _). done. Qed.

(** The answer of a command is complete unless the device failed. *)
Lemma replies_out cmdlist st buffer o st' : replies cmdlist st buffer o st' ->
  usb_out st' = usb_out st ++ o /\ (state st' = STATE_COMPLETE /\ answered o \/ state st' = STATE_ERROR /\ Forall interim o).
Proof.
  assert (forall pre r, Forall interim pre -> chunks 59 r = [r] -> answered (pre ++ [str "FAIL" ++ r])) as Ha.
  { intros pre r Hp Hr. change [str "FAIL" ++ r] with (map (app (str "FAIL")) [r]). rewrite <- Hr. apply answered_final; [exact Hp|by right]. }
  unfold replies. destruct (find_cmd cmdlist buffer) as [cmd|].
  2:{ intros (-> & Hs & (_ & _ & _ & _ & _ & _ & _ & Ho)). split; [exact Ho|]. left. split; [exact Hs|]. exact (Ha [] (str "unknown command") (Forall_nil_2 _) eq_refl). }
  cbv zeta. destruct (_ && _).
  { intros (-> & Hs & (_ & _ & _ & _ & _ & _ & _ & Ho)). split; [exact Ho|]. left. split; [exact Hs|].
    exact (Ha [] (str "can't do this operation when battery low") (Forall_nil_2 _) eq_refl). }
  intros (called & left & sent & _ & _ & _ & Hl & H). destruct (state left); [done|..].
  - destruct H as (Hi & -> & Hs & (_ & _ & _ & _ & _ & _ & _ & Ho)). rewrite Ho, Hl, <- app_assoc. split; [done|]. left. split; [exact Hs|].
    exact (Ha sent (str "unknown reason") Hi eq_refl).
  - destruct H as (Hi & -> & Hs & (_ & _ & _ & _ & _ & _ & _ & Ho)). rewrite Ho, Hl, app_nil_r. auto.
  - destruct H as (Hi & -> & Hs & (_ & _ & _ & _ & _ & _ & _ & Ho)). rewrite Ho, Hl, app_nil_r. auto.
Qed.

(** Only the handler that runs has to keep the contract, and only for its argument. *)
Lemma run_command_replies cmdlist st buffer :
  (forall cmd s, find_cmd cmdlist buffer = Some cmd -> ready s -> state s = STATE_COMMAND ->
   keeps_contract s (handle cmd (c_string (drop (length (prefix cmd)) buffer)) s)) -> ready st ->
  exists st' o, run_command cmdlist st buffer = Ok st' /\ ready st' /\ consumes st st' /\ replies cmdlist st buffer o st'.
Proof.
  intros Hh Hr. unfold run_command, replies. set (st0 := add_log (set_state st STATE_COMMAND) _). cbv zeta.
  assert (forall s r, ready s -> state s = STATE_COMMAND -> chunks 59 r = [r] ->
    fastboot_fail s r = Ok (set_state (set_out s [] (usb_out s ++ [str "FAIL" ++ r])) STATE_COMPLETE)) as Hf.
  { intros s r Hs Hst Hc. unfold fastboot_fail. rewrite final_response, Hc by auto. reflexivity. }
  assert (ready st0) as Hr0 by exact Hr. destruct (find_cmd cmdlist buffer) as [cmd|] eqn:Ef.
  2:{ rewrite (Hf st0 _ Hr0) by done. eexists _, _. split; [reflexivity|]. split; [by apply ready_state, ready_out|]. split; [by exists []|].
      destruct Hr as (Hw & _). unfold after. by rewrite Hw. }
  assert (check_battery_result (add_log st0 [DisableAutoboot]) = (add_log (set_battery st0 (List.tl (battery st))) [DisableAutoboot], hd false (battery st))) as ->.
  { unfold check_battery_result. cbn [add_log set_state battery st0]. destruct (battery st) eqn:Eb; [|reflexivity].
    unfold st0, add_log, set_battery. cbn. by rewrite Eb. }
  destruct (hd false (battery st) && _).
  { rewrite Hf by done. eexists _, _. split; [reflexivity|]. split; [by apply ready_state, ready_out|]. split; [by exists []|].
    destruct Hr as (Hw & _). unfold after. cbn. by rewrite Hw. }
  set (st1 := add_log _ [MutexLock; DisableKeypress]).
  destruct (Hh cmd st1 eq_refl Hr eq_refl) as (st2 & o & E2 & Hr2 & Hu2 & Ho2 & Hcase). rewrite E2. cbn [obind].
  change (state (add_log st2 [EnableKeypress; MutexUnlock])) with (state st2). destruct (state st2) eqn:Es; [done|..].
  - rewrite is_state_true by done. rewrite Hf by done. cbn [obind]. eexists _, (o ++ [str "FAILunknown reason"]). split; [reflexivity|].
    split; [by apply ready_state, ready_out|]. split; [exact Hu2|]. exists st1, st2, o. rewrite Es. destruct Hr2 as (Hw & _).
    split_and!; [unfold after; cbn; by rewrite app_nil_r|done|done|done|done|done|done|unfold after; cbn; by rewrite Hw].
  - rewrite is_state_false by done. cbn [obind]. eexists _, o. split; [reflexivity|]. split; [exact Hr2|]. split; [exact Hu2|].
    exists st1, st2, o. rewrite Es. split_and!; try done; unfold after; cbn; by rewrite app_nil_r.
  - rewrite is_state_false by done. cbn [obind]. eexists _, o. split; [reflexivity|]. split; [exact Hr2|]. split; [exact Hu2|].
    exists st1, st2, o. rewrite Es. split_and!; try done; unfold after; cbn; by rewrite app_nil_r.
Qed.

Lemma run_command_by cmdlist st buffer :
  (forall cmd s, find_cmd cmdlist buffer = Some cmd -> ready s -> state s = STATE_COMMAND ->
   keeps_contract s (handle cmd (c_string (drop (length (prefix cmd)) buffer)) s)) -> ready st ->
  exists st' o, run_command cmdlist st buffer = Ok st' /\ ready st' /\ consumes st st' /\
    usb_out st' = usb_out st ++ o /\
    (state st' = STATE_COMPLETE /\ answered o \/ state st' = STATE_ERROR /\ Forall interim o).
Proof.
  intros Hh Hr. destruct (run_command_replies cmdlist st buffer Hh Hr) as (st' & o & H1 & H2 & H3 & H4). apply replies_out in H4.
  exists st', o. auto.
Qed.

(** A conversation: the commands that the loop read, each with its answer, up to the end of the
    connection or the command during which the device failed. *)
Inductive serves (cmdlist : list fastboot_cmd) : fb -> list (list Z * list (list Z)) -> fb -> Prop :=
  | serves_failed st : state st = STATE_ERROR -> serves cmdlist st [] st
  | serves_gone st st' : state st <> STATE_ERROR -> hd None (usb_in st) = None -> kept st st' -> serves cmdlist st [] st'
  | serves_command st bytes rest o st1 l st' : state st <> STATE_ERROR -> usb_in st = Some bytes :: rest ->
      replies cmdlist (set_in st rest) (take 64 bytes) o st1 -> serves cmdlist st1 l st' ->
      serves cmdlist st ((take 64 bytes, o) :: l) st'.

(** The loop's read takes one packet, and 64 bytes of it. *)
Lemma usb_read_64 st : state st <> STATE_ERROR ->
  match usb_in st with
  | Some bytes :: rest => usb_read st 64 = Ok (set_in st rest, zlen (take 64 bytes), take 64 bytes)
  | _ => exists st', usb_read st 64 = Ok (st', -1, []) /\ kept st st'
  end.
Proof.
  intros Hs. unfold usb_read. rewrite is_state_false by done. cbn [usb_read_loop]. change (0 <? 64) with true. change (4096 <? 64) with false. cbv iota.
  unfold dev_read. destruct (usb_in st) as [|[bytes|] rest].
  - cbn. eexists. split; [reflexivity|]. split_and!; reflexivity.
  - change (Z.to_nat 64) with 64%nat. set (b := take 64 bytes). assert (0 <= zlen b <= 64) as Hb.
    { split; [apply zlen_nonneg|]. unfold b, zlen. rewrite length_take. lia. }
    rewrite (proj2 (Z.ltb_ge (zlen b) 0)) by lia. cbn [app]. destruct (Z.eqb_spec (zlen b) 64) as [E|E]; cbn [negb].
    + rewrite E. change (0 <? 64 - 64) with false. cbv iota. change (s32 (0 + 64)) with 64. reflexivity.
    + rewrite s32_id by lia. reflexivity.
  - cbn. eexists. split; [reflexivity|]. split_and!; reflexivity.
Qed.

Lemma command_loop_ok cmdlist : Forall (fun c => HandlerOk (handle c)) cmdlist ->
  forall fuel st, ready st -> (length (usb_in st) < fuel)%nat ->
  exists st' l, command_loop fuel cmdlist st = Ok (set_state st' STATE_OFFLINE) /\ serves cmdlist st l st' /\
    usb_out st' = usb_out st ++ concat l.*2 /\
    (Forall (answered ∘ snd) l \/ exists l1 c o, l = l1 ++ [(c, o)] /\ Forall (answered ∘ snd) l1 /\ Forall interim o /\ state st' = STATE_ERROR).
Proof.
  intros Hh. induction fuel as [|fuel IH]; intros st Hr Hf; [lia|]. cbn [command_loop].
  destruct (is_state (state st) STATE_ERROR) eqn:Es.
  { apply bool_decide_eq_true in Es. exists st, []. split; [done|]. split; [by constructor|]. split; [by rewrite app_nil_r|by left]. }
  apply bool_decide_eq_false in Es. pose proof (usb_read_64 st Es) as Hread.
  assert (hd None (usb_in st) = None \/ exists bytes rest, usb_in st = Some bytes :: rest) as [Hg|(bytes & rest & Hi)].
  { destruct (usb_in st) as [|[b|] i]; eauto. }
  - destruct (usb_in st) as [|[b|] i] eqn:Ei; [|discriminate|]; destruct Hread as (st1 & -> & Hk); cbn [obind]; change (-1 <? 0) with true; cbv iota;
      exists st1, []; (split; [done|]); (split; [apply serves_gone; auto; by rewrite Ei|]); destruct Hk as (_ & _ & _ & _ & _ & -> & _);
      (split; [by rewrite app_nil_r|by left]).
  - rewrite Hi in Hread, Hf. rewrite Hread. cbn [obind]. pose proof (zlen_nonneg (take 64 bytes)). rewrite (proj2 (Z.ltb_ge (zlen (take 64 bytes)) 0)) by lia.
    destruct (run_command_replies cmdlist (set_in st rest) (take 64 bytes)) as (st2 & o & -> & Hr2 & (u & Hu) & Hrep).
    { intros cmd s Ec. rewrite Forall_forall in Hh. apply (Hh cmd (find_cmd_in _ _ _ Ec)). }
    { exact Hr. }
    cbn [obind]. destruct (IH st2 Hr2) as (st' & l & -> & Hser & Hout & Hcase).
    { change (rest = u ++ usb_in st2) in Hu. rewrite Hu in Hf. cbn [length] in Hf. rewrite length_app in Hf. lia. }
    exists st', ((take 64 bytes, o) :: l). split; [done|]. split; [by eapply serves_command|].
    destruct (replies_out _ _ _ _ _ Hrep) as (Ho & Ha). split; [rewrite Hout, Ho; cbn; by rewrite <- app_assoc|].
    destruct Ha as [[_ Ha]|[He Hint]].
    + destruct Hcase as [Hc|(l1 & c & o1 & -> & H1 & H2)]; [left; by constructor|]. right. exists ((take 64 bytes, o) :: l1), c, o1. split; [done|]. split; [by constructor|done].
    + right. exists [], (take 64 bytes), o. inversion Hser; subst; [|congruence..]. done.
Qed.

(** C6: Every command is answered. On a device that takes whole writes, with a download buffer as large as it says and
    with handlers that keep the contract [HandlerOk], the command loop terminates whatever the host sends, including
    garbage and a disconnect at any point. What it sent is, command by command, the answers to the commands it read: FAIL
    for an unknown one and for one that a low battery blocks, otherwise what the first handler with its prefix sent
    when called with the rest of the text, closed with FAIL if the handler left it open. Every answer is complete
    (interim packets, then OKAY or FAIL packets), but for the last one if the device failed during it. *)
Theorem command_loop_answers cmdlist st :
  Forall (fun c => HandlerOk (handle c)) cmdlist -> ready st ->
  exists st' l, fastboot_command_loop cmdlist st = Ok (set_state st' STATE_OFFLINE) /\ serves cmdlist st l st' /\
    usb_out st' = usb_out st ++ concat l.*2 /\
    (Forall (answered ∘ snd) l \/ exists l1 c o, l = l1 ++ [(c, o)] /\ Forall (answered ∘ snd) l1 /\ Forall interim o /\ state st' = STATE_ERROR).
Proof. intros Hh Hr. apply (command_loop_ok cmdlist Hh (S (length (usb_in st))) st Hr). lia. Qed.

(** The commands of [fastboot_init]. *)
Definition builtin_cmds : list fastboot_cmd :=
  fastboot_register (fastboot_register [] (str "getvar:") cmd_getvar true) (str "download:") cmd_download true.

Lemma command_loop_answers_witness :
  exists st' (l : list (list Z * list (list Z))),
    fastboot_command_loop builtin_cmds
      (idle_fb STATE_OFFLINE [Some (str "getvar:version"); Some (str "download:00000003"); Some [1; 2; 3];
         Some (str "reboot"); Some (str "download:00000009"); None] []) = Ok (set_state st' STATE_OFFLINE) /\
    usb_out st' = [] ++ concat l.*2.
Proof.
  destruct (command_loop_answers builtin_cmds
    (idle_fb STATE_OFFLINE [Some (str "getvar:version"); Some (str "download:00000003"); Some [1; 2; 3];
       Some (str "reboot"); Some (str "download:00000009"); None] [])) as (st' & l & H1 & _ & H3 & _).
  - constructor; [exact download_ok|]. constructor; [exact getvar_ok|]. constructor.
  - split_and!; vm_compute; done.
  - exists st', l. split; [exact H1|exact H3].
Defined.

(** The example answered in full. *)
Example command_loop_example :
  (let! st := fastboot_command_loop builtin_cmds
     (idle_fb STATE_OFFLINE [Some (str "getvar:version"); Some (str "download:00000003"); Some [1; 2; 3];
        Some (str "reboot"); Some (str "download:00000009"); None] []) in Ok (usb_out st)) =
  Ok [str "OKAY"; str "DATA00000003"; str "OKAY"; str "FAILunknown command"; str "DATA00000009"].
Proof. vm_compute. reflexivity. Qed.

(** A low battery blocks flashing. When [check_battery] reports a low
    battery and the command starts with flash, erase or oem system, no
    handler runs, whatever handlers are registered for it: the answer is one
    FAIL packet, and the variables, the downloaded data and the rest of the
    device's input are as before. *)
Theorem battery_blocks cmdlist st buffer b p :
  ready st -> battery st = true :: b -> p ∈ blocked -> is_prefix p buffer = true ->
  is_Some (find_cmd cmdlist buffer) ->
  exists st', run_command cmdlist st buffer = Ok st' /\ state st' = STATE_COMPLETE /\
    usb_out st' = usb_out st ++ [str "FAILcan't do this operation when battery low"] /\
    varlist st' = varlist st /\ download_base st' = download_base st /\
    download_size st' = download_size st /\ usb_in st' = usb_in st.
Proof.
  intros (Hw & Hr) Hb Hp Hpre [cmd Hf]. unfold run_command, check_battery_result. rewrite Hf.
  cbn [add_log set_state battery]. rewrite Hb. cbn [andb].
  assert (E : existsb (fun p => is_prefix p buffer) blocked = true).
  { apply existsb_exists. exists p. split; [by apply list_elem_of_In|done]. }
  rewrite E. unfold fastboot_fail. rewrite ack_full; [|done|done|done]. cbn [obind].
  eexists. split; [reflexivity|]. done.
Qed.

Lemma battery_blocks_witness :
  exists st', run_command [mk_cmd (str "flash:") cmd_getvar]
      (mk_fb STATE_OFFLINE [] [] 0 0 [] [] [] [true] []) (str "flash:boot") = Ok st' /\
    usb_out st' = [] ++ [str "FAILcan't do this operation when battery low"].
Proof.
  destruct (battery_blocks [mk_cmd (str "flash:") cmd_getvar] (mk_fb STATE_OFFLINE [] [] 0 0 [] [] [] [true] [])
    (str "flash:boot") [] (str "flash")) as (st' & H1 & _ & H2 & _).
  - split_and!; vm_compute; done.
  - done.
  - unfold blocked. set_solver.
  - reflexivity.
  - eexists. reflexivity.
  - exists st'. split; [exact H1|exact H2].
Defined.

(** Variables. Asking for a published variable answers OKAY with the value
    published last, in packets of at most 59 bytes of it; a name that was
    never published answers an empty OKAY, not FAIL. *)
Theorem getvar_published st name value :
  ready st -> state st = STATE_COMMAND -> name <> [] ->
  cmd_getvar name (fastboot_publish st name value true) =
    Ok (set_state (set_out (fastboot_publish st name value true) []
         (usb_out st ++ map (app (str "OKAY")) (chunks 59 value))) STATE_COMPLETE) /\
  (fastboot_getvar st name = None ->
   cmd_getvar name st = Ok (set_state (set_out st [] (usb_out st ++ [str "OKAY"])) STATE_COMPLETE)).
Proof.
  intros Hr Hs Hn. unfold cmd_getvar, bytes_eqb. rewrite bool_decide_false by done. split.
  - cbn [fastboot_publish set_vars varlist find_var]. unfold bytes_eqb. rewrite bool_decide_true by done.
    unfold fastboot_okay. rewrite final_response by auto. done.
  - unfold fastboot_getvar. intros ->. unfold fastboot_okay. rewrite final_response by auto. done.
Qed.

Lemma getvar_published_witness :
  cmd_getvar (str "product") (fastboot_publish (idle_fb STATE_COMMAND [] []) (str "product") (str "x") true) =
    Ok (set_state (set_out (fastboot_publish (idle_fb STATE_COMMAND [] []) (str "product") (str "x") true) []
         ([] ++ map (app (str "OKAY")) (chunks 59 (str "x")))) STATE_COMPLETE).
Proof.
  apply (getvar_published (idle_fb STATE_COMMAND [] []) (str "product") (str "x"));
    [split_and!; vm_compute; done|done|done].
Defined.

(** ** Sending a file *)

Lemma take_put data off bs : 0 <= off <= zlen data ->
  take (Z.to_nat (off + zlen bs)) (Posix.put_bytes data off bs) = take (Z.to_nat off) data ++ bs.
Proof.
  intros Ho. unfold Posix.put_bytes, zlen in *. replace (Z.to_nat off - length data)%nat with 0%nat by lia.
  rewrite app_nil_r, app_assoc. rewrite take_app_le by (rewrite length_app, length_take; lia).
  apply take_ge. rewrite length_app, length_take. lia.
Qed.

Lemma put_length data off bs : 0 <= off -> off + zlen bs <= zlen data ->
  zlen (Posix.put_bytes data off bs) = zlen data.
Proof.
  unfold Posix.put_bytes, zlen. intros. rewrite !length_app, length_take, length_app, length_replicate, length_drop. lia.
Qed.

Lemma c_string_hex n v : c_string (hex n v) = hex n v.
Proof.
  pose proof (hex_digits n v) as H. induction (hex n v) as [|c l IH]; [done|]. apply Forall_cons in H as [[d Hd] Hl].
  cbn [c_string]. destruct (Z.eqb_spec c 0) as [->|]; [done|]. by rewrite IH.
Qed.

(** The part of [pull_file] up to the wait for the host. *)
Lemma pull_file_sends st f n :
  ready st -> state st = STATE_COMMAND -> Posix.f_pos f = 0 -> Posix.f_size f = n ->
  n <= Posix.f_rlimit f 0 -> 13 <= download_max st -> n <= download_max st - 12 ->
  exists st3, ready st3 /\ state st3 = STATE_COMMAND /\ usb_in st3 = usb_in st /\
    usb_out st3 = usb_out st ++ [str "FILE" ++ hex 8 n ++ Posix.f_data f] /\
    pull_file st (Some f) (Some n) =
      (let! (st, r, response) := usb_read st3 64 in
       if u32 r <? 12 then let! st := fastboot_fail st (str "get invalid response") in Ok (st, -1)
       else if r <? 0 then Undef
       else if negb (n =? strtoul16 (c_string (sub_bytes response 4 8)))
       then let! st := fastboot_fail st (str "saved bytes doesn't equal sent bytes") in Ok (st, -1)
       else Ok (st, 0)).
Proof.
  intros Hr Hs Hp Hn Hlim Hm Hfit. pose proof Hr as (Hw & Hb & Hmax & Hsz).
  pose proof (zlen_nonneg (Posix.f_data f)) as Hn0. change (0 <= Posix.f_size f) in Hn0.
  unfold pull_file. rewrite (u32_id (download_max st - 12)) by lia.
  assert (E1 : (download_max st - 12 <? n) = false) by lia. rewrite E1.
  set (hdr := str "FILE" ++ hex 8 n).
  assert (Hh : zlen hdr = 12) by (unfold hdr; rewrite zlen_app, zlen_hex; reflexivity).
  rewrite take_ge by (unfold zlen in *; lia). unfold store at 1.
  assert (Hh0 : zlen (hdr ++ [0]) = 13) by (rewrite zlen_app, Hh; reflexivity). rewrite Hh0.
  assert (E2 : (0 + 13 <=? zlen (download_base st)) = true) by lia. rewrite E2. cbn [obind].
  set (b1 := Posix.put_bytes (download_base st) 0 (hdr ++ [0])).
  assert (Hb1 : zlen b1 = download_max st) by (unfold b1; rewrite put_length; lia).
  assert (Ht1 : take 12 b1 = hdr).
  { pose proof (take_put (download_base st) 0 (hdr ++ [0]) ltac:(lia)) as Ht. fold b1 in Ht. rewrite Hh0 in Ht.
    change (Z.to_nat (0 + 13)) with 13%nat in Ht.
    replace (take 12 b1) with (take 12 (take 13 b1)) by (rewrite take_take; reflexivity).
    rewrite Ht. change (take (Z.to_nat 0) (download_base st) ++ hdr ++ [0]) with (hdr ++ [0]).
    rewrite take_app_le by (unfold zlen in Hh; lia). apply take_ge. unfold zlen in Hh. lia. }
  cbn [set_base download_max]. unfold Posix.read. rewrite Hp, Hn.
  assert (E3 : (Posix.f_rlimit f 0 <? 0) = false) by lia. rewrite E3.
  rewrite (u32_id (download_max st - 12)) by lia.
  replace (Z.max 0 _) with n by lia. rewrite sub_bytes_all by (unfold Posix.f_size in Hn; lia).
  unfold store. cbn [set_base download_base].
  assert (E4 : (12 + zlen (Posix.f_data f) <=? zlen b1) = true) by (unfold Posix.f_size in Hn; lia).
  rewrite E4. cbn [obind]. rewrite Z.eqb_refl. cbn [negb]. rewrite (u32_id (12 + n)) by lia.
  set (b2 := Posix.put_bytes b1 12 (Posix.f_data f)).
  assert (Ht2 : take (Z.to_nat (12 + n)) b2 = hdr ++ Posix.f_data f).
  { unfold b2. rewrite <- Hn. unfold Posix.f_size. rewrite take_put by lia. change (Z.to_nat 12) with 12%nat. by rewrite Ht1. }
  assert (Hb2 : zlen b2 = download_max st).
  { unfold b2. rewrite put_length; [done|lia|]. unfold Posix.f_size in Hn. lia. }
  set (st2 := set_size _ _). assert (Hs2 : state st2 = STATE_COMMAND) by exact Hs.
  rewrite usb_write_full; [|by rewrite Hs2|exact Hw].
  change (download_base st2) with b2. change (download_size st2) with (12 + n). rewrite Ht2.
  assert (Hz : zlen (hdr ++ Posix.f_data f) = 12 + n) by (rewrite zlen_app, Hh; unfold Posix.f_size in Hn; lia).
  rewrite Hz, u32_id by lia. change (download_size (set_out st2 [] _)) with (12 + n). rewrite Z.eqb_refl. cbn [negb].
  set (st3 := set_out st2 [] _). exists st3.
  split; [split; [done|split; [exact Hb2|split; [exact Hmax|unfold st3; cbn; lia]]]|].
  split; [exact Hs|]. split; [done|]. split; [|done].
  unfold st3. cbn [set_out usb_out]. unfold hdr. by rewrite <- app_assoc.
Qed.

(** Pulling a file. When the file fits the buffer and the host confirms the size, the
    host gets FILE, the size in hexadecimal and the whole file in one packet,
    and [pull_file] returns 0. *)
Theorem pull_file_correct st f n tag rest :
  ready st -> state st = STATE_COMMAND -> Posix.f_pos f = 0 -> Posix.f_size f = n ->
  n <= Posix.f_rlimit f 0 -> 13 <= download_max st -> n <= download_max st - 12 ->
  usb_in st = Some (tag ++ hex 8 n) :: rest -> zlen tag = 4 ->
  exists st', pull_file st (Some f) (Some n) = Ok (st', 0) /\
    usb_out st' = usb_out st ++ [str "FILE" ++ hex 8 n ++ Posix.f_data f] /\ usb_in st' = rest.
Proof.
  intros Hr Hs Hp Hn Hlim Hm Hfit Hin Ht. pose proof Hr as (_ & _ & Hmax & _).
  destruct (pull_file_sends st f n Hr Hs Hp Hn Hlim Hm Hfit) as (st3 & Hr3 & Hs3 & Hi3 & Ho3 & ->).
  assert (Hz : zlen (tag ++ hex 8 n) = 12) by (rewrite zlen_app, zlen_hex, Ht; reflexivity).
  pose proof (zlen_nonneg (Posix.f_data f)). change (0 <= Posix.f_size f) in H.
  assert (Hrd : usb_read st3 64 = Ok (set_in st3 rest, 12, tag ++ hex 8 n)).
  { unfold usb_read. rewrite is_state_false by (by rewrite Hs3). cbn [usb_read_loop].
    change (0 <? 64) with true. change (4096 <? 64) with false. cbv iota. unfold dev_read. rewrite Hi3, Hin.
    rewrite take_ge by (unfold zlen in Hz; lia). rewrite Hz. reflexivity. }
  rewrite Hrd. cbn [obind]. change (u32 12 <? 12) with false. change (12 <? 0) with false. cbv iota.
  assert (Hsub : sub_bytes (tag ++ hex 8 n) 4 8 = hex 8 n).
  { rewrite <- (app_nil_r (hex 8 n)) at 1. apply sub_bytes_exact; [done|by rewrite zlen_hex]. }
  rewrite Hsub, c_string_hex, strtoul16_hex by lia. rewrite Z.eqb_refl. cbn [negb].
  exists (set_in st3 rest). split; [done|]. split; [exact Ho3|done].
Qed.

Definition pull_state (i : list (option (list Z))) : fb :=
  mk_fb STATE_COMMAND [] (replicate 32 0) 32 0 i [] [] [] [].

Lemma pull_file_correct_witness :
  exists st', pull_file (pull_state [Some (str "FILE" ++ hex 8 3)]) (Some (Posix.plain_file [1; 2; 3])) (Some 3) =
      Ok (st', 0) /\ usb_out st' = [] ++ [str "FILE" ++ hex 8 3 ++ [1; 2; 3]].
Proof.
  destruct (pull_file_correct (pull_state [Some (str "FILE" ++ hex 8 3)]) (Posix.plain_file [1; 2; 3]) 3 (str "FILE") [])
    as (st' & H1 & H2 & _).
  - split_and!; vm_compute; done.
  - done.
  - done.
  - done.
  - vm_compute. discriminate.
  - vm_compute. discriminate.
  - vm_compute. discriminate.
  - reflexivity.
  - reflexivity.
  - exists st'. split; [exact H1|exact H2].
Defined.

(** A failed read of the host's confirmation is not detected. [usb_read]
    returns -1, which the comparison with the unsigned [offset] takes for a
    large number, so that the uninitialised buffer is parsed. *)
Theorem pull_file_read_error st f n i :
  ready st -> state st = STATE_COMMAND -> Posix.f_pos f = 0 -> Posix.f_size f = n ->
  n <= Posix.f_rlimit f 0 -> 13 <= download_max st -> n <= download_max st - 12 ->
  usb_in st = None :: i -> pull_file st (Some f) (Some n) = Undef.
Proof.
  intros Hr Hs Hp Hn Hlim Hm Hfit Hin.
  destruct (pull_file_sends st f n Hr Hs Hp Hn Hlim Hm Hfit) as (st3 & Hr3 & Hs3 & Hi3 & Ho3 & ->).
  unfold usb_read. rewrite is_state_false by (by rewrite Hs3). cbn [usb_read_loop].
  change (0 <? 64) with true. change (4096 <? 64) with false. cbv iota. unfold dev_read. rewrite Hi3, Hin. reflexivity.
Qed.

Lemma pull_file_read_error_witness :
  pull_file (pull_state [None]) (Some (Posix.plain_file [1; 2; 3])) (Some 3) = Undef.
Proof.
  apply (pull_file_read_error (pull_state [None]) (Posix.plain_file [1; 2; 3]) 3 []);
    [split_and!; vm_compute; done|done|done|done|vm_compute; discriminate..|reflexivity].
Defined.

End Fastboot.
