(* ===== verification/StreamFlash.v ===== *)
(** * src/buffer.c and the two threads of streaming flash (src/aboot.c)

    While an image arrives over USB, the main thread (the writer) fills two
    buffers and a second thread (the reader) writes them to a pipe. Each buffer
    has a mutex. The model is a step relation on the shared state: one step is a
    test of the loop, taking a mutex, the body of a critical section, releasing a
    mutex, or an access to a flag that no mutex guards. A critical section is one
    step because the fields of a buffer are only used by the owner of its mutex.
    The writer reads the device through the server of [Fastboot]. The progress bar
    (a floating-point percentage) is not modelled. *)

From S2P Require Import Prelude Posix Fastboot.

Module StreamFlash.
Import Fastboot.

Inductive thread : Set := Writer | Reader.

(** [b_data] are the bytes that were stored in the memory of the buffer. *)
Record buffer := mk_buffer {
  b_data : list Z;
  b_size : Z;
  b_len : Z;
  b_mutex : option thread
}.

(** A pointer to a buffer. *)
Inductive slot : Type := Null | Freed | Live (b : buffer).

(** Freeing twice is undefined. *)
Definition buffer_free (s : slot) : outcome slot :=
  match s with
  | Null => Ok Null
  | Freed => Undef
  | Live _ => Ok Freed
  end.

(** The three results are those of the two allocations and of initialising the
    mutex. When the second or third one fails, [buffer_free] destroys a mutex
    that was never initialised. *)
Definition buffer_init (size : Z) (al : bool * bool * bool) : outcome slot :=
  let '(mem, mem_data, mutex) := al in
  if size <=? 0 then Ok Null
  else if negb mem then Ok Null
  else if negb mem_data then Undef
  else if negb mutex then Undef
  else Ok (Live (mk_buffer [] size 0 None)).

Definition SIZE : Z := 4096 * 1024.
Definition NR_BUFFER : nat := 2.

Definition next_buf (i : nat) : nat := (S i mod NR_BUFFER)%nat.

(** [while(i) buffer_free(buf[--i])]: the pointers stay in the array. *)
Fixpoint free_below (i : nat) (buf : list slot) : outcome (list slot) :=
  match i with
  | O => Ok buf
  | S i' =>
    let! s := oof (buf !! i') in
    let! s := buffer_free s in
    free_below i' (<[i' := s]> buf)
  end.

(** The loop that creates [n] more buffers from index [i] on; the flag says
    whether all are there. *)
Fixpoint create_buffers (n i : nat) (al : nat -> bool * bool * bool) (buf : list slot)
  : outcome (list slot * bool) :=
  match n with
  | O => Ok (buf, true)
  | S n' =>
    let! s := buffer_init SIZE (al i) in
    match s with
    | Live _ => create_buffers n' (S i) al (<[i := s]> buf)
    | _ => let! buf := free_below i (<[i := s]> buf) in Ok (buf, false)
    end
  end.

(** The loop at the end of [cmd_stream_flash]. *)
Fixpoint free_buffers (buf : list slot) : outcome (list slot) :=
  match buf with
  | [] => Ok []
  | s :: buf' =>
    let! _ := buffer_free s in
    let! buf' := free_buffers buf' in
    Ok (Null :: buf')
  end.

(** What a critical section found or did. *)
Inductive w_found : Set := WSkipped | WFilled | WFailed.
Inductive r_found : Set := REmpty | RWrote | RShort.

(** The writer: the loop test, before the lock, in the critical section, before
    the unlock, behind the loop, the loop that empties the device when the pipe
    is broken, [pthread_join], and the end, with the reason of a failure. *)
Inductive fail_reason : Set := DownloadFailed | BrokenPipe | JoinFailed | WriteFailed.
Inductive w_point : Set :=
  | WTest | WLock | WBody | WUnlock (f : w_found) | WAfter | WDrain | WJoin
  | WSuccess | WError (why : fail_reason).

(** The reader: its start, the loop test, before the lock, in the critical
    section, before the unlock, the test of [writer_finished], [pclose], and the
    end, with the exit code. *)
Inductive r_point : Set :=
  | RStart | RTest | RLock | RBody | RUnlock (f : r_found) | RFlag | RClose | RExit (code : Z).

#[export] Instance w_found_eq_dec : EqDecision w_found. Proof. solve_decision. Defined.
#[export] Instance r_found_eq_dec : EqDecision r_found. Proof. solve_decision. Defined.
#[export] Instance fail_reason_eq_dec : EqDecision fail_reason. Proof. solve_decision. Defined.
#[export] Instance w_point_eq_dec : EqDecision w_point. Proof. solve_decision. Defined.
#[export] Instance r_point_eq_dec : EqDecision r_point. Proof. solve_decision. Defined.

(** The server, the length of the image, the shared variables, the local
    variables of the writer ([i], [size], [finished]) and of the reader ([i],
    [empty_counter]), and the data of the reader's [fwrite] calls. *)
Record stream := mk_stream {
  server : fb;
  total : Z;
  buf : list slot;
  writer_finished : bool;
  pipe_broken : bool;
  w_at : w_point;
  w_i : nat;
  w_size : Z;
  finished : Z;
  r_at : r_point;
  r_i : nat;
  empty_counter : nat;
  fout : list (list Z)
}.

Definition set_w (st : stream) (p : w_point) (i : nat) (size fin : Z) : stream :=
  mk_stream (server st) (total st) (buf st) (writer_finished st) (pipe_broken st)
    p i size fin (r_at st) (r_i st) (empty_counter st) (fout st).

Definition set_r (st : stream) (p : r_point) (i n : nat) : stream :=
  mk_stream (server st) (total st) (buf st) (writer_finished st) (pipe_broken st)
    (w_at st) (w_i st) (w_size st) (finished st) p i n (fout st).

Definition w_goto (st : stream) (p : w_point) : stream :=
  set_w st p (w_i st) (w_size st) (finished st).

Definition r_goto (st : stream) (p : r_point) : stream := set_r st p (r_i st) (empty_counter st).

Definition set_buf (st : stream) (i : nat) (b : buffer) : stream :=
  mk_stream (server st) (total st) (<[i := Live b]> (buf st)) (writer_finished st) (pipe_broken st)
    (w_at st) (w_i st) (w_size st) (finished st) (r_at st) (r_i st) (empty_counter st) (fout st).

Definition set_server (st : stream) (s : fb) : stream :=
  mk_stream s (total st) (buf st) (writer_finished st) (pipe_broken st)
    (w_at st) (w_i st) (w_size st) (finished st) (r_at st) (r_i st) (empty_counter st) (fout st).

Definition set_flags (st : stream) (fin broken : bool) : stream :=
  mk_stream (server st) (total st) (buf st) fin broken
    (w_at st) (w_i st) (w_size st) (finished st) (r_at st) (r_i st) (empty_counter st) (fout st).

Definition add_out (st : stream) (d : list Z) : stream :=
  mk_stream (server st) (total st) (buf st) (writer_finished st) (pipe_broken st)
    (w_at st) (w_i st) (w_size st) (finished st) (r_at st) (r_i st) (empty_counter st) (fout st ++ [d]).

(** [buf[i]->...]: undefined when the pointer is null or dangling. *)
Definition deref (st : stream) (i : nat) : outcome buffer :=
  match buf st !! i with Some (Live b) => Ok b | _ => Undef end.

Definition set_mutex (b : buffer) (o : option thread) : buffer :=
  mk_buffer (b_data b) (b_size b) (b_len b) o.

(** The buffer after a download has stored [bs] at the start of its memory. *)
Definition set_data (b : buffer) (bs : list Z) : buffer :=
  mk_buffer (Posix.put_bytes (b_data b) 0 bs) (b_size b) (b_len b) (b_mutex b).

Definition set_len (b : buffer) (n : Z) : buffer :=
  mk_buffer (b_data b) (b_size b) n (b_mutex b).

(** [size] for the next download. *)
Definition clip_size (st : stream) : Z :=
  if total st <? u32 (finished st + w_size st) then u32 (total st - finished st) else w_size st.

(** A step of the writer; [Ok None] when it has to wait. *)
Definition w_step (st : stream) : outcome (option stream) :=
  let i := w_i st in
  match w_at st with
  | WTest =>
    Ok (Some (w_goto st (if (finished st <? total st) && negb (pipe_broken st) then WLock else WAfter)))
  | WLock =>
    let! b := deref st i in
    match b_mutex b with
    | Some _ => Ok None
    | None => Ok (Some (w_goto (set_buf st i (set_mutex b (Some Writer))) WBody))
    end
  | WBody =>
    let! b := deref st i in
    if negb (b_len b =? 0) then Ok (Some (w_goto st (WUnlock WSkipped)))
    else
      let size := clip_size st in
      let! (s, r, bs) := streaming_download (server st) size false in
      let st := set_buf (set_server st s) i (set_data b bs) in
      if negb (r =? 0) then Ok (Some (set_w st (WUnlock WFailed) i size (finished st)))
      else
        let st := set_buf st i (set_len (set_data b bs) size) in
        Ok (Some (set_w st (WUnlock WFilled) i size (finished st)))
  | WUnlock f =>
    let! b := deref st i in
    let st := set_buf st i (set_mutex b None) in
    Ok (Some match f with
             | WSkipped => set_w st WTest (next_buf i) (w_size st) (finished st)
             | WFilled => set_w st WTest (next_buf i) (w_size st) (u32 (finished st + w_size st))
             | WFailed => w_goto st (WError DownloadFailed)
             end)
  | WAfter =>
    Ok (Some (if pipe_broken st then w_goto st WDrain
              else w_goto (set_flags st true (pipe_broken st)) WJoin))
  | WDrain =>
    if finished st <? total st then
      let size := clip_size st in
      let! b := deref st i in
      let! (s, r, bs) := streaming_download (server st) size false in
      let st := set_buf (set_server st s) i (set_data b bs) in
      if negb (r =? 0) then Ok (Some (set_w st (WError BrokenPipe) i size (finished st)))
      else Ok (Some (set_w st WDrain i size (u32 (finished st + size))))
    else Ok (Some (w_goto st (WError BrokenPipe)))
  | WJoin =>
    match r_at st with
    | RExit code =>
      Ok (Some (w_goto st (if negb (finished st =? total st) || negb (code =? 0)
                           then WError WriteFailed else WSuccess)))
    | _ => Ok None
    end
  | WSuccess | WError _ => Ok None
  end.

(** A step of the reader. [os] is what the system answers when the step calls
    it: the most bytes [fwrite] takes, the status of [pclose]. The stream is a
    pipe, so that [pclose] is called. *)
Definition r_step (os : Z) (st : stream) : outcome (option stream) :=
  let i := r_i st in
  match r_at st with
  | RStart => Ok (Some (r_goto st RTest))
  | RTest =>
    Ok (Some (r_goto st (if (empty_counter st <? NR_BUFFER)%nat && negb (pipe_broken st)
                         then RLock else RClose)))
  | RLock =>
    let! b := deref st i in
    match b_mutex b with
    | Some _ => Ok None
    | None => Ok (Some (r_goto (set_buf st i (set_mutex b (Some Reader))) RBody))
    end
  | RBody =>
    let! b := deref st i in
    if b_len b =? 0 then Ok (Some (r_goto st (RUnlock REmpty)))
    else
      let d := take (Z.to_nat (b_len b)) (b_data b) in
      if os <? b_len b then Ok (Some (r_goto (add_out st (take (Z.to_nat os) d)) (RUnlock RShort)))
      else Ok (Some (r_goto (set_buf (add_out st d) i (set_len b 0)) (RUnlock RWrote)))
  | RUnlock f =>
    let! b := deref st i in
    let st := set_buf st i (set_mutex b None) in
    Ok (Some match f with
             | REmpty => r_goto st RFlag
             | RWrote => set_r st RTest (next_buf i) (empty_counter st)
             | RShort => r_goto st (RExit (-1))
             end)
  | RFlag =>
    let n := if writer_finished st then S (empty_counter st) else empty_counter st in
    Ok (Some (set_r st RTest (next_buf i) n))
  | RClose => Ok (Some (r_goto st (RExit (if os =? 0 then 0 else -1))))
  | RExit _ => Ok None
  end.

(** What happens next: a thread runs, the signal thread sees SIGPIPE, or [pthread_join] fails. *)
Inductive label : Type := LW | LR (os : Z) | LSigpipe | LJoinFails.

Definition step_by (l : label) (st : stream) : outcome (option stream) :=
  match l with
  | LW => w_step st
  | LR os => r_step os st
  | LSigpipe => Ok (Some (set_flags st (writer_finished st) true))
  | LJoinFails => match w_at st with WJoin => Ok (Some (w_goto st (WError JoinFailed))) | _ => Ok None end
  end.

Inductive step : stream -> stream -> Prop :=
  | step_intro l st st' : step_by l st = Ok (Some st') -> step st st'.

(** A schedule: labels of threads that cannot move are passed over. *)
Fixpoint run (ls : list label) (st : stream) : outcome stream :=
  match ls with
  | [] => Ok st
  | l :: ls' =>
    let! o := step_by l st in
    run ls' (default st o)
  end.

(** The state behind the cleanup of [cmd_stream_flash]. *)
Definition with_buf (st : stream) (l : list slot) : stream :=
  mk_stream (server st) (total st) l (writer_finished st) (pipe_broken st) (w_at st) (w_i st) (w_size st)
    (finished st) (r_at st) (r_i st) (empty_counter st) (fout st).

(** The state in which the reader is created: the first buffer holds the first
    [size] bytes. *)
Definition init_size (len : Z) : Z := if SIZE <? len then SIZE else len.

Definition first_state (s : fb) (len : Z) (bs : list Z) : stream :=
  let size := init_size len in
  mk_stream s len
    [Live (set_len (set_data (mk_buffer [] SIZE 0 None) bs) size); Live (mk_buffer [] SIZE 0 None)]
    false false WTest 1 size size RStart 0 0 [].

(** ** The pieces of the image *)

Lemma SIZE_val : SIZE = 4194304.
Proof. done. Qed.

#[local] Opaque SIZE.

Definition piece (b : slot) : list (list Z) :=
  match b with
  | Live b => if b_len b =? 0 then [] else [take (Z.to_nat (b_len b)) (b_data b)]
  | _ => []
  end.

(** What was downloaded: in front of the last unlock the counter lags behind. *)
Definition downloaded (st : stream) : Z :=
  match w_at st with
  | WUnlock WFilled => finished st + w_size st
  | _ => finished st
  end.

(** No call has failed so far. *)
Definition w_fine (p : w_point) : Prop :=
  match p with WUnlock WFailed | WDrain | WError _ => False | _ => True end.
Definition r_fine (p : r_point) : Prop :=
  match p with RUnlock RShort => False | RExit c => c = 0 | _ => True end.

(** Computes the fields of an updated state. *)
Ltac fields :=
  cbn [server total buf writer_finished pipe_broken w_at w_i w_size finished r_at r_i empty_counter fout
       set_w set_r w_goto r_goto set_buf set_server set_flags add_out downloaded w_fine r_fine] in *.

Section Transfer.
Context (image : list Z) (rest : list (option (list Z))).
Hypothesis Himage : 0 < zlen image < 2 ^ 31.

(** The packets the host sends for the bytes of [d]. *)
Definition packets (d : list Z) : list (option (list Z)) :=
  match d with [] => rest | _ => map Some (chunks 4096 d) ++ rest end.

Definition from (n : Z) : list Z := drop (Z.to_nat n) image.
Definition upto (n : Z) : list Z := take (Z.to_nat n) image.

Lemma zlen_from n : 0 <= n <= zlen image -> zlen (from n) = zlen image - n.
Proof. intros. unfold from, zlen in *. rewrite length_drop. lia. Qed.

Lemma zlen_upto n : 0 <= n <= zlen image -> zlen (upto n) = n.
Proof. intros. unfold upto, zlen in *. rewrite length_take. lia. Qed.

Lemma from_split D n : 0 <= D -> 0 <= n -> D + n <= zlen image ->
  from D = sub_bytes image D n ++ from (D + n).
Proof.
  intros. unfold from, sub_bytes. rewrite Z2Nat.inj_add by lia. rewrite <- drop_drop.
  by rewrite take_drop.
Qed.

Lemma upto_split D n : 0 <= D -> 0 <= n -> D + n <= zlen image ->
  upto (D + n) = upto D ++ sub_bytes image D n.
Proof. intros. unfold upto, sub_bytes. rewrite Z2Nat.inj_add by lia. symmetry. apply take_take_drop. Qed.

Lemma packets_split D n : 0 <= D -> 0 < n -> D + n <= zlen image ->
  n mod 4096 = 0 \/ D + n = zlen image ->
  packets (from D) = map Some (chunks 4096 (sub_bytes image D n)) ++ packets (from (D + n)).
Proof.
  intros HD Hn Hle Hm.
  pose proof (zlen_sub image D n HD ltac:(lia) Hle) as Hz.
  pose proof (zlen_from (D + n) ltac:(lia)) as Hf.
  rewrite (from_split D n) by lia.
  destruct (from (D + n)) as [|x l] eqn:E.
  - rewrite app_nil_r. destruct (sub_bytes image D n); [rewrite zlen_nil in Hz; lia|done].
  - destruct Hm as [Hm|Hm]; [|rewrite zlen_cons in Hf; pose proof (zlen_nonneg l); lia].
    destruct (sub_bytes image D n) as [|y k] eqn:Es; [rewrite zlen_nil in Hz; lia|].
    cbn [packets app]. change (y :: k ++ x :: l) with ((y :: k) ++ x :: l).
    rewrite chunks_app; [|lia|rewrite zlen_cons; pose proof (zlen_nonneg l); lia|by rewrite Hz|lia].
    by rewrite map_app, <- app_assoc.
Qed.

Lemma download_piece s D n : 0 <= D -> 0 < n -> D + n <= zlen image ->
  n mod 4096 = 0 \/ D + n = zlen image ->
  state s <> STATE_ERROR -> usb_in s = packets (from D) ->
  streaming_download s n false = Ok (set_in s (packets (from (D + n))), 0, sub_bytes image D n).
Proof.
  intros HD Hn Hle Hm Hs Hin. unfold streaming_download.
  pose proof (zlen_sub image D n HD ltac:(lia) Hle) as Hz.
  rewrite (packets_split D n) in Hin by done.
  rewrite <- Hz at 1. rewrite (usb_read_chunks s (sub_bytes image D n) _ Hs ltac:(lia) Hin). cbn [obind].
  by rewrite Hz, u32_id, Z.eqb_refl by lia.
Qed.

Lemma chunks_next D n : 0 < D -> D mod SIZE = 0 -> 0 < n <= SIZE -> D + n <= zlen image ->
  chunks SIZE (upto (D + n)) = chunks SIZE (upto D) ++ [sub_bytes image D n].
Proof.
  intros HD Hm Hn Hle. pose proof SIZE_val.
  pose proof (zlen_sub image D n ltac:(lia) ltac:(lia) Hle) as Hz.
  pose proof (zlen_upto D ltac:(lia)) as Hu.
  rewrite upto_split by lia. rewrite chunks_app; [|lia|lia|by rewrite Hu|lia]. f_equal.
  rewrite chunks_unfold by lia. assert (E : (zlen (sub_bytes image D n) <=? SIZE) = true) by lia. by rewrite E.
Qed.

(** ** The invariant of the transfer *)

Definition live (st : stream) : Prop := exists b0 b1, buf st = [Live b0; Live b1].

(** What holds also when calls fail. *)
Record bounds (st : stream) : Prop := {
  f_live : live st;
  f_index : (w_i st < 2)%nat /\ (r_i st < 2)%nat;
  f_total : total st = zlen image;
  f_size : 0 < w_size st <= SIZE;
  f_range : 0 < finished st /\ downloaded st <= zlen image;
  f_loop : match w_at st with
           | WLock | WBody | WUnlock WSkipped => finished st < zlen image
           | WAfter => finished st = zlen image \/ pipe_broken st = true
           | WJoin | WSuccess => finished st = zlen image
           | _ => True
           end
}.

(** What holds as long as no call has failed. *)
Record facts (st : stream) : Prop := {
  f_more : downloaded st < zlen image -> w_size st = SIZE /\ downloaded st mod SIZE = 0;
  f_device : usb_in (server st) = packets (from (downloaded st)) /\ state (server st) = STATE_COMMAND;
  f_perm : fout st ++ concat (map piece (buf st)) ≡ₚ chunks SIZE (upto (downloaded st))
}.

Definition inv (st : stream) : Prop :=
  bounds st /\ (w_fine (w_at st) -> r_fine (r_at st) -> facts st).

Lemma live_deref st i : live st -> (i < 2)%nat ->
  exists b, deref st i = Ok b /\ buf st !! i = Some (Live b).
Proof.
  intros (b0 & b1 & Hb) Hi. unfold deref. rewrite Hb. destruct i as [|[|i]]; [by exists b0|by exists b1|lia].
Qed.

Lemma live_set st i b : live st -> (i < 2)%nat -> live (set_buf st i b).
Proof.
  intros (b0 & b1 & Hb) Hi. unfold live. cbn [buf set_buf]. rewrite Hb.
  destruct i as [|[|i]]; [by exists b, b1|by exists b0, b|lia].
Qed.

Lemma next_lt i : (next_buf i < 2)%nat.
Proof. unfold next_buf, NR_BUFFER. apply Nat.mod_upper_bound. lia. Qed.

Lemma pieces_insert bufs i b b' : bufs !! i = Some b ->
  piece b ++ concat (map piece (<[i := b']> bufs)) ≡ₚ piece b' ++ concat (map piece bufs).
Proof.
  revert i. induction bufs as [|x bufs IH]; intros [|i] Hi; simpl in *; try done.
  - injection Hi as ->. rewrite !app_assoc. apply Permutation_app_tail, Permutation_app_comm.
  - rewrite !app_assoc, (Permutation_app_comm (piece b)), (Permutation_app_comm (piece b')), <- !app_assoc.
    by apply Permutation_app_head, IH.
Qed.

Lemma pieces_same bufs i b b' : bufs !! i = Some b -> piece b' = piece b ->
  concat (map piece (<[i := b']> bufs)) = concat (map piece bufs).
Proof.
  revert i. induction bufs as [|x bufs IH]; intros [|i] Hi Hp; simpl in *; try done.
  - injection Hi as ->. by rewrite Hp.
  - by rewrite IH.
Qed.

Lemma clip_bounds st : bounds st -> finished st < zlen image ->
  0 < clip_size st <= SIZE /\ finished st + clip_size st <= zlen image /\
  (w_size st = SIZE -> clip_size st = SIZE \/ finished st + clip_size st = zlen image).
Proof.
  intros [_ _ Ht Hs [Hf _] _] Hlt. unfold clip_size. pose proof SIZE_val. rewrite Ht.
  rewrite (u32_id (finished st + w_size st)) by lia.
  destruct (Z.ltb_spec (zlen image) (finished st + w_size st)); rewrite ?u32_id by lia; lia.
Qed.

Lemma download_total s n : 0 <= n < 2 ^ 31 -> exists s' r bs, streaming_download s n false = Ok (s', r, bs).
Proof.
  intros Hn. destruct (usb_read_total s n Hn) as (s' & r & bs & Hr & _). unfold streaming_download.
  rewrite Hr. cbn [obind]. eauto.
Qed.

Lemma take_put0 (l bs : list Z) n : n = zlen bs -> take (Z.to_nat n) (Posix.put_bytes l 0 bs) = bs.
Proof. intros ->. unfold Posix.put_bytes, zlen. rewrite Nat2Z.id. simpl. apply take_app_length. Qed.

Lemma piece_mutex b o : piece (Live (set_mutex b o)) = piece (Live b).
Proof. done. Qed.

(** Taking and releasing a mutex changes no data. *)
Lemma mutex_facts st i b o : buf st !! i = Some (Live b) -> facts st -> facts (set_buf st i (set_mutex b o)).
Proof.
  intros Hb [H1 H2 H3]. split; [exact H1|exact H2|]. fields.
  by rewrite (pieces_same _ _ (Live b)) by (exact Hb || apply piece_mutex).
Qed.

Lemma fill_facts st b s bs :
  bounds st -> facts st -> w_at st = WBody -> buf st !! w_i st = Some (Live b) -> b_len b = 0 ->
  streaming_download (server st) (clip_size st) false = Ok (s, 0, bs) ->
  facts (set_w (set_buf (set_buf (set_server st s) (w_i st) (set_data b bs)) (w_i st)
    (set_len (set_data b bs) (clip_size st))) (WUnlock WFilled) (w_i st) (clip_size st) (finished st)).
Proof.
  intros Hbd [H1 [H2 H3] H4] Hat Hb Hl Hd. pose proof SIZE_val.
  pose proof (f_loop _ Hbd) as Hlt. pose proof (f_range _ Hbd) as [Hpos _]. rewrite Hat in Hlt.
  destruct (clip_bounds st Hbd Hlt) as (Hc & Hle & Hlast).
  unfold downloaded in *. rewrite Hat in *. destruct (H1 Hlt) as [Hsz Hm]. specialize (Hlast Hsz).
  set (n := clip_size st) in *.
  rewrite (download_piece (server st) (finished st) n) in Hd; [|lia|lia|lia| |by rewrite H3|done].
  2: { destruct Hlast as [->| ->]; [left; by rewrite SIZE_val|by right]. }
  injection Hd as <- <-. split; fields.
  - intros Hlt'. destruct Hlast as [E|E]; [|lia]. rewrite E. split; [done|].
    rewrite <- (Z.add_0_r SIZE) at 1. rewrite <- Z.add_mod_idemp_l, Hm by lia.
    by rewrite Z.add_0_l, Z.add_0_r, Z.mod_same by lia.
  - done.
  - rewrite list_insert_insert_eq, chunks_next by lia. rewrite <- H4.
    pose proof (pieces_insert _ _ _ (Live (set_len (set_data b (sub_bytes image (finished st) n)) n)) Hb) as Hp.
    cbn [piece b_len b_data set_len set_data] in Hp. rewrite Hl in Hp. cbn [Z.eqb] in Hp.
    assert (E : (n =? 0) = false) by lia. rewrite E in Hp. rewrite take_put0 in Hp by (rewrite zlen_sub; lia).
    rewrite Hp, <- app_assoc. apply Permutation_app_head, Permutation_app_comm.
Qed.

(** Control moves without touching data. *)
Lemma facts_ext st st' : downloaded st' = downloaded st -> w_size st' = w_size st ->
  server st' = server st -> fout st' = fout st -> buf st' = buf st -> facts st -> facts st'.
Proof. intros E1 E2 E3 E4 E5 [F1 F2 F3]. split; rewrite ?E1, ?E2, ?E3, ?E4, ?E5; done. Qed.

(** A thread keeps the invariant: it never finds a buffer gone, and where it
    goes the invariant holds. *)
Definition keeps (o : outcome (option stream)) : Prop :=
  exists o', o = Ok o' /\ forall st', o' = Some st' -> inv st'.

Lemma keeps_move st' :
  bounds st' -> (w_fine (w_at st') -> r_fine (r_at st') -> facts st') -> keeps (Ok (Some st')).
Proof. intros Hb Hf. exists (Some st'). split; [done|]. by intros ? [= <-]. Qed.

Lemma keeps_wait : keeps (Ok None).
Proof. by exists None. Qed.

(** Closes the facts after a move of control. *)
Ltac moved Hat := intros ? ?; eapply facts_ext; [..|eauto]; unfold downloaded; fields; by rewrite ?Hat.

Lemma w_body_inv st : inv st -> w_at st = WBody -> keeps (w_step st).
Proof.
  intros [Hbd Hfa] Hat. pose proof Hbd as [Hlive [Hwi Hri] Htot Hsz [Hpos Hdl] Hloop].
  destruct (live_deref st (w_i st) Hlive Hwi) as (b & Hde & Hb). pose proof SIZE_val.
  unfold w_step. unfold downloaded in Hdl. rewrite Hat in *. rewrite Hde. cbn [obind].
  destruct (Z.eqb_spec (b_len b) 0) as [Hz|Hz]; cbn [negb].
  2: { apply keeps_move; [by split; fields|moved Hat]. }
  destruct (clip_bounds st Hbd Hloop) as (Hc & Hle & _).
  destruct (download_total (server st) (clip_size st) ltac:(lia)) as (s & r & bs & Hd). rewrite Hd. cbn [obind].
  destruct (Z.eqb_spec r 0) as [->|Hr0]; cbn [negb]; apply keeps_move.
  - split; fields; auto; try lia. apply live_set; [|done]. by apply live_set.
  - intros _ Hr. apply (fill_facts st b s bs); auto. by apply Hfa.
  - split; fields; auto; try lia. by apply live_set.
  - done.
Qed.

Lemma w_drain_inv st : inv st -> w_at st = WDrain -> keeps (w_step st).
Proof.
  intros [Hbd Hfa] Hat. pose proof Hbd as [Hlive [Hwi Hri] Htot Hsz [Hpos Hdl] Hloop].
  destruct (live_deref st (w_i st) Hlive Hwi) as (b & Hde & Hb). pose proof SIZE_val.
  unfold w_step. unfold downloaded in Hdl. rewrite Hat in *. rewrite Htot.
  destruct (Z.ltb_spec (finished st) (zlen image)) as [Hlt|Hge]; [|by apply keeps_move; [split; fields|]].
  destruct (clip_bounds st Hbd Hlt) as (Hc & Hle & _). rewrite Hde. cbn [obind].
  destruct (download_total (server st) (clip_size st) ltac:(lia)) as (s & r & bs & Hd). rewrite Hd. cbn [obind].
  destruct (Z.eqb_spec r 0) as [->|Hr0]; cbn [negb]; apply keeps_move; try done;
    split; fields; rewrite ?u32_id by lia; auto; try lia; by apply live_set.
Qed.

Lemma w_unlock_inv st f : inv st -> w_at st = WUnlock f -> keeps (w_step st).
Proof.
  intros [Hbd Hfa] Hat. pose proof Hbd as [Hlive [Hwi Hri] Htot Hsz [Hpos Hdl] Hloop].
  destruct (live_deref st (w_i st) Hlive Hwi) as (b & Hde & Hb). pose proof SIZE_val.
  unfold w_step. unfold downloaded in Hdl. rewrite Hat in *. rewrite Hde. cbn [obind].
  apply keeps_move.
  - destruct f; split; fields; rewrite ?u32_id by lia; auto using next_lt; try lia; by apply live_set.
  - intros Hw Hr. destruct f; [| |done];
      (eapply facts_ext; [..|apply (mutex_facts st (w_i st) b None Hb); by apply Hfa]);
      unfold downloaded; fields; rewrite ?Hat, ?u32_id by lia; done.
Qed.

(** The writer keeps the invariant. *)
Lemma w_step_inv st : inv st -> keeps (w_step st).
Proof.
  intros Hinv. pose proof Hinv as [Hbd Hfa]. pose proof Hbd as [Hlive [Hwi Hri] Htot Hsz [Hpos Hdl] Hloop].
  destruct (live_deref st (w_i st) Hlive Hwi) as (b & Hde & Hb).
  unfold downloaded in Hdl. destruct (w_at st) as [| | |f| | | | |] eqn:Hat.
  - unfold w_step. rewrite Hat. apply keeps_move.
    + destruct (Z.ltb_spec (finished st) (total st)) as [Hlt|Hge]; cbn [andb].
      * destruct (pipe_broken st) eqn:Hp; cbn [negb]; split; fields; auto; lia.
      * split; fields; auto. left. lia.
    + destruct (_ && _); moved Hat.
  - unfold w_step. rewrite Hat, Hde. cbn [obind]. destruct (b_mutex b); [apply keeps_wait|]. apply keeps_move.
    + split; fields; auto. by apply live_set.
    + intros _ Hr. eapply facts_ext; [..|apply (mutex_facts st (w_i st) b (Some Writer) Hb); by apply Hfa];
        unfold downloaded; fields; by rewrite ?Hat.
  - by apply w_body_inv.
  - by eapply w_unlock_inv.
  - unfold w_step. rewrite Hat. apply keeps_move; destruct (pipe_broken st) eqn:Hp.
    + split; fields; auto.
    + split; fields; auto. by destruct Hloop.
    + done.
    + moved Hat.
  - by apply w_drain_inv.
  - unfold w_step. rewrite Hat. destruct (r_at st) eqn:Hrat; try apply keeps_wait.
    apply keeps_move; destruct (_ || _); fields; try done; try (by split; fields).
    rewrite Hrat. moved Hat.
  - unfold w_step. rewrite Hat. apply keeps_wait.
  - unfold w_step. rewrite Hat. apply keeps_wait.
Qed.

(** The reader moves a piece from its buffer to the pipe. *)
Lemma write_facts st i b : facts st -> buf st !! i = Some (Live b) -> b_len b <> 0 ->
  facts (set_buf (add_out st (take (Z.to_nat (b_len b)) (b_data b))) i (set_len b 0)).
Proof.
  intros [F1 F2 F3] Hb Hl. split; [exact F1|exact F2|]. fields. rewrite <- F3, <- app_assoc.
  apply Permutation_app_head. pose proof (pieces_insert _ _ _ (Live (set_len b 0)) Hb) as Hp.
  cbn [piece b_len set_len] in Hp. change (0 =? 0) with true in Hp.
  assert (E : (b_len b =? 0) = false) by lia. rewrite E in Hp. exact Hp.
Qed.

Lemma r_step_inv os st : inv st -> keeps (r_step os st).
Proof.
  intros [Hbd Hfa]. pose proof Hbd as [Hlive [Hwi Hri] Htot Hsz Hrange Hloop].
  destruct (live_deref st (r_i st) Hlive Hri) as (b & Hde & Hb).
  unfold r_step. destruct (r_at st) as [| | | |f| | |] eqn:Hat; cbv zeta; try rewrite Hde; cbn [obind].
  - apply keeps_move; [by split; fields|moved Hat].
  - apply keeps_move; [destruct (_ && _); by split; fields|destruct (_ && _); moved Hat].
  - destruct (b_mutex b); [apply keeps_wait|]. apply keeps_move; [split; fields; auto; by apply live_set|].
    intros Hw _. eapply facts_ext; [..|apply (mutex_facts st _ b (Some Reader) Hb); by apply Hfa]; done.
  - destruct (Z.eqb_spec (b_len b) 0) as [Hz|Hz].
    { apply keeps_move; [by split; fields|moved Hat]. }
    destruct (os <? b_len b); apply keeps_move; [by split; fields|done|split; fields; auto; by apply live_set|].
    intros Hw _. eapply facts_ext; [..|apply (write_facts st (r_i st) b); [by apply Hfa|exact Hb|done]]; done.
  - apply keeps_move; [destruct f; split; fields; auto using next_lt; by apply live_set|].
    intros Hw Hr. assert (Hm : facts (set_buf st (r_i st) (set_mutex b None)))
      by (apply mutex_facts; [done|]; apply Hfa; [by destruct f|by destruct f]).
    destruct f; [| |done]; (eapply facts_ext; [..|exact Hm]; done).
  - apply keeps_move; [by split; fields; auto using next_lt|moved Hat].
  - apply keeps_move; [by split; fields|]. destruct (os =? 0); [|done]. intros Hw _. eapply facts_ext; [..|by apply Hfa]; done.
  - apply keeps_wait.
Qed.

Lemma step_inv l st : inv st -> keeps (step_by l st).
Proof.
  intros Hi. destruct l as [|os| |]; [by apply w_step_inv|by apply r_step_inv|..].
  - destruct Hi as [[] Hfa]. apply keeps_move; [|intros Hw Hr; eapply facts_ext; [..|by apply Hfa]; done].
    split; fields; auto. destruct (w_at st); try done. by right.
  - cbn [step_by]. destruct (w_at st) eqn:Hat; try apply keeps_wait. destruct Hi as [[] Hfa]. apply keeps_move; [|done].
    split; fields; auto. unfold downloaded in *. by rewrite Hat in *.
Qed.

Lemma first_inv s bs :
  usb_in s = packets (from (init_size (zlen image))) -> state s = STATE_COMMAND ->
  bs = upto (init_size (zlen image)) -> inv (first_state s (zlen image) bs).
Proof.
  intros Hin Hs ->. pose proof SIZE_val. set (n := init_size (zlen image)) in *.
  assert (Hn : 0 < n <= SIZE /\ n <= zlen image /\ (n < zlen image -> n = SIZE))
    by (unfold n, init_size; destruct (Z.ltb_spec SIZE (zlen image)); lia).
  split.
  - unfold first_state. fold n. split; fields; auto; [by eexists _, _|lia|lia].
  - intros _ _. unfold first_state. fold n. split; fields.
    + intros Hlt. destruct Hn as (_ & _ & Hn). rewrite Hn by done. split; [done|]. by apply Z.mod_same; lia.
    + done.
    + cbn [map piece b_len b_data set_len set_data concat app]. change (0 =? 0) with true.
      assert (E : (n =? 0) = false) by lia. rewrite E, app_nil_r.
      rewrite take_put0 by (rewrite zlen_upto; lia). rewrite chunks_unfold, zlen_upto by lia.
      assert (E' : (n <=? SIZE) = true) by lia. by rewrite E'.
Qed.

(** The states of a transfer. [s] is the server behind the first download. *)
Definition started (st : stream) : Prop :=
  exists s, usb_in s = packets (from (init_size (zlen image))) /\ state s = STATE_COMMAND /\
    st = first_state s (zlen image) (upto (init_size (zlen image))).

Definition reachable (st : stream) : Prop := exists st0, started st0 /\ rtc step st0 st.

(** ** Mutual exclusion and control *)

Definition w_inside (p : w_point) : bool := match p with WBody | WUnlock _ => true | _ => false end.
Definition r_inside (p : r_point) : bool := match p with RBody | RUnlock _ => true | _ => false end.

Definition w_holds (st : stream) (i : nat) : bool := w_inside (w_at st) && Nat.eqb (w_i st) i.
Definition r_holds (st : stream) (i : nat) : bool := r_inside (r_at st) && Nat.eqb (r_i st) i.

Definition owner (st : stream) (i : nat) : option thread :=
  if w_holds st i then Some Writer else if r_holds st i then Some Reader else None.

(** The mutexes say who is inside, and nobody else is. *)
Definition mux (st : stream) : Prop :=
  forall i b, buf st !! i = Some (Live b) ->
    b_mutex b = owner st i /\ (w_holds st i && r_holds st i = false).

(** The flag is set where the writer waits; the reader counts and stops only
    then, or when the pipe broke. *)
Definition ctl (st : stream) : Prop :=
  (writer_finished st = true <-> match w_at st with WJoin | WSuccess | WError JoinFailed | WError WriteFailed => True | _ => False end) /\
  (writer_finished st = false -> empty_counter st = 0%nat) /\
  (pipe_broken st = false -> match r_at st with RClose | RExit 0 => empty_counter st = 2%nat
                                              | RExit _ | RUnlock RShort => True
                                              | RTest => (empty_counter st <= 2)%nat
                                              | _ => (empty_counter st < 2)%nat end) /\
  (w_at st = WSuccess -> r_at st = RExit 0).

(** Both buffers and both indices by cases. *)
Lemma indices i : (i < 2)%nat -> i = 0%nat \/ i = 1%nat.
Proof. lia. Qed.

Lemma next_0 : next_buf 0 = 1%nat. Proof. done. Qed.
Lemma next_1 : next_buf 1 = 0%nat. Proof. done. Qed.

(** Runs through all states of the two threads, both buffers and both indices;
    [Hs] says that a step was made. *)
Ltac all_steps Hb Hwi Hri Hs :=
  match type of Hb with buf ?st = _ =>
    let bf := fresh "bf" in let wi := fresh "wi" in let ri := fresh "ri" in
    destruct st as [s t bf wf pb wa wi ws fi ra ri ec fo]; fields; subst bf;
    destruct (indices wi Hwi) as [-> | ->], (indices ri Hri) as [-> | ->]
  end; clear Hwi Hri;
  unfold step_by, w_step, r_step, deref, owner, w_holds, r_holds in *; fields; rewrite ?next_0, ?next_1 in *;
  cbn in *;
  repeat match type of Hs with
  | obind ?x _ = _ => destruct x as [[[? ?] ?]| | |]; cbn in Hs; try done
  | (match ?x with _ => _ end) = _ => first [is_var x; destruct x | destruct x eqn:?]; cbn in Hs; try done
  | context [match ?x with _ => _ end] => is_var x; destruct x; cbn in *
  end;
  try (injection Hs as <-).

Ltac cases_in x :=
  try destruct x; cbn in *; 
  repeat match goal with
  | |- context [if ?c then _ else _] =>
    lazymatch c with context [if _ then _ else _] => fail | _ => destruct c; cbn end
  end.

Lemma mux_start st b0 b1 : mux st -> buf st = [Live b0; Live b1] ->
  (b_mutex b0 = owner st 0 /\ w_holds st 0 && r_holds st 0 = false) /\
  (b_mutex b1 = owner st 1 /\ w_holds st 1 && r_holds st 1 = false).
Proof. intros Hm Hb. split; apply Hm; by rewrite Hb. Qed.

Lemma w_step_mux st st' : inv st -> mux st -> w_step st = Ok (Some st') -> mux st'.
Proof.
  intros [Hbd _] Hm Hs. destruct Hbd as [(b0 & b1 & Hb) [Hwi Hri] _ _ _ _].
  pose proof (mux_start st b0 b1 Hm Hb) as [H0 H1]. clear Hm. unfold mux.
  all_steps Hb Hwi Hri Hs; intros [|[|i]] b Hi; cbn in Hi; simplify_eq; cbn; cases_in ra; intuition congruence.
Qed.

Lemma r_step_mux os st st' : inv st -> mux st -> r_step os st = Ok (Some st') -> mux st'.
Proof.
  intros [Hbd _] Hm Hs. destruct Hbd as [(b0 & b1 & Hb) [Hwi Hri] _ _ _ _].
  pose proof (mux_start st b0 b1 Hm Hb) as [H0 H1]. clear Hm. unfold mux.
  all_steps Hb Hwi Hri Hs; intros [|[|i]] b Hi; cbn in Hi; simplify_eq; cbn; cases_in wa; intuition congruence.
Qed.

Lemma w_step_ctl st st' : ctl st -> w_step st = Ok (Some st') -> ctl st'.
Proof.
  intros (C1 & C2 & C3 & C4) Hs. unfold ctl. unfold w_step in Hs.
  destruct (w_at st) as [| | |[| |]| | | | |] eqn:Hat; cbv zeta in Hs;
  repeat match type of Hs with
  | obind ?x _ = _ => destruct x as [?| | |]; cbn [obind] in Hs; try done
  | (let '(_, _) := ?x in _) = _ => destruct x; cbn in Hs
  | context [match ?x with _ => _ end] => destruct x eqn:?; cbn [obind] in Hs; try done
  end; try (injection Hs as <-); fields; try (intuition congruence).
  - rewrite Heqr in *. intuition congruence.
  - rewrite Heqr in *. apply orb_false_elim in Heqb as [_ Hc]. assert (code = 0) as -> by lia. intuition congruence.
Qed.

Lemma r_step_ctl os st st' : ctl st -> r_step os st = Ok (Some st') -> ctl st'.
Proof.
  intros (C1 & C2 & C3 & C4) Hs. unfold ctl, r_step in *. cbv zeta in Hs.
  destruct (r_at st) as [| | | |f| | |] eqn:Hat; 
    try match type of Hs with obind ?x _ = _ => destruct x as [b| | |]; cbn [obind] in Hs; try done end.
  - injection Hs as <-. fields. intuition (congruence || lia).
  - injection Hs as <-. fields. split; [done|]. split; [done|]. split; [|intuition congruence].
    intros Hp. specialize (C3 Hp). rewrite Hp. cbn [negb]. rewrite andb_true_r. unfold NR_BUFFER.
    destruct (Nat.ltb_spec (empty_counter st) 2); lia.
  - destruct (b_mutex b); [done|]. injection Hs as <-. fields. intuition (congruence || lia).
  - destruct (b_len b =? 0); [|destruct (os <? b_len b)]; injection Hs as <-; fields; intuition (congruence || lia).
  - injection Hs as <-. destruct f; fields; intuition (congruence || lia).
  - injection Hs as <-. fields. destruct (writer_finished st); intuition (congruence || lia).
  - injection Hs as <-. destruct (os =? 0); fields; intuition (congruence || lia).
  - done.
Qed.

Definition all_inv (st : stream) : Prop := inv st /\ mux st /\ ctl st.

Lemma all_inv_step l st st' : all_inv st -> step_by l st = Ok (Some st') -> all_inv st'.
Proof.
  intros (H1 & H2 & H3) Hs. split; [|destruct l as [|os| |]].
  - destruct (step_inv l st H1) as (o & Ho & Hk). rewrite Hs in Ho. injection Ho as <-. by apply Hk.
  - split; [by eapply w_step_mux|by eapply w_step_ctl].
  - split; [by eapply r_step_mux|by eapply r_step_ctl].
  - injection Hs as <-. split; [exact H2|]. destruct H3 as (C1 & C2 & C3 & C4). by split_and!.
  - cbn [step_by] in Hs. destruct (w_at st) eqn:Hat; try done. injection Hs as <-. split.
    + intros i b Hb. specialize (H2 i b Hb). unfold owner, w_holds, r_holds in *. rewrite Hat in H2. exact H2.
    + destruct H3 as (C1 & C2 & C3 & C4). rewrite Hat in C1. by split_and!.
Qed.

Lemma reachable_all st : reachable st -> all_inv st.
Proof.
  intros (st0 & (s & H1 & H2 & ->) & Hr).
  assert (Hi : all_inv (first_state s (zlen image) (upto (init_size (zlen image))))).
  { split; [by apply first_inv|]. split; [|by split_and!; cbn; try done; auto with lia].
    intros [|[|i]] b [= <-]; done. }
  induction Hr as [|x y z [l a b Hs] _ IH]; [done|]. by eapply IH, all_inv_step.
Qed.

End Transfer.

End StreamFlash.
