(* ===== verification/StreamProps.v ===== *)
(** * Streaming flash: theorems

    What the two threads of [StreamFlash] do in every interleaving, that they
    can always finish, and the interleavings in which they go wrong. *)

From S2P Require Import Prelude Posix Fastboot StreamFlash.

Module StreamProps.
Import Fastboot StreamFlash.

#[local] Opaque SIZE.

(** A schedule is a sequence of steps. *)
Lemma run_steps ls : forall st st', run ls st = Ok st' -> rtc step st st'.
Proof.
  induction ls as [|l ls IH]; intros st st' Hr; cbn [run] in Hr; [by injection Hr as <-|].
  destruct (step_by l st) as [[st1|]| | |] eqn:E; cbn [obind default] in Hr; try done; [|by apply IH].
  eapply rtc_l; [by econstructor|by apply IH].
Qed.

Section Props.
Context (image : list Z) (rest : list (option (list Z))).
Hypothesis Himage : 0 < zlen image < 2 ^ 31.

(** ** Theorems: what holds in every interleaving *)

(** C20: No piece is lost on the way. During the transfer, which ends before the buffers are freed, and whatever the
    interleaving of the two threads, of the signal thread and of a join that fails, every step is defined, the
    threads are never inside the critical section of one buffer together, and, as long as no call has failed, what was
    written to the pipe and what waits in the buffers are together exactly the pieces of the image downloaded
    so far, each of them once. *)
Theorem stream_keeps_pieces st : reachable image rest st ->
  (forall l, exists o, step_by l st = Ok o) /\
  (forall i, (i < 2)%nat -> w_holds st i && r_holds st i = false) /\
  (w_fine (w_at st) -> r_fine (r_at st) ->
   fout st ++ concat (map piece (buf st)) ≡ₚ chunks SIZE (upto image (downloaded st))).
Proof.
  intros Hr. destruct (reachable_all image rest Himage st Hr) as (Hi & Hm & _). split; [|split].
  - intros l. destruct (step_inv image rest Himage l st Hi) as (o & Ho & _). eauto.
  - intros i Hlt. destruct Hi as [[Hlive _ _ _ _ _] _].
    destruct (live_deref st i Hlive Hlt) as (b & _ & Hb). by apply (Hm i b).
  - intros Hw Hrd. by apply Hi.
Qed.

(** What each thread leaves alone. *)
Ltac step_cases Hs :=
  cbv zeta in Hs;
  repeat match type of Hs with
  | obind ?x _ = _ => destruct x as [?| | |] eqn:?; cbn [obind] in Hs; try done
  | (match ?x with _ => _ end) = _ => destruct x eqn:?; cbn [obind] in Hs; try done
  end; try (injection Hs as <-).

Lemma w_frame st st' : w_step st = Ok (Some st') ->
  fout st' = fout st /\ r_at st' = r_at st /\ r_i st' = r_i st /\ empty_counter st' = empty_counter st /\
  pipe_broken st' = pipe_broken st /\ total st' = total st.
Proof.
  unfold w_step. intros Hs. step_cases Hs; try done; [by destruct f|by destruct (pipe_broken st) eqn:E].
Qed.

Lemma r_frame os st st' : r_step os st = Ok (Some st') ->
  w_at st' = w_at st /\ w_i st' = w_i st /\ w_size st' = w_size st /\ finished st' = finished st /\
  pipe_broken st' = pipe_broken st /\ total st' = total st /\ server st' = server st /\
  writer_finished st' = writer_finished st /\ exists d, fout st' = fout st ++ d.
Proof.
  unfold r_step. intros Hs.
  step_cases Hs; try (by split_and!; try done; ((exists []; by rewrite app_nil_r) || by eexists)).
  destruct f; (split_and!; try done; exists []; by rewrite app_nil_r).
Qed.

(** An image of one piece: it is in the first buffer or written. *)
Definition unread (st : stream) : Prop :=
  r_i st = 0%nat /\ empty_counter st = 0%nat /\
  (exists b, buf st !! 0%nat = Some (Live b) /\ b_len b <> 0) /\
  match r_at st with RStart | RTest | RLock | RBody => True | _ => False end.

(** Then the writer downloads nothing more, and the server [s0] stays as it is. *)
Definition single (s0 : fb) (st : stream) : Prop :=
  finished st = zlen image /\ server st = s0 /\
  match w_at st with
  | WTest | WAfter | WJoin | WSuccess | WDrain | WError BrokenPipe | WError JoinFailed | WError WriteFailed => True
  | _ => False
  end /\
  (pipe_broken st = true \/ fout st <> [] \/ unread st).

Lemma w_single s0 st st' : inv image rest st -> single s0 st -> w_step st = Ok (Some st') -> single s0 st'.
Proof.
  intros [Hb _] (H1 & H0 & H2 & H3) Hs. unfold single, unread in *.
  destruct (w_frame st st' Hs) as (-> & -> & -> & -> & -> & _). unfold w_step in Hs.
  rewrite (f_total _ _ Hb), H1, Z.ltb_irrefl in Hs. cbn [andb] in Hs.
  destruct (w_at st) eqn:Hat; try done; try (by injection Hs as <-).
  - destruct (pipe_broken st); by injection Hs as <-.
  - destruct (r_at st); try done. injection Hs as <-. split; [done|]. split; [done|]. split; [|done]. cbn. by destruct (_ || _).
Qed.

Lemma r_single s0 os st st' : single s0 st -> r_step os st = Ok (Some st') -> single s0 st'.
Proof.
  intros (H1 & H0 & H2 & H3) Hs. unfold single.
  destruct (r_frame os st st' Hs) as (-> & _ & _ & -> & -> & _ & -> & _ & d & Hd).
  split; [done|]. split; [done|]. split; [done|]. destruct (pipe_broken st) eqn:Hp; [by left|right].
  destruct H3 as [?|[H3|H3]]; [done|left; rewrite Hd; by destruct (fout st)|].
  destruct H3 as (Hi & He & (b & Hb & Hl) & Hat). unfold r_step, deref in Hs. rewrite Hi, Hb in Hs.
  destruct (r_at st); try done; cbn [obind] in Hs.
  - injection Hs as <-. right. split_and!; try done. by exists b.
  - injection Hs as <-. right. rewrite He, Hp. split_and!; try done. by exists b.
  - destruct (b_mutex b); [done|]. injection Hs as <-. right. split_and!; try done. exists (set_mutex b (Some Reader)).
    split; [|done]. cbn. by destruct (buf st).
  - assert (E : (b_len b =? 0) = false) by lia. rewrite E in Hs.
    left. destruct (os <? b_len b); injection Hs as <-; cbn; by destruct (fout st).
Qed.

Lemma single_reach s st : zlen image <= SIZE ->
  usb_in s = packets rest (from image (init_size (zlen image))) -> state s = STATE_COMMAND ->
  rtc step (first_state s (zlen image) (upto image (init_size (zlen image)))) st -> single s st.
Proof.
  intros Hone E1 E2 Hr. pose proof SIZE_val.
  assert (Hz : init_size (zlen image) = zlen image) by (unfold init_size; destruct (Z.ltb_spec SIZE (zlen image)); lia).
  assert (Ha : reachable image rest (first_state s (zlen image) (upto image (init_size (zlen image)))))
    by (eexists; split; [by exists s|done]).
  apply reachable_all in Ha; [|done].
  assert (Hs : single s (first_state s (zlen image) (upto image (init_size (zlen image))))).
  { split; [done|]. split; [done|]. split; [done|]. do 2 right. split_and!; try done. eexists. split; [done|]. cbn. lia. }
  clear E1 E2. induction Hr as [|x y z [l a b Hst] _ IH]; [done|].
  apply IH; [by eapply (all_inv_step image rest Himage)|].
  destruct l; [by eapply w_single; [apply Ha|..]|by eapply r_single|..].
  - injection Hst as <-. destruct Hs as (? & ? & ? & ?). split; [done|]. split; [done|]. split; [done|]. by left.
  - cbn [step_by] in Hst. destruct (w_at a); try done. injection Hst as <-. destruct Hs as (? & ? & ? & ?). by split_and!.
Qed.

Lemma single_written s st : zlen image <= SIZE -> reachable image rest st -> single s st ->
  w_at st = WSuccess -> pipe_broken st = false -> fout st = [image].
Proof.
  intros Hone Hr Hs Hat Hp. destruct (reachable_all image rest Himage st Hr) as ([_ Hfa] & _ & (_ & _ & _ & Hx)).
  specialize (Hx Hat). destruct Hs as (Hfin & _ & _ & [?|[Hne|(_ & _ & _ & Hu)]]); [congruence| |by rewrite Hx in Hu].
  destruct Hfa as [_ _ F3]; [by rewrite Hat|by rewrite Hx|]. unfold downloaded in F3. rewrite Hat, Hfin in F3.
  rewrite chunks_unfold in F3 by (rewrite SIZE_val; lia). rewrite zlen_upto in F3 by lia.
  assert (E : (zlen image <=? SIZE) = true) by lia. rewrite E in F3.
  assert (Hup : upto image (zlen image) = image) by (unfold upto, zlen; rewrite Nat2Z.id; apply firstn_all). rewrite Hup in F3.
  destruct (fout st) as [|x l]; [done|]. apply Permutation_length in F3 as Hlen.
  symmetry in F3. apply Permutation_length_1_inv in F3. destruct l; [|done]. cbn in F3. by injection F3 as -> _.
Qed.

(** Images of one piece are flashed right. When the image fits one buffer
    (4 MB), then in every interleaving in which the writer reports success and
    the pipe did not break, exactly the image was written. *)
Theorem stream_one_piece st : zlen image <= SIZE ->
  reachable image rest st -> w_at st = WSuccess -> pipe_broken st = false -> fout st = [image].
Proof.
  intros Hone Hr. pose proof Hr as (st0 & (s & E1 & E2 & ->) & Hr'). apply (single_written s); [done|done|].
  by apply single_reach.
Qed.

(** ** The threads can always finish *)

Definition fullb (st : stream) (i : nat) : bool :=
  match buf st !! i with Some (Live b) => negb (b_len b =? 0) | _ => false end.

Definition nfull (st : stream) : Z := Z.b2z (fullb st 0) + Z.b2z (fullb st 1).

(** How far the writer is from its next download, or from the end. *)
Definition w_cost (st : stream) : Z :=
  let mine := fullb st (w_i st) in
  let other := fullb st (next_buf (w_i st)) in
  match w_at st with
  | WTest => if mine then 9 else 5
  | WLock => if mine then 8 else 4
  | WBody => if mine then if other then 11 else 7 else 3
  | WUnlock _ => if other then 10 else 6
  | WAfter => 2
  | WJoin => 1
  | _ => 0
  end.

(** How far the reader is from the end, while the writer waits for it. *)
Definition r_end_cost (st : stream) : Z :=
  20 * (2 - Z.of_nat (empty_counter st)) +
  match r_at st with
  | RStart => 7 | RTest => 6 | RLock => 5 | RBody => 4 | RUnlock RWrote => 8 | RUnlock _ => 3
  | RFlag => 2 | RClose => 1 | RExit _ => 0
  end.

(** How far the reader is from writing, when both buffers are full, or from
    leaving its critical section. *)
Definition r_cost (st : stream) : Z :=
  match w_at st with
  | WJoin => r_end_cost st
  | _ =>
    if fullb st 0 && fullb st 1 then
      match r_at st with RUnlock _ => 15 | RStart | RFlag => 14 | RTest => 13 | RLock => 12 | _ => 11 end
    else match r_at st with RBody => 3 | RUnlock _ => 2 | _ => 1 end
  end.

Definition cost (st : stream) : Z :=
  1000 * (total st - downloaded st) + 20 * nfull st + 60 * w_cost st + r_cost st.

Definition running (st : stream) : Prop :=
  all_inv image rest st /\ w_fine (w_at st) /\ r_fine (r_at st) /\ pipe_broken st = false.

Definition advances (st : stream) : Prop :=
  exists l st', step_by l st = Ok (Some st') /\ l <> LSigpipe /\ w_fine (w_at st') /\ r_fine (r_at st') /\
    cost st' < cost st.

(** The shape of a running state: both buffers, both indices. *)
Ltac unpack st H :=
  let Hi := fresh "Hi" in let Hm := fresh "Hm" in let Hc := fresh "Hc" in
  let b0 := fresh "b0" in let b1 := fresh "b1" in let Hb := fresh "Hb" in
  let H0 := fresh "H0" in let H1 := fresh "H1" in
  destruct H as ((Hi & Hm & Hc) & Hw & Hr & Hp); destruct (proj1 Hi) as [(b0 & b1 & Hb) [Hwi Hri] _ _ _ _];
  pose proof (mux_start st b0 b1 Hm Hb) as [H0 H1]; clear Hm Hi;
  unfold ctl in Hc;
  destruct st as [sv t bf wf pb wa wi ws fi ra ri ec fo]; fields; subst bf pb;
  lazymatch goal with
  | E : wa = WJoin |- _ => subst wa
  | _ => destruct (indices wi Hwi) as [-> | ->]
  end;
  destruct (indices ri Hri) as [-> | ->]; clear Hwi Hri;
  destruct H0 as [H0 _], H1 as [H1 _]; destruct Hc as (Hc1 & Hc2 & Hc3 & Hc4); specialize (Hc3 eq_refl);
  destruct (b_len b0 =? 0) eqn:E0, (b_len b1 =? 0) eqn:E1;
  unfold advances, cost, w_cost, r_cost, r_end_cost, nfull, fullb, owner, w_holds, r_holds, downloaded in *; cbn in *;
  try rewrite E0 in *; try rewrite E1 in *; cbn in *.

(** Makes the step [l] and compares the costs. *)
Ltac make l :=
  exists l; unfold step_by, w_step, r_step, deref; cbn;
  repeat match goal with
  | E : (b_len ?b =? 0) = _ |- _ => rewrite E
  | E : b_mutex ?b = _ |- _ => rewrite E
  end; cbn; rewrite ?Z.ltb_irrefl; cbn; eexists; (split; [reflexivity|]); (split; [done|]);
  cbn; repeat match goal with E : (b_len ?b =? 0) = _ |- _ => rewrite E end; cbn.

Ltac settle wa :=
  (split; [done|]); (split; [done|]);
  destruct wa as [| | |[| |]| | | | |]; cbn in *; first [done | lia].

Lemma advance_r_inside st : running st -> w_at st <> WJoin -> w_at st <> WSuccess ->
  r_inside (r_at st) = true -> advances st.
Proof.
  intros H Hj Hn Hin. unpack st H; destruct ra as [| | | |f| | |]; try done; try destruct f; try done; cbn in *.
  all: first [make (LR (b_len b0)); settle wa | make (LR (b_len b1)); settle wa].
Qed.

Lemma still_working st : running st -> w_at st <> WJoin -> w_at st <> WSuccess ->
  empty_counter st = 0%nat /\ match r_at st with RClose | RExit _ => False | _ => True end.
Proof.
  intros ((_ & _ & (C1 & C2 & C3 & _)) & Hw & Hr & Hp) Hj Hn.
  assert (Hf : writer_finished st = false).
  { destruct (writer_finished st); [|done]. destruct C1 as [C1 _]. specialize (C1 eq_refl).
    by destruct (w_at st) as [| | | | | | | |[| | |]]. }
  specialize (C2 Hf). specialize (C3 Hp). split; [done|]. rewrite C2 in C3.
  destruct (r_at st) as [| | | | | | |c]; try done. cbn in Hr. by subst c.
Qed.

(** The reader, when nobody is inside and both buffers are full. *)
Lemma advance_r_full st : running st -> w_at st <> WJoin -> w_at st <> WSuccess ->
  w_inside (w_at st) = false -> r_inside (r_at st) = false -> fullb st 0 = true -> fullb st 1 = true -> advances st.
Proof.
  intros H Hj Hn Win Rin F0 F1. destruct (still_working st H Hj Hn) as [He Hra]. unfold fullb in F0, F1.
  unpack st H; try done; destruct ra; try done; cbn in *; rewrite ?Win in *; cbn in *; subst ec;
    make (LR 0); settle wa.
Qed.

Ltac settle_join := rewrite ?Z.eqb_refl; cbn; (split; [done|]); (split; [done|]); lia.

(** The reader, when the writer waits for its end. *)
Lemma advance_join st : running st -> w_at st = WJoin -> advances st.
Proof.
  intros H Hj. pose proof (f_loop _ _ (proj1 (proj1 (proj1 H)))) as Hfin. rewrite Hj in Hfin.
  pose proof (f_total _ _ (proj1 (proj1 (proj1 H)))) as Htot.
  unpack st H; try done; cbn in *; assert (wf = true) as -> by (by apply Hc1);
    destruct ra as [| | | |[| |]| | |c]; try done; cbn in *; subst;
    try (destruct ec as [|[|[|ec]]]; try lia).
  all: first [make (LR 0); settle_join | make (LR (b_len b0)); settle_join | make (LR (b_len b1)); settle_join
             | make LW; settle_join].
Qed.

Lemma rest_bounds st : w_at st <> WJoin ->
  0 <= 20 * nfull st + 60 * w_cost st + r_cost st <= 715.
Proof.
  intros Hj. unfold nfull, w_cost, r_cost.
  destruct (fullb st 0), (fullb st 1), (fullb st (w_i st)), (fullb st (next_buf (w_i st))), (w_at st); try done;
    destruct (r_at st); cbn; lia.
Qed.

Lemma download_cost st st' : w_at st' <> WJoin -> w_at st <> WJoin -> total st' = total st ->
  downloaded st < downloaded st' -> cost st' < cost st.
Proof.
  intros H1 H2 Ht Hd. unfold cost. pose proof (rest_bounds st' H1). pose proof (rest_bounds st H2). lia.
Qed.

(** The writer downloads a piece. *)
Lemma advance_fill st : running st -> w_at st = WBody -> fullb st (w_i st) = false -> advances st.
Proof.
  intros (Ha & Hw & Hr & Hp) Hat Hf. destruct Ha as ([Hbd Hfa] & _ & _). specialize (Hfa Hw Hr).
  pose proof Hbd as [Hlive [Hwi _] Htot Hsz [Hpos _] Hlt]. rewrite Hat in Hlt.
  destruct (live_deref st (w_i st) Hlive Hwi) as (b & Hde & Hb).
  destruct (clip_bounds image Himage st Hbd Hlt) as (Hc & Hle & Hlast).
  destruct Hfa as [F1 [F2 F3] _]. unfold downloaded in F1, F2. rewrite Hat in F1, F2. destruct (F1 Hlt) as [Hs Hm].
  exists LW. unfold step_by, w_step. rewrite Hat, Hde. cbn [obind].
  unfold fullb in Hf. rewrite Hb in Hf. rewrite Hf.
  rewrite (download_piece image rest Himage (server st) (finished st) (clip_size st));
    [|lia|lia|lia| |by rewrite F3|done].
  2: { destruct (Hlast Hs) as [->| ->]; [left; by rewrite SIZE_val|by right]. }
  cbn [obind]. change (negb (0 =? 0)) with false. cbv iota. eexists. split; [done|]. split; [done|]. split; [done|].
  split; [exact Hr|]. apply download_cost; [done|by rewrite Hat|done|]. unfold downloaded. rewrite Hat.
  cbn [w_at finished w_size set_w set_buf set_server]. lia.
Qed.

Lemma advance_w_inside st : running st -> w_inside (w_at st) = true -> advances st.
Proof.
  intros H Win. destruct (w_at st) as [| | |f| | | | |] eqn:Hat; try done.
  - destruct (fullb st (w_i st)) eqn:Hf; [|by apply advance_fill].
    unfold fullb in Hf. unpack st H; subst wa; try done; make LW; (split; [done|]); (split; [done|]); cbn in *; lia.
  - pose proof (f_range _ _ (proj1 (proj1 (proj1 H)))) as Hrg. pose proof (f_size _ _ (proj1 (proj1 (proj1 H)))) as Hsz.
    unfold downloaded in Hrg. rewrite Hat in Hrg. pose proof SIZE_val.
    unpack st H; subst wa; (destruct f; [| |done]); cbn in *; make LW; (split; [done|]); (split; [done|]); cbn in *;
      rewrite ?u32_id by lia; lia.
Qed.

(** The writer, when nobody is inside and a buffer is empty. *)
Lemma advance_w_outside st : running st -> w_at st <> WJoin -> w_at st <> WSuccess ->
  w_inside (w_at st) = false -> r_inside (r_at st) = false -> fullb st 0 && fullb st 1 = false -> advances st.
Proof.
  intros H Hj Hn Win Rin F. unfold fullb in F.
  unpack st H; try done; destruct wa; try done; cbn in *; rewrite ?Rin in *; cbn in *;
    make LW; try destruct (_ <? _); cbn; (split; [done|]); (split; [done|]);
    destruct ra as [| | | |[| |]| | |]; cbn in *; first [done | lia].
Qed.

Lemma finish_schedule st : reachable image rest st ->
  w_fine (w_at st) -> r_fine (r_at st) -> pipe_broken st = false ->
  exists ls st', run ls st = Ok st' /\ LSigpipe ∉ ls /\ w_at st' = WSuccess.
Proof.
  intros Hre Hw Hr Hp. apply reachable_all in Hre; [|done].
  assert (H : running st) by done. clear Hre Hw Hr Hp.
  remember (Z.to_nat (cost st + 1)) as n eqn:En. assert (Hn : cost st < Z.of_nat n) by lia. clear En.
  revert st H Hn. induction n as [|n IH]; intros st H Hn.
  - exfalso. destruct H as ([[Hbd _] [_ (_ & _ & C3 & _)]] & Hw & Hr & Hp). pose proof Hbd as [_ _ Htot _ [_ Hdl] _].
    unfold cost in Hn. destruct (decide (w_at st = WJoin)) as [E|E].
    + unfold nfull, w_cost, r_cost, r_end_cost, downloaded in *. rewrite E in *.
      specialize (C3 Hp). destruct (fullb st 0), (fullb st 1), (r_at st) as [| | | |[| |]| | |c]; cbn in *; subst; lia.
    + pose proof (rest_bounds st E). lia.
  - destruct (decide (w_at st = WSuccess)) as [E|E]; [by exists [], st; split_and!; [|set_solver|]|].
    assert (Ha : advances st).
    { destruct (decide (w_at st = WJoin)); [by apply advance_join|].
      destruct (w_inside (w_at st)) eqn:Ew; [by apply advance_w_inside|].
      destruct (r_inside (r_at st)) eqn:Er; [by apply advance_r_inside|].
      destruct (fullb st 0 && fullb st 1) eqn:Ef; [|by apply advance_w_outside].
      apply andb_prop in Ef as [? ?]. by apply advance_r_full. }
    destruct Ha as (l & st1 & Hs & Hl & Hw1 & Hr1 & Hlt). destruct H as (Hi & Hw & Hr & Hp).
    destruct (IH st1) as (ls & st' & Hrun & Hno & Hend); [|lia|].
    + split; [by eapply (all_inv_step image rest Himage)|]. split; [done|]. split; [done|].
      destruct l as [|os| |]; [by destruct (w_frame st st1 Hs) as (_ & _ & _ & _ & -> & _)|by destruct (r_frame os st st1 Hs) as (_ & _ & _ & _ & -> & _)|done|].
      cbn [step_by] in Hs. destruct (w_at st); try done. by injection Hs as <-.
    + exists (l :: ls), st'. cbn [run]. rewrite Hs. cbn [obind default]. split; [done|]. split; [set_solver|done].
Qed.

(** C26: the threads can always finish. From every state that an interleaving can
    reach while no call has failed and the pipe is whole, some continuation
    leads to the writer's success: there is no deadlock, and no state from which
    the threads can only spin. *)
Theorem stream_can_finish st : reachable image rest st ->
  w_fine (w_at st) -> r_fine (r_at st) -> pipe_broken st = false ->
  exists st', rtc step st st' /\ w_at st' = WSuccess.
Proof.
  intros Hre Hw Hr Hp. destruct (finish_schedule st Hre Hw Hr Hp) as (ls & st' & Hrun & _ & Hend).
  exists st'. split; [by eapply run_steps|done].
Qed.

(** No schedule is undefined. *)
Lemma run_defined ls st : all_inv image rest st -> exists st', run ls st = Ok st'.
Proof.
  revert st. induction ls as [|l ls IH]; intros st Ha; cbn [run]; [eauto|]. pose proof Ha as (Hi & _).
  destruct (step_inv image rest Himage l st Hi) as (o & Ho & _). rewrite Ho. cbn [obind].
  destruct o as [st1|]; cbn [default]; apply IH; [by eapply (all_inv_step image rest Himage)|done].
Qed.

End Props.

(** Without the signal the pipe stays whole. *)
Lemma run_whole ls st st' : LSigpipe ∉ ls -> run ls st = Ok st' -> pipe_broken st' = pipe_broken st.
Proof.
  revert st. induction ls as [|l ls IH]; intros st Hno Hr; cbn [run] in Hr; [by injection Hr as <-|].
  destruct (step_by l st) as [[st1|]| | |] eqn:E; cbn [obind default] in Hr; try done; [|apply IH; set_solver].
  rewrite (IH st1) by set_solver. destruct l as [|os| |]; [..|set_solver|].
  - by destruct (w_frame st st1 E) as (_ & _ & _ & _ & -> & _).
  - by destruct (r_frame os st st1 E) as (_ & _ & _ & _ & -> & _).
  - cbn [step_by] in E. destruct (w_at st); try done. by injection E as <-.
Qed.


Definition demo_image : list Z := [1; 2; 3].
Definition demo_start : stream := first_state (idle_fb STATE_COMMAND [] []) 3 demo_image.
Definition demo_labels : list label := LW :: replicate 13 (LR 10) ++ [LW; LW] ++ replicate 12 (LR 0) ++ [LW].
Definition demo_end : stream := match run demo_labels demo_start with Ok st => st | _ => demo_start end.

Lemma demo_reachable ls st : run ls demo_start = Ok st -> reachable demo_image [] st.
Proof.
  intros Hr. exists demo_start. split; [|by eapply run_steps]. exists (idle_fb STATE_COMMAND [] []). by split_and!; vm_compute.
Qed.

Lemma stream_keeps_pieces_witness :
  (forall l, exists o, step_by l demo_end = Ok o) /\
  fout demo_end ++ concat (map piece (buf demo_end)) ≡ₚ [[1; 2; 3]].
Proof.
  destruct (stream_keeps_pieces demo_image [] ltac:(vm_compute; split; congruence) demo_end) as (H1 & _ & H3).
  - apply (demo_reachable demo_labels). vm_compute. reflexivity.
  - split; [exact H1|]. apply H3; vm_compute; auto.
Defined.

Lemma stream_one_piece_witness : w_at demo_end = WSuccess /\ fout demo_end = [demo_image].
Proof.
  split; [vm_compute; reflexivity|].
  apply (stream_one_piece demo_image [] ltac:(vm_compute; split; congruence)); [by vm_compute| |by vm_compute..].
  apply (demo_reachable demo_labels). vm_compute. reflexivity.
Defined.

Lemma stream_can_finish_witness : exists st', rtc step demo_start st' /\ w_at st' = WSuccess.
Proof.
  apply (stream_can_finish demo_image [] ltac:(vm_compute; split; congruence)); try (by vm_compute).
  by apply (demo_reachable []).
Defined.


End StreamProps.
