(* ===== verification/StreamFlaws.v ===== *)
(** * Streaming flash: interleavings that go wrong

    The two threads skip a buffer they cannot use and try the other one, and the
    flag [writer_finished] is read behind the critical section. Both make the
    order and the end of the transfer depend on the schedule. *)

From S2P Require Import Prelude Posix Fastboot StreamFlash.
From S2P Require Import StreamProps.

Module StreamFlaws.
Import Fastboot StreamFlash StreamProps.

#[local] Opaque SIZE.

Section Flaws.
Context (image : list Z) (rest : list (option (list Z))).
Hypothesis Himage : 0 < zlen image < 2 ^ 31.

(** A server that has received the first piece. *)
Definition started_server : fb :=
  set_in (idle_fb STATE_COMMAND [] []) (packets rest (from image SIZE)).

Lemma start_reachable st : SIZE < zlen image ->
  rtc step (mk_stream started_server (zlen image)
    [Live (mk_buffer (upto image SIZE) SIZE SIZE None); Live (mk_buffer [] SIZE 0 None)]
    false false WTest 1 SIZE SIZE RStart 0 0 []) st -> reachable image rest st.
Proof.
  intros Hlt Hr. assert (E : init_size (zlen image) = SIZE)
    by (unfold init_size; destruct (Z.ltb_spec SIZE (zlen image)); lia).
  eexists. split; [|exact Hr]. exists started_server. rewrite E. split; [done|]. split; [done|].
  unfold first_state. rewrite E. unfold set_len, set_data, Posix.put_bytes. cbn.
  rewrite skipn_nil, app_nil_r. done.
Qed.

End Flaws.

#[local] Arguments streaming_download : simpl never.

(** One step with label [l], in a state whose fields are known. *)
Ltac walk l :=
  eapply rtc_l; [eapply (step_intro l); unfold step_by, w_step, r_step, deref, clip_size; cbn;
    repeat match goal with E : ?x = _ |- context [?x] => rewrite E; cbn end; reflexivity|]; cbn.

(** The state of a transfer of [L] bytes after the first piece [p]. *)
Definition begun (sv : fb) (L : Z) (p : list Z) : stream :=
  mk_stream sv L [Live (mk_buffer p SIZE SIZE None); Live (mk_buffer [] SIZE 0 None)]
    false false WTest 1 SIZE SIZE RStart 0 0 [].

Lemma lost_trace sv sv' L n p0 p1 :
  (SIZE =? 0) = false -> (SIZE <? SIZE) = false -> (SIZE <? L) = true ->
  (if L <? u32 (SIZE + SIZE) then u32 (L - SIZE) else SIZE) = n ->
  streaming_download sv n false = Ok (sv', 0, p1) -> (n =? 0) = false -> u32 (SIZE + n) = L ->
  (L <? L) = false -> (L =? L) = true ->
  exists st, rtc step (begun sv L p0) st /\ w_at st = WSuccess /\ pipe_broken st = false /\
    fout st = [take (Z.to_nat SIZE) p0].
Proof.
  intros E1 E2 E3 E4 E5 E6 E7 E8 E9. eexists. split; [unfold begun|].
  - do 9 walk (LR SIZE). do 6 walk LW. do 8 walk (LR 0). walk LW. apply rtc_refl.
  - done.
Qed.

Lemma swapped_trace sv sv1 sv2 L n p0 p1 p2 :
  (SIZE =? 0) = false -> (SIZE <? SIZE) = false -> (SIZE <? L) = true ->
  (if L <? u32 (SIZE + SIZE) then u32 (L - SIZE) else SIZE) = SIZE ->
  streaming_download sv SIZE false = Ok (sv1, 0, p1) -> u32 (SIZE + SIZE) = SIZE + SIZE ->
  (SIZE + SIZE <? L) = true ->
  (if L <? u32 (SIZE + SIZE + SIZE) then u32 (L - (SIZE + SIZE)) else SIZE) = n ->
  streaming_download sv1 n false = Ok (sv2, 0, p2) -> u32 (SIZE + SIZE + n) = L ->
  (n =? 0) = false -> (SIZE <? n) = false -> (L <? L) = false -> (L =? L) = true ->
  exists st, rtc step (begun sv L p0) st /\ w_at st = WSuccess /\ pipe_broken st = false /\
    fout st = [take (Z.to_nat SIZE) p0; take (Z.to_nat n) (Posix.put_bytes p0 0 p2);
               take (Z.to_nat SIZE) (Posix.put_bytes [] 0 p1)].
Proof.
  intros E1 E2 E3 E4 E5 E6 E7 E8 E9 E10 E11 E12 E13 E14. eexists. split; [unfold begun|].
  - do 11 walk (LR SIZE).
    do 2 walk LW.
    eapply rtc_l. { eapply (step_intro LW). unfold step_by, w_step, deref, clip_size. cbn. rewrite E4. cbn. rewrite E5. reflexivity. }
    cbn. walk LW. 
    do 2 walk LW.
    eapply rtc_l. { eapply (step_intro LW). unfold step_by, w_step, deref, clip_size. cbn. rewrite E8. cbn. rewrite E9. reflexivity. }
    cbn. do 3 walk LW.
    do 18 walk (LR SIZE). walk (LR 0). walk LW. apply rtc_refl.
  - done.
Qed.

Section Theorems.
Context (image : list Z) (rest : list (option (list Z))).
Hypothesis Himage : 0 < zlen image < 2 ^ 31.

Lemma piece_of D n : 0 <= D -> 0 < n <= SIZE -> D + n <= zlen image -> n = SIZE \/ D + n = zlen image ->
  forall i, usb_in i = packets rest (from image D) -> state i = STATE_COMMAND ->
  streaming_download i n false = Ok (set_in i (packets rest (from image (D + n))), 0, sub_bytes image D n).
Proof.
  intros HD Hn Hle Hm i Hin Hst. apply (download_piece image rest Himage); try done; [lia| |by rewrite Hst].
  destruct Hm as [->|Hm]; [left; by rewrite SIZE_val|by right].
Qed.

(** C40: the last piece can be lost. For every image of two pieces there is an
    interleaving in which nothing fails and success is reported, but only the
    first piece was written: the reader finds the second buffer empty, the writer
    fills it and finishes, and the reader then counts it as empty. *)
Theorem stream_loses_piece : SIZE < zlen image <= 2 * SIZE ->
  exists st, reachable image rest st /\ w_at st = WSuccess /\ pipe_broken st = false /\
    fout st = [upto image SIZE].
Proof.
  intros Hz. pose proof SIZE_val.
  destruct (lost_trace (started_server image rest)
    (set_in (started_server image rest) (packets rest (from image (SIZE + (zlen image - SIZE)))))
    (zlen image) (zlen image - SIZE) (upto image SIZE) (sub_bytes image SIZE (zlen image - SIZE)))
    as (st & Hr & H1 & H2 & H3); try lia.
  - rewrite (u32_id (SIZE + SIZE)) by lia. destruct (Z.ltb_spec (zlen image) (SIZE + SIZE)); rewrite ?u32_id; lia.
  - apply piece_of; [lia|lia|lia|right; lia|done|done].
  - rewrite u32_id; lia.
  - exists st. split; [by apply start_reachable; [lia|]|]. split; [done|]. split; [done|]. rewrite H3.
    unfold upto. rewrite take_take, Nat.min_id. reflexivity.
Qed.

(** Pieces can be swapped. For every image of three pieces there is an
    interleaving in which nothing fails and success is reported, but the third
    piece was written before the second: the reader skips the empty second buffer
    and the writer then fills both. *)
Theorem stream_swaps_pieces : 2 * SIZE < zlen image <= 3 * SIZE ->
  exists st, reachable image rest st /\ w_at st = WSuccess /\ pipe_broken st = false /\
    fout st = [upto image SIZE; sub_bytes image (2 * SIZE) SIZE; sub_bytes image SIZE SIZE].
Proof.
  intros Hz. pose proof SIZE_val. set (n := zlen image - (SIZE + SIZE)).
  assert (Hn : 0 < n <= SIZE) by lia.
  set (s1 := set_in (started_server image rest) (packets rest (from image (SIZE + SIZE)))).
  destruct (swapped_trace (started_server image rest) s1
    (set_in s1 (packets rest (from image (SIZE + SIZE + n))))
    (zlen image) n (upto image SIZE) (sub_bytes image SIZE SIZE) (sub_bytes image (SIZE + SIZE) n))
    as (st & Hr & H1 & H2 & H3); try lia.
  - rewrite (u32_id (SIZE + SIZE)) by lia. destruct (Z.ltb_spec (zlen image) (SIZE + SIZE)); lia.
  - apply piece_of; [lia|lia|lia|by left|done|done].
  - apply u32_id. lia.
  - rewrite (u32_id (SIZE + SIZE + SIZE)) by lia.
    destruct (Z.ltb_spec (zlen image) (SIZE + SIZE + SIZE)); rewrite ?u32_id; lia.
  - apply piece_of; [lia|lia|lia|right; lia|done|done].
  - rewrite u32_id; lia.
  - exists st. split; [by apply start_reachable; [lia|]|]. split; [done|]. split; [done|]. rewrite H3.
    rewrite take_put0 by (rewrite zlen_sub; lia). rewrite take_put0 by (rewrite zlen_sub; lia).
    unfold upto at 1. rewrite take_take, Nat.min_id.
    replace (2 * SIZE) with (SIZE + SIZE) by lia.
    replace (sub_bytes image (SIZE + SIZE) SIZE) with (sub_bytes image (SIZE + SIZE) n); [reflexivity|].
    unfold sub_bytes, zlen in *. rewrite !take_ge; [reflexivity| |]; rewrite length_drop; lia.
Qed.

End Theorems.

Definition big_image (extra : Z) : list Z := zeros (SIZE + extra).

Lemma big_image_len n : 0 <= n -> zlen (big_image n) = SIZE + n.
Proof. intros Hn. unfold big_image. apply zlen_zeros. pose proof SIZE_val. lia. Qed.

Lemma stream_loses_piece_witness :
  exists st, reachable (big_image 5) [] st /\ w_at st = WSuccess /\ fout st = [upto (big_image 5) SIZE].
Proof.
  pose proof SIZE_val. pose proof (big_image_len 5 ltac:(lia)).
  destruct (stream_loses_piece (big_image 5) [] ltac:(lia) ltac:(lia)) as (st & H1 & H2 & _ & H3).
  exists st. split; [exact H1|]. split; [exact H2|exact H3].
Defined.

Lemma stream_swaps_pieces_witness :
  exists st, reachable (big_image (SIZE + 7)) [] st /\ w_at st = WSuccess /\ zlen (fout st) = 3.
Proof.
  pose proof SIZE_val. pose proof (big_image_len (SIZE + 7) ltac:(lia)).
  destruct (stream_swaps_pieces (big_image (SIZE + 7)) [] ltac:(lia) ltac:(lia)) as (st & H1 & H2 & _ & H3).
  exists st. split; [exact H1|]. split; [exact H2|]. rewrite H3. reflexivity.
Defined.

(** When a download fails, the buffers are freed before the reader is cancelled:
    a reader that still works reaches a null pointer within three steps. *)
Theorem reader_after_free st :
  live st -> pipe_broken st = false -> writer_finished st = false -> (empty_counter st < 2)%nat ->
  (r_i st < 2)%nat -> match r_at st with RClose | RExit _ => False | _ => True end ->
  exists l, free_buffers (buf st) = Ok l /\
    exists n, (n <= 3)%nat /\ run (replicate n (LR 0)) (with_buf st l) = Undef.
Proof.
  intros (b0 & b1 & Hb) Hp Hf He Hi Hr. exists [Null; Null]. split; [by rewrite Hb|].
  destruct st as [sv t bf wf pb wa wi ws fi ra ri ec fo]. cbn in *. subst bf wf pb.
  destruct (indices ri Hi) as [-> | ->]; destruct ec as [|[|ec]]; try lia;
  destruct ra as [| | | |f| | |]; try done;
    first [by exists 1%nat; split; [lia|] | by exists 2%nat; split; [lia|] | by exists 3%nat; split; [lia|]].
Qed.

(** The loop of the writer when both buffers are full and the reader is gone. *)
Definition spinning (st : stream) : Prop :=
  (exists b0 b1, buf st = [Live b0; Live b1] /\ b_len b0 <> 0 /\ b_len b1 <> 0 /\
    b_mutex b0 = (if w_holds st 0 then Some Writer else None) /\
    b_mutex b1 = (if w_holds st 1 then Some Writer else None)) /\
  (w_i st < 2)%nat /\ finished st < total st /\ pipe_broken st = false /\
  match w_at st with WTest | WLock | WBody | WUnlock WSkipped => True | _ => False end.

Lemma spin_step st : spinning st ->
  exists st', w_step st = Ok (Some st') /\ spinning st' /\ finished st' = finished st.
Proof.
  intros ((b0 & b1 & Hb & L0 & L1 & M0 & M1) & Hi & Hf & Hp & Hat).
  assert (E0 : (b_len b0 =? 0) = false) by lia. assert (E1 : (b_len b1 =? 0) = false) by lia.
  assert (Ef : (finished st <? total st) = true) by lia.
  destruct st as [sv t bf wf pb wa wi ws fi ra ri ec fo]. unfold w_holds in *. cbn in *. subst bf pb.
  destruct (indices wi Hi) as [-> | ->]; destruct wa as [| | |[| |]| | | | |]; try done; cbn in *;
    unfold w_step, deref; cbn; rewrite ?Ef, ?M0, ?M1, ?E0, ?E1; cbn; eexists; (split; [reflexivity|]);
    (split; [|done]); (split; [|by split_and!; cbn; try lia]); eexists _, _; (split; [reflexivity|]); split_and!; cbn; done.
Qed.

(** A failed write can hang the server. When the reader has ended with an
    error while both buffers are full and no SIGPIPE is seen, the writer keeps
    going round its loop: after any number of its steps it is still in the loop
    and has downloaded nothing more. *)
Theorem writer_spins st n : spinning st -> (exists c, r_at st = RExit c) ->
  exists st', run (replicate n LW) st = Ok st' /\ spinning st' /\ finished st' = finished st.
Proof.
  intros Hs _. revert st Hs. induction n as [|n IH]; intros st Hs; [by exists st|].
  destruct (spin_step st Hs) as (st1 & H1 & H2 & H3). cbn [replicate run]. unfold step_by. rewrite H1. cbn [obind default].
  destruct (IH st1 H2) as (st' & G1 & G2 & G3). exists st'. split; [done|]. split; [done|]. congruence.
Qed.

(** When the second buffer cannot be allocated, the first one is freed twice. *)
Theorem second_buffer_double_free al : al 0%nat = (true, true, true) -> fst (fst (al 1%nat)) = false ->
  exists l, create_buffers NR_BUFFER 0 al [Null; Null] = Ok (l, false) /\ free_buffers l = Undef.
Proof.
  intros H0 H1. exists [Freed; Null]. split; [|done]. unfold create_buffers, NR_BUFFER.
  unfold buffer_init. rewrite H0. destruct (al 1%nat) as [[a b] c]. cbn in H1. subst a.
  assert (E : (SIZE <=? 0) = false) by (rewrite SIZE_val; done). rewrite E. done.
Qed.

Definition stuck : stream :=
  mk_stream (idle_fb STATE_COMMAND [] []) 100
    [Live (mk_buffer [1] SIZE 1 None); Live (mk_buffer [2] SIZE 1 None)]
    false false WTest 0 50 50 (RExit (-1)) 0 0 [].

Lemma writer_spins_witness : exists st', run (replicate 1000 LW) stuck = Ok st' /\ finished st' = 50.
Proof.
  destruct (writer_spins stuck 1000) as (st' & H1 & _ & H3).
  - split; [eexists _, _; split; [reflexivity|]; by split_and!|]. split_and!; cbn; (done || lia).
  - by exists (-1).
  - exists st'. split; [exact H1|exact H3].
Defined.


End StreamFlaws.
