(* ===== verification/TbootUtil.v ===== *)
(** * src/tboot_util.c: utilities of the commands

    Mounting, formatting and checking partitions, running processes, writing
    files, starting a kernel, and two string functions. A call of the system is
    recorded in the log of the server; the system is a function [os] from the log
    so far and the call to its result and the bytes it delivers, so that it may
    answer every call as it likes. A failure is a negative result, [- errno]. *)

From S2P Require Import Prelude Posix ConfigUtils Diskconfig Fstab Fastboot.
From Stdlib Require Import Ascii.

Module TbootUtil.
Import ConfigUtils Fastboot.

(** The server has strings as bytes, the configuration as characters. *)
Definition to_text (l : list Z) : text := map (fun z => ascii_of_nat (Z.to_nat z)) l.
Definition of_text (t : text) : list Z := map (fun c => Z.of_nat (nat_of_ascii c)) t.

Definition EEXIST : Z := 17.
Definition EBUSY : Z := 16.
Definition PATH_MAX : Z := 4096.

(** [snprintf] into a buffer of [n] bytes. *)
Definition snprintf (n : Z) (l : list Z) : list Z := take (Z.to_nat (n - 1)) l.

Definition WEXITSTATUS (status : Z) : Z := Z.land (Z.shiftr status 8) 255.
Definition S_ISBLK (mode : Z) : bool := Z.land mode 61440 =? 24576.

(** [die()] ends the program. *)
Definition die {A : Type} : outcome A := AssertFail.

Section Util.
Context (os : list effect -> sys_call -> Z * list Z).

(** [disk_info] is null when the disk was not set up. *)
Context (disk : option Diskconfig.disk_info) (volumes : list Fstab.Volume).

Definition sys (st : fb) (c : sys_call) : fb * Z * list Z :=
  let '(r, bs) := os (log st) c in (add_log st [Sys c], r, bs).

Definition find_part (name : list Z) : outcome (option Diskconfig.part_info) :=
  match disk with
  | None => Undef
  | Some d => Ok (Diskconfig.find_part d (to_text name))
  end.

Definition find_part_device (st : fb) (name : list Z) : outcome (fb * option (list Z)) :=
  match disk with
  | None => Undef
  | Some d =>
    let '(st, r, _) := sys st SysStrdup in
    let! dev := Diskconfig.find_part_device d (to_text name) (0 <=? r) in
    Ok (st, option_map of_text dev)
  end.

Definition p_name (p : Diskconfig.part_info) : list Z := of_text (Diskconfig.p_name p).

(** [cmd] is the formatted command. *)
Definition execute_command (st : fb) (cmd : list Z) : fb * Z :=
  let '(st, r, _) := sys st SysAsprintf in
  if r <? 0 then (st, -1)
  else
    let '(st, ret, _) := sys st (SysSystem cmd) in
    if ret <? 0 then (st, -1) else (st, WEXITSTATUS ret).

Definition execute_command_data (st : fb) (data cmd : list Z) : fb * Z :=
  let '(st, r, _) := sys st SysAsprintf in
  if r <? 0 then (st, -1)
  else
    let '(st, fp, _) := sys st (SysPopen cmd) in
    if fp <? 0 then (st, -1)
    else
      let '(st, written, _) := sys st (SysFwrite data) in
      if negb (written =? zlen data) then (fst (fst (sys st SysPclose)), -1)
      else
        let '(st, ret, _) := sys st SysPclose in
        if ret <? 0 then (st, -1) else (st, WEXITSTATUS ret).

(** The stream, or -1. *)
Definition execute_command_oem (st : fb) (cmd : list Z) : fb * Z :=
  let '(st, r, _) := sys st SysAsprintf in
  if r <? 0 then (st, -1)
  else
    let '(st, fp, _) := sys st (SysPopen cmd) in
    if fp <? 0 then (st, -1) else (st, 0).

Definition EXT_SUPERBLOCK_OFFSET : Z := 1024.
Definition EXT3_SUPER_MAGIC : Z := 0xEF53.
Definition SUPERBLOCK_LEN : Z := 1024.

(** The result, and [*sb_present] when it was set. *)
Definition check_ext_superblock (st : fb) (ptn : Diskconfig.part_info) : outcome (fb * Z * option bool) :=
  let! (st, device) := find_part_device st (p_name ptn) in
  match device with
  | None => Ok (st, -1, None)
  | Some device =>
    let '(st, fd, _) := sys st (SysOpen device) in
    if fd <? 0 then Ok (st, -1, None)
    else
      let '(st, pos, _) := sys st (SysLseek EXT_SUPERBLOCK_OFFSET) in
      let close st := fst (fst (sys st SysClose)) in
      if negb (pos =? EXT_SUPERBLOCK_OFFSET) then Ok (close st, -1, None)
      else
        let '(st, n, bs) := sys st (SysRead SUPERBLOCK_LEN) in
        if negb (n =? SUPERBLOCK_LEN) then Ok (close st, -1, None)
        else Ok (close st, 0, Some (le_val (sub_bytes bs 56 2) =? EXT3_SUPER_MAGIC))
  end.

(** The loop of [named_file_write]: [rs] are the results of the coming [write]
    calls, [off] is [what] minus the buffer, [out] what is in the file. A
    result that is not positive is only an error when [errno] is not [EINTR];
    otherwise it is added to the pointer all the same. *)
Fixpoint write_loop (rs : list Z) (data : list Z) (off sz errno : Z) (out : list Z)
  : outcome (list Z * Z) :=
  if sz =? 0 then Ok (out, 0)
  else if (off <? 0) || (zlen data <? off + sz) then Undef
  else
    match rs with
    | [] => NoFuel
    | r :: rs' =>
      let errno := if r <? 0 then - r else errno in
      let ret := if r <? 0 then -1 else Z.min r sz in
      if (ret <=? 0) && negb (errno =? Diskconfig.EINTR) then Ok (out, -1)
      else write_loop rs' data (off + ret) (u32 (sz - ret)) errno (out ++ sub_bytes data off ret)
    end.

(** The result and the contents of the new file. *)
Definition named_file_write (fd : Z) (data : list Z) (rs : list Z) (errno : Z) : outcome (list Z * Z) :=
  if fd <? 0 then Ok ([], -1) else write_loop rs data 0 (zlen data) errno [].

Definition mount_partition_device (st : fb) (device type mountpoint : list Z) : fb * Z :=
  let '(st, r, _) := sys st (SysMkdir mountpoint) in
  if negb (r =? 0) && negb (r =? - EEXIST) then (st, -1)
  else
    let '(st, r, _) := sys st (SysMount device mountpoint type) in
    if negb (r =? 0) && negb (r =? - EBUSY) then (st, -1) else (st, 0).

Definition ext4_filesystem_checks (st : fb) (device : list Z) : fb * Z :=
  let '(st, ret) := execute_command st (str "/bin/e2fsck -C 0 -fn " ++ device) in
  if negb (ret =? 0) then (st, -1)
  else
    let '(st, ret) := execute_command st (str "/bin/resize2fs -Ff " ++ device) in
    if negb (ret =? 0) then (st, -1)
    else
      let '(st, ret) := execute_command st (str "/bin/tune2fs -C 1 " ++ device) in
      if negb (ret =? 0) then (st, -1) else (st, 0).

Definition volume_for_device (device : list Z) : option Fstab.Volume :=
  Fstab.volume_for_device volumes (to_text device).

Definition mount_partition (st : fb) (ptn : option Diskconfig.part_info) : outcome (fb * Z) :=
  match ptn with
  | None => Ok (st, -1)
  | Some ptn =>
    let! (st, pdevice) := find_part_device st (p_name ptn) in
    match pdevice with
    | None => Ok (st, -1)
    | Some pdevice =>
      match volume_for_device pdevice with
      | None => Ok (st, -1)
      | Some vol =>
        let '(st, r, _) := sys st SysAsprintf in
        if r <? 0 then Ok (st, -1)
        else Ok (mount_partition_device st pdevice (of_text (Fstab.fs_type vol)) (str "/mnt/" ++ p_name ptn))
      end
    end
  end.

(** A null partition is dereferenced. *)
Definition unmount_partition (st : fb) (ptn : option Diskconfig.part_info) : outcome (fb * Z) :=
  let! ptn := oof ptn in
  let '(st, r, _) := sys st SysAsprintf in
  if r <? 0 then Ok (st, -1)
  else let '(st, r, _) := sys st (SysUmount (str "/mnt/" ++ p_name ptn)) in Ok (st, r).

Definition is_valid_blkdev (st : fb) (node : list Z) : fb * bool :=
  let '(st, mode, _) := sys st (SysStat node) in
  if mode <? 0 then (st, false) else (st, S_ISBLK mode).

Definition erase_partition (st : fb) (ptn : Diskconfig.part_info) : outcome (fb * Z) :=
  let! (st, pdevice) := find_part_device st (p_name ptn) in
  match pdevice with
  | None => die
  | Some pdevice =>
    let '(st, valid) := is_valid_blkdev st pdevice in
    if negb valid then Ok (st, -1)
    else
      match volume_for_device pdevice with
      | None => Ok (st, -1)
      | Some vol =>
        if text_eqb (Fstab.fs_type vol) (lit "ext4") then
          let! dev := oof (Fstab.device vol) in
          let '(st, r, _) := sys st (SysMakeExt4 (of_text dev) (Fstab.length_ vol)) in
          if negb (r =? 0) then Ok (st, -1) else Ok (st, 0)
        else Ok (st, -1)
      end
  end.

(** [strstr(l, p)]: the rest of [l] from the first [p] on. *)
Fixpoint strstr (l p : list Z) : option (list Z) :=
  if bytes_eqb (take (length p) l) p then Some l
  else match l with [] => None | _ :: l' => strstr l' p end.

Definition dquote : list Z := [34].

(** When all goes well, the machine runs another kernel before the end. *)
Definition kexec_linux (st : fb) (basepath kernel : list Z) : outcome (fb * Z) :=
  let bak := default [] (strstr kernel (str ".bak")) in
  let cmdline_file := snprintf PATH_MAX (basepath ++ str "/cmdline" ++ bak) in
  let '(st, fd, _) := sys st (SysOpen cmdline_file) in
  if fd <? 0 then Ok (st, -1)
  else
    let '(st, n, bs) := sys st (SysRead 2047) in
    if n <? 0 then Ok (st, -1)
    else
      let cmdline_buf := c_string (take (Z.to_nat n) bs) in
      let st := fst (fst (sys st SysClose)) in
      let ramdisk_file := snprintf PATH_MAX (basepath ++ str "/ramdisk.img" ++ bak) in
      let '(st, r, _) := sys st (SysAccess ramdisk_file) in
      let tail := str " --command-line=" ++ dquote ++ cmdline_buf ++ dquote in
      let '(st, ret) :=
        if negb (r =? 0)
        then execute_command st (str "kexec -l " ++ basepath ++ str "/" ++ kernel ++ tail)
        else execute_command st (str "kexec -l " ++ basepath ++ str "/" ++ kernel ++
               str " --ramdisk=" ++ ramdisk_file ++ str " " ++ tail) in
      if negb (ret =? 0) then Ok (st, -1)
      else
        let! st := fastboot_okay st [] in
        let st := fst (fst (sys st SysSync)) in
        let st := fst (execute_command st (str "kexec -e")) in
        Ok (st, -1).

(** [wr] is what [named_file_write] gives for the command file. *)
Definition apply_sw_update (st : fb) (location : list Z) (send_fb_ok : bool) (wr : Z) : outcome fb :=
  let '(st, r, _) := sys st SysAsprintf in
  if r <? 0 then Ok st
  else
    let! cacheptn := find_part (str "cache") in
    let out st := let! (st, _) := unmount_partition st cacheptn in Ok st in
    match cacheptn with
    | None => out st
    | Some _ =>
      let! (st, r) := mount_partition st cacheptn in
      if negb (r =? 0) then out st
      else
        let '(st, r, _) := sys st (SysMkdir (str "/mnt/cache/recovery")) in
        if negb (r =? 0) && negb (r =? - EEXIST) then out st
        else if negb (wr =? 0) then
          let '(st, _, _) := sys st (SysUnlink (str "/mnt/userdata/tboot.update.zip")) in out st
        else
          let! st := if send_fb_ok then fastboot_okay st [] else Ok st in
          out st
    end.

End Util.

(** ** String functions *)

Fixpoint index_of (c : Z) (l : list Z) : option nat :=
  match l with
  | [] => None
  | x :: l' => if x =? c then Some 0%nat else option_map S (index_of c l')
  end.

(** The loop over the parameters: the text is cut at every space. *)
Fixpoint cmdline_loop {S : Type} (fuel : nat) (callback : list Z -> S -> S) (ptr : list Z) (s : S) : outcome S :=
  match fuel with
  | O => NoFuel
  | Datatypes.S fuel' =>
    match ptr with
    | [] => Ok s
    | _ =>
      match index_of 32 ptr with
      | Some i => cmdline_loop fuel' callback (drop (Datatypes.S i) ptr) (callback (take i ptr) s)
      | None => Ok (callback ptr s)
      end
    end
  end.

(** [file] is what [/proc/cmdline] holds: [None] when it cannot be opened,
    [Some None] when it cannot be read. *)
Definition cmdline_text (file : option (option (list Z))) : list Z :=
  match file with
  | Some (Some bs) =>
    let bs := take (Z.to_nat 1023) bs in
    let n := length bs in
    c_string (if (0 <? n)%nat && bool_decide (last bs = Some 10) then take (n - 1) bs else bs)
  | _ => []
  end.

Definition import_kernel_cmdline {S : Type} (file : option (option (list Z)))
    (callback : list Z -> S -> S) (s : S) : outcome S :=
  let cmdline := cmdline_text file in
  cmdline_loop (Datatypes.S (length cmdline)) callback cmdline s.

(** [argv] up to [argc] or to its first null pointer. *)
Fixpoint args_of (argc : nat) (argv : list (option (list Z))) : outcome (list (list Z)) :=
  match argc with
  | O => Ok []
  | S n =>
    match argv with
    | [] => Undef
    | None :: _ => Ok []
    | Some a :: argv' => let! l := args_of n argv' in Ok (a :: l)
    end
  end.

(** [sprintf] appends every argument and a separator, which is not the
    terminator; the last one is cut off. *)
Definition array_to_string (argc : nat) (argv : list (option (list Z))) (separator : Z) (mem : bool)
  : outcome (option (list Z)) :=
  let! args := args_of argc argv in
  if negb mem then Ok None
  else
    let s := concat (map (fun a => a ++ [separator]) args) in
    match length s with
    | O => Undef
    | S n => Ok (Some (take n s))
    end.

(** ** Lemmas *)

Lemma sub_app_drop (l : list Z) off n : 0 <= off -> 0 <= n -> off + n <= zlen l ->
  take (Z.to_nat off) l ++ sub_bytes l off n = take (Z.to_nat (off + n)) l.
Proof. intros. unfold sub_bytes. rewrite Z2Nat.inj_add by lia. apply take_take_drop. Qed.

(** Positive results write the rest of the buffer. *)
Lemma write_loop_ok data : zlen data < 2 ^ 32 -> forall rs off errno,
  0 <= off <= zlen data -> Forall (fun r => 0 < r) rs -> zlen data - off <= zlen rs ->
  write_loop rs data off (zlen data - off) errno (take (Z.to_nat off) data) = Ok (data, 0).
Proof.
  intros Hz. induction rs as [|r rs IH]; intros off errno Hoff Hr Hl; cbn [write_loop].
  - rewrite zlen_nil in Hl. assert (off = zlen data) as -> by lia. rewrite Z.sub_diag. change (0 =? 0) with true.
    cbv iota. unfold zlen. by rewrite Nat2Z.id, firstn_all.
  - destruct (Z.eqb_spec (zlen data - off) 0) as [E|E].
    { assert (off = zlen data) as -> by lia. unfold zlen. by rewrite Nat2Z.id, firstn_all. }
    assert (E1 : (off <? 0) || (zlen data <? off + (zlen data - off)) = false)
      by (apply orb_false_intro; lia). rewrite E1.
    apply Forall_cons in Hr as [Hr Hrs]. assert (E2 : (r <? 0) = false) by lia. rewrite E2.
    set (ret := Z.min r (zlen data - off)). assert (Hret : 0 < ret <= zlen data - off) by lia.
    assert (E3 : (ret <=? 0) = false) by lia. rewrite E3. cbn [andb].
    rewrite sub_app_drop by lia. rewrite u32_id by lia.
    replace (zlen data - off - ret) with (zlen data - (off + ret)) by lia.
    apply IH; [lia|done|]. rewrite zlen_cons in Hl. lia.
Qed.

Lemma index_of_app c w rest : c ∉ w -> index_of c (w ++ c :: rest) = Some (length w).
Proof.
  induction w as [|x w IH]; intros Hn; cbn.
  - by rewrite Z.eqb_refl.
  - apply not_elem_of_cons in Hn as [Hne Hn]. assert (E : (x =? c) = false) by lia. by rewrite E, IH.
Qed.

Lemma index_of_none c w : c ∉ w -> index_of c w = None.
Proof.
  induction w as [|x w IH]; intros Hn; cbn; [done|].
  apply not_elem_of_cons in Hn as [Hne Hn]. assert (E : (x =? c) = false) by lia. by rewrite E, IH.
Qed.

(** Words with the separator between them. *)
Fixpoint join (sep : Z) (ws : list (list Z)) : list Z :=
  match ws with
  | [] => []
  | [w] => w
  | w :: ws' => w ++ sep :: join sep ws'
  end.

Definition word (w : list Z) : Prop := w <> [] /\ Forall (fun c => c <> 32 /\ c <> 0 /\ c <> 10) w.

Lemma word_space w : word w -> 32 ∉ w.
Proof. intros [_ H] Hin. rewrite Forall_forall in H. by destruct (H 32 Hin). Qed.

Lemma cmdline_words {S} (cb : list Z -> S -> S) ws : Forall word ws -> forall fuel s,
  (length (join 32 ws) < fuel)%nat ->
  cmdline_loop fuel cb (join 32 ws) s = Ok (fold_left (fun s w => cb w s) ws s).
Proof.
  induction ws as [|w ws IH]; intros Hw fuel s Hf; [by destruct fuel; [lia|]|].
  apply Forall_cons in Hw as [Hw Hws]. pose proof (word_space w Hw) as Hsp. destruct Hw as [Hne _].
  destruct fuel as [|fuel]; [lia|]. destruct ws as [|w' ws].
  - cbn [join fold_left cmdline_loop]. destruct w as [|c w]; [done|]. by rewrite index_of_none.
  - change (join 32 (w :: w' :: ws)) with (w ++ 32 :: join 32 (w' :: ws)) in *. cbn [cmdline_loop].
    destruct (w ++ 32 :: join 32 (w' :: ws)) as [|c l] eqn:E; [by destruct w|]. rewrite <- E in *. clear E c l.
    rewrite index_of_app by done. rewrite drop_app_ge by lia.
    replace (Datatypes.S (length w) - length w)%nat with 1%nat by lia. cbn [drop].
    rewrite take_app_length. rewrite IH; [done|done|].
    rewrite length_app in Hf. cbn [length] in Hf. lia.
Qed.

Lemma join_chars ws : Forall word ws -> Forall (fun c => c <> 0 /\ c <> 10) (join 32 ws).
Proof.
  induction ws as [|w ws IH]; intros Hw; [constructor|]. apply Forall_cons in Hw as [[_ Hw] Hws].
  assert (H : Forall (fun c => c <> 0 /\ c <> 10) w) by (eapply Forall_impl; [exact Hw|]; cbn; tauto).
  destruct ws as [|w' ws]; [done|]. cbn [join]. apply Forall_app. split; [done|]. constructor; [lia|by apply IH].
Qed.

Lemma c_string_id l : Forall (fun c => c <> 0 /\ c <> 10) l -> c_string l = l.
Proof.
  induction l as [|c l IH]; intros H; [done|]. apply Forall_cons in H as [[Hc _] H]. cbn.
  assert (E : (c =? 0) = false) by lia. by rewrite E, IH.
Qed.

Lemma collect_words ws : forall acc : list (list Z), fold_left (fun s w => s ++ [w]) ws acc = acc ++ ws.
Proof. induction ws as [|w ws IH]; intros acc; cbn; [by rewrite app_nil_r|]. by rewrite IH, <- app_assoc. Qed.

Lemma args_of_some args : args_of (length args) (map Some args) = Ok args.
Proof. induction args as [|a args IH]; [done|]. cbn. by rewrite IH. Qed.

Lemma concat_join sep args : args <> [] -> concat (map (fun a => a ++ [sep]) args) = join sep args ++ [sep].
Proof.
  induction args as [|a args IH]; [done|]. intros _. destruct args as [|b args].
  - cbn. by rewrite app_nil_r.
  - change (concat (map (fun a => a ++ [sep]) (a :: b :: args))) with
      ((a ++ [sep]) ++ concat (map (fun a => a ++ [sep]) (b :: args))).
    rewrite IH by done. change (join sep (a :: b :: args)) with (a ++ sep :: join sep (b :: args)).
    by rewrite <- !app_assoc.
Qed.

(** ** Theorems *)

(** Writing a file. When every [write] takes something, however little,
    [named_file_write] returns 0 and the file holds exactly the data; a file that
    cannot be opened and an error give -1. *)
Theorem named_file_write_correct fd data rs errno :
  0 <= fd -> zlen data < 2 ^ 32 -> Forall (fun r => 0 < r) rs -> zlen data <= zlen rs ->
  named_file_write fd data rs errno = Ok (data, 0).
Proof.
  intros Hfd Hz Hr Hl. unfold named_file_write. assert (E : (fd <? 0) = false) by lia. rewrite E.
  pose proof (write_loop_ok data Hz rs 0 errno ltac:(pose proof (zlen_nonneg data); lia) Hr) as H.
  rewrite Z.sub_0_r in H. apply H. lia.
Qed.

Lemma named_file_write_correct_witness : named_file_write 3 [7; 8; 9] [1; 1; 5] 0 = Ok ([7; 8; 9], 0).
Proof. apply (named_file_write_correct 3 [7; 8; 9] [1; 1; 5] 0); [lia|by vm_compute|repeat constructor; lia|by vm_compute]. Defined.

(** An interrupted [write] moves the pointer back by one: the byte before is
    written again, and the function still returns 0; when it is the first
    [write], the byte in front of the buffer is read. *)
Theorem named_file_write_interrupted fd data k errno :
  0 <= fd -> zlen data < 2 ^ 32 - 1 -> 0 < k < zlen data ->
  named_file_write fd data [k; - Diskconfig.EINTR; zlen data] errno =
    Ok (take (Z.to_nat k) data ++ drop (Z.to_nat (k - 1)) data, 0) /\
  named_file_write fd data [- Diskconfig.EINTR; zlen data] errno = Undef.
Proof.
  intros Hfd Hz Hk. unfold named_file_write. assert (E : (fd <? 0) = false) by lia. rewrite E.
  assert (E0 : (zlen data =? 0) = false) by lia. cbn [write_loop]. rewrite E0.
  change (- Diskconfig.EINTR <? 0) with true. change (Z.min) with Z.min.
  assert (E1 : (0 <? 0) || (zlen data <? 0 + zlen data) = false) by (apply orb_false_intro; lia). rewrite E1.
  split.
  - assert (E2 : (k <? 0) = false) by lia. rewrite E2, Z.min_l by lia.
    assert (E3 : (k <=? 0) = false) by lia. rewrite E3. cbn [andb]. rewrite Z.add_0_l, u32_id by lia.
    assert (E4 : (zlen data - k =? 0) = false) by lia. rewrite E4.
    assert (E5 : (k <? 0) || (zlen data <? k + (zlen data - k)) = false) by (apply orb_false_intro; lia). rewrite E5.
    change ((-1 <=? 0) && negb (- - Diskconfig.EINTR =? Diskconfig.EINTR)) with false. cbv iota.
    replace (zlen data - k - -1) with (zlen data - (k - 1)) by lia. rewrite u32_id by lia.
    change (k + -1) with (k - 1).
    assert (E6 : (zlen data - (k - 1) =? 0) = false) by lia. rewrite E6.
    assert (E7 : (k - 1 <? 0) || (zlen data <? k - 1 + (zlen data - (k - 1))) = false) by (apply orb_false_intro; lia).
    rewrite E7. assert (E8 : (zlen data <? 0) = false) by lia. rewrite E8, Z.min_r by lia.
    assert (E9 : (zlen data - (k - 1) <=? 0) = false) by lia. rewrite E9. cbn [andb].
    rewrite Z.sub_diag. change (u32 0 =? 0) with true. cbv iota. unfold sub_bytes at 2.
    change (Z.to_nat (-1)) with 0%nat. cbn [take]. rewrite app_nil_r. do 3 f_equal.
    unfold sub_bytes. rewrite take_ge; [done|]. rewrite length_drop. unfold zlen in *. lia.
  - change ((-1 <=? 0) && negb (- - Diskconfig.EINTR =? Diskconfig.EINTR)) with false. cbv iota.
    change (0 + -1) with (-1). change (-1 <? 0) with true. cbn [orb].
    rewrite u32_id by lia. assert (E2 : (zlen data - -1 =? 0) = false) by lia. by rewrite E2.
Qed.

Lemma import_words {S} (cb : list Z -> S -> S) ws s : Forall word ws -> (length (join 32 ws) < 1023)%nat ->
  import_kernel_cmdline (Some (Some (join 32 ws ++ [10]))) cb s = Ok (fold_left (fun s w => cb w s) ws s).
Proof.
  intros Hw Hl. unfold import_kernel_cmdline, cmdline_text.
  rewrite (take_ge (join 32 ws ++ [10])) by (rewrite length_app; cbn [length]; lia).
  rewrite last_snoc, bool_decide_true, length_app by done. cbn [length].
  assert (E : (0 <? length (join 32 ws) + 1)%nat = true) by (apply Nat.ltb_lt; lia). rewrite E. cbn [andb].
  replace (length (join 32 ws) + 1 - 1)%nat with (length (join 32 ws)) by lia. rewrite take_app_length.
  rewrite (c_string_id _ (join_chars ws Hw)). apply cmdline_words; [done|lia].
Qed.

(** The kernel command line. Parameters without spaces, printed with spaces
    between them and a newline behind, are given to the callback one by one, in
    order, when they fit the buffer. *)
Theorem import_kernel_cmdline_words ws :
  Forall word ws -> (length (join 32 ws) < 1023)%nat ->
  import_kernel_cmdline (Some (Some (join 32 ws ++ [10]))) (fun w acc => acc ++ [w]) [] = Ok ws.
Proof. intros Hw Hl. rewrite import_words by done. by rewrite collect_words. Qed.

Lemma import_kernel_cmdline_words_witness :
  import_kernel_cmdline (Some (Some (str "quiet tboot.delay=3" ++ [10]))) (fun w acc => acc ++ [w]) [] =
  Ok [str "quiet"; str "tboot.delay=3"].
Proof.
  apply (import_kernel_cmdline_words [str "quiet"; str "tboot.delay=3"]); [|vm_compute; lia].
  repeat constructor; try (by vm_compute); intros; repeat (constructor || lia).
Defined.

(** Joining arguments. [array_to_string] of at least one argument is the
    arguments with the separator between them; of none it writes in front of its
    buffer. *)
Theorem array_to_string_join args sep :
  array_to_string (length args) (map Some args) sep true =
  match args with [] => Undef | _ => Ok (Some (join sep args)) end.
Proof.
  unfold array_to_string. rewrite args_of_some. cbn [obind negb]. destruct args as [|a args]; [done|].
  rewrite (concat_join sep (a :: args)) by done. rewrite length_app, Nat.add_1_r, take_app_length. done.
Qed.

End TbootUtil.
