(* ===== verification/Aboot.v ===== *)
(** * src/aboot.c: the commands of the server

    Erasing, flashing (streaming and from memory), the oem commands with [push],
    rebooting, and the command tables that plugins fill. Commands are handlers of
    [Fastboot]; they use the utilities of [TbootUtil], the disk layout, the volume
    table, the hash map and the transfer of [StreamFlash]. What a plugin registers
    is a parameter, as its code is not part of the program; [mem] is the string
    behind a pointer and [place] a pointer to a string. *)

From S2P Require Import Prelude Posix ConfigUtils Diskconfig Fstab Hashmap Fastboot StreamFlash TbootUtil.
From Stdlib Require Import Ascii.

Module Aboot.
Import ConfigUtils Fastboot TbootUtil.

(** ** Command tables *)

(** [k] is the copy of the key, null when there is no memory. The map and the
    result. *)
Definition aboot_register_cmd (map : Hashmap.Hashmap) (k callback : Z) (al : bool * bool)
  : outcome (Hashmap.Hashmap * Z) :=
  if k =? Hashmap.NULL then Ok (map, -1)
  else
    let! old := Hashmap.hashmapGet map k in
    if negb (old =? Hashmap.NULL) then Ok (map, -1)
    else let! (map, _) := Hashmap.hashmapPut map k callback al in Ok (map, 0).

(** The two tables of [aboot_register_commands]. *)
Definition create_tables (mem : Z -> text) (al1 al2 : bool * bool)
  : outcome (Hashmap.Hashmap * Hashmap.Hashmap) :=
  let! flash_cmds := Hashmap.hashmapCreate 8 (Hashmap.strhash mem) (Hashmap.strcompare mem) al1 in
  let! oem_cmds := Hashmap.hashmapCreate 8 (Hashmap.strhash mem) (Hashmap.strcompare mem) al2 in
  match flash_cmds, oem_cmds with
  | Some f, Some o => Ok (f, o)
  | _, _ => die
  end.

(** ** Strings *)

(** [strtok_r] with the delimiters space and tab: the first token and the rest. *)
Definition is_delim (c : Z) : bool := (c =? 32) || (c =? 9).

Fixpoint skip_delims (l : list Z) : list Z :=
  match l with
  | c :: l' => if is_delim c then skip_delims l' else l
  | [] => []
  end.

Fixpoint span_token (l : list Z) : list Z * list Z :=
  match l with
  | [] => ([], [])
  | c :: l' => if is_delim c then ([], l') else let '(t, r) := span_token l' in (c :: t, r)
  end.

(** At most [n] arguments. *)
Fixpoint tokens (n : nat) (l : list Z) : list (list Z) :=
  match n with
  | O => []
  | S n' =>
    match skip_delims l with
    | [] => []
    | l => let '(t, r) := span_token l in t :: tokens n' r
    end
  end.

Definition MAX_OEM_ARGS : nat := 64.

Fixpoint skip_spaces (l : list Z) : list Z :=
  match l with
  | c :: l' => if c =? 32 then skip_spaces l' else l
  | [] => []
  end.

(** [basename]: trailing slashes are dropped, then all up to the last slash. *)
Fixpoint drop_slashes (l : list Z) : list Z :=
  match l with
  | c :: l' => if c =? 47 then drop_slashes l' else l
  | [] => []
  end.

Fixpoint until_slash (l : list Z) : list Z :=
  match l with
  | c :: l' => if c =? 47 then [] else c :: until_slash l'
  | [] => []
  end.

Definition basename (l : list Z) : list Z :=
  match l with
  | [] => str "."
  | _ => match until_slash (drop_slashes (rev l)) with [] => str "/" | b => rev b end
  end.

(** [%-12s%u\n] of a partition. *)
Definition pad (n : nat) (l : list Z) : list Z := l ++ replicate (n - length l) 32.

Definition part_line (p : Diskconfig.part_info) : list Z :=
  pad 12 (TbootUtil.p_name p) ++ of_text (Diskconfig.dec_digits 11 (Diskconfig.p_len_kb p / 1024)) ++ newline.

(** The program that unpacks the stream, from its first bytes. *)
Definition bzip2_magic (m : list Z) : bool :=
  match m with
  | m0 :: m1 :: m2 :: m3 :: _ =>
    (m0 =? 66) && (m1 =? 90) && ((m2 =? 104) || (m2 =? 48)) && ((49 <=? m3) && (m3 <=? 57))
  | _ => false
  end.

Definition gzip_magic (m : list Z) : bool :=
  match m with m0 :: m1 :: _ => (m0 =? 0x1f) && (m1 =? 0x8b) | _ => false end.

Definition dd_to (device : list Z) : list Z := str "/bin/dd of=" ++ device ++ str " bs=8192".

(** The flag of [tboot_ui_warn] and the command of [cmd_stream_flash]. *)
Definition stream_command (magic device : list Z) : bool * list Z :=
  if gzip_magic magic then (false, str "/bin/gzip -c -d | " ++ dd_to device)
  else if bzip2_magic magic then (false, str "/bin/bzip2 -c -d | " ++ dd_to device)
  else (true, dd_to device).

(** The test of [cmd_flash] reads the fourth byte. *)
Definition flash_gzip_magic (m : list Z) : bool :=
  match m with m0 :: m1 :: _ :: m3 :: _ => (m0 =? 0x1f) && (m1 =? 0x8b) && (m3 =? 8) | _ => false end.

Definition flash_command (data device : list Z) : bool * list Z :=
  if (3 <? zlen data) && flash_gzip_magic data then (false, str "/bin/gzip -c -d | " ++ dd_to device)
  else if (3 <? zlen data) && bzip2_magic data then (false, str "/bin/bzip2 -c -d | " ++ dd_to device)
  else (true, dd_to device).

Definition log_ui (st : fb) (e : effect) : fb := add_log st [e].

(** ** Rules for answers *)

Lemma obind_assoc {A B C} (m : outcome A) (f : A -> outcome B) (g : B -> outcome C) :
  obind (obind m f) g = obind m (fun a => obind (f a) g).
Proof. by destruct m. Qed.

(** A part of a handler that sends interim packets only. *)
Definition told (st st' : fb) : Prop :=
  ready st' /\ consumes st st' /\ state st' = STATE_COMMAND /\
  exists o, usb_out st' = usb_out st ++ o /\ Forall interim o.

(** A handler that answers. *)
Definition replied (st : fb) (m : outcome fb) : Prop :=
  exists st' o, m = Ok st' /\ ready st' /\ consumes st st' /\ state st' = STATE_COMPLETE /\
    usb_out st' = usb_out st ++ o /\ answered o.

Lemma told_trans a b c : told a b -> told b c -> told a c.
Proof.
  intros (_ & C1 & _ & o1 & U1 & I1) (R2 & C2 & S2 & o2 & U2 & I2). split; [done|].
  split; [by eapply consumes_trans|]. split; [done|]. exists (o1 ++ o2). rewrite U2, U1, app_assoc.
  split; [done|]. by apply Forall_app.
Qed.

Lemma told_log st l : ready st -> state st = STATE_COMMAND -> told st (add_log st l).
Proof. intros Hr Hs. split; [exact Hr|]. split; [by exists []|]. split; [exact Hs|]. exists []. by rewrite app_nil_r. Qed.

Lemma told_info st buf : ready st -> state st = STATE_COMMAND ->
  exists st', fastboot_info st buf = Ok st' /\ told st st'.
Proof.
  intros Hr Hs. eexists. split; [by apply info_response|]. split; [by apply ready_out|]. split; [by exists []|].
  split; [done|]. eexists. split; [reflexivity|]. apply info_interim.
Qed.

Lemma replied_after st st1 m : told st st1 -> replied st1 m -> replied st m.
Proof.
  intros (_ & C1 & _ & o1 & U1 & I1) (st' & o & -> & R2 & C2 & S2 & U2 & A2). exists st', (o1 ++ o).
  split; [done|]. split; [done|]. split; [by eapply consumes_trans|]. split; [done|].
  split; [by rewrite U2, U1, app_assoc|]. destruct A2 as (pre & code & fin & -> & Hp & Hrest).
  exists (o1 ++ pre), code, fin. split; [by rewrite app_assoc|]. split; [by apply Forall_app|done].
Qed.

Lemma replied_final st code reason : code = str "OKAY" \/ code = str "FAIL" -> ready st -> state st = STATE_COMMAND ->
  replied st (let! st := _fastboot_ack st code (Some reason) in Ok (set_state st STATE_COMPLETE)).
Proof.
  intros Hc Hr Hs. rewrite final_response by done. eexists _, _. split; [reflexivity|].
  split; [by apply ready_state, ready_out|]. split; [by exists []|]. split; [done|]. split; [reflexivity|].
  by apply (answered_final []).
Qed.

Lemma replied_fail st reason : ready st -> state st = STATE_COMMAND -> replied st (fastboot_fail st reason).
Proof. intros. apply replied_final; auto. Qed.

Lemma replied_okay st reason : ready st -> state st = STATE_COMMAND -> replied st (fastboot_okay st reason).
Proof. intros. apply replied_final; auto. Qed.

(** Log entries behind the answer. *)
Lemma replied_then st m (f : fb -> outcome fb) :
  replied st m -> (forall s, exists l, f s = Ok (add_log s l)) -> replied st (obind m f).
Proof.
  intros (st' & o & -> & R & C & S & U & A) Hf. cbn [obind]. destruct (Hf st') as (l & ->).
  exists (add_log st' l), o. split; [done|]. split; [exact R|]. split; [exact C|]. split; [exact S|]. done.
Qed.

Lemma replied_handler h : (forall arg st, ready st -> state st = STATE_COMMAND -> replied st (h arg st)) -> HandlerOk h.
Proof.
  intros Hh arg st Hr Hs. destruct (Hh arg st Hr Hs) as (st' & o & H1 & H2 & H3 & H4 & H5 & H6).
  exists st', o. rewrite H4. done.
Qed.

Lemma until_slash_free l : 47 ∉ until_slash l.
Proof. induction l as [|c l IH]; cbn; [set_solver|]. destruct (Z.eqb_spec c 47); set_solver. Qed.

(** [basename] leaves no slash, but for a path of slashes. *)
Lemma basename_plain l : basename l = str "/" \/ basename l <> [] /\ 47 ∉ basename l.
Proof.
  unfold basename. destruct l as [|c l]; [right; split; [done|]; apply (bool_decide_unpack _); vm_compute; done|].
  pose proof (until_slash_free (drop_slashes (rev (c :: l)))) as Hf.
  destruct (until_slash _) as [|b k]; [by left|right]. split; [intros H; apply (f_equal (@rev Z)) in H; by rewrite rev_involutive in H|].
  rewrite list_elem_of_In, <- in_rev, <- list_elem_of_In. done.
Qed.

Section Commands.
Context (os : list effect -> sys_call -> Z * list Z).
Context (disk : option Diskconfig.disk_info) (volumes : list Fstab.Volume).
Context (mem : Z -> text) (place : list Z -> Z) (flash_cmds oem_cmds : Hashmap.Hashmap).

(** What a registered function does: [flash_func] gets the data, [oem_func] the
    arguments. *)
Context (flash_func : Z -> list Z -> fb -> outcome (fb * Z)).
Context (oem_func : Z -> list (list Z) -> fb -> outcome (fb * Z)).

Local Abbreviation sys := (TbootUtil.sys os).

Definition list_callback (key value : Z) (s : outcome fb) : outcome fb * bool :=
  (let! st := s in
   if key =? Hashmap.NULL then Ok st
   else
     let '(st, r, _) := sys st SysStrdup in
     let! st := fastboot_info st (if r <? 0 then [] else of_text (mem key)) in
     fastboot_info st newline, true).

Fixpoint list_parts (st : fb) (l : list Diskconfig.part_info) : outcome fb :=
  match l with
  | [] => Ok st
  | p :: l' =>
    let '(st, r, _) := sys st SysAsprintf in
    let! st := if r =? -1 then Ok st else fastboot_info st (part_line p) in
    list_parts st l'
  end.

Definition list_partitions (st : fb) (with_os part : bool) : outcome fb :=
  if negb with_os && negb part then Ok st
  else
    let! st :=
      if with_os then
        let! st := fastboot_info st (str "FW and raw OS can be flashed:" ++ newline) in
        Hashmap.hashmapForEach flash_cmds list_callback (Ok st)
      else Ok st in
    let! st :=
      if part then
        let! st := fastboot_info st (newline ++ str "Partitions can be flashed/erased:" ++ newline) in
        let! st := fastboot_info st (str "Name        Size(MB)" ++ newline) in
        let! st := fastboot_info st (str "--------------------" ++ newline) in
        let! d := oof disk in
        list_parts st (default [] (Diskconfig.d_part_lst d))
      else Ok st in
    let! st := fastboot_info st newline in
    fastboot_okay st [].

Definition cmd_erase : handler := fun part_name st =>
  match part_name with
  | [] => list_partitions st false true
  | _ =>
    let! ptn := TbootUtil.find_part disk part_name in
    match ptn with
    | None => fastboot_fail (log_ui st UiError) (str "unknown partition name.")
    | Some ptn =>
      let! (st, r) := erase_partition os disk volumes (log_ui st UiBouncebar) ptn in
      if negb (r =? 0) then fastboot_fail (log_ui st UiError) (str "Can't erase partition")
      else fastboot_okay (log_ui st UiInfo) []
    end
  end.

(** ** Behind the data: both flash commands *)

(** Rereads the partition table when the whole disk was written, and checks and
    grows an ext4 file system. The result is the message of a failure. *)
Definition after_write (st : fb) (device : list Z) (ptn : option Diskconfig.part_info) (bar : bool)
  : outcome (fb * option (list Z)) :=
  let st := fst (fst (sys st SysSync)) in
  let! d := oof disk in
  let whole := bytes_eqb device (of_text (Diskconfig.d_device d)) in
  let '(st, fd, _) := if whole then sys st (SysOpen device) else (st, 0, []) in
  if whole && (fd <? 0) then Ok (st, Some (str "could not open device node"))
  else
    let st := if whole then fst (fst (sys (fst (fst (sys st SysRereadTable))) SysClose)) else st in
    let! (st, r, sb) :=
      match ptn with
      | Some p => if Diskconfig.p_type p =? Diskconfig.PC_PART_TYPE_LINUX
                  then check_ext_superblock os disk st p else Ok (st, 0, None)
      | None => Ok (st, 0, None)
      end in
    if negb (r =? 0) then Ok (st, Some (str "couldn't check superblock"))
    else if default false sb then
      let st := if bar then log_ui st UiBouncebar else st in
      let '(st, r) := ext4_filesystem_checks os st device in
      if negb (r =? 0) then Ok (st, Some (str "ext4 filesystem error")) else Ok (st, None)
    else Ok (st, None).

(** ** Flashing from memory *)

(** The loop over slices of the [sz] bytes at [data]: [FWrote] when it ends, [FShort] when [fwrite] takes
    less, [FMore] when more than everything was written. *)
Inductive flash_end : Set := FWrote | FShort | FMore.

Fixpoint flash_loop (fuel : nat) (st : fb) (data : list Z) (sz slice percent finished : Z)
  : outcome (fb * flash_end) :=
  match fuel with
  | O => NoFuel
  | S fuel' =>
    let '(slice, percent) := if slice =? 0 then (sz, 99) else (slice, percent) in
    if zlen data <? finished + slice then Undef
    else
      let '(st, n, _) := sys st (SysFwrite (sub_bytes data finished slice)) in
      if negb (n =? slice) then Ok (st, FShort)
      else
        let percent := percent + 1 in
        let finished := u32 (finished + slice) in
        let st := if percent <? 100 then add_log st [UiTextbar percent] else st in
        if sz <? finished then Ok (st, FMore)
        else if finished =? sz then Ok (st, FWrote)
        else if percent =? 100 then
          let slice := sz mod 100 in
          if slice =? 0 then Ok (st, FWrote) else flash_loop fuel' st data sz slice 99 finished
        else flash_loop fuel' st data sz slice percent finished
  end.

Definition cmd_flash : handler := fun part_name st =>
  let data := take (Z.to_nat (download_size st)) (download_base st) in
  let run_on st device ptn :=
    let failed st msg := let! st := fastboot_fail st (str msg) in Ok (log_ui st UiError) in
    let '(st, valid) := is_valid_blkdev os st device in
    if negb valid then failed st "invalid destination node. partition disks?"
    else
      let '(warn, cmd) := flash_command data device in
      let st := if warn : bool then log_ui st UiWarn else st in
      let '(st, r, _) := sys st SysAsprintf in
      if r <? 0 then failed st "memory allocation error"
      else
        let '(st, fp, _) := sys st (SysPopen cmd) in
        if fp <? 0 then failed st "popen failure"
        else
          let! (st, e) := flash_loop 102 st (download_base st) (zlen data) (zlen data / 100) 0 0 in
          match e with
          | FShort | FMore =>
            let! st := fastboot_fail st (str "image write failure") in
            Ok (log_ui (fst (fst (sys st SysPclose))) UiError)
          | FWrote =>
            let st := fst (fst (sys st SysPclose)) in
            let! (st, e) := after_write st device ptn false in
            match e with
            | Some msg => let! st := fastboot_fail st msg in Ok (log_ui st UiError)
            | None => fastboot_okay (log_ui st UiInfo) []
            end
          end in
  if bytes_eqb part_name (str "disk") then
    let! d := oof disk in run_on st (of_text (Diskconfig.d_device d)) None
  else
    let! cb := Hashmap.hashmapGet flash_cmds (place part_name) in
    if negb (cb =? Hashmap.NULL) then
      let! (st, r) := flash_func cb data (log_ui st UiBouncebar) in
      if negb (r =? 0) then fastboot_fail (log_ui st UiError) part_name
      else fastboot_okay (log_ui st UiInfo) []
    else
      let! (st, device) := find_part_device os disk st part_name in
      match device with
      | None =>
        let! st := fastboot_fail st (str "unknown partition specified") in Ok (log_ui st UiError)
      | Some device =>
        let! ptn := TbootUtil.find_part disk part_name in
        run_on st device ptn
      end.

(** ** Streaming flash *)

(** The variable [t_reader]: not initialised, a running reader, a joined one. *)
Inductive reader_thread : Type := NoThread | Running (tr : StreamFlash.stream) | Joined.

(** The end of the command. The buffers are freed before the reader is
    cancelled, so that it may still run: [late] is what it does. *)
Definition stream_out (late : list StreamFlash.label) (st : fb) (bufs : list StreamFlash.slot)
    (t_reader : reader_thread) : outcome fb :=
  let! bufs := StreamFlash.free_buffers bufs in
  match t_reader with
  | NoThread => Undef
  | Running tr => let! _ := StreamFlash.run late (StreamFlash.with_buf tr bufs) in Ok st
  | Joined => Ok st
  end.

Definition no_buffers : list StreamFlash.slot := [StreamFlash.Null; StreamFlash.Null].

(** What the message of a failed transfer says. *)
Definition fail_text (why : StreamFlash.fail_reason) : list Z :=
  match why with
  | StreamFlash.DownloadFailed => str "download failed."
  | StreamFlash.BrokenPipe => str "broken pipe, image too large?"
  | StreamFlash.JoinFailed => str "join reader thread failed"
  | StreamFlash.WriteFailed => str "write to device failed."
  end.

(** The label [error]. *)
Definition stream_failed (late : list StreamFlash.label) (st : fb) (msg : list Z)
    (bufs : list StreamFlash.slot) (t : reader_thread) : outcome fb :=
  let! st := fastboot_fail st msg in stream_out late (log_ui st UiError) bufs t.

(** Behind the transfer. The reader's writes are recorded where it ends. *)
Definition stream_end (late : list StreamFlash.label) (device : list Z) (ptn : option Diskconfig.part_info)
    (tr : StreamFlash.stream) : outcome fb :=
  let st := add_log (StreamFlash.server tr) (map (fun d => Sys (SysFwrite d)) (StreamFlash.fout tr)) in
  match StreamFlash.w_at tr with
  | StreamFlash.WSuccess =>
    let! (st, e) := after_write (log_ui st UiBouncebar) device ptn true in
    match e with
    | Some msg => stream_failed late st msg (StreamFlash.buf tr) Joined
    | None =>
      let! st := fastboot_okay (log_ui st UiInfo) [] in
      stream_out late st (StreamFlash.buf tr) Joined
    end
  | StreamFlash.WError StreamFlash.WriteFailed =>
    stream_failed late st (fail_text StreamFlash.WriteFailed) (StreamFlash.buf tr) Joined
  | StreamFlash.WError why => stream_failed late st (fail_text why) (StreamFlash.buf tr) (Running tr)
  | _ => NoFuel
  end.

(** From the handshake on. [al] are the allocations of the buffers, [heap] what
    was in the first one before, [sched] is the schedule of the transfer, [late]
    that of the reader behind it. *)
Definition stream_to (al : nat -> bool * bool * bool) (heap : list Z) (sched late : list StreamFlash.label) (st : fb)
    (device : list Z) (ptn : option Diskconfig.part_info) (len : Z) : outcome fb :=
  let! (st, r, _) := streaming_download st len true in
  if negb (r =? 0) then stream_failed late st (str "protocol handshake failed.") no_buffers NoThread
  else
    let! (bufs, ok) := StreamFlash.create_buffers StreamFlash.NR_BUFFER 0 al no_buffers in
    if negb ok then stream_failed late st (str "out of memory") bufs NoThread
    else
      let size := StreamFlash.init_size len in
      let! (st, r, bs) := streaming_download st size false in
      if negb (r =? 0) then stream_failed late st (str "download failed.") bufs NoThread
      else
        let '(warn, cmd) := stream_command (bs ++ heap) device in
        let st := if warn : bool then log_ui st UiWarn else st in
        let '(st, r, _) := sys st SysAsprintf in
        if r <? 0 then stream_failed late st (str "asprintf") bufs NoThread
        else
          let '(st, fp, _) := sys st (SysPopen cmd) in
          if fp <? 0 then stream_failed late st (str "open for write.") bufs NoThread
          else
            let '(st, r, _) := sys st SysThread in
            if negb (r =? 0) then stream_failed late st (str "create reader thread failed.") bufs NoThread
            else
              let! tr := StreamFlash.run sched (StreamFlash.first_state st len bs) in
              stream_end late device ptn tr.

(** [cmd] is [part_name:data_len]. *)
Definition cmd_stream_flash (al : nat -> bool * bool * bool) (heap : list Z)
    (sched late : list StreamFlash.label) : handler :=
  fun cmd st =>
  let failed st msg := stream_failed late st (str msg) no_buffers NoThread in
  let '(st, r, _) := sys st SysStrdup in
  if r <? 0 then failed st "strdup failed."
  else
    match index_of 58 cmd with
    | None => failed st "invalid cmd."
    | Some i =>
      let len := strtoul16 (drop (S i) cmd) in
      let part_name := take i cmd in
      if bytes_eqb part_name [] then list_partitions st true true
      else if bytes_eqb part_name (str "disk") then
        let! d := oof disk in
        stream_to al heap sched late st (of_text (Diskconfig.d_device d)) None len
      else
        let! cb := Hashmap.hashmapGet flash_cmds (place part_name) in
        if negb (cb =? Hashmap.NULL) then
          let! (st, r) := download_to st len in
          if negb (r =? 0) then failed st "download failed."
          else
            let! (st, r) := flash_func cb (take (Z.to_nat len) (download_base st)) (log_ui st UiBouncebar) in
            if negb (r =? 0) then failed st "flash failed."
            else
              let! st := fastboot_okay (log_ui st UiInfo) [] in
              stream_out late st no_buffers NoThread
        else
          let! (st, device) := find_part_device os disk st part_name in
          match device with
          | None => failed st "unknown partition specified"
          | Some device =>
            let! ptn := TbootUtil.find_part disk part_name in
            match volume_for_device volumes device with
            | None => failed st "invalid fstab or disk layout config"
            | Some vol =>
              if negb (text_eqb (Fstab.fs_type vol) (lit "ext4")) then failed st "unsupport filesystem type"
              else stream_to al heap sched late st device ptn len
            end
          end
    end.

(** ** The oem commands *)

(** [tboot_config_get(PUSH_DIR_KEY)] *)
Context (push_dir : option (list Z)).

(** The error flag of the file, which comes with the answer of [fwrite]. *)
Definition ferror (error : list Z) : bool := match error with e :: _ => negb (e =? 0) | [] => false end.

(** [dir] is the copy of the directory name; its last byte is looked at. *)
Definition push_to (argv1 : list Z) (st : fb) (dir data : list Z) : outcome fb :=
  let! c := oof (last dir) in
  let dir := if c =? 47 then take (length dir - 1) dir else dir in
  let tmpfile := snprintf PATH_MAX (dir ++ str "/" ++ basename argv1) in
  let '(st, fp, _) := sys st (SysFopen tmpfile) in
  if fp <? 0 then let! st := fastboot_fail st (str "create file failed.") in Ok (log_ui st UiError)
  else
    let '(st, saved, error) := sys st (SysFwrite data) in
    if negb (saved =? zlen data) || ferror error then
      let! st := fastboot_fail st (str "oem push, fwrite") in
      Ok (log_ui (fst (fst (sys st SysFclose))) UiError)
    else
      let! st := fastboot_okay st tmpfile in
      Ok (fst (fst (sys (log_ui st UiInfo) SysFclose))).

(** A name that fills its buffer is not terminated. *)
Definition push_file (argv1 : list Z) (st : fb) : outcome fb :=
  let data := take (Z.to_nat (download_size st)) (download_base st) in
  let! dir := oof push_dir in
  if PATH_MAX <=? zlen dir then Undef
  else
    let '(st, r, nums) := sys st (SysStatfs dir) in
    let max_size := match nums with bsize :: bfree :: _ => u32 (bsize * bfree - 2 ^ 20) | _ => 0 end in
    if negb (r =? 0) then push_to argv1 (log_ui st UiWarn) dir data
    else if max_size <? download_size st then
      let! st := fastboot_fail st (str "file size is too large.") in Ok (log_ui st UiError)
    else push_to argv1 st dir data.

Definition CMD_PUSH_USAGE : list Z :=
  str "Usage:" ++ newline ++ str "    oem push <local-file>    push <local-file> to target" ++ newline.

(** A command of blanks has no first argument. *)
Definition cmd_oem : handler := fun arg st =>
  let arg := skip_spaces arg in
  match arg with
  | [] =>
    let! st := fastboot_info st
      (str "All available oem commands, call them with '-h|--help' to get help." ++ newline) in
    let! st := Hashmap.hashmapForEach oem_cmds list_callback (Ok st) in
    let! st := fastboot_info st newline in
    fastboot_okay st []
  | _ =>
    let '(st, r, _) := sys st SysStrdup in
    if r <? 0 then fastboot_fail st (str "memory allocation error")
    else
      let argv := tokens MAX_OEM_ARGS arg in
      let! argv0 := oof (head argv) in
      let! cb := Hashmap.hashmapGet oem_cmds (place argv0) in
      if negb (cb =? Hashmap.NULL) then
        let! (st, ret) := oem_func cb argv st in
        if negb (ret =? 0) then fastboot_fail st argv0 else fastboot_okay st []
      else if bytes_eqb argv0 (str "push") then
        match argv with
        | [_; argv1] =>
          if bytes_eqb argv1 (str "-h") || bytes_eqb argv1 (str "--help") then
            let! st := fastboot_info st CMD_PUSH_USAGE in fastboot_okay st []
          else push_file argv1 st
        | _ => let! st := fastboot_info st CMD_PUSH_USAGE in fastboot_okay st []
        end
      else fastboot_fail st (str "unknown OEM command")
  end.

(** ** The other commands *)

Definition cmd_boot : handler := fun _ st => fastboot_fail st (str "boot command stubbed on this platform!").

(** [arg] of [preos_reboot]; the function returns only when it fails. *)
Definition reboot_to (arg : list Z) (st : fb) : outcome fb :=
  let! st := fastboot_okay st [] in
  let st := fst (fst (sys st SysSync)) in
  let st := fst (fst (sys (log_ui st UiBouncebar) (SysReboot arg))) in
  Ok (log_ui st UiError).

Definition cmd_reboot : handler := fun _ st => reboot_to (str "android") st.

Definition cmd_reboot_bl : handler := fun _ st => reboot_to (str "bootloader") st.

(** The commands that [aboot_register_commands] adds, the last one first; [al]
    says for each whether there is memory. *)
Definition register_all (cmdlist : list fastboot_cmd) (al : nat -> bool)
    (bufs : nat -> bool * bool * bool) (heap : list Z) (sched late : list StreamFlash.label) : list fastboot_cmd :=
  let l := fastboot_register cmdlist (str "oem") cmd_oem (al 0%nat) in
  let l := fastboot_register l (str "boot") cmd_boot (al 1%nat) in
  let l := fastboot_register l (str "reboot") cmd_reboot (al 2%nat) in
  let l := fastboot_register l (str "reboot-bootloader") cmd_reboot_bl (al 3%nat) in
  let l := fastboot_register l (str "erase:") cmd_erase (al 4%nat) in
  fastboot_register l (str "flash:") (cmd_stream_flash bufs heap sched late) (al 5%nat).

(** ** Lemmas: what a command leaves alone *)

(** Only the log has grown. *)
Definition quiet (st st' : fb) : Prop := exists l, st' = add_log st l.

Lemma quiet_refl st : quiet st st.
Proof. exists []. unfold add_log. rewrite app_nil_r. by destruct st. Qed.

Lemma quiet_trans a b c : quiet a b -> quiet b c -> quiet a c.
Proof. intros (l & ->) (k & ->). exists (l ++ k). unfold add_log. cbn. by rewrite app_assoc. Qed.

Lemma quiet_add st l : quiet st (add_log st l).
Proof. by exists l. Qed.

Lemma quiet_sys st c st' r bs : sys st c = (st', r, bs) -> quiet st st'.
Proof. unfold TbootUtil.sys. destruct (os (log st) c). intros [= <- _ _]. apply quiet_add. Qed.

Lemma quiet_sys_fst st c : quiet st (fst (fst (sys st c))).
Proof. destruct (sys st c) as [[st' r] bs] eqn:E. by apply quiet_sys in E. Qed.

Hint Resolve quiet_refl quiet_add quiet_sys_fst : tboot.

(** Follows the calls of a function that only makes system calls. *)
Ltac quiet_calls :=
  repeat match goal with
  | |- quiet ?a ?a => apply quiet_refl
  | H : sys ?x _ = (?y, _, _) |- quiet _ ?y => eapply quiet_trans; [|exact (quiet_sys _ _ _ _ _ H)]; clear H
  | |- quiet _ (add_log _ _) => eapply quiet_trans; [|apply quiet_add]
  | |- quiet _ (log_ui _ _) => eapply quiet_trans; [|apply quiet_add]
  | |- quiet _ (fst (fst (sys _ _))) => eapply quiet_trans; [|apply quiet_sys_fst]
  end.

Ltac sys_cases H :=
  repeat match type of H with
  | context [sys ?st ?c] => let E := fresh "E" in destruct (sys st c) as [[? ?] ?] eqn:E
  | context [if ?c then _ else _] => destruct c
  end; try done; try (injection H; clear H; intros; subst).

Lemma quiet_execute st cmd st' r : execute_command os st cmd = (st', r) -> quiet st st'.
Proof. unfold execute_command. intros H. sys_cases H; quiet_calls. Qed.

Lemma quiet_find_device st name st' dev :
  find_part_device os disk st name = Ok (st', dev) -> quiet st st'.
Proof.
  unfold find_part_device. destruct disk as [d|]; [|done]. intros H.
  destruct (sys st SysStrdup) as [[st1 r] bs] eqn:E.
  destruct (Diskconfig.find_part_device _ _ _) as [o| | |]; cbn in H; try done. injection H as <- <-. quiet_calls.
Qed.

Lemma quiet_erase st p st' r : erase_partition os disk volumes st p = Ok (st', r) -> quiet st st'.
Proof.
  unfold erase_partition. intros H.
  destruct (find_part_device os disk st (TbootUtil.p_name p)) as [[st1 [dev|]]| | |] eqn:Ed; try done; cbn [obind] in H.
  apply quiet_find_device in Ed. eapply quiet_trans; [exact Ed|]. clear Ed. unfold is_valid_blkdev in H.
  destruct (sys st1 (SysStat dev)) as [[st2 mode] bs] eqn:E2.
  assert (Hv : exists b, (if mode <? 0 then (st2, false) else (st2, S_ISBLK mode)) = (st2, b))
    by (destruct (mode <? 0); eauto). destruct Hv as (b & Hv). rewrite Hv in H.
  destruct b; cbn [negb] in H; [|injection H as <- <-; quiet_calls].
  destruct (volume_for_device volumes dev) as [vol|]; [|injection H as <- <-; quiet_calls].
  destruct (text_eqb _ _); [|injection H as <- <-; quiet_calls].
  destruct (Fstab.device vol) as [d|]; [|done]. cbn [oof obind] in H. sys_cases H; quiet_calls.
Qed.

Lemma ready_quiet st st' : quiet st st' -> ready st -> ready st'.
Proof. by intros (l & ->). Qed.

(** ** Flashing from memory *)

(** The data of the [fwrite] calls in a log. *)
Definition fwrites (l : list effect) : list Z :=
  concat (map (fun e => match e with Sys (SysFwrite d) => d | _ => [] end) l).

Lemma fwrites_app a b : fwrites (a ++ b) = fwrites a ++ fwrites b.
Proof. unfold fwrites. by rewrite map_app, concat_app. Qed.

(** The system takes every write. *)
Definition takes_all : Prop := forall l d, fst (os l (SysFwrite d)) = zlen d.

Lemma flash_round st data sz slice percent finished fuel :
  takes_all -> 0 < slice -> 0 <= finished -> finished + slice <= sz -> sz <= zlen data < 2 ^ 32 ->
  exists st', quiet st st' /\ fwrites (log st') = fwrites (log st) ++ sub_bytes data finished slice /\
  flash_loop (S fuel) st data sz slice percent finished =
    if finished + slice =? sz then Ok (st', FWrote)
    else if percent + 1 =? 100 then
      if sz mod 100 =? 0 then Ok (st', FWrote) else flash_loop fuel st' data sz (sz mod 100) 99 (finished + slice)
    else flash_loop fuel st' data sz slice (percent + 1) (finished + slice).
Proof.
  intros Hos Hs Hf Hle Hz. cbn [flash_loop]. assert (E1 : (slice =? 0) = false) by lia. rewrite E1.
  assert (E2 : (zlen data <? finished + slice) = false) by lia. rewrite E2. unfold TbootUtil.sys.
  specialize (Hos (log st) (sub_bytes data finished slice)). destruct (os _ _) as [n bs]. cbn [fst] in Hos.
  rewrite zlen_sub in Hos by lia. rewrite Hos, Z.eqb_refl, u32_id by lia. cbn [negb].
  assert (E3 : (sz <? finished + slice) = false) by lia. rewrite E3.
  set (st1 := add_log st [Sys (SysFwrite (sub_bytes data finished slice))]).
  exists (if percent + 1 <? 100 then add_log st1 [UiTextbar (percent + 1)] else st1).
  assert (W : fwrites (log st1) = fwrites (log st) ++ sub_bytes data finished slice).
  { unfold st1. cbn [log add_log]. rewrite fwrites_app. f_equal. unfold fwrites. cbn [map concat]. apply app_nil_r. }
  split; [destruct (percent + 1 <? 100); quiet_calls; unfold st1; apply quiet_add|]. split; [|done].
  destruct (percent + 1 <? 100); [|done]. cbn [log add_log]. rewrite fwrites_app, W. by rewrite app_nil_r.
Qed.

(** The rounds from the [k]-th slice on. *)
Lemma flash_rounds data sz s : takes_all -> 0 < s -> 100 <= sz <= zlen data -> zlen data < 2 ^ 32 -> s = sz / 100 ->
  forall m k st, Z.of_nat m = 100 - k -> 0 <= k < 100 ->
  exists st', flash_loop (S (S m)) st data sz s k (k * s) = Ok (st', FWrote) /\ quiet st st' /\
    fwrites (log st') = fwrites (log st) ++ sub_bytes data (k * s) (sz - k * s).
Proof.
  intros Hos Hs Hsz Hz Es. pose proof (Z.div_mod sz 100 ltac:(lia)) as Hdm. pose proof (Z.mod_pos_bound sz 100 ltac:(lia)) as Hmb.
  rewrite <- Es in Hdm. induction m as [|m IH]; intros k st Hm Hk; [lia|].
  assert (Hks : 0 <= k * s /\ (k + 1) * s <= 100 * s) by nia.
  destruct (flash_round st data sz s k (k * s) (S (S m)) Hos Hs ltac:(lia) ltac:(lia) ltac:(lia)) as (st1 & Q1 & W1 & ->).
  destruct (Z.eqb_spec (k * s + s) sz) as [E|E].
  - exists st1. split; [done|]. split; [done|]. rewrite W1. do 2 f_equal. lia.
  - destruct (Z.eqb_spec (k + 1) 100) as [E9|E9].
    + assert (k = 99) as -> by lia. destruct (Z.eqb_spec (sz mod 100) 0) as [E0|E0]; [lia|].
      destruct m as [|m]; [|lia].
      destruct (flash_round st1 data sz (sz mod 100) 99 (99 * s + s) 1 Hos ltac:(lia) ltac:(lia) ltac:(lia) ltac:(lia))
        as (st2 & Q2 & W2 & ->).
      assert (E1 : (99 * s + s + sz mod 100 =? sz) = true) by lia. rewrite E1. exists st2.
      split; [done|]. split; [by eapply quiet_trans|]. rewrite W2, W1, <- app_assoc. f_equal.
      rewrite take_sub_app by lia. f_equal. lia.
    + destruct (IH (k + 1) st1 ltac:(lia) ltac:(lia)) as (st2 & H2 & Q2 & W2).
      replace (k * s + s) with ((k + 1) * s) by lia. exists st2. split; [done|]. split; [by eapply quiet_trans|].
      rewrite W2, W1, <- app_assoc. f_equal. replace ((k + 1) * s) with (k * s + s) by lia.
      rewrite take_sub_app by lia. f_equal. lia.
Qed.

Lemma flash_small st data sz fuel : sz <> 0 ->
  flash_loop (S fuel) st data sz 0 0 0 = flash_loop (S fuel) st data sz sz 99 0.
Proof.
  intros Hz. cbn [flash_loop]. change (0 =? 0) with true. assert (E : (sz =? 0) = false) by lia. by rewrite E.
Qed.

Lemma flash_nothing st data fuel : takes_all ->
  exists st', flash_loop (S fuel) st data 0 0 0 0 = Ok (st', FWrote) /\ quiet st st' /\
    fwrites (log st') = fwrites (log st) ++ [].
Proof.
  intros Hos. cbn [flash_loop]. change (0 =? 0) with true. cbv iota. pose proof (zlen_nonneg data).
  assert (E : (zlen data <? 0 + 0) = false) by lia. rewrite E. unfold TbootUtil.sys.
  specialize (Hos (log st) (sub_bytes data 0 0)). destruct (os _ _) as [n bs]. cbn in Hos. subst n.
  exists (add_log st [Sys (SysFwrite (sub_bytes data 0 0))]). split; [reflexivity|]. split; [apply quiet_add|].
  cbn [log add_log]. by rewrite fwrites_app.
Qed.

(** Flashing from memory writes the image. For every size the slices of
    [cmd_flash] are exactly the downloaded bytes, in order and without a gap, the
    loop ends after at most 101 slices, and nothing but the log changes. *)
Theorem flash_loop_writes st data sz :
  takes_all -> 0 <= sz <= zlen data -> zlen data < 2 ^ 32 ->
  exists st', flash_loop 102 st data sz (sz / 100) 0 0 = Ok (st', FWrote) /\ quiet st st' /\
    fwrites (log st') = fwrites (log st) ++ take (Z.to_nat sz) data.
Proof.
  intros Hos Hsz Hz. destruct (Z.lt_ge_cases sz 100) as [Hlt|Hge].
  - rewrite Z.div_small by lia. destruct (Z.eq_dec sz 0) as [->|Hne].
    + destruct (flash_nothing st data 101 Hos) as (st' & H1 & Q1 & W1). exists st'.
      split; [exact H1|]. split; [exact Q1|exact W1].
    + rewrite (flash_small st data sz 101) by lia.
      destruct (flash_round st data sz sz 99 0 101 Hos ltac:(lia) ltac:(lia) ltac:(lia) ltac:(lia)) as (st1 & Q1 & W1 & ->).
      rewrite Z.add_0_l, Z.eqb_refl. by exists st1.
  - pose proof (Z.div_str_pos sz 100 ltac:(lia)).
    destruct (flash_rounds data sz (sz / 100) Hos ltac:(lia) ltac:(lia) Hz eq_refl 100 0 st ltac:(lia) ltac:(lia))
      as (st' & H1 & Q1 & W1).
    exists st'. rewrite Z.mul_0_l in *. split; [exact H1|]. split; [done|]. rewrite W1, Z.sub_0_r. done.
Qed.

(** ** Answers of the commands *)

Lemma told_quiet st st' : ready st -> state st = STATE_COMMAND -> quiet st st' -> told st st'.
Proof. intros Hr Hs (l & ->). by apply told_log. Qed.

#[local] Instance boot_ok : HandlerOk cmd_boot.
Proof. apply replied_handler. intros arg st Hr Hs. by apply replied_fail. Qed.

Lemma reboot_replied arg st : ready st -> state st = STATE_COMMAND -> replied st (reboot_to arg st).
Proof.
  intros Hr Hs. apply replied_then; [by apply replied_okay|]. intros s.
  assert (Q : quiet s (log_ui (fst (fst (sys (log_ui (fst (fst (sys s SysSync))) UiBouncebar) (SysReboot arg)))) UiError))
    by quiet_calls. destruct Q as (l & Hl). exists l. exact (f_equal Ok Hl).
Qed.

#[local] Instance reboot_ok : HandlerOk cmd_reboot.
Proof. apply replied_handler. intros arg st. apply reboot_replied. Qed.

#[local] Instance reboot_bl_ok : HandlerOk cmd_reboot_bl.
Proof. apply replied_handler. intros arg st. apply reboot_replied. Qed.

(** A disk that was set up, with a device name that leaves room for a number. *)
Definition disk_ready : Prop :=
  exists d, disk = Some d /\ Diskconfig.d_scheme d = Diskconfig.PART_SCHEME_MBR /\
    is_Some (Diskconfig.d_part_lst d) /\ Diskconfig.d_device d <> [] /\ zlen (Diskconfig.d_device d) < 500.

(** There is memory for copies of strings. *)
Definition has_memory : Prop := forall l, 0 <= fst (os l SysStrdup).

Lemma dec_digits_length : forall fuel n, (length (Diskconfig.dec_digits fuel n) <= fuel)%nat.
Proof.
  induction fuel as [|fuel IH]; intros n; cbn; [lia|]. destruct (n <? 10); cbn; [lia|].
  rewrite length_app. specialize (IH (n / 10)). cbn. lia.
Qed.

Lemma find_num_some l name p : Diskconfig.find_part_in l name = Some p ->
  forall num, is_Some (Diskconfig.find_num l (Diskconfig.p_name p) num).
Proof.
  induction l as [|q l IH]; cbn; [done|]. destruct (text_eqb (Diskconfig.p_name q) name) eqn:E.
  - intros [= ->] num. unfold text_eqb. rewrite bool_decide_true by done. eauto.
  - intros H num. destruct (text_eqb (Diskconfig.p_name q) (Diskconfig.p_name p)); [eauto|by apply IH].
Qed.

Lemma text_bytes t : to_text (of_text t) = t.
Proof.
  unfold to_text, of_text. rewrite map_map. rewrite <- (map_id t) at 2. apply map_ext. intros c.
  rewrite Nat2Z.id. apply ascii_nat_embedding.
Qed.

(** The device node of a partition in the layout. *)
Definition device_of (p : Diskconfig.part_info) : option (list Z) :=
  match disk with
  | Some d => match Diskconfig.find_part_device d (Diskconfig.p_name p) true with Ok o => option_map of_text o | _ => None end
  | None => None
  end.

(** A partition of the layout has a device. *)
Lemma device_found st name p : disk_ready -> has_memory -> TbootUtil.find_part disk name = Ok (Some p) ->
  exists st' dev, find_part_device os disk st (TbootUtil.p_name p) = Ok (st', Some dev) /\
    st' = add_log st [Sys SysStrdup] /\ device_of p = Some dev.
Proof.
  intros (d & Hd & Hs & (l & Hl) & Hne & Hlen) Hm Hp. unfold TbootUtil.find_part in Hp. unfold device_of. rewrite Hd in *.
  injection Hp as Hp. unfold Diskconfig.find_part in Hp. rewrite Hl in Hp. cbn [default] in Hp.
  unfold find_part_device. destruct (sys st SysStrdup) as [[st1 r] bs] eqn:E.
  assert (Hr : (0 <=? r) = true).
  { specialize (Hm (log st)). unfold TbootUtil.sys in E. destruct (os (log st) SysStrdup). cbn in Hm.
    injection E as <- <- <-. lia. }
  rewrite Hr. unfold Diskconfig.find_part_device. rewrite Hs. change (_ =? _) with true. cbv iota.
  unfold Diskconfig.find_mbr_part. rewrite Hl. cbn [oof obind]. unfold TbootUtil.p_name. rewrite text_bytes.
  destruct (find_num_some l _ p Hp 1) as (num & ->). cbn [negb].
  set (num' := if _ && _ then num + 1 else num).
  destruct (last (Diskconfig.d_device d)) as [c|] eqn:Ec; [|by apply last_None in Ec]. cbn [oof obind].
  assert (E2 : (Diskconfig.MAX_NAME_LEN <=? zlen (Diskconfig.d_device d ++
    (if Diskconfig.isdigit c then ["p"%char] else []) ++ Diskconfig.dec_digits 11 num')) = false).
  { rewrite !zlen_app. pose proof (dec_digits_length 11 num'). unfold Diskconfig.MAX_NAME_LEN.
    assert (zlen (if Diskconfig.isdigit c then ["p"%char] else []) <= 1) by (by destruct (Diskconfig.isdigit c)).
    unfold zlen in *. lia. }
  rewrite E2. cbn [obind option_map]. eexists _, _. split; [reflexivity|]. split; [|done].
  unfold TbootUtil.sys in E. destruct (os (log st) SysStrdup). by injection E as <- <- <-.
Qed.

Lemma list_parts_told l : forall st, ready st -> state st = STATE_COMMAND ->
  exists st', list_parts st l = Ok st' /\ told st st'.
Proof.
  induction l as [|p l IH]; intros st Hr Hs; cbn [list_parts].
  - exists st. split; [done|]. by apply told_quiet, quiet_refl.
  - destruct (sys st SysAsprintf) as [[st1 r] bs] eqn:E. apply quiet_sys in E.
    pose proof (told_quiet st st1 Hr Hs E) as T1. pose proof T1 as (R1 & _ & S1 & _).
    destruct (r =? -1).
    + cbn [obind]. destruct (IH st1 R1 S1) as (st' & -> & T2). exists st'. split; [done|]. by eapply told_trans.
    + destruct (told_info st1 (part_line p) R1 S1) as (st2 & -> & T2). cbn [obind]. pose proof T2 as (R2 & _ & S2 & _).
      destruct (IH st2 R2 S2) as (st' & -> & T3). exists st'. split; [done|].
      eapply told_trans; [exact T1|]. by eapply told_trans.
Qed.

(** Passes an interim packet of a handler. *)
Ltac tell :=
  match goal with
  | |- replied ?s (obind (fastboot_info ?s ?b) _) =>
    let st1 := fresh "s" in let T := fresh "T" in let R := fresh "R" in let S := fresh "S" in
    destruct (told_info s b ltac:(assumption) ltac:(assumption)) as (st1 & -> & T); cbn [obind];
    pose proof T as (R & _ & S & _); apply (replied_after s st1 _ T); clear T
  end.

Lemma list_replied st : disk <> None -> ready st -> state st = STATE_COMMAND -> replied st (list_partitions st false true).
Proof.
  intros Hd Hr Hs. unfold list_partitions. cbn [negb andb obind]. destruct disk as [d|]; [|done].
  cbn [oof].
  rewrite (obind_assoc (fastboot_info st _)). tell. rewrite obind_assoc. tell. rewrite obind_assoc. tell. cbn [obind].
  destruct (list_parts_told (default [] (Diskconfig.d_part_lst d)) s1 R1 S1) as (s2 & -> & T2).
  cbn [obind]. pose proof T2 as (R2 & _ & S2 & _). apply (replied_after _ _ _ T2). tell. by apply replied_okay.
Qed.

(** The ext4 file systems that were made. *)
Definition formats (l : list effect) : list (list Z * Z) :=
  omap (fun e => match e with Sys (SysMakeExt4 d n) => Some (d, n) | _ => None end) l.

(** What erasing a partition formats: the ext4 volume of the table for its device. *)
Definition erase_target (p : Diskconfig.part_info) : option (list Z * Z) :=
  dev ← device_of p; vol ← volume_for_device volumes dev;
  if text_eqb (Fstab.fs_type vol) (lit "ext4")
  then option_map (fun d => (of_text d, Fstab.length_ vol)) (Fstab.device vol) else None.

Lemma volume_has_device l dev vol : Fstab.volume_for_device l dev = Some vol -> is_Some (Fstab.device vol).
Proof.
  induction l as [|v l IH]; cbn; [done|]. destruct (Fstab.device v) as [d|] eqn:E; [|done].
  destruct (_ || _); [|done]. intros [= <-]. eauto.
Qed.

Lemma formats_app a b : formats (a ++ b) = formats a ++ formats b.
Proof. apply omap_app. Qed.

(** The node of a device, looked at behind the calls of [l], is a block device. *)
Definition node_is_block (l : list effect) (dev : list Z) : bool :=
  let mode := fst (os l (SysStat dev)) in negb (mode <? 0) && S_ISBLK mode.

Lemma erase_spec st name p : disk_ready -> has_memory -> TbootUtil.find_part disk name = Ok (Some p) ->
  exists dev st' r, device_of p = Some dev /\ erase_partition os disk volumes st p = Ok (st', r) /\ quiet st st' /\
    let l := log st ++ [Sys SysStrdup] in
    match (if node_is_block l dev then erase_target p else None) with
    | Some (d, n) => formats (log st') = formats (log st) ++ [(d, n)] /\
        r = (if fst (os (l ++ [Sys (SysStat dev)]) (SysMakeExt4 d n)) =? 0 then 0 else -1)
    | None => formats (log st') = formats (log st) /\ r = -1
    end.
Proof.
  intros Hd Hm Hp. destruct (device_found st name p Hd Hm Hp) as (st1 & dev & Ef & -> & Edev). exists dev.
  unfold erase_partition, erase_target, node_is_block. rewrite Ef, Edev. cbn [obind mbind option_bind log add_log].
  unfold is_valid_blkdev, TbootUtil.sys. cbn [log add_log]. destruct (os _ (SysStat dev)) as [mode bs] eqn:Estat.
  set (st1 := add_log (add_log st [Sys SysStrdup]) [Sys (SysStat dev)]).
  assert (Q1 : quiet st st1) by (unfold st1; quiet_calls).
  assert (F1 : formats (log st1) = formats (log st))
    by (unfold st1; cbn [log add_log]; rewrite !formats_app, <- app_assoc; apply app_nil_r).
  assert (El : log st1 = (log st ++ [Sys SysStrdup]) ++ [Sys (SysStat dev)]) by reflexivity. cbn [fst].
  destruct (mode <? 0); cbn [negb andb]; [by eexists _, _|]. destruct (S_ISBLK mode); cbn [negb]; [|by eexists _, _].
  destruct (volume_for_device volumes dev) as [vol|] eqn:Ev; [|by eexists _, _].
  cbn [mbind option_bind] in *. destruct (text_eqb (Fstab.fs_type vol) (lit "ext4")); [|by eexists _, _].
  destruct (volume_has_device _ _ _ Ev) as (d & ->). cbn [oof obind option_map]. rewrite <- El.
  destruct (os (log st1) (SysMakeExt4 _ _)) as [k bs']. set (st2 := add_log st1 _). cbn [fst].
  assert (F2 : formats (log st2) = formats (log st) ++ [(of_text d, Fstab.length_ vol)])
    by (unfold st2; cbn [log add_log]; by rewrite formats_app, F1).
  assert (Q2 : quiet st st2) by (unfold st2; quiet_calls; done).
  destruct (k =? 0); cbn [negb]; by eexists st2, _.
Qed.


Lemma erase_replied st name : disk_ready -> has_memory -> ready st -> state st = STATE_COMMAND ->
  replied st (cmd_erase name st).
Proof.
  intros Hd Hm Hr Hs. pose proof Hd as (d & Hd' & _). unfold cmd_erase. destruct name as [|c name].
  { apply list_replied; [by rewrite Hd'|done|done]. }
  unfold TbootUtil.find_part at 1. rewrite Hd' at 1. cbn [obind].
  destruct (Diskconfig.find_part d _) as [p|] eqn:Hp.
  - assert (Hp' : TbootUtil.find_part disk (c :: name) = Ok (Some p)) by (unfold TbootUtil.find_part; by rewrite Hd', Hp).
    destruct (erase_spec (log_ui st UiBouncebar) _ p Hd Hm Hp') as (dev & st1 & r & _ & -> & Q & _). cbn [obind].
    assert (T : told st (log_ui st UiBouncebar)) by by apply told_log.
    assert (T1 : told st st1) by (eapply told_trans; [exact T|]; apply told_quiet; [apply T|apply T|done]).
    destruct (negb (r =? 0)); (eapply replied_after; [eapply told_trans; [exact T1|]; apply told_log; apply T1|]).
    + apply replied_fail; apply T1.
    + apply replied_okay; apply T1.
  - eapply replied_after; [by apply told_log|]. by apply replied_fail.
Qed.


(** ** Answers of the oem commands *)

Lemma list_callback_told k v st0 s : (exists st, s = Ok st /\ told st0 st) ->
  exists st, fst (list_callback k v s) = Ok st /\ told st0 st.
Proof.
  intros (st & -> & T). unfold list_callback. cbn [obind fst]. destruct (k =? Hashmap.NULL); [eauto|].
  destruct (sys st SysStrdup) as [[st1 r] bs] eqn:E. apply quiet_sys in E.
  assert (T1 : told st0 st1) by (eapply told_trans; [exact T|]; apply told_quiet; [apply T|apply T|done]).
  edestruct (told_info st1) as (st2 & -> & T2); [apply T1|apply T1|]. cbn [obind].
  edestruct (told_info st2) as (st3 & -> & T3); [apply T2|apply T2|]. exists st3. split; [done|].
  eapply told_trans; [exact T1|]. by eapply told_trans.
Qed.

Lemma list_cmds_told map st : ready st -> state st = STATE_COMMAND ->
  exists st', Hashmap.hashmapForEach map list_callback (Ok st) = Ok st' /\ told st st'.
Proof.
  intros Hr Hs.
  apply (Hashmap.forEach_invariant (fun s => exists st', s = Ok st' /\ told st st')).
  - intros k v s. apply list_callback_told.
  - exists st. split; [done|]. apply told_quiet; [done|done|apply quiet_refl].
Qed.

Lemma replied_quiet st st1 m : ready st -> state st = STATE_COMMAND -> quiet st st1 ->
  (ready st1 -> state st1 = STATE_COMMAND -> replied st1 m) -> replied st m.
Proof.
  intros Hr Hs Q H. pose proof (told_quiet st st1 Hr Hs Q) as T. eapply replied_after; [exact T|]. apply H; apply T.
Qed.

Lemma replied_log st m l : replied st m -> replied st (let! s := m in Ok (add_log s l)).
Proof. intros H. apply replied_then; [done|]. eauto. Qed.

(** A function of a plugin returns, in the same state, having sent interim
    packets only. *)
Definition plugin_ok (f : Z -> list (list Z) -> fb -> outcome (fb * Z)) : Prop :=
  forall cb argv st, ready st -> state st = STATE_COMMAND ->
  exists st' r, f cb argv st = Ok (st', r) /\ told st st'.

(** The directory for pushed files. *)
Definition push_dir_ok : Prop := exists dir, push_dir = Some dir /\ dir <> [] /\ zlen dir < PATH_MAX.

(** Passes a system call of a handler. *)
Ltac call :=
  match goal with
  | |- replied ?s (match TbootUtil.sys os ?s ?c with pair _ _ => _ end) =>
    let s1 := fresh "s" in let r := fresh "r" in let bs := fresh "bs" in let E := fresh "E" in
    destruct (TbootUtil.sys os s c) as [[s1 r] bs] eqn:E; apply quiet_sys in E;
    apply (replied_quiet s s1); [assumption|assumption|exact E|intros ? ?; clear E]
  end.

(** One more entry of the log before the rest. *)
Lemma replied_entry st e m : ready st -> state st = STATE_COMMAND ->
  replied (log_ui st e) m -> replied st m.
Proof. intros Hr Hs. apply replied_after. by apply told_log. Qed.

Lemma push_replied argv1 st dir data : dir <> [] -> ready st -> state st = STATE_COMMAND ->
  replied st (push_to argv1 st dir data).
Proof.
  intros Hd Hr Hs. unfold push_to. destruct (last dir) as [c|] eqn:El; [|by apply last_None in El].
  cbn [oof obind]. call. destruct (r <? 0); [by apply replied_log, replied_fail|]. call.
  destruct (_ || _).
  - apply replied_then; [by apply replied_fail|]. intros s2.
    destruct (quiet_sys_fst s2 SysFclose) as (l & E). rewrite E. exists (l ++ [UiError]). unfold log_ui, add_log. cbn. by rewrite app_assoc.
  - apply replied_then; [by apply replied_okay|]. intros s2.
    destruct (quiet_sys_fst (log_ui s2 UiInfo) SysFclose) as (l & E). rewrite E. exists ([UiInfo] ++ l).
    unfold log_ui, add_log. cbn. by rewrite <- app_assoc.
Qed.

Lemma push_file_replied argv1 st : push_dir_ok -> ready st -> state st = STATE_COMMAND ->
  replied st (push_file argv1 st).
Proof.
  intros (dir & Hd & Hne & Hlen) Hr Hs. unfold push_file. rewrite Hd. cbn [oof obind].
  assert (E : (PATH_MAX <=? zlen dir) = false) by lia. rewrite E. call.
  destruct (negb (r =? 0)); [apply (replied_entry _ UiWarn); [done|done|]; by apply push_replied|].
  destruct (_ <? _); [by apply replied_log, replied_fail|by apply push_replied].
Qed.


(** An argument with a word in it, or of spaces only. *)
Definition oem_arg_ok (arg : list Z) : Prop :=
  Forall (fun c => c = 32) arg \/ Exists (fun c => is_delim c = false) arg.

Lemma skip_spaces_cases arg : oem_arg_ok arg ->
  skip_spaces arg = [] \/ exists t l, tokens MAX_OEM_ARGS (skip_spaces arg) = t :: l.
Proof.
  intros [Ha|He].
  - left. induction Ha as [|c l -> _ IH]; [done|]. cbn. done.
  - right. assert (Hs : exists c l, skip_delims (skip_spaces arg) = c :: l).
    { induction arg as [|c l IH]; [by inversion He|]. cbn [skip_spaces]. destruct (c =? 32) eqn:E.
      - apply IH. inversion He as [? ? H|]; subst; [|done]. unfold is_delim in H. by rewrite E in H.
      - clear IH E. induction He as [x k H|x k _ IH]; cbn [skip_delims].
        + rewrite H. eauto.
        + destruct (is_delim x); eauto. }
    destruct Hs as (c & l & Hs). unfold MAX_OEM_ARGS. cbn [tokens]. rewrite Hs.
    destruct (span_token (c :: l)) as [t r]. eauto.
Qed.

Lemma oem_replied arg st : Hashmap.wf mem oem_cmds -> plugin_ok oem_func -> push_dir_ok -> has_memory ->
  oem_arg_ok arg -> ready st -> state st = STATE_COMMAND -> replied st (cmd_oem arg st).
Proof.
  intros Hwf Hpl Hpd Hm Ha Hr Hs. unfold cmd_oem. destruct (skip_spaces_cases arg Ha) as [->|(t & l & Ht)].
  - tell. destruct (list_cmds_told oem_cmds s R S) as (s1 & -> & T1). cbn [obind].
    eapply replied_after; [exact T1|]. destruct T1 as (R1 & _ & S1 & _). tell. by apply replied_okay.
  - destruct (skip_spaces arg) as [|a0 rest] eqn:Es; [done|]. call.
    destruct (r <? 0); [by apply replied_fail|]. rewrite Ht. cbn [head oof obind].
    rewrite (Hashmap.get_refines mem) by done. cbn [obind]. destruct (negb _).
    + destruct (Hpl (default Hashmap.NULL (Hashmap.abs mem oem_cmds !! mem (place t))) (t :: l) s H H0)
        as (s1 & r1 & -> & T1). cbn [obind]. eapply replied_after; [exact T1|]. destruct T1 as (R1 & _ & S1 & _).
      destruct (negb _); [by apply replied_fail|by apply replied_okay].
    + destruct (bytes_eqb t _); [|by apply replied_fail].
      destruct l as [|argv1 [|? ?]]; [tell; by apply replied_okay| |tell; by apply replied_okay].
      destruct (_ || _); [tell; by apply replied_okay|by apply push_file_replied].
Qed.


(** ** The whole server *)

#[local] Instance erase_ok : disk_ready -> has_memory -> HandlerOk cmd_erase.
Proof. intros Hd Hm. apply replied_handler. intros arg st. by apply erase_replied. Qed.

Lemma replied_contract st m : replied st m -> keeps_contract st m.
Proof. intros (st' & o & H1 & H2 & H3 & H4 & H5 & H6). exists st', o. rewrite H4. done. Qed.

(** The commands of [fastboot_init] and of [aboot_register_commands]. *)
Definition all_cmds bufs heap sched late : list fastboot_cmd :=
  register_all builtin_cmds (fun _ => true) bufs heap sched late.

(** C12: the server answers its commands. With a disk set up, memory for copies of
    names, a push directory and plugins that return, the server answers every
    command line a host can send, known or not, except [flash:] and an [oem] line
    of blanks that are not all spaces: the handler returns and the host gets a
    complete answer, or the device has failed. *)
Theorem server_answers bufs heap sched late st buffer :
  disk_ready -> has_memory -> Hashmap.wf mem oem_cmds -> plugin_ok oem_func -> push_dir_ok -> ready st ->
  is_prefix (str "flash:") buffer = false ->
  (is_prefix (str "oem") buffer = true -> oem_arg_ok (c_string (drop 3 buffer))) ->
  exists st' o, run_command (all_cmds bufs heap sched late) st buffer = Ok st' /\ ready st' /\
    usb_out st' = usb_out st ++ o /\
    (state st' = STATE_COMPLETE /\ answered o \/ state st' = STATE_ERROR /\ Forall interim o).
Proof.
  intros Hd Hm Hwf Hpl Hpd Hr Hf Ho.
  destruct (run_command_by (all_cmds bufs heap sched late) st buffer) as (st' & o & H1 & H2 & _ & H4 & H5); [|done|by exists st', o].
  intros cmd s Hc Hrs Hss. unfold all_cmds, register_all, builtin_cmds, fastboot_register in Hc.
  cbn [find_cmd prefix] in Hc. rewrite Hf in Hc.
  destruct (is_prefix (str "erase:") buffer); [injection Hc as <-; by apply replied_contract, erase_replied|].
  destruct (is_prefix (str "reboot-bootloader") buffer); [injection Hc as <-; by apply reboot_bl_ok|].
  destruct (is_prefix (str "reboot") buffer); [injection Hc as <-; by apply reboot_ok|].
  destruct (is_prefix (str "boot") buffer); [injection Hc as <-; by apply boot_ok|].
  destruct (is_prefix (str "oem") buffer); [injection Hc as <-; apply replied_contract, oem_replied; auto|].
  destruct (is_prefix (str "download:") buffer); [injection Hc as <-; by apply download_ok|].
  destruct (is_prefix (str "getvar:") buffer); [injection Hc as <-; by apply getvar_ok|done].
Qed.


(** ** Tables of commands *)

(** Registering a command. A name that the table does not have is added with
    its function, and the others stay as they are; a name that it has is refused
    and the table stays as it is, whatever the addresses of the strings. When the
    table has no memory for the entry, the result is 0 all the same and the table
    stays as it is. *)
Theorem aboot_register_cmd_correct map k callback al : Hashmap.wf mem map -> k <> Hashmap.NULL ->
  exists map' r, aboot_register_cmd map k callback al = Ok (map', r) /\ Hashmap.wf mem map' /\
    if default Hashmap.NULL (Hashmap.abs mem map !! mem k) =? Hashmap.NULL then
      r = 0 /\ Hashmap.abs mem map' =
        if fst al || bool_decide (is_Some (Hashmap.abs mem map !! mem k))
        then <[mem k := callback]> (Hashmap.abs mem map) else Hashmap.abs mem map
    else r = -1 /\ map' = map.
Proof.
  intros Hwf Hk. unfold aboot_register_cmd. assert (E : (k =? Hashmap.NULL) = false) by lia. rewrite E.
  rewrite (Hashmap.get_refines mem) by done. cbn [obind]. clear E.
  destruct (default Hashmap.NULL (Hashmap.abs mem map !! mem k) =? Hashmap.NULL); cbn [negb].
  - destruct (Hashmap.put_refines mem map k callback al Hwf) as (map' & -> & Hwf' & Ha). cbn [obind].
    exists map', 0. split; [reflexivity|]. split; [exact Hwf'|]. split; [reflexivity|exact Ha].
  - exists map, (-1). split; [reflexivity|]. split; [exact Hwf|]. done.
Qed.

(** ** Pushed files *)

Definition fopens (l : list effect) : list (list Z) :=
  omap (fun e => match e with Sys (SysFopen p) => Some p | _ => None end) l.

Lemma fopens_app a b : fopens (a ++ b) = fopens a ++ fopens b.
Proof. apply omap_app. Qed.

(** The directory without its last slash. *)
Definition plain_dir (dir : list Z) : list Z :=
  if bool_decide (last dir = Some 47) then take (length dir - 1) dir else dir.

(** Pushed files stay in the directory. Whatever name the host sends, exactly
    one file is opened, directly inside the push directory: the part of its path
    behind the directory has no slash (a name of slashes only gives the directory
    itself). The command answers, and [OKAY] means that all the data was written. *)
Theorem push_to_correct argv1 st dir data : dir <> [] -> ready st -> state st = STATE_COMMAND ->
  exists st' b o, push_to argv1 st dir data = Ok st' /\ state st' = STATE_COMPLETE /\
    fopens (log st') = fopens (log st) ++ [snprintf PATH_MAX (plain_dir dir ++ str "/" ++ b)] /\
    (b = str "/" \/ b <> [] /\ 47 ∉ b) /\ usb_out st' = usb_out st ++ o /\
    (o = map (app (str "OKAY")) (chunks 59 (snprintf PATH_MAX (plain_dir dir ++ str "/" ++ b))) /\
       fwrites (log st') = fwrites (log st) ++ data \/
     exists msg, o = map (app (str "FAIL")) (chunks 59 msg)).
Proof using Type.
  intros Hd Hr Hs. unfold push_to. destruct (last dir) as [c|] eqn:El; [|by apply last_None in El]. cbn [oof obind].
  assert (Ep : (if c =? 47 then take (length dir - 1) dir else dir) = plain_dir dir).
  { unfold plain_dir. rewrite El. destruct (Z.eqb_spec c 47) as [->|Hc]; [by rewrite bool_decide_true|].
    rewrite bool_decide_false; [done|congruence]. }
  rewrite Ep. set (path := snprintf PATH_MAX (plain_dir dir ++ str "/" ++ basename argv1)). unfold TbootUtil.sys.
  destruct (os _ (SysFopen path)) as [fp bs]. set (st1 := add_log st [Sys (SysFopen path)]).
  assert (F1 : fopens (log st1) = fopens (log st) ++ [path]) by (unfold st1; cbn [log add_log]; by rewrite fopens_app).
  assert (W1 : fwrites (log st1) = fwrites (log st))
    by (unfold st1; cbn [log add_log]; rewrite fwrites_app; apply app_nil_r).
  assert (Hr1 : ready st1) by exact Hr. assert (Hs1 : state st1 = STATE_COMMAND) by exact Hs.
  assert (Ho1 : usb_out st1 = usb_out st) by done. clearbody st1.
  assert (Hl : forall (a : list effect) l, fopens a = fopens (log st) ++ [path] -> fopens l = [] ->
    fopens (a ++ l) = fopens (log st) ++ [path]) by (intros a l Ha Hl; rewrite fopens_app, Ha, Hl; apply app_nil_r).
  pose proof (basename_plain argv1) as Hb. destruct (fp <? 0).
  { unfold fastboot_fail. rewrite final_response; [|by auto|done|done]. cbn [obind]. eexists _, (basename argv1), _.
    split; [reflexivity|]. split; [done|]. split; [by apply Hl|]. split; [done|]. split; [cbn [usb_out log_ui add_log set_state set_out]; rewrite Ho1; reflexivity|right; by eexists]. }
  destruct (os _ (SysFwrite data)) as [saved bs2]. set (st2 := add_log st1 [Sys (SysFwrite data)]).
  assert (F2 : fopens (log st2) = fopens (log st) ++ [path]) by (by apply Hl).
  assert (W2 : fwrites (log st2) = fwrites (log st) ++ data).
  { unfold st2. cbn [log add_log]. rewrite fwrites_app, W1. f_equal. unfold fwrites. cbn. apply app_nil_r. }
  assert (Hr2 : ready st2) by exact Hr1. assert (Hs2 : state st2 = STATE_COMMAND) by exact Hs1.
  assert (Ho2 : usb_out st2 = usb_out st) by exact Ho1. clearbody st2.
  destruct (negb (saved =? zlen data) || ferror bs2); unfold fastboot_fail, fastboot_okay;
    (rewrite final_response; [|by auto|exact Hr2|exact Hs2]); cbn [obind]; destruct (os _ SysFclose) as [r3 b3];
    eexists _, (basename argv1), _; (split; [reflexivity|]); (split; [done|]);
    (split; [cbn [fst log log_ui add_log set_state set_out]; rewrite ?app_nil_r; repeat apply Hl; done|]);
    (split; [done|]); (split; [cbn [fst usb_out log_ui add_log set_state set_out]; rewrite Ho2; reflexivity|]); [right; by eexists|left].
  split; [done|]. cbn [fst log log_ui add_log set_state set_out]. rewrite !fwrites_app, W2. by rewrite !app_nil_r.
Qed.


(** An [oem] line of blanks. When the argument has blanks only and one of
    them is a tab, there is no first argument and the null pointer is looked up in
    the table of commands. *)
Theorem cmd_oem_blank arg st : Forall (fun c => is_delim c = true) arg -> 9 ∈ arg -> has_memory ->
  cmd_oem arg st = Undef.
Proof using Type.
  intros Ha H9 Hm. unfold cmd_oem.
  assert (Hs : skip_spaces arg <> [] /\ Forall (fun c => is_delim c = true) (skip_spaces arg)).
  { induction Ha as [|c l Hc Hl IH]; [by apply not_elem_of_nil in H9|]. cbn [skip_spaces]. destruct (Z.eqb_spec c 32) as [->|Hn].
    - apply IH. by apply elem_of_cons in H9 as [?|?].
    - split; [done|]. by constructor. }
  destruct Hs as [Hne Hall]. destruct (skip_spaces arg) as [|a l] eqn:E; [done|].
  destruct (sys st SysStrdup) as [[s r] bs] eqn:Es.
  assert (X : (r <? 0) = false).
  { specialize (Hm (log st)). unfold TbootUtil.sys in Es. destruct (os (log st) SysStrdup). cbn in Hm.
    injection Es as _ <- _. lia. }
  rewrite X. assert (Hsk : skip_delims (a :: l) = []).
  { clear - Hall. induction Hall as [|c k Hc _ IH]; cbn; [done|]. by rewrite Hc. }
  unfold MAX_OEM_ARGS. cbn [tokens]. by rewrite Hsk.
Qed.

End Commands.


(** ** Examples *)

Definition demo_os (l : list effect) (c : sys_call) : Z * list Z :=
  match c with SysFwrite d => (zlen d, []) | SysStat _ => (24576, []) | _ => (0, []) end.

Definition demo_part : Diskconfig.part_info := Diskconfig.mk_part (lit "system") 0 0x83 2048 0.

Definition demo_disk : Diskconfig.disk_info :=
  Diskconfig.mk_disk (lit "/dev/sda") Diskconfig.PART_SCHEME_MBR 512 2048 8192 (Some [demo_part]).

Definition demo_volumes : list Fstab.Volume :=
  [Fstab.mk_volume (lit "/system") (lit "ext4") (Some (lit "/dev/sda1")) None 7].

Definition demo_place (name : list Z) : Z := 300.

Definition demo_oem (cb : Z) (argv : list (list Z)) (st : fb) : outcome (fb * Z) := Ok (st, 0).

Lemma demo_disk_ready : disk_ready (Some demo_disk).
Proof. exists demo_disk. split_and!; [done|done|by eexists|done|done]. Qed.

Lemma demo_ready i : ready (idle_fb STATE_COMMAND i []).
Proof. done. Qed.

Lemma flash_loop_writes_witness :
  exists st', flash_loop demo_os 102 (idle_fb STATE_COMMAND [] []) (replicate 250 7) 203 2 0 0 = Ok (st', FWrote) /\
    fwrites (log st') = replicate 203 7.
Proof.
  destruct (flash_loop_writes demo_os (idle_fb STATE_COMMAND [] []) (replicate 250 7) 203) as (st' & H1 & _ & H2).
  - done.
  - vm_compute. split; congruence.
  - vm_compute. congruence.
  - exists st'. split; [exact H1|exact H2].
Defined.


Lemma server_answers_witness :
  exists st' o, run_command (all_cmds demo_os (Some demo_disk) demo_volumes Hashmap.demo_mem demo_place Hashmap.demo_map
      Hashmap.demo_map (fun _ _ st => Ok (st, 0)) demo_oem (Some (str "/data")) (fun _ => (true, true, true)) [] [] [])
      (idle_fb STATE_OFFLINE [] []) (str "oem push  x") = Ok st' /\ usb_out st' = [] ++ o /\
    (state st' = STATE_COMPLETE /\ answered o \/ state st' = STATE_ERROR /\ Forall interim o).
Proof.
  destruct (server_answers demo_os (Some demo_disk) demo_volumes Hashmap.demo_mem demo_place Hashmap.demo_map
      Hashmap.demo_map (fun _ _ st => Ok (st, 0)) demo_oem (Some (str "/data")) (fun _ => (true, true, true)) [] [] []
      (idle_fb STATE_OFFLINE [] []) (str "oem push  x")) as (st' & o & H1 & _ & H2 & H3).
  - exact demo_disk_ready.
  - by vm_compute.
  - exact Hashmap.demo_map_wf.
  - intros cb argv st Hr Hs. exists st, 0. split; [reflexivity|]. apply told_quiet; [exact Hr|exact Hs|apply quiet_refl].
  - exists (str "/data"). split_and!; [done|done|by vm_compute].
  - done.
  - vm_compute. reflexivity.
  - intros _. right. do 1 apply Exists_cons_tl. apply Exists_cons_hd. reflexivity.
  - exists st', o. split; [exact H1|]. split; [exact H2|exact H3].
Defined.

Lemma aboot_register_cmd_correct_witness :
  exists map' r, aboot_register_cmd Hashmap.demo_map 100 77 (true, true) = Ok (map', r) /\ r = 0 /\
    Hashmap.abs Hashmap.demo_mem map' = {[ Hashmap.demo_mem 200 := 77 ]}.
Proof.
  destruct (aboot_register_cmd_correct Hashmap.demo_mem Hashmap.demo_map 100 77 (true, true) Hashmap.demo_map_wf)
    as (map' & r & H1 & _ & H2 & H3); [discriminate|].
  exists map', r. split; [exact H1|]. split; [exact H2|exact H3].
Defined.

Lemma push_to_correct_witness :
  exists st' b o, push_to demo_os (str "../etc/passwd") (idle_fb STATE_COMMAND [] []) (str "/data/") [1; 2] = Ok st' /\
    fopens (log st') = [] ++ [snprintf PATH_MAX (str "/data" ++ str "/" ++ b)] /\ (b = str "/" \/ b <> [] /\ 47 ∉ b) /\
    usb_out st' = [] ++ o.
Proof.
  destruct (push_to_correct demo_os (str "../etc/passwd") (idle_fb STATE_COMMAND [] []) (str "/data/") [1; 2])
    as (st' & b & o & H1 & _ & H2 & H3 & H4 & _); [discriminate|apply demo_ready|reflexivity|].
  exists st', b, o. split; [exact H1|]. split; [exact H2|]. split; [exact H3|exact H4].
Defined.

Lemma cmd_oem_blank_witness :
  cmd_oem demo_os Hashmap.demo_mem demo_place Hashmap.demo_map demo_oem None [32; 9] (idle_fb STATE_COMMAND [] []) = Undef.
Proof.
  apply (cmd_oem_blank demo_os Hashmap.demo_mem demo_place Hashmap.demo_map demo_oem None [32; 9]).
  - repeat constructor.
  - right. left.
  - intros l. vm_compute. discriminate.
Defined.

(** The volume of a partition may have it as its second device; erasing the
    partition formats the first one. *)
Example erase_first_device :
  match cmd_erase demo_os (Some demo_disk)
      [Fstab.mk_volume (lit "/data") (lit "ext4") (Some (lit "/dev/sdb1")) (Some (lit "/dev/sda1")) 0]
      Hashmap.demo_mem Hashmap.demo_map (str "system") (idle_fb STATE_COMMAND [] []) with
  | Ok st' => formats (log st') = [(str "/dev/sdb1", 0)] /\ usb_out st' = [str "OKAY"]
  | _ => False
  end.
Proof. vm_compute. split; reflexivity. Qed.

(** A file system with less than 1 MB free takes files of any size. *)
Example push_no_space :
  match push_file (fun _ c => match c with SysStatfs _ => (0, [4096; 10]) | _ => (0, []) end) (Some (str "/data"))
      (str "x") (mk_fb STATE_COMMAND [] (replicate 100 0) 100 100 [] [] [] [] []) with
  | Ok st' => fopens (log st') = [str "/data/x"]
  | _ => False
  end.
Proof. vm_compute. reflexivity. Qed.

End Aboot.
