(* ===== verification/AbootStream.v ===== *)
(** * src/aboot.c: streaming flash as a whole

    [cmd_stream_flash] from the handshake on, with the transfer of
    [StreamFlash] inside: what it means that the host is told [OKAY], and the
    ways in which the command goes wrong. *)

From S2P Require Import Prelude Posix ConfigUtils Diskconfig Fstab Hashmap Fastboot StreamFlash StreamProps TbootUtil Aboot.

Module AbootStream.
Import ConfigUtils Fastboot TbootUtil Aboot.

#[local] Opaque StreamFlash.SIZE.

Section Stream.
Context (os : list effect -> sys_call -> Z * list Z).
Context (disk : option Diskconfig.disk_info).

Local Abbreviation sys := (TbootUtil.sys os).

(** Only the log has grown, and no data was written. *)
Definition calm (st st' : fb) : Prop := exists l, st' = add_log st l /\ fwrites l = [].

Lemma calm_refl st : calm st st.
Proof. exists []. split; [|done]. unfold add_log. rewrite app_nil_r. by destruct st. Qed.

Lemma calm_trans a b c : calm a b -> calm b c -> calm a c.
Proof.
  intros (l & -> & H1) (k & -> & H2). exists (l ++ k). rewrite fwrites_app, H1, H2. split; [|done].
  unfold add_log. cbn. by rewrite app_assoc.
Qed.

Definition no_data (c : sys_call) : bool := match c with SysFwrite _ => false | _ => true end.

Lemma calm_sys st c st' r bs :
  no_data c = true -> sys st c = (st', r, bs) -> calm st st'.
Proof.
  unfold TbootUtil.sys. destruct (os (log st) c). intros Hc [= <- _ _]. exists [Sys c]. split; [done|]. by destruct c.
Qed.

Lemma calm_sys_fst st c : no_data c = true -> calm st (fst (fst (sys st c))).
Proof. intros Hc. destruct (sys st c) as [[st' r] bs] eqn:E. by apply calm_sys in E. Qed.

Lemma calm_ui st : calm st (log_ui st UiBouncebar).
Proof. by eexists. Qed.

Ltac calm_calls :=
  repeat match goal with
  | |- calm ?a ?a => apply calm_refl
  | H : sys ?x _ = (?y, _, _) |- calm _ ?y => eapply calm_trans; [|eapply calm_sys; [|exact H]; reflexivity]; clear H
  | |- calm _ (log_ui _ UiBouncebar) => eapply calm_trans; [|apply calm_ui]
  | |- calm _ (fst (fst (sys _ _))) => eapply calm_trans; [|by apply calm_sys_fst]
  end.

Ltac calls H :=
  repeat match type of H with
  | context [sys ?st ?c] => let E := fresh "E" in destruct (sys st c) as [[? ?] ?] eqn:E
  | context [if ?c then _ else _] => destruct c
  end; try done; try (injection H; clear H; intros; subst).

Lemma calm_execute st cmd st' r : execute_command os st cmd = (st', r) -> calm st st'.
Proof.
  unfold execute_command. intros H. calls H; calm_calls.
Qed.

Lemma calm_checks st device st' r : ext4_filesystem_checks os st device = (st', r) -> calm st st'.
Proof.
  unfold ext4_filesystem_checks. intros H.
  repeat match type of H with
  | context [execute_command os ?s ?c] =>
    let E := fresh "E" in destruct (execute_command os s c) as [? ?] eqn:E; apply calm_execute in E
  | (if ?c then _ else _) = _ => destruct c
  end; injection H as <- <-; eauto using calm_trans, calm_refl.
Qed.

Lemma calm_find_device st name st' dev : find_part_device os disk st name = Ok (st', dev) -> calm st st'.
Proof.
  unfold find_part_device. destruct disk as [d|]; [|done]. intros H.
  destruct (sys st SysStrdup) as [[st1 r] bs] eqn:E.
  destruct (Diskconfig.find_part_device _ _ _) as [o| | |]; cbn in H; try done. injection H as <- <-. calm_calls.
Qed.

Lemma calm_superblock st p st' r sb : check_ext_superblock os disk st p = Ok (st', r, sb) -> calm st st'.
Proof.
  unfold check_ext_superblock. intros H.
  destruct (find_part_device os disk st (TbootUtil.p_name p)) as [[st1 [dev|]]| | |] eqn:Ed; try done; cbn [obind] in H;
    apply calm_find_device in Ed; (eapply calm_trans; [exact Ed|]); clear Ed; [|injection H as <- <- <-; apply calm_refl].
  calls H; calm_calls.
Qed.

Lemma calm_after st device ptn bar st' e : after_write os disk st device ptn bar = Ok (st', e) -> calm st st'.
Proof.
  unfold after_write. intros H. destruct disk as [d|] eqn:Edk; [|done]. cbn [oof obind] in H. rewrite <- Edk in H.
  set (whole := bytes_eqb _ _) in H. set (s0 := fst (fst (sys st SysSync))) in H.
  assert (C0 : calm st s0) by (unfold s0; calm_calls). clearbody s0.
  destruct (if whole then sys s0 (SysOpen device) else (s0, 0, [])) as [[s1 fd] bs1] eqn:E1.
  assert (C1 : calm st s1) by (destruct whole; [|injection E1 as <- _ _; done]; calm_calls; done). clear E1 C0.
  destruct (whole && (fd <? 0)); [by injection H as <- <-|].
  set (s2 := if whole then _ else s1) in H.
  assert (C2 : calm st s2) by (unfold s2; destruct whole; calm_calls; done). clearbody s2. clear C1.
  destruct (match ptn with Some p => _ | None => _ end) as [[[s3 r] sb]| | |] eqn:E3; try done. cbn [obind] in H.
  assert (C3 : calm st s3).
  { destruct ptn as [p|]; [|by injection E3 as <- _ _]. destruct (_ =? _); [|by injection E3 as <- _ _].
    apply calm_superblock in E3. by eapply calm_trans. }
  destruct (negb (r =? 0)); [by injection H as <- <-|]. destruct (default false sb); [|by injection H as <- <-].
  destruct (ext4_filesystem_checks os _ device) as [s4 r4] eqn:E4. apply calm_checks in E4.
  assert (C4 : calm st s4) by (eapply calm_trans; [|exact E4]; destruct bar; calm_calls; done).
  destruct (negb (r4 =? 0)); by injection H as <- <-.
Qed.

(** ** From the handshake to the transfer *)

Context (image : list Z) (rest : list (option (list Z))).
Hypothesis Himage : 0 < zlen image <= StreamFlash.SIZE.

(** The server that waits for the image. *)
Definition image_waits (st : fb) : Prop :=
  ready st /\ state st = STATE_COMMAND /\ usb_in st = map Some (chunks 4096 image) ++ rest.

Lemma no_thread late st msg bufs st' : stream_failed late st msg bufs NoThread <> Ok st'.
Proof.
  unfold stream_failed, stream_out. destruct (fastboot_fail st msg); cbn [obind]; try done.
  by destruct (StreamFlash.free_buffers bufs).
Qed.

(** The server when the transfer starts, but for its log. *)
Definition waiting (st : fb) : fb :=
  set_in (set_out st [] (usb_out st ++ [str "DATA" ++ hex 8 (zlen image)])) rest.

Lemma image_bounds : 0 < zlen image < 2 ^ 31.
Proof. pose proof StreamFlash.SIZE_val. lia. Qed.

Lemma one_buffer : StreamFlash.init_size (zlen image) = zlen image.
Proof. unfold StreamFlash.init_size. destruct (Z.ltb_spec StreamFlash.SIZE (zlen image)); lia. Qed.

Lemma all_from : StreamFlash.from image (zlen image) = [].
Proof. unfold StreamFlash.from, zlen. rewrite Nat2Z.id. apply drop_all. Qed.

Lemma all_upto : StreamFlash.upto image (zlen image) = image.
Proof. unfold StreamFlash.upto, zlen. rewrite Nat2Z.id. apply firstn_all. Qed.

Lemma handshake st : image_waits st ->
  streaming_download st (zlen image) true =
    Ok (set_out st [] (usb_out st ++ [str "DATA" ++ hex 8 (zlen image)]), 0, []) /\
  streaming_download (set_out st [] (usb_out st ++ [str "DATA" ++ hex 8 (zlen image)]))
    (StreamFlash.init_size (zlen image)) false = Ok (waiting st, 0, image).
Proof.
  intros (Hr & Hs & Hin). split.
  - unfold streaming_download. by rewrite response_data_ok; [|done|rewrite Hs].
  - rewrite one_buffer. pose proof image_bounds as Hb.
    assert (E0 : StreamFlash.from image 0 = image) by apply drop_0.
    rewrite (StreamFlash.download_piece image rest image_bounds _ 0 (zlen image));
      [|lia|lia|lia|right; lia|cbn; congruence|].
    + rewrite Z.add_0_l, all_from. unfold waiting, sub_bytes. rewrite drop_0. unfold zlen at 2. by rewrite Nat2Z.id, firstn_all.
    + rewrite E0. cbn [usb_in set_out]. rewrite Hin.
      assert (Hne : image <> []) by (intros E; rewrite E in Hb; unfold zlen in Hb; cbn [length] in Hb; lia).
      clear - Hne. by destruct image.
Qed.

(** Whatever the system does, a result is that of a transfer. *)
Lemma stream_to_run al heap sched late st device ptn st' : image_waits st ->
  stream_to os disk al heap sched late st device ptn (zlen image) = Ok st' ->
  exists s tr, calm (waiting st) s /\ StreamFlash.run sched (StreamFlash.first_state s (zlen image) image) = Ok tr /\
    stream_end os disk late device ptn tr = Ok st'.
Proof.
  intros Hw H. destruct (handshake st Hw) as [H1 H2]. unfold stream_to in H. rewrite H1 in H. cbn [obind Z.eqb negb] in H.
  destruct (StreamFlash.create_buffers _ _ _ _) as [[bufs ok]| | |]; try done. cbn [obind] in H.
  destruct ok; cbn [negb] in H; [|by apply no_thread in H]. rewrite H2 in H. cbn [obind Z.eqb negb] in H.
  destruct (stream_command (image ++ heap) device) as [warn cmd]. 
  set (s0 := if warn then log_ui (waiting st) UiWarn else waiting st) in H.
  assert (C0 : calm (waiting st) s0) by (unfold s0; destruct warn; [by eexists|apply calm_refl]). clearbody s0.
  destruct (sys s0 SysAsprintf) as [[s1 r1] b1] eqn:E1. destruct (r1 <? 0); [by apply no_thread in H|].
  destruct (sys s1 (SysPopen cmd)) as [[s2 r2] b2] eqn:E2. destruct (r2 <? 0); [by apply no_thread in H|].
  destruct (sys s2 SysThread) as [[s3 r3] b3] eqn:E3. destruct (negb (r3 =? 0)); [by apply no_thread in H|].
  destruct (StreamFlash.run _ _) as [tr| | |] eqn:Er; try done. cbn [obind] in H. exists s3, tr.
  split; [calm_calls; done|done].
Qed.


(** ** The answer *)

Lemma fail_not_okay o msg : last (o ++ map (app (str "FAIL")) (chunks 59 msg)) <> Some (str "OKAY").
Proof.
  pose proof (packets_nonempty (str "FAIL") msg) as Hne.
  destruct (map (app (str "FAIL")) (chunks 59 msg)) as [|x l] eqn:E using rev_ind; [done|].
  rewrite app_assoc, last_snoc. intros [= ->].
  assert (Hin : str "OKAY" ∈ map (app (str "FAIL")) (chunks 59 msg)) by (rewrite E; set_solver).
  apply list_elem_of_In, in_map_iff in Hin as (y & Hy & _). discriminate Hy.
Qed.

Lemma calm_fields st st' : calm st st' -> ready st -> state st = STATE_COMMAND ->
  ready st' /\ state st' = STATE_COMMAND /\ usb_out st' = usb_out st /\ fwrites (log st') = fwrites (log st).
Proof.
  intros (l & -> & Hl) Hr Hs. split; [exact Hr|]. split; [exact Hs|]. split; [done|].
  cbn [log add_log]. by rewrite fwrites_app, Hl, app_nil_r.
Qed.

(** A failure that returns has told the host. *)
Lemma failed_not_okay late st msg bufs t st' : ready st -> state st = STATE_COMMAND ->
  stream_failed late st msg bufs t = Ok st' -> last (usb_out st') <> Some (str "OKAY").
Proof.
  intros Hr Hs H. unfold stream_failed, fastboot_fail in H. rewrite final_response in H; [|by auto|done|done].
  cbn [obind] in H. unfold stream_out in H. destruct (StreamFlash.free_buffers bufs) as [b| | |]; try done. cbn [obind] in H.
  assert (E : usb_out st' = usb_out st ++ map (app (str "FAIL")) (chunks 59 msg)).
  { destruct t as [|tr|]; [done| |by injection H as <-].
    destruct (StreamFlash.run late _); cbn [obind] in H; try done. by injection H as <-. }
  rewrite E. apply fail_not_okay.
Qed.

Lemma fwrites_out l : fwrites (map (fun d => Sys (SysFwrite d)) l) = concat l.
Proof. unfold fwrites. rewrite map_map. by rewrite map_id. Qed.

Lemma waiting_ready st : image_waits st -> ready (waiting st) /\ state (waiting st) = STATE_COMMAND.
Proof. intros (Hr & Hs & _). split; [|exact Hs]. destruct Hr as (H1 & H2). by split. Qed.

Lemma first_reach s : usb_in s = rest -> state s = STATE_COMMAND ->
  StreamFlash.started image rest (StreamFlash.first_state s (zlen image) image).
Proof.
  intros Hin Hs. exists s. rewrite one_buffer, all_from, all_upto. done.
Qed.

(** If the host is told [OKAY], exactly the image was written. *)
Lemma okay_written al heap sched late st device ptn st' :
  image_waits st -> StreamFlash.LSigpipe ∉ sched ->
  stream_to os disk al heap sched late st device ptn (zlen image) = Ok st' ->
  last (usb_out st') = Some (str "OKAY") -> fwrites (log st') = fwrites (log st) ++ image.
Proof.
  intros Hw Hno H Hok. destruct (stream_to_run _ _ _ _ _ _ _ _ Hw H) as (s & tr & Hc & Hrun & Hend). clear H.
  destruct (waiting_ready st Hw) as [Hwr Hws]. destruct (calm_fields _ _ Hc Hwr Hws) as (Hr & Hs & Ho & Hf).
  assert (Hin : usb_in s = rest) by (destruct Hc as (? & -> & _); done).
  pose proof (StreamProps.run_steps _ _ _ Hrun) as Hst. pose proof (first_reach s Hin Hs) as Hfi.
  assert (Hre : StreamFlash.reachable image rest tr) by (by eexists).
  assert (Hsg : StreamProps.single image s tr).
  { apply (StreamProps.single_reach image rest image_bounds); [lia|by rewrite one_buffer, all_from|done|].
    by rewrite one_buffer, all_upto. }
  pose proof Hsg as (_ & Esv & Hat & _).
  assert (Hrt : forall l, ready (add_log (StreamFlash.server tr) l) /\ state (add_log (StreamFlash.server tr) l) = STATE_COMMAND)
    by (intros l; rewrite Esv; done).
  unfold stream_end in Hend.
  destruct (StreamFlash.w_at tr) eqn:Ew; try done; [|by destruct why; apply failed_not_okay in Hend; try apply Hrt].
  destruct (after_write _ _ _ _ _ _) as [[s1 e]| | |] eqn:Ea; try done. cbn [obind] in Hend. apply calm_after in Ea.
  destruct (Hrt (map (fun d => Sys (SysFwrite d)) (StreamFlash.fout tr))) as [Hr1 Hs1].
  assert (C1 : calm (add_log (StreamFlash.server tr) (map (fun d => Sys (SysFwrite d)) (StreamFlash.fout tr))) s1)
    by (eapply calm_trans; [apply calm_ui|exact Ea]).
  destruct (calm_fields _ _ C1 Hr1 Hs1) as (Hr2 & Hs2 & _ & Hf2).
  destruct e as [msg|]; [by apply failed_not_okay in Hend|].
  unfold fastboot_okay in Hend. rewrite final_response in Hend; [|by auto|exact Hr2|exact Hs2]. cbn [obind] in Hend.
  unfold stream_out in Hend. destruct (StreamFlash.free_buffers _) as [b| | |]; try done. cbn [obind] in Hend.
  injection Hend as <-. cbn [log set_state set_out log_ui add_log]. rewrite fwrites_app, app_nil_r, Hf2.
  cbn [log add_log]. rewrite fwrites_app, fwrites_out, Esv, Hf.
  rewrite (StreamProps.single_written image rest image_bounds s tr); [|lia|done|done|done|].
  - cbn [concat]. by rewrite app_nil_r.
  - erewrite StreamProps.run_whole; [|exact Hno|exact Hrun]. done.
Qed.


(** ** Success is possible *)

(** The system starts the program and the thread. *)
Definition os_starts : Prop :=
  (forall l, 0 <= fst (os l SysAsprintf)) /\ (forall l c, 0 <= fst (os l (SysPopen c))) /\
  (forall l, fst (os l SysThread) = 0).

(** The checks behind the transfer find nothing wrong. *)
Definition checks_pass (device : list Z) (ptn : option Diskconfig.part_info) : Prop :=
  forall s, exists s', after_write os disk s device ptn true = Ok (s', None).

Lemma sys_eq st c : exists r bs, sys st c = (add_log st [Sys c], r, bs) /\ r = fst (os (log st) c).
Proof. unfold TbootUtil.sys. destruct (os (log st) c) as [r bs]. by eexists _, _. Qed.

Lemma stream_to_starts al heap late st device ptn :
  image_waits st -> os_starts -> (forall i, al i = (true, true, true)) ->
  exists s, calm (waiting st) s /\ forall sched,
    stream_to os disk al heap sched late st device ptn (zlen image) =
      let! tr := StreamFlash.run sched (StreamFlash.first_state s (zlen image) image) in
      stream_end os disk late device ptn tr.
Proof.
  intros Hw (Ha & Hp & Ht) Hal. destruct (handshake st Hw) as [H1 H2]. unfold stream_to. rewrite H1. cbn [obind Z.eqb negb].
  assert (Eb : exists bufs, StreamFlash.create_buffers StreamFlash.NR_BUFFER 0 al no_buffers = Ok (bufs, true)).
  { unfold StreamFlash.NR_BUFFER. cbn [StreamFlash.create_buffers]. rewrite !Hal. by eexists. }
  destruct Eb as (bufs & ->). cbn [obind negb]. rewrite H2. cbn [obind Z.eqb negb].
  destruct (stream_command (image ++ heap) device) as [warn cmd].
  set (s0 := if warn then log_ui (waiting st) UiWarn else waiting st).
  assert (C0 : calm (waiting st) s0) by (unfold s0; destruct warn; [by eexists|apply calm_refl]). clearbody s0.
  destruct (sys_eq s0 SysAsprintf) as (r1 & b1 & E1 & Hr1). rewrite E1. specialize (Ha (log s0)).
  assert (X1 : (r1 <? 0) = false) by lia. rewrite X1.
  destruct (sys_eq (add_log s0 [Sys SysAsprintf]) (SysPopen cmd)) as (r2 & b2 & E2 & Hr2). rewrite E2.
  specialize (Hp (log (add_log s0 [Sys SysAsprintf])) cmd). assert (X2 : (r2 <? 0) = false) by lia. rewrite X2.
  destruct (sys_eq (add_log (add_log s0 [Sys SysAsprintf]) [Sys (SysPopen cmd)]) SysThread) as (r3 & b3 & E3 & Hr3).
  rewrite E3. rewrite Ht in Hr3. subst r3. cbn [Z.eqb negb]. eexists. split; [|reflexivity].
  eapply calm_trans; [exact C0|]. exists [Sys SysAsprintf; Sys (SysPopen cmd); Sys SysThread].
  split; [|done]. unfold add_log. cbn. by rewrite <- !app_assoc.
Qed.

(** With the right schedule the host is told [OKAY]. *)
Lemma okay_possible al heap late st device ptn :
  image_waits st -> os_starts -> (forall i, al i = (true, true, true)) -> checks_pass device ptn ->
  exists sched st', StreamFlash.LSigpipe ∉ sched /\
    stream_to os disk al heap sched late st device ptn (zlen image) = Ok st' /\
    usb_out st' = usb_out st ++ [str "DATA" ++ hex 8 (zlen image); str "OKAY"].
Proof.
  intros Hw Hos Hal Hck. destruct (stream_to_starts al heap late st device ptn Hw Hos Hal) as (s & Hc & Hrun).
  destruct (waiting_ready st Hw) as [Hwr Hws]. destruct (calm_fields _ _ Hc Hwr Hws) as (Hr & Hs & Ho & Hf).
  assert (Hin : usb_in s = rest) by (destruct Hc as (? & -> & _); done).
  pose proof (first_reach s Hin Hs) as Hfi.
  destruct (StreamProps.finish_schedule image rest image_bounds (StreamFlash.first_state s (zlen image) image))
    as (sched & tr & Htr & Hno & Hat); [by eexists|done|done|done|].
  pose proof (StreamProps.run_steps _ _ _ Htr) as Hst.
  assert (Hre : StreamFlash.reachable image rest tr) by (by eexists).
  assert (Esv : StreamFlash.server tr = s).
  { apply (StreamProps.single_reach image rest image_bounds); [lia|by rewrite one_buffer, all_from|done|].
    by rewrite one_buffer, all_upto. }
  destruct (StreamFlash.reachable_all image rest image_bounds tr Hre) as ([[(b0 & b1 & Hb) _ _ _ _ _] _] & _).
  exists sched. rewrite (Hrun sched), Htr. cbn [obind]. unfold stream_end. rewrite Hat, Esv.
  destruct (Hck (log_ui (add_log s (map (fun d => Sys (SysFwrite d)) (StreamFlash.fout tr))) UiBouncebar)) as (s1 & Ea).
  rewrite Ea. cbn [obind]. apply calm_after in Ea. destruct Ea as (l & -> & _).
  unfold fastboot_okay. rewrite final_response; [|by auto|exact Hr|exact Hs]. cbn [obind]. rewrite Hb.
  eexists. split; [done|]. split; [reflexivity|]. cbn [usb_out set_state set_out log_ui add_log] in *.
  rewrite Ho. cbn [usb_out waiting set_in set_out]. by rewrite <- app_assoc.
Qed.

(** C11: streaming flash, from the handshake to the answer. For an image that fits
    one buffer (4 MB), as long as the pipe to [dd] does not break: whatever the
    system answers and however the threads are scheduled, if the host is told
    [OKAY] then exactly the image was written to the pipe; and when the system
    starts the program and the thread and the checks behind the transfer find
    nothing wrong, there is a schedule with which the host is told [OKAY] behind
    the [DATA] response. *)
Theorem stream_flash_correct al heap late st device ptn : image_waits st ->
  (forall sched st', StreamFlash.LSigpipe ∉ sched ->
     stream_to os disk al heap sched late st device ptn (zlen image) = Ok st' ->
     last (usb_out st') = Some (str "OKAY") -> fwrites (log st') = fwrites (log st) ++ image) /\
  (os_starts -> (forall i, al i = (true, true, true)) -> checks_pass device ptn ->
   exists sched st', stream_to os disk al heap sched late st device ptn (zlen image) = Ok st' /\
     usb_out st' = usb_out st ++ [str "DATA" ++ hex 8 (zlen image); str "OKAY"] /\
     fwrites (log st') = fwrites (log st) ++ image).
Proof.
  intros Hw. split; [intros sched st'; by apply okay_written|]. intros Hos Hal Hck.
  destruct (okay_possible al heap late st device ptn Hw Hos Hal Hck) as (sched & st' & Hno & H1 & H2).
  exists sched, st'. split; [done|]. split; [done|]. eapply okay_written; [done|exact Hno|exact H1|].
  rewrite H2. change [str "DATA" ++ hex 8 (zlen image); str "OKAY"] with ([str "DATA" ++ hex 8 (zlen image)] ++ [str "OKAY"]).
  by rewrite app_assoc, last_snoc.
Qed.

End Stream.

(** ** The exits without a reader thread *)

Section Exits.
Context (os : list effect -> sys_call -> Z * list Z).
Context (disk : option Diskconfig.disk_info) (volumes : list Fstab.Volume).
Context (mem : Z -> text) (place : list Z -> Z) (flash_cmds : Hashmap.Hashmap).
Context (flash_func : Z -> list Z -> fb -> outcome (fb * Z)).

Lemma no_thread_undefined late st msg : ready st -> state st = STATE_COMMAND ->
  stream_failed late st msg no_buffers NoThread = Undef.
Proof.
  intros Hr Hs. unfold stream_failed, fastboot_fail. rewrite final_response; [done|by auto|done|done].
Qed.

(** The handler with a name that is neither empty nor the disk. *)
Lemma flash_name al heap sched late st name tail : 58 ∉ name -> name <> [] -> name <> str "disk" ->
  Hashmap.wf mem flash_cmds -> has_memory os ->
  exists s, quiet st s /\
  cmd_stream_flash os disk volumes mem place flash_cmds flash_func al heap sched late (name ++ 58 :: tail) st =
  let cb := default Hashmap.NULL (Hashmap.abs mem flash_cmds !! mem (place name)) in
  let failed st msg := stream_failed late st (str msg) no_buffers NoThread in
  let len := strtoul16 tail in
  if negb (cb =? Hashmap.NULL) then
    let! (st, r) := download_to s len in
    if negb (r =? 0) then failed st "download failed."%string
    else
      let! (st, r) := flash_func cb (take (Z.to_nat len) (download_base st)) (log_ui st UiBouncebar) in
      if negb (r =? 0) then failed st "flash failed."%string
      else let! st := fastboot_okay (log_ui st UiInfo) [] in stream_out late st no_buffers NoThread
  else
    let! (st, device) := find_part_device os disk s name in
    match device with
    | None => failed st "unknown partition specified"%string
    | Some device =>
      let! ptn := TbootUtil.find_part disk name in
      match volume_for_device volumes device with
      | None => failed st "invalid fstab or disk layout config"%string
      | Some vol =>
        if negb (text_eqb (Fstab.fs_type vol) (lit "ext4")) then failed st "unsupport filesystem type"%string
        else stream_to os disk al heap sched late st device ptn len
      end
    end.
Proof.
  intros Hn Hne Hnd Hwf Hm. unfold cmd_stream_flash. destruct (TbootUtil.sys os st SysStrdup) as [[s r] bs] eqn:E.
  assert (X : (r <? 0) = false).
  { specialize (Hm (log st)). unfold TbootUtil.sys in E. destruct (os (log st) SysStrdup). cbn in Hm.
    injection E as _ <- _. lia. }
  rewrite X, index_of_app by done. exists s. split; [by eapply quiet_sys|].
  assert (T : take (length name) (name ++ 58 :: tail) = name) by apply take_app_length. rewrite T.
  assert (D : drop (S (length name)) (name ++ 58 :: tail) = tail)
    by (change (58 :: tail) with ([58] ++ tail); rewrite app_assoc; apply drop_app_length'; rewrite length_app; cbn; lia).
  rewrite D. unfold bytes_eqb. rewrite !bool_decide_false by done.
  by rewrite (Hashmap.get_refines mem).
Qed.


(** [t_reader] is used without a value. When the partition is not known, or
    when the name belongs to a function of a plugin, [cmd_stream_flash] reaches its
    end without a reader thread and cancels it all the same: [pthread_cancel] gets
    an uninitialised [pthread_t]. A plugin's flash function never gets to a defined
    end, not even when it succeeds. *)
Theorem stream_flash_no_thread al heap sched late st name tail : 58 ∉ name -> name <> [] -> name <> str "disk" ->
  Hashmap.wf mem flash_cmds -> has_memory os -> ready st -> state st = STATE_COMMAND ->
  let flash := cmd_stream_flash os disk volumes mem place flash_cmds flash_func al heap sched late (name ++ 58 :: tail) st in
  match Hashmap.abs mem flash_cmds !! mem (place name) with
  | Some cb => cb <> Hashmap.NULL -> forall st', flash <> Ok st'
  | None => forall d, disk = Some d -> Diskconfig.find_part_device d (to_text name) true = Ok None -> flash = Undef
  end.
Proof.
  intros Hn Hne Hnd Hwf Hm Hr Hs flash. unfold flash.
  destruct (flash_name al heap sched late st name tail Hn Hne Hnd Hwf Hm) as (s & Q & ->).
  destruct (Hashmap.abs mem flash_cmds !! mem (place name)) as [cb|]; cbv zeta.
  - intros Hcb st'. change (default Hashmap.NULL (Some cb)) with cb. assert (E : (cb =? Hashmap.NULL) = false) by lia. rewrite E. cbn [negb].
    destruct (download_to s (strtoul16 tail)) as [[s1 r]| | |]; try done. cbn [obind].
    destruct (negb (r =? 0)); [apply no_thread|]. destruct (flash_func _ _ _) as [[s2 r2]| | |]; try done. cbn [obind].
    destruct (negb (r2 =? 0)); [apply no_thread|]. by destruct (fastboot_okay _ _).
  - intros d Hd Hf. change (negb (default Hashmap.NULL None =? Hashmap.NULL)) with false. cbv iota.
    unfold find_part_device. rewrite Hd. destruct (TbootUtil.sys os s SysStrdup) as [[s1 r] bs] eqn:E.
    assert (Er : (0 <=? r) = true).
    { specialize (Hm (log s)). unfold TbootUtil.sys in E. destruct (os (log s) SysStrdup). cbn in Hm.
      injection E as _ <- _. lia. }
    rewrite Er, Hf. cbn [obind option_map]. apply quiet_sys in E. destruct Q as (l & ->), E as (l' & ->).
    by apply no_thread_undefined.
Qed.

End Exits.


(** ** Examples *)

Definition demo_image : list Z := [31; 139; 8].

Lemma demo_waits : image_waits demo_image [] (idle_fb STATE_COMMAND [Some demo_image] []).
Proof. split; [apply demo_ready|]. split; [reflexivity|]. vm_compute. reflexivity. Qed.

Lemma stream_flash_correct_witness :
  exists sched st', stream_to demo_os (Some demo_disk) (fun _ => (true, true, true)) [] sched []
      (idle_fb STATE_COMMAND [Some demo_image] []) (str "/dev/sda1") None 3 = Ok st' /\
    usb_out st' = [str "DATA00000003"; str "OKAY"] /\ fwrites (log st') = demo_image.
Proof.
  destruct (stream_flash_correct demo_os (Some demo_disk) demo_image [] ltac:(vm_compute; split; congruence)
    (fun _ => (true, true, true)) [] [] _ (str "/dev/sda1") None demo_waits) as [_ H].
  destruct H as (sched & st' & H1 & H2 & H3).
  - split; [|split]; intros; vm_compute; congruence.
  - reflexivity.
  - intros s. eexists. unfold after_write. cbn [oof obind].
    replace (bytes_eqb (str "/dev/sda1") (of_text (Diskconfig.d_device demo_disk))) with false by reflexivity.
    reflexivity.
  - exists sched, st'. split; [exact H1|]. split; [exact H2|exact H3].
Defined.

Lemma stream_flash_no_thread_witness :
  cmd_stream_flash demo_os (Some demo_disk) demo_volumes Hashmap.demo_mem demo_place Hashmap.demo_map
    (fun _ _ st => Ok (st, 0)) (fun _ => (true, true, true)) [] [] [] (str "nothing" ++ 58 :: str "3")
    (idle_fb STATE_COMMAND [] []) = Undef.
Proof.
  refine (stream_flash_no_thread demo_os (Some demo_disk) demo_volumes Hashmap.demo_mem demo_place Hashmap.demo_map
    (fun _ _ st => Ok (st, 0)) (fun _ => (true, true, true)) [] [] [] (idle_fb STATE_COMMAND [] []) (str "nothing") (str "3")
    _ _ _ Hashmap.demo_map_wf _ _ _ demo_disk eq_refl _).
  - apply (bool_decide_unpack _). vm_compute. exact I.
  - discriminate.
  - discriminate.
  - intros l. vm_compute. discriminate.
  - apply demo_ready.
  - reflexivity.
  - vm_compute. reflexivity.
Defined.

End AbootStream.
