(* ===== verification/Uevent.v ===== *)
(** * src/uevent.c and src/platform.c: the status of USB, charger and battery

    A thread receives the kernel's messages about devices, looks the device of
    a message up in a table for the platform, reads its file under [/sys] and
    keeps the three values that the user interface shows and that decide whether
    commands are blocked by a low battery. *)

From S2P Require Import Prelude Posix Fastboot TbootUtil.

Module Uevent.
Import Fastboot TbootUtil.

(** ** Platforms *)

Definition PLATFORM_UNKNOWN : Z := 0.
Definition PLATFORM_BLACKBAY : Z := 1.
Definition PLATFORM_REDRIDGE : Z := 2.
Definition PLATFORM_REDHOOKBAY : Z := 3.
Definition PLATFORM_MAX : Z := 3.

(** The new value of [plat_info.platform] and the result. *)
Definition set_current_platform (platform p : Z) : Z * Z :=
  if (p <? PLATFORM_UNKNOWN) || (PLATFORM_MAX <? p) then (platform, -1) else (p, 0).

(** ** The table of devices *)

Inductive device_type : Set := TYPE_USB | TYPE_BATTERY | TYPE_CHARGER.

Record device_mapping := mk_map { plat : Z; type : device_type; path : list Z; file : list Z }.

(** The entries before the one with [TYPE_UNKNOWN]. *)
Definition uevent_path : list device_mapping :=
  [mk_map PLATFORM_BLACKBAY TYPE_USB (str "/devices/virtual/usb_mode/usb0") (str "state");
   mk_map PLATFORM_BLACKBAY TYPE_BATTERY
     (str "/devices/pci0000:00/0000:00:00.4/i2c-1/1-0036/power_supply/max17042_battery") (str "capacity");
   mk_map PLATFORM_BLACKBAY TYPE_CHARGER
     (str "/devices/platform/intel_msic/msic_battery/power_supply/msic_charger") (str "online");
   mk_map PLATFORM_BLACKBAY TYPE_USB (str "/devices/virtual/usb_mode/usb0") (str "state");
   mk_map PLATFORM_BLACKBAY TYPE_BATTERY
     (str "/devices/pci0000:00/0000:00:00.4/i2c-1/1-0036/power_supply/max170xx_battery") (str "capacity");
   mk_map PLATFORM_BLACKBAY TYPE_CHARGER (str "/devices/ipc/msic_battery/power_supply/msic_charger") (str "online");
   mk_map PLATFORM_REDRIDGE TYPE_USB (str "/devices/virtual/usb_mode/usb0") (str "state");
   mk_map PLATFORM_REDRIDGE TYPE_BATTERY
     (str "/devices/pci0000:00/0000:00:00.4/i2c-1/1-0036/power_supply/max17042_battery") (str "capacity");
   mk_map PLATFORM_REDRIDGE TYPE_CHARGER
     (str "/devices/pci0000:00/0000:00:00.4/i2c-1/1-0006/power_supply/smb347-mains") (str "online");
   mk_map PLATFORM_REDRIDGE TYPE_BATTERY
     (str "/devices/pci0000:00/0000:00:00.4/i2c-1/1-0036/power_supply/max170xx_battery") (str "capacity");
   mk_map PLATFORM_REDHOOKBAY TYPE_USB (str "/devices/virtual/usb_mode/usb0") (str "state");
   mk_map PLATFORM_REDHOOKBAY TYPE_BATTERY
     (str "/devices/pci0000:00/0000:00:00.5/i2c-2/2-0036/power_supply/max17047_battery") (str "capacity");
   mk_map PLATFORM_REDHOOKBAY TYPE_CHARGER (str "/devices/pci0000:00/0000:00:00.5/i2c-2/2-006b") (str "online")].

(** ** The status *)

Definition STATUS_DISCONNECTED : Z := 0.
Definition STATUS_CONNECTED : Z := 1.
Definition STATUS_UNKOWN : Z := 2.

Record uevent_status := mk_status { usb_status : Z; charger_status : Z; battery_capacity : Z }.

(** The static variable before the first event. *)
Definition status_zero : uevent_status := mk_status 0 0 0.

(** [strncmp(p, l, strlen(p)) == 0] *)
Definition begins (p l : list Z) : bool := bytes_eqb (take (length p) l) p.

(** [atoi]: [strtol] saturates. *)
Fixpoint dec_value (acc : Z) (l : list Z) : Z :=
  match l with
  | c :: l' => if (48 <=? c) && (c <=? 57) then dec_value (acc * 10 + (c - 48)) l' else acc
  | [] => acc
  end.

Definition atoi (l : list Z) : Z :=
  let '(neg, l) := split_sign (skip_space l) in
  let v := dec_value 0 l in
  if neg then Z.max (- v) (- 2 ^ 31) else Z.min v (2 ^ 31 - 1).

(** The first device of the platform whose path is the start of [p]. *)
Fixpoint find_device (l : list device_mapping) (platform : Z) (p : list Z) : option device_mapping :=
  match l with
  | [] => None
  | dm :: l' => if (plat dm =? platform) && begins (path dm) p then Some dm else find_device l' platform p
  end.

(** The files under [/sys]: [None] for one that cannot be opened, [Some None]
    for one that cannot be read. *)
Definition sysfs : Type := list Z -> option (option (list Z)).

(** What the content of a device's file says. *)
Definition update (s : uevent_status) (t : device_type) (buf : list Z) : uevent_status :=
  match t with
  | TYPE_USB =>
    mk_status (if begins (str "CONFIGURED") buf then STATUS_CONNECTED
               else if begins (str "DISCONNECTED") buf then STATUS_DISCONNECTED else STATUS_UNKOWN)
      (charger_status s) (battery_capacity s)
  | TYPE_CHARGER =>
    mk_status (usb_status s) (if atoi buf =? 0 then STATUS_DISCONNECTED else STATUS_CONNECTED) (battery_capacity s)
  | TYPE_BATTERY => mk_status (usb_status s) (charger_status s) (atoi buf)
  end.

Definition UEVENT_PATH_MAX : Z := 256.

(** A message without an [@] makes a pointer that is not to be compared with. *)
Definition parse_uevent (fs : sysfs) (platform : Z) (s : uevent_status) (uevent : list Z) : outcome uevent_status :=
  if negb (begins (str "change") uevent) then Ok s
  else
    let! p := match index_of 64 uevent with
              | Some i => Ok (drop (S i) uevent)
              | None => if existsb (fun dm => plat dm =? platform) uevent_path then Undef else Ok []
              end in
    match find_device uevent_path platform p with
    | None => Ok s
    | Some dm =>
      match fs (snprintf UEVENT_PATH_MAX (str "/sys" ++ path dm ++ str "/" ++ file dm)) with
      | Some (Some bs) => Ok (update s (type dm) (c_string (take 15 bs)))
      | _ => Ok s
      end
    end.

Fixpoint init_loop (fs : sysfs) (platform : Z) (l : list device_mapping) (s : uevent_status) : outcome uevent_status :=
  match l with
  | [] => Ok s
  | dm :: l' =>
    let! s := if plat dm =? platform
              then parse_uevent fs platform s (snprintf UEVENT_PATH_MAX (str "change@" ++ path dm)) else Ok s in
    init_loop fs platform l' s
  end.

Definition uevent_status_init (fs : sysfs) (platform : Z) (s : uevent_status) : outcome uevent_status :=
  init_loop fs platform uevent_path s.

(** The loop of [uevent_thread]. A message is the result of [recv] and the
    whole buffer behind it, with the files as they are then; [None] is a failed
    [recv]. The buffer is searched as a string. The result counts the calls of
    the callback. *)
Fixpoint thread_loop (platform : Z) (msgs : list (option (Z * list Z * sysfs))) (s : uevent_status) (calls : nat)
  : outcome (uevent_status * nat) :=
  match msgs with
  | [] | None :: _ => Ok (s, calls)
  | Some (buflen, buffer, fs) :: l =>
    if buflen <? 4 then thread_loop platform l s calls
    else if negb (existsb (Z.eqb 0) buffer) then Undef
    else
      match strstr (c_string buffer) (str "@/") with
      | None => thread_loop platform l s calls
      | Some _ =>
        let! s := parse_uevent fs platform s (c_string buffer) in
        thread_loop platform l s (S calls)
      end
  end.

(** [sock] says whether the socket was opened and bound. *)
Definition uevent_thread (platform : Z) (sock : bool) (fs : sysfs) (msgs : list (option (Z * list Z * sysfs)))
    (s : uevent_status) : outcome (uevent_status * nat) :=
  if negb sock then Ok (s, 0%nat)
  else
    let! s := uevent_status_init fs platform s in
    thread_loop platform msgs s 1.


(** ** The table *)

#[export] Instance device_type_eq_dec : EqDecision device_type.
Proof. solve_decision. Defined.

#[export] Instance device_mapping_eq_dec : EqDecision device_mapping.
Proof. solve_decision. Defined.

Lemma begins_spec p l : begins p l = true <-> exists r, l = p ++ r.
Proof.
  unfold begins, bytes_eqb. rewrite bool_decide_eq_true. split.
  - intros H. exists (drop (length p) l). rewrite <- H at 1. by rewrite take_drop.
  - intros (r & ->). apply take_app_length.
Qed.

(** Two devices of a platform are the same, or neither path starts with the other. *)
Definition apart (a b : device_mapping) : bool :=
  bool_decide (a = b) || negb (plat a =? plat b) || (negb (begins (path a) (path b)) && negb (begins (path b) (path a))).

Lemma table_apart a b : a ∈ uevent_path -> b ∈ uevent_path -> apart a b = true.
Proof.
  assert (H : forallb (fun a => forallb (apart a) uevent_path) uevent_path = true) by (vm_compute; reflexivity).
  rewrite forallb_forall in H. intros Ha Hb. rewrite list_elem_of_In in Ha, Hb. specialize (H a Ha).
  rewrite forallb_forall in H. by apply H.
Qed.

Lemma prefixes_meet (a b r : list Z) : begins b (a ++ r) = true -> begins a b = true \/ begins b a = true.
Proof.
  rewrite !begins_spec. intros (r' & H). apply app_eq_app in H as (l & [[-> _]|[-> _]]); eauto.
Qed.

Lemma find_device_in l platform p dm : find_device l platform p = Some dm ->
  dm ∈ l /\ plat dm = platform /\ begins (path dm) p = true.
Proof.
  induction l as [|x l IH]; cbn; [done|]. destruct ((plat x =? platform) && begins (path x) p) eqn:E.
  - intros [= ->]. apply andb_prop in E as [E1 E2]. split; [left|]. split; [lia|done].
  - intros H. destruct (IH H) as (H1 & H2 & H3). split; [by right|done].
Qed.

Lemma find_device_some l platform p dm : dm ∈ l -> plat dm = platform -> begins (path dm) p = true ->
  is_Some (find_device l platform p).
Proof.
  intros Hin Hp Hb. induction l as [|x l IH]; [by apply not_elem_of_nil in Hin|]. cbn.
  destruct ((plat x =? platform) && begins (path x) p) eqn:E; [eauto|].
  apply elem_of_cons in Hin as [->|Hin]; [|auto]. rewrite Hp, Z.eqb_refl, Hb in E. done.
Qed.

(** A path of the table, also with something behind it, is found as itself. *)
Lemma find_device_table dm r : dm ∈ uevent_path -> find_device uevent_path (plat dm) (path dm ++ r) = Some dm.
Proof.
  intros Hin. destruct (find_device_some uevent_path (plat dm) (path dm ++ r) dm Hin eq_refl) as (dm' & Hd).
  { apply begins_spec. eauto. }
  rewrite Hd. destruct (find_device_in _ _ _ _ Hd) as (Hin' & Hp & Hb).
  pose proof (table_apart dm dm' Hin Hin') as Ha. unfold apart in Ha. rewrite Hp, Z.eqb_refl in Ha. cbn [negb] in Ha.
  rewrite orb_false_r in Ha. apply orb_prop in Ha as [Ha|Ha]; [by apply bool_decide_eq_true in Ha as ->|].
  apply prefixes_meet in Hb. apply andb_prop in Ha as [H1 H2]. destruct Hb as [H|H]; rewrite H in *; done.
Qed.

(** What the file of a device says now. *)
Definition read_device (fs : sysfs) (s : uevent_status) (dm : device_mapping) : uevent_status :=
  match fs (str "/sys" ++ path dm ++ str "/" ++ file dm) with
  | Some (Some bs) => update s (type dm) (c_string (take 15 bs))
  | _ => s
  end.

Lemma table_fits dm : dm ∈ uevent_path ->
  snprintf UEVENT_PATH_MAX (str "/sys" ++ path dm ++ str "/" ++ file dm) = str "/sys" ++ path dm ++ str "/" ++ file dm /\
  snprintf UEVENT_PATH_MAX (str "change@" ++ path dm) = str "change@" ++ path dm.
Proof.
  assert (H : forallb (fun dm => (length (path dm) + length (file dm) <=? 200)%nat) uevent_path = true)
    by (vm_compute; reflexivity).
  rewrite forallb_forall in H. intros Hin. rewrite list_elem_of_In in Hin. specialize (H dm Hin). cbv beta in H.
  apply Nat.leb_le in H. unfold snprintf, UEVENT_PATH_MAX. change (Z.to_nat (256 - 1)) with 255%nat.
  split; apply take_ge; rewrite !length_app; change (length (str "/sys")) with 4%nat;
    change (length (str "/")) with 1%nat; change (length (str "change@")) with 7%nat; lia.
Qed.

Lemma parse_change fs dm s r : dm ∈ uevent_path ->
  parse_uevent fs (plat dm) s (str "change@" ++ path dm ++ r) = Ok (read_device fs s dm).
Proof.
  intros Hin. unfold parse_uevent.
  assert (Hb : begins (str "change") (str "change@" ++ path dm ++ r) = true).
  { apply begins_spec. exists (str "@" ++ path dm ++ r). reflexivity. }
  rewrite Hb. cbn [negb]. change (index_of 64 (str "change@" ++ path dm ++ r)) with (Some 6%nat). cbn [obind].
  change (drop 7 (str "change@" ++ path dm ++ r)) with (path dm ++ r). rewrite find_device_table by done.
  destruct (table_fits dm Hin) as [-> _]. unfold read_device. by destruct (fs _) as [[bs|]|].
Qed.

Lemma init_reads fs platform l s : (forall dm, dm ∈ l -> dm ∈ uevent_path) ->
  init_loop fs platform l s = Ok (fold_left (read_device fs) (filter (fun dm => plat dm = platform) l) s).
Proof.
  revert s. induction l as [|dm l IH]; intros s Hl; [done|]. cbn [init_loop]. rewrite filter_cons.
  assert (Hl' : forall x, x ∈ l -> x ∈ uevent_path) by (intros x Hx; apply Hl; by right).
  destruct (Z.eqb_spec (plat dm) platform) as [<-|Hne].
  - rewrite decide_True by done. assert (Hin : dm ∈ uevent_path) by (apply Hl; left).
    destruct (table_fits dm Hin) as [_ ->]. rewrite <- (app_nil_r (path dm)) at 1. rewrite parse_change by done.
    cbn [obind fold_left]. by apply IH.
  - rewrite decide_False by done. cbn [obind]. by apply IH.
Qed.


(** ** Theorems *)

Definition status_ok (s : uevent_status) : Prop :=
  0 <= usb_status s <= 2 /\ 0 <= charger_status s <= 1 /\ - 2 ^ 31 <= battery_capacity s < 2 ^ 31.

Lemma dec_value_nonneg l : forall acc, 0 <= acc -> 0 <= dec_value acc l.
Proof.
  induction l as [|c l IH]; intros acc Ha; cbn; [done|]. destruct (_ && _) eqn:E; [|done].
  apply IH. apply andb_prop in E as [? ?]. lia.
Qed.

Lemma atoi_range l : - 2 ^ 31 <= atoi l < 2 ^ 31.
Proof.
  unfold atoi. destruct (split_sign _) as [[] d]; pose proof (dec_value_nonneg d 0 ltac:(lia)); lia.
Qed.

Lemma update_ok s t buf : status_ok s -> status_ok (update s t buf).
Proof.
  intros (H1 & H2 & H3). pose proof (atoi_range buf). unfold STATUS_CONNECTED, STATUS_DISCONNECTED, STATUS_UNKOWN.
  destruct t; unfold status_ok, update; cbn [usb_status charger_status battery_capacity]; split_and!; try lia.
  all: unfold STATUS_CONNECTED, STATUS_DISCONNECTED, STATUS_UNKOWN; repeat destruct (begins _ _); try destruct (_ =? 0); lia.
Qed.

(** A message that has an [@] is parsed. *)
Lemma parse_uevent_total fs platform s uevent : status_ok s -> index_of 64 uevent <> None ->
  exists s', parse_uevent fs platform s uevent = Ok s' /\ status_ok s' /\
    (platform = PLATFORM_UNKNOWN -> s' = s).
Proof.
  intros Hs Hi. unfold parse_uevent. destruct (negb _); [eauto|]. destruct (index_of 64 uevent) as [i|]; [|done].
  cbn [obind]. destruct (find_device _ _ _) as [dm|] eqn:Ef; [|eauto].
  assert (Hp : platform <> PLATFORM_UNKNOWN).
  { destruct (find_device_in _ _ _ _ Ef) as (Hin & <- & _). intros Hz.
    assert (H : forallb (fun dm => negb (plat dm =? PLATFORM_UNKNOWN)) uevent_path = true) by (vm_compute; reflexivity).
    rewrite forallb_forall in H. rewrite list_elem_of_In in Hin. specialize (H dm Hin). cbv beta in H. by rewrite Hz in H. }
  destruct (fs _) as [[bs|]|]; [exists (update s (type dm) (c_string (take 15 bs)))|eauto..].
  split; [done|]. split; [by apply update_ok|done].
Qed.

Lemma strstr_at l : strstr l (str "@/") <> None -> index_of 64 l <> None.
Proof.
  induction l as [|c l IH]; cbn; [done|]. destruct (Z.eqb_spec c 64) as [->|Hc]; [done|].
  unfold bytes_eqb. rewrite bool_decide_false.
  - intros H. specialize (IH H). by destruct (index_of 64 l).
  - intros H. injection H as H _. done.
Qed.

(** The messages of the kernel end with a null character inside of the buffer. *)
Definition terminated (m : option (Z * list Z * sysfs)) : Prop :=
  match m with Some (_, buffer, _) => 0 ∈ buffer | None => True end.

Lemma thread_loop_total platform msgs : Forall terminated msgs -> forall s calls, status_ok s ->
  exists s' n, thread_loop platform msgs s calls = Ok (s', n) /\ status_ok s' /\ (calls <= n <= calls + length msgs)%nat /\
    (platform = PLATFORM_UNKNOWN -> s' = s).
Proof.
  induction 1 as [|m msgs Hm _ IH]; intros s calls Hs; cbn [thread_loop length].
  { exists s, calls. split_and!; [done|done|lia|lia|done]. }
  destruct m as [[[buflen buffer] fs]|]; [|exists s, calls; split_and!; [done|done|lia|lia|done]].
  assert (Hskip : exists s' n, thread_loop platform msgs s calls = Ok (s', n) /\ status_ok s' /\
    (calls <= n <= calls + S (length msgs))%nat /\ (platform = PLATFORM_UNKNOWN -> s' = s)).
  { destruct (IH s calls Hs) as (s' & n & H1 & H2 & H3 & H4). exists s', n. split_and!; [done|done|lia|lia|done]. }
  destruct (buflen <? 4); [done|]. cbn [terminated] in Hm.
  assert (E : existsb (Z.eqb 0) buffer = true).
  { apply existsb_exists. exists 0. split; [by apply list_elem_of_In|done]. }
  rewrite E. cbn [negb]. destruct (strstr (c_string buffer) (str "@/")) as [r|] eqn:Er; [|done].
  destruct (parse_uevent_total fs platform s (c_string buffer) Hs) as (s1 & -> & Hs1 & Hu); [apply strstr_at; by rewrite Er|].
  cbn [obind]. destruct (IH s1 (S calls) Hs1) as (s' & n & H1 & H2 & H3 & H4). exists s', n.
  split_and!; [done|done|lia|lia|]. intros Hp. rewrite H4, Hu by done. done.
Qed.

Lemma read_device_ok fs s dm : status_ok s -> status_ok (read_device fs s dm).
Proof. intros Hs. unfold read_device. destruct (fs _) as [[bs|]|]; [by apply update_ok|done..]. Qed.

Lemma fold_ok fs l : forall s, status_ok s -> status_ok (fold_left (read_device fs) l s).
Proof. induction l as [|dm l IH]; intros s Hs; [done|]. cbn. by apply IH, read_device_ok. Qed.

(** C28: The thread survives every message. For all messages that end inside of the
    buffer, of any kind and length, and whatever the files under [/sys] hold, no
    pointer goes wrong, the values stay in their ranges, and the interface is told
    at most once for each message and once at the start. On an unknown platform no
    value ever changes. *)
Theorem uevent_thread_total platform sock fs msgs s : status_ok s -> Forall terminated msgs ->
  exists s' n, uevent_thread platform sock fs msgs s = Ok (s', n) /\ status_ok s' /\ (n <= S (length msgs))%nat /\
    (platform = PLATFORM_UNKNOWN -> s' = s).
Proof.
  intros Hs Hm. unfold uevent_thread. destruct sock; cbn [negb]; [|exists s, 0%nat; split_and!; [done|done|lia|done]].
  unfold uevent_status_init. rewrite init_reads by done. cbn [obind].
  destruct (thread_loop_total platform msgs Hm (fold_left (read_device fs) (filter (fun dm => plat dm = platform) uevent_path) s) 1)
    as (s' & n & H1 & H2 & H3 & H4); [by apply fold_ok|]. exists s', n. split_and!; [done|done|lia|]. intros Hp.
  rewrite H4 by done. rewrite Hp. reflexivity.
Qed.

(** An event of the kernel for a device: its message, what is behind it in the
    buffer, and the files at that time. *)
Definition event_message (e : device_mapping * list Z * sysfs) : option (Z * list Z * sysfs) :=
  let '(dm, junk, fs) := e in
  Some (zlen (str "change@" ++ path dm ++ [0]), str "change@" ++ path dm ++ 0 :: junk, fs).

Lemma c_string_cut l r : 0 ∉ l -> c_string (l ++ 0 :: r) = l.
Proof.
  induction l as [|c l IH]; intros Hn; cbn; [done|]. assert (E : (c =? 0) = false) by (apply Z.eqb_neq; set_solver).
  rewrite E, IH by set_solver. done.
Qed.

Lemma table_strings dm : dm ∈ uevent_path ->
  0 ∉ str "change@" ++ path dm /\ strstr (str "change@" ++ path dm) (str "@/") <> None.
Proof.
  assert (H : forallb (fun dm => forallb (fun c => negb (c =? 0)) (str "change@" ++ path dm) &&
     match strstr (str "change@" ++ path dm) (str "@/") with Some _ => true | None => false end) uevent_path = true)
    by (vm_compute; reflexivity).
  rewrite forallb_forall in H. intros Hin. rewrite list_elem_of_In in Hin. specialize (H dm Hin).
  apply andb_prop in H as [H1 H2]. split; [|by destruct (strstr _ _)].
  rewrite forallb_forall in H1. intros H0. rewrite list_elem_of_In in H0. by specialize (H1 0 H0).
Qed.

(** The values follow the events. After events for devices of the platform, in
    any order, every value is the one that the files had at the last event for a
    device of its kind (or at the start), and the interface was told each time. *)
Theorem uevent_thread_follows platform fs evs s :
  Forall (fun e => e.1.1 ∈ uevent_path /\ plat e.1.1 = platform) evs ->
  uevent_thread platform true fs (map event_message evs) s =
    Ok (fold_left (fun s e => read_device e.2 s e.1.1) evs
          (fold_left (read_device fs) (filter (fun dm => plat dm = platform) uevent_path) s), S (length evs)).
Proof.
  intros He. unfold uevent_thread, uevent_status_init. cbn [negb]. rewrite init_reads by done. cbn [obind].
  generalize (fold_left (read_device fs) (filter (fun dm => plat dm = platform) uevent_path) s). clear s.
  change (S (length evs)) with (1 + length evs)%nat. generalize 1%nat. revert He.
  induction 1 as [|[[dm junk] fs'] evs [Hin Hp] _ IH]; intros n s; cbn [map thread_loop fold_left].
  { by rewrite Nat.add_0_r. }
  cbn [fst snd] in *. unfold event_message. destruct (table_strings dm Hin) as [H0 Hs].
  assert (E4 : (zlen (str "change@" ++ path dm ++ [0]) <? 4) = false).
  { apply Z.ltb_ge. rewrite !zlen_app. change (zlen (str "change@")) with 7.
    pose proof (zlen_nonneg (path dm)). pose proof (zlen_nonneg [0]). lia. }
  rewrite E4. assert (E : existsb (Z.eqb 0) (str "change@" ++ path dm ++ 0 :: junk) = true).
  { apply existsb_exists. exists 0. split; [|done]. apply list_elem_of_In. rewrite !elem_of_app. right. right. left. }
  rewrite E. cbn [negb]. rewrite (app_assoc (str "change@")), c_string_cut by done.
  destruct (strstr (str "change@" ++ path dm) (str "@/")); [|done].
  rewrite <- (app_nil_r (path dm)), <- Hp, parse_change by done. cbn [obind]. rewrite Hp. rewrite (IH (S n)).
  do 2 f_equal. cbn [length]. lia.
Qed.


(** ** Examples *)

Definition demo_battery : device_mapping :=
  mk_map PLATFORM_REDHOOKBAY TYPE_BATTERY
    (str "/devices/pci0000:00/0000:00:00.5/i2c-2/2-0036/power_supply/max17047_battery") (str "capacity").

Definition demo_fs (level : list Z) : sysfs := fun p => if begins (str "/sys/devices/pci") p then Some (Some level) else None.

Lemma demo_battery_in : demo_battery ∈ uevent_path.
Proof. do 11 apply list_elem_of_further. apply list_elem_of_here. Qed.

Lemma uevent_thread_follows_witness :
  exists n, uevent_thread PLATFORM_REDHOOKBAY true (demo_fs (str "80"))
      (map event_message [(demo_battery, [7], demo_fs (str "79")); (demo_battery, [], demo_fs (str "78"))]) status_zero =
    Ok (mk_status 0 1 78, n).
Proof.
  exists 3%nat.
  rewrite (uevent_thread_follows PLATFORM_REDHOOKBAY (demo_fs (str "80"))
    [(demo_battery, [7], demo_fs (str "79")); (demo_battery, [], demo_fs (str "78"))] status_zero).
  - vm_compute. reflexivity.
  - repeat (constructor; [split; [exact demo_battery_in|reflexivity]|]). constructor.
Defined.

Lemma uevent_thread_total_witness :
  exists s' n, uevent_thread PLATFORM_UNKNOWN true (demo_fs (str "80"))
      [Some (3, str "a@/" ++ [0], demo_fs []); Some (20, str "change@/devices" ++ [0], demo_fs []); None] status_zero = Ok (s', n) /\
    s' = status_zero.
Proof.
  destruct (uevent_thread_total PLATFORM_UNKNOWN true (demo_fs (str "80"))
      [Some (3, str "a@/" ++ [0], demo_fs []); Some (20, str "change@/devices" ++ [0], demo_fs []); None] status_zero)
    as (s' & n & H1 & _ & _ & H2).
  - vm_compute. split_and!; congruence.
  - repeat constructor; (apply (bool_decide_unpack _); vm_compute; exact I).
  - exists s', n. split; [exact H1|]. apply H2. reflexivity.
Defined.

(** A message that fills the buffer is searched beyond its end. *)
Example uevent_unterminated :
  uevent_thread PLATFORM_BLACKBAY true (fun _ => None) [Some (1536, replicate 1536 97, fun _ => None)] status_zero = Undef.
Proof. vm_compute. reflexivity. Qed.

End Uevent.
