(* ===== verification/Battery.v ===== *)
(** * src/battery.c and src/charging.c: the power supply files

    The directories of the batteries are collected once; the status is then
    read from their [uevent] files, line by line, until the status and the
    capacity are known. *)

From S2P Require Import Prelude Posix ConfigParser Fastboot TbootUtil Uevent.

Module Battery.
Import Fastboot TbootUtil Uevent.

Definition PATH_MAX : Z := 4096.
Definition BUF_SIZE : nat := 4096.

Definition POWER_SUPPLY_DIR : list Z := str "/sys/class/power_supply".
Definition CHARGE_FULL_DESIGN : list Z := str "POWER_SUPPLY_CHARGE_FULL_DESIGN".
Definition CHARGE_EMPTY_DESIGN : list Z := str "POWER_SUPPLY_CHARGE_EMPTY_DESIGN".
Definition CHARGE_FULL : list Z := str "POWER_SUPPLY_CHARGE_FULL".
Definition CHARGE_EMPTY : list Z := str "POWER_SUPPLY_CHARGE_EMPTY".
Definition CHARGE_NOW : list Z := str "POWER_SUPPLY_CHARGE_NOW".
Definition BATTERY_STATUS : list Z := str "POWER_SUPPLY_STATUS".
Definition BATTERY_CAPACITY : list Z := str "POWER_SUPPLY_CAPACITY".

(** A word of [dirs]: [NULL], a string, or what was in the memory before. *)
Inductive slot : Set := Null | Dir (path : list Z) | Wild.

Definition is_null (s : slot) : bool := match s with Null => true | _ => false end.

Record battery := mk_bat {
  dirs : option (list slot);
  wd_index : Z;
  nr_dirs : Z;
  charge_full_design : Z;
  charge_empty_design : Z;
  charge_full : Z;
  charge_empty : Z;
  charge_now : Z;
  status : option (list Z);
  capacity : Z
}.

Definition set_dirs (b : battery) (d : option (list slot)) (n : Z) : battery :=
  mk_bat d (wd_index b) n (charge_full_design b) (charge_empty_design b) (charge_full b) (charge_empty b) (charge_now b) (status b) (capacity b).
Definition set_wd_index (b : battery) (i : Z) : battery :=
  mk_bat (dirs b) i (nr_dirs b) (charge_full_design b) (charge_empty_design b) (charge_full b) (charge_empty b) (charge_now b) (status b) (capacity b).
Definition set_charges (b : battery) (fd ed f e n : Z) : battery :=
  mk_bat (dirs b) (wd_index b) (nr_dirs b) fd ed f e n (status b) (capacity b).
Definition set_status (b : battery) (s : option (list Z)) : battery :=
  mk_bat (dirs b) (wd_index b) (nr_dirs b) (charge_full_design b) (charge_empty_design b) (charge_full b) (charge_empty b) (charge_now b) s (capacity b).
Definition set_capacity (b : battery) (c : Z) : battery :=
  mk_bat (dirs b) (wd_index b) (nr_dirs b) (charge_full_design b) (charge_empty_design b) (charge_full b) (charge_empty b) (charge_now b) (status b) c.

(** [dirs[i]] *)
Definition dir_at (d : list slot) (i : Z) : outcome slot :=
  if i <? 0 then Undef else match d !! Z.to_nat i with Some s => Ok s | None => Undef end.

(** [fgets] with room for [n] characters. *)
Fixpoint fgets (n : nat) (l : list Z) : list Z * list Z :=
  match n, l with
  | O, _ => ([], l)
  | _, [] => ([], [])
  | S n', c :: l' => if c =? 10 then ([c], l') else let '(a, b) := fgets n' l' in (c :: a, b)
  end.

(** ** Finding the directories

    Memory is given by [malloc] as it is: [garbage] tells which words are not
    zero. [mem] answers the allocations, which succeed when it is over. *)
Section Init.
Context (garbage : nat -> bool).

Definition word (i : nat) : slot := if garbage i then Wild else Null.

Definition malloc (mem : list bool) : bool * list bool := (hd true mem, tl mem).

(** [while (bat->dirs[i]) i++] *)
Fixpoint next_empty (fuel : nat) (d : list slot) (i : Z) : outcome Z :=
  match fuel with
  | O => NoFuel
  | S f => let! s := dir_at d i in if is_null s then Ok i else next_empty f d (i + 1)
  end.

(** The name of an entry, and the content of its [type] file if that can be opened. *)
Definition dirent : Type := list Z * option (list Z).

Definition type_path (d_name : list Z) : list Z := snprintf PATH_MAX (POWER_SUPPLY_DIR ++ str "/" ++ d_name ++ str "/type").

(** [strncmp(line, "Battery", 7)] of the first line. *)
Definition is_battery (type : list Z) : bool := begins (str "Battery") (c_string (fst (fgets (BUF_SIZE - 1) type))).

(** The array is extended if it is full; [None] without memory. *)
Definition extend (bat : battery) (d : list slot) (mem : list bool) : outcome (option battery * list bool) :=
  let! last := dir_at d (nr_dirs bat - 1) in
  if is_null last then Ok (Some bat, mem)
  else
    let n := s32 (nr_dirs bat * 2) in
    let '(ok, mem) := malloc mem in
    Ok (if ok then Some (set_dirs bat (Some (d ++ map word (seq (length d) (length d)))) n) else None, mem).

Fixpoint traverse (l : list dirent) (i : Z) (bat : battery) (mem : list bool) : outcome (battery * list bool) :=
  match l, dirs bat with
  | [], _ => Ok (bat, mem)
  | _, None => Undef
  | (d_name, type) :: l', Some d =>
      if bytes_eqb d_name (str ".") || bytes_eqb d_name (str "..") then traverse l' i bat mem
      else
        match type with
        | None => traverse l' i bat mem
        | Some [] => traverse l' i bat mem
        | Some type =>
            if negb (is_battery type) then traverse l' i bat mem
            else
              let! (grown, mem) := extend bat d mem in
              match grown with
              | None => Ok (set_dirs bat None (s32 (nr_dirs bat * 2)), mem)
              | Some bat =>
                  let d := default [] (dirs bat) in
                  let! i := next_empty (S (length d)) d i in
                  let path := type_path d_name in
                  let '(ok, mem) := malloc mem in
                  let s := if ok then Dir (take (length path - 5) path) else Null in
                  traverse l' i (set_dirs bat (Some (<[Z.to_nat i := s]> d)) (nr_dirs bat)) mem
              end
        end
  end.

(** The names are printed for debugging. *)
Fixpoint print_loop (d : list slot) : outcome unit :=
  match d with
  | Dir _ :: d' => print_loop d'
  | Wild :: _ => Undef
  | _ => Ok tt
  end.

(** [None]: the directory cannot be opened. *)
Definition battery_init_dirs (entries : option (list dirent)) (bat : battery) (mem : list bool) : outcome (battery * list bool) :=
  match dirs bat, entries with
  | None, _ => Ok (bat, mem)
  | _, None => Ok (bat, mem)
  | _, Some l =>
      let! (bat, mem) := traverse l 0 bat mem in
      match dirs bat with
      | None => Ok (bat, mem)
      | Some d => let! _ := print_loop (take (Z.to_nat (nr_dirs bat)) d) in Ok (bat, mem)
      end
  end.

(** [wd]: what is in the place of [wd_index]. *)
Definition battery_init (wd : Z) (entries : option (list dirent)) (mem : list bool) : outcome (option battery * list bool) :=
  let '(ok, mem) := malloc mem in
  if negb ok then Ok (None, mem)
  else
    let '(ok, mem) := malloc mem in
    if negb ok then Ok (None, mem)
    else
      let bat := mk_bat (Some [word 0]) wd 1 (-1) 0 (-1) 0 (-1) None (-1) in
      let! (bat, mem) := battery_init_dirs entries bat mem in Ok (Some bat, mem).

End Init.

(** [while (bat->dirs[i] && i < bat->nr_dirs)]; what was allocated can be freed. *)
Fixpoint free_loop (fuel : nat) (d : list slot) (n i : Z) : outcome unit :=
  match fuel with
  | O => NoFuel
  | S f =>
      let! s := dir_at d i in
      match s with
      | Null => Ok tt
      | Dir _ => if i <? n then free_loop f d n (i + 1) else Ok tt
      | Wild => if i <? n then Undef else Ok tt
      end
  end.

Definition battery_free (bat : option battery) : outcome unit :=
  match bat with
  | None => Ok tt
  | Some b => match dirs b with None => Ok tt | Some d => free_loop (S (length d)) d (nr_dirs b) 0 end
  end.

(** ** The status

    The value of a key and the line, which loses its newline; without memory the
    value is [NULL]. A line with the key but without [=] returns nothing, and what
    the caller then uses is not defined. *)
Definition key_value (mem : list bool) (buf key : list Z) : outcome (option (list Z) * list Z * list bool) :=
  match strstr buf key with
  | None => Ok (None, buf, mem)
  | Some strp =>
      let strp := drop (length key) strp in
      match index_of 61 strp with
      | None => Undef
      | Some k =>
          let strp := drop (S k) strp in
          let pre := take (length buf - length strp) buf in
          let strp := if bool_decide (last strp = Some 10) then take (length strp - 1) strp else strp in
          let '(ok, mem) := malloc mem in
          Ok (if ok then Some strp else None, pre ++ strp, mem)
      end
  end.

(** A line says something about the charge. *)
Inductive charge_key : Set := FullDesign | Full | EmptyDesign | Empty | Now.

Definition charge_keys : list (charge_key * list Z) :=
  [(FullDesign, CHARGE_FULL_DESIGN); (Full, CHARGE_FULL); (EmptyDesign, CHARGE_EMPTY_DESIGN); (Empty, CHARGE_EMPTY); (Now, CHARGE_NOW)].

Definition set_charge (b : battery) (k : charge_key) (v : Z) : battery :=
  let '(fd, ed, f, e, n) := (charge_full_design b, charge_empty_design b, charge_full b, charge_empty b, charge_now b) in
  match k with
  | FullDesign => set_charges b v ed f e n
  | Full => set_charges b fd ed v e n
  | EmptyDesign => set_charges b fd v f e n
  | Empty => set_charges b fd ed f v n
  | Now => set_charges b fd ed f e v
  end.

Fixpoint charge_line (mem : list bool) (keys : list (charge_key * list Z)) (line : list Z) (bat : battery) : outcome (battery * list bool) :=
  match keys with
  | [] => Ok (bat, mem)
  | (k, key) :: keys' =>
      let! (value, line, mem) := key_value mem line key in
      match value with
      | Some v => Ok (set_charge bat k (atoi v), mem)
      | None => charge_line mem keys' line bat
      end
  end.

(** The battery after a line, and whether the function returns. *)
Definition status_line (mem : list bool) (line : list Z) (bat : battery) : outcome (battery * bool * list bool) :=
  let! (value, line, mem) := key_value mem line BATTERY_STATUS in
  match value with
  | Some v =>
      let bat := set_status bat (Some v) in
      if begins (str "Full") v then Ok (set_capacity bat 100, true, mem) else Ok (bat, false, mem)
  | None =>
      let! (value, line, mem) := key_value mem line BATTERY_CAPACITY in
      match value with
      | Some v =>
          let bat := set_capacity bat (atoi v) in
          Ok (bat, match status bat with Some _ => true | None => false end, mem)
      | None => let! (bat, mem) := charge_line mem charge_keys line bat in Ok (bat, false, mem)
      end
  end.

Fixpoint lines_loop (fuel : nat) (mem : list bool) (content : list Z) (bat : battery) : outcome (battery * bool * list bool) :=
  match fuel with
  | O => NoFuel
  | S f =>
      match content with
      | [] => Ok (bat, false, mem)
      | _ =>
          let '(line, rest) := fgets (BUF_SIZE - 1) content in
          let! (bat, done, mem) := status_line mem (c_string line) bat in
          if done then Ok (bat, true, mem) else lines_loop f mem rest bat
      end
  end.

(** An [int] that overflows is undefined. *)
Definition int (z : Z) : outcome Z := if (- 2 ^ 31 <=? z) && (z <? 2 ^ 31) then Ok z else Undef.

(** The capacity from the charge; [None] when it cannot be told. *)
Definition calculate (bat : battery) : outcome (option battery) :=
  if capacity bat <? 0 then
    if (charge_full bat <=? 0) || (charge_now bat <=? 0) || (charge_full bat =? charge_empty bat) then Ok None
    else
      let! percent := int (charge_now bat * 100) in
      let! range := int (charge_full bat - charge_empty bat) in
      Ok (Some (set_capacity bat (Z.quot percent range)))
  else Ok (Some bat).

Section Status.
(** The content of a file, if it can be opened. *)
Context (files : list Z -> option (list Z)).

Fixpoint status_loop (fuel : nat) (mem : list bool) (d : list slot) (bat : battery) : outcome (battery * Z * list bool) :=
  match fuel with
  | O => NoFuel
  | S f =>
      let! s := dir_at d (wd_index bat) in
      match s with
      | Null => Ok (bat, -1, mem)
      | Wild => Undef
      | Dir battery_dir =>
          match files (snprintf PATH_MAX (battery_dir ++ str "/uevent")) with
          | None => Ok (bat, -1, mem)
          | Some content =>
              let! (bat, done, mem) := lines_loop (S (length content)) mem content bat in
              if done then Ok (bat, 0, mem)
              else
                let next := set_wd_index bat (s32 (wd_index bat + 1)) in
                let! c := calculate bat in
                match c with
                | None => status_loop f mem d next
                | Some bat =>
                    if capacity bat <? 0 then status_loop f mem d (set_wd_index bat (s32 (wd_index bat + 1)))
                    else
                      match status bat with
                      | Some _ => Ok (bat, 0, mem)
                      | None =>
                          let '(ok, mem) := malloc mem in
                          Ok (set_status bat (if ok then Some (str "Unknown") else None), 0, mem)
                      end
                end
          end
      end
  end.

Definition battery_status (bat : option battery) (mem : list bool) : outcome (option battery * Z * list bool) :=
  match bat with
  | None => Ok (None, -1, mem)
  | Some b =>
      match dirs b with
      | None => Ok (Some b, -1, mem)
      | Some d => let! (b, r, mem) := status_loop (S (length d)) mem d b in Ok (Some b, r, mem)
      end
  end.

End Status.

(** ** The lines of a file *)

Definition keys : list (list Z) := BATTERY_STATUS :: BATTERY_CAPACITY :: map snd charge_keys.

Definition reading : Type := list Z * list Z.

Definition line_of (r : reading) : list Z := r.1 ++ 61 :: r.2 ++ [10].
Definition content_of (l : list reading) : list Z := concat (map line_of l).

Definition absent (l p : list Z) : bool := match strstr l p with None => true | Some _ => false end.

(** A line fits in the buffer, and only a line for a key of the program has one
    of them in it; the numbers are not negative and do not overflow. *)
Definition clean (r : reading) : bool :=
  forallb (fun c => negb (c =? 0) && negb (c =? 10)) (r.1 ++ r.2) && (length r.1 + length r.2 <? 4093)%nat &&
  (if bool_decide (r.1 ∈ keys)
   then absent (r.2 ++ [10]) (str "POWER_SUPPLY_") && (bool_decide (r.1 = BATTERY_STATUS) || ((0 <=? atoi r.2) && (atoi r.2 * 100 <? 2 ^ 31)))
   else forallb (absent (line_of r)) keys).

(** ** What the files say *)

Fixpoint get (k : list Z) (l : list reading) : option (list Z) :=
  match l with [] => None | r :: l' => if bool_decide (r.1 = k) then Some r.2 else get k l' end.

Definition number (k : list Z) (l : list reading) (none : Z) : Z := match get k l with Some v => atoi v | None => none end.

(** The status and the capacity: a full battery has 100 percent, the capacity is
    taken when the driver tells it, and computed from the charge otherwise. *)
Definition level (l : list reading) : option (list Z * Z) :=
  let name := default (str "Unknown") (get BATTERY_STATUS l) in
  if begins (str "Full") name then Some (name, 100)
  else match get BATTERY_CAPACITY l with
       | Some v => Some (name, atoi v)
       | None =>
           let '(full, empty, now) := (number CHARGE_FULL l (-1), number CHARGE_EMPTY l 0, number CHARGE_NOW l (-1)) in
           if (full <=? 0) || (now <=? 0) || (full =? empty) then None
           else let c := Z.quot (now * 100) (full - empty) in if c <? 0 then None else Some (name, c)
       end.

(** The first directory that completes what is needed. *)
Fixpoint first_level (known : list reading) (rest : list (list reading)) : option (list Z * Z) :=
  match rest with
  | [] => None
  | l :: rest' => match level (known ++ l) with Some r => Some r | None => first_level (known ++ l) rest' end
  end.

(** ** Lemmas: searching *)

Lemma strstr_none l p : strstr l p = None <-> forall a b, l <> a ++ p ++ b.
Proof.
  split.
  - induction l as [|c l IH]; intros H a b E; cbn [strstr] in H; unfold bytes_eqb in H; case_bool_decide as D; try discriminate.
    + symmetry in E. apply app_eq_nil in E as (-> & E). apply app_eq_nil in E as (-> & ->). by apply D.
    + destruct a as [|x a].
      * apply D. rewrite E. cbn [app]. apply take_app_length.
      * injection E as -> E. exact (IH H a b E).
  - induction l as [|c l IH]; intros H; cbn [strstr]; unfold bytes_eqb; case_bool_decide as D.
    + rewrite take_nil in D. subst p. by destruct (H [] []).
    + reflexivity.
    + destruct (H [] (drop (length p) (c :: l))). cbn [app]. rewrite <- (take_drop (length p) (c :: l)) at 1. by rewrite D.
    + apply IH. intros a b E. apply (H (c :: a) b). by rewrite E.
Qed.

Lemma strstr_longer l p q : strstr l p = None -> strstr l (p ++ q) = None.
Proof. rewrite !strstr_none. intros H a b E. apply (H a (q ++ b)). rewrite E, <- app_assoc. reflexivity. Qed.

Lemma strstr_first p l : strstr (p ++ l) p = Some (p ++ l).
Proof. destruct p as [|c p]; [destruct l; reflexivity|]. cbn [app strstr]. change (c :: p ++ l) with ((c :: p) ++ l). unfold bytes_eqb. rewrite take_app_length, bool_decide_eq_true_2 by done. reflexivity. Qed.

(** A word without [=] that is neither in the key nor in the value is not in the line. *)
Lemma strstr_line k v p : 61 ∉ p -> strstr k p = None -> strstr v p = None -> strstr (k ++ 61 :: v) p = None.
Proof.
  rewrite !strstr_none. intros Hp Hk Hv a b E. apply app_eq_app in E as (m & [(E1 & E2)|(E1 & E2)]).
  - symmetry in E2. apply app_eq_app in E2 as (n & [(E3 & E4)|(E3 & E4)]).
    + apply (Hk a n). by rewrite E1, E3.
    + destruct n as [|x n].
      * rewrite app_nil_r in E3. subst m. apply (Hk a []). by rewrite app_nil_r.
      * injection E4 as <- _. apply Hp. rewrite E3. apply elem_of_app. right. left.
  - destruct m as [|x m].
    + cbn [app] in E2. destruct p as [|y p]; [by apply (Hv [] v)|]. injection E2 as <- _. apply Hp. left.
    + injection E2 as <- E2. exact (Hv m b E2).
Qed.


(** ** Lemmas: a line *)

Lemma key_value_hit k v : key_value [] (k ++ 61 :: v ++ [10]) k = Ok (Some v, k ++ 61 :: v, []).
Proof.
  unfold key_value. rewrite strstr_first, drop_app_length. cbn [index_of Z.eqb Pos.eqb drop malloc hd tl].
  rewrite drop_0, last_snoc, bool_decide_eq_true_2 by done. rewrite length_app. cbn [length].
  replace (length v + 1 - 1)%nat with (length v) by lia. rewrite take_app_length. do 3 f_equal.
  replace (length (k ++ 61%Z :: v ++ [10%Z]) - (length v + 1))%nat with (length (k ++ [61])) by (rewrite !length_app; cbn [length]; rewrite length_app; cbn [length]; lia).
  change (61 :: v ++ [10]) with ([61] ++ v ++ [10]). rewrite (app_assoc k), take_app_length, <- app_assoc. reflexivity.
Qed.

Lemma key_value_miss mem l k : strstr l k = None -> key_value mem l k = Ok (None, l, mem).
Proof. intros H. unfold key_value. by rewrite H. Qed.

Lemma absent_spec l p : absent l p = true -> strstr l p = None.
Proof. unfold absent. destruct (strstr l p); [discriminate|reflexivity]. Qed.

(** A key is missed in the line of another one that does not hold it. *)
Lemma key_value_other mem k v q : let p := str "POWER_SUPPLY_" ++ q in
  strstr (v ++ [10]) (str "POWER_SUPPLY_") = None -> 61 ∉ p -> strstr k p = None ->
  key_value mem (k ++ 61 :: v ++ [10]) p = Ok (None, k ++ 61 :: v ++ [10], mem).
Proof. intros p Hv Hp Hk. apply key_value_miss, strstr_line; auto. by apply strstr_longer. Qed.

Definition charge_key_of (k : list Z) : option charge_key :=
  fst <$> find (fun p => bool_decide (k = p.2)) charge_keys.

(** What a line does. *)
Definition note (bat : battery) (r : reading) : battery * bool :=
  if bool_decide (r.1 = BATTERY_STATUS) then
    let bat := set_status bat (Some r.2) in
    if begins (str "Full") r.2 then (set_capacity bat 100, true) else (bat, false)
  else if bool_decide (r.1 = BATTERY_CAPACITY) then
    (set_capacity bat (atoi r.2), match status bat with Some _ => true | None => false end)
  else match charge_key_of r.1 with Some k => (set_charge bat k (atoi r.2), false) | None => (bat, false) end.

Ltac key_step :=
  first
  [ rewrite key_value_hit
  | match goal with |- context [key_value ?m (?k ++ 61 :: ?v ++ [10]) ?p] =>
      let q := eval vm_compute in (drop 13 p) in
      let E := fresh in
      assert (key_value m (k ++ 61 :: v ++ [10]) p = Ok (None, k ++ 61 :: v ++ [10], m)) as E
        by (apply (key_value_other m k v q); [assumption|apply (bool_decide_eq_true_1 _); vm_compute; reflexivity|vm_compute; reflexivity]);
      rewrite E; clear E
    end ]; cbn [obind].

Lemma status_line_note r bat : clean r = true -> status_line [] (line_of r) bat = Ok (note bat r, []).
Proof.
  destruct r as [k v]. unfold clean, line_of. cbn [fst snd]. rewrite andb_true_iff. intros (_ & H). case_bool_decide as Hk.
  - apply andb_true_iff in H as (Hv & _). apply absent_spec in Hv. unfold status_line.
    unfold keys, charge_keys in Hk. cbn [map snd] in Hk.
    apply elem_of_cons in Hk as [->|Hk].
    { key_step. unfold note. cbn [fst snd]. rewrite bool_decide_eq_true_2 by done. destruct (begins _ v); reflexivity. }
    repeat (apply elem_of_cons in Hk as [->|Hk]; [repeat key_step; unfold charge_keys; repeat (cbn [charge_line]; key_step); reflexivity|]).
    by apply elem_of_nil in Hk.
  - rewrite forallb_forall in H. assert (forall p, p ∈ keys -> strstr (line_of (k, v)) p = None) as Hn.
    { intros p Hp. apply absent_spec, H. by apply list_elem_of_In. }
    change (k ++ 61 :: v ++ [10]) with (line_of (k, v)). unfold status_line, charge_keys.
    repeat (cbn [charge_line]; rewrite key_value_miss by (apply Hn; unfold keys; set_solver); cbn [obind]). cbn [charge_line obind].
    unfold note. cbn [fst snd]. assert (forall p, p ∈ keys -> k <> p) as Hne by (intros p Hp ->; contradiction).
    rewrite !bool_decide_eq_false_2 by (apply Hne; unfold keys; set_solver).
    assert (charge_key_of k = None) as ->; [|reflexivity].
    unfold charge_key_of. destruct (find _ charge_keys) as [p|] eqn:E; [|reflexivity]. apply find_some in E as (E & Ek).
    apply bool_decide_eq_true in Ek. exfalso. apply (Hne p.2); [|exact Ek]. unfold keys. do 2 right. apply list_elem_of_fmap. exists p. split; [reflexivity|]. by apply list_elem_of_In.
Qed.


(** ** Lemmas: a file *)

Fixpoint notes (l : list reading) (bat : battery) : battery * bool :=
  match l with
  | [] => (bat, false)
  | r :: l' => let '(bat, done) := note bat r in if done then (bat, true) else notes l' bat
  end.

Lemma fgets_reading n l rest : (forall c, c ∈ l -> c <> 10) -> (length l < n)%nat -> fgets n (l ++ 10 :: rest) = (l ++ [10], rest).
Proof.
  revert n. induction l as [|c l IH]; intros [|n] Hl Hn; cbn [length] in *; try lia; cbn [app fgets].
  - reflexivity.
  - rewrite (proj2 (Z.eqb_neq c 10)) by (apply Hl; left). rewrite IH; [reflexivity| |lia]. intros x Hx. apply Hl. by right.
Qed.

Lemma c_string_plain l : (forall c, c ∈ l -> c <> 0) -> c_string l = l.
Proof.
  induction l as [|c l IH]; intros H; [reflexivity|]. cbn [c_string]. rewrite (proj2 (Z.eqb_neq c 0)) by (apply H; left).
  f_equal. apply IH. intros x Hx. apply H. by right.
Qed.

Lemma clean_chars r c : clean r = true -> c ∈ r.1 ++ r.2 -> c <> 0 /\ c <> 10.
Proof.
  unfold clean. rewrite !andb_true_iff, forallb_forall. intros ((H & _) & _) Hc. apply list_elem_of_In in Hc. apply H in Hc. lia.
Qed.

Lemma lines_loop_notes l : Forall (fun r => clean r = true) l -> forall fuel bat, (length (content_of l) < fuel)%nat ->
  lines_loop fuel [] (content_of l) bat = Ok (notes l bat, []).
Proof.
  induction 1 as [|r l Hr Hl IH]; intros [|f] bat Hf; try lia; [reflexivity|].
  change (content_of (r :: l)) with (line_of r ++ content_of l) in *. cbn [lines_loop].
  assert (line_of r ++ content_of l = (r.1 ++ 61 :: r.2) ++ 10 :: content_of l) as E.
  { unfold line_of. rewrite <- !app_assoc. cbn [app]. by rewrite <- app_assoc. }
  assert (forall c, c ∈ r.1 ++ 61 :: r.2 -> c <> 0 /\ c <> 10) as Hc.
  { intros c Hc. apply elem_of_app in Hc as [Hc|Hc]; [apply (clean_chars r); [done|apply elem_of_app; by left]|].
    apply elem_of_cons in Hc as [->|Hc]; [lia|]. apply (clean_chars r); [done|apply elem_of_app; by right]. }
  rewrite E. rewrite fgets_reading; [|intros c H; by apply Hc|].
  2: { unfold clean in Hr. rewrite !andb_true_iff in Hr. destruct Hr as ((_ & Hr) & _). rewrite length_app. cbn [length]. apply Nat.ltb_lt in Hr. unfold BUF_SIZE. lia. }
  assert (c_string ((r.1 ++ 61 :: r.2) ++ [10]) = line_of r) as ->.
  { rewrite c_string_plain; [unfold line_of; by rewrite <- app_assoc|]. intros c H. apply elem_of_app in H as [H|H]; [by apply Hc|].
    apply list_elem_of_singleton in H. lia. }
  rewrite status_line_note by done.
  destruct ((r.1 ++ 61 :: r.2) ++ 10 :: content_of l) eqn:En; [by apply app_eq_nil in En as (_ & En)|]. clear En.
  cbn [obind notes]. destruct (note bat r) as [bat' []]; [reflexivity|]. apply IH.
  unfold line_of in Hf. rewrite !length_app in Hf. cbn [length] in Hf. lia.
Qed.

(** ** Lemmas: what is known *)

(** The battery has what the readings say, and more is needed. *)
Record knows (bat : battery) (l : list reading) : Prop := {
  kn_status : status bat = get BATTERY_STATUS l;
  kn_not_full : forall v, get BATTERY_STATUS l = Some v -> begins (str "Full") v = false;
  kn_capacity : match get BATTERY_CAPACITY l with Some v => capacity bat = atoi v | None => capacity bat < 0 end;
  kn_full : charge_full bat = number CHARGE_FULL l (-1);
  kn_empty : charge_empty bat = number CHARGE_EMPTY l 0;
  kn_now : charge_now bat = number CHARGE_NOW l (-1)
}.

Lemma get_app k l1 l2 : get k (l1 ++ l2) = match get k l1 with Some v => Some v | None => get k l2 end.
Proof. induction l1 as [|r l1 IH]; [reflexivity|]. cbn [app get]. case_bool_decide; [reflexivity|exact IH]. Qed.

Lemma get_none k l : k ∉ l.*1 <-> get k l = None.
Proof.
  induction l as [|r l IH]; cbn [get fmap list_fmap]; [split; [reflexivity|intros _ H; inversion H]|].
  rewrite not_elem_of_cons, IH. case_bool_decide; split; try discriminate; intuition congruence.
Qed.

Lemma get_new k l r : r.1 ∉ l.*1 -> get k (l ++ [r]) = if bool_decide (r.1 = k) then Some r.2 else get k l.
Proof.
  intros H. rewrite get_app. cbn [get]. apply get_none in H. case_bool_decide as E; [subst k; by rewrite H|]. by destruct (get k l).
Qed.

Lemma number_new k l r d : r.1 ∉ l.*1 -> number k (l ++ [r]) d = if bool_decide (r.1 = k) then atoi r.2 else number k l d.
Proof. intros H. unfold number. rewrite get_new by done. by case_bool_decide. Qed.

(** The directories do not change. *)
Definition same_dirs (a b : battery) : Prop := dirs a = dirs b /\ wd_index a = wd_index b /\ nr_dirs a = nr_dirs b.

Lemma note_same bat r : same_dirs (note bat r).1 bat.
Proof.
  unfold note. repeat case_bool_decide; [destruct (begins _ _)| |destruct (charge_key_of r.1) as [[]|]]; repeat split; reflexivity.
Qed.

Lemma level_full l v : get BATTERY_STATUS l = Some v -> begins (str "Full") v = true -> level l = Some (v, 100).
Proof. intros H1 H2. unfold level. rewrite H1. cbn [default from_option id]. by rewrite H2. Qed.

Lemma level_told l v c : (forall v, get BATTERY_STATUS l = Some v -> begins (str "Full") v = false) -> default (str "Unknown") (get BATTERY_STATUS l) = v ->
  get BATTERY_CAPACITY l = Some c -> level l = Some (v, atoi c).
Proof.
  intros H1 <- H3. unfold level. rewrite H3. destruct (get BATTERY_STATUS l) as [v|]; cbn [default from_option id]; [by rewrite H1|reflexivity].
Qed.

Lemma charge_key_some k ck : charge_key_of k = Some ck -> (ck, k) ∈ charge_keys.
Proof.
  unfold charge_key_of. destruct (find _ charge_keys) as [[ck' k']|] eqn:E; [|discriminate]. intros [= ->].
  apply find_some in E as (E & H). apply bool_decide_eq_true in H. cbn in H. subst k'. by apply list_elem_of_In.
Qed.

Lemma charge_key_none k p : charge_key_of k = None -> p ∈ charge_keys -> k <> p.2.
Proof.
  unfold charge_key_of. destruct (find _ charge_keys) as [q|] eqn:E; [discriminate|]. intros _ Hp H.
  apply list_elem_of_In in Hp. apply (find_none _ _ E) in Hp. apply bool_decide_eq_false in Hp. contradiction.
Qed.

(** The fields after a reading for a key that is known. *)
Ltac know_field E :=
  cbn [set_status set_capacity set_charge set_charges status capacity charge_full charge_empty charge_now];
  rewrite ?number_new, ?get_new by assumption; rewrite ?E;
  repeat match goal with |- context [bool_decide (?a = ?b)] =>
    let x := eval vm_compute in (bool_decide (a = b)) in change (bool_decide (a = b)) with x end; cbn iota.

(** A new reading: the function returns with the level, or more is known. *)
Lemma note_knows bat l r more : knows bat l -> r.1 ∉ l.*1 ->
  let '(bat', done) := note bat r in
  if done then exists v, status bat' = Some v /\ level (l ++ r :: more) = Some (v, capacity bat') else knows bat' (l ++ [r]).
Proof.
  intros [K1 K2 K3 K4 K5 K6] Hr. pose proof (proj1 (get_none _ _) Hr) as Hg.
  assert (get r.1 (l ++ r :: more) = Some r.2) as Hget by (rewrite get_app, Hg; cbn [get]; by rewrite bool_decide_eq_true_2).
  unfold note. case_bool_decide as E1; [destruct (begins (str "Full") r.2) eqn:Ef|case_bool_decide as E2; [destruct (status bat) as [v|] eqn:Es|]].
  - exists r.2. split; [reflexivity|]. rewrite E1 in Hget. by apply level_full.
  - split; try (know_field E1; solve [reflexivity|assumption]). intros v. know_field E1. by intros [= <-].
  - exists v. cbn. rewrite Es. split; [reflexivity|]. rewrite E2 in Hget. symmetry in K1. apply level_told; [|by rewrite get_app, K1|exact Hget].
    rewrite get_app, K1. intros w [= <-]. by apply K2.
  - split; try (know_field E2; solve [reflexivity|congruence]).
  - destruct (charge_key_of r.1) as [k|] eqn:Ek.
    + apply charge_key_some in Ek. unfold charge_keys in Ek. clear E1 E2.
      repeat (apply elem_of_cons in Ek as [[= -> E3]|Ek];
        [split; try (know_field E3; solve [reflexivity|assumption]); intros v; know_field E3; apply K2|]). by apply elem_of_nil in Ek.
    + assert (forall p, p ∈ charge_keys -> r.1 <> p.2) as Hne by (intros p; by apply charge_key_none).
      pose proof (Hne (Full, CHARGE_FULL) ltac:(unfold charge_keys; set_solver)).
      pose proof (Hne (Empty, CHARGE_EMPTY) ltac:(unfold charge_keys; set_solver)).
      pose proof (Hne (Now, CHARGE_NOW) ltac:(unfold charge_keys; set_solver)). cbn in *.
      split; try intros v; rewrite ?number_new, ?get_new, ?bool_decide_eq_false_2 by assumption; auto.
Qed.

Lemma notes_knows l' : forall bat l, knows bat l -> NoDup (l ++ l').*1 ->
  let '(bat', done) := notes l' bat in
  (if done then exists v, status bat' = Some v /\ level (l ++ l') = Some (v, capacity bat') else knows bat' (l ++ l')) /\ same_dirs bat' bat.
Proof.
  induction l' as [|r l' IH]; intros bat l K Hn; cbn [notes].
  { rewrite app_nil_r. repeat split; try reflexivity; apply K. }
  assert (r.1 ∉ l.*1) as Hr.
  { rewrite fmap_app in Hn. apply NoDup_app in Hn as (_ & Hn & _). intros H. apply (Hn _ H). cbn. left. }
  pose proof (note_knows bat l r l' K Hr) as H. pose proof (note_same bat r) as Hs.
  destruct (note bat r) as [b []]; [by split|]. specialize (IH b (l ++ [r]) H). rewrite <- app_assoc in IH. specialize (IH Hn).
  destruct (notes l' b) as [b' d]. destruct IH as (IH & H1 & H2 & H3). split; [exact IH|]. destruct Hs as (S1 & S2 & S3). cbn [fst] in *.
  repeat split; congruence.
Qed.

(** ** Lemmas: the capacity from the charge *)

Lemma get_clean l k v : Forall (fun r => clean r = true) l -> get k l = Some v -> k ∈ keys -> k <> BATTERY_STATUS ->
  0 <= atoi v /\ atoi v * 100 < 2 ^ 31.
Proof.
  induction 1 as [|r l Hr Hl IH]; cbn [get]; [discriminate|]. case_bool_decide as E; [|exact IH]. intros [= <-] Hk Hne.
  unfold clean in Hr. rewrite E, (bool_decide_eq_true_2 _ Hk), (bool_decide_eq_false_2 _ Hne) in Hr. lia.
Qed.

Lemma number_range l k d : Forall (fun r => clean r = true) l -> k ∈ keys -> k <> BATTERY_STATUS -> -1 <= d <= 0 ->
  -1 <= number k l d /\ number k l d * 100 < 2 ^ 31.
Proof.
  intros Hl Hk Hne Hd. unfold number. destruct (get k l) as [v|] eqn:E; [|lia]. pose proof (get_clean l k v Hl E Hk Hne). lia.
Qed.

Lemma int_ok z : - 2 ^ 31 <= z < 2 ^ 31 -> int z = Ok z.
Proof. intros H. unfold int. by rewrite (proj2 (Z.leb_le _ _)), (proj2 (Z.ltb_lt _ _)) by lia. Qed.

Lemma calculate_spec bat l : knows bat l -> Forall (fun r => clean r = true) l ->
  match level l with
  | Some (v, p) => exists b', calculate bat = Ok (Some b') /\ same_dirs b' bat /\ capacity b' = p /\ 0 <= p /\
      status b' = get BATTERY_STATUS l /\ v = default (str "Unknown") (get BATTERY_STATUS l)
  | None => exists c, calculate bat = Ok c /\ match c with None => knows bat l | Some b' => knows b' l /\ capacity b' < 0 /\ same_dirs b' bat end
  end.
Proof.
  intros [K1 K2 K3 K4 K5 K6] Hl.
  assert (begins (str "Full") (default (str "Unknown") (get BATTERY_STATUS l)) = false) as Hf.
  { destruct (get BATTERY_STATUS l) as [v|]; [by apply K2|reflexivity]. }
  unfold level, calculate. rewrite Hf. destruct (get BATTERY_CAPACITY l) as [v|] eqn:Ec.
  { assert (0 <= atoi v /\ atoi v * 100 < 2 ^ 31) as Hv by (apply (get_clean l BATTERY_CAPACITY); [done|done|unfold keys; set_solver|discriminate]).
    rewrite K3, (proj2 (Z.ltb_ge _ 0)) by lia. exists bat. repeat split; auto; lia. }
  assert (-1 <= number CHARGE_FULL l (-1) /\ number CHARGE_FULL l (-1) * 100 < 2 ^ 31) as H1 by (apply number_range; [done|unfold keys; set_solver|discriminate|lia]).
  assert (-1 <= number CHARGE_EMPTY l 0 /\ number CHARGE_EMPTY l 0 * 100 < 2 ^ 31) as H2 by (apply number_range; [done|unfold keys; set_solver|discriminate|lia]).
  assert (-1 <= number CHARGE_NOW l (-1) /\ number CHARGE_NOW l (-1) * 100 < 2 ^ 31) as H3 by (apply number_range; [done|unfold keys; set_solver|discriminate|lia]).
  rewrite (proj2 (Z.ltb_lt (capacity bat) 0)) by lia. rewrite K4, K5, K6. cbn zeta.
  set (full := number CHARGE_FULL l (-1)) in *. set (empty := number CHARGE_EMPTY l 0) in *. set (now := number CHARGE_NOW l (-1)) in *.
  destruct ((full <=? 0) || (now <=? 0) || (full =? empty)).
  { exists None. split; [reflexivity|]. split; auto. by rewrite Ec. }
  rewrite !int_ok by lia. cbn [obind]. destruct (Z.ltb_spec (Z.quot (now * 100) (full - empty)) 0) as [Hn|Hn].
  - eexists. split; [reflexivity|]. split; [|split; [exact Hn|repeat split; reflexivity]]. split; auto. by rewrite Ec.
  - eexists. split; [reflexivity|]. repeat split; auto.
Qed.

(** ** Lemmas: all directories *)

Definition uevent_file (path : list Z) : list Z := snprintf PATH_MAX (path ++ str "/uevent").

(** What the loop does with the rest of the directories. *)
Definition status_ends (d tl : list slot) (kvss : list (list reading)) (l : list reading)
  (r : outcome (battery * Z * list bool)) : Prop :=
  match first_level l kvss with
  | Some (v, p) => exists b', r = Ok (b', 0, []) /\ dirs b' = Some d /\ status b' = Some v /\ capacity b' = p
  | None => match tl with
            | [] => r = Undef
            | Null :: _ => exists b', r = Ok (b', -1, []) /\ dirs b' = Some d
            | _ => True
            end
  end.

(** The battery goes on with the [n]-th directory. *)
Lemma status_loop_spec files d tl ds : forall kvss l bat fuel n, dirs bat = Some d ->
  d = n ++ map Dir ds ++ tl -> wd_index bat = zlen n -> zlen d < 2 ^ 31 -> (length ds < fuel)%nat ->
  Forall2 (fun p kvs => files (uevent_file p) = Some (content_of kvs)) ds kvss ->
  knows bat l -> Forall (fun r => clean r = true) (l ++ concat kvss) -> NoDup (l ++ concat kvss).*1 ->
  status_ends d tl kvss l (status_loop files fuel [] d bat).
Proof.
  induction ds as [|p ds IH]; intros kvss l bat [|f] n Hd E Hw Hlen Hf Hfiles K Hc Hn; cbn [length] in Hf; try lia.
  - inversion Hfiles; subst kvss. unfold status_ends. cbn [first_level status_loop]. cbn [map app] in E. unfold dir_at.
    rewrite Hw, (proj2 (Z.ltb_ge _ 0)) by apply zlen_nonneg. unfold zlen. rewrite Nat2Z.id.
    assert (d !! length n = tl !! 0%nat) as -> by (rewrite E, lookup_app_r by lia; by rewrite Nat.sub_diag).
    destruct tl as [|[|?|] tl]; cbn; eauto.
  - inversion Hfiles as [|? kvs ? kvss' Hfile Hfiles']; subst. cbn [map app] in *. cbn [status_loop concat] in *. unfold dir_at.
    rewrite Hw, (proj2 (Z.ltb_ge _ 0)) by apply zlen_nonneg. unfold zlen at 1. rewrite Nat2Z.id.
    rewrite lookup_app_r by lia. rewrite Nat.sub_diag. cbn [lookup list_lookup obind]. unfold uevent_file in Hfile. rewrite Hfile.
    rewrite app_assoc in Hc, Hn. apply Forall_app in Hc as Hc'. destruct Hc' as [Hc' _]. apply Forall_app in Hc' as [Hcl Hck].
    rewrite lines_loop_notes by (auto || lia). cbn [obind].
    assert (NoDup (l ++ kvs).*1) as Hn' by (rewrite fmap_app in Hn; by apply NoDup_app in Hn as (Hn & _)).
    pose proof (notes_knows kvs bat l K Hn') as H. destruct (notes kvs bat) as [b' done]. destruct H as (H & S1 & S2 & S3).
    assert (forall c, same_dirs c b' -> dirs c = Some (n ++ Dir p :: map Dir ds ++ tl) /\ wd_index c = zlen n) as Hsame.
    { intros c (C1 & C2 & _). split; congruence. }
    destruct done.
    { destruct H as (v & Hv & Hl). unfold status_ends. cbn [first_level]. rewrite Hl. exists b'. split; [reflexivity|]. split; [by apply Hsame|]. auto. }
    assert (forall c, same_dirs c b' -> knows c (l ++ kvs) -> level (l ++ kvs) = None -> 
      status_ends (n ++ Dir p :: map Dir ds ++ tl) tl kvss' (l ++ kvs)
        (status_loop files f [] (n ++ Dir p :: map Dir ds ++ tl) (set_wd_index c (s32 (wd_index c + 1))))) as Hnext.
    { intros c Hsc Kc _. apply Hsame in Hsc as [Hdc Hwc]. rewrite Hwc.
      assert (s32 (zlen n + 1) = zlen (n ++ [Dir p])) as En.
      { rewrite zlen_app. change (zlen [Dir p]) with 1. apply s32_id. unfold zlen in *. rewrite length_app in Hlen. cbn [length] in Hlen. lia. }
      apply (IH kvss' (l ++ kvs) _ f (n ++ [Dir p])); auto; [by rewrite <- app_assoc|lia|].
      destruct Kc; split; assumption. }
    pose proof (calculate_spec b' (l ++ kvs) H ltac:(by apply Forall_app)) as Hcalc.
    destruct (level (l ++ kvs)) as [[v c]|] eqn:El.
    + destruct Hcalc as (c' & -> & Hsc & <- & Hc0 & Hst & ->). cbn [obind]. rewrite (proj2 (Z.ltb_ge _ 0) Hc0).
      apply Hsame in Hsc as [Hdc _]. rewrite Hst. unfold status_ends. cbn [first_level]. rewrite El. destruct (get BATTERY_STATUS (l ++ kvs)) as [v|]; cbn [malloc hd List.tl default from_option id];
        eexists; (split; [reflexivity|]); auto.
    + destruct Hcalc as (c & -> & Hcalc). cbn [obind]. unfold status_ends in *. cbn [first_level]. rewrite El. destruct c as [c|].
      * destruct Hcalc as (Kc & Hneg & Hsc). rewrite (proj2 (Z.ltb_lt _ 0) Hneg). apply (Hnext c); auto.
      * apply (Hnext b'); auto. repeat split.
Qed.

(** ** Lemmas: finding the directories *)

Definition battery_dir (d_name : list Z) : list Z := POWER_SUPPLY_DIR ++ str "/" ++ d_name.

(** An entry for a battery. *)
Definition is_battery_entry (e : dirent) : bool :=
  negb (bytes_eqb e.1 (str ".") || bytes_eqb e.1 (str "..")) &&
  match e.2 with Some (c :: type) => is_battery (c :: type) | _ => false end.

Definition found (l : list dirent) : list (list Z) := map (fun e => battery_dir e.1) (List.filter is_battery_entry l).

Lemma battery_path name : zlen name <= 255 -> let path := type_path name in take (length path - 5) path = battery_dir name.
Proof.
  intros H. assert (type_path name = battery_dir name ++ str "/type") as E.
  { unfold type_path, snprintf, battery_dir. rewrite take_ge; [by rewrite <- !app_assoc|]. unfold zlen in H. rewrite !length_app.
    change (length POWER_SUPPLY_DIR) with 23%nat. change (length (str "/")) with 1%nat. change (length (str "/type")) with 5%nat.
    change (Z.to_nat (PATH_MAX - 1)) with 4095%nat. lia. }
  cbn zeta. rewrite E, length_app. change (length (str "/type")) with 5%nat. rewrite Nat.add_sub. apply take_app_length.
Qed.

Lemma next_empty_spec ps : forall d pre fuel i m, d = pre ++ map Dir ps ++ replicate (S m) Null -> i = zlen pre -> (length ps < fuel)%nat ->
  next_empty fuel d i = Ok (i + zlen ps).
Proof.
  induction ps as [|p ps IH]; intros d pre [|f] i m E -> Hf; cbn [length] in Hf; try lia; cbn [next_empty]; unfold dir_at;
    rewrite (proj2 (Z.ltb_ge _ 0)) by apply zlen_nonneg; unfold zlen at 1; rewrite Nat2Z.id.
  - rewrite E, lookup_app_r, Nat.sub_diag by lia. change (zlen []) with 0. by rewrite Z.add_0_r.
  - assert (d !! length pre = Some (Dir p)) as -> by (rewrite E, lookup_app_r, Nat.sub_diag by lia; reflexivity).
    cbn [obind is_null]. rewrite (IH d (pre ++ [Dir p]) f (zlen pre + 1) m).
    + f_equal. unfold zlen. cbn [length]. lia.
    + rewrite E, <- app_assoc. reflexivity.
    + rewrite zlen_app. reflexivity.
    + lia.
Qed.

(** The array as the program grows it: the batteries, then [NULL]. *)
Record dirs_ok (bat : battery) (ps : list (list Z)) (m : nat) : Prop := {
  do_dirs : dirs bat = Some (map Dir ps ++ replicate m Null);
  do_nr : nr_dirs bat = Z.of_nat (length ps + m);
  do_power : exists k, nr_dirs bat = 2 ^ Z.of_nat k
}.

(** It is not longer than it needs to be. *)
Definition short (nr n : Z) : Prop := nr = 1 \/ nr <= 2 * n.

Definition no_garbage : nat -> bool := fun _ => false.

Lemma word_zero l : map (word no_garbage) l = replicate (length l) Null.
Proof. induction l as [|x l IH]; [reflexivity|]. cbn. by rewrite IH. Qed.

(** Nothing but the directories. *)
Lemma set_dirs_again b d n d' n' : set_dirs (set_dirs b d n) d' n' = set_dirs b d' n'.
Proof. reflexivity. Qed.

Lemma extend_spec bat ps m : dirs_ok bat ps m -> short (nr_dirs bat) (zlen ps - 1) -> zlen ps < 2 ^ 29 ->
  exists b' m', extend no_garbage bat (default [] (dirs bat)) [] = Ok (Some b', []) /\ dirs_ok b' ps (S m') /\
    short (nr_dirs b') (zlen ps) /\ b' = set_dirs bat (dirs b') (nr_dirs b').
Proof.
  intros [D1 D2 (k & D3)] D4 Hps. unfold short in *. unfold extend. rewrite D1. cbn [default from_option id]. unfold dir_at, zlen in *.
  rewrite (proj2 (Z.ltb_ge _ 0)) by lia. destruct m as [|m].
  - cbn [replicate]. rewrite app_nil_r. rewrite Nat.add_0_r in D2. destruct ps as [|p ps] using rev_ind; [cbn in *; lia|]. clear IHps.
    rewrite map_app, length_app in *. cbn [map length] in *. rewrite D2, lookup_app_r by (rewrite length_map; lia).
    replace (Z.to_nat (Z.of_nat (length ps + 1) - 1) - length (map Dir ps))%nat with 0%nat by (rewrite length_map; lia).
    cbn [lookup list_lookup obind is_null malloc hd tl]. rewrite word_zero, length_seq, s32_id by lia.
    eexists _, (length ps). split; [reflexivity|]. split; [split|split; [|reflexivity]]; cbn [set_dirs dirs nr_dirs].
    + rewrite map_app, length_map. replace (length ps + 1)%nat with (S (length ps)) by lia. reflexivity.
    + rewrite length_app. cbn [length]. lia.
    + exists (S k). rewrite Nat2Z.inj_succ, Z.pow_succ_r by lia. lia.
    + rewrite length_app. cbn [length]. lia.
  - rewrite D2, lookup_app_r by (rewrite length_map; lia). rewrite lookup_replicate_2 by (rewrite length_map; lia).
    cbn [obind is_null]. exists bat, m. split; [reflexivity|]. split; [split; eauto|]. split; [lia|by destruct bat].
Qed.

(** The search goes on behind the last name. *)
Lemma next_empty_from ps m i : 0 <= i <= zlen ps -> let d := map Dir ps ++ replicate (S m) Null in
  next_empty (S (length d)) d i = Ok (zlen ps).
Proof.
  intros Hi d. pose proof (take_drop (Z.to_nat i) ps) as E. unfold zlen in *.
  rewrite (next_empty_spec (drop (Z.to_nat i) ps) d (map Dir (take (Z.to_nat i) ps)) _ i m).
  - unfold zlen. rewrite length_drop. f_equal. lia.
  - subst d. rewrite app_assoc, <- map_app, E. reflexivity.
  - unfold zlen. rewrite length_map, length_take. lia.
  - subst d. rewrite length_app, length_map, length_drop. lia.
Qed.

Lemma traverse_spec l : forall bat ps m i, dirs_ok bat ps m -> short (nr_dirs bat) (zlen ps - 1) -> 0 <= i <= zlen ps ->
  Forall (fun e => zlen e.1 <= 255) l -> zlen ps + zlen l < 2 ^ 29 ->
  exists m' b', traverse no_garbage l i bat [] = Ok (b', []) /\ b' = set_dirs bat (dirs b') (nr_dirs b') /\
    dirs_ok b' (ps ++ found l) m' /\ short (nr_dirs b') (zlen (ps ++ found l) - 1).
Proof.
  induction l as [|[name type] l IH]; intros bat ps m i D Hs Hi Hl Hlen; cbn [traverse].
  { exists m, bat. unfold found. cbn [List.filter map]. rewrite app_nil_r. by destruct bat. }
  apply Forall_cons in Hl as [Hname Hl]. cbn [fst] in Hname. rewrite (zlen_cons (name, type) l) in Hlen.
  rewrite (do_dirs _ _ _ D).
  destruct (is_battery_entry (name, type)) eqn:Eb.
  2: { assert (found ((name, type) :: l) = found l) as -> by (unfold found; cbn [List.filter]; by rewrite Eb).
       unfold is_battery_entry in Eb. cbn [fst snd] in Eb. specialize (IH bat ps m i D Hs Hi Hl ltac:(lia)).
       destruct (bytes_eqb name (str ".") || bytes_eqb name (str "..")); [exact IH|]. destruct type as [[|c type]|]; try exact IH.
       cbn [negb andb] in Eb. rewrite Eb. exact IH. }
  assert (found ((name, type) :: l) = battery_dir name :: found l) as -> by (unfold found; cbn [List.filter map]; by rewrite Eb).
  unfold is_battery_entry in Eb. cbn [fst snd] in Eb. apply andb_true_iff in Eb as (E1 & E2). apply negb_true_iff in E1. rewrite E1.
  destruct type as [[|c type]|]; try discriminate. rewrite E2. cbn [negb].
  destruct (extend_spec bat ps m D Hs) as (b1 & m1 & Ee & D1 & Hs1 & Eb1); [pose proof (zlen_nonneg l); lia|].
  rewrite (do_dirs _ _ _ D) in Ee. cbn [default from_option id] in Ee. rewrite Ee. cbn [obind].
  rewrite (do_dirs _ _ _ D1). cbn [default from_option id]. rewrite (next_empty_from ps m1 i Hi). cbn [obind malloc hd tl].
  pose proof (battery_path name Hname) as Ep. cbn zeta in Ep. rewrite Ep.
  set (b2 := set_dirs b1 _ _). assert (dirs_ok b2 (ps ++ [battery_dir name]) m1) as D2.
  { destruct D1 as [F1 F2 F3]. split; cbn.
    - f_equal. replace (Z.to_nat (zlen ps)) with (length (map Dir ps) + 0)%nat by (rewrite length_map; unfold zlen; lia).
      rewrite insert_app_r, map_app, <- app_assoc. reflexivity.
    - rewrite F2, length_app. cbn [length]. lia.
    - exact F3. }
  destruct (IH b2 (ps ++ [battery_dir name]) m1 (zlen ps) D2) as (m' & b' & E & Eb' & D' & Hs'); auto.
  - cbn. rewrite zlen_app. change (zlen [battery_dir name]) with 1. rewrite Z.add_simpl_r. exact Hs1.
  - rewrite zlen_app. change (zlen [battery_dir name]) with 1. pose proof (zlen_nonneg ps). lia.
  - rewrite zlen_app. change (zlen [battery_dir name]) with 1. lia.
  - exists m', b'. rewrite E. rewrite <- app_assoc in *. split; [reflexivity|]. split; [|auto]. rewrite Eb' at 1. subst b2. rewrite Eb1. reflexivity.
Qed.

Lemma print_loop_ok ps m n : print_loop (take n (map Dir ps ++ replicate m Null)) = Ok tt.
Proof. revert n. induction ps as [|p ps IH]; intros [|n]; cbn; auto. by destruct m. Qed.

(** All is found, when the memory that [malloc] gives is clear. *)
Lemma battery_init_spec l : Forall (fun e : dirent => zlen e.1 <= 255) l -> zlen l < 2 ^ 29 -> exists b m,
  battery_init no_garbage 0 (Some l) [] = Ok (Some b, []) /\ dirs_ok b (found l) m /\ short (nr_dirs b) (zlen (found l) - 1) /\
  b = mk_bat (dirs b) 0 (nr_dirs b) (-1) 0 (-1) 0 (-1) None (-1).
Proof.
  intros Hl Hlen. unfold battery_init. cbn [malloc hd tl negb]. unfold battery_init_dirs. cbn [dirs].
  destruct (traverse_spec l (mk_bat (Some [word no_garbage 0]) 0 1 (-1) 0 (-1) 0 (-1) None (-1)) [] 1 0) as (m & b & E & Eb & D & Hs); auto.
  - split; [reflexivity|reflexivity|by exists 0%nat].
  - by left.
  - change (zlen []) with 0. lia.
  - rewrite E. cbn [obind]. rewrite (do_dirs _ _ _ D), print_loop_ok. cbn [obind app] in *. exists b, m. auto.
Qed.

Lemma free_loop_spec ps m : forall pre fuel, (length ps < fuel)%nat ->
  free_loop fuel (pre ++ map Dir ps ++ replicate m Null) (zlen pre + zlen ps + Z.of_nat m) (zlen pre) = (if (m =? 0)%nat then Undef else Ok tt).
Proof.
  induction ps as [|p ps IH]; intros pre [|f] Hf; cbn [length] in Hf; try lia; cbn [free_loop]; unfold dir_at;
    rewrite (proj2 (Z.ltb_ge _ 0)) by apply zlen_nonneg; unfold zlen at 1; rewrite Nat2Z.id, lookup_app_r, Nat.sub_diag by lia.
  - destruct m; reflexivity.
  - cbn [map app lookup list_lookup obind]. rewrite (proj2 (Z.ltb_lt (zlen pre) _)) by (rewrite zlen_cons; pose proof (zlen_nonneg ps); lia).
    specialize (IH (pre ++ [Dir p]) f ltac:(lia)). rewrite zlen_app, <- app_assoc in IH. cbn [app] in IH. change (zlen [Dir p]) with 1 in IH.
    rewrite <- IH. f_equal. rewrite zlen_cons. lia.
Qed.

Lemma status_after_init b l m files kvss : dirs_ok b (found l) m -> b = mk_bat (dirs b) 0 (nr_dirs b) (-1) 0 (-1) 0 (-1) None (-1) ->
  short (nr_dirs b) (zlen (found l) - 1) -> zlen l < 2 ^ 29 ->
  Forall2 (fun p kvs => files (uevent_file p) = Some (content_of kvs)) (found l) kvss ->
  Forall (fun r => clean r = true) (concat kvss) -> NoDup (concat kvss).*1 ->
  exists r, status_ends (map Dir (found l) ++ replicate m Null) (replicate m Null) kvss [] r /\
    battery_status files (Some b) [] = (let! (b, r, mem) := r in Ok (Some b, r, mem)).
Proof.
  intros D Eb Hs Hl Hfiles Hc Hn. unfold battery_status. rewrite (do_dirs _ _ _ D). eexists. split; [|reflexivity].
  apply (status_loop_spec files _ _ (found l) kvss [] b _ []); auto.
  - apply (do_dirs _ _ _ D).
  - rewrite Eb. reflexivity.
  - assert (zlen (found l) <= zlen l) as Hle by (apply Nat2Z.inj_le; unfold found; rewrite length_map; apply List.filter_length_le).
    pose proof (do_nr _ _ _ D) as E. unfold short in Hs. unfold zlen in *. rewrite length_app, length_map, length_replicate. lia.
  - rewrite length_app, length_map. lia.
  - rewrite Eb. split; try reflexivity. discriminate.
Qed.

(** ** Properties *)

(** C30: With cleared memory, which the code does not clear, and no allocation that fails, the directories of all batteries are
    found, in an array that is a power of two. Let each of them have a file of clean lines (short ones, with
    numbers that do not overflow when taken a hundred times, and with a key of the program in no other line or
    value), and no key in two lines of them all. Then the status and the capacity are those of the first directories that
    tell them together, whatever the order of the lines: a full battery has 100 percent, a capacity that is told is taken, and
    one that is not is computed from the charge; if none tells and the array has room, the call fails. *)
Theorem battery_correct l kvss files : Forall (fun e : dirent => zlen e.1 <= 255) l -> zlen l < 2 ^ 29 ->
  Forall2 (fun p kvs => files (uevent_file p) = Some (content_of kvs)) (found l) kvss ->
  Forall (fun r => clean r = true) (concat kvss) -> NoDup (concat kvss).*1 ->
  exists b k m, battery_init no_garbage 0 (Some l) [] = Ok (Some b, []) /\
    dirs b = Some (map Dir (found l) ++ replicate m Null) /\ nr_dirs b = 2 ^ Z.of_nat k /\ nr_dirs b = zlen (found l) + Z.of_nat m /\
    match first_level [] kvss with
    | Some (v, p) => exists b', battery_status files (Some b) [] = Ok (Some b', 0, []) /\ status b' = Some v /\ capacity b' = p
    | None => m <> 0%nat -> exists b', battery_status files (Some b) [] = Ok (Some b', -1, []) /\ dirs b' = dirs b
    end.
Proof.
  intros Hl Hlen Hfiles Hc Hn. destruct (battery_init_spec l Hl Hlen) as (b & m & Ei & D & Hs & Eb).
  destruct (status_after_init b l m files kvss D Eb Hs Hlen Hfiles Hc Hn) as (r & H & E).
  destruct (do_power _ _ _ D) as (k & Hk). exists b, k, m. split; [exact Ei|]. split; [apply D|]. split; [exact Hk|].
  split; [rewrite (do_nr _ _ _ D), Nat2Z.inj_add; reflexivity|]. rewrite E. unfold status_ends in H.
  destruct (first_level [] kvss) as [[v p]|].
  - destruct H as (b' & -> & _ & H1 & H2). exists b'. auto.
  - intros Hm. destruct m as [|m]; [done|]. cbn [replicate] in H. destruct H as (b' & -> & H). exists b'. split; [reflexivity|].
    rewrite H, (do_dirs _ _ _ D). reflexivity.
Qed.

(** Two directories with parts of what is needed, and a charger between them. *)
Definition supplies : list dirent :=
  [(str ".", None); (str "bat0", Some (str "Battery" ++ [10])); (str "usb", Some (str "USB" ++ [10])); (str "bat1", Some (str "Battery" ++ [10]))].

Definition supply_files : list (list reading) :=
  [[(str "POWER_SUPPLY_NAME", str "bat0"); (BATTERY_STATUS, str "Charging"); (CHARGE_FULL_DESIGN, str "3000000"); (CHARGE_FULL, str "2900000")];
   [(str "POWER_SUPPLY_TECHNOLOGY", str "Li-ion"); (CHARGE_NOW, str "1450000")]].

Definition supply_content (p : list Z) : option (list Z) :=
  if bytes_eqb p (uevent_file (battery_dir (str "bat0"))) then Some (content_of (nth 0 supply_files []))
  else if bytes_eqb p (uevent_file (battery_dir (str "bat1"))) then Some (content_of (nth 1 supply_files [])) else None.

Lemma battery_correct_witness : exists b k m, battery_init no_garbage 0 (Some supplies) [] = Ok (Some b, []) /\
  dirs b = Some (map Dir (found supplies) ++ replicate m Null) /\ nr_dirs b = 2 ^ Z.of_nat k /\ nr_dirs b = zlen (found supplies) + Z.of_nat m /\
  exists b', battery_status supply_content (Some b) [] = Ok (Some b', 0, []) /\ status b' = Some (str "Charging") /\ capacity b' = 50.
Proof.
  pose proof (battery_correct supplies supply_files supply_content) as H.
  assert (first_level [] supply_files = Some (str "Charging", 50)) as E by (vm_compute; reflexivity). rewrite E in H. apply H.
  - repeat constructor; vm_compute; discriminate.
  - vm_compute. reflexivity.
  - repeat constructor; vm_compute; reflexivity.
  - repeat constructor; vm_compute; reflexivity.
  - apply (bool_decide_eq_true_1 _). vm_compute. reflexivity.
Defined.

(** A battery is freed as a whole when its array has room. *)
Theorem battery_free_correct l : Forall (fun e : dirent => zlen e.1 <= 255) l -> zlen l < 2 ^ 29 -> exists b m,
  battery_init no_garbage 0 (Some l) [] = Ok (Some b, []) /\ dirs b = Some (map Dir (found l) ++ replicate m Null) /\
  battery_free (Some b) = (if (m =? 0)%nat then Undef else Ok tt).
Proof.
  intros Hl Hlen. destruct (battery_init_spec l Hl Hlen) as (b & m & Ei & D & _ & _). exists b, m. split; [exact Ei|]. split; [apply D|].
  unfold battery_free. rewrite (do_dirs _ _ _ D), (do_nr _ _ _ D). pose proof (free_loop_spec (found l) m [] (S (length (map Dir (found l) ++ replicate m Null)))) as H.
  cbn [app] in H. rewrite <- H; [|rewrite length_app, length_map; lia]. do 2 f_equal; unfold zlen; cbn [length]; lia.
Qed.

(** ** Flaws *)

(** One battery: the array is full, and freeing it reads behind it. *)
Theorem battery_free_reads_past :
  (let! (b, _) := battery_init no_garbage 0 (Some [(str "bat0", Some (str "Battery"))]) [] in battery_free b) = Undef.
Proof. vm_compute. reflexivity. Qed.

(** One battery that does not tell its capacity: the next directory is read behind
    the array. *)
Theorem battery_status_reads_past :
  (let! (b, mem) := battery_init no_garbage 0 (Some [(str "bat0", Some (str "Battery"))]) [] in
   battery_status (fun _ => Some (content_of [(BATTERY_STATUS, str "Charging")])) b mem) = Undef.
Proof. vm_compute. reflexivity. Qed.

(** The array is not cleared: what was in its memory is taken for a name. *)
Theorem battery_dirs_not_cleared : battery_init (fun _ => true) 0 (Some []) [] = Undef.
Proof. reflexivity. Qed.

(** A battery with the given status and capacity, and one directory. *)
Definition with_status (s : option (list Z)) (c : Z) : battery :=
  mk_bat (Some [Dir (battery_dir (str "bat0")); Null]) 0 2 (-1) 0 (-1) 0 (-1) s c.

(** What a caller sees. *)
Definition status_of (r : outcome (option battery * Z * list bool)) : outcome (Z * option (list Z) * Z) :=
  let! (b, r, _) := r in match b with Some b => Ok (r, status b, capacity b) | None => Undef end.

(** The level of the capacity, a word, is read as a capacity of 0. *)
Theorem capacity_level_taken :
  status_of (battery_status (fun _ => Some (content_of [(str "POWER_SUPPLY_CAPACITY_LEVEL", str "Normal"); (BATTERY_STATUS, str "Charging"); (CHARGE_FULL, str "100"); (CHARGE_NOW, str "50")]))
    (Some (with_status None (-1))) []) = Ok (0, Some (str "Charging"), 0).
Proof. vm_compute. reflexivity. Qed.

(** A capacity that was computed once, or set for a full battery, stays in all later
    calls. *)
Theorem capacity_stale :
  status_of (battery_status (fun _ => Some (content_of [(BATTERY_STATUS, str "Discharging"); (CHARGE_FULL, str "100"); (CHARGE_NOW, str "5")]))
    (Some (with_status (Some (str "Full")) 100)) []) = Ok (0, Some (str "Discharging"), 100).
Proof. vm_compute. reflexivity. Qed.

(** When the capacity comes before the status, later calls keep the old status. *)
Theorem status_stale :
  status_of (battery_status (fun _ => Some (content_of [(BATTERY_CAPACITY, str "40"); (BATTERY_STATUS, str "Discharging")]))
    (Some (with_status (Some (str "Charging")) 41)) []) = Ok (0, Some (str "Charging"), 40).
Proof. vm_compute. reflexivity. Qed.

(** A line with a key but without [=]: [key_value] returns no value. *)
Theorem key_without_value : key_value [] (BATTERY_STATUS ++ [10]) BATTERY_STATUS = Undef.
Proof. reflexivity. Qed.

(** A charge of more than 21 Ah, in microampere-hours, overflows. *)
Theorem charge_overflow : battery_status (fun _ => Some (content_of [(CHARGE_FULL, str "30000000"); (CHARGE_NOW, str "22000000")]))
    (Some (with_status None (-1))) [] = Undef.
Proof. vm_compute. reflexivity. Qed.


End Battery.
