(* ===== verification/LoadFile.v ===== *)
(** * src/libcutils/load_file.c

    A file read whole into memory, with a zero behind it; the library's readers of
    configurations start from it. *)

From S2P Require Import Prelude Posix ConfigUtils.

Module LoadFile.
Import ConfigUtils.

(** The result of [open], and whether there is memory; the data with its
    terminator, and the size. *)
Definition load_file (fd : option Posix.file) (memory : bool) : option (list Z * Z) :=
  match fd with
  | None => None
  | Some f =>
      let '(f, sz) := Posix.lseek64 f 0 Posix.SEEK_END in
      let sz := s32 sz in
      if sz <? 0 then None
      else
        let '(f, r) := Posix.lseek64 f 0 Posix.SEEK_SET in
        if negb (r =? 0) then None
        else if negb memory then None
        else
          let '(f, n, bs) := Posix.read f sz in
          if negb (n =? sz) then None else Some (bs ++ [0], sz)
  end.

(** A string as the parser of configurations takes it. *)
Fixpoint text_of (l : list Z) : text :=
  match l with
  | [] => []
  | c :: l' => if c =? 0 then [] else Ascii.ascii_of_nat (Z.to_nat c) :: text_of l'
  end.

(** One read decides. *)
Lemma load_file_read f memory : Posix.f_size f < 2 ^ 31 -> load_file (Some f) memory =
  if memory && (Posix.f_size f <=? Posix.f_rlimit f 0) then Some (Posix.f_data f ++ [0], Posix.f_size f) else None.
Proof.
  intros Hs. unfold load_file, Posix.lseek64. rewrite Z.add_0_r.
  assert (0 <= Posix.f_size f) as H0 by apply zlen_nonneg. rewrite (proj2 (Z.ltb_ge (Posix.f_size f) 0)) by lia.
  rewrite s32_id by lia. rewrite (proj2 (Z.ltb_ge (Posix.f_size f) 0)) by lia. cbn [Z.ltb Z.compare Z.eqb negb Posix.set_pos].
  destruct memory; cbn [negb andb]; [|reflexivity]. unfold Posix.read. cbn [Posix.f_rlimit Posix.f_pos Posix.f_data].
  set (g := Posix.set_pos _ 0). change (Posix.f_rlimit g) with (Posix.f_rlimit f). change (Posix.f_pos g) with 0.
  change (Posix.f_size g) with (Posix.f_size f). change (Posix.f_data g) with (Posix.f_data f).
  destruct (Z.ltb_spec (Posix.f_rlimit f 0) 0) as [El|El].
  - rewrite (proj2 (Z.eqb_neq _ (Posix.f_size f))), (proj2 (Z.leb_gt _ _)) by lia. reflexivity.
  - destruct (Z.leb_spec (Posix.f_size f) (Posix.f_rlimit f 0)) as [Hr|Hr].
    + replace (Z.max 0 (Z.min (Posix.f_size f) (Z.min (Posix.f_rlimit f 0) (Posix.f_size f - 0)))) with (Posix.f_size f) by lia.
      rewrite Z.eqb_refl. cbn [negb]. rewrite sub_bytes_all by (unfold Posix.f_size; lia). reflexivity.
    + rewrite (proj2 (Z.eqb_neq _ (Posix.f_size f))) by lia. reflexivity.
Qed.

(** What is loaded is the whole file, never a part of it, and a file that can be
    read at once is loaded. *)
Theorem load_file_whole f memory data sz : Posix.f_size f < 2 ^ 31 ->
  load_file (Some f) memory = Some (data, sz) <->
  memory = true /\ Posix.f_size f <= Posix.f_rlimit f 0 /\ data = Posix.f_data f ++ [0] /\ sz = Posix.f_size f.
Proof.
  intros Hs. rewrite load_file_read by done. destruct memory; cbn [andb]; [|split; [discriminate|intros (? & _); discriminate]].
  destruct (Z.leb_spec (Posix.f_size f) (Posix.f_rlimit f 0)); split; try discriminate; [intros [= <- <-]; auto|intros (_ & _ & -> & ->); reflexivity|lia].
Qed.

(** The text ends at the terminator. *)
Lemma text_of_end l : text_of (l ++ [0]) = text_of l.
Proof. induction l as [|c l IH]; [reflexivity|]. cbn [app text_of]. destruct (c =? 0); [reflexivity|]. by rewrite IH. Qed.

(** The configuration that is loaded is that of the file's text. *)
Theorem config_load_file_text (open : text -> option Posix.file) root fn f : open fn = Some f ->
  Posix.f_size f < 2 ^ 31 -> Posix.f_size f <= Posix.f_rlimit f 0 ->
  ConfigUtils.config_load_file (fun fn => (fun r => text_of r.1) <$> load_file (open fn) true) root fn =
  ConfigUtils.config_load root (Some (text_of (Posix.f_data f))).
Proof.
  intros E H1 H2. unfold ConfigUtils.config_load_file. rewrite E, load_file_read, (proj2 (Z.leb_le _ _)) by done.
  cbn [andb fmap option_fmap option_map fst]. by rewrite text_of_end.
Qed.

End LoadFile.
