(* ===== verification/PreosReboot.v ===== *)
(** * src/libcutils/preos_reboot.c

    Before the machine is rebooted the file systems are remounted read-only, and
    the kernel's table of mounts is polled until none of them is writable. *)

From S2P Require Import Prelude Posix ConfigParser Fastboot TbootUtil Uevent.

Module PreosReboot.
Import Fastboot TbootUtil Uevent.

Definition PREOS_RB_RESTART : Z := 0xDEAD0001.
Definition PREOS_RB_POWEROFF : Z := 0xDEAD0002.
Definition PREOS_RB_RESTART2 : Z := 0xDEAD0003.
Definition PREOS_RB_FLAG_NO_SYNC : Z := 0x1.
Definition PREOS_RB_FLAG_NO_REMOUNT_RO : Z := 0x2.

Inductive how : Set := RB_AUTOBOOT | RB_POWER_OFF | LINUX_REBOOT_CMD_RESTART2 (arg : list Z).

Inductive event : Set :=
  Sync | OpenSysrq | WriteSysrq (bs : list Z) | CloseSysrq | ReadMounts | Usleep (us : Z) | Reboot (h : how).

(** ** The table of mounts *)

Definition is_space (c : Z) : bool := (c =? 32) || ((9 <=? c) && (c <=? 13)).

(** Up to [n] characters that are not spaces. *)
Fixpoint token (n : nat) (l : list Z) : list Z * list Z :=
  match n, l with
  | S n', c :: l' => if is_space c then ([], l) else let '(a, b) := token n' l' in (c :: a, b)
  | _, _ => ([], l)
  end.

(** [%255s]: a string, or the end of the file. *)
Definition scan_s (l : list Z) : option (list Z) * list Z :=
  match skip_space l with
  | [] => (None, [])
  | l' => let '(a, b) := token 255 l' in (Some a, b)
  end.

Definition is_digit (c : Z) : bool := (48 <=? c) && (c <=? 57).

Fixpoint skip_digits (l : list Z) : list Z :=
  match l with c :: l' => if is_digit c then skip_digits l' else l | [] => [] end.

(** [%d]: whether there is a number, and what follows. *)
Definition scan_d (l : list Z) : bool * list Z :=
  match snd (split_sign (skip_space l)) with
  | c :: l' => if is_digit c then (true, skip_digits l') else (false, c :: l')
  | [] => (false, [])
  end.

Definition EOF : Z := -1.

(** The four strings and the two numbers of a line: the result of [fscanf] and the
    strings that were stored. *)
Definition fscanf (l : list Z) : Z * list (list Z) * list Z :=
  match scan_s l with
  | (None, l) => (EOF, [], l)
  | (Some a, l) =>
      match scan_s l with
      | (None, l) => (1, [a], l)
      | (Some b, l) =>
          match scan_s l with
          | (None, l) => (2, [a; b], l)
          | (Some c, l) =>
              match scan_s l with
              | (None, l) => (3, [a; b; c], l)
              | (Some d, l) =>
                  let '(ok, l) := scan_d l in
                  if negb ok then (4, [a; b; c; d], l)
                  else
                    let '(ok, l) := scan_d l in
                    if negb ok then (5, [a; b; c; d], l) else (6, [a; b; c; d], skip_space l)
              end
          end
      end
  end.

Fixpoint mounts_loop (fuel : nat) (l : list Z) : outcome bool :=
  match fuel with
  | O => NoFuel
  | S f =>
      let '(match_, strings, l) := fscanf l in
      let mount_dev := nth 0 strings [] in
      let mount_opts := nth 3 strings [] in
      if (match_ =? 6) && begins (str "/dev/block") mount_dev && bool_decide (is_Some (strstr mount_opts (str "rw")))
      then Ok true
      else if match_ =? EOF then Ok false else mounts_loop f l
  end.

(** [None]: the table cannot be opened. *)
Definition remount_ro_done (mounts : option (list Z)) : outcome bool :=
  match mounts with
  | None => Ok true
  | Some l => let! found_rw_fs := mounts_loop (S (length l)) l in Ok (negb found_rw_fs)
  end.

(** ** Rebooting

    [sysrq] is the result of opening the trigger, [mounts] the table at each look. *)
Section Reboot.
Context (sysrq : Z) (mounts : nat -> option (list Z)).

(** At most 50 rounds: [n] are left, [look] tables have been read. *)
Fixpoint poll (n : nat) (look : nat) : outcome (list event) :=
  let! done := remount_ro_done (mounts look) in
  if done then Ok [ReadMounts]
  else match n with
       | O => Ok [ReadMounts]
       | S n' => let! l := poll n' (S look) in Ok (ReadMounts :: Usleep 100000 :: l)
       end.

Definition remount_ro : outcome (list event) :=
  if sysrq <? 0 then Ok [OpenSysrq]
  else let! l := poll 50 0 in Ok (OpenSysrq :: WriteSysrq (str "u") :: CloseSysrq :: l).

(** [reboot] tells what the system call answers when it returns. *)
Definition preos_reboot (reboot : how -> Z) (cmd flags : Z) (arg : list Z) : outcome (list event * Z) :=
  let l := if Z.land flags PREOS_RB_FLAG_NO_SYNC =? 0 then [Sync] else [] in
  let! l' := if Z.land flags PREOS_RB_FLAG_NO_REMOUNT_RO =? 0 then remount_ro else Ok [] in
  let h := if cmd =? s32 PREOS_RB_RESTART then Some RB_AUTOBOOT
           else if cmd =? s32 PREOS_RB_POWEROFF then Some RB_POWER_OFF
           else if cmd =? s32 PREOS_RB_RESTART2 then Some (LINUX_REBOOT_CMD_RESTART2 arg) else None in
  match h with
  | Some h => Ok (l ++ l' ++ [Reboot h], reboot h)
  | None => Ok (l ++ l', -1)
  end.

End Reboot.

(** ** Lemmas: scanning *)

Lemma token_shorter n l : (0 < n)%nat -> l <> [] -> skip_space l = l -> (length (snd (token n l)) < length l)%nat.
Proof.
  assert (forall n l, (length (snd (token n l)) <= length l)%nat) as H.
  { clear. induction n as [|n IH]; intros [|c l]; cbn [token]; [auto..|]. destruct (is_space c); [auto|].
    specialize (IH l). destruct (token n l). cbn in *. lia. }
  destruct n as [|n], l as [|c l]; try lia; try done. intros _ _ Hs. cbn [token skip_space] in *.
  unfold is_space. destruct ((c =? 32) || ((9 <=? c) && (c <=? 13))).
  - exfalso. assert (length (skip_space l) <= length l)%nat as Hl.
    { clear. induction l as [|c l IH]; cbn [skip_space]; [auto|]. destruct (_ || _); cbn in *; lia. }
    rewrite Hs in Hl. cbn in Hl. lia.
  - specialize (H n l). destruct (token n l). cbn in *. lia.
Qed.

Lemma skip_space_le l : (length (skip_space l) <= length l)%nat.
Proof. induction l as [|c l IH]; cbn [skip_space]; [auto|]. destruct (_ || _); cbn in *; lia. Qed.

Lemma skip_space_idem l : skip_space (skip_space l) = skip_space l.
Proof.
  induction l as [|c l IH]; [reflexivity|]. cbn [skip_space]. destruct ((c =? 32) || ((9 <=? c) && (c <=? 13))) eqn:E; [exact IH|].
  cbn [skip_space]. by rewrite E.
Qed.

Lemma scan_s_shorter l : match scan_s l with (Some _, r) => (length r < length l)%nat | (None, r) => r = [] end.
Proof.
  unfold scan_s. pose proof (skip_space_le l). destruct (skip_space l) as [|c l'] eqn:E; [reflexivity|].
  pose proof (token_shorter 255 (c :: l') ltac:(lia) ltac:(done) ltac:(rewrite <- E; apply skip_space_idem)) as Ht.
  destruct (token 255 (c :: l')). cbn in *. lia.
Qed.

Lemma skip_digits_le l : (length (skip_digits l) <= length l)%nat.
Proof. induction l as [|c l IH]; cbn [skip_digits]; [auto|]. destruct (is_digit c); cbn in *; lia. Qed.

Lemma scan_d_le l : (length (snd (scan_d l)) <= length l)%nat.
Proof.
  unfold scan_d. pose proof (skip_space_le l). assert (length (snd (split_sign (skip_space l))) <= length (skip_space l))%nat.
  { unfold split_sign. destruct (skip_space l) as [|c l']; [auto|]. destruct (c =? 45); [cbn; lia|]. destruct (c =? 43); cbn; lia. }
  destruct (snd _) as [|c l'] eqn:E; cbn in *; [lia|]. pose proof (skip_digits_le l'). destruct (is_digit c); cbn; lia.
Qed.

(** A call that is not at the end reads something. *)
Lemma fscanf_shorter l : let '(m, _, r) := fscanf l in m = EOF \/ (length r < length l)%nat.
Proof.
  unfold fscanf. pose proof (scan_s_shorter l) as H1. destruct (scan_s l) as [[a|] l1]; [|by left].
  pose proof (scan_s_shorter l1) as H2. destruct (scan_s l1) as [[b|] l2]; [|subst; right; cbn; lia].
  pose proof (scan_s_shorter l2) as H3. destruct (scan_s l2) as [[c|] l3]; [|subst; right; cbn; lia].
  pose proof (scan_s_shorter l3) as H4. destruct (scan_s l3) as [[d|] l4]; [|subst; right; cbn; lia].
  pose proof (scan_d_le l4) as H5. destruct (scan_d l4) as [[] l5]; cbn [negb snd] in *; [|right; lia].
  pose proof (scan_d_le l5) as H6. destruct (scan_d l5) as [[] l6]; cbn [negb snd] in *; [|right; lia].
  pose proof (skip_space_le l6). right. lia.
Qed.

Lemma mounts_loop_total fuel : forall l, (length l < fuel)%nat -> exists b, mounts_loop fuel l = Ok b.
Proof.
  induction fuel as [|f IH]; intros l Hf; [lia|]. cbn [mounts_loop]. pose proof (fscanf_shorter l) as H.
  destruct (fscanf l) as [[m ss] r]. destruct ((m =? 6) && _ && _); [eauto|].
  destruct (Z.eqb_spec m EOF); [eauto|]. apply IH. destruct H; [done|lia].
Qed.

Lemma remount_ro_done_total mounts : exists b, remount_ro_done mounts = Ok b.
Proof.
  destruct mounts as [l|]; [|by exists true]. unfold remount_ro_done.
  destruct (mounts_loop_total (S (length l)) l ltac:(lia)) as (b & ->). by exists (negb b).
Qed.

(** ** The table as the kernel prints it *)

Record mount := mk_mount { m_dev : list Z; m_dir : list Z; m_type : list Z; m_opts : list Z; m_freq : list Z; m_pass : list Z }.

Definition word_ok (w : list Z) : bool := negb (bool_decide (w = [])) && (length w <=? 255)%nat && forallb (fun c => negb (is_space c)) w.
Definition number_ok (w : list Z) : bool := negb (bool_decide (w = [])) && forallb is_digit w.

Definition mount_ok (m : mount) : bool :=
  word_ok (m_dev m) && word_ok (m_dir m) && word_ok (m_type m) && word_ok (m_opts m) && number_ok (m_freq m) && number_ok (m_pass m).

Definition mount_line (m : mount) : list Z :=
  m_dev m ++ 32 :: m_dir m ++ 32 :: m_type m ++ 32 :: m_opts m ++ 32 :: m_freq m ++ 32 :: m_pass m ++ [10].

Definition table (l : list mount) : list Z := concat (map mount_line l).

(** A file system on a block device that can be written. *)
Definition writable (m : mount) : bool :=
  begins (str "/dev/block") (m_dev m) && bool_decide (is_Some (strstr (m_opts m) (str "rw"))).

Lemma skip_word w l : word_ok w = true -> skip_space (w ++ l) = w ++ l.
Proof.
  destruct w as [|c w]; [discriminate|]. unfold word_ok. cbn [forallb app skip_space]. rewrite !andb_true_iff. intros (_ & H & _).
  unfold is_space in H. by destruct ((c =? 32) || _).
Qed.

Lemma token_word w : forall n c l, (length w <= n)%nat -> forallb (fun c => negb (is_space c)) w = true -> is_space c = true ->
  token n (w ++ c :: l) = (w, c :: l).
Proof.
  induction w as [|x w IH]; intros [|n] c l Hn Hw Hc; cbn [length] in *; try lia; cbn [app token]; [reflexivity|by rewrite Hc|].
  cbn [forallb] in Hw. apply andb_true_iff in Hw as (Hx & Hw). destruct (is_space x); [discriminate|]. rewrite IH; auto; lia.
Qed.

Lemma scan_s_word w l : word_ok w = true -> scan_s (w ++ 32 :: l) = (Some w, 32 :: l).
Proof.
  intros H. unfold scan_s. rewrite skip_word by done. unfold word_ok in H. rewrite !andb_true_iff in H. destruct H as ((Hne & Hl) & Hw).
  apply Nat.leb_le in Hl. destruct w as [|c w]; [discriminate|]. cbn [app]. change (c :: w ++ 32 :: l) with ((c :: w) ++ 32 :: l).
  rewrite token_word; auto.
Qed.

Lemma scan_s_next w l : word_ok w = true -> scan_s (32 :: w ++ 32 :: l) = (Some w, 32 :: l).
Proof. intros H. rewrite <- (scan_s_word w l H). reflexivity. Qed.

Lemma scan_d_next w c l : number_ok w = true -> is_digit c = false -> scan_d (32 :: w ++ c :: l) = (true, c :: l).
Proof.
  unfold number_ok. rewrite andb_true_iff. intros (Hne & Hw) Hc. destruct w as [|x w]; [discriminate|]. cbn [forallb] in Hw.
  apply andb_true_iff in Hw as (Hx & Hw). unfold is_digit in Hx. unfold scan_d. cbn [skip_space Z.eqb Pos.eqb orb app].
  assert ((x =? 32) || ((9 <=? x) && (x <=? 13)) = false) as -> by lia. unfold split_sign.
  rewrite (proj2 (Z.eqb_neq x 45)), (proj2 (Z.eqb_neq x 43)) by lia. cbn [snd]. unfold is_digit at 1. rewrite Hx. f_equal.
  clear Hx Hne. induction w as [|y w IH]; cbn [app skip_digits]; [by rewrite Hc|]. cbn [forallb] in Hw. apply andb_true_iff in Hw as (-> & Hw). auto.
Qed.

Lemma fscanf_line m l : mount_ok m = true -> fscanf (mount_line m ++ l) = (6, [m_dev m; m_dir m; m_type m; m_opts m], skip_space l).
Proof.
  unfold mount_ok. rewrite !andb_true_iff. intros (((((H1 & H2) & H3) & H4) & H5) & H6). unfold mount_line, fscanf.
  repeat rewrite <- app_assoc; cbn [app]. rewrite scan_s_word by done.
  repeat rewrite <- app_assoc; cbn [app]. rewrite scan_s_next by done.
  repeat rewrite <- app_assoc; cbn [app]. rewrite scan_s_next by done.
  repeat rewrite <- app_assoc; cbn [app]. rewrite scan_s_next by done.
  repeat rewrite <- app_assoc; cbn [app]. rewrite scan_d_next by done. cbn [negb].
  repeat rewrite <- app_assoc; cbn [app]. rewrite scan_d_next by done. cbn [negb]. reflexivity.
Qed.

Lemma table_start l : Forall (fun m => mount_ok m = true) l -> skip_space (table l) = table l.
Proof.
  intros [|m l' Hm _]; [reflexivity|]. change (table (m :: l')) with (mount_line m ++ table l'). unfold mount_line. rewrite <- app_assoc.
  apply skip_word. unfold mount_ok in Hm. rewrite !andb_true_iff in Hm. apply Hm.
Qed.

(** ** Properties *)

(** The poll is over exactly when the table has no block device that can be written. *)
Theorem remount_ro_done_correct l : Forall (fun m => mount_ok m = true) l ->
  remount_ro_done (Some (table l)) = Ok (negb (existsb writable l)).
Proof.
  intros H. unfold remount_ro_done. assert (mounts_loop (S (length (table l))) (table l) = Ok (existsb writable l)) as ->; [|reflexivity].
  generalize (Nat.lt_succ_diag_r (length (table l))). generalize (S (length (table l))). induction H as [|m l Hm Hl IH]; intros [|f] Hf; try lia; [reflexivity|].
  change (table (m :: l)) with (mount_line m ++ table l) in *. cbn [mounts_loop]. rewrite fscanf_line by done.
  cbn [nth Z.eqb Pos.eqb andb existsb]. unfold writable at 1. destruct (begins _ (m_dev m) && _); [reflexivity|]. cbn [orb EOF].
  change (6 =? -1) with false. cbn iota. rewrite table_start by done. apply IH. unfold mount_line in Hf. rewrite !length_app in Hf. cbn [length] in Hf. lia.
Qed.

(** What is done while the table is polled [n] times in vain. *)
Definition polls (n : nat) : list event := concat (replicate n [ReadMounts; Usleep 100000]) ++ [ReadMounts].

Lemma poll_spec mounts n : forall look, exists k, poll mounts n look = Ok (polls k) /\ (k <= n)%nat /\
  (forall i, (i < k)%nat -> remount_ro_done (mounts (look + i)%nat) = Ok false) /\ (k = n \/ remount_ro_done (mounts (look + k)%nat) = Ok true).
Proof.
  induction n as [|n IH]; intros look; cbn [poll]; destruct (remount_ro_done_total (mounts look)) as ([] & E); rewrite E; cbn [obind].
  1, 2, 3: exists 0%nat; rewrite Nat.add_0_r; repeat split; auto; lia.
  destruct (IH (S look)) as (k & -> & Hk & Hno & Hend). exists (S k). cbn [obind]. split; [reflexivity|]. split; [lia|]. split.
  - intros [|i] Hi; [by rewrite Nat.add_0_r|]. rewrite Nat.add_succ_r. apply Hno. lia.
  - rewrite Nat.add_succ_r. destruct Hend as [->|H]; [by left|by right].
Qed.

(** A reboot: with the flags clear, the files are synced, the file systems remounted read-only, and the machine rebooted
    as it was asked, in this order, after a poll that ends when no block device can be written, and after five seconds
    otherwise. *)
Theorem preos_reboot_correct sysrq mounts reboot h cmd arg : 0 <= sysrq ->
  (cmd, h) ∈ [(s32 PREOS_RB_RESTART, RB_AUTOBOOT); (s32 PREOS_RB_POWEROFF, RB_POWER_OFF); (s32 PREOS_RB_RESTART2, LINUX_REBOOT_CMD_RESTART2 arg)] ->
  exists k, preos_reboot sysrq mounts reboot cmd 0 arg =
    Ok (Sync :: OpenSysrq :: WriteSysrq (str "u") :: CloseSysrq :: polls k ++ [Reboot h], reboot h) /\ (k <= 50)%nat /\
    (forall i, (i < k)%nat -> remount_ro_done (mounts i) = Ok false) /\ (k = 50%nat \/ remount_ro_done (mounts k) = Ok true).
Proof.
  intros Hs Hc. destruct (poll_spec mounts 50 0) as (k & Hp & Hk). exists k. split; [|exact Hk].
  unfold preos_reboot, remount_ro. rewrite (proj2 (Z.ltb_ge sysrq 0)) by lia. rewrite Hp. change (Z.land 0 _ =? 0) with true. cbn [obind].
  repeat (apply elem_of_cons in Hc as [[= -> ->]|Hc]; [reflexivity|]). by apply elem_of_nil in Hc.
Qed.

(** A command that is not known does not reboot, but the file systems are read-only
    afterwards. *)
Theorem preos_reboot_unknown sysrq mounts reboot arg : 0 <= sysrq -> exists l,
  preos_reboot sysrq mounts reboot 0 0 arg = Ok (Sync :: OpenSysrq :: WriteSysrq (str "u") :: l, -1).
Proof.
  intros Hs. destruct (poll_spec mounts 50 0) as (k & Hp & Hk). unfold preos_reboot, remount_ro.
  rewrite (proj2 (Z.ltb_ge sysrq 0)) by lia. rewrite Hp. eexists. reflexivity.
Qed.


End PreosReboot.
