(* ===== verification/Events.v ===== *)
(** * src/libminui/events.c: input devices

    The devices that are polled, in the order in which they were added, and what is called
    when they have something to tell. *)

From S2P Require Import Prelude Posix ConfigParser Fastboot.

Module Events.
Import Fastboot.

Definition MAX_DEVICES : Z := 16.
Definition MAX_MISC_FDS : Z := 16.
Definition BITS_PER_LONG : Z := 32.

(** Bits of the kernel's headers. *)
Definition EV_KEY : Z := 1.
Definition EV_REL : Z := 2.
Definition KEY_MAX : Z := 0x2ff.
Definition POLLIN : Z := 1.

(** [array[bit / BITS_PER_LONG] & (1 << (bit % BITS_PER_LONG))] *)
Definition test_bit (bit : Z) (array : list Z) : outcome bool :=
  match array !! Z.to_nat (bit / BITS_PER_LONG) with
  | Some w => Ok (negb (Z.land w (Z.shiftl 1 (bit mod BITS_PER_LONG)) =? 0))
  | None => Undef
  end.

Section Events.
(** Callbacks and their argument. *)
Context {callback data : Type}.

(** An entry of [ev_fds] and the one of [ev_fdinfo] at its index. *)
Record entry := mk_entry { fd : Z; events : Z; revents : Z; cb : callback; arg : data }.

(** The two arrays have [MAX_DEVICES + MAX_MISC_FDS] entries; here are those that are used, [ev_count] of them. *)
Record ev := mk_ev { ev_fds : list entry; ev_dev_count : Z; ev_misc_count : Z }.

Definition ev_count (s : ev) : Z := zlen (ev_fds s).
Definition no_events : ev := mk_ev [] 0 0.

(** The entry at [ev_count], one that nothing was stored in yet. *)
Definition store_entry (s : ev) (d : Z) (f : callback) (a : data) : outcome (list entry) :=
  if ev_count s <? MAX_DEVICES + MAX_MISC_FDS then Ok (ev_fds s ++ [mk_entry d POLLIN 0 f a]) else Undef.

(** A file of the directory: its name, what opening it returns, and the event types that the device tells, if it does. *)
Record dirent := mk_dirent { d_name : list Z; d_fd : Z; d_bits : option (list Z) }.

(** The state and the descriptors that were closed. *)
Fixpoint dir_loop (s : ev) (input_cb : callback) (a : data) (dir : list dirent) : outcome (ev * list Z) :=
  match dir with
  | [] => Ok (s, [])
  | de :: dir' =>
      if negb (bool_decide (take 5 (d_name de) = str "event")) then dir_loop s input_cb a dir'
      else if d_fd de <? 0 then dir_loop s input_cb a dir'
      else
        let! wanted := match d_bits de with
                       | None => Ok false
                       | Some ev_bits => let! key := test_bit EV_KEY ev_bits in if key then Ok true else test_bit EV_REL ev_bits
                       end in
        if negb wanted then let! (s, l) := dir_loop s input_cb a dir' in Ok (s, d_fd de :: l)
        else
          let! l := store_entry s (d_fd de) input_cb a in
          let s := mk_ev l (ev_dev_count s + 1) (ev_misc_count s) in
          if ev_dev_count s =? MAX_DEVICES then Ok (s, []) else dir_loop s input_cb a dir'
  end.

Definition ev_init (s : ev) (input_cb : callback) (a : data) (dir : option (list dirent)) : outcome (ev * list Z * Z) :=
  match dir with
  | None => Ok (s, [], 0)
  | Some dir => let! (s, closed) := dir_loop s input_cb a dir in Ok (s, closed, 0)
  end.

Definition ev_add_fd (s : ev) (d : Z) (f : option callback) (a : data) : outcome (ev * Z) :=
  match f with
  | None => Ok (s, -1)
  | Some f =>
      if ev_misc_count s =? MAX_MISC_FDS then Ok (s, -1)
      else let! l := store_entry s d f a in Ok (mk_ev l (ev_dev_count s) (ev_misc_count s + 1), 0)
  end.

(** The descriptors are closed from the last one on. *)
Definition ev_exit (s : ev) : ev * list Z := (no_events, rev (map fd (ev_fds s))).

(** [poll] stores what each descriptor has to tell and returns how many have something. *)
Definition ev_wait (s : ev) (r : Z) (ready : nat -> Z) : ev * Z :=
  (mk_ev (imap (fun i e => mk_entry (fd e) (events e) (ready i) (cb e) (arg e)) (ev_fds s)) (ev_dev_count s) (ev_misc_count s),
   if r <=? 0 then -1 else 0).

(** The calls, with the descriptor, what it has to tell, and the argument. *)
Fixpoint dispatch_loop (l : list entry) : list (callback * Z * Z * data) :=
  match l with
  | [] => []
  | e :: l' => (if negb (Z.land (revents e) (events e) =? 0) then [(cb e, fd e, revents e, arg e)] else []) ++ dispatch_loop l'
  end.

Definition ev_dispatch (s : ev) : list (callback * Z * Z * data) := dispatch_loop (ev_fds s).

(** [r]: what [read] returns, and the bytes. *)
Definition ev_get_input (revents r : Z) (bytes : list Z) (size : Z) : option (list Z) :=
  if negb (Z.land revents POLLIN =? 0) && (r =? size) then Some bytes else None.

(** *** The keys that are pressed *)

(** What the two requests tell of a descriptor. *)
Context (types keys : Z -> option (list Z)).

(** The codes from [code] on that are set, [n] of them looked at. *)
Fixpoint code_loop (n : nat) (code : Z) (key_bits : list Z) : outcome (list Z) :=
  match n with
  | O => Ok []
  | S n' =>
      let! b := test_bit code key_bits in
      let! l := code_loop n' (code + 1) key_bits in
      Ok ((if b then [code] else []) ++ l)
  end.

(** The calls [set_key_cb(code, 1, data)] for the first [n] entries. *)
Fixpoint device_loop (n : nat) (l : list entry) : outcome (list Z) :=
  match n, l with
  | O, _ => Ok []
  | S _, [] => Undef
  | S n', e :: l' =>
      let! codes :=
        match types (fd e) with
        | None => Ok []
        | Some ev_bits =>
            let! key := test_bit EV_KEY ev_bits in
            if negb key then Ok []
            else match keys (fd e) with
                 | None => Ok []
                 | Some key_bits => code_loop (Z.to_nat (KEY_MAX + 1)) 0 key_bits
                 end
        end in
      let! rest := device_loop n' l' in
      Ok (codes ++ rest)
  end.

Definition ev_sync_key_state (s : ev) : outcome (list Z) := device_loop (Z.to_nat (ev_dev_count s)) (ev_fds s).

(** ** Reference definitions *)

Definition type_bit (t : Z) (bits : list Z) : bool := match bits with w :: _ => Z.testbit w t | [] => false end.

(** An input device that can be used: keys or movements. *)
Definition opened (de : dirent) : bool := bool_decide (take 5 (d_name de) = str "event") && (0 <=? d_fd de).
Definition useful (de : dirent) : bool :=
  opened de && match d_bits de with Some b => type_bit EV_KEY b || type_bit EV_REL b | None => false end.

Definition device (f : callback) (a : data) (de : dirent) : entry := mk_entry (d_fd de) POLLIN 0 f a.

(** What an answer of the kernel looks like: a word of event types, and 24 words of keys. *)
Definition types_ok (b : list Z) : Prop := length b = 1%nat.
Definition keys_ok (b : list Z) : Prop := length b = 24%nat.

Definition pressed (key_bits : list Z) : list Z := List.filter (fun c => Z.testbit (nth (Z.to_nat (c / 32)) key_bits 0) (c mod 32)) (seqZ 0 768).

(** The keys of a device. *)
Definition keys_of (d : Z) : list Z :=
  match types d, keys d with Some t, Some k => if type_bit EV_KEY t then pressed k else [] | _, _ => [] end.

(** ** Lemmas *)

Lemma land_shiftl_1 w k : 0 <= k -> negb (Z.land w (Z.shiftl 1 k) =? 0) = Z.testbit w k.
Proof.
  intros Hk. rewrite Z.shiftl_1_l. destruct (Z.testbit w k) eqn:E.
  - apply negb_true_iff, Z.eqb_neq. intros H. assert (Z.testbit (Z.land w (2 ^ k)) k = true) as H'; [|rewrite H, Z.bits_0 in H'; discriminate].
    rewrite Z.land_spec, E, Z.pow2_bits_true by lia. reflexivity.
  - apply negb_false_iff, Z.eqb_eq, Z.bits_inj'. intros n Hn. rewrite Z.land_spec, Z.bits_0.
    destruct (decide (n = k)) as [->|]; [by rewrite E|]. rewrite Z.pow2_bits_false by lia. apply andb_false_r.
Qed.

Lemma test_bit_spec bit array : 0 <= bit < 32 * zlen array -> test_bit bit array = Ok (Z.testbit (nth (Z.to_nat (bit / 32)) array 0) (bit mod 32)).
Proof.
  intros H. unfold test_bit, BITS_PER_LONG. assert (Z.to_nat (bit / 32) < length array)%nat as Hl.
  { unfold zlen in H. pose proof (Z.div_lt_upper_bound bit 32 (Z.of_nat (length array))). pose proof (Z.div_pos bit 32). lia. }
  destruct (lookup_lt_is_Some_2 array _ Hl) as [w Hw]. rewrite Hw, (nth_lookup_Some _ _ 0 _ Hw), land_shiftl_1; [reflexivity|].
  pose proof (Z.mod_pos_bound bit 32). lia.
Qed.

Lemma test_type t b : types_ok b -> 0 <= t < 32 -> test_bit t b = Ok (type_bit t b).
Proof.
  intros Hb Ht. destruct b as [|w [|]]; try discriminate Hb. rewrite test_bit_spec by (unfold zlen; cbn; lia).
  rewrite Z.div_small, Z.mod_small by lia. reflexivity.
Qed.

Lemma code_loop_spec k n : keys_ok k -> forall code, 0 <= code -> code + Z.of_nat n <= 768 ->
  code_loop n code k = Ok (List.filter (fun c => Z.testbit (nth (Z.to_nat (c / 32)) k 0) (c mod 32)) (seqZ code (Z.of_nat n))).
Proof.
  intros Hk. induction n as [|n IH]; intros code Hc Hn; [reflexivity|]. cbn [code_loop].
  rewrite test_bit_spec by (unfold zlen, keys_ok in *; lia). cbn [obind]. rewrite IH by lia. cbn [obind].
  rewrite (seqZ_cons code (Z.of_nat (S n))) by lia. replace (Z.pred (Z.of_nat (S n))) with (Z.of_nat n) by lia. cbn [List.filter].
  rewrite <- Z.add_1_r. destruct (Z.testbit _ _); reflexivity.
Qed.

Lemma codes_pressed k : keys_ok k -> code_loop (Z.to_nat (KEY_MAX + 1)) 0 k = Ok (pressed k).
Proof.
  intros Hk. assert (Z.of_nat (Z.to_nat (KEY_MAX + 1)) = 768) as E by reflexivity. revert E. generalize (Z.to_nat (KEY_MAX + 1)). intros n E.
  rewrite (code_loop_spec k n Hk) by lia. rewrite E. unfold pressed. reflexivity.
Qed.

(** The first [n] useful files of the directory, and those that were opened and closed before the [n]th of them. *)
Fixpoint chosen (n : nat) (dir : list dirent) : list dirent * list Z :=
  match dir with
  | [] => ([], [])
  | de :: dir' =>
      if useful de then
        match n with
        | O | 1%nat => ([de], [])
        | S n' => let '(l, c) := chosen n' dir' in (de :: l, c)
        end
      else let '(l, c) := chosen n dir' in (l, if opened de then d_fd de :: c else c)
  end.

Lemma chosen_take n dir : (0 < n)%nat -> fst (chosen n dir) = take n (List.filter useful dir).
Proof.
  revert n. induction dir as [|de dir IH]; intros n Hn; [by destruct n|]. cbn [chosen List.filter]. destruct (useful de).
  - destruct n as [|[|n]]; [lia|reflexivity|]. specialize (IH (S n) ltac:(lia)). destruct (chosen (S n) dir) as [l c]. cbn in IH |- *. by rewrite IH.
  - specialize (IH n Hn). destruct (chosen n dir) as [l c]. exact IH.
Qed.

Definition bits_ok (dir : list dirent) : Prop := Forall (fun de => forall b, d_bits de = Some b -> types_ok b) dir.

Lemma dir_loop_spec f a dir : bits_ok dir -> forall s n, ev_count s = ev_dev_count s + ev_misc_count s -> 0 <= ev_misc_count s <= 16 ->
  ev_dev_count s + Z.of_nat n = MAX_DEVICES -> (0 < n)%nat ->
  dir_loop s f a dir = Ok (mk_ev (ev_fds s ++ map (device f a) (fst (chosen n dir))) (ev_dev_count s + zlen (fst (chosen n dir))) (ev_misc_count s),
    snd (chosen n dir)).
Proof.
  induction 1 as [|de dir Hde Hdir IH]; intros s n Hc Hm Hn Hpos; cbn [dir_loop chosen].
  - cbn. rewrite app_nil_r, Z.add_0_r. by destruct s.
  - unfold useful, opened. destruct (bool_decide (take 5 (d_name de) = _)); cbn [negb andb].
    2: { rewrite (IH s n) by done. by destruct (chosen n dir). }
    rewrite (Z.leb_antisym (d_fd de) 0). destruct (d_fd de <? 0); cbn [negb andb].
    { rewrite (IH s n) by done. by destruct (chosen n dir). }
    assert (match d_bits de with
            | None => Ok false
            | Some ev_bits => let! key := test_bit EV_KEY ev_bits in if key then Ok true else test_bit EV_REL ev_bits
            end = Ok match d_bits de with Some b => type_bit EV_KEY b || type_bit EV_REL b | None => false end) as ->.
    { destruct (d_bits de) as [b|]; [|reflexivity]. rewrite !test_type by first [unfold EV_KEY, EV_REL; lia|apply Hde; done]. cbn [obind].
      destruct (type_bit EV_KEY b); reflexivity. }
    cbn [obind]. destruct (match d_bits de with Some _ => _ | None => _ end); cbn [negb].
    + unfold store_entry. rewrite (proj2 (Z.ltb_lt (ev_count s) (MAX_DEVICES + MAX_MISC_FDS))) by (unfold MAX_MISC_FDS; lia). cbn [obind ev_dev_count].
      destruct n as [|[|n]]; [lia| |].
      * rewrite (proj2 (Z.eqb_eq (ev_dev_count s + 1) MAX_DEVICES)) by lia. reflexivity.
      * rewrite (proj2 (Z.eqb_neq (ev_dev_count s + 1) MAX_DEVICES)) by lia.
        rewrite (IH _ (S n)) by (cbn [ev_dev_count ev_misc_count]; unfold ev_count in *; cbn [ev_fds]; rewrite ?zlen_app, ?zlen_cons, ?zlen_nil; lia).
        destruct (chosen (S n) dir) as [l c]. cbn [ev_fds ev_dev_count ev_misc_count fst snd map]. rewrite <- app_assoc, zlen_cons. do 3 f_equal. lia.
    + rewrite (IH s n) by done. cbn [obind]. by destruct (chosen n dir).
Qed.

Lemma device_loop_spec n l : (n <= length l)%nat ->
  (forall e, e ∈ l -> (forall t, types (fd e) = Some t -> types_ok t) /\ (forall k, keys (fd e) = Some k -> keys_ok k)) ->
  device_loop n l = Ok (flat_map (fun e => keys_of (fd e)) (take n l)).
Proof.
  revert n. induction l as [|e l IH]; intros [|n] Hn Hk; [reflexivity|cbn in Hn; lia|reflexivity|]. cbn [device_loop take flat_map].
  destruct (Hk e) as (Ht & Hke); [by left|]. rewrite (IH n) by first [cbn in Hn; lia|intros; apply Hk; by right].
  unfold keys_of. destruct (types (fd e)) as [t|] eqn:Et; [|reflexivity]. rewrite test_type by first [unfold EV_KEY; lia|eauto]. cbn [obind].
  destruct (type_bit EV_KEY t); cbn [negb]; [|destruct (keys (fd e)); reflexivity].
  destruct (keys (fd e)) as [k|] eqn:Ek; [|reflexivity]. rewrite (codes_pressed k) by eauto. reflexivity.
Qed.

(** ** Devices *)

(** The arrays: devices first, then the others, neither more than their number. *)
Record ev_ok (s : ev) : Prop := {
  eo_count : ev_count s = ev_dev_count s + ev_misc_count s;
  eo_dev : 0 <= ev_dev_count s <= MAX_DEVICES;
  eo_misc : 0 <= ev_misc_count s <= MAX_MISC_FDS
}.

Lemma zlen_take_le {X} n (l : list X) : zlen (take n l) <= Z.of_nat n.
Proof. unfold zlen. rewrite length_take. lia. Qed.

(** Initialising finds the first sixteen input devices that tell keys or movements, in the order of the
    directory, and closes every other file that it opened. *)
Theorem ev_init_devices f a dir : bits_ok dir -> exists s,
  ev_init no_events f a (Some dir) = Ok (s, snd (chosen 16 dir), 0) /\
  ev_fds s = map (device f a) (take 16 (List.filter useful dir)) /\ ev_dev_count s = ev_count s /\ ev_ok s.
Proof.
  intros Hd. unfold ev_init. rewrite (dir_loop_spec f a dir Hd no_events 16) by (cbn; lia || reflexivity). cbn [obind].
  eexists. split; [reflexivity|]. cbn [ev_fds no_events app ev_dev_count ev_misc_count]. rewrite chosen_take by lia. split; [reflexivity|].
  pose proof (zlen_take_le 16 (List.filter useful dir)). pose proof (zlen_nonneg (take 16 (List.filter useful dir))).
  split; [unfold ev_count, zlen; cbn [ev_fds]; rewrite length_map; lia|].
  split; unfold ev_count, MAX_DEVICES, MAX_MISC_FDS; cbn [ev_fds ev_dev_count ev_misc_count]; unfold zlen in *; rewrite ?length_map; lia.
Qed.

(** A descriptor is added behind the others as long as there are fewer than sixteen of its kind; the arrays never
    overflow. *)
Theorem ev_add_fd_correct s d f a : ev_ok s -> exists s', ev_add_fd s d (Some f) a = Ok (s', if ev_misc_count s =? MAX_MISC_FDS then -1 else 0) /\ ev_ok s' /\
  ev_dev_count s' = ev_dev_count s /\
  ev_fds s' = ev_fds s ++ (if ev_misc_count s =? MAX_MISC_FDS then [] else [mk_entry d POLLIN 0 f a]).
Proof.
  intros [H1 H2 H3]. unfold ev_add_fd. destruct (Z.eqb_spec (ev_misc_count s) MAX_MISC_FDS).
  - exists s. rewrite app_nil_r. repeat split; auto; lia.
  - unfold store_entry. rewrite (proj2 (Z.ltb_lt (ev_count s) (MAX_DEVICES + MAX_MISC_FDS))) by lia. cbn [obind].
    eexists. split; [reflexivity|]. unfold ev_count in *. repeat split; unfold ev_count; cbn [ev_fds ev_dev_count ev_misc_count]; rewrite ?zlen_app, ?zlen_cons, ?zlen_nil; lia.
Qed.

Lemma dispatch_waited (ready : nat -> Z) l : Forall (fun e => events e = POLLIN) l -> forall h,
  dispatch_loop (imap (fun i e => mk_entry (fd e) (events e) (ready (h i)) (cb e) (arg e)) l) =
  map (fun p => (cb p.2, fd p.2, ready p.1, arg p.2)) (List.filter (fun p => Z.testbit (ready p.1) 0) (imap (fun i e => (h i, e)) l)).
Proof.
  induction 1 as [|e l He Hl IH]; intros h; [reflexivity|]. cbn [imap dispatch_loop List.filter fst revents events fd cb arg]. rewrite He.
  change POLLIN with (Z.shiftl 1 0). rewrite land_shiftl_1 by lia.
  pose proof (IH (h ∘ S)) as E. unfold compose in E |- *. cbv beta in E |- *. rewrite E. destruct (Z.testbit (ready (h 0%nat)) 0); reflexivity.
Qed.

(** After a wait the callbacks of exactly the descriptors that can be read are called, in the order in which they were
    added, each with its own argument. *)
Theorem ev_dispatch_calls s r ready : Forall (fun e => events e = POLLIN) (ev_fds s) ->
  ev_dispatch (fst (ev_wait s r ready)) =
  map (fun p => (cb p.2, fd p.2, ready p.1, arg p.2)) (List.filter (fun p => Z.testbit (ready p.1) 0) (imap pair (ev_fds s))).
Proof. intros H. exact (dispatch_waited ready (ev_fds s) H id). Qed.

Lemma pressed_spec k c : c ∈ pressed k <-> 0 <= c <= KEY_MAX /\ Z.testbit (nth (Z.to_nat (c / 32)) k 0) (c mod 32) = true.
Proof. unfold pressed, KEY_MAX. rewrite list_elem_of_In, filter_In, <- list_elem_of_In, elem_of_seqZ. split; intros (H1 & H2); split; auto; lia. Qed.

Fixpoint add_all (s : ev) (l : list (Z * callback * data)) : outcome ev :=
  match l with
  | [] => Ok s
  | (d, f, a) :: l' => let! (s, _) := ev_add_fd s d (Some f) a in add_all s l'
  end.

Lemma add_all_spec l : forall s, ev_ok s -> exists s' l', add_all s l = Ok s' /\ ev_fds s' = ev_fds s ++ l' /\ ev_dev_count s' = ev_dev_count s /\ ev_ok s'.
Proof.
  induction l as [|[[d f] a] l IH]; intros s Hs; cbn [add_all]; [exists s, []; rewrite app_nil_r; auto|].
  destruct (ev_add_fd_correct s d f a Hs) as (s1 & -> & Hs1 & Hd1 & Hf1). cbn [obind].
  destruct (IH s1 Hs1) as (s' & l' & -> & Hf & Hd & Hs'). eexists s', _. split; [reflexivity|]. rewrite Hf, Hf1, <- app_assoc. split; [reflexivity|]. split; [congruence|exact Hs'].
Qed.

(** Whatever else is added after the devices were found, the keys that are reported as pressed when their state is asked for
    are those of these devices, device by device and in the order of their codes. *)
Theorem ev_sync_key_state_correct f a dir adds : bits_ok dir ->
  (forall d, (forall t, types d = Some t -> types_ok t) /\ (forall k, keys d = Some k -> keys_ok k)) ->
  exists s0 s, ev_init no_events f a (Some dir) = Ok (s0, snd (chosen 16 dir), 0) /\ add_all s0 adds = Ok s /\
    ev_sync_key_state s = Ok (flat_map (fun de => keys_of (d_fd de)) (take 16 (List.filter useful dir))).
Proof.
  intros Hd Hk. destruct (ev_init_devices f a dir Hd) as (s0 & H0 & Hf & Hc & Hs0). destruct (add_all_spec adds s0 Hs0) as (s & l' & Ha & Hf' & Hd' & Hs).
  exists s0, s. split; [exact H0|]. split; [exact Ha|]. unfold ev_sync_key_state. rewrite Hd', Hc, Hf'. unfold ev_count, zlen. rewrite Nat2Z.id.
  rewrite device_loop_spec by (intros; apply Hk || rewrite length_app; lia). rewrite take_app_length, Hf.
  generalize (take 16 (List.filter useful dir)). intros l. f_equal. induction l as [|de l IH]; [reflexivity|]. cbn [map flat_map]. cbn [device fd]. by rewrite IH.
Qed.

End Events.

(** ** Concrete devices *)

Definition keyboard (n : Z) : dirent := mk_dirent (str "event0") n (Some [2]).
Definition all_devices : list dirent := map keyboard (seqZ 0 17).

Lemma ev_sync_key_state_correct_witness : exists s0 s : ev (callback := nat) (data := nat), add_all s0 [(99, 1%nat, 0%nat)] = Ok s /\
  ev_sync_key_state (fun _ => Some [2]) (fun d => Some (replicate 3 0 ++ [d] ++ replicate 20 0)) s = Ok [97; 96; 97].
Proof.
  destruct (ev_sync_key_state_correct (callback := nat) (data := nat) (fun _ => Some [2]) (fun d => Some (replicate 3 0 ++ [d] ++ replicate 20 0)) 0%nat 0%nat
    [keyboard 2; mk_dirent (str "mice") 4 (Some [2]); mk_dirent (str "event1") 5 (Some [8]); keyboard 3] [(99, 1%nat, 0%nat)]) as (s0 & s & H0 & Ha & Hs).
  - repeat constructor; cbn; intros b [= <-]; reflexivity.
  - intros d. split; intros t [= <-]; reflexivity.
  - exists s0, s. split; [exact Ha|]. rewrite Hs. vm_compute. reflexivity.
Defined.

(** ** Where the code does not do what it means to *)

(** Only the sixteenth device of a call ends the search. When sixteen are there already, another call goes on and stores
    behind the arrays. *)
Theorem ev_init_twice : exists s, ev_init no_events 0%nat 0%nat (Some all_devices) = Ok (s, [], 0) /\ ev_dev_count s = 16 /\
  ev_init s 0%nat 0%nat (Some all_devices) = Undef.
Proof. eexists. split; [vm_compute; reflexivity|]. vm_compute. auto. Qed.

(** The keys are asked of the first descriptors, which are the devices only if nothing was added before them. *)
Theorem ev_sync_wrong_order : exists s0 s, ev_add_fd no_events 99 (Some 1%nat) 0%nat = Ok (s0, 0) /\
  ev_init s0 0%nat 0%nat (Some [keyboard 2]) = Ok (s, [], 0) /\
  ev_sync_key_state (fun d => if d =? 2 then Some [2] else None) (fun d => Some (2 :: replicate 23 0)) s = Ok [] /\
  keys_of (fun d => if d =? 2 then Some [2] else None) (fun d => Some (2 :: replicate 23 0)) 2 = [1].
Proof. do 2 eexists. split; [vm_compute; reflexivity|]. split; [vm_compute; reflexivity|]. vm_compute. auto. Qed.

End Events.
