(* ===== verification/MinUi.v ===== *)
(** * src/libminui/minui.c: menus, text areas and bars

    The parts of the screen. The calls of DirectFB are recorded as drawing
    operations; one that fails ends the program. *)

From S2P Require Import Prelude Posix ConfigParser Fastboot TbootUtil.

Module MinUi.
Import Fastboot.

(** ** Drawing *)

Definition R (color : Z) : Z := u8 (Z.shiftr color 24).
Definition G (color : Z) : Z := u8 (Z.shiftr color 16).
Definition B (color : Z) : Z := u8 (Z.shiftr color 8).
Definition A (color : Z) : Z := u8 color.

Inductive align : Set := DSTF_TOPLEFT | DSTF_TOPCENTER | DSTF_BOTTOMCENTER.

Inductive draw : Set :=
  | SetColor (r g b a : Z)
  | FillRectangle (x y width height : Z)
  | DrawRectangle (x y width height : Z)
  | DrawString (text : list Z) (x y : Z) (flags : align)
  | Flip.

Definition set_color (c : Z) : draw := SetColor (R c) (G c) (B c) (A c).

(** A window whose surface and font were made. *)
Record window := mk_win { font_height : Z; font_width : Z; color : Z; win_x : Z; win_y : Z; win_width : Z; win_height : Z }.

Definition DEFAULT_FONT_HEIGHT : Z := 24.

Definition window_init (color font_height : Z) : window :=
  mk_win (if 0 <? font_height then font_height else DEFAULT_FONT_HEIGHT) 0 color 0 0 0 0.

(** [a / b] and [a % b] of the machine. *)
Definition div (a b : Z) : outcome Z := if b =? 0 then Undef else Ok (Z.quot a b).
Definition rem (a b : Z) : outcome Z := if b =? 0 then Undef else Ok (Z.rem a b).

(** ** Menus *)
Section Menu.
Context {handler : Type}.

Record menu_item := mk_item { item_text : list Z; item_color : Z; item_handler : option handler }.

Record menu := mk_menu {
  menu_win : window;
  items : list (option menu_item);
  max_items : Z;
  nr_items : Z;
  menu_color : Z;
  hl_fg_color : Z;
  hl_bg_color : Z;
  selected : Z;
  menu_x : Z;
  menu_y : Z;
  menu_width : Z;
  menu_height : Z
}.

Definition set_items (m : menu) (l : list (option menu_item)) (n : Z) : menu :=
  mk_menu (menu_win m) l (max_items m) n (menu_color m) (hl_fg_color m) (hl_bg_color m) (selected m) (menu_x m) (menu_y m) (menu_width m) (menu_height m).
Definition set_selected (m : menu) (s : Z) : menu :=
  mk_menu (menu_win m) (items m) (max_items m) (nr_items m) (menu_color m) (hl_fg_color m) (hl_bg_color m) s (menu_x m) (menu_y m) (menu_width m) (menu_height m).

(** [memory]: whether each of the two allocations succeeds. *)
Definition menu_init (memory : bool * bool) (win : option window) (x y width height color hl_bg_color hl_fg_color : Z) : outcome (option menu) :=
  match win with
  | None => Ok None
  | Some w =>
      if (width <=? 0) || (height <=? 0) then Ok None
      else if negb (fst memory) then Ok None
      else
        let! max := div height (font_height w) in
        if negb (snd memory) then Ok None
        else Ok (Some (mk_menu w (replicate (Z.to_nat max) None) max 0 color hl_fg_color hl_bg_color 0
                         (if 0 <? x then x else 0) (if 0 <? y then y else 0) width height))
  end.

(** The line is its text and its color. *)
Definition menu_newitem (memory : bool) (this : option menu) (line : option (list Z * Z)) (h : option handler) : option menu * Z :=
  match this, line with
  | Some m, Some (text, color) =>
      if bool_decide (text = []) then (this, -1)
      else if nr_items m =? max_items m then (this, -1)
      else if negb memory then (this, -1)
      else (Some (set_items m (<[Z.to_nat (nr_items m) := Some (mk_item text color h)]> (items m)) (s32 (nr_items m + 1))), 0)
  | _, _ => (this, -1)
  end.

(** [for (i = 0; i < nr_items && items[i]; i++)] *)
Fixpoint items_loop (m : menu) (l : list (option menu_item)) (i y : Z) : list draw :=
  match l with
  | Some it :: l' =>
      if i <? nr_items m then
        (if i =? selected m then
           [set_color (hl_bg_color m); FillRectangle (menu_x m) y (menu_width m) (font_height (menu_win m)); set_color (hl_fg_color m)]
         else [set_color (item_color it)]) ++
        DrawString (item_text it) 0 y DSTF_TOPLEFT :: items_loop m l' (i + 1) (y + font_height (menu_win m))
      else []
  | _ => []
  end.

Definition menu_refresh (m : menu) : list draw :=
  [set_color (color (menu_win m)); FillRectangle (menu_x m) (menu_y m) (menu_width m) (menu_height m - font_height (menu_win m))] ++
  items_loop m (items m) 0 (menu_y m) ++ [Flip].

(** The menu, the result, and what is drawn. *)
Definition menu_selected (m : menu) (sel : Z) : outcome (menu * Z * list draw) :=
  if s32 (sel + nr_items m) <? 0 then Ok (m, -1, [])
  else
    let! s := rem (s32 (sel + nr_items m)) (nr_items m) in
    let m := set_selected m s in Ok (m, 0, menu_refresh m).

Definition menu_update (m : menu) (next : Z) : outcome (menu * Z * list draw) := menu_selected m (s32 (selected m + next)).

(** The handler whose result is returned, or [-1]. *)
Definition menu_action (m : menu) : outcome (option handler) :=
  if (selected m <? 0) || (max_items m <=? selected m) then Ok None
  else
    match items m !! Z.to_nat (selected m) with
    | Some (Some it) => Ok (item_handler it)
    | _ => Undef
    end.

End Menu.
Arguments menu_item : clear implicits.
Arguments menu : clear implicits.

(** ** Text areas

    The text of a line is its memory, which ends with a zero byte somewhere. *)

Record textline := mk_line { text : list Z; len : Z; line_color : Z }.

Definition set_text (l : textline) (t : list Z) : textline := mk_line t (len l) (line_color l).
Definition set_line_color (l : textline) (c : Z) : textline := mk_line (text l) (len l) c.

(** [garbage] is what the memory held; [None] when there is none. *)
Definition textline_init (n : Z) (garbage : option (list Z)) : option textline :=
  if n <=? 0 then None else match garbage with None => None | Some g => Some (mk_line g n 0) end.

(** [strlen]: a string without an end in its memory is not defined. *)
Definition string_at (l : list Z) : outcome (list Z) := if bool_decide (0 ∈ l) then Ok (c_string l) else Undef.

Definition TAF_TOPTODOWN : Z := 0x1.
Definition TAF_LIFO : Z := 0x2.

Record textarea := mk_ta {
  ta_win : window;
  text_color : Z;
  lines : list (option textline);
  nr_lines : Z;
  cur_line : Z;
  ta_x : Z;
  ta_y : Z;
  ta_width : Z;
  ta_height : Z;
  ta_flags : Z
}.

Definition set_lines (ta : textarea) (l : list (option textline)) (cur : Z) : textarea :=
  mk_ta (ta_win ta) (text_color ta) l (nr_lines ta) cur (ta_x ta) (ta_y ta) (ta_width ta) (ta_height ta) (ta_flags ta).

(** [garbage]: the memory that each line gets. *)
Definition textarea_init (memory : bool * bool) (garbage : nat -> option (list Z)) (win : option window)
    (x y width height flags text_color : Z) : outcome (option textarea) :=
  match win with
  | None => Ok None
  | Some w =>
      if (width <=? 0) || (width <? font_height w) then Ok None
      else if negb (fst memory) then Ok None
      else
        let! n := div height (font_height w) in
        if negb (snd memory) then Ok None
        else
          let! chars := if 0 <? n then div width (font_width w) else Ok 0 in
          Ok (Some (mk_ta w text_color (map (fun i => textline_init (chars + 1) (garbage i)) (seq 0 (Z.to_nat n))) n (-1) x y width height flags))
  end.

(** [lines[i]] *)
Definition line_at (ta : textarea) (i : Z) : outcome (option textline) :=
  if i <? 0 then Undef else match lines ta !! Z.to_nat i with Some l => Ok l | None => Undef end.

(** The bytes of a piece, as they are stored in the memory of a line. *)
Definition fill_line (l : textline) (pos : list Z) (n : Z) : outcome textline :=
  let mem := replicate (Z.to_nat (len l)) 0 in
  let k := if n <? len l then n else len l in
  if (k <? 0) || (zlen pos <? k) then Undef
  else
    let mem := take (Z.to_nat k) pos ++ drop (Z.to_nat k) mem in
    match pos !! Z.to_nat (n - 1) with
    | Some c =>
        if n - 1 <? 0 then Undef
        else if c =? 10 then if n - 1 <? len l then Ok (set_text l (<[Z.to_nat (n - 1) := 0]> mem)) else Undef
        else Ok (set_text l mem)
    | None => Undef
    end.

Section Font.
(** [GetStringBreak]: how many of the bytes fit in the width, and where the next
    line begins. *)
Context (GetStringBreak : list Z -> Z -> Z -> Z * Z).

Fixpoint put_loop (fuel : nat) (ta : textarea) (color : Z) (pos : list Z) (length : Z) : outcome textarea :=
  match fuel with
  | O => NoFuel
  | S f =>
      if length =? 0 then Ok ta
      else
        let! cur := rem (cur_line ta + 1) (nr_lines ta) in
        let! l := line_at ta cur in
        match l with
        | None => Undef
        | Some l =>
            let '(ret_str_length, ret_next_line) := GetStringBreak pos length (ta_width ta) in
            let! l := fill_line l pos ret_str_length in
            let ta := set_lines ta (<[Z.to_nat cur := Some (set_line_color l color)]> (lines ta)) cur in
            put_loop f ta color (drop (Z.to_nat ret_next_line) pos) (length - ret_str_length)
        end
  end.

(** The line is given with its text, a string, and its color. *)
Definition textarea_putline (ta : textarea) (line : list Z) (color : Z) : outcome textarea :=
  if bool_decide (line = []) then Ok ta else put_loop (S (length line)) ta color line (zlen line).

End Font.

(** The loop over the lines: [n] are left. *)
Fixpoint refresh_loop (fuel : nat) (ta : textarea) (first i step_i y step_y : Z) : outcome (list draw) :=
  match fuel with
  | O => NoFuel
  | S f =>
      let! line := line_at ta i in
      let! i' := rem (i + step_i + nr_lines ta) (nr_lines ta) in
      let! s := match line with None => Ok [] | Some l => string_at (text l) end in
      let c := match line with None => 0 | Some l => line_color l end in
      let empty := bool_decide (s = []) in
      let! _ := line_at ta i' in
      let! rest := if i' =? first then Ok [] else refresh_loop f ta first i' step_i (if empty then y else y + step_y) step_y in
      Ok ((if empty then [] else [set_color c; DrawString s (ta_x ta) y DSTF_TOPLEFT]) ++ rest)
  end.

Definition textarea_refresh (ta : textarea) : outcome (list draw) :=
  let fh := font_height (ta_win ta) in
  let top := negb (Z.land (ta_flags ta) TAF_TOPTODOWN =? 0) in
  let lifo := negb (Z.land (ta_flags ta) TAF_LIFO =? 0) in
  let '(y, step_y) := if top then (ta_y ta, fh) else (ta_y ta + ta_height ta - fh, - fh) in
  let! i := if lifo then Ok (cur_line ta) else rem (cur_line ta + 1) (nr_lines ta) in
  let! _ := line_at ta i in
  let! l := refresh_loop (S (length (lines ta))) ta i i (if lifo then -1 else 1) y step_y in
  Ok ([set_color (color (ta_win ta)); FillRectangle (ta_x ta) (ta_y ta) (ta_width ta) (ta_height ta)] ++ l ++ [Flip]).

(** ** Bars *)

Definition BF_PROGRESS : Z := 0x1.
Definition BF_FILLOUT : Z := 0x2.
Definition BAR_BOUNCE : Z := 101.

Record bar := mk_bar {
  percent : Z;
  border_color : Z;
  border_width : Z;
  bg_color : Z;
  bar_color : Z;
  bar_x : Z;
  bar_y : Z;
  bar_width : Z;
  bar_height : Z;
  bar_flags : Z
}.

Record textbar := mk_tb {
  tb_win : window;
  tb_line : option (list Z * Z);
  tb_color : Z;
  interval : Z;
  tb_bar : bar;
  tb_x : Z;
  tb_y : Z;
  tb_width : Z;
  tb_height : Z
}.

Definition set_percent (b : bar) (p f : Z) : bar :=
  mk_bar p (border_color b) (border_width b) (bg_color b) (bar_color b) (bar_x b) (bar_y b) (bar_width b) (bar_height b) f.
Definition set_tb (t : textbar) (l : option (list Z * Z)) (b : bar) : textbar :=
  mk_tb (tb_win t) l (tb_color t) (interval t) b (tb_x t) (tb_y t) (tb_width t) (tb_height t).

Definition bar_init (memory : bool) (x y width height flags percent bg_color color border_width border_color : Z) : option bar :=
  if negb memory then None else Some (mk_bar percent border_color border_width bg_color color x y width height flags).

Definition textbar_init (memory : bool) (win : option window) (x y width height text_color interval : Z) (b : option bar) : option textbar :=
  match b, win with
  | Some b, Some w => if negb memory then None else Some (mk_tb w None text_color interval b x y width height)
  | _, _ => None
  end.

(** A round of the thread of a bouncing bar: the new place and step, and what is drawn. *)
Definition bounce_round (b : bar) (x step : Z) : Z * Z * list draw :=
  let y := bar_y b + border_width b in
  let height := bar_height b - 2 * border_width b in
  let l := [set_color (bg_color b); FillRectangle (bar_x b + border_width b) y (bar_width b - 2 * border_width b) height;
            set_color (bar_color b); FillRectangle x y (Z.quot (bar_width b) 3) height; Flip] in
  let x := x + step in
  if (bar_x b + bar_width b - border_width b <? x + Z.quot (bar_width b) 3) || (x <? bar_x b + border_width b)
  then (x - step, - step, l) else (x, step, l).

(** The thread sees [n] times that the bar still bounces. *)
Fixpoint bounce_rounds (n : nat) (b : bar) (x step : Z) : list draw :=
  let '(x, step, l) := bounce_round b x step in
  match n with O => l | S n' => l ++ bounce_rounds n' b x step end.

Definition bouncebar_refresh (n : nat) (b : bar) : list draw := bounce_rounds n b (bar_x b + border_width b) 5.

(** What is drawn, and whether the thread of a bouncing bar is started. *)
Definition textbar_refresh (tb : textbar) (text_only : bool) : outcome (list draw * bool) :=
  let b := tb_bar tb in
  let height := if text_only && negb (percent b =? 0) then bar_y b - tb_y tb else tb_height tb in
  match tb_line tb with
  | None => Undef
  | Some (line, c) =>
      let l := [set_color (color (tb_win tb)); FillRectangle (tb_x tb) (tb_y tb) (tb_width tb) height; set_color c;
                DrawString line (tb_x tb + Z.quot (tb_width tb) 2) (bar_y b - interval tb) DSTF_BOTTOMCENTER] in
      if (percent b =? 0) || text_only then Ok (l ++ [Flip], false)
      else
        let x := bar_x b + border_width b in
        let y := bar_y b + border_width b in
        let width := bar_width b - 2 * border_width b in
        let height := bar_height b - 2 * border_width b in
        let l := l ++ [set_color (border_color b); DrawRectangle (bar_x b) (bar_y b) (bar_width b) (bar_height b);
                       set_color (bg_color b); FillRectangle x y width height] in
        if negb (Z.land (bar_flags b) BF_PROGRESS =? 0) then
          let w := Z.quot (percent b * width) 100 in
          let w := if w =? 0 then if 0 <? percent b then 1 else -1 else w in
          let l := l ++ [set_color (bar_color b)] in
          if negb (Z.land (bar_flags b) BF_FILLOUT =? 0) then Ok (l ++ [FillRectangle x y w height; Flip], false)
          else
            let w := width - - w in
            let w := if w =? 0 then 1 else w in
            Ok (l ++ [FillRectangle x y width height; SetColor (R (bg_color b)) (G (bg_color b)) (B (bar_color b)) (A (bg_color b));
                      FillRectangle x y w height; Flip], false)
        else Ok (l ++ [Flip], true)
  end.

(** ** Lemmas: menus *)

Section MenuLemmas.
Context {handler : Type}.
Implicit Types m : menu handler.

(** The entries of a menu are its first items. *)
Record menu_ok m (l : list (menu_item handler)) : Prop := {
  mo_items : items m = map Some l ++ replicate (Z.to_nat (max_items m) - length l) None;
  mo_nr : nr_items m = zlen l;
  mo_max : zlen l <= max_items m < 2 ^ 30;
  mo_selected : 0 <= selected m < Z.max 1 (zlen l)
}.

(** The row of the selected item has its background, and its own text. *)
Definition row m (i : Z) (it : menu_item handler) : list draw :=
  let y := menu_y m + i * font_height (menu_win m) in
  (if i =? selected m then
     [set_color (hl_bg_color m); FillRectangle (menu_x m) y (menu_width m) (font_height (menu_win m)); set_color (hl_fg_color m)]
   else [set_color (item_color it)]) ++ [DrawString (item_text it) 0 y DSTF_TOPLEFT].

Fixpoint rows m (i : Z) (l : list (menu_item handler)) : list draw :=
  match l with [] => [] | it :: l' => row m i it ++ rows m (i + 1) l' end.

Lemma items_loop_rows m n : forall l i y, i + zlen l = nr_items m -> y = menu_y m + i * font_height (menu_win m) ->
  items_loop m (map Some l ++ replicate n None) i y = rows m i l.
Proof.
  induction l as [|it l IH]; intros i y Hi ->; [by destruct n|]. rewrite zlen_cons in Hi. pose proof (zlen_nonneg l).
  cbn [map app items_loop rows]. rewrite (proj2 (Z.ltb_lt i (nr_items m))) by lia. unfold row. rewrite <- app_assoc. do 2 f_equal.
  cbn [app]. f_equal. apply IH; lia.
Qed.

Lemma menu_refresh_rows m l : menu_ok m l -> menu_refresh m =
  [set_color (color (menu_win m)); FillRectangle (menu_x m) (menu_y m) (menu_width m) (menu_height m - font_height (menu_win m))] ++
  rows m 0 l ++ [Flip].
Proof. intros [H1 H2 H3 H4]. unfold menu_refresh. rewrite H1, items_loop_rows by lia. reflexivity. Qed.

Lemma menu_init_ok w x y width height c c1 c2 : 0 < width -> 0 < height < 2 ^ 30 -> 0 < font_height w ->
  exists m, menu_init (true, true) (Some w) x y width height c c1 c2 = Ok (Some m) /\ menu_ok m [] /\ max_items m = height / font_height w /\
    menu_win m = w /\ menu_color m = c.
Proof.
  intros Hw Hh Hf. unfold menu_init, div. rewrite (proj2 (Z.leb_gt width 0)), (proj2 (Z.leb_gt height 0)), (proj2 (Z.eqb_neq _ 0)) by lia.
  cbn [orb fst snd negb obind]. rewrite Z.quot_div_nonneg by lia. eexists. split; [reflexivity|]. split; [|auto].
  assert (0 <= height / font_height w <= height) by (split; [apply Z.div_pos; lia|apply Z.div_le_upper_bound; nia]).
  split; cbn; [f_equal; lia|reflexivity|unfold zlen; cbn; lia|unfold zlen; cbn; lia].
Qed.

(** A new item is behind the others; a full menu refuses it. *)
Lemma menu_newitem_ok m l t c h : menu_ok m l -> t <> [] ->
  let '(m', r) := menu_newitem true (Some m) (Some (t, c)) h in
  if zlen l =? max_items m then m' = Some m /\ r = -1
  else exists m1, m' = Some m1 /\ r = 0 /\ menu_ok m1 (l ++ [mk_item t c h]) /\ max_items m1 = max_items m /\ selected m1 = selected m.
Proof.
  intros [H1 H2 H3 H4] Ht. unfold menu_newitem. rewrite bool_decide_eq_false_2 by done. rewrite H2.
  destruct (Z.eqb_spec (zlen l) (max_items m)) as [E|E]; [auto|]. cbn [negb]. eexists. split; [reflexivity|]. split; [reflexivity|].
  pose proof (zlen_nonneg l). rewrite s32_id by lia. split; [|split; reflexivity]. split; cbn [set_items items nr_items max_items selected].
  - rewrite H1. unfold zlen in *. rewrite Nat2Z.id. replace (Z.to_nat (max_items m) - length l)%nat with (S (Z.to_nat (max_items m) - S (length l))) by lia.
    replace (length l) with (length (map (@Some (menu_item handler)) l) + 0)%nat at 1 by (rewrite length_map; lia). rewrite insert_app_r. cbn [replicate insert list_insert].
    rewrite map_app, <- app_assoc. cbn [map app]. do 3 f_equal. rewrite length_app. cbn [length]. lia.
  - rewrite zlen_app. reflexivity.
  - rewrite zlen_app. change (zlen [mk_item t c h]) with 1. lia.
  - rewrite zlen_app. change (zlen [mk_item t c h]) with 1. lia.
Qed.

Lemma menu_selected_ok m l sel : menu_ok m l -> l <> [] -> - zlen l <= sel < 2 ^ 30 ->
  menu_selected m sel = Ok (set_selected m (sel mod zlen l), 0, menu_refresh (set_selected m (sel mod zlen l))) /\
  menu_ok (set_selected m (sel mod zlen l)) l.
Proof.
  intros [H1 H2 H3 H4] Hl Hs. assert (0 < zlen l) as Hp by (destruct l; [done|rewrite zlen_cons; pose proof (zlen_nonneg l); lia]).
  unfold menu_selected, rem. rewrite H2, s32_id by lia. rewrite (proj2 (Z.ltb_ge _ 0)), (proj2 (Z.eqb_neq (zlen l) 0)) by lia. cbn [obind].
  rewrite Z.rem_mod_nonneg by lia. replace ((sel + zlen l) mod zlen l) with (sel mod zlen l) by (rewrite <- (Z.mod_add sel 1) by lia; f_equal; lia).
  split; [reflexivity|]. pose proof (Z.mod_pos_bound sel (zlen l) Hp). split; cbn; auto; lia.
Qed.

(** The keys of the volume: [true] is down. *)
Fixpoint press m (keys : list bool) : outcome (menu handler * list draw) :=
  match keys with
  | [] => Ok (m, menu_refresh m)
  | k :: keys' => let! (m, _, _) := menu_update m (if k then 1 else -1) in press m keys'
  end.

Definition moves (keys : list bool) : Z := zlen (List.filter id keys) - zlen (List.filter negb keys).

Lemma moves_cons k keys : moves (k :: keys) = (if k then 1 else -1) + moves keys.
Proof. unfold moves. destruct k; cbn [List.filter id negb]; rewrite zlen_cons; lia. Qed.

Lemma press_spec l keys : l <> [] -> forall m, menu_ok m l ->
  exists m', press m keys = Ok (m', menu_refresh m') /\ m' = set_selected m ((selected m + moves keys) mod zlen l) /\ menu_ok m' l.
Proof.
  intros Hl. assert (0 < zlen l) as Hp by (destruct l; [done|rewrite zlen_cons; pose proof (zlen_nonneg l); lia]).
  induction keys as [|k keys IH]; intros m Hm; cbn [press]; pose proof Hm as [H1 H2 H3 H4].
  { exists m. split; [reflexivity|]. split; [|exact Hm]. change (moves []) with 0. rewrite Z.add_0_r, Z.mod_small by lia. by destruct m. }
  unfold menu_update. assert (-1 <= (if k then 1 else -1) <= 1) as Hk by (destruct k; lia). rewrite s32_id by lia.
  destruct (menu_selected_ok m l (selected m + (if k then 1 else -1)) Hm Hl ltac:(lia)) as (-> & Hm1). cbn [obind].
  destruct (IH _ Hm1) as (m' & -> & E & Hm'). exists m'. split; [reflexivity|]. split; [|exact Hm']. rewrite E. unfold set_selected. cbn. f_equal.
  rewrite Z.add_mod_idemp_l, moves_cons by lia. f_equal. lia.
Qed.

Lemma menu_action_ok m l : menu_ok m l -> l <> [] -> exists it, l !! Z.to_nat (selected m) = Some it /\ menu_action m = Ok (item_handler it).
Proof.
  intros [H1 H2 H3 H4] Hl. assert (0 < zlen l) as Hp by (destruct l; [done|rewrite zlen_cons; pose proof (zlen_nonneg l); lia]).
  destruct (lookup_lt_is_Some_2 l (Z.to_nat (selected m))) as (it & E); [unfold zlen in *; lia|]. exists it. split; [exact E|].
  unfold menu_action. rewrite (proj2 (Z.ltb_ge _ 0)), (proj2 (Z.leb_gt _ _)) by lia. cbn [orb]. rewrite H1.
  rewrite lookup_app_l by (rewrite length_map; unfold zlen in *; lia). rewrite list_lookup_fmap, E. reflexivity.
Qed.

End MenuLemmas.

(** ** Lemmas: strings in memory *)

Lemma c_string_end s l : 0 ∉ s -> c_string (s ++ 0 :: l) = s.
Proof.
  induction s as [|c s IH]; intros H; [reflexivity|]. apply not_elem_of_cons in H as (Hc & H). cbn [app c_string].
  rewrite (proj2 (Z.eqb_neq c 0)) by auto. by rewrite IH.
Qed.

Lemma string_at_end s l : 0 ∉ s -> string_at (s ++ 0 :: l) = Ok s.
Proof.
  intros H. unfold string_at. rewrite bool_decide_eq_true_2 by (apply elem_of_app; right; left). by rewrite c_string_end.
Qed.

(** What is kept of the first [n] characters: a newline at their end is removed. *)
Definition piece (pos : list Z) (n : Z) : list Z :=
  let p := take (Z.to_nat n) pos in if bool_decide (last p = Some 10) then removelast p else p.

Lemma fill_line_spec l pos n : 1 <= n <= zlen pos -> 0 ∉ pos -> zlen (piece pos n) < len l ->
  exists rest, fill_line l pos n = Ok (set_text l (piece pos n ++ 0 :: rest)).
Proof.
  intros Hn Hz Hp. unfold fill_line. unfold zlen in *.
  assert (exists p c, take (Z.to_nat n) pos = p ++ [c] /\ length p = Z.to_nat (n - 1)) as (p & c & Ep & Lp).
  { assert (length (take (Z.to_nat n) pos) = Z.to_nat n) as L by (rewrite length_take; lia). destruct (take (Z.to_nat n) pos) as [|c p _] using rev_ind; [cbn in L; lia|].
    exists p, c. rewrite length_app in L. cbn in L. split; [reflexivity|lia]. }
  assert (pos !! Z.to_nat (n - 1) = Some c) as Ec.
  { rewrite <- (take_drop (Z.to_nat n) pos), Ep, <- app_assoc, <- Lp, lookup_app_r, Nat.sub_diag by lia. reflexivity. }
  unfold piece in *. rewrite Ep, last_snoc in *. rewrite Ec, (proj2 (Z.ltb_ge (n - 1) 0)) by lia.
  destruct (Z.eqb_spec c 10) as [->|Hc].
  - rewrite bool_decide_eq_true_2 in * by done. rewrite removelast_last in *.
    assert ((if n <? len l then n else len l) = n) as -> by (destruct (Z.ltb_spec n (len l)); lia).
    rewrite (proj2 (Z.ltb_ge n 0)), (proj2 (Z.ltb_ge _ n)), (proj2 (Z.ltb_lt (n - 1) (len l))) by lia. cbn [orb].
    rewrite Ep, <- app_assoc. exists (drop (Z.to_nat n) (replicate (Z.to_nat (len l)) 0)). do 2 f_equal.
    replace (Z.to_nat (n - 1)) with (length p + 0)%nat by lia. rewrite insert_app_r. reflexivity.
  - rewrite bool_decide_eq_false_2 in * by congruence. rewrite length_app in Hp. cbn [length] in Hp.
    rewrite (proj2 (Z.ltb_lt n (len l))) by lia. rewrite (proj2 (Z.ltb_ge n 0)), (proj2 (Z.ltb_ge _ n)) by lia. cbn [orb].
    rewrite Ep. rewrite drop_replicate.
    destruct (Z.to_nat (len l) - Z.to_nat n)%nat as [|k] eqn:Ek; [lia|]. exists (replicate k 0). reflexivity.
Qed.

Lemma piece_plain pos n : 0 ∉ pos -> 0 ∉ piece pos n.
Proof.
  intros H Hin. apply H. unfold piece in Hin. case_bool_decide.
  - destruct (take (Z.to_nat n) pos) as [|c p _] eqn:E using rev_ind; [by inversion Hin|]. rewrite removelast_last in Hin.
    rewrite <- (take_drop (Z.to_nat n) pos), E. apply elem_of_app. left. apply elem_of_app. by left.
  - rewrite <- (take_drop (Z.to_nat n) pos). apply elem_of_app. by left.
Qed.

(** ** Lemmas: the ring of lines *)

Definition rot {A} (k : nat) (l : list A) : list A := drop k l ++ take k l.

Lemma rot_all {A} (l : list A) : rot (length l) l = l.
Proof. unfold rot. by rewrite drop_all, firstn_all. Qed.

Lemma rot_put {A} (l : list A) k x : (k < length l)%nat -> rot (S k) (<[k := x]> l) = tail (rot k l) ++ [x].
Proof.
  intros H. destruct (lookup_lt_is_Some_2 l k H) as (y & Hy). apply list_elem_of_split_length in Hy as (a & b & -> & ->).
  replace (length a) with (length a + 0)%nat at 2 by lia. rewrite insert_app_r. unfold rot. cbn [insert list_insert].
  rewrite !drop_app_length, !take_app_length. change (a ++ x :: b) with (a ++ [x] ++ b). rewrite app_assoc.
  replace (S (length a)) with (length (a ++ [x])) by (rewrite length_app; cbn; lia). rewrite drop_app_length, take_app_length.
  cbn [app tail]. by rewrite <- app_assoc.
Qed.

(** A line that shows a string. *)
Definition shows (L : Z) (l : option textline) (v : list Z * Z) : Prop :=
  exists t rest, l = Some t /\ len t = L /\ text t = v.1 ++ 0 :: rest /\ (0 ∉ v.1) /\ line_color t = v.2.

(** The strings of an area, the oldest one first. *)
Record ta_shows (ta : textarea) (L : Z) (v : list (list Z * Z)) : Prop := {
  ts_nr : nr_lines ta = zlen (lines ta);
  ts_size : 0 < nr_lines ta;
  ts_cur : -1 <= cur_line ta < nr_lines ta;
  ts_view : Forall2 (shows L) (rot (Z.to_nat (cur_line ta + 1)) (lines ta)) v
}.

(** A piece is put in the place of the oldest line. *)
Lemma put_one ta L v t s c : ta_shows ta L v -> len t = L -> text t = s ++ 0 :: c -> 0 ∉ s ->
  forall k, k = Z.rem (cur_line ta + 1) (nr_lines ta) ->
  ta_shows (set_lines ta (<[Z.to_nat k := Some t]> (lines ta)) k) L (tail v ++ [(s, line_color t)]) /\ (0 <= k) /\ (Z.to_nat k < length (lines ta))%nat.
Proof.
  intros [H1 H2 H3 H4] Hl Ht Hs k ->. unfold zlen in *. set (k := Z.rem _ _). assert (0 <= k < nr_lines ta) as Hk by (subst k; rewrite Z.rem_mod_nonneg by lia; apply Z.mod_pos_bound; lia).
  assert (rot (Z.to_nat (cur_line ta + 1)) (lines ta) = rot (Z.to_nat k) (lines ta)) as Er.
  { subst k. destruct (Z.eq_dec (cur_line ta + 1) (nr_lines ta)) as [E|E].
    - rewrite E, Z.rem_same by lia. rewrite H1, Nat2Z.id, rot_all. unfold rot. cbn. by rewrite app_nil_r.
    - by rewrite Z.rem_small by lia. }
  split; [|lia]. split; cbn [set_lines nr_lines lines cur_line]; try (unfold zlen; rewrite length_insert); try lia.
  replace (Z.to_nat (k + 1)) with (S (Z.to_nat k)) by lia. rewrite rot_put by lia. rewrite Er in H4. apply Forall2_app.
  - destruct H4; [constructor|assumption].
  - constructor; [|constructor]. exists t, c. auto.
Qed.


(** ** Lemmas: putting text *)

Section Breaks.
Context (GetStringBreak : list Z -> Z -> Z -> Z * Z).

(** What the code relies on: some of the text is taken, the next line begins behind it, and what is shown of a piece
    is shorter than the memory of a line. *)
Definition break_ok (width L : Z) : Prop := forall pos, pos <> [] -> 0 ∉ pos ->
  let '(n, next) := GetStringBreak pos (zlen pos) width in 1 <= n <= zlen pos /\ next = n /\ zlen (piece pos n) < L.

(** The pieces of a text. *)
Fixpoint pieces (fuel : nat) (width : Z) (pos : list Z) : list (list Z) :=
  match fuel, pos with
  | S f, _ :: _ => let n := fst (GetStringBreak pos (zlen pos) width) in piece pos n :: pieces f width (drop (Z.to_nat n) pos)
  | _, _ => []
  end.

Definition pieces_of (width : Z) (line : list Z) : list (list Z) := pieces (length line) width line.

(** The last [length v] of the strings [v] and [l]. *)
Definition scroll {A} (v l : list A) : list A := drop (length l) (v ++ l).

Lemma scroll_cons {A} (v l : list A) x : v <> [] -> scroll (tail v ++ [x]) l = scroll v (x :: l).
Proof. destruct v as [|y v]; [done|]. intros _. unfold scroll. cbn [tail app length drop]. by rewrite <- app_assoc. Qed.

Lemma scroll_length {A} (v l : list A) : length (scroll v l) = length v.
Proof. unfold scroll. rewrite length_drop, length_app. lia. Qed.

Lemma scroll_app {A} (v l1 l2 : list A) : v <> [] -> scroll (scroll v l1) l2 = scroll v (l1 ++ l2).
Proof.
  revert v. induction l1 as [|x l1 IH]; intros v Hv; [unfold scroll at 2; cbn [length drop app]; by rewrite app_nil_r|]. cbn [app]. rewrite <- !scroll_cons by done. apply IH.
  destruct v as [|y [|z v]]; done.
Qed.

Lemma put_loop_spec w L color : break_ok w L -> forall n fuel ta v pos, (length pos <= n)%nat -> (n < fuel)%nat -> ta_width ta = w -> 0 ∉ pos -> ta_shows ta L v ->
  exists ta', put_loop GetStringBreak fuel ta color pos (zlen pos) = Ok ta' /\
    ta_shows ta' L (scroll v (map (fun p => (p, color)) (pieces n w pos))) /\ (pos <> [] \/ 0 <= cur_line ta -> 0 <= cur_line ta') /\
    ta' = set_lines ta (lines ta') (cur_line ta').
Proof.
  intros Hb. induction n as [|n IH]; intros [|f] ta v pos Hn Hf Hw Hz Hv; try lia; cbn [put_loop].
  - destruct pos; [|cbn in Hn; lia]. cbn. exists ta. rewrite app_nil_r. repeat split; try apply Hv; [tauto|by destruct ta].
  - destruct pos as [|c pos]; [cbn; exists ta; rewrite app_nil_r; repeat split; try apply Hv; [tauto|by destruct ta]|].
    assert (0 < zlen (c :: pos)) as Hp by (rewrite zlen_cons; pose proof (zlen_nonneg pos); lia).
    rewrite (proj2 (Z.eqb_neq _ 0)) by lia. cbn [pieces]. pose proof (Hb (c :: pos) ltac:(done) Hz) as H. rewrite <- Hw in *.
    destruct (GetStringBreak (c :: pos) (zlen (c :: pos)) (ta_width ta)) as [k next] eqn:Eb. destruct H as (Hk & -> & Hl). cbn [fst].
    set (text := c :: pos) in *. pose proof (ts_size _ _ _ Hv) as Hs. unfold rem. rewrite (proj2 (Z.eqb_neq _ 0)) by lia. cbn [obind].
    set (i := Z.rem (cur_line ta + 1) (nr_lines ta)). assert (0 <= i /\ (Z.to_nat i < length (lines ta))%nat) as (Hi & Hi2).
    { pose proof (ts_cur _ _ _ Hv). pose proof (ts_nr _ _ _ Hv). subst i. unfold zlen in *. rewrite Z.rem_mod_nonneg by lia.
      pose proof (Z.mod_pos_bound (cur_line ta + 1) (nr_lines ta) Hs). lia. }
    unfold line_at. rewrite (proj2 (Z.ltb_ge i 0)) by lia. destruct (lookup_lt_is_Some_2 _ _ Hi2) as (o & Eo). rewrite Eo. cbn [obind].
    assert (exists t, o = Some t /\ len t = L) as (t & -> & Hlen).
    { assert (o ∈ rot (Z.to_nat (cur_line ta + 1)) (lines ta)) as Hin.
      { unfold rot. rewrite elem_of_app. rewrite <- (take_drop (Z.to_nat (cur_line ta + 1)) (lines ta)) in Eo. apply list_elem_of_lookup_2, elem_of_app in Eo. tauto. }
      apply list_elem_of_lookup in Hin as (j & Hj). destruct (Forall2_lookup_l _ _ _ _ _ (ts_view _ _ _ Hv) Hj) as (y & _ & (t & r & -> & Ht & _)). eauto. }
    destruct (fill_line_spec t text k Hk Hz ltac:(lia)) as (rest & ->). cbn [obind].
    destruct (put_one ta L v (set_line_color (set_text t (piece text k ++ 0 :: rest)) color) (piece text k) rest Hv Hlen eq_refl (piece_plain _ _ Hz) i eq_refl) as (H1 & _ & _).
    set (ta1 := set_lines ta _ _) in *. replace (zlen text - k) with (zlen (drop (Z.to_nat k) text)) by (unfold zlen in *; rewrite length_drop; lia).
    assert (0 ∉ drop (Z.to_nat k) text) as Hz' by (intros H; apply Hz; rewrite <- (take_drop (Z.to_nat k) text); apply elem_of_app; by right).
    assert (length (drop (Z.to_nat k) text) <= n)%nat as Hn' by (rewrite length_drop; unfold zlen in Hk; lia).
    destruct (IH f ta1 _ (drop (Z.to_nat k) text) Hn' ltac:(lia) eq_refl Hz' H1) as (ta' & E & H2 & Hc & H3).
    + exists ta'. split; [exact E|]. split; [|split; [|by rewrite H3 at 1]].
      * cbn [map]. rewrite <- scroll_cons; [exact H2|]. pose proof (Forall2_length _ _ _ (ts_view _ _ _ Hv)) as El. unfold rot in El.
        rewrite length_app, length_drop, length_take in El. intros ->. cbn in El. lia.
      * intros _. apply Hc. right. subst ta1. cbn [set_lines cur_line]. lia.
Qed.
End Breaks.

(** ** Lemmas: drawing the lines *)

(** The strings that are not empty, from [y] on. *)
Fixpoint shown (x y step : Z) (l : list (list Z * Z)) : list draw :=
  match l with
  | [] => []
  | (s, c) :: l' => if bool_decide (s = []) then shown x y step l' else [set_color c; DrawString s x y DSTF_TOPLEFT] ++ shown x (y + step) step l'
  end.

Lemma rot_lookup {A} (l : list A) k i : (k <= length l)%nat -> (i < length l)%nat -> rot k l !! i = l !! ((k + i) mod length l)%nat.
Proof.
  intros Hk Hi. unfold rot. destruct (Nat.lt_ge_cases (k + i) (length l)) as [H|H].
  - rewrite Nat.mod_small by lia. rewrite lookup_app_l by (rewrite length_drop; lia). apply lookup_drop.
  - rewrite lookup_app_r by (rewrite length_drop; lia). rewrite length_drop. rewrite lookup_take_lt by lia.
    f_equal. apply (Nat.mod_unique _ _ 1); lia.
Qed.

(** The [j]-th line that is visited is the [j]-th of [w]. *)
Definition visits (ta : textarea) (L first step : Z) (w : list (list Z * Z)) : Prop :=
  forall j x, w !! j = Some x -> exists o, line_at ta ((first + step * Z.of_nat j) mod nr_lines ta) = Ok o /\ shows L o x.

Lemma rem_next i step n : 0 < n -> 0 <= i < n -> -1 <= step <= 1 -> rem (i + step + n) n = Ok ((i + step) mod n).
Proof.
  intros Hn Hi Hs. unfold rem. rewrite (proj2 (Z.eqb_neq n 0)) by lia. rewrite Z.rem_mod_nonneg by lia. f_equal.
  rewrite <- (Z.mod_add (i + step) 1) by lia. f_equal. lia.
Qed.

(** The loop is back at its beginning after all lines, and not before. *)
Lemma back_at_first first step j n : step = 1 \/ step = -1 -> 0 <= first < n -> 0 < j <= n ->
  ((first + step * j) mod n =? first) = (j =? n).
Proof.
  intros Hs Hf Hj. destruct (Z.eqb_spec j n) as [->|Hne].
  - apply Z.eqb_eq. rewrite Z.mul_comm, (Z.add_comm first), Z.add_comm. rewrite Z.mul_comm, Z.mod_add by lia. by apply Z.mod_small.
  - apply Z.eqb_neq. intros E. destruct Hs as [->| ->].
    + destruct (Z.lt_ge_cases (first + j) n); [rewrite Z.mod_small in E; lia|].
      rewrite <- (Z.mod_add _ (-1)), Z.mod_small in E; lia.
    + destruct (Z.lt_ge_cases (first - j) 0); [|rewrite Z.mod_small in E; lia].
      rewrite <- (Z.mod_add _ 1), Z.mod_small in E; lia.
Qed.

Lemma refresh_loop_spec ta L first step sy w : step = 1 \/ step = -1 -> nr_lines ta = zlen w -> 0 <= first < nr_lines ta -> visits ta L first step w ->
  forall n fuel j y, (n = length w - j)%nat -> (j < length w)%nat -> (n <= fuel)%nat ->
  refresh_loop fuel ta first ((first + step * Z.of_nat j) mod nr_lines ta) step y sy = Ok (shown (ta_x ta) y sy (drop j w)).
Proof.
  intros Hstep Hn Hf Hv. induction n as [|n IH]; intros [|f] j y En Hj Hfuel; try lia. cbn [refresh_loop].
  destruct (lookup_lt_is_Some_2 w j Hj) as ([s c] & Ew). rewrite (drop_S w (s, c) j Ew).
  destruct (Hv j _ Ew) as (o & -> & t & rest & -> & _ & Ht & Hz & Hc). cbn [fst snd] in *. cbn [obind]. unfold zlen in Hn.
  assert (0 < nr_lines ta) as Hp by lia. pose proof (Z.mod_pos_bound (first + step * Z.of_nat j) (nr_lines ta) Hp) as Hb.
  rewrite rem_next by lia. cbn [obind]. rewrite Ht, string_at_end by done. cbn [obind]. rewrite Z.add_mod_idemp_l by lia.
  replace (first + step * Z.of_nat j + step) with (first + step * Z.of_nat (S j)) by lia.
  rewrite back_at_first by (auto; lia). cbn [shown]. rewrite Hc.
  destruct (Z.eqb_spec (Z.of_nat (S j)) (nr_lines ta)) as [E|E].
  - destruct (lookup_lt_is_Some_2 w 0) as (x0 & E0); [lia|]. destruct (Hv 0%nat _ E0) as (o & Eo & _).
    assert ((first + step * Z.of_nat (S j)) mod nr_lines ta = (first + step * Z.of_nat 0) mod nr_lines ta) as ->.
    { pose proof (back_at_first first step (Z.of_nat (S j)) (nr_lines ta) Hstep Hf ltac:(lia)) as H. rewrite (proj2 (Z.eqb_eq _ _) E) in H. apply Z.eqb_eq in H.
      rewrite H, Z.mul_0_r, Z.add_0_r, Z.mod_small by lia. reflexivity. }
    rewrite Eo. cbn [obind]. rewrite drop_ge by lia. cbn [shown]. case_bool_decide; reflexivity.
  - destruct (lookup_lt_is_Some_2 w (S j)) as (x1 & E1); [lia|]. destruct (Hv (S j) _ E1) as (o & Eo & _). rewrite Eo. cbn [obind].
    rewrite IH by lia. cbn [obind]. case_bool_decide; reflexivity.
Qed.

Lemma refresh_from ta L first step sy w y fuel : step = 1 \/ step = -1 -> nr_lines ta = zlen w -> 0 <= first < nr_lines ta -> visits ta L first step w ->
  (length w <= fuel)%nat -> refresh_loop fuel ta first first step y sy = Ok (shown (ta_x ta) y sy w) /\ exists o, line_at ta first = Ok o.
Proof.
  intros Hs Hn Hf Hv Hfuel. unfold zlen in Hn.
  pose proof (refresh_loop_spec ta L first step sy w Hs Hn Hf Hv (length w) fuel 0 y ltac:(lia) ltac:(lia) Hfuel) as R.
  rewrite Z.mul_0_r, Z.add_0_r, Z.mod_small in R by lia. split; [exact R|].
  destruct (lookup_lt_is_Some_2 w 0) as (x & E); [lia|]. destruct (Hv 0%nat x E) as (o & Eo & _). exists o.
  by rewrite Z.mul_0_r, Z.add_0_r, Z.mod_small in Eo by lia.
Qed.

Lemma shows_visits ta L v : ta_shows ta L v ->
  visits ta L (Z.rem (cur_line ta + 1) (nr_lines ta)) 1 v /\ (0 <= cur_line ta -> visits ta L (cur_line ta) (-1) (reverse v)).
Proof.
  intros [H1 H2 H3 H4]. set (k := Z.to_nat (cur_line ta + 1)). assert (length (rot k (lines ta)) = length (lines ta)) as Lr.
  { unfold rot. rewrite length_app, length_drop, length_take. lia. }
  pose proof (Forall2_length _ _ _ H4) as Lv. fold k in Lv, H4. rewrite Lr in Lv. unfold zlen in H1.
  assert (forall j x, v !! j = Some x -> exists o, line_at ta ((cur_line ta + 1 + Z.of_nat j) mod nr_lines ta) = Ok o /\ shows L o x) as G.
  { intros j x Ex. destruct (Forall2_lookup_r _ _ _ _ _ H4 Ex) as (o & Eo & Ho). exists o. split; [|exact Ho].
    pose proof (lookup_lt_Some _ _ _ Ex) as Hj. rewrite rot_lookup in Eo by (unfold k; lia).
    unfold line_at. rewrite (proj2 (Z.ltb_ge _ 0)) by (apply Z.mod_pos_bound; lia).
    replace (Z.to_nat ((cur_line ta + 1 + Z.of_nat j) mod nr_lines ta)) with ((k + j) mod length (lines ta))%nat; [by rewrite Eo|].
    rewrite H1. apply Nat2Z.inj. rewrite Nat2Z.inj_mod, Nat2Z.inj_add, Z2Nat.id by (apply Z.mod_pos_bound; lia). unfold k. rewrite Z2Nat.id by lia. reflexivity. }
  split.
  - intros j x Ex. rewrite Z.rem_mod_nonneg, Z.mul_1_l, Z.add_mod_idemp_l by lia. by apply G.
  - intros Hc j x Ex. pose proof (lookup_lt_Some _ _ _ Ex) as Hj. rewrite length_reverse in Hj.
    assert (v !! (length v - S j)%nat = Some x) as Ev by (rewrite reverse_lookup in Ex by lia; exact Ex).
    destruct (G _ _ Ev) as (o & Eo & Ho). exists o. split; [|exact Ho]. rewrite <- Eo. f_equal.
    rewrite <- (Z.mod_add (cur_line ta + -1 * Z.of_nat j) 1) by lia. f_equal. lia.
Qed.

(** An area shows its strings: from the top or from the bottom, the oldest or the newest first. *)
Lemma textarea_refresh_spec ta L v : ta_shows ta L v -> 0 <= cur_line ta ->
  textarea_refresh ta = Ok ([set_color (color (ta_win ta)); FillRectangle (ta_x ta) (ta_y ta) (ta_width ta) (ta_height ta)] ++
    (let fh := font_height (ta_win ta) in
     let '(y, step) := if negb (Z.land (ta_flags ta) TAF_TOPTODOWN =? 0) then (ta_y ta, fh) else (ta_y ta + ta_height ta - fh, - fh) in
     shown (ta_x ta) y step (if negb (Z.land (ta_flags ta) TAF_LIFO =? 0) then reverse v else v)) ++ [Flip]).
Proof.
  intros Hv Hc. destruct (shows_visits ta L v Hv) as (V1 & V2). specialize (V2 Hc). pose proof Hv as [H1 H2 H3 H4].
  pose proof (Forall2_length _ _ _ H4) as Lv. unfold rot in Lv. rewrite length_app, length_drop, length_take in Lv. unfold zlen in H1.
  unfold textarea_refresh. set (fh := font_height (ta_win ta)).
  assert (forall (top : bool) yy, (let '(y, step_y) := if top then (ta_y ta, fh) else (yy, - fh) in
     let! i := if negb (Z.land (ta_flags ta) TAF_LIFO =? 0) then Ok (cur_line ta) else rem (cur_line ta + 1) (nr_lines ta) in
     let! _ := line_at ta i in refresh_loop (S (length (lines ta))) ta i i (if negb (Z.land (ta_flags ta) TAF_LIFO =? 0) then -1 else 1) y step_y) =
     Ok (let '(y, step) := if top then (ta_y ta, fh) else (yy, - fh) in
         shown (ta_x ta) y step (if negb (Z.land (ta_flags ta) TAF_LIFO =? 0) then reverse v else v))) as G.
  { intros top yy. destruct (if top then _ else _) as [y sy]. destruct (negb (Z.land (ta_flags ta) TAF_LIFO =? 0)); cbn [obind].
    - destruct (refresh_from ta L (cur_line ta) (-1) sy (reverse v) y (S (length (lines ta)))) as (R & o & ->); auto; try (unfold zlen; rewrite length_reverse; lia); lia.
    - unfold rem. rewrite (proj2 (Z.eqb_neq (nr_lines ta) 0)) by lia. cbn [obind].
      destruct (refresh_from ta L (Z.rem (cur_line ta + 1) (nr_lines ta)) 1 sy v y (S (length (lines ta)))) as (R & o & ->); auto; try (unfold zlen; lia).
      rewrite Z.rem_mod_nonneg by lia. apply Z.mod_pos_bound. lia. }
  specialize (G (negb (Z.land (ta_flags ta) TAF_TOPTODOWN =? 0)) (ta_y ta + ta_height ta - fh)).
  destruct (if negb (Z.land (ta_flags ta) TAF_TOPTODOWN =? 0) then _ else _) as [y sy].
  destruct (if negb (Z.land (ta_flags ta) TAF_LIFO =? 0) then Ok (cur_line ta) else _) as [i| | |]; cbn [obind] in *; try discriminate.
  destruct (line_at ta i) as [o| | |]; cbn [obind] in *; try discriminate. rewrite G. reflexivity.
Qed.

(** ** Lemmas: an area from the beginning *)

Definition nothing : list Z * Z := ([], 0).

Lemma scroll_nothing {A} (e : A) n l : scroll (replicate n e) l = replicate (n - length l) e ++ drop (length l - n) l.
Proof.
  unfold scroll. rewrite drop_app, length_replicate, drop_replicate. reflexivity.
Qed.

Lemma shown_nothing x step n l y : shown x y step (replicate n nothing ++ l) = shown x y step l.
Proof. induction n as [|n IH]; [reflexivity|]. exact IH. Qed.

Lemma shown_then_nothing x step n l : forall y, shown x y step (l ++ replicate n nothing) = shown x y step l.
Proof.
  induction l as [|[s c] l IH]; intros y; cbn [app shown]; [induction n as [|n IH]; [reflexivity|exact IH]|]. by rewrite !IH.
Qed.

(** The last [n] pieces. *)
Definition last_of {A} (n : nat) (l : list A) : list A := drop (length l - n) l.

Lemma shown_scroll x y step n l (lifo : bool) :
  shown x y step (if lifo then reverse (scroll (replicate n nothing) l) else scroll (replicate n nothing) l) =
  shown x y step (if lifo then reverse (last_of n l) else last_of n l).
Proof.
  rewrite scroll_nothing. destruct lifo; [|apply shown_nothing]. rewrite reverse_app, reverse_replicate. apply shown_then_nothing.
Qed.

Section Area.
Context (GetStringBreak : list Z -> Z -> Z -> Z * Z).

Fixpoint put_lines (ta : textarea) (ls : list (list Z * Z)) : outcome textarea :=
  match ls with [] => Ok ta | l :: ls' => let! ta := textarea_putline GetStringBreak ta l.1 l.2 in put_lines ta ls' end.

(** All that was put, in pieces, with the colors. *)
Definition all_pieces (width : Z) (ls : list (list Z * Z)) : list (list Z * Z) :=
  concat (map (fun l => map (fun p => (p, l.2)) (pieces_of GetStringBreak width l.1)) ls).

Lemma put_lines_spec L ls : forall ta v, break_ok GetStringBreak (ta_width ta) L -> Forall (fun l => l.1 <> [] /\ 0 ∉ l.1) ls -> ta_shows ta L v ->
  exists ta', put_lines ta ls = Ok ta' /\ ta_shows ta' L (scroll v (all_pieces (ta_width ta) ls)) /\ (ls <> [] \/ 0 <= cur_line ta -> 0 <= cur_line ta') /\
    ta' = set_lines ta (lines ta') (cur_line ta').
Proof.
  induction ls as [|[s c] ls IH]; intros ta v Hb Hl Hv; cbn [put_lines].
  { exists ta. unfold scroll, all_pieces. cbn [map concat length drop]. rewrite app_nil_r. repeat split; try apply Hv; [tauto|by destruct ta]. }
  apply Forall_cons in Hl as [(Hs & Hz) Hl]. cbn [fst snd] in *. unfold textarea_putline. rewrite bool_decide_eq_false_2 by done.
  destruct (put_loop_spec GetStringBreak (ta_width ta) L c Hb (length s) (S (length s)) ta v s ltac:(lia) ltac:(lia) eq_refl Hz Hv) as (ta1 & -> & H1 & Hc1 & E1).
  cbn [obind]. assert (ta_width ta1 = ta_width ta) as Ew by (rewrite E1; reflexivity). destruct (IH ta1 _ ltac:(rewrite Ew; exact Hb) Hl H1) as (ta' & -> & H2 & Hc2 & E2).
  exists ta'. split; [reflexivity|]. split; [|split; [intros _; apply Hc2; right; apply Hc1; by left|rewrite E2, E1; reflexivity]].
  rewrite Ew in H2. unfold all_pieces in *. cbn [map concat fst snd]. rewrite <- scroll_app; [exact H2|].
  pose proof (Forall2_length _ _ _ (ts_view _ _ _ Hv)) as El. pose proof (ts_nr _ _ _ Hv). pose proof (ts_size _ _ _ Hv). unfold rot, zlen in *.
  rewrite length_app, length_drop, length_take in El. intros ->. cbn in El. lia.
Qed.

Lemma textarea_init_spec garbage w x y width height flags tc : 0 < width -> font_height w <= width -> 0 < font_height w <= height -> height < 2 ^ 30 -> 0 < font_width w ->
  (forall i, exists rest, garbage i = Some (0 :: rest)) -> exists ta, textarea_init (true, true) garbage (Some w) x y width height flags tc = Ok (Some ta) /\
    ta_shows ta (width / font_width w + 1) (replicate (Z.to_nat (height / font_height w)) nothing) /\
    ta = mk_ta w tc (lines ta) (height / font_height w) (-1) x y width height flags.
Proof.
  intros Hw Hfw Hfh Hh Hfont Hg. unfold textarea_init, div. rewrite (proj2 (Z.leb_gt width 0)), (proj2 (Z.ltb_ge width _)), (proj2 (Z.eqb_neq (font_height w) 0)) by lia.
  cbn [orb fst snd negb obind]. rewrite !Z.quot_div_nonneg by lia. rewrite (proj2 (Z.eqb_neq (font_width w) 0)) by lia.
  assert (0 < height / font_height w) as Hn by (apply Z.div_str_pos; lia). rewrite (proj2 (Z.ltb_lt 0 _) Hn). cbn [obind].
  eexists. split; [reflexivity|]. split; [|reflexivity]. assert (0 <= width / font_width w) as Hl by (apply Z.div_pos; lia).
  split; cbn [nr_lines lines cur_line]; try lia.
  - unfold zlen. rewrite length_map, length_seq. lia.
  - change (Z.to_nat (-1 + 1)) with 0%nat. unfold rot. cbn [drop take]. rewrite app_nil_r.
    assert (forall n s, Forall2 (shows (width / font_width w + 1)) (map (fun i => textline_init (width / font_width w + 1) (garbage i)) (seq s n)) (replicate n nothing)) as G; [|apply G].
    induction n as [|n IH]; intros s; cbn [seq map replicate]; constructor; [|apply IH].
    destruct (Hg s) as (rest & ->). unfold textline_init. rewrite (proj2 (Z.leb_gt _ 0)) by lia. eexists _, rest. repeat split. cbn. set_solver.
Qed.

(** C27: An area shows the end of all that was put in it: the last pieces, as many as there are lines, from the top or from the
    bottom, the newest one first or last, each in its color. The font is not higher than the area, which is at least
    as wide as a character is high; it breaks every text into pieces that are shorter than a line's memory ([break_ok]); the
    memory of each line begins with a zero, which the code does not write (see [textarea_not_cleared]); and at least
    one line was put in it, none of them empty or with a zero in it. *)
Theorem textarea_scrolls garbage w x y width height flags tc ls : 0 < width -> font_height w <= width -> 0 < font_height w <= height ->
  height < 2 ^ 30 -> 0 < font_width w -> (forall i, exists rest, garbage i = Some (0 :: rest)) -> break_ok GetStringBreak width (width / font_width w + 1) ->
  ls <> [] -> Forall (fun l => l.1 <> [] /\ 0 ∉ l.1) ls ->
  exists ta ta', textarea_init (true, true) garbage (Some w) x y width height flags tc = Ok (Some ta) /\ put_lines ta ls = Ok ta' /\
    textarea_refresh ta' = Ok ([set_color (color w); FillRectangle x y width height] ++
      (let top := negb (Z.land flags TAF_TOPTODOWN =? 0) in
       let l := last_of (Z.to_nat (height / font_height w)) (all_pieces width ls) in
       shown x (if top then y else y + height - font_height w) (if top then font_height w else - font_height w)
         (if negb (Z.land flags TAF_LIFO =? 0) then reverse l else l)) ++ [Flip]).
Proof.
  intros H1 H2 H3 H4 H5 Hg Hb Hne Hl. destruct (textarea_init_spec garbage w x y width height flags tc) as (ta & Ei & Hv & E); auto.
  exists ta. assert (ta_width ta = width) as Ew by (rewrite E; reflexivity).
  destruct (put_lines_spec _ ls ta _ ltac:(rewrite Ew; exact Hb) Hl Hv) as (ta' & Ep & Hv' & Hc & E'). exists ta'. split; [exact Ei|]. split; [exact Ep|].
  rewrite (textarea_refresh_spec ta' _ _ Hv' (Hc (or_introl Hne))). rewrite E', E. cbn [set_lines ta_win ta_x ta_y ta_width ta_height ta_flags].
  do 3 f_equal. cbn zeta. destruct (negb (Z.land flags TAF_TOPTODOWN =? 0)); by rewrite shown_scroll.
Qed.

End Area.

(** A font whose characters are all 10 wide: a text breaks at a newline, and where the width ends. *)
Definition fixed_break (pos : list Z) (length width : Z) : Z * Z :=
  let k := width / 10 in
  let l := take (Z.to_nat (k + 1)) pos in
  let n := match TbootUtil.index_of 10 l with Some i => Z.of_nat i + 1 | None => Z.min k length end in (n, n).


Lemma index_of_some c l i : TbootUtil.index_of c l = Some i -> l !! i = Some c /\ (i < length l)%nat.
Proof.
  revert i. induction l as [|x l IH]; intros i; cbn; [discriminate|]. destruct (Z.eqb_spec x c) as [->|].
  - intros [= <-]. split; [reflexivity|lia].
  - destruct (TbootUtil.index_of c l) as [j|]; [|discriminate]. intros [= <-]. destruct (IH j eq_refl). split; [assumption|cbn; lia].
Qed.

Lemma piece_le pos n : zlen (piece pos n) <= Z.max 0 n.
Proof.
  unfold piece, zlen. case_bool_decide as H.
  - destruct (take (Z.to_nat n) pos) as [|c p _] eqn:E using rev_ind; [cbn; lia|]. rewrite removelast_last.
    pose proof (length_take pos (Z.to_nat n)) as L. rewrite E, length_app in L. cbn in L. lia.
  - rewrite length_take. lia.
Qed.

Lemma fixed_break_ok width : 10 <= width -> break_ok fixed_break width (width / 10 + 1).
Proof.
  intros Hw pos Hne _. unfold fixed_break. assert (1 <= width / 10) as Hk by (apply Z.div_le_lower_bound; lia).
  assert (1 <= zlen pos) as Hp by (destruct pos; [done|rewrite zlen_cons; pose proof (zlen_nonneg pos); lia]).
  destruct (TbootUtil.index_of 10 (take (Z.to_nat (width / 10 + 1)) pos)) as [i|] eqn:E.
  - apply index_of_some in E as (E & Hi). rewrite length_take in Hi. rewrite lookup_take_lt in E by lia. unfold zlen in *.
    split; [lia|]. split; [reflexivity|]. unfold piece, zlen. replace (Z.to_nat (Z.of_nat i + 1)) with (S i) by lia.
    rewrite (take_S_r _ _ _ E), last_snoc, bool_decide_eq_true_2, removelast_last, length_take by done. lia.
  - split; [lia|]. split; [reflexivity|]. eapply Z.le_lt_trans; [apply piece_le|]. lia.
Qed.

Definition small_window : window := mk_win 20 10 0x1111117f 0 0 50 40.

(** Two lines of five characters: the log shows the last two pieces, the newest one at the bottom. *)
Lemma textarea_scrolls_witness : exists ta ta',
  textarea_init (true, true) (fun _ => Some (replicate 6 0)) (Some small_window) 0 0 50 40 (Z.lor (-2) TAF_LIFO) 0xffffffff = Ok (Some ta) /\
  put_lines fixed_break ta [(str "first", 1); (str "a longer" ++ [10], 2)] = Ok ta' /\
  textarea_refresh ta' = Ok [set_color 0x1111117f; FillRectangle 0 0 50 40; set_color 2; DrawString (str "ger") 0 20 DSTF_TOPLEFT;
                             set_color 2; DrawString (str "a lon") 0 0 DSTF_TOPLEFT; Flip].
Proof.
  apply (textarea_scrolls fixed_break (fun _ => Some (replicate 6 0)) small_window 0 0 50 40 (Z.lor (-2) TAF_LIFO) 0xffffffff
           [(str "first", 1); (str "a longer" ++ [10], 2)]); try (cbn; lia).
  - intros i. exists (replicate 5 0). reflexivity.
  - apply (fixed_break_ok 50). lia.
  - discriminate.
  - repeat constructor; cbn [fst]; try discriminate; apply (bool_decide_eq_true_1 _); vm_compute; reflexivity.
Defined.

(** The selection follows the keys: after any presses of the volume keys on a menu with items, the selected item is
    as many places on, around the menu, as there were presses down more than up; exactly its row is highlighted, and the
    action key runs its handler. *)
Theorem menu_follows_keys {handler} (m : menu handler) l keys : menu_ok m l -> l <> [] ->
  exists m' it, press m keys = Ok (m', [set_color (color (menu_win m)); FillRectangle (menu_x m) (menu_y m) (menu_width m) (menu_height m - font_height (menu_win m))] ++
    rows m' 0 l ++ [Flip]) /\
  selected m' = (selected m + moves keys) mod zlen l /\ l !! Z.to_nat (selected m') = Some it /\ menu_action m' = Ok (item_handler it) /\ menu_ok m' l.
Proof.
  intros Hm Hl. destruct (press_spec l keys Hl m Hm) as (m' & E & Em & Hm'). destruct (menu_action_ok m' l Hm' Hl) as (it & Ei & Ea).
  exists m', it. rewrite E, (menu_refresh_rows m' l Hm'). split.
  { do 3 f_equal; rewrite Em; reflexivity. }
  split; [rewrite Em; reflexivity|]. auto.
Qed.

Definition three_items : list (menu_item nat) := [mk_item (str "Power off") 7 (Some 0%nat); mk_item (str "Reboot") 7 (Some 1%nat); mk_item (str "Boot") 7 None].

Definition three_menu : menu nat := mk_menu small_window (map Some three_items ++ replicate 1 None) 4 3 7 1 2 0 0 20 50 100.

(** Once up and three times down from the first of three items. *)
Lemma menu_follows_keys_witness : exists m' it, press three_menu [false; true; true; true] =
    Ok (m', [set_color 0x1111117f; FillRectangle 0 20 50 80] ++ rows m' 0 three_items ++ [Flip]) /\
  selected m' = (0 + 2) mod 3 /\ three_items !! Z.to_nat (selected m') = Some it /\ menu_action m' = Ok (item_handler it) /\ menu_ok m' three_items.
Proof.
  apply (menu_follows_keys three_menu three_items [false; true; true; true]); [|discriminate].
  split; [reflexivity|reflexivity|vm_compute; split; [discriminate|reflexivity]|vm_compute; split; [discriminate|reflexivity]].
Defined.

(** What [textbar_refresh] clears and writes before the bar. *)
Definition textbar_head (tb : textbar) (line : list Z) (c : Z) : list draw :=
  let b := tb_bar tb in
  [set_color (color (tb_win tb)); FillRectangle (tb_x tb) (tb_y tb) (tb_width tb) (tb_height tb); set_color c;
   DrawString line (tb_x tb + Z.quot (tb_width tb) 2) (bar_y b - interval tb) DSTF_BOTTOMCENTER;
   set_color (border_color b); DrawRectangle (bar_x b) (bar_y b) (bar_width b) (bar_height b); set_color (bg_color b)].

(** A bar that fills shows its percentage of the width, at least one column and
    never more than the room inside of the border. *)
Theorem textbar_fills tb line c : let b := tb_bar tb in let w := bar_width b - 2 * border_width b in
  tb_line tb = Some (line, c) -> bar_flags b = Z.lor BF_PROGRESS BF_FILLOUT -> 0 < percent b <= 100 -> 0 < w ->
  let x := bar_x b + border_width b in let y := bar_y b + border_width b in let h := bar_height b - 2 * border_width b in
  let n := Z.max 1 (percent b * w / 100) in
  textbar_refresh tb false = Ok (textbar_head tb line c ++ [FillRectangle x y w h; set_color (bar_color b); FillRectangle x y n h; Flip], false) /\
  1 <= n <= w.
Proof.
  intros b w Hl Hf Hp Hw x y h n. assert (percent b * w / 100 <= w) as Hn by (apply Z.div_le_upper_bound; [lia|]; rewrite (Z.mul_comm 100); rewrite Z.mul_comm; apply Z.mul_le_mono_nonneg_l; lia).
  split; [|subst n; lia]. unfold textbar_refresh. fold b. rewrite Hl, Hf. rewrite (proj2 (Z.eqb_neq (percent b) 0)) by lia. cbn [andb orb].
  change (negb (Z.land (Z.lor BF_PROGRESS BF_FILLOUT) BF_PROGRESS =? 0)) with true.
  change (negb (Z.land (Z.lor BF_PROGRESS BF_FILLOUT) BF_FILLOUT =? 0)) with true. cbn iota zeta. fold w x y h.
  assert (0 <= percent b * w) as Hpw by (apply Z.mul_nonneg_nonneg; lia).
  rewrite (Z.quot_div_nonneg (percent b * w) 100) by lia. rewrite (proj2 (Z.ltb_lt 0 (percent b))) by lia.
  assert ((if percent b * w / 100 =? 0 then 1 else percent b * w / 100) = n) as ->; [|reflexivity].
  subst n. assert (0 <= percent b * w / 100) by (apply Z.div_pos; lia). destruct (Z.eqb_spec (percent b * w / 100) 0); lia.
Qed.

(** A bouncing bar stays inside of its border. *)
Lemma bounce_round_inside b x step : let lo := bar_x b + border_width b in let hi := bar_x b + bar_width b - border_width b - Z.quot (bar_width b) 3 in
  lo <= x <= hi -> let '(x', step', l) := bounce_round b x step in lo <= x' <= hi /\ (step' = step \/ step' = - step) /\
  exists pre, l = pre ++ [FillRectangle x (bar_y b + border_width b) (Z.quot (bar_width b) 3) (bar_height b - 2 * border_width b); Flip].
Proof.
  intros lo hi Hx. unfold bounce_round. destruct (_ || _) eqn:E.
  - split; [lia|]. split; [by right|]. by eexists [_; _; _].
  - apply orb_false_iff in E as (E1 & E2). apply Z.ltb_ge in E1, E2. split; [subst lo hi; lia|]. split; [by left|]. by eexists [_; _; _].
Qed.

(** What is filled lies between the borders. *)
Definition inside (b : bar) (d : draw) : Prop :=
  match d with FillRectangle x _ w _ => bar_x b + border_width b <= x /\ x + w <= bar_x b + bar_width b - border_width b | _ => True end.

Lemma bounce_rounds_inside b n : 0 <= Z.quot (bar_width b) 3 -> forall x step,
  bar_x b + border_width b <= x <= bar_x b + bar_width b - border_width b - Z.quot (bar_width b) 3 -> Forall (inside b) (bounce_rounds n b x step).
Proof.
  intros H0. induction n as [|n IH]; intros x step Hx; cbn [bounce_rounds]; pose proof (bounce_round_inside b x step Hx) as H.
  all: assert (Forall (inside b) (snd (bounce_round b x step))) as Hd by (unfold bounce_round; destruct (_ || _); cbn [snd]; repeat constructor; cbn; lia).
  all: destruct (bounce_round b x step) as [[x' step'] l]; cbn [snd] in Hd.
  - exact Hd.
  - apply Forall_app. split; [exact Hd|]. apply IH. apply H.
Qed.

(** However long a bar bounces, it stays inside of its border. *)
Theorem bouncebar_inside b n : 2 * border_width b + Z.quot (bar_width b) 3 <= bar_width b -> 0 <= Z.quot (bar_width b) 3 ->
  Forall (inside b) (bouncebar_refresh n b).
Proof. intros Hw H0. apply bounce_rounds_inside; [exact H0|lia]. Qed.

(** ** Flaws *)

(** Drawing the log before anything was put in it reads before the array. *)
Theorem textarea_refresh_early : (let! ta := textarea_init (true, true) (fun _ => Some (replicate 6 0)) (Some small_window) 0 0 50 40 TAF_LIFO 0 in
  match ta with Some ta => textarea_refresh ta | None => Ok [] end) = Undef.
Proof. reflexivity. Qed.

(** The width is checked where the height is meant: an area without lines is made, and
    putting text divides by zero. *)
Theorem textarea_no_lines : (let! ta := textarea_init (true, true) (fun _ => Some (replicate 6 0)) (Some small_window) 0 0 50 10 TAF_LIFO 0 in
  match ta with Some ta => textarea_putline fixed_break ta (str "text") 0 | None => AssertFail end) = Undef.
Proof. reflexivity. Qed.

(** The memory of the lines is not cleared: what it held is drawn as a string. *)
Theorem textarea_not_cleared : (let! ta := textarea_init (true, true) (fun _ => Some (replicate 6 1)) (Some small_window) 0 0 50 40 TAF_LIFO 0 in
  match ta with Some ta => let! ta := textarea_putline fixed_break ta (str "text") 0 in textarea_refresh ta | None => Ok [] end) = Undef.
Proof. reflexivity. Qed.

(** A font with narrow characters: a line has memory for as many of the widest ones as fit, so that
    more of the others are cut without an end. *)
Theorem narrow_font_overflows : (let! ta := textarea_init (true, true) (fun _ => Some (replicate 6 0)) (Some small_window) 0 0 50 40 TAF_LIFO 0 in
  match ta with Some ta => let! ta := textarea_putline (fun _ n _ => (n, n)) ta (str "iiiiii") 0 in textarea_refresh ta | None => Ok [] end) = Undef.
Proof. reflexivity. Qed.

(** A bar that empties is erased in a color that takes its blue from the bar. *)
Theorem empty_bar_color : exists l, textbar_refresh (mk_tb small_window (Some (str "x", 7)) 7 5 (mk_bar (-50) 0x000000ff 1 0x333333ff 0xe74922ff 10 30 22 6 BF_PROGRESS) 0 0 50 40) false =
  Ok (l ++ [SetColor 0x33 0x33 0x22 0xff; FillRectangle 11 31 10 4; Flip], false).
Proof. eexists (_ :: _ :: _ :: _ :: _ :: _ :: _ :: _ :: _ :: [_]). reflexivity. Qed.

(** A menu without items: selecting divides by zero. *)
Theorem empty_menu_selected : menu_selected (mk_menu (handler := nat) small_window [] 0 0 7 1 2 0 0 0 50 10) 0 = Undef.
Proof. reflexivity. Qed.

End MinUi.
