(* ===== verification/TbootUi.v ===== *)
(** * src/src/tboot_ui.c: the screen of the server

    The configuration of the screen, its windows, the menu, the bar and the log. *)

From S2P Require Import Prelude Posix ConfigUtils Diskconfig ConfigParser Fastboot TbootUtil PreosReboot MinUi.

Module TbootUi.
Import ConfigUtils ConfigParser Fastboot MinUi.

(** ** Colors and sizes (theme.h) *)

Definition COLOR_FG : Z := 0xffffffff.
Definition COLOR_BG : Z := 0x000000ff.
Definition COLOR_GREY : Z := 0x333333ff.
Definition COLOR_ORANGE2 : Z := 0xf16522ff.
Definition COLOR_ORANGE3 : Z := 0xe74922ff.
Definition FONT_HEIGHT : Z := 20.
Definition OUTTER_SEPARATOR : Z := 20.
Definition INNER_SEPARATOR : Z := 5.
Definition BAR_HEIGHT : Z := 6.
Definition BAR_BORDER_WIDTH : Z := 1.
Definition INFO_LINES : Z := 3.
Definition MENU_LINES : Z := 7.
Definition ROTATE_ARG : Z := 90.
Definition WINDOW_DEF_COLOR : Z := 0x1111117f.
Definition LINE_LEN_INCHAR : Z := 256.

(** ** Configuration *)

Notation ctext := ConfigUtils.text.

Record ui_config := mk_uc {
  window_color : Z; infowin_color : Z; menuwin_color : Z; logwin_color : Z; barwin_color : Z;
  default_font_height : Z; infowin_font_height : Z; menuwin_font_height : Z; logwin_font_height : Z; barwin_font_height : Z;
  component_separator_height : Z; window_separator_height : Z; progress_bar_height : Z;
  bg_image : ctext; font_file : ctext
}.

Definition CONF_PREFIX : ctext := lit "/etc/preos/confs/tboot-ui".
Definition BGIMG_PREFIX : ctext := lit "/etc/preos/imgs/preos-logo".
Definition FONT_FILE : ctext := lit "/etc/preos/fonts/font.ttf".

(** [%d] *)
Definition dec (z : Z) : ctext := if z <? 0 then lit "-" ++ Diskconfig.dec_digits 10 (- z) else Diskconfig.dec_digits 10 z.

Definition sized (prefix ext : ctext) (width height : Z) : ctext :=
  take 4095 (prefix ++ lit "_" ++ dec width ++ lit "_" ++ dec height ++ ext).

(** [value ? strtol(value, NULL, 0) : d] *)
Definition get_long (cp : config_parser) (key : ctext) (d : Z) : outcome Z :=
  let! value := config_parser_get (Some cp) (Some key) in
  Ok (match value with Some v => u32 (Diskconfig.strtol v) | None => d end).

Definition get_string (cp : config_parser) (key d : ctext) : outcome ctext :=
  let! value := config_parser_get (Some cp) (Some key) in
  Ok (match value with Some v => take 4096 v | None => d end).

Definition read_config (cp : config_parser) (width height : Z) : outcome ui_config :=
  let! window := get_long cp (lit "window_color") WINDOW_DEF_COLOR in
  let! info := get_long cp (lit "infowin_color") window in
  let! menu := get_long cp (lit "menuwin_color") window in
  let! log := get_long cp (lit "logwin_color") window in
  let! bar := get_long cp (lit "barwin_color") window in
  let! font := get_long cp (lit "default_font_height") FONT_HEIGHT in
  let! info_h := get_long cp (lit "infowin_font_height") font in
  let! menu_h := get_long cp (lit "menuwin_font_height") font in
  let! log_h := get_long cp (lit "logwin_font_height") font in
  let! bar_h := get_long cp (lit "barwin_font_height") font in
  let! inner := get_long cp (lit "component_separator_height") INNER_SEPARATOR in
  let! outer := get_long cp (lit "window_separator_height") OUTTER_SEPARATOR in
  let! progress := get_long cp (lit "progress_bar_height") BAR_HEIGHT in
  let! file := get_string cp (lit "font") FONT_FILE in
  let! image := get_string cp (lit "bg_image") (sized BGIMG_PREFIX (lit ".png") width height) in
  Ok (mk_uc window info menu log bar font info_h menu_h log_h bar_h inner outer progress image file).

(** The parser, the configuration and the result. A name that fills the buffer has no terminator. *)
Definition tboot_ui_load_config (open : ctext -> option conf_file) (mem : bool * bool) (cp : option config_parser) (u : ui_config)
    (config : option ctext) (width height : Z) : outcome (option config_parser * ui_config * Z) :=
  let u := mk_uc (window_color u) (infowin_color u) (menuwin_color u) (logwin_color u) (barwin_color u) (default_font_height u)
             (infowin_font_height u) (menuwin_font_height u) (logwin_font_height u) (barwin_font_height u) (component_separator_height u)
             (window_separator_height u) (progress_bar_height u) (sized BGIMG_PREFIX (lit ".png") width height) FONT_FILE in
  let! fn := match config with
             | Some c => if PATH_MAX <=? zlen c then Undef else Ok c
             | None => Ok (sized CONF_PREFIX (lit ".conf") width height)
             end in
  if match cp with Some p => text_eqb fn (cp_path p) | None => false end then Ok (cp, u, 0)
  else
    let! cp := config_parser_init (Some fn) (open fn) mem in
    match cp with
    | None => Ok (None, u, -1)
    | Some p => let! u := read_config p width height in Ok (Some p, u, 0)
    end.

(** The name that the main program stores back. *)
Definition tboot_ui_getconfpath (cp : option config_parser) : option ctext :=
  match cp with None => None | Some p => Some (cp_path p) end.

(** ** Menu entries *)

Inductive ui_handler : Set := Poweroff | Reboot | RebootPreos | Start (entry : Z).

(** What the handlers of the screen do. *)
Definition run_handler (sysrq : Z) (mounts : nat -> option (list Z)) (call : PreosReboot.how -> Z) (h : ui_handler)
  : outcome (list PreosReboot.event * Z) :=
  let reboot cmd arg := let! (l, _) := PreosReboot.preos_reboot sysrq mounts call (s32 cmd) 0 arg in Ok (l, -1) in
  match h with
  | Poweroff => reboot PreosReboot.PREOS_RB_POWEROFF []
  | Reboot => reboot PreosReboot.PREOS_RB_RESTART2 (str "android")
  | RebootPreos => reboot PreosReboot.PREOS_RB_RESTART2 (str "bootloader")
  | Start _ => Ok ([], -1)
  end.

Definition menu_entries : list (list Z * ui_handler) :=
  [(str "Power off", Poweroff); (str "Reboot to normal OS", Reboot); (str "Reboot to Pre-OS (why?)", RebootPreos)].

(** [strncpy] into a line of [LINE_LEN_INCHAR] characters. *)
Definition line_text (s : list Z) : list Z := take (Z.to_nat LINE_LEN_INCHAR) s.

Fixpoint entries_loop (m : menu ui_handler) (l : list (list Z * ui_handler)) (i ret : Z) : menu ui_handler * Z :=
  match l with
  | [] => (m, ret)
  | (s, h) :: l' =>
      if (i <? max_items m) && (ret =? 0) then
        let '(m', ret) := menu_newitem true (Some m) (Some (line_text s, menu_color m)) (Some h) in
        entries_loop (default m m') l' (i + 1) ret
      else (m, ret)
  end.

(** [ret] is not set before it is looked at: [ret0] is what it holds. *)
Definition tboot_ui_menu (ret0 : Z) (m : menu ui_handler) : menu ui_handler * Z :=
  let '(m, ret) := entries_loop m menu_entries 0 ret0 in (set_selected m 0, ret).

Definition tboot_ui_menu_item (m : option (menu ui_handler)) (name : list Z) (h : option ui_handler) : option (menu ui_handler) * list draw :=
  match m with
  | None => (None, [])
  | Some menu =>
      let m := fst (menu_newitem true (Some menu) (Some (line_text name, menu_color menu)) h) in
      (m, match m with Some m => menu_refresh m | None => [] end)
  end.

(** ** The bar and the log *)

(** [vsnprintf] into a line. *)
Definition format_line (s : list Z) : list Z := TbootUtil.snprintf LINE_LEN_INCHAR s.

(** The bar, what is drawn, and whether the thread of a bouncing bar is started. *)
Definition tboot_ui_textbar (tb : option textbar) (p : Z) (memory : bool) (s : list Z) : outcome (option textbar * list draw * bool) :=
  match tb with
  | None => Ok (None, [], false)
  | Some tb =>
      if ((p <? -100) || (100 <? p)) && negb (p =? BAR_BOUNCE) then Ok (Some tb, [], false)
      else if negb memory then Ok (Some tb, [], false)
      else
        let b := tb_bar tb in
        let line := Some (format_line s, COLOR_FG) in
        if p =? percent b then
          let tb := set_tb tb line b in
          let! (l, t) := textbar_refresh tb true in Ok (Some tb, l, t)
        else
          let flags := if negb (p =? BAR_BOUNCE) then
                         let f := Z.lor (bar_flags b) BF_PROGRESS in
                         if p <? 0 then Z.land f (Z.lnot BF_FILLOUT) else Z.lor f BF_FILLOUT
                       else Z.land (bar_flags b) (Z.lnot BF_PROGRESS) in
          let tb := set_tb tb line (set_percent b p flags) in
          let! (l, t) := textbar_refresh tb false in Ok (Some tb, l, t)
  end.

Definition tboot_ui_drawstring (win : option window) (color x y : Z) (s : list Z) : list draw :=
  match win with
  | None => []
  | Some w =>
      let posx := if 0 <? x then x else 0 in
      let posy := if 0 <? y then y else 0 in
      [set_color (MinUi.color w); FillRectangle posx posy (win_width w) (font_height w);
       set_color (if color =? COLOR_BG then COLOR_FG else color); DrawString (format_line s) posx posy DSTF_TOPLEFT; Flip]
  end.

Definition tboot_ui_textline (brk : list Z -> Z -> Z -> Z * Z) (ta : textarea) (color : Z) (s : list Z) : outcome (textarea * list draw) :=
  let! ta := textarea_putline brk ta (format_line s) color in
  let! l := textarea_refresh ta in Ok (ta, l).

(** ** The windows *)
Section Windows.
(** The height and the widest character of a font of the given height. *)
Context (font : Z -> Z * Z).

Definition tboot_ui_initwindow (color h : Z) : window :=
  let w := window_init color h in
  let '(fh, fw) := font h in mk_win fh fw (MinUi.color w) 0 0 0 0.

(** The window is made as it was asked for. *)
Definition tboot_ui_setwindow (w : window) (x y width height : Z) : option window :=
  if (width <=? 0) || (height <=? 0) then None
  else Some (mk_win (font_height w) (font_width w) (color w) (if 0 <? x then x else 0) (if 0 <? y then y else 0) width height).

Record tboot_ui := mk_ui { ta_info : textarea; ui_menu : menu ui_handler; ui_tb : textbar; ta_log : textarea }.

(** The flags of the two areas. *)
Definition info_flags : Z := Z.lor TAF_TOPTODOWN (Z.lnot TAF_LIFO).
Definition log_flags : Z := Z.lor (Z.lnot TAF_TOPTODOWN) TAF_LIFO.

(** Memory is there; [clear] is what a line's memory holds, [ret0] an uninitialised
    variable. [None]: the screen cannot be set up. The title and the first drawing of the menu
    are left out: they change nothing of the state. *)
Definition tboot_ui_adjust (clear : nat -> option (list Z)) (ret0 : Z) (u : ui_config) (screen_width screen_height : Z) : outcome (option tboot_ui) :=
  let rotated := screen_height <? screen_width in
  let full := if rotated then screen_height else screen_width in
  let sep := window_separator_height u in
  let win := tboot_ui_initwindow (infowin_color u) (s32 (infowin_font_height u)) in
  match tboot_ui_setwindow win 0 0 full (s32 (INFO_LINES * font_height win)) with
  | None => Ok None
  | Some info =>
      let! a := textarea_init (true, true) clear (Some info) 0 0 (win_width info) (s32 (win_height info - infowin_font_height u)) info_flags COLOR_FG in
      match a with
      | None => Ok None
      | Some ta_info =>
          let '(x, y) := if rotated then (s32 (win_x info + win_height info + sep), 0) else (0, s32 (win_y info + win_height info + sep)) in
          let win := tboot_ui_initwindow (menuwin_color u) (s32 (menuwin_font_height u)) in
          match tboot_ui_setwindow win x y full (s32 ((MENU_LINES + 1) * font_height win)) with
          | None => Ok None
          | Some w =>
              let! m := menu_init (true, true) (Some w) 0 (font_height w) (win_width w) (win_height w) COLOR_FG COLOR_ORANGE2 COLOR_BG in
              match m with
              | None => Ok None
              | Some m =>
                  let '(m, ret) := tboot_ui_menu ret0 m in
                  if negb (ret =? 0) then Ok None
                  else
                    let win := tboot_ui_initwindow (barwin_color u) (s32 (barwin_font_height u)) in
                    let height := s32 (font_height win + component_separator_height u + progress_bar_height u) in
                    let '(x, y) := if rotated then (s32 (screen_width - height), 0) else (0, s32 (screen_height - height)) in
                    match tboot_ui_setwindow win x y full height with
                    | None => Ok None
                    | Some bw =>
                        let bar := bar_init true (Z.quot (win_width bw) 4) (s32 (win_height bw - progress_bar_height u)) (Z.quot (win_width bw) 2)
                                     (s32 (progress_bar_height u)) (Z.lor BF_PROGRESS BF_FILLOUT) 0 COLOR_GREY COLOR_ORANGE3 BAR_BORDER_WIDTH COLOR_BG in
                        match textbar_init true (Some bw) 0 0 (win_width bw) (win_height bw) COLOR_FG (s32 (component_separator_height u)) bar with
                        | None => Ok None
                        | Some tb =>
                            let height := s32 (win_height info + sep + win_height w + sep + win_height bw + sep) in
                            let '(x, y, height) :=
                              if rotated then (s32 (win_x w + win_height w + sep), 0, s32 (screen_width - height))
                              else (0, s32 (win_y w + win_height w + sep), s32 (screen_height - height)) in
                            let win := tboot_ui_initwindow (logwin_color u) (s32 (logwin_font_height u)) in
                            match tboot_ui_setwindow win x y full height with
                            | None => Ok None
                            | Some lw =>
                                let! a := textarea_init (true, true) clear (Some lw) 0 0 (win_width lw) (win_height lw) log_flags COLOR_FG in
                                match a with
                                | None => Ok None
                                | Some ta_log => Ok (Some (mk_ui ta_info m tb ta_log))
                                end
                            end
                        end
                    end
              end
          end
      end
  end.

End Windows.

(** ** What the configuration says *)

Definition setting (body key : ctext) : option ctext := lookup_lines default_delim key (map uncomment (ConfigParser.lines body)).
Definition long_setting (body key : ctext) (d : Z) : Z := match setting body key with Some v => u32 (Diskconfig.strtol v) | None => d end.

(** A window's own color or font height replaces the common one. *)
Definition configured (body : ctext) (width height : Z) : ui_config :=
  let window := long_setting body (lit "window_color") WINDOW_DEF_COLOR in
  let font := long_setting body (lit "default_font_height") FONT_HEIGHT in
  mk_uc window (long_setting body (lit "infowin_color") window) (long_setting body (lit "menuwin_color") window)
    (long_setting body (lit "logwin_color") window) (long_setting body (lit "barwin_color") window)
    font (long_setting body (lit "infowin_font_height") font) (long_setting body (lit "menuwin_font_height") font)
    (long_setting body (lit "logwin_font_height") font) (long_setting body (lit "barwin_font_height") font)
    (long_setting body (lit "component_separator_height") INNER_SEPARATOR) (long_setting body (lit "window_separator_height") OUTTER_SEPARATOR)
    (long_setting body (lit "progress_bar_height") BAR_HEIGHT)
    (match setting body (lit "bg_image") with Some v => take 4096 v | None => sized BGIMG_PREFIX (lit ".png") width height end)
    (match setting body (lit "font") with Some v => take 4096 v | None => FONT_FILE end).

(** The configuration of the screen is that of its file, with the defaults for what is not
    there. *)
Theorem ui_load_config_values open u path body size width height :
  path <> [] -> zlen path < PATH_MAX -> 0 < size -> Forall (fun c => Ascii.eqb c NUL = false) body ->
  open path = Some (mk_conf (Some size) (Some (body ++ [NUL]))) ->
  exists cp, tboot_ui_load_config open (true, true) None u (Some path) width height = Ok (Some cp, configured body width height, 0).
Proof.
  intros Hp Hl Hs Hb Ho. destruct (init_get path body size Hp Hs Hb) as (cp & Hi & Hg). exists cp.
  unfold tboot_ui_load_config. rewrite (proj2 (Z.leb_gt PATH_MAX (zlen path)) Hl). cbn [obind]. rewrite Ho, Hi. cbn [obind].
  assert (forall key d, key <> [] -> get_long cp key d = Ok (long_setting body key d)) as Hlong.
  { intros key d Hk. unfold get_long. rewrite Hg by done. reflexivity. }
  assert (forall key d, key <> [] -> get_string cp key d = Ok (match setting body key with Some v => take 4096 v | None => d end)) as Hstr.
  { intros key d Hk. unfold get_string. rewrite Hg by done. reflexivity. }
  unfold read_config. repeat (rewrite Hlong by done; cbn [obind]). rewrite !Hstr by done. reflexivity.
Qed.

(** ** Lemmas: the menu *)

Definition main_items (c : Z) : list (menu_item ui_handler) := map (fun e => mk_item e.1 c (Some e.2)) menu_entries.

Lemma tboot_ui_menu_ok m : menu_ok m [] -> 3 <= max_items m -> exists m', tboot_ui_menu 0 m = (m', 0) /\ menu_ok m' (main_items (menu_color m)) /\
  max_items m' = max_items m /\ menu_win m' = menu_win m /\ selected m' = 0.
Proof.
  intros Hm Hmax. unfold tboot_ui_menu. pose proof Hm as [H1 H2 H3 H4].
  assert (forall l m i l0, menu_ok m l0 -> zlen l0 = i -> i + zlen l <= max_items m -> Forall (fun e => e.1 <> [] /\ zlen e.1 <= 256) l ->
    exists m', entries_loop m l i 0 = (m', 0) /\ menu_ok m' (l0 ++ map (fun e => mk_item e.1 (menu_color m) (Some e.2)) l) /\
      max_items m' = max_items m /\ menu_win m' = menu_win m) as G.
  { clear. induction l as [|[s h] l IH]; intros m i l0 Hm Hi Hmax Hl; cbn [entries_loop].
    - exists m. cbn [map]. rewrite app_nil_r. auto.
    - apply Forall_cons in Hl as [(Hs & Hs') Hl]. cbn [fst snd] in *. rewrite zlen_cons in Hmax. pose proof (zlen_nonneg l).
      rewrite (proj2 (Z.ltb_lt i (max_items m))) by lia. cbn [andb Z.eqb].
      assert (line_text s = s) as -> by (unfold line_text; apply take_ge; unfold zlen, LINE_LEN_INCHAR in *; lia).
      pose proof (menu_newitem_ok m l0 s (menu_color m) (Some h) Hm Hs) as Hn.
      assert (menu_color (default m (menu_newitem true (Some m) (Some (s, menu_color m)) (Some h)).1) = menu_color m /\
              menu_win (default m (menu_newitem true (Some m) (Some (s, menu_color m)) (Some h)).1) = menu_win m) as (Ec & Ew).
      { unfold menu_newitem. destruct (bool_decide _), (nr_items m =? max_items m); cbn; auto. }
      destruct (menu_newitem true (Some m) (Some (s, menu_color m)) (Some h)) as [m' r]. rewrite (proj2 (Z.eqb_neq (zlen l0) (max_items m))) in Hn by lia.
      destruct Hn as (m1 & -> & -> & Hm1 & Hmax1 & _). cbn [default from_option id fst] in *.
      destruct (IH m1 (i + 1) _ Hm1) as (m2 & -> & Hm2 & E1 & E2); [rewrite zlen_app; cbn; unfold zlen in *; cbn; lia|lia|exact Hl|].
      exists m2. rewrite <- app_assoc, Ec in Hm2. split; [reflexivity|]. split; [exact Hm2|]. split; congruence. }
  destruct (G menu_entries m 0 [] Hm eq_refl Hmax) as (m' & -> & Hm' & E1 & E2); [repeat constructor; cbn; [discriminate|vm_compute; discriminate..]|].
  exists (set_selected m' 0). split; [reflexivity|]. destruct Hm' as [G1 G2 G3 G4]. split; [|auto].
  split; cbn [set_selected items nr_items max_items selected]; auto. unfold zlen; cbn. lia.
Qed.


(** With another value in the uninitialised result no entry is added. *)
Lemma tboot_ui_menu_held ret0 m : ret0 <> 0 -> tboot_ui_menu ret0 m = (set_selected m 0, ret0).
Proof. intros H. unfold tboot_ui_menu, menu_entries. cbn [entries_loop]. rewrite (proj2 (Z.eqb_neq ret0 0) H), andb_false_r. reflexivity. Qed.

(** ** Lemmas: the windows *)

Lemma textarea_init_some clear w x y width height flags c : 0 < width -> font_height w <= width -> 0 < font_height w -> 0 < font_width w ->
  exists ta, textarea_init (true, true) clear (Some w) x y width height flags c = Ok (Some ta) /\ ta_win ta = w.
Proof.
  intros H1 H2 H3 H4. unfold textarea_init, div. rewrite (proj2 (Z.leb_gt width 0)), (proj2 (Z.ltb_ge width _)), (proj2 (Z.eqb_neq (font_height w) 0)) by lia.
  cbn [orb fst snd negb obind]. rewrite (proj2 (Z.eqb_neq (font_width w) 0)) by lia. destruct (0 <? Z.quot height (font_height w)); cbn [obind]; eexists; split; reflexivity.
Qed.

Section Layout.
Context (font : Z -> Z * Z) (u : ui_config) (screen_width screen_height : Z).

Definition rotated : bool := screen_height <? screen_width.
(** The windows are stacked along the long side of the screen, and as wide as the short one. *)
Definition long_side : Z := if rotated then screen_width else screen_height.
Definition short_side : Z := if rotated then screen_height else screen_width.

Definition info_size : Z := INFO_LINES * fst (font (infowin_font_height u)).
Definition menu_size : Z := (MENU_LINES + 1) * fst (font (menuwin_font_height u)).
Definition bar_size : Z := fst (font (barwin_font_height u)) + component_separator_height u + progress_bar_height u.
Definition log_size : Z := long_side - (info_size + menu_size + bar_size + 3 * window_separator_height u).

Definition font_fits (h : Z) : Prop := 0 <= h < 2 ^ 15 /\ 0 < fst (font h) <= short_side /\ 0 < snd (font h).

(** Fonts that fit across the screen, and room for a line of the log. *)
Record screen_fits : Prop := {
  sf_fonts : font_fits (infowin_font_height u) /\ font_fits (menuwin_font_height u) /\ font_fits (barwin_font_height u) /\ font_fits (logwin_font_height u);
  sf_sides : 0 < short_side /\ long_side < 2 ^ 15;
  sf_separators : 0 <= component_separator_height u < 2 ^ 15 /\ 0 <= window_separator_height u < 2 ^ 15 /\ 0 <= progress_bar_height u < 2 ^ 15;
  sf_log : 0 < log_size
}.

(** Where a window begins along the long side of the screen, and where it is across. *)
Definition along (w : window) : Z := if rotated then win_x w else win_y w.
Definition across (w : window) : Z := if rotated then win_y w else win_x w.

Definition windows (ui : tboot_ui) : list window := [ta_win (ta_info ui); menu_win (ui_menu ui); ta_win (ta_log ui); tb_win (ui_tb ui)].

Lemma setwindow_ok w x y width height : 0 < width -> 0 < height -> 0 <= x -> 0 <= y ->
  tboot_ui_setwindow w x y width height = Some (mk_win (font_height w) (font_width w) (color w) x y width height).
Proof.
  intros H1 H2 H3 H4. unfold tboot_ui_setwindow. rewrite (proj2 (Z.leb_gt width 0)), (proj2 (Z.leb_gt height 0)) by lia. cbn [orb].
  do 2 f_equal; [destruct (Z.ltb_spec 0 x)|destruct (Z.ltb_spec 0 y)]; lia.
Qed.

Lemma initwindow_font c h : 0 <= h < 2 ^ 15 -> font_height (tboot_ui_initwindow font c (s32 h)) = fst (font h) /\
  font_width (tboot_ui_initwindow font c (s32 h)) = snd (font h).
Proof. intros H. rewrite s32_id by lia. unfold tboot_ui_initwindow. destruct (font h). auto. Qed.


End Layout.

(** ** Concrete screens *)

(** A font whose characters are as wide as it is high, with its line a bit higher. *)
Definition sample_font (h : Z) : Z * Z := (h + 4, h).
Definition sample_ui : ui_config := configured [] 480 800.

Lemma sample_fits : screen_fits sample_font sample_ui 480 800 /\ screen_fits sample_font sample_ui 800 480.
Proof. split; split; vm_compute; repeat split; discriminate. Qed.


(** ** Where the code does not do what it means to *)

(** [long] has 32 bits: a color with its highest bit set, as most of
    those of [theme.h], is read from a file as the same half transparent one. *)
Theorem color_saturates : Diskconfig.strtol (lit "0xe74922ff") = 2 ^ 31 - 1 /\ COLOR_ORANGE3 = 0xe74922ff /\
  long_setting (lit "window_color = 0xe74922ff") (lit "window_color") WINDOW_DEF_COLOR = 0x7fffffff.
Proof. vm_compute. auto. Qed.

(** What the menu's result holds at first decides: with another value no entry is added and the
    screen is not set up. *)
Theorem menu_result_unset m held : held <> 0 -> tboot_ui_menu held m = (set_selected m 0, held) /\
  tboot_ui_adjust sample_font (fun _ => None) 1 sample_ui 480 800 = Ok None.
Proof.
  intros H. split; [by apply tboot_ui_menu_held|vm_compute; reflexivity].
Qed.

(** ** The entries of the menu *)

Definition asked (h : ui_handler) : option PreosReboot.how :=
  match h with
  | Poweroff => Some PreosReboot.RB_POWER_OFF
  | Reboot => Some (PreosReboot.LINUX_REBOOT_CMD_RESTART2 (str "android"))
  | RebootPreos => Some (PreosReboot.LINUX_REBOOT_CMD_RESTART2 (str "bootloader"))
  | Start _ => None
  end.

(** Each entry of the menu restarts the machine, or powers it off, in the way its name says, as the last thing it does and once;
    before it, the files are synced and the file systems remounted read-only. *)
Theorem menu_entry_reboots sysrq mounts call h how : 0 <= sysrq -> asked h = Some how ->
  h ∈ map snd menu_entries /\ exists k, run_handler sysrq mounts call h =
    Ok (PreosReboot.Sync :: PreosReboot.OpenSysrq :: PreosReboot.WriteSysrq (str "u") :: PreosReboot.CloseSysrq ::
        PreosReboot.polls k ++ [PreosReboot.Reboot how], -1) /\ (k <= 50)%nat.
Proof.
  intros Hs Ha. split; [destruct h; [set_solver..|discriminate]|]. destruct h; cbn in Ha; [..|discriminate]; injection Ha as <-; cbn [run_handler].
  - destruct (PreosReboot.preos_reboot_correct sysrq mounts call PreosReboot.RB_POWER_OFF (s32 PreosReboot.PREOS_RB_POWEROFF) [] Hs) as (k & -> & Hk & _);
      [by right; left|eauto].
  - destruct (PreosReboot.preos_reboot_correct sysrq mounts call (PreosReboot.LINUX_REBOOT_CMD_RESTART2 (str "android"))
      (s32 PreosReboot.PREOS_RB_RESTART2) (str "android") Hs) as (k & -> & Hk & _); [by right; right; left|eauto].
  - destruct (PreosReboot.preos_reboot_correct sysrq mounts call (PreosReboot.LINUX_REBOOT_CMD_RESTART2 (str "bootloader"))
      (s32 PreosReboot.PREOS_RB_RESTART2) (str "bootloader") Hs) as (k & -> & Hk & _); [by right; right; left|eauto].
Qed.

End TbootUi.
