(* ===== verification/TbootMain.v ===== *)
(** * src/tboot.c: the main program

    Options on the kernel's command line, the countdown before the default
    kernel is started and the keys that stop it, starting kernels from internal
    and external storage and over NFS, software updates, the disk's set-up, the
    battery check, the callback for status changes, and the signals. The
    configuration is the hash map of [TbootConfig]; [mem] is the string behind a
    pointer and [place] the pointer to a literal. [os] answers system calls. *)

From S2P Require Import Prelude Posix ConfigUtils Diskconfig Fstab Hashmap TbootConfig Backlight Fastboot TbootUtil Aboot Uevent.

Module TbootMain.
Import ConfigUtils Backlight Fastboot TbootUtil Uevent.

(** ** State *)

(** What the kernel's command line sets: [g_use_autoboot], [g_2ndstageboot_part],
    [g_2ndstageboot_dir], [g_autoboot_delay_secs], [g_scratch_size],
    [g_update_pause] and the platform. *)
Record options := mk_options {
  use_autoboot : Z;
  boot_part : list Z;
  boot_dir : list Z;
  delay_secs : Z;
  scratch_size : Z;
  update_pause : Z;
  platform : Z
}.

Definition first_options : options := mk_options 0 (str "platform") (str "boot") 8 10 0 PLATFORM_UNKNOWN.

(** [srv] has the server's state and the log; the flags of the countdown and
    the keys; the display; [disk_info] and the volumes; the stashed update; the
    status and what [ui_callback] remembers of it; [pipe_broken]. *)
Record tb := mk_tb {
  srv : fb;
  opts : options;
  config : option Hashmap.Hashmap;
  autoboot_enabled : bool;
  power_pressed : bool;
  ignore_keypress : bool;
  lcd : lcd_state;
  screen : panel;
  disk_info : option Diskconfig.disk_info;
  volumes : list Fstab.Volume;
  update_location : option (list Z);
  status : uevent_status;
  saved_usb : Z;
  saved_charger : Z;
  pipe_broken : bool
}.

Definition with_srv (t : tb) (s : fb) : tb :=
  mk_tb s (opts t) (config t) (autoboot_enabled t) (power_pressed t) (ignore_keypress t) (lcd t) (screen t)
    (disk_info t) (volumes t) (update_location t) (status t) (saved_usb t) (saved_charger t) (pipe_broken t).

Definition with_keys (t : tb) (auto power ignore : bool) : tb :=
  mk_tb (srv t) (opts t) (config t) auto power ignore (lcd t) (screen t)
    (disk_info t) (volumes t) (update_location t) (status t) (saved_usb t) (saved_charger t) (pipe_broken t).

Definition with_lcd (t : tb) (s : lcd_state) (p : panel) : tb :=
  mk_tb (srv t) (opts t) (config t) (autoboot_enabled t) (power_pressed t) (ignore_keypress t) s p
    (disk_info t) (volumes t) (update_location t) (status t) (saved_usb t) (saved_charger t) (pipe_broken t).

Definition with_disk (t : tb) (c : option Hashmap.Hashmap) (d : option Diskconfig.disk_info) (v : list Fstab.Volume) : tb :=
  mk_tb (srv t) (opts t) c (autoboot_enabled t) (power_pressed t) (ignore_keypress t) (lcd t) (screen t)
    d v (update_location t) (status t) (saved_usb t) (saved_charger t) (pipe_broken t).

Definition with_update (t : tb) (u : option (list Z)) : tb :=
  mk_tb (srv t) (opts t) (config t) (autoboot_enabled t) (power_pressed t) (ignore_keypress t) (lcd t) (screen t)
    (disk_info t) (volumes t) u (status t) (saved_usb t) (saved_charger t) (pipe_broken t).

Definition with_saved (t : tb) (usb charger : Z) : tb :=
  mk_tb (srv t) (opts t) (config t) (autoboot_enabled t) (power_pressed t) (ignore_keypress t) (lcd t) (screen t)
    (disk_info t) (volumes t) (update_location t) (status t) usb charger (pipe_broken t).

Definition with_pipe (t : tb) (b : bool) : tb :=
  mk_tb (srv t) (opts t) (config t) (autoboot_enabled t) (power_pressed t) (ignore_keypress t) (lcd t) (screen t)
    (disk_info t) (volumes t) (update_location t) (status t) (saved_usb t) (saved_charger t) b.

Definition note (t : tb) (l : list effect) : tb := with_srv t (add_log (srv t) l).

(** ** Options on the command line *)

(** [dup] says whether [strdup] has memory. The value of [tboot.bootdir] goes
    to the same variable as that of [tboot.bootpart]. *)
Definition parse_cmdline_option (dup : bool) (name : list Z) (o : options) : outcome options :=
  match index_of 61 name with
  | None => Ok o
  | Some i =>
    let value := drop (S i) name in
    let name := take i name in
    let set auto part delay scratch pause plat := mk_options auto part (boot_dir o) delay scratch pause plat in
    if bytes_eqb name [] then Ok o
    else if negb (begins (str "tboot") name) then Ok o
    else if bytes_eqb name (str "tboot.bootloader") then
      Ok (set (atoi value) (boot_part o) (delay_secs o) (scratch_size o) (update_pause o) (platform o))
    else if bytes_eqb name (str "tboot.delay") then
      Ok (set (use_autoboot o) (boot_part o) (atoi value) (scratch_size o) (update_pause o) (platform o))
    else if bytes_eqb name (str "tboot.scratch") then
      Ok (set (use_autoboot o) (boot_part o) (delay_secs o) (atoi value) (update_pause o) (platform o))
    else if bytes_eqb name (str "tboot.bootpart") || bytes_eqb name (str "tboot.bootdir") then
      if negb dup then die
      else Ok (set (use_autoboot o) value (delay_secs o) (scratch_size o) (update_pause o) (platform o))
    else if bytes_eqb name (str "tboot.updatepause") then
      Ok (set (use_autoboot o) (boot_part o) (delay_secs o) (scratch_size o) (atoi value) (platform o))
    else if bytes_eqb name (str "tboot.platform") then
      let p := if begins (str "blackbay") value then PLATFORM_BLACKBAY
               else if begins (str "redridge") value then PLATFORM_REDRIDGE
               else if begins (str "redhookbay") value then PLATFORM_REDHOOKBAY else PLATFORM_UNKNOWN in
      Ok (set (use_autoboot o) (boot_part o) (delay_secs o) (scratch_size o) (update_pause o)
            (fst (set_current_platform (platform o) p)))
    else Ok o
  end.

(** [import_kernel_cmdline(parse_cmdline_option)] *)
Definition import_options (dup : bool) (file : option (option (list Z))) (o : options) : outcome options :=
  let! r := import_kernel_cmdline file (fun w o => let! o := o in parse_cmdline_option dup w o) (Ok o) in r.

(** ** Options: lemmas *)

(** The value of a word [key=value]. *)
Definition value_of (key w : list Z) : option (list Z) :=
  if begins (key ++ [61]) w then Some (drop (length key + 1) w) else None.

Lemma index_of_spec c l i : index_of c l = Some i -> l = take i l ++ c :: drop (S i) l /\ c ∉ take i l.
Proof.
  revert i. induction l as [|x l IH]; intros i; cbn; [done|]. destruct (Z.eqb_spec x c) as [->|Hne].
  - intros [= <-]. cbn. split; [done|apply not_elem_of_nil].
  - destruct (index_of c l) as [j|]; [|done]. intros [= <-]. destruct (IH j eq_refl) as [H1 H2]. cbn [take drop app].
    split; [by f_equal|]. apply not_elem_of_cons. done.
Qed.

Lemma index_of_not c l : index_of c l = None -> c ∉ l.
Proof.
  induction l as [|x l IH]; cbn; [intros _; apply not_elem_of_nil|]. destruct (Z.eqb_spec x c) as [->|Hne]; [done|].
  destruct (index_of c l); [done|]. intros _. apply not_elem_of_cons. auto.
Qed.

(** The name in front of the first [=] decides. *)
Lemma value_of_cut key w : 61 ∉ key ->
  value_of key w = match index_of 61 w with
                   | Some i => if bytes_eqb (take i w) key then Some (drop (S i) w) else None
                   | None => None
                   end.
Proof.
  intros Hk. unfold value_of. destruct (index_of 61 w) as [i|] eqn:E.
  - destruct (index_of_spec 61 w i E) as [Hw Hi].
    assert (Hlen : length (take i w) = i).
    { apply (f_equal length) in Hw. rewrite length_app in Hw. cbn [length] in Hw. rewrite length_drop in Hw.
      rewrite length_take in *. lia. }
    unfold bytes_eqb. case_bool_decide as Ht.
    + assert (Hb : begins (key ++ [61]) w = true).
      { apply begins_spec. exists (drop (S i) w). rewrite <- app_assoc, <- Ht. exact Hw. }
      rewrite Hb. f_equal. f_equal. rewrite <- Ht, Hlen. lia.
    + destruct (begins (key ++ [61]) w) eqn:Hb; [|done]. exfalso. apply Ht.
      apply begins_spec in Hb as (r & Hb). rewrite <- app_assoc in Hb. cbn [app] in Hb.
      rewrite Hb, index_of_app in E by done. injection E as <-. by rewrite Hb, take_app_length.
  - destruct (begins (key ++ [61]) w) eqn:Hb; [|done]. exfalso. apply index_of_not in E. apply E.
    apply begins_spec in Hb as (r & ->). rewrite !elem_of_app. left. right. left.
Qed.

(** Decides equations of literals. *)
Ltac closed_eqb :=
  repeat match goal with
  | |- context [bytes_eqb ?a ?b] => let v := eval vm_compute in (bytes_eqb a b) in change (bytes_eqb a b) with v
  end.

(** What one word does to the options. *)
Lemma parse_option_spec w o : exists o', parse_cmdline_option true w o = Ok o' /\ boot_dir o' = boot_dir o /\
  use_autoboot o' = default (use_autoboot o) (atoi <$> value_of (str "tboot.bootloader") w) /\
  delay_secs o' = default (delay_secs o) (atoi <$> value_of (str "tboot.delay") w) /\
  scratch_size o' = default (scratch_size o) (atoi <$> value_of (str "tboot.scratch") w) /\
  update_pause o' = default (update_pause o) (atoi <$> value_of (str "tboot.updatepause") w).
Proof.
  rewrite !value_of_cut by (apply (bool_decide_unpack _); vm_compute; exact I). unfold parse_cmdline_option.
  destruct (index_of 61 w) as [i|]; [|by exists o]. cbv zeta. generalize (take i w). intros name.
  generalize (drop (S i) w). intros value.
  assert (Hskip : begins (str "tboot") name = false -> forall k, begins (str "tboot") k = true -> bytes_eqb name k = false).
  { intros Hn k Hk. unfold bytes_eqb. apply bool_decide_eq_false. intros ->. by rewrite Hk in Hn. }
  unfold bytes_eqb at 1. case_bool_decide as He; [subst name; by exists o|].
  destruct (begins (str "tboot") name) eqn:Hb; cbn [negb].
  2:{ rewrite !Hskip by done. by exists o. }
  clear Hskip Hb He.
  repeat match goal with
  | |- context [bytes_eqb name ?k] =>
    destruct (bytes_eqb name k) eqn:E; [apply bool_decide_eq_true in E; subst name; closed_eqb|clear E]
  end; cbn [orb negb]; (eexists; split; [reflexivity|]); done.
Qed.

(** The value of the last word for a key. *)
Definition last_value (key : string) (ws : list (list Z)) (old : Z) : Z :=
  default old (atoi <$> last (omap (value_of (str key)) ws)).

Lemma last_value_cons key w ws old :
  last_value key (w :: ws) old = last_value key ws (default old (atoi <$> value_of (str key) w)).
Proof.
  unfold last_value. cbn [omap list_omap]. destruct (value_of (str key) w) as [v|]; [|done].
  rewrite last_cons. by destruct (last (omap _ ws)).
Qed.

(** Options on the command line. The kernel's parameters, in any order and
    among others, set the options; of several values for one option the last one
    counts, and one that is missing keeps its default. The directory of the second
    stage cannot be set: [tboot.bootdir] has no effect on it. *)
Theorem import_options_correct ws o : Forall word ws -> (length (join 32 ws) < 1023)%nat ->
  exists o', import_options true (Some (Some (join 32 ws ++ [10]))) o = Ok o' /\
    use_autoboot o' = last_value "tboot.bootloader" ws (use_autoboot o) /\
    delay_secs o' = last_value "tboot.delay" ws (delay_secs o) /\
    scratch_size o' = last_value "tboot.scratch" ws (scratch_size o) /\
    update_pause o' = last_value "tboot.updatepause" ws (update_pause o) /\
    boot_dir o' = boot_dir o.
Proof.
  intros Hw Hl. unfold import_options. rewrite import_words by done. cbn [obind]. clear Hl.
  revert o. induction Hw as [|w ws _ _ IH]; intros o; [by exists o|]. cbn [fold_left obind].
  destruct (parse_option_spec w o) as (o1 & -> & H0 & H1 & H2 & H3 & H4). destruct (IH o1) as (o' & -> & I1 & I2 & I3 & I4 & I5).
  exists o'. rewrite !last_value_cons. rewrite I1, I2, I3, I4, I5, H0, H1, H2, H3, H4. done.
Qed.

Lemma import_options_correct_witness :
  exists o', import_options true (Some (Some (str "quiet tboot.delay=3 tboot.bootdir=x tboot.delay=5" ++ [10]))) first_options = Ok o' /\
    delay_secs o' = 5 /\ boot_dir o' = str "boot".
Proof.
  destruct (import_options_correct [str "quiet"; str "tboot.delay=3"; str "tboot.bootdir=x"; str "tboot.delay=5"] first_options)
    as (o' & H1 & _ & H2 & _ & _ & H3).
  - repeat constructor; try (by vm_compute); intros; repeat (constructor || lia).
  - vm_compute. lia.
  - exists o'. split; [exact H1|]. split; [exact H2|exact H3].
Defined.

(** ** Keys *)

Record input_event := mk_event { ev_type : Z; ev_code : Z; ev_value : Z }.

Definition EV_KEY : Z := 1.
Definition KEY_VOLUMEDOWN : Z := 114.
Definition KEY_VOLUMEUP : Z := 115.
Definition KEY_POWER : Z := 116.

Definition enable_keypress (t : tb) : tb := with_keys t (autoboot_enabled t) (power_pressed t) false.

Definition disable_keypress (t : tb) : tb := with_keys t (autoboot_enabled t) (power_pressed t) true.

Definition disable_autoboot (t : tb) : tb :=
  if autoboot_enabled t then with_keys t false (power_pressed t) (ignore_keypress t) else t.

Section Main.
Context (os : list effect -> sys_call -> Z * list Z).
Context (mem : Z -> text) (place : list Z -> Z).

(** The value of a key, [None] for a null pointer. *)
Definition config_value (t : tb) (key : string) : outcome (option (list Z)) :=
  let! p := TbootConfig.tboot_config_get (config t) (place (str key)) in
  Ok (if p =? Hashmap.NULL then None else Some (of_text (mem p))).

(** [atoi(tboot_config_get(key))] *)
Definition config_int (t : tb) (key : string) : outcome Z :=
  let! v := config_value t key in
  let! v := oof v in
  Ok (atoi v).

Definition reset_alarm (t : tb) : outcome tb :=
  let! n := config_int t "lcd_dim_timeout" in
  Ok (note t [Alarm 0; Alarm n]).

(** [lcd_state = lcd_state(ev)]; the brightness is only looked up to dim. *)
Definition lcd_event_ (t : tb) (ev : lcd_event) : outcome tb :=
  let! dim := match lcd t, ev with lcd_on, LCD_IDLE => config_int t "lcd_dim_brightness" | _, _ => Ok 0 end in
  let '(s, p) := lcd_step dim (lcd t) ev (screen t) in Ok (with_lcd t s p).

(** [None] when [ev_get_input] fails. *)
Definition input_callback (ev : option input_event) (t : tb) : outcome (tb * Z) :=
  match ev with
  | None => Ok (t, -1)
  | Some ev =>
    if ignore_keypress t then Ok (t, 0)
    else if autoboot_enabled t && (ev_type ev =? EV_KEY) then
      if ev_code ev =? KEY_POWER then Ok (with_keys t (autoboot_enabled t) true (ignore_keypress t), 0)
      else Ok (disable_autoboot t, 0)
    else if (ev_type ev =? EV_KEY) && (ev_value ev =? 1) then
      let menu_key := (ev_code ev =? KEY_VOLUMEUP) || (ev_code ev =? KEY_VOLUMEDOWN) || (ev_code ev =? KEY_POWER) in
      let! t := if menu_key then reset_alarm t else Ok t in
      if menu_key && negb (bool_decide (lcd t = lcd_on)) then let! t := lcd_event_ t LCD_KEY in Ok (t, 0)
      else if ev_code ev =? KEY_VOLUMEUP then Ok (note t [UiMenuUp], 0)
      else if ev_code ev =? KEY_VOLUMEDOWN then Ok (note t [UiMenuDown], 0)
      else if ev_code ev =? KEY_POWER then Ok (note t [UiMenuAction], 0)
      else Ok (t, 0)
    else Ok (t, 0)
  end.

(** The events that the input thread handles during a second. *)
Fixpoint handle_events (evs : list input_event) (t : tb) : outcome tb :=
  match evs with
  | [] => Ok t
  | ev :: l => let! (t, _) := input_callback (Some ev) t in handle_events l t
  end.

(** ** The countdown *)

(** [(int)((-100.0) / total - 0.5)] *)
Definition frag (total : Z) : Z := - ((200 + total) / (2 * total)).

(** [during] are the events of the coming seconds. *)
Fixpoint countdown_loop (seconds : nat) (frag : Z) (during : list (list input_event)) (t : tb) : outcome tb :=
  match seconds with
  | O => Ok t
  | S seconds' =>
    if negb (autoboot_enabled t) || power_pressed t then Ok t
    else
      let t := note t [UiTextbar (frag * Z.of_nat seconds); Sys SysSleep] in
      let! t := handle_events (hd [] during) t in
      countdown_loop seconds' frag (tl during) t
  end.

Definition countdown (seconds : Z) (during : list (list input_event)) (t : tb) : outcome (tb * bool) :=
  let t := with_keys t true (power_pressed t) (ignore_keypress t) in
  if seconds <=? 0 then Ok (t, autoboot_enabled t)
  else
    let seconds := if 100 <? seconds then 100 else seconds in
    let! t := countdown_loop (Z.to_nat seconds) (frag seconds) during t in
    let t := note t [UiHidebar] in
    Ok (with_keys t false (power_pressed t) (ignore_keypress t), autoboot_enabled t).

(** ** Starting a kernel *)

Definition base_path (o : options) : list Z :=
  snprintf PATH_MAX (str "/mnt/" ++ boot_part o ++ str "/" ++ boot_dir o ++ str "/").

Definition autoboot_precheck (t : tb) (kernel : list Z) : tb * Z :=
  let basepath := base_path (opts t) in
  let bak := default [] (strstr kernel (str ".bak")) in
  let '(s, r, _) := sys os (srv t) (SysAccess (snprintf PATH_MAX (basepath ++ str "/cmdline" ++ bak))) in
  if negb (r =? 0) then (with_srv t s, -1)
  else
    let '(s, r, _) := sys os s (SysAccess (snprintf PATH_MAX (basepath ++ str "/" ++ kernel))) in
    if negb (r =? 0) then (with_srv t s, -1) else (with_srv t s, 0).

Definition start_kernel (t : tb) (kernel : list Z) : outcome tb :=
  let t := note t [UiBouncebar; Sys SysSleep] in
  let '(t, r) := autoboot_precheck t kernel in
  if negb (r =? 0) then
    Ok (with_keys (note t [UiError]) (autoboot_enabled t) false (ignore_keypress t))
  else
    let! (s, _) := kexec_linux os (srv t) (base_path (opts t)) kernel in
    let t := note (with_srv t s) [UiError] in
    Ok (with_keys t (autoboot_enabled t) false (ignore_keypress t)).

Definition mount_internal_mmc (t : tb) : outcome (tb * Z) :=
  let! ptn := find_part (disk_info t) (boot_part (opts t)) in
  let! (s, r) := mount_partition os (disk_info t) (volumes t) (srv t) ptn in
  Ok (with_srv t s, if negb (r =? 0) then -1 else 0).

(** The end of all four functions: the result of [umount]. *)
Definition start_on (mounted : tb * Z) (kernel : string) : outcome (tb * Z) :=
  let '(t, r) := mounted in
  let! t := if r =? 0 then start_kernel t (str kernel) else Ok (note t [UiError]) in
  let '(s, r, _) := sys os (srv t) (SysUmount (snprintf PATH_MAX (str "/mnt/" ++ boot_part (opts t)))) in
  Ok (with_srv t s, r).

Definition start_default_kernel (t : tb) : outcome (tb * Z) :=
  let! m := mount_internal_mmc t in start_on m "kernel".

Definition start_backup_kernel (t : tb) : outcome (tb * Z) :=
  let! m := mount_internal_mmc t in start_on m "kernel.bak".

(** The mount point of [mount_external_mmc] and [mount_nfs], or [None]. *)
Definition make_target (t : tb) : tb * option (list Z) :=
  let target := snprintf PATH_MAX (str "/mnt/" ++ boot_part (opts t)) in
  let '(s, r, _) := sys os (srv t) (SysMkdir target) in
  (with_srv t s, if negb (r =? 0) && negb (r =? - EEXIST) then None else Some target).

Definition mount_external_mmc (t : tb) : outcome (tb * Z) :=
  let '(t, target) := make_target t in
  match target with
  | None => Ok (t, -1)
  | Some target =>
    let! rootfs := config_value t "rootfs" in
    match rootfs with
    | None => Ok (t, -1)
    | Some rootfs =>
      let '(s, r, _) := sys os (srv t) (SysMount rootfs target (str "ext4")) in
      Ok (with_srv t s, if r =? 0 then 0 else -1)
    end
  end.

Definition start_mmc_kernel (t : tb) : outcome (tb * Z) :=
  let! m := mount_external_mmc t in start_on m "kernel".

Definition mount_nfs (t : tb) : outcome (tb * Z) :=
  let '(t, target) := make_target t in
  match target with
  | None => Ok (t, -1)
  | Some target =>
    let! rootfs := config_value t "nfsurl" in
    match rootfs with
    | None => Ok (t, -1)
    | Some rootfs =>
      let '(s, r) := execute_command os (srv t) (str "/bin/nfsmount " ++ rootfs ++ str " " ++ target) in
      Ok (with_srv t s, if r <? 0 then -1 else r)
    end
  end.

Definition start_nfs_kernel (t : tb) : outcome (tb * Z) :=
  let! m := mount_nfs t in start_on m "kernel".

Definition autoboot_thread (during : list (list input_event)) (t : tb) : outcome tb :=
  let! (t, go) := countdown (delay_secs (opts t)) during t in
  if negb go then Ok (note t [UiWarn])
  else let! (t, _) := start_default_kernel t in Ok t.

(** The end of [main] waits as long as this holds before it starts the server. *)
Definition keeps_waiting (t : tb) : bool := autoboot_enabled t || power_pressed t.


(** ** Software updates *)

(** [platform_function] is what the platform's provision function returns, [None]
    without one. *)
Definition provision_partition (t : tb) (name : list Z) (source : Fstab.Volume) : outcome (tb * Z) :=
  let! ptn := find_part (disk_info t) name in
  match ptn with
  | None => Ok (t, -1)
  | Some ptn =>
    let! (s, device) := find_part_device os (disk_info t) (srv t) (TbootUtil.p_name ptn) in
    match device with
    | None => Ok (with_srv t s, -1)
    | Some device =>
      let! source_device := oof (Fstab.device source) in
      if bytes_eqb (of_text source_device) device then
        let '(s, r) := ext4_filesystem_checks os s device in Ok (with_srv t s, if negb (r =? 0) then -1 else 0)
      else
        let! (s, r) := erase_partition os (disk_info t) (volumes t) s ptn in
        Ok (with_srv t s, if negb (r =? 0) then -1 else 0)
    end
  end.

Definition provisioning_checks (t : tb) (platform_function : option Z) (source : Fstab.Volume) : outcome (tb * Z) :=
  if negb (default 0 platform_function =? 0) then Ok (t, -1)
  else
    let! (t, r) := provision_partition t (str "cache") source in
    if negb (r =? 0) then Ok (t, -1)
    else
      let! (t, r) := provision_partition t (str "userdata") source in
      if negb (r =? 0) then Ok (t, -1) else Ok (t, 0).

(** [device_name] is the macro [DEVICE_NAME]. A null device is passed on. *)
Definition detect_sw_update (device_name : list Z) (t : tb) (vol : Fstab.Volume) : outcome (tb * option (list Z)) :=
  let mountpoint := str "/mnt" ++ of_text (Fstab.mount_point vol) in
  let filename := mountpoint ++ str "/" ++ device_name ++ str ".auto-ota.zip" in
  let '(s, r, _) := sys os (srv t) SysAsprintf in
  if r <? 0 then die
  else
    let '(s, r, _) := sys os s SysAsprintf in
    if r <? 0 then die
    else
      let fs_type := of_text (Fstab.fs_type vol) in
      let out s := with_srv t (fst (fst (sys os s (SysUmount mountpoint)))) in
      let '(s, r) := mount_partition_device os s (of_text (default [] (Fstab.device vol))) fs_type mountpoint in
      let '(s, r) := if negb (r =? 0) then
                       match Fstab.device2 vol with
                       | None => (s, -1)
                       | Some d2 => mount_partition_device os s (of_text d2) fs_type mountpoint
                       end
                     else (s, 0) in
      if negb (r =? 0) then Ok (out s, None)
      else
        let '(s, r, _) := sys os s (SysStat filename) in
        if r <? 0 then Ok (out s, None)
        else
          let '(s, r, _) := sys os s SysStrdup in
          if r <? 0 then die else Ok (out s, Some (drop 4 filename)).

(** [wr] is what [named_file_write] gives in [apply_sw_update]. *)
Definition try_update_sw (device_name : list Z) (platform_function : option Z) (wr : Z)
    (during : list (list input_event)) (use_countdown : bool) (t : tb) (vol : Fstab.Volume) : outcome (tb * Z) :=
  match update_location t with
  | Some _ => Ok (t, 0)
  | None =>
    let! (t, found) := detect_sw_update device_name t vol in
    match found with
    | None => Ok (t, 0)
    | Some location =>
      let! (t, complete) := if use_countdown then countdown (delay_secs (opts t)) during t else Ok (t, true) in
      if negb complete then Ok (note t [UiHidebar], 0)
      else
        let t := note t [MutexLock; UiBouncebar] in
        let! (t, r) := provisioning_checks t platform_function vol in
        let! (t, ret) :=
          if negb (r =? 0) then Ok (t, -1)
          else if update_pause (opts t) =? 0 then
            let! s := apply_sw_update os (disk_info t) (volumes t) (srv t) location false wr in
            Ok (with_srv t s, -1)
          else Ok (with_update t (Some location), 0) in
        Ok (note t [UiHidebar; MutexUnlock], ret)
    end
  end.

(** ** Setting up the disk *)

(** What [strcasecmp] does with a letter. *)
Definition lower (c : Z) : Z := if (65 <=? c) && (c <=? 90) then c + 32 else c.

(** What the set-up meets: the text of the table of volumes, the device nodes
    that can be read and written, the files, the allocations, the device of the
    layout and the results of writing to it. *)
Record set_up := mk_setup {
  fstab : option text;
  nodes : text -> bool;
  files : text -> option text;
  allocs : bool * bool;
  device : option Diskconfig.device;
  lists : nat -> bool;
  disk_file : Posix.file;
  sync_result : Z
}.

(** The state and the contents of the disk. *)
Definition setup_disk_information (tc_keys : list Z) (e : set_up) (t : tb) (layout : list Z) : outcome (tb * Posix.file) :=
  let! vols := Fstab.load_volume_table (fstab e) in
  let! force := config_value t "disk_force" in
  let! (cfg, _) := match force with
                   | None => TbootConfig.tboot_config_set mem tc_keys (config t) (place (str "disk_force"))
                               (place (str "yes")) (allocs e)
                   | Some _ => Ok (config t, Hashmap.NULL)
                   end in
  let t := with_disk t cfg (disk_info t) vols in
  let! bypass := if Fstab.check_devnodes (nodes e) vols =? 0
                 then let! f := oof force in Ok (bytes_eqb (map lower f) (str "no")) else Ok false in
  if bypass : bool then Ok (t, disk_file e)
  else
    let! d := Diskconfig.load_diskconfig (files e) (allocs e) (to_text layout) None in
    match d with
    | None => die
    | Some _ =>
      let! (_, d) := Diskconfig.process_disk_config d (device e) (lists e) in
      let! (f, r, d) := Diskconfig.apply_disk_config d (device e) (lists e) (disk_file e) (sync_result e) false in
      if negb (r =? 0) then die else Ok (with_disk t cfg d vols, f)
    end.

(** ** Versions *)

Definition PREOS_VERSION_LEN : Z := 32.

(** [preos_version], which holds only zeros before; the search for the end of the
    line needs a terminator. *)
Definition get_preos_version (file : option (option (list Z))) : outcome (list Z) :=
  match file with
  | Some (Some bs) =>
    let bs := take (Z.to_nat PREOS_VERSION_LEN) bs in
    let line := c_string bs in
    match index_of 10 line with
    | Some i => Ok (take i line)
    | None => if (zlen bs =? PREOS_VERSION_LEN) && negb (existsb (Z.eqb 0) bs) then Undef else Ok line
    end
  | _ => Ok []
  end.

(** [uname] gives the names of the system and its release; [fw] is what the
    plugin writes, of at most 15 bytes; [al] are the allocations of the variables. *)
Definition display_sysinfo (device_name : list Z) (version : option (option (list Z)))
    (uname : option (list Z * list Z)) (fw : option (list Z)) (al : bool) (t : tb) (no_ui : bool) : outcome tb :=
  let! preos := get_preos_version version in
  let ker := match uname with
             | Some (sysname, release) => snprintf 64 (sysname ++ str " " ++ release)
             | None => str "Unknown"
             end in
  let fw := snprintf 16 (default (str "Unknown") fw) in
  let t := if no_ui then t
           else note t [UiText (str "Pre-OS v" ++ preos); UiText (str "IFWI " ++ fw ++ str " | " ++ ker)] in
  let s := fastboot_publish (srv t) (str "product") device_name al in
  let s := fastboot_publish s (str "kernel") ker al in
  let s := fastboot_publish s (str "preos") preos al in
  Ok (with_srv t (fastboot_publish s (str "ifwi") fw al)).

(** ** Status, battery, signals *)

Definition shown (what : string) (st : Z) : list Z :=
  snprintf 32 (str what ++ if st =? STATUS_UNKOWN then str ": Unknow"
    else if st =? STATUS_CONNECTED then str ": connected" else str ": disconnected").

(** [%d] *)
Definition dec (n : Z) : list Z :=
  (if n <? 0 then str "-" else []) ++ of_text (Diskconfig.dec_digits 11 (Z.abs n)).

(** A status that differs from the saved one lights the display. *)
Definition ui_changed (t : tb) (changed : bool) (usb charger : Z) : outcome tb :=
  if changed then
    let! t := reset_alarm t in
    let! t := lcd_event_ t LCD_USB_EVENT in
    Ok (with_saved t usb charger)
  else Ok t.

Definition ui_callback (t : tb) : outcome tb :=
  let usb := usb_status (status t) in
  let! t := ui_changed t (negb (saved_usb t =? usb)) usb (saved_charger t) in
  let charger := charger_status (status t) in
  let! t := ui_changed t (negb (saved_charger t =? charger)) (saved_usb t) charger in
  let bat := battery_capacity (status t) in
  let buf := snprintf 32 (if bat <? 0 then str "Battery: Unknow" else str "Battery: " ++ dec bat ++ str "%") in
  Ok (note t [UiText (shown "USB" usb ++ str ", " ++ shown "Charger" charger ++ str ", " ++ buf)]).

Definition check_battery (t : tb) : outcome Z :=
  let! threshold := config_int t "battery_threshold" in
  Ok (if battery_capacity (status t) <? threshold then -1 else 0).

Definition lcd_state_init (t : tb) : outcome tb := reset_alarm (with_lcd t lcd_on (screen t)).

Definition SIGPIPE : Z := 13.
Definition SIGALRM : Z := 14.

(** One round of the loop of [sig_handler]. *)
Definition sig_handler (t : tb) (sig : Z) : outcome tb :=
  if sig =? SIGPIPE then Ok (with_pipe t true)
  else if sig =? SIGALRM then
    if is_fastboot_active (srv t) then Ok t
    else
      let! t := lcd_event_ t LCD_IDLE in
      if bool_decide (lcd t = lcd_dim) then
        let! n := config_int t "lcd_off_timeout" in Ok (note t [Alarm n])
      else Ok t
  else Ok t.


(** ** The countdown: theorems *)

(** The configuration is loaded and has the timeout of the display. *)
Definition alarm_set (t : tb) : Prop := exists v, config_value t "lcd_dim_timeout" = Ok (Some v).

Definition is_key (ev : input_event) : bool := ev_type ev =? EV_KEY.
Definition is_power (ev : input_event) : bool := is_key ev && (ev_code ev =? KEY_POWER).
Definition cancels (ev : input_event) : bool := is_key ev && negb (ev_code ev =? KEY_POWER).

(** The flags behind an event: enabled, power. *)
Definition key_step (f : bool * bool) (ev : input_event) : bool * bool :=
  if fst f then (negb (cancels ev), snd f || is_power ev) else f.

(** What events leave alone. *)
Definition same_setup (t t' : tb) : Prop :=
  opts t' = opts t /\ config t' = config t /\ ignore_keypress t' = ignore_keypress t /\
  disk_info t' = disk_info t /\ volumes t' = volumes t.

(** What is logged: no call at all, or no call but [sleep], so that no program is run. *)
Definition no_call (e : effect) : Prop := match e with Sys _ => False | _ => True end.
Definition runs_nothing (e : effect) : Prop := match e with Sys SysSleep => True | Sys _ => False | _ => True end.

Definition logs (P : effect -> Prop) (t t' : tb) : Prop := exists l, log (srv t') = log (srv t) ++ l /\ Forall P l.
Notation no_calls := (logs no_call).
Notation only_logs := (logs runs_nothing).

Lemma logs_same P t t' : srv t' = srv t -> logs P t t'.
Proof. intros H. exists []. rewrite H. split; [by rewrite app_nil_r|constructor]. Qed.

Lemma logs_refl P t : logs P t t.
Proof. by apply logs_same. Qed.

Lemma logs_trans P a b c : logs P a b -> logs P b c -> logs P a c.
Proof.
  intros (l & H1 & R1) (k & H2 & R2). exists (l ++ k). rewrite H2, H1, app_assoc. split; [done|]. by apply Forall_app.
Qed.

Lemma logs_note P t l : Forall P l -> logs P t (note t l).
Proof. intros H. by exists l. Qed.

Lemma no_calls_only t t' : no_calls t t' -> only_logs t t'.
Proof. intros (l & H & Hl). exists l. split; [done|]. eapply Forall_impl; [exact Hl|]. intros e He. destruct e; done. Qed.

(** How long it slept, in seconds. *)
Definition slept (t : tb) : nat := length (List.filter (fun e => match e with Sys SysSleep => true | _ => false end) (log (srv t))).

Lemma slept_note t l : slept (note t l) = (slept t + length (List.filter (fun e => match e with Sys SysSleep => true | _ => false end) l))%nat.
Proof. unfold slept. cbn [note with_srv srv add_log log]. by rewrite List.filter_app, length_app. Qed.

Lemma no_calls_slept t t' : no_calls t t' -> slept t' = slept t.
Proof.
  intros (l & H & Hl). unfold slept. rewrite H, List.filter_app, length_app.
  assert (List.filter (fun e => match e with Sys SysSleep => true | _ => false end) l = []) as ->; [|cbn; lia].
  clear H. induction Hl as [|e l He _ IH]; [done|]. cbn [List.filter]. destruct e; done.
Qed.

Lemma alarm_same t t' : config t' = config t -> alarm_set t -> alarm_set t'.
Proof. unfold alarm_set, config_value. by intros ->. Qed.

Lemma reset_alarm_ok t : alarm_set t -> exists t', reset_alarm t = Ok t' /\ same_setup t t' /\ no_calls t t' /\
  autoboot_enabled t' = autoboot_enabled t /\ power_pressed t' = power_pressed t /\ lcd t' = lcd t /\ screen t' = screen t.
Proof.
  intros (v & Hv). unfold reset_alarm, config_int. rewrite Hv. cbn [obind oof]. eexists. split; [reflexivity|].
  split; [by split_and!|]. split; [|done]. apply logs_note. by repeat constructor.
Qed.

Lemma wake_ok t ev : ev <> LCD_IDLE -> exists t', lcd_event_ t ev = Ok t' /\ same_setup t t' /\ no_calls t t' /\
  autoboot_enabled t' = autoboot_enabled t /\ power_pressed t' = power_pressed t /\ srv t' = srv t /\
  lcd t' = lcd_on /\ screen t' = snd (lcd_step 0 (lcd t) ev (screen t)).
Proof.
  intros Hev. unfold lcd_event_.
  assert (E : match lcd t, ev with lcd_on, LCD_IDLE => config_int t "lcd_dim_brightness" | _, _ => Ok 0 end = Ok 0)
    by (by destruct (lcd t), ev). rewrite E. cbn [obind].
  destruct (lcd_step 0 (lcd t) ev (screen t)) as [s p] eqn:El.
  assert (Hs : s = lcd_on) by (destruct (lcd t), ev; cbn in El; try done; by injection El).
  eexists. split; [reflexivity|]. split; [by split_and!|]. split; [by apply logs_same|]. by split_and!.
Qed.

Lemma input_step ev t : ignore_keypress t = false -> alarm_set t ->
  exists t', input_callback (Some ev) t = Ok (t', 0) /\ same_setup t t' /\ no_calls t t' /\
    (autoboot_enabled t', power_pressed t') = key_step (autoboot_enabled t, power_pressed t) ev.
Proof.
  intros Hi Ha. unfold input_callback, key_step, cancels, is_power, is_key. rewrite Hi. cbn [fst snd].
  assert (Hsame : same_setup t t) by (by split_and!).
  destruct (autoboot_enabled t) eqn:Ea; cbn [andb].
  - destruct (ev_type ev =? EV_KEY) eqn:Ek; cbn [andb negb orb].
    + destruct (ev_code ev =? KEY_POWER); cbn [negb]; rewrite ?orb_true_r, ?orb_false_r.
      * eexists. split; [reflexivity|]. split; [by split_and!|]. split; [by apply logs_same|]. by cbn; rewrite ?Ea.
      * unfold disable_autoboot. rewrite Ea. eexists. split; [reflexivity|]. split; [by split_and!|].
        split; [by apply logs_same|]. done.
    + exists t. rewrite orb_false_r, Ea. split; [done|]. split; [done|]. split; [apply logs_refl|done].
  - destruct ((ev_type ev =? EV_KEY) && (ev_value ev =? 1)).
    2:{ exists t. rewrite Ea. split; [done|]. split; [done|]. split; [apply logs_refl|done]. }
    destruct ((ev_code ev =? KEY_VOLUMEUP) || (ev_code ev =? KEY_VOLUMEDOWN) || (ev_code ev =? KEY_POWER)) eqn:Em.
    + destruct (reset_alarm_ok t Ha) as (t1 & -> & S1 & L1 & A1 & P1 & Hl & Hsc). cbn [obind andb].
      destruct (negb (bool_decide (lcd t1 = lcd_on))).
      * destruct (wake_ok t1 LCD_KEY) as (t2 & -> & S2 & L2 & A2 & P2 & _); [done|]. cbn [obind]. exists t2.
        split; [done|]. split; [unfold same_setup in *; intuition congruence|].
        split; [by eapply logs_trans|]. congruence.
      * repeat match goal with |- context [if ?c then _ else _] => destruct c end; eexists; (split; [reflexivity|]);
          (split; [exact S1|]); (split; [eapply logs_trans; [exact L1|]; first [apply logs_note; by repeat constructor|apply logs_refl]|]);
          cbn; congruence.
    + cbn [obind andb]. apply orb_false_elim in Em as [Em E3]. apply orb_false_elim in Em as [E1 E2]. rewrite E1, E2, E3.
      exists t. rewrite Ea. split; [done|]. split; [done|]. split; [apply logs_refl|done].
Qed.

Lemma same_setup_trans a b c : same_setup a b -> same_setup b c -> same_setup a c.
Proof. unfold same_setup. intuition congruence. Qed.

Lemma handle_events_ok evs : forall t, ignore_keypress t = false -> alarm_set t ->
  exists t', handle_events evs t = Ok t' /\ same_setup t t' /\ no_calls t t' /\
    (autoboot_enabled t', power_pressed t') = fold_left key_step evs (autoboot_enabled t, power_pressed t).
Proof.
  induction evs as [|ev evs IH]; intros t Hi Ha; cbn [handle_events fold_left].
  { exists t. split; [done|]. split; [by split_and!|]. split; [apply logs_refl|done]. }
  destruct (input_step ev t Hi Ha) as (t1 & -> & S1 & L1 & K1). cbn [obind].
  pose proof S1 as (_ & Hc & Hig & _). destruct (IH t1) as (t' & -> & S2 & L2 & K2); [congruence|by eapply alarm_same|].
  exists t'. split; [done|]. split; [by eapply same_setup_trans|]. split; [by eapply logs_trans|]. by rewrite K2, K1.
Qed.


(** The events of the first second, among [n], in which a key was pressed. *)
Fixpoint first_keys (n : nat) (during : list (list input_event)) : list input_event :=
  match n, during with
  | S n', evs :: during' => if existsb is_key evs then evs else first_keys n' during'
  | _, _ => []
  end.

(** The power key was pressed before any other. *)
Fixpoint power_first (evs : list input_event) : bool :=
  match evs with
  | [] => false
  | ev :: l => if cancels ev then false else is_power ev || power_first l
  end.

Lemma key_step_off evs p : fold_left key_step evs (false, p) = (false, p).
Proof. by induction evs. Qed.

Lemma key_step_on evs : forall p, fold_left key_step evs (true, p) = (negb (existsb cancels evs), p || power_first evs).
Proof.
  induction evs as [|ev evs IH]; intros p; cbn [fold_left existsb power_first]; [by rewrite orb_false_r|].
  unfold key_step at 2. cbn [fst snd]. destruct (cancels ev) eqn:E; cbn [negb orb].
  - rewrite key_step_off. unfold cancels, is_power in *. apply andb_prop in E as [-> E]. apply negb_true_iff in E. by rewrite E.
  - by rewrite IH, orb_assoc.
Qed.

(** Without keys nothing changes, and a key stops the loop. *)
Lemma no_keys evs : existsb is_key evs = false -> existsb cancels evs = false /\ power_first evs = false.
Proof.
  induction evs as [|ev evs IH]; intros H; [done|]. cbn in H. apply orb_false_elim in H as [H1 H2].
  destruct (IH H2) as [H3 H4]. cbn.
  assert (Hc : cancels ev = false) by (unfold cancels; by rewrite H1).
  assert (Hp : is_power ev = false) by (unfold is_power; by rewrite H1). by rewrite Hc, Hp, H3, H4.
Qed.

Lemma keys_stop evs : existsb is_key evs = true -> existsb cancels evs = true \/ power_first evs = true.
Proof.
  induction evs as [|ev evs IH]; intros H; [done|]. cbn in *. destruct (cancels ev) eqn:Ec; [by left|]. cbn [orb].
  destruct (is_power ev) eqn:Ep; [by right|]. cbn [orb]. apply IH. unfold cancels, is_power in *.
  destruct (is_key ev); [|done]. cbn [andb] in *. by rewrite Ep in Ec.
Qed.

(** The seconds that pass: up to the first one in which a key was pressed. *)
Fixpoint ticks (n : nat) (during : list (list input_event)) : nat :=
  match n with
  | O => 0
  | S n' => if existsb is_key (hd [] during) then 1 else S (ticks n' (tl during))
  end.

Lemma ticks_le n : forall during, (ticks n during <= n)%nat.
Proof. induction n as [|n IH]; intros during; cbn; [lia|]. specialize (IH (tl during)). destruct (existsb _ _); lia. Qed.

Lemma countdown_loop_ok fr n : forall during t, ignore_keypress t = false -> alarm_set t ->
  autoboot_enabled t = true -> power_pressed t = false ->
  exists t', countdown_loop n fr during t = Ok t' /\ same_setup t t' /\ only_logs t t' /\
    autoboot_enabled t' = negb (existsb cancels (first_keys n during)) /\ power_pressed t' = power_first (first_keys n during) /\
    slept t' = (slept t + ticks n during)%nat.
Proof.
  induction n as [|n IH]; intros during t Hi Ha Hen Hp; cbn [countdown_loop ticks].
  { exists t. split; [done|]. split; [by split_and!|]. split; [apply logs_refl|]. cbn. rewrite Nat.add_0_r. done. }
  rewrite Hen, Hp. cbn [negb orb]. set (t0 := note t _).
  assert (L0 : only_logs t t0) by (apply logs_note; by repeat constructor).
  assert (Z0 : slept t0 = (slept t + 1)%nat) by (unfold t0; by rewrite slept_note).
  destruct (handle_events_ok (hd [] during) t0) as (t1 & -> & S1 & L1 & K1); [done|done|]. cbn [obind].
  change (autoboot_enabled t0) with (autoboot_enabled t) in K1. change (power_pressed t0) with (power_pressed t) in K1.
  rewrite Hen, Hp, key_step_on in K1. cbn [orb] in K1. injection K1 as K1 K2.
  apply no_calls_slept in L1 as Z1. apply no_calls_only in L1. rewrite Z0 in Z1.
  assert (L01 : only_logs t t1) by (by eapply logs_trans). pose proof S1 as (_ & Hc1 & Hi1 & _).
  assert (Hgo : existsb is_key (hd [] during) = false ->
    exists t', countdown_loop n fr (tl during) t1 = Ok t' /\ same_setup t t' /\ only_logs t t' /\
      autoboot_enabled t' = negb (existsb cancels (first_keys n (tl during))) /\
      power_pressed t' = power_first (first_keys n (tl during)) /\ slept t' = (slept t + S (ticks n (tl during)))%nat).
  { intros Hk. destruct (no_keys _ Hk) as [N1 N2]. rewrite N1 in K1. rewrite N2 in K2.
    destruct (IH (tl during) t1) as (t' & H1 & S2 & L2 & H2 & H3 & H4); [by rewrite Hi1|by apply (alarm_same t)|done|done|].
    exists t'. split; [done|]. split; [eapply same_setup_trans; [exact S1|exact S2]|]. split; [by eapply logs_trans|].
    split; [done|]. split; [done|]. lia. }
  destruct during as [|evs during]; cbn [hd tl first_keys] in *; [cbn [existsb] in *; by destruct n; apply Hgo|].
  destruct (existsb is_key evs) eqn:Hk; [|by apply Hgo].
  exists t1. split; [|done]. destruct n; [done|]. cbn [countdown_loop]. rewrite K1, K2.
  destruct (keys_stop _ Hk) as [-> | ->]; [done|]. by rewrite orb_true_r.
Qed.

Definition clamp (seconds : Z) : nat := Z.to_nat (if 100 <? seconds then 100 else seconds).

Lemma countdown_ok seconds during t : 0 < seconds -> ignore_keypress t = false -> power_pressed t = false -> alarm_set t ->
  exists t', countdown seconds during t = Ok (t', negb (existsb cancels (first_keys (clamp seconds) during))) /\
    autoboot_enabled t' = false /\ power_pressed t' = power_first (first_keys (clamp seconds) during) /\
    same_setup t t' /\ only_logs t t' /\ slept t' = (slept t + ticks (clamp seconds) during)%nat.
Proof.
  intros Hs Hi Hp Ha. unfold countdown. assert (E : (seconds <=? 0) = false) by lia. rewrite E.
  destruct (countdown_loop_ok (frag (if 100 <? seconds then 100 else seconds)) (clamp seconds) during
    (with_keys t true (power_pressed t) (ignore_keypress t))) as (t' & Hc & S1 & L1 & H1 & H2 & H3); [done|done|done|done|].
  unfold clamp in Hc. rewrite Hc. cbn [obind]. eexists. split; [by rewrite <- H1|]. split; [done|]. split; [exact H2|].
  split; [exact S1|]. split; [eapply logs_trans; [|apply (logs_note _ t'); by repeat constructor]; exact L1|].
  change (slept (with_keys ?a _ _ _)) with (slept a). rewrite slept_note. cbn. rewrite H3. unfold slept. cbn. lia.
Qed.

(** C29: The countdown and its keys. Called for a positive time it ends after so many seconds, 100 at most, or behind the first
    second in which a key was pressed. It lets the kernel start if no key was pressed, or if in this second only the
    power key was; any other key stops it; and afterwards it is off. Called for no time it returns at once, lets the kernel
    start and leaves the flag set. In both cases it runs no program and changes nothing of the set-up. *)
Theorem countdown_keys seconds during t : ignore_keypress t = false -> power_pressed t = false -> alarm_set t ->
  let n := clamp seconds in let keys := first_keys n during in
  exists t', countdown seconds during t = Ok (t', negb (existsb cancels keys)) /\
    autoboot_enabled t' = (seconds <=? 0) /\ power_pressed t' = power_first keys /\
    slept t' = (slept t + ticks n during)%nat /\ (ticks n during <= 100)%nat /\ same_setup t t' /\ only_logs t t'.
Proof.
  intros Hi Hp Ha. cbv zeta. pose proof (ticks_le (clamp seconds) during) as Hle. destruct (Z.leb_spec seconds 0) as [Hs|Hs].
  - assert (clamp seconds = 0%nat) as E by (unfold clamp; destruct (Z.ltb_spec 100 seconds); lia).
    unfold countdown. rewrite (proj2 (Z.leb_le seconds 0) Hs), E. eexists. split; [reflexivity|]. cbn [first_keys ticks]. rewrite Nat.add_0_r.
    destruct during; (split_and!; try done; [lia|by apply logs_same]).
  - destruct (countdown_ok seconds during t Hs Hi Hp Ha) as (t' & H1 & H2 & H3 & H4 & H5 & H6). exists t'.
    split_and!; try done. unfold clamp in Hle |- *. destruct (Z.ltb_spec 100 seconds); lia.
Qed.

(** ** Starting kernels: theorems *)

(** The programs that were run. *)
Definition programs (l : list effect) : list (list Z) :=
  omap (fun e => match e with Sys (SysSystem c) => Some c | _ => None end) l.

Lemma programs_app a b : programs (a ++ b) = programs a ++ programs b.
Proof. apply omap_app. Qed.

(** The files that a kernel needs. *)
Definition cmdline_path (o : options) (kernel : list Z) : list Z :=
  snprintf PATH_MAX (base_path o ++ str "/cmdline" ++ default [] (strstr kernel (str ".bak"))).
Definition kernel_path (o : options) (kernel : list Z) : list Z :=
  snprintf PATH_MAX (base_path o ++ str "/" ++ kernel).

Lemma sys_log st c : exists r bs, sys os st c = (add_log st [Sys c], r, bs) /\ r = fst (os (log st) c).
Proof. unfold sys. destruct (os (log st) c) as [r bs]. by eexists _, _. Qed.

(** Nothing is started without its files. When the command line or the kernel
    cannot be read, [start_kernel] returns without running any program, and the
    power key counts as released, so that the server gets started. *)
Theorem start_kernel_checked t kernel :
  (forall l, fst (os l (SysAccess (cmdline_path (opts t) kernel))) <> 0) \/
  (forall l, fst (os l (SysAccess (kernel_path (opts t) kernel))) <> 0) ->
  exists t', start_kernel t kernel = Ok t' /\ programs (log (srv t')) = programs (log (srv t)) /\
    power_pressed t' = false /\ autoboot_enabled t' = autoboot_enabled t.
Proof.
  intros Hno. unfold start_kernel, autoboot_precheck. set (t0 := note t [UiBouncebar; Sys SysSleep]).
  change (base_path (opts t0)) with (base_path (opts t)). fold (cmdline_path (opts t) kernel). fold (kernel_path (opts t) kernel).
  destruct (sys_log (srv t0) (SysAccess (cmdline_path (opts t) kernel))) as (r & bs & -> & Hr).
  destruct (Z.eqb_spec r 0) as [Hz|Hz]; cbn [negb].
  - destruct Hno as [Hno|Hno]; [by rewrite Hz in Hr; edestruct Hno|].
    destruct (sys_log (add_log (srv t0) [Sys (SysAccess (cmdline_path (opts t) kernel))]) (SysAccess (kernel_path (opts t) kernel)))
      as (r2 & bs2 & -> & Hr2).
    destruct (Z.eqb_spec r2 0) as [Hz2|Hz2]; cbn [negb]; [by rewrite Hz2 in Hr2; edestruct Hno|].
    eexists. split; [reflexivity|]. split; [|done]. cbn [srv log with_keys note with_srv add_log t0].
    by rewrite !programs_app, !app_nil_r.
  - change (negb (-1 =? 0)) with true. cbv iota. eexists. split; [reflexivity|]. split; [|done].
    cbn [srv log with_keys note with_srv add_log t0]. by rewrite !programs_app, !app_nil_r.
Qed.

Lemma start_kernel_flags t kernel t' : start_kernel t kernel = Ok t' ->
  autoboot_enabled t' = autoboot_enabled t /\ power_pressed t' = false.
Proof.
  unfold start_kernel. set (t0 := note t _). destruct (autoboot_precheck t0 kernel) as [t1 r] eqn:Ep.
  assert (H1 : autoboot_enabled t1 = autoboot_enabled t).
  { unfold autoboot_precheck in Ep. repeat match type of Ep with
    | context [sys os ?s ?c] => destruct (sys os s c) as [[? ?] ?]
    | context [if ?c then _ else _] => destruct c
    end; by injection Ep as <- _. }
  destruct (negb (r =? 0)); [intros [= <-]; cbn; done|].
  destruct (kexec_linux os _ _ _) as [[s x]| | |]; cbn [obind]; try done. intros [= <-]. cbn. done.
Qed.

Lemma start_default_flags t t' r : start_default_kernel t = Ok (t', r) ->
  autoboot_enabled t' = autoboot_enabled t /\ (power_pressed t' = true -> power_pressed t = true).
Proof.
  unfold start_default_kernel, mount_internal_mmc. destruct (find_part _ _) as [ptn| | |]; try done. cbn [obind].
  destruct (mount_partition _ _ _ _ _) as [[s x]| | |]; try done. cbn [obind]. unfold start_on.
  set (t0 := with_srv t s). intros H.
  destruct (if (if negb (x =? 0) then -1 else 0) =? 0 then start_kernel t0 (str "kernel") else Ok (note t0 [UiError]))
    as [t1| | |] eqn:E1; try done. cbn [obind] in H.
  destruct (sys os (srv t1) _) as [[s2 r2] bs]. injection H as <- _. cbn [autoboot_enabled power_pressed with_srv].
  destruct (_ =? 0); [|injection E1 as <-; done].
  destruct (start_kernel_flags _ _ _ E1) as [-> ->]. done.
Qed.

(** Stopping the countdown. A key other than power stops the automatic boot:
    no program is run, and the server is started. *)
Theorem autoboot_cancelled during t : 0 < delay_secs (opts t) -> ignore_keypress t = false -> power_pressed t = false ->
  alarm_set t -> let evs := first_keys (clamp (delay_secs (opts t))) during in
  existsb cancels evs = true -> power_first evs = false ->
  exists t', autoboot_thread during t = Ok t' /\ only_logs t t' /\ keeps_waiting t' = false.
Proof.
  intros Hd Hi Hp Ha evs Hc Hf. unfold autoboot_thread.
  destruct (countdown_ok (delay_secs (opts t)) during t Hd Hi Hp Ha) as (t1 & -> & A1 & P1 & S1 & L1 & _). cbn [obind].
  fold evs. rewrite Hc. cbn [negb]. eexists. split; [reflexivity|].
  split; [eapply logs_trans; [exact L1|]; apply logs_note; by repeat constructor|].
  unfold keeps_waiting. cbn [autoboot_enabled power_pressed note with_srv]. rewrite A1, P1. fold evs. by rewrite Hf.
Qed.

(** When the server is never started. [main] waits for the flags of the
    automatic boot to be cleared. With a delay of 0 (or less) the countdown leaves
    its flag set, and when the kernel cannot be started, nothing clears it; the same
    holds when the power key and then another key are pressed within a second: the
    boot is stopped, and the power key counts as pressed. *)
Theorem autoboot_stuck during t t' : ignore_keypress t = false -> power_pressed t = false -> alarm_set t ->
  (delay_secs (opts t) <= 0 -> autoboot_thread during t = Ok t' -> keeps_waiting t' = true) /\
  (0 < delay_secs (opts t) -> let evs := first_keys (clamp (delay_secs (opts t))) during in
   existsb cancels evs = true -> power_first evs = true ->
   exists t', autoboot_thread during t = Ok t' /\ keeps_waiting t' = true).
Proof.
  intros Hi Hp Ha. split.
  - intros Hd. unfold autoboot_thread, countdown. assert (E : (delay_secs (opts t) <=? 0) = true) by lia. rewrite E.
    cbn [obind autoboot_enabled with_keys negb]. destruct (start_default_kernel _) as [[t1 r]| | |] eqn:Es; try done.
    cbn [obind]. intros [= <-]. apply start_default_flags in Es as [Es _]. unfold keeps_waiting. by rewrite Es.
  - intros Hd evs Hc Hf. unfold autoboot_thread.
    destruct (countdown_ok (delay_secs (opts t)) during t Hd Hi Hp Ha) as (t1 & -> & A1 & P1 & S1 & L1 & _). cbn [obind].
    fold evs. rewrite Hc. cbn [negb]. eexists. split; [reflexivity|].
    unfold keeps_waiting. cbn [autoboot_enabled power_pressed note with_srv]. rewrite P1. fold evs. rewrite Hf.
    apply orb_true_r.
Qed.


(** ** The display, the battery, the disk: theorems *)

(** A key that wakes the display does nothing else. While the display is dimmed
    or off, the first press of a menu key lights it and restarts the timer; the menu
    does not see the key. While keys are ignored, nothing happens at all. *)
Theorem input_wakes ev t v : config_value t "lcd_dim_timeout" = Ok (Some v) -> autoboot_enabled t = false -> ev_type ev = EV_KEY -> ev_value ev = 1 ->
  ev_code ev = KEY_VOLUMEUP \/ ev_code ev = KEY_VOLUMEDOWN \/ ev_code ev = KEY_POWER ->
  if ignore_keypress t then input_callback (Some ev) t = Ok (t, 0)
  else lcd t <> lcd_on ->
    exists t', input_callback (Some ev) t = Ok (t', 0) /\ lcd t' = lcd_on /\
      screen t' = fst (lcd_lighton (screen t)) /\
      log (srv t') = log (srv t) ++ [Alarm 0; Alarm (atoi v)] /\
      autoboot_enabled t' = false /\ power_pressed t' = power_pressed t.
Proof.
  intros Hv Hau Hty Hva Hco. unfold input_callback. destruct (ignore_keypress t); [done|]. intros Hl.
  rewrite Hau, Hty, Hva. cbn [andb]. change (EV_KEY =? EV_KEY) with true. change (1 =? 1) with true. cbn [andb].
  assert (Em : (ev_code ev =? KEY_VOLUMEUP) || (ev_code ev =? KEY_VOLUMEDOWN) || (ev_code ev =? KEY_POWER) = true)
    by (destruct Hco as [-> |[-> | ->]]; reflexivity).
  rewrite Em. unfold reset_alarm, config_int. rewrite Hv. cbn [obind oof andb].
  set (t1 := note t [Alarm 0; Alarm (atoi v)]). change (lcd t1) with (lcd t). rewrite bool_decide_false by done. cbn [negb].
  destruct (wake_ok t1 LCD_KEY) as (t' & -> & _ & _ & A1 & P1 & Hsrv & L1 & S1); [done|]. cbn [obind]. exists t'.
  split; [done|]. split; [done|].
  split; [rewrite S1; change (lcd t1) with (lcd t); change (screen t1) with (screen t); by destruct (lcd t)|].
  split; [by rewrite Hsrv|]. by rewrite A1, P1.
Qed.

(** The battery check. It is the comparison of the last known capacity with the
    configured threshold. On a platform that the command line does not name, the
    capacity stays 0 whatever the kernel reports, so that with any positive
    threshold every command that needs power is refused. *)
Theorem check_battery_correct t v : config_value t "battery_threshold" = Ok (Some v) ->
  check_battery t = Ok (if battery_capacity (status t) <? atoi v then -1 else 0) /\
  (forall sock fs msgs n, uevent_thread PLATFORM_UNKNOWN sock fs msgs status_zero = Ok (status t, n) ->
   Forall terminated msgs -> 0 < atoi v -> check_battery t = Ok (-1)).
Proof.
  intros Hv. unfold check_battery, config_int. rewrite Hv. cbn [obind oof]. split; [done|].
  intros sock fs msgs n Hu Hm Hpos.
  assert (Hz : status t = status_zero).
  { unfold uevent_thread in Hu. destruct sock; cbn [negb] in Hu; [|by injection Hu as <- _].
    unfold uevent_status_init in Hu. rewrite init_reads in Hu by done. cbn [obind] in Hu.
    change (filter (fun dm => plat dm = PLATFORM_UNKNOWN) uevent_path) with (@nil device_mapping) in Hu. cbn [fold_left] in Hu.
    destruct (thread_loop_total PLATFORM_UNKNOWN msgs Hm status_zero 1) as (s' & k & H1 & _ & _ & H4).
    { unfold status_ok. cbn. lia. }
    rewrite H1 in Hu. injection Hu as <- _. by apply H4. }
  rewrite Hz. cbn [battery_capacity status_zero]. assert (E : (0 <? atoi v) = true) by lia. by rewrite E.
Qed.

(** Skipping the disk's set-up leaves no layout. When all device nodes exist and
    [disk_force] is [no], in any case of letters, nothing is written to the disk and
    [disk_info] stays null: the commands that look a partition up, and the automatic
    boot, dereference it. *)
Theorem setup_bypassed tc_keys e t layout f vols : Fstab.load_volume_table (fstab e) = Ok vols ->
  Fstab.check_devnodes (nodes e) vols = 0 -> config_value t "disk_force" = Ok (Some f) -> map lower f = str "no" ->
  disk_info t = None ->
  exists t', setup_disk_information tc_keys e t layout = Ok (t', disk_file e) /\ volumes t' = vols /\
    start_default_kernel t' = Undef /\
    (forall c name st flash_cmds, Aboot.cmd_erase os (disk_info t') vols mem flash_cmds (c :: name) st = Undef).
Proof.
  intros Hl Hc Hf Hno Hd. unfold setup_disk_information. rewrite Hl, Hf. cbn [obind]. rewrite Hc. cbn [Z.eqb oof obind].
  rewrite Hno. cbn [bytes_eqb]. change (bytes_eqb (str "no") (str "no")) with true. cbv iota.
  eexists. split; [reflexivity|]. split; [done|].
  unfold start_default_kernel, mount_internal_mmc. cbn [disk_info with_disk]. rewrite Hd. split; [done|]. done.
Qed.

End Main.


(** ** Examples *)

Definition demo_mem (p : Z) : text :=
  if p =? 1 then lit "lcd_dim_timeout" else if p =? 2 then lit "30" else if p =? 3 then lit "battery_threshold"
  else if p =? 4 then lit "10" else if p =? 5 then lit "disk_force" else if p =? 6 then lit "No" else lit "other".

Definition demo_place (name : list Z) : Z :=
  if bytes_eqb name (str "lcd_dim_timeout") then 1 else if bytes_eqb name (str "battery_threshold") then 3
  else if bytes_eqb name (str "disk_force") then 5 else 7.

(** The map with the three keys. *)
Definition demo_config : option Hashmap.Hashmap :=
  match (let m := Hashmap.mk_map (replicate 1 []) 1 (Hashmap.strhash demo_mem) (Hashmap.strcompare demo_mem) 0 in
         let! (m, _) := Hashmap.hashmapPut m 1 2 (true, true) in
         let! (m, _) := Hashmap.hashmapPut m 3 4 (true, true) in
         Hashmap.hashmapPut m 5 6 (true, true)) with
  | Ok (m, _) => Some m
  | _ => None
  end.

Definition demo_tb (delay : Z) (s : lcd_state) : tb :=
  mk_tb (idle_fb STATE_OFFLINE [] []) (mk_options 1 (str "platform") (str "boot") delay 10 0 PLATFORM_UNKNOWN) demo_config
    false false false s (mk_panel (Some (Some 255)) (Some 25) (Some 1)) None [] None status_zero 0 0 false.

Definition press (code : Z) : input_event := mk_event EV_KEY code 1.

Lemma demo_alarm delay s : alarm_set demo_mem demo_place (demo_tb delay s).
Proof. exists (str "30"). vm_compute. reflexivity. Qed.

Lemma countdown_keys_witness :
  exists t', countdown demo_mem demo_place 8 [[]; [press KEY_VOLUMEUP]] (demo_tb 8 lcd_on) = Ok (t', false) /\
    autoboot_enabled t' = false /\ slept t' = 2%nat.
Proof.
  destruct (countdown_keys demo_mem demo_place 8 [[]; [press KEY_VOLUMEUP]] (demo_tb 8 lcd_on)) as (t' & H1 & H2 & _ & H3 & _);
    [reflexivity|reflexivity|apply demo_alarm|]. exists t'. split; [exact H1|]. split; [exact H2|exact H3].
Defined.

Lemma start_kernel_checked_witness :
  exists t', start_kernel (fun _ c => match c with SysAccess _ => (-1, []) | _ => (0, []) end) (demo_tb 8 lcd_on) (str "kernel") = Ok t' /\
    programs (log (srv t')) = [] /\ power_pressed t' = false.
Proof.
  destruct (start_kernel_checked (fun _ c => match c with SysAccess _ => (-1, []) | _ => (0, []) end)
    (demo_tb 8 lcd_on) (str "kernel")) as (t' & H1 & H2 & H3 & _).
  - left. intros l. discriminate.
  - exists t'. split; [exact H1|]. split; [exact H2|exact H3].
Defined.

Lemma autoboot_cancelled_witness :
  exists t', autoboot_thread Aboot.demo_os demo_mem demo_place [[]; [press KEY_VOLUMEUP]] (demo_tb 8 lcd_on) = Ok t' /\
    keeps_waiting t' = false.
Proof.
  destruct (autoboot_cancelled Aboot.demo_os demo_mem demo_place [[]; [press KEY_VOLUMEUP]] (demo_tb 8 lcd_on))
    as (t' & H1 & _ & H2); [reflexivity|reflexivity|reflexivity|apply demo_alarm|reflexivity|reflexivity|].
  exists t'. split; [exact H1|exact H2].
Defined.

Lemma autoboot_stuck_witness :
  exists t', autoboot_thread Aboot.demo_os demo_mem demo_place [[press KEY_POWER; press KEY_VOLUMEUP]] (demo_tb 8 lcd_on) = Ok t' /\
    keeps_waiting t' = true.
Proof.
  destruct (autoboot_stuck Aboot.demo_os demo_mem demo_place [[press KEY_POWER; press KEY_VOLUMEUP]] (demo_tb 8 lcd_on) (demo_tb 8 lcd_on))
    as [_ H]; [reflexivity|reflexivity|apply demo_alarm|]. apply H; reflexivity.
Defined.

Lemma input_wakes_witness :
  exists t', input_callback demo_mem demo_place (Some (press KEY_POWER)) (demo_tb 8 lcd_off) = Ok (t', 0) /\
    lcd t' = lcd_on /\ log (srv t') = [Alarm 0; Alarm 30].
Proof.
  destruct (input_wakes demo_mem demo_place (press KEY_POWER) (demo_tb 8 lcd_off) (str "30")) as (t' & H1 & H2 & _ & H3 & _);
    [vm_compute; reflexivity|reflexivity|reflexivity|reflexivity|right; right; reflexivity|discriminate|].
  exists t'. split; [exact H1|]. split; [exact H2|exact H3].
Defined.

Lemma check_battery_correct_witness : check_battery demo_mem demo_place (demo_tb 8 lcd_on) = Ok (-1).
Proof.
  destruct (check_battery_correct demo_mem demo_place (demo_tb 8 lcd_on) (str "10") ltac:(vm_compute; reflexivity)) as [_ H].
  apply (H true (fun _ => Some (Some (str "90"))) [] 1%nat); [vm_compute; reflexivity|constructor|vm_compute; reflexivity].
Defined.

Definition demo_setup : set_up :=
  mk_setup None (fun _ => true) (fun _ => None) (true, true) None (fun _ => true) (Posix.mk_file [1; 2] 0 (fun n => n) (fun n => n)) 0.

Lemma setup_bypassed_witness :
  exists t', setup_disk_information demo_mem demo_place [] demo_setup (demo_tb 8 lcd_on) [] = Ok (t', disk_file demo_setup) /\
    start_default_kernel Aboot.demo_os t' = Undef.
Proof.
  destruct (setup_bypassed Aboot.demo_os demo_mem demo_place [] demo_setup (demo_tb 8 lcd_on) [] (str "No") [Fstab.tmp_volume])
    as (t' & H1 & _ & H2 & _); [reflexivity|reflexivity|vm_compute; reflexivity|vm_compute; reflexivity|reflexivity|].
  exists t'. split; [exact H1|exact H2].
Defined.

(** The directory of the second stage is given, and the partition changes. *)
Example bootdir_sets_part :
  import_options true (Some (Some (str "tboot.bootdir=images" ++ [10]))) first_options =
  Ok (mk_options 0 (str "images") (str "boot") 8 10 0 PLATFORM_UNKNOWN).
Proof. vm_compute. reflexivity. Qed.

(** With the default delay the first bar of the countdown is out of its range. *)
Example countdown_bar :
  match countdown demo_mem demo_place 8 [] (demo_tb 8 lcd_on) with
  | Ok (t, _) => head (log (srv t)) = Some (UiTextbar (-104))
  | _ => False
  end.
Proof. vm_compute. reflexivity. Qed.

(** A version of 32 characters is not terminated. *)
Example preos_version_unterminated : get_preos_version (Some (Some (replicate 40 65))) = Undef.
Proof. vm_compute. reflexivity. Qed.

End TbootMain.
