(* ===== verification/Sha1.v ===== *)
(** * ext4_utils/sha1.c and uuid.c

    The SHA-1 hash that names a file system: the transformation of a block with
    its schedule expanded in place, the buffered interface, and the identifier
    made from a hash. The reference is the definition of FIPS 180: a schedule of
    80 words, a step on five variables, padding of the whole message. *)

From S2P Require Import Prelude.

Module Sha1.

(** ** The transformation of a block *)

Definition rol (value bits : Z) : Z := Z.lor (u32 (Z.shiftl value bits)) (Z.shiftr value (32 - bits)).

(** [block->l[i]] *)
Definition word (l : list Z) (i : Z) : Z := nth (Z.to_nat i) l 0.

(** [blk0] and [blk] store the word they return. *)
Definition blk0 (l : list Z) (i : Z) : Z * list Z :=
  let v := Z.lor (Z.land (rol (word l i) 24) 0xFF00FF00) (Z.land (rol (word l i) 8) 0x00FF00FF) in
  (v, <[Z.to_nat i := v]> l).

Definition blk (l : list Z) (i : Z) : Z * list Z :=
  let v := rol (Z.lxor (Z.lxor (Z.lxor (word l (Z.land (i + 13) 15)) (word l (Z.land (i + 8) 15)))
                          (word l (Z.land (i + 2) 15))) (word l (Z.land i 15))) 1 in
  (v, <[Z.to_nat (Z.land i 15) := v]> l).

(** The variables [a] to [e], and a call of one of the round macros. *)
Inductive reg := ra | rb | rc | rd | re.

Inductive call :=
  | R0 (v w x y z : reg) (i : Z)
  | R1 (v w x y z : reg) (i : Z)
  | R2 (v w x y z : reg) (i : Z)
  | R3 (v w x y z : reg) (i : Z)
  | R4 (v w x y z : reg) (i : Z).

Record regs := mk_regs { reg_a : Z; reg_b : Z; reg_c : Z; reg_d : Z; reg_e : Z }.

Definition get (r : regs) (x : reg) : Z :=
  match x with ra => reg_a r | rb => reg_b r | rc => reg_c r | rd => reg_d r | re => reg_e r end.

Definition put (r : regs) (x : reg) (n : Z) : regs :=
  let '(mk_regs a b c d e) := r in
  match x with
  | ra => mk_regs n b c d e | rb => mk_regs a n c d e | rc => mk_regs a b n d e
  | rd => mk_regs a b c n e | re => mk_regs a b c d n
  end.

(** [z += f + block word + k + rol(v,5); w = rol(w,30);] *)
Definition mix (r : regs) (v w z : reg) (f k : Z) (bl : Z * list Z) : regs * list Z :=
  let r := put r z (u32 (get r z + (f + fst bl + k + rol (get r v) 5))) in
  (put r w (rol (get r w) 30), snd bl).

Definition run_call (st : regs * list Z) (c : call) : regs * list Z :=
  let '(r, l) := st in
  match c with
  | R0 v w x y z i => mix r v w z (Z.lxor (Z.land (get r w) (Z.lxor (get r x) (get r y))) (get r y)) 0x5A827999 (blk0 l i)
  | R1 v w x y z i => mix r v w z (Z.lxor (Z.land (get r w) (Z.lxor (get r x) (get r y))) (get r y)) 0x5A827999 (blk l i)
  | R2 v w x y z i => mix r v w z (Z.lxor (Z.lxor (get r w) (get r x)) (get r y)) 0x6ED9EBA1 (blk l i)
  | R3 v w x y z i => mix r v w z (Z.lor (Z.land (Z.lor (get r w) (get r x)) (get r y)) (Z.land (get r w) (get r x)))
                        0x8F1BBCDC (blk l i)
  | R4 v w x y z i => mix r v w z (Z.lxor (Z.lxor (get r w) (get r x)) (get r y)) 0xCA62C1D6 (blk l i)
  end.

(** The unrolled loop. *)
Definition calls : list call := [
  R0 ra rb rc rd re 0; R0 re ra rb rc rd 1; R0 rd re ra rb rc 2; R0 rc rd re ra rb 3;
  R0 rb rc rd re ra 4; R0 ra rb rc rd re 5; R0 re ra rb rc rd 6; R0 rd re ra rb rc 7;
  R0 rc rd re ra rb 8; R0 rb rc rd re ra 9; R0 ra rb rc rd re 10; R0 re ra rb rc rd 11;
  R0 rd re ra rb rc 12; R0 rc rd re ra rb 13; R0 rb rc rd re ra 14; R0 ra rb rc rd re 15;
  R1 re ra rb rc rd 16; R1 rd re ra rb rc 17; R1 rc rd re ra rb 18; R1 rb rc rd re ra 19;
  R2 ra rb rc rd re 20; R2 re ra rb rc rd 21; R2 rd re ra rb rc 22; R2 rc rd re ra rb 23;
  R2 rb rc rd re ra 24; R2 ra rb rc rd re 25; R2 re ra rb rc rd 26; R2 rd re ra rb rc 27;
  R2 rc rd re ra rb 28; R2 rb rc rd re ra 29; R2 ra rb rc rd re 30; R2 re ra rb rc rd 31;
  R2 rd re ra rb rc 32; R2 rc rd re ra rb 33; R2 rb rc rd re ra 34; R2 ra rb rc rd re 35;
  R2 re ra rb rc rd 36; R2 rd re ra rb rc 37; R2 rc rd re ra rb 38; R2 rb rc rd re ra 39;
  R3 ra rb rc rd re 40; R3 re ra rb rc rd 41; R3 rd re ra rb rc 42; R3 rc rd re ra rb 43;
  R3 rb rc rd re ra 44; R3 ra rb rc rd re 45; R3 re ra rb rc rd 46; R3 rd re ra rb rc 47;
  R3 rc rd re ra rb 48; R3 rb rc rd re ra 49; R3 ra rb rc rd re 50; R3 re ra rb rc rd 51;
  R3 rd re ra rb rc 52; R3 rc rd re ra rb 53; R3 rb rc rd re ra 54; R3 ra rb rc rd re 55;
  R3 re ra rb rc rd 56; R3 rd re ra rb rc 57; R3 rc rd re ra rb 58; R3 rb rc rd re ra 59;
  R4 ra rb rc rd re 60; R4 re ra rb rc rd 61; R4 rd re ra rb rc 62; R4 rc rd re ra rb 63;
  R4 rb rc rd re ra 64; R4 ra rb rc rd re 65; R4 re ra rb rc rd 66; R4 rd re ra rb rc 67;
  R4 rc rd re ra rb 68; R4 rb rc rd re ra 69; R4 ra rb rc rd re 70; R4 re ra rb rc rd 71;
  R4 rd re ra rb rc 72; R4 rc rd re ra rb 73; R4 rb rc rd re ra 74; R4 ra rb rc rd re 75;
  R4 re ra rb rc rd 76; R4 rd re ra rb rc 77; R4 rc rd re ra rb 78; R4 rb rc rd re ra 79
].

(** The words of a buffer of bytes, as the machine reads them. *)
Fixpoint le_words (n : nat) (b : list Z) : list Z :=
  match n with O => [] | S n' => le_val (take 4 b) :: le_words n' (drop 4 b) end.

Definition SHA1Transform (state : regs) (buffer : list Z) : regs :=
  let '(r, _) := fold_left run_call calls (state, le_words 16 buffer) in
  mk_regs (u32 (reg_a state + reg_a r)) (u32 (reg_b state + reg_b r)) (u32 (reg_c state + reg_c r))
    (u32 (reg_d state + reg_d r)) (u32 (reg_e state + reg_e r)).

(** ** The buffered interface *)

Record SHA1_CTX := mk_ctx { state : regs; count0 : Z; count1 : Z; buffer : list Z }.

(** [buffer] is what the memory held before. *)
Definition SHA1Init (buffer : list Z) : SHA1_CTX :=
  mk_ctx (mk_regs 0x67452301 0xEFCDAB89 0x98BADCFE 0x10325476 0xC3D2E1F0) 0 0 buffer.

(** [memcpy(&buffer[j], d, ...)]: outside of the buffer the behaviour is undefined. *)
Definition copy_to (buffer : list Z) (j : Z) (d : list Z) : outcome (list Z) :=
  if j + zlen d <=? zlen buffer
  then Ok (take (Z.to_nat j) buffer ++ d ++ drop (Z.to_nat (j + zlen d)) buffer)
  else Undef.

(** [for ( ; i + 63 < len; i += 64)] *)
Fixpoint update_loop (fuel : nat) (st : regs) (data : list Z) (i len : Z) : outcome (regs * Z) :=
  match fuel with
  | O => NoFuel
  | S f =>
      if u32 (i + 63) <? len then update_loop f (SHA1Transform st (sub_bytes data i 64)) data (u32 (i + 64)) len
      else Ok (st, i)
  end.

(** [len] is the length of [data]. *)
Definition SHA1Update (context : SHA1_CTX) (data : list Z) : outcome SHA1_CTX :=
  let len := zlen data in
  let j := count0 context in
  let c0 := u32 (count0 context + u32 (Z.shiftl len 3)) in
  let c1 := if c0 <? j then u32 (count1 context + (Z.shiftr len 29 + 1)) else count1 context in
  let j := Z.land (Z.shiftr j 3) 63 in
  if 63 <? u32 (j + len) then
    let i := 64 - j in
    let! b := copy_to (buffer context) j (sub_bytes data 0 i) in
    let! (st, i) := update_loop (S (length data)) (SHA1Transform (state context) b) data i len in
    let! b := copy_to b 0 (sub_bytes data i (len - i)) in
    Ok (mk_ctx st c0 c1 b)
  else
    let! b := copy_to (buffer context) j data in
    Ok (mk_ctx (state context) c0 c1 b).

(** [(count[(i >= 4 ? 0 : 1)] >> ((3-(i & 3)) * 8)) & 255] *)
Definition finalcount (context : SHA1_CTX) : list Z :=
  map (fun i => Z.land (Z.shiftr (if 4 <=? i then count0 context else count1 context) ((3 - Z.land i 3) * 8)) 255)
    (seqZ 0 8).

Fixpoint pad_loop (fuel : nat) (context : SHA1_CTX) : outcome SHA1_CTX :=
  match fuel with
  | O => NoFuel
  | S f =>
      if Z.land (count0 context) 504 =? 448 then Ok context
      else let! context := SHA1Update context [0] in pad_loop f context
  end.

Definition state_word (r : regs) (i : Z) : Z :=
  match i with 0 => reg_a r | 1 => reg_b r | 2 => reg_c r | 3 => reg_d r | _ => reg_e r end.

Definition digest (r : regs) : list Z :=
  map (fun i => Z.land (Z.shiftr (state_word r (Z.shiftr i 2)) ((3 - Z.land i 3) * 8)) 255) (seqZ 0 20).

Definition SHA1Final (context : SHA1_CTX) : outcome (list Z) :=
  let count := finalcount context in
  let! context := SHA1Update context [128] in
  let! context := pad_loop 65 context in
  let! context := SHA1Update context count in
  Ok (digest (state context)).

(** ** [uuid.c] *)

Definition sha1_hash (stack namespace name : list Z) : outcome (list Z) :=
  let! ctx := SHA1Update (SHA1Init stack) namespace in
  let! ctx := SHA1Update ctx name in
  SHA1Final ctx.

(** The fields of [struct uuid] as the machine reads and writes them; [ntohl]
    and [ntohs] reverse the bytes of a word. *)
Definition ntoh (n : nat) (x : Z) : Z := le_val (rev (le_bytes n x)).

Definition generate_uuid (stack namespace name : list Z) : outcome (list Z) :=
  let! sha1 := sha1_hash stack namespace name in
  let field off n := le_val (sub_bytes sha1 off n) in
  let time_low := ntoh 4 (field 0 4) in
  let time_mid := ntoh 2 (field 4 2) in
  let time_hi_and_version := Z.lor (Z.land (ntoh 2 (field 6 2)) 0x0FFF) (Z.shiftl 5 12) in
  let clk_seq_hi_res := Z.lor (Z.land (field 8 1) (255 - 64)) 128 in
  Ok (le_bytes 4 time_low ++ le_bytes 2 time_mid ++ le_bytes 2 time_hi_and_version ++
      [clk_seq_hi_res] ++ sub_bytes sha1 9 7).

(** ** The reference *)

Definition ch (x y z : Z) : Z := Z.lxor (Z.land x y) (Z.land (Z.lnot x) z).
Definition parity (x y z : Z) : Z := Z.lxor (Z.lxor x y) z.
Definition maj (x y z : Z) : Z := Z.lxor (Z.lxor (Z.land x y) (Z.land x z)) (Z.land y z).

Definition f_t (t : Z) : Z -> Z -> Z -> Z :=
  if t <? 20 then ch else if t <? 40 then parity else if t <? 60 then maj else parity.
Definition k_t (t : Z) : Z :=
  if t <? 20 then 0x5A827999 else if t <? 40 then 0x6ED9EBA1 else if t <? 60 then 0x8F1BBCDC else 0xCA62C1D6.

(** The schedule: the words of the block, most significant byte first, and
    64 more, each from four words before it. *)
Fixpoint be_words (n : nat) (b : list Z) : list Z :=
  match n with O => [] | S n' => le_val (rev (take 4 b)) :: be_words n' (drop 4 b) end.

Fixpoint expand (n : nat) (w : list Z) : list Z :=
  match n with
  | O => w
  | S n' =>
      let t := zlen w in
      expand n' (w ++ [rol (Z.lxor (Z.lxor (Z.lxor (word w (t - 3)) (word w (t - 8))) (word w (t - 14))) (word w (t - 16))) 1])
  end.

Definition schedule (b : list Z) : list Z := expand 64 (be_words 16 b).

Definition step (r : regs) (t w : Z) : regs :=
  let '(mk_regs a b c d e) := r in
  mk_regs (u32 (rol a 5 + f_t t b c d + e + k_t t + w)) a (rol b 30) c d.

Definition steps (n : nat) (r : regs) (w : list Z) : regs :=
  fold_left (fun r t => step r t (word w t)) (seqZ 0 (Z.of_nat n)) r.

Definition compress (h : regs) (b : list Z) : regs :=
  let r := steps 80 h (schedule b) in
  mk_regs (u32 (reg_a h + reg_a r)) (u32 (reg_b h + reg_b r)) (u32 (reg_c h + reg_c r))
    (u32 (reg_d h + reg_d r)) (u32 (reg_e h + reg_e r)).

(** The blocks of a message whose length is a multiple of 64. *)
Fixpoint blocks (n : nat) (h : regs) (m : list Z) : regs :=
  match n with O => h | S n' => blocks n' (compress h (take 64 m)) (drop 64 m) end.

Definition be_bytes (n : nat) (z : Z) : list Z := rev (le_bytes n z).

(** A one bit, zeros up to 8 bytes before the end of a block, and the number of bits. *)
Definition padded (m : list Z) : list Z :=
  m ++ [128] ++ zeros ((55 - zlen m) mod 64) ++ be_bytes 8 (8 * zlen m).

Definition initial : regs := mk_regs 0x67452301 0xEFCDAB89 0x98BADCFE 0x10325476 0xC3D2E1F0.

Definition regs_bytes (r : regs) : list Z :=
  be_bytes 4 (reg_a r) ++ be_bytes 4 (reg_b r) ++ be_bytes 4 (reg_c r) ++ be_bytes 4 (reg_d r) ++ be_bytes 4 (reg_e r).

Definition sha1 (m : list Z) : list Z :=
  let p := padded m in regs_bytes (blocks (length p / 64) initial p).

(** The test vector of the file's comment. *)
Example sha1_abc : sha1_hash (zeros 64) [97] [98; 99] =
  Ok [0xA9; 0x99; 0x3E; 0x36; 0x47; 0x06; 0x81; 0x6A; 0xBA; 0x3E; 0x25; 0x71; 0x78; 0x50; 0xC2; 0x6C; 0x9C; 0xD0; 0xD8; 0x9D].
Proof. vm_compute. reflexivity. Qed.

Example sha1_abc_reference : sha1 [97; 98; 99] =
  [0xA9; 0x99; 0x3E; 0x36; 0x47; 0x06; 0x81; 0x6A; 0xBA; 0x3E; 0x25; 0x71; 0x78; 0x50; 0xC2; 0x6C; 0x9C; 0xD0; 0xD8; 0x9D].
Proof. vm_compute. reflexivity. Qed.

(** ** Bits and words *)

Lemma testbit_le_val l : bytes_ok l -> forall n, 0 <= n ->
  Z.testbit (le_val l) n = Z.testbit (nth (Z.to_nat (n / 8)) l 0) (n mod 8).
Proof.
  induction 1 as [|b l Hb Hl IH]; intros n Hn; cbn [le_val].
  - destruct (Z.to_nat (n / 8)); rewrite !Z.bits_0; reflexivity.
  - assert ((b + 256 * le_val l) mod 2 ^ 8 = b) as Em
      by (symmetry; apply (Z.mod_unique _ _ (le_val l)); [unfold byte_ok in Hb; lia|lia]).
    assert ((b + 256 * le_val l) / 2 ^ 8 = le_val l) as Ed
      by (symmetry; apply (Z.div_unique _ _ _ b); [unfold byte_ok in Hb; lia|lia]).
    destruct (Z.lt_ge_cases n 8) as [H|H].
    + rewrite (Z.div_small n 8), (Z.mod_small n 8) by lia. cbn [nth Z.to_nat].
      rewrite <- (Z.mod_pow2_bits_low _ 8 n) by lia. rewrite Em. reflexivity.
    + assert (n = (n - 8) + 8) as En by lia. rewrite En at 1. rewrite <- Z.div_pow2_bits by lia.
      rewrite Ed, IH by lia. replace (n / 8) with ((n - 8) / 8 + 1) by (Z.div_mod_to_equations; lia).
      rewrite Z2Nat.inj_add by (try apply Z.div_pos; lia). rewrite Nat.add_comm. cbn [nth Z.to_nat Pos.to_nat Nat.add].
      f_equal. Z.div_mod_to_equations; lia.
Qed.

Lemma rol_bits x k n : 0 <= x < 2 ^ 32 -> 0 < k < 32 -> 0 <= n ->
  Z.testbit (rol x k) n = (n <? 32) && Z.testbit x ((n - k) mod 32).
Proof.
  intros Hx Hk Hn. unfold rol, u32. rewrite Z.lor_spec, Z.shiftr_spec by lia.
  assert (forall i, 32 <= i -> Z.testbit x i = false) as Hh.
  { intros i Hi. rewrite <- (Z.mod_small x (2 ^ 32)) by lia. apply Z.mod_pow2_bits_high. lia. }
  destruct (Z.ltb_spec n 32) as [H|H]; cbn [andb].
  - rewrite Z.mod_pow2_bits_low, Z.shiftl_spec by lia. destruct (Z.lt_ge_cases n k) as [H1|H1].
    + rewrite Z.testbit_neg_r by lia. cbn [orb]. f_equal. Z.div_mod_to_equations; lia.
    + rewrite (Hh (n + (32 - k))), orb_false_r by lia. rewrite Z.mod_small by lia. reflexivity.
  - rewrite Z.mod_pow2_bits_high, Hh by lia. reflexivity.
Qed.

Lemma le_val_range l : bytes_ok l -> 0 <= le_val l < 256 ^ zlen l.
Proof.
  induction 1 as [|b l Hb Hl IH]; cbn [le_val]; [change (256 ^ zlen (@nil Z)) with 1; lia|]. unfold byte_ok in Hb.
  pose proof (zlen_nonneg l). rewrite zlen_cons, Z.pow_add_r, Z.pow_1_r by lia. lia.
Qed.

(** Swapping the bytes of a word. *)
Lemma swap_word b0 b1 b2 b3 : bytes_ok [b0; b1; b2; b3] ->
  let x := le_val [b0; b1; b2; b3] in
  Z.lor (Z.land (rol x 24) 0xFF00FF00) (Z.land (rol x 8) 0x00FF00FF) = le_val [b3; b2; b1; b0].
Proof.
  intros Hb x. pose proof (le_val_range _ Hb) as Hx. change (256 ^ zlen [b0; b1; b2; b3]) with (2 ^ 32) in Hx. fold x in Hx.
  assert (bytes_ok [b3; b2; b1; b0]) as Hr.
  { change [b3; b2; b1; b0] with (rev [b0; b1; b2; b3]). apply Forall_rev. exact Hb. }
  apply Z.bits_inj'. intros n Hn. rewrite Z.lor_spec, !Z.land_spec, !rol_bits by lia.
  destruct (Z.ltb_spec n 32) as [H|H]; cbn [andb].
  - rewrite testbit_le_val by assumption. unfold x. rewrite !testbit_le_val by (try assumption; Z.div_mod_to_equations; lia).
    assert (exists i : nat, (i < 32)%nat /\ n = Z.of_nat i) as (i & Hi & ->) by (exists (Z.to_nat n); lia).
    do 32 (destruct i as [|i]; [cbn -[Z.testbit]; rewrite ?andb_false_r, ?andb_true_r, ?orb_false_r; reflexivity|]). lia.
  - cbn [orb]. symmetry. pose proof (le_val_range _ Hr) as Hy. change (256 ^ zlen [b3; b2; b1; b0]) with (2 ^ 32) in Hy.
    rewrite <- (Z.mod_small (le_val [b3; b2; b1; b0]) (2 ^ 32)) by lia. apply Z.mod_pow2_bits_high. lia.
Qed.

Lemma ch_same x y z : Z.lxor (Z.land x (Z.lxor y z)) z = ch x y z.
Proof.
  apply Z.bits_inj'. intros n Hn. unfold ch. rewrite !Z.lxor_spec, !Z.land_spec, Z.lxor_spec, Z.lnot_spec by lia.
  destruct (Z.testbit x n), (Z.testbit y n), (Z.testbit z n); reflexivity.
Qed.

Lemma maj_same x y z : Z.lor (Z.land (Z.lor x y) z) (Z.land x y) = maj x y z.
Proof.
  apply Z.bits_inj'. intros n Hn. unfold maj. rewrite !Z.lxor_spec, Z.lor_spec, !Z.land_spec, Z.lor_spec.
  destruct (Z.testbit x n), (Z.testbit y n), (Z.testbit z n); reflexivity.
Qed.

(** ** The schedule *)

Definition next_word (w : list Z) (t : Z) : Z :=
  rol (Z.lxor (Z.lxor (Z.lxor (word w (t - 3)) (word w (t - 8))) (word w (t - 14))) (word w (t - 16))) 1.

Lemma word_app_l w v u : 0 <= u < zlen w -> word (w ++ v) u = word w u.
Proof. intros H. unfold word. apply app_nth1. unfold zlen in H. lia. Qed.

Lemma expand_spec n : forall w, 16 <= zlen w ->
  zlen (expand n w) = zlen w + Z.of_nat n /\
  (forall u, 0 <= u < zlen w -> word (expand n w) u = word w u) /\
  (forall t, zlen w <= t < zlen w + Z.of_nat n -> word (expand n w) t = next_word (expand n w) t).
Proof.
  induction n as [|n IH]; intros w Hw; cbn [expand]; [split; [lia|split; [reflexivity|intros; lia]]|].
  fold (next_word w (zlen w)). destruct (IH (w ++ [next_word w (zlen w)])) as (Hl & Hp & Hr);
    [rewrite zlen_app; pose proof (zlen_nonneg [next_word w (zlen w)]); lia|].
  rewrite zlen_app, zlen_cons, zlen_nil in *. split; [lia|]. split.
  - intros u Hu. rewrite Hp by lia. apply word_app_l. lia.
  - intros t Ht. destruct (decide (t = zlen w)) as [->|Hne]; [|apply Hr; lia].
    set (v := next_word w (zlen w)) in *. set (e := expand n (w ++ [v])) in *.
    assert (next_word e (zlen w) = v) as ->.
    { unfold next_word. rewrite !Hp by lia. rewrite !word_app_l by lia. reflexivity. }
    rewrite Hp by lia. unfold word. rewrite app_nth2 by (unfold zlen; lia). unfold zlen.
    replace (Z.to_nat (Z.of_nat (length w)) - length w)%nat with 0%nat by lia. reflexivity.
Qed.

Lemma le_words_length n : forall b, length (le_words n b) = n.
Proof. induction n as [|n IH]; intros b; cbn; [reflexivity|]. rewrite IH. reflexivity. Qed.

Lemma be_words_length n : forall b, length (be_words n b) = n.
Proof. induction n as [|n IH]; intros b; cbn; [reflexivity|]. rewrite IH. reflexivity. Qed.

(** [blk0] finds the word of the message in the word the machine reads. *)
Lemma swap_words n : forall b u, bytes_ok b -> length b = (4 * n)%nat -> (u < n)%nat ->
  Z.lor (Z.land (rol (nth u (le_words n b) 0) 24) 0xFF00FF00) (Z.land (rol (nth u (le_words n b) 0) 8) 0x00FF00FF) =
  nth u (be_words n b) 0.
Proof.
  induction n as [|n IH]; intros b u Hb Hl Hu; [lia|].
  destruct b as [|b0 [|b1 [|b2 [|b3 b]]]]; try (cbn in Hl; lia).
  destruct u as [|u].
  - cbn [le_words be_words take nth rev app]. apply swap_word.
    inversion Hb as [|? ? H0 H']; subst. inversion H' as [|? ? H1 H'']; subst. inversion H'' as [|? ? H2 H''']; subst.
    inversion H''' as [|? ? H3 _]; subst. unfold bytes_ok. rewrite !Forall_cons, Forall_nil. auto.
  - cbn [le_words be_words drop nth]. change (S (S (S (S (length b)))) = 4 * S n)%nat in Hl.
    assert (bytes_ok b) as Hb' by (unfold bytes_ok in *; rewrite !Forall_cons in Hb; tauto).
    assert (u < n)%nat as Hu' by lia. exact (IH b u Hb' ltac:(lia) Hu').
Qed.

Lemma schedule_first b u : 0 <= u < 16 -> word (schedule b) u = word (be_words 16 b) u.
Proof.
  intros Hu. unfold schedule. destruct (expand_spec 64 (be_words 16 b)) as (_ & Hp & _);
    [unfold zlen; rewrite be_words_length; lia|]. apply Hp. unfold zlen. rewrite be_words_length. lia.
Qed.

Lemma schedule_next b t : 16 <= t < 80 -> word (schedule b) t = next_word (schedule b) t.
Proof.
  intros Ht. unfold schedule. destruct (expand_spec 64 (be_words 16 b)) as (_ & _ & Hr);
    [unfold zlen; rewrite be_words_length; lia|]. apply Hr. unfold zlen. rewrite be_words_length. lia.
Qed.

(** ** The unrolled rounds

    Before round [t] the block holds the last words of the schedule, and what
    the message words of the rounds to come are made from. *)

Definition sched (b : list Z) (t : Z) (l : list Z) : Prop :=
  length l = 16%nat /\
  (forall u, 0 <= u < t -> t - 16 <= u -> word l (u mod 16) = word (schedule b) u) /\
  (forall u, t <= u < 16 -> word l u = word (le_words 16 b) u).

Lemma word_insert l i v u : length l = 16%nat -> 0 <= i < 16 -> 0 <= u < 16 ->
  word (<[Z.to_nat i := v]> l) u = if decide (u = i) then v else word l u.
Proof.
  intros Hl Hi Hu. unfold word. rewrite !nth_lookup.
  destruct (decide (u = i)) as [->|Hne].
  - rewrite list_lookup_insert_eq by lia. reflexivity.
  - rewrite list_lookup_insert_ne by lia. reflexivity.
Qed.

Lemma sched_put b t l : 0 <= t < 80 -> sched b t l ->
  sched b (t + 1) (<[Z.to_nat (t mod 16) := word (schedule b) t]> l).
Proof.
  intros Ht (Hl & H1 & H2). split; [rewrite length_insert; exact Hl|]. pose proof (Z.mod_pos_bound t 16 ltac:(lia)).
  split.
  - intros u Hu Hu16. rewrite word_insert by (try apply Z.mod_pos_bound; lia).
    destruct (decide (u mod 16 = t mod 16)) as [E|E].
    + f_equal. Z.div_mod_to_equations; lia.
    + apply H1; [|lia]. assert (u <> t) by congruence. lia.
  - intros u Hu. rewrite word_insert by lia. rewrite (Z.mod_small t) in * by lia.
    destruct (decide (u = t)); [lia|]. apply H2. lia.
Qed.

Lemma blk0_spec b t l : bytes_ok b -> zlen b = 64 -> 0 <= t < 16 -> sched b t l ->
  blk0 l t = (word (schedule b) t, <[Z.to_nat (t mod 16) := word (schedule b) t]> l).
Proof.
  intros Hb Hz Ht (Hl & _ & H2). rewrite Z.mod_small by lia. unfold blk0. rewrite H2 by lia.
  rewrite schedule_first by lia. unfold word. rewrite swap_words; [reflexivity|exact Hb|unfold zlen in Hz; lia|lia].
Qed.

Lemma land15 i : Z.land i 15 = i mod 16.
Proof. change 15 with (Z.ones 4). apply Z.land_ones. lia. Qed.

Lemma blk_spec b t l : 16 <= t < 80 -> sched b t l ->
  blk l t = (word (schedule b) t, <[Z.to_nat (t mod 16) := word (schedule b) t]> l).
Proof.
  intros Ht (Hl & H1 & _). unfold blk. rewrite !land15.
  rewrite (schedule_next b t) by lia. unfold next_word.
  rewrite <- (H1 (t - 3)), <- (H1 (t - 8)), <- (H1 (t - 14)), <- (H1 (t - 16)) by lia.
  replace ((t + 13) mod 16) with ((t - 3) mod 16) by (Z.div_mod_to_equations; lia).
  replace ((t + 8) mod 16) with ((t - 8) mod 16) by (Z.div_mod_to_equations; lia).
  replace ((t + 2) mod 16) with ((t - 14) mod 16) by (Z.div_mod_to_equations; lia).
  replace (t mod 16) with ((t - 16) mod 16) by (Z.div_mod_to_equations; lia). reflexivity.
Qed.

(** The round macro of round [t], with the variables it is called with. *)
Definition round_call (t : Z) : call :=
  let op := if t <? 16 then R0 else if t <? 20 then R1 else if t <? 40 then R2 else if t <? 60 then R3 else R4 in
  match t mod 5 with
  | 0 => op ra rb rc rd re t
  | 1 => op re ra rb rc rd t
  | 2 => op rd re ra rb rc t
  | 3 => op rc rd re ra rb t
  | _ => op rb rc rd re ra t
  end.

Lemma calls_rounds : calls = map round_call (seqZ 0 80).
Proof. vm_compute. reflexivity. Qed.

(** Where the variables of the reference are after [t] rounds. *)
Definition place (t : Z) (r : regs) : regs :=
  let '(mk_regs a b c d e) := r in
  match t mod 5 with
  | 0 => mk_regs a b c d e
  | 1 => mk_regs b c d e a
  | 2 => mk_regs c d e a b
  | 3 => mk_regs d e a b c
  | _ => mk_regs e a b c d
  end.

Lemma mix_sum z f w k v : u32 (z + (f + w + k + v)) = u32 (v + f + z + k + w).
Proof. f_equal. lia. Qed.

Ltac sum_words := rewrite mix_sum, ?ch_same, ?maj_same; reflexivity.

Lemma round_spec b t r l : bytes_ok b -> zlen b = 64 -> 0 <= t < 80 -> sched b t l ->
  run_call (place t r, l) (round_call t) =
    (place (t + 1) (step r t (word (schedule b) t)), <[Z.to_nat (t mod 16) := word (schedule b) t]> l).
Proof.
  intros Hb Hz Ht Hs. destruct r as [a1 b1 c1 d1 e1]. unfold step, f_t, k_t, round_call, place.
  assert (t mod 5 = 0 /\ (t + 1) mod 5 = 1 \/ t mod 5 = 1 /\ (t + 1) mod 5 = 2 \/ t mod 5 = 2 /\ (t + 1) mod 5 = 3 \/
    t mod 5 = 3 /\ (t + 1) mod 5 = 4 \/ t mod 5 = 4 /\ (t + 1) mod 5 = 0) as H5 by (Z.div_mod_to_equations; lia).
  destruct H5 as [(-> & ->)|[(-> & ->)|[(-> & ->)|[(-> & ->)|(-> & ->)]]]];
    (destruct (Z.ltb_spec t 16) as [H1|H1];
      [rewrite (proj2 (Z.ltb_lt t 20)) by lia; unfold run_call; rewrite (blk0_spec b t l Hb Hz ltac:(lia) Hs)
      |destruct (Z.ltb_spec t 20) as [H2|H2]; [|destruct (Z.ltb_spec t 40) as [H3|H3]; [|destruct (Z.ltb_spec t 60) as [H4|H4]]];
       unfold run_call; rewrite (blk_spec b t l ltac:(lia) Hs)]);
    unfold mix; cbn [get put fst snd reg_a reg_b reg_c reg_d reg_e]; sum_words.
Qed.

Lemma rounds_spec b h n : bytes_ok b -> zlen b = 64 -> (n <= 80)%nat ->
  exists l, fold_left run_call (map round_call (seqZ 0 (Z.of_nat n))) (h, le_words 16 b) =
    (place (Z.of_nat n) (steps n h (schedule b)), l) /\ sched b (Z.of_nat n) l.
Proof.
  intros Hb Hz. induction n as [|n IH]; intros Hn.
  - exists (le_words 16 b). split; [destruct h; reflexivity|]. split; [apply le_words_length|].
    split; [intros; lia|reflexivity].
  - destruct IH as (l & E & Hs); [lia|]. exists (<[Z.to_nat (Z.of_nat n mod 16) := word (schedule b) (Z.of_nat n)]> l).
    rewrite Nat2Z.inj_succ, <- Z.add_1_r. split; [|apply sched_put; [lia|exact Hs]].
    unfold steps. rewrite Nat2Z.inj_succ, <- Z.add_1_r. rewrite seqZ_app by lia. rewrite map_app, !fold_left_app, E.
    cbn [seqZ map fold_left]. rewrite Z.add_0_l. exact (round_spec b (Z.of_nat n) _ l Hb Hz ltac:(lia) Hs).
Qed.

Lemma SHA1Transform_spec h b : bytes_ok b -> zlen b = 64 -> SHA1Transform h b = compress h b.
Proof.
  intros Hb Hz. unfold SHA1Transform, compress. rewrite calls_rounds.
  destruct (rounds_spec b h 80 Hb Hz ltac:(lia)) as (l & E & _). change (Z.of_nat 80) with 80 in E. rewrite E.
  destruct (steps 80 h (schedule b)). reflexivity.
Qed.

(** ** The buffered interface *)

Lemma blocks_app k n : forall h m, blocks (k + n) h m = blocks n (blocks k h m) (drop (64 * k) m).
Proof.
  induction k as [|k IH]; intros h m; cbn [blocks Nat.add]; [reflexivity|].
  rewrite IH, drop_drop. do 2 f_equal. lia.
Qed.

Lemma blocks_prefix k : forall h m d, (64 * k <= length m)%nat -> blocks k h (m ++ d) = blocks k h m.
Proof.
  induction k as [|k IH]; intros h m d Hl; cbn [blocks]; [reflexivity|].
  rewrite take_app_le, drop_app_le by lia. apply IH. rewrite length_drop. lia.
Qed.

(** The context after the bytes [m]: whole blocks are hashed, the rest is in the
    buffer, and the number of bits is counted. *)
Record ctx_ok (c : SHA1_CTX) (m : list Z) : Prop := {
  ok_split : exists k p q, m = p ++ q /\ length p = (64 * k)%nat /\ zlen q < 64 /\
    state c = blocks k initial p /\ take (length q) (buffer c) = q;
  ok_buffer : zlen (buffer c) = 64;
  ok_bytes : bytes_ok m;
  ok_count : count0 c + 2 ^ 32 * count1 c = 8 * zlen m;
  ok_count0 : 0 <= count0 c < 2 ^ 32;
  ok_count1 : 0 <= count1 c < 2 ^ 32
}.

Lemma sha1_init_ok stack : zlen stack = 64 -> ctx_ok (SHA1Init stack) [].
Proof.
  intros Hs. split; cbn; [|exact Hs|apply Forall_nil; exact I|reflexivity|lia|lia].
  exists 0%nat, [], []. repeat split; lia.
Qed.

Lemma update_loop_spec fuel : forall st data i, 0 <= i <= zlen data -> zlen data < 2 ^ 31 -> bytes_ok data ->
  zlen data - i < 64 * Z.of_nat fuel ->
  exists k, update_loop fuel st data i (zlen data) = Ok (blocks k st (drop (Z.to_nat i) data), i + 64 * Z.of_nat k) /\
    i + 64 * Z.of_nat k <= zlen data < i + 64 * Z.of_nat k + 64.
Proof.
  induction fuel as [|fuel IH]; intros st data i Hi Hl Hb Hf; [lia|]. cbn [update_loop].
  rewrite u32_id by lia. destruct (Z.ltb_spec (i + 63) (zlen data)) as [H|H].
  - rewrite u32_id by lia. destruct (IH (SHA1Transform st (sub_bytes data i 64)) data (i + 64)) as (k & E & Hk);
      [lia|exact Hl|exact Hb|lia|].
    exists (S k). split; [|lia]. rewrite E. cbn [blocks]. rewrite drop_drop.
    replace (Z.to_nat i + 64)%nat with (Z.to_nat (i + 64)) by lia.
    rewrite SHA1Transform_spec; [|apply Forall_take, Forall_drop; exact Hb|rewrite zlen_sub; lia].
    replace (i + 64 + 64 * Z.of_nat k) with (i + 64 * Z.of_nat (S k)) by lia. reflexivity.
  - exists 0%nat. cbn [blocks]. split; [do 2 f_equal; lia|lia].
Qed.

Lemma copy_to_spec buf j d : 0 <= j -> j + zlen d <= zlen buf ->
  exists b, copy_to buf j d = Ok b /\ zlen b = zlen buf /\
    take (Z.to_nat (j + zlen d)) b = take (Z.to_nat j) buf ++ d.
Proof.
  intros Hj Hl. unfold copy_to. rewrite (proj2 (Z.leb_le _ _) Hl). eexists. split; [reflexivity|].
  unfold zlen in *. split.
  - rewrite !length_app, length_take, length_drop. lia.
  - rewrite app_assoc, take_app_le by (rewrite length_app, length_take; lia).
    apply take_ge. rewrite length_app, length_take. lia.
Qed.

(** The two words of the count are one number. *)
Lemma count_add c0 c1 n N : c0 + 2 ^ 32 * c1 = 8 * N -> 0 <= c0 < 2 ^ 32 -> 0 <= c1 < 2 ^ 32 -> 0 <= n < 2 ^ 29 ->
  N + n < 2 ^ 61 ->
  let c0' := u32 (c0 + u32 (Z.shiftl n 3)) in
  let c1' := if c0' <? c0 then u32 (c1 + (Z.shiftr n 29 + 1)) else c1 in
  c0' + 2 ^ 32 * c1' = 8 * (N + n) /\ 0 <= c0' < 2 ^ 32 /\ 0 <= c1' < 2 ^ 32.
Proof.
  intros Hc H0 H1 Hn Hm c0' c1'. unfold c1'. rewrite Z.shiftr_div_pow2, (Z.div_small n) by lia.
  unfold c0'. rewrite Z.shiftl_mul_pow2 by lia. rewrite (u32_id (n * 2 ^ 3)) by lia.
  unfold u32. destruct (Z.lt_ge_cases (c0 + n * 2 ^ 3) (2 ^ 32)) as [H|H].
  - rewrite Z.mod_small by lia. rewrite (proj2 (Z.ltb_ge _ _)) by lia. lia.
  - assert ((c0 + n * 2 ^ 3) mod 2 ^ 32 = c0 + n * 2 ^ 3 - 2 ^ 32) as ->
      by (symmetry; apply (Z.mod_unique _ _ 1); lia).
    rewrite (proj2 (Z.ltb_lt _ _)) by lia. rewrite Z.mod_small by lia. lia.
Qed.

Lemma count_rest c0 c1 N : c0 + 2 ^ 32 * c1 = 8 * N -> Z.land (Z.shiftr c0 3) 63 = N mod 64.
Proof.
  intros Hc. change 63 with (Z.ones 6). rewrite Z.land_ones, Z.shiftr_div_pow2 by lia.
  replace c0 with ((N - 2 ^ 29 * c1) * 2 ^ 3) by lia. rewrite Z.div_mul by lia.
  replace (N - 2 ^ 29 * c1) with (N + (- (2 ^ 23 * c1)) * 2 ^ 6) by lia. apply Z.mod_add. lia.
Qed.

Lemma split_rest (m p q : list Z) k : m = p ++ q -> length p = (64 * k)%nat -> zlen q < 64 -> zlen m mod 64 = zlen q.
Proof.
  intros -> Hp Hq. rewrite zlen_app. unfold zlen at 1. rewrite Hp. pose proof (zlen_nonneg q).
  symmetry. apply (Z.mod_unique _ _ (Z.of_nat k)); lia.
Qed.

Lemma blocks_of_update k n w h p q d : length p = (64 * k)%nat -> (length q + w = 64)%nat ->
  (w + 64 * n <= length d)%nat ->
  blocks (k + S n) h (p ++ q ++ take (w + 64 * n) d) = blocks n (compress (blocks k h p) (q ++ take w d)) (drop w d).
Proof.
  intros Hp Hq Hl. rewrite blocks_app, blocks_prefix by lia. rewrite <- Hp, drop_app_length. cbn [blocks].
  set (x := take (w + 64 * n) d).
  assert (take 64 (q ++ x) = q ++ take w x) as -> by (rewrite <- (take_app_add q x w); f_equal; lia).
  assert (drop 64 (q ++ x) = drop w x) as -> by (rewrite <- (drop_app_add q x w); f_equal; lia).
  unfold x. rewrite take_take, Nat.min_l by lia.
  rewrite <- take_drop_commute. rewrite <- (take_drop (64 * n) (drop w d)) at 2.
  symmetry. apply blocks_prefix. rewrite length_take, length_drop. lia.
Qed.

Lemma SHA1Update_spec c m d : ctx_ok c m -> bytes_ok d -> zlen d < 2 ^ 29 -> zlen (m ++ d) < 2 ^ 61 ->
  exists c', SHA1Update c d = Ok c' /\ ctx_ok c' (m ++ d).
Proof.
  intros [(k & p & q & Em & Hp & Hq & Hst & Hbq) Hbuf Hb Hc H0 H1] Hd Hl Hm.
  rewrite zlen_app in Hm. pose proof (zlen_nonneg d). pose proof (zlen_nonneg q).
  destruct (count_add _ _ (zlen d) _ Hc H0 H1 ltac:(lia) Hm) as (C & C0 & C1).
  assert (bytes_ok (m ++ d)) as Hbmd by (apply Forall_app; auto).
  assert (Z.land (Z.shiftr (count0 c) 3) 63 = zlen q) as Ej
    by (rewrite (count_rest _ _ _ Hc); exact (split_rest m p q k Em Hp Hq)).
  unfold SHA1Update. rewrite Ej. rewrite u32_id by lia.
  set (c0 := u32 (count0 c + u32 (Z.shiftl (zlen d) 3))) in *.
  set (c1 := if c0 <? count0 c then _ else _) in *.
  destruct (Z.ltb_spec 63 (zlen q + zlen d)) as [Hlong|Hshort].
  - assert (zlen (sub_bytes d 0 (64 - zlen q)) = 64 - zlen q) as Hs by (rewrite zlen_sub; lia).
    destruct (copy_to_spec (buffer c) (zlen q) (sub_bytes d 0 (64 - zlen q))) as (b1 & E1 & Hl1 & Ht1); [lia|lia|].
    rewrite E1. cbn [obind]. rewrite Hs in Ht1. replace (zlen q + (64 - zlen q)) with 64 in Ht1 by lia.
    unfold zlen in Ht1 at 1. rewrite Nat2Z.id, Hbq in Ht1.
    assert (b1 = q ++ sub_bytes d 0 (64 - zlen q)) as ->
      by (rewrite <- Ht1; symmetry; apply take_ge; unfold zlen in *; lia).
    assert (bytes_ok q) as Hbyq by (subst m; apply Forall_app in Hb; tauto).
    rewrite SHA1Transform_spec; [|apply Forall_app; split; [exact Hbyq|apply Forall_take, Forall_drop; exact Hd]|lia].
    destruct (update_loop_spec (S (length d)) (compress (state c) (q ++ sub_bytes d 0 (64 - zlen q))) d (64 - zlen q))
      as (n & E2 & Hn); [lia|lia|exact Hd|unfold zlen in *; lia|].
    rewrite E2. cbn [obind]. set (i := 64 - zlen q + 64 * Z.of_nat n) in *.
    assert (zlen (sub_bytes d i (zlen d - i)) = zlen d - i) as Hr by (rewrite zlen_sub; lia).
    destruct (copy_to_spec (q ++ sub_bytes d 0 (64 - zlen q)) 0 (sub_bytes d i (zlen d - i))) as (b2 & E3 & Hl3 & Ht3); [lia|lia|].
    rewrite E3. cbn [obind]. eexists. split; [reflexivity|]. split; cbn; try assumption; [|lia|rewrite zlen_app; exact C].
    exists (k + S n)%nat, (p ++ q ++ take (Z.to_nat i) d), (drop (Z.to_nat i) d).
    split; [subst m; rewrite <- !app_assoc, take_drop; reflexivity|].
    split; [rewrite !length_app, length_take; unfold zlen in *; lia|].
    split; [unfold zlen in *; rewrite length_drop; lia|]. split.
    + replace (Z.to_nat i) with (Z.to_nat (64 - zlen q) + 64 * n)%nat by lia.
      rewrite (blocks_of_update k) by (unfold zlen in *; lia). rewrite <- Hst.
      unfold sub_bytes. cbn [Z.to_nat drop]. reflexivity.
    + rewrite Hr, Z.add_0_l in Ht3. cbn [Z.to_nat take app] in Ht3. rewrite length_drop.
      replace (length d - Z.to_nat i)%nat with (Z.to_nat (zlen d - i)) by (unfold zlen in *; lia).
      rewrite Ht3. apply take_ge. rewrite length_drop. unfold zlen in *. lia.
  - destruct (copy_to_spec (buffer c) (zlen q) d) as (b & E & Hlb & Ht); [lia|lia|]. rewrite E. cbn [obind].
    eexists. split; [reflexivity|]. split; cbn; try assumption; [|lia|rewrite zlen_app; exact C].
    exists k, p, (q ++ d). split; [subst m; rewrite app_assoc; reflexivity|]. split; [exact Hp|].
    split; [rewrite zlen_app; lia|]. split; [exact Hst|]. unfold zlen in Ht. rewrite length_app.
    replace (Z.to_nat (Z.of_nat (length q) + Z.of_nat (length d))) with (length q + length d)%nat in Ht by lia.
    rewrite Ht, Nat2Z.id, Hbq. reflexivity.
Qed.

Lemma count_mask c0 c1 N : c0 + 2 ^ 32 * c1 = 8 * N -> Z.land c0 504 = 8 * (N mod 64).
Proof.
  intros Hc. replace c0 with (Z.shiftl (N - 2 ^ 29 * c1) 3) by (rewrite Z.shiftl_mul_pow2; lia).
  change 504 with (Z.shiftl (Z.ones 6) 3). rewrite <- Z.shiftl_land, Z.land_ones, Z.shiftl_mul_pow2 by lia.
  replace (N - 2 ^ 29 * c1) with (N + (- (2 ^ 23 * c1)) * 2 ^ 6) by lia. rewrite Z.mod_add by lia.
  change (2 ^ 6) with 64. change (2 ^ 3) with 8. apply Z.mul_comm.
Qed.

Lemma pad_loop_spec fuel : forall c m, ctx_ok c m -> (56 - zlen m) mod 64 < Z.of_nat fuel ->
  zlen m + (56 - zlen m) mod 64 < 2 ^ 61 ->
  exists c', pad_loop fuel c = Ok c' /\ ctx_ok c' (m ++ zeros ((56 - zlen m) mod 64)).
Proof.
  induction fuel as [|fuel IH]; intros c m Hc Hf Hm; [Z.div_mod_to_equations; lia|]. cbn [pad_loop].
  rewrite (count_mask _ _ _ (ok_count _ _ Hc)). destruct (Z.eqb_spec (8 * (zlen m mod 64)) 448) as [E|E].
  - assert ((56 - zlen m) mod 64 = 0) as -> by (Z.div_mod_to_equations; lia). exists c.
    split; [reflexivity|]. rewrite app_nil_r. exact Hc.
  - assert (zlen (m ++ [0]) = zlen m + 1) as El by (rewrite zlen_app; reflexivity).
    assert ((56 - zlen m) mod 64 = 1 + (56 - (zlen m + 1)) mod 64) as Em by (Z.div_mod_to_equations; lia).
    pose proof (Z.mod_pos_bound (56 - (zlen m + 1)) 64 ltac:(lia)) as Hb.
    destruct (SHA1Update_spec c m [0] Hc) as (c1 & E1 & Hc1); [bytes_tac|reflexivity|lia|].
    rewrite E1. cbn [obind].
    destruct (IH c1 (m ++ [0]) Hc1) as (c' & E2 & Hc'); [rewrite El; lia|rewrite El; lia|].
    exists c'. split; [exact E2|]. rewrite Em. rewrite El, <- app_assoc in Hc'.
    rewrite zeros_app by (try lia; apply Z.mod_pos_bound; lia). exact Hc'.
Qed.

Lemma byte_at x k : 0 <= k -> Z.land (Z.shiftr x k) 255 = (x / 2 ^ k) mod 256.
Proof. intros Hk. change 255 with (Z.ones 8). rewrite Z.land_ones, Z.shiftr_div_pow2 by lia. reflexivity. Qed.

Lemma be_word x : be_bytes 4 x = [(x / 2 ^ 24) mod 256; (x / 2 ^ 16) mod 256; (x / 2 ^ 8) mod 256; (x / 2 ^ 0) mod 256].
Proof.
  unfold be_bytes. rewrite !le_bytes_S. change (le_bytes 0 ?z) with (@nil Z). cbn [rev app].
  rewrite !Z.div_div by lia. rewrite Z.pow_0_r, Z.div_1_r. reflexivity.
Qed.

Lemma le_bytes_two n k : forall a b, 0 <= a < 256 ^ Z.of_nat n ->
  le_bytes (n + k) (a + 256 ^ Z.of_nat n * b) = le_bytes n a ++ le_bytes k b.
Proof.
  induction n as [|n IH]; intros a b Ha.
  - change (256 ^ Z.of_nat 0) with 1 in *. replace (a + 1 * b) with b by lia. reflexivity.
  - rewrite Nat.add_succ_l, !le_bytes_S. cbn [app]. rewrite Nat2Z.inj_succ, Z.pow_succ_r in * by lia.
    replace (a + 256 * 256 ^ Z.of_nat n * b) with (a + 256 ^ Z.of_nat n * b * 256) by lia.
    rewrite Z.mod_add, Z.div_add by lia. f_equal. apply IH.
    split; [apply Z.div_pos; lia|apply Z.div_lt_upper_bound; lia].
Qed.

Lemma finalcount_spec c m : ctx_ok c m -> finalcount c = be_bytes 8 (8 * zlen m).
Proof.
  intros [_ _ _ Hc H0 H1]. rewrite <- Hc. unfold be_bytes. rewrite (le_bytes_two 4 4 _ _ H0 : le_bytes 8 (_ + 2 ^ 32 * _) = _).
  rewrite rev_app_distr. change (rev (le_bytes 4 ?x)) with (be_bytes 4 x). rewrite !be_word.
  unfold finalcount. change (seqZ 0 8) with [0; 1; 2; 3; 4; 5; 6; 7]. cbn [map Z.leb Z.compare Pos.compare Pos.compare_cont].
  rewrite !byte_at by (vm_compute; discriminate). reflexivity.
Qed.

Lemma digest_spec r : digest r = regs_bytes r.
Proof.
  unfold digest, regs_bytes. rewrite !be_word.
  change (seqZ 0 20) with [0; 1; 2; 3; 4; 5; 6; 7; 8; 9; 10; 11; 12; 13; 14; 15; 16; 17; 18; 19]. cbn [map].
  rewrite !byte_at by (vm_compute; discriminate). reflexivity.
Qed.

Lemma SHA1Final_spec c m : ctx_ok c m -> zlen m < 2 ^ 61 - 128 -> SHA1Final c = Ok (sha1 m).
Proof.
  intros Hc Hm. unfold SHA1Final. rewrite (finalcount_spec c m Hc).
  destruct (SHA1Update_spec c m [128] Hc) as (c1 & E1 & Hc1); [bytes_tac|reflexivity|rewrite zlen_app; change (zlen [128]) with 1; lia|].
  rewrite E1. cbn [obind].
  assert (zlen (m ++ [128]) = zlen m + 1) as El by (rewrite zlen_app; reflexivity).
  destruct (pad_loop_spec 65 c1 (m ++ [128]) Hc1) as (c2 & E2 & Hc2); [Z.div_mod_to_equations; lia|rewrite El; Z.div_mod_to_equations; lia|].
  rewrite E2. cbn [obind]. rewrite El in Hc2. replace (56 - (zlen m + 1)) with (55 - zlen m) in Hc2 by lia.
  set (n := (55 - zlen m) mod 64) in *. pose proof (Z.mod_pos_bound (55 - zlen m) 64 ltac:(lia)) as Hn. fold n in Hn.
  assert (zlen (be_bytes 8 (8 * zlen m)) = 8) as E8 by (unfold be_bytes, zlen; rewrite length_rev, le_bytes_length; reflexivity).
  destruct (SHA1Update_spec c2 _ (be_bytes 8 (8 * zlen m)) Hc2) as (c3 & E3 & Hc3);
    [apply Forall_rev, le_bytes_ok|lia|rewrite !zlen_app, E8, zlen_zeros by lia; change (zlen [128]) with 1; lia|].
  rewrite E3. cbn [obind]. f_equal. rewrite digest_spec. unfold sha1.
  assert (padded m = ((m ++ [128]) ++ zeros n) ++ be_bytes 8 (8 * zlen m)) as Ep
    by (unfold padded; fold n; rewrite <- !app_assoc; reflexivity).
  rewrite <- Ep in Hc3. destruct Hc3 as [(k & p & q & Em & Hp & Hq & Hst & _) _ _ _ _ _].
  assert (zlen (padded m) mod 64 = 0) as Hz.
  { rewrite Ep, !zlen_app, E8, zlen_zeros by lia. change (zlen [128]) with 1. unfold n. Z.div_mod_to_equations; lia. }
  rewrite (split_rest _ p q k Em Hp Hq) in Hz.
  assert (q = []) as -> by (destruct q; [reflexivity|rewrite zlen_cons in Hz; pose proof (zlen_nonneg q); lia]).
  rewrite app_nil_r in Em. rewrite Hst, Em, Hp. f_equal. f_equal. rewrite Nat.mul_comm, Nat.div_mul by lia. reflexivity.
Qed.

(** ** The hash and the identifier *)

Lemma sha1_hash_spec stack namespace name : zlen stack = 64 -> bytes_ok namespace -> bytes_ok name ->
  zlen namespace < 2 ^ 29 -> zlen name < 2 ^ 29 ->
  sha1_hash stack namespace name = Ok (sha1 (namespace ++ name)).
Proof.
  intros Hs Hn Hm Hl1 Hl2. unfold sha1_hash.
  destruct (SHA1Update_spec _ _ namespace (sha1_init_ok stack Hs) Hn Hl1) as (c1 & -> & Hc1); [cbn [app]; lia|]. cbn [obind].
  destruct (SHA1Update_spec c1 _ name Hc1 Hm Hl2) as (c2 & -> & Hc2); [cbn [app]; rewrite zlen_app; lia|]. cbn [obind].
  apply (SHA1Final_spec c2 _ Hc2). cbn [app]. rewrite zlen_app. lia.
Qed.

(** C34: hashing a name space and a name through the buffered interface, with the
    schedule expanded in place and the rounds unrolled, is SHA-1 (FIPS 180) of
    the two joined, whatever the buffer held before. *)
Theorem sha1_hash_correct stack namespace name : zlen stack = 64 -> bytes_ok namespace -> bytes_ok name ->
  zlen namespace < 2 ^ 29 -> zlen name < 2 ^ 29 ->
  sha1_hash stack namespace name = Ok (sha1 (namespace ++ name)).
Proof. apply sha1_hash_spec. Qed.

(** Two updates, the first one over a block. *)
Lemma sha1_hash_correct_witness :
  sha1_hash (zeros 64) (repeat 97 60) (repeat 98 70) = Ok (sha1 (repeat 97 60 ++ repeat 98 70)).
Proof.
  apply sha1_hash_correct; [reflexivity|bytes_tac|bytes_tac|vm_compute; reflexivity|vm_compute; reflexivity].
Defined.

(** The identifier in the memory of the machine: the first 16 bytes of the hash,
    each field with its bytes reversed, the version 5 and the variant of the RFC. *)
Definition uuid_of (h : list Z) : list Z :=
  let b i := nth i h 0 in
  [b 3%nat; b 2%nat; b 1%nat; b 0%nat; b 5%nat; b 4%nat; b 7%nat; Z.lor (Z.land (b 6%nat) 0x0F) 0x50;
   Z.lor (Z.land (b 8%nat) 0xBF) 0x80] ++ sub_bytes h 9 7.

Ltac place_bit :=
  match goal with |- context [Z.to_nat (?x / 8)] =>
    let i := eval vm_compute in (Z.to_nat (x / 8)) in change (Z.to_nat (x / 8)) with i;
    let j := eval vm_compute in (x mod 8) in change (x mod 8) with j
  end.

Ltac hide_bits a :=
  repeat match goal with |- context [Z.testbit a ?k] => destruct (Z.testbit a k) end.

Lemma version_bits a b : byte_ok a -> byte_ok b ->
  Z.lor (Z.land (le_val [a; b]) 0x0FFF) (Z.shiftl 5 12) = le_val [a; Z.lor (Z.land b 0x0F) 0x50] /\
  byte_ok (Z.lor (Z.land b 0x0F) 0x50).
Proof.
  intros Ha Hb.
  assert (byte_ok (Z.lor (Z.land b 0x0F) 0x50)) as Hv.
  { split; [apply Z.lor_nonneg; split; [apply Z.land_nonneg; right; lia|lia]|].
    assert (Z.lor (Z.land b 0x0F) 0x50 = Z.lor (Z.land b 0x0F) 0x50 mod 2 ^ 8) as ->; [|apply Z.mod_pos_bound; lia].
    apply Z.bits_inj'. intros n Hn. destruct (Z.lt_ge_cases n 8) as [H|H]; [rewrite Z.mod_pow2_bits_low by lia; reflexivity|].
    rewrite Z.mod_pow2_bits_high, Z.lor_spec, Z.land_spec by lia.
    rewrite (Z.bits_above_log2 0x0F), (Z.bits_above_log2 0x50) by (cbn; lia). rewrite andb_false_r. reflexivity. }
  split; [|exact Hv].
  assert (bytes_ok [a; b]) as H1 by (unfold bytes_ok; rewrite !Forall_cons, Forall_nil; auto).
  assert (bytes_ok [a; Z.lor (Z.land b 0x0F) 0x50]) as H2 by (unfold bytes_ok; rewrite !Forall_cons, Forall_nil; auto).
  apply Z.bits_inj'. intros n Hn. rewrite Z.lor_spec, Z.land_spec, !testbit_le_val by assumption.
  destruct (Z.lt_ge_cases n 16) as [H|H].
  - assert (exists i : nat, (i < 16)%nat /\ n = Z.of_nat i) as (i & Hi & ->) by (exists (Z.to_nat n); lia).
    do 16 (destruct i as [|i]; [place_bit; cbn [nth]; rewrite ?Z.lor_spec, ?Z.land_spec;
      hide_bits a; hide_bits b; vm_compute; reflexivity|]). lia.
  - assert (Z.testbit 0x0FFF n = false) as -> by (apply Z.bits_above_log2; [lia|change (Z.log2 0x0FFF) with 11; lia]).
    assert (Z.testbit (Z.shiftl 5 12) n = false) as ->
      by (change (Z.shiftl 5 12) with 20480; apply Z.bits_above_log2; [lia|change (Z.log2 20480) with 14; lia]).
    rewrite andb_false_r.
    assert (2 <= n / 8) as H8 by (apply Z.div_le_lower_bound; lia).
    rewrite nth_overflow by (cbn; lia). rewrite Z.bits_0. reflexivity.
Qed.

Lemma be_bytes_ok n z : bytes_ok (be_bytes n z).
Proof. apply Forall_rev, le_bytes_ok. Qed.

Lemma sha1_bytes m : bytes_ok (sha1 m) /\ length (sha1 m) = 20%nat.
Proof.
  unfold sha1, regs_bytes, bytes_ok. split.
  - rewrite !Forall_app. repeat split; apply be_bytes_ok.
  - rewrite !length_app. unfold be_bytes. rewrite !length_rev, !le_bytes_length. reflexivity.
Qed.

Lemma le_bytes_val l : bytes_ok l -> le_bytes (length l) (le_val l) = l.
Proof.
  induction 1 as [|b l Hb Hl IH]; [reflexivity|]. cbn [le_val length]. rewrite le_bytes_S. unfold byte_ok in Hb.
  replace (b + 256 * le_val l) with (b + le_val l * 256) by lia. rewrite Z.mod_add, Z.div_add by lia.
  rewrite Z.mod_small, (Z.div_small b) by lia. rewrite Z.add_0_l, IH. reflexivity.
Qed.

Lemma field_swap l : bytes_ok l -> le_bytes (length l) (ntoh (length l) (le_val l)) = rev l.
Proof.
  intros Hl. unfold ntoh. rewrite le_bytes_val by exact Hl. rewrite <- (length_rev l).
  apply le_bytes_val, Forall_rev. exact Hl.
Qed.

Lemma field4 a b c d : byte_ok a -> byte_ok b -> byte_ok c -> byte_ok d ->
  le_bytes 4 (ntoh 4 (le_val [a; b; c; d])) = [d; c; b; a].
Proof. intros. apply (field_swap [a; b; c; d]). unfold bytes_ok. rewrite !Forall_cons, Forall_nil. auto. Qed.

Lemma field2 a b : byte_ok a -> byte_ok b -> le_bytes 2 (ntoh 2 (le_val [a; b])) = [b; a].
Proof. intros. apply (field_swap [a; b]). unfold bytes_ok. rewrite !Forall_cons, Forall_nil. auto. Qed.

Lemma version_field a b : byte_ok a -> byte_ok b ->
  le_bytes 2 (Z.lor (Z.land (ntoh 2 (le_val [a; b])) 0x0FFF) (Z.shiftl 5 12)) = [b; Z.lor (Z.land a 0x0F) 0x50].
Proof.
  intros Ha Hb. unfold ntoh.
  assert (le_bytes 2 (le_val [a; b]) = [a; b]) as ->
    by (apply (le_bytes_val [a; b]); unfold bytes_ok; rewrite !Forall_cons, Forall_nil; auto).
  cbn [rev app]. destruct (version_bits b a Hb Ha) as (-> & Hv).
  apply (le_bytes_val [b; Z.lor (Z.land a 0x0F) 0x50]). unfold bytes_ok. rewrite !Forall_cons, Forall_nil. auto.
Qed.

(** The identifier of a file system is the version 5 identifier made from the
    SHA-1 hash of the name space and the label, in the order of its fields on a
    little-endian machine. *)
Theorem generate_uuid_correct stack namespace name : zlen stack = 64 -> bytes_ok namespace -> bytes_ok name ->
  zlen namespace < 2 ^ 29 -> zlen name < 2 ^ 29 ->
  generate_uuid stack namespace name = Ok (uuid_of (sha1 (namespace ++ name))).
Proof.
  intros Hs Hn Hm Hl1 Hl2. unfold generate_uuid. rewrite sha1_hash_spec by assumption. cbn [obind]. f_equal.
  destruct (sha1_bytes (namespace ++ name)) as (Hb & Hlen). set (h := sha1 (namespace ++ name)) in *. clearbody h.
  do 20 (destruct h as [|? h]; [cbn in Hlen; lia|]). destruct h; [|cbn in Hlen; lia].
  unfold bytes_ok in Hb. rewrite !Forall_cons in Hb. destruct Hb as (B0 & B1 & B2 & B3 & B4 & B5 & B6 & B7 & B8 & _).
  unfold uuid_of, sub_bytes. cbv zeta.
  repeat match goal with |- context [Z.to_nat ?n] =>
    let v := eval vm_compute in (Z.to_nat n) in change (Z.to_nat n) with v end.
  cbn [drop take nth].
  rewrite field4, field2, version_field by assumption.
  cbn [le_val app]. rewrite Z.mul_0_r, Z.add_0_r. reflexivity.
Qed.

(** The identifier of an unlabelled file system. *)
Lemma generate_uuid_correct_witness :
  generate_uuid (zeros 64) (repeat 101 21) [] = Ok (uuid_of (sha1 (repeat 101 21 ++ []))).
Proof.
  apply generate_uuid_correct; [reflexivity|bytes_tac|bytes_tac|vm_compute; reflexivity|vm_compute; reflexivity].
Defined.


End Sha1.
