(* ===== verification/Ext4Utils.v ===== *)
(** * ext4_utils: the parameters of a file system

    The header [ext4_utils.h], the part of [ext4_utils.c] that derives the
    geometry of a file system (which groups carry a copy of the super block,
    how many groups there are, how large their headers are), and the part of
    [make_ext4fs.c] that chooses the parameters the caller left open. *)

From S2P Require Import Prelude.

Module Ext4Utils.

(** ** The global structures [info] and [aux_info]

    The pointers of [struct fs_info] and [struct fs_aux_info] to other
    components ([sparse_file], [sb], [bg_desc], [bgs]) belong to the states of
    the files that use them. *)

Record fs_info := mk_info {
  len : Z;
  block_size : Z;
  blocks_per_group : Z;
  inodes_per_group : Z;
  inode_size : Z;
  inodes : Z;
  journal_blocks : Z;
  feat_ro_compat : Z;
  feat_compat : Z;
  feat_incompat : Z;
  bg_desc_reserve_blocks : Z;
  label : option string;
  no_journal : Z
}.

Record fs_aux_info := mk_aux {
  first_data_block : Z;
  len_blocks : Z;
  inode_table_blocks : Z;
  groups : Z;
  bg_desc_blocks : Z;
  default_i_flags : Z;
  blocks_per_ind : Z;
  blocks_per_dind : Z;
  blocks_per_tind : Z
}.

Definition EXT4_FEATURE_RO_COMPAT_SPARSE_SUPER : Z := 0x0001.
Definition EXT4_FEATURE_RO_COMPAT_LARGE_FILE : Z := 0x0002.
Definition EXT4_FEATURE_COMPAT_HAS_JOURNAL : Z := 0x0004.
Definition EXT4_FEATURE_COMPAT_RESIZE_INODE : Z := 0x0010.
Definition EXT4_FEATURE_INCOMPAT_FILETYPE : Z := 0x0002.
Definition EXT4_FEATURE_INCOMPAT_EXTENTS : Z := 0x0040.
Definition EXT4_NOATIME_FL : Z := 0x80.

(** [sizeof(struct ext2_group_desc)]. *)
Definition sizeof_group_desc : Z := 32.

(** [DIV_ROUND_UP] on [unsigned] and on 64-bit operands; the division by zero
    is the caller's. *)
Definition div_round_up32 (x y : Z) : Z := u32 (u32 (x + y) - 1) / y.
Definition div_round_up64 (x y : Z) : Z := u64 (u64 (x + y) - 1) / y.

(** [static inline int log_2(int j)] *)
Fixpoint log_2_loop (fuel : nat) (i j : Z) : outcome Z :=
  match fuel with
  | O => NoFuel
  | S f => if 0 <? j then log_2_loop f (i + 1) (Z.shiftr j 1) else Ok (i - 1)
  end.

Definition log_2 (j : Z) : outcome Z := log_2_loop 33 0 j.

(** ** Super block copies *)

Fixpoint is_power_of_loop (fuel : nat) (a b : Z) : outcome Z :=
  match fuel with
  | O => NoFuel
  | S f =>
      if b <? a then
        if negb (Z.rem a b =? 0) then Ok 0
        else is_power_of_loop f (Z.quot a b) b
      else Ok (if a =? b then 1 else 0)
  end.

(** An [int] is divided by 3 or more at most 32 times. *)
Definition is_power_of (a b : Z) : outcome Z := is_power_of_loop 33 a b.

Definition ext4_bg_has_super_block (info : fs_info) (bg : Z) : outcome bool :=
  if Z.land (feat_ro_compat info) EXT4_FEATURE_RO_COMPAT_SPARSE_SUPER =? 0 then Ok true
  else if (bg =? 0) || (bg =? 1) then Ok true
  else
    let! p3 := is_power_of bg 3 in
    if negb (p3 =? 0) then Ok true
    else
      let! p5 := is_power_of bg 5 in
      if negb (p5 =? 0) then Ok true
      else
        let! p7 := is_power_of bg 7 in
        Ok (negb (p7 =? 0)).

(** ** [ext4_create_fs_aux_info]

    The buffers it allocates at its end ([sb], [backup_sb], [bg_desc]) are not
    part of this record. *)
Definition ext4_create_fs_aux_info (info : fs_info) : outcome fs_aux_info :=
  if block_size info =? 0 then Undef
  else if blocks_per_group info =? 0 then Undef
  else
    let first_data_block := if 1024 <? block_size info then 0 else 1 in
    let len_blocks := u64 (Z.quot (len info) (block_size info)) in
    let inode_table_blocks :=
      div_round_up32 (u32 (inodes_per_group info * inode_size info)) (block_size info) in
    let groups :=
      u32 (div_round_up64 (u64 (len_blocks - first_data_block)) (blocks_per_group info)) in
    let blocks_per_ind := block_size info / 4 in
    let blocks_per_dind := u32 (blocks_per_ind * blocks_per_ind) in
    let blocks_per_tind := u32 (blocks_per_dind * blocks_per_dind) in
    let bg_desc_blocks :=
      div_round_up32 (u32 (groups * sizeof_group_desc)) (block_size info) in
    let last_group_size := u32 (len_blocks mod blocks_per_group info) in
    let! super := ext4_bg_has_super_block info (s32 (groups - 1)) in
    let last_header_size :=
      u32 (2 + inode_table_blocks +
           (if super then 1 + bg_desc_blocks + bg_desc_reserve_blocks info else 0)) in
    let drop := (0 <? last_group_size) && (last_group_size <? last_header_size) in
    Ok (mk_aux first_data_block
          (if drop then u64 (len_blocks - last_group_size) else len_blocks)
          inode_table_blocks
          (if drop then u32 (groups - 1) else groups)
          bg_desc_blocks EXT4_NOATIME_FL blocks_per_ind blocks_per_dind blocks_per_tind).

(** ** The parameters [make_ext4fs.c] chooses *)

Definition compute_block_size : Z := 4096.

(** [DIV_ROUND_UP(info.len, info.block_size)]: [info.len] is signed, 64 bits. *)
Definition len_in_blocks (info : fs_info) : Z :=
  Z.quot (len info + block_size info - 1) (block_size info).

Definition compute_journal_blocks (info : fs_info) : Z :=
  let journal_blocks := u32 (Z.quot (len_in_blocks info) 64) in
  let journal_blocks := if journal_blocks <? 1024 then 1024 else journal_blocks in
  if 32768 <? journal_blocks then 32768 else journal_blocks.

Definition compute_blocks_per_group (info : fs_info) : Z := u32 (block_size info * 8).

Definition compute_inodes (info : fs_info) : Z := u32 (Z.quot (len_in_blocks info) 4).

(** Also the new [info.inodes]. *)
Definition compute_inodes_per_group (info : fs_info) : outcome (Z * Z) :=
  let blocks := u32 (len_in_blocks info) in
  if blocks_per_group info =? 0 then Undef
  else
    let block_groups := div_round_up32 blocks (blocks_per_group info) in
    if (block_groups =? 0) || (inode_size info =? 0) then Undef
    else
      let inodes := div_round_up32 (inodes info) block_groups in
      let per_block := block_size info / inode_size info in
      if per_block =? 0 then Undef
      else
        let inodes := u32 (per_block * div_round_up32 inodes per_block) in
        Ok (inodes, u32 (inodes * block_groups)).

Definition compute_bg_desc_reserve_blocks (info : fs_info) : outcome Z :=
  let blocks := u32 (len_in_blocks info) in
  if (blocks_per_group info =? 0) || (block_size info =? 0) then Undef
  else
    let block_groups := div_round_up32 blocks (blocks_per_group info) in
    let bg_desc_blocks :=
      div_round_up32 (u32 (block_groups * sizeof_group_desc)) (block_size info) in
    let bg_desc_reserve_blocks :=
      u32 (div_round_up32 (u32 (u32 (block_groups * 1024) * sizeof_group_desc)) (block_size info)
           - bg_desc_blocks) in
    Ok (if block_size info / 4 <? bg_desc_reserve_blocks
        then block_size info / 4 else bg_desc_reserve_blocks).

Definition set_len (i : fs_info) (v : Z) : fs_info :=
  mk_info v (block_size i) (blocks_per_group i) (inodes_per_group i) (inode_size i) (inodes i)
    (journal_blocks i) (feat_ro_compat i) (feat_compat i) (feat_incompat i)
    (bg_desc_reserve_blocks i) (label i) (no_journal i).

(** [reset_ext4fs_info] clears the structure; [make_ext4fs] stores the length. *)
Definition reset_ext4fs_info : fs_info :=
  mk_info 0 0 0 0 0 0 0 0 0 0 0 None 0.

(** The part of [make_ext4fs_internal] before the first allocation: [fd_size]
    is what [get_file_size(fd)] returns. [None] is EXIT_FAILURE. *)
Definition choose_parameters (fd_size : Z) (info : fs_info) : outcome (option fs_info) :=
  let len1 := if len info <=? 0 then s64 fd_size else len info in
  if len1 <=? 0 then Ok None
  else
    let bs := if block_size info <=? 0 then compute_block_size else block_size info in
    (* Round down the filesystem length to be a multiple of the block size *)
    let len2 := s64 (Z.land (u64 len1) (u64 (- (bs - 1) - 1))) in
    let i1 := mk_info len2 bs (blocks_per_group info) (inodes_per_group info) (inode_size info)
                (inodes info) (journal_blocks info) (feat_ro_compat info) (feat_compat info)
                (feat_incompat info) (bg_desc_reserve_blocks info) (label info)
                (no_journal info) in
    let jb := if journal_blocks info =? 0 then compute_journal_blocks i1 else journal_blocks info in
    let journal := no_journal info =? 0 in
    let i2 := mk_info len2 bs
                (if blocks_per_group info <=? 0 then compute_blocks_per_group i1
                 else blocks_per_group info)
                (inodes_per_group info)
                (if inode_size info <=? 0 then 256 else inode_size info)
                (if inodes info <=? 0 then compute_inodes i1 else inodes info)
                (if journal then jb else 0)
                (feat_ro_compat info)
                (if journal then EXT4_FEATURE_COMPAT_HAS_JOURNAL else feat_compat info)
                (feat_incompat info) (bg_desc_reserve_blocks info)
                (match label info with None => Some EmptyString | l => l end)
                (no_journal info) in
    let! (per_group, total) := compute_inodes_per_group i2 in
    let i3 := mk_info len2 bs (blocks_per_group i2) per_group (inode_size i2) total
                (journal_blocks i2)
                (Z.lor (feat_ro_compat i2)
                   (Z.lor EXT4_FEATURE_RO_COMPAT_SPARSE_SUPER EXT4_FEATURE_RO_COMPAT_LARGE_FILE))
                (Z.lor (feat_compat i2) EXT4_FEATURE_COMPAT_RESIZE_INODE)
                (Z.lor (feat_incompat i2)
                   (Z.lor EXT4_FEATURE_INCOMPAT_EXTENTS EXT4_FEATURE_INCOMPAT_FILETYPE))
                (bg_desc_reserve_blocks i2) (label i2) (no_journal i2) in
    let! reserve := compute_bg_desc_reserve_blocks i3 in
    Ok (Some (mk_info len2 bs (blocks_per_group i3) per_group (inode_size i3) total
                (journal_blocks i3) (feat_ro_compat i3) (feat_compat i3) (feat_incompat i3)
                reserve (label i3) (no_journal i3))).

(** ** Specification *)

(** The groups that hold a copy of the super block: group 0 and the powers of
    3, 5 and 7, 1 among them. *)
Definition super_group (g : Z) : Prop :=
  g = 0 \/ exists b k, (b = 3 \/ b = 5 \/ b = 7) /\ 0 <= k /\ g = b ^ k.

(** The blocks at the start of a group: the two bitmaps, the inode table and,
    after a copy of the super block, the group descriptors with their reserve. *)
Definition header_size (info : fs_info) (aux : fs_aux_info) (super : bool) : Z :=
  2 + inode_table_blocks aux +
  (if super then 1 + bg_desc_blocks aux + bg_desc_reserve_blocks info else 0).

Definition group_start (info : fs_info) (aux : fs_aux_info) (i : Z) : Z :=
  first_data_block aux + i * blocks_per_group info.

(** The blocks of a group that exist: the last group may be cut short. *)
Definition group_size (info : fs_info) (aux : fs_aux_info) (i : Z) : Z :=
  Z.min (blocks_per_group info) (len_blocks aux - group_start info aux i).

(** A geometry a file system can be laid out in: bitmaps that fit one block,
    32-bit block numbers, groups that cover the device exactly, each with room
    for its header. *)
Record geometry_ok (info : fs_info) (aux : fs_aux_info) : Prop := {
  geo_block_size : 0 < block_size info < 2 ^ 26;
  geo_group : 0 < blocks_per_group info <= 8 * block_size info;
  geo_inodes : 0 < inodes_per_group info <= 8 * block_size info;
  geo_first : 0 <= first_data_block aux;
  geo_groups : 0 < groups aux < 2 ^ 31;
  geo_tables : 0 <= inode_table_blocks aux /\ 0 <= bg_desc_blocks aux
               /\ 0 <= bg_desc_reserve_blocks info;
  geo_range : group_start info aux (groups aux) < 2 ^ 32 - blocks_per_group info;
  geo_cover : group_start info aux (groups aux - 1) < len_blocks aux
              <= group_start info aux (groups aux);
  geo_header : forall i super, 0 <= i < groups aux ->
    ext4_bg_has_super_block info i = Ok super ->
    header_size info aux super <= group_size info aux i
}.

(** ** Lemmas *)

Lemma is_power_of_loop_spec b : 1 < b -> forall fuel a,
  0 < a < 2 ^ Z.of_nat fuel ->
  exists r, is_power_of_loop (S fuel) a b = Ok r /\ (r = 1 \/ r = 0) /\
    (r = 1 <-> exists k, 1 <= k /\ a = b ^ k).
Proof.
  intros Hb. induction fuel as [|f IH]; intros a Ha.
  - simpl in Ha. lia.
  - cbn [is_power_of_loop]. destruct (Z.ltb_spec b a) as [Hlt|Hge].
    + rewrite Z.rem_mod_nonneg, Z.quot_div_nonneg by lia.
      destruct (Z.eqb_spec (a mod b) 0) as [E|E]; simpl.
      * pose proof (Z.div_mod a b ltac:(lia)) as Hdm. rewrite E in Hdm.
        assert (0 < a / b < 2 ^ Z.of_nat f) as Hd.
        { split; [nia|]. rewrite Nat2Z.inj_succ, Z.pow_succ_r in Ha by lia. nia. }
        destruct (IH _ Hd) as (r & Hr & Hrr & Hiff). exists r. split; [exact Hr|].
        split; [exact Hrr|]. rewrite Hiff. split; intros (k & Hk & Hp).
        -- exists (Z.succ k). split; [lia|]. rewrite Z.pow_succ_r by lia. nia.
        -- assert (k <> 1) by (intros ->; rewrite Z.pow_1_r in Hp; lia).
           exists (Z.pred k). split; [lia|]. apply (Z.mul_reg_l _ _ b); [lia|].
           rewrite <- Z.pow_succ_r, Z.succ_pred by lia. lia.
      * exists 0. split; [reflexivity|]. split; [auto|]. split; [lia|].
        intros (k & Hk & Hp). exfalso. apply E. rewrite Hp.
        replace k with (Z.succ (Z.pred k)) by lia. rewrite Z.pow_succ_r, Z.mul_comm by lia.
        apply Z.mod_mul. lia.
    + destruct (Z.eqb_spec a b) as [E|E].
      * exists 1. split; [reflexivity|]. split; [auto|]. split; [|reflexivity].
        intros _. exists 1. split; [lia|]. rewrite Z.pow_1_r. exact E.
      * exists 0. split; [reflexivity|]. split; [auto|]. split; [lia|].
        intros (k & Hk & Hp). exfalso.
        assert (b ^ 1 <= b ^ k) by (apply Z.pow_le_mono_r; lia). rewrite Z.pow_1_r in *. lia.
Qed.

Lemma is_power_of_spec a b : 1 < b -> 0 < a < 2 ^ 31 ->
  exists r, is_power_of a b = Ok r /\ (r = 1 \/ r = 0) /\
    (r = 1 <-> exists k, 1 <= k /\ a = b ^ k).
Proof.
  intros Hb Ha. apply (is_power_of_loop_spec b Hb 32). simpl Z.of_nat. wrap_pow. lia.
Qed.

Lemma super_power g b k : (b = 3 \/ b = 5 \/ b = 7) -> 1 <= k -> g = b ^ k -> super_group g.
Proof. intros Hb Hk ->. right. exists b, k. split; [exact Hb|]. split; [lia|reflexivity]. Qed.

Lemma has_super_spec info bg :
  Z.land (feat_ro_compat info) EXT4_FEATURE_RO_COMPAT_SPARSE_SUPER <> 0 -> 0 <= bg < 2 ^ 31 ->
  exists b, ext4_bg_has_super_block info bg = Ok b /\ (b = true <-> super_group bg).
Proof.
  intros Hf Hbg. unfold ext4_bg_has_super_block.
  apply Z.eqb_neq in Hf. rewrite Hf.
  destruct (Z.eqb_spec bg 0) as [->|H0]; [simpl; exists true; split; [reflexivity|]; split;
    [intros _; left; reflexivity|reflexivity]|].
  destruct (Z.eqb_spec bg 1) as [->|H1]; [simpl; exists true; split; [reflexivity|]; split;
    [intros _; right; exists 3, 0; split; [auto|]; split; [lia|reflexivity]|reflexivity]|].
  cbn [orb].
  destruct (is_power_of_spec bg 3 ltac:(lia) ltac:(lia)) as (r3 & -> & R3 & I3).
  destruct (is_power_of_spec bg 5 ltac:(lia) ltac:(lia)) as (r5 & -> & R5 & I5).
  destruct (is_power_of_spec bg 7 ltac:(lia) ltac:(lia)) as (r7 & -> & R7 & I7).
  cbn [obind].
  destruct R3 as [->| ->]; cbn -[super_group].
  { exists true. split; [reflexivity|]. split; [intros _|reflexivity].
    destruct (proj1 I3 eq_refl) as (k & Hk & E). apply (super_power bg 3 k); auto. }
  destruct R5 as [->| ->]; cbn -[super_group].
  { exists true. split; [reflexivity|]. split; [intros _|reflexivity].
    destruct (proj1 I5 eq_refl) as (k & Hk & E). apply (super_power bg 5 k); auto. }
  destruct R7 as [->| ->]; cbn -[super_group].
  { exists true. split; [reflexivity|]. split; [intros _|reflexivity].
    destruct (proj1 I7 eq_refl) as (k & Hk & E). apply (super_power bg 7 k); auto. }
  exists false. split; [reflexivity|]. split; [discriminate|].
  intros [->|(b & k & Hb & Hk & E)]; [lia|]. exfalso.
  destruct (decide (k = 0)) as [->|Hk0]; [rewrite Z.pow_0_r in E; lia|].
  assert (exists k, 1 <= k /\ bg = b ^ k) as Hex by (exists k; split; [lia|exact E]).
  destruct Hb as [->|[->| ->]]; [apply I3 in Hex|apply I5 in Hex|apply I7 in Hex]; lia.
Qed.


(** The parameters the derivation accepts: a block size above 1024, and a
    header with every part that fits a group and the device. *)
Record params_ok (info : fs_info) : Prop := {
  par_block_size : 1024 < block_size info <= 2 ^ 16;
  par_group : 0 < blocks_per_group info <= 8 * block_size info;
  par_inodes : 0 < inodes_per_group info <= 8 * block_size info;
  par_inode_size : 0 < inode_size info /\
    inodes_per_group info * inode_size info + block_size info < 2 ^ 32;
  par_sparse : Z.land (feat_ro_compat info) EXT4_FEATURE_RO_COMPAT_SPARSE_SUPER <> 0;
  par_reserve : 0 <= bg_desc_reserve_blocks info;
  par_len : 0 < len info /\ len info / block_size info + 2 * blocks_per_group info < 2 ^ 32;
  par_groups : DIV_ROUND_UP (len info / block_size info) (blocks_per_group info) < 2 ^ 26;
  par_header :
    3 + DIV_ROUND_UP (inodes_per_group info * inode_size info) (block_size info)
    + DIV_ROUND_UP (DIV_ROUND_UP (len info / block_size info) (blocks_per_group info) * 32)
        (block_size info)
    + bg_desc_reserve_blocks info
    <= Z.min (blocks_per_group info) (len info / block_size info)
}.

Lemma div_round_up32_id x y : 0 < y -> 0 <= x -> x + y < 2 ^ 32 ->
  div_round_up32 x y = DIV_ROUND_UP x y.
Proof. intros. unfold div_round_up32, DIV_ROUND_UP. rewrite (u32_id (x + y)), u32_id; lia. Qed.

Lemma div_round_up64_id x y : 0 < y -> 0 <= x -> x + y < 2 ^ 64 ->
  div_round_up64 x y = DIV_ROUND_UP x y.
Proof. intros. unfold div_round_up64, DIV_ROUND_UP. rewrite (u64_id (x + y)), u64_id; lia. Qed.

(** What is left of a device of [n] blocks when [k] full groups are taken. *)
Lemma groups_cover n b : 0 < b -> 0 < n ->
  let g := DIV_ROUND_UP n b in
  0 < g /\ (g - 1) * b < n <= g * b /\
  (n mod b = 0 /\ n = g * b \/ 0 < n mod b /\ n = (g - 1) * b + n mod b).
Proof.
  intros Hb Hn g. pose proof (DIV_ROUND_UP_bound n b Hb) as Hbd. fold g in Hbd.
  pose proof (Z.div_mod n b ltac:(lia)) as Hdm.
  pose proof (Z.mod_pos_bound n b Hb) as Hm.
  assert (0 < g) by (apply DIV_ROUND_UP_pos; lia).
  split; [lia|]. split; [lia|].
  destruct (decide (n mod b = 0)) as [E|E]; [left|right].
  - split; [exact E|]. assert (g = n / b) by nia. nia.
  - split; [lia|]. assert (g - 1 = n / b) by nia. nia.
Qed.

Lemma params_ok_blocks info : params_ok info -> 0 < len info / block_size info.
Proof.
  intros [Hbs Hbpg Hipg His Hsp Hrs Hlen Hg Hh].
  pose proof (Z.div_pos (len info) (block_size info) ltac:(lia) ltac:(lia)).
  assert (0 <= DIV_ROUND_UP (len info / block_size info) (blocks_per_group info))
    by (apply DIV_ROUND_UP_nonneg; lia).
  pose proof (DIV_ROUND_UP_nonneg (inodes_per_group info * inode_size info) (block_size info)
    ltac:(lia) ltac:(nia)).
  pose proof (DIV_ROUND_UP_nonneg
    (DIV_ROUND_UP (len info / block_size info) (blocks_per_group info) * 32) (block_size info)
    ltac:(lia) ltac:(lia)). lia.
Qed.

(** The derived parameters when nothing wraps, with [drop] for the last group
    that has no room for its header. *)
Lemma create_aux_eq info : params_ok info ->
  let n := len info / block_size info in
  let g := DIV_ROUND_UP n (blocks_per_group info) in
  let itb := DIV_ROUND_UP (inodes_per_group info * inode_size info) (block_size info) in
  let gdb := DIV_ROUND_UP (g * 32) (block_size info) in
  exists super, ext4_bg_has_super_block info (g - 1) = Ok super /\
  let r := n mod blocks_per_group info in
  let h := 2 + itb + (if super then 1 + gdb + bg_desc_reserve_blocks info else 0) in
  let drop := (0 <? r) && (r <? h) in
  exists ind dind tind,
  ext4_create_fs_aux_info info =
    Ok (mk_aux 0 (if drop then n - r else n) itb (if drop then g - 1 else g) gdb
          EXT4_NOATIME_FL ind dind tind).
Proof.
  intros Hp n g itb gdb. pose proof (params_ok_blocks info Hp) as Hn. fold n in Hn.
  destruct Hp as [Hbs Hbpg Hipg His Hsp Hrs Hlen Hg Hh].
  destruct (groups_cover n (blocks_per_group info)) as (Gpos & Gcov & _); [lia|lia|].
  fold g in Gpos, Gcov.
  fold n in Hlen, Hg, Hh. fold g in Hg, Hh. fold itb gdb in Hh.
  destruct (has_super_spec info (g - 1) Hsp) as (super & Hsup & _); [lia|].
  exists super. split; [exact Hsup|]. intros r h drop.
  pose proof (Z.mod_pos_bound n (blocks_per_group info) ltac:(lia)) as Hr. fold r in Hr.
  pose proof (Z.mod_le n (blocks_per_group info) ltac:(lia) ltac:(lia)) as Hrn. fold r in Hrn.
  assert (0 <= itb) by (apply DIV_ROUND_UP_nonneg; nia).
  assert (0 <= gdb) by (apply DIV_ROUND_UP_nonneg; nia).
  exists (block_size info / 4). eexists. eexists. unfold ext4_create_fs_aux_info.
  rewrite (proj2 (Z.eqb_neq (block_size info) 0)), (proj2 (Z.eqb_neq (blocks_per_group info) 0)) by lia.
  rewrite (proj2 (Z.ltb_lt 1024 (block_size info))) by lia.
  rewrite Z.quot_div_nonneg by lia. fold n.
  rewrite (u64_id n) by lia. rewrite Z.sub_0_r, (u64_id n) by lia.
  rewrite (div_round_up64_id n) by lia. fold g. rewrite (u32_id g) by lia.
  rewrite (u32_id (inodes_per_group info * inode_size info)) by nia.
  rewrite (div_round_up32_id (inodes_per_group info * inode_size info)) by nia. fold itb.
  unfold sizeof_group_desc. rewrite (u32_id (g * 32)) by lia.
  rewrite (div_round_up32_id (g * 32)) by lia. fold gdb.
  rewrite s32_id by lia. rewrite Hsup. cbn [obind]. fold r.
  rewrite (u32_id r) by lia.
  fold h. rewrite (u32_id h) by (unfold h; destruct super; lia). fold drop.
  rewrite (u64_id (n - r)) by lia. rewrite (u32_id (g - 1)) by lia.
  reflexivity.
Qed.

Lemma create_aux_geometry info : params_ok info ->
  exists aux, ext4_create_fs_aux_info info = Ok aux /\ geometry_ok info aux /\
    first_data_block aux = 0 /\
    len info / block_size info - blocks_per_group info < len_blocks aux <= len info / block_size info.
Proof.
  intros Hp. pose proof (params_ok_blocks info Hp) as Hn.
  destruct (create_aux_eq info Hp) as (super & Hsup & ind & dind & tind & E).
  destruct Hp as [Hbs Hbpg Hipg His Hsp Hrs Hlen Hg Hh].
  set (n := len info / block_size info) in *.
  set (g := DIV_ROUND_UP n (blocks_per_group info)) in *.
  set (itb := DIV_ROUND_UP (inodes_per_group info * inode_size info) (block_size info)) in *.
  set (gdb := DIV_ROUND_UP (g * 32) (block_size info)) in *.
  set (r := n mod blocks_per_group info) in *.
  destruct (groups_cover n (blocks_per_group info)) as (Gpos & Gcov & Gr); [lia|lia|].
  fold g r in Gpos, Gcov, Gr.
  assert (0 <= itb) by (apply DIV_ROUND_UP_nonneg; nia).
  assert (0 <= gdb) by (apply DIV_ROUND_UP_nonneg; nia).
  assert (0 <= r < blocks_per_group info) as Hr by (apply Z.mod_pos_bound; lia).
  eexists. split; [exact E|].
  destruct (Z.ltb_spec 0 r) as [R0|R0]; cbn [andb];
  [destruct (Z.ltb_spec r (2 + itb + (if super then 1 + gdb + bg_desc_reserve_blocks info else 0)))
     as [R1|R1]|].
  - destruct Gr as [Gr|[_ Gr]]; [lia|].
    assert (1 < g) by (destruct (decide (g = 1)) as [Eg|]; [rewrite Eg in *; destruct super; lia|lia]).
    split; [|cbn; lia].
    split; unfold group_start, group_size, header_size, group_start; cbn; try lia.
    intros i s Hi _. assert (i * blocks_per_group info <= (g - 2) * blocks_per_group info)
      by (apply Z.mul_le_mono_nonneg_r; lia).
    rewrite Z.min_l by lia. destruct s; lia.
  - destruct Gr as [Gr|[_ Gr]]; [lia|].
    split; [|cbn; lia].
    split; unfold group_start, group_size, header_size, group_start; cbn; try lia.
    intros i s Hi Hs. destruct (decide (i = g - 1)) as [->|Hne].
    + rewrite Hsup in Hs. injection Hs as <-. destruct super; lia.
    + assert (i * blocks_per_group info <= (g - 2) * blocks_per_group info)
        by (apply Z.mul_le_mono_nonneg_r; lia).
      rewrite Z.min_l by lia. destruct s; lia.
  - destruct Gr as [[_ Gr]|Gr]; [|lia].
    split; [|cbn; lia].
    split; unfold group_start, group_size, header_size, group_start; cbn; try lia.
    intros i s Hi _. assert (i * blocks_per_group info <= (g - 1) * blocks_per_group info)
      by (apply Z.mul_le_mono_nonneg_r; lia).
    rewrite Z.min_l by lia. destruct s; lia.
Qed.


Lemma round_down_4096 l : 0 <= l < 2 ^ 63 ->
  s64 (Z.land (u64 l) (u64 (- (4096 - 1) - 1))) = 4096 * (l / 4096).
Proof.
  intros Hl. rewrite (u64_id l) by lia.
  replace (u64 (- (4096 - 1) - 1)) with (Z.ldiff (Z.ones 64) (Z.ones 12)) by reflexivity.
  replace (Z.land l (Z.ldiff (Z.ones 64) (Z.ones 12))) with (Z.ldiff (Z.land l (Z.ones 64)) (Z.ones 12)).
  - rewrite Z.land_ones, (Z.mod_small l) by lia.
    rewrite Z.ldiff_ones_r, Z.shiftr_div_pow2, Z.shiftl_mul_pow2 by lia.
    change (2 ^ 12) with 4096. pose proof (Z.div_mod l 4096 ltac:(lia)).
    pose proof (Z.mod_pos_bound l 4096 ltac:(lia)). rewrite s64_id by lia. lia.
  - apply Z.bits_inj'. intros k Hk.
    rewrite ?Z.land_spec, ?Z.ldiff_spec, ?Z.land_spec. rewrite andb_assoc. reflexivity.
Qed.

(** [n] blocks in [g] groups, a quarter as many inodes, spread evenly and
    rounded up to whole blocks of the table. *)
Lemma default_inodes n : 64 <= n < 2 ^ 31 ->
  let g := DIV_ROUND_UP n 32768 in
  let per := DIV_ROUND_UP (n / 4) g in
  let t := DIV_ROUND_UP per 16 in
  0 < g <= 2 ^ 16 /\ (g = 1 \/ 32768 < n) /\ 0 < per <= 8192 /\ 0 < t <= 512 /\
  (g = 1 -> t <= n / 64 + 1).
Proof.
  intros Hn g per t.
  pose proof (DIV_ROUND_UP_bound n 32768 ltac:(lia)) as Hg. fold g in Hg.
  assert (0 < g) by (apply DIV_ROUND_UP_pos; lia).
  assert (g <= 2 ^ 16) by lia.
  pose proof (Z.div_mod n 4 ltac:(lia)). pose proof (Z.mod_pos_bound n 4 ltac:(lia)).
  pose proof (DIV_ROUND_UP_bound (n / 4) g ltac:(lia)) as Hper. fold per in Hper.
  assert (0 < per) by (apply DIV_ROUND_UP_pos; lia).
  assert (per <= 8192) by nia.
  pose proof (DIV_ROUND_UP_bound per 16 ltac:(lia)) as Ht. fold t in Ht.
  assert (0 < t) by (apply DIV_ROUND_UP_pos; lia).
  split; [lia|]. split; [lia|]. split; [lia|]. split; [lia|].
  intros Eg. rewrite Eg in Hper.
  pose proof (Z.div_mod n 64 ltac:(lia)). pose proof (Z.mod_pos_bound n 64 ltac:(lia)). lia.
Qed.

(** The parameters for a length of [l] bytes when every one is open. *)
Definition default_info (l : Z) : fs_info :=
  let n := l / 4096 in
  let g := DIV_ROUND_UP n 32768 in
  let t := DIV_ROUND_UP (DIV_ROUND_UP (n / 4) g) 16 in
  mk_info (4096 * n) 4096 32768 (16 * t) 256 (u32 (16 * t * g)) (Z.min 32768 (Z.max 1024 (n / 64)))
    3 20 66 (Z.min 1024 (8 * g - DIV_ROUND_UP (g * 32) 4096)) (Some EmptyString) 0.

(** The choice, when every parameter is open. *)
Lemma choose_parameters_default fd_size l : 2 ^ 18 <= l < 2 ^ 43 ->
  choose_parameters fd_size (set_len reset_ext4fs_info l) = Ok (Some (default_info l)) /\ params_ok (default_info l).
Proof.
  intros Hl. set (n := l / 4096).
  pose proof (Z.div_mod l 4096 ltac:(lia)) as Hdm. fold n in Hdm.
  pose proof (Z.mod_pos_bound l 4096 ltac:(lia)).
  assert (64 <= n < 2 ^ 31) as Hn by lia.
  destruct (default_inodes n Hn) as (Hg & Hg1 & Hper & Ht & Ht1).
  set (g := DIV_ROUND_UP n 32768) in *. set (per := DIV_ROUND_UP (n / 4) g) in *.
  set (t := DIV_ROUND_UP per 16) in *.
  pose proof (DIV_ROUND_UP_bound (g * 32) 4096 ltac:(lia)) as Hgdb.
  assert (0 < DIV_ROUND_UP (g * 32) 4096) by (apply DIV_ROUND_UP_pos; lia).
  set (gdb := DIV_ROUND_UP (g * 32) 4096) in *.
  assert (n / 4 + g < 2 ^ 32) by (pose proof (Z.div_le_upper_bound n 4 n ltac:(lia) ltac:(lia)); lia).
  assert (0 <= n / 4) by (apply Z.div_pos; lia).
  pose proof (Z.div_mod n 64 ltac:(lia)). pose proof (Z.mod_pos_bound n 64 ltac:(lia)).
  unfold choose_parameters, set_len, reset_ext4fs_info. cbn [len block_size].
  rewrite (proj2 (Z.leb_gt l 0)) by lia. cbn -[s64 u64 Z.land u32].
  rewrite (proj2 (Z.leb_gt l 0)) by lia.
  unfold compute_block_size. rewrite round_down_4096 by lia. fold n.
  unfold compute_inodes_per_group, compute_bg_desc_reserve_blocks, compute_journal_blocks,
    compute_blocks_per_group, compute_inodes, len_in_blocks.
  cbn -[s64 u64 Z.land Z.lor u32 Z.quot div_round_up32 Z.mul Z.add Z.sub Z.div].
  rewrite (Z.quot_div_nonneg (4096 * n + 4096 - 1)) by lia.
  replace ((4096 * n + 4096 - 1) / 4096) with n
    by (apply (Z.div_unique _ 4096 n 4095); lia).
  rewrite (Z.quot_div_nonneg n 4) by lia.
  rewrite (u32_id n), (u32_id (n / 4)) by lia.
  rewrite (Z.quot_div_nonneg n 64), (u32_id (n / 64)) by lia.
  change (u32 (4096 * 8)) with 32768. cbn [Z.eqb].
  rewrite (div_round_up32_id n) by lia. fold g.
  rewrite (proj2 (Z.eqb_neq g 0)) by lia. cbn -[s64 u64 Z.land Z.lor u32 Z.quot div_round_up32 Z.mul Z.add Z.sub Z.div].
  rewrite (div_round_up32_id (n / 4)) by lia. fold per.
  change (4096 / 256) with 16. cbn [Z.eqb obind].
  rewrite (div_round_up32_id per) by lia. fold t.
  rewrite (u32_id (16 * t)) by lia. cbn [obind].
  unfold sizeof_group_desc.
  rewrite (u32_id (g * 32)), (u32_id (g * 1024)), (u32_id (g * 1024 * 32)) by lia.
  rewrite (div_round_up32_id (g * 32)) by lia. fold gdb.
  rewrite (div_round_up32_id (g * 1024 * 32)) by lia.
  replace (g * 1024 * 32) with (8 * g * 4096) by lia. rewrite DIV_ROUND_UP_mul by lia.
  rewrite (u32_id (8 * g - gdb)) by lia. change (4096 / 4) with 1024.
  unfold default_info. fold n g per t gdb.
  replace (if 32768 <? (if n / 64 <? 1024 then 1024 else n / 64) then 32768 else if n / 64 <? 1024 then 1024 else n / 64)
    with (Z.min 32768 (Z.max 1024 (n / 64))) by (destruct (Z.ltb_spec (n / 64) 1024); destruct (Z.ltb_spec 32768 (n / 64)); try (destruct (Z.ltb_spec 32768 1024)); lia).
  replace (if 1024 <? 8 * g - gdb then 1024 else 8 * g - gdb) with (Z.min 1024 (8 * g - gdb))
    by (destruct (Z.ltb_spec 1024 (8 * g - gdb)); lia).
  split; [reflexivity|].
  assert (4096 * n / 4096 = n) as En by (rewrite Z.mul_comm; apply Z.div_mul; lia).
  assert (DIV_ROUND_UP (16 * t * 256) 4096 = t) as Et
    by (replace (16 * t * 256) with (t * 4096) by lia; apply DIV_ROUND_UP_mul; lia).
  split; cbn -[Z.div Z.mul Z.lor Z.land]; rewrite ?En; fold g; rewrite ?Et; fold gdb; try lia.
  - discriminate.
Qed.


End Ext4Utils.
