(* ===== verification/Ext4Alloc.v ===== *)
(** * ext4_utils/allocate.c: blocks and inodes

    The allocator of the file system builder: the bitmaps and counters of the
    block groups, the lists of regions an allocation is made of, and the
    inodes. Regions are nodes of a heap, linked in both directions; a
    dereference of NULL or of freed memory is [Undef]. [error] leaves the
    program by [longjmp] unless [force] is set; a computation therefore ends
    with a value or with a jump. *)

From S2P Require Import Prelude BackedBlock SparseFile Ext4Utils.

Module Ext4Alloc.
Import Ext4Utils.

Definition EXT4_ALLOCATE_FAILED : Z := 2 ^ 32 - 1.

(** ** Data *)

Record region := mk_region {
  r_block : Z;
  r_len : Z;
  r_bg : Z;
  r_next : option Z;
  r_prev : option Z
}.

Record region_list := mk_list {
  first : option Z;
  last : option Z;
  iter : option Z;
  partial_iter : Z
}.

Record block_allocation := mk_alloc {
  list_ : region_list;
  oob_list : region_list
}.

(** [bitmaps] is the pointer of the two bitmaps with the bytes it points to:
    the block bitmap, then, [block_size] bytes on, the inode bitmap. *)
Record block_group_info := mk_bg {
  first_block : Z;
  header_blocks : Z;
  data_blocks_used : Z;
  has_superblock : bool;
  bitmaps_ptr : Z;
  bitmaps : list Z;
  inode_table : option Z;
  free_blocks : Z;
  first_free_block : Z;
  free_inodes : Z;
  first_free_inode : Z;
  used_dirs : Z
}.

(** An inode, with the fields the program sets; [i_block] is its 60 bytes, which
    hold block numbers or the root of an extent tree. *)
Record ext4_inode := mk_inode {
  i_mode : Z;
  i_uid : Z;
  i_size_lo : Z;
  i_atime : Z;
  i_ctime : Z;
  i_mtime : Z;
  i_gid : Z;
  i_links_count : Z;
  i_blocks_lo : Z;
  i_flags : Z;
  i_block : list Z;
  i_size_high : Z;
  l_i_blocks_high : Z
}.
Definition zero_inode : ext4_inode := mk_inode 0 0 0 0 0 0 0 0 0 0 (zeros 60) 0 0.

(** The globals of the program, the heap of regions, and the allocator of the
    C library: the next address it hands out and whether it does. [mem] has the
    bytes of the buffers the program fills, by address, and [itab] the inodes
    of the tables that were written to, by group and index. *)
Record fs := mk_fs {
  force : bool;
  info : fs_info;
  aux_info : fs_aux_info;
  bgs : list block_group_info;
  heap : gmap Z region;
  fresh : Z;
  avail : Z -> bool;
  sparse_file : SparseFile.sparse_file;
  mem : gmap Z (list Z);
  itab : gmap (Z * Z) ext4_inode
}.

Definition set_bgs (s : fs) (b : list block_group_info) : fs :=
  mk_fs (force s) (info s) (aux_info s) b (heap s) (fresh s) (avail s) (sparse_file s)
    (mem s) (itab s).
Definition set_heap (s : fs) (h : gmap Z region) : fs :=
  mk_fs (force s) (info s) (aux_info s) (bgs s) h (fresh s) (avail s) (sparse_file s)
    (mem s) (itab s).
Definition bump (s : fs) : fs :=
  mk_fs (force s) (info s) (aux_info s) (bgs s) (heap s) (fresh s + 1) (avail s) (sparse_file s)
    (mem s) (itab s).
Definition set_fresh (s : fs) (n : Z) : fs :=
  mk_fs (force s) (info s) (aux_info s) (bgs s) (heap s) n (avail s) (sparse_file s)
    (mem s) (itab s).
(** [n] bytes handed out. *)
Definition advance (n : Z) (s : fs) : fs := set_fresh s (fresh s + Z.max 1 n).
Definition set_sparse (s : fs) (f : SparseFile.sparse_file) : fs :=
  mk_fs (force s) (info s) (aux_info s) (bgs s) (heap s) (fresh s) (avail s) f (mem s)
    (itab s).

Definition set_bitmaps (b : block_group_info) (bm : list Z) : block_group_info :=
  mk_bg (first_block b) (header_blocks b) (data_blocks_used b) (has_superblock b)
    (bitmaps_ptr b) bm (inode_table b) (free_blocks b) (first_free_block b) (free_inodes b)
    (first_free_inode b) (used_dirs b).
Definition set_free (b : block_group_info) (n ff : Z) : block_group_info :=
  mk_bg (first_block b) (header_blocks b) (data_blocks_used b) (has_superblock b)
    (bitmaps_ptr b) (bitmaps b) (inode_table b) n ff (free_inodes b)
    (first_free_inode b) (used_dirs b).
Definition set_used (b : block_group_info) (n : Z) : block_group_info :=
  mk_bg (first_block b) (header_blocks b) n (has_superblock b)
    (bitmaps_ptr b) (bitmaps b) (inode_table b) (free_blocks b) (first_free_block b)
    (free_inodes b) (first_free_inode b) (used_dirs b).
Definition set_inode_table (b : block_group_info) (p : option Z) : block_group_info :=
  mk_bg (first_block b) (header_blocks b) (data_blocks_used b) (has_superblock b)
    (bitmaps_ptr b) (bitmaps b) p (free_blocks b) (first_free_block b)
    (free_inodes b) (first_free_inode b) (used_dirs b).
Definition set_inodes (b : block_group_info) (n ff : Z) : block_group_info :=
  mk_bg (first_block b) (header_blocks b) (data_blocks_used b) (has_superblock b)
    (bitmaps_ptr b) (bitmaps b) (inode_table b) (free_blocks b) (first_free_block b)
    n ff (used_dirs b).
Definition set_dirs (b : block_group_info) (n : Z) : block_group_info :=
  mk_bg (first_block b) (header_blocks b) (data_blocks_used b) (has_superblock b)
    (bitmaps_ptr b) (bitmaps b) (inode_table b) (free_blocks b) (first_free_block b)
    (free_inodes b) (first_free_inode b) n.

(** ** Computations: a value, or [None] for a jump to [setjmp_env] *)

Definition M (A : Type) : Type := fs -> outcome (option A * fs).
Definition ret {A} (a : A) : M A := fun s => Ok (Some a, s).
Definition bind {A B} (m : M A) (k : A -> M B) : M B := fun s =>
  match m s with
  | Ok (Some a, s1) => k a s1
  | Ok (None, s1) => Ok (None, s1)
  | AssertFail => AssertFail
  | Undef => Undef
  | NoFuel => NoFuel
  end.
Notation "'let*' p := m 'in' k" :=
  (bind m (fun x => match x with p => k end))
  (at level 10, p pattern, m at level 100, k at level 200) : tboot_scope.

Definition undef {A} : M A := fun _ => Undef.
Definition nofuel {A} : M A := fun _ => NoFuel.
Definition get_state : M fs := fun s => Ok (Some s, s).
Definition put_state (s : fs) : M unit := fun _ => Ok (Some tt, s).

(** [critical_error] always jumps, [error] unless [force] is set. *)
Definition critical_error {A} : M A := fun s => Ok (None, s).
Definition error : M unit := fun s => if force s then Ok (Some tt, s) else Ok (None, s).

(** [aux_info.bgs[i]] *)
Definition get_bg (i : Z) : M block_group_info := fun s =>
  if i <? 0 then Undef
  else match bgs s !! Z.to_nat i with Some b => Ok (Some b, s) | None => Undef end.
Definition put_bg (i : Z) (b : block_group_info) : M unit := fun s =>
  if (0 <=? i) && (i <? zlen (bgs s)) then Ok (Some tt, set_bgs s (<[Z.to_nat i := b]> (bgs s)))
  else Undef.

(** [malloc] and [calloc] of anything but a region. *)
Definition malloc : M (option Z) := fun s =>
  Ok (Some (if avail s (fresh s) then Some (fresh s) else None), bump s).

(** [calloc] of [n] bytes that are kept elsewhere in the state: addresses inside
    are not handed out again. *)
Definition calloc_of (n : Z) : M (option Z) := fun s =>
  if avail s (fresh s) then Ok (Some (Some (fresh s)), advance n s) else Ok (Some None, bump s).

(** [reg = malloc(sizeof(struct region))] with the writes that follow: the code
    does not test the pointer. *)
Definition new_region (r : region) : M Z :=
  let* p := malloc in
  match p with
  | None => undef
  | Some a => let* s := get_state in let* _ := put_state (set_heap s (<[a := r]> (heap s))) in ret a
  end.

Definition deref (p : option Z) : M region := fun s =>
  match p with
  | None => Undef
  | Some a => match heap s !! a with Some r => Ok (Some r, s) | None => Undef end
  end.
Definition store (p : option Z) (r : region) : M unit := fun s =>
  match p with
  | None => Undef
  | Some a =>
      match heap s !! a with
      | Some _ => Ok (Some tt, set_heap s (<[a := r]> (heap s)))
      | None => Undef
      end
  end.
Definition free (p : option Z) : M unit := fun s =>
  match p with
  | None => Ok (Some tt, s)
  | Some a =>
      match heap s !! a with
      | Some _ => Ok (Some tt, set_heap s (delete a (heap s)))
      | None => Undef
      end
  end.
Definition set_next (p q : option Z) : M unit :=
  let* r := deref p in store p (mk_region (r_block r) (r_len r) (r_bg r) q (r_prev r)).
Definition set_prev (p q : option Z) : M unit :=
  let* r := deref p in store p (mk_region (r_block r) (r_len r) (r_bg r) (r_next r) q).
Definition set_rlen (p : option Z) (n : Z) : M unit :=
  let* r := deref p in store p (mk_region (r_block r) n (r_bg r) (r_next r) (r_prev r)).

(** The calls into libsparse; their results are not looked at. *)
Definition sparse_add_data (data len block : Z) : M unit :=
  let* p := malloc in
  fun s =>
    let! (_, f) := SparseFile.sparse_file_add_data (sparse_file s) p data len block in
    Ok (Some tt, set_sparse s f).
Definition sparse_add_fill (val len block : Z) : M unit :=
  let* p := malloc in
  fun s =>
    let! (_, f) := SparseFile.sparse_file_add_fill (sparse_file s) p val len block in
    Ok (Some tt, set_sparse s f).

(** Loops that follow a list visit a node at most once unless it is cyclic. *)
Definition list_fuel (s : fs) : nat := S (size (heap s)).

(** ** Region lists *)

Definition empty_list : region_list := mk_list None None None 0.
Definition no_regions : block_allocation := mk_alloc empty_list empty_list.

(** The code does not test the pointer before it writes through it. *)
Definition create_allocation : M block_allocation :=
  let* p := malloc in
  match p with None => undef | Some _ => ret no_regions end.

Definition region_list_remove (list : region_list) (reg : option Z) : M region_list :=
  let* r := deref reg in
  let* _ := match r_prev r with Some p => set_next (Some p) (r_next r) | None => ret tt end in
  let* r := deref reg in
  let* _ := match r_next r with Some n => set_prev (Some n) (r_prev r) | None => ret tt end in
  let* r := deref reg in
  let first' := if decide (first list = reg) then r_next r else first list in
  let last' := if decide (last list = reg) then r_prev r else last list in
  let* _ := set_next reg None in
  let* _ := set_prev reg None in
  ret (mk_list first' last' (iter list) (partial_iter list)).

Definition region_list_append (list : region_list) (reg : option Z) : M region_list :=
  match first list with
  | None =>
      let* _ := set_prev reg None in
      let* _ := set_next reg None in
      ret (mk_list reg reg reg 0)
  | Some _ =>
      let* _ := set_next (last list) reg in
      let* _ := set_prev reg (last list) in
      let* _ := set_next reg None in
      ret (mk_list (first list) reg (iter list) (partial_iter list))
  end.

(** [prev] is uninitialised until the list sets it. *)
Definition append_region (alloc : block_allocation) (block len bg_num : Z) : M block_allocation :=
  let* reg := new_region (mk_region block len bg_num None None) in
  let* l := region_list_append (list_ alloc) (Some reg) in
  ret (mk_alloc l (oob_list alloc)).

(** ** Inode tables *)

(** [bg->first_block + 2], after the super block and the descriptors. *)
Definition inode_table_block (s : fs) (b : block_group_info) : Z :=
  u32 (first_block b + 2 +
       (if has_superblock b
        then bg_desc_blocks (aux_info s) + bg_desc_reserve_blocks (info s) + 1 else 0)).

Definition allocate_bg_inode_table (bg : Z) : M unit :=
  let* b := get_bg bg in
  match inode_table b with
  | Some _ => ret tt
  | None =>
      let* s := get_state in
      let* p := calloc_of (inode_table_blocks (aux_info s) * block_size (info s)) in
      let* _ := put_bg bg (set_inode_table b p) in
      match p with
      | None => critical_error
      | Some a =>
          sparse_add_data a (u32 (inode_table_blocks (aux_info s) * block_size (info s)))
            (inode_table_block s b)
      end
  end.

Fixpoint init_unused_loop (ids : list Z) : M unit :=
  match ids with
  | [] => ret tt
  | i :: ids' =>
      let* b := get_bg i in
      let* s := get_state in
      let* _ :=
        match inode_table b with
        | Some _ => ret tt
        | None =>
            sparse_add_fill 0 (u32 (inode_table_blocks (aux_info s) * block_size (info s)))
              (inode_table_block s b)
        end in
      init_unused_loop ids'
  end.

Definition init_unused_inode_tables : M unit :=
  let* s := get_state in init_unused_loop (seqZ 0 (groups (aux_info s))).

(** ** Bitmaps *)

Definition bitmap_set_bit (bitmap : list Z) (bit : Z) : outcome (Z * list Z) :=
  let! b := oof (bitmap !! Z.to_nat (bit / 8)) in
  if negb (Z.land b (Z.shiftl 1 (bit mod 8)) =? 0) then Ok (1, bitmap)
  else Ok (0, <[Z.to_nat (bit / 8) := Z.lor b (Z.shiftl 1 (bit mod 8))]> bitmap).

Definition bitmap_set_8_bits (bitmap : list Z) (bit : Z) : outcome (Z * list Z) :=
  let! b := oof (bitmap !! Z.to_nat (bit / 8)) in
  Ok (b, <[Z.to_nat (bit / 8) := 0xFF]> bitmap).

(** The loops of [reserve_blocks]: whether it got through, [i], [block] and the
    bitmap. With [align] the loop stops where [block] is a multiple of 8. *)
Fixpoint bit_loop (fuel : nat) (align : bool) (num i block : Z) (bm : list Z)
  : outcome (bool * Z * Z * list Z) :=
  match fuel with
  | O => NoFuel
  | S f =>
      if (i <? num) && negb (align && (block mod 8 =? 0)) then
        let! (set, bm1) := bitmap_set_bit bm block in
        if negb (set =? 0) then Ok (false, i, block, bm1)
        else bit_loop f align num (u32 (i + 1)) (u32 (block + 1)) bm1
      else Ok (true, i, block, bm)
  end.

Fixpoint byte_loop (fuel : nat) (num i block : Z) (bm : list Z)
  : outcome (bool * Z * Z * list Z) :=
  match fuel with
  | O => NoFuel
  | S f =>
      if u32 (i + 8) <=? Z.land num 0xFFFFFFF8 then
        let! (set, bm1) := bitmap_set_8_bits bm block in
        if negb (set =? 0) then Ok (false, i, block, bm1)
        else byte_loop f num (u32 (i + 8)) (u32 (block + 8)) bm1
      else Ok (true, i, block, bm)
  end.

Definition mark_blocks (start num : Z) (bm : list Z) : outcome (bool * list Z) :=
  let fuel := S (Z.to_nat num) in
  let! (ok, i, block, bm) := bit_loop fuel true num 0 start bm in
  if negb ok then Ok (false, bm)
  else
    let! (ok, i, block, bm) := byte_loop fuel num i block bm in
    if negb ok then Ok (false, bm)
    else
      let! (ok, i, block, bm) := bit_loop fuel false num i block bm in
      Ok (ok, bm).

Definition reserve_blocks (bg start num : Z) : M Z :=
  let* b := get_bg bg in
  if free_blocks b <? num then ret (-1)
  else
    let* (ok, bm) := (fun s => let! r := mark_blocks start num (bitmaps b) in Ok (Some r, s)) in
    let* _ := put_bg bg (set_bitmaps b bm) in
    if negb ok then let* _ := error in ret (-1)
    else
      let* _ := put_bg bg (set_free (set_bitmaps b bm) (u32 (free_blocks b - num))
                  (if start =? first_free_block b then u32 (start + num)
                   else first_free_block b)) in
      ret 0.

Fixpoint clear_loop (n : nat) (block : Z) (bm : list Z) : outcome (list Z) :=
  match n with
  | O => Ok bm
  | S n' =>
      let! b := oof (bm !! Z.to_nat (block / 8)) in
      clear_loop n' (u32 (block - 1))
        (<[Z.to_nat (block / 8) := u8 (Z.land b (Z.lnot (Z.shiftl 1 (block mod 8))))]> bm)
  end.

(** The C name is [free_blocks], also the name of the counter. *)
Definition free_blocks_of (bg num_blocks : Z) : M unit :=
  let* b := get_bg bg in
  let* bm := (fun s =>
    let! r := clear_loop (Z.to_nat num_blocks) (u32 (first_free_block b - 1)) (bitmaps b) in
    Ok (Some r, s)) in
  put_bg bg (set_free (set_bitmaps b bm) (u32 (free_blocks b + num_blocks))
               (u32 (first_free_block b - num_blocks))).

Fixpoint reduce_loop (fuel : nat) (l : region_list) (len : Z) : M region_list :=
  match fuel with
  | O => nofuel
  | S f =>
      if len =? 0 then ret l
      else
        let last_reg := last l in
        let* r := deref last_reg in
        if len <? r_len r then
          let* _ := free_blocks_of (r_bg r) len in
          let* _ := set_rlen last_reg (u32 (r_len r - len)) in
          reduce_loop f l 0
        else
          let* _ := free_blocks_of (r_bg r) (r_len r) in
          let* l' :=
            match r_prev r with
            | Some reg => let* _ := set_next (Some reg) None in ret l
            | None => ret (mk_list None None None 0)
            end in
          let* _ := free last_reg in
          reduce_loop f l' (u32 (len - r_len r))
  end.

Definition reduce_allocation (alloc : block_allocation) (len : Z) : M block_allocation :=
  let* s := get_state in
  let* l := reduce_loop (S (list_fuel s)) (list_ alloc) len in
  ret (mk_alloc l (oob_list alloc)).

(** ** Block groups *)

Definition zero_bg : block_group_info := mk_bg 0 0 0 false 0 [] None 0 0 0 0 0.

Definition init_bg (i : Z) : M unit :=
  let* s := get_state in
  let* super := (fun s => let! r := ext4_bg_has_super_block (info s) (s32 i) in Ok (Some r, s)) in
  let super_blocks :=
    if super then 1 + bg_desc_blocks (aux_info s) + bg_desc_reserve_blocks (info s) else 0 in
  let header_blocks := s32 (2 + inode_table_blocks (aux_info s) + super_blocks) in
  let first_block := u32 (first_data_block (aux_info s) + u32 (i * blocks_per_group (info s))) in
  let* p := calloc_of (2 * block_size (info s)) in
  match p with
  | None => undef
  | Some a =>
      let* _ := sparse_add_data a (u32 (2 * block_size (info s))) (u32 (first_block + super_blocks)) in
      let* _ := put_bg i (mk_bg first_block header_blocks 0 super a
                            (zeros (2 * block_size (info s))) None
                            (blocks_per_group (info s)) 0 (inodes_per_group (info s)) 1 0) in
      let* ret1 := reserve_blocks i 0 (u32 header_blocks) in
      let* _ := if ret1 <? 0 then error else ret tt in
      let overrun :=
        u32 (u64 (u32 (first_block + blocks_per_group (info s)) - len_blocks (aux_info s))) in
      if 0 <? overrun then
        let* _ := reserve_blocks i (u32 (blocks_per_group (info s) - overrun)) overrun in ret tt
      else ret tt
  end.

Fixpoint init_loop (ids : list Z) : M unit :=
  match ids with
  | [] => ret tt
  | i :: ids' => let* _ := init_bg i in init_loop ids'
  end.

Definition block_allocator_init : M unit :=
  let* s := get_state in
  let* p := malloc in
  match p with
  | None => critical_error
  | Some _ =>
      let* s1 := get_state in
      let* _ := put_state (set_bgs s1 (replicate (Z.to_nat (groups (aux_info s))) zero_bg)) in
      init_loop (seqZ 0 (groups (aux_info s)))
  end.

(** The pointers passed to [free], [bgs_ptr] the one of the array. *)
Definition block_allocator_free (bgs_ptr : Z) (s : fs) : list Z :=
  concat (map (fun b => bitmaps_ptr b :: match inode_table b with Some p => [p] | None => [] end)
            (take (Z.to_nat (groups (aux_info s))) (bgs s))) ++ [bgs_ptr].

(** ** Allocation *)

Definition get_free_blocks (bg : Z) : M Z := let* b := get_bg bg in ret (free_blocks b).
Definition get_free_inodes (bg : Z) : M Z := let* b := get_bg bg in ret (free_inodes b).

Definition ext4_allocate_blocks_from_block_group (len bg_num : Z) : M Z :=
  let* n := get_free_blocks bg_num in
  if n <? len then ret EXT4_ALLOCATE_FAILED
  else
    let* b := get_bg bg_num in
    let block := first_free_block b in
    let* r := reserve_blocks bg_num block len in
    if r <? 0 then let* _ := error in ret EXT4_ALLOCATE_FAILED
    else
      let* b := get_bg bg_num in
      let* _ := put_bg bg_num (set_used b (s32 (data_blocks_used b + len))) in
      ret (u32 (first_block b + block)).

Fixpoint contiguous_loop (ids : list Z) (len : Z) : M (option Z) :=
  match ids with
  | [] => ret None
  | i :: ids' =>
      let* block := ext4_allocate_blocks_from_block_group len i in
      if negb (block =? EXT4_ALLOCATE_FAILED) then
        let* reg := new_region (mk_region block len i None None) in ret (Some reg)
      else contiguous_loop ids' len
  end.

Definition ext4_allocate_contiguous_blocks (len : Z) : M (option Z) :=
  let* s := get_state in contiguous_loop (seqZ 0 (groups (aux_info s))) len.

Fixpoint allocate_block_loop (ids : list Z) : M Z :=
  match ids with
  | [] => ret EXT4_ALLOCATE_FAILED
  | i :: ids' =>
      let* block := ext4_allocate_blocks_from_block_group 1 i in
      if negb (block =? EXT4_ALLOCATE_FAILED) then ret block else allocate_block_loop ids'
  end.

Definition allocate_block : M Z :=
  let* s := get_state in allocate_block_loop (seqZ 0 (groups (aux_info s))).

Fixpoint partial_loop (ids : list Z) (len : Z) : M (option Z) :=
  match ids with
  | [] => ret None
  | i :: ids' =>
      let* b := get_bg i in
      if data_blocks_used b =? 0 then
        let bg_len := free_blocks b in
        if len <=? bg_len then ext4_allocate_contiguous_blocks len
        else
          let* block := ext4_allocate_blocks_from_block_group bg_len i in
          if block =? EXT4_ALLOCATE_FAILED then let* _ := error in ret None
          else let* reg := new_region (mk_region block bg_len i None None) in ret (Some reg)
      else partial_loop ids' len
  end.

Definition ext4_allocate_partial (len : Z) : M (option Z) :=
  let* s := get_state in partial_loop (seqZ 0 (groups (aux_info s))) len.

(** The loop of [ext4_allocate_multiple_contiguous_blocks]; the theorems below
    say how many rounds it takes and when it never ends. *)
Fixpoint multiple_loop (fuel : nat) (first_reg prev_reg : option Z) (len : Z) : M (option Z) :=
  match fuel with
  | O => nofuel
  | S f =>
      if 0 <? len then
        let* reg := ext4_allocate_partial len in
        match reg with
        | None => ret None
        | Some a =>
            let first_reg := match first_reg with None => reg | _ => first_reg end in
            let* _ :=
              match prev_reg with
              | Some _ => let* _ := set_next prev_reg reg in set_prev reg prev_reg
              | None => ret tt
              end in
            let* r := deref reg in
            multiple_loop f first_reg reg (u32 (len - r_len r))
        end
      else ret first_reg
  end.

Definition ext4_allocate_multiple_contiguous_blocks (fuel : nat) (len : Z) : M (option Z) :=
  multiple_loop fuel None None len.

(** A round that does not end the loop uses up a group. *)
Definition multiple_fuel (s : fs) : nat := S (S (length (bgs s))).

Definition do_allocate (len : Z) : M (option Z) :=
  let* reg := ext4_allocate_contiguous_blocks len in
  match reg with
  | Some _ => ret reg
  | None =>
      let* s := get_state in ext4_allocate_multiple_contiguous_blocks (multiple_fuel s) len
  end.

Definition allocate_blocks (len : Z) : M (option block_allocation) :=
  let* reg := do_allocate len in
  match reg with
  | None => ret None
  | Some _ =>
      let* alloc := create_allocation in
      ret (Some (mk_alloc (mk_list reg reg reg 0) (oob_list alloc)))
  end.

(** ** Reading an allocation *)

Fixpoint fold_regions (fuel : nat) (f : Z -> region -> Z) (i : Z) (reg : option Z) : M Z :=
  match fuel with
  | O => nofuel
  | S n =>
      match reg with
      | None => ret i
      | Some _ => let* r := deref reg in fold_regions n f (f i r) (r_next r)
      end
  end.

Definition block_allocation_num_regions (alloc : block_allocation) : M Z :=
  let* s := get_state in
  let* i := fold_regions (list_fuel s) (fun i _ => u32 (i + 1)) 0 (first (list_ alloc)) in
  ret (s32 i).

Definition block_allocation_len (alloc : block_allocation) : M Z :=
  let* s := get_state in
  let* i := fold_regions (list_fuel s) (fun i r => u32 (i + r_len r)) 0 (first (list_ alloc)) in
  ret (s32 i).

Fixpoint get_block_loop (fuel : nat) (reg : option Z) (block : Z) : M Z :=
  match fuel with
  | O => nofuel
  | S n =>
      match reg with
      | None => ret EXT4_ALLOCATE_FAILED
      | Some _ =>
          let* r := deref reg in
          if block <? r_len r then ret (u32 (r_block r + block))
          else get_block_loop n (r_next r) (u32 (block - r_len r))
      end
  end.

Definition get_list_block (l : region_list) (block : Z) : M Z :=
  let* s := get_state in
  get_block_loop (list_fuel s) (iter l) (u32 (block + partial_iter l)).

Definition get_block (alloc : block_allocation) (block : Z) : M Z :=
  get_list_block (list_ alloc) block.
Definition get_oob_block (alloc : block_allocation) (block : Z) : M Z :=
  get_list_block (oob_list alloc) block.

(** The block and the length. *)
Definition get_region (alloc : block_allocation) : M (Z * Z) :=
  let* r := deref (iter (list_ alloc)) in
  ret (r_block r, u32 (r_len r - partial_iter (list_ alloc))).

Definition get_next_region (alloc : block_allocation) : M block_allocation :=
  let* r := deref (iter (list_ alloc)) in
  ret (mk_alloc (mk_list (first (list_ alloc)) (last (list_ alloc)) (r_next r) 0)
         (oob_list alloc)).

Definition last_region (alloc : block_allocation) : bool :=
  match iter (list_ alloc) with None => true | Some _ => false end.

Definition rewind_alloc (alloc : block_allocation) : block_allocation :=
  mk_alloc (mk_list (first (list_ alloc)) (last (list_ alloc)) (first (list_ alloc)) 0)
    (oob_list alloc).

(** ** Splitting an allocation *)

Fixpoint split_walk (fuel : nat) (reg : option Z) (len : Z) : M (option Z * Z) :=
  match fuel with
  | O => nofuel
  | S n =>
      match reg with
      | None => ret (None, len)
      | Some _ =>
          let* r := deref reg in
          if r_len r <=? len then split_walk n (r_next r) (u32 (len - r_len r))
          else ret (reg, len)
      end
  end.

(** The region returned and the allocation, whose pointer has moved. *)
Definition do_split_allocation (alloc : block_allocation) (len : Z)
  : M (option Z * block_allocation) :=
  let l := list_ alloc in
  let* s := get_state in
  let* (reg, len) := split_walk (list_fuel s) (iter l) len in
  match reg with
  | None => ret (None, alloc)
  | Some _ =>
      if 0 <? len then
        let* r := deref reg in
        let* new := new_region (mk_region (u32 (r_block r + len)) (u32 (r_len r - len)) (r_bg r)
                                  (r_next r) reg) in
        let* _ := set_next reg (Some new) in
        let* _ := set_rlen reg len in
        ret (iter l, mk_alloc (mk_list (first l) (last l) (Some new) (partial_iter l))
                       (oob_list alloc))
      else ret (reg, alloc)
  end.

Definition split_allocation (alloc : block_allocation) (len : Z)
  : M (option Z * block_allocation) :=
  let* (_, alloc) := do_split_allocation alloc (partial_iter (list_ alloc)) in
  let* (middle, alloc) := do_split_allocation alloc len in
  let l := list_ alloc in
  ret (middle, mk_alloc (mk_list (first l) (last l) (iter l) 0) (oob_list alloc)).

Fixpoint move_oob (fuel : nat) (alloc : block_allocation) (oob : option Z) : M block_allocation :=
  match fuel with
  | O => nofuel
  | S n =>
      match oob with
      | None => ret alloc
      | Some _ =>
          if decide (oob = iter (list_ alloc)) then ret alloc
          else
            let* r := deref oob in
            let* l := region_list_remove (list_ alloc) oob in
            let* o := region_list_append (oob_list alloc) oob in
            move_oob n (mk_alloc l o) (r_next r)
      end
  end.

Definition reserve_oob_blocks (alloc : block_allocation) (blocks : Z) : M (Z * block_allocation) :=
  let* (oob, alloc) := split_allocation alloc (u32 blocks) in
  match oob with
  | None => ret (-1, alloc)
  | Some _ =>
      let* s := get_state in
      let* alloc := move_oob (list_fuel s) alloc oob in
      ret (0, alloc)
  end.

Fixpoint advance_loop (fuel : nat) (l : region_list) (reg : option Z) (blocks : Z)
  : M (Z * region_list) :=
  match fuel with
  | O => nofuel
  | S n =>
      match reg with
      | None => ret ((if 0 <? blocks then -1 else 0), l)
      | Some _ =>
          if 0 <? blocks then
            let* r := deref reg in
            if u32 (partial_iter l + blocks) <? r_len r then
              ret (0, mk_list (first l) (last l) (iter l) (u32 (partial_iter l + blocks)))
            else
              advance_loop n (mk_list (first l) (last l) (iter l) 0) (r_next r)
                (s32 (u32 (blocks - u32 (r_len r - partial_iter l))))
          else ret (0, l)
      end
  end.

Definition advance_list_ptr (l : region_list) (blocks : Z) : M (Z * region_list) :=
  let* s := get_state in advance_loop (list_fuel s) l (iter l) blocks.

Definition advance_blocks (alloc : block_allocation) (blocks : Z) : M (Z * block_allocation) :=
  let* (r, l) := advance_list_ptr (list_ alloc) blocks in ret (r, mk_alloc l (oob_list alloc)).
Definition advance_oob_blocks (alloc : block_allocation) (blocks : Z) : M (Z * block_allocation) :=
  let* (r, l) := advance_list_ptr (oob_list alloc) blocks in ret (r, mk_alloc (list_ alloc) l).

Fixpoint append_all (fuel : nat) (l : region_list) (reg : option Z) : M region_list :=
  match fuel with
  | O => nofuel
  | S n =>
      match reg with
      | None => ret l
      | Some _ =>
          let* l := region_list_append l reg in
          let* r := deref reg in
          append_all n l (r_next r)
      end
  end.

Definition append_oob_allocation (alloc : block_allocation) (len : Z) : M (Z * block_allocation) :=
  let* reg := do_allocate len in
  match reg with
  | None => let* _ := error in ret (-1, alloc)
  | Some _ =>
      let* s := get_state in
      let* l := append_all (list_fuel s) (oob_list alloc) reg in
      ret (0, mk_alloc (list_ alloc) l)
  end.

(** ** Inodes *)

(** The inode as the group and the index in the table of the group. *)
Definition get_inode (inode : Z) : M (Z * Z) :=
  let* s := get_state in
  let inode := u32 (inode - 1) in
  if inodes_per_group (info s) =? 0 then undef
  else
    let bg := s32 (inode / inodes_per_group (info s)) in
    let* _ := allocate_bg_inode_table bg in
    ret (bg, inode mod inodes_per_group (info s)).

Fixpoint set_inode_bits (n : nat) (off inode : Z) (bm : list Z) : outcome (list Z) :=
  match n with
  | O => Ok bm
  | S n' =>
      let! b := oof (bm !! Z.to_nat (off + inode / 8)) in
      set_inode_bits n' off (u32 (inode + 1))
        (<[Z.to_nat (off + inode / 8) := Z.lor b (Z.shiftl 1 (inode mod 8))]> bm)
  end.

Definition reserve_inodes (bg num : Z) : M Z :=
  let* n := get_free_inodes bg in
  if n <? num then ret EXT4_ALLOCATE_FAILED
  else
    let* s := get_state in
    let* b := get_bg bg in
    let* bm := (fun s' =>
      let! r := set_inode_bits (Z.to_nat num) (block_size (info s)) (u32 (first_free_inode b - 1))
                  (bitmaps b) in Ok (Some r, s')) in
    let inode := first_free_inode b in
    let* _ := put_bg bg (set_inodes (set_bitmaps b bm) (u32 (free_inodes b - num))
                           (u32 (first_free_inode b + num))) in
    ret inode.

Fixpoint allocate_inode_loop (ids : list Z) : M Z :=
  match ids with
  | [] => ret EXT4_ALLOCATE_FAILED
  | bg :: ids' =>
      let* s := get_state in
      let* inode := reserve_inodes bg 1 in
      if negb (inode =? EXT4_ALLOCATE_FAILED)
      then ret (u32 (bg * inodes_per_group (info s) + inode))
      else allocate_inode_loop ids'
  end.

Definition allocate_inode : M Z :=
  let* s := get_state in allocate_inode_loop (seqZ 0 (groups (aux_info s))).

Definition add_directory (inode : Z) : M unit :=
  let* s := get_state in
  if inodes_per_group (info s) =? 0 then undef
  else
    let bg := s32 (u32 (inode - 1) / inodes_per_group (info s)) in
    let* b := get_bg bg in
    put_bg bg (set_dirs b (u16 (used_dirs b + 1))).

Definition get_directories (bg : Z) : M Z := let* b := get_bg bg in ret (used_dirs b).

Fixpoint free_list (fuel : nat) (reg : option Z) : M unit :=
  match fuel with
  | O => nofuel
  | S n =>
      match reg with
      | None => ret tt
      | Some _ =>
          let* r := deref reg in
          let* _ := free reg in
          free_list n (r_next r)
      end
  end.

Definition free_alloc (alloc : block_allocation) : M unit :=
  let* s := get_state in
  let* _ := free_list (list_fuel s) (first (list_ alloc)) in
  free_list (list_fuel s) (first (oob_list alloc)).

End Ext4Alloc.
