(* ===== verification/Ext4AllocBits.v ===== *)
(** * The block bitmaps of the allocator

    What [reserve_blocks] and [free_blocks] of [ext4_utils/allocate.c] do to
    the bits of a group, the invariant that ties the counters of a group to
    its bitmaps, and the initial state of the groups. *)

From S2P Require Import Prelude BackedBlock SparseFile Ext4Utils Ext4Alloc.

Module Ext4AllocBits.
Import Ext4Utils Ext4Alloc.

(** ** Bits of a bitmap *)

Definition bit (bm : list Z) (n : Z) : bool :=
  Z.testbit (nth (Z.to_nat (n / 8)) bm 0) (n mod 8).

Definition in_range (a n m : Z) : bool := (a <=? m) && (m <? a + n).

(** [bm'] is [bm] with the [n] bits from [a] set to [v]. *)
Definition set_range (v : bool) (bm : list Z) (a n : Z) (bm' : list Z) : Prop :=
  zlen bm' = zlen bm /\ bytes_ok bm' /\
  forall m, 0 <= m -> bit bm' m = if in_range a n m then v else bit bm m.

(** None of the [n] bits from [a] is set. *)
Definition clear_range (bm : list Z) (a n : Z) : Prop :=
  forall m, a <= m < a + n -> bit bm m = false.

Lemma in_range_true a n m : in_range a n m = true <-> a <= m < a + n.
Proof. unfold in_range. rewrite andb_true_iff, Z.leb_le, Z.ltb_lt. reflexivity. Qed.

Lemma in_range_false a n m : in_range a n m = false <-> ~ a <= m < a + n.
Proof. rewrite <- in_range_true. destruct (in_range a n m); split; congruence. Qed.

Lemma set_range_refl v bm a : bytes_ok bm -> set_range v bm a 0 bm.
Proof.
  intros H. split; [reflexivity|]. split; [exact H|]. intros m _.
  rewrite (proj2 (in_range_false a 0 m)) by lia. reflexivity.
Qed.

Lemma set_range_trans v bm a n bm1 k bm2 : 0 <= n -> 0 <= k ->
  set_range v bm a n bm1 -> set_range v bm1 (a + n) k bm2 -> set_range v bm a (n + k) bm2.
Proof.
  intros Hn Hk (L1 & B1 & S1) (L2 & B2 & S2). split; [congruence|]. split; [exact B2|].
  intros m Hm. rewrite S2, S1 by exact Hm.
  destruct (in_range (a + n) k m) eqn:E2, (in_range a n m) eqn:E1, (in_range a (n + k) m) eqn:E;
    rewrite ?in_range_true, ?in_range_false in *; try reflexivity; lia.
Qed.

(** The same, with the lower part set last. *)
Lemma set_range_trans_down v bm a n bm1 k bm2 : 0 <= n -> 0 <= k ->
  set_range v bm (a + k) n bm1 -> set_range v bm1 a k bm2 -> set_range v bm a (n + k) bm2.
Proof.
  intros Hn Hk (L1 & B1 & S1) (L2 & B2 & S2). split; [congruence|]. split; [exact B2|].
  intros m Hm. rewrite S2, S1 by exact Hm.
  destruct (in_range a k m) eqn:E2, (in_range (a + k) n m) eqn:E1, (in_range a (n + k) m) eqn:E;
    rewrite ?in_range_true, ?in_range_false in *; try reflexivity; lia.
Qed.

Lemma clear_range_set v bm a n bm' b k : set_range v bm a n bm' ->
  0 <= b -> (b + k <= a \/ a + n <= b) -> clear_range bm b k -> clear_range bm' b k.
Proof.
  intros (_ & _ & S) Hb Hd Hc m Hm. rewrite S by lia.
  rewrite (proj2 (in_range_false a n m)) by lia. apply Hc. exact Hm.
Qed.

Lemma bytes_lookup bm i b : bytes_ok bm -> bm !! i = Some b -> 0 <= b < 256.
Proof. intros H E. exact (proj1 (Forall_lookup _ _) H i b E). Qed.

Lemma nth_insert_eq (l : list Z) i j x : (i < length l)%nat ->
  nth j (<[i := x]> l) 0 = if decide (i = j) then x else nth j l 0.
Proof.
  intros Hi. rewrite !nth_lookup. destruct (decide (i = j)) as [->|Hne].
  - rewrite list_lookup_insert_eq by exact Hi. reflexivity.
  - rewrite list_lookup_insert_ne by exact Hne. reflexivity.
Qed.

Lemma byte_testbit_high b k : 0 <= b < 256 -> 8 <= k -> Z.testbit b k = false.
Proof.
  intros Hb Hk. destruct (decide (b = 0)) as [->|]; [apply Z.bits_0|].
  apply Z.bits_above_log2; [lia|]. apply Z.log2_lt_pow2; [lia|].
  apply Z.lt_le_trans with (2 ^ 8); [exact (proj2 Hb)|]. apply Z.pow_le_mono_r; lia.
Qed.

Lemma byte_of_bits b : (0 <= b) -> (forall k, 8 <= k -> Z.testbit b k = false) -> 0 <= b < 256.
Proof.
  intros H0 Hk. split; [exact H0|]. destruct (Z.lt_ge_cases b 256) as [|Hge]; [assumption|].
  exfalso. pose proof (Z.bit_log2 b ltac:(lia)) as Hl.
  assert (8 <= Z.log2 b) by (apply Z.log2_le_pow2; [lia|exact Hge]).
  rewrite Hk in Hl by lia. discriminate.
Qed.

Lemma land_bit b k : 0 <= k -> (Z.land b (Z.shiftl 1 k) =? 0) = negb (Z.testbit b k).
Proof.
  intros Hk. destruct (Z.testbit b k) eqn:E; cbn [negb].
  - apply Z.eqb_neq. intros H0. assert (Z.testbit (Z.land b (Z.shiftl 1 k)) k = true) as Ht.
    { rewrite Z.land_spec, E, Z.shiftl_spec, Z.sub_diag by lia. reflexivity. }
    rewrite H0, Z.bits_0 in Ht. discriminate.
  - apply Z.eqb_eq. apply Z.bits_inj'. intros j Hj.
    rewrite Z.land_spec, Z.shiftl_spec, Z.bits_0 by lia.
    destruct (decide (j = k)) as [->|Hne]; [rewrite E; reflexivity|].
    destruct (Z.testbit b j); [|reflexivity]. cbn [andb].
    destruct (Z.lt_ge_cases j k); [apply Z.testbit_neg_r; lia|].
    apply (Z.bits_above_log2 1); [lia|]. cbn. lia.
Qed.

Lemma testbit_shift1 k j : 0 <= k -> 0 <= j -> Z.testbit (Z.shiftl 1 k) j = (j =? k).
Proof.
  intros Hk Hj. rewrite Z.shiftl_spec by lia. destruct (Z.eqb_spec j k) as [->|Hne].
  - rewrite Z.sub_diag. reflexivity.
  - destruct (Z.lt_ge_cases j k); [apply Z.testbit_neg_r; lia|].
    apply (Z.bits_above_log2 1); [lia|]. cbn. lia.
Qed.

(** A byte of the bitmap is replaced by one that differs in the [n] bits from
    [a] only. *)
Lemma set_range_insert v bm a n i b b' :
  bytes_ok bm -> bm !! i = Some b -> 0 <= b' < 256 -> 0 <= a ->
  (forall k, 0 <= k < 8 -> Z.testbit b' k = if in_range a n (8 * Z.of_nat i + k) then v else Z.testbit b k) ->
  8 * Z.of_nat i <= a -> a + n <= 8 * Z.of_nat i + 8 ->
  set_range v bm a n (<[i := b']> bm).
Proof.
  intros Hok Hi Hb' Ha Hbits Hlo Hhi. pose proof (lookup_lt_Some _ _ _ Hi) as Hlt.
  split; [unfold zlen; rewrite length_insert; reflexivity|].
  split; [apply Forall_insert; [exact Hok|exact Hb']|].
  intros m Hm. unfold bit. rewrite nth_insert_eq by exact Hlt.
  pose proof (Z.div_mod m 8 ltac:(lia)). pose proof (Z.mod_pos_bound m 8 ltac:(lia)).
  destruct (decide (i = Z.to_nat (m / 8))) as [->|Hne].
  - rewrite Hbits by lia. rewrite Z2Nat.id by (apply Z.div_pos; lia).
    replace (8 * (m / 8) + m mod 8) with m by lia.
    rewrite nth_lookup, Hi. reflexivity.
  - rewrite (proj2 (in_range_false a n m)); [reflexivity|].
    intros Hr. apply Hne. apply Nat2Z.inj. rewrite Z2Nat.id by (apply Z.div_pos; lia). lia.
Qed.

Lemma bitmap_lookup bm n : 0 <= n < 8 * zlen bm ->
  exists b, bm !! Z.to_nat (n / 8) = Some b /\ nth (Z.to_nat (n / 8)) bm 0 = b.
Proof.
  intros Hn. destruct (lookup_lt_is_Some_2 bm (Z.to_nat (n / 8))) as [b Hb].
  { unfold zlen in Hn. apply Nat2Z.inj_lt. rewrite Z2Nat.id by (apply Z.div_pos; lia).
    apply Z.div_lt_upper_bound; lia. }
  exists b. split; [exact Hb|]. rewrite nth_lookup, Hb. reflexivity.
Qed.

Lemma bitmap_set_bit_spec bm n : bytes_ok bm -> 0 <= n < 8 * zlen bm ->
  if bit bm n then bitmap_set_bit bm n = Ok (1, bm)
  else exists bm', bitmap_set_bit bm n = Ok (0, bm') /\ set_range true bm n 1 bm'.
Proof.
  intros Hok Hn. destruct (bitmap_lookup bm n Hn) as (b & Hb & Hnth).
  pose proof (Z.mod_pos_bound n 8 ltac:(lia)) as Hm. pose proof (Z.div_mod n 8 ltac:(lia)).
  unfold bitmap_set_bit. rewrite Hb. cbn [oof obind]. rewrite land_bit, negb_involutive by lia.
  unfold bit. rewrite Hnth. destruct (Z.testbit b (n mod 8)) eqn:E; [reflexivity|].
  eexists. split; [reflexivity|]. pose proof (bytes_lookup _ _ _ Hok Hb) as Hbr.
  assert (0 <= n / 8) by (apply Z.div_pos; lia).
  apply (set_range_insert true bm n 1 _ b); [exact Hok|exact Hb| |lia| |lia|lia].
  - apply byte_of_bits; [apply Z.lor_nonneg; split; [lia|]; apply Z.shiftl_nonneg; lia|].
    intros k Hk. rewrite Z.lor_spec, testbit_shift1, byte_testbit_high by lia.
    apply Z.eqb_neq. lia.
  - intros k Hk. rewrite Z.lor_spec, testbit_shift1 by lia. rewrite Z2Nat.id by lia.
    unfold in_range. rewrite orb_comm.
    destruct (Z.eqb_spec k (n mod 8)), (Z.leb_spec n (8 * (n / 8) + k)),
      (Z.ltb_spec (8 * (n / 8) + k) (n + 1)); cbn [andb orb]; try reflexivity; lia.
Qed.

Lemma byte_zero b : 0 <= b < 256 -> (forall k, 0 <= k < 8 -> Z.testbit b k = false) -> b = 0.
Proof.
  intros Hb Hk. apply Z.bits_inj'. intros j Hj. rewrite Z.bits_0.
  destruct (Z.lt_ge_cases j 8); [apply Hk; lia|apply byte_testbit_high; lia].
Qed.

Lemma byte_nonzero b : 0 <= b < 256 -> b <> 0 -> exists k, 0 <= k < 8 /\ Z.testbit b k = true.
Proof.
  intros Hb Hne. exists (Z.log2 b). split; [|apply Z.bit_log2; lia].
  split; [apply Z.log2_nonneg|]. apply Z.log2_lt_pow2; lia.
Qed.

Lemma bitmap_set_8_bits_spec bm n : bytes_ok bm -> 0 <= n < 8 * zlen bm -> n mod 8 = 0 ->
  exists r bm', bitmap_set_8_bits bm n = Ok (r, bm') /\ set_range true bm n 8 bm' /\
    (r = 0 -> clear_range bm n 8) /\ (r <> 0 -> exists m, n <= m < n + 8 /\ bit bm m = true).
Proof.
  intros Hok Hn Hal. destruct (bitmap_lookup bm n Hn) as (b & Hb & Hnth).
  pose proof (Z.div_mod n 8 ltac:(lia)). assert (0 <= n / 8) by (apply Z.div_pos; lia).
  pose proof (bytes_lookup _ _ _ Hok Hb) as Hbr.
  assert (forall m, n <= m < n + 8 -> bit bm m = Z.testbit b (m - n)) as Hview.
  { intros m Hm. unfold bit. replace (m / 8) with (n / 8).
    - rewrite Hnth. f_equal. rewrite Z.mod_eq by lia.
      replace (m / 8) with (n / 8); [lia|]. apply (Z.div_unique m 8 _ (m - n)); lia.
    - apply (Z.div_unique m 8 _ (m - n)); lia. }
  unfold bitmap_set_8_bits. rewrite Hb. cbn [oof obind]. do 2 eexists.
  split; [reflexivity|]. split; [|split].
  - apply (set_range_insert true bm n 8 _ b); [exact Hok|exact Hb|lia|lia| |lia|lia].
    intros k Hk. rewrite Z2Nat.id by lia.
    rewrite (proj2 (in_range_true _ _ _)) by lia.
    assert (forallb (fun k => Z.testbit 0xFF k) (seqZ 0 8) = true) as Hall by reflexivity.
    rewrite forallb_forall in Hall. apply Hall. apply list_elem_of_In, elem_of_seqZ. lia.
  - intros E. rewrite E in *. intros m Hm. rewrite Hview by lia. apply Z.bits_0.
  - intros E. destruct (byte_nonzero b Hbr E) as (k & Hk & Ht). exists (n + k).
    split; [lia|]. rewrite Hview by lia. replace (n + k - n) with k by lia. exact Ht.
Qed.

(** ** The loops of [reserve_blocks] *)

(** [num & ~7] *)
Lemma round_down_8 n : 0 <= n < 2 ^ 32 -> Z.land n 0xFFFFFFF8 <= n.
Proof.
  intros Hn. replace 0xFFFFFFF8 with (Z.ldiff (Z.ones 32) (Z.ones 3)) by reflexivity.
  replace (Z.land n (Z.ldiff (Z.ones 32) (Z.ones 3))) with (Z.ldiff (Z.land n (Z.ones 32)) (Z.ones 3)).
  - rewrite Z.land_ones, Z.mod_small by lia.
    rewrite Z.ldiff_ones_r, Z.shiftr_div_pow2, Z.shiftl_mul_pow2 by lia.
    pose proof (Z.div_mod n (2 ^ 3) ltac:(lia)). pose proof (Z.mod_pos_bound n (2 ^ 3) ltac:(lia)). lia.
  - apply Z.bits_inj'. intros k Hk.
    rewrite ?Z.land_spec, ?Z.ldiff_spec, ?Z.land_spec, andb_assoc. reflexivity.
Qed.

Section loops.
Context (num : Z) (Hnum : 0 <= num < 2 ^ 31).

(** What a loop leaves behind when it ran from [i] to [i']: the blocks it
    passed are marked and were free, or it has met a block in use. *)
Definition loop_result (i block : Z) (bm : list Z) (r : bool * Z * Z * list Z) : Prop :=
  let '(ok, i', block', bm') := r in
  i <= i' <= num /\ block' = block + (i' - i) /\ zlen bm' = zlen bm /\ bytes_ok bm' /\
  (ok = true -> set_range true bm block (i' - i) bm' /\ clear_range bm block (i' - i)) /\
  (ok = false -> exists m, block <= m < block + (num - i) /\ bit bm m = true).

Definition loop_start (i block : Z) (bm : list Z) : Prop :=
  bytes_ok bm /\ 0 <= i <= num /\ 0 <= block /\ block + (num - i) <= 8 * zlen bm
  /\ block + (num - i) < 2 ^ 32 - 8.

Lemma loop_result_done i block bm : loop_start i block bm -> loop_result i block bm (true, i, block, bm).
Proof using Type.
  intros (Hok & Hi & Hb & Hle & Hw). split; [lia|]. split; [lia|]. split; [reflexivity|].
  split; [exact Hok|]. split; [|discriminate]. intros _. rewrite Z.sub_diag.
  split; [apply set_range_refl; exact Hok|]. intros m Hm. lia.
Qed.

Lemma loop_result_step i block bm k bm1 r : 0 <= i -> 0 <= k -> 0 <= block ->
  set_range true bm block k bm1 -> clear_range bm block k ->
  loop_result (i + k) (block + k) bm1 r -> loop_result i block bm r.
Proof using Type.
  destruct r as [[[ok i'] block'] bm']. intros Hi Hk Hb Hs Hc (R1 & R2 & R3 & R4 & R5 & R6).
  split; [lia|]. split; [lia|]. split; [destruct Hs as (E & _); congruence|]. split; [exact R4|].
  split.
  - intros ->. destruct (R5 eq_refl) as (S1 & C1). replace (i' - i) with (k + (i' - (i + k))) by lia.
    split; [apply (set_range_trans true bm block k bm1); auto; lia|].
    intros m Hm. destruct (Z.lt_ge_cases m (block + k)); [apply Hc; lia|].
    assert (bit bm1 m = false) as E by (apply C1; lia).
    destruct Hs as (_ & _ & Hs). rewrite Hs in E by lia.
    rewrite (proj2 (in_range_false block k m)) in E by lia. exact E.
  - intros ->. destruct (R6 eq_refl) as (m & Hm & E). exists m. split; [lia|].
    destruct Hs as (_ & _ & Hs). rewrite Hs in E by lia.
    rewrite (proj2 (in_range_false block k m)) in E by lia. exact E.
Qed.

Lemma bit_loop_spec align fuel : forall i block bm,
  loop_start i block bm -> num - i < Z.of_nat fuel ->
  exists r, bit_loop fuel align num i block bm = Ok r /\ loop_result i block bm r /\
    (r.1.1.1 = true -> r.1.1.2 = num \/ align = true /\ r.1.2 mod 8 = 0).
Proof using Hnum.
  induction fuel as [|f IH]; intros i block bm Hst Hf; [destruct Hst; lia|].
  pose proof Hst as (Hok & Hi & Hb & Hle & Hw). cbn [bit_loop].
  destruct (Z.ltb_spec i num) as [Hlt|Hge]; cbn [andb].
  2:{ eexists. split; [reflexivity|]. split; [apply loop_result_done; exact Hst|]. cbn. lia. }
  destruct (andb align (block mod 8 =? 0)) eqn:Ea; cbn [negb].
  { eexists. split; [reflexivity|]. split; [apply loop_result_done; exact Hst|].
    apply andb_prop in Ea as [-> Ea]. apply Z.eqb_eq in Ea. cbn. auto. }
  pose proof (bitmap_set_bit_spec bm block Hok ltac:(lia)) as Hset.
  destruct (bit bm block) eqn:Eb.
  - rewrite Hset. cbn. eexists. split; [reflexivity|]. split; [|cbn; discriminate].
    split; [lia|]. split; [lia|]. split; [reflexivity|]. split; [exact Hok|].
    split; [discriminate|]. intros _. exists block. split; [lia|exact Eb].
  - destruct Hset as (bm1 & -> & Hs1). cbn -[u32 bit_loop]. rewrite !u32_id by lia.
    pose proof Hs1 as (L1 & B1 & _).
    destruct (IH (i + 1) (block + 1) bm1) as (r & -> & Hr & He).
    { unfold loop_start. rewrite L1. split; [exact B1|]. lia. }
    { lia. }
    exists r. split; [reflexivity|]. split; [|exact He].
    apply (loop_result_step i block bm 1 bm1); try lia; auto.
    intros m Hm. replace m with block by lia. exact Eb.
Qed.

Lemma byte_loop_spec fuel : forall i block bm,
  loop_start i block bm -> i = num \/ block mod 8 = 0 -> num - i < Z.of_nat fuel ->
  exists r, byte_loop fuel num i block bm = Ok r /\ loop_result i block bm r.
Proof using Hnum.
  assert (Z.land num 0xFFFFFFF8 <= num) as Hland by (apply round_down_8; lia).
  induction fuel as [|f IH]; intros i block bm Hst Hal Hf; [destruct Hst; lia|].
  pose proof Hst as (Hok & Hi & Hb & Hle & Hw). cbn [byte_loop].
  rewrite (u32_id (i + 8)) by lia.
  destruct (Z.leb_spec (i + 8) (Z.land num 0xFFFFFFF8)) as [Hlt|Hge].
  2:{ eexists. split; [reflexivity|]. apply loop_result_done; exact Hst. }
  destruct Hal as [->|Hal]; [lia|].
  destruct (bitmap_set_8_bits_spec bm block Hok ltac:(lia) Hal) as (r & bm1 & -> & Hs & H0 & H1).
  cbn -[u32 byte_loop]. pose proof Hs as (L1 & B1 & _).
  destruct (Z.eqb_spec r 0) as [->|Hr]; cbn -[u32 byte_loop].
  - rewrite (u32_id (block + 8)) by lia.
    destruct (IH (i + 8) (block + 8) bm1) as (r' & -> & Hr').
    { unfold loop_start. rewrite L1. split; [exact B1|]. lia. }
    { right. rewrite <- (Z.mod_add block 1 8) in Hal by lia. exact Hal. }
    { lia. }
    exists r'. split; [reflexivity|].
    apply (loop_result_step i block bm 8 bm1); auto; lia.
  - eexists. split; [reflexivity|]. split; [lia|]. split; [lia|]. split; [exact L1|].
    split; [exact B1|]. split; [discriminate|]. intros _.
    destruct (H1 Hr) as (m & Hm & E). exists m. split; [lia|exact E].
Qed.

(** The three loops together mark the range, or meet a block in use. *)
Lemma mark_blocks_spec start bm :
  bytes_ok bm -> 0 <= start -> start + num <= 8 * zlen bm -> start + num < 2 ^ 32 - 8 ->
  exists ok bm', mark_blocks start num bm = Ok (ok, bm') /\ zlen bm' = zlen bm /\ bytes_ok bm' /\
    (ok = true -> set_range true bm start num bm' /\ clear_range bm start num) /\
    (ok = false -> ~ clear_range bm start num).
Proof using Hnum.
  intros Hok Hs Hle Hw. unfold mark_blocks.
  assert (loop_start 0 start bm) as St by (unfold loop_start; split; [exact Hok|]; lia).
  destruct (bit_loop_spec true (S (Z.to_nat num)) 0 start bm St ltac:(lia))
    as ([[[ok1 i1] b1] bm1] & -> & R1 & E1).
  cbn [obind]. cbn [fst snd] in E1.
  assert (forall r, loop_result 0 start bm r -> r.1.1.1 = false ->
    zlen r.2 = zlen bm /\ bytes_ok r.2 /\ ~ clear_range bm start num) as Hfail.
  { intros [[[ok i] b] bm'] (_ & _ & L & B & _ & F) Ef. cbn in Ef |- *. split; [exact L|].
    split; [exact B|]. destruct (F Ef) as (m & Hm & Eb). intros Hc.
    rewrite Hc in Eb by lia. discriminate. }
  destruct ok1; cbn [negb].
  2:{ destruct (Hfail _ R1 eq_refl) as (L & B & N). exists false, bm1. cbn in L, B.
      repeat split; auto; discriminate. }
  pose proof R1 as (I1 & P1 & L1 & B1 & T1 & _). destruct (T1 eq_refl) as (S1 & C1).
  assert (loop_start i1 b1 bm1) as St1 by (unfold loop_start; rewrite L1; split; [exact B1|]; lia).
  assert (forall r, loop_result i1 b1 bm1 r -> loop_result 0 start bm r) as Hstep1.
  { intros r Hr. apply (loop_result_step 0 start bm i1 bm1); try lia.
    - rewrite Z.sub_0_r in S1. exact S1.
    - rewrite Z.sub_0_r in C1. exact C1.
    - replace (0 + i1) with i1 by lia. replace (start + i1) with b1 by lia. exact Hr. }
  destruct (byte_loop_spec (S (Z.to_nat num)) i1 b1 bm1 St1) as ([[[ok2 i2] b2] bm2] & -> & R2).
  { destruct (E1 eq_refl) as [|[_ ?]]; auto. } { lia. }
  apply Hstep1 in R2 as R2'. cbn [obind].
  destruct ok2; cbn [negb].
  2:{ destruct (Hfail _ R2' eq_refl) as (L & B & N). exists false, bm2. cbn in L, B.
      repeat split; auto; discriminate. }
  pose proof R2' as (I2 & P2 & L2 & B2 & T2 & _). destruct (T2 eq_refl) as (S2 & C2).
  assert (loop_start i2 b2 bm2) as St2 by (unfold loop_start; rewrite L2; split; [exact B2|]; lia).
  destruct (bit_loop_spec false (S (Z.to_nat num)) i2 b2 bm2 St2 ltac:(lia))
    as ([[[ok3 i3] b3] bm3] & -> & R3 & E3).
  cbn [obind]. cbn [fst snd] in E3.
  assert (loop_result 0 start bm (ok3, i3, b3, bm3)) as R3'.
  { apply (loop_result_step 0 start bm i2 bm2); try lia.
    - rewrite Z.sub_0_r in S2. exact S2.
    - rewrite Z.sub_0_r in C2. exact C2.
    - replace (0 + i2) with i2 by lia. replace (start + i2) with b2 by lia. exact R3. }
  exists ok3, bm3. split; [reflexivity|]. pose proof R3' as (I3 & P3 & L3 & B3 & T3 & _).
  split; [exact L3|]. split; [exact B3|]. split.
  - intros ->. destruct (T3 eq_refl) as (S3 & C3).
    destruct (E3 eq_refl) as [->|[? _]]; [|discriminate]. rewrite Z.sub_0_r in S3, C3. auto.
  - intros ->. destruct (Hfail _ R3' eq_refl) as (_ & _ & N). exact N.
Qed.

End loops.

Lemma clear_loop_spec n : forall block bm,
  bytes_ok bm -> block + 1 - Z.of_nat n >= 0 -> -1 <= block < 8 * zlen bm -> block < 2 ^ 32 ->
  exists bm', clear_loop n (u32 block) bm = Ok bm' /\
    set_range false bm (block + 1 - Z.of_nat n) (Z.of_nat n) bm'.
Proof.
  induction n as [|n IH]; intros block bm Hok Hn Hb Hw; cbn [clear_loop].
  - exists bm. split; [reflexivity|]. apply set_range_refl. exact Hok.
  - rewrite (u32_id block) by lia.
    destruct (bitmap_lookup bm block ltac:(lia)) as (b & E & Hnth). rewrite E. cbn [oof obind].
    pose proof (bytes_lookup _ _ _ Hok E) as Hbr.
    pose proof (Z.mod_pos_bound block 8 ltac:(lia)). pose proof (Z.div_mod block 8 ltac:(lia)).
    assert (0 <= block / 8) by (apply Z.div_pos; lia).
    set (b' := u8 _). assert (0 <= b' < 256) as Hb' by (unfold b', u8; apply Z.mod_pos_bound; lia).
    assert (set_range false bm block 1 (<[Z.to_nat (block / 8) := b']> bm)) as Hs.
    { apply (set_range_insert false bm block 1 _ b); [exact Hok|exact E|exact Hb'|lia| |lia|lia].
      intros k Hk. unfold b', u8. rewrite Z.mod_pow2_bits_low by lia.
      rewrite Z.land_spec, Z.lnot_spec, testbit_shift1, Z2Nat.id by lia. unfold in_range.
      destruct (Z.eqb_spec k (block mod 8)), (Z.leb_spec block (8 * (block / 8) + k)),
        (Z.ltb_spec (8 * (block / 8) + k) (block + 1)); cbn [andb orb negb]; try lia;
        (apply andb_false_r || apply andb_true_r). }
    pose proof Hs as (L1 & B1 & _).
    destruct (IH (block - 1) (<[Z.to_nat (block / 8) := b']> bm)) as (bm' & -> & Hs');
      [exact B1|lia|rewrite L1; lia|lia|].
    exists bm'. split; [reflexivity|].
    replace (Z.of_nat (S n)) with (1 + Z.of_nat n) by lia.
    apply (set_range_trans_down false bm _ 1 (<[Z.to_nat (block / 8) := b']> bm)); [lia|lia| |].
    + replace (block + 1 - (1 + Z.of_nat n) + Z.of_nat n) with block by lia. exact Hs.
    + replace (block + 1 - (1 + Z.of_nat n)) with (block - 1 + 1 - Z.of_nat n) by lia. exact Hs'.
Qed.


(** ** [reserve_blocks] and [free_blocks] *)

Lemma get_bg_eq s i b : 0 <= i -> bgs s !! Z.to_nat i = Some b -> get_bg i s = Ok (Some b, s).
Proof. intros Hi E. unfold get_bg. rewrite (proj2 (Z.ltb_ge i 0)), E by lia. reflexivity. Qed.

Lemma bgs_bound s i b : 0 <= i -> bgs s !! Z.to_nat i = Some b -> 0 <= i < zlen (bgs s).
Proof. intros Hi E. apply lookup_lt_Some in E. unfold zlen. lia. Qed.

Lemma put_bg_eq s i b : 0 <= i < zlen (bgs s) ->
  put_bg i b s = Ok (Some tt, set_bgs s (<[Z.to_nat i := b]> (bgs s))).
Proof.
  intros Hi. unfold put_bg. rewrite (proj2 (Z.leb_le 0 i)), (proj2 (Z.ltb_lt i _)) by lia. reflexivity.
Qed.

Lemma set_bgs_bgs s l : bgs (set_bgs s l) = l.
Proof. reflexivity. Qed.

Lemma set_bgs_twice s l k : set_bgs (set_bgs s l) k = set_bgs s k.
Proof. reflexivity. Qed.

(** The group after a reservation: the counters follow the bits. *)
Definition reserved (b : block_group_info) (start num : Z) (bm : list Z) : block_group_info :=
  set_free (set_bitmaps b bm) (free_blocks b - num)
    (if start =? first_free_block b then start + num else first_free_block b).

Lemma reserve_blocks_spec s i b start num :
  0 <= i -> bgs s !! Z.to_nat i = Some b ->
  bytes_ok (bitmaps b) -> zlen (bitmaps b) < 2 ^ 27 -> 0 <= start -> 0 <= num <= free_blocks b ->
  free_blocks b < 2 ^ 32 -> start + num <= 8 * zlen (bitmaps b) ->
  exists ok bm, (ok = true <-> clear_range (bitmaps b) start num) /\
    zlen bm = zlen (bitmaps b) /\ bytes_ok bm /\
    (ok = true -> set_range true (bitmaps b) start num bm) /\
    reserve_blocks i start num s =
      if ok then Ok (Some 0, set_bgs s (<[Z.to_nat i := reserved b start num bm]> (bgs s)))
      else Ok (if force s then Some (-1) else None,
               set_bgs s (<[Z.to_nat i := set_bitmaps b bm]> (bgs s))).
Proof.
  intros Hi Hb Hok Hz Hs Hn Hf Hle.
  destruct (mark_blocks_spec num ltac:(lia) start (bitmaps b) Hok Hs Hle ltac:(lia))
    as (ok & bm & Em & L & B & T & F).
  exists ok, bm. split; [destruct ok; split; auto; [apply T|discriminate|
    intros Hc; exfalso; exact (F eq_refl Hc)]; reflexivity|].
  split; [exact L|]. split; [exact B|]. split; [intros E; apply T, E|].
  pose proof (bgs_bound s i b Hi Hb) as Hbd.
  unfold reserve_blocks, bind. rewrite (get_bg_eq s i b Hi Hb).
  rewrite (proj2 (Z.ltb_ge _ _)) by lia. rewrite Em. cbn [obind].
  rewrite put_bg_eq by exact Hbd. destruct ok; cbn [negb].
  - rewrite put_bg_eq by (rewrite set_bgs_bgs; unfold zlen; rewrite length_insert; exact Hbd).
    rewrite set_bgs_bgs, list_insert_insert_eq, set_bgs_twice. unfold ret, reserved.
    rewrite u32_id by lia. destruct (Z.eqb_spec start (first_free_block b)); [|reflexivity].
    rewrite u32_id by lia. reflexivity.
  - unfold error. cbn [force set_bgs]. destruct (force s); reflexivity.
Qed.

Lemma reserve_blocks_full s i b start num :
  0 <= i -> bgs s !! Z.to_nat i = Some b -> free_blocks b < num ->
  reserve_blocks i start num s = Ok (Some (-1), s).
Proof.
  intros Hi Hb Hn. unfold reserve_blocks, bind. rewrite (get_bg_eq s i b Hi Hb).
  rewrite (proj2 (Z.ltb_lt _ _)) by exact Hn. reflexivity.
Qed.

(** ** The invariant of a group *)

(** The free blocks of a group are one run that starts at [first_free_block];
    the bitmap has every other block of the group in use. The inodes before
    [first_free_inode] are in use. *)
Record bg_ok (inf : fs_info) (aux : fs_aux_info) (i : Z) (b : block_group_info) : Prop := {
  bg_first : first_block b = group_start inf aux i;
  bg_len : zlen (bitmaps b) = 2 * block_size inf;
  bg_bytes : bytes_ok (bitmaps b);
  bg_free : 0 <= first_free_block b /\ 0 <= free_blocks b /\
            first_free_block b + free_blocks b <= blocks_per_group inf /\
            (0 < free_blocks b -> first_free_block b + free_blocks b <= group_size inf aux i);
  bg_bits : forall n, 0 <= n < blocks_per_group inf ->
    bit (bitmaps b) n = negb (in_range (first_free_block b) (free_blocks b) n);
  bg_inodes : 0 <= free_inodes b /\ 1 <= first_free_inode b /\
              first_free_inode b - 1 + free_inodes b = inodes_per_group inf;
  bg_inode_bits : forall n, 0 <= n < inodes_per_group inf ->
    bit (bitmaps b) (8 * block_size inf + n) = (n <? first_free_inode b - 1)
}.

Record fs_ok (s : fs) : Prop := {
  fs_geometry : geometry_ok (info s) (aux_info s);
  fs_groups : zlen (bgs s) = groups (aux_info s);
  fs_bgs : forall i b, 0 <= i -> bgs s !! Z.to_nat i = Some b ->
    bg_ok (info s) (aux_info s) i b
}.

(** What an operation on group [i] leaves alone. *)
Lemma fs_ok_update s i b : fs_ok s -> 0 <= i < zlen (bgs s) ->
  bg_ok (info s) (aux_info s) i b -> fs_ok (set_bgs s (<[Z.to_nat i := b]> (bgs s))).
Proof.
  intros [G N B] Hi Hb. split; [exact G| |].
  - cbn. unfold zlen. rewrite length_insert. exact N.
  - intros j c Hj. cbn. destruct (decide (Z.to_nat i = Z.to_nat j)) as [E|Hne].
    + assert (i = j) as <- by lia. rewrite list_lookup_insert_eq by (unfold zlen in Hi; lia).
      intros [= <-]. exact Hb.
    + rewrite list_lookup_insert_ne by exact Hne. apply B; exact Hj.
Qed.

Lemma group_size_bound inf aux i : group_size inf aux i <= blocks_per_group inf.
Proof. unfold group_size. lia. Qed.

(** Blocks are taken from the front of the free run. *)
Lemma reserved_ok inf aux i b num bm : geometry_ok inf aux -> bg_ok inf aux i b ->
  0 <= num <= free_blocks b -> set_range true (bitmaps b) (first_free_block b) num bm ->
  bg_ok inf aux i (reserved b (first_free_block b) num bm).
Proof.
  intros G [F L B Fr Bi In Ib] Hn (L' & B' & S').
  pose proof (geo_group _ _ G). pose proof (group_size_bound inf aux i).
  unfold reserved. rewrite Z.eqb_refl.
  split; cbn; [exact F|lia|exact B'|lia| |exact In|].
  - intros n Hr. rewrite S', Bi by lia.
    destruct (in_range (first_free_block b) num n) eqn:E1,
      (in_range (first_free_block b) (free_blocks b) n) eqn:E2,
      (in_range (first_free_block b + num) (free_blocks b - num) n) eqn:E3;
      rewrite ?in_range_true, ?in_range_false in *; cbn; try reflexivity; lia.
  - intros n Hr. rewrite S' by (pose proof (geo_block_size _ _ G); lia).
    rewrite (proj2 (in_range_false _ _ _)); [apply Ib; exact Hr|]. lia.
Qed.

Lemma bg_ok_clear inf aux i b num : geometry_ok inf aux -> bg_ok inf aux i b ->
  0 <= num <= free_blocks b -> clear_range (bitmaps b) (first_free_block b) num.
Proof.
  intros G [F L B Fr Bi In Ib] Hn m Hm. pose proof (group_size_bound inf aux i).
  rewrite Bi by lia. rewrite (proj2 (in_range_true _ _ _)) by lia. reflexivity.
Qed.

Lemma reserve_free_spec s i b num : fs_ok s -> 0 <= i -> bgs s !! Z.to_nat i = Some b ->
  0 <= num <= free_blocks b ->
  exists bm, reserve_blocks i (first_free_block b) num s =
      Ok (Some 0, set_bgs s (<[Z.to_nat i := reserved b (first_free_block b) num bm]> (bgs s))) /\
    bg_ok (info s) (aux_info s) i (reserved b (first_free_block b) num bm).
Proof.
  intros Hfs Hi Hb Hn. pose proof (fs_geometry _ Hfs) as G.
  pose proof (fs_bgs _ Hfs i b Hi Hb) as Hbg. pose proof Hbg as [F L B Fr Bi In Ib].
  pose proof (geo_block_size _ _ G). pose proof (geo_group _ _ G).
  pose proof (group_size_bound (info s) (aux_info s) i).
  destruct (reserve_blocks_spec s i b (first_free_block b) num Hi Hb B) as (ok & bm & Hc & L' & B' & T & E);
    [lia|lia|lia|lia|lia|].
  assert (ok = true) as -> by (apply Hc; apply (bg_ok_clear (info s) (aux_info s) i b num G Hbg Hn)).
  exists bm. split; [exact E|]. apply reserved_ok; auto.
Qed.


(** ** The calls into libsparse *)

(** The blocks queued so far end before [hi], and the addresses the allocator
    of the library will hand out are new. *)
Record queue_ok (s : fs) (hi : Z) : Prop := {
  q_size : BackedBlock.block_size (SparseFile.s_list (sparse_file s)) = block_size (info s);
  q_blocks : BackedBlock.blocks_ok (block_size (info s)) 0
    (BackedBlock.data_blocks (SparseFile.s_list (sparse_file s))) hi;
  q_live : BackedBlock.last_used_live (SparseFile.s_list (sparse_file s));
  q_fresh : forall a, In a (BackedBlock.data_blocks (SparseFile.s_list (sparse_file s))) ->
    BackedBlock.bb_addr a < fresh s;
  q_nodup : NoDup (map BackedBlock.bb_addr (BackedBlock.data_blocks (SparseFile.s_list (sparse_file s))))
}.

Definition queued (s : fs) : list BackedBlock.backed_block :=
  BackedBlock.data_blocks (SparseFile.s_list (sparse_file s)).

(** Every allocation succeeds. *)
Definition memory (s : fs) : Prop := forall n, avail s n = true.

Lemma malloc_eq s : memory s -> malloc s = Ok (Some (Some (fresh s)), bump s).
Proof. intros H. unfold malloc. rewrite H. reflexivity. Qed.

Lemma calloc_of_eq n s : memory s -> calloc_of n s = Ok (Some (Some (fresh s)), advance n s).
Proof. intros H. unfold calloc_of. rewrite H. reflexivity. Qed.

Lemma mergeable_data a p b n d :
  BackedBlock.mergeable a (BackedBlock.mk_bb p b n (BackedBlock.bb_data d)) = false.
Proof. unfold BackedBlock.mergeable. cbn. destruct (BackedBlock.payload a); reflexivity. Qed.

Lemma sparse_add_data_spec s hi d n b : memory s -> 0 < block_size (info s) -> queue_ok s hi ->
  hi <= b -> 0 <= b -> 0 < n < 2 ^ 32 -> b + DIV_ROUND_UP n (block_size (info s)) <= 2 ^ 32 ->
  exists f, sparse_add_data d n b s = Ok (Some tt, set_sparse (bump s) f) /\
    BackedBlock.data_blocks (SparseFile.s_list f) =
      queued s ++ [BackedBlock.mk_bb (fresh s) b n (BackedBlock.bb_data d)] /\
    queue_ok (set_sparse (bump s) f) (b + DIV_ROUND_UP n (block_size (info s))).
Proof.
  intros Hm Hbs [Q1 Q2 Q3 Q4 Q5] Hhi Hb Hn He.
  set (new := BackedBlock.mk_bb (fresh s) b n (BackedBlock.bb_data d)).
  assert (BackedBlock.blocks_ok (block_size (info s)) 0 (queued s) b) as Hok
    by (apply (BackedBlock.blocks_ok_weaken _ 0 0 _ hi b Q2); [lia|exact Hhi]).
  destruct (BackedBlock.queue_bb_append (SparseFile.s_list (sparse_file s)) new)
    as (lu & E & Hlu).
  - rewrite Q1. exact Hbs.
  - rewrite Q1. exact Hok.
  - exact Q3.
  - intros Hin. apply in_map_iff in Hin as (a & Ea & Ha). cbn in Ea.
    specialize (Q4 a Ha). lia.
  - intros a Ha. right. rewrite Q1. split; [|apply mergeable_data].
    apply last_Some in Ha as (l & Ha).
    destruct (BackedBlock.blocks_ok_in _ _ _ _ a Hbs Hok) as (_ & _ & Hend); [|exact Hend].
    unfold queued. rewrite Ha. apply in_elt.
  - eexists. split; [|split].
    + unfold sparse_add_data, bind. rewrite malloc_eq by exact Hm.
      unfold SparseFile.sparse_file_add_data, SparseFile.with_list, BackedBlock.backed_block_add_data.
      cbn [sparse_file bump]. fold new. rewrite E. reflexivity.
    + reflexivity.
    + assert (BackedBlock.bb_end (block_size (info s)) new
              = b + DIV_ROUND_UP n (block_size (info s))) as Hend by reflexivity.
      split; cbn; [exact Q1| |destruct Hlu as [->| ->]| |].
      * apply BackedBlock.blocks_ok_app. exists b. split; [exact Hok|].
        cbn. split; [lia|]. split; [|lia].
        split; [cbn; lia|]. split; [cbn; lia|]. rewrite Hend. split; [lia|exact I].
      * unfold BackedBlock.last_used_live in *. cbn.
        destruct (BackedBlock.last_used _); [|exact I].
        rewrite map_app. apply in_or_app. left. exact Q3.
      * unfold BackedBlock.last_used_live. cbn. rewrite map_app. apply in_or_app. right. left. reflexivity.
      * intros a Ha. apply in_app_or in Ha as [Ha|[<-|[]]]; [specialize (Q4 a Ha); lia|cbn; lia].
      * rewrite map_app. apply NoDup_app. split; [exact Q5|]. split; [|apply NoDup_singleton].
        intros x Hx Hn'. apply list_elem_of_singleton in Hn'. subst x.
        apply list_elem_of_In, in_map_iff in Hx as (a & Ea & Ha). specialize (Q4 a Ha). cbn in Ea. lia.
Qed.


(** ** The initial state of the groups *)

Lemma has_super_total inf i : 0 <= i < 2 ^ 31 -> exists b, ext4_bg_has_super_block inf i = Ok b.
Proof.
  intros Hi. destruct (Z.eqb_spec (Z.land (feat_ro_compat inf) EXT4_FEATURE_RO_COMPAT_SPARSE_SUPER) 0) as [E|E].
  - exists true. unfold ext4_bg_has_super_block. rewrite E. reflexivity.
  - destruct (has_super_spec inf i E Hi) as (b & Hb & _). exists b. exact Hb.
Qed.

Lemma bit_zeros n m : bit (zeros n) m = false.
Proof.
  unfold bit, zeros. rewrite nth_lookup.
  destruct (replicate (Z.to_nat n) 0 !! Z.to_nat (m / 8)) as [x|] eqn:E.
  - apply lookup_replicate in E as [-> _]. apply Z.bits_0.
  - apply Z.bits_0.
Qed.

Lemma bytes_ok_zeros n : bytes_ok (zeros n).
Proof. unfold bytes_ok, zeros. apply Forall_replicate. unfold byte_ok. lia. Qed.

Definition super_blocks (s : fs) (super : bool) : Z :=
  if super then 1 + bg_desc_blocks (aux_info s) + bg_desc_reserve_blocks (info s) else 0.

Lemma header_size_super s super :
  header_size (info s) (aux_info s) super = 2 + inode_table_blocks (aux_info s) + super_blocks s super.
Proof. reflexivity. Qed.

(** The group [init_bg] makes: the header in use, the blocks past the end of
    the device in use, the rest free. *)
Definition fresh_bg (s : fs) (i : Z) (super : bool) (b : block_group_info) : Prop :=
  bg_ok (info s) (aux_info s) i b /\ data_blocks_used b = 0 /\ has_superblock b = super /\
  inode_table b = None /\ used_dirs b = 0 /\ first_free_inode b = 1 /\
  free_blocks b = group_size (info s) (aux_info s) i - header_size (info s) (aux_info s) super /\
  (0 < free_blocks b -> first_free_block b = header_size (info s) (aux_info s) super).

(** The group after the first reservation of [init_bg]. *)
Definition header_bg (s : fs) (i : Z) (super : bool) (a : Z) (bm : list Z) : block_group_info :=
  let h := header_size (info s) (aux_info s) super in
  mk_bg (group_start (info s) (aux_info s) i) h 0 super a bm None
    (blocks_per_group (info s) - h) h (inodes_per_group (info s)) 1 0.

(** The overrun is the part of the last group behind the device; for the
    others the difference wraps around to more than a group. *)
Lemma overrun_cases s i : geometry_ok (info s) (aux_info s) -> 0 <= i < groups (aux_info s) ->
  let st := group_start (info s) (aux_info s) i in
  let overrun := u32 (u64 (u32 (st + blocks_per_group (info s)) - len_blocks (aux_info s))) in
  let gs := group_size (info s) (aux_info s) i in
  overrun = blocks_per_group (info s) - gs \/
  (blocks_per_group (info s) < overrun /\ gs = blocks_per_group (info s)).
Proof.
  intros [Hbs Hbpg Hin Hfd Hgr Htb Hra Hco Hhd] Hi st overrun gs.
  assert ((i + 1) * blocks_per_group (info s) <= groups (aux_info s) * blocks_per_group (info s))
    by (apply Z.mul_le_mono_nonneg_r; lia).
  assert (0 <= i * blocks_per_group (info s)) by (apply Z.mul_nonneg_nonneg; lia).
  unfold group_start in *. unfold overrun, gs, st, group_size, group_start.
  set (x := i * blocks_per_group (info s)) in *.
  rewrite (u32_id (first_data_block (aux_info s) + x + blocks_per_group (info s))) by lia.
  set (d := first_data_block (aux_info s) + x + blocks_per_group (info s) - len_blocks (aux_info s)).
  destruct (Z.lt_ge_cases d 0) as [Hd|Hd].
  - right. split; [|lia]. unfold u32, u64.
    rewrite <- (Z.mod_unique d (2 ^ 64) (-1) (d + 2 ^ 64)) by lia.
    rewrite <- (Z.mod_unique (d + 2 ^ 64) (2 ^ 32) (2 ^ 32 - 1) (d + 2 ^ 32)) by lia. lia.
  - left. rewrite u64_id, u32_id by lia. lia.
Qed.

(** The second reservation of [init_bg]. *)
Lemma reserve_overrun s i super a bm :
  geometry_ok (info s) (aux_info s) -> 0 <= i < groups (aux_info s) ->
  zlen (bgs s) = groups (aux_info s) ->
  ext4_bg_has_super_block (info s) i = Ok super ->
  bgs s !! Z.to_nat i = Some (header_bg s i super a bm) ->
  set_range true (zeros (2 * block_size (info s))) 0 (header_size (info s) (aux_info s) super) bm ->
  let overrun := u32 (u64 (u32 (group_start (info s) (aux_info s) i + blocks_per_group (info s))
                           - len_blocks (aux_info s))) in
  exists b, fresh_bg s i super b /\ bitmaps_ptr b = a /\
  (if 0 <? overrun then
     let* _ := reserve_blocks i (u32 (blocks_per_group (info s) - overrun)) overrun in ret tt
   else ret tt) s = Ok (Some tt, set_bgs s (<[Z.to_nat i := b]> (bgs s))).
Proof.
  intros G Hi Hn Hsup Hb Hset overrun. pose proof G as [Hbs Hbpg Hin Hfd Hgr Htb Hra Hco Hhd].
  pose proof (Hhd i super Hi Hsup) as Hh. rewrite header_size_super in Hh.
  assert (0 <= super_blocks s super) by (unfold super_blocks; destruct super; lia).
  pose proof (group_size_bound (info s) (aux_info s) i) as Hgs.
  pose proof (overrun_cases s i G Hi) as Ho. cbv zeta in Ho. fold overrun in Ho.
  set (h := header_size (info s) (aux_info s) super) in *.
  set (gs := group_size (info s) (aux_info s) i) in *.
  assert (2 <= h <= gs) as Hhg by (unfold h; rewrite header_size_super; lia).
  pose proof Hset as (Lbm & Bbm & Sbm). rewrite zlen_zeros in Lbm by lia.
  assert (forall n, 0 <= n -> bit bm n = in_range 0 h n) as Hbits
    by (intros n Hn0; rewrite Sbm, bit_zeros by exact Hn0; destruct (in_range 0 h n); reflexivity).
  assert (gs = blocks_per_group (info s) ->
    fresh_bg s i super (header_bg s i super a bm)) as Hkeep.
  { intros Eg. split; [split; cbn; fold h|repeat split; cbn; fold h gs;
      (reflexivity || lia || (intros; destruct (Z.eqb_spec gs h); lia))].
    - reflexivity.
    - exact Lbm.
    - exact Bbm.
    - fold gs. lia.
    - intros n Hr. rewrite Hbits by lia.
      destruct (in_range 0 h n) eqn:E1, (in_range h (blocks_per_group (info s) - h) n) eqn:E2;
        rewrite ?in_range_true, ?in_range_false in *; try reflexivity; lia.
    - lia.
    - intros n Hr. rewrite Hbits by lia.
      rewrite (proj2 (in_range_false 0 h _)) by lia. symmetry. apply Z.ltb_ge. lia. }
  assert (set_bgs s (<[Z.to_nat i := header_bg s i super a bm]> (bgs s)) = s) as Hsame
    by (rewrite list_insert_id by exact Hb; destruct s; reflexivity).
  destruct Ho as [Ho|[Ho Eg]].
  - destruct (decide (overrun = 0)) as [E0|E0].
    + exists (header_bg s i super a bm). split; [apply Hkeep; lia|]. split; [reflexivity|].
      rewrite E0, Hsame. reflexivity.
    + rewrite (proj2 (Z.ltb_lt 0 overrun)) by lia.
      replace (blocks_per_group (info s) - overrun) with gs by lia. rewrite (u32_id gs) by lia.
      destruct (reserve_blocks_spec s i _ gs overrun (proj1 Hi) Hb)
        as (ok & bm' & Hc & L' & B' & T & E); cbn [bitmaps free_blocks header_bg]; fold h;
        [exact Bbm|lia|lia|lia|lia|lia|].
      cbn [bitmaps header_bg] in Hc, L', T.
      assert (ok = true) as ->.
      { apply Hc. intros m Hm. rewrite Hbits by lia. apply in_range_false. lia. }
      destruct (T eq_refl) as (_ & _ & S').
      exists (reserved (header_bg s i super a bm) gs overrun bm').
      split; [|split; [reflexivity|unfold bind; rewrite E; reflexivity]].
      split; [split; cbn; fold h|repeat split; cbn; fold h gs;
      (reflexivity || lia || (intros; destruct (Z.eqb_spec gs h); lia))].
      * reflexivity.
      * lia.
      * exact B'.
      * fold gs. destruct (Z.eqb_spec gs h); lia.
      * intros n Hr. rewrite S', Hbits by lia.
        destruct (Z.eqb_spec gs h);
        destruct (in_range gs overrun n) eqn:E1, (in_range 0 h n) eqn:E2;
        match goal with |- _ = negb ?r => destruct r eqn:E3 end;
        rewrite ?in_range_true, ?in_range_false in *; try reflexivity; lia.
      * lia.
      * intros n Hr. rewrite S', Hbits by lia.
        rewrite (proj2 (in_range_false gs overrun _)), (proj2 (in_range_false 0 h _)) by lia.
        symmetry. apply Z.ltb_ge. lia.
  - exists (header_bg s i super a bm). split; [apply Hkeep; exact Eg|]. split; [reflexivity|].
    rewrite (proj2 (Z.ltb_lt 0 overrun)) by lia. unfold bind.
    rewrite (reserve_blocks_full s i _ _ _ (proj1 Hi) Hb) by (cbn; fold h; lia).
    rewrite Hsame. reflexivity.
Qed.


(** What the operations of the allocator never change. *)
Definition same_globals (s s' : fs) : Prop :=
  force s' = force s /\ info s' = info s /\ aux_info s' = aux_info s /\ avail s' = avail s.

Lemma same_globals_refl s : same_globals s s.
Proof. repeat split. Qed.

Lemma same_globals_trans s1 s2 s3 : same_globals s1 s2 -> same_globals s2 s3 -> same_globals s1 s3.
Proof. intros (A & B & C & D) (A' & B' & C' & D'). repeat split; congruence. Qed.

(** What [init_bg] queues for a group: its two bitmaps, behind the copy of the
    super block and the descriptors. *)
Definition bitmap_block (s : fs) (i : Z) (b : block_group_info) (p : Z) : BackedBlock.backed_block :=
  BackedBlock.mk_bb p (group_start (info s) (aux_info s) i + super_blocks s (has_superblock b))
    (2 * block_size (info s)) (BackedBlock.bb_data (bitmaps_ptr b)).

Lemma group_start_succ inf aux i :
  group_start inf aux (i + 1) = group_start inf aux i + blocks_per_group inf.
Proof. unfold group_start. lia. Qed.

Lemma group_start_bound inf aux i : geometry_ok inf aux -> 0 <= i < groups aux ->
  0 <= group_start inf aux i /\ group_start inf aux i + blocks_per_group inf < 2 ^ 32 - blocks_per_group inf.
Proof.
  intros [Hbs Hbpg Hin Hfd Hgr Htb Hra Hco Hhd] Hi. unfold group_start in *.
  assert ((i + 1) * blocks_per_group inf <= groups aux * blocks_per_group inf)
    by (apply Z.mul_le_mono_nonneg_r; lia).
  assert (0 <= i * blocks_per_group inf) by (apply Z.mul_nonneg_nonneg; lia). lia.
Qed.

Lemma init_bg_spec s i :
  geometry_ok (info s) (aux_info s) -> memory s -> 0 <= i < groups (aux_info s) ->
  zlen (bgs s) = groups (aux_info s) -> queue_ok s (group_start (info s) (aux_info s) i) ->
  exists s' b super p, init_bg i s = Ok (Some tt, s') /\
    ext4_bg_has_super_block (info s) i = Ok super /\ fresh_bg s i super b /\
    bgs s' = <[Z.to_nat i := b]> (bgs s) /\ same_globals s s' /\ heap s' = heap s /\
    fresh s <= fresh s' /\
    queued s' = queued s ++ [bitmap_block s i b p] /\
    queue_ok s' (group_start (info s) (aux_info s) (i + 1)).
Proof.
  intros G Hm Hi Hn Q. pose proof G as [Hbs Hbpg Hin Hfd Hgr Htb Hra Hco Hhd].
  destruct (has_super_total (info s) i ltac:(lia)) as (super & Hsup).
  pose proof (Hhd i super Hi Hsup) as Hh. rewrite header_size_super in Hh.
  assert (0 <= super_blocks s super) by (unfold super_blocks; destruct super; lia).
  pose proof (group_size_bound (info s) (aux_info s) i) as Hgs.
  destruct (group_start_bound _ _ i G Hi) as (Hst0 & Hst1).
  set (st := group_start (info s) (aux_info s) i) in *.
  set (h := 2 + inode_table_blocks (aux_info s) + super_blocks s super) in *.
  assert (h < 2 ^ 31) by lia.
  destruct (sparse_add_data_spec (advance (2 * block_size (info s)) s) st (fresh s) (2 * block_size (info s))
    (st + super_blocks s super)) as (f & Ef & Df & Qf); cbn [info bump advance set_fresh fresh].
  { exact Hm. } { lia. }
  { destruct Q as [Q1 Q2 Q3 Q4 Q5]. split; cbn; auto. intros a Ha. specialize (Q4 a Ha). lia. }
  { lia. } { lia. } { lia. } { rewrite DIV_ROUND_UP_mul by lia. lia. }
  cbn [info bump advance set_fresh fresh] in Ef, Df, Qf. rewrite DIV_ROUND_UP_mul in Qf by lia.
  set (s2 := set_sparse (bump (advance (2 * block_size (info s)) s)) f) in *.
  set (b0 := mk_bg st h 0 super (fresh s) (zeros (2 * block_size (info s))) None
                            (blocks_per_group (info s)) 0 (inodes_per_group (info s)) 1 0).
  set (s3 := set_bgs s2 (<[Z.to_nat i := b0]> (bgs s))).
  assert (bgs s3 !! Z.to_nat i = Some b0) as Hb0
    by (apply list_lookup_insert_eq; unfold zlen in Hn; lia).
  destruct (reserve_blocks_spec s3 i b0 0 h (proj1 Hi) Hb0)
    as (ok & bm & Hc & L & B & T & E); cbn [bitmaps free_blocks b0];
    [apply bytes_ok_zeros|rewrite zlen_zeros by lia; lia|lia|lia|lia|rewrite zlen_zeros by lia; lia|].
  assert (ok = true) as -> by (apply Hc; intros m _; apply bit_zeros).
  specialize (T eq_refl). cbn [bitmaps b0] in T.
  set (s4 := set_bgs s3 _) in E.
  assert (reserved b0 0 h bm = header_bg s4 i super (fresh s) bm) as Eb by reflexivity.
  destruct (reserve_overrun s4 i super (fresh s) bm) as (b & Fb & Pb & Eo);
    [exact G|exact Hi| |exact Hsup| |exact T|].
  { cbn. unfold zlen. rewrite !length_insert. exact Hn. }
  { rewrite <- Eb. apply list_lookup_insert_eq. cbn. rewrite length_insert. unfold zlen in Hn. lia. }
  exists (set_bgs s4 (<[Z.to_nat i := b]> (bgs s4))), b, super, (fresh s + Z.max 1 (2 * block_size (info s))).
  split.
  { unfold init_bg, bind at 1. unfold get_state at 1. unfold bind at 1. rewrite s32_id by lia.
    rewrite Hsup. cbn [obind]. fold (super_blocks s super) h.
    rewrite (s32_id h) by lia. rewrite (u32_id h) by lia.
    rewrite (u32_id (i * blocks_per_group (info s))) by (unfold group_start in *; lia).
    fold st. replace (first_data_block (aux_info s) + i * blocks_per_group (info s)) with st by reflexivity.
    rewrite (u32_id st), (u32_id (st + super_blocks s super)), (u32_id (2 * block_size (info s))) by lia.
    unfold bind at 1. rewrite calloc_of_eq by exact Hm. unfold bind at 1. rewrite Ef.
    unfold bind at 1. fold b0.
    rewrite put_bg_eq by (cbn; lia). cbn [bgs s2 set_sparse bump advance set_fresh]. fold s3.
    unfold bind at 1. rewrite E. unfold bind at 1. cbn [Z.ltb Z.compare ret].
    exact Eo. }
  split; [exact Hsup|]. split; [exact Fb|].
  split; [cbn; rewrite !list_insert_insert_eq; reflexivity|].
  split; [repeat split|]. split; [reflexivity|]. split; [cbn; lia|].
  assert (has_superblock b = super) as Hbs' by apply Fb.
  split.
  - unfold queued at 1. cbn [sparse_file set_bgs s4 s3 s2 set_sparse]. rewrite Df.
    unfold bitmap_block. rewrite Hbs', Pb. reflexivity.
  - destruct Qf as [Q1 Q2 Q3 Q4 Q5]. split; cbn; auto. rewrite group_start_succ. fold st.
    apply (BackedBlock.blocks_ok_weaken _ 0 0 _ (st + super_blocks s super + 2) _ Q2); [lia|].
    unfold h in *. lia.
Qed.


(** The state when the first [k] groups are initialised. *)
Record init_upto (s0 s : fs) (k : Z) : Prop := {
  iu_globals : same_globals s0 s;
  iu_heap : heap s = heap s0;
  iu_groups : zlen (bgs s) = groups (aux_info s0);
  iu_queue : queue_ok s (group_start (info s0) (aux_info s0) k);
  iu_queued : zlen (queued s) = k;
  iu_fresh : forall i, 0 <= i < k -> exists b super p,
    bgs s !! Z.to_nat i = Some b /\ ext4_bg_has_super_block (info s0) i = Ok super /\
    fresh_bg s0 i super b /\ queued s !! Z.to_nat i = Some (bitmap_block s0 i b p)
}.

Lemma init_upto_step s0 s k :
  geometry_ok (info s0) (aux_info s0) -> memory s0 -> 0 <= k < groups (aux_info s0) ->
  init_upto s0 s k -> exists s', init_bg k s = Ok (Some tt, s') /\ init_upto s0 s' (k + 1).
Proof.
  intros G Hm Hk [Gl Hp Hg Hq Hd Hf]. pose proof Gl as (_ & Ei & Ea & Ev).
  destruct (init_bg_spec s k) as (s' & b & super & p & E & Hsup & Fb & Hb & Gl' & Hp' & Hfr & Hqd & Hq').
  { rewrite Ei, Ea. exact G. } { intros n. rewrite Ev. apply Hm. } { rewrite Ea. exact Hk. }
  { rewrite Ea. exact Hg. } { rewrite Ei, Ea. exact Hq. }
  rewrite Ei, Ea in *.
  assert (forall i super b, fresh_bg s i super b -> fresh_bg s0 i super b) as Hfb
    by (unfold fresh_bg; rewrite Ei, Ea; auto).
  assert (forall i b p, bitmap_block s i b p = bitmap_block s0 i b p) as Hbb
    by (unfold bitmap_block, super_blocks; rewrite Ei, Ea; auto).
  exists s'. split; [exact E|]. split.
  - exact (same_globals_trans _ _ _ Gl Gl').
  - congruence.
  - rewrite Hb. unfold zlen. rewrite length_insert. exact Hg.
  - exact Hq'.
  - rewrite Hqd. autorewrite with zlen. lia.
  - intros i Hi. destruct (decide (i = k)) as [->|Hne].
    + exists b, super, p. rewrite Hb, list_lookup_insert_eq by (unfold zlen in Hg; lia).
      split; [reflexivity|]. split; [exact Hsup|]. split; [apply Hfb; exact Fb|].
      rewrite Hqd, lookup_app_r by (unfold zlen in Hd; lia).
      replace (Z.to_nat k - length (queued s))%nat with 0%nat by (unfold zlen in Hd; lia).
      cbn. rewrite Hbb. reflexivity.
    + destruct (Hf i ltac:(lia)) as (b' & super' & p' & Hb' & Hs' & Fb' & Hq0).
      exists b', super', p'. rewrite Hb, list_lookup_insert_ne by lia.
      split; [exact Hb'|]. split; [exact Hs'|]. split; [exact Fb'|].
      rewrite Hqd. apply lookup_app_l_Some. exact Hq0.
Qed.

Lemma init_loop_spec s0 n : forall s k,
  geometry_ok (info s0) (aux_info s0) -> memory s0 -> 0 <= k -> k + Z.of_nat n = groups (aux_info s0) ->
  init_upto s0 s k ->
  exists s', init_loop (seqZ k (Z.of_nat n)) s = Ok (Some tt, s') /\
    init_upto s0 s' (groups (aux_info s0)).
Proof.
  induction n as [|n IH]; intros s k G Hm Hk Hn Hu.
  - exists s. split; [reflexivity|]. replace (groups (aux_info s0)) with k by lia. exact Hu.
  - rewrite seqZ_cons by lia. cbn [init_loop]. replace (Z.pred (Z.of_nat (S n))) with (Z.of_nat n) by lia.
    destruct (init_upto_step s0 s k G Hm ltac:(lia) Hu) as (s1 & E1 & Hu1).
    unfold bind. rewrite E1. apply (IH s1 (k + 1)); auto; lia.
Qed.

(** A file with nothing queued. *)
Definition new_image (s : fs) : Prop :=
  sparse_file s = SparseFile.mk_sparse_file (block_size (info s)) (len (info s)) false
                    (BackedBlock.backed_block_list_new (block_size (info s))).

Lemma block_allocator_init_spec s :
  geometry_ok (info s) (aux_info s) -> memory s -> new_image s ->
  exists s', block_allocator_init s = Ok (Some tt, s') /\ init_upto s s' (groups (aux_info s)).
Proof.
  intros G Hm Hnew. pose proof G as [Hbs Hbpg Hin Hfd Hgr Htb Hra Hco Hhd].
  unfold block_allocator_init, bind, get_state, put_state. rewrite malloc_eq by exact Hm.
  set (s1 := set_bgs (bump s) _).
  destruct (init_loop_spec s (Z.to_nat (groups (aux_info s))) s1 0) as (s' & E & Hu);
    [exact G|exact Hm|lia|lia| |rewrite Z2Nat.id in E by lia; exists s'; auto].
  split; [repeat split|reflexivity| | | |].
  - unfold zlen. cbn. rewrite length_replicate. lia.
  - split; cbn; rewrite Hnew; cbn; [reflexivity| |exact I|intros a []|constructor].
    unfold group_start. lia.
  - unfold queued. cbn. rewrite Hnew. reflexivity.
  - intros i Hi. lia.
Qed.

Lemma init_upto_ok s s' : geometry_ok (info s) (aux_info s) ->
  init_upto s s' (groups (aux_info s)) -> fs_ok s'.
Proof.
  intros G [(_ & Ei & Ea & _) _ Hg _ _ Hf]. split; rewrite ?Ei, ?Ea; [exact G|exact Hg|].
  intros i b Hi Hb. destruct (Hf i) as (b' & super & p & Hb' & _ & Fb & _).
  { pose proof (bgs_bound s' i b Hi Hb). lia. }
  rewrite Hb in Hb'. injection Hb' as <-. apply Fb.
Qed.


End Ext4AllocBits.
