(* ===== verification/Ext4AllocProps.v ===== *)
(** * Allocation of blocks

    What the allocation functions of [ext4_utils/allocate.c] return: lists of
    regions that were free, do not overlap and add up to the length asked
    for, how many rounds the search takes, and when it does not end. *)

From S2P Require Import Prelude BackedBlock SparseFile Ext4Utils Ext4Alloc Ext4AllocBits.

Module Ext4AllocProps.
Import Ext4Utils Ext4Alloc Ext4AllocBits.

(** ** Lists of regions in the heap *)

(** A node: its address with the block, the length and the group. *)
Abbreviation node := (Z * (Z * Z * Z))%type (only parsing).

Definition last_addr (prev : option Z) (l : list node) : option Z :=
  match list.last l with Some (a, _) => Some a | None => prev end.

(** [l] is the chain of nodes from [p] up to [q], linked both ways; [prev] is
    the node before the first. *)
Fixpoint lseg (h : gmap Z region) (p prev : option Z) (l : list node) (q : option Z) : Prop :=
  match l with
  | [] => p = q
  | (a, (b, n, g)) :: l' =>
      p = Some a /\ exists nx, h !! a = Some (mk_region b n g nx prev) /\ lseg h nx (Some a) l' q
  end.

Definition addrs (l : list node) : list Z := map fst l.
Definition node_blocks (x : node) : list Z := let '(_, (b, n, _)) := x in seqZ b n.
Definition blocks_of (l : list node) : list Z := concat (map node_blocks l).
Definition node_len (x : node) : Z := let '(_, (_, n, _)) := x in n.
Definition total_len (l : list node) : Z := foldr (fun x t => node_len x + t) 0 l.

Lemma last_addr_snoc prev l a x : last_addr prev (l ++ [(a, x)]) = Some a.
Proof. unfold last_addr. rewrite last_snoc. reflexivity. Qed.

Lemma last_addr_cons prev a x l : last_addr prev ((a, x) :: l) = last_addr (Some a) l.
Proof.
  destruct l as [|y l] using rev_ind; [reflexivity|]. destruct y as [c z].
  rewrite app_comm_cons, !last_addr_snoc. reflexivity.
Qed.

Lemma lseg_app h l1 : forall p prev l2 q,
  lseg h p prev (l1 ++ l2) q <->
  exists m, lseg h p prev l1 m /\ lseg h m (last_addr prev l1) l2 q.
Proof.
  induction l1 as [|[a [[b n] g]] l1 IH]; intros p prev l2 q.
  - cbn. split; [intros H; exists p; auto|intros (m & -> & H); exact H].
  - cbn [lseg app]. rewrite last_addr_cons. split.
    + intros (-> & nx & Ha & Hl). apply IH in Hl as (m & H1 & H2).
      exists m. split; [split; [reflexivity|]; exists nx; auto|exact H2].
    + intros (m & (-> & nx & Ha & H1) & H2). split; [reflexivity|]. exists nx.
      split; [exact Ha|]. apply IH. exists m. auto.
Qed.

Lemma lseg_frame h h' l : forall p prev q,
  (forall a, a ∈ addrs l -> h' !! a = h !! a) -> lseg h p prev l q -> lseg h' p prev l q.
Proof.
  induction l as [|[a [[b n] g]] l IH]; intros p prev q Hf; [auto|].
  cbn. intros (-> & nx & Ha & Hl). split; [reflexivity|]. exists nx.
  split; [rewrite Hf by (cbn; left); exact Ha|].
  apply IH; [|exact Hl]. intros a' Ha'. apply Hf. cbn. right. exact Ha'.
Qed.

(** The same chain seen through the [next] pointers alone, which is all the
    loops over an allocation follow. *)
Fixpoint fseg (h : gmap Z region) (p : option Z) (l : list node) (q : option Z) : Prop :=
  match l with
  | [] => p = q
  | (a, (b, n, g)) :: l' =>
      p = Some a /\ exists nx pv, h !! a = Some (mk_region b n g nx pv) /\ fseg h nx l' q
  end.

Lemma lseg_fseg h l : forall p prev q, lseg h p prev l q -> fseg h p l q.
Proof.
  induction l as [|[a [[b n] g]] l IH]; intros p prev q; [auto|].
  intros (-> & nx & Ha & Hl). split; [reflexivity|]. exists nx, prev. split; [exact Ha|].
  exact (IH _ _ _ Hl).
Qed.

Lemma fseg_app h l1 : forall p l2 q,
  fseg h p (l1 ++ l2) q <-> exists m, fseg h p l1 m /\ fseg h m l2 q.
Proof.
  induction l1 as [|[a [[b n] g]] l1 IH]; intros p l2 q; cbn [fseg app].
  - split; [intros H; exists p; auto|intros (m & -> & H); exact H].
  - split.
    + intros (-> & nx & pv & Ha & Hl). apply IH in Hl as (m & H1 & H2).
      exists m. split; [split; [reflexivity|]; exists nx, pv; auto|exact H2].
    + intros (m & (-> & nx & pv & Ha & H1) & H2). split; [reflexivity|]. exists nx, pv.
      split; [exact Ha|]. apply IH. exists m. auto.
Qed.

Lemma fseg_frame h h' l : forall p q,
  (forall a, a ∈ addrs l -> h' !! a = h !! a) -> fseg h p l q -> fseg h' p l q.
Proof.
  induction l as [|[a [[b n] g]] l IH]; intros p q Hf; [auto|].
  cbn. intros (-> & nx & pv & Ha & Hl). split; [reflexivity|]. exists nx, pv.
  split; [rewrite Hf by (cbn; left); exact Ha|].
  apply IH; [|exact Hl]. intros a' Ha'. apply Hf. cbn. right. exact Ha'.
Qed.

Lemma fseg_lookup h l : forall p q a, fseg h p l q -> a ∈ addrs l -> is_Some (h !! a).
Proof.
  induction l as [|[a [[b n] g]] l IH]; intros p q a' H Ha; [inversion Ha|].
  cbn in H, Ha. destruct H as (_ & nx & pv & E & Hl).
  apply elem_of_cons in Ha as [->|Ha]; [rewrite E; eauto|]. apply (IH _ _ _ Hl Ha).
Qed.

Lemma lseg_lookup h l p prev q a : lseg h p prev l q -> a ∈ addrs l -> is_Some (h !! a).
Proof. intros H. exact (fseg_lookup _ _ _ _ _ (lseg_fseg _ _ _ _ _ H)). Qed.

(** Two chains from one address to NULL are of the same length. *)
Lemma fseg_length_unique h l : forall l' p,
  fseg h p l None -> fseg h p l' None -> length l = length l'.
Proof.
  induction l as [|[a [[b n] g]] l IH]; intros l' p; cbn.
  - intros ->. destruct l' as [|[a' [[b' n'] g']] l']; [reflexivity|]. intros (H & _). discriminate.
  - intros (-> & nx & pv & E & Hl). destruct l' as [|[a' [[b' n'] g']] l']; cbn; [discriminate|].
    intros (Ha & nx' & pv' & E' & Hl'). injection Ha as ->. rewrite E in E'.
    injection E' as <- <- <- <- <-. f_equal. exact (IH _ _ Hl Hl').
Qed.

Lemma fseg_nodup h l : forall p, fseg h p l None -> NoDup (addrs l).
Proof.
  induction l as [|[a [[b n] g]] l IH]; intros p H; [constructor|].
  pose proof H as (-> & nx & pv & E & Hl). cbn. constructor; [|exact (IH _ Hl)].
  intros Hin. apply list_elem_of_In, in_map_iff in Hin as ([a' [[b' n'] g']] & Ea & Hin).
  cbn in Ea. subst a'. apply list_elem_of_In, list_elem_of_split in Hin as (l1 & l2 & ->).
  apply fseg_app in Hl as (m & _ & Hm). pose proof Hm as (-> & _).
  pose proof (fseg_length_unique _ _ _ _ H Hm) as Hlen. cbn in Hlen.
  rewrite length_app in Hlen. cbn in Hlen. lia.
Qed.

Lemma lseg_nodup h l p prev : lseg h p prev l None -> NoDup (addrs l).
Proof. intros H. exact (fseg_nodup _ _ _ (lseg_fseg _ _ _ _ _ H)). Qed.

(** A chain is no longer than the heap: the loops that follow it have fuel. *)
Lemma list_fuel_enough s l p : fseg (heap s) p l None -> (length l < list_fuel s)%nat.
Proof.
  intros H. pose proof (fseg_nodup _ _ _ H) as Hnd. unfold list_fuel. apply Nat.lt_succ_r.
  rewrite <- (size_dom (D := gset Z)). rewrite <- (length_map fst l).
  change (map fst l) with (addrs l). rewrite <- (size_list_to_set (C := gset Z) (addrs l)) by exact Hnd.
  apply subseteq_size. intros a Ha. apply elem_of_list_to_set in Ha.
  apply elem_of_dom. exact (fseg_lookup _ _ _ _ _ H Ha).
Qed.

Lemma blocks_of_app l k : blocks_of (l ++ k) = blocks_of l ++ blocks_of k.
Proof. unfold blocks_of. rewrite map_app, concat_app. reflexivity. Qed.

Lemma total_len_app l k : total_len (l ++ k) = total_len l + total_len k.
Proof. induction l as [|x l IH]; [reflexivity|]. cbn [app total_len foldr] in *. fold (total_len (l ++ k)). fold (total_len l). lia. Qed.

(** A new node is linked behind the last of a chain. *)
Lemma lseg_link h p l a x new y :
  lseg h p None (l ++ [(a, x)]) None -> h !! new = None -> 
  let '(b, n, g) := x in let '(b', n', g') := y in
  let h1 := <[new := mk_region b' n' g' None None]> h in
  let h2 := <[a := mk_region b n g (Some new) (last_addr None l)]> h1 in
  lseg (<[new := mk_region b' n' g' None (Some a)]> h2) p None ((l ++ [(a, x)]) ++ [(new, y)]) None.
Proof.
  destruct x as [[b n] g], y as [[b' n'] g']. intros H Hnew h1 h2.
  pose proof (lseg_nodup _ _ _ _ H) as Hnd.
  assert (forall c, c ∈ addrs (l ++ [(a, (b, n, g))]) -> c <> new) as Hne.
  { intros c Hc ->. destruct (lseg_lookup _ _ _ _ _ _ H Hc) as [r Hr]. congruence. }
  apply lseg_app in H as (m & Hl & Hm). destruct Hm as (-> & nx & Ea & ->).
  apply lseg_app. exists (Some new). rewrite last_addr_snoc. split.
  - apply lseg_app. exists (Some a). split.
    + apply (lseg_frame h); [|exact Hl]. intros c Hc.
      assert (c <> new) by (apply Hne; unfold addrs; rewrite map_app; apply elem_of_app; left; exact Hc).
      assert (c <> a).
      { intros ->. unfold addrs in Hnd. rewrite map_app in Hnd. apply NoDup_app in Hnd as (_ & Hd & _).
        apply (Hd a Hc). left. }
      unfold h2, h1. rewrite !lookup_insert_ne by congruence. reflexivity.
    + split; [reflexivity|]. exists (Some new). split; [|reflexivity].
      assert (a <> new) by (apply Hne; unfold addrs; rewrite map_app; apply elem_of_app; right; left).
      rewrite lookup_insert_ne by congruence. unfold h2. rewrite lookup_insert_eq. reflexivity.
  - split; [reflexivity|]. exists None. split; [apply lookup_insert_eq|reflexivity].
Qed.

(** ** Taking blocks from a group *)

(** The group after [n] blocks were taken from the front of its free run. *)
Definition taken (b : block_group_info) (n : Z) (bm : list Z) : block_group_info :=
  set_used (reserved b (first_free_block b) n bm) (s32 (data_blocks_used b + n)).

Lemma taken_ok inf aux i b n bm : bg_ok inf aux i (reserved b (first_free_block b) n bm) ->
  bg_ok inf aux i (taken b n bm).
Proof. intros [F L B Fr Bi In Ib]. split; auto. Qed.

(** The first block of the free run. *)
Definition run_start (b : block_group_info) : Z := first_block b + first_free_block b.

(** The state after [n] blocks of group [i] became a region. *)
Definition take_state (s : fs) (i : Z) (b : block_group_info) (n : Z) (bm : list Z) : fs :=
  mk_fs (force s) (info s) (aux_info s) (<[Z.to_nat i := taken b n bm]> (bgs s))
    (<[fresh s := mk_region (run_start b) n i None None]> (heap s)) (fresh s + 1) (avail s)
    (sparse_file s) (mem s) (itab s).

(** Group [i] of [s] is [b], [n] blocks of it can be taken and leave the bitmap [bm]. *)
Definition can_take (s : fs) (i : Z) (b : block_group_info) (n : Z) (bm : list Z) : Prop :=
  0 <= i /\ bgs s !! Z.to_nat i = Some b /\ 0 <= n <= free_blocks b /\
  bg_ok (info s) (aux_info s) i (taken b n bm).

Lemma run_start_bound s i b : fs_ok s -> 0 <= i -> bgs s !! Z.to_nat i = Some b ->
  group_start (info s) (aux_info s) i <= run_start b /\
  run_start b + free_blocks b <= group_start (info s) (aux_info s) i + blocks_per_group (info s) /\
  0 <= run_start b /\ run_start b + free_blocks b < 2 ^ 32 - 1.
Proof.
  intros Hfs Hi Hb. destruct (fs_bgs _ Hfs i b Hi Hb) as [F L B Fr Bi In Ib].
  pose proof (fs_geometry _ Hfs) as G. pose proof (bgs_bound s i b Hi Hb) as Hbd.
  rewrite (fs_groups _ Hfs) in Hbd.
  destruct (group_start_bound _ _ i G Hbd) as (Hst0 & Hst1). unfold run_start. rewrite F.
  pose proof (geo_group _ _ G). lia.
Qed.

Lemma allocate_from_group_none s i b n : 0 <= i -> bgs s !! Z.to_nat i = Some b ->
  free_blocks b < n ->
  ext4_allocate_blocks_from_block_group n i s = Ok (Some EXT4_ALLOCATE_FAILED, s).
Proof.
  intros Hi Hb Hn. unfold ext4_allocate_blocks_from_block_group, get_free_blocks, bind.
  rewrite (get_bg_eq s i b Hi Hb). cbn [ret]. rewrite (proj2 (Z.ltb_lt _ _)) by exact Hn. reflexivity.
Qed.

Lemma allocate_from_group_some s i b n : fs_ok s -> 0 <= i -> bgs s !! Z.to_nat i = Some b ->
  0 <= n <= free_blocks b ->
  exists bm, can_take s i b n bm /\
    ext4_allocate_blocks_from_block_group n i s =
      Ok (Some (run_start b), set_bgs s (<[Z.to_nat i := taken b n bm]> (bgs s))) /\
    (run_start b =? EXT4_ALLOCATE_FAILED) = false.
Proof.
  intros Hfs Hi Hb Hn. destruct (reserve_free_spec s i b n Hfs Hi Hb Hn) as (bm & E & Hok).
  pose proof (run_start_bound s i b Hfs Hi Hb) as (_ & _ & R1 & R2).
  pose proof (bgs_bound s i b Hi Hb) as Hbd.
  exists bm. split; [split; [exact Hi|]; split; [exact Hb|]; split; [exact Hn|apply taken_ok; exact Hok]|].
  split; [|apply Z.eqb_neq; unfold EXT4_ALLOCATE_FAILED; lia].
  unfold ext4_allocate_blocks_from_block_group, get_free_blocks, bind.
  rewrite (get_bg_eq s i b Hi Hb). cbn [ret]. rewrite (proj2 (Z.ltb_ge _ _)) by lia.
  rewrite (get_bg_eq s i b Hi Hb). rewrite E. cbn [Z.ltb Z.compare].
  set (s1 := set_bgs s _).
  rewrite (get_bg_eq s1 i (reserved b (first_free_block b) n bm) Hi)
    by (apply list_lookup_insert_eq; unfold zlen in Hbd; lia).
  rewrite put_bg_eq by (cbn; unfold zlen; rewrite length_insert; exact Hbd).
  cbn [bgs s1 set_bgs]. rewrite list_insert_insert_eq.
  cbn [first_block reserved set_free set_bitmaps data_blocks_used ret].
  fold (run_start b). rewrite u32_id by lia. reflexivity.
Qed.

Lemma new_region_eq s r : memory s ->
  new_region r s = Ok (Some (fresh s), set_heap (bump s) (<[fresh s := r]> (heap s))).
Proof.
  intros Hm. unfold new_region, bind. rewrite malloc_eq by exact Hm. reflexivity.
Qed.

(** ** The free blocks of the file system *)

Definition free_block (s : fs) (x : Z) : Prop :=
  exists i b, 0 <= i /\ bgs s !! Z.to_nat i = Some b /\ run_start b <= x < run_start b + free_blocks b.

Lemma take_fs_ok s i b n bm : fs_ok s -> can_take s i b n bm -> fs_ok (take_state s i b n bm).
Proof.
  intros Hfs (Hi & Hb & Hn & Hok).
  pose proof (fs_ok_update s i (taken b n bm) Hfs (bgs_bound s i b Hi Hb) Hok) as [G N B].
  split; auto.
Qed.

(** The groups do not overlap. *)
Lemma free_block_group s i j b c x : fs_ok s -> 0 <= i -> 0 <= j ->
  bgs s !! Z.to_nat i = Some b -> bgs s !! Z.to_nat j = Some c ->
  run_start b <= x < run_start b + free_blocks b -> run_start c <= x < run_start c + free_blocks c ->
  i = j.
Proof.
  intros Hfs Hi Hj Hb Hc Hx Hy.
  destruct (run_start_bound s i b Hfs Hi Hb) as (B1 & B2 & _).
  destruct (run_start_bound s j c Hfs Hj Hc) as (C1 & C2 & _).
  pose proof (geo_group _ _ (fs_geometry _ Hfs)). unfold group_start in *.
  destruct (Z.lt_trichotomy i j) as [H1|[H1|H1]]; [|exact H1|].
  - assert ((i + 1) * blocks_per_group (info s) <= j * blocks_per_group (info s))
      by (apply Z.mul_le_mono_nonneg_r; lia). lia.
  - assert ((j + 1) * blocks_per_group (info s) <= i * blocks_per_group (info s))
      by (apply Z.mul_le_mono_nonneg_r; lia). lia.
Qed.

Lemma take_free s i b n bm x : fs_ok s -> can_take s i b n bm ->
  free_block (take_state s i b n bm) x <-> free_block s x /\ x ∉ seqZ (run_start b) n.
Proof.
  intros Hfs (Hi & Hb & Hn & Hok). pose proof (bgs_bound s i b Hi Hb) as Hbd.
  assert (run_start (taken b n bm) = run_start b + n /\ free_blocks (taken b n bm) = free_blocks b - n)
    as (Hr & Hf) by (unfold run_start; cbn; rewrite Z.eqb_refl; lia).
  rewrite elem_of_seqZ. split.
  - intros (j & c & Hj & Hc & Hx). cbn in Hc. destruct (decide (i = j)) as [<-|Hne].
    + rewrite list_lookup_insert_eq in Hc by (unfold zlen in Hbd; lia). injection Hc as <-.
      rewrite Hr, Hf in Hx. split; [|lia]. exists i, b. split; [exact Hi|]. split; [exact Hb|]. lia.
    + rewrite list_lookup_insert_ne in Hc by lia. split; [exists j, c; auto|].
      intros Hin. apply Hne. apply (free_block_group s i j b c x); auto; lia.
  - intros ((j & c & Hj & Hc & Hx) & Hnin). destruct (decide (i = j)) as [<-|Hne].
    + rewrite Hb in Hc. injection Hc as <-. exists i, (taken b n bm). split; [exact Hi|].
      split; [apply list_lookup_insert_eq; unfold zlen in Hbd; lia|]. rewrite Hr, Hf. lia.
    + exists j, c. split; [exact Hj|]. split; [cbn; rewrite list_lookup_insert_ne by lia; exact Hc|exact Hx].
Qed.

(** ** The search for a group *)

(** The first group, from [k] on, that satisfies a test on its record. *)
Definition first_group (s : fs) (k : Z) (test : block_group_info -> bool) (i : Z) (b : block_group_info)
  : Prop :=
  k <= i /\ bgs s !! Z.to_nat i = Some b /\ test b = true /\
  forall j c, k <= j < i -> bgs s !! Z.to_nat j = Some c -> test c = false.

Definition no_group (s : fs) (k : Z) (test : block_group_info -> bool) : Prop :=
  forall j c, k <= j -> bgs s !! Z.to_nat j = Some c -> test c = false.

Lemma group_search s test : forall n k, 0 <= k -> k + Z.of_nat n = zlen (bgs s) ->
  (exists i b, first_group s k test i b) \/ no_group s k test.
Proof.
  induction n as [|n IH]; intros k Hk Hn.
  - right. intros j c Hj Hc. apply lookup_lt_Some in Hc. unfold zlen in Hn. lia.
  - destruct (lookup_lt_is_Some_2 (bgs s) (Z.to_nat k)) as [b Hb]; [unfold zlen in Hn; lia|].
    destruct (test b) eqn:Et.
    + left. exists k, b. split; [lia|]. split; [exact Hb|]. split; [exact Et|]. intros; lia.
    + destruct (IH (k + 1) ltac:(lia) ltac:(lia)) as [(i & c & Hi & Hc & Htc & Hall)|Hno].
      * left. exists i, c. split; [lia|]. split; [exact Hc|]. split; [exact Htc|].
        intros j d Hj Hd. destruct (decide (j = k)) as [->|]; [congruence|]. apply (Hall j); auto. lia.
      * right. intros j c Hj Hc. destruct (decide (j = k)) as [->|]; [congruence|].
        apply (Hno j); auto. lia.
Qed.

Lemma contiguous_loop_some s n i b : fs_ok s -> memory s -> 0 <= n -> forall m k, 0 <= k ->
  k + Z.of_nat m = zlen (bgs s) -> first_group s k (fun b => n <=? free_blocks b) i b ->
  exists bm, can_take s i b n bm /\
    contiguous_loop (seqZ k (Z.of_nat m)) n s = Ok (Some (Some (fresh s)), take_state s i b n bm).
Proof.
  intros Hfs Hm Hn. induction m as [|m IH]; intros k Hk Hlen (Hi & Hb & Ht & Hall).
  - apply lookup_lt_Some in Hb. unfold zlen in Hlen. lia.
  - rewrite seqZ_cons by lia. cbn [contiguous_loop].
    replace (Z.pred (Z.of_nat (S m))) with (Z.of_nat m) by lia.
    apply Z.leb_le in Ht. destruct (decide (i = k)) as [->|Hne].
    + destruct (allocate_from_group_some s k b n Hfs Hk Hb ltac:(lia)) as (bm & Hct & E & Hnf).
      exists bm. split; [exact Hct|]. unfold bind at 1. rewrite E, Hnf. cbn [negb].
      unfold bind. rewrite new_region_eq by exact Hm. reflexivity.
    + destruct (lookup_lt_is_Some_2 (bgs s) (Z.to_nat k)) as [c Hc]; [unfold zlen in Hlen; lia|].
      assert (free_blocks c < n) as Hf by (apply Z.leb_gt; apply (Hall k); auto; lia).
      unfold bind at 1. rewrite (allocate_from_group_none s k c n Hk Hc Hf). cbn [negb Z.eqb].
      rewrite Z.eqb_refl. cbn [negb]. apply IH; [lia|lia|].
      split; [lia|]. split; [exact Hb|]. split; [apply Z.leb_le; exact Ht|].
      intros j d Hj. apply Hall. lia.
Qed.

Lemma contiguous_loop_none s n : forall m k, 0 <= k -> k + Z.of_nat m = zlen (bgs s) ->
  no_group s k (fun b => n <=? free_blocks b) ->
  contiguous_loop (seqZ k (Z.of_nat m)) n s = Ok (Some None, s).
Proof.
  induction m as [|m IH]; intros k Hk Hlen Hno; [reflexivity|].
  rewrite seqZ_cons by lia. cbn [contiguous_loop].
  replace (Z.pred (Z.of_nat (S m))) with (Z.of_nat m) by lia.
  destruct (lookup_lt_is_Some_2 (bgs s) (Z.to_nat k)) as [c Hc]; [unfold zlen in Hlen; lia|].
  assert (free_blocks c < n) as Hf by (apply Z.leb_gt; apply (Hno k); auto; lia).
  unfold bind at 1. rewrite (allocate_from_group_none s k c n Hk Hc Hf).
  rewrite Z.eqb_refl. cbn [negb]. apply IH; [lia|lia|]. intros j d Hj. apply Hno. lia.
Qed.

Lemma groups_nat s : fs_ok s ->
  seqZ 0 (groups (aux_info s)) = seqZ 0 (Z.of_nat (length (bgs s))) .
Proof. intros Hfs. rewrite <- (fs_groups _ Hfs). reflexivity. Qed.

Lemma contiguous_some s n i b : fs_ok s -> memory s -> 0 <= n ->
  first_group s 0 (fun b => n <=? free_blocks b) i b ->
  exists bm, can_take s i b n bm /\
    ext4_allocate_contiguous_blocks n s = Ok (Some (Some (fresh s)), take_state s i b n bm).
Proof.
  intros Hfs Hm Hn Hf. unfold ext4_allocate_contiguous_blocks, bind, get_state.
  rewrite groups_nat by exact Hfs.
  apply (contiguous_loop_some s n i b Hfs Hm Hn); [lia|unfold zlen; lia|exact Hf].
Qed.

Lemma contiguous_none s n : fs_ok s -> no_group s 0 (fun b => n <=? free_blocks b) ->
  ext4_allocate_contiguous_blocks n s = Ok (Some None, s).
Proof.
  intros Hfs Hf. unfold ext4_allocate_contiguous_blocks, bind, get_state.
  rewrite groups_nat by exact Hfs. apply contiguous_loop_none; [lia|unfold zlen; lia|exact Hf].
Qed.


(** ** The partial allocation of one group *)

Definition unused (b : block_group_info) : bool := data_blocks_used b =? 0.

Lemma partial_loop_none s n : forall m k, 0 <= k -> k + Z.of_nat m = zlen (bgs s) ->
  no_group s k unused -> partial_loop (seqZ k (Z.of_nat m)) n s = Ok (Some None, s).
Proof.
  induction m as [|m IH]; intros k Hk Hlen Hno; [reflexivity|].
  rewrite seqZ_cons by lia. cbn [partial_loop].
  replace (Z.pred (Z.of_nat (S m))) with (Z.of_nat m) by lia.
  destruct (lookup_lt_is_Some_2 (bgs s) (Z.to_nat k)) as [c Hc]; [unfold zlen in Hlen; lia|].
  unfold bind at 1. rewrite (get_bg_eq s k c Hk Hc).
  pose proof (Hno k c ltac:(lia) Hc) as Hu. unfold unused in Hu. rewrite Hu.
  apply IH; [lia|lia|]. intros j d Hj. apply Hno. lia.
Qed.

Lemma partial_loop_some s n i b : fs_ok s -> memory s -> forall m k, 0 <= k ->
  k + Z.of_nat m = zlen (bgs s) -> first_group s k unused i b ->
  if n <=? free_blocks b
  then partial_loop (seqZ k (Z.of_nat m)) n s = ext4_allocate_contiguous_blocks n s
  else exists bm, can_take s i b (free_blocks b) bm /\
    partial_loop (seqZ k (Z.of_nat m)) n s =
      Ok (Some (Some (fresh s)), take_state s i b (free_blocks b) bm).
Proof.
  intros Hfs Hm. induction m as [|m IH]; intros k Hk Hlen (Hi & Hb & Ht & Hall).
  - apply lookup_lt_Some in Hb. unfold zlen in Hlen. lia.
  - rewrite seqZ_cons by lia. cbn [partial_loop].
    replace (Z.pred (Z.of_nat (S m))) with (Z.of_nat m) by lia.
    destruct (lookup_lt_is_Some_2 (bgs s) (Z.to_nat k)) as [c Hc]; [unfold zlen in Hlen; lia|].
    unfold bind at 1. unfold bind at 4. rewrite (get_bg_eq s k c Hk Hc).
    destruct (decide (i = k)) as [->|Hne].
    + rewrite Hb in Hc. injection Hc as <-. unfold unused in Ht. rewrite Ht.
      destruct (n <=? free_blocks b) eqn:En; [reflexivity|].
      destruct (fs_bgs _ Hfs k b Hk Hb) as [_ _ _ Fr _ _ _].
      destruct (allocate_from_group_some s k b (free_blocks b) Hfs Hk Hb ltac:(lia)) as (bm & Hct & E & Hnf).
      exists bm. split; [exact Hct|]. unfold bind at 1. rewrite E, Hnf.
      unfold bind. rewrite new_region_eq by exact Hm. reflexivity.
    + pose proof (Hall k c ltac:(lia) Hc) as Hu. unfold unused in Hu. rewrite Hu.
      apply IH; [lia|lia|]. split; [lia|]. split; [exact Hb|]. split; [exact Ht|].
      intros j d Hj. apply Hall. lia.
Qed.

Lemma partial_eq s n : fs_ok s ->
  ext4_allocate_partial n s = partial_loop (seqZ 0 (Z.of_nat (length (bgs s)))) n s.
Proof. intros Hfs. unfold ext4_allocate_partial, bind, get_state. rewrite groups_nat by exact Hfs. reflexivity. Qed.

(** ** The room in the unused groups *)

Definition sum_of {A} (f : A -> Z) (l : list A) : Z := foldr (fun x t => f x + t) 0 l.

Lemma sum_of_insert {A} (f : A -> Z) l : forall i x y, l !! i = Some x ->
  sum_of f (<[i := y]> l) = sum_of f l - f x + f y.
Proof.
  induction l as [|a l IH]; intros [|i] x y E; try discriminate.
  - injection E as ->. cbn. lia.
  - cbn in E. change (f a + sum_of f (<[i := y]> l) = f a + sum_of f l - f x + f y).
    rewrite (IH i x y E). lia.
Qed.

Lemma sum_of_nonneg {A} (f : A -> Z) l : (forall i x, l !! i = Some x -> 0 <= f x) -> 0 <= sum_of f l.
Proof.
  induction l as [|a l IH]; intros H; [cbn; lia|].
  cbn. pose proof (H 0%nat a eq_refl). fold (sum_of f l).
  pose proof (IH (fun i x Hx => H (S i) x Hx)). lia.
Qed.

Lemma sum_of_zero {A} (f : A -> Z) l : (forall i x, l !! i = Some x -> f x = 0) -> sum_of f l = 0.
Proof.
  induction l as [|a l IH]; intros H; [reflexivity|].
  cbn. rewrite (H 0%nat a eq_refl). fold (sum_of f l). rewrite (IH (fun i x Hx => H (S i) x Hx)). lia.
Qed.

Lemma sum_of_lookup {A} (f : A -> Z) l i x : (forall i x, l !! i = Some x -> 0 <= f x) ->
  l !! i = Some x -> f x <= sum_of f l.
Proof.
  revert i. induction l as [|a l IH]; intros [|i] H E; try discriminate; cbn; fold (sum_of f l).
  - injection E as ->. pose proof (sum_of_nonneg f l (fun i x Hx => H (S i) x Hx)). lia.
  - pose proof (IH i (fun i x Hx => H (S i) x Hx) E). pose proof (H 0%nat a eq_refl). lia.
Qed.

Definition room (b : block_group_info) : Z := if unused b then free_blocks b else 0.

(** The blocks that unused groups can give, and the number of these groups. *)
Definition capacity (s : fs) : Z := sum_of room (bgs s).
Definition unused_count (s : fs) : Z := sum_of (fun b => if unused b then 1 else 0) (bgs s).

(** An unused group has a block to give. *)
Definition unused_free (s : fs) : Prop :=
  forall i b, bgs s !! i = Some b -> unused b = true -> 0 < free_blocks b.

Lemma unused_count_bound s : 0 <= unused_count s <= zlen (bgs s).
Proof.
  unfold unused_count, zlen. induction (bgs s) as [|b l IH]; cbn; [lia|].
  fold (sum_of (fun b => if unused b then 1 else 0) l). destruct (unused b); lia.
Qed.

Lemma room_nonneg s i b : fs_ok s -> bgs s !! i = Some b -> 0 <= room b.
Proof.
  intros Hfs Hb. unfold room. destruct (unused b); [|lia].
  rewrite <- (Nat2Z.id i) in Hb. destruct (fs_bgs _ Hfs (Z.of_nat i) b ltac:(lia) Hb) as [_ _ _ Fr _ _ _]. lia.
Qed.

Lemma free_small s i b : fs_ok s -> 0 <= i -> bgs s !! Z.to_nat i = Some b ->
  0 <= free_blocks b < 2 ^ 31.
Proof.
  intros Hfs Hi Hb. destruct (fs_bgs _ Hfs i b Hi Hb) as [_ _ _ Fr _ _ _].
  pose proof (geo_group _ _ (fs_geometry _ Hfs)). pose proof (geo_block_size _ _ (fs_geometry _ Hfs)). lia.
Qed.

(** Using up an unused group. *)
Lemma take_unused s i b bm : fs_ok s -> unused_free s -> can_take s i b (free_blocks b) bm ->
  unused b = true ->
  let s' := take_state s i b (free_blocks b) bm in
  capacity s' = capacity s - free_blocks b /\ unused_count s' = unused_count s - 1 /\ unused_free s'.
Proof.
  intros Hfs Huf (Hi & Hb & Hn & Hok) Hu s'.
  pose proof (Huf _ _ Hb Hu) as Hpos. pose proof (free_small s i b Hfs Hi Hb) as Hsm.
  assert (unused (taken b (free_blocks b) bm) = false) as Hnu.
  { unfold unused in *. apply Z.eqb_eq in Hu. cbn. rewrite Hu, s32_id by lia. apply Z.eqb_neq. lia. }
  unfold capacity, unused_count. cbn [bgs s' take_state].
  rewrite (sum_of_insert room _ _ b) by exact Hb.
  rewrite (sum_of_insert _ _ _ b) by exact Hb. rewrite Hu, Hnu. unfold room. rewrite Hu, Hnu.
  split; [lia|]. split; [lia|]. intros j c Hc Huc. cbn in Hc.
  destruct (decide (Z.to_nat i = j)) as [<-|Hne].
  - rewrite list_lookup_insert_eq in Hc by (apply lookup_lt_Some in Hb; lia).
    injection Hc as <-. congruence.
  - rewrite list_lookup_insert_ne in Hc by exact Hne. exact (Huf j c Hc Huc).
Qed.


(** ** Several regions *)

Definition heap_fresh (s : fs) : Prop := forall a, fresh s <= a -> heap s !! a = None.

Definition node_groups (l : list node) : list Z := map (fun '(_, (_, _, g)) => g) l.

Lemma node_groups_in a b n g l : (a, (b, n, g)) ∈ l -> g ∈ node_groups l.
Proof.
  intros H. apply list_elem_of_In, in_map_iff. exists (a, (b, n, g)). split; [reflexivity|].
  apply list_elem_of_In. exact H.
Qed.

(** What allocating blocks leaves alone in a group. *)
Definition same_inodes (d c : block_group_info) : Prop :=
  has_superblock c = has_superblock d /\ inode_table c = inode_table d /\ bitmaps_ptr c = bitmaps_ptr d /\
  free_inodes c = free_inodes d /\ first_free_inode c = first_free_inode d /\ used_dirs c = used_dirs d.

(** [s'] is [s] after the blocks of [l] were taken: they were free, they are
    not any more, and no other block changed; the free run of each group used
    now starts behind the region. *)
Record allocated (s s' : fs) (l : list node) : Prop := {
  al_ok : fs_ok s';
  al_globals : same_globals s s';
  al_sparse : sparse_file s' = sparse_file s /\ mem s' = mem s /\ itab s' = itab s;
  al_fresh : fresh s <= fresh s';
  al_nodup : NoDup (blocks_of l);
  al_were_free : forall x, x ∈ blocks_of l -> free_block s x;
  al_free : forall x, free_block s' x <-> free_block s x /\ x ∉ blocks_of l;
  al_nodes : forall a b n g, (a, (b, n, g)) ∈ l -> fresh s <= a < fresh s' /\ 0 < n < 2 ^ 31 /\ 0 <= b;
  al_inside : forall a b n g, (a, (b, n, g)) ∈ l -> 0 <= g /\
    group_start (info s) (aux_info s) g <= b /\
    b + n <= group_start (info s) (aux_info s) g + group_size (info s) (aux_info s) g;
  al_others : forall g, 0 <= g -> g ∉ node_groups l -> bgs s' !! Z.to_nat g = bgs s !! Z.to_nat g;
  al_runs : forall a b n g, (a, (b, n, g)) ∈ l ->
    exists c, bgs s' !! Z.to_nat g = Some c /\ run_start c = b + n;
  al_used : forall a b n g, (a, (b, n, g)) ∈ l ->
    exists d c, bgs s !! Z.to_nat g = Some d /\ bgs s' !! Z.to_nat g = Some c /\
      first_free_block c = first_free_block d + n /\
      data_blocks_used c = s32 (data_blocks_used d + n) /\ same_inodes d c
}.

Lemma allocated_refl s : fs_ok s -> allocated s s [].
Proof.
  intros Hfs. split; auto using same_globals_refl.
  - lia.
  - constructor.
  - intros x Hx. inversion Hx.
  - intros x. split; [intros H; split; [exact H|intros Hx; inversion Hx]|intros [H _]; exact H].
  - intros a b n g H. inversion H.
  - intros a b n g H. inversion H.
  - intros a b n g H. inversion H.
  - intros a b n g H. inversion H.
Qed.

Lemma allocated_trans s s1 s2 l1 l2 :
  (forall g, g ∈ node_groups l1 -> g ∈ node_groups l2 -> False) ->
  allocated s s1 l1 -> allocated s1 s2 l2 -> allocated s s2 (l1 ++ l2).
Proof.
  intros Hdis [O1 G1 S1 H1 N1 W1 F1 D1 I1 X1 R1 U1] [O2 G2 S2 H2 N2 W2 F2 D2 I2 X2 R2 U2]. split.
  - exact O2.
  - exact (same_globals_trans _ _ _ G1 G2).
  - destruct S1 as (? & ? & ?), S2 as (? & ? & ?). repeat split; congruence.
  - lia.
  - rewrite blocks_of_app. apply NoDup_app. split; [exact N1|]. split; [|exact N2].
    intros x Hx1 Hx2. apply W2, F1 in Hx2. apply (proj2 Hx2). exact Hx1.
  - intros x Hx. rewrite blocks_of_app in Hx. apply elem_of_app in Hx as [Hx|Hx]; [exact (W1 x Hx)|].
    apply W2, F1 in Hx. apply Hx.
  - intros x. rewrite F2, F1, blocks_of_app, not_elem_of_app. tauto.
  - intros a b n g H. apply elem_of_app in H as [H|H].
    + apply D1 in H. lia.
    + apply D2 in H. lia.
  - intros a b n g H. destruct G1 as (_ & Ei & Ea & _). rewrite Ei, Ea in I2.
    apply elem_of_app in H as [H|H]; [exact (I1 a b n g H)|exact (I2 a b n g H)].
  - intros g Hg Hnin. unfold node_groups in Hnin. rewrite map_app in Hnin.
    apply not_elem_of_app in Hnin as (Hn1 & Hn2). rewrite X2, X1 by auto. reflexivity.
  - intros a b n g H. apply elem_of_app in H as [H|H]; [|exact (R2 a b n g H)].
    destruct (R1 a b n g H) as (c & Hc & Hr). exists c. split; [|exact Hr].
    rewrite X2; [exact Hc|apply (I1 a b n g H)|]. intros Hin.
    exact (Hdis g (node_groups_in _ _ _ _ _ H) Hin).
  - intros a b n g H. apply elem_of_app in H as [H|H].
    + destruct (U1 a b n g H) as (d & c & Hd & Hc & Hr). exists d, c. split; [exact Hd|]. split; [|exact Hr].
      rewrite X2; [exact Hc|apply (I1 a b n g H)|]. intros Hin.
      exact (Hdis g (node_groups_in _ _ _ _ _ H) Hin).
    + destruct (U2 a b n g H) as (d & c & Hd & Hr). exists d, c. split; [|exact Hr].
      rewrite <- X1; [exact Hd|apply (I2 a b n g H)|]. intros Hin.
      exact (Hdis g Hin (node_groups_in _ _ _ _ _ H)).
Qed.

(** One region; the heap may have been relinked since. *)
Lemma allocated_take s i b n bm h : fs_ok s -> can_take s i b n bm -> 0 < n ->
  allocated s (set_heap (take_state s i b n bm) h) [(fresh s, (run_start b, n, i))].
Proof.
  intros Hfs Hct Hn. pose proof Hct as (Hi & Hb & Hle & _).
  pose proof (free_small s i b Hfs Hi Hb). pose proof (run_start_bound s i b Hfs Hi Hb) as (_ & _ & ? & _).
  assert (blocks_of [(fresh s, (run_start b, n, i))] = seqZ (run_start b) n) as Hbl
    by (unfold blocks_of; cbn; apply app_nil_r).
  split.
  - destruct (take_fs_ok s i b n bm Hfs Hct) as [G N B]. split; auto.
  - repeat split.
  - repeat split.
  - cbn. lia.
  - rewrite Hbl. apply NoDup_seqZ.
  - intros x Hx. rewrite Hbl in Hx. apply elem_of_seqZ in Hx. exists i, b. split; [exact Hi|].
    split; [exact Hb|]. lia.
  - intros x. rewrite Hbl. exact (take_free s i b n bm x Hfs Hct).
  - intros a b' n' g Hin. apply list_elem_of_singleton in Hin. injection Hin as -> -> -> ->. cbn. lia.
  - intros a b' n' g Hin. apply list_elem_of_singleton in Hin. injection Hin as -> -> -> ->.
    destruct (fs_bgs _ Hfs i b Hi Hb) as [F _ _ Fr _ _ _]. unfold run_start. rewrite F. lia.
  - intros g Hg Hnin. cbn. apply list_lookup_insert_ne. intros E. apply Hnin.
    assert (i = g) as -> by lia. left.
  - intros a b' n' g Hin. apply list_elem_of_singleton in Hin. injection Hin as -> -> -> ->.
    exists (taken b n bm). cbn. split; [apply list_lookup_insert_eq; apply lookup_lt_Some in Hb; exact Hb|].
    unfold run_start. cbn. rewrite Z.eqb_refl. lia.
  - intros a b' n' g Hin. apply list_elem_of_singleton in Hin. injection Hin as -> -> -> ->.
    exists b, (taken b n bm). cbn. split; [exact Hb|].
    split; [apply list_lookup_insert_eq; apply lookup_lt_Some in Hb; exact Hb|].
    rewrite Z.eqb_refl. repeat split.
Qed.

(** A group that was used up gives nothing to a later region. *)
Lemma allocated_exhausted s s' l i c : fs_ok s -> allocated s s' l -> 0 <= i ->
  bgs s !! Z.to_nat i = Some c -> free_blocks c = 0 -> i ∉ node_groups l.
Proof.
  intros Hfs [O G S H N W F D I X R U] Hi Hc Hz Hin.
  apply list_elem_of_In, in_map_iff in Hin as ([a [[b n] g]] & -> & Hin). apply list_elem_of_In in Hin.
  destruct (D _ _ _ _ Hin) as (_ & Hn & _). destruct (I _ _ _ _ Hin) as (Hg & I1 & I2).
  assert (b ∈ blocks_of l) as Hbl.
  { apply list_elem_of_In, in_concat. exists (seqZ b n). split.
    - apply in_map_iff. exists (a, (b, n, i)). split; [reflexivity|]. apply list_elem_of_In. exact Hin.
    - apply list_elem_of_In, elem_of_seqZ. lia. }
  destruct (W b Hbl) as (j & d & Hj & Hd & Hx).
  destruct (run_start_bound s j d Hfs Hj Hd) as (B1 & B2 & _).
  pose proof (group_size_bound (info s) (aux_info s) i). pose proof (geo_group _ _ (fs_geometry _ Hfs)).
  assert (i = j) as <-.
  { unfold group_start in *. destruct (Z.lt_trichotomy i j) as [E1|[E1|E1]]; [|exact E1|].
    - assert ((i + 1) * blocks_per_group (info s) <= j * blocks_per_group (info s))
        by (apply Z.mul_le_mono_nonneg_r; lia). lia.
    - assert ((j + 1) * blocks_per_group (info s) <= i * blocks_per_group (info s))
        by (apply Z.mul_le_mono_nonneg_r; lia). lia. }
  rewrite Hc in Hd. injection Hd as <-. lia.
Qed.

Lemma total_len_zero s s' l : allocated s s' l -> total_len l = 0 -> l = [].
Proof.
  intros Hal. pose proof (al_nodes _ _ _ Hal) as D. clear Hal.
  assert (forall k, (forall x, x ∈ k -> x ∈ l) -> 0 <= total_len k /\ (total_len k = 0 -> k = [])) as Hk.
  { induction k as [|[a [[b n] g]] k IH]; intros Hin; [cbn; auto with lia|].
    destruct (D a b n g) as (_ & Hn & _); [apply Hin; left|].
    destruct IH as (H1 & _); [intros x Hx; apply Hin; right; exact Hx|].
    change (total_len ((a, (b, n, g)) :: k)) with (n + total_len k). split; [lia|lia]. }
  apply Hk. auto.
Qed.

Lemma blocks_of_len s s' l : allocated s s' l -> zlen (blocks_of l) = total_len l.
Proof.
  intros Hal. pose proof (al_nodes _ _ _ Hal) as D. clear Hal.
  assert (forall k, (forall x, x ∈ k -> x ∈ l) -> zlen (blocks_of k) = total_len k) as Hk; [|apply Hk; auto].
  induction k as [|[a [[b n] g]] k IH]; intros Hin; [reflexivity|].
  destruct (D a b n g) as (_ & Hn & _); [apply Hin; left|].
  change (blocks_of ((a, (b, n, g)) :: k)) with (seqZ b n ++ blocks_of k).
  change (total_len ((a, (b, n, g)) :: k)) with (n + total_len k).
  rewrite zlen_app, IH by (intros x Hx; apply Hin; right; exact Hx).
  unfold zlen. rewrite length_seqZ. lia.
Qed.

Lemma set_next_eq s a r q : heap s !! a = Some r ->
  set_next (Some a) q s =
    Ok (Some tt, set_heap s (<[a := mk_region (r_block r) (r_len r) (r_bg r) q (r_prev r)]> (heap s))).
Proof. intros E. unfold set_next, bind, deref, store. rewrite E, E. reflexivity. Qed.

Lemma set_prev_eq s a r q : heap s !! a = Some r ->
  set_prev (Some a) q s =
    Ok (Some tt, set_heap s (<[a := mk_region (r_block r) (r_len r) (r_bg r) (r_next r) q]> (heap s))).
Proof. intros E. unfold set_prev, bind, deref, store. rewrite E, E. reflexivity. Qed.

Lemma set_rlen_eq s a r n : heap s !! a = Some r ->
  set_rlen (Some a) n s =
    Ok (Some tt, set_heap s (<[a := mk_region (r_block r) n (r_bg r) (r_next r) (r_prev r)]> (heap s))).
Proof. intros E. unfold set_rlen, bind, deref, store. rewrite E, E. reflexivity. Qed.

(** The chain built so far, with the two pointers the loop keeps. *)
Definition chain (h : gmap Z region) (first_reg prev_reg : option Z) (acc : list node) : Prop :=
  lseg h first_reg None acc None /\ prev_reg = last_addr None acc.

(** The end of a round of [multiple_loop]: a region taken from a group is
    linked behind the chain. *)
Lemma link_region s i b n bm first_reg prev_reg acc : fs_ok s -> heap_fresh s ->
  can_take s i b n bm -> chain (heap s) first_reg prev_reg acc ->
  let s1 := take_state s i b n bm in
  let reg := Some (fresh s) in
  exists h, (match prev_reg with
             | Some _ => let* _ := set_next prev_reg reg in set_prev reg prev_reg
             | None => ret tt
             end) s1 = Ok (Some tt, set_heap s1 h) /\
    chain h (match first_reg with None => reg | _ => first_reg end) reg
      (acc ++ [(fresh s, (run_start b, n, i))]) /\
    deref reg (set_heap s1 h) =
      Ok (Some (mk_region (run_start b) n i None prev_reg), set_heap s1 h) /\
    (forall a, a ∉ addrs acc -> a <> fresh s -> h !! a = heap s !! a).
Proof.
  intros Hfs Hhf Hct (Hl & ->) s1 reg.
  assert (heap s !! fresh s = None) as Hnew by (apply Hhf; lia).
  destruct acc as [|[a x] acc _] using rev_ind.
  - cbn in Hl. subst first_reg. exists (heap s1). split; [reflexivity|]. split; [|split].
    + split; [|reflexivity]. cbn. split; [reflexivity|]. exists None. split; [apply lookup_insert_eq|reflexivity].
    + unfold deref, reg. cbn [heap set_heap s1 take_state]. rewrite lookup_insert_eq. reflexivity.
    + intros a _ Ha. cbn. apply lookup_insert_ne. congruence.
  - rewrite last_addr_snoc. destruct x as [[b' n'] g'].
    pose proof (lseg_link _ _ _ _ _ (fresh s) (run_start b, n, i) Hl Hnew) as Hlink. cbn [fst] in Hlink.
    pose proof Hl as Hl'. apply lseg_app in Hl' as (m & Hm & Hlast). destruct Hlast as (-> & nx & Ea & ->).
    assert (a <> fresh s) as Hane by congruence.
    assert (heap s1 !! a = Some (mk_region b' n' g' None (last_addr None acc))) as Ea1
      by (cbn; rewrite lookup_insert_ne by congruence; exact Ea).
    eexists. split; [|split; [|split]].
    + unfold bind. rewrite (set_next_eq s1 a _ reg Ea1).
      rewrite (set_prev_eq _ (fresh s) (mk_region (run_start b) n i None None)).
      * reflexivity.
      * cbn. rewrite lookup_insert_ne by congruence. apply lookup_insert_eq.
    + split; [|rewrite last_addr_snoc; reflexivity].
      destruct first_reg as [p|]; [exact Hlink|].
      destruct acc as [|[c [[]]] acc]; cbn in Hl; destruct Hl as (Hl & _); discriminate.
    + unfold deref, reg. cbn [heap set_heap]. rewrite lookup_insert_eq. reflexivity.
    + intros c Hc Hne. cbn [heap set_heap s1 take_state r_block r_len r_bg r_next r_prev].
      assert (c <> a).
      { intros ->. apply Hc. unfold addrs. rewrite map_app. apply elem_of_app. right. left. }
      rewrite !lookup_insert_ne by congruence. reflexivity.
Qed.

(** The first region of a search is all that was asked for, or all a group
    without data could give. *)
Definition head_len (s : fs) (l : list node) (n : Z) : Prop :=
  forall x k, l = x :: k -> node_len x = n \/
    exists i b, bgs s !! i = Some b /\ unused b = true /\ node_len x = free_blocks b.

(** What the loop returns: the chain with more regions for [n] blocks, or NULL
    when the unused groups cannot hold them. *)
Definition multiple_result (s : fs) (acc : list node) (n : Z) (r : outcome (option (option Z) * fs)) : Prop :=
  if n <=? capacity s
  then exists p s' l, r = Ok (Some p, s') /\ lseg (heap s') p None (acc ++ l) None /\
    allocated s s' l /\ total_len l = n /\ heap_fresh s' /\ head_len s l n /\
    (forall a, a ∉ addrs (acc ++ l) -> heap s' !! a = heap s !! a)
  else exists s' l, r = Ok (Some None, s') /\ allocated s s' l.


Lemma heap_fresh_take s i b n bm h acc : heap_fresh s ->
  (forall a, a ∉ addrs acc -> a <> fresh s -> h !! a = heap s !! a) ->
  (forall a, a ∈ addrs acc -> is_Some (heap s !! a)) ->
  heap_fresh (set_heap (take_state s i b n bm) h).
Proof.
  intros Hhf Hfr Hacc a Ha. cbn in Ha |- *. rewrite Hfr; [apply Hhf; lia| |lia].
  intros Hin. destruct (Hacc a Hin) as [r Hr]. rewrite Hhf in Hr by lia. discriminate.
Qed.

Lemma region_chain_lookup h p q acc a : chain h p q acc -> a ∈ addrs acc -> is_Some (h !! a).
Proof. intros (H & _). exact (lseg_lookup _ _ _ _ _ _ H). Qed.

(** One more region in front of what the rest of the loop returns. *)
Lemma multiple_result_step s i b m bm h acc n r : fs_ok s -> can_take s i b m bm -> 0 < m ->
  n = m \/ m = free_blocks b /\ unused b = true ->
  let s1 := set_heap (take_state s i b m bm) h in
  let x := (fresh s, (run_start b, m, i)) in
  (forall a, a ∉ addrs acc -> a <> fresh s -> h !! a = heap s !! a) ->
  (n <= capacity s <-> n - m <= capacity s1) ->
  multiple_result s1 (acc ++ [x]) (n - m) r -> multiple_result s acc n r.
Proof.
  intros Hfs Hct Hm Hlast s1 x Hfr Hcap. unfold multiple_result.
  pose proof (allocated_take s i b m bm h Hfs Hct Hm) as Hal. fold s1 x in Hal.
  pose proof (al_ok _ _ _ Hal) as Hfs1. pose proof Hct as (Hi & Hb & _ & _).
  assert (0 <= capacity s1) as Hc1
    by (apply sum_of_nonneg; intros j c; apply (room_nonneg s1); exact Hfs1).
  assert (forall s' l, allocated s1 s' l -> n <> m \/ l = [] ->
    forall g, g ∈ node_groups [x] -> g ∈ node_groups l -> False) as Hdis.
  { intros s' l Hl Hor g Hg Hgl. apply list_elem_of_singleton in Hg. subst g.
    destruct Hor as [Hne|E]; [|rewrite E in Hgl; inversion Hgl].
    destruct Hlast as [|[Hlast _]]; [lia|].
    apply (allocated_exhausted s1 s' l i (taken b m bm) Hfs1 Hl Hi); [|cbn; lia|exact Hgl].
    cbn. apply list_lookup_insert_eq. apply lookup_lt_Some in Hb. exact Hb. }
  destruct (Z.leb_spec (n - m) (capacity s1)); destruct (Z.leb_spec n (capacity s)); try lia.
  - intros (p & s' & l & -> & Hl & Hal' & Ht & Hh & Hhd & Hfr').
    rewrite <- app_assoc in Hl, Hfr'.
    exists p, s', ([x] ++ l). split; [reflexivity|]. split; [exact Hl|].
    split.
    { apply (allocated_trans s s1 s' [x] l); auto. apply (Hdis s' l Hal').
      destruct (decide (n = m)) as [->|]; [right|left; assumption].
      apply (total_len_zero s1 s' l Hal'). lia. }
    split; [rewrite total_len_app; cbn; lia|]. split; [exact Hh|].
    split; [intros y k [= <- _]; cbn; destruct Hlast as [->|[E Hu]]; [left; reflexivity|right];
      exists (Z.to_nat i), b; auto|].
    intros a Ha. rewrite Hfr' by exact Ha. apply Hfr.
    + intros Hin. apply Ha. unfold addrs. rewrite map_app. apply elem_of_app. left. exact Hin.
    + intros ->. apply Ha. unfold addrs. rewrite map_app. apply elem_of_app. right. left.
  - intros (s' & l & -> & Hal'). exists s', ([x] ++ l). split; [reflexivity|].
    apply (allocated_trans s s1 s' [x] l); auto. apply (Hdis s' l Hal'). left. lia.
Qed.

(** A loop that has nothing left to do returns the chain. *)
Lemma multiple_loop_done s acc first_reg prev_reg f : fs_ok s -> heap_fresh s ->
  chain (heap s) first_reg prev_reg acc ->
  multiple_result s acc 0 (multiple_loop (S f) first_reg prev_reg 0 s).
Proof.
  intros Hfs Hhf (Hl & _). unfold multiple_result.
  rewrite (proj2 (Z.leb_le 0 (capacity s)))
    by (apply sum_of_nonneg; intros i b; apply room_nonneg; exact Hfs).
  exists first_reg, s, []. split; [reflexivity|]. rewrite app_nil_r. split; [exact Hl|].
  split; [apply allocated_refl; exact Hfs|]. split; [reflexivity|]. split; [exact Hhf|].
  split; [intros x k; discriminate|]. auto.
Qed.

Lemma capacity_none s : fs_ok s -> no_group s 0 unused -> capacity s = 0.
Proof.
  intros Hfs Hno. apply sum_of_zero. intros i b Hb. unfold room.
  rewrite (Hno (Z.of_nat i) b); [reflexivity|lia|]. rewrite Nat2Z.id. exact Hb.
Qed.

Lemma multiple_loop_spec fuel : forall s acc first_reg prev_reg n,
  fs_ok s -> memory s -> heap_fresh s -> unused_free s ->
  chain (heap s) first_reg prev_reg acc -> 0 <= n < 2 ^ 32 ->
  unused_count s + 1 < Z.of_nat fuel ->
  multiple_result s acc n (multiple_loop fuel first_reg prev_reg n s).
Proof.
  induction fuel as [|f IH]; intros s acc first_reg prev_reg n Hfs Hm Hhf Huf Hch Hn Hf.
  { pose proof (unused_count_bound s). lia. }
  destruct (decide (n = 0)) as [->|Hn0]; [apply multiple_loop_done; auto|].
  cbn [multiple_loop]. rewrite (proj2 (Z.ltb_lt 0 n)) by lia.
  unfold bind at 1. rewrite partial_eq by exact Hfs.
  destruct (group_search s unused (length (bgs s)) 0) as [(i & b & Hfg)|Hno]; [lia|unfold zlen; lia| |].
  2:{ rewrite partial_loop_none by (auto; unfold zlen; lia). cbn [ret].
      unfold multiple_result. rewrite (capacity_none s Hfs Hno), (proj2 (Z.leb_gt n 0)) by lia.
      exists s, []. split; [reflexivity|]. apply allocated_refl. exact Hfs. }
  pose proof (partial_loop_some s n i b Hfs Hm (length (bgs s)) 0 ltac:(lia) ltac:(unfold zlen; lia) Hfg)
    as Hp. pose proof Hfg as (Hi & Hb & Hu & _).
  assert (room b <= capacity s) as Hroom
    by (apply (sum_of_lookup room _ (Z.to_nat i)); [intros; eapply room_nonneg; eauto|exact Hb]).
  unfold room in Hroom. rewrite Hu in Hroom.
  destruct (Z.leb_spec n (free_blocks b)) as [Hle|Hgt].
  - rewrite Hp. clear Hp.
    destruct (group_search s (fun b => n <=? free_blocks b) (length (bgs s)) 0)
      as [(j & c & Hfc)|Hno]; [lia|unfold zlen; lia| |].
    2:{ specialize (Hno i b Hi Hb). cbn in Hno. apply Z.leb_gt in Hno. lia. }
    destruct (contiguous_some s n j c Hfs Hm ltac:(lia) Hfc) as (bm & Hct & ->).
    destruct (link_region s j c n bm first_reg prev_reg acc Hfs Hhf Hct Hch) as (h & El & Hch' & Ed & Hfr).
    unfold bind at 1. rewrite El. unfold bind at 1. rewrite Ed. cbn [r_len].
    rewrite u32_id by lia.
    apply (multiple_result_step s j c n bm h acc); auto; [lia| |].
    + unfold capacity at 2. rewrite Z.sub_diag.
      assert (0 <= sum_of room (bgs (set_heap (take_state s j c n bm) h))); [|lia].
      apply sum_of_nonneg. intros k d. apply (room_nonneg (take_state s j c n bm) k d).
      apply take_fs_ok; auto.
    + rewrite Z.sub_diag. destruct f as [|f]; [pose proof (unused_count_bound s); lia|].
      apply multiple_loop_done; [| |exact Hch'].
      * destruct (take_fs_ok s j c n bm Hfs Hct) as [G N B]. split; auto.
      * apply (heap_fresh_take s j c n bm h acc Hhf Hfr). intros a. apply (region_chain_lookup _ _ _ _ _ Hch).
  - destruct Hp as (bm & Hct & ->). pose proof (Huf _ _ Hb Hu) as Hpos.
    destruct (link_region s i b _ bm first_reg prev_reg acc Hfs Hhf Hct Hch) as (h & El & Hch' & Ed & Hfr).
    unfold bind at 1. rewrite El. unfold bind at 1. rewrite Ed. cbn [r_len].
    rewrite u32_id by lia.
    destruct (take_unused s i b bm Hfs Huf Hct Hu) as (Hcap & Hcnt & Huf').
    apply (multiple_result_step s i b (free_blocks b) bm h acc); auto.
    + change (capacity (set_heap ?x _)) with (capacity x). lia.
    + apply IH; auto; try lia.
      * destruct (take_fs_ok s i b _ bm Hfs Hct) as [G N B]. split; auto.
      * apply (heap_fresh_take s i b _ bm h acc Hhf Hfr). intros a. apply (region_chain_lookup _ _ _ _ _ Hch).
      * change (unused_count (set_heap ?x _)) with (unused_count x). lia.
Qed.


(** ** [do_allocate] *)

(** The allocator finds [n] blocks: in one group, or in the unused groups. *)
Definition can_hold (s : fs) (n : Z) : bool :=
  existsb (fun b => n <=? free_blocks b) (bgs s) || (n <=? capacity s).

Lemma existsb_no_group s test : no_group s 0 test -> existsb test (bgs s) = false.
Proof.
  intros Hno. destruct (existsb test (bgs s)) eqn:E; [|reflexivity].
  apply existsb_exists in E as (b & Hb & Ht). apply list_elem_of_In, list_elem_of_lookup in Hb as (i & Hi).
  rewrite (Hno (Z.of_nat i) b) in Ht; [discriminate|lia|]. rewrite Nat2Z.id. exact Hi.
Qed.

Lemma existsb_first_group s test i b : first_group s 0 test i b -> existsb test (bgs s) = true.
Proof.
  intros (Hi & Hb & Ht & _). apply existsb_exists. exists b. split; [|exact Ht].
  apply list_elem_of_In. eapply list_elem_of_lookup_2. exact Hb.
Qed.

(** A chain of regions of [n] blocks in all. *)
Definition new_chain (s s' : fs) (a : Z) (l : list node) (n : Z) : Prop :=
  lseg (heap s') (Some a) None l None /\ allocated s s' l /\ total_len l = n /\ heap_fresh s' /\
  head_len s l n /\ (forall c, c ∉ addrs l -> heap s' !! c = heap s !! c).

Lemma do_allocate_spec s n : fs_ok s -> memory s -> heap_fresh s -> unused_free s -> 0 < n < 2 ^ 32 ->
  if can_hold s n
  then exists a s' l, do_allocate n s = Ok (Some (Some a), s') /\ new_chain s s' a l n
  else exists s' l, do_allocate n s = Ok (Some None, s') /\ allocated s s' l.
Proof.
  intros Hfs Hm Hhf Huf Hn. unfold can_hold, do_allocate, bind.
  destruct (group_search s (fun b => n <=? free_blocks b) (length (bgs s)) 0)
    as [(i & b & Hfg)|Hno]; [lia|unfold zlen; lia| |].
  - destruct (contiguous_some s n i b Hfs Hm ltac:(lia) Hfg) as (bm & Hct & E).
    rewrite (existsb_first_group _ _ _ _ Hfg), E. cbn [orb].
    exists (fresh s), (take_state s i b n bm), [(fresh s, (run_start b, n, i))].
    split; [reflexivity|]. pose proof (allocated_take s i b n bm (heap (take_state s i b n bm)) Hfs Hct ltac:(lia)) as Hal.
    split; [|split; [|split; [|split; [|split]]]].
    + split; [reflexivity|]. exists None. split; [apply lookup_insert_eq|reflexivity].
    + exact Hal.
    + cbn. lia.
    + intros a Ha. cbn in Ha |- *. rewrite lookup_insert_ne by lia. apply Hhf. lia.
    + intros y k [= <- _]. left. reflexivity.
    + intros c Hc. cbn. apply lookup_insert_ne. intros <-. apply Hc. left.
  - rewrite (existsb_no_group _ _ Hno). cbn [orb]. rewrite (contiguous_none s n Hfs Hno).
    unfold get_state, ext4_allocate_multiple_contiguous_blocks.
    pose proof (multiple_loop_spec (multiple_fuel s) s [] None None n Hfs Hm Hhf Huf) as Hr.
    unfold multiple_result in Hr. pose proof (unused_count_bound s).
    destruct (n <=? capacity s).
    + destruct Hr as (p & s' & l & -> & Hl & Hal & Ht & Hh & Hhd & Hfr);
        [split; reflexivity|lia|unfold multiple_fuel, zlen in *; lia|].
      cbn [app] in Hl, Hfr. destruct l as [|[a x] l]; [cbn in Ht; lia|].
      pose proof Hl as Hl'. destruct x as [[b' n'] g']. destruct Hl' as (-> & _).
      eexists a, s', _. split; [reflexivity|]. split; [exact Hl|]. auto.
    + destruct Hr as (s' & l & -> & Hal); [split; reflexivity|lia|unfold multiple_fuel, zlen in *; lia|].
      exists s', l. auto.
Qed.

Lemma new_chain_bump s s' a l n : new_chain s s' a l n -> new_chain s (bump s') a l n.
Proof.
  intros (Hl & [] & Ht & Hf & Hh & Hr). split; [exact Hl|]. split; [|split; [exact Ht|split; [|split; assumption]]].
  - split; auto; [|cbn; lia|].
    + destruct al_ok0 as [G N B]. split; assumption.
    + intros c b k g Hin. destruct (al_nodes0 c b k g Hin) as (? & ?). cbn. split; [lia|assumption].
  - intros c Hc. apply Hf. cbn in Hc. lia.
Qed.

Lemma create_allocation_eq s : memory s -> create_allocation s = Ok (Some no_regions, bump s).
Proof. intros Hm. unfold create_allocation, bind. rewrite (malloc_eq s Hm). reflexivity. Qed.

Lemma allocate_blocks_spec s n : fs_ok s -> memory s -> heap_fresh s -> unused_free s -> 0 < n < 2 ^ 32 ->
  if can_hold s n
  then exists a s' l,
    allocate_blocks n s =
      Ok (Some (Some (mk_alloc (mk_list (Some a) (Some a) (Some a) 0) empty_list)), s') /\
    new_chain s s' a l n
  else exists s' l, allocate_blocks n s = Ok (Some None, s') /\ allocated s s' l.
Proof.
  intros Hfs Hm Hhf Huf Hn. pose proof (do_allocate_spec s n Hfs Hm Hhf Huf Hn) as Hd.
  unfold allocate_blocks, bind. destruct (can_hold s n).
  - destruct Hd as (a & s' & l & -> & Hc). apply new_chain_bump in Hc as Hb. exists a, (bump s'), l.
    rewrite create_allocation_eq; [auto|]. pose proof (al_globals _ _ _ (proj1 (proj2 Hc))) as (_ & _ & _ & Ev).
    intros x. rewrite Ev. apply Hm.
  - destruct Hd as (s' & l & -> & Hc). exists s', l. auto.
Qed.

(** ** A group without a free block *)

(** The round that takes no block from a full group changes nothing the next
    round looks at. *)
Lemma take_nothing s i b bm h : fs_ok s -> can_take s i b 0 bm -> first_group s 0 unused i b ->
  free_blocks b = 0 ->
  let s' := set_heap (take_state s i b 0 bm) h in
  exists b', first_group s' 0 unused i b' /\ free_blocks b' = 0.
Proof.
  intros Hfs (Hi & Hb & _ & _) (_ & _ & Hu & Hall) Hz s'. exists (taken b 0 bm).
  pose proof (lookup_lt_Some _ _ _ Hb) as Hlt. split; [|cbn; lia].
  split; [exact Hi|]. split; [apply list_lookup_insert_eq; exact Hlt|]. split.
  - unfold unused in *. apply Z.eqb_eq in Hu. cbn. rewrite Hu. reflexivity.
  - intros j c Hj. cbn. rewrite list_lookup_insert_ne by lia. apply Hall. exact Hj.
Qed.

Lemma multiple_loop_stuck fuel : forall s acc first_reg prev_reg n i b,
  fs_ok s -> memory s -> heap_fresh s -> chain (heap s) first_reg prev_reg acc ->
  first_group s 0 unused i b -> free_blocks b = 0 -> 0 < n < 2 ^ 32 ->
  multiple_loop fuel first_reg prev_reg n s = NoFuel.
Proof.
  induction fuel as [|f IH]; intros s acc first_reg prev_reg n i b Hfs Hm Hhf Hch Hfg Hz Hn; [reflexivity|].
  cbn [multiple_loop]. rewrite (proj2 (Z.ltb_lt 0 n)) by lia.
  unfold bind at 1. rewrite partial_eq by exact Hfs.
  pose proof (partial_loop_some s n i b Hfs Hm (length (bgs s)) 0 ltac:(lia) ltac:(unfold zlen; lia) Hfg) as Hp.
  rewrite Hz, (proj2 (Z.leb_gt n 0)) in Hp by lia. destruct Hp as (bm & Hct & ->).
  destruct (link_region s i b 0 bm first_reg prev_reg acc Hfs Hhf Hct Hch) as (h & El & Hch' & Ed & Hfr).
  unfold bind at 1. rewrite El. unfold bind at 1. rewrite Ed. cbn [r_len].
  rewrite Z.sub_0_r, u32_id by lia.
  destruct (take_nothing s i b bm h Hfs Hct Hfg Hz) as (b' & Hfg' & Hz').
  apply (IH _ (acc ++ [(fresh s, (run_start b, 0, i))]) _ _ _ i b'); auto.
  - destruct (take_fs_ok s i b 0 bm Hfs Hct) as [G N B]. split; auto.
  - apply (heap_fresh_take s i b 0 bm h acc Hhf Hfr). intros a. apply (region_chain_lookup _ _ _ _ _ Hch).
Qed.

(** ** Reading an allocation *)

(** The regions of a chain lie below 2^32. *)
Definition nodes_ok (l : list node) : Prop :=
  forall a b n g, (a, (b, n, g)) ∈ l -> 0 <= b /\ 0 <= n /\ b + n <= 2 ^ 32.

Lemma nodes_ok_cons x l : nodes_ok (x :: l) -> nodes_ok l.
Proof. intros H a b n g Hin. apply (H a b n g). right. exact Hin. Qed.

Lemma get_block_loop_spec s l : forall fuel p k,
  fseg (heap s) p l None -> nodes_ok l -> 0 <= k < 2 ^ 32 -> (length l < fuel)%nat ->
  get_block_loop fuel p k s =
    Ok (Some (default EXT4_ALLOCATE_FAILED (blocks_of l !! Z.to_nat k)), s).
Proof.
  induction l as [|[a [[b n] g]] l IH]; intros fuel p k Hl Hok Hk Hf;
    (destruct fuel as [|fuel]; [cbn in Hf; lia|]); cbn [get_block_loop].
  - cbn in Hl. subst p. reflexivity.
  - destruct Hl as (-> & nx & pv & Ea & Hl). destruct (Hok a b n g ltac:(left)) as (Hb & Hn & Hbn).
    unfold bind, deref. rewrite Ea. cbn [r_len r_block r_next].
    unfold blocks_of. cbn [map concat node_blocks]. fold (blocks_of l).
    destruct (Z.ltb_spec k n) as [Hlt|Hge].
    + rewrite lookup_app_l by (rewrite length_seqZ; lia).
      rewrite lookup_seqZ_lt by lia. rewrite Z2Nat.id, u32_id by lia. reflexivity.
    + rewrite lookup_app_r by (rewrite length_seqZ; lia). rewrite length_seqZ.
      rewrite u32_id by lia.
      replace (Z.to_nat k - Z.to_nat n)%nat with (Z.to_nat (k - n)) by lia.
      apply (IH fuel nx); [exact Hl|exact (nodes_ok_cons _ _ Hok)|lia|cbn in Hf; lia].
Qed.

Lemma get_list_block_spec s rl l k : fseg (heap s) (iter rl) l None -> nodes_ok l ->
  0 <= k -> 0 <= partial_iter rl -> k + partial_iter rl < 2 ^ 32 ->
  get_list_block rl k s =
    Ok (Some (default EXT4_ALLOCATE_FAILED (blocks_of l !! Z.to_nat (k + partial_iter rl))), s).
Proof.
  intros Hl Hok Hk Hp Hlt. unfold get_list_block, bind, get_state. rewrite u32_id by lia.
  apply (get_block_loop_spec s l); [exact Hl|exact Hok|lia|].
  exact (list_fuel_enough s l _ Hl).
Qed.


End Ext4AllocProps.
