(* ===== verification/Ext4AllocLists.v ===== *)
(** * Shrinking, splitting and reading allocations

    [reduce_allocation], [reserve_oob_blocks] and [advance_blocks] of
    [ext4_utils/allocate.c], where they do what their comments say and where
    they do not, with the theorems about the allocator as a whole. *)

From S2P Require Import Prelude BackedBlock SparseFile Ext4Utils Ext4Alloc Ext4AllocBits Ext4AllocProps.

Module Ext4AllocLists.
Import Ext4Utils Ext4Alloc Ext4AllocBits Ext4AllocProps.

(** ** Giving blocks back *)

Definition freed (b : block_group_info) (m : Z) (bm : list Z) : block_group_info :=
  set_free (set_bitmaps b bm) (free_blocks b + m) (first_free_block b - m).

Lemma freed_ok inf aux i b m bm : geometry_ok inf aux -> bg_ok inf aux i b ->
  0 <= m <= first_free_block b -> first_free_block b <= group_size inf aux i ->
  set_range false (bitmaps b) (first_free_block b - m) m bm ->
  bg_ok inf aux i (freed b m bm).
Proof.
  intros G [F L B Fr Bi In Ib] Hm Hgs (L' & B' & S').
  pose proof (geo_group _ _ G). pose proof (group_size_bound inf aux i).
  split; cbn; [exact F|lia|exact B'|lia| |exact In|].
  - intros n Hr. rewrite S', Bi by lia.
    destruct (in_range (first_free_block b - m) m n) eqn:E1,
      (in_range (first_free_block b) (free_blocks b) n) eqn:E2,
      (in_range (first_free_block b - m) (free_blocks b + m) n) eqn:E3;
      rewrite ?in_range_true, ?in_range_false in *; cbn; try reflexivity; lia.
  - intros n Hr. rewrite S' by (pose proof (geo_block_size _ _ G); lia).
    rewrite (proj2 (in_range_false _ _ _)); [apply Ib; exact Hr|]. lia.
Qed.

Lemma free_blocks_of_spec s i b m : fs_ok s -> 0 <= i -> bgs s !! Z.to_nat i = Some b ->
  0 <= m <= first_free_block b ->
  first_free_block b <= group_size (info s) (aux_info s) i ->
  exists bm, free_blocks_of i m s = Ok (Some tt, set_bgs s (<[Z.to_nat i := freed b m bm]> (bgs s))) /\
    bg_ok (info s) (aux_info s) i (freed b m bm).
Proof.
  intros Hfs Hi Hb Hm Hgs. pose proof (fs_geometry _ Hfs) as G.
  pose proof (fs_bgs _ Hfs i b Hi Hb) as Hbg. pose proof Hbg as [F L B Fr Bi In Ib].
  pose proof (geo_group _ _ G). pose proof (geo_block_size _ _ G).
  pose proof (group_size_bound (info s) (aux_info s) i).
  destruct (clear_loop_spec (Z.to_nat m) (first_free_block b - 1) (bitmaps b) B)
    as (bm & E & Hs); [lia|lia|lia|].
  rewrite Z2Nat.id in Hs by lia.
  replace (first_free_block b - 1 + 1 - m) with (first_free_block b - m) in Hs by lia.
  exists bm. split; [|apply freed_ok; auto].
  unfold free_blocks_of, bind. rewrite (get_bg_eq s i b Hi Hb), E. cbn [obind].
  rewrite put_bg_eq by (apply (bgs_bound s i b Hi Hb)).
  rewrite !u32_id by lia. reflexivity.
Qed.

Lemma free_block_freed s i b m bm x : 0 <= i -> bgs s !! Z.to_nat i = Some b -> 0 <= m ->
  0 <= free_blocks b ->
  free_block (set_bgs s (<[Z.to_nat i := freed b m bm]> (bgs s))) x <->
  free_block s x \/ run_start b - m <= x < run_start b.
Proof.
  intros Hi Hb Hm Hf. pose proof (lookup_lt_Some _ _ _ Hb) as Hlt.
  assert (run_start (freed b m bm) = run_start b - m /\ free_blocks (freed b m bm) = free_blocks b + m)
    as (Hr & Hfr) by (unfold run_start; cbn; lia).
  split.
  - intros (j & c & Hj & Hc & Hx). cbn in Hc. destruct (decide (i = j)) as [<-|Hne].
    + rewrite list_lookup_insert_eq in Hc by exact Hlt. injection Hc as <-. rewrite Hr, Hfr in Hx.
      destruct (Z.lt_ge_cases x (run_start b)); [right; lia|]. left. exists i, b. repeat split; auto; lia.
    + rewrite list_lookup_insert_ne in Hc by lia. left. exists j, c. auto.
  - intros [(j & c & Hj & Hc & Hx)|Hx].
    + destruct (decide (i = j)) as [<-|Hne].
      * rewrite Hb in Hc. injection Hc as <-. exists i, (freed b m bm). split; [exact Hi|].
        split; [apply list_lookup_insert_eq; exact Hlt|]. rewrite Hr, Hfr. lia.
      * exists j, c. split; [exact Hj|]. split; [cbn; rewrite list_lookup_insert_ne by lia; exact Hc|exact Hx].
    + exists i, (freed b m bm). split; [exact Hi|].
      split; [apply list_lookup_insert_eq; exact Hlt|]. rewrite Hr, Hfr. lia.
Qed.

(** The last region of an allocation is the last one taken from its group. *)
Definition tail_region (s : fs) (r : region) : Prop :=
  0 <= r_bg r /\ 0 <= r_block r /\ 0 <= r_len r < 2 ^ 31 /\
  group_start (info s) (aux_info s) (r_bg r) <= r_block r /\
  r_block r + r_len r <= group_start (info s) (aux_info s) (r_bg r)
                         + group_size (info s) (aux_info s) (r_bg r) /\
  exists c, bgs s !! Z.to_nat (r_bg r) = Some c /\ run_start c = r_block r + r_len r.

(** The two ways a round of [reduce_allocation] ends the loop: the last region
    is longer than what is given back, or it is the only one and all of it is. *)
Lemma tail_region_free s r m : fs_ok s -> tail_region s r -> 0 <= m <= r_len r ->
  exists c bm, bgs s !! Z.to_nat (r_bg r) = Some c /\ run_start c = r_block r + r_len r /\
    free_blocks_of (r_bg r) m s =
      Ok (Some tt, set_bgs s (<[Z.to_nat (r_bg r) := freed c m bm]> (bgs s))) /\
    fs_ok (set_bgs s (<[Z.to_nat (r_bg r) := freed c m bm]> (bgs s))).
Proof.
  intros Hfs (Hg & Hb & Hl & H1 & H2 & c & Hc & Hr) Hm.
  pose proof (fs_bgs _ Hfs _ c Hg Hc) as [F _ _ _ _ _ _]. unfold run_start in Hr. rewrite F in Hr.
  destruct (free_blocks_of_spec s (r_bg r) c m Hfs Hg Hc) as (bm & E & Hok); [lia|lia|].
  exists c, bm. split; [exact Hc|]. split; [unfold run_start; rewrite F; lia|]. split; [exact E|].
  apply fs_ok_update; auto. apply (bgs_bound s _ c Hg Hc).
Qed.

Lemma reduce_allocation_part s alloc a r m : fs_ok s -> last (list_ alloc) = Some a ->
  heap s !! a = Some r -> tail_region s r -> 0 < m < r_len r ->
  exists c bm, bgs s !! Z.to_nat (r_bg r) = Some c /\ run_start c = r_block r + r_len r /\
  let s' := set_heap (set_bgs s (<[Z.to_nat (r_bg r) := freed c m bm]> (bgs s)))
              (<[a := mk_region (r_block r) (r_len r - m) (r_bg r) (r_next r) (r_prev r)]> (heap s)) in
  reduce_allocation alloc m s = Ok (Some alloc, s') /\ fs_ok s'.
Proof.
  intros Hfs Hla Ha Htr Hm.
  destruct (tail_region_free s r m Hfs Htr ltac:(lia)) as (c & bm & Hc & Hr & E & Hok).
  exists c, bm. split; [exact Hc|]. split; [exact Hr|]. split; [|destruct Hok as [G N B]; split; auto].
  unfold reduce_allocation, bind at 1, get_state. unfold list_fuel. cbn [reduce_loop].
  rewrite (proj2 (Z.eqb_neq m 0)) by lia. rewrite Hla. unfold bind, deref. rewrite Ha.
  rewrite (proj2 (Z.ltb_lt _ _)) by lia. rewrite E.
  rewrite (set_rlen_eq _ a r) by exact Ha.
  destruct Htr as (_ & _ & Hl & _). rewrite u32_id by lia. cbn [Z.eqb].
  destruct alloc as [l o]. reflexivity.
Qed.

Lemma reduce_allocation_all s alloc a r : fs_ok s -> last (list_ alloc) = Some a ->
  heap s !! a = Some r -> tail_region s r -> r_prev r = None -> 0 < r_len r ->
  exists c bm, bgs s !! Z.to_nat (r_bg r) = Some c /\ run_start c = r_block r + r_len r /\
  let s' := set_heap (set_bgs s (<[Z.to_nat (r_bg r) := freed c (r_len r) bm]> (bgs s)))
              (delete a (heap s)) in
  reduce_allocation alloc (r_len r) s = Ok (Some (mk_alloc empty_list (oob_list alloc)), s') /\ fs_ok s'.
Proof.
  intros Hfs Hla Ha Htr Hp Hm.
  destruct (tail_region_free s r (r_len r) Hfs Htr ltac:(lia)) as (c & bm & Hc & Hr & E & Hok).
  exists c, bm. split; [exact Hc|]. split; [exact Hr|]. split; [|destruct Hok as [G N B]; split; auto].
  unfold reduce_allocation, bind at 1, get_state. unfold list_fuel. cbn [reduce_loop].
  rewrite (proj2 (Z.eqb_neq (r_len r) 0)) by lia. rewrite Hla. unfold bind, deref. rewrite Ha.
  rewrite (proj2 (Z.ltb_ge _ _)) by lia. rewrite E, Hp. unfold free. cbn [ret heap set_bgs].
  rewrite Ha, Z.sub_diag. reflexivity.
Qed.

(** The region made by [allocate_blocks] at the head of its list satisfies the
    assumption of [reduce_allocation]. *)
Lemma new_chain_head s s' a l n : new_chain s s' a l n -> exists b m g nx k,
  l = (a, (b, m, g)) :: k /\ heap s' !! a = Some (mk_region b m g nx None) /\
  lseg (heap s') nx (Some a) k None /\ tail_region s' (mk_region b m g nx None) /\ 0 < m.
Proof.
  intros (Hl & Hal & Ht & Hh & Hhd & Hfr). destruct l as [|[a' [[b m] g]] k]; [discriminate|].
  destruct Hl as (E & nx & Ha & Hk). injection E as <-. exists b, m, g, nx, k.
  assert ((a, (b, m, g)) ∈ (a, (b, m, g)) :: k) as Hin by left.
  destruct (al_nodes _ _ _ Hal _ _ _ _ Hin) as (_ & Hm & Hb).
  destruct (al_inside _ _ _ Hal _ _ _ _ Hin) as (Hg & I1 & I2).
  destruct (al_runs _ _ _ Hal _ _ _ _ Hin) as (c & Hc & Hr).
  destruct (al_globals _ _ _ Hal) as (_ & Ei & Ea & _).
  split; [reflexivity|]. split; [exact Ha|]. split; [exact Hk|]. split; [|lia].
  unfold tail_region. cbn. rewrite Ei, Ea. repeat split; try lia. exists c. auto.
Qed.

(** ** Splitting off blocks for the tables *)

Lemma deref_eq s a r : heap s !! a = Some r -> deref (Some a) s = Ok (Some r, s).
Proof. intros E. unfold deref. rewrite E. reflexivity. Qed.

Lemma bind_eq {A B} (m : M A) (k : A -> M B) s a s1 : m s = Ok (Some a, s1) -> bind m k s = k a s1.
Proof. intros E. unfold bind. rewrite E. reflexivity. Qed.

(** The walk of a split stays at a region that is longer. *)
Lemma split_walk_stay s fuel a r k : heap s !! a = Some r -> k < r_len r ->
  split_walk (S fuel) (Some a) k s = Ok (Some (Some a, k), s).
Proof.
  intros Ha Hk. cbn [split_walk]. rewrite (bind_eq _ _ _ _ _ (deref_eq s a _ Ha)).
  rewrite (proj2 (Z.leb_gt _ k)) by exact Hk. reflexivity.
Qed.

(** A split inside the first region. *)
Lemma do_split_inside s f la pi o a b n g nx pv k : memory s -> heap s !! a = Some (mk_region b n g nx pv) ->
  heap s !! fresh s = None -> 0 < k < n -> 0 <= b -> b + n < 2 ^ 32 ->
  do_split_allocation (mk_alloc (mk_list f la (Some a) pi) o) k s =
    Ok (Some (Some a, mk_alloc (mk_list f la (Some (fresh s)) pi) o),
        set_heap (bump s)
          (<[a := mk_region b k g (Some (fresh s)) pv]>
             (<[fresh s := mk_region (b + k) (n - k) g nx (Some a)]> (heap s)))).
Proof.
  intros Hm Ha Hn Hk Hb Hw. assert (a <> fresh s) as Hne by congruence.
  unfold do_split_allocation. cbn [list_ iter first last partial_iter oob_list].
  unfold bind at 1, get_state. unfold list_fuel.
  rewrite (bind_eq _ _ _ _ _ (split_walk_stay s _ a _ k Ha (proj2 Hk))).
  rewrite (proj2 (Z.ltb_lt 0 k)) by lia.
  rewrite (bind_eq _ _ _ _ _ (deref_eq s a _ Ha)). cbn [r_block r_len r_bg r_next].
  rewrite (u32_id (b + k)), (u32_id (n - k)) by lia.
  rewrite (bind_eq _ _ _ _ _ (new_region_eq s _ Hm)). unfold bind.
  rewrite (set_next_eq _ a (mk_region b n g nx pv)) by (cbn; rewrite lookup_insert_ne by congruence; exact Ha).
  cbn [r_block r_len r_bg r_next r_prev heap set_heap].
  rewrite (set_rlen_eq _ a (mk_region b n g (Some (fresh s)) pv)) by (cbn; apply lookup_insert_eq).
  cbn [r_block r_len r_bg r_next r_prev heap set_heap ret]. rewrite insert_insert_eq. reflexivity.
Qed.

(** A split at the pointer itself does nothing. *)
Lemma do_split_nothing s f la pi o a r : heap s !! a = Some r -> 0 < r_len r ->
  do_split_allocation (mk_alloc (mk_list f la (Some a) pi) o) 0 s =
    Ok (Some (Some a, mk_alloc (mk_list f la (Some a) pi) o), s).
Proof.
  intros Ha Hr. unfold do_split_allocation. cbn [list_ iter first last partial_iter oob_list].
  unfold bind at 1, get_state. unfold list_fuel.
  rewrite (bind_eq _ _ _ _ _ (split_walk_stay s _ a _ 0 Ha Hr)). reflexivity.
Qed.

(** The state after [reserve_oob_blocks] has moved the first [k] blocks. *)
Definition oob_state (s : fs) (a b n g : Z) (nx : option Z) (k : Z) : fs :=
  set_heap (bump s)
    (<[a := mk_region b k g None None]>
       (<[fresh s := mk_region (b + k) (n - k) g nx None]> (heap s))).

(** [region_list_remove] of the head of a list. *)
Lemma remove_head s a q b k g bq nq gq nx rl : heap s !! a = Some (mk_region b k g (Some q) None) ->
  heap s !! q = Some (mk_region bq nq gq nx (Some a)) -> a <> q -> first rl = Some a ->
  region_list_remove rl (Some a) s =
    Ok (Some (mk_list (Some q) (if decide (last rl = Some a) then None else last rl) (iter rl) (partial_iter rl)),
        set_heap s (<[a := mk_region b k g None None]> (<[q := mk_region bq nq gq nx None]> (heap s)))).
Proof.
  intros Ha Hq Hne Hf. unfold region_list_remove.
  rewrite (bind_eq _ _ _ _ _ (deref_eq s a _ Ha)). cbn [r_prev].
  rewrite (bind_eq (ret tt) _ s tt s eq_refl).
  rewrite (bind_eq _ _ _ _ _ (deref_eq s a _ Ha)). cbn [r_prev r_next].
  rewrite (bind_eq _ _ _ _ _ (set_prev_eq s q _ None Hq)). cbn [r_block r_len r_bg r_next].
  set (s1 := set_heap s _).
  assert (heap s1 !! a = Some (mk_region b k g (Some q) None)) as Ha1
    by (cbn; rewrite lookup_insert_ne by congruence; exact Ha).
  rewrite (bind_eq _ _ _ _ _ (deref_eq s1 a _ Ha1)). cbn [r_prev r_next].
  rewrite Hf. destruct (decide (Some a = Some a)) as [_|]; [|congruence].
  unfold bind. rewrite (set_next_eq s1 a _ None Ha1). cbn [r_block r_len r_bg r_next r_prev].
  rewrite (set_prev_eq _ a (mk_region b k g None None)) by (cbn; apply lookup_insert_eq).
  cbn [r_block r_len r_bg r_next r_prev ret heap set_heap s1]. rewrite insert_insert_eq. reflexivity.
Qed.

Lemma append_empty s rl a b k g : heap s !! a = Some (mk_region b k g None None) -> first rl = None ->
  region_list_append rl (Some a) s = Ok (Some (mk_list (Some a) (Some a) (Some a) 0), s).
Proof.
  intros Ha Hf. unfold region_list_append. rewrite Hf. unfold bind.
  rewrite (set_prev_eq s a _ None Ha). cbn [r_block r_len r_bg r_next r_prev].
  rewrite insert_id by exact Ha.
  replace (set_heap s (heap s)) with s by (destruct s; reflexivity).
  rewrite (set_next_eq s a _ None Ha). cbn [r_block r_len r_bg r_next r_prev].
  rewrite insert_id by exact Ha. destruct s; reflexivity.
Qed.

Lemma reserve_oob_spec s la a b n g nx k : memory s -> heap s !! a = Some (mk_region b n g nx None) ->
  heap s !! fresh s = None -> 0 < k < n -> 0 <= b -> b + n < 2 ^ 32 ->
  reserve_oob_blocks (mk_alloc (mk_list (Some a) la (Some a) 0) empty_list) k s =
    Ok (Some (0, mk_alloc (mk_list (Some (fresh s)) (if decide (la = Some a) then None else la)
                             (Some (fresh s)) 0)
                   (mk_list (Some a) (Some a) (Some a) 0)),
        oob_state s a b n g nx k).
Proof.
  intros Hm Ha Hn Hk Hb Hw. assert (a <> fresh s) as Hne by congruence.
  unfold reserve_oob_blocks, split_allocation. rewrite (u32_id k) by lia.
  unfold bind at 1. cbn [list_ partial_iter].
  rewrite (bind_eq _ _ _ _ _ (do_split_nothing s (Some a) la 0 empty_list a _ Ha ltac:(cbn; lia))).
  rewrite (bind_eq _ _ _ _ _
    (do_split_inside s (Some a) la 0 empty_list a b n g nx None k Hm Ha Hn Hk Hb Hw)).
  cbn [ret list_ first last iter partial_iter oob_list]. set (s1 := set_heap (bump s) _).
  unfold bind at 1, get_state. unfold list_fuel.
  assert (heap s1 !! a = Some (mk_region b k g (Some (fresh s)) None)) as Ha1 by (cbn; apply lookup_insert_eq).
  assert (heap s1 !! fresh s = Some (mk_region (b + k) (n - k) g nx (Some a))) as Hf1
    by (cbn; rewrite lookup_insert_ne by congruence; apply lookup_insert_eq).
  assert (size (heap s1) <> 0%nat) as Hsz.
  { intros E. apply map_size_empty_iff in E. rewrite E, lookup_empty in Ha1. discriminate. }
  destruct (size (heap s1)) as [|m]; [congruence|].
  set (rl := mk_list (Some a) la (Some (fresh s)) 0).
  assert (move_oob (S (S m)) (mk_alloc rl empty_list) (Some a) s1 =
    Ok (Some (mk_alloc (mk_list (Some (fresh s)) (if decide (la = Some a) then None else la)
                          (Some (fresh s)) 0) (mk_list (Some a) (Some a) (Some a) 0)),
        oob_state s a b n g nx k)) as Emv;
    [|rewrite (bind_eq _ _ _ _ _ Emv); reflexivity].
  cbn [move_oob list_ iter rl]. destruct (decide (Some a = Some (fresh s))) as [E|_]; [congruence|].
  rewrite (bind_eq _ _ _ _ _ (deref_eq s1 a _ Ha1)). fold rl.
  rewrite (bind_eq _ _ _ _ _ (remove_head s1 a (fresh s) b k g _ _ _ _ rl Ha1 Hf1 Hne eq_refl)).
  cbn [oob_list]. set (s2 := set_heap s1 _).
  assert (heap s2 !! a = Some (mk_region b k g None None)) as Ha2 by (cbn; apply lookup_insert_eq).
  rewrite (bind_eq _ _ _ _ _ (append_empty s2 empty_list a b k g Ha2 eq_refl)).
  cbn [r_next list_ iter last partial_iter rl].
  destruct (decide (Some (fresh s) = Some (fresh s))) as [_|]; [|congruence].
  assert (s2 = oob_state s a b n g nx k) as <-; [|reflexivity].
  unfold oob_state, s2, s1, set_heap, bump. cbn. f_equal.
  apply map_eq. intros c. destruct (decide (c = a)) as [->|Hca].
  - rewrite !lookup_insert_eq. reflexivity.
  - rewrite !(lookup_insert_ne _ a c) by congruence.
    destruct (decide (c = fresh s)) as [->|Hcf]; [rewrite !lookup_insert_eq; reflexivity|].
    rewrite !lookup_insert_ne by congruence. reflexivity.
Qed.

(** ** Moving the pointer of an allocation *)

Lemma advance_inside s rl a r k : iter rl = Some a -> heap s !! a = Some r -> 0 < k ->
  0 <= partial_iter rl -> partial_iter rl + k < r_len r -> r_len r < 2 ^ 32 ->
  advance_list_ptr rl k s =
    Ok (Some (0, mk_list (first rl) (last rl) (iter rl) (partial_iter rl + k)), s).
Proof.
  intros Hi Ha Hk Hp Hlt Hw. unfold advance_list_ptr, bind at 1, get_state. unfold list_fuel.
  rewrite Hi. cbn [advance_loop]. rewrite (proj2 (Z.ltb_lt 0 k)) by lia.
  unfold bind. rewrite (deref_eq s a r Ha). rewrite u32_id by lia.
  rewrite (proj2 (Z.ltb_lt _ _)) by lia. unfold ret. rewrite Hi. reflexivity.
Qed.

(** At the end of a region the loop moves on to the next one, but the pointer
    of the list stays and the offset is cleared. *)
Lemma advance_region_end s rl a r : iter rl = Some a -> heap s !! a = Some r ->
  0 <= partial_iter rl < r_len r -> r_len r < 2 ^ 31 ->
  advance_list_ptr rl (r_len r - partial_iter rl) s =
    Ok (Some (0, mk_list (first rl) (last rl) (iter rl) 0), s).
Proof.
  intros Hi Ha Hp Hw. unfold advance_list_ptr, bind at 1, get_state. unfold list_fuel.
  assert (size (heap s) <> 0%nat) as Hsz.
  { intros E. apply map_size_empty_iff in E. rewrite E, lookup_empty in Ha. discriminate. }
  destruct (size (heap s)) as [|m]; [congruence|].
  rewrite Hi. cbn [advance_loop]. rewrite (proj2 (Z.ltb_lt 0 _)) by lia.
  rewrite (bind_eq _ _ _ _ _ (deref_eq s a r Ha)).
  rewrite (u32_id (partial_iter rl + _)) by lia. rewrite (proj2 (Z.ltb_ge _ _)) by lia.
  replace (s32 _) with 0 by (rewrite (u32_id (r_len r - partial_iter rl)), Z.sub_diag by lia; reflexivity).
  destruct (r_next r); cbn; unfold ret; rewrite Hi; reflexivity.
Qed.


(** ** Inodes *)

(** [bm[bit / 8] |= 1 << (bit % 8)] sets the bit whatever it was. *)
Lemma set_bit_always bm n b : bytes_ok bm -> 0 <= n -> bm !! Z.to_nat (n / 8) = Some b ->
  set_range true bm n 1 (<[Z.to_nat (n / 8) := Z.lor b (Z.shiftl 1 (n mod 8))]> bm).
Proof.
  intros Hok Hn Hb. pose proof (Z.mod_pos_bound n 8 ltac:(lia)). pose proof (Z.div_mod n 8 ltac:(lia)).
  pose proof (bytes_lookup _ _ _ Hok Hb). assert (0 <= n / 8) by (apply Z.div_pos; lia).
  apply (set_range_insert true bm n 1 _ b); [exact Hok|exact Hb| |lia| |lia|lia].
  - apply byte_of_bits; [apply Z.lor_nonneg; split; [lia|]; apply Z.shiftl_nonneg; lia|].
    intros k Hk. rewrite Z.lor_spec, testbit_shift1, byte_testbit_high by lia.
    apply Z.eqb_neq. lia.
  - intros k Hk. rewrite Z.lor_spec, testbit_shift1 by lia. rewrite Z2Nat.id by lia.
    unfold in_range. rewrite orb_comm.
    destruct (Z.eqb_spec k (n mod 8)), (Z.leb_spec n (8 * (n / 8) + k)),
      (Z.ltb_spec (8 * (n / 8) + k) (n + 1)); cbn [andb orb]; try reflexivity; lia.
Qed.

Lemma set_inode_bits_spec off n : forall inode bm, bytes_ok bm -> 0 <= off -> 0 <= inode ->
  8 * off + inode + Z.of_nat n <= 8 * zlen bm -> inode + Z.of_nat n < 2 ^ 32 ->
  exists bm', set_inode_bits n off inode bm = Ok bm' /\
    set_range true bm (8 * off + inode) (Z.of_nat n) bm'.
Proof.
  induction n as [|n IH]; intros inode bm Hok Ho Hi Hle Hw; cbn [set_inode_bits].
  - exists bm. split; [reflexivity|]. apply set_range_refl. exact Hok.
  - assert ((8 * off + inode) / 8 = off + inode / 8) as Ed
      by (rewrite Z.mul_comm, Z.div_add_l by lia; reflexivity).
    assert ((8 * off + inode) mod 8 = inode mod 8) as Em
      by (rewrite Z.mul_comm, Z.add_comm, Z.mod_add by lia; reflexivity).
    destruct (bitmap_lookup bm (8 * off + inode) ltac:(lia)) as (b & Hb & _). rewrite Ed in Hb.
    rewrite Hb. cbn [oof obind]. rewrite u32_id by lia.
    pose proof (set_bit_always bm (8 * off + inode) b Hok ltac:(lia)) as Hs.
    rewrite Ed, Em in Hs. specialize (Hs Hb). set (bm1 := <[_ := _]> bm) in *.
    pose proof Hs as (L1 & B1 & _).
    destruct (IH (inode + 1) bm1) as (bm' & -> & Hs'); [exact B1|lia|lia|lia|lia|].
    exists bm'. split; [reflexivity|]. replace (Z.of_nat (S n)) with (1 + Z.of_nat n) by lia.
    apply (set_range_trans true bm _ 1 bm1); [lia|lia|exact Hs|].
    replace (8 * off + inode + 1) with (8 * off + (inode + 1)) by lia. exact Hs'.
Qed.

Definition inodes_taken (b : block_group_info) (n : Z) (bm : list Z) : block_group_info :=
  set_inodes (set_bitmaps b bm) (free_inodes b - n) (first_free_inode b + n).

Lemma reserve_inodes_spec s i b n : fs_ok s -> 0 <= i -> bgs s !! Z.to_nat i = Some b ->
  0 <= n <= free_inodes b ->
  exists bm, reserve_inodes i n s =
      Ok (Some (first_free_inode b), set_bgs s (<[Z.to_nat i := inodes_taken b n bm]> (bgs s))) /\
    bg_ok (info s) (aux_info s) i (inodes_taken b n bm).
Proof.
  intros Hfs Hi Hb Hn. pose proof (fs_geometry _ Hfs) as G.
  pose proof (fs_bgs _ Hfs i b Hi Hb) as [F L B Fr Bi In Ib].
  pose proof (geo_block_size _ _ G). pose proof (geo_inodes _ _ G). pose proof (geo_group _ _ G).
  destruct (set_inode_bits_spec (block_size (info s)) (Z.to_nat n) (first_free_inode b - 1) (bitmaps b) B)
    as (bm & E & Hs); [lia|lia|lia|lia|].
  rewrite Z2Nat.id in Hs by lia. pose proof Hs as (L' & B' & S').
  exists bm. split.
  - unfold reserve_inodes, get_free_inodes, bind, get_state.
    rewrite !(get_bg_eq s i b Hi Hb). cbn [ret]. rewrite (proj2 (Z.ltb_ge _ _)) by lia.
    rewrite (get_bg_eq s i b Hi Hb). rewrite (u32_id (first_free_inode b - 1)) by lia. rewrite E. cbn [obind].
    rewrite put_bg_eq by (apply (bgs_bound s i b Hi Hb)). rewrite !u32_id by lia. reflexivity.
  - split; cbn; [exact F|lia|exact B'|exact Fr| |lia|].
    + intros k Hk. rewrite S' by lia. rewrite (proj2 (in_range_false _ _ _)) by lia. apply Bi. exact Hk.
    + intros k Hk. rewrite S', Ib by lia.
      destruct (in_range (8 * block_size (info s) + (first_free_inode b - 1)) n
                  (8 * block_size (info s) + k)) eqn:E1;
        rewrite ?in_range_true, ?in_range_false in E1; symmetry.
      * apply Z.ltb_lt. lia.
      * destruct (Z.ltb_spec k (first_free_inode b - 1)); [apply Z.ltb_lt|apply Z.ltb_ge]; lia.
Qed.

Lemma reserve_inodes_none s i b n : 0 <= i -> bgs s !! Z.to_nat i = Some b -> free_inodes b < n ->
  reserve_inodes i n s = Ok (Some EXT4_ALLOCATE_FAILED, s).
Proof.
  intros Hi Hb Hn. unfold reserve_inodes, get_free_inodes, bind. rewrite (get_bg_eq s i b Hi Hb).
  cbn [ret]. rewrite (proj2 (Z.ltb_lt _ _)) by exact Hn. reflexivity.
Qed.

(** The number of the first free inode of a group, counted over all groups. *)
Definition inode_start (s : fs) (i : Z) (b : block_group_info) : Z :=
  i * inodes_per_group (info s) + first_free_inode b.

Definition free_inode (s : fs) (x : Z) : Prop :=
  exists i b, 0 <= i /\ bgs s !! Z.to_nat i = Some b /\
    inode_start s i b <= x < inode_start s i b + free_inodes b.

Lemma allocate_inode_loop_some s i b : fs_ok s -> groups (aux_info s) * inodes_per_group (info s) < 2 ^ 32 - 1 ->
  forall m k, 0 <= k -> k + Z.of_nat m = zlen (bgs s) ->
  first_group s k (fun b => 1 <=? free_inodes b) i b ->
  exists bm, allocate_inode_loop (seqZ k (Z.of_nat m)) s =
      Ok (Some (inode_start s i b), set_bgs s (<[Z.to_nat i := inodes_taken b 1 bm]> (bgs s))) /\
    bg_ok (info s) (aux_info s) i (inodes_taken b 1 bm).
Proof.
  intros Hfs Htot. induction m as [|m IH]; intros k Hk Hlen (Hi & Hb & Ht & Hall).
  - apply lookup_lt_Some in Hb. unfold zlen in Hlen. lia.
  - rewrite seqZ_cons by lia. cbn [allocate_inode_loop].
    replace (Z.pred (Z.of_nat (S m))) with (Z.of_nat m) by lia.
    rewrite (bind_eq get_state _ s s s eq_refl). apply Z.leb_le in Ht.
    destruct (decide (i = k)) as [->|Hne].
    + destruct (reserve_inodes_spec s k b 1 Hfs Hk Hb ltac:(lia)) as (bm & E & Hok).
      exists bm. split; [|exact Hok]. rewrite (bind_eq _ _ _ _ _ E).
      destruct (fs_bgs _ Hfs k b Hk Hb) as [_ _ _ _ _ In _].
      pose proof (bgs_bound s k b Hk Hb) as Hbd. rewrite (fs_groups _ Hfs) in Hbd.
      pose proof (geo_inodes _ _ (fs_geometry _ Hfs)).
      assert ((k + 1) * inodes_per_group (info s) <= groups (aux_info s) * inodes_per_group (info s))
        by (apply Z.mul_le_mono_nonneg_r; lia).
      assert (0 <= k * inodes_per_group (info s)) by (apply Z.mul_nonneg_nonneg; lia).
      rewrite (proj2 (Z.eqb_neq _ _)) by (unfold EXT4_ALLOCATE_FAILED; lia). cbn [negb].
      rewrite u32_id by lia. reflexivity.
    + destruct (lookup_lt_is_Some_2 (bgs s) (Z.to_nat k)) as [c Hc]; [unfold zlen in Hlen; lia|].
      assert (free_inodes c < 1) as Hf by (apply Z.leb_gt; apply (Hall k); auto; lia).
      rewrite (bind_eq _ _ _ _ _ (reserve_inodes_none s k c 1 Hk Hc Hf)).
      rewrite Z.eqb_refl. cbn [negb]. apply IH; [lia|lia|].
      split; [lia|]. split; [exact Hb|]. split; [apply Z.leb_le; exact Ht|].
      intros j d Hj. apply Hall. lia.
Qed.

Lemma allocate_inode_loop_none s : forall m k, 0 <= k -> k + Z.of_nat m = zlen (bgs s) ->
  no_group s k (fun b => 1 <=? free_inodes b) ->
  allocate_inode_loop (seqZ k (Z.of_nat m)) s = Ok (Some EXT4_ALLOCATE_FAILED, s).
Proof.
  induction m as [|m IH]; intros k Hk Hlen Hno; [reflexivity|].
  rewrite seqZ_cons by lia. cbn [allocate_inode_loop].
  replace (Z.pred (Z.of_nat (S m))) with (Z.of_nat m) by lia.
  rewrite (bind_eq get_state _ s s s eq_refl).
  destruct (lookup_lt_is_Some_2 (bgs s) (Z.to_nat k)) as [c Hc]; [unfold zlen in Hlen; lia|].
  assert (free_inodes c < 1) as Hf by (apply Z.leb_gt; apply (Hno k); auto; lia).
  rewrite (bind_eq _ _ _ _ _ (reserve_inodes_none s k c 1 Hk Hc Hf)).
  rewrite Z.eqb_refl. cbn [negb]. apply IH; [lia|lia|]. intros j d Hj. apply Hno. lia.
Qed.


(** ** Theorems *)

(** C24: the allocator starts with exactly the blocks behind the headers free:
    for every geometry the code derives, [block_allocator_init] returns, each
    group has its header and the blocks past the end of the device marked, its
    counters agree with its bitmap, and its two bitmaps are queued at the block
    its descriptor will name. *)
Theorem block_allocator_init_correct s :
  geometry_ok (info s) (aux_info s) -> memory s -> new_image s ->
  exists s', block_allocator_init s = Ok (Some tt, s') /\ fs_ok s' /\ same_globals s s' /\
    heap s' = heap s /\
    (forall x, free_block s' x <->
       exists i super, 0 <= i < groups (aux_info s) /\ ext4_bg_has_super_block (info s) i = Ok super /\
         header_size (info s) (aux_info s) super <= x - group_start (info s) (aux_info s) i
           < group_size (info s) (aux_info s) i) /\
    (forall i, 0 <= i < groups (aux_info s) -> exists b p,
       bgs s' !! Z.to_nat i = Some b /\ data_blocks_used b = 0 /\ first_free_inode b = 1 /\
       queued s' !! Z.to_nat i = Some (bitmap_block s i b p)).
Proof.
  intros G Hm Hnew. destruct (block_allocator_init_spec s G Hm Hnew) as (s' & E & Hu).
  exists s'. split; [exact E|]. pose proof (init_upto_ok s s' G Hu) as Hfs.
  destruct Hu as [Gl Hh Hn Hq Hd Hf]. split; [exact Hfs|]. split; [exact Gl|]. split; [exact Hh|]. split.
  - intros x. split.
    + intros (i & b & Hi & Hb & Hx). pose proof (bgs_bound s' i b Hi Hb) as Hbd.
      destruct (Hf i ltac:(lia)) as (b' & super & p & Hb' & Hs & (Ok' & _ & _ & _ & _ & _ & Fr & Ff) & _).
      rewrite Hb in Hb'. injection Hb' as <-. exists i, super. split; [lia|]. split; [exact Hs|].
      unfold run_start in Hx. rewrite (bg_first _ _ _ _ Ok'), Ff in Hx by lia. lia.
    + intros (i & super & Hi & Hs & Hx).
      destruct (Hf i Hi) as (b & super' & p & Hb & Hs' & (Ok' & _ & _ & _ & _ & _ & Fr & Ff) & _).
      rewrite Hs in Hs'. injection Hs' as <-. exists i, b. split; [lia|]. split; [exact Hb|].
      unfold run_start. rewrite (bg_first _ _ _ _ Ok'), Ff by lia. lia.
  - intros i Hi. destruct (Hf i Hi) as (b & super & p & Hb & Hs & (_ & U & _ & _ & _ & N & _) & Hqd).
    exists b, p. auto.
Qed.

(** Three groups of 64 blocks of 8 bytes, the last one cut short. *)
Definition demo_info : fs_info := mk_info 1200 8 64 16 8 48 0 1 0 0 1 None 0.
Definition demo_aux : fs_aux_info := mk_aux 0 150 16 3 1 0 0 0 0.
Definition demo (inf : fs_info) (aux : fs_aux_info) : fs :=
  mk_fs false inf aux [] ∅ 1 (fun _ => true)
    (SparseFile.mk_sparse_file (block_size inf) (len inf) false
       (BackedBlock.backed_block_list_new (block_size inf))) ∅ ∅.
Definition after_init (s : fs) : fs :=
  match block_allocator_init s with Ok (_, s') => s' | _ => s end.
Definition demo_fs : fs := after_init (demo demo_info demo_aux).

Lemma demo_geometry : geometry_ok demo_info demo_aux.
Proof.
  split; unfold group_start; cbn -[ext4_bg_has_super_block]; try lia.
  intros i super Hi Hs. assert (i = 0 \/ i = 1 \/ i = 2) as [->|[->| ->]] by lia;
    vm_compute in Hs; injection Hs as <-; vm_compute; congruence.
Qed.

(** A concrete start. *)
Lemma block_allocator_init_correct_witness :
  exists s', block_allocator_init (demo demo_info demo_aux) = Ok (Some tt, s') /\ fs_ok s' /\
    free_block s' 21 /\ ~ free_block s' 20 /\ free_block s' 149 /\ ~ free_block s' 150.
Proof.
  destruct (block_allocator_init_correct (demo demo_info demo_aux) demo_geometry (fun _ => eq_refl) eq_refl)
    as (s' & E & Hok & _ & _ & Hf & _).
  exists s'. split; [exact E|]. split; [exact Hok|].
  split; [apply Hf; exists 0, true; vm_compute; intuition congruence|].
  split.
  { intros H. apply Hf in H as (i & super & Hi & Hs & Hx). cbn in Hi.
    assert (i = 0 \/ i = 1 \/ i = 2) as [->|[->| ->]] by lia; vm_compute in Hs; injection Hs as <-;
      vm_compute in Hx; intuition congruence. }
  split; [apply Hf; exists 2, false; vm_compute; intuition congruence|].
  intros H. apply Hf in H as (i & super & Hi & Hs & Hx). cbn in Hi.
  assert (i = 0 \/ i = 1 \/ i = 2) as [->|[->| ->]] by lia; vm_compute in Hs; injection Hs as <-;
    vm_compute in Hx; intuition congruence.
Defined.

Lemma after_init_spec inf aux : geometry_ok inf aux ->
  let s' := after_init (demo inf aux) in
  block_allocator_init (demo inf aux) = Ok (Some tt, s') /\ fs_ok s' /\ memory s' /\ heap_fresh s'.
Proof.
  intros G. destruct (block_allocator_init_spec (demo inf aux) G (fun _ => eq_refl) eq_refl) as (s' & E & Hu).
  unfold after_init. rewrite E. cbv zeta. split; [reflexivity|].
  split; [exact (init_upto_ok (demo inf aux) s' G Hu)|].
  destruct Hu as [(_ & _ & _ & Ev) Hh _ _ _ _]. split.
  - intros n. rewrite Ev. reflexivity.
  - intros a _. rewrite Hh. apply lookup_empty.
Qed.

Lemma unused_free_test s :
  forallb (fun b => negb (unused b) || (0 <? free_blocks b)) (bgs s) = true -> unused_free s.
Proof.
  intros H i b Hb Hu. rewrite forallb_forall in H. specialize (H b).
  rewrite Hu in H. cbn in H. apply Z.ltb_lt, H. apply list_elem_of_In.
  eapply list_elem_of_lookup_2. exact Hb.
Qed.

Lemma demo_fs_ok : fs_ok demo_fs /\ memory demo_fs /\ heap_fresh demo_fs /\ unused_free demo_fs.
Proof.
  destruct (after_init_spec demo_info demo_aux demo_geometry) as (_ & Hfs & Hm & Hhf).
  split; [exact Hfs|]. split; [exact Hm|]. split; [exact Hhf|].
  apply unused_free_test. vm_compute. reflexivity.
Qed.

(** C17: [allocate_blocks] returns blocks that were free, or NULL. Let every group without data have a free block (otherwise
    the search need not end, see [allocation_never_ends]) and let there be memory for the nodes. When one group has room,
    or the groups without data have it together, the result is a list of regions of [n] different blocks that were free
    and are marked now, with every other block as before; it returns NULL only when there is no such room; and the
    search always ends. *)
Theorem allocate_blocks_correct s n :
  fs_ok s -> memory s -> heap_fresh s -> unused_free s -> 0 < n < 2 ^ 32 ->
  if can_hold s n
  then exists a s' l,
    allocate_blocks n s =
      Ok (Some (Some (mk_alloc (mk_list (Some a) (Some a) (Some a) 0) empty_list)), s') /\
    lseg (heap s') (Some a) None l None /\ zlen (blocks_of l) = n /\ NoDup (blocks_of l) /\
    (forall x, x ∈ blocks_of l -> free_block s x) /\
    (forall x, free_block s' x <-> free_block s x /\ x ∉ blocks_of l) /\
    fs_ok s' /\ same_globals s s' /\ (forall c, c ∉ addrs l -> heap s' !! c = heap s !! c)
  else exists s', allocate_blocks n s = Ok (Some None, s') /\ fs_ok s'.
Proof.
  intros Hfs Hm Hhf Huf Hn. pose proof (allocate_blocks_spec s n Hfs Hm Hhf Huf Hn) as Hr.
  destruct (can_hold s n).
  - destruct Hr as (a & s' & l & E & Hl & Hal & Ht & Hh & Hhd & Hfr). exists a, s', l.
    split; [exact E|]. split; [exact Hl|]. split; [rewrite <- Ht; apply (blocks_of_len s s' l Hal)|].
    destruct Hal as [O G S H N W F D I X R U]. auto 10.
  - destruct Hr as (s' & l & E & Hal). exists s'. split; [exact E|apply Hal].
Qed.

(** 80 blocks in two groups, and a request that is too large. *)
Lemma allocate_blocks_correct_witness :
  (exists a s' l, allocate_blocks 80 demo_fs =
      Ok (Some (Some (mk_alloc (mk_list (Some a) (Some a) (Some a) 0) empty_list)), s') /\
    zlen (blocks_of l) = 80 /\ fs_ok s') /\
  exists s', allocate_blocks 180 demo_fs = Ok (Some None, s') /\ fs_ok s'.
Proof.
  destruct demo_fs_ok as (Hfs & Hm & Hhf & Huf).
  split.
  - pose proof (allocate_blocks_correct demo_fs 80 Hfs Hm Hhf Huf ltac:(lia)) as H.
    replace (can_hold demo_fs 80) with true in H by (vm_compute; reflexivity).
    destruct H as (a & s' & l & E & _ & Hz & _ & _ & _ & Hok & _). exists a, s', l. auto.
  - pose proof (allocate_blocks_correct demo_fs 180 Hfs Hm Hhf Huf ltac:(lia)) as H.
    replace (can_hold demo_fs 180) with false in H by (vm_compute; reflexivity). exact H.
Defined.


(** The search for several regions does not end when the first group
    without data has no free block either (its header fills it): every round
    takes a region of no blocks from it. [ext4_create_fs_aux_info] keeps such a
    group as the last one of a device. *)
Theorem allocation_never_ends s n i b :
  fs_ok s -> memory s -> heap_fresh s -> first_group s 0 unused i b -> free_blocks b = 0 ->
  0 < n < 2 ^ 32 ->
  forall fuel, ext4_allocate_multiple_contiguous_blocks fuel n s = NoFuel.
Proof.
  intros Hfs Hm Hhf Hfg Hz Hn fuel.
  apply (multiple_loop_stuck fuel s [] None None n i b); auto. split; reflexivity.
Qed.

(** A device that ends with the header of its only group. *)
Definition full_aux : fs_aux_info := mk_aux 0 21 16 1 1 0 0 0 0.
Definition full_fs : fs := after_init (demo demo_info full_aux).

Lemma full_geometry : geometry_ok demo_info full_aux.
Proof.
  split; unfold group_start; cbn -[ext4_bg_has_super_block]; try lia.
  intros i super Hi Hs. assert (i = 0) as -> by lia.
  vm_compute in Hs; injection Hs as <-; vm_compute; congruence.
Qed.

Lemma full_fs_ok : fs_ok full_fs /\ memory full_fs /\ heap_fresh full_fs.
Proof. exact (proj2 (after_init_spec demo_info full_aux full_geometry)). Qed.

Lemma full_group : exists b, first_group full_fs 0 unused 0 b /\ free_blocks b = 0.
Proof.
  destruct (bgs full_fs !! 0%nat) as [b|] eqn:E; [|vm_compute in E; discriminate].
  exists b. vm_compute in E. injection E as E. split; [|rewrite <- E; reflexivity].
  split; [lia|]. split; [vm_compute; rewrite <- E; reflexivity|].
  split; [rewrite <- E; reflexivity|]. intros; lia.
Qed.

(** That device, asked for one block. *)
Lemma allocation_never_ends_witness :
  allocate_blocks 1 full_fs = NoFuel /\
  forall fuel, ext4_allocate_multiple_contiguous_blocks fuel 1 full_fs = NoFuel.
Proof.
  split; [vm_compute; reflexivity|].
  destruct full_fs_ok as (Hfs & Hm & Hhf). destruct full_group as (b & Hfg & Hz).
  exact (allocation_never_ends full_fs 1 0 b Hfs Hm Hhf Hfg Hz ltac:(lia)).
Defined.

(** [get_block] and [get_oob_block] number the blocks of an allocation from
    its pointer on: block [k] is the [k]-th block of the regions in order, and
    EXT4_ALLOCATE_FAILED past their end. *)
Theorem get_block_correct s alloc l k :
  fseg (heap s) (iter (list_ alloc)) l None -> nodes_ok l ->
  0 <= k -> 0 <= partial_iter (list_ alloc) -> k + partial_iter (list_ alloc) < 2 ^ 32 ->
  get_block alloc k s =
    Ok (Some (default EXT4_ALLOCATE_FAILED
                (blocks_of l !! Z.to_nat (k + partial_iter (list_ alloc)))), s).
Proof. apply get_list_block_spec. Qed.

(** Two regions in the heap, of 5 and of 3 blocks. *)
Definition two_regions : fs :=
  mk_fs false demo_info demo_aux []
    {[ 8 := mk_region 21 5 0 (Some 9) None; 9 := mk_region 85 3 1 None (Some 8) ]} 10
    (fun _ => true) (sparse_file (demo demo_info demo_aux)) ∅ ∅.
Definition two_alloc (partial : Z) : block_allocation :=
  mk_alloc (mk_list (Some 8) (Some 8) (Some 8) partial) empty_list.

Lemma two_regions_seg : fseg (heap two_regions) (Some 8) [(8, (21, 5, 0)); (9, (85, 3, 1))] None.
Proof.
  split; [reflexivity|]. exists (Some 9), None. split; [reflexivity|].
  split; [reflexivity|]. exists None, (Some 8). split; reflexivity.
Qed.

(** The sixth block behind an offset of one. *)
Lemma get_block_correct_witness : get_block (two_alloc 1) 5 two_regions = Ok (Some 86, two_regions).
Proof.
  apply (get_block_correct two_regions (two_alloc 1) [(8, (21, 5, 0)); (9, (85, 3, 1))] 5);
    [exact two_regions_seg| |lia|cbn; lia|cbn; lia].
  intros a b n g H. apply elem_of_cons in H as [[= -> -> -> ->]|H]; [lia|].
  apply list_elem_of_singleton in H as [= -> -> -> ->]. lia.
Defined.

(** [reduce_allocation] gives the last blocks of an allocation back: where
    the last region is the last one taken from its group, as its comment
    requires, the region is shortened by [m] blocks and exactly these become
    free. *)
Theorem reduce_allocation_correct s alloc a r m :
  fs_ok s -> last (list_ alloc) = Some a -> heap s !! a = Some r -> tail_region s r ->
  0 < m < r_len r ->
  exists s', reduce_allocation alloc m s = Ok (Some alloc, s') /\ fs_ok s' /\
    heap s' = <[a := mk_region (r_block r) (r_len r - m) (r_bg r) (r_next r) (r_prev r)]> (heap s) /\
    forall x, free_block s' x <->
      free_block s x \/ r_block r + r_len r - m <= x < r_block r + r_len r.
Proof.
  intros Hfs Hla Ha Htr Hm.
  destruct (reduce_allocation_part s alloc a r m Hfs Hla Ha Htr Hm) as (c & bm & Hc & Hr & E & Hok).
  eexists. split; [exact E|]. split; [exact Hok|]. split; [reflexivity|].
  destruct Htr as (Hg & _). destruct (fs_bgs _ Hfs _ c Hg Hc) as [_ _ _ Fr _ _ _].
  intros x. pose proof (free_block_freed s (r_bg r) c m bm x Hg Hc ltac:(lia) ltac:(lia)) as Hf.
  rewrite Hr in Hf. exact Hf.
Qed.

(** 80 blocks allocated, one given back. *)
Lemma reduce_allocation_correct_witness :
  exists a s1 s2, allocate_blocks 80 demo_fs =
      Ok (Some (Some (mk_alloc (mk_list (Some a) (Some a) (Some a) 0) empty_list)), s1) /\
    reduce_allocation (mk_alloc (mk_list (Some a) (Some a) (Some a) 0) empty_list) 1 s1 =
      Ok (Some (mk_alloc (mk_list (Some a) (Some a) (Some a) 0) empty_list), s2) /\ fs_ok s2.
Proof.
  destruct demo_fs_ok as (Hfs & Hm & Hhf & Huf).
  pose proof (allocate_blocks_spec demo_fs 80 Hfs Hm Hhf Huf ltac:(lia)) as H.
  replace (can_hold demo_fs 80) with true in H by (vm_compute; reflexivity).
  destruct H as (a & s1 & l & E & Hc).
  destruct (new_chain_head _ _ _ _ _ Hc) as (b & m & g & nx & k & _ & Ha & _ & Htr & _).
  assert (heap s1 !! a = Some (mk_region 21 43 0 (Some 54) None)) as Ha'.
  { vm_compute in E. injection E as Ea _ _ Es. subst a s1. reflexivity. }
  rewrite Ha' in Ha. injection Ha as <- <- <- <-.
  destruct Hc as (_ & Hal & _).
  destruct (reduce_allocation_correct s1 (mk_alloc (mk_list (Some a) (Some a) (Some a) 0) empty_list)
    a _ 1 (al_ok _ _ _ Hal) eq_refl Ha' Htr ltac:(cbn; lia)) as (s2 & E2 & Hok & _).
  exists a, s1, s2. auto.
Defined.


(** [reserve_blocks] marks a range of a group exactly once: with enough free
    blocks it returns 0 when no block of the range is in use and then sets
    their bits, no others, and takes them off the counter; otherwise it leaves
    by [longjmp] (or returns -1 when [force] is set), and it returns -1 with
    nothing changed when the counter is too small. *)
Theorem reserve_blocks_correct s i b start num :
  0 <= i -> bgs s !! Z.to_nat i = Some b -> bytes_ok (bitmaps b) -> zlen (bitmaps b) < 2 ^ 27 ->
  0 <= start -> 0 <= num -> free_blocks b < 2 ^ 32 -> start + num <= 8 * zlen (bitmaps b) ->
  (free_blocks b < num -> reserve_blocks i start num s = Ok (Some (-1), s)) /\
  (num <= free_blocks b -> clear_range (bitmaps b) start num ->
     exists bm, set_range true (bitmaps b) start num bm /\
       reserve_blocks i start num s =
         Ok (Some 0, set_bgs s (<[Z.to_nat i := reserved b start num bm]> (bgs s)))) /\
  (num <= free_blocks b -> ~ clear_range (bitmaps b) start num ->
     exists s', reserve_blocks i start num s = Ok (if force s then Some (-1) else None, s')).
Proof.
  intros Hi Hb Hok Hz Hs Hn Hf Hle. split; [apply reserve_blocks_full; auto|].
  assert (num <= free_blocks b -> _) as H
    by (intros Hnf; exact (reserve_blocks_spec s i b start num Hi Hb Hok Hz Hs (conj Hn Hnf) Hf Hle)).
  split; intros Hnf Hc; destruct (H Hnf) as (ok & bm & Hiff & _ & _ & T & E).
  - assert (ok = true) as -> by (apply Hiff; exact Hc). exists bm. auto.
  - destruct ok; [exfalso; apply Hc, Hiff; reflexivity|]. eexists. exact E.
Qed.

(** Ten blocks of the last group of the example. *)
Lemma reserve_blocks_correct_witness :
  (exists s', reserve_blocks 0 30 10 demo_fs = Ok (Some 0, s')) /\
  (exists s', reserve_blocks 0 20 10 demo_fs = Ok (None, s')) /\
  reserve_blocks 2 30 10 demo_fs = Ok (Some (-1), demo_fs).
Proof.
  destruct (bgs demo_fs !! 0%nat) as [b|] eqn:E; [|vm_compute in E; discriminate].
  destruct (bgs demo_fs !! 2%nat) as [c|] eqn:Ec; [|vm_compute in Ec; discriminate].
  assert (b = mk_bg 0 21 0 true 2 [255; 255; 31; 0; 0; 0; 0; 0; 0; 0; 0; 0; 0; 0; 0; 0] None 43 21 16 1 0)
    as Eb by (vm_compute in E; injection E as <-; reflexivity).
  assert (c = mk_bg 128 18 0 false 36
    [255; 255; 195; 255; 255; 255; 255; 255; 0; 0; 0; 0; 0; 0; 0; 0] None 4 18 16 1 0)
    as Ec' by (vm_compute in Ec; injection Ec as <-; reflexivity).
  assert (bytes_ok (bitmaps b) /\ bytes_ok (bitmaps c)) as (Bb & Bc) by (subst; split; bytes_tac).
  split; [|split].
  - destruct (reserve_blocks_correct demo_fs 0 b 30 10) as (_ & H & _);
      [lia|exact E|exact Bb|subst; vm_compute; reflexivity|lia|lia|subst; cbn; lia|subst; vm_compute; congruence|].
    destruct H as (bm & _ & H); [subst; cbn; lia| |eexists; exact H].
    intros m Hm. assert (forallb (fun m => negb (bit (bitmaps b) m)) (seqZ 30 10) = true) as Hall
      by (rewrite Eb; reflexivity).
    rewrite forallb_forall in Hall. apply negb_true_iff, Hall, list_elem_of_In, elem_of_seqZ. exact Hm.
  - destruct (reserve_blocks_correct demo_fs 0 b 20 10) as (_ & _ & H);
      [lia|exact E|exact Bb|subst; vm_compute; reflexivity|lia|lia|subst; cbn; lia|subst; vm_compute; congruence|].
    apply H; [subst; cbn; lia|]. intros Hc. specialize (Hc 20 ltac:(lia)). subst. discriminate.
  - apply (reserve_blocks_correct demo_fs 2 c 30 10);
      [lia|exact Ec|exact Bc|subst; vm_compute; reflexivity|lia|lia|subst; cbn; lia|
       subst; vm_compute; congruence|subst; cbn; lia].
Defined.

(** [reserve_oob_blocks] sets the first [k] blocks of a new allocation aside
    for tables when the first region is longer: they become the oob list, and
    the allocation goes on with the block behind them. *)
Theorem reserve_oob_blocks_correct s la a b n g nx l k :
  memory s -> heap_fresh s -> heap s !! a = Some (mk_region b n g nx None) ->
  fseg (heap s) nx l None -> 0 < k < n -> 0 <= b -> b + n < 2 ^ 32 ->
  exists alloc s', reserve_oob_blocks (mk_alloc (mk_list (Some a) la (Some a) 0) empty_list) k s =
      Ok (Some (0, alloc), s') /\
    fseg (heap s') (first (oob_list alloc)) [(a, (b, k, g))] None /\
    fseg (heap s') (first (list_ alloc)) ((fresh s, (b + k, n - k, g)) :: l) None /\
    iter (list_ alloc) = first (list_ alloc) /\ iter (oob_list alloc) = first (oob_list alloc) /\
    bgs s' = bgs s.
Proof.
  intros Hm Hhf Ha Hl Hk Hb Hw. assert (heap s !! fresh s = None) as Hn by (apply Hhf; lia).
  assert (a <> fresh s) as Hne by congruence.
  assert (fseg (heap s) (Some a) ((a, (b, n, g)) :: l) None) as Hall
    by (split; [reflexivity|]; exists nx, None; auto).
  do 2 eexists. split; [exact (reserve_oob_spec s la a b n g nx k Hm Ha Hn Hk Hb Hw)|].
  cbn [first iter list_ oob_list oob_state heap set_heap bump bgs].
  split; [split; [reflexivity|]; exists None, None; split; [apply lookup_insert_eq|reflexivity]|].
  split; [|auto]. split; [reflexivity|]. exists nx, None.
  split; [rewrite lookup_insert_ne by congruence; apply lookup_insert_eq|].
  apply (fseg_frame (heap s)); [|exact Hl]. intros c Hc.
  apply fseg_nodup in Hall. cbn in Hall. apply NoDup_cons in Hall as (Hna & _).
  assert (c <> a) by (intros ->; exact (Hna Hc)).
  assert (c <> fresh s).
  { intros ->. destruct (fseg_lookup _ _ _ _ _ Hl Hc) as (r & Hr). congruence. }
  rewrite !lookup_insert_ne by congruence. reflexivity.
Qed.

Lemma two_regions_fresh : memory two_regions /\ heap_fresh two_regions.
Proof.
  split; [intros n; reflexivity|]. intros c Hc. cbn [fresh two_regions] in Hc. cbn [heap two_regions].
  rewrite lookup_insert_ne, lookup_singleton_ne by lia. reflexivity.
Qed.

(** One block of two regions. *)
Lemma reserve_oob_blocks_correct_witness :
  exists alloc s', reserve_oob_blocks (two_alloc 0) 1 two_regions = Ok (Some (0, alloc), s') /\
    fseg (heap s') (first (list_ alloc)) [(10, (22, 4, 0)); (9, (85, 3, 1))] None.
Proof.
  destruct two_regions_fresh as (Hm & Hhf).
  destruct (reserve_oob_blocks_correct two_regions (Some 8) 8 21 5 0 (Some 9) [(9, (85, 3, 1))] 1)
    as (alloc & s' & E & _ & Hl & _); [exact Hm|exact Hhf|reflexivity| |lia|lia|lia|].
  { split; [reflexivity|]. exists None, (Some 8). split; reflexivity. }
  exists alloc, s'. split; [exact E|exact Hl].
Defined.

(** [reserve_oob_blocks] takes the wrong blocks at the end of a region. The
    blocks asked for are exactly the first region; the code sets the regions
    behind it aside, all of them, and the allocation keeps the first. *)
Theorem reserve_oob_whole_region s la a b n g nx c b' n' g' :
  memory s -> heap s !! a = Some (mk_region b n g (Some nx) None) -> nx = c ->
  heap s !! c = Some (mk_region b' n' g' None (Some a)) -> a <> c -> la = Some a ->
  0 < n < 2 ^ 32 -> 0 < n' < 2 ^ 32 ->
  exists alloc s', reserve_oob_blocks (mk_alloc (mk_list (Some a) la (Some a) 0) empty_list) n s =
      Ok (Some (0, alloc), s') /\
    fseg (heap s') (first (oob_list alloc)) [(c, (b', n', g'))] None /\
    fseg (heap s') (first (list_ alloc)) [(a, (b, n, g))] None.
Proof.
  intros Hm Ha -> Hc Hne -> Hn Hn'.
  assert (exists m, size (heap s) = S (S m)) as (m & Hsz).
  { rewrite <- (insert_id (heap s) a _ Ha), <- insert_delete_eq, map_size_insert_None by apply lookup_delete_eq.
    assert (delete a (heap s) !! c = Some (mk_region b' n' g' None (Some a))) as Hc'
      by (rewrite lookup_delete_ne by congruence; exact Hc).
    rewrite <- (insert_id _ c _ Hc'), <- insert_delete_eq, map_size_insert_None by apply lookup_delete_eq.
    eexists. reflexivity. }
  set (alloc := mk_alloc (mk_list (Some a) (Some a) (Some a) 0) empty_list).
  assert (do_split_allocation alloc n s = Ok (Some (Some c, alloc), s)) as Esp.
  { unfold do_split_allocation. cbn [list_ iter alloc]. unfold bind at 1, get_state. unfold list_fuel. rewrite Hsz.
    assert (split_walk (S (S (S m))) (Some a) n s = Ok (Some (Some c, 0), s)) as Ew.
    { cbn [split_walk]. rewrite (bind_eq _ _ _ _ _ (deref_eq s a _ Ha)). cbn [r_len r_next].
      rewrite (proj2 (Z.leb_le n n)), Z.sub_diag by lia. change (u32 0) with 0.
      rewrite (bind_eq _ _ _ _ _ (deref_eq s c _ Hc)). cbn [r_len].
      rewrite (proj2 (Z.leb_gt n' 0)) by lia. reflexivity. }
    rewrite (bind_eq _ _ _ _ _ Ew). reflexivity. }
  assert (region_list_remove (list_ alloc) (Some c) s =
    Ok (Some (list_ alloc), set_heap s (<[c := mk_region b' n' g' None None]>
                                          (<[a := mk_region b n g None None]> (heap s))))) as Erm.
  { unfold region_list_remove. rewrite (bind_eq _ _ _ _ _ (deref_eq s c _ Hc)). cbn [r_prev r_next].
    rewrite (bind_eq _ _ _ _ _ (set_next_eq s a _ None Ha)). cbn [r_block r_len r_bg r_prev].
    set (s1 := set_heap s _).
    assert (heap s1 !! c = Some (mk_region b' n' g' None (Some a))) as Hc1
      by (cbn; rewrite lookup_insert_ne by congruence; exact Hc).
    rewrite (bind_eq _ _ _ _ _ (deref_eq s1 c _ Hc1)). cbn [r_next r_prev].
    rewrite (bind_eq (ret tt) _ s1 tt s1 eq_refl), (bind_eq _ _ _ _ _ (deref_eq s1 c _ Hc1)).
    cbn [list_ alloc first last]. destruct (decide (Some a = Some c)) as [E|_]; [congruence|].
    rewrite (bind_eq _ _ _ _ _ (set_next_eq s1 c _ None Hc1)). cbn [r_block r_len r_bg r_next r_prev].
    unfold bind. rewrite (set_prev_eq _ c (mk_region b' n' g' None (Some a))) by (cbn; apply lookup_insert_eq).
    cbn [r_block r_len r_bg r_next r_prev ret heap set_heap s1 iter partial_iter].
    rewrite insert_insert_eq. reflexivity. }
  set (s2 := set_heap s _) in Erm.
  assert (heap s2 !! c = Some (mk_region b' n' g' None None)) as Hc2 by (cbn; apply lookup_insert_eq).
  exists (mk_alloc (list_ alloc) (mk_list (Some c) (Some c) (Some c) 0)), s2. split; [|split].
  - unfold reserve_oob_blocks, split_allocation. rewrite (u32_id n) by lia.
    unfold bind at 1. cbn [list_ alloc partial_iter].
    rewrite (bind_eq _ _ _ _ _ (do_split_nothing s (Some a) (Some a) 0 empty_list a _ Ha ltac:(cbn; lia))).
    fold alloc. rewrite (bind_eq _ _ _ _ _ Esp). cbn [ret list_ alloc first last iter partial_iter oob_list].
    unfold bind at 1, get_state. unfold list_fuel. rewrite Hsz.
    assert (move_oob (S (S (S m))) alloc (Some c) s =
      Ok (Some (mk_alloc (list_ alloc) (mk_list (Some c) (Some c) (Some c) 0)), s2)) as Emv.
    { cbn [move_oob]. cbn [list_ alloc iter]. destruct (decide (Some c = Some a)) as [E|_]; [congruence|].
      rewrite (bind_eq _ _ _ _ _ (deref_eq s c _ Hc)). fold alloc.
      rewrite (bind_eq _ _ _ _ _ Erm). cbn [oob_list alloc].
      rewrite (bind_eq _ _ _ _ _ (append_empty s2 empty_list c b' n' g' Hc2 eq_refl)). reflexivity. }
    exact (bind_eq _ _ _ _ _ Emv).
  - split; [reflexivity|]. exists None, None. split; [exact Hc2|reflexivity].
  - split; [reflexivity|]. exists None, None. split; [|reflexivity].
    cbn. rewrite lookup_insert_ne by congruence. apply lookup_insert_eq.
Qed.

(** Five blocks of a region of five. *)
Lemma reserve_oob_whole_region_witness :
  exists alloc s', reserve_oob_blocks (two_alloc 0) 5 two_regions = Ok (Some (0, alloc), s') /\
    fseg (heap s') (first (oob_list alloc)) [(9, (85, 3, 1))] None.
Proof.
  destruct two_regions_fresh as (Hm & _).
  destruct (reserve_oob_whole_region two_regions (Some 8) 8 21 5 0 9 9 85 3 1)
    as (alloc & s' & E & Ho & _); try reflexivity; try lia; [exact Hm|].
  exists alloc, s'. auto.
Defined.

(** [advance_blocks] goes back to the start of a region instead of past its
    end. Inside the region it moves on as it should; a step to the end of the
    region reports success, and the blocks that follow are those of the region
    again. *)
Theorem advance_blocks_wraps s alloc a r l k :
  iter (list_ alloc) = Some a -> heap s !! a = Some r ->
  fseg (heap s) (r_next r) l None -> nodes_ok ((a, (r_block r, r_len r, r_bg r)) :: l) ->
  partial_iter (list_ alloc) = 0 -> 0 < k <= r_len r -> r_len r < 2 ^ 31 ->
  exists alloc', advance_blocks alloc k s = Ok (Some (0, alloc'), s) /\
    get_block alloc' 0 s = Ok (Some (if k <? r_len r then r_block r + k else r_block r), s).
Proof.
  intros Hi Ha Hl Hok Hp Hk Hw.
  assert (fseg (heap s) (iter (list_ alloc)) ((a, (r_block r, r_len r, r_bg r)) :: l) None) as Hall
    by (split; [exact Hi|]; exists (r_next r), (r_prev r); destruct r; auto).
  destruct (Hok a (r_block r) (r_len r) (r_bg r) ltac:(left)) as (Hb & _ & Hbn).
  assert (forall p, 0 <= p < r_len r ->
    get_block (mk_alloc (mk_list (first (list_ alloc)) (last (list_ alloc)) (iter (list_ alloc)) p) (oob_list alloc)) 0 s
      = Ok (Some (r_block r + p), s)) as Hget.
  { intros p Hpr. unfold get_block. cbn [list_].
    rewrite (get_list_block_spec s (mk_list (first (list_ alloc)) (last (list_ alloc)) (iter (list_ alloc)) p)
      ((a, (r_block r, r_len r, r_bg r)) :: l) 0 Hall Hok) by (cbn; lia).
    cbn [partial_iter list_]. rewrite Z.add_0_l.
    change (blocks_of ((a, (r_block r, r_len r, r_bg r)) :: l)) with (seqZ (r_block r) (r_len r) ++ blocks_of l).
    rewrite lookup_app_l by (rewrite length_seqZ; lia). rewrite lookup_seqZ_lt by lia.
    rewrite Z2Nat.id by lia. reflexivity. }
  unfold advance_blocks. destruct (Z.ltb_spec k (r_len r)) as [Hlt|Hge].
  - eexists. split; [rewrite (bind_eq _ _ _ _ _ (advance_inside s _ a r k Hi Ha ltac:(lia) ltac:(lia) ltac:(lia) ltac:(lia))); reflexivity|].
    rewrite Hp, Z.add_0_l. apply Hget. lia.
  - assert (k = r_len r - partial_iter (list_ alloc)) as -> by lia.
    eexists. split; [rewrite (bind_eq _ _ _ _ _ (advance_region_end s _ a r Hi Ha ltac:(lia) Hw)); reflexivity|].
    rewrite Hget by lia. rewrite Z.add_0_r. reflexivity.
Qed.

(** Over the first region of two. *)
Lemma advance_blocks_wraps_witness :
  exists alloc', advance_blocks (two_alloc 0) 5 two_regions = Ok (Some (0, alloc'), two_regions) /\
    get_block alloc' 0 two_regions = Ok (Some 21, two_regions).
Proof.
  apply (advance_blocks_wraps two_regions (two_alloc 0) 8 (mk_region 21 5 0 (Some 9) None) [(9, (85, 3, 1))] 5);
    try reflexivity; try (cbn; lia).
  - split; [reflexivity|]. exists None, (Some 8). split; reflexivity.
  - intros a b n g H. apply elem_of_cons in H as [[= -> -> -> ->]|H]; [cbn; lia|].
    apply list_elem_of_singleton in H as [= -> -> -> ->]. lia.
Defined.

(** [allocate_inode] returns the number of a free inode of the first group
    that has one, marks it in the bitmap of the group and takes it off the
    counter; EXT4_ALLOCATE_FAILED is returned, with nothing changed, only when
    every inode is in use. *)
Theorem allocate_inode_correct s :
  fs_ok s -> groups (aux_info s) * inodes_per_group (info s) < 2 ^ 32 - 1 ->
  (exists x s', allocate_inode s = Ok (Some x, s') /\ free_inode s x /\ fs_ok s' /\ same_globals s s' /\
     (forall y, free_inode s y -> x <= y) /\
     (forall y, free_inode s' y <-> free_inode s y /\ y <> x)) \/
  (allocate_inode s = Ok (Some EXT4_ALLOCATE_FAILED, s) /\ forall y, ~ free_inode s y).
Proof.
  intros Hfs Htot.
  assert (allocate_inode s = allocate_inode_loop (seqZ 0 (Z.of_nat (length (bgs s)))) s) as ->
    by (unfold allocate_inode, bind, get_state; rewrite groups_nat by exact Hfs; reflexivity).
  destruct (group_search s (fun b => 1 <=? free_inodes b) (length (bgs s)) 0)
    as [(i & b & Hfg)|Hno]; [lia|unfold zlen; lia| |].
  - left. destruct (allocate_inode_loop_some s i b Hfs Htot (length (bgs s)) 0 ltac:(lia) ltac:(unfold zlen; lia) Hfg)
      as (bm & -> & Hok).
    destruct Hfg as (Hi & Hb & Ht & Hall). apply Z.leb_le in Ht.
    pose proof (bgs_bound s i b Hi Hb) as Hbd. pose proof (lookup_lt_Some _ _ _ Hb) as Hlt.
    eexists _, _. split; [reflexivity|].
    split; [exists i, b; split; [exact Hi|]; split; [exact Hb|]; lia|].
    split; [apply fs_ok_update; auto|]. split; [repeat split|].
    pose proof (geo_inodes _ _ (fs_geometry _ Hfs)) as Hipg.
    assert (forall j c y, 0 <= j -> bgs s !! Z.to_nat j = Some c ->
      inode_start s j c <= y < inode_start s j c + free_inodes c ->
      i = j \/ i < j /\ inode_start s i b < y) as Hord.
    { intros j c y Hj Hc Hy. destruct (Z.lt_trichotomy i j) as [H1|[H1|H1]]; [|auto|].
      - right. split; [exact H1|]. destruct (fs_bgs _ Hfs i b Hi Hb) as [_ _ _ _ _ Ib _].
        destruct (fs_bgs _ Hfs j c Hj Hc) as [_ _ _ _ _ Ic _]. unfold inode_start in *.
        assert ((i + 1) * inodes_per_group (info s) <= j * inodes_per_group (info s))
          by (apply Z.mul_le_mono_nonneg_r; lia). lia.
      - pose proof (Hall j c ltac:(lia) Hc) as Hz. cbn in Hz. apply Z.leb_gt in Hz. lia. }
    split.
    + intros y (j & c & Hj & Hc & Hy). destruct (Hord j c y Hj Hc Hy) as [<-|]; [|lia].
      rewrite Hb in Hc. injection Hc as <-. lia.
    + intros y. split.
      * intros (j & c & Hj & Hc & Hy). cbn in Hc. destruct (decide (i = j)) as [<-|Hne].
        -- rewrite list_lookup_insert_eq in Hc by exact Hlt. injection Hc as <-.
           unfold inode_start in *. cbn in Hy. split; [exists i, b; unfold inode_start; repeat split; auto; lia|lia].
        -- rewrite list_lookup_insert_ne in Hc by lia. split; [exists j, c; auto|].
           destruct (Hord j c y Hj Hc Hy); [congruence|lia].
      * intros ((j & c & Hj & Hc & Hy) & Hyx). destruct (decide (i = j)) as [<-|Hne].
        -- rewrite Hb in Hc. injection Hc as <-. exists i, (inodes_taken b 1 bm). split; [exact Hi|].
           split; [apply list_lookup_insert_eq; exact Hlt|]. unfold inode_start in *. cbn. lia.
        -- exists j, c. split; [exact Hj|]. split; [cbn; rewrite list_lookup_insert_ne by lia; exact Hc|exact Hy].
  - right. split; [apply allocate_inode_loop_none; [lia|unfold zlen; lia|exact Hno]|].
    intros y (j & c & Hj & Hc & Hy). pose proof (Hno j c Hj Hc) as Hz. cbn in Hz. apply Z.leb_gt in Hz. lia.
Qed.

(** The first inode of the example. *)
Lemma allocate_inode_correct_witness :
  exists s', allocate_inode demo_fs = Ok (Some 1, s') /\ ~ free_inode s' 1.
Proof.
  destruct demo_fs_ok as (Hfs & _).
  destruct (allocate_inode_correct demo_fs Hfs) as [(x & s' & E & _ & _ & _ & _ & Hf)|(E & _)].
  - vm_compute. reflexivity.
  - assert (x = 1) as -> by (vm_compute in E; injection E as -> _; reflexivity).
    exists s'. split; [exact E|]. intros H. apply Hf in H. lia.
  - exfalso. vm_compute in E. discriminate.
Defined.


End Ext4AllocLists.
