(* ===== verification/Ext4Extent.v ===== *)
(** * ext4_utils/extent.c: files as extent trees

    A file gets its blocks from the allocator; the regions are written as an
    extent tree into the inode, or into a block of their own when there are
    more than three, and the contents are queued for these blocks. *)

From S2P Require Import Prelude BackedBlock SparseFile Ext4Utils Ext4Alloc.

Module Ext4Extent.
Import Ext4Utils Ext4Alloc.

(** ** The structures of [ext4_extents.h] *)

Record ext4_extent := mk_extent {
  ee_block : Z;
  ee_len : Z;
  ee_start_hi : Z;
  ee_start_lo : Z
}.

Record ext4_extent_idx := mk_idx {
  ei_block : Z;
  ei_leaf_lo : Z;
  ei_leaf_hi : Z;
  ei_unused : Z
}.

Record ext4_extent_header := mk_eh {
  eh_magic : Z;
  eh_entries : Z;
  eh_max : Z;
  eh_depth : Z;
  eh_generation : Z
}.

Definition EXT4_EXT_MAGIC : Z := 0xf30a.
Definition EXT4_EXTENTS_FL : Z := 0x00080000.

Definition extent_bytes (e : ext4_extent) : list Z :=
  le_bytes 4 (ee_block e) ++ le_bytes 2 (ee_len e) ++ le_bytes 2 (ee_start_hi e)
  ++ le_bytes 4 (ee_start_lo e).
Definition idx_bytes (e : ext4_extent_idx) : list Z :=
  le_bytes 4 (ei_block e) ++ le_bytes 4 (ei_leaf_lo e) ++ le_bytes 2 (ei_leaf_hi e)
  ++ le_bytes 2 (ei_unused e).
Definition header_bytes (h : ext4_extent_header) : list Z :=
  le_bytes 2 (eh_magic h) ++ le_bytes 2 (eh_entries h) ++ le_bytes 2 (eh_max h)
  ++ le_bytes 2 (eh_depth h) ++ le_bytes 4 (eh_generation h).

(** All three structures take 12 bytes. *)
Definition sizeof_extent : Z := 12.

(** ** Buffers *)

(** [bs] stored at offset [off] of a buffer, inside its bounds. *)
Definition splice (buf : list Z) (off : Z) (bs : list Z) : outcome (list Z) :=
  if (0 <=? off) && (off + zlen bs <=? zlen buf)
  then Ok (take (Z.to_nat off) buf ++ bs ++ drop (Z.to_nat (off + zlen bs)) buf)
  else Undef.

Definition lift {A} (m : outcome A) : M A := fun s => let! r := m in Ok (Some r, s).

Definition set_mem (s : fs) (a : Z) (buf : list Z) : fs :=
  mk_fs (force s) (info s) (aux_info s) (bgs s) (heap s) (fresh s) (avail s) (sparse_file s)
    (<[a := buf]> (mem s)) (itab s).

(** [calloc] of a buffer of [n] bytes: addresses inside it are not handed out
    again. *)
Definition calloc (n : Z) : M (option Z) := fun s =>
  if avail s (fresh s)
  then Ok (Some (Some (fresh s)), set_mem (set_fresh s (fresh s + Z.max 1 n)) (fresh s) (zeros n))
  else Ok (Some None, bump s).

Definition put_mem (a : Z) (buf : list Z) : M unit := fun s => Ok (Some tt, set_mem s a buf).

(** [sparse_file_add_file]; [strdup] of the name follows the allocation of the
    block. *)
Definition sparse_add_file (filename : string) (offset len block : Z) : M unit :=
  let* p := malloc in
  let* d := malloc in
  fun s =>
    let! (_, f) := SparseFile.sparse_file_add_file (sparse_file s) p (default 0 d) filename offset
                     len block in
    Ok (Some tt, set_sparse s f).

(** ** Contents *)

Fixpoint backing_loop (fuel : nat) (alloc : block_allocation) (ptr backing_len : Z)
  : M block_allocation :=
  match fuel with
  | O => nofuel
  | S f =>
      if 0 <? backing_len then
        let* s := get_state in
        let* (region_block, region_len) := get_region alloc in
        let len := u32 (Z.min (u32 (region_len * block_size (info s))) backing_len) in
        let* _ := sparse_add_data ptr len region_block in
        let* alloc := get_next_region alloc in
        backing_loop f alloc (ptr + len) (u64 (backing_len - len))
      else ret alloc
  end.

(** [size_t] has 32 bits. *)
Definition extent_create_backing (alloc : block_allocation) (backing_len : Z)
  : M (Z * block_allocation) :=
  let* p := calloc (u32 backing_len) in
  match p with
  | None => critical_error
  | Some data =>
      let* s := get_state in
      let* alloc := backing_loop (list_fuel s) alloc data backing_len in
      ret (data, alloc)
  end.

Fixpoint backing_file_loop (fuel : nat) (alloc : block_allocation) (filename : string)
    (offset backing_len : Z) : M block_allocation :=
  match fuel with
  | O => nofuel
  | S f =>
      if 0 <? backing_len then
        let* s := get_state in
        let* (region_block, region_len) := get_region alloc in
        let len := u32 (Z.min (u32 (region_len * block_size (info s))) backing_len) in
        let* _ := sparse_add_file filename offset len region_block in
        let* alloc := get_next_region alloc in
        backing_file_loop f alloc filename (s64 (offset + len)) (u64 (backing_len - len))
      else ret alloc
  end.

Definition extent_create_backing_file (alloc : block_allocation) (backing_len : Z)
    (filename : string) : M block_allocation :=
  let* s := get_state in backing_file_loop (list_fuel s) alloc filename 0 backing_len.

(** ** The extent tree *)

(** The loop that writes one extent per region into [buf] from [off] on. *)
Fixpoint extents_loop (fuel : nat) (alloc : block_allocation) (file_block off : Z) (buf : list Z)
  : M (block_allocation * list Z) :=
  match fuel with
  | O => nofuel
  | S f =>
      if last_region alloc then ret (alloc, buf)
      else
        let* (region_block, region_len) := get_region alloc in
        let* buf := lift (splice buf off (extent_bytes
                      (mk_extent file_block (u16 region_len) 0 region_block))) in
        let* alloc := get_next_region alloc in
        extents_loop f alloc (u32 (file_block + region_len)) (off + sizeof_extent) buf
  end.

Definition set_iblock (i : ext4_inode) (b : list Z) : ext4_inode :=
  mk_inode (i_mode i) (i_uid i) (i_size_lo i) (i_atime i) (i_ctime i) (i_mtime i) (i_gid i)
    (i_links_count i) (i_blocks_lo i) (i_flags i) b (i_size_high i) (l_i_blocks_high i).

(** The fields set at the end. *)
Definition set_sizes (i : ext4_inode) (len blocks : Z) : ext4_inode :=
  mk_inode (i_mode i) (i_uid i) (u32 len) (i_atime i) (i_ctime i) (i_mtime i) (i_gid i)
    (i_links_count i) (u32 blocks) (Z.lor (i_flags i) EXT4_EXTENTS_FL) (i_block i)
    (u32 (Z.shiftr len 32)) (u16 (Z.shiftr blocks 32)).

(** Where the blocks of the tree itself come from: the allocation without its
    last block, or the first block set aside. *)
Definition tree_block (alloc : block_allocation) (allocation_len : Z) : M (block_allocation * Z) :=
  if allocation_len <=? 3 then
    let* alloc := reduce_allocation alloc 1 in ret (alloc, 0)
  else
    let* (_, alloc) := reserve_oob_blocks alloc 1 in
    let* b := get_oob_block alloc 0 in
    ret (alloc, b).

(** Writing the tree into the inode and, for more than three regions, into the
    block [extent_block]; [bs] is the block size, [nr] the number of regions. *)
Definition write_tree (bs : Z) (inode : ext4_inode) (len block_len nr : Z) (alloc : block_allocation)
    (extent_block : Z) : M (option block_allocation * ext4_inode) :=
  let finish alloc inode block_len :=
    let blocks := u64 (block_len * bs) / 512 in
    ret (Some (rewind_alloc alloc), set_sizes inode len blocks) in
  if extent_block =? 0 then
    let* b := lift (splice (i_block inode) 0
      (header_bytes (mk_eh EXT4_EXT_MAGIC (u16 nr) 3 0 0))) in
    let* s1 := get_state in
    let* (alloc, b) := extents_loop (list_fuel s1) alloc 0 sizeof_extent b in
    finish alloc (set_iblock inode b) block_len
  else
    let* b := lift (splice (i_block inode) 0
      (header_bytes (mk_eh EXT4_EXT_MAGIC 1 3 1 0) ++ idx_bytes (mk_idx 0 extent_block 0 0))) in
    let inode := set_iblock inode b in
    let* p := calloc bs in
    match p with
    | None => critical_error
    | Some data =>
        let* _ := sparse_add_data data bs extent_block in
        if s32 (u32 (bs - sizeof_extent / sizeof_extent)) <? nr then
          let* _ := error in ret (None, inode)
        else
          let* d := lift (splice (zeros bs) 0
            (header_bytes (mk_eh EXT4_EXT_MAGIC (u16 nr)
               (u16 (u32 (bs - sizeof_extent) / sizeof_extent)) 0 0))) in
          let* s1 := get_state in
          let* (alloc, d) := extents_loop (list_fuel s1) alloc 0 sizeof_extent d in
          let* _ := put_mem data d in
          finish alloc inode (u32 (block_len + 1))
    end.

(** The allocation, or [None] for NULL, with the inode. *)
Definition do_inode_allocate_extents (inode : ext4_inode) (len : Z)
  : M (option block_allocation * ext4_inode) :=
  let* s := get_state in
  if block_size (info s) =? 0 then undef else
  let block_len := u32 (div_round_up64 len (block_size (info s))) in
  let* alloc := allocate_blocks (u32 (block_len + 1)) in
  match alloc with
  | None => let* _ := error in ret (None, inode)
  | Some alloc =>
      let* allocation_len := block_allocation_num_regions alloc in
      let* (alloc, extent_block) := tree_block alloc allocation_len in
      write_tree (block_size (info s)) inode len block_len allocation_len alloc extent_block
  end.

(** The data buffer ([None] for NULL) with the inode. *)
Definition inode_allocate_data_extents (inode : ext4_inode) (len backing_len : Z)
  : M (option Z * ext4_inode) :=
  let* (alloc, inode) := do_inode_allocate_extents inode len in
  match alloc with
  | None => let* _ := error in ret (None, inode)
  | Some alloc =>
      let* (data, alloc) :=
        if negb (backing_len =? 0) then
          let* (d, alloc) := extent_create_backing alloc backing_len in ret (Some d, alloc)
        else ret (None, alloc) in
      let* _ := free_alloc alloc in
      ret (data, inode)
  end.

Definition inode_allocate_file_extents (inode : ext4_inode) (len : Z) (filename : string)
  : M ext4_inode :=
  let* (alloc, inode) := do_inode_allocate_extents inode len in
  match alloc with
  | None => let* _ := error in ret inode
  | Some alloc =>
      let* alloc := extent_create_backing_file alloc len filename in
      let* _ := free_alloc alloc in
      ret inode
  end.

Definition inode_allocate_extents (inode : ext4_inode) (len : Z) : M ext4_inode :=
  let* (alloc, inode) := do_inode_allocate_extents inode len in
  match alloc with
  | None => let* _ := error in ret inode
  | Some alloc => let* _ := free_alloc alloc in ret inode
  end.

(** ** Reading an extent tree

    What a reader of the format finds: the header, then [eh_entries] extents,
    directly or in the block the only index entry names. *)

Definition header_of_bytes (b : list Z) : ext4_extent_header :=
  mk_eh (le_val (sub_bytes b 0 2)) (le_val (sub_bytes b 2 2)) (le_val (sub_bytes b 4 2))
    (le_val (sub_bytes b 6 2)) (le_val (sub_bytes b 8 4)).
Definition extent_of_bytes (b : list Z) : ext4_extent :=
  mk_extent (le_val (sub_bytes b 0 4)) (le_val (sub_bytes b 4 2)) (le_val (sub_bytes b 6 2))
    (le_val (sub_bytes b 8 4)).

Fixpoint read_extents (n : nat) (b : list Z) : list ext4_extent :=
  match n with
  | O => []
  | S n' => extent_of_bytes (sub_bytes b 0 12) :: read_extents n' (drop 12 b)
  end.

(** The extents of a node of depth 0. *)
Definition read_leaf (b : list Z) : option (list ext4_extent) :=
  let h := header_of_bytes b in
  if negb (eh_magic h =? EXT4_EXT_MAGIC) then None
  else if negb (eh_depth h =? 0) then None
  else if eh_max h <? eh_entries h then None
  else if zlen b <? 12 + 12 * eh_entries h then None
  else Some (read_extents (Z.to_nat (eh_entries h)) (drop 12 b)).

Definition read_tree (read_block : Z -> option (list Z)) (b : list Z) : option (list ext4_extent) :=
  let h := header_of_bytes b in
  if eh_depth h =? 0 then read_leaf b
  else if negb (eh_magic h =? EXT4_EXT_MAGIC) || negb (eh_depth h =? 1)
          || negb (eh_entries h =? 1) then None
  else
    match read_block (le_val (sub_bytes b 16 4)) with
    | None => None
    | Some leaf => read_leaf leaf
    end.

(** The blocks of the file in order; an extent of more than 2^15 blocks would
    be an unwritten one. *)
Fixpoint extents_blocks (file_block : Z) (es : list ext4_extent) : option (list Z) :=
  match es with
  | [] => Some []
  | e :: es' =>
      if negb (ee_block e =? file_block) || (2 ^ 15 <? ee_len e) || negb (ee_start_hi e =? 0) then None
      else
        match extents_blocks (file_block + ee_len e) es' with
        | None => None
        | Some l => Some (seqZ (ee_start_lo e) (ee_len e) ++ l)
        end
  end.

Definition file_blocks (read_block : Z -> option (list Z)) (inode : ext4_inode) : option (list Z) :=
  match read_tree read_block (i_block inode) with
  | None => None
  | Some es => extents_blocks 0 es
  end.

End Ext4Extent.
