(* ===== verification/Ext4ExtentProps.v ===== *)
(** * Files as extent trees: what they hold

    The tree [ext4_utils/extent.c] writes for a file is read back as the blocks
    that were allocated for it, and the contents are queued for these blocks. *)

From S2P Require Import Prelude BackedBlock SparseFile Ext4Utils Ext4Alloc Ext4AllocBits Ext4AllocProps Ext4AllocLists Ext4Extent.

Module Ext4ExtentProps.
Import Ext4Utils Ext4Alloc Ext4AllocBits Ext4AllocProps Ext4AllocLists Ext4Extent.

(** ** Bytes *)

Lemma splice_app pre old bs rest : zlen old = zlen bs ->
  splice (pre ++ old ++ rest) (zlen pre) bs = Ok (pre ++ bs ++ rest).
Proof.
  intros Hl. unfold splice. rewrite !zlen_app.
  pose proof (zlen_nonneg pre). pose proof (zlen_nonneg rest). pose proof (zlen_nonneg old).
  rewrite (proj2 (Z.leb_le 0 _)), (proj2 (Z.leb_le _ _)) by lia. cbn [andb]. f_equal.
  unfold zlen in *. rewrite Nat2Z.id, take_app_length. f_equal. f_equal.
  replace (Z.to_nat (Z.of_nat (length pre) + Z.of_nat (length bs))) with (length (pre ++ old))
    by (rewrite length_app; lia).
  rewrite app_assoc, drop_app_length. reflexivity.
Qed.

Lemma extent_bytes_len e : zlen (extent_bytes e) = 12.
Proof. unfold extent_bytes. autorewrite with zlen. reflexivity. Qed.

Lemma header_bytes_len h : zlen (header_bytes h) = 12.
Proof. unfold header_bytes. autorewrite with zlen. reflexivity. Qed.

Lemma idx_bytes_len e : zlen (idx_bytes e) = 12.
Proof. unfold idx_bytes. autorewrite with zlen. reflexivity. Qed.

Definition extent_ok (e : ext4_extent) : Prop :=
  0 <= ee_block e < 2 ^ 32 /\ 0 <= ee_len e < 2 ^ 16 /\ 0 <= ee_start_hi e < 2 ^ 16 /\
  0 <= ee_start_lo e < 2 ^ 32.

Definition header_ok (h : ext4_extent_header) : Prop :=
  0 <= eh_magic h < 2 ^ 16 /\ 0 <= eh_entries h < 2 ^ 16 /\ 0 <= eh_max h < 2 ^ 16 /\
  0 <= eh_depth h < 2 ^ 16 /\ 0 <= eh_generation h < 2 ^ 32.

(** A field of a structure, read behind the fields before it. *)
Lemma sub_bytes_mid (pre mid tl : list Z) off n : zlen pre = off -> zlen mid = n ->
  sub_bytes (pre ++ mid ++ tl) off n = mid.
Proof. intros <- <-. apply sub_bytes_exact; reflexivity. Qed.

Lemma sub_bytes_first (mid tl : list Z) n : zlen mid = n -> sub_bytes (mid ++ tl) 0 n = mid.
Proof. intros H. exact (sub_bytes_mid [] mid tl 0 n eq_refl H). Qed.

Ltac read_first :=
  rewrite sub_bytes_first by (autorewrite with zlen; reflexivity);
  apply le_val_bytes_id; cbn; lia.

Ltac read_field pre :=
  rewrite (sub_bytes_mid pre) by (autorewrite with zlen; reflexivity);
  apply le_val_bytes_id; cbn; lia.

Lemma extent_roundtrip e tl : extent_ok e -> extent_of_bytes (extent_bytes e ++ tl) = e.
Proof.
  intros (H1 & H2 & H3 & H4). unfold extent_of_bytes, extent_bytes. rewrite <- !app_assoc.
  destruct e as [b n h l]. cbn [ee_block ee_len ee_start_hi ee_start_lo] in *. f_equal.
  - read_first.
  - read_field (le_bytes 4 b).
  - rewrite (app_assoc (le_bytes 4 b)). read_field (le_bytes 4 b ++ le_bytes 2 n).
  - rewrite (app_assoc (le_bytes 4 b)), (app_assoc (le_bytes 4 b ++ le_bytes 2 n)).
    read_field ((le_bytes 4 b ++ le_bytes 2 n) ++ le_bytes 2 h).
Qed.

Lemma header_roundtrip h tl : header_ok h -> header_of_bytes (header_bytes h ++ tl) = h.
Proof.
  intros (H1 & H2 & H3 & H4 & H5). unfold header_of_bytes, header_bytes. rewrite <- !app_assoc.
  destruct h as [m e x d g]. cbn [eh_magic eh_entries eh_max eh_depth eh_generation] in *. f_equal.
  - read_first.
  - read_field (le_bytes 2 m).
  - rewrite (app_assoc (le_bytes 2 m)). read_field (le_bytes 2 m ++ le_bytes 2 e).
  - rewrite (app_assoc (le_bytes 2 m)), (app_assoc (le_bytes 2 m ++ le_bytes 2 e)).
    read_field ((le_bytes 2 m ++ le_bytes 2 e) ++ le_bytes 2 x).
  - rewrite (app_assoc (le_bytes 2 m)), (app_assoc (le_bytes 2 m ++ le_bytes 2 e)),
      (app_assoc ((le_bytes 2 m ++ le_bytes 2 e) ++ le_bytes 2 x)).
    read_field (((le_bytes 2 m ++ le_bytes 2 e) ++ le_bytes 2 x) ++ le_bytes 2 d).
Qed.

Lemma read_extents_bytes es tl : Forall extent_ok es ->
  read_extents (length es) (concat (map extent_bytes es) ++ tl) = es.
Proof.
  intros H. induction H as [|e es He Hes IH]; [reflexivity|]. cbn [length read_extents map concat].
  rewrite <- app_assoc. f_equal.
  - rewrite sub_bytes_first by apply extent_bytes_len.
    rewrite <- (app_nil_r (extent_bytes e)). apply extent_roundtrip. exact He.
  - rewrite drop_app_length' by (pose proof (extent_bytes_len e); unfold zlen in *; lia). exact IH.
Qed.

(** A node of the tree with [es] as its extents is read back. *)
Lemma read_leaf_bytes max es tl : Forall extent_ok es -> zlen es <= max < 2 ^ 16 ->
  read_leaf (header_bytes (mk_eh EXT4_EXT_MAGIC (zlen es) max 0 0)
             ++ concat (map extent_bytes es) ++ tl) = Some es.
Proof.
  intros Hes Hmax. pose proof (zlen_nonneg es). pose proof (zlen_nonneg tl). unfold read_leaf.
  rewrite header_roundtrip by (unfold header_ok, EXT4_EXT_MAGIC; cbn [eh_magic eh_entries eh_max eh_depth eh_generation]; lia).
  cbn [eh_magic eh_entries eh_max eh_depth]. rewrite Z.eqb_refl. cbn [negb Z.eqb].
  rewrite (proj2 (Z.ltb_ge max (zlen es))) by lia.
  assert (zlen (concat (map extent_bytes es)) = 12 * zlen es) as Hc.
  { clear. induction es as [|e es IH]; [reflexivity|]. cbn [map concat].
    rewrite zlen_app, extent_bytes_len, IH, zlen_cons. lia. }
  rewrite !zlen_app, header_bytes_len, Hc. rewrite (proj2 (Z.ltb_ge _ _)) by lia.
  f_equal. rewrite drop_app_length'
    by (pose proof (header_bytes_len (mk_eh EXT4_EXT_MAGIC (zlen es) max 0 0)); unfold zlen in *; lia).
  unfold zlen. rewrite Nat2Z.id. apply read_extents_bytes. exact Hes.
Qed.

(** ** The extents of a chain *)

Fixpoint extents_of (file_block : Z) (l : list (Z * (Z * Z * Z))) : list ext4_extent :=
  match l with
  | [] => []
  | (_, (b, n, _)) :: l' => mk_extent file_block n 0 b :: extents_of (file_block + n) l'
  end.

Definition small_nodes (l : list (Z * (Z * Z * Z))) : Prop :=
  forall a b n g, (a, (b, n, g)) ∈ l -> 0 < n <= 2 ^ 15 /\ 0 <= b < 2 ^ 32.

Lemma small_nodes_cons x l : small_nodes (x :: l) -> small_nodes l.
Proof. intros H a b n g Hin. apply (H a b n g). right. exact Hin. Qed.

Lemma total_len_nonneg l : small_nodes l -> 0 <= total_len l.
Proof.
  induction l as [|[a [[b n] g]] l IH]; intros H; [cbn; lia|].
  destruct (H a b n g ltac:(left)) as (? & _). pose proof (IH (small_nodes_cons _ _ H)).
  change (total_len ((a, (b, n, g)) :: l)) with (n + total_len l). lia.
Qed.

Lemma extents_of_length fb l : length (extents_of fb l) = length l.
Proof. revert fb. induction l as [|[a [[b n] g]] l IH]; intros fb; cbn; [reflexivity|]. rewrite IH. reflexivity. Qed.

Lemma extents_of_ok fb l : small_nodes l -> 0 <= fb -> fb + total_len l < 2 ^ 32 ->
  Forall extent_ok (extents_of fb l).
Proof.
  revert fb. induction l as [|[a [[b n] g]] l IH]; intros fb H Hf Ht; cbn [extents_of]; [constructor|].
  change (total_len ((a, (b, n, g)) :: l)) with (n + total_len l) in Ht.
  destruct (H a b n g ltac:(left)) as (Hn & Hb). pose proof (total_len_nonneg l (small_nodes_cons _ _ H)).
  constructor; [unfold extent_ok; cbn; lia|]. apply IH; [exact (small_nodes_cons _ _ H)|lia|lia].
Qed.

Lemma extents_of_blocks fb l : small_nodes l -> extents_blocks fb (extents_of fb l) = Some (blocks_of l).
Proof.
  revert fb. induction l as [|[a [[b n] g]] l IH]; intros fb H; [reflexivity|].
  cbn [extents_of extents_blocks ee_block ee_len ee_start_hi ee_start_lo].
  destruct (H a b n g ltac:(left)) as (Hn & Hb).
  rewrite Z.eqb_refl, (proj2 (Z.ltb_ge (2 ^ 15) n)) by lia. cbn [negb orb Z.eqb].
  rewrite (IH _ (small_nodes_cons _ _ H)). reflexivity.
Qed.

Lemma get_region_eq s a b n g pv nx f la o :
  heap s !! a = Some (mk_region b n g nx pv) -> 0 <= n < 2 ^ 32 ->
  get_region (mk_alloc (mk_list f la (Some a) 0) o) s = Ok (Some (b, n), s).
Proof.
  intros Ha Hn. unfold get_region. cbn [list_ iter partial_iter].
  rewrite (bind_eq _ _ _ _ _ (deref_eq s a _ Ha)). cbn [r_block r_len].
  rewrite Z.sub_0_r, u32_id by lia. reflexivity.
Qed.

Lemma get_next_region_eq s a r f la o : heap s !! a = Some r ->
  get_next_region (mk_alloc (mk_list f la (Some a) 0) o) s =
    Ok (Some (mk_alloc (mk_list f la (r_next r) 0) o), s).
Proof.
  intros Ha. unfold get_next_region. cbn [list_ iter].
  rewrite (bind_eq _ _ _ _ _ (deref_eq s a _ Ha)). reflexivity.
Qed.

(** The loop writes one extent per region. *)
Lemma extents_loop_spec s l : forall fuel f la p o fb pre old rest,
  fseg (heap s) p l None -> small_nodes l -> (length l < fuel)%nat ->
  0 <= fb -> fb + total_len l < 2 ^ 32 -> zlen old = 12 * zlen l ->
  extents_loop fuel (mk_alloc (mk_list f la p 0) o) fb (zlen pre) (pre ++ old ++ rest) s =
    Ok (Some (mk_alloc (mk_list f la None 0) o,
              pre ++ concat (map extent_bytes (extents_of fb l)) ++ rest), s).
Proof.
  induction l as [|[a [[b n] g]] l IH]; intros fuel f la p o fb pre old rest Hl Hsm Hf Hfb Ht Hold;
    (destruct fuel as [|fuel]; [cbn in Hf; lia|]); cbn [extents_loop last_region list_ iter].
  - cbn in Hl. subst p. destruct old as [|x old]; [reflexivity|].
    rewrite zlen_cons in Hold. pose proof (zlen_nonneg old). change (zlen (@nil (Z * (Z * Z * Z)))) with 0 in Hold. lia.
  - destruct Hl as (-> & nx & pv & Ha & Hl). destruct (Hsm a b n g ltac:(left)) as (Hn & Hb).
    change (total_len ((a, (b, n, g)) :: l)) with (n + total_len l) in Ht.
    pose proof (total_len_nonneg l (small_nodes_cons _ _ Hsm)) as Htl.
    rewrite zlen_cons in Hold. pose proof (zlen_nonneg l) as Hzl.
    cbn [last_region list_ iter].
    rewrite (bind_eq _ _ _ _ _ (get_region_eq s a b n g pv nx f la o Ha ltac:(lia))).
 rewrite (u16_id n) by lia.
    set (e := extent_bytes (mk_extent fb n 0 b)).
    assert (zlen e = 12) as He by apply extent_bytes_len.
    assert (exists o1 o2, old = o1 ++ o2 /\ zlen o1 = 12 /\ zlen o2 = 12 * zlen l) as (o1 & o2 & -> & Ho1 & Ho2).
    { exists (take 12 old), (drop 12 old). split; [symmetry; apply take_drop|].
      unfold zlen in *. rewrite length_take, length_drop. lia. }
    rewrite <- app_assoc.
    assert (lift (splice (pre ++ o1 ++ o2 ++ rest) (zlen pre) e) s = Ok (Some (pre ++ e ++ o2 ++ rest), s)) as Es
      by (unfold lift; rewrite splice_app by lia; reflexivity).
    rewrite (bind_eq _ _ _ _ _ Es).
    rewrite (bind_eq _ _ _ _ _ (get_next_region_eq s a _ f la o Ha)). cbn [r_next]. rewrite u32_id by lia.
    replace (zlen pre + sizeof_extent) with (zlen (pre ++ e)) by (rewrite zlen_app, He; reflexivity).
    replace (pre ++ e ++ o2 ++ rest) with ((pre ++ e) ++ o2 ++ rest) by (rewrite <- app_assoc; reflexivity).
    rewrite (IH fuel f la nx o (fb + n) (pre ++ e) o2 rest Hl (small_nodes_cons _ _ Hsm));
      [|cbn in Hf; lia|lia|lia|lia].
    cbn [extents_of map concat]. fold e. rewrite <- !app_assoc. reflexivity.
Qed.

(** ** The allocation without the blocks of the tree *)

(** The number of regions. *)
Lemma num_regions_spec s alloc l : fseg (heap s) (first (list_ alloc)) l None -> zlen l < 2 ^ 31 ->
  block_allocation_num_regions alloc s = Ok (Some (zlen l), s).
Proof.
  intros Hl Hlen.
  assert (forall k fuel p i, fseg (heap s) p k None -> (length k < fuel)%nat -> 0 <= i ->
    i + zlen k < 2 ^ 32 ->
    fold_regions fuel (fun i _ => u32 (i + 1)) i p s = Ok (Some (i + zlen k), s)) as Hfold.
  { induction k as [|[a [[b n] g]] k IH]; intros fuel p i Hk Hf Hi Hw;
      (destruct fuel as [|fuel]; [cbn in Hf; lia|]); cbn [fold_regions].
    - cbn in Hk. subst p. change (zlen (@nil node)) with 0. rewrite Z.add_0_r. reflexivity.
    - destruct Hk as (-> & nx & pv & Ha & Hk). rewrite zlen_cons in *. pose proof (zlen_nonneg k).
      rewrite (bind_eq _ _ _ _ _ (deref_eq s a _ Ha)). cbn [r_next]. rewrite u32_id by lia.
      rewrite (IH fuel nx (i + 1) Hk) by (cbn in Hf; lia). do 3 f_equal. lia. }
  unfold block_allocation_num_regions, bind at 1, get_state. pose proof (zlen_nonneg l).
  rewrite (bind_eq _ _ _ _ _ (Hfold l _ _ 0 Hl (list_fuel_enough s l _ Hl) ltac:(lia) ltac:(lia))).
  unfold ret. rewrite s32_id by lia. reflexivity.
Qed.

(** The regions of a new allocation lie in different groups. *)
Lemma allocated_groups s s' l : allocated s s' l -> NoDup (node_groups l).
Proof.
  intros Hal. pose proof (al_nodup _ _ _ Hal) as Hnd. pose proof (al_runs _ _ _ Hal) as Hr.
  pose proof (al_nodes _ _ _ Hal) as Hn. clear Hal.
  induction l as [|[a [[b n] g]] l IH]; [constructor|]. cbn [node_groups map].
  unfold blocks_of in Hnd. cbn [map concat node_blocks] in Hnd. fold (blocks_of l) in Hnd.
  apply NoDup_app in Hnd as (_ & Hdis & Hnd). constructor.
  - intros Hin. apply list_elem_of_In, in_map_iff in Hin as ([a' [[b' n'] g']] & Eg & Hin). cbn in Eg. subst g'.
    apply list_elem_of_In in Hin.
    destruct (Hr a b n g ltac:(left)) as (c & Hc & E1).
    destruct (Hr a' b' n' g ltac:(right; exact Hin)) as (c' & Hc' & E2).
    rewrite Hc in Hc'. injection Hc' as <-.
    destruct (Hn a b n g ltac:(left)) as (_ & ? & _).
    destruct (Hn a' b' n' g ltac:(right; exact Hin)) as (_ & ? & _).
    apply (Hdis (b + n - 1)); [apply elem_of_seqZ; lia|].
    apply list_elem_of_In, in_concat. exists (seqZ b' n'). split; [|apply list_elem_of_In, elem_of_seqZ; lia].
    apply in_map_iff. exists (a', (b', n', g)). split; [reflexivity|]. apply list_elem_of_In. exact Hin.
  - apply IH; [exact Hnd|intros; eapply Hr; right; eassumption|intros; eapply Hn; right; eassumption].
Qed.

Lemma allocated_regions s s' l : fs_ok s -> allocated s s' l -> zlen l <= groups (aux_info s).
Proof.
  intros Hfs Hal. pose proof (allocated_groups _ _ _ Hal) as Hnd.
  assert (node_groups l ⊆ seqZ 0 (groups (aux_info s))) as Hsub.
  { intros g Hg. apply list_elem_of_In, in_map_iff in Hg as ([a [[b n] g']] & Eg & Hin). cbn in Eg. subst g'.
    apply list_elem_of_In in Hin. destruct (al_runs _ _ _ Hal _ _ _ _ Hin) as (c & Hc & _).
    destruct (al_inside _ _ _ Hal _ _ _ _ Hin) as (Hg & _). pose proof (bgs_bound s' g c Hg Hc).
    pose proof (fs_groups _ (al_ok _ _ _ Hal)) as Hn. destruct (al_globals _ _ _ Hal) as (_ & _ & Ea & _).
    rewrite Ea in Hn. apply elem_of_seqZ. lia. }
  pose proof (NoDup_submseteq _ _ Hnd Hsub) as Hs. apply submseteq_length in Hs.
  pose proof (geo_groups _ _ (fs_geometry _ Hfs)). rewrite length_seqZ in Hs.
  unfold node_groups in Hs. rewrite length_map in Hs. unfold zlen. lia.
Qed.


(** What an allocation for a file does to the counters of a group. *)
Definition group_step (d c : block_group_info) : Prop :=
  c = d \/ exists m, data_blocks_used c = s32 (data_blocks_used d + m) /\
             0 < m <= 2 * (first_free_block c - first_free_block d) /\ same_inodes d c.

Definition groups_step (s s' : fs) : Prop :=
  forall i c, bgs s' !! i = Some c -> exists d, bgs s !! i = Some d /\ group_step d c.

Lemma allocated_step s s' l : allocated s s' l -> groups_step s s'.
Proof.
  intros Hal i c Hc. destruct (decide (Z.of_nat i ∈ node_groups l)) as [Hin|Hn].
  - apply list_elem_of_In, in_map_iff in Hin as ([a [[b n] g]] & Eg & Hin). cbn in Eg. subst g.
    apply list_elem_of_In in Hin. destruct (al_used _ _ _ Hal _ _ _ _ Hin) as (d & c' & Hd & Hc' & F & U & Si).
    rewrite Nat2Z.id in *. rewrite Hc in Hc'. injection Hc' as <-. exists d. split; [exact Hd|]. right.
    exists n. destruct (al_nodes _ _ _ Hal _ _ _ _ Hin) as (_ & ? & _). split; [exact U|]. split; [lia|exact Si].
  - pose proof (al_others _ _ _ Hal (Z.of_nat i) ltac:(lia) Hn) as E. rewrite Nat2Z.id in E.
    exists c. rewrite <- E. split; [exact Hc|]. left. reflexivity.
Qed.

(** The allocation after the tree has its block [eb], if it needs one: [l] are
    the regions of the file, [T] the blocks of the tree, and the rest of the
    state is as it was. *)
Record tree_ready (s s' : fs) (alloc : block_allocation) (l : list node) (T : list Z) (n : Z) : Prop := {
  tr_iter : iter (list_ alloc) = first (list_ alloc) /\ partial_iter (list_ alloc) = 0;
  tr_seg : fseg (heap s') (first (list_ alloc)) l None;
  tr_len : total_len l = n;
  tr_ok : fs_ok s';
  tr_globals : same_globals s s';
  tr_image : sparse_file s' = sparse_file s /\ mem s' = mem s /\ itab s' = itab s;
  tr_fresh : fresh s <= fresh s' /\ heap_fresh s';
  tr_nodup : NoDup (T ++ blocks_of l);
  tr_free : forall x, free_block s' x <-> free_block s x /\ x ∉ T ++ blocks_of l;
  tr_were_free : forall x, x ∈ T ++ blocks_of l -> free_block s x;
  tr_nodes : forall a b n g, (a, (b, n, g)) ∈ l -> 0 < n <= blocks_per_group (info s) /\ 0 <= b /\ b + n < 2 ^ 32;
  tr_groups : groups_step s s';
  tr_oob : exists lo, fseg (heap s') (first (oob_list alloc)) lo None /\ forall c, c ∈ addrs lo -> c ∉ addrs l
}.

Definition unused_roomy (s : fs) : Prop :=
  forall i b, bgs s !! i = Some b -> unused b = true -> 2 <= free_blocks b.

Lemma unused_roomy_free s : unused_roomy s -> unused_free s.
Proof. intros H i b Hb Hu. specialize (H i b Hb Hu). lia. Qed.

(** A region of an allocation lies in its group. *)
Lemma allocated_node s s' l a b n g : fs_ok s -> allocated s s' l -> (a, (b, n, g)) ∈ l ->
  0 < n <= blocks_per_group (info s) /\ 0 <= b /\ b + n < 2 ^ 32.
Proof.
  intros Hfs Hal Hin. destruct (al_nodes _ _ _ Hal _ _ _ _ Hin) as (_ & Hn & Hb).
  destruct (al_inside _ _ _ Hal _ _ _ _ Hin) as (Hg & H1 & H2).
  destruct (al_runs _ _ _ Hal _ _ _ _ Hin) as (c & Hc & _). pose proof (bgs_bound s' g c Hg Hc) as Hbd.
  rewrite (fs_groups _ (al_ok _ _ _ Hal)) in Hbd. destruct (al_globals _ _ _ Hal) as (_ & _ & Ea & _).
  rewrite Ea in Hbd. pose proof (group_size_bound (info s) (aux_info s) g) as Hs.
  destruct (group_start_bound _ _ g (fs_geometry _ Hfs) Hbd) as (? & ?).
  pose proof (geo_group _ _ (fs_geometry _ Hfs)). lia.
Qed.

Lemma blocks_of_cons a b n g l : blocks_of ((a, (b, n, g)) :: l) = seqZ b n ++ blocks_of l.
Proof. reflexivity. Qed.

Lemma head_two s s' a l n b m g k : new_chain s s' a l n -> unused_roomy s -> 2 <= n ->
  l = (a, (b, m, g)) :: k -> 2 <= m.
Proof.
  intros (_ & _ & _ & _ & Hhd & _) Hr Hn El. destruct (Hhd _ _ El) as [E|(i & c & Hc & Hu & E)]; cbn in E; [lia|].
  pose proof (Hr _ _ Hc Hu). lia.
Qed.

Lemma fseg_reframe h h' l a p q : fseg h p l q -> a ∉ addrs l -> (forall c, c <> a -> h' !! c = h !! c) ->
  fseg h' p l q.
Proof.
  intros Hl Ha Hh. apply (fseg_frame h); [|exact Hl]. intros c Hc. apply Hh. congruence.
Qed.


(** The blocks of a chain whose first region gives its last block back. *)
Lemma head_last_block a b m g k : 0 < m -> NoDup (blocks_of ((a, (b, m, g)) :: k)) ->
  (forall x, x ∈ blocks_of ((a, (b, m, g)) :: k) <->
     x ∈ blocks_of ((a, (b, m - 1, g)) :: k) \/ x = b + (m - 1)) /\
  (b + (m - 1) ∉ blocks_of ((a, (b, m - 1, g)) :: k)) /\ NoDup (blocks_of ((a, (b, m - 1, g)) :: k)).
Proof.
  intros Hm Hnd. rewrite !blocks_of_cons in *.
  assert (seqZ b m = seqZ b (m - 1) ++ [b + (m - 1)]) as Eseq
    by (replace m with ((m - 1) + 1) at 1 by lia; rewrite seqZ_app by lia; reflexivity).
  rewrite Eseq, <- app_assoc in *. rewrite Permutation_app_comm in Hnd. cbn in Hnd.
  apply NoDup_cons in Hnd as (Hn & Hnd). rewrite Permutation_app_comm in Hn, Hnd.
  split; [|split; [exact Hn|exact Hnd]].
  intros x. rewrite !elem_of_app, list_elem_of_singleton. tauto.
Qed.

Lemma tree_block_small s s1 a l n nr : fs_ok s -> memory s -> unused_roomy s -> 0 < n ->
  new_chain s s1 a l (n + 1) -> nr <= 3 ->
  exists alloc s2 l', tree_block (mk_alloc (mk_list (Some a) (Some a) (Some a) 0) empty_list) nr s1 =
      Ok (Some (alloc, 0), s2) /\
    tree_ready s s2 alloc l' [] n /\ zlen l' = zlen l.
Proof.
  intros Hfs Hm Hroom Hn Hc Hnr.
  destruct (new_chain_head _ _ _ _ _ Hc) as (b & m & g & nx & k & El & Ha & Hk & Htr & Hm0).
  pose proof (head_two _ _ _ _ _ _ _ _ _ Hc Hroom ltac:(lia) El) as Hm2.
  pose proof Hc as (Hl & Hal & Ht & Hh & _ & Hfr). subst l.
  set (alloc := mk_alloc (mk_list (Some a) (Some a) (Some a) 0) empty_list).
  destruct (reduce_allocation_part s1 alloc a _ 1 (al_ok _ _ _ Hal) eq_refl Ha Htr ltac:(cbn; lia))
    as (c & bm & Hbc & Hrc & E & Hok). cbn [r_block r_len r_bg r_next r_prev] in *.
  set (s2 := set_heap _ _) in *. exists alloc, s2, ((a, (b, m - 1, g)) :: k).
  split; [unfold tree_block; rewrite (proj2 (Z.leb_le _ _)) by lia; rewrite (bind_eq _ _ _ _ _ E); reflexivity|].
  split; [|rewrite !zlen_cons; reflexivity].
  pose proof (proj1 (NoDup_cons _ _) (lseg_nodup _ _ _ _ Hl)) as (Hna & _).
  destruct (al_inside _ _ _ Hal a b m g ltac:(left)) as (Hg & _).
  destruct (head_last_block a b m g k Hm0 (al_nodup _ _ _ Hal)) as (Hin & Hlast & Hnd).
  split; cbn [list_ iter first partial_iter alloc app].
  - auto.
  - split; [reflexivity|]. exists nx, None. split; [apply lookup_insert_eq|].
    apply (fseg_reframe (heap s1) _ _ a); [exact (lseg_fseg _ _ _ _ _ Hk)|exact Hna|].
    intros d Hd. cbn. rewrite lookup_insert_ne by congruence. reflexivity.
  - change (total_len ((a, (b, m, g)) :: k)) with (m + total_len k) in Ht.
    change (total_len ((a, (b, m - 1, g)) :: k)) with (m - 1 + total_len k). lia.
  - exact Hok.
  - exact (al_globals _ _ _ Hal).
  - exact (al_sparse _ _ _ Hal).
  - split; [exact (al_fresh _ _ _ Hal)|]. intros d Hd. cbn in *. rewrite lookup_insert_ne; [apply Hh; exact Hd|].
    intros <-. rewrite (Hh _ Hd) in Ha. discriminate.
  - exact Hnd.
  - intros x. change (free_block s2 x) with
      (free_block (set_bgs s1 (<[Z.to_nat g := freed c 1 bm]> (bgs s1))) x).
    pose proof (fs_bgs _ (al_ok _ _ _ Hal) _ c Hg Hbc) as Hcg.
    rewrite free_block_freed by (auto; try lia; apply (bg_free _ _ _ _ Hcg)).
    rewrite (al_free _ _ _ Hal x), Hin, Hrc.
    split.
    + intros [(H1 & H2)|Hx]; [tauto|]. assert (x = b + (m - 1)) as -> by lia. split; [|exact Hlast].
      apply (al_were_free _ _ _ Hal), Hin. auto.
    + intros (H1 & H2). destruct (decide (x = b + (m - 1))) as [->|Hne]; [right; lia|]. left. tauto.
  - intros x Hx. apply (al_were_free _ _ _ Hal), Hin. auto.
  - intros a' b' n' g' Hin'. apply elem_of_cons in Hin' as [E'|Hin'].
    + injection E' as -> -> -> ->.
      destruct (allocated_node _ _ _ a b m g Hfs Hal ltac:(left)). lia.
    + exact (allocated_node _ _ _ a' b' n' g' Hfs Hal ltac:(right; exact Hin')).
  - intros j d Hd. cbn in Hd. destruct (decide (Z.to_nat g = j)) as [<-|Hne].
    + rewrite list_lookup_insert_eq in Hd by exact (lookup_lt_Some _ _ _ Hbc). injection Hd as <-.
      destruct (al_used _ _ _ Hal a b m g ltac:(left)) as (d0 & c' & Hd0 & Hc' & F & U & Si).
      rewrite Hbc in Hc'. injection Hc' as <-. exists d0. split; [exact Hd0|]. right. exists m.
      split; [exact U|]. split; [cbn; lia|exact Si].
    + rewrite list_lookup_insert_ne in Hd by exact Hne. exact (allocated_step _ _ _ Hal j d Hd).
  - exists []. split; [reflexivity|]. intros d Hd. inversion Hd.
Qed.


Lemma tree_block_large s s1 a l n nr : fs_ok s -> memory s -> unused_roomy s -> 0 < n ->
  new_chain s s1 a l (n + 1) -> 3 < nr ->
  exists alloc s2 l' eb, tree_block (mk_alloc (mk_list (Some a) (Some a) (Some a) 0) empty_list) nr s1 =
      Ok (Some (alloc, eb), s2) /\
    tree_ready s s2 alloc l' [eb] n /\ zlen l' = zlen l.
Proof.
  intros Hfs Hm Hroom Hn Hc Hnr.
  destruct (new_chain_head _ _ _ _ _ Hc) as (b & m & g & nx & k & El & Ha & Hk & Htr & Hm0).
  pose proof (head_two _ _ _ _ _ _ _ _ _ Hc Hroom ltac:(lia) El) as Hm2.
  pose proof Hc as (Hl & Hal & Ht & Hh & _ & Hfr). subst l.
  destruct (allocated_node _ _ _ a b m g Hfs Hal ltac:(left)) as (Hmb & Hb & Hbm).
  destruct (al_globals _ _ _ Hal) as (_ & Ei & Ea & Ev).
  assert (memory s1) as Hm1 by (intros x; rewrite Ev; apply Hm).
  assert (heap s1 !! fresh s1 = None) as Hn1 by (apply Hh; lia).
  pose proof (reserve_oob_spec s1 (Some a) a b m g nx 1 Hm1 Ha Hn1 ltac:(lia) Hb Hbm) as E.
  destruct (decide (Some a = Some a)) as [_|]; [|congruence].
  set (alloc := mk_alloc _ _) in E at 2. set (s2 := oob_state s1 a b m g nx 1) in *.
  set (f := fresh s1) in *. assert (a <> f) as Haf by congruence.
  pose proof (proj1 (NoDup_cons _ _) (lseg_nodup _ _ _ _ Hl)) as (Hna & _).
  assert (f ∉ addrs k) as Hnf.
  { intros Hin. destruct (fseg_lookup _ _ _ _ _ (lseg_fseg _ _ _ _ _ Hk) Hin) as (r & Hr). congruence. }
  assert (heap s2 !! a = Some (mk_region b 1 g None None)) as Ha2 by apply lookup_insert_eq.
  assert (heap s2 !! f = Some (mk_region (b + 1) (m - 1) g nx None)) as Hf2
    by (cbn; rewrite lookup_insert_ne by congruence; apply lookup_insert_eq).
  exists alloc, s2, ((f, (b + 1, m - 1, g)) :: k), b.
  split.
  { unfold tree_block. rewrite (proj2 (Z.leb_gt _ _)) by lia. rewrite (bind_eq _ _ _ _ _ E).
    assert (get_oob_block alloc 0 s2 = Ok (Some b, s2)) as Eg; [|rewrite (bind_eq _ _ _ _ _ Eg); reflexivity].
    unfold get_oob_block. rewrite (get_list_block_spec s2 (oob_list alloc) [(a, (b, 1, g))] 0); cbn; try lia.
    - reflexivity.
    - split; [reflexivity|]. exists None, None. auto.
    - intros a' b' n' g' Hin. apply list_elem_of_singleton in Hin. injection Hin as -> -> -> ->. lia. }
  split; [|rewrite !zlen_cons; reflexivity].
  assert (blocks_of ((a, (b, m, g)) :: k) = [b] ++ blocks_of ((f, (b + 1, m - 1, g)) :: k)) as Ebl
    by (rewrite !blocks_of_cons, (seqZ_cons b m) by lia; reflexivity).
  split; cbn [list_ iter first partial_iter alloc]; rewrite <- ?Ebl.
  - auto.
  - split; [reflexivity|]. exists nx, None. split; [exact Hf2|].
    apply (fseg_reframe (<[f := mk_region (b + 1) (m - 1) g nx None]> (heap s1)) _ _ a); [|exact Hna|].
    + apply (fseg_reframe (heap s1) _ _ f); [exact (lseg_fseg _ _ _ _ _ Hk)|exact Hnf|].
      intros d Hd. rewrite lookup_insert_ne by congruence. reflexivity.
    + intros d Hd. cbn. rewrite lookup_insert_ne by congruence. reflexivity.
  - change (total_len ((a, (b, m, g)) :: k)) with (m + total_len k) in Ht.
    change (total_len ((f, (b + 1, m - 1, g)) :: k)) with (m - 1 + total_len k). lia.
  - destruct (al_ok _ _ _ Hal) as [G N B]. split; assumption.
  - exact (al_globals _ _ _ Hal).
  - exact (al_sparse _ _ _ Hal).
  - pose proof (al_fresh _ _ _ Hal). split; [cbn; lia|]. intros d Hd. cbn in *. rewrite !lookup_insert_ne.
    + apply Hh. lia.
    + unfold f. lia.
    + intros <-. assert (heap s1 !! a = None) as Hx by (apply Hh; lia). congruence.
  - exact (al_nodup _ _ _ Hal).
  - exact (al_free _ _ _ Hal).
  - exact (al_were_free _ _ _ Hal).
  - intros a' b' n' g' Hin'. apply elem_of_cons in Hin' as [E'|Hin'].
    + injection E' as -> -> -> ->. lia.
    + exact (allocated_node _ _ _ a' b' n' g' Hfs Hal ltac:(right; exact Hin')).
  - exact (allocated_step _ _ _ Hal).
  - exists [(a, (b, 1, g))]. split; [split; [reflexivity|]; exists None, None; split; [exact Ha2|reflexivity]|].
    intros d Hd. apply list_elem_of_singleton in Hd. subst d. intros Hin.
    apply elem_of_cons in Hin as [Hin|Hin]; [exact (Haf Hin)|exact (Hna Hin)].
Qed.


(** ** Contents queued for allocated blocks *)

(** The block is one of the image, and not free. *)
Definition in_use (s : fs) (x : Z) : Prop := x < len_blocks (aux_info s) /\ ~ free_block s x.

Lemma header_inside i a g super : geometry_ok i a -> 0 <= g < groups a -> ext4_bg_has_super_block i g = Ok super ->
  group_start i a g + header_size i a super <= len_blocks a.
Proof. intros G Hg Hs. pose proof (geo_header _ _ G g super Hg Hs) as H. unfold group_size in H. lia. Qed.

Lemma free_bound s x : fs_ok s -> free_block s x -> 0 <= x < len_blocks (aux_info s).
Proof.
  intros Hfs (i & b & Hi & Hb & Hx). destruct (run_start_bound s i b Hfs Hi Hb) as (_ & _ & H & _).
  destruct (fs_bgs _ Hfs i b Hi Hb) as [F _ _ (_ & _ & _ & Hs) _ _ _]. unfold run_start in *. unfold group_size in Hs. lia.
Qed.

(** The queue of the image: no two entries overlap, and nothing is queued for
    a block that is still free. *)
Record queue_inv (s : fs) : Prop := {
  qi_size : BackedBlock.block_size (SparseFile.s_list (sparse_file s)) = block_size (info s);
  qi_ok : BackedBlock.bbl_ok (SparseFile.s_list (sparse_file s));
  qi_live : BackedBlock.last_used_live (SparseFile.s_list (sparse_file s));
  qi_addr : forall bb, In bb (queued s) -> BackedBlock.bb_addr bb < fresh s;
  qi_used : forall bb x, In bb (queued s) ->
    BackedBlock.block bb <= x < BackedBlock.bb_end (block_size (info s)) bb -> in_use s x;
  qi_names : forall bb f name o, In bb (queued s) -> BackedBlock.payload bb = BackedBlock.bb_file f name o ->
    f < fresh s
}.

(** The blocks from [b] on are free for the queue. *)
Definition unqueued (s : fs) (b n : Z) : Prop :=
  forall bb, In bb (queued s) ->
    BackedBlock.bb_end (block_size (info s)) bb <= b \/ b + n <= BackedBlock.block bb.

Lemma queue_inv_unqueued s b n : queue_inv s -> 0 < n -> (forall x, b <= x < b + n -> free_block s x) ->
  unqueued s b n.
Proof.
  intros [Q1 Q2 Q3 Q4 Q5 _] Hn Hf bb Hin. destruct Q2 as (Hbs & Hblk & _).
  destruct (BackedBlock.blocks_ok_in _ _ _ _ bb Hbs Hblk Hin) as (_ & Hnode & _).
  rewrite Q1 in *. pose proof (BackedBlock.bb_end_gt _ _ Hbs Hnode) as Hlt.
  destruct (Z.le_gt_cases (BackedBlock.bb_end (block_size (info s)) bb) b); [auto|].
  destruct (Z.le_gt_cases (b + n) (BackedBlock.block bb)); [auto|]. exfalso.
  apply (proj2 (Q5 bb (Z.max b (BackedBlock.block bb)) Hin ltac:(lia))). apply Hf. lia.
Qed.

(** Memory or a file, with a pointer for the name that is not in use. *)
Definition new_payload (lo hi : Z) (p : BackedBlock.bb_payload) : Prop :=
  match p with
  | BackedBlock.bb_data _ => True
  | BackedBlock.bb_file f _ _ => lo <= f < hi
  | _ => False
  end.

Lemma new_payload_merge s bb new hi : queue_inv s -> In bb (queued s) ->
  new_payload (fresh s) hi (BackedBlock.payload new) ->
  BackedBlock.mergeable bb new = false /\ BackedBlock.mergeable new bb = false.
Proof.
  intros Hq Hin Hp. unfold BackedBlock.mergeable.
  destruct (BackedBlock.payload new) as [d|f name o|fd o|v] eqn:En; cbn in Hp; try contradiction.
  - destruct (BackedBlock.payload bb); auto.
  - destruct (BackedBlock.payload bb) as [d|f' name' o'|fd o'|v] eqn:Eb; auto.
    pose proof (qi_names _ Hq bb f' name' o' Hin Eb).
    rewrite (proj2 (Z.eqb_neq f' f)), (proj2 (Z.eqb_neq f f')) by lia. auto.
Qed.

(** Contents queued for blocks that are taken become one more entry. *)
Lemma queue_insert s new hi : queue_inv s -> fresh s <= BackedBlock.bb_addr new < hi ->
  new_payload (fresh s) hi (BackedBlock.payload new) ->
  BackedBlock.node_ok (block_size (info s)) new ->
  unqueued s (BackedBlock.block new) (DIV_ROUND_UP (BackedBlock.len new) (block_size (info s))) ->
  (forall x, BackedBlock.block new <= x < BackedBlock.bb_end (block_size (info s)) new -> in_use s x) ->
  exists lst l1 l2, BackedBlock.queue_bb (SparseFile.s_list (sparse_file s)) new = Ok (0, lst) /\
    queued s = l1 ++ l2 /\ BackedBlock.data_blocks lst = l1 ++ new :: l2 /\
    forall s', info s' = info s -> aux_info s' = aux_info s -> bgs s' = bgs s -> fresh s' = hi ->
      SparseFile.s_list (sparse_file s') = lst -> queue_inv s'.
Proof.
  intros Hq Ha Hp Hnode Huq Hnf. pose proof Hq as [Q1 Q2 Q3 Q4 Q5 Q6].
  destruct (BackedBlock.queue_bb_insert (SparseFile.s_list (sparse_file s)) new)
    as (l1 & l2 & lu & El & Eq & Hok & Hlive); rewrite ?Q1; auto.
  - intros Hin. apply in_map_iff in Hin as (a & Ea & Hin). specialize (Q4 a Hin). lia.
  - intros a Hin. exact (new_payload_merge s a new hi Hq Hin Hp).
  - eexists _, l1, l2. split; [exact Eq|]. split; [exact El|]. split; [reflexivity|].
    intros s' Ei Ea Eb Ef Es.
    assert (forall bb, In bb (queued s') -> In bb (queued s) \/ bb = new) as Hin.
    { intros bb. unfold queued at 1 2. rewrite Es, El. cbn. rewrite !in_app_iff. cbn. intuition. }
    assert (forall x, free_block s' x -> free_block s x) as Hfr by (unfold free_block; rewrite Eb; auto).
    split; rewrite ?Es, ?Ei, ?Ef; auto.
    + intros bb Hb. apply Hin in Hb as [Hb| ->]; [specialize (Q4 bb Hb)|]; lia.
    + intros bb x Hb Hx. assert (in_use s x) as (H1 & H2) by (apply Hin in Hb as [Hb| ->]; [exact (Q5 bb x Hb Hx)|exact (Hnf x Hx)]).
      split; [congruence|intros Hf; exact (H2 (Hfr x Hf))].
    + intros bb f name o Hb E. apply Hin in Hb as [Hb| ->]; [specialize (Q6 bb f name o Hb E); lia|].
      rewrite E in Hp. cbn in Hp. lia.
Qed.

(** A buffer. *)
Lemma queue_add_data s d n b : memory s -> queue_inv s -> 0 < n < 2 ^ 32 -> 0 <= b ->
  b + DIV_ROUND_UP n (block_size (info s)) <= 2 ^ 32 ->
  unqueued s b (DIV_ROUND_UP n (block_size (info s))) ->
  (forall x, b <= x < b + DIV_ROUND_UP n (block_size (info s)) -> in_use s x) ->
  let new := BackedBlock.mk_bb (fresh s) b n (BackedBlock.bb_data d) in
  exists f l1 l2, sparse_add_data d n b s = Ok (Some tt, set_sparse (bump s) f) /\
    queued s = l1 ++ l2 /\ BackedBlock.data_blocks (SparseFile.s_list f) = l1 ++ new :: l2 /\
    queue_inv (set_sparse (bump s) f).
Proof.
  intros Hm Hq Hn Hb He Huq Hnf new.
  destruct (queue_insert s new (fresh s + 1) Hq) as (lst & l1 & l2 & Eq & El & Ed & Hinv);
    [cbn; lia|exact I|repeat split; cbn; try lia; exact He|exact Huq|exact Hnf|].
  exists (SparseFile.set_list (sparse_file s) lst), l1, l2.
  split; [|split; [exact El|split; [exact Ed|apply Hinv; reflexivity]]].
  unfold sparse_add_data, bind. rewrite malloc_eq by exact Hm.
  unfold SparseFile.sparse_file_add_data, SparseFile.with_list, BackedBlock.backed_block_add_data.
  cbn [sparse_file bump]. fold new. rewrite Eq. reflexivity.
Qed.

(** A part of a file. *)
Lemma queue_add_file s name o n b : memory s -> queue_inv s -> 0 < n < 2 ^ 32 -> 0 <= b ->
  0 <= o -> o + n < 2 ^ 63 ->
  b + DIV_ROUND_UP n (block_size (info s)) <= 2 ^ 32 ->
  unqueued s b (DIV_ROUND_UP n (block_size (info s))) ->
  (forall x, b <= x < b + DIV_ROUND_UP n (block_size (info s)) -> in_use s x) ->
  let new := BackedBlock.mk_bb (fresh s) b n (BackedBlock.bb_file (fresh s + 1) name o) in
  exists f l1 l2, sparse_add_file name o n b s = Ok (Some tt, set_sparse (bump (bump s)) f) /\
    queued s = l1 ++ l2 /\ BackedBlock.data_blocks (SparseFile.s_list f) = l1 ++ new :: l2 /\
    queue_inv (set_sparse (bump (bump s)) f).
Proof.
  intros Hm Hq Hn Hb Ho Hon He Huq Hnf new.
  destruct (queue_insert s new (fresh s + 1 + 1) Hq) as (lst & l1 & l2 & Eq & El & Ed & Hinv);
    [cbn; lia|cbn; lia|repeat split; cbn; try lia; exact He|exact Huq|exact Hnf|].
  exists (SparseFile.set_list (sparse_file s) lst), l1, l2.
  split; [|split; [exact El|split; [exact Ed|apply Hinv; reflexivity]]].
  unfold sparse_add_file, bind. rewrite !malloc_eq by (intros x; apply Hm).
  unfold SparseFile.sparse_file_add_file, SparseFile.with_list, BackedBlock.backed_block_add_file.
  change (sparse_file (bump (bump s))) with (sparse_file s).
  change (default 0 (Some (fresh (bump s)))) with (fresh s + 1). fold new. rewrite Eq. reflexivity.
Qed.

(** A buffer of one block. *)
Definition whole_buffer (s : fs) (d : Z) : option (list Z) :=
  match mem s !! d with
  | Some buf => if zlen buf =? block_size (info s) then Some buf else None
  | None => None
  end.

(** The buffer of one block that is queued for [b]. *)
Definition block_buffer (s : fs) (b : Z) : option (list Z) :=
  match find (fun bb => BackedBlock.block bb =? b) (queued s) with
  | Some bb => match BackedBlock.payload bb with
               | BackedBlock.bb_data d => whole_buffer s d
               | _ => None
               end
  | None => None
  end.

Lemma find_new (l1 l2 : list BackedBlock.backed_block) new b : BackedBlock.block new = b ->
  (forall bb, In bb (l1 ++ l2) -> BackedBlock.block bb <> b) ->
  find (fun bb => BackedBlock.block bb =? b) (l1 ++ new :: l2) = Some new.
Proof.
  intros Hb Hne. induction l1 as [|x l1 IH]; cbn.
  - rewrite Hb, Z.eqb_refl. reflexivity.
  - rewrite (proj2 (Z.eqb_neq _ _)) by (apply Hne; left; reflexivity).
    apply IH. intros bb Hin. apply Hne. right. exact Hin.
Qed.


(** Buffers have addresses that were handed out. *)
Definition mem_fresh (s : fs) : Prop := forall a b, mem s !! a = Some b -> a < fresh s.

(** What is in the image stays there. *)
Record image_grows (s s' : fs) : Prop := {
  ig_info : info s' = info s;
  ig_queued : forall bb, In bb (queued s) -> In bb (queued s');
  ig_mem : forall a b, mem s !! a = Some b -> mem s' !! a = Some b
}.

Lemma image_grows_trans s1 s2 s3 : image_grows s1 s2 -> image_grows s2 s3 -> image_grows s1 s3.
Proof. intros [A B C] [A' B' C']. split; [congruence|auto|auto]. Qed.

(** The entries of a list without overlap that cover a block are one entry. *)
Lemma blocks_ok_unique bs l : forall lo hi a b x, 0 < bs -> BackedBlock.blocks_ok bs lo l hi ->
  In a l -> In b l -> BackedBlock.block a <= x < BackedBlock.bb_end bs a ->
  BackedBlock.block b <= x < BackedBlock.bb_end bs b -> a = b.
Proof.
  induction l as [|c l IH]; intros lo hi a b x Hbs Hok Ha Hb Hxa Hxb; [destruct Ha|].
  destruct Hok as (_ & _ & Hok).
  assert (forall y, In y l -> BackedBlock.bb_end bs c <= BackedBlock.block y) as Hge
    by (intros y Hy; exact (proj1 (BackedBlock.blocks_ok_in _ _ _ _ y Hbs Hok Hy))).
  destruct Ha as [<-|Ha], Hb as [<-|Hb].
  - reflexivity.
  - specialize (Hge b Hb). lia.
  - specialize (Hge a Ha). lia.
  - exact (IH _ _ a b x Hbs Hok Ha Hb Hxa Hxb).
Qed.

(** The entry that starts at a block stays the one that is found. *)
Lemma find_stable s s' b bb : queue_inv s' -> image_grows s s' ->
  find (fun bb => BackedBlock.block bb =? b) (queued s) = Some bb ->
  find (fun bb => BackedBlock.block bb =? b) (queued s') = Some bb.
Proof.
  intros [Q1 (Hbs & Q2 & _) _ _ _ _] [_ Hq _] E.
  apply find_some in E as (Hin & Eb). apply Z.eqb_eq in Eb. apply Hq in Hin.
  assert (forall c, In c (queued s') -> BackedBlock.block c <= BackedBlock.block c
    < BackedBlock.bb_end (BackedBlock.block_size (SparseFile.s_list (sparse_file s'))) c) as Hcov.
  { intros c Hc. destruct (BackedBlock.blocks_ok_in _ _ _ _ c Hbs Q2 Hc) as (_ & Hnode & _).
    pose proof (BackedBlock.bb_end_gt _ _ Hbs Hnode). lia. }
  destruct (find _ (queued s')) as [c|] eqn:E'.
  - apply find_some in E' as (Hc & Ec). apply Z.eqb_eq in Ec.
    pose proof (Hcov c Hc) as H1. pose proof (Hcov bb Hin) as H2. rewrite Ec in H1. rewrite Eb in H2.
    rewrite (blocks_ok_unique _ _ _ _ c bb b Hbs Q2 Hc Hin ltac:(lia) ltac:(lia)). reflexivity.
  - pose proof (find_none _ _ E' bb Hin) as Ht. cbn in Ht. rewrite Eb, Z.eqb_refl in Ht. discriminate.
Qed.

Lemma block_buffer_stable s s' b d : queue_inv s' -> image_grows s s' ->
  block_buffer s b = Some d -> block_buffer s' b = Some d.
Proof.
  intros Hq' Hg Hd. unfold block_buffer in *.
  destruct (find _ (queued s)) as [bb|] eqn:E; [|discriminate]. rewrite (find_stable s s' b bb Hq' Hg E).
  destruct (BackedBlock.payload bb) as [a| | |]; try discriminate. unfold whole_buffer in *. destruct Hg as [Ei _ Hm].
  destruct (mem s !! a) as [x|] eqn:Ex; [|discriminate]. rewrite (Hm a x Ex), Ei. exact Hd.
Qed.

(** The buffer with the extents of a file, when they are not in the inode. *)
Definition leaf_addr (s : fs) (i : ext4_inode) : option Z :=
  if eh_depth (header_of_bytes (i_block i)) =? 0 then None
  else match find (fun bb => BackedBlock.block bb =? le_val (sub_bytes (i_block i) 16 4)) (queued s) with
       | Some bb => match BackedBlock.payload bb with BackedBlock.bb_data d => Some d | _ => None end
       | None => None
       end.

(** Writing to another buffer does not change the tree. *)
Lemma file_blocks_put s i a buf : leaf_addr s i <> Some a ->
  file_blocks (block_buffer (set_mem s a buf)) i = file_blocks (block_buffer s) i.
Proof.
  intros Hl. unfold file_blocks, read_tree, leaf_addr in *.
  destruct (eh_depth _ =? 0); [reflexivity|]. destruct (_ || _); [reflexivity|].
  unfold block_buffer at 1 2. change (queued (set_mem s a buf)) with (queued s).
  destruct (find _ (queued s)) as [bb|]; [|reflexivity]. destruct (BackedBlock.payload bb) as [d| | |]; try reflexivity.
  unfold whole_buffer. cbn. rewrite lookup_insert_ne by congruence. reflexivity.
Qed.

Lemma leaf_addr_stable s s' i bl : queue_inv s' -> image_grows s s' ->
  file_blocks (block_buffer s) i = Some bl -> leaf_addr s' i = leaf_addr s i.
Proof.
  intros Hq Hg Hf. unfold file_blocks, read_tree, leaf_addr in *. destruct (eh_depth _ =? 0); [reflexivity|].
  destruct (_ || _); [discriminate|]. unfold block_buffer in Hf.
  destruct (find _ (queued s)) as [bb|] eqn:E; [|discriminate].
  rewrite (find_stable s s' _ bb Hq Hg E). reflexivity.
Qed.

(** A file stays readable when others are added. *)
Lemma file_blocks_stable s s' i bl : queue_inv s' -> image_grows s s' ->
  file_blocks (block_buffer s) i = Some bl -> file_blocks (block_buffer s') i = Some bl.
Proof.
  intros Hq Hg. unfold file_blocks, read_tree. destruct (eh_depth _ =? 0); [auto|].
  destruct (_ || _); [auto|].
  destruct (block_buffer s _) as [d|] eqn:E; [|discriminate].
  rewrite (block_buffer_stable s s' _ d Hq Hg E). auto.
Qed.

(** ** Allocating a file *)

(** The end of the inode table of a group, which is the end of its header. *)
Definition table_end (s : fs) (i : nat) (b : block_group_info) : Z :=
  group_start (info s) (aux_info s) (Z.of_nat i) + header_size (info s) (aux_info s) (has_superblock b).

(** New entries of the queue are for blocks that were free. *)
Definition queues_free (s s' : fs) : Prop :=
  forall bb, In bb (queued s') -> In bb (queued s) \/
    forall x, BackedBlock.block bb <= x < BackedBlock.bb_end (block_size (info s)) bb -> free_block s x.

Lemma queues_free_unqueued s s' b n : queue_inv s' -> info s' = info s -> queues_free s s' ->
  (forall x, b <= x < b + n -> ~ free_block s x) -> unqueued s b n -> 0 < n -> unqueued s' b n.
Proof.
  intros [Q1 (Hbs & Q2 & _) _ _ _ _] Ei Hqf Hnf Hu Hn bb Hin. rewrite Q1, Ei in *.
  destruct (Hqf bb Hin) as [Hold|Hfree]; [exact (Hu bb Hold)|].
  destruct (BackedBlock.blocks_ok_in _ _ _ _ bb Hbs Q2 Hin) as (_ & Hnode & _).
  pose proof (BackedBlock.bb_end_gt _ _ Hbs Hnode) as Hgt.
  destruct (Z.le_gt_cases (BackedBlock.bb_end (block_size (info s)) bb) b); [auto|].
  destruct (Z.le_gt_cases (b + n) (BackedBlock.block bb)); [auto|]. exfalso.
  apply (Hnf (Z.max b (BackedBlock.block bb))); [lia|]. apply Hfree. lia.
Qed.

(** The states in which files are added: enough room in each group without
    data, extents and a leaf of the tree that can hold what they must. *)
Record fs_ready (s : fs) : Prop := {
  rd_ok : fs_ok s;
  rd_memory : memory s;
  rd_fresh : heap_fresh s;
  rd_roomy : unused_roomy s;
  rd_queue : queue_inv s;
  rd_zero : ~ free_block s 0;
  rd_mem : mem_fresh s;
  rd_used : forall i b, bgs s !! i = Some b -> 0 <= data_blocks_used b <= 2 * first_free_block b;
  rd_header : forall i b x, bgs s !! i = Some b ->
    group_start (info s) (aux_info s) (Z.of_nat i) <= x < table_end s i b -> ~ free_block s x;
  rd_tables : forall i b, bgs s !! i = Some b -> inode_table b = None ->
    unqueued s (table_end s i b - inode_table_blocks (aux_info s)) (inode_table_blocks (aux_info s));
  rd_itab : 0 < inode_table_blocks (aux_info s);
  rd_hsize : forall i b, bgs s !! i = Some b ->
    header_size (info s) (aux_info s) (has_superblock b) <= group_size (info s) (aux_info s) (Z.of_nat i);
  rd_group : blocks_per_group (info s) <= 2 ^ 15;
  rd_leaf : 12 + 12 * groups (aux_info s) <= block_size (info s) < 2 ^ 16
}.

(** Files added one after the other find the file system ready. *)
Lemma fs_ready_step s s' : fs_ready s -> fs_ok s' -> same_globals s s' -> heap_fresh s' -> queue_inv s' ->
  (forall x, free_block s' x -> free_block s x) -> groups_step s s' -> mem_fresh s' -> queues_free s s' ->
  fs_ready s'.
Proof.
  intros [R1 R2 R3 R4 R5 R6 R6' R7 Rh Rt Ri Rz R8 R9] Hfs (_ & Ei & Ea & Ev) Hh Hq Hfr Hg Hmf Hqf.
  assert (forall i c, bgs s' !! i = Some c -> exists d, bgs s !! i = Some d /\
    inode_table c = inode_table d /\ table_end s' i c = table_end s i d /\ has_superblock c = has_superblock d) as Htab.
  { intros i c Hc. destruct (Hg i c Hc) as (d & Hd & [->|(m & _ & _ & Hs & Ht & _)]); exists d;
      unfold table_end; rewrite Ei, Ea; [auto|rewrite Hs; auto]. }
  assert (forall i c, bgs s' !! i = Some c -> exists d, bgs s !! i = Some d /\
    (c = d \/ 0 < data_blocks_used c <= 2 * first_free_block c)) as Hstep.
  { intros i c Hc. destruct (Hg i c Hc) as (d & Hd & [->|(m & U & Hm & _)]); [eauto|].
    exists d. split; [exact Hd|]. right. specialize (R7 i d Hd).
    rewrite <- (Nat2Z.id i) in Hc. pose proof (fs_bgs _ Hfs (Z.of_nat i) c ltac:(lia) Hc) as [_ _ _ Fr _ _ _].
    rewrite Ei in Fr. rewrite U, s32_id by lia. lia. }
  split; rewrite ?Ei, ?Ea; auto.
  - intros x. rewrite Ev. apply R2.
  - intros i c Hc Hu. destruct (Hstep i c Hc) as (d & Hd & [->|Hp]); [exact (R4 i d Hd Hu)|].
    apply Z.eqb_eq in Hu. lia.
  - intros i c Hc. destruct (Hstep i c Hc) as (d & Hd & [->|Hp]); [exact (R7 i d Hd)|lia].
  - intros i c x Hc Hx Hf. destruct (Htab i c Hc) as (d & Hd & _ & Et & _). rewrite Et in Hx.
    exact (Rh i d x Hd Hx (Hfr x Hf)).
  - intros i c Hc Hn. destruct (Htab i c Hc) as (d & Hd & En & Et & _). rewrite Et. rewrite En in Hn.
    apply (queues_free_unqueued s); auto. intros x Hx. apply (Rh i d x Hd).
    pose proof (geo_tables _ _ (fs_geometry _ R1)) as (T1 & T2 & T3). unfold table_end, header_size in *.
    destruct (has_superblock d); lia.
  - intros i c Hc. destruct (Htab i c Hc) as (d & Hd & _ & _ & Es). rewrite Es. exact (Rz i d Hd).
Qed.

(** The result: [l] are the regions of the file, [T] the block of its tree. *)
Record file_allocated (s s' : fs) (alloc : block_allocation) (i i' : ext4_inode)
    (l : list node) (T : list Z) (len : Z) : Prop := {
  fa_iter : iter (list_ alloc) = first (list_ alloc) /\ partial_iter (list_ alloc) = 0;
  fa_seg : fseg (heap s') (first (list_ alloc)) l None;
  fa_len : total_len l = DIV_ROUND_UP len (block_size (info s));
  fa_ok : fs_ok s';
  fa_globals : same_globals s s';
  fa_fresh : heap_fresh s';
  fa_queue : queue_inv s';
  fa_nodup : NoDup (T ++ blocks_of l);
  fa_were_free : forall x, x ∈ T ++ blocks_of l -> free_block s x;
  fa_free : forall x, free_block s' x <-> free_block s x /\ x ∉ T ++ blocks_of l;
  fa_nodes : forall a b n g, (a, (b, n, g)) ∈ l ->
    0 < n <= blocks_per_group (info s) /\ 0 <= b /\ b + n < 2 ^ 32;
  fa_tree : file_blocks (block_buffer s') i' = Some (blocks_of l);
  fa_inode : exists b, zlen b = zlen (i_block i) /\ i' = set_sizes (set_iblock i b) len
    ((DIV_ROUND_UP len (block_size (info s)) + zlen T) * block_size (info s) / 512);
  fa_unqueued : forall x, x ∈ blocks_of l -> unqueued s' x 1;
  fa_groups : groups_step s s';
  fa_only : queues_free s s';
  fa_mem : mem_fresh s';
  fa_grows : image_grows s s';
  fa_itab : itab s' = itab s;
  fa_leaf : forall a, leaf_addr s' i' = Some a -> fresh s <= a < fresh s';
  fa_oob : exists lo, fseg (heap s') (first (oob_list alloc)) lo None /\ (forall c, c ∈ addrs lo -> c ∉ addrs l);
  fa_fresh_le : fresh s <= fresh s';
  fa_tree_len : zlen T <= 1
}.

Lemma small_of_nodes bpg l : bpg <= 2 ^ 15 ->
  (forall a b n g, (a, (b, n, g)) ∈ l -> 0 < n <= bpg /\ 0 <= b /\ b + n < 2 ^ 32) -> small_nodes l.
Proof. intros Hb H a b n g Hin. destruct (H a b n g Hin). lia. Qed.

Lemma splice_len b off bs b' : splice b off bs = Ok b' -> zlen b' = zlen b.
Proof.
  unfold splice. destruct ((0 <=? off) && _) eqn:E; [|discriminate]. intros [= <-].
  apply andb_true_iff in E as (H1 & H2). apply Z.leb_le in H1, H2. pose proof (zlen_nonneg bs).
  rewrite !zlen_app. unfold zlen in *. rewrite length_take, length_drop. lia.
Qed.

(** Writing extents keeps the size of the buffer. *)
Lemma extents_loop_len fuel : forall alloc fb off buf s al b s',
  extents_loop fuel alloc fb off buf s = Ok (Some (al, b), s') -> zlen b = zlen buf.
Proof.
  induction fuel as [|fuel IH]; intros alloc fb off buf s al b s'; cbn [extents_loop]; [discriminate|].
  destruct (last_region alloc); [intros [= _ <- _]; reflexivity|]. unfold bind, lift.
  destruct (get_region alloc s) as [[[[rb rl]|] s1]| | |]; try discriminate.
  destruct (splice buf off _) as [b1| | |] eqn:Es; try discriminate. cbn [obind].
  destruct (get_next_region alloc s1) as [[[al1|] s2]| | |]; try discriminate.
  intros E. rewrite (IH _ _ _ _ _ _ _ _ E). exact (splice_len _ _ _ _ Es).
Qed.

(** The extents behind a header in a buffer with room for them, and what a
    reader finds. *)
Lemma write_leaf s l f la o hdr rest max : fseg (heap s) f l None -> small_nodes l ->
  total_len l < 2 ^ 32 -> zlen l <= max < 2 ^ 16 -> zlen l * 12 <= zlen rest ->
  hdr = mk_eh EXT4_EXT_MAGIC (zlen l) max 0 0 ->
  exists b, extents_loop (list_fuel s) (mk_alloc (mk_list f la f 0) o) 0 sizeof_extent (header_bytes hdr ++ rest) s =
      Ok (Some (mk_alloc (mk_list f la None 0) o, b), s) /\
    read_leaf b = Some (extents_of 0 l) /\ eh_depth (header_of_bytes b) = 0 /\
    zlen b = zlen (header_bytes hdr ++ rest).
Proof.
  intros Hl Hsm Ht Hmax Hr ->. set (hdr := mk_eh _ _ _ _ _).
  assert (exists o1 o2, rest = o1 ++ o2 /\ zlen o1 = 12 * zlen l) as (o1 & o2 & -> & Ho1).
  { exists (take (12 * length l) rest), (drop (12 * length l) rest). split; [symmetry; apply take_drop|].
    unfold zlen in *. rewrite length_take. lia. }
  assert (zlen (extents_of 0 l) = zlen l) as Hel by (unfold zlen; rewrite extents_of_length; reflexivity).
  assert (header_ok hdr) as Hh
    by (pose proof (zlen_nonneg l); unfold header_ok, EXT4_EXT_MAGIC, hdr; cbn [eh_magic eh_entries eh_max eh_depth eh_generation]; unfold EXT4_EXT_MAGIC; lia).
  assert (forall (P Q : list Z -> Prop) al, (exists b, extents_loop (list_fuel s) (mk_alloc (mk_list f la f 0) o) 0 sizeof_extent
    (header_bytes hdr ++ o1 ++ o2) s = Ok (Some (al, b), s) /\ P b /\ Q b) ->
    exists b, extents_loop (list_fuel s) (mk_alloc (mk_list f la f 0) o) 0 sizeof_extent
    (header_bytes hdr ++ o1 ++ o2) s = Ok (Some (al, b), s) /\ P b /\ Q b /\ zlen b = zlen (header_bytes hdr ++ o1 ++ o2)) as Hlen.
  { intros P Q al (b & E & HP & HQ). exists b. repeat (split; [assumption|]). exact (extents_loop_len _ _ _ _ _ _ _ _ _ E). }
  apply Hlen. eexists. split; [|split].
  - replace sizeof_extent with (zlen (header_bytes hdr)) by (rewrite header_bytes_len; reflexivity).
    apply extents_loop_spec; [exact Hl|exact Hsm|exact (list_fuel_enough s l _ Hl)|lia|lia|exact Ho1].
  - unfold hdr. rewrite <- Hel. apply read_leaf_bytes; [|lia].
    apply extents_of_ok; [exact Hsm|lia|lia].
  - rewrite header_roundtrip by exact Hh. reflexivity.
Qed.


Lemma splice_zero buf bs : zlen bs <= zlen buf ->
  splice buf 0 bs = Ok (bs ++ drop (length bs) buf).
Proof.
  intros H. unfold splice. rewrite Z.add_0_l, (proj2 (Z.leb_le (zlen bs) _)) by lia. cbn [andb Z.leb Z.compare].
  unfold zlen. rewrite Nat2Z.id. reflexivity.
Qed.

Lemma queue_inv_mono s s' : queue_inv s -> sparse_file s' = sparse_file s -> info s' = info s -> aux_info s' = aux_info s ->
  fresh s <= fresh s' -> (forall x, free_block s' x -> free_block s x) -> queue_inv s'.
Proof.
  intros [Q1 Q2 Q3 Q4 Q5 Q6] Es Ei Ea Hf Hfree.
  assert (queued s' = queued s) as Eq by (unfold queued; rewrite Es; reflexivity).
  split; rewrite ?Es, ?Ei, ?Eq; auto.
  - intros bb Hin. specialize (Q4 bb Hin). lia.
  - intros bb x Hin Hx. destruct (Q5 bb x Hin Hx) as (H1 & H2). split; [congruence|intros Hfr; exact (H2 (Hfree x Hfr))].
  - intros bb f name o Hin E. specialize (Q6 bb f name o Hin E). lia.
Qed.

Lemma tree_ready_queue s s' alloc l T n : tree_ready s s' alloc l T n -> queue_inv s -> queue_inv s'.
Proof.
  intros Htr Hq. destruct (tr_image _ _ _ _ _ _ Htr) as (Es & _). destruct (tr_globals _ _ _ _ _ _ Htr) as (_ & Ei & Ea & _).
  apply (queue_inv_mono s); [exact Hq|exact Es|exact Ei|exact Ea|exact (proj1 (tr_fresh _ _ _ _ _ _ Htr))|].
  intros x Hx. apply (tr_free _ _ _ _ _ _ Htr x). exact Hx.
Qed.

Lemma tree_ready_unqueued s s' alloc l T n x : tree_ready s s' alloc l T n -> queue_inv s ->
  x ∈ T ++ blocks_of l -> unqueued s' x 1.
Proof.
  intros Htr Hq Hx. destruct (tr_image _ _ _ _ _ _ Htr) as (Es & _). destruct (tr_globals _ _ _ _ _ _ Htr) as (_ & Ei & _).
  assert (unqueued s x 1) as Hu.
  { apply (queue_inv_unqueued s); [exact Hq|lia|]. intros y Hy. assert (y = x) as -> by lia.
    exact (tr_were_free _ _ _ _ _ _ Htr x Hx). }
  unfold unqueued, queued in *. rewrite Es, Ei. exact Hu.
Qed.

Lemma div_round_up_self y : 0 < y -> DIV_ROUND_UP y y = 1.
Proof. intros H. rewrite <- (Z.mul_1_l y) at 1. apply DIV_ROUND_UP_mul. exact H. Qed.

Section WriteTree.
Context (s s2 : fs) (alloc : block_allocation) (l : list node) (T : list Z) (len : Z) (i : ext4_inode).
Let bs := block_size (info s).
Let n := DIV_ROUND_UP len bs.
Context (Hrd : fs_ready s) (Htr : tree_ready s s2 alloc l T n).
Context (Hib : zlen (i_block i) = 60) (Hn : n + 1 < 2 ^ 31) (Hnr : zlen l <= groups (aux_info s)).

Lemma tr_small : small_nodes l.
Proof. exact (small_of_nodes _ l (rd_group _ Hrd) (tr_nodes _ _ _ _ _ _ Htr)). Qed.

Lemma tr_shape : exists f la o, alloc = mk_alloc (mk_list f la f 0) o /\ fseg (heap s2) f l None.
Proof.
  destruct alloc as [[f la p pi] o] eqn:E. destruct (tr_iter _ _ _ _ _ _ Htr) as (H1 & H2).
  cbn in H1, H2. subst p pi. exists f, la, o. split; [reflexivity|]. exact (tr_seg _ _ _ _ _ _ Htr).
Qed.

(** Up to three regions: the extents are in the inode. *)
Lemma write_tree_small : T = [] -> zlen l <= 3 ->
  exists i', write_tree bs i len n (zlen l) alloc 0 s2 = Ok (Some (Some alloc, i'), s2) /\
    file_allocated s s2 alloc i i' l T len.
Proof.
  intros HT Hl3. destruct tr_shape as (f & la & o & Ea & Hseg). rewrite Ea.
  pose proof (zlen_nonneg l) as Hl0. pose proof (tr_len _ _ _ _ _ _ Htr) as Hlen.
  set (hdr := mk_eh EXT4_EXT_MAGIC (zlen l) 3 0 0).
  destruct (write_leaf s2 l f la o hdr (drop (length (header_bytes hdr)) (i_block i)) 3)
    as (b & Eb & Hrl & Hdep & Lb); [exact Hseg|exact tr_small|lia|lia| |reflexivity|].
  { pose proof (header_bytes_len hdr). unfold zlen in *. rewrite length_drop. lia. }
  assert (lift (splice (i_block i) 0 (header_bytes hdr)) s2 =
    Ok (Some (header_bytes hdr ++ drop (length (header_bytes hdr)) (i_block i)), s2)) as Es
    by (unfold lift; rewrite splice_zero by (rewrite header_bytes_len; lia); reflexivity).
  pose proof (rd_leaf _ Hrd) as Hbs. pose proof (total_len_nonneg l tr_small) as Ht0.
  exists (set_sizes (set_iblock i b) len (n * bs / 512)). split.
  - unfold write_tree. cbn [Z.eqb]. rewrite u16_id by lia. fold hdr. rewrite (bind_eq _ _ _ _ _ Es).
    unfold bind at 1, get_state. rewrite (bind_eq _ _ _ _ _ Eb). unfold ret.
    rewrite u64_id by (fold bs in Hbs; nia). reflexivity.
  - rewrite <- Ea. pose proof Htr as [H1 H2 H3 H4 H5 H6 (H7 & H7') H8 H9 H10 H11 H12 H13]. split; auto.
    + exact (tree_ready_queue _ _ _ _ _ _ Htr (rd_queue _ Hrd)).
    + unfold file_blocks, read_tree. cbn [i_block set_sizes set_iblock]. rewrite Hdep. cbn [Z.eqb].
      rewrite Hrl. apply extents_of_blocks, tr_small.
    + exists b. split; [rewrite Lb, zlen_app; unfold zlen; rewrite length_drop; pose proof (header_bytes_len hdr); unfold zlen in *; lia|].
      rewrite HT. change (zlen (@nil Z)) with 0. rewrite Z.add_0_r. reflexivity.
    + intros x Hx. apply (tree_ready_unqueued _ _ _ _ _ _ x Htr (rd_queue _ Hrd)).
      apply elem_of_app. auto.
    + destruct H6 as (Esp & _). intros bb Hb. unfold queued in Hb. rewrite Esp in Hb. left. exact Hb.
    + destruct H6 as (_ & Em & _). intros c d Hc. rewrite Em in Hc. pose proof (rd_mem _ Hrd c d Hc). lia.
    + destruct H6 as (Esp & Em & _). destruct H5 as (_ & Ei & _).
      split; [exact Ei|unfold queued; rewrite Esp; auto|rewrite Em; auto].
    + apply H6.
    + intros a. unfold leaf_addr. cbn [i_block set_sizes set_iblock]. rewrite Hdep. discriminate.
    + rewrite HT. vm_compute; discriminate.
Qed.

(** The index of a tree of depth 1. *)
Lemma read_index eb tl : 0 <= eb < 2 ^ 32 ->
  let b := (header_bytes (mk_eh EXT4_EXT_MAGIC 1 3 1 0) ++ idx_bytes (mk_idx 0 eb 0 0)) ++ tl in
  header_of_bytes b = mk_eh EXT4_EXT_MAGIC 1 3 1 0 /\ le_val (sub_bytes b 16 4) = eb.
Proof.
  intros Heb b. unfold b. set (h := mk_eh EXT4_EXT_MAGIC 1 3 1 0). split.
  - rewrite <- app_assoc. apply header_roundtrip. unfold header_ok, h, EXT4_EXT_MAGIC. cbn. lia.
  - unfold idx_bytes. cbn [ei_block ei_leaf_lo ei_leaf_hi ei_unused].
    rewrite <- !app_assoc, (app_assoc (header_bytes h)).
    rewrite (sub_bytes_mid (header_bytes h ++ le_bytes 4 0)); [apply le_val_bytes_id; cbn; lia| |].
    + rewrite zlen_app, header_bytes_len. autorewrite with zlen. reflexivity.
    + autorewrite with zlen. reflexivity.
Qed.

(** The state with the leaf of the tree allocated and queued. *)
Lemma queue_leaf eb : T = [eb] -> 0 <= eb < 2 ^ 32 - 1 ->
  exists f l1 l2 p, let s3 := set_mem (set_fresh s2 (fresh s2 + Z.max 1 bs)) (fresh s2) (zeros bs) in
  calloc bs s2 = Ok (Some (Some (fresh s2)), s3) /\
  sparse_add_data (fresh s2) bs eb s3 = Ok (Some tt, set_sparse (bump s3) f) /\
  queued s2 = l1 ++ l2 /\
  BackedBlock.data_blocks (SparseFile.s_list f) =
    l1 ++ BackedBlock.mk_bb p eb bs (BackedBlock.bb_data (fresh s2)) :: l2 /\
  queue_inv (set_sparse (bump s3) f).
Proof.
  intros HT Heb. destruct (tr_globals _ _ _ _ _ _ Htr) as (_ & Ei & Ea & Ev).
  pose proof (rd_leaf _ Hrd) as Hbs. fold bs in Hbs. pose proof (geo_groups _ _ (fs_geometry _ (rd_ok _ Hrd))).
  set (s3 := set_mem _ _ _). assert (info s3 = info s) as Ei3 by exact Ei.
  assert (eb ∈ T ++ blocks_of l) as Hin by (rewrite HT; left).
  assert (DIV_ROUND_UP bs (block_size (info s3)) = 1) as Hd.
  { rewrite Ei3. apply div_round_up_self. fold bs. lia. }
  destruct (queue_add_data s3 (fresh s2) bs eb) as (f & l1 & l2 & E & Hq & Hd' & Hinv).
  - intros x. cbn. rewrite Ev. apply (rd_memory _ Hrd).
  - apply (queue_inv_mono s2); try reflexivity; [exact (tree_ready_queue _ _ _ _ _ _ Htr (rd_queue _ Hrd))|cbn; lia|auto].
  - lia.
  - lia.
  - rewrite Hd. lia.
  - rewrite Hd. exact (tree_ready_unqueued _ _ _ _ _ _ eb Htr (rd_queue _ Hrd) Hin).
  - rewrite Hd. intros x Hx. assert (x = eb) as -> by lia. split.
    + change (aux_info s3) with (aux_info s2). rewrite Ea. apply (free_bound s), (tr_were_free _ _ _ _ _ _ Htr eb Hin). exact (rd_ok _ Hrd).
    + intros Hf. change (free_block s2 eb) in Hf. apply (tr_free _ _ _ _ _ _ Htr) in Hf. tauto.
  - exists f, l1, l2, (fresh s3). cbv zeta. split; [|split; [exact E|split; [exact Hq|split; [exact Hd'|exact Hinv]]]].
    unfold calloc. rewrite Ev, (rd_memory _ Hrd). reflexivity.
Qed.


(** The state at the end, and what it keeps. *)
Lemma leaf_state eb f l1 l2 p d :
  let s4 := set_sparse (bump (set_mem (set_fresh s2 (fresh s2 + Z.max 1 bs)) (fresh s2) (zeros bs))) f in
  T = [eb] -> queue_inv s4 -> queued s2 = l1 ++ l2 ->
  BackedBlock.data_blocks (SparseFile.s_list f) =
    l1 ++ BackedBlock.mk_bb p eb bs (BackedBlock.bb_data (fresh s2)) :: l2 ->
  find (fun bb => BackedBlock.block bb =? eb) (queued (set_mem s4 (fresh s2) d)) =
    Some (BackedBlock.mk_bb p eb bs (BackedBlock.bb_data (fresh s2))) /\
  (forall x, x ∈ blocks_of l -> unqueued (set_mem s4 (fresh s2) d) x 1).
Proof.
  intros s4 HT Hq Hq2 Hq4. destruct (tr_globals _ _ _ _ _ _ Htr) as (_ & Ei & _).
  assert (forall x, x ∈ T ++ blocks_of l -> unqueued s2 x 1) as Hu
    by (intros x; exact (tree_ready_unqueued _ _ _ _ _ _ x Htr (rd_queue _ Hrd))).
  assert (0 < bs) as Hbs by exact (proj1 (geo_block_size _ _ (fs_geometry _ (rd_ok _ Hrd)))).
  assert (forall bb, In bb (l1 ++ l2) -> BackedBlock.block bb < BackedBlock.bb_end bs bb) as Hend.
  { pose proof (tree_ready_queue _ _ _ _ _ _ Htr (rd_queue _ Hrd)) as [Q1 (_ & Q2 & _) _ _ _ _].
    intros bb Hin. rewrite <- Hq2 in Hin. rewrite Ei in Q1. fold bs in Q1. rewrite Q1 in Q2.
    destruct (BackedBlock.blocks_ok_in _ _ _ _ bb Hbs Q2 Hin) as (_ & Hnode & _).
    exact (BackedBlock.bb_end_gt _ _ Hbs Hnode). }
  split.
  - assert (queued (set_mem s4 (fresh s2) d) =
      l1 ++ BackedBlock.mk_bb p eb bs (BackedBlock.bb_data (fresh s2)) :: l2) as -> by exact Hq4.
    apply find_new.
    + reflexivity.
    + intros bb Hin E. specialize (Hend bb Hin). specialize (Hu eb ltac:(rewrite HT; left) bb).
      rewrite Hq2, Ei in Hu. fold bs in Hu. specialize (Hu Hin). lia.
  - intros x Hx bb Hin. unfold queued in Hin. cbn in Hin. rewrite Hq4 in Hin. cbn [info set_mem s4 set_sparse bump set_fresh].
    assert (In bb (l1 ++ l2) \/ bb = BackedBlock.mk_bb p eb bs (BackedBlock.bb_data (fresh s2))) as [Hin'| ->].
    { apply in_app_or in Hin as [Hin|[<-|Hin]]; [left; apply in_or_app; auto|auto|left; apply in_or_app; auto]. }
    + rewrite <- Hq2 in Hin'. exact (Hu x ltac:(apply elem_of_app; auto) bb Hin').
    + rewrite Ei. fold bs. unfold BackedBlock.bb_end. cbn.
      rewrite div_round_up_self by lia.
      pose proof (tr_nodup _ _ _ _ _ _ Htr) as Hnd. rewrite HT in Hnd. apply NoDup_cons in Hnd as (Hnd & _).
      assert (x <> eb) by congruence. lia.
Qed.

(** More than three regions: the extents are in the block [eb]. *)
Lemma write_tree_large eb : T = [eb] -> 0 < eb < 2 ^ 32 - 1 -> 3 < zlen l ->
  exists alloc' i' s', write_tree bs i len n (zlen l) alloc eb s2 = Ok (Some (Some alloc', i'), s') /\
    file_allocated s s' alloc' i i' l T len.
Proof.
  intros HT Heb Hl3. destruct tr_shape as (f & la & o & Ea & Hseg). rewrite Ea.
  pose proof (tr_len _ _ _ _ _ _ Htr) as Hlen. pose proof (total_len_nonneg l tr_small) as Ht0.
  pose proof (rd_leaf _ Hrd) as Hbs. fold bs in Hbs.
  destruct (queue_leaf eb HT ltac:(lia)) as (q & l1 & l2 & p & Ec & Eq & Hq2 & Hq4 & Hinv).
  set (s4 := set_sparse _ q) in *. set (max := (bs - 12) / 12).
  assert (zlen l <= max < 2 ^ 16) as Hmax.
  { unfold max. split; [apply Z.div_le_lower_bound; lia|apply Z.div_lt_upper_bound; lia]. }
  set (hdr := mk_eh EXT4_EXT_MAGIC (zlen l) max 0 0).
  set (root := header_bytes (mk_eh EXT4_EXT_MAGIC 1 3 1 0) ++ idx_bytes (mk_idx 0 eb 0 0)).
  assert (zlen root = 24) as Hroot by (unfold root; rewrite zlen_app, header_bytes_len, idx_bytes_len; reflexivity).
  destruct (write_leaf s4 l f la o hdr (drop (length (header_bytes hdr)) (zeros bs)) max)
    as (d & Ed & Hrl & _ & Ld); [exact Hseg|exact tr_small|lia|lia| |reflexivity|].
  { pose proof (header_bytes_len hdr). pose proof (zlen_zeros bs ltac:(lia)). unfold zlen in *. rewrite length_drop. lia. }
  destruct (read_index eb (drop (length root) (i_block i)) ltac:(lia)) as (Hh & Hleaf). fold root in Hh, Hleaf.
  destruct (leaf_state eb q l1 l2 p d HT Hinv Hq2 Hq4) as (Hfind & Huq).
  fold s4 in Hfind, Huq. set (s5 := set_mem s4 (fresh s2) d) in *.
  assert (block_buffer s5 eb = Some d) as Hbuf.
  { unfold block_buffer, whole_buffer. rewrite Hfind. cbn. rewrite lookup_insert_eq, Ld, zlen_app, header_bytes_len. fold bs.
    pose proof (header_bytes_len hdr) as Lh. pose proof (zlen_zeros bs ltac:(lia)) as Lz. unfold zlen in *. rewrite length_drop.
    rewrite (proj1 (proj2 (tr_globals _ _ _ _ _ _ Htr))). fold bs. rewrite (proj2 (Z.eqb_eq _ bs)) by lia. reflexivity. }
  eexists (mk_alloc (mk_list f la f 0) o), (set_sizes (set_iblock i (root ++ drop (length root) (i_block i))) len
    ((n + 1) * bs / 512)), s5. split.
  - unfold write_tree. rewrite (proj2 (Z.eqb_neq eb 0)) by lia. fold root.
    unfold lift at 1. rewrite splice_zero by lia. cbn [obind]. unfold bind at 1.
    rewrite (bind_eq _ _ _ _ _ Ec). rewrite (bind_eq _ _ _ _ _ Eq). fold s4.
    replace (s32 (u32 (bs - sizeof_extent / sizeof_extent))) with (bs - 1)
      by (change (sizeof_extent / sizeof_extent) with 1; rewrite u32_id, s32_id by lia; reflexivity).
    rewrite (proj2 (Z.ltb_ge _ _)) by lia. rewrite (u16_id (zlen l)) by lia.
    replace (u16 (u32 (bs - sizeof_extent) / sizeof_extent)) with max
      by (change sizeof_extent with 12; rewrite u32_id, u16_id by (fold max; lia); reflexivity).
    fold hdr. unfold lift. rewrite splice_zero by (rewrite header_bytes_len, zlen_zeros by lia; lia).
    cbn [obind]. unfold bind at 1. unfold bind at 1, get_state. rewrite (bind_eq _ _ _ _ _ Ed).
    unfold bind at 1, put_mem. fold s5. unfold ret. rewrite (u32_id (n + 1)), u64_id by nia. reflexivity.
  - rewrite <- Ea. pose proof Htr as [H1 H2 H3 H4 H5 H6 (H7 & H7') H8 H9 H10 H11 H12 H13]. split; auto.
    + destruct H4 as [G N B]. split; assumption.
    + intros c Hc. cbn in Hc. apply H7'. lia.
    + destruct Hinv as [Q1 Q2 Q3 Q4 Q5 Q6]. split; assumption.
    + unfold file_blocks, read_tree. cbn [i_block set_sizes set_iblock]. rewrite Hh. cbn [eh_depth eh_magic eh_entries].
      cbn [Z.eqb Pos.eqb negb orb]. rewrite Z.eqb_refl. cbn [negb orb].
      rewrite Hleaf, Hbuf, Hrl. apply extents_of_blocks, tr_small.
    + eexists. split; [|rewrite HT; reflexivity]. rewrite zlen_app. unfold zlen in *. rewrite length_drop.
      lia.
    + destruct H6 as (Es & _). intros bb Hb. unfold queued in *. cbn [sparse_file set_mem s5 s4 set_sparse] in Hb.
      rewrite Hq4 in Hb. rewrite Es in Hq2. rewrite Hq2, in_app_iff. apply in_app_or in Hb as [Hb|[<-|Hb]]; auto.
      right. intros x. unfold BackedBlock.bb_end. cbn [BackedBlock.block BackedBlock.len]. fold bs.
      rewrite div_round_up_self by lia. intros Hx. assert (x = eb) as -> by lia.
      apply H10. rewrite HT. left.
    + destruct H6 as (_ & Em & _). intros c e Hc. cbn [mem set_mem s5 s4 set_sparse bump set_fresh fresh] in *.
      destruct (decide (c = fresh s2)) as [->|Hne]; [lia|].
      rewrite !lookup_insert_ne, Em in Hc by congruence. pose proof (rd_mem _ Hrd c e Hc). lia.
    + destruct H6 as (Es & Em & _). destruct H5 as (_ & Ei & _). split; [exact Ei| |].
      * intros bb Hin. unfold queued in *. rewrite Es in Hq2. rewrite Hq2 in Hin.
        cbn [sparse_file set_mem s5 s4 set_sparse]. rewrite Hq4. apply in_app_or in Hin as [Hin|Hin];
          apply in_or_app; [left|right; right]; exact Hin.
      * intros c e Hc. pose proof (rd_mem _ Hrd c e Hc). cbn [mem set_mem s5 s4 set_sparse bump set_fresh].
        rewrite !lookup_insert_ne, Em by lia. exact Hc.
    + apply H6.
    + intros a. unfold leaf_addr. cbn [i_block set_sizes set_iblock]. rewrite Hh, Hleaf.
      cbn [eh_depth Z.eqb]. rewrite Hfind. intros [= <-]. cbn. lia.
    + cbn. lia.
    + rewrite HT. vm_compute; discriminate.
Qed.


End WriteTree.


Lemma tree_blocks_range s alloc s2 l T n x : fs_ready s -> tree_ready s s2 alloc l T n ->
  x ∈ T ++ blocks_of l -> 0 < x < 2 ^ 32 - 1.
Proof.
  intros Hrd Htr Hx. pose proof (tr_were_free _ _ _ _ _ _ Htr x Hx) as Hf.
  assert (x <> 0) as H0 by (intros ->; exact (rd_zero _ Hrd Hf)).
  destruct Hf as (i & b & Hi & Hb & Hr). pose proof (fs_bgs _ (rd_ok _ Hrd) i b Hi Hb) as [F _ _ Fr _ _ _].
  pose proof (bgs_bound s i b Hi Hb) as Hbd. rewrite (fs_groups _ (rd_ok _ Hrd)) in Hbd.
  destruct (group_start_bound _ _ i (fs_geometry _ (rd_ok _ Hrd)) Hbd) as (? & ?).
  unfold run_start in Hr. rewrite F in Hr. lia.
Qed.

Lemma do_extents_spec s i len : fs_ready s -> zlen (i_block i) = 60 -> 0 < len < 2 ^ 63 ->
  let n := DIV_ROUND_UP len (block_size (info s)) in
  n + 1 < 2 ^ 31 -> can_hold s (n + 1) = true ->
  exists alloc i' s' l T, do_inode_allocate_extents i len s = Ok (Some (Some alloc, i'), s') /\
    file_allocated s s' alloc i i' l T len.
Proof.
  intros Hrd Hib Hlen n Hn Hcan. pose proof (rd_ok _ Hrd) as Hfs. pose proof (fs_geometry _ Hfs) as G.
  pose proof (geo_block_size _ _ G) as Hbs. pose proof (geo_groups _ _ G) as Hgr.
  assert (0 < n) as Hn0 by (apply DIV_ROUND_UP_pos; lia).
  pose proof (allocate_blocks_spec s (n + 1) Hfs (rd_memory _ Hrd) (rd_fresh _ Hrd)
    (unused_roomy_free _ (rd_roomy _ Hrd)) ltac:(lia)) as Hal. rewrite Hcan in Hal.
  destruct Hal as (a & s1 & l & Eal & Hc). pose proof Hc as (Hseg & Hall & _).
  pose proof (allocated_regions _ _ _ Hfs Hall) as Hnr.
  set (al := mk_alloc (mk_list (Some a) (Some a) (Some a) 0) empty_list) in *.
  assert (block_allocation_num_regions al s1 = Ok (Some (zlen l), s1)) as Enr
    by (apply num_regions_spec; [exact (lseg_fseg _ _ _ _ _ Hseg)|lia]).
  unfold do_inode_allocate_extents, bind at 1, get_state at 1.
  rewrite (proj2 (Z.eqb_neq _ _)), div_round_up64_id by lia. fold n. rewrite (u32_id n), u32_id by lia.
  rewrite (bind_eq _ _ _ _ _ Eal). rewrite (bind_eq _ _ _ _ _ Enr).
  destruct (Z.le_gt_cases (zlen l) 3) as [H3|H3].
  - destruct (tree_block_small s s1 a l n (zlen l) Hfs (rd_memory _ Hrd) (rd_roomy _ Hrd) Hn0 Hc H3)
      as (alloc & s2 & l' & Et & Htr & El). fold al in Et. rewrite (bind_eq _ _ _ _ _ Et). rewrite <- El.
    destruct (write_tree_small s s2 alloc l' [] len i Hrd Htr Hib Hn ltac:(lia) eq_refl ltac:(lia))
      as (i' & Ew & Hfa). exists alloc, i', s2, l', []. auto.
  - destruct (tree_block_large s s1 a l n (zlen l) Hfs (rd_memory _ Hrd) (rd_roomy _ Hrd) Hn0 Hc H3)
      as (alloc & s2 & l' & eb & Et & Htr & El). fold al in Et. rewrite (bind_eq _ _ _ _ _ Et). rewrite <- El.
    destruct (write_tree_large s s2 alloc l' [eb] len i Hrd Htr Hib Hn ltac:(lia) eb eq_refl)
      as (alloc' & i' & s' & Ew & Hfa).
    + apply (tree_blocks_range s alloc s2 l' [eb] n); auto. left.
    + lia.
    + exists alloc', i', s', l', [eb]. auto.
Qed.


(** ** A new file system is ready for files *)

Lemma init_free s s' x : geometry_ok (info s) (aux_info s) -> init_upto s s' (groups (aux_info s)) ->
  free_block s' x -> exists i super, 0 <= i < groups (aux_info s) /\
    ext4_bg_has_super_block (info s) i = Ok super /\
    header_size (info s) (aux_info s) super <= x - group_start (info s) (aux_info s) i
      < group_size (info s) (aux_info s) i.
Proof.
  intros G [_ _ Hn _ _ Hf] (i & b & Hi & Hb & Hx). pose proof (bgs_bound s' i b Hi Hb) as Hbd.
  destruct (Hf i ltac:(lia)) as (b' & super & p & Hb' & Hs & (Ok' & _ & _ & _ & _ & _ & Fr & Ff) & _).
  rewrite Hb in Hb'. injection Hb' as <-. exists i, super. split; [lia|]. split; [exact Hs|].
  unfold run_start in Hx. rewrite (bg_first _ _ _ _ Ok'), Ff in Hx by lia. lia.
Qed.

(** The header of a group is not free. *)
Lemma init_header s s' j super x : geometry_ok (info s) (aux_info s) -> init_upto s s' (groups (aux_info s)) ->
  0 <= j < groups (aux_info s) -> ext4_bg_has_super_block (info s) j = Ok super ->
  group_start (info s) (aux_info s) j <= x
    < group_start (info s) (aux_info s) j + header_size (info s) (aux_info s) super -> ~ free_block s' x.
Proof.
  intros G Hu Hj Hs Hx Hfree. destruct (init_free s s' x G Hu Hfree) as (i & super' & Hi & Hs' & Hx').
  pose proof (geo_tables _ _ G) as (T1 & T2 & T3). pose proof (geo_header _ _ G j super Hj Hs) as Hh.
  assert (0 <= header_size (info s) (aux_info s) super') by (unfold header_size; destruct super'; lia).
  unfold group_size, group_start in *.
  assert (i = j) as E.
  { destruct (Z.lt_trichotomy i j) as [Hlt|[E|Hlt]]; [|exact E|]; exfalso; nia. }
  subst i. rewrite Hs in Hs'. injection Hs' as <-. lia.
Qed.

(** The bitmaps of a group are in its header, before the inode table. *)
Lemma init_queued s s' bb : geometry_ok (info s) (aux_info s) -> init_upto s s' (groups (aux_info s)) ->
  In bb (queued s') -> exists j super, 0 <= j < groups (aux_info s) /\
    ext4_bg_has_super_block (info s) j = Ok super /\
    group_start (info s) (aux_info s) j <= BackedBlock.block bb /\
    BackedBlock.bb_end (block_size (info s)) bb =
      group_start (info s) (aux_info s) j + header_size (info s) (aux_info s) super - inode_table_blocks (aux_info s) /\
    exists p d, bb = BackedBlock.mk_bb p (BackedBlock.block bb) (BackedBlock.len bb) (BackedBlock.bb_data d).
Proof.
  intros G [_ _ Hn _ Hq Hf] Hin. apply list_elem_of_In, list_elem_of_lookup in Hin as (j & Hj).
  pose proof (lookup_lt_Some _ _ _ Hj) as Hlt. pose proof (geo_block_size _ _ G). pose proof (geo_tables _ _ G) as (T1 & T2 & T3).
  destruct (Hf (Z.of_nat j)) as (b & super & p & Hb & Hs & Fb & Hqj); [unfold zlen in Hq; lia|].
  rewrite Nat2Z.id, Hj in Hqj. injection Hqj as ->. destruct Fb as (_ & _ & <- & _).
  exists (Z.of_nat j), (has_superblock b). split; [unfold zlen in Hq; lia|]. split; [exact Hs|].
  unfold BackedBlock.bb_end. cbn [BackedBlock.block BackedBlock.len bitmap_block]. rewrite DIV_ROUND_UP_mul by lia.
  unfold header_size, super_blocks. split; [destruct (has_superblock b); lia|].
  split; [destruct (has_superblock b); lia|]. exists p, (bitmaps_ptr b). reflexivity.
Qed.

Lemma init_queue_inv s s' : geometry_ok (info s) (aux_info s) ->
  init_upto s s' (groups (aux_info s)) -> queue_inv s'.
Proof.
  intros G Hu. pose proof Hu as [(_ & Ei & Ea & _) _ Hn [Q1 Q2 Q3 Q4 Q5] Hq Hf].
  pose proof (geo_range _ _ G) as Hr. pose proof (geo_group _ _ G) as Hg. pose proof (geo_block_size _ _ G) as Hbs.
  split; [exact Q1| |exact Q3|exact Q4| |].
  - split; [rewrite Q1, Ei; lia|]. split; [|exact Q5]. rewrite Q1.
    apply (BackedBlock.blocks_ok_weaken _ 0 0 _ (group_start (info s) (aux_info s) (groups (aux_info s)))); [exact Q2|lia|lia].
  - intros bb x Hin Hx. destruct (init_queued s s' bb G Hu Hin) as (j & super & Hj & Hs & Hlo & Hhi & _).
    pose proof (geo_tables _ _ G). rewrite Ei in Hx. pose proof (header_inside _ _ _ _ G Hj Hs).
    split; [rewrite Ea; lia|]. apply (init_header s s' j super x G Hu Hj Hs). lia.
  - intros bb f name o Hin E. destruct (init_queued s s' bb G Hu Hin) as (j & super & _ & _ & _ & _ & p & d & Eb).
    rewrite Eb in E. discriminate.
Qed.

Lemma init_super s s' i b : init_upto s s' (groups (aux_info s)) -> bgs s' !! i = Some b ->
  0 <= Z.of_nat i < groups (aux_info s) /\ ext4_bg_has_super_block (info s) (Z.of_nat i) = Ok (has_superblock b).
Proof.
  intros [_ _ Hn _ _ Hf] Hb. pose proof (lookup_lt_Some _ _ _ Hb) as Hlt.
  assert (0 <= Z.of_nat i < groups (aux_info s)) as Hi by (unfold zlen in Hn; lia). split; [exact Hi|].
  destruct (Hf _ Hi) as (b' & super & p & Hb' & Hs & (_ & _ & <- & _) & _).
  rewrite Nat2Z.id, Hb in Hb'. injection Hb' as <-. exact Hs.
Qed.

Lemma init_ready s s' : geometry_ok (info s) (aux_info s) -> memory s -> new_image s ->
  block_allocator_init s = Ok (Some tt, s') -> heap_fresh s -> fresh s <= fresh s' -> mem_fresh s' -> unused_roomy s' ->
  blocks_per_group (info s) <= 2 ^ 15 -> 0 < inode_table_blocks (aux_info s) ->
  12 + 12 * groups (aux_info s) <= block_size (info s) < 2 ^ 16 -> fs_ready s'.
Proof.
  intros G Hm Hnew E Hhf Hfr Hmf Hroom Hbpg Hit Hleaf.
  destruct (block_allocator_init_spec s G Hm Hnew) as (s1 & E1 & Hu). rewrite E in E1. injection E1 as <-.
  pose proof Hu as [(Ef & Ei & Ea & Ev) Hh _ _ _ _].
  pose proof (geo_tables _ _ G) as (T1 & T2 & T3). pose proof (geo_first _ _ G).
  pose proof (geo_group _ _ G) as Hg.
  split; rewrite ?Ei, ?Ea; auto.
  - exact (init_upto_ok s s' G Hu).
  - intros x. rewrite Ev. apply Hm.
  - intros c Hc. rewrite Hh. apply Hhf. lia.
  - exact (init_queue_inv s s' G Hu).
  - intros Hf. destruct (init_free s s' 0 G Hu Hf) as (i & super & Hi & _ & Hx).
    unfold header_size, group_start in Hx. destruct super; nia.
  - intros i b Hb. destruct Hu as [_ _ Hn _ _ Hf]. pose proof (lookup_lt_Some _ _ _ Hb) as Hlt.
    destruct (Hf (Z.of_nat i)) as (b' & super & p & Hb' & _ & (Ok' & U & _) & _); [unfold zlen in Hn; lia|].
    rewrite Nat2Z.id, Hb in Hb'. injection Hb' as <-. pose proof (bg_free _ _ _ _ Ok'). lia.
  - intros i b x Hb Hx. destruct (init_super s s' i b Hu Hb) as (Hi & Hs).
    unfold table_end in Hx. rewrite Ei, Ea in Hx. exact (init_header s s' _ _ x G Hu Hi Hs Hx).
  - intros i b Hb _ bb Hin. destruct (init_super s s' i b Hu Hb) as (Hi & Hs). unfold table_end. rewrite Ei, Ea.
    destruct (init_queued s s' bb G Hu Hin) as (j & super & Hj & Hsj & Hlo & Hhi & _). rewrite Hhi.
    pose proof (geo_header _ _ G _ _ Hi Hs) as H1. pose proof (geo_header _ _ G _ _ Hj Hsj) as H2.
    pose proof (group_size_bound (info s) (aux_info s) j). pose proof (group_size_bound (info s) (aux_info s) (Z.of_nat i)).
    unfold group_start in *. destruct (Z.lt_trichotomy (Z.of_nat i) j) as [Hlt|[<-|Hlt]].
    + right. nia.
    + rewrite Hs in Hsj. injection Hsj as <-. left. lia.
    + left. unfold header_size in *. destruct (has_superblock b), super; nia.
  - intros i b Hb. destruct (init_super s s' i b Hu Hb) as (Hi & Hs).
    exact (geo_header _ _ G _ _ Hi Hs).
Qed.

(** Four groups of 16 blocks of 64 bytes. *)
Definition ext_info : fs_info := mk_info 4096 64 16 16 4 64 0 1 0 0 0 None 0.
Definition ext_aux : fs_aux_info := mk_aux 0 64 1 4 1 0 0 0 0.
Definition ext_fs : fs := after_init (demo ext_info ext_aux).

Lemma unused_roomy_test s :
  forallb (fun b => negb (unused b) || (2 <=? free_blocks b)) (bgs s) = true -> unused_roomy s.
Proof.
  intros H i b Hb Hu. rewrite forallb_forall in H. specialize (H b).
  rewrite Hu in H. cbn [negb orb] in H. apply Z.leb_le, H. apply list_elem_of_In.
  eapply list_elem_of_lookup_2. exact Hb.
Qed.

Lemma ext_geometry : geometry_ok ext_info ext_aux.
Proof.
  split; unfold group_start; cbn -[ext4_bg_has_super_block]; try lia.
  intros i super Hi Hs. assert (i = 0 \/ i = 1 \/ i = 2 \/ i = 3) as [->|[->|[->| ->]]] by lia;
    vm_compute in Hs; injection Hs as <-; vm_compute; congruence.
Qed.

Lemma ext_fs_ready : fs_ready ext_fs.
Proof.
  destruct (after_init_spec ext_info ext_aux ext_geometry) as (E & _).
  apply (init_ready (demo ext_info ext_aux) ext_fs ext_geometry (fun _ => eq_refl) eq_refl E).
  - intros a _. apply lookup_empty.
  - apply Z.leb_le. vm_compute. reflexivity.
  - assert (mem ext_fs = ∅) as Em by (vm_compute; reflexivity). intros a b. rewrite Em, lookup_empty. discriminate.
  - apply unused_roomy_test. vm_compute. reflexivity.
  - cbn. lia.
  - cbn. lia.
  - cbn. lia.
Qed.


End Ext4ExtentProps.
