(* ===== verification/Ext4ExtentFiles.v ===== *)
(** * Files as extent trees: the contents

    The buffer a caller of [inode_allocate_data_extents] fills is what the
    image will hold in the blocks of the file, in order; the theorems on
    [ext4_utils/extent.c]. *)

From S2P Require Import Prelude BackedBlock SparseFile Ext4Utils Ext4Alloc Ext4AllocBits Ext4AllocProps Ext4AllocLists Ext4Extent Ext4ExtentProps.

Module Ext4ExtentFiles.
Import Ext4Utils Ext4Alloc Ext4AllocBits Ext4AllocProps Ext4AllocLists Ext4Extent Ext4ExtentProps.

(** ** What the image holds in a block *)

(** Where the contents of a block come from. *)
Inductive source : Set :=
  | from_memory (d : Z)
  | from_file (name : string) (o : Z).

Definition payload_source (p : BackedBlock.bb_payload) (off : Z) : option source :=
  match p with
  | BackedBlock.bb_data d => Some (from_memory (d + off))
  | BackedBlock.bb_file _ name o => Some (from_file name (o + off))
  | _ => None
  end.

(** The contents queued for block [x] start at [src]. *)
Definition holds (s : fs) (x : Z) (src : source) : Prop :=
  exists bb, In bb (queued s) /\
    BackedBlock.block bb <= x < BackedBlock.bb_end (block_size (info s)) bb /\
    payload_source (BackedBlock.payload bb) ((x - BackedBlock.block bb) * block_size (info s)) = Some src.

Definition block_source (s : fs) (x : Z) : option source :=
  match find (fun bb => (BackedBlock.block bb <=? x)
                        && (x <? BackedBlock.bb_end (block_size (info s)) bb)) (queued s) with
  | Some bb => payload_source (BackedBlock.payload bb) ((x - BackedBlock.block bb) * block_size (info s))
  | None => None
  end.

Lemma holds_find s x src : queue_inv s -> holds s x src -> block_source s x = Some src.
Proof.
  intros [Q1 (Hbs & Q2 & _) _ _ _ _] (bb & Hin & Hx & Hp). rewrite Q1 in *. unfold block_source.
  destruct (find _ (queued s)) as [c|] eqn:E.
  - apply find_some in E as (Hc & Ht). apply andb_true_iff in Ht as (H1 & H2).
    apply Z.leb_le in H1. apply Z.ltb_lt in H2.
    rewrite (blocks_ok_unique _ _ _ _ c bb x Hbs Q2 Hc Hin ltac:(lia) Hx). exact Hp.
  - pose proof (find_none _ _ E bb Hin) as Ht. cbn in Ht.
    rewrite (proj2 (Z.leb_le _ _)), (proj2 (Z.ltb_lt _ _)) in Ht by lia. discriminate.
Qed.

(** What queueing leaves alone. *)
Record queued_more (s s' : fs) : Prop := {
  qm_globals : same_globals s s';
  qm_bgs : bgs s' = bgs s;
  qm_heap : heap s' = heap s;
  qm_mem : mem s' = mem s /\ itab s' = itab s;
  qm_fresh : fresh s <= fresh s';
  qm_queued : forall bb, In bb (queued s) -> In bb (queued s')
}.

Lemma queued_more_refl s : queued_more s s.
Proof. split; auto using same_globals_refl; lia. Qed.

Lemma queued_more_trans s1 s2 s3 : queued_more s1 s2 -> queued_more s2 s3 -> queued_more s1 s3.
Proof.
  intros [A B C (D & D') E F] [A' B' C' (D2 & D2') E' F']. split; [|congruence|congruence|split; congruence|lia|auto].
  exact (same_globals_trans _ _ _ A A').
Qed.

Lemma queued_more_holds s s' x src : queued_more s s' -> holds s x src -> holds s' x src.
Proof.
  intros [(_ & Ei & _) _ _ _ _ Hq] (bb & Hin & H). exists bb. rewrite Ei.
  split; [exact (Hq bb Hin)|exact H].
Qed.

Lemma queued_more_free s s' x : queued_more s s' -> free_block s' x <-> free_block s x.
Proof. intros [_ B _ _ _ _]. unfold free_block. rewrite B. tauto. Qed.

(** One region: its blocks hold what is queued for it. *)
Record region_queued (s s' : fs) (b c : Z) (src : Z -> source) : Prop := {
  rq_inv : queue_inv s';
  rq_more : queued_more s s';
  rq_only : forall bb, In bb (queued s') -> In bb (queued s) \/
    BackedBlock.block bb = b /\ BackedBlock.bb_end (block_size (info s)) bb = b + c;
  rq_holds : forall x, b <= x < b + c -> holds s' x (src ((x - b) * block_size (info s)))
}.

Definition takeable (s : fs) (b c : Z) : Prop :=
  0 <= b /\ b + c < 2 ^ 32 /\ forall x, b <= x < b + c -> unqueued s x 1 /\ in_use s x.

Lemma unqueued_range s b c : queue_inv s -> 0 < c -> takeable s b c -> unqueued s b c.
Proof.
  intros [Q1 (Hbs & Q2 & _) _ _ _ _] Hc (_ & _ & Hx) bb Hin. rewrite Q1 in *.
  destruct (BackedBlock.blocks_ok_in _ _ _ _ bb Hbs Q2 Hin) as (_ & Hnode & _).
  pose proof (BackedBlock.bb_end_gt _ _ Hbs Hnode) as Hgt.
  destruct (Z.le_gt_cases (BackedBlock.bb_end (block_size (info s)) bb) b); [auto|].
  destruct (Z.le_gt_cases (b + c) (BackedBlock.block bb)); [auto|]. exfalso.
  destruct (Hx (Z.max b (BackedBlock.block bb)) ltac:(lia)) as (Hun & _).
  destruct (Hun bb Hin); lia.
Qed.

Lemma entry_queued s s' l1 l2 p b k pl src : queued s = l1 ++ l2 ->
  queued s' = l1 ++ BackedBlock.mk_bb p b k pl :: l2 -> queue_inv s' ->
  same_globals s s' -> bgs s' = bgs s -> heap s' = heap s -> mem s' = mem s /\ itab s' = itab s ->
  fresh s <= fresh s' -> (forall off, payload_source pl off = Some (src off)) ->
  region_queued s s' b (DIV_ROUND_UP k (block_size (info s))) src.
Proof.
  intros Hq Hq' Hinv G B H M F Hsrc. pose proof G as (_ & Ei & _).
  assert (forall bb, In bb (queued s') <-> In bb (queued s) \/ bb = BackedBlock.mk_bb p b k pl) as Hin
    by (intros bb; rewrite Hq, Hq', !in_app_iff; cbn; intuition congruence).
  split; [exact Hinv|split; auto; intros bb Hbb; apply Hin; auto| |].
  - intros bb Hbb. apply Hin in Hbb as [Hbb| ->]; [auto|]. right. split; reflexivity.
  - intros x Hx. exists (BackedBlock.mk_bb p b k pl). rewrite Ei.
    split; [apply Hin; auto|]. split; [exact Hx|apply Hsrc].
Qed.

Lemma add_data_region s d k b : memory s -> queue_inv s -> 0 < block_size (info s) -> 0 < k < 2 ^ 32 ->
  takeable s b (DIV_ROUND_UP k (block_size (info s))) ->
  exists s', sparse_add_data d k b s = Ok (Some tt, s') /\
    region_queued s s' b (DIV_ROUND_UP k (block_size (info s))) (fun off => from_memory (d + off)).
Proof.
  intros Hm Hq Hbs Hk Ht. pose proof (DIV_ROUND_UP_pos k (block_size (info s)) Hbs ltac:(lia)) as Hc.
  pose proof (unqueued_range s b _ Hq Hc Ht) as Hu. destruct Ht as (Hb & He & Hx).
  destruct (queue_add_data s d k b Hm Hq Hk Hb ltac:(lia) Hu (fun x H => proj2 (Hx x H)))
    as (f & l1 & l2 & E & Hq1 & Hq2 & Hinv).
  exists (set_sparse (bump s) f). split; [exact E|].
  apply (entry_queued s (set_sparse (bump s) f) l1 l2 _ b k _ _ Hq1 Hq2 Hinv);
    try reflexivity; try (repeat split); cbn; lia.
Qed.

Lemma add_file_region s name o k b : memory s -> queue_inv s -> 0 < block_size (info s) -> 0 < k < 2 ^ 32 ->
  0 <= o -> o + k < 2 ^ 63 -> takeable s b (DIV_ROUND_UP k (block_size (info s))) ->
  exists s', sparse_add_file name o k b s = Ok (Some tt, s') /\
    region_queued s s' b (DIV_ROUND_UP k (block_size (info s))) (fun off => from_file name (o + off)).
Proof.
  intros Hm Hq Hbs Hk Ho Hok Ht. pose proof (DIV_ROUND_UP_pos k (block_size (info s)) Hbs ltac:(lia)) as Hc.
  pose proof (unqueued_range s b _ Hq Hc Ht) as Hu. destruct Ht as (Hb & He & Hx).
  destruct (queue_add_file s name o k b Hm Hq Hk Hb Ho Hok ltac:(lia) Hu (fun x H => proj2 (Hx x H)))
    as (f & l1 & l2 & E & Hq1 & Hq2 & Hinv).
  exists (set_sparse (bump (bump s)) f). split; [exact E|].
  apply (entry_queued s (set_sparse (bump (bump s)) f) l1 l2 _ b k _ _ Hq1 Hq2 Hinv);
    try reflexivity; try (repeat split); cbn; lia.
Qed.

(** ** The loops over the regions of a file

    Both loops of [extent.c] queue one part of the contents per region; they
    differ in what they queue and in how they move on. *)

Section Backing.
Context (add : Z -> Z -> Z -> M unit) (step : Z -> Z -> Z) (src : Z -> source)
  (range : Z -> Z -> Prop).

Fixpoint region_loop (fuel : nat) (alloc : block_allocation) (pos len : Z) : M block_allocation :=
  match fuel with
  | O => nofuel
  | S f =>
      if 0 <? len then
        let* s := get_state in
        let* (region_block, region_len) := get_region alloc in
        let k := u32 (Z.min (u32 (region_len * block_size (info s))) len) in
        let* _ := add pos k region_block in
        let* alloc := get_next_region alloc in
        region_loop f alloc (step pos k) (u64 (len - k))
      else ret alloc
  end.

Context (range_step : forall pos len k, range pos len -> 0 < k <= len ->
  step pos k = pos + k /\ range (pos + k) (len - k)).
Context (add_ok : forall s pos len k b, memory s -> queue_inv s -> 0 < block_size (info s) ->
  0 < k < 2 ^ 32 -> k <= len -> range pos len ->
  takeable s b (DIV_ROUND_UP k (block_size (info s))) ->
  exists s', add pos k b s = Ok (Some tt, s') /\
    region_queued s s' b (DIV_ROUND_UP k (block_size (info s))) (fun off => src (pos + off))).

Definition regions_takeable (s : fs) (l : list node) : Prop :=
  NoDup (blocks_of l) /\
  (forall a b n g, (a, (b, n, g)) ∈ l -> 0 < n <= 2 ^ 15 /\ 0 <= b /\ b + n < 2 ^ 32) /\
  (forall x, x ∈ blocks_of l -> unqueued s x 1 /\ in_use s x).

(** The new entries of the queue are for these blocks. *)
Definition only_in (s s' : fs) (bl : list Z) : Prop :=
  forall bb, In bb (queued s') -> In bb (queued s) \/
    forall x, BackedBlock.block bb <= x < BackedBlock.bb_end (block_size (info s)) bb -> x ∈ bl.

(** Queueing the first region leaves the others as they are. *)
Lemma regions_takeable_next s s' a b n g l c sr : regions_takeable s ((a, (b, n, g)) :: l) ->
  region_queued s s' b c sr -> c <= n -> regions_takeable s' l.
Proof.
  intros (Hnd & Hno & Hx) [_ Hm Hon _] Hc. rewrite blocks_of_cons in *.
  apply NoDup_app in Hnd as (_ & Hdis & Hnd). split; [exact Hnd|].
  split; [intros; eapply Hno; right; eassumption|]. intros x Hin.
  destruct (Hx x ltac:(apply elem_of_app; auto)) as (Hu & Hf).
  split; [|destruct (qm_globals _ _ Hm) as (_ & _ & Ea & _); unfold in_use; rewrite (queued_more_free _ _ _ Hm), Ea; exact Hf].
  intros bb Hbb. destruct (qm_globals _ _ Hm) as (_ & Ei & _). rewrite Ei.
  destruct (Hon bb Hbb) as [Hb|(E1 & E2)]; [exact (Hu bb Hb)|]. rewrite E1, E2.
  assert (~ b <= x < b + n) by (intros H; apply (Hdis x); [apply elem_of_seqZ; lia|exact Hin]). lia.
Qed.

Lemma takeable_head s a b n g l c : regions_takeable s ((a, (b, n, g)) :: l) -> 0 < c <= n -> takeable s b c.
Proof.
  intros (_ & Hno & Hx) Hc. destruct (Hno a b n g ltac:(left)) as (? & ? & ?).
  split; [lia|]. split; [lia|]. intros x Hr. apply Hx. rewrite blocks_of_cons. apply elem_of_app.
  left. apply elem_of_seqZ. lia.
Qed.

(** The part of the contents a region takes. *)
Lemma region_part n bs len : 0 < bs -> 0 < n -> 0 < len ->
  let k := Z.min (n * bs) len in
  0 < k <= len /\ 0 < DIV_ROUND_UP k bs <= n /\
  (k = n * bs /\ DIV_ROUND_UP k bs = n /\ DIV_ROUND_UP len bs = n + DIV_ROUND_UP (len - k) bs \/
   k = len /\ DIV_ROUND_UP len bs <= n).
Proof.
  intros Hbs Hn Hlen k. assert (0 < k <= len) as Hk by (unfold k; nia). split; [exact Hk|].
  pose proof (DIV_ROUND_UP_pos k bs Hbs ltac:(lia)) as Hc.
  destruct (Z.le_gt_cases (n * bs) len) as [H|H].
  - assert (k = n * bs) as -> by (unfold k; lia). rewrite DIV_ROUND_UP_mul by lia.
    split; [lia|]. left. split; [reflexivity|]. split; [reflexivity|]. unfold DIV_ROUND_UP.
    replace (len + bs - 1) with (len - n * bs + bs - 1 + n * bs) by lia. rewrite Z.div_add by lia. lia.
  - assert (k = len) as E by (unfold k; lia). rewrite E in *.
    assert (DIV_ROUND_UP len bs <= n) by (unfold DIV_ROUND_UP; apply Z.lt_succ_r, Z.div_lt_upper_bound; nia).
    split; [lia|]. right. auto.
Qed.

Lemma region_loop_spec l : forall fuel f la p o pos len s,
  memory s -> queue_inv s -> 0 < block_size (info s) < 2 ^ 16 -> fseg (heap s) p l None ->
  regions_takeable s l -> 0 <= len <= total_len l * block_size (info s) -> len < 2 ^ 63 ->
  range pos len -> (length l < fuel)%nat ->
  exists p' s', region_loop fuel (mk_alloc (mk_list f la p 0) o) pos len s =
      Ok (Some (mk_alloc (mk_list f la p' 0) o), s') /\ queue_inv s' /\ queued_more s s' /\
    only_in s s' (blocks_of l) /\
    forall k x, blocks_of l !! Z.to_nat k = Some x -> 0 <= k < DIV_ROUND_UP len (block_size (info s)) ->
      holds s' x (src (pos + k * block_size (info s))).
Proof.
  induction l as [|[a [[b n] g]] l IH]; intros fuel f la p o pos len s Hm Hq Hbs Hl Ht Hlen Hmax Hr Hf;
    (destruct fuel as [|fuel]; [cbn in Hf; lia|]); cbn [region_loop].
  - change (total_len []) with 0 in Hlen. assert (len = 0) as -> by lia. cbn [Z.ltb Z.compare].
    exists p, s. split; [reflexivity|]. split; [exact Hq|]. split; [apply queued_more_refl|].
    split; [left; assumption|]. intros k x Hk. discriminate.
  - destruct (Z.ltb_spec 0 len) as [Hpos|Hz].
    2:{ assert (len = 0) as -> by lia. exists p, s. split; [reflexivity|]. split; [exact Hq|].
        split; [apply queued_more_refl|]. split; [left; assumption|]. intros k x _ Hk.
        unfold DIV_ROUND_UP in Hk. rewrite Z.div_small in Hk by lia. lia. }
    destruct Hl as (-> & nx & pv & Ha & Hl). pose proof Ht as (_ & Hno & _).
    destruct (Hno a b n g ltac:(left)) as (Hn & Hb & Hbn).
    unfold bind at 1, get_state.
    rewrite (bind_eq _ _ _ _ _ (get_region_eq s a b n g pv nx f la o Ha ltac:(lia))).
    set (bs := block_size (info s)) in *. set (k := Z.min (n * bs) len).
    destruct (region_part n bs len ltac:(lia) ltac:(lia) Hpos) as (Hk & Hc & Hcase). fold k in Hk, Hc, Hcase.
    assert (0 < n * bs < 2 ^ 32) by nia.
    replace (u32 (Z.min (u32 (n * bs)) len)) with k by (rewrite (u32_id (n * bs)), u32_id by lia; reflexivity).
    destruct (add_ok s pos len k b Hm Hq ltac:(lia) ltac:(lia) ltac:(lia) Hr)
      as (s1 & E1 & Hrq); [exact (takeable_head s a b n g l _ Ht Hc)|].
    rewrite (bind_eq _ _ _ _ _ E1). pose proof Hrq as [Hq1 Hm1 _ Hh1]. fold bs in Hh1.
    pose proof Hm1 as [(_ & Ei & _ & Ev) Eb Eh _ _ _].
    assert (heap s1 !! a = Some (mk_region b n g nx pv)) as Ha1 by (rewrite Eh; exact Ha).
    rewrite (bind_eq _ _ _ _ _ (get_next_region_eq s1 a _ f la o Ha1)). cbn [r_next].
    destruct (range_step pos len k Hr Hk) as (-> & Hr1). rewrite u64_id by lia.
    change (total_len ((a, (b, n, g)) :: l)) with (n + total_len l) in Hlen.
    assert (block_size (info s1) = bs) as Ebs by (rewrite Ei; reflexivity).
    destruct (IH fuel f la nx o (pos + k) (len - k) s1) as (p' & s' & E & Hq' & Hm' & Ho' & Hh').
    + intros z. rewrite Ev. apply Hm.
    + exact Hq1.
    + rewrite Ebs. exact Hbs.
    + rewrite Eh. exact Hl.
    + exact (regions_takeable_next s s1 a b n g l _ _ Ht Hrq (proj2 Hc)).
    + rewrite Ebs. unfold k. rewrite Z.mul_add_distr_r in Hlen. assert (0 <= total_len l * bs); [|lia].
      apply Z.mul_nonneg_nonneg; [|lia]. apply total_len_nonneg. intros a' b' n' g' Hin.
      destruct (Hno a' b' n' g' ltac:(right; exact Hin)). lia.
    + lia.
    + exact Hr1.
    + cbn in Hf. lia.
    + exists p', s'. split; [exact E|]. split; [exact Hq'|]. split; [exact (queued_more_trans _ _ _ Hm1 Hm')|].
      split.
      { intros bb Hbb. rewrite blocks_of_cons. destruct (Ho' bb Hbb) as [Hb1|Hb1].
        - destruct (rq_only _ _ _ _ _ Hrq bb Hb1) as [Hb2|(E1' & E2')]; [auto|]. right. intros x Hx.
          rewrite E1', E2' in Hx. fold bs in Hx. apply elem_of_app. left. apply elem_of_seqZ. lia.
        - right. intros x Hx. apply elem_of_app. right. apply Hb1. rewrite Ebs. exact Hx. }
      intros j x Hj Hjr. rewrite blocks_of_cons in Hj. rewrite Ebs in Hh'.
      destruct (Z.lt_ge_cases j n) as [Hjn|Hjn].
      * rewrite lookup_app_l in Hj by (rewrite length_seqZ; lia). apply lookup_seqZ in Hj as (-> & _).
        assert (j < DIV_ROUND_UP k bs) by (destruct Hcase as [(_ & Ec & _)|(Ek & _)]; [lia|rewrite Ek; lia]).
        apply (queued_more_holds _ _ _ _ Hm'). specialize (Hh1 (b + Z.of_nat (Z.to_nat j)) ltac:(lia)).
        cbv beta in Hh1. replace (b + Z.of_nat (Z.to_nat j) - b) with j in Hh1 by lia. exact Hh1.
      * rewrite lookup_app_r in Hj by (rewrite length_seqZ; lia). rewrite length_seqZ in Hj.
        destruct Hcase as [(Ek & Ec & Ed)|(_ & Ed)]; [|lia].
        specialize (Hh' (j - n) x). replace (pos + j * bs) with (pos + k + (j - n) * bs) by (rewrite Ek; lia).
        apply Hh'; [|lia]. replace (Z.to_nat (j - n)) with (Z.to_nat j - Z.to_nat n)%nat by lia. exact Hj.
Qed.

End Backing.


Lemma backing_loop_region fuel alloc ptr len :
  backing_loop fuel alloc ptr len = region_loop sparse_add_data Z.add fuel alloc ptr len.
Proof. reflexivity. Qed.

Lemma backing_file_loop_region name fuel : forall alloc o len s,
  backing_file_loop fuel alloc name o len s =
    region_loop (sparse_add_file name) (fun o k => s64 (o + k)) fuel alloc o len s.
Proof.
  induction fuel as [|fuel IH]; intros alloc o len s; [reflexivity|].
  cbn [backing_file_loop region_loop]. destruct (0 <? len); [|reflexivity].
  unfold bind at 1 5, get_state. unfold bind at 1 4.
  destruct (get_region alloc s) as [[[[rb rl]|] s1]| | |]; try reflexivity. unfold bind at 1 3.
  destruct (sparse_add_file _ _ _ _ s1) as [[[[]|] s2]| | |]; try reflexivity. unfold bind.
  destruct (get_next_region alloc s2) as [[[a|] s3]| | |]; try reflexivity. apply IH.
Qed.

(** ** Releasing an allocation *)

Lemma free_list_spec l : forall fuel p s, fseg (heap s) p l None -> NoDup (addrs l) ->
  (length l < fuel)%nat -> exists h, free_list fuel p s = Ok (Some tt, set_heap s h) /\
    (forall c, c ∉ addrs l -> h !! c = heap s !! c) /\ (forall c r, h !! c = Some r -> heap s !! c = Some r).
Proof.
  induction l as [|[a [[b n] g]] l IH]; intros fuel p s Hl Hnd Hf;
    (destruct fuel as [|fuel]; [cbn in Hf; lia|]); cbn [free_list].
  - cbn in Hl. subst p. exists (heap s). split; [destruct s; reflexivity|]. auto.
  - destruct Hl as (-> & nx & pv & Ha & Hl). apply NoDup_cons in Hnd as (Hna & Hnd).
    rewrite (bind_eq _ _ _ _ _ (deref_eq s a _ Ha)). cbn [r_next].
    unfold free, bind. rewrite Ha.
    destruct (IH fuel nx (set_heap s (delete a (heap s)))) as (h & E & H1 & H2).
    + apply (fseg_reframe (heap s) _ _ a); [exact Hl|exact Hna|].
      intros c Hc. cbn. apply lookup_delete_ne. congruence.
    + exact Hnd.
    + cbn in Hf. lia.
    + exists h. split; [exact E|]. split.
      * intros c Hc. rewrite H1 by (intros Hin; apply Hc; right; exact Hin). cbn.
        apply lookup_delete_ne. intros <-. apply Hc. left.
      * intros c r Hr. apply H2 in Hr. cbn in Hr. apply lookup_delete_Some in Hr. apply Hr.
Qed.

Lemma free_alloc_spec s alloc l lo : fseg (heap s) (first (list_ alloc)) l None ->
  fseg (heap s) (first (oob_list alloc)) lo None -> (forall c, c ∈ addrs lo -> c ∉ addrs l) ->
  exists h, free_alloc alloc s = Ok (Some tt, set_heap s h) /\ (forall c r, h !! c = Some r -> heap s !! c = Some r).
Proof.
  intros Hl Hlo Hdis.
  destruct (free_list_spec l (list_fuel s) _ s Hl (fseg_nodup _ _ _ Hl) (list_fuel_enough s l _ Hl))
    as (h & E & H1 & H2).
  destruct (free_list_spec lo (list_fuel s) (first (oob_list alloc)) (set_heap s h)) as (h' & E' & _ & H2').
  - apply (fseg_frame (heap s)); [|exact Hlo]. intros c Hc. apply H1, Hdis, Hc.
  - exact (fseg_nodup _ _ _ Hlo).
  - exact (list_fuel_enough s lo _ Hlo).
  - exists h'. split.
    + unfold free_alloc, bind at 1, get_state. rewrite (bind_eq _ _ _ _ _ E). exact E'.
    + intros c r Hr. apply H2, H2', Hr.
Qed.


(** ** A file in the image *)

(** [i'] is the inode [i] with a file of [len] bytes in the blocks [blocks],
    which were free, with [T] for its tree; the file system is ready for the
    next file, and what the image had is still there. *)
Record file_made (s s' : fs) (i i' : ext4_inode) (blocks T : list Z) (len : Z) : Prop := {
  fm_ready : fs_ready s';
  fm_globals : same_globals s s';
  fm_blocks : file_blocks (block_buffer s') i' = Some blocks;
  fm_count : zlen blocks = DIV_ROUND_UP len (block_size (info s));
  fm_nodup : NoDup (T ++ blocks);
  fm_were_free : forall x, x ∈ T ++ blocks -> free_block s x;
  fm_free : forall x, free_block s' x <-> free_block s x /\ x ∉ T ++ blocks;
  fm_inode : exists b, zlen b = zlen (i_block i) /\ i' = set_sizes (set_iblock i b) len
    ((DIV_ROUND_UP len (block_size (info s)) + zlen T) * block_size (info s) / 512);
  fm_grows : image_grows s s';
  fm_only : queues_free s s';
  fm_groups : groups_step s s';
  fm_itab : itab s' = itab s;
  fm_leaf : forall a, leaf_addr s' i' = Some a -> fresh s <= a;
  fm_fresh : fresh s <= fresh s';
  fm_tree_len : zlen T <= 1
}.

Lemma nodes_blocks_len l : (forall a b n g, (a, (b, n, g)) ∈ l -> 0 < n) -> zlen (blocks_of l) = total_len l.
Proof.
  induction l as [|[a [[b n] g]] l IH]; intros H; [reflexivity|]. rewrite blocks_of_cons, zlen_app.
  change (total_len ((a, (b, n, g)) :: l)) with (n + total_len l).
  rewrite IH by (intros; eapply H; right; eassumption). specialize (H a b n g ltac:(left)).
  unfold zlen. rewrite length_seqZ. lia.
Qed.

(** The end of every allocation: the regions are released. *)
Lemma finish_file s s1 s2 alloc alloc2 i i' l T len : fs_ready s ->
  file_allocated s s1 alloc i i' l T len -> first (list_ alloc2) = first (list_ alloc) ->
  oob_list alloc2 = oob_list alloc -> queue_inv s2 -> same_globals s1 s2 -> bgs s2 = bgs s1 ->
  heap s2 = heap s1 -> fresh s1 <= fresh s2 -> mem_fresh s2 -> image_grows s1 s2 ->
  itab s2 = itab s1 -> only_in s1 s2 (blocks_of l) ->
  exists h, free_alloc alloc2 s2 = Ok (Some tt, set_heap s2 h) /\
    file_made s (set_heap s2 h) i i' (blocks_of l) T len /\
    (forall a, leaf_addr (set_heap s2 h) i' = Some a -> a < fresh s1).
Proof.
  intros Hrd Hfa E1 E2 Hq Hg Hb Hh Hf Hmf Hig Hit Hon.
  destruct (fa_oob _ _ _ _ _ _ _ _ Hfa) as (lo & Hlo & Hdis).
  destruct (free_alloc_spec s2 alloc2 l lo) as (h & E & Hsub).
  { rewrite E1, Hh. exact (fa_seg _ _ _ _ _ _ _ _ Hfa). } { rewrite E2, Hh. exact Hlo. } { exact Hdis. }
  exists h. split; [exact E|].
  destruct Hfa as [_ _ Hl Hok Hgl Hhf _ Hnd Hwf Hfree Hno Htree Hino _ Hgs Hqf _ Hgr Hita Hleaf _ Hfr1 HT1].
  pose proof (same_globals_trans _ _ _ Hgl Hg) as Hgl2.
  assert (forall x, free_block (set_heap s2 h) x <-> free_block s1 x) as Hfb
    by (intros x; unfold free_block; cbn; rewrite Hb; tauto).
  assert (image_grows s1 (set_heap s2 h)) as Hig2 by (destruct Hig; split; assumption).
  assert (queue_inv (set_heap s2 h)) as Hq2 by (destruct Hq; split; assumption).
  assert (queues_free s (set_heap s2 h)) as Hqf2.
  { intros bb Hbb. destruct (Hon bb Hbb) as [Hbb1|Hbb1]; [exact (Hqf bb Hbb1)|]. right. intros x Hx.
    apply Hwf, elem_of_app. right. apply Hbb1. destruct Hgl as (_ & Ei & _). rewrite Ei. exact Hx. }
  pose proof (leaf_addr_stable s1 _ i' _ Hq2 Hig2 Htree) as Hla.
  split; [|intros a; rewrite Hla; intros Ha; apply Hleaf in Ha; lia]. split; auto.
  - apply (fs_ready_step s); auto.
    + destruct Hok as [G N B]. destruct Hg as (_ & Ei & Ea & _). split; cbn; rewrite ?Ei, ?Ea, ?Hb; auto.
    + intros c Hc. cbn in *. destruct (h !! c) as [r|] eqn:Er; [|reflexivity].
      apply Hsub in Er. rewrite Hh, Hhf in Er by lia. discriminate.
    + intros x Hx. apply Hfb, Hfree in Hx. apply Hx.
    + intros j c Hc. cbn in Hc. rewrite Hb in Hc. exact (Hgs j c Hc).
  - exact (file_blocks_stable s1 _ i' _ Hq2 Hig2 Htree).
  - rewrite nodes_blocks_len; [exact Hl|]. intros a b n g Hin. destruct (Hno a b n g Hin). lia.
  - intros x. rewrite Hfb. apply Hfree.
  - exact (image_grows_trans _ _ _ Hgr Hig2).
  - intros j c Hc. cbn in Hc. rewrite Hb in Hc. exact (Hgs j c Hc).
  - cbn. congruence.
  - intros a. rewrite Hla. intros Ha. apply Hleaf in Ha. lia.
  - cbn. lia.
Qed.

(** The state in which the contents are queued. *)
Lemma allocated_takeable s s1 alloc i i' l T len : fs_ready s ->
  file_allocated s s1 alloc i i' l T len -> regions_takeable s1 l.
Proof.
  intros Hrd Hfa. pose proof (fa_nodup _ _ _ _ _ _ _ _ Hfa) as Hnd.
  apply NoDup_app in Hnd as (_ & _ & Hnd). split; [exact Hnd|]. split.
  - intros a b n g Hin. pose proof (fa_nodes _ _ _ _ _ _ _ _ Hfa a b n g Hin). pose proof (rd_group _ Hrd). lia.
  - intros x Hx. split; [exact (fa_unqueued _ _ _ _ _ _ _ _ Hfa x Hx)|]. split.
    { destruct (fa_globals _ _ _ _ _ _ _ _ Hfa) as (_ & _ & -> & _). apply (free_bound s); [exact (rd_ok _ Hrd)|].
      apply (fa_were_free _ _ _ _ _ _ _ _ Hfa), elem_of_app. auto. }
    intros Hf. apply (fa_free _ _ _ _ _ _ _ _ Hfa) in Hf. apply (proj2 Hf), elem_of_app. auto.
Qed.

Lemma data_loop_spec s f la o l d len : memory s -> queue_inv s -> 0 < block_size (info s) < 2 ^ 16 ->
  fseg (heap s) f l None -> regions_takeable s l -> 0 <= len <= total_len l * block_size (info s) ->
  len < 2 ^ 63 ->
  exists p' s', backing_loop (list_fuel s) (mk_alloc (mk_list f la f 0) o) d len s =
      Ok (Some (mk_alloc (mk_list f la p' 0) o), s') /\ queue_inv s' /\ queued_more s s' /\
    only_in s s' (blocks_of l) /\
    forall k x, blocks_of l !! Z.to_nat k = Some x -> 0 <= k < DIV_ROUND_UP len (block_size (info s)) ->
      holds s' x (from_memory (d + k * block_size (info s))).
Proof.
  intros Hm Hq Hbs Hl Ht Hlen Hmax. rewrite backing_loop_region.
  apply (region_loop_spec sparse_add_data Z.add from_memory (fun _ _ => True)); auto.
  - intros s0 pos len0 k b H1 H2 H3 H4 _ _ H5. exact (add_data_region s0 pos k b H1 H2 H3 H4 H5).
  - exact (list_fuel_enough s l _ Hl).
Qed.

Lemma file_loop_spec s f la o l name len : memory s -> queue_inv s -> 0 < block_size (info s) < 2 ^ 16 ->
  fseg (heap s) f l None -> regions_takeable s l -> 0 <= len <= total_len l * block_size (info s) ->
  len < 2 ^ 63 ->
  exists p' s', extent_create_backing_file (mk_alloc (mk_list f la f 0) o) len name s =
      Ok (Some (mk_alloc (mk_list f la p' 0) o), s') /\ queue_inv s' /\ queued_more s s' /\
    only_in s s' (blocks_of l) /\
    forall k x, blocks_of l !! Z.to_nat k = Some x -> 0 <= k < DIV_ROUND_UP len (block_size (info s)) ->
      holds s' x (from_file name (k * block_size (info s))).
Proof.
  intros Hm Hq Hbs Hl Ht Hlen Hmax. unfold extent_create_backing_file, bind, get_state.
  rewrite backing_file_loop_region.
  apply (region_loop_spec (sparse_add_file name) (fun o k => s64 (o + k)) (from_file name)
    (fun pos len => 0 <= pos /\ pos + len < 2 ^ 63)); auto.
  - intros pos len0 k (H1 & H2) H3. split; [apply s64_id; lia|lia].
  - intros s0 pos len0 k b H1 H2 H3 H4 H5 (H6 & H7) H8.
    exact (add_file_region s0 name pos k b H1 H2 H3 H4 H6 ltac:(lia) H8).
  - lia.
  - exact (list_fuel_enough s l _ Hl).
Qed.

(** The shape of the allocation the contents are queued for. *)
Lemma allocated_shape s s1 alloc i i' l T len : file_allocated s s1 alloc i i' l T len ->
  exists f la o, alloc = mk_alloc (mk_list f la f 0) o /\ fseg (heap s1) f l None.
Proof.
  intros Hfa. destruct alloc as [[f la p pi] o]. destruct (fa_iter _ _ _ _ _ _ _ _ Hfa) as (H1 & H2).
  cbn in H1, H2. subst p pi. exists f, la, o. split; [reflexivity|]. exact (fa_seg _ _ _ _ _ _ _ _ Hfa).
Qed.

Lemma allocated_globals s s1 alloc i i' l T len k : fs_ready s ->
  file_allocated s s1 alloc i i' l T len -> k <= len ->
  info s1 = info s /\ memory s1 /\ 0 < block_size (info s1) < 2 ^ 16 /\
  k <= total_len l * block_size (info s1).
Proof.
  intros Hrd Hfa Hk. destruct (fa_globals _ _ _ _ _ _ _ _ Hfa) as (_ & Ei & _ & Ev).
  pose proof (rd_leaf _ Hrd) as Hbs. pose proof (geo_block_size _ _ (fs_geometry _ (rd_ok _ Hrd))).
  rewrite Ei. split; [reflexivity|]. split; [intros x; rewrite Ev; apply (rd_memory _ Hrd)|]. split; [lia|].
  rewrite (fa_len _ _ _ _ _ _ _ _ Hfa). pose proof (DIV_ROUND_UP_bound len (block_size (info s)) ltac:(lia)). lia.
Qed.

Lemma data_extents_spec s i len backing_len :
  fs_ready s -> zlen (i_block i) = 60 -> 0 < len < 2 ^ 63 ->
  DIV_ROUND_UP len (block_size (info s)) + 1 < 2 ^ 31 ->
  can_hold s (DIV_ROUND_UP len (block_size (info s)) + 1) = true ->
  0 < backing_len <= len -> backing_len < 2 ^ 32 ->
  exists data i' s' blocks T,
    inode_allocate_data_extents i len backing_len s = Ok (Some (Some data, i'), s') /\
    file_made s s' i i' blocks T len /\
    mem s' !! data = Some (zeros backing_len) /\
    (forall k x, blocks !! Z.to_nat k = Some x -> 0 <= k < DIV_ROUND_UP backing_len (block_size (info s)) ->
      block_source s' x = Some (from_memory (data + k * block_size (info s)))) /\
    fresh s <= data < fresh s' /\ leaf_addr s' i' <> Some data.
Proof.
  intros Hrd Hib Hlen Hn Hcan Hbk Hbk32.
  destruct (do_extents_spec s i len Hrd Hib Hlen Hn Hcan) as (alloc & i' & s1 & l & T & E & Hfa).
  destruct (allocated_globals s s1 alloc i i' l T len backing_len Hrd Hfa ltac:(lia)) as (Ei & Hm & Hbs & Hcov).
  destruct (allocated_shape _ _ _ _ _ _ _ _ Hfa) as (f & la & o & Ea & Hseg).
  set (d := fresh s1). set (s2 := set_mem (set_fresh s1 (d + Z.max 1 backing_len)) d (zeros backing_len)).
  assert (calloc (u32 backing_len) s1 = Ok (Some (Some d), s2)) as Ec
    by (unfold calloc; rewrite Hm, u32_id by lia; reflexivity).
  assert (queue_inv s2) as Hq2
    by (apply (queue_inv_mono s1); try reflexivity; [exact (fa_queue _ _ _ _ _ _ _ _ Hfa)|cbn; unfold d; lia|auto]).
  destruct (data_loop_spec s2 f la o l d backing_len Hm Hq2 Hbs Hseg
    (allocated_takeable _ _ _ _ _ _ _ _ Hrd Hfa) ltac:(cbn; lia) ltac:(lia)) as (p' & s3 & El & Hq3 & Hm3 & Ho3 & Hh).
  pose proof Hm3 as [Hg3 Hb3 Hh3 (Em3 & Et3) Hf3 Hi3]. cbn in Hf3.
  assert (forall c, c < d -> mem s3 !! c = mem s1 !! c) as Hmem
    by (intros c Hc; rewrite Em3; cbn; apply lookup_insert_ne; unfold d in *; lia).
  pose proof (fa_mem _ _ _ _ _ _ _ _ Hfa) as Hmf.
  destruct (finish_file s s1 s3 alloc (mk_alloc (mk_list f la p' 0) o) i i' l T len Hrd Hfa)
    as (h & Ef & Hmade & Hla); try (rewrite Ea; reflexivity); auto.
  - unfold d in *. lia.
  - intros c b Hc. rewrite Em3 in Hc. cbn in Hc. destruct (decide (c = d)) as [->|Hne]; [lia|].
    rewrite lookup_insert_ne in Hc by congruence. specialize (Hmf c b Hc). unfold d in *. lia.
  - split; [apply Hg3|exact Hi3|]. intros c b Hc. rewrite Hmem; [exact Hc|exact (Hmf c b Hc)].
  - exists d, i', (set_heap s3 h), (blocks_of l), T. split; [|split; [exact Hmade|split]].
    + unfold inode_allocate_data_extents. rewrite (bind_eq _ _ _ _ _ E).
      rewrite (proj2 (Z.eqb_neq _ _)) by lia. cbn [negb]. unfold extent_create_backing, bind at 1 2 3.
      rewrite Ec. unfold bind at 1, get_state. unfold bind at 1. rewrite Ea, El. unfold bind, ret. rewrite Ef. reflexivity.
    + cbn. rewrite Em3. cbn. apply lookup_insert_eq.
    + split; [|split].
      * intros k x Hk Hkr. rewrite <- Ei in Hkr |- *.
        apply (holds_find (set_heap s3 h)); [exact (rd_queue _ (fm_ready _ _ _ _ _ _ _ Hmade))|]. exact (Hh k x Hk Hkr).
      * pose proof (fa_fresh_le _ _ _ _ _ _ _ _ Hfa). cbn. unfold d in *. lia.
      * intros Hd. apply Hla in Hd. unfold d in Hd. lia.
Qed.


Lemma file_extents_spec s i len filename :
  fs_ready s -> zlen (i_block i) = 60 -> 0 < len < 2 ^ 63 ->
  DIV_ROUND_UP len (block_size (info s)) + 1 < 2 ^ 31 ->
  can_hold s (DIV_ROUND_UP len (block_size (info s)) + 1) = true ->
  exists i' s' blocks T,
    inode_allocate_file_extents i len filename s = Ok (Some i', s') /\
    file_made s s' i i' blocks T len /\
    forall k x, blocks !! Z.to_nat k = Some x -> 0 <= k ->
      block_source s' x = Some (from_file filename (k * block_size (info s))).
Proof.
  intros Hrd Hib Hlen Hn Hcan.
  destruct (do_extents_spec s i len Hrd Hib Hlen Hn Hcan) as (alloc & i' & s1 & l & T & E & Hfa).
  destruct (allocated_globals s s1 alloc i i' l T len len Hrd Hfa ltac:(lia)) as (Ei & Hm & Hbs & Hcov).
  destruct (allocated_shape _ _ _ _ _ _ _ _ Hfa) as (f & la & o & Ea & Hseg).
  destruct (file_loop_spec s1 f la o l filename len Hm (fa_queue _ _ _ _ _ _ _ _ Hfa) Hbs Hseg
    (allocated_takeable _ _ _ _ _ _ _ _ Hrd Hfa) ltac:(lia) ltac:(lia)) as (p' & s3 & El & Hq3 & Hm3 & Ho3 & Hh).
  pose proof Hm3 as [Hg3 Hb3 Hh3 (Em3 & Et3) Hf3 Hi3].
  destruct (finish_file s s1 s3 alloc (mk_alloc (mk_list f la p' 0) o) i i' l T len Hrd Hfa)
    as (h & Ef & Hmade & Hla); try (rewrite Ea; reflexivity); auto.
  - intros c b Hc. rewrite Em3 in Hc. pose proof (fa_mem _ _ _ _ _ _ _ _ Hfa c b Hc). lia.
  - split; [apply Hg3|exact Hi3|rewrite Em3; auto].
  - exists i', (set_heap s3 h), (blocks_of l), T. split; [|split; [exact Hmade|]].
    + unfold inode_allocate_file_extents. rewrite (bind_eq _ _ _ _ _ E), Ea.
      rewrite (bind_eq _ _ _ _ _ El). rewrite (bind_eq _ _ _ _ _ Ef). reflexivity.
    + intros k x Hk Hk0. rewrite <- Ei.
      apply (holds_find (set_heap s3 h)); [exact (rd_queue _ (fm_ready _ _ _ _ _ _ _ Hmade))|].
      apply (Hh k x Hk). rewrite Ei, <- (fm_count _ _ _ _ _ _ _ Hmade). apply lookup_lt_Some in Hk.
      unfold zlen. lia.
Qed.

(** ** Theorems *)

(** C16: a file made from memory reads back: [inode_allocate_data_extents]
    returns a buffer, the tree in the inode lists exactly the blocks that were
    taken for the file (free before, none twice, none taken from another file),
    the block [k] of the file holds the buffer from [k] blocks on, and the file
    system is ready for the next file with all earlier ones still readable. *)
Theorem inode_allocate_data_extents_correct s i len backing_len :
  fs_ready s -> zlen (i_block i) = 60 -> 0 < len < 2 ^ 63 ->
  DIV_ROUND_UP len (block_size (info s)) + 1 < 2 ^ 31 ->
  can_hold s (DIV_ROUND_UP len (block_size (info s)) + 1) = true ->
  0 < backing_len <= len -> backing_len < 2 ^ 32 ->
  exists data i' s' blocks T,
    inode_allocate_data_extents i len backing_len s = Ok (Some (Some data, i'), s') /\
    file_made s s' i i' blocks T len /\
    mem s' !! data = Some (zeros backing_len) /\
    forall k x, blocks !! Z.to_nat k = Some x -> 0 <= k < DIV_ROUND_UP backing_len (block_size (info s)) ->
      block_source s' x = Some (from_memory (data + k * block_size (info s))).
Proof.
  intros Hrd Hib Hlen Hn Hcan Hbk Hbk32.
  destruct (data_extents_spec s i len backing_len Hrd Hib Hlen Hn Hcan Hbk Hbk32)
    as (data & i' & s' & blocks & T & E & Hm & Hd & Hk & _).
  exists data, i', s', blocks, T. auto.
Qed.

(** A file copied into the image: the blocks its tree lists hold the bytes of
    [filename] from offset 0 on, in order, one block after the other. *)
Theorem inode_allocate_file_extents_correct s i len filename :
  fs_ready s -> zlen (i_block i) = 60 -> 0 < len < 2 ^ 63 ->
  DIV_ROUND_UP len (block_size (info s)) + 1 < 2 ^ 31 ->
  can_hold s (DIV_ROUND_UP len (block_size (info s)) + 1) = true ->
  exists i' s' blocks T,
    inode_allocate_file_extents i len filename s = Ok (Some i', s') /\
    file_made s s' i i' blocks T len /\
    forall k x, blocks !! Z.to_nat k = Some x -> 0 <= k ->
      block_source s' x = Some (from_file filename (k * block_size (info s))).
Proof. exact (file_extents_spec s i len filename). Qed.

(** A file of four regions in the example, whose tree needs a block. *)
Lemma inode_allocate_data_extents_correct_witness :
  exists data i' s' blocks T,
    inode_allocate_data_extents zero_inode 2230 2230 ext_fs = Ok (Some (Some data, i'), s') /\
    file_made ext_fs s' zero_inode i' blocks T 2230 /\
    forall k x, blocks !! Z.to_nat k = Some x -> 0 <= k < 35 ->
      block_source s' x = Some (from_memory (data + k * 64)).
Proof.
  destruct (inode_allocate_data_extents_correct ext_fs zero_inode 2230 2230 ext_fs_ready)
    as (data & i' & s' & blocks & T & E & Hm & _ & Hk); [reflexivity|lia| | |lia|lia|].
  - apply Z.ltb_lt. vm_compute. reflexivity.
  - vm_compute. reflexivity.
  - exists data, i', s', blocks, T. split; [exact E|]. split; [exact Hm|]. intros k x H1 H2. apply Hk; assumption.
Defined.

(** A small file in the example. *)
Lemma inode_allocate_file_extents_correct_witness :
  exists i' s' blocks T,
    inode_allocate_file_extents zero_inode 300 "init" ext_fs = Ok (Some i', s') /\
    file_made ext_fs s' zero_inode i' blocks T 300 /\
    forall k x, blocks !! Z.to_nat k = Some x -> 0 <= k ->
      block_source s' x = Some (from_file "init" (k * 64)).
Proof.
  destruct (inode_allocate_file_extents_correct ext_fs zero_inode 300 "init" ext_fs_ready)
    as (i' & s' & blocks & T & E & Hm & Hk); [reflexivity|lia| | |].
  - apply Z.ltb_lt. vm_compute. reflexivity.
  - vm_compute. reflexivity.
  - exists i', s', blocks, T. split; [exact E|]. split; [exact Hm|]. exact Hk.
Defined.


End Ext4ExtentFiles.
