(* ===== verification/Ext4Indirect.v ===== *)
(** * ext4_utils/indirect.c: files addressed by indirect blocks

    The first twelve blocks of a file are listed in the inode, the next ones in
    an indirect block, then in doubly and triply indirect blocks. Symbolic links
    whose target does not fit into the inode and the resize inode are stored
    this way. The indirect blocks are set aside in the second list of the
    allocation, from which they are taken in order. *)

From S2P Require Import Prelude BackedBlock SparseFile Ext4Utils Ext4Alloc Ext4Extent.

Module Ext4Indirect.
Import Ext4Utils Ext4Alloc Ext4Extent.

Definition EXT4_NDIR_BLOCKS : Z := 12.
Definition EXT4_IND_BLOCK : Z := EXT4_NDIR_BLOCKS.
Definition EXT4_DIND_BLOCK : Z := EXT4_IND_BLOCK + 1.
Definition EXT4_TIND_BLOCK : Z := EXT4_DIND_BLOCK + 1.

(** [p[i] = v] for a buffer of [u32]. *)
Definition write_word (p i v : Z) : M unit :=
  let* s := get_state in
  let* buf := lift (oof (mem s !! p)) in
  let* buf := lift (splice buf (4 * i) (le_bytes 4 v)) in
  put_mem p buf.

(** [inode->i_block[i] = v] *)
Definition set_block (inode : ext4_inode) (i v : Z) : M ext4_inode :=
  let* b := lift (splice (i_block inode) (4 * i) (le_bytes 4 v)) in
  ret (set_iblock inode b).

(** A zeroed block, queued for [block]; the pointer is not tested. *)
Definition new_block (block : Z) : M Z :=
  let* s := get_state in
  let* p := calloc (block_size (info s)) in
  match p with
  | None => undef
  | Some data =>
      let* _ := sparse_add_data data (block_size (info s)) block in
      ret data
  end.

(** ** Contents *)

Fixpoint create_backing_loop (fuel : nat) (alloc : block_allocation) (ptr backing_len : Z)
  : M block_allocation :=
  match fuel with
  | O => nofuel
  | S f =>
      if 0 <? backing_len then
        let* s := get_state in
        let* (region_block, region_len) := get_region alloc in
        let len := Z.min (u32 (region_len * block_size (info s))) backing_len in
        let* _ := sparse_add_data ptr len region_block in
        let* alloc := get_next_region alloc in
        create_backing_loop f alloc (ptr + len) (u32 (backing_len - len))
      else ret alloc
  end.

Definition create_backing (alloc : block_allocation) (backing_len : Z) : M (Z * block_allocation) :=
  let* s := get_state in
  if block_size (info s) =? 0 then undef
  else if EXT4_NDIR_BLOCKS <? div_round_up32 backing_len (block_size (info s)) then critical_error
  else
    let* p := calloc backing_len in
    match p with
    | None => critical_error
    | Some data =>
        let* s := get_state in
        let* alloc := create_backing_loop (list_fuel s) alloc data backing_len in
        ret (data, alloc)
    end.

(** ** Setting indirect blocks aside *)

Definition reserve_indirect_block (alloc : block_allocation) (len : Z) : M block_allocation :=
  let* (r, alloc) := reserve_oob_blocks alloc 1 in
  if negb (r =? 0) then let* _ := error in ret alloc
  else
    let* (r, alloc) := advance_blocks alloc len in
    if negb (r =? 0) then let* _ := error in ret alloc else ret alloc.

Fixpoint reserve_dind_loop (fuel : nat) (alloc : block_allocation) (len : Z) : M block_allocation :=
  match fuel with
  | O => nofuel
  | S f =>
      if 0 <? len then
        let* s := get_state in
        let ind_block_len := Z.min (s32 (blocks_per_ind (aux_info s))) len in
        let* alloc := reserve_indirect_block alloc ind_block_len in
        reserve_dind_loop f alloc (s32 (len - ind_block_len))
      else ret alloc
  end.

Definition reserve_dindirect_block (alloc : block_allocation) (len : Z) : M block_allocation :=
  let* (r, alloc) := reserve_oob_blocks alloc 1 in
  if negb (r =? 0) then let* _ := error in ret alloc
  else reserve_dind_loop (S (Z.to_nat len)) alloc len.

Fixpoint reserve_tind_loop (fuel : nat) (alloc : block_allocation) (len : Z) : M block_allocation :=
  match fuel with
  | O => nofuel
  | S f =>
      if 0 <? len then
        let* s := get_state in
        let dind_block_len := Z.min (s32 (blocks_per_dind (aux_info s))) len in
        let* alloc := reserve_dindirect_block alloc dind_block_len in
        reserve_tind_loop f alloc (s32 (len - dind_block_len))
      else ret alloc
  end.

Definition reserve_tindirect_block (alloc : block_allocation) (len : Z) : M block_allocation :=
  let* (r, alloc) := reserve_oob_blocks alloc 1 in
  if negb (r =? 0) then let* _ := error in ret alloc
  else reserve_tind_loop (S (Z.to_nat len)) alloc len.

Definition reserve_all_indirect_blocks (alloc : block_allocation) (len : Z) : M block_allocation :=
  let* s := get_state in
  if len <=? EXT4_NDIR_BLOCKS then ret alloc
  else
    let len := u32 (len - EXT4_NDIR_BLOCKS) in
    let* (_, alloc) := advance_blocks alloc EXT4_NDIR_BLOCKS in
    let ind_block_len := Z.min (blocks_per_ind (aux_info s)) len in
    let* alloc := reserve_indirect_block alloc (s32 ind_block_len) in
    let len := u32 (len - ind_block_len) in
    if len =? 0 then ret alloc
    else
      let dind_block_len := Z.min (blocks_per_dind (aux_info s)) len in
      let* alloc := reserve_dindirect_block alloc (s32 dind_block_len) in
      let len := u32 (len - dind_block_len) in
      if len =? 0 then ret alloc
      else
        let tind_block_len := Z.min (blocks_per_tind (aux_info s)) len in
        let* alloc := reserve_tindirect_block alloc (s32 tind_block_len) in
        let len := u32 (len - tind_block_len) in
        if len =? 0 then ret alloc else let* _ := error in ret alloc.

(** ** Filling indirect blocks *)

Fixpoint fill_ind_loop (ids : list Z) (ind_block : Z) (alloc : block_allocation) : M unit :=
  match ids with
  | [] => ret tt
  | i :: ids =>
      let* b := get_block alloc i in
      let* _ := write_word ind_block i b in
      fill_ind_loop ids ind_block alloc
  end.

Definition fill_indirect_block (ind_block len : Z) (alloc : block_allocation) : M unit :=
  fill_ind_loop (seqZ 0 len) ind_block alloc.

Fixpoint fill_dind_loop (fuel : nat) (i dind_block len : Z) (alloc : block_allocation) : M block_allocation :=
  match fuel with
  | O => nofuel
  | S f =>
      if 0 <? len then
        let* s := get_state in
        let* ind_block := get_oob_block alloc 0 in
        let* (r, alloc) := advance_oob_blocks alloc 1 in
        if negb (r =? 0) then let* _ := error in ret alloc
        else
          let* _ := write_word dind_block i ind_block in
          let* ind_block_data := new_block ind_block in
          let ind_block_len := Z.min (s32 (blocks_per_ind (aux_info s))) len in
          let* _ := fill_indirect_block ind_block_data ind_block_len alloc in
          let* (r, alloc) := advance_blocks alloc ind_block_len in
          if negb (r =? 0) then let* _ := error in ret alloc
          else fill_dind_loop f (i + 1) dind_block (s32 (len - ind_block_len)) alloc
      else ret alloc
  end.

Definition fill_dindirect_block (dind_block len : Z) (alloc : block_allocation) : M block_allocation :=
  fill_dind_loop (S (Z.to_nat len)) 0 dind_block len alloc.

Fixpoint fill_tind_loop (fuel : nat) (i tind_block len : Z) (alloc : block_allocation) : M block_allocation :=
  match fuel with
  | O => nofuel
  | S f =>
      if 0 <? len then
        let* s := get_state in
        let* dind_block := get_oob_block alloc 0 in
        let* (r, alloc) := advance_oob_blocks alloc 1 in
        if negb (r =? 0) then let* _ := error in ret alloc
        else
          let* _ := write_word tind_block i dind_block in
          let* dind_block_data := new_block dind_block in
          let dind_block_len := Z.min (s32 (blocks_per_dind (aux_info s))) len in
          let* alloc := fill_dindirect_block dind_block_data dind_block_len alloc in
          fill_tind_loop f (i + 1) tind_block (s32 (len - dind_block_len)) alloc
      else ret alloc
  end.

Definition fill_tindirect_block (tind_block len : Z) (alloc : block_allocation) : M block_allocation :=
  fill_tind_loop (S (Z.to_nat len)) 0 tind_block len alloc.

(** ** Attaching blocks to an inode

    Each step takes the number of blocks that are left and returns its result
    code with the inode, the allocation and the new number. *)

Definition attached : Type := Z * ext4_inode * block_allocation * Z.

Fixpoint attach_loop (ids : list Z) (inode : ext4_inode) (alloc : block_allocation) : M ext4_inode :=
  match ids with
  | [] => ret inode
  | i :: ids =>
      let* b := get_block alloc i in
      let* inode := set_block inode i b in
      attach_loop ids inode alloc
  end.

Definition inode_attach_direct_blocks (inode : ext4_inode) (alloc : block_allocation) (block_len : Z)
  : M attached :=
  let len := Z.min block_len EXT4_NDIR_BLOCKS in
  let* inode := attach_loop (seqZ 0 len) inode alloc in
  let* (r, alloc) := advance_blocks alloc len in
  if negb (r =? 0) then let* _ := error in ret (-1, inode, alloc, block_len)
  else ret (0, inode, alloc, u32 (block_len - len)).

(** The three kinds of indirect blocks differ in the place in the inode, the
    number of blocks and the function that fills the block. *)
Definition attach_indirect (slot per : Z) (fill : Z -> Z -> block_allocation -> M block_allocation)
    (inode : ext4_inode) (alloc : block_allocation) (block_len : Z) : M attached :=
  let len := s32 (Z.min block_len per) in
  let* ind_block := get_oob_block alloc 0 in
  let* inode := set_block inode slot ind_block in
  let* (r, alloc) := advance_oob_blocks alloc 1 in
  if negb (r =? 0) then let* _ := error in ret (-1, inode, alloc, block_len)
  else
    let* ind_block_data := new_block ind_block in
    let* alloc := fill ind_block_data len alloc in
    let* (r, alloc) := advance_blocks alloc len in
    if negb (r =? 0) then let* _ := error in ret (-1, inode, alloc, block_len)
    else ret (0, inode, alloc, u32 (block_len - len)).

Definition inode_attach_indirect_blocks (inode : ext4_inode) (alloc : block_allocation) (block_len : Z)
  : M attached :=
  let* s := get_state in
  attach_indirect EXT4_IND_BLOCK (blocks_per_ind (aux_info s))
    (fun p len alloc => let* _ := fill_indirect_block p len alloc in ret alloc) inode alloc block_len.

Definition inode_attach_dindirect_blocks (inode : ext4_inode) (alloc : block_allocation) (block_len : Z)
  : M attached :=
  let* s := get_state in
  attach_indirect EXT4_DIND_BLOCK (blocks_per_dind (aux_info s)) fill_dindirect_block inode alloc block_len.

Definition inode_attach_tindirect_blocks (inode : ext4_inode) (alloc : block_allocation) (block_len : Z)
  : M attached :=
  let* s := get_state in
  attach_indirect EXT4_TIND_BLOCK (blocks_per_tind (aux_info s)) fill_tindirect_block inode alloc block_len.

(** The number of indirect blocks. *)
Definition indirect_blocks_needed (len : Z) : M Z :=
  let* s := get_state in
  let a := aux_info s in
  if len <=? EXT4_NDIR_BLOCKS then ret 0
  else
    let len := u32 (len - EXT4_NDIR_BLOCKS) in
    if blocks_per_ind a =? 0 then undef else
    let ind := div_round_up32 len (blocks_per_ind a) in
    if len <=? blocks_per_ind a then ret ind
    else
      let len := u32 (len - blocks_per_ind a) in
      if blocks_per_dind a =? 0 then undef else
      let ind := u32 (ind + div_round_up32 len (blocks_per_dind a)) in
      if len <=? blocks_per_dind a then ret ind
      else
        let len := u32 (len - blocks_per_dind a) in
        if blocks_per_tind a =? 0 then undef else
        let ind := u32 (ind + div_round_up32 len (blocks_per_tind a)) in
        if len <=? blocks_per_tind a then ret ind else critical_error.

(** One step of [do_inode_attach_indirect]: only when blocks are left. *)
Definition attach_rest (attach : ext4_inode -> block_allocation -> Z -> M attached)
    (inode : ext4_inode) (alloc : block_allocation) (count : Z) : M attached :=
  if 0 <? count then
    let* (r, inode, alloc, count) := attach inode alloc count in
    if negb (r =? 0) then let* _ := error in ret (-1, inode, alloc, count)
    else ret (0, inode, alloc, count)
  else ret (0, inode, alloc, count).

Definition do_inode_attach_indirect (inode : ext4_inode) (alloc : block_allocation) (block_len : Z)
  : M (Z * ext4_inode * block_allocation) :=
  let* (r, inode, alloc, count) := inode_attach_direct_blocks inode alloc block_len in
  if negb (r =? 0) then let* _ := error in ret (-1, inode, alloc)
  else
    let* (r, inode, alloc, count) := attach_rest inode_attach_indirect_blocks inode alloc count in
    if negb (r =? 0) then ret (-1, inode, alloc)
    else
      let* (r, inode, alloc, count) := attach_rest inode_attach_dindirect_blocks inode alloc count in
      if negb (r =? 0) then ret (-1, inode, alloc)
      else
        let* (r, inode, alloc, count) := attach_rest inode_attach_tindirect_blocks inode alloc count in
        if negb (r =? 0) then ret (-1, inode, alloc)
        else if negb (count =? 0) then let* _ := error in ret (-1, inode, alloc)
        else ret (0, inode, rewind_alloc alloc).

Definition do_inode_allocate_indirect (block_len : Z) : M (option block_allocation) :=
  let* indirect_len := indirect_blocks_needed block_len in
  let* alloc := allocate_blocks (u32 (block_len + indirect_len)) in
  match alloc with
  | None => let* _ := error in ret None
  | Some alloc => ret (Some alloc)
  end.

(** The sizes; all fields are 32 bits wide here. *)
Definition set_indirect_sizes (i : ext4_inode) (flags blocks len : Z) : ext4_inode :=
  mk_inode (i_mode i) (i_uid i) len (i_atime i) (i_ctime i) (i_mtime i) (i_gid i)
    (i_links_count i) blocks flags (i_block i) (i_size_high i) (l_i_blocks_high i).

Definition inode_allocate_indirect (inode : ext4_inode) (len : Z) : M ext4_inode :=
  let* s := get_state in
  if block_size (info s) =? 0 then undef else
  let block_len := div_round_up32 len (block_size (info s)) in
  let* indirect_len := indirect_blocks_needed block_len in
  let* alloc := do_inode_allocate_indirect block_len in
  match alloc with
  | None => let* _ := error in ret inode
  | Some alloc =>
      let* alloc := reserve_all_indirect_blocks alloc block_len in
      let* (r, inode, alloc) := do_inode_attach_indirect inode (rewind_alloc alloc) block_len in
      let* _ := if negb (r =? 0) then error else ret tt in
      let blocks := u32 (u32 (block_len + indirect_len) * block_size (info s)) / 512 in
      let* _ := free_alloc alloc in
      ret (set_indirect_sizes inode 0 blocks len)
  end.

(** The data buffer ([None] for NULL) with the inode. *)
Definition inode_allocate_data_indirect (inode : ext4_inode) (len backing_len : Z)
  : M (option Z * ext4_inode) :=
  let* s := get_state in
  if block_size (info s) =? 0 then undef else
  let block_len := div_round_up32 len (block_size (info s)) in
  let* alloc := do_inode_allocate_indirect block_len in
  match alloc with
  | None => let* _ := error in ret (None, inode)
  | Some alloc =>
      let* (data, alloc) :=
        if negb (backing_len =? 0) then
          let* (d, alloc) := create_backing alloc backing_len in ret (Some d, alloc)
        else ret (None, alloc) in
      let* (r, inode, alloc) := do_inode_attach_indirect inode (rewind_alloc alloc) block_len in
      let* _ := if negb (r =? 0) then error else ret tt in
      let* _ := free_alloc alloc in
      ret (data, inode)
  end.

(** ** The resize inode

    The reserved descriptor blocks of the first group are the indirect blocks,
    each with the reserved blocks of the other groups at the same place. *)

(** [(i - aux_info.bg_desc_blocks) % info.bg_desc_reserve_blocks], an unsigned
    remainder, stored in an [int] that is adjusted when it is negative. *)
Definition resize_index (bgd reserve i : Z) : Z :=
  let r := s32 (u32 (i - bgd) mod reserve) in
  if r <? 0 then s32 (u32 (r + reserve)) else r.

Fixpoint resize_inner (ids : list Z) (alloc : block_allocation) (reserve per data r : Z) : M unit :=
  match ids with
  | [] => ret tt
  | j :: ids =>
      let b := u32 (u32 (j * reserve) + r) in
      let* v := get_block alloc b in
      let* _ := write_word data (u32 (u32 (u32 (r * per) + j) - 1)) v in
      resize_inner ids alloc reserve per data r
  end.

Fixpoint resize_outer (ids : list Z) (alloc : block_allocation)
    (superblocks bgd reserve per dind data : Z) : M unit :=
  match ids with
  | [] => ret tt
  | i :: ids =>
      let r := resize_index bgd reserve i in
      let* v := get_block alloc (u32 r) in
      let* _ := write_word dind i v in
      let* _ := resize_inner (seqZ 1 (superblocks - 1)) alloc reserve per data r in
      resize_outer ids alloc superblocks bgd reserve per dind data
  end.

Definition inode_attach_resize (inode : ext4_inode) (alloc : block_allocation)
  : M (ext4_inode * block_allocation) :=
  let* s := get_state in
  let reserve := bg_desc_reserve_blocks (info s) in
  let bs := block_size (info s) in
  let per := blocks_per_ind (aux_info s) in
  let* n := block_allocation_len alloc in
  let block_len := u32 n in
  if reserve =? 0 then undef
  else
    let superblocks := block_len / reserve in
    if negb (block_len mod reserve =? 0) then critical_error
    else
      let* (_, alloc) := append_oob_allocation alloc 1 in
      let* dind_block := get_oob_block alloc 0 in
      let* p := calloc bs in
      match p with
      | None => critical_error
      | Some dind =>
          let* _ := sparse_add_data dind bs dind_block in
          let* p := calloc (bs * reserve) in
          match p with
          | None => critical_error
          | Some data =>
              let* first_block := get_block alloc 0 in
              let* _ := sparse_add_data data (u32 (bs * reserve)) first_block in
              let* _ := resize_outer (seqZ 0 reserve) alloc superblocks (bg_desc_blocks (aux_info s))
                          reserve per dind data in
              let last_block := u32 (u32 (u32 (EXT4_NDIR_BLOCKS + per) + u32 (per * u32 (reserve - 1)))
                                  + superblocks - 2) in
              let blocks := u64 (u64 (block_len + 1) * bs) / 512 in
              let size := u64 (last_block * bs) in
              let* inode := set_block inode EXT4_DIND_BLOCK dind_block in
              ret (mk_inode (i_mode inode) (i_uid inode) (u32 size) (i_atime inode) (i_ctime inode)
                     (i_mtime inode) (i_gid inode) (i_links_count inode) (u32 blocks) 0 (i_block inode)
                     (u32 (Z.shiftr size 32)) (u16 (Z.shiftr blocks 32)), alloc)
          end
      end.


Lemma resize_index_eq bgd reserve i : 0 < reserve < 2 ^ 31 -> 0 <= i < reserve -> 0 <= bgd < 2 ^ 31 ->
  resize_index bgd reserve i = (i - bgd) mod reserve <-> bgd <= i \/ (2 ^ 32) mod reserve = 0.
Proof.
  intros Hr Hi Hb. unfold resize_index, u32.
  pose proof (Z.mod_pos_bound ((i - bgd) mod 2 ^ 32) reserve ltac:(lia)) as B.
  rewrite !s32_id by lia. rewrite (proj2 (Z.ltb_ge _ 0)) by lia.
  destruct (Z.le_gt_cases bgd i) as [L|L].
  - rewrite (Z.mod_small (i - bgd)) by lia. tauto.
  - replace ((i - bgd) mod 2 ^ 32) with (i - bgd + 2 ^ 32)
      by (apply (Z.mod_unique _ _ (-1)); lia).
    split; [|intros [?|E]; [lia|]].
    + intros E. right. apply Z.mod_divide; [lia|].
      replace (2 ^ 32) with ((i - bgd + 2 ^ 32) - (i - bgd)) by lia.
      apply Z.mod_divide; [lia|]. rewrite Zminus_mod, E, Z.sub_diag. apply Z.mod_0_l. lia.
    + rewrite <- Zplus_mod_idemp_r, E, Z.add_0_r. reflexivity.
Qed.

(** The index is the intended remainder exactly when no wrap-around happens or
    the number of reserved blocks divides 2^32. *)
Theorem resize_index_intended bgd reserve i : 0 < reserve < 2 ^ 31 -> 0 <= i < reserve -> 0 <= bgd < 2 ^ 31 ->
  resize_index bgd reserve i = (i - bgd) mod reserve <-> bgd <= i \/ (2 ^ 32) mod reserve = 0.
Proof. exact (resize_index_eq bgd reserve i). Qed.

Lemma resize_index_intended_witness :
  resize_index 1 63 0 <> (0 - 1) mod 63 /\ resize_index 1 63 0 = resize_index 1 63 4 /\
  resize_index 1 64 0 = (0 - 1) mod 64.
Proof.
  split; [|split].
  - intros E. apply (resize_index_intended 1 63 0) in E; [|lia..].
    destruct E as [E|E]; [lia|]. vm_compute in E. discriminate.
  - reflexivity.
  - apply (resize_index_intended 1 64 0); [lia..|]. right. reflexivity.
Defined.


End Ext4Indirect.
