(* ===== verification/Ext4Contents.v ===== *)
(** * ext4_utils/contents.c: directories, files and links

    A directory is a sequence of entries, each with the distance to the next,
    and no entry crosses a block. [make_directory] computes the size first,
    allocates the blocks and writes the entries; the inode numbers of the
    entries are filled in when the inodes have been made. *)

From S2P Require Import Prelude BackedBlock SparseFile Ext4Utils Ext4Alloc Ext4Extent Ext4Indirect.

Module Ext4Contents.
Import Ext4Utils Ext4Alloc Ext4Extent Ext4Indirect.

Definition EXT4_ROOT_INO : Z := 2.
Definition EXT4_FT_UNKNOWN : Z := 0.
Definition EXT4_FT_REG_FILE : Z := 1.
Definition EXT4_FT_DIR : Z := 2.
Definition EXT4_FT_SYMLINK : Z := 7.
Definition S_IFDIR : Z := 0x4000.
Definition S_IFREG : Z := 0x8000.
Definition S_IFLNK : Z := 0xa000.

(** The characters of a name, without the terminator. *)
Definition chars (s : string) : list Z :=
  map (fun c => Z.of_N (Ascii.N_of_ascii c)) (String.list_ascii_of_string s).

(** The fields of [struct dentry] that [make_directory] reads; the field
    [inode] it sets is the result. *)
Record dentry := mk_dentry {
  filename : list Z;
  file_type : Z
}.

(** ** The size of a directory *)

Fixpoint dentry_size_loop (bs : Z) (dentries : list dentry) (len : Z) : Z :=
  match dentries with
  | [] => len
  | d :: ds =>
      let dentry_len := u32 (8 + ALIGN (zlen (filename d)) 4) in
      let len := if bs <=? u32 (len mod bs + dentry_len) then u32 (len + (bs - len mod bs)) else len in
      dentry_size_loop bs ds (u32 (len + dentry_len))
  end.

Definition dentry_size (bs : Z) (dentries : list dentry) : Z :=
  let len := dentry_size_loop bs dentries 24 in
  let len := if bs <? u32 (len mod bs + 8) then u32 (len + (bs - len mod bs)) else len in
  u32 (len + 8).

(** ** Adding an entry

    The buffer, the new offset and the place of the entry; [None] is the jump of
    [critical_error]. [prev] is the place of the entry before. *)

Definition dentry_header (inode rec_len name_len file_type : Z) : list Z :=
  le_bytes 4 inode ++ le_bytes 2 rec_len ++ le_bytes 1 name_len ++ le_bytes 1 file_type.

(** [prev->rec_len += n] *)
Definition extend_rec_len (data : list Z) (prev n : Z) : outcome (list Z) :=
  splice data (prev + 4) (le_bytes 2 (le_val (sub_bytes data (prev + 4) 2) + n)).

Definition add_dentry (bs : Z) (data : list Z) (offset : Z) (prev : option Z)
    (inode : Z) (name : list Z) (file_type : Z) : outcome (option (list Z * Z * Z)) :=
  let name_len := u8 (zlen name) in
  let rec_len := u16 (8 + ALIGN name_len 4) in
  let start_block := offset / bs in
  let end_block := u32 (offset + rec_len - 1) / bs in
  let write data offset :=
    let! data := splice data offset
      (dentry_header inode rec_len name_len file_type ++ take (Z.to_nat name_len) name) in
    Ok (Some (data, u32 (offset + rec_len), offset)) in
  if negb (start_block =? end_block) then
    match prev with
    | None => Ok None
    | Some p =>
        let! data := extend_rec_len data p (u32 (end_block * bs - offset)) in
        write data (u32 (end_block * bs))
    end
  else write data offset.

Definition lift_jump {A} (m : outcome (option A)) : M A := fun s => let! r := m in Ok (r, s).

(** The loop over the entries; [len] is the size of the directory. The places
    of the entries are where the inode numbers go. *)
Fixpoint add_dentries (bs len : Z) (data : list Z) (offset prev : Z) (dentries : list dentry)
  : outcome (option (list Z * Z * list Z)) :=
  match dentries with
  | [] => Ok (Some (data, offset, []))
  | d :: ds =>
      let! r := add_dentry bs data offset (Some prev) 0 (filename d) (file_type d) in
      match r with
      | None => Ok None
      | Some (data, offset, place) =>
          if (len <? offset) || ((offset =? len) && negb (zlen ds =? 0)) then Ok None
          else
            let! r := add_dentries bs len data offset place ds in
            match r with
            | None => Ok None
            | Some (data, offset, places) => Ok (Some (data, offset, place :: places))
            end
      end
  end.

(** The whole contents: [.], [..], the entries, and an entry without a name up
    to the end. *)
Definition dir_contents (bs len : Z) (data : list Z) (inode_num parent : Z) (dentries : list dentry)
  : outcome (option (list Z * list Z)) :=
  let! r := add_dentry bs data 0 None inode_num (chars ".") EXT4_FT_DIR in
  match r with
  | None => Ok None
  | Some (data, offset, place) =>
      let! r := add_dentry bs data offset (Some place) parent (chars "..") EXT4_FT_DIR in
      match r with
      | None => Ok None
      | Some (data, offset, place) =>
          let! r := add_dentries bs len data offset place dentries in
          match r with
          | None => Ok None
          | Some (data, offset, places) =>
              let! data := splice data offset
                (dentry_header 0 (u16 (u32 (len - offset))) 0 EXT4_FT_UNKNOWN) in
              Ok (Some (data, places))
          end
      end
  end.

(** ** Inodes *)

Definition set_itab (s : fs) (i : Z * Z) (inode : ext4_inode) : fs :=
  mk_fs (force s) (info s) (aux_info s) (bgs s) (heap s) (fresh s) (avail s) (sparse_file s)
    (mem s) (<[i := inode]> (itab s)).

(** The memory a pointer of [get_inode] points to; the tables are zeroed. *)
Definition read_inode (i : Z * Z) : M ext4_inode := fun s =>
  Ok (Some (default zero_inode (itab s !! i)), s).
Definition write_inode (i : Z * Z) (inode : ext4_inode) : M unit := fun s =>
  Ok (Some tt, set_itab s i inode).

Definition set_mode (i : ext4_inode) (mode links flags : Z) : ext4_inode :=
  mk_inode mode (i_uid i) (i_size_lo i) (i_atime i) (i_ctime i) (i_mtime i) (i_gid i)
    links (i_blocks_lo i) flags (i_block i) (i_size_high i) (l_i_blocks_high i).

(** The number of the inode and the places for the numbers of the entries, as
    addresses of the buffer with an offset; behind the choice of the number. *)
Definition make_directory_at (bs len dir_inode_num inode_num : Z) (dentries : list dentry) (dirs : Z)
  : M (Z * list (Z * Z)) :=
  let* s := get_state in
  let* _ := add_directory inode_num in
  let* p := get_inode inode_num in
  let* inode := read_inode p in
  let* (data, inode) := inode_allocate_data_extents inode len len in
  let* _ := write_inode p inode in
  match data with
  | None => let* _ := error in ret (EXT4_ALLOCATE_FAILED, [])
  | Some data =>
      let* _ := write_inode p (set_mode inode S_IFDIR (u16 (dirs + 2))
                                 (Z.lor (i_flags inode) (default_i_flags (aux_info s)))) in
      let* s1 := get_state in
      let* buf := lift (oof (mem s1 !! data)) in
      let* (buf, places) := lift_jump (dir_contents bs len buf inode_num dir_inode_num dentries) in
      let* _ := put_mem data buf in
      ret (inode_num, map (fun o => (data, o)) places)
  end.

Definition make_directory (dir_inode_num : Z) (dentries : list dentry) (dirs : Z)
  : M (Z * list (Z * Z)) :=
  let* s := get_state in
  let bs := block_size (info s) in
  if bs =? 0 then undef else
  let blocks := div_round_up32 (dentry_size bs dentries) bs in
  let len := u32 (blocks * bs) in
  let* (dir_inode_num, inode_num) :=
    if negb (dir_inode_num =? 0) then let* n := allocate_inode in ret (dir_inode_num, n)
    else ret (EXT4_ROOT_INO, EXT4_ROOT_INO) in
  if inode_num =? EXT4_ALLOCATE_FAILED then let* _ := error in ret (EXT4_ALLOCATE_FAILED, [])
  else make_directory_at bs len dir_inode_num inode_num dentries dirs.

(** [*dentries[i].inode = n] *)
Definition fill_inode (place : Z * Z) (n : Z) : M unit :=
  let* s := get_state in
  let* buf := lift (oof (mem s !! fst place)) in
  let* buf := lift (splice buf (snd place) (le_bytes 4 n)) in
  put_mem (fst place) buf.

Definition make_file (filename : string) (len : Z) : M Z :=
  let* s := get_state in
  let* inode_num := allocate_inode in
  if inode_num =? EXT4_ALLOCATE_FAILED then let* _ := error in ret EXT4_ALLOCATE_FAILED
  else
    let* p := get_inode inode_num in
    let* inode := read_inode p in
    let* inode := if 0 <? len then inode_allocate_file_extents inode len filename else ret inode in
    let* _ := write_inode p (set_mode inode S_IFREG 1
                               (Z.lor (i_flags inode) (default_i_flags (aux_info s)))) in
    ret inode_num.

(** [memcpy(data, link, len)] *)
Definition copy_mem (p : Z) (bs : list Z) : M unit :=
  let* s := get_state in
  let* buf := lift (oof (mem s !! p)) in
  let* buf := lift (splice buf 0 bs) in
  put_mem p buf.

(** The size and the number of sectors of a link. *)
Definition set_link (i : ext4_inode) (len flags : Z) : ext4_inode :=
  mk_inode S_IFLNK (i_uid i) len (i_atime i) (i_ctime i) (i_mtime i) (i_gid i)
    1 (i_blocks_lo i) (Z.lor (i_flags i) flags) (i_block i) (i_size_high i) (l_i_blocks_high i).
Definition set_blocks_lo (i : ext4_inode) (n : Z) : ext4_inode :=
  mk_inode (i_mode i) (i_uid i) (i_size_lo i) (i_atime i) (i_ctime i) (i_mtime i) (i_gid i)
    (i_links_count i) n (i_flags i) (i_block i) (i_size_high i) (l_i_blocks_high i).

(** [link] without its terminator; the file name is not used. *)
Definition make_link (link : list Z) : M Z :=
  let len := u32 (zlen link) in
  let* s := get_state in
  let* inode_num := allocate_inode in
  if inode_num =? EXT4_ALLOCATE_FAILED then let* _ := error in ret EXT4_ALLOCATE_FAILED
  else
    let* p := get_inode inode_num in
    let* inode := read_inode p in
    let inode := set_link inode len (default_i_flags (aux_info s)) in
    if u32 (len + 1) <=? 60 then
      let* b := lift (splice (i_block inode) 0 link) in
      let* _ := write_inode p (set_iblock inode b) in
      ret inode_num
    else
      let bs := block_size (info s) in
      let* (data, inode) := inode_allocate_data_indirect inode bs bs in
      let* data := lift (oof data) in
      let* _ := copy_mem data link in
      let* _ := write_inode p (set_blocks_lo inode (bs / 512)) in
      ret inode_num.

Definition inode_set_permissions (inode_num mode uid gid mtime : Z) : M Z :=
  let* p := get_inode inode_num in
  let* i := read_inode p in
  let* _ := write_inode p (mk_inode (Z.lor (i_mode i) mode) uid (i_size_lo i) mtime mtime mtime gid
    (i_links_count i) (i_blocks_lo i) (i_flags i) (i_block i) (i_size_high i) (l_i_blocks_high i)) in
  ret 0.

(** Built without SELinux. *)
Definition inode_set_selinux (inode_num : Z) (secon : option string) : M Z := ret 0.

(** [make_ext4fs.c]: the tree of an empty file system. *)
Definition lost_found : dentry := mk_dentry (chars "lost+found") EXT4_FT_DIR.

Definition build_default_directory_structure : M Z :=
  let* (root_inode, places) := make_directory 0 [lost_found] 1 in
  let* (inode, _) := make_directory root_inode [] 0 in
  let* _ := match places with [] => undef | p :: _ => fill_inode p inode end in
  let* _ := inode_set_permissions inode 0x1c0 0 0 0 in
  ret root_inode.

(** ** Reading a directory

    What a reader of the format finds: from each entry the next one, which
    starts where its length says; an entry that crosses a block is an error. *)

Fixpoint read_dir (fuel : nat) (bs pos : Z) (data : list Z) : option (list (Z * list Z * Z)) :=
  match fuel with
  | O => None
  | S f =>
      if zlen data <=? pos then if zlen data =? pos then Some [] else None
      else
        let rec_len := le_val (sub_bytes data (pos + 4) 2) in
        let name_len := le_val (sub_bytes data (pos + 6) 1) in
        if (rec_len <? 8 + name_len) || negb (pos / bs =? (pos + rec_len - 1) / bs) then None
        else
          match read_dir f bs (pos + rec_len) data with
          | None => None
          | Some es => Some ((le_val (sub_bytes data pos 4), sub_bytes data (pos + 8) name_len,
                              le_val (sub_bytes data (pos + 7) 1)) :: es)
          end
  end.

Definition dir_entries (bs : Z) (data : list Z) : option (list (Z * list Z * Z)) :=
  read_dir (S (length data)) bs 0 data.

End Ext4Contents.
