(* ===== verification/Ext4ContentsProps.v ===== *)
(** * Directories: what they hold

    The entries [make_directory] writes stay inside the blocks it computes for
    them, and a reader finds them, unless the entry that fills the end crosses
    a block. *)

From S2P Require Import Prelude BackedBlock SparseFile Ext4Utils Ext4Alloc Ext4AllocBits Ext4AllocProps Ext4AllocLists Ext4Extent Ext4ExtentProps Ext4ExtentFiles Ext4Contents.

Module Ext4ContentsProps.
Import Ext4Utils Ext4Alloc Ext4AllocBits Ext4AllocProps Ext4AllocLists Ext4Extent Ext4ExtentProps
  Ext4ExtentFiles Ext4Contents.

(** ** The layout *)

(** An entry: inode, name, type. *)
Abbreviation entry := (Z * list Z * Z)%type.

Definition entry_name (e : entry) : list Z := snd (fst e).
Definition rec_of (name : list Z) : Z := 8 + ALIGN (zlen name) 4.

Definition entry_bytes (x : Z * entry) : list Z :=
  let '(r, (i, n, f)) := x in dentry_header i r (zlen n) f ++ n ++ zeros (r - 8 - zlen n).

Definition entry_ok (e : entry) : Prop :=
  let '(i, n, f) := e in 0 <= i < 2 ^ 32 /\ zlen n < 256 /\ 0 <= f < 256.

Definition in_one_block (bs pos r : Z) : Prop := pos / bs = (pos + r - 1) / bs.

(** Entries one after the other from [pos] to [hi], none across blocks. *)
Fixpoint packed (bs pos : Z) (l : list (Z * entry)) (hi : Z) : Prop :=
  match l with
  | [] => pos = hi
  | (r, e) :: l' =>
      8 + zlen (entry_name e) <= r < 2 ^ 16 /\ in_one_block bs pos r /\ entry_ok e /\
      packed bs (pos + r) l' hi
  end.

Lemma packed_app bs l1 : forall pos l2 hi,
  packed bs pos (l1 ++ l2) hi <-> exists m, packed bs pos l1 m /\ packed bs m l2 hi.
Proof.
  induction l1 as [|[r e] l1 IH]; intros pos l2 hi; cbn [app packed].
  - split; [intros H; exists pos; auto|intros (m & -> & H); exact H].
  - rewrite IH. split.
    + intros (H1 & H2 & H3 & m & H4 & H5). exists m. auto.
    + intros (m & (H1 & H2 & H3 & H4) & H5). eauto 10.
Qed.

Definition layout_bytes (l : list (Z * entry)) : list Z := concat (map entry_bytes l).
Definition layout_len (l : list (Z * entry)) : Z := foldr (fun x t => fst x + t) 0 l.

Lemma layout_bytes_app l1 l2 : layout_bytes (l1 ++ l2) = layout_bytes l1 ++ layout_bytes l2.
Proof. unfold layout_bytes. rewrite map_app, concat_app. reflexivity. Qed.

Lemma layout_bytes_one x : layout_bytes [x] = entry_bytes x.
Proof. apply app_nil_r. Qed.

Lemma layout_len_app l1 l2 : layout_len (l1 ++ l2) = layout_len l1 + layout_len l2.
Proof. induction l1 as [|x l1 IH]; cbn; [reflexivity|]. unfold layout_len in *. cbn. lia. Qed.

Lemma dentry_header_len i r n f : zlen (dentry_header i r n f) = 8.
Proof. unfold dentry_header. autorewrite with zlen. reflexivity. Qed.

Lemma entry_bytes_len r e : 8 + zlen (entry_name e) <= r -> zlen (entry_bytes (r, e)) = r.
Proof.
  destruct e as [[i n] f]. cbn. intros H. rewrite !zlen_app, dentry_header_len, zlen_zeros by lia. lia.
Qed.

Lemma packed_len bs l : forall pos hi, packed bs pos l hi ->
  hi = pos + layout_len l /\ zlen (layout_bytes l) = layout_len l.
Proof.
  induction l as [|[r e] l IH]; intros pos hi; cbn [packed].
  - intros ->. split; [cbn; lia|reflexivity].
  - intros (Hr & _ & _ & H). destruct (IH _ _ H) as (-> & E).
    change (layout_bytes ((r, e) :: l)) with (entry_bytes (r, e) ++ layout_bytes l).
    change (layout_len ((r, e) :: l)) with (r + layout_len l).
    rewrite zlen_app, E, entry_bytes_len by lia. lia.
Qed.

(** The fields of an entry behind [pre]. *)
Lemma entry_fields pre i r n f tl : 0 <= i < 2 ^ 32 -> 0 <= r < 2 ^ 16 -> zlen n < 256 -> 0 <= f < 256 ->
  8 + zlen n <= r ->
  let data := pre ++ entry_bytes (r, (i, n, f)) ++ tl in
  le_val (sub_bytes data (zlen pre) 4) = i /\ le_val (sub_bytes data (zlen pre + 4) 2) = r /\
  le_val (sub_bytes data (zlen pre + 6) 1) = zlen n /\ le_val (sub_bytes data (zlen pre + 7) 1) = f /\
  sub_bytes data (zlen pre + 8) (zlen n) = n.
Proof.
  intros Hi Hr Hn Hf Hle data. unfold data, entry_bytes, dentry_header. pose proof (zlen_nonneg n).
  rewrite <- !app_assoc. set (rest := zeros _ ++ tl).
  assert (forall w v off (p q : list Z), zlen p = off -> 0 <= v < 256 ^ Z.of_nat w ->
    le_val (sub_bytes (p ++ le_bytes w v ++ q) off (Z.of_nat w)) = v) as Hget.
  { intros w v off p q Hp Hv. rewrite (sub_bytes_mid p (le_bytes w v) q); [apply le_val_bytes_id; exact Hv|exact Hp|].
    autorewrite with zlen. reflexivity. }
  split; [|split; [|split; [|split]]].
  - apply (Hget 4%nat); [reflexivity|cbn; lia].
  - rewrite (app_assoc pre). apply (Hget 2%nat); [autorewrite with zlen; reflexivity|cbn; lia].
  - rewrite (app_assoc pre), (app_assoc (pre ++ _)).
    apply (Hget 1%nat); [autorewrite with zlen; lia|cbn; lia].
  - rewrite (app_assoc pre), (app_assoc (pre ++ _)), (app_assoc ((pre ++ _) ++ _)).
    apply (Hget 1%nat); [autorewrite with zlen; lia|cbn; lia].
  - rewrite (app_assoc pre), (app_assoc (pre ++ _)), (app_assoc ((pre ++ _) ++ _)),
      (app_assoc (((pre ++ _) ++ _) ++ _)).
    apply sub_bytes_mid; [autorewrite with zlen; lia|reflexivity].
Qed.

(** A reader finds packed entries and goes on behind them. *)
Lemma read_packed bs l : forall fuel pre hi, packed bs (zlen pre) l hi ->
  forall tl, tl <> [] ->
  read_dir (length l + fuel) bs (zlen pre) (pre ++ layout_bytes l ++ tl) =
    match read_dir fuel bs hi (pre ++ layout_bytes l ++ tl) with
    | Some es => Some (map snd l ++ es)
    | None => None
    end.
Proof.
  induction l as [|[r [[i n] f]] l IH]; intros fuel pre hi Hp tl Htl; cbn [length plus].
  - cbn in Hp. subst hi. cbn [map app]. destruct (read_dir _ _ _ _); reflexivity.
  - cbn [read_dir]. destruct Hp as (Hr & Hb & (Hi & Hn & Hft) & Hp). cbn [entry_name fst snd] in Hr.
    change (layout_bytes ((r, (i, n, f)) :: l)) with (entry_bytes (r, (i, n, f)) ++ layout_bytes l) in *.
    rewrite <- (app_assoc (entry_bytes _)) in *.
    pose proof (entry_bytes_len r (i, n, f) (proj1 Hr)) as Hel. pose proof (zlen_nonneg n).
    pose proof (zlen_nonneg (layout_bytes l ++ tl)).
    rewrite (proj2 (Z.leb_gt _ _)) by (rewrite !(zlen_app pre), !(zlen_app (entry_bytes _)); lia).
    destruct (entry_fields pre i r n f (layout_bytes l ++ tl) Hi ltac:(lia) Hn Hft (proj1 Hr))
      as (F1 & F2 & F3 & F4 & F5). cbv zeta in F1, F2, F3, F4, F5.
    rewrite F1, F2, F3, F4, F5, (proj2 (Z.ltb_ge _ _)) by lia.
    unfold in_one_block in Hb. rewrite (proj2 (Z.eqb_eq _ _) Hb). cbn [negb orb].
    assert (zlen pre + r = zlen (pre ++ entry_bytes (r, (i, n, f)))) as Epos by (rewrite zlen_app, Hel; reflexivity).
    rewrite Epos, (app_assoc pre). rewrite (IH fuel _ hi); [|rewrite <- Epos; exact Hp|exact Htl].
    destruct (read_dir fuel bs hi _); reflexivity.
Qed.

(** ** Adding an entry *)

(** Where an entry of length [rl] goes when the last one ends at [off]. *)
Definition next_pos (bs off rl : Z) : Z :=
  if off mod bs + rl <=? bs then off else off + (bs - off mod bs).

Lemma next_pos_block bs off rl : 0 < bs -> 0 <= off -> 0 < rl <= bs ->
  (off / bs =? (off + rl - 1) / bs) = (off mod bs + rl <=? bs) /\
  (off mod bs + rl > bs -> (off + rl - 1) / bs * bs = off + (bs - off mod bs)).
Proof.
  intros Hbs Hoff Hrl. pose proof (Z.div_mod off bs ltac:(lia)) as Hd. pose proof (Z.mod_pos_bound off bs Hbs) as Hm.
  set (q := off / bs) in *. set (m := off mod bs) in *.
  destruct (Z.leb_spec (m + rl) bs) as [H|H].
  - split; [|lia]. apply Z.eqb_eq. apply (Z.div_unique _ _ _ (m + rl - 1)); lia.
  - assert ((off + rl - 1) / bs = q + 1) as E
      by (symmetry; apply (Z.div_unique _ _ _ (m + rl - 1 - bs)); lia).
    rewrite E. split; [apply Z.eqb_neq; lia|lia].
Qed.

Lemma next_pos_spec bs off rl : 0 < bs -> 0 <= off -> 0 < rl <= bs ->
  off <= next_pos bs off rl < off + bs /\ in_one_block bs (next_pos bs off rl) rl /\
  (forall p r, 0 <= p -> p + r = off -> 0 < r -> in_one_block bs p r ->
     in_one_block bs p (r + (next_pos bs off rl - off))).
Proof.
  intros Hbs Hoff Hrl. pose proof (Z.div_mod off bs ltac:(lia)) as Hd. pose proof (Z.mod_pos_bound off bs Hbs) as Hm.
  unfold next_pos, in_one_block. destruct (Z.leb_spec (off mod bs + rl) bs) as [H|H].
  - split; [lia|]. split; [|intros p r _ _ _ E; rewrite Z.sub_diag, Z.add_0_r; exact E].
    apply Z.eqb_eq. rewrite (proj1 (next_pos_block bs off rl Hbs Hoff Hrl)). apply Z.leb_le. exact H.
  - split; [lia|]. set (q := off / bs) in *. set (m := off mod bs) in *. split.
    + rewrite <- (Z.div_unique (off + (bs - m)) bs (q + 1) 0) by lia.
      apply (Z.div_unique _ _ _ (rl - 1)); lia.
    + intros p r Hp Hpr Hr E. replace (p + r - 1) with (off - 1) in E by lia.
      replace (p + (r + (off + (bs - m) - off)) - 1) with (off + (bs - m) - 1) by lia.
      rewrite E. rewrite <- (Z.div_unique (off - 1) bs q (m - 1)) by lia.
      apply (Z.div_unique _ _ _ (bs - 1)); lia.
Qed.

Lemma ALIGN4_bound x : x <= ALIGN x 4 <= x + 3 /\ ALIGN x 4 mod 4 = 0.
Proof.
  unfold ALIGN, DIV_ROUND_UP. pose proof (Z.div_mod (x + 4 - 1) 4 ltac:(lia)).
  pose proof (Z.mod_pos_bound (x + 4 - 1) 4 ltac:(lia)). split; [lia|].
  rewrite Z.mul_comm. apply Z.mod_mul. lia.
Qed.

(** The last entry takes the rest of the block. *)
Lemma extend_entry pre r i n f g tl : 0 <= r + g < 2 ^ 16 -> 0 <= g -> 8 + zlen n <= r ->
  extend_rec_len (pre ++ entry_bytes (r, (i, n, f)) ++ zeros g ++ tl) (zlen pre) g =
    Ok (pre ++ entry_bytes (r + g, (i, n, f)) ++ tl).
Proof.
  intros Hr Hg Hn. pose proof (zlen_nonneg n). unfold extend_rec_len.
  set (rest := le_bytes 1 (zlen n) ++ le_bytes 1 f ++ n ++ zeros (r + g - 8 - zlen n) ++ tl).
  assert (forall q, pre ++ entry_bytes (q, (i, n, f)) ++ zeros (r + g - q) ++ tl =
    (pre ++ le_bytes 4 i) ++ le_bytes 2 q ++ le_bytes 1 (zlen n) ++ le_bytes 1 f ++ n ++
      (zeros (q - 8 - zlen n) ++ zeros (r + g - q)) ++ tl) as Hsplit
    by (intros q; unfold entry_bytes, dentry_header; rewrite <- !app_assoc; reflexivity).
  pose proof (Hsplit r) as E1. replace (r + g - r) with g in E1 by lia.
  pose proof (Hsplit (r + g)) as E2. replace (r + g - (r + g)) with 0 in E2 by lia.
  rewrite <- zeros_app in E1, E2 by lia. replace (r - 8 - zlen n + g) with (r + g - 8 - zlen n) in E1 by lia.
  rewrite Z.add_0_r in E2. cbn [zeros app] in E2.
  assert (zlen (pre ++ le_bytes 4 i) = zlen pre + 4) as Hp by (autorewrite with zlen; reflexivity).
  rewrite E1. rewrite (sub_bytes_mid (pre ++ le_bytes 4 i) (le_bytes 2 r)) by (exact Hp || autorewrite with zlen; reflexivity).
  rewrite le_val_bytes_id by (cbn; lia). rewrite <- Hp.
  rewrite splice_app by (autorewrite with zlen; reflexivity). f_equal. symmetry. exact E2.
Qed.


(** Writing an entry into zeros. *)
Lemma write_entry pre i n f k : 0 <= i -> zlen n < 256 -> rec_of n <= k ->
  splice (pre ++ zeros k) (zlen pre) (dentry_header i (rec_of n) (zlen n) f ++ n) =
    Ok (pre ++ entry_bytes (rec_of n, (i, n, f)) ++ zeros (k - rec_of n)).
Proof.
  intros Hi Hn Hk. pose proof (zlen_nonneg n). pose proof (ALIGN4_bound (zlen n)) as (Ha & _).
  assert (zlen (dentry_header i (rec_of n) (zlen n) f ++ n) = 8 + zlen n) as Hl
    by (rewrite zlen_app, dentry_header_len; reflexivity).
  replace k with ((8 + zlen n) + ((rec_of n - 8 - zlen n) + (k - rec_of n))) at 1 by lia.
  unfold rec_of in *. rewrite (zeros_app (8 + zlen n)), (zeros_app (_ - _)) by lia.
  rewrite splice_app by (rewrite Hl, zlen_zeros by lia; reflexivity).
  f_equal. unfold entry_bytes. rewrite <- !app_assoc. reflexivity.
Qed.

(** [add_dentry] behind the entry [(r, e)] at [zlen pre]. *)
Lemma add_dentry_spec bs pre r e i n f k : 0 < bs < 2 ^ 16 -> 8 + zlen (entry_name e) <= r <= bs ->
  0 <= i -> zlen n < 256 -> rec_of n <= bs -> entry_ok e ->
  let off := zlen pre + r in
  let p := next_pos bs off (rec_of n) in
  in_one_block bs (zlen pre) r ->
  p + rec_of n <= off + k -> off + k < 2 ^ 31 ->
  add_dentry bs (pre ++ entry_bytes (r, e) ++ zeros k) off (Some (zlen pre)) i n f =
    Ok (Some ((pre ++ entry_bytes (r + (p - off), e)) ++
              entry_bytes (rec_of n, (i, n, f)) ++ zeros (off + k - p - rec_of n),
              p + rec_of n, p)).
Proof.
  intros Hbs Hr Hi Hn Hrn He off p Hone Hk Hmax. destruct e as [[i' n'] f']. cbn [entry_name fst snd] in Hr.
  pose proof (zlen_nonneg n). pose proof (zlen_nonneg pre). pose proof (zlen_nonneg n'). pose proof (ALIGN4_bound (zlen n)) as (Ha & _).
  assert (0 < rec_of n <= bs) as Hrec by (unfold rec_of in *; lia).
  destruct (next_pos_spec bs off (rec_of n) ltac:(lia) ltac:(lia) Hrec) as (Hp & _ & Hext). fold p in Hp, Hext.
  destruct (next_pos_block bs off (rec_of n) ltac:(lia) ltac:(lia) Hrec) as (Hcmp & Hend).
  unfold add_dentry. rewrite (u8_id (zlen n)) by lia. fold (rec_of n). rewrite (u16_id (rec_of n)) by (unfold rec_of in *; lia).
  rewrite (u32_id (off + rec_of n - 1)) by lia. rewrite Hcmp.
  assert (take (Z.to_nat (zlen n)) n = n) as Et by (unfold zlen; rewrite Nat2Z.id; apply firstn_all).
  rewrite Et. destruct (Z.leb_spec (off mod bs + rec_of n) bs) as [H3|H3]; cbn [negb].
  - assert (p = off) as Ep by (unfold p, next_pos; rewrite (proj2 (Z.leb_le _ _)) by lia; reflexivity).
    clearbody p. subst p. rewrite Z.sub_diag, Z.add_0_r. rewrite app_assoc.
    assert (off = zlen (pre ++ entry_bytes (r, (i', n', f')))) as Eo
      by (rewrite zlen_app, entry_bytes_len by (cbn; lia); reflexivity).
    rewrite Eo at 1. rewrite write_entry by lia. cbn [obind]. rewrite u32_id by lia.
    replace (off + k - off - rec_of n) with (k - rec_of n) by lia. reflexivity.
  - rewrite Hend by lia. set (g := bs - off mod bs) in *.
    assert (p = off + g) as Ep by (unfold p, next_pos; rewrite (proj2 (Z.leb_gt _ _)) by lia; reflexivity).
    clearbody p. subst p. replace (off + g - off) with g by lia.
    assert (r + g <= bs) as Hrg.
    { specialize (Hext (zlen pre) r ltac:(lia) eq_refl ltac:(lia) Hone). unfold in_one_block in Hext.
      replace (zlen pre + (r + (off + g - off)) - 1) with (off + g - 1) in Hext by lia.
      pose proof (Z.div_mod (zlen pre) bs ltac:(lia)). pose proof (Z.div_mod (off + g - 1) bs ltac:(lia)).
      pose proof (Z.mod_pos_bound (zlen pre) bs ltac:(lia)). pose proof (Z.mod_pos_bound (off + g - 1) bs ltac:(lia)).
      rewrite Hext in *. unfold off in *. lia. }
    rewrite (u32_id g), (u32_id (off + g)) by (pose proof (Z.mod_pos_bound off bs ltac:(lia)); lia).
    replace k with (g + (k - g)) at 1 by lia. pose proof (Z.mod_pos_bound off bs ltac:(lia)).
    rewrite zeros_app by lia. rewrite extend_entry by lia. cbn [obind]. rewrite app_assoc.
    assert (off + g = zlen (pre ++ entry_bytes (r + g, (i', n', f')))) as Eo
      by (rewrite zlen_app, entry_bytes_len by (cbn; lia); lia).
    rewrite Eo at 1. rewrite write_entry by lia. cbn [obind]. rewrite u32_id by lia.
    replace (off + k - (off + g) - rec_of n) with (k - g - rec_of n) by lia. reflexivity.
Qed.


(** ** All entries *)

(** The end of the entries [ds] when they start at [off]. *)
Fixpoint dir_end (bs off : Z) (ds : list dentry) : Z :=
  match ds with
  | [] => off
  | d :: ds' => dir_end bs (next_pos bs off (rec_of (filename d)) + rec_of (filename d)) ds'
  end.

Definition dentry_ok (bs : Z) (d : dentry) : Prop :=
  zlen (filename d) < 256 /\ rec_of (filename d) <= bs /\ 0 <= file_type d < 256.

Definition new_entry (d : dentry) : entry := (0, filename d, file_type d).

Fixpoint positions (pos : Z) (l : list (Z * entry)) : list Z :=
  match l with
  | [] => []
  | (r, _) :: l' => pos :: positions (pos + r) l'
  end.

Lemma positions_app l1 : forall pos l2, positions pos (l1 ++ l2) = positions pos l1 ++ positions (pos + layout_len l1) l2.
Proof.
  induction l1 as [|[r e] l1 IH]; intros pos l2; cbn [app positions]; [cbn; rewrite Z.add_0_r; reflexivity|].
  rewrite IH. change (layout_len ((r, e) :: l1)) with (r + layout_len l1). rewrite Z.add_assoc. reflexivity.
Qed.

Lemma dir_end_ge bs ds : forall off, 0 < bs -> 0 <= off -> Forall (dentry_ok bs) ds -> off <= dir_end bs off ds.
Proof.
  induction ds as [|d ds IH]; intros off Hbs Hoff Hds; cbn [dir_end]; [lia|].
  inversion Hds as [|? ? (H1 & H2 & _) Hds']; subst. pose proof (zlen_nonneg (filename d)).
  pose proof (ALIGN4_bound (zlen (filename d))) as (Ha & _).
  assert (0 < rec_of (filename d) <= bs) as Hrec by (unfold rec_of in *; lia).
  destruct (next_pos_spec bs off _ Hbs Hoff Hrec) as (Hp & _).
  specialize (IH (next_pos bs off (rec_of (filename d)) + rec_of (filename d)) Hbs ltac:(lia) Hds'). lia.
Qed.

Lemma one_block_len bs pos r : 0 < bs -> 0 <= pos -> 0 < r -> in_one_block bs pos r -> r <= bs.
Proof.
  intros Hbs Hp Hr E. unfold in_one_block in E. pose proof (Z.div_mod pos bs ltac:(lia)).
  pose proof (Z.div_mod (pos + r - 1) bs ltac:(lia)). pose proof (Z.mod_pos_bound pos bs Hbs).
  pose proof (Z.mod_pos_bound (pos + r - 1) bs Hbs). rewrite E in *. lia.
Qed.

(** The last entry of a packed list and the new one. *)
Lemma packed_add bs l r e off i n f : 0 < bs < 2 ^ 16 -> packed bs 0 (l ++ [(r, e)]) off -> 0 <= i < 2 ^ 32 ->
  zlen n < 256 -> rec_of n <= bs -> 0 <= f < 256 -> 0 <= layout_len l ->
  let p := next_pos bs off (rec_of n) in
  packed bs 0 ((l ++ [(r + (p - off), e)]) ++ [(rec_of n, (i, n, f))]) (p + rec_of n) /\
  layout_len (l ++ [(r + (p - off), e)]) = p.
Proof.
  intros Hbs Hp Hi Hn Hrn Hf Hl0 p. pose proof (zlen_nonneg n). pose proof (ALIGN4_bound (zlen n)) as (Ha & _).
  assert (0 < rec_of n <= bs) as Hrec by (unfold rec_of in *; lia).
  apply packed_app in Hp as (m & Hl & Hr & Hone & He & Hm). destruct (packed_len _ _ _ _ Hl) as (Em & _).
  cbn in Hm. pose proof (zlen_nonneg (entry_name e)).
  destruct (next_pos_spec bs off (rec_of n) ltac:(lia) ltac:(lia) Hrec) as (Hpb & Hone' & Hext). fold p in Hpb, Hone', Hext.
  specialize (Hext m r ltac:(lia) Hm ltac:(lia) Hone).
  pose proof (one_block_len bs m (r + (p - off)) ltac:(lia) ltac:(lia) ltac:(lia) Hext).
  split.
  - apply packed_app. exists p. split.
    + apply packed_app. exists m. split; [exact Hl|]. cbn [packed]. split; [lia|]. split; [exact Hext|]. split; [exact He|lia].
    + cbn [packed entry_name fst snd]. split; [unfold rec_of in *; lia|]. split; [exact Hone'|]. split; [|reflexivity].
      cbn. auto.
  - rewrite layout_len_app. cbn. lia.
Qed.

Lemma add_dentries_spec bs len ds : forall l r e off k,
  0 < bs < 2 ^ 16 -> packed bs 0 (l ++ [(r, e)]) off -> off + k = len -> len < 2 ^ 31 -> 0 <= layout_len l ->
  Forall (dentry_ok bs) ds -> dir_end bs off ds < len ->
  exists l' tail, add_dentries bs len (layout_bytes (l ++ [(r, e)]) ++ zeros k) off (layout_len l) ds =
      Ok (Some (layout_bytes l' ++ zeros (len - dir_end bs off ds), dir_end bs off ds, tail)) /\
    packed bs 0 l' (dir_end bs off ds) /\
    map snd l' = map snd (l ++ [(r, e)]) ++ map new_entry ds /\
    positions 0 l' = positions 0 (l ++ [(r, e)]) ++ tail.
Proof.
  induction ds as [|d ds IH]; intros l r e off k Hbs Hp Hk Hmax Hl0 Hds Hend; cbn [add_dentries dir_end] in *.
  - exists (l ++ [(r, e)]), []. replace (len - off) with k by lia. rewrite !app_nil_r. auto.
  - inversion Hds as [|? ? (H1 & H2 & H3) Hds']; subst x l0. set (n := filename d) in *.
    destruct (packed_add bs l r e off 0 n (file_type d) Hbs Hp ltac:(lia) H1 H2 H3 Hl0) as (Hp' & Hpos).
    set (p := next_pos bs off (rec_of n)) in *.
    pose proof Hp as Hp2. apply packed_app in Hp2 as (m & Hl & Hr & Hone & He & Hm). cbn in Hm.
    destruct (packed_len _ _ _ _ Hl) as (Em & Elb). pose proof (zlen_nonneg (entry_name e)).
    pose proof (zlen_nonneg n). pose proof (ALIGN4_bound (zlen n)) as (Ha & _).
    assert (0 < rec_of n <= bs) as Hrec by (unfold rec_of in *; lia).
    destruct (next_pos_spec bs off (rec_of n) ltac:(lia) ltac:(lia) Hrec) as (Hpb & _). fold p in Hpb.
    pose proof (dir_end_ge bs ds (p + rec_of n) ltac:(lia) ltac:(lia) Hds') as Hge.
    pose proof (one_block_len bs m r ltac:(lia) ltac:(lia) ltac:(lia) Hone).
    assert (add_dentry bs (layout_bytes (l ++ [(r, e)]) ++ zeros k) off (Some (layout_len l)) 0 n (file_type d) =
      Ok (Some (layout_bytes ((l ++ [(r + (p - off), e)]) ++ [(rec_of n, (0, n, file_type d))]) ++
                zeros (len - (p + rec_of n)), p + rec_of n, p))) as Ea.
    { rewrite <- Elb. assert (off = zlen (layout_bytes l) + r) as Eoff by lia.
      unfold p. rewrite !layout_bytes_app, !layout_bytes_one, <- !(app_assoc (layout_bytes l)). rewrite Eoff at 1 2.
      rewrite (add_dentry_spec bs (layout_bytes l) r e 0 n (file_type d) k); auto; try lia.
      - rewrite <- Eoff. fold p. replace (off + k - p - rec_of n) with (len - (p + rec_of n)) by lia.
        rewrite <- !app_assoc. reflexivity.
      - replace (zlen (layout_bytes l)) with m by lia. exact Hone.
      - rewrite <- Eoff. fold p. lia. }
    rewrite Ea. cbn [obind]. rewrite (proj2 (Z.ltb_ge len _)), (proj2 (Z.eqb_neq _ len)) by lia. cbn [orb andb].
    destruct (IH (l ++ [(r + (p - off), e)]) (rec_of n) (0, n, file_type d) (p + rec_of n) (len - (p + rec_of n)))
      as (l' & tail & E & Hpk & Hmap & Hps); auto; try lia.
    exists l', (p :: tail). rewrite Hpos in E. rewrite E. cbn [obind]. split; [reflexivity|]. split; [exact Hpk|]. split.
    + rewrite Hmap, !map_app. cbn. rewrite <- !app_assoc. reflexivity.
    + rewrite Hps, (positions_app (l ++ [(r + (p - off), e)])), Hpos, !positions_app. cbn.
      rewrite <- !app_assoc. reflexivity.
Qed.


(** ** The size is enough *)

Lemma size_step bs a s rl : 0 < bs -> 0 <= a <= s -> 0 < rl <= bs ->
  next_pos bs a rl <= (if bs <=? s mod bs + rl then s + (bs - s mod bs) else s).
Proof.
  intros Hbs Ha Hrl. set (t := if bs <=? s mod bs + rl then s + (bs - s mod bs) else s).
  pose proof (Z.div_mod s bs ltac:(lia)) as Hs. pose proof (Z.mod_pos_bound s bs Hbs) as Hsm.
  pose proof (Z.div_mod a bs ltac:(lia)) as Hd. pose proof (Z.mod_pos_bound a bs Hbs) as Hm.
  assert (s <= t /\ exists q m, t = bs * q + m /\ 0 <= m /\ m + rl <= bs) as (Ht & q & m & Et & Hm0 & Hmr).
  { unfold t. destruct (Z.leb_spec bs (s mod bs + rl)).
    - split; [lia|]. exists (s / bs + 1), 0. lia.
    - split; [lia|]. exists (s / bs), (s mod bs). lia. }
  unfold next_pos. destruct (Z.leb_spec (a mod bs + rl) bs); [lia|].
  assert (a / bs < q) by nia. nia.
Qed.

Lemma dentry_size_loop_bound bs ds : forall a s, 0 < bs < 2 ^ 16 -> 0 <= a <= s -> Forall (dentry_ok bs) ds ->
  s + 2 * bs * zlen ds < 2 ^ 32 - bs ->
  dir_end bs a ds <= dentry_size_loop bs ds s <= s + 2 * bs * zlen ds.
Proof.
  induction ds as [|d ds IH]; intros a s Hbs Ha Hds Hmax; cbn [dir_end dentry_size_loop].
  - change (zlen (@nil dentry)) with 0. lia.
  - inversion Hds as [|? ? (H1 & H2 & H3) Hds']; subst x l. rewrite zlen_cons in *. pose proof (zlen_nonneg ds).
    set (n := filename d) in *. pose proof (zlen_nonneg n). pose proof (ALIGN4_bound (zlen n)) as (Hal & _).
    fold (rec_of n). assert (0 < rec_of n <= bs) as Hrec by (unfold rec_of in *; lia).
    pose proof (Z.mod_pos_bound s bs ltac:(lia)) as Hsm.
    rewrite (u32_id (rec_of n)), (u32_id (s mod bs + rec_of n)), (u32_id (s + (bs - s mod bs))) by lia.
    pose proof (size_step bs a s (rec_of n) ltac:(lia) Ha Hrec) as Hstep.
    set (t := if bs <=? s mod bs + rec_of n then s + (bs - s mod bs) else s) in *.
    assert (s <= t <= s + bs) as Ht by (unfold t; destruct (_ <=? _); lia).
    rewrite u32_id by nia.
    destruct (next_pos_spec bs a (rec_of n) ltac:(lia) ltac:(lia) Hrec) as (Hpb & _).
    specialize (IH (next_pos bs a (rec_of n) + rec_of n) (t + rec_of n) Hbs ltac:(lia) Hds' ltac:(nia)). nia.
Qed.

Lemma dentry_size_bound bs ds : 24 <= bs < 2 ^ 16 -> Forall (dentry_ok bs) ds ->
  2 * bs * (zlen ds + 3) < 2 ^ 31 ->
  dir_end bs 24 ds + 8 <= dentry_size bs ds <= 2 * bs * (zlen ds + 2).
Proof.
  intros Hbs Hds Hmax. pose proof (zlen_nonneg ds).
  destruct (dentry_size_loop_bound bs ds 24 24 ltac:(lia) ltac:(lia) Hds ltac:(nia)) as (H1 & H2).
  unfold dentry_size. set (s := dentry_size_loop bs ds 24) in *.
  pose proof (dir_end_ge bs ds 24 ltac:(lia) ltac:(lia) Hds).
  pose proof (Z.mod_pos_bound s bs ltac:(lia)).
  rewrite (u32_id (s mod bs + 8)), (u32_id (s + (bs - s mod bs))) by nia.
  set (t := if bs <? s mod bs + 8 then s + (bs - s mod bs) else s). assert (s <= t <= s + bs) by (unfold t; destruct (_ <? _); lia).
  rewrite u32_id by nia. nia.
Qed.

(** ** The contents of a directory *)

Definition dot_entries (ino parent : Z) : list entry :=
  [(ino, chars ".", EXT4_FT_DIR); (parent, chars "..", EXT4_FT_DIR)].

Lemma add_dot bs k ino : 24 <= bs < 2 ^ 16 -> 24 <= k -> 0 <= ino ->
  add_dentry bs (zeros k) 0 None ino (chars ".") EXT4_FT_DIR =
    Ok (Some (layout_bytes [(12, (ino, chars ".", EXT4_FT_DIR))] ++ zeros (k - 12), 12, 0)).
Proof.
  intros Hbs Hk Hi. unfold add_dentry. change (zlen (chars ".")) with 1. change (u8 1) with 1.
  change (u16 (8 + ALIGN 1 4)) with 12. change (u32 (0 + 12 - 1)) with 11. change (u32 (0 + 12)) with 12.
  rewrite !Z.div_small by lia. cbn [Z.eqb negb].
  pose proof (write_entry [] ino (chars ".") EXT4_FT_DIR k Hi ltac:(reflexivity) ltac:(change (rec_of (chars ".")) with 12; lia)) as E.
  change (rec_of (chars ".")) with 12 in E. change (zlen (chars ".")) with 1 in E. cbn [app] in E.
  change (zlen (@nil Z)) with 0 in E. change (take (Z.to_nat 1) (chars ".")) with (chars ".").
  rewrite E. rewrite layout_bytes_one. reflexivity.
Qed.


(** The parameters a directory is made with. *)
Record dir_ok (bs len ino parent : Z) (ds : list dentry) : Prop := {
  do_bs : 24 <= bs < 2 ^ 16;
  do_ino : 0 <= ino < 2 ^ 32;
  do_parent : 0 <= parent < 2 ^ 32;
  do_dentries : Forall (dentry_ok bs) ds;
  do_count : 2 * bs * (zlen ds + 3) < 2 ^ 31;
  do_len : len = DIV_ROUND_UP (dentry_size bs ds) bs * bs
}.

Lemma dir_len_bound bs len ino parent ds : dir_ok bs len ino parent ds ->
  24 <= dir_end bs 24 ds /\ dir_end bs 24 ds + 8 <= len < 2 ^ 31.
Proof.
  intros [Hbs Hi Hp Hds Hc ->]. destruct (dentry_size_bound bs ds Hbs Hds Hc) as (H1 & H2).
  pose proof (dir_end_ge bs ds 24 ltac:(lia) ltac:(lia) Hds).
  pose proof (DIV_ROUND_UP_bound (dentry_size bs ds) bs ltac:(lia)). nia.
Qed.

(** The entry that fills the end. *)
Definition pad_entry : entry := (0, [], EXT4_FT_UNKNOWN).

Lemma dir_contents_spec bs len ino parent ds : dir_ok bs len ino parent ds ->
  exists l places, let a := dir_end bs 24 ds in
    dir_contents bs len (zeros len) ino parent ds =
      Ok (Some (layout_bytes l ++ dentry_header 0 (u16 (len - a)) 0 EXT4_FT_UNKNOWN ++ zeros (len - a - 8), places)) /\
    packed bs 0 l a /\ map snd l = dot_entries ino parent ++ map new_entry ds /\
    places = drop 2 (positions 0 l).
Proof.
  intros Hok. destruct (dir_len_bound _ _ _ _ _ Hok) as (Ha & Hlen). pose proof Hok as [Hbs Hi Hp Hds Hc _].
  set (a := dir_end bs 24 ds) in *. set (d1 := (ino, chars ".", EXT4_FT_DIR)). set (d2 := (parent, chars "..", EXT4_FT_DIR)).
  assert (next_pos bs 12 12 = 12) as Hnp by (unfold next_pos; rewrite Z.mod_small, (proj2 (Z.leb_le _ _)) by lia; reflexivity).
  assert (packed bs 0 [(12, d1)] 12) as Hp1.
  { cbn [packed]. split; [change (zlen (entry_name d1)) with 1; lia|].
    split; [unfold in_one_block; rewrite !Z.div_small by lia; reflexivity|].
    split; [split; [lia|split; [reflexivity|unfold EXT4_FT_DIR; lia]]|reflexivity]. }
  destruct (packed_add bs [] 12 d1 12 parent (chars "..") EXT4_FT_DIR ltac:(lia) Hp1 Hp ltac:(reflexivity)
    ltac:(change (rec_of (chars "..")) with 12; lia) ltac:(unfold EXT4_FT_DIR; lia) ltac:(cbn; lia)) as (Hp2 & _).
  change (rec_of (chars "..")) with 12 in Hp2. rewrite Hnp in Hp2. cbn [app Z.add Z.sub Z.opp Z.pos_sub] in Hp2.
  change (12 + (12 - 12)) with 12 in Hp2.
  pose proof (add_dentry_spec bs [] 12 d1 parent (chars "..") EXT4_FT_DIR (len - 12) ltac:(lia)
    ltac:(change (zlen (entry_name d1)) with 1; lia) (proj1 Hp)
    ltac:(reflexivity) ltac:(change (rec_of (chars "..")) with 12; lia)) as E2.
  change (rec_of (chars "..")) with 12 in E2. change (zlen (@nil Z)) with 0 in E2.
  cbn [app] in E2. cbv zeta in E2. change (0 + 12) with 12 in E2. rewrite Hnp in E2.
  specialize (E2 ltac:(split; [lia|split; [reflexivity|unfold EXT4_FT_DIR; lia]])
    ltac:(unfold in_one_block; rewrite !Z.div_small by lia; reflexivity) ltac:(lia) ltac:(lia)).
  change (12 + (12 - 12)) with 12 in E2. change (12 + 12) with 24 in E2.
  destruct (add_dentries_spec bs len ds [(12, d1)] 12 d2 24 (len - 24)) as (l & tail & E3 & Hpk & Hmap & Hps);
    [lia|exact Hp2|lia|lia|cbn; lia|exact Hds|fold a; lia|].
  fold a in E3, Hpk. exists l, tail. cbv zeta. split; [|split; [exact Hpk|split; [exact Hmap|]]].
  - unfold dir_contents. rewrite add_dot by lia. cbn [obind]. fold d1. rewrite layout_bytes_one, E2. cbn [obind]. fold d2.
    change ([(12, d1)] ++ [(12, d2)]) with [(12, d1); (12, d2)] in E3.
    change (layout_len [(12, d1)]) with 12 in E3.
    replace (entry_bytes (12, d1) ++ entry_bytes (12, d2) ++ zeros (12 + (len - 12) - 12 - 12))
      with (layout_bytes [(12, d1); (12, d2)] ++ zeros (len - 24))
      by (unfold layout_bytes; cbn [map concat]; rewrite app_nil_r, <- app_assoc; do 3 f_equal; lia).
    rewrite E3. cbn [obind]. rewrite (u32_id (len - a)) by lia.
    replace (len - a) with (8 + (len - a - 8)) at 1 by lia. rewrite zeros_app by lia.
    destruct (packed_len _ _ _ _ Hpk) as (El & Elb). replace a with (zlen (layout_bytes l)) at 2 by lia.
    rewrite splice_app by (rewrite dentry_header_len, zlen_zeros by lia; reflexivity). reflexivity.
  - rewrite Hps. reflexivity.
Qed.

(** The buffer is packed entries when the last one fits its length field. *)
Lemma pad_bytes r : 8 <= r < 2 ^ 16 ->
  dentry_header 0 (u16 r) 0 EXT4_FT_UNKNOWN ++ zeros (r - 8) = entry_bytes (r, pad_entry).
Proof. intros Hr. unfold entry_bytes, pad_entry. rewrite u16_id by lia. cbn [app]. change (zlen (@nil Z)) with 0. rewrite Z.sub_0_r. reflexivity. Qed.


Lemma packed_length bs l : forall pos hi, packed bs pos l hi -> 8 * Z.of_nat (length l) <= hi - pos.
Proof.
  induction l as [|[r e] l IH]; intros pos hi; cbn [packed length].
  - intros ->. lia.
  - intros (Hr & _ & _ & Hp). specialize (IH _ _ Hp). pose proof (zlen_nonneg (entry_name e)). lia.
Qed.

(** Packed entries and one more up to the end: a reader finds them all if the
    last one is in one block, and an error if it is not. *)
Lemma read_padded bs l a r : packed bs 0 l a -> 8 <= r < 2 ^ 16 ->
  dir_entries bs (layout_bytes l ++ entry_bytes (r, pad_entry)) =
    if a / bs =? (a + r - 1) / bs then Some (map snd l ++ [pad_entry]) else None.
Proof.
  intros Hp Hr. destruct (packed_len _ _ _ _ Hp) as (Ea & El). rewrite Z.add_0_l in Ea.
  pose proof (packed_length _ _ _ _ Hp) as Hlen. pose proof (zlen_nonneg (layout_bytes l)) as H0.
  assert (zlen (entry_bytes (r, pad_entry)) = r) as Hpad by (apply entry_bytes_len; change (zlen (entry_name pad_entry)) with 0; lia).
  assert (entry_bytes (r, pad_entry) <> []) as Hne by (intros E; rewrite E in Hpad; change (zlen (@nil Z)) with 0 in Hpad; lia).
  unfold dir_entries. set (data := layout_bytes l ++ entry_bytes (r, pad_entry)).
  assert (zlen data = a + r) as Hd by (unfold data; rewrite zlen_app; lia).
  assert (exists f, S (length data) = (length l + S (S f))%nat) as (f & Ef).
  { exists (S (length data) - length l - 2)%nat. unfold zlen in Hd. lia. }
  rewrite Ef. pose proof (read_packed bs l (S (S f)) [] a Hp (entry_bytes (r, pad_entry)) Hne) as E.
  cbn [app] in E. change (zlen (@nil Z)) with 0 in E. fold data in E. rewrite E. clear E. cbn [read_dir].
  rewrite Hd, (proj2 (Z.leb_gt _ a)) by lia.
  destruct (entry_fields (layout_bytes l) 0 r [] EXT4_FT_UNKNOWN [] ltac:(lia) ltac:(lia) ltac:(reflexivity)
    ltac:(unfold EXT4_FT_UNKNOWN; lia) ltac:(change (zlen (@nil Z)) with 0; lia)) as (F1 & F2 & F3 & F4 & F5).
  cbv zeta in F1, F2, F3, F4, F5. rewrite app_nil_r in F1, F2, F3, F4, F5. fold pad_entry in F1, F2, F3, F4, F5.
  fold data in F1, F2, F3, F4, F5. rewrite El, <- Ea in F1, F2, F3, F4, F5.
  rewrite F1, F2, F3, F4, F5. change (zlen (@nil Z)) with 0. rewrite (proj2 (Z.ltb_ge _ _)) by lia. cbn [orb].
  destruct (a / bs =? (a + r - 1) / bs); cbn [negb]; [|reflexivity].
  rewrite (proj2 (Z.leb_le (a + r) _)), Z.eqb_refl by lia. reflexivity.
Qed.

(** Filling in the number of an entry. *)
Lemma fill_entry l1 r i n f l2 tl j : 8 + zlen n <= r ->
  zlen (layout_bytes l1) = layout_len l1 ->
  splice (layout_bytes (l1 ++ (r, (i, n, f)) :: l2) ++ tl) (layout_len l1) (le_bytes 4 j) =
    Ok (layout_bytes (l1 ++ (r, (j, n, f)) :: l2) ++ tl).
Proof.
  intros Hr Hl. rewrite !layout_bytes_app. rewrite <- Hl.
  assert (forall i, layout_bytes ((r, (i, n, f)) :: l2) =
    le_bytes 4 i ++ (le_bytes 2 r ++ le_bytes 1 (zlen n) ++ le_bytes 1 f) ++ n ++ zeros (r - 8 - zlen n) ++ layout_bytes l2) as E
    by (intros x; unfold layout_bytes at 1; cbn [map concat entry_bytes]; unfold dentry_header;
        rewrite <- !app_assoc; reflexivity).
  rewrite !E, <- !(app_assoc (layout_bytes l1)), <- !(app_assoc (le_bytes 4 _)).
  apply splice_app. autorewrite with zlen. reflexivity.
Qed.

(** ** Theorems on directories *)

(** C19: the buffer of a directory is always large enough, and a reader finds [.],
    [..] and every entry in order exactly when the entry that fills the end
    starts in the last block; otherwise the directory is damaged. *)
Theorem dir_contents_correct bs len ino parent ds :
  dir_ok bs len ino parent ds -> len - dir_end bs 24 ds < 2 ^ 16 ->
  exists data places, dir_contents bs len (zeros len) ino parent ds = Ok (Some (data, places)) /\
    zlen data = len /\
    dir_entries bs data =
      if len - bs <=? dir_end bs 24 ds
      then Some (dot_entries ino parent ++ map new_entry ds ++ [pad_entry]) else None.
Proof.
  intros Hok Hpad. destruct (dir_len_bound _ _ _ _ _ Hok) as (Ha & Hlen).
  destruct (dir_contents_spec _ _ _ _ _ Hok) as (l & places & E & Hpk & Hmap & _). cbv zeta in E.
  rewrite pad_bytes in E by lia. set (a := dir_end bs 24 ds) in *.
  do 2 eexists. split; [exact E|]. destruct (packed_len _ _ _ _ Hpk) as (Ea & El).
  split; [rewrite zlen_app, entry_bytes_len by (change (zlen (entry_name pad_entry)) with 0; lia); lia|].
  rewrite (read_padded bs l a (len - a) Hpk ltac:(lia)), Hmap, <- app_assoc.
  replace (a + (len - a) - 1) with (len - 1) by lia. pose proof Hok as [Hbs _ _ _ _ El'].
  assert ((len - 1) / bs = len / bs - 1) as Ed.
  { rewrite El', Z.div_mul by lia. symmetry. apply (Z.div_unique _ _ _ (bs - 1)); lia. }
  assert (len = bs * (len / bs)) as Edm by (rewrite El', Z.div_mul by lia; lia).
  pose proof (Z.div_mod a bs ltac:(lia)). pose proof (Z.mod_pos_bound a bs ltac:(lia)).
  destruct (Z.leb_spec (len - bs) a) as [H1|H1].
  - assert (a / bs = (len - 1) / bs) as -> by nia. rewrite Z.eqb_refl. reflexivity.
  - rewrite (proj2 (Z.eqb_neq _ _)) by nia. reflexivity.
Qed.

(** A directory of two names that is damaged (44 bytes of entries and one of
    16 leave four bytes of the block), and one that is not. *)
Lemma dir_contents_correct_witness :
  exists d1 d2 p1 p2,
    let name n := mk_dentry (repeat 97 n) EXT4_FT_REG_FILE in
    dir_contents 64 128 (zeros 128) 2 2 [name 10%nat; name 8%nat] = Ok (Some (d1, p1)) /\
    dir_entries 64 d1 = None /\
    dir_contents 64 64 (zeros 64) 2 2 [name 10%nat; name 4%nat] = Ok (Some (d2, p2)) /\
    dir_entries 64 d2 = Some (dot_entries 2 2 ++ map new_entry [name 10%nat; name 4%nat] ++ [pad_entry]).
Proof.
  assert (forall n, (n <= 10)%nat -> dentry_ok 64 (mk_dentry (repeat 97 n) EXT4_FT_REG_FILE)) as Hd.
  { intros n Hn. do 11 (destruct n as [|n]; [repeat split; vm_compute; congruence|]). lia. }
  destruct (dir_contents_correct 64 128 2 2 [mk_dentry (repeat 97 10) EXT4_FT_REG_FILE; mk_dentry (repeat 97 8) EXT4_FT_REG_FILE])
    as (d1 & p1 & E1 & _ & R1).
  { split; try lia; [repeat constructor; apply Hd; lia|vm_compute; reflexivity|vm_compute; reflexivity]. }
  { vm_compute. reflexivity. }
  destruct (dir_contents_correct 64 64 2 2 [mk_dentry (repeat 97 10) EXT4_FT_REG_FILE; mk_dentry (repeat 97 4) EXT4_FT_REG_FILE])
    as (d2 & p2 & E2 & _ & R2).
  { split; try lia; [repeat constructor; apply Hd; lia|vm_compute; reflexivity|vm_compute; reflexivity]. }
  { vm_compute. reflexivity. }
  exists d1, d2, p1, p2. cbv zeta. split; [exact E1|]. split; [exact R1|]. split; [exact E2|exact R2].
Defined.


End Ext4ContentsProps.
