(* ===== verification/Ext4Dirs.v ===== *)
(** * Directories and files in the image

    The operations of [ext4_utils/contents.c] on a file system that is ready
    for files: the inode, its table, the blocks and the contents. *)

From S2P Require Import Prelude BackedBlock SparseFile Ext4Utils Ext4Alloc Ext4AllocBits Ext4AllocProps Ext4AllocLists Ext4Extent Ext4ExtentProps Ext4ExtentFiles Ext4Contents Ext4ContentsProps.

Module Ext4Dirs.
Import Ext4Utils Ext4Alloc Ext4AllocBits Ext4AllocProps Ext4AllocLists Ext4Extent Ext4ExtentProps
  Ext4ExtentFiles Ext4Contents Ext4ContentsProps.

(** ** What the operations on inodes keep *)

(** The blocks of a group before its inode table: the copy of the super block,
    the descriptors, what is reserved for them, and the bitmaps. *)
Definition header_area (s : fs) (x : Z) : Prop :=
  exists (i : nat) b, bgs s !! i = Some b /\
    group_start (info s) (aux_info s) (Z.of_nat i) <= x < table_end s i b - inode_table_blocks (aux_info s).

(** The groups have their copies of the super block as before, and their tables
    once there are some. *)
Definition same_supers (s s' : fs) : Prop :=
  forall i b, bgs s !! i = Some b -> exists c, bgs s' !! i = Some c /\ has_superblock c = has_superblock b /\
    (is_Some (inode_table b) -> is_Some (inode_table c)).

Lemma same_supers_refl s : same_supers s s.
Proof. intros i b Hb. exists b. auto. Qed.

Lemma same_supers_bgs s s' : bgs s' = bgs s -> same_supers s s'.
Proof. intros E i b Hb. exists b. rewrite E. auto. Qed.

Lemma same_supers_trans s1 s2 s3 : same_supers s1 s2 -> same_supers s2 s3 -> same_supers s1 s3.
Proof.
  intros H1 H2 i b Hb. destruct (H1 i b Hb) as (c & Hc & E & T). destruct (H2 i c Hc) as (d & Hd & E' & T'). exists d.
  split; [exact Hd|]. split; [congruence|auto].
Qed.

(** These blocks stay in their places, and nothing is queued for them. *)
Record header_kept (s s' : fs) : Prop := {
  hk_area : forall x, header_area s x -> header_area s' x;
  hk_free : forall x, header_area s x -> unqueued s x 1 -> unqueued s' x 1;
  hk_supers : same_supers s s'
}.

Lemma header_kept_refl s : header_kept s s.
Proof. split; auto using same_supers_refl. Qed.

Lemma header_kept_trans s1 s2 s3 : header_kept s1 s2 -> header_kept s2 s3 -> header_kept s1 s3.
Proof. intros [A B C] [A' B' C']. split; auto. exact (same_supers_trans _ _ _ C C'). Qed.

Lemma header_area_same s s' x : same_globals s s' -> same_supers s s' -> header_area s x -> header_area s' x.
Proof.
  intros (_ & Ei & Ea & _) Hs (i & b & Hb & Hx). destruct (Hs i b Hb) as (c & Hc & Ec & _). exists i, c.
  split; [exact Hc|]. unfold table_end. rewrite Ei, Ea, Ec. exact Hx.
Qed.

Lemma header_kept_same s s' : same_globals s s' -> same_supers s s' ->
  (forall bb, In bb (queued s') -> In bb (queued s)) -> header_kept s s'.
Proof.
  intros G Hs Hq. split; [intros x; exact (header_area_same s s' x G Hs)| |exact Hs].
  intros x _ Hu bb Hin. destruct G as (_ & Ei & _). rewrite Ei. exact (Hu bb (Hq bb Hin)).
Qed.

Record step_kept (s s' : fs) : Prop := {
  kp_ready : fs_ready s';
  kp_globals : same_globals s s';
  kp_free : forall x, free_block s' x <-> free_block s x;
  kp_grows : image_grows s s';
  kp_mem : mem s' = mem s;
  kp_itab : itab s' = itab s;
  kp_caps : map free_blocks (bgs s') = map free_blocks (bgs s) /\
            map data_blocks_used (bgs s') = map data_blocks_used (bgs s);
  kp_fresh : fresh s <= fresh s';
  kp_header : header_kept s s'
}.

Lemma step_kept_refl s : fs_ready s -> step_kept s s.
Proof. intros H. split; auto using same_globals_refl; try tauto; [split; auto|lia|apply header_kept_refl]. Qed.

Lemma step_kept_trans s1 s2 s3 : step_kept s1 s2 -> step_kept s2 s3 -> step_kept s1 s3.
Proof.
  intros [A B C D E F (G & G') I J] [A' B' C' D' E' F' (H & H') I' J'].
  split; [exact A'|exact (same_globals_trans _ _ _ B B')| |exact (image_grows_trans _ _ _ D D')|congruence|congruence| | |].
  - intros x. rewrite C'. apply C.
  - split; congruence.
  - lia.
  - exact (header_kept_trans _ _ _ J J').
Qed.

(** The bitmaps of every group are queued for their two blocks, and its inode
    table, once there is one, for the blocks behind them. *)
Definition group_layout (s : fs) : Prop :=
  forall (i : nat) b, bgs s !! i = Some b ->
    let table := table_end s i b - inode_table_blocks (aux_info s) in
    (forall k, 0 <= k < 2 -> holds s (table - 2 + k) (from_memory (bitmaps_ptr b + k * block_size (info s)))) /\
    (forall p, inode_table b = Some p -> forall k, 0 <= k < inode_table_blocks (aux_info s) ->
       holds s (table + k) (from_memory (p + k * block_size (info s)))).

Lemma holds_grows s s' x src : image_grows s s' -> holds s x src -> holds s' x src.
Proof. intros [Ei Hq _] (bb & Hin & H). exists bb. rewrite Ei. auto. Qed.

(** The groups of [s'] have their places in [s]. *)
Definition same_places (s s' : fs) : Prop :=
  forall (i : nat) c, bgs s' !! i = Some c -> exists b, bgs s !! i = Some b /\
    has_superblock c = has_superblock b /\ bitmaps_ptr c = bitmaps_ptr b /\ inode_table c = inode_table b.

Lemma group_layout_step s s' : same_globals s s' -> image_grows s s' -> same_places s s' ->
  group_layout s -> group_layout s'.
Proof.
  intros (_ & Ei & Ea & _) Hg Hp Hl i c Hc. destruct (Hp i c Hc) as (b & Hb & Es & Eb & Et).
  destruct (Hl i b Hb) as (H1 & H2). unfold table_end in *. rewrite Ei, Ea, Es, Eb, Et.
  split; [intros k Hk|intros p Hq k Hk]; apply (holds_grows s s'); auto.
Qed.

Lemma groups_step_places s s' : groups_step s s' -> same_places s s'.
Proof.
  intros H i c Hc. destruct (H i c Hc) as (d & Hd & [->|(m & _ & _ & Hs)]); exists d; [auto|].
  destruct Hs as (H1 & H2 & H3 & _). auto.
Qed.

(** What the operations on inodes keep. *)
Record kept (s s' : fs) : Prop := {
  kp_step :> step_kept s s';
  kp_layout : group_layout s -> group_layout s'
}.

Lemma kept_refl s : fs_ready s -> kept s s.
Proof. intros H. split; [exact (step_kept_refl s H)|auto]. Qed.

Lemma image_kept_trans s1 s2 s3 : kept s1 s2 -> kept s2 s3 -> kept s1 s3.
Proof. intros [A B] [A' B']. split; [exact (step_kept_trans _ _ _ A A')|auto]. Qed.

(** A group record that differs in what is about inodes. *)
Definition same_blocks (b c : block_group_info) : Prop :=
  first_block c = first_block b /\ data_blocks_used c = data_blocks_used b /\
  has_superblock c = has_superblock b /\ free_blocks c = free_blocks b /\
  first_free_block c = first_free_block b.

Lemma free_block_update s i b c x : bgs s !! i = Some b -> same_blocks b c ->
  free_block (set_bgs s (<[i := c]> (bgs s))) x <-> free_block s x.
Proof.
  intros Hb (F & _ & _ & Fr & Ff). pose proof (lookup_lt_Some _ _ _ Hb) as Hlt.
  assert (run_start c = run_start b) as Er by (unfold run_start; rewrite F, Ff; reflexivity).
  split; intros (j & d & Hj & Hd & Hx).
  - cbn in Hd. destruct (decide (i = Z.to_nat j)) as [->|Hne].
    + rewrite list_lookup_insert_eq in Hd by exact Hlt. injection Hd as <-. exists j, b. rewrite <- Er, <- Fr. auto.
    + rewrite list_lookup_insert_ne in Hd by exact Hne. exists j, d. auto.
  - destruct (decide (i = Z.to_nat j)) as [->|Hne].
    + rewrite Hb in Hd. injection Hd as <-. exists j, c. rewrite Er, Fr. split; [exact Hj|].
      split; [apply list_lookup_insert_eq; exact Hlt|exact Hx].
    + exists j, d. split; [exact Hj|]. split; [cbn; rewrite list_lookup_insert_ne by exact Hne; exact Hd|exact Hx].
Qed.

Lemma map_update {A B} (f : A -> B) (l : list A) i b c : l !! i = Some b -> f c = f b ->
  map f (<[i := c]> l) = map f l.
Proof.
  intros Hb E. change (map f (<[i := c]> l)) with (f <$> <[i := c]> l). rewrite list_fmap_insert, E.
  apply list_insert_id. rewrite list_lookup_fmap, Hb. reflexivity.
Qed.

Lemma update_step s i b c : fs_ready s -> bgs s !! i = Some b ->
  bg_ok (info s) (aux_info s) (Z.of_nat i) c -> same_blocks b c ->
  (inode_table c = None -> inode_table b = None) -> step_kept s (set_bgs s (<[i := c]> (bgs s))).
Proof.
  intros Hrd Hb Hok Hs Hit. pose proof (lookup_lt_Some _ _ _ Hb) as Hlt.
  set (s' := set_bgs s (<[i := c]> (bgs s))).
  pose proof (free_block_update s i b c) as Hfb. pose proof Hs as (F & U & H & Fr & Ff).
  assert (forall j d, bgs s' !! j = Some d -> exists d0, bgs s !! j = Some d0 /\ same_blocks d0 d /\
    (inode_table d = None -> inode_table d0 = None)) as Hold.
  { intros j d Hd. cbn in Hd. destruct (decide (i = j)) as [<-|Hne].
    - rewrite list_lookup_insert_eq in Hd by exact Hlt. injection Hd as <-. exists b. auto.
    - rewrite list_lookup_insert_ne in Hd by exact Hne. exists d. repeat split; auto. }
  assert (forall j d d0, same_blocks d0 d -> table_end s' j d = table_end s j d0) as Hte
    by (intros j d d0 (_ & _ & E & _); unfold table_end; cbn; rewrite E; reflexivity).
  split.
  - destruct Hrd as [R1 R2 R3 R4 R5 R6 R6' R7 Rh Rt Ri Rz R8 R9]. split; auto.
    + pose proof (fs_ok_update s (Z.of_nat i) c R1) as Hu. rewrite Nat2Z.id in Hu.
      apply Hu; [unfold zlen; lia|exact Hok].
    + intros j d Hd Hun. destruct (Hold j d Hd) as (d0 & Hd0 & (_ & U0 & _ & Fr0 & _) & _). rewrite Fr0.
      apply (R4 j d0 Hd0). unfold unused in *. rewrite <- U0. exact Hun.
    + apply (queue_inv_mono s); auto; [cbn; lia|]. intros x Hx. apply (Hfb x Hb Hs). exact Hx.
    + intros Hx. apply (Hfb 0 Hb Hs) in Hx. exact (R6 Hx).
    + intros j d Hd. destruct (Hold j d Hd) as (d0 & Hd0 & (_ & U0 & _ & _ & Ff0) & _). rewrite U0, Ff0. exact (R7 j d0 Hd0).
    + intros j d x Hd Hx Hf. destruct (Hold j d Hd) as (d0 & Hd0 & Hs0 & _). rewrite (Hte j d d0 Hs0) in Hx.
      apply (Hfb x Hb Hs) in Hf. exact (Rh j d0 x Hd0 Hx Hf).
    + intros j d Hd Hn. destruct (Hold j d Hd) as (d0 & Hd0 & Hs0 & Hn0). rewrite (Hte j d d0 Hs0).
      exact (Rt j d0 Hd0 (Hn0 Hn)).
    + intros j d Hd. destruct (Hold j d Hd) as (d0 & Hd0 & (_ & _ & Es & _) & _). rewrite Es. exact (Rz j d0 Hd0).
  - repeat split.
  - intros x. exact (Hfb x Hb Hs).
  - split; auto.
  - reflexivity.
  - reflexivity.
  - split; apply (map_update _ _ _ b); auto.
  - cbn. lia.
  - apply header_kept_same; [repeat split| |auto]. intros j d Hd. cbn. destruct (decide (i = j)) as [<-|Hne].
    + rewrite Hb in Hd. injection Hd as <-. exists c. split; [apply list_lookup_insert_eq; exact Hlt|]. split; [exact H|].
      intros (t & Et). destruct (inode_table c) eqn:Ec; [eauto|]. rewrite (Hit eq_refl) in Et. discriminate.
    + exists d. rewrite list_lookup_insert_ne by exact Hne. auto.
Qed.

(** A group record that has its bitmaps and its table where they were. *)
Lemma update_kept s i b c : fs_ready s -> bgs s !! i = Some b ->
  bg_ok (info s) (aux_info s) (Z.of_nat i) c -> same_blocks b c ->
  inode_table c = inode_table b -> bitmaps_ptr c = bitmaps_ptr b -> kept s (set_bgs s (<[i := c]> (bgs s))).
Proof.
  intros Hrd Hb Hok Hs Et Ep. pose proof (lookup_lt_Some _ _ _ Hb) as Hlt.
  pose proof (update_step s i b c Hrd Hb Hok Hs ltac:(congruence)) as K. split; [exact K|].
  apply (group_layout_step _ _ (kp_globals _ _ K) (kp_grows _ _ K)). intros j d Hd. cbn in Hd.
  destruct (decide (i = j)) as [<-|Hne].
  - rewrite list_lookup_insert_eq in Hd by exact Hlt. injection Hd as <-. destruct Hs as (_ & _ & H & _). exists b. auto.
  - rewrite list_lookup_insert_ne in Hd by exact Hne. exists d. auto.
Qed.

(** More memory handed out. *)
Lemma advance_step n s : fs_ready s -> step_kept s (advance n s).
Proof.
  intros Hrd. split; try (split; auto); auto; try tauto.
  - destruct (rd_ok _ Hrd) as [G N B]. split; assumption.
  - exact (rd_memory _ Hrd).
  - intros c Hc. apply (rd_fresh _ Hrd). cbn in Hc. lia.
  - exact (rd_roomy _ Hrd).
  - apply (queue_inv_mono s); auto; [exact (rd_queue _ Hrd)|cbn; lia].
  - exact (rd_zero _ Hrd).
  - intros c b Hc. pose proof (rd_mem _ Hrd c b Hc). cbn. lia.
  - exact (rd_used _ Hrd).
  - exact (rd_header _ Hrd).
  - exact (rd_tables _ Hrd).
  - exact (rd_itab _ Hrd).
  - exact (rd_hsize _ Hrd).
  - exact (rd_group _ Hrd).
  - exact (rd_leaf _ Hrd).
  - cbn. lia.
  - exact (same_supers_refl s).
Qed.

(** Contents queued for blocks that are not free and no part of a table that is
    still to be queued. *)
Lemma queued_ready s s' b c src : fs_ready s -> region_queued s s' b c src ->
  (forall j d, bgs s !! j = Some d -> inode_table d = None ->
     b + c <= table_end s j d - inode_table_blocks (aux_info s) \/ table_end s j d <= b) ->
  fs_ready s'.
Proof.
  intros Hrd [Hq Hm Hon _] Hdis. pose proof Hm as [Hg Hb Hh (Em & Et) Hf Hin]. pose proof Hg as (_ & Ei & Ea & Ev).
  assert (forall x, free_block s' x <-> free_block s x) as Hfb by (intros x; exact (queued_more_free _ _ x Hm)).
  assert (forall j d, table_end s' j d = table_end s j d) as Hte by (intros j d; unfold table_end; rewrite Ei, Ea; reflexivity).
  destruct Hrd as [R1 R2 R3 R4 R5 R6 R6' R7 Rh Rt Ri Rz R8 R9]. split; rewrite ?Ei, ?Ea; auto.
  - destruct R1 as [G N B]. split; rewrite ?Ei, ?Ea, ?Hb; assumption.
  - intros n. rewrite Ev. apply R2.
  - intros a Ha. rewrite Hh. apply R3. lia.
  - unfold unused_roomy. rewrite Hb. exact R4.
  - rewrite Hfb. exact R6.
  - intros a d Ha. rewrite Em in Ha. specialize (R6' a d Ha). lia.
  - rewrite Hb. exact R7.
  - intros j d x Hd Hx. rewrite Hb in Hd. rewrite Hte in Hx. rewrite Hfb. exact (Rh j d x Hd Hx).
  - intros j d Hd Hn bb Hbb. rewrite Hb in Hd. rewrite Hte, Ei. destruct (Hon bb Hbb) as [Hb1|(E1 & E2)].
    + exact (Rt j d Hd Hn bb Hb1).
    + rewrite E1, E2. destruct (Hdis j d Hd Hn); lia.
  - rewrite Hb. exact Rz.
Qed.

Lemma queued_step s s' b c src : fs_ready s -> region_queued s s' b c src ->
  (forall j d, bgs s !! j = Some d -> inode_table d = None ->
     b + c <= table_end s j d - inode_table_blocks (aux_info s) \/ table_end s j d <= b) ->
  (forall x, header_area s x -> b + c <= x \/ x < b) -> step_kept s s'.
Proof.
  intros Hrd Hrq Hdis Hha. pose proof (queued_ready s s' b c src Hrd Hrq Hdis) as Hrd'.
  destruct Hrq as [Hq Hm Hon _]. pose proof Hm as [Hg Hb Hh (Em & Et) Hf Hin]. pose proof Hg as (_ & Ei & Ea & Ev).
  split; auto.
  - intros x. exact (queued_more_free _ _ x Hm).
  - split; [exact Ei|exact Hin|rewrite Em; auto].
  - rewrite Hb. auto.
  - pose proof (same_supers_bgs s s' Hb) as Hs. split; [|  |exact Hs].
    + intros x. exact (header_area_same s s' x Hg Hs).
    + intros x Hx Hu bb Hbb. rewrite Ei. destruct (Hon bb Hbb) as [Hb1|(E1 & E2)]; [exact (Hu bb Hb1)|].
      rewrite E1, E2. destruct (Hha x Hx); lia.
Qed.

Lemma inode_table_start s i b : fs_ready s -> bgs s !! i = Some b ->
  inode_table_block s b = table_end s i b - inode_table_blocks (aux_info s) /\
  group_start (info s) (aux_info s) (Z.of_nat i) <= table_end s i b - inode_table_blocks (aux_info s) /\
  table_end s i b < 2 ^ 32 /\ table_end s i b <= group_start (info s) (aux_info s) (Z.of_nat i + 1) /\
  inode_table_blocks (aux_info s) <= blocks_per_group (info s) /\
  0 <= group_start (info s) (aux_info s) (Z.of_nat i).
Proof.
  intros Hrd Hb. pose proof (rd_ok _ Hrd) as Hfs. pose proof (fs_geometry _ Hfs) as G.
  pose proof (lookup_lt_Some _ _ _ Hb) as Hlt. rewrite <- (Nat2Z.id i) in Hb.
  pose proof (fs_bgs _ Hfs (Z.of_nat i) b ltac:(lia) Hb) as [F _ _ _ _ _ _].
  assert (0 <= Z.of_nat i < groups (aux_info s)) as Hi by (rewrite <- (fs_groups _ Hfs); unfold zlen; lia).
  destruct (group_start_bound _ _ (Z.of_nat i) G Hi) as (H0 & H1). pose proof (geo_tables _ _ G) as (T1 & T2 & T3).
  rewrite Nat2Z.id in Hb. pose proof (rd_hsize _ Hrd _ b Hb) as Hh. rewrite group_start_succ.
  pose proof (group_size_bound (info s) (aux_info s) (Z.of_nat i)).
  unfold table_end, inode_table_block, header_size in *. rewrite F.
  destruct (has_superblock b); rewrite u32_id by lia; lia.
Qed.

(** A header is inside of the image. *)
Lemma table_inside s i b : fs_ready s -> bgs s !! i = Some b -> table_end s i b <= len_blocks (aux_info s).
Proof.
  intros Hrd Hb. pose proof (rd_hsize _ Hrd _ b Hb) as H. unfold group_size in H. unfold table_end. lia.
Qed.


(** ** Inodes *)

Lemma bg_ok_table inf aux i b p : bg_ok inf aux i b -> bg_ok inf aux i (set_inode_table b p).
Proof. intros [F L B Fr Bi In Ib]. split; auto. Qed.

(** The layout when the table of a group has been queued. *)
Lemma table_layout s s' i b c p : same_globals s s' -> image_grows s s' -> bgs s !! i = Some b ->
  bgs s' = <[i := c]> (bgs s) -> c = set_inode_table b (Some p) ->
  inode_table_block s b = table_end s i b - inode_table_blocks (aux_info s) ->
  (forall x, inode_table_block s b <= x < inode_table_block s b + inode_table_blocks (aux_info s) ->
     holds s' x (from_memory (p + (x - inode_table_block s b) * block_size (info s)))) ->
  group_layout s -> group_layout s'.
Proof.
  intros (_ & Ei & Ea & _) Hg Hb Eb -> Es Hh Hl j d Hd. pose proof (lookup_lt_Some _ _ _ Hb) as Hlt.
  rewrite Eb in Hd. destruct (decide (i = j)) as [<-|Hne].
  - rewrite list_lookup_insert_eq in Hd by exact Hlt. injection Hd as <-. destruct (Hl i b Hb) as (H1 & _).
    unfold table_end in *. rewrite Ei, Ea. cbn [has_superblock bitmaps_ptr inode_table set_inode_table].
    split; [intros k Hk; exact (holds_grows s s' _ _ Hg (H1 k Hk))|].
    intros q [= <-] k Hk. rewrite <- Es. specialize (Hh (inode_table_block s b + k) ltac:(lia)).
    replace (inode_table_block s b + k - inode_table_block s b) with k in Hh by lia. exact Hh.
  - rewrite list_lookup_insert_ne in Hd by exact Hne. destruct (Hl j d Hd) as (H1 & H2).
    unfold table_end in *. rewrite Ei, Ea.
    split; [intros k Hk|intros q Hq k Hk]; apply (holds_grows s s'); auto.
Qed.

(** The inode table of a group is queued once. *)
Lemma table_kept s i b : fs_ready s -> bgs s !! i = Some b ->
  exists s', allocate_bg_inode_table (Z.of_nat i) s = Ok (Some tt, s') /\ kept s s' /\
    exists c, bgs s' = <[i := c]> (bgs s) /\ same_inodes (set_inode_table b (inode_table c)) c /\ is_Some (inode_table c).
Proof.
  intros Hrd Hb. pose proof (lookup_lt_Some _ _ _ Hb) as Hlt. unfold allocate_bg_inode_table.
  pose proof (get_bg_eq s (Z.of_nat i) b ltac:(lia) ltac:(rewrite Nat2Z.id; exact Hb)) as Eg.
  rewrite (bind_eq _ _ _ _ _ Eg). destruct (inode_table b) as [t|] eqn:Et.
  { exists s. split; [reflexivity|]. split; [exact (kept_refl s Hrd)|]. exists b.
    split; [symmetry; apply list_insert_id; exact Hb|]. rewrite Et. destruct b; cbn in Et; subst; repeat split. eauto. }
  destruct (inode_table_start s i b Hrd Hb) as (Es & H1 & H2 & H3 & H4 & H5).
  set (c := set_inode_table b (Some (fresh s))). set (s1 := set_bgs s (<[i := c]> (bgs s))).
  set (itb := inode_table_blocks (aux_info s)) in *. set (bs := block_size (info s)) in *.
  assert (step_kept s (advance (itb * bs) s1)) as Hk1.
  { assert (step_kept s s1) as K.
    { apply (update_step s i b c Hrd Hb); [|repeat split|discriminate].
      apply bg_ok_table. apply (fs_bgs _ (rd_ok _ Hrd)); [lia|rewrite Nat2Z.id; exact Hb]. }
    exact (step_kept_trans _ _ _ K (advance_step _ s1 (kp_ready _ _ K))). }
  pose proof (rd_leaf _ Hrd) as Hbs. pose proof (rd_group _ Hrd) as Hg. pose proof (rd_itab _ Hrd) as Hitb.
  fold itb in Hitb. fold bs in Hbs. pose proof (geo_block_size _ _ (fs_geometry _ (rd_ok _ Hrd))) as Hb0. fold bs in Hb0.
  destruct (add_data_region (advance (itb * bs) s1) (fresh s) (itb * bs) (inode_table_block s b)) as (s2 & E2 & Hrq).
  { exact (rd_memory _ (kp_ready _ _ Hk1)). } { exact (rd_queue _ (kp_ready _ _ Hk1)). } { exact (proj1 Hb0). }
  { nia. }
  { change (block_size (info (advance (itb * bs) s1))) with bs. rewrite DIV_ROUND_UP_mul, Es by lia. split; [lia|]. split; [lia|].
    intros x Hx. split.
    - intros bb Hbb. pose proof (rd_tables _ Hrd i b Hb Et bb Hbb) as Hu. fold itb bs in Hu.
      change (block_size (info (advance (itb * bs) s1))) with bs. lia.
    - split; [change (x < len_blocks (aux_info s)); pose proof (table_inside s i b Hrd Hb); lia|].
      intros Hf. apply (free_block_update s i b c x Hb ltac:(repeat split)) in Hf.
      revert Hf. apply (rd_header _ Hrd i b x Hb). lia. }
  change (block_size (info (advance (itb * bs) s1))) with bs in Hrq. rewrite DIV_ROUND_UP_mul in Hrq by lia.
  exists s2. split; [|split].
  - unfold bind at 1, get_state. rewrite (bind_eq _ _ _ _ _ (calloc_of_eq _ s (rd_memory _ Hrd))).
    assert (put_bg (Z.of_nat i) c (advance (itb * bs) s) = Ok (Some tt, advance (itb * bs) s1)) as Ep
      by (rewrite put_bg_eq by (unfold zlen; cbn; lia); rewrite Nat2Z.id; reflexivity).
    rewrite (bind_eq _ _ _ _ _ Ep). fold itb bs. rewrite (u32_id (itb * bs)) by nia. exact E2.
  - assert (step_kept s s2) as Hks; [|split; [exact Hks|exact (table_layout s s2 i b c (fresh s) (kp_globals _ _ Hks) (kp_grows _ _ Hks) Hb
      (qm_bgs _ _ (rq_more _ _ _ _ _ Hrq)) eq_refl Es (rq_holds _ _ _ _ _ Hrq))]].
    apply (step_kept_trans _ _ _ Hk1). apply (queued_step _ _ _ _ _ (kp_ready _ _ Hk1) Hrq).
    { intros j d Hd Hn. cbn in Hd. destruct (decide (i = j)) as [<-|Hne].
    { rewrite list_lookup_insert_eq in Hd by exact Hlt. injection Hd as <-. discriminate. }
    rewrite list_lookup_insert_ne in Hd by exact Hne. change (table_end (advance (itb * bs) s1) j d) with (table_end s j d).
    change (inode_table_blocks (aux_info (advance (itb * bs) s1))) with itb. rewrite Es.
    destruct (inode_table_start s j d Hrd Hd) as (_ & J1 & _ & J3 & _). fold itb in J1.
    unfold group_start in *. assert (Z.of_nat i < Z.of_nat j \/ Z.of_nat j < Z.of_nat i) as [Hij|Hij] by lia.
    + left. nia.
    + right. nia. }
    intros x (j & d & Hd & Hx). rewrite Es.
    destruct (inode_table_start (advance (itb * bs) s1) j d (kp_ready _ _ Hk1) Hd) as (_ & J1 & _ & J3 & J4 & _).
    change (info (advance (itb * bs) s1)) with (info s) in *. change (aux_info (advance (itb * bs) s1)) with (aux_info s) in *. fold itb in Hx, J1, J4.
    unfold group_start in *. destruct (Z.lt_trichotomy (Z.of_nat i) (Z.of_nat j)) as [Hij|[Hij|Hij]].
    + left. nia.
    + right. assert (i = j) as <- by lia. cbn in Hd. rewrite list_lookup_insert_eq in Hd by exact Hlt.
      injection Hd as <-. change (table_end (advance (itb * bs) s1) i c) with (table_end s i b) in Hx. lia.
    + right. nia.
  - exists c. split; [exact (qm_bgs _ _ (rq_more _ _ _ _ _ Hrq))|]. repeat split. cbn. eauto.
Qed.

Definition inode_key (s : fs) (ino : Z) : Z * Z :=
  ((ino - 1) / inodes_per_group (info s), (ino - 1) mod inodes_per_group (info s)).

Definition inode_in_range (s : fs) (ino : Z) : Prop :=
  1 <= ino <= groups (aux_info s) * inodes_per_group (info s).

(** The group of an inode has its table. *)
Definition has_table (s : fs) (ino : Z) : Prop :=
  exists b, bgs s !! Z.to_nat ((ino - 1) / inodes_per_group (info s)) = Some b /\ is_Some (inode_table b).

Lemma has_table_stays s s' ino : info s' = info s -> same_supers s s' -> has_table s ino -> has_table s' ino.
Proof.
  intros Ei Hs (b & Hb & Ht). destruct (Hs _ b Hb) as (c & Hc & _ & T). exists c. rewrite Ei. auto.
Qed.

(** The groups as they were, but for their inode tables. *)
Definition same_counts (s s' : fs) : Prop :=
  length (bgs s') = length (bgs s) /\
  forall i b c, bgs s !! i = Some b -> bgs s' !! i = Some c ->
    free_inodes c = free_inodes b /\ first_free_inode c = first_free_inode b /\ used_dirs c = used_dirs b.

Lemma get_inode_spec s ino : fs_ready s -> inode_in_range s ino ->
  groups (aux_info s) * inodes_per_group (info s) < 2 ^ 32 ->
  exists s', get_inode ino s = Ok (Some (inode_key s ino), s') /\ kept s s' /\ same_counts s s' /\ has_table s' ino.
Proof.
  intros Hrd (H1 & H2) Hmax. pose proof (fs_geometry _ (rd_ok _ Hrd)) as G.
  pose proof (geo_inodes _ _ G) as Hipg. pose proof (geo_groups _ _ G) as Hgr.
  set (ipg := inodes_per_group (info s)) in *.
  assert (0 <= (ino - 1) / ipg < groups (aux_info s)) as Hbg
    by (split; [apply Z.div_pos; lia|apply Z.div_lt_upper_bound; lia]).
  destruct (lookup_lt_is_Some_2 (bgs s) (Z.to_nat ((ino - 1) / ipg))) as [b Hb].
  { pose proof (fs_groups _ (rd_ok _ Hrd)) as Hn. unfold zlen in Hn. lia. }
  pose proof (lookup_lt_Some _ _ _ Hb) as Hlt.
  destruct (table_kept s _ b Hrd Hb) as (s' & E & Hk & c & Ec & Hs & Ht). rewrite Z2Nat.id in E by lia.
  pose proof (kp_globals _ _ Hk) as (_ & Ei & _).
  exists s'. split; [|split; [exact Hk|split; [|exists c; rewrite Ei, Ec; split; [apply list_lookup_insert_eq; exact Hlt|exact Ht]]]].
  - unfold get_inode, bind at 1, get_state. fold ipg. rewrite u32_id by lia.
    rewrite (proj2 (Z.eqb_neq ipg 0)) by lia. rewrite s32_id by lia. rewrite (bind_eq _ _ _ _ _ E). reflexivity.
  - split; [rewrite Ec, length_insert; reflexivity|]. intros i d d' Hd Hd'. rewrite Ec in Hd'.
    destruct (decide (Z.to_nat ((ino - 1) / ipg) = i)) as [<-|Hne].
    + rewrite list_lookup_insert_eq in Hd' by exact Hlt. injection Hd' as <-. rewrite Hb in Hd. injection Hd as <-.
      destruct Hs as (_ & _ & _ & S1 & S2 & S3). auto.
    + rewrite list_lookup_insert_ne in Hd' by exact Hne. rewrite Hd in Hd'. injection Hd' as <-. auto.
Qed.


Lemma allocate_inode_kept s : fs_ready s -> groups (aux_info s) * inodes_per_group (info s) < 2 ^ 32 - 1 ->
  (exists y, free_inode s y) ->
  exists ino s', allocate_inode s = Ok (Some ino, s') /\ kept s s' /\ inode_in_range s ino /\
    free_inode s ino /\ (forall y, free_inode s' y <-> free_inode s y /\ y <> ino).
Proof.
  intros Hrd Htot (y & Hy). pose proof (rd_ok _ Hrd) as Hfs.
  assert (allocate_inode s = allocate_inode_loop (seqZ 0 (Z.of_nat (length (bgs s)))) s) as ->
    by (unfold allocate_inode, bind, get_state; rewrite groups_nat by exact Hfs; reflexivity).
  destruct (group_search s (fun b => 1 <=? free_inodes b) (length (bgs s)) 0)
    as [(i & b & Hfg)|Hno]; [lia|unfold zlen; lia| |].
  2:{ exfalso. destruct Hy as (j & c & Hj & Hc & Hyr). pose proof (Hno j c Hj Hc) as Hz. cbn in Hz. apply Z.leb_gt in Hz. lia. }
  destruct (allocate_inode_loop_some s i b Hfs Htot (length (bgs s)) 0 ltac:(lia) ltac:(unfold zlen; lia) Hfg)
    as (bm & E & Hok).
  destruct Hfg as (Hi & Hb & Ht & _). apply Z.leb_le in Ht.
  pose proof (fs_bgs _ Hfs i b Hi Hb) as [_ _ _ _ _ Hin _]. pose proof (bgs_bound s i b Hi Hb) as Hbd.
  rewrite (fs_groups _ Hfs) in Hbd. pose proof (geo_inodes _ _ (fs_geometry _ Hfs)) as Hipg.
  pose proof (lookup_lt_Some _ _ _ Hb) as Hlt.
  assert (inode_start s i b <= inode_start s i b < inode_start s i b + free_inodes b) as Hrange by lia.
  assert ((i + 1) * inodes_per_group (info s) <= groups (aux_info s) * inodes_per_group (info s))
    by (apply Z.mul_le_mono_nonneg_r; lia).
  assert (0 <= i * inodes_per_group (info s)) by (apply Z.mul_nonneg_nonneg; lia).
  eexists _, _. split; [exact E|]. split; [|split; [|split]].
  - apply (update_kept s (Z.to_nat i) b); auto; [rewrite Z2Nat.id by exact Hi; exact Hok|repeat split].
  - unfold inode_in_range, inode_start. lia.
  - exists i, b. auto.
  - intros z. split.
    + intros (j & c & Hj & Hc & Hz). cbn in Hc. destruct (decide (i = j)) as [<-|Hne].
      * rewrite list_lookup_insert_eq in Hc by exact Hlt. injection Hc as <-.
        unfold inode_start in *. cbn in Hz. split; [exists i, b; unfold inode_start; repeat split; auto; lia|lia].
      * rewrite list_lookup_insert_ne in Hc by lia. split; [exists j, c; auto|].
        pose proof (fs_bgs _ Hfs j c Hj Hc) as [_ _ _ _ _ Hin' _]. unfold inode_start in *. cbn in Hz. nia.
    + intros ((j & c & Hj & Hc & Hz) & Hne'). destruct (decide (i = j)) as [<-|Hne].
      * rewrite Hb in Hc. injection Hc as <-. exists i, (inodes_taken b 1 bm). split; [exact Hi|].
        split; [apply list_lookup_insert_eq; exact Hlt|]. unfold inode_start in *. cbn. lia.
      * exists j, c. split; [exact Hj|]. split; [cbn; rewrite list_lookup_insert_ne by lia; exact Hc|exact Hz].
Qed.

Lemma add_directory_kept s ino : fs_ready s -> inode_in_range s ino ->
  groups (aux_info s) * inodes_per_group (info s) < 2 ^ 32 ->
  exists s', add_directory ino s = Ok (Some tt, s') /\ kept s s' /\ (forall y, free_inode s' y <-> free_inode s y).
Proof.
  intros Hrd (H1 & H2) Hmax. pose proof (fs_geometry _ (rd_ok _ Hrd)) as G.
  pose proof (geo_inodes _ _ G) as Hipg. pose proof (geo_groups _ _ G) as Hgr.
  set (ipg := inodes_per_group (info s)) in *.
  assert (0 <= (ino - 1) / ipg < groups (aux_info s)) as Hbg
    by (split; [apply Z.div_pos; lia|apply Z.div_lt_upper_bound; lia]).
  pose proof (fs_groups _ (rd_ok _ Hrd)) as Hn. unfold zlen in Hn.
  destruct (lookup_lt_is_Some_2 (bgs s) (Z.to_nat ((ino - 1) / ipg))) as [b Hb]; [lia|].
  set (c := set_dirs b (u16 (used_dirs b + 1))).
  exists (set_bgs s (<[Z.to_nat ((ino - 1) / ipg) := c]> (bgs s))). split; [|split].
  - unfold add_directory, bind at 1, get_state. fold ipg. rewrite (proj2 (Z.eqb_neq ipg 0)) by lia.
    rewrite u32_id, s32_id by lia. rewrite (bind_eq _ _ _ _ _ (get_bg_eq s _ b (proj1 Hbg) Hb)).
    apply put_bg_eq. unfold zlen. lia.
  - pose proof (fs_bgs _ (rd_ok _ Hrd) _ b (proj1 Hbg) Hb) as Hok.
    apply (update_kept s _ b); auto; [rewrite Z2Nat.id by lia; destruct Hok; split; auto|repeat split].
  - intros y. pose proof (lookup_lt_Some _ _ _ Hb) as Hlt. split; intros (j & d & Hj & Hd & Hy); cbn in Hd.
    + destruct (decide (Z.to_nat ((ino - 1) / ipg) = Z.to_nat j)) as [E|Hne].
      * rewrite <- E, list_lookup_insert_eq in Hd by exact Hlt. injection Hd as <-. exists j, b.
        rewrite <- E. auto.
      * rewrite list_lookup_insert_ne in Hd by exact Hne. exists j, d. auto.
    + destruct (decide (Z.to_nat ((ino - 1) / ipg) = Z.to_nat j)) as [E|Hne].
      * rewrite <- E, Hb in Hd. injection Hd as <-. exists j, c. cbn. rewrite <- E, list_lookup_insert_eq by exact Hlt. auto.
      * exists j, d. cbn. rewrite list_lookup_insert_ne by exact Hne. auto.
Qed.

Lemma same_counts_free_inode s s' y : fs_ok s -> same_globals s s' -> same_counts s s' ->
  free_inode s' y <-> free_inode s y.
Proof.
  intros Hfs (_ & Ei & _) (Hl & Hc). unfold free_inode, inode_start. rewrite Ei.
  split; intros (j & d & Hj & Hd & Hy).
  - destruct (lookup_lt_is_Some_2 (bgs s) (Z.to_nat j)) as [b Hb]; [apply lookup_lt_Some in Hd; lia|].
    destruct (Hc _ _ _ Hb Hd) as (E1 & E2 & _). exists j, b. rewrite E1, E2 in Hy. auto.
  - destruct (lookup_lt_is_Some_2 (bgs s') (Z.to_nat j)) as [b Hb]; [apply lookup_lt_Some in Hd; lia|].
    destruct (Hc _ _ _ Hd Hb) as (E1 & E2 & _). exists j, b. rewrite E1, E2. auto.
Qed.


Lemma caps_same n (l : list block_group_info) : forall l', map free_blocks l' = map free_blocks l ->
  map data_blocks_used l' = map data_blocks_used l ->
  existsb (fun b => n <=? free_blocks b) l' = existsb (fun b => n <=? free_blocks b) l /\
  sum_of room l' = sum_of room l /\ sum_of free_blocks l' = sum_of free_blocks l.
Proof.
  induction l as [|b l IH]; intros [|c l'] E1 E2; try discriminate; [auto|].
  cbn in E1, E2. injection E1 as E1 E1'. injection E2 as E2 E2'. destruct (IH l' E1' E2') as (H1 & H2 & H3).
  cbn [existsb]. rewrite E1, H1. split; [reflexivity|]. split.
  - change (sum_of room (c :: l')) with (room c + sum_of room l'). change (sum_of room (b :: l)) with (room b + sum_of room l).
    rewrite H2. unfold room, unused. rewrite E1, E2. reflexivity.
  - change (sum_of free_blocks (c :: l')) with (free_blocks c + sum_of free_blocks l').
    change (sum_of free_blocks (b :: l)) with (free_blocks b + sum_of free_blocks l). lia.
Qed.

Lemma can_hold_kept s s' n : kept s s' -> can_hold s' n = can_hold s n.
Proof.
  intros K. destruct (kp_caps _ _ K) as (Hf & Hu). unfold can_hold, capacity.
  destruct (caps_same n _ _ Hf Hu) as (-> & -> & _). reflexivity.
Qed.

Lemma room_kept s s' : kept s s' -> capacity s' = capacity s /\ sum_of free_blocks (bgs s') = sum_of free_blocks (bgs s).
Proof. intros K. destruct (kp_caps _ _ K) as (Hf & Hu). destruct (caps_same 0 _ _ Hf Hu) as (_ & H). exact H. Qed.

(** ** A directory in the image *)

Lemma block_source_stable s s' x src : queue_inv s -> queue_inv s' -> image_grows s s' ->
  block_source s x = Some src -> block_source s' x = Some src.
Proof.
  intros Hq Hq' [Ei Hin _] Hs. apply (holds_find s' x src Hq'). unfold block_source in Hs.
  destruct (find _ (queued s)) as [bb|] eqn:E; [|discriminate].
  apply find_some in E as (Hb & Ht). apply andb_true_iff in Ht as (H1 & H2).
  apply Z.leb_le in H1. apply Z.ltb_lt in H2. exists bb. rewrite Ei. auto.
Qed.

(** The directory [ino]: its inode lists the blocks the buffer at [data] is
    queued for, and the buffer is packed with the entries [l] and one more up
    to the end. *)
Record dir_layout (s : fs) (ino data : Z) (l : list (Z * entry)) : Prop := {
  dl_inode : exists inode blocks buf, itab s !! inode_key s ino = Some inode /\
    (Z.land (i_mode inode) 0xf000 = S_IFDIR /\ zlen (i_block inode) = 60) /\
    file_blocks (block_buffer s) inode = Some blocks /\
    mem s !! data = Some buf /\ zlen buf = zlen blocks * block_size (info s) /\
    i_size_lo inode = zlen buf /\ leaf_addr s inode <> Some data /\
    (forall k x, blocks !! Z.to_nat k = Some x -> 0 <= k ->
       block_source s x = Some (from_memory (data + k * block_size (info s)))) /\
    exists hi r, buf = layout_bytes l ++ entry_bytes (r, pad_entry) /\
      packed (block_size (info s)) 0 l hi /\ 8 <= r < 2 ^ 16 /\ in_one_block (block_size (info s)) hi r
}.

(** The entries a reader of the image finds in the directory [ino]. *)
Definition dir_at (s : fs) (ino : Z) (es : list entry) : Prop :=
  exists inode data blocks buf, itab s !! inode_key s ino = Some inode /\
    Z.land (i_mode inode) 0xf000 = S_IFDIR /\
    file_blocks (block_buffer s) inode = Some blocks /\
    mem s !! data = Some buf /\ zlen buf = zlen blocks * block_size (info s) /\ i_size_lo inode = zlen buf /\
    (forall k x, blocks !! Z.to_nat k = Some x -> 0 <= k ->
       block_source s x = Some (from_memory (data + k * block_size (info s)))) /\
    dir_entries (block_size (info s)) buf = Some es.

Lemma dir_layout_at s ino data l : dir_layout s ino data l -> dir_at s ino (map snd l ++ [pad_entry]).
Proof.
  intros [(inode & blocks & buf & H1 & (H2 & _) & H3 & H4 & H5 & H6 & _ & H7 & hi & r & -> & Hp & Hr & Ho)].
  exists inode, data, blocks, (layout_bytes l ++ entry_bytes (r, pad_entry)). repeat (split; [assumption|]).
  rewrite (read_padded _ l hi r Hp Hr). unfold in_one_block in Ho. rewrite (proj2 (Z.eqb_eq _ _) Ho). reflexivity.
Qed.

(** A directory stays when the image grows and its inode and buffer are left alone. *)
Lemma dir_layout_stable s s' ino data l : dir_layout s ino data l -> queue_inv s -> queue_inv s' ->
  image_grows s s' -> itab s' !! inode_key s ino = itab s !! inode_key s ino ->
  dir_layout s' ino data l.
Proof.
  intros [(inode & blocks & buf & H1 & H2 & H3 & H4 & H5 & H6 & HL & H7 & H8)] Hq Hq' Hg Hi.
  pose proof Hg as [Ei _ Hm]. split. exists inode, blocks, buf.
  assert (inode_key s' ino = inode_key s ino) as Ek by (unfold inode_key; rewrite Ei; reflexivity).
  rewrite Ek, Hi, Ei. split; [exact H1|]. split; [exact H2|].
  split; [exact (file_blocks_stable s s' inode blocks Hq' Hg H3)|]. split; [exact (Hm _ _ H4)|].
  split; [exact H5|]. split; [exact H6|].
  split; [rewrite (leaf_addr_stable s s' inode blocks Hq' Hg H3); exact HL|]. split; [|exact H8].
  intros k x Hk Hk0. exact (block_source_stable s s' x _ Hq Hq' Hg (H7 k x Hk Hk0)).
Qed.

(** The tables of inodes play no part in the state of the blocks. *)
Lemma ready_itab s k i : fs_ready s -> fs_ready (set_itab s k i).
Proof. intros H. destruct H as [[G N B] R2 R3 R4 [Q1 Q2 Q3 Q4 Q5 Q6] R6 R6' R7 Rh Rt Ri Rz R8 R9]. split; try assumption; split; assumption. Qed.


Lemma ready_mem s a buf : fs_ready s -> a < fresh s -> fs_ready (set_mem s a buf).
Proof.
  intros H Ha. destruct H as [[G N B] R2 R3 R4 [Q1 Q2 Q3 Q4 Q5 Q6] R6 R6' R7 Rh Rt Ri Rz R8 R9].
  split; try assumption; [split; assumption|split; assumption|].
  intros c b Hc. cbn in Hc |- *. destruct (decide (c = a)) as [->|Hne]; [exact Ha|].
  rewrite lookup_insert_ne in Hc by congruence. exact (R6' c b Hc).
Qed.

Lemma file_blocks_iblock s i j : i_block i = i_block j -> file_blocks s i = file_blocks s j.
Proof. intros E. unfold file_blocks. rewrite E. reflexivity. Qed.

Lemma leaf_addr_iblock s i j : i_block i = i_block j -> leaf_addr s i = leaf_addr s j.
Proof. intros E. unfold leaf_addr. rewrite E. reflexivity. Qed.

Lemma groups_step_free_inode s s' y : fs_ok s -> fs_ok s' -> same_globals s s' -> groups_step s s' ->
  free_inode s' y <-> free_inode s y.
Proof.
  intros Hfs Hfs' Hg Hst. apply (same_counts_free_inode s s' y Hfs Hg). split.
  - pose proof (fs_groups _ Hfs) as H1. pose proof (fs_groups _ Hfs') as H2. destruct Hg as (_ & _ & Ea & _).
    rewrite Ea in H2. unfold zlen in *. lia.
  - intros i b c Hb Hc. destruct (Hst i c Hc) as (d & Hd & [->|(m & _ & _ & Hs)]).
    + rewrite Hb in Hd. injection Hd as <-. auto.
    + rewrite Hb in Hd. injection Hd as <-. destruct Hs as (_ & _ & _ & H1 & H2 & H3). auto.
Qed.

(** The groups of a step, found from the state before. *)
Lemma groups_step_supers s s' : fs_ok s -> fs_ok s' -> same_globals s s' -> groups_step s s' -> same_supers s s'.
Proof.
  intros Hfs Hfs' (_ & _ & Ea & _) Hst i b Hb.
  pose proof (fs_groups _ Hfs) as H1. pose proof (fs_groups _ Hfs') as H2. rewrite Ea in H2.
  destruct (lookup_lt_is_Some_2 (bgs s') i) as [c Hc]; [apply lookup_lt_Some in Hb; unfold zlen in *; lia|].
  exists c. split; [exact Hc|]. destruct (Hst i c Hc) as (d & Hd & [->|(m & _ & _ & Hs)]).
  - rewrite Hb in Hd. injection Hd as <-. auto.
  - rewrite Hb in Hd. injection Hd as <-. destruct Hs as (Es & -> & _). auto.
Qed.

(** What is queued goes to blocks that were free, none of which is before the
    table of a group. *)
Lemma queues_free_header s s' : fs_ready s -> fs_ready s' -> same_globals s s' -> groups_step s s' ->
  queues_free s s' -> header_kept s s'.
Proof.
  intros Hrd Hrd' G Hst Hq. pose proof G as (_ & Ei & _).
  pose proof (groups_step_supers s s' (rd_ok _ Hrd) (rd_ok _ Hrd') G Hst) as Hs. split; [| |exact Hs].
  - intros x. exact (header_area_same s s' x G Hs).
  - intros x (i & b & Hb & Hx). intros Hu. apply (queues_free_unqueued s s' x 1 (rd_queue _ Hrd') Ei Hq); [|exact Hu|lia].
    intros y Hy. apply (rd_header _ Hrd i b y Hb). pose proof (rd_itab _ Hrd). lia.
Qed.

(** What making a directory, a file or a link leaves alone: the other inodes,
    the contents of the image, the blocks and inodes it did not take. *)
Record tree_step (s s' : fs) (ino : Z) (taken : list Z) : Prop := {
  ts_ready : fs_ready s';
  ts_globals : same_globals s s';
  ts_itab : forall k, k <> inode_key s ino -> itab s' !! k = itab s !! k;
  ts_grows : image_grows s s';
  ts_were_free : forall x, x ∈ taken -> free_block s x;
  ts_free : forall x, free_block s' x <-> free_block s x /\ x ∉ taken;
  ts_inodes : forall y, free_inode s' y <-> free_inode s y /\ y <> ino;
  ts_fresh : fresh s <= fresh s';
  ts_header : header_kept s s';
  ts_layout : group_layout s -> group_layout s'
}.

Lemma itab_grows s k i : image_grows s (set_itab s k i).
Proof. split; auto. Qed.

Lemma put_grows s s' a buf : image_grows s s' -> mem s !! a = None -> image_grows s (set_mem s' a buf).
Proof.
  intros [A B C] Ha. split; auto. intros c b Hc. cbn. rewrite lookup_insert_ne; [exact (C c b Hc)|congruence].
Qed.


(** The last block. *)
Lemma last_block bs len n a : 0 < bs -> len = n * bs -> len - bs <= a < len -> a / bs = (len - 1) / bs.
Proof.
  intros Hbs -> Ha. rewrite <- (Z.div_unique a bs (n - 1) (a - (n - 1) * bs)) by lia.
  apply (Z.div_unique _ _ _ (bs - 1)); lia.
Qed.

(** ** Making a directory *)

Lemma make_directory_at_spec s ino parent ds dirs len : fs_ready s -> inode_in_range s ino ->
  groups (aux_info s) * inodes_per_group (info s) < 2 ^ 32 ->
  zlen (i_block (default zero_inode (itab s !! inode_key s ino))) = 60 -> ~ free_inode s ino ->
  let bs := block_size (info s) in
  dir_ok bs len ino parent ds -> len - bs <= dir_end bs 24 ds -> can_hold s (len / bs + 1) = true ->
  exists s' data l taken,
    make_directory_at bs len parent ino ds dirs s =
      Ok (Some (ino, map (fun o => (data, o)) (drop 2 (positions 0 l))), s') /\
    dir_layout s' ino data l /\ map snd l = dot_entries ino parent ++ map new_entry ds /\
    tree_step s s' ino taken /\ zlen taken <= len / bs + 1 /\ fresh s <= data /\
    (forall inode a, itab s' !! inode_key s ino = Some inode -> leaf_addr s' inode = Some a -> fresh s <= a).
Proof.
  intros Hrd Hin Htot Hib Hnf bs Hdir Hpad Hcan.
  destruct (dir_len_bound _ _ _ _ _ Hdir) as (Ha & Hlen). pose proof Hdir as [Hbs Hi Hp Hds Hc Elen].
  set (n := len / bs). assert (len = n * bs) as En by (unfold n; rewrite Elen, Z.div_mul by lia; lia).
  assert (DIV_ROUND_UP len bs = n) as Edn by (rewrite En; apply DIV_ROUND_UP_mul; lia).
  destruct (add_directory_kept s ino Hrd Hin Htot) as (s1 & E1 & K1 & F1).
  pose proof (kp_globals _ _ K1) as (_ & Ei1 & Ea1 & _).
  destruct (get_inode_spec s1 ino (kp_ready _ _ K1)) as (s2 & E2 & K2 & SC2 & _);
    [unfold inode_in_range; rewrite Ei1, Ea1; exact Hin|rewrite Ei1, Ea1; exact Htot|].
  pose proof (image_kept_trans _ _ _ K1 K2) as K. pose proof (kp_globals _ _ K) as (Hf2 & Ei & Ea & _).
  assert (inode_key s1 ino = inode_key s ino) as Ek1 by (unfold inode_key; rewrite Ei1; reflexivity).
  set (key := inode_key s ino) in *. set (i0 := default zero_inode (itab s !! key)) in *.
  destruct (data_extents_spec s2 i0 len len) as (data & i' & s3 & blocks & T & E3 & Hfm & Hmem & Hsrc & Hdata & Hleaf);
    [exact (kp_ready _ _ K)|exact Hib|lia|rewrite Ei; fold bs; rewrite Edn; nia| |lia|lia|].
  { rewrite Ei. fold bs. rewrite Edn, (can_hold_kept _ _ _ K). exact Hcan. }
  rewrite Ei in Hsrc. fold bs in Hsrc. rewrite Edn in Hsrc.
  destruct (dir_contents_spec _ _ _ _ _ Hdir) as (l & places & Ed & Hpk & Hmap & Hpl). cbv zeta in Ed.
  rewrite pad_bytes in Ed by lia. set (buf := layout_bytes l ++ entry_bytes (len - dir_end bs 24 ds, pad_entry)) in *.
  set (i'' := set_mode i' S_IFDIR (u16 (dirs + 2)) (Z.lor (i_flags i') (default_i_flags (aux_info s)))).
  set (s5 := set_itab (set_itab s3 key i') key i''). set (s6 := set_mem s5 data buf).
  destruct Hfm as [M1 M2 M3 M4 M5 M6 M7 M8 M9 M10 M11 M12 M13 M14 M15].
  pose proof (same_globals_trans _ _ _ (kp_globals _ _ K) M2) as G3. pose proof G3 as (_ & Ei3 & Ea3 & _).
  pose proof (kp_fresh _ _ K) as Hfr.
  assert (mem s !! data = None) as Hnone.
  { destruct (mem s !! data) as [x|] eqn:Ex; [|reflexivity]. pose proof (rd_mem _ Hrd data x Ex). lia. }
  assert (image_grows s s6) as Hg6.
  { apply put_grows; [|exact Hnone]. apply (image_grows_trans _ _ _ (kp_grows _ _ K)).
    apply (image_grows_trans _ _ _ M9). apply (image_grows_trans _ (set_itab s3 key i')); apply itab_grows. }
  assert (fs_ready s6) as Hr6 by (apply ready_mem; [apply ready_itab, ready_itab, M1|cbn; lia]).
  assert (itab s6 !! key = Some i'') as Hi6 by apply lookup_insert_eq.
  assert (inode_key s6 ino = key) as Ek6 by (unfold inode_key; cbn; rewrite Ei3; reflexivity).
  assert (leaf_addr s6 i'' = leaf_addr s3 i') as Hla6 by reflexivity.
  destruct M8 as (b60 & L60 & Ei').
  exists s6, data, l, (T ++ blocks). split; [|split; [|split; [exact Hmap|split; [|split; [|split; [lia|]]]]]].
  - unfold make_directory_at, bind at 1, get_state at 1. rewrite (bind_eq _ _ _ _ _ E1).
    rewrite (bind_eq _ _ _ _ _ E2). rewrite Ek1.
    assert (read_inode key s2 = Ok (Some i0, s2)) as Er by (unfold read_inode; rewrite (kp_itab _ _ K); reflexivity).
    rewrite (bind_eq _ _ _ _ _ Er). rewrite (bind_eq _ _ _ _ _ E3).
    rewrite (bind_eq (write_inode key i') _ s3 tt (set_itab s3 key i') eq_refl). fold i''.
    rewrite (bind_eq (write_inode key i'') _ (set_itab s3 key i') tt s5 eq_refl).
    unfold bind at 1, get_state. assert (lift (oof (mem s5 !! data)) s5 = Ok (Some (zeros len), s5)) as El
      by (unfold lift; cbn [mem s5 set_itab]; rewrite Hmem; reflexivity).
    rewrite (bind_eq _ _ _ _ _ El).
    assert (lift_jump (dir_contents bs len (zeros len) ino parent ds) s5 = Ok (Some (buf, places), s5)) as Ej
      by (unfold lift_jump; rewrite Ed; reflexivity).
    rewrite (bind_eq _ _ _ _ _ Ej). rewrite (bind_eq (put_mem data buf) _ s5 tt s6 eq_refl). rewrite Hpl. reflexivity.
  - destruct (packed_len _ _ _ _ Hpk) as (Eal & Elb).
    assert (zlen buf = len) as Hzb by (unfold buf; rewrite zlen_app, entry_bytes_len by (change (zlen (entry_name pad_entry)) with 0; lia); lia).
    split. exists i'', blocks, buf. rewrite Ek6. split; [exact Hi6|].
    split; [split; [reflexivity|cbn; rewrite Ei'; cbn; exact (eq_trans L60 Hib)]|]. split.
    { rewrite (file_blocks_iblock _ i'' i') by reflexivity. unfold s6. rewrite file_blocks_put; [exact M3|].
      rewrite Hla6 || (change (leaf_addr s5 i') with (leaf_addr s3 i')); exact Hleaf. }
    split; [apply lookup_insert_eq|]. change (info s6) with (info s3). rewrite Ei3. fold bs.
    rewrite Ei in M4. fold bs in M4. rewrite Edn in M4.
    split; [rewrite M4, Hzb; exact En|]. split; [cbn; rewrite Ei'; cbn; rewrite u32_id by lia; lia|].
    split; [rewrite Hla6; exact Hleaf|]. split.
    + intros k x Hk Hk0. change (block_source s6 x) with (block_source s3 x). apply Hsrc; [exact Hk|].
      apply lookup_lt_Some in Hk. unfold zlen in M4. lia.
    + exists (dir_end bs 24 ds), (len - dir_end bs 24 ds). split; [reflexivity|]. split; [exact Hpk|]. split; [lia|].
      unfold in_one_block. replace (dir_end bs 24 ds + (len - dir_end bs 24 ds) - 1) with (len - 1) by lia.
      apply (last_block bs len n); lia.
  - split; auto.
    + intros k Hk. cbn. rewrite !lookup_insert_ne by (intros E; apply Hk; symmetry; exact E). rewrite M12. rewrite (kp_itab _ _ K). reflexivity.
    + intros x Hx. apply (kp_free _ _ K), M6. exact Hx.
    + intros x. change (free_block s6 x) with (free_block s3 x). rewrite M7, (kp_free _ _ K). tauto.
    + intros y. change (free_inode s6 y) with (free_inode s3 y).
      rewrite (groups_step_free_inode s2 s3 y (rd_ok _ (kp_ready _ _ K)) (rd_ok _ M1) M2 M11).
      rewrite (same_counts_free_inode s1 s2 y (rd_ok _ (kp_ready _ _ K1)) (kp_globals _ _ K2) SC2), F1.
      split; [|tauto]. intros Hy. split; [exact Hy|]. intros ->. exact (Hnf Hy).
    + cbn. lia.
    + apply (header_kept_trans _ _ _ (kp_header _ _ K)).
      destruct (queues_free_header s2 s3 (kp_ready _ _ K) M1 M2 M11 M10) as [HA HF HS]. split; [exact HA|exact HF|exact HS].
    + intros HL. exact (group_layout_step s2 s3 M2 M9 (groups_step_places _ _ M11) (kp_layout _ _ K HL)).
  - rewrite zlen_app, M4, Ei. fold bs n. lia.
  - intros inode a Hino. rewrite Hi6 in Hino. injection Hino as <-. rewrite Hla6. intros Hl. apply M13 in Hl. lia.
Qed.


(** ** Changing a directory *)

(** Another inode record with the same mode bits, size and blocks. *)
Lemma dir_layout_inode s ino data l k i' : dir_layout s ino data l ->
  (forall i, itab s !! inode_key s ino = Some i -> k = inode_key s ino ->
     i_block i' = i_block i /\ i_size_lo i' = i_size_lo i /\
     Z.land (i_mode i') 0xf000 = Z.land (i_mode i) 0xf000) ->
  dir_layout (set_itab s k i') ino data l.
Proof.
  intros [(inode & blocks & buf & H1 & H2 & H3 & H4 & H5 & H6 & HL & H7 & H8)] Hi. split.
  change (inode_key (set_itab s k i') ino) with (inode_key s ino).
  destruct (decide (k = inode_key s ino)) as [->|Hne].
  - destruct (Hi inode H1 eq_refl) as (E1 & E2 & E3). exists i', blocks, buf.
    split; [apply lookup_insert_eq|]. split; [congruence|].
    split; [rewrite (file_blocks_iblock _ i' inode E1); exact H3|]. split; [exact H4|]. split; [exact H5|].
    split; [congruence|]. split; [|split; [exact H7|exact H8]].
    rewrite (leaf_addr_iblock _ i' inode E1). exact HL.
  - exists inode, blocks, buf. split; [cbn; rewrite lookup_insert_ne by congruence; exact H1|]. auto 12.
Qed.

(** A write to another buffer. *)
Lemma dir_layout_other s ino data l a buf' : dir_layout s ino data l -> a <> data ->
  (forall i, itab s !! inode_key s ino = Some i -> leaf_addr s i <> Some a) ->
  dir_layout (set_mem s a buf') ino data l.
Proof.
  intros [(inode & blocks & buf & H1 & H2 & H3 & H4 & H5 & H6 & HL & H7 & H8)] Ha Hl. split.
  exists inode, blocks, buf. split; [exact H1|]. split; [exact H2|].
  split; [rewrite file_blocks_put by exact (Hl inode H1); exact H3|].
  split; [cbn; rewrite lookup_insert_ne by congruence; exact H4|]. auto 10.
Qed.

Lemma packed_replace bs l1 r i n f l2 j hi : packed bs 0 (l1 ++ (r, (i, n, f)) :: l2) hi -> 0 <= j < 2 ^ 32 ->
  packed bs 0 (l1 ++ (r, (j, n, f)) :: l2) hi /\ zlen (layout_bytes l1) = layout_len l1 /\ 8 + zlen n <= r.
Proof.
  intros Hp Hj. apply packed_app in Hp as (m & Hp1 & Hr & Ho & (_ & Hn & Hf) & Hp2).
  split; [|split; [exact (proj2 (packed_len _ _ _ _ Hp1))|exact (proj1 Hr)]].
  apply packed_app. exists m. split; [exact Hp1|]. split; [exact Hr|]. split; [exact Ho|].
  split; [split; [exact Hj|split; [exact Hn|exact Hf]]|exact Hp2].
Qed.

(** Filling in the number of an entry. *)
Lemma fill_spec s ino data l1 r i n f l2 j : dir_layout s ino data (l1 ++ (r, (i, n, f)) :: l2) ->
  0 <= j < 2 ^ 32 ->
  exists buf, fill_inode (data, layout_len l1) j s = Ok (Some tt, set_mem s data buf) /\
    dir_layout (set_mem s data buf) ino data (l1 ++ (r, (j, n, f)) :: l2).
Proof.
  intros [(inode & blocks & buf & H1 & H2 & H3 & H4 & H5 & H6 & HL & H7 & hi & r0 & -> & Hp & Hr & Ho)] Hj.
  destruct (packed_replace _ _ _ _ _ _ _ j _ Hp Hj) as (Hp' & Hlb & Hnr).
  pose proof (fill_entry l1 r i n f l2 (entry_bytes (r0, pad_entry)) j Hnr Hlb) as E.
  eexists. split.
  - unfold fill_inode, bind at 1, get_state. cbn [fst snd].
    assert (lift (oof (mem s !! data)) s = Ok (Some (layout_bytes (l1 ++ (r, (i, n, f)) :: l2) ++ entry_bytes (r0, pad_entry)), s)) as El
      by (unfold lift; rewrite H4; reflexivity).
    rewrite (bind_eq _ _ _ _ _ El). unfold lift, bind. rewrite E. reflexivity.
  - split. exists inode, blocks, (layout_bytes (l1 ++ (r, (j, n, f)) :: l2) ++ entry_bytes (r0, pad_entry)).
    split; [exact H1|]. split; [exact H2|]. split; [rewrite file_blocks_put by exact HL; exact H3|].
    split; [apply lookup_insert_eq|].
    assert (zlen (layout_bytes (l1 ++ (r, (j, n, f)) :: l2)) = zlen (layout_bytes (l1 ++ (r, (i, n, f)) :: l2))) as El.
    { rewrite (proj2 (packed_len _ _ _ _ Hp)), (proj2 (packed_len _ _ _ _ Hp')), !layout_len_app. reflexivity. }
    rewrite zlen_app in *. rewrite El. split; [exact H5|]. split; [exact H6|]. split; [exact HL|]. split; [exact H7|].
    exists hi, r0. auto.
Qed.

Lemma inode_key_inj s a b : 0 < inodes_per_group (info s) -> inode_key s a = inode_key s b -> a = b.
Proof.
  intros H E. unfold inode_key in E. injection E as E1 E2.
  pose proof (Z.div_mod (a - 1) (inodes_per_group (info s)) ltac:(lia)).
  pose proof (Z.div_mod (b - 1) (inodes_per_group (info s)) ltac:(lia)). rewrite E1, E2 in *. lia.
Qed.

(** [inode_set_permissions] on an inode in use. *)
Lemma set_permissions_spec s ino mode uid gid mtime : fs_ready s -> inode_in_range s ino ->
  groups (aux_info s) * inodes_per_group (info s) < 2 ^ 32 ->
  exists s1 i', inode_set_permissions ino mode uid gid mtime s = Ok (Some 0, set_itab s1 (inode_key s ino) i') /\
    kept s s1 /\ same_counts s s1 /\ has_table s1 ino /\
    let i := default zero_inode (itab s !! inode_key s ino) in
    i_block i' = i_block i /\ i_size_lo i' = i_size_lo i /\ i_mode i' = Z.lor (i_mode i) mode /\
    i_uid i' = uid /\ i_gid i' = gid /\ i_mtime i' = mtime.
Proof.
  intros Hrd Hin Htot. destruct (get_inode_spec s ino Hrd Hin Htot) as (s1 & E1 & K1 & SC & HT).
  eexists s1, _. split; [|split; [exact K1|split; [exact SC|split; [exact HT|]]]].
  - unfold inode_set_permissions. rewrite (bind_eq _ _ _ _ _ E1).
    unfold read_inode at 1, bind at 1. rewrite (kp_itab _ _ K1). reflexivity.
  - cbn. auto 10.
Qed.


(** Entries a directory can hold: names that fit, and an end the last entry can
    fill (see [dir_contents_correct]). *)
Record dir_fits (bs : Z) (ds : list dentry) : Prop := {
  df_dentries : Forall (dentry_ok bs) ds;
  df_count : 2 * bs * (zlen ds + 3) < 2 ^ 31;
  df_pad : DIV_ROUND_UP (dentry_size bs ds) bs * bs - bs <= dir_end bs 24 ds
}.

(** The state in which trees are made: a number for every inode, and nothing
    written to the free ones. *)
Record tree_ready_fs (s : fs) : Prop := {
  tf_ready : fs_ready s;
  tf_total : groups (aux_info s) * inodes_per_group (info s) < 2 ^ 32 - 1;
  tf_itab : forall y, free_inode s y -> itab s !! inode_key s y = None;
  tf_bs : 24 <= block_size (info s)
}.

Lemma dir_len_u32 bs ds : 24 <= bs < 2 ^ 16 -> dir_fits bs ds ->
  u32 (div_round_up32 (dentry_size bs ds) bs * bs) = DIV_ROUND_UP (dentry_size bs ds) bs * bs /\
  0 < DIV_ROUND_UP (dentry_size bs ds) bs * bs < 2 ^ 31.
Proof.
  intros Hbs [Hd Hc _]. destruct (dentry_size_bound bs ds Hbs Hd Hc) as (H1 & H2).
  pose proof (dir_end_ge bs ds 24 ltac:(lia) ltac:(lia) Hd). pose proof (zlen_nonneg ds).
  pose proof (DIV_ROUND_UP_bound (dentry_size bs ds) bs ltac:(lia)) as Hb.
  assert (div_round_up32 (dentry_size bs ds) bs = DIV_ROUND_UP (dentry_size bs ds) bs) as ->.
  { unfold div_round_up32, DIV_ROUND_UP. rewrite (u32_id (_ + _)), u32_id by nia. reflexivity. }
  rewrite u32_id by nia. split; [reflexivity|nia].
Qed.

(** The directory with the number [ino] that was chosen. *)
Lemma make_directory_chosen s ino parent ds dirs : tree_ready_fs s -> inode_in_range s ino -> ~ free_inode s ino ->
  itab s !! inode_key s ino = None -> 0 <= parent < 2 ^ 32 -> dir_fits (block_size (info s)) ds ->
  can_hold s (DIV_ROUND_UP (dentry_size (block_size (info s)) ds) (block_size (info s)) + 1) = true ->
  exists s' data l taken,
    make_directory_at (block_size (info s))
      (u32 (div_round_up32 (dentry_size (block_size (info s)) ds) (block_size (info s)) * block_size (info s)))
      parent ino ds dirs s =
      Ok (Some (ino, map (fun o => (data, o)) (drop 2 (positions 0 l))), s') /\
    dir_layout s' ino data l /\ map snd l = dot_entries ino parent ++ map new_entry ds /\
    tree_step s s' ino taken /\
    zlen taken <= DIV_ROUND_UP (dentry_size (block_size (info s)) ds) (block_size (info s)) + 1 /\ fresh s <= data /\
    (forall inode a, itab s' !! inode_key s ino = Some inode -> leaf_addr s' inode = Some a -> fresh s <= a).
Proof.
  intros Htf Hin Hnf Hnew Hp Hfit Hcan. pose proof (tf_ready _ Htf) as Hrd. pose proof (rd_leaf _ Hrd) as Hbs.
  pose proof (tf_bs _ Htf) as Hb24. pose proof (tf_total _ Htf). destruct Hin as (Hi1 & Hi2).
  destruct (dir_len_u32 (block_size (info s)) ds ltac:(lia) Hfit) as (-> & Hlen).
  set (n := DIV_ROUND_UP (dentry_size (block_size (info s)) ds) (block_size (info s))) in *.
  pose proof (make_directory_at_spec s ino parent ds dirs (n * block_size (info s))) as H0. cbv zeta in H0.
  rewrite Z.div_mul in H0 by lia.
  apply H0; auto; [split; lia|lia|rewrite Hnew; reflexivity| |exact (df_pad _ _ Hfit)].
  destruct Hfit as [Hd Hc Hpd]. split; auto; lia.
Qed.

Lemma positions_length l : forall p, length (positions p l) = length l.
Proof. induction l as [|[r e] l IH]; intros p; cbn; [reflexivity|]. rewrite IH. reflexivity. Qed.

(** The number that is chosen is the smallest free one. *)
Lemma allocate_inode_first s ino s1 : fs_ok s -> groups (aux_info s) * inodes_per_group (info s) < 2 ^ 32 - 1 ->
  allocate_inode s = Ok (Some ino, s1) -> forall y, free_inode s y -> ino <= y.
Proof.
  intros Hfs Htot E. destruct (allocate_inode_correct s Hfs Htot) as [(x & s' & E' & _ & _ & _ & Hx & _)|(_ & Hno)].
  - rewrite E in E'. injection E' as -> _. exact Hx.
  - intros y Hy. by destruct (Hno y).
Qed.

(** The root directory. *)
Lemma make_root_spec s ds dirs : tree_ready_fs s -> inode_in_range s EXT4_ROOT_INO ->
  ~ free_inode s EXT4_ROOT_INO -> itab s !! inode_key s EXT4_ROOT_INO = None ->
  dir_fits (block_size (info s)) ds ->
  can_hold s (DIV_ROUND_UP (dentry_size (block_size (info s)) ds) (block_size (info s)) + 1) = true ->
  exists s' data l taken,
    make_directory 0 ds dirs s =
      Ok (Some (EXT4_ROOT_INO, map (fun o => (data, o)) (drop 2 (positions 0 l))), s') /\
    dir_layout s' EXT4_ROOT_INO data l /\
    map snd l = dot_entries EXT4_ROOT_INO EXT4_ROOT_INO ++ map new_entry ds /\
    tree_step s s' EXT4_ROOT_INO taken /\
    zlen taken <= DIV_ROUND_UP (dentry_size (block_size (info s)) ds) (block_size (info s)) + 1 /\ fresh s <= data /\
    (forall inode a, itab s' !! inode_key s EXT4_ROOT_INO = Some inode -> leaf_addr s' inode = Some a -> fresh s <= a).
Proof.
  intros Htf Hin Hnf Hnew Hfit Hcan.
  destruct (make_directory_chosen s EXT4_ROOT_INO EXT4_ROOT_INO ds dirs Htf Hin Hnf Hnew)
    as (s' & data & l & taken & E & Hdl & Hmap & Hts & Htk & Hda & Hle); [vm_compute; split; congruence|exact Hfit|exact Hcan|].
  exists s', data, l, taken. split; [|auto 10]. unfold make_directory, bind at 1, get_state.
  pose proof (tf_bs _ Htf). rewrite (proj2 (Z.eqb_neq (block_size (info s)) 0)) by lia. exact E.
Qed.

(** A directory below [parent]. *)
Lemma make_directory_sub s parent ds dirs :
  tree_ready_fs s -> (exists y, free_inode s y) -> 0 < parent < 2 ^ 32 ->
  dir_fits (block_size (info s)) ds ->
  can_hold s (DIV_ROUND_UP (dentry_size (block_size (info s)) ds) (block_size (info s)) + 1) = true ->
  exists ino s' data l taken,
    make_directory parent ds dirs s =
      Ok (Some (ino, map (fun o => (data, o)) (drop 2 (positions 0 l))), s') /\
    free_inode s ino /\ (forall y, free_inode s y -> ino <= y) /\ inode_in_range s ino /\
    dir_layout s' ino data l /\ map snd l = dot_entries ino parent ++ map new_entry ds /\
    tree_step s s' ino taken /\
    zlen taken <= DIV_ROUND_UP (dentry_size (block_size (info s)) ds) (block_size (info s)) + 1 /\ fresh s <= data /\
    (forall inode a, itab s' !! inode_key s ino = Some inode -> leaf_addr s' inode = Some a -> fresh s <= a).
Proof.
  intros Htf Hfree Hp Hfit Hcan. pose proof (tf_ready _ Htf) as Hrd. pose proof (tf_total _ Htf) as Htot.
  destruct (allocate_inode_kept s Hrd Htot Hfree) as (ino & s1 & E1 & K1 & Hin & Hfi & Hfree1).
  pose proof (kp_globals _ _ K1) as (_ & Ei & Ea & _).
  assert (tree_ready_fs s1) as Htf1.
  { destruct Htf as [_ _ T3 T4]. split; rewrite ?Ei, ?Ea; auto; [exact (kp_ready _ _ K1)|].
    intros y Hy. rewrite (kp_itab _ _ K1). unfold inode_key. rewrite Ei. apply T3. apply Hfree1 in Hy. tauto. }
  destruct (make_directory_chosen s1 ino parent ds dirs Htf1) as (s' & data & l & taken & E & Hdl & Hmap & Hts & Htk & Hda & Hle);
    [unfold inode_in_range; rewrite Ei, Ea; exact Hin|intros H; apply Hfree1 in H; tauto
    |rewrite (kp_itab _ _ K1); unfold inode_key; rewrite Ei; exact (tf_itab _ Htf _ Hfi)|lia|rewrite Ei; exact Hfit
    |rewrite Ei, (can_hold_kept _ _ _ K1); exact Hcan|].
  pose proof (kp_fresh _ _ K1) as Hfr.
  exists ino, s', data, l, taken.
  split; [|split; [exact Hfi|split; [exact (allocate_inode_first s ino s1 (rd_ok _ Hrd) Htot E1)|split; [exact Hin|split; [exact Hdl|split; [exact Hmap|split; [|split; [rewrite <- Ei; exact Htk|split; [lia|]]]]]]]]].
  - unfold make_directory, bind at 1, get_state. pose proof (geo_block_size _ _ (fs_geometry _ (rd_ok _ Hrd))).
    rewrite (proj2 (Z.eqb_neq (block_size (info s)) 0)), (proj2 (Z.eqb_neq parent 0)) by lia. cbn [negb].
    unfold bind at 1. rewrite (bind_eq _ _ _ _ _ E1). cbn [ret].
    rewrite (proj2 (Z.eqb_neq _ _)) by (unfold EXT4_ALLOCATE_FAILED; destruct Hin; lia).
    rewrite Ei in E. exact E.
  - destruct Hts as [A B C D W F I Fr Hd HL]. split; auto.
    + exact (same_globals_trans _ _ _ (kp_globals _ _ K1) B).
    + intros k Hk. rewrite C by (unfold inode_key in *; rewrite Ei; exact Hk). rewrite (kp_itab _ _ K1). reflexivity.
    + exact (image_grows_trans _ _ _ (kp_grows _ _ K1) D).
    + intros x Hx. apply (kp_free _ _ K1), W. exact Hx.
    + intros x. rewrite F, (kp_free _ _ K1). tauto.
    + intros y. rewrite I, Hfree1. tauto.
    + lia.
    + exact (header_kept_trans _ _ _ (kp_header _ _ K1) Hd).
    + intros H. exact (HL (kp_layout _ _ K1 H)).
  - intros inode a Hi Ha. assert (inode_key s1 ino = inode_key s ino) as Ek by (unfold inode_key; rewrite Ei; reflexivity).
    rewrite Ek in Hle. specialize (Hle inode a Hi Ha). lia.
Qed.

(** Where a directory can go: for the root, its inode is reserved and unused; below a parent, an inode is free. *)
Definition inode_for (s : fs) (parent : Z) : Prop :=
  if parent =? 0
  then inode_in_range s EXT4_ROOT_INO /\ ~ free_inode s EXT4_ROOT_INO /\ itab s !! inode_key s EXT4_ROOT_INO = None
  else exists y, free_inode s y.

(** C18: [make_directory] makes a directory, for entries with names that fit and with room behind the last one for the padding
    entry, and with free blocks for them: the root directory, when the parent is 0, or one that gets the first free
    inode. Its blocks were free, a reader of the image finds [.], [..] and the entries in order, with the padding
    entry behind them, and nothing else of the image changes. *)
Theorem make_directory_correct s parent ds dirs :
  tree_ready_fs s -> 0 <= parent < 2 ^ 32 -> inode_for s parent -> dir_fits (block_size (info s)) ds ->
  can_hold s (DIV_ROUND_UP (dentry_size (block_size (info s)) ds) (block_size (info s)) + 1) = true ->
  exists ino places s' taken,
    make_directory parent ds dirs s = Ok (Some (ino, places), s') /\
    (if parent =? 0 then ino = EXT4_ROOT_INO else free_inode s ino /\ forall y, free_inode s y -> ino <= y) /\
    dir_at s' ino (dot_entries ino (if parent =? 0 then EXT4_ROOT_INO else parent) ++ map new_entry ds ++ [pad_entry]) /\
    tree_step s s' ino taken /\ length places = length ds.
Proof.
  intros Htf Hp Hfor Hfit Hcan. unfold inode_for in Hfor.
  assert (forall s' ino up data l, dir_layout s' ino data l -> map snd l = dot_entries ino up ++ map new_entry ds ->
    dir_at s' ino (dot_entries ino up ++ map new_entry ds ++ [pad_entry]) /\ length (map (fun o => (data, o)) (drop 2 (positions 0 l))) = length ds) as Hl.
  { intros s' ino up data l Hdl Hmap. split; [apply dir_layout_at in Hdl; by rewrite Hmap, <- app_assoc in Hdl|].
    rewrite length_map, length_drop, positions_length, <- (length_map snd l), Hmap, length_app, length_map. cbn. lia. }
  destruct (Z.eqb_spec parent 0) as [->|Hne].
  - destruct Hfor as (Hin & Hnf & Hnew).
    destruct (make_root_spec s ds dirs Htf Hin Hnf Hnew Hfit Hcan) as (s' & data & l & taken & E & Hdl & Hmap & Hts & _).
    destruct (Hl _ _ _ _ _ Hdl Hmap). by eexists _, _, s', taken.
  - destruct (make_directory_sub s parent ds dirs Htf Hfor ltac:(lia) Hfit Hcan)
      as (ino & s' & data & l & taken & E & Hfi & Hmin & _ & Hdl & Hmap & Hts & _).
    destruct (Hl _ _ _ _ _ Hdl Hmap). by eexists ino, _, s', taken.
Qed.

Lemma ext_fs_tree : tree_ready_fs ext_fs.
Proof.
  split; [exact ext_fs_ready|vm_compute; reflexivity| |vm_compute; discriminate].
  assert (itab ext_fs = ∅) as -> by (vm_compute; reflexivity). intros y _. apply lookup_empty.
Qed.

(** A directory with two files, below the inode 2. *)
Lemma make_directory_correct_witness :
  exists ino places s' taken,
    let ds := [mk_dentry (chars "init") EXT4_FT_REG_FILE; mk_dentry (chars "sbin") EXT4_FT_DIR] in
    make_directory 2 ds 1 ext_fs = Ok (Some (ino, places), s') /\
    dir_at s' ino (dot_entries ino 2 ++ map new_entry ds ++ [pad_entry]) /\
    tree_step ext_fs s' ino taken /\ length places = 2%nat.
Proof.
  assert (exists y, free_inode ext_fs y) as Hfree.
  { exists 1, 0, (default zero_bg (bgs ext_fs !! 0%nat)). vm_compute. repeat split; congruence. }
  destruct (make_directory_correct ext_fs 2
      [mk_dentry (chars "init") EXT4_FT_REG_FILE; mk_dentry (chars "sbin") EXT4_FT_DIR] 1 ext_fs_tree)
    as (ino & places & s' & taken & E & _ & Hd & Hts & Hl).
  - lia.
  - exact Hfree.
  - split; [|vm_compute; reflexivity|vm_compute; discriminate].
    repeat constructor; vm_compute; congruence.
  - vm_compute. reflexivity.
  - exists ino, places, s', taken. cbv zeta. split; [exact E|]. split; [exact Hd|]. split; [exact Hts|exact Hl].
Defined.


End Ext4Dirs.
