(* ===== verification/Ext4Tree.v ===== *)
(** * ext4_utils: building the tree

    Theorems on [make_file] (contents.c) and on
    [build_default_directory_structure] (make_ext4fs.c): several directories
    and files in one image. *)

From S2P Require Import Prelude BackedBlock SparseFile Ext4Utils Ext4Alloc Ext4AllocBits Ext4AllocProps Ext4AllocLists Ext4Extent Ext4ExtentProps Ext4ExtentFiles Ext4Contents Ext4ContentsProps Ext4Dirs.

Module Ext4Tree.
Import Ext4Utils Ext4Alloc Ext4AllocBits Ext4AllocProps Ext4AllocLists Ext4Extent Ext4ExtentProps
  Ext4ExtentFiles Ext4Contents Ext4ContentsProps Ext4Dirs.

(** ** One step after another *)

Lemma tree_ready_step s s' ino taken : tree_ready_fs s -> tree_step s s' ino taken -> tree_ready_fs s'.
Proof.
  intros [T1 T2 T3 T4] [A (_ & Ei & Ea & _) C _ _ _ I _ _ _]. split; rewrite ?Ei, ?Ea; auto.
  intros y Hy. apply I in Hy as (Hy & Hne).
  assert (inode_key s' y = inode_key s y) as -> by (unfold inode_key; rewrite Ei; reflexivity).
  rewrite C; [exact (T3 y Hy)|]. intros E. apply Hne. apply (inode_key_inj s _ _); [|exact E].
  exact (proj1 (geo_inodes _ _ (fs_geometry _ (rd_ok _ T1)))).
Qed.

(** The groups do not overlap, in whatever state of the same file system. *)
Lemma runs_apart s s' i j b c x : fs_ok s -> fs_ok s' -> same_globals s s' -> 0 <= i -> 0 <= j ->
  bgs s !! Z.to_nat i = Some b -> bgs s' !! Z.to_nat j = Some c ->
  run_start b <= x < run_start b + free_blocks b -> run_start c <= x < run_start c + free_blocks c -> i = j.
Proof.
  intros Hfs Hfs' (_ & Ei & Ea & _) Hi Hj Hb Hc Hx Hy.
  destruct (run_start_bound s i b Hfs Hi Hb) as (B1 & B2 & _).
  destruct (run_start_bound s' j c Hfs' Hj Hc) as (C1 & C2 & _). rewrite Ei, Ea in *.
  pose proof (geo_group _ _ (fs_geometry _ Hfs)). unfold group_start in *.
  destruct (Z.lt_trichotomy i j) as [H1|[H1|H1]]; [|exact H1|]; nia.
Qed.

(** A group that had room for what was taken and [m] blocks more has room for
    the [m] blocks. *)
Lemma can_hold_after s s' ino taken i b m : fs_ready s -> tree_step s s' ino taken ->
  bgs s !! i = Some b -> zlen taken + m <= free_blocks b -> can_hold s' m = true.
Proof.
  intros Hrd [A G _ _ _ F _ _ _ _] Hb Hm. pose proof (rd_ok _ Hrd) as Hfs. pose proof (rd_ok _ A) as Hfs'.
  rewrite <- (Nat2Z.id i) in Hb.
  destruct (lookup_lt_is_Some_2 (bgs s') i) as [c Hc].
  { apply lookup_lt_Some in Hb. pose proof (fs_groups _ Hfs) as H1. pose proof (fs_groups _ Hfs') as H2.
    destruct G as (_ & _ & Ea & _). rewrite Ea in H2. unfold zlen in *. lia. }
  unfold can_hold. apply orb_true_iff. left. apply existsb_exists. exists c.
  split; [apply list_elem_of_In; eapply list_elem_of_lookup_2; exact Hc|]. apply Z.leb_le.
  assert (incl (seqZ (run_start b) (free_blocks b)) (taken ++ seqZ (run_start c) (free_blocks c))) as Hin.
  { intros x Hx. apply list_elem_of_In, elem_of_seqZ in Hx. apply list_elem_of_In, elem_of_app.
    destruct (decide (x ∈ taken)) as [Ht|Ht]; [left; exact Ht|right].
    assert (free_block s' x) as (j & d & Hj & Hd & Hxd).
    { apply F. split; [|exact Ht]. exists (Z.of_nat i), b. split; [lia|]. split; [exact Hb|lia]. }
    assert (Z.of_nat i = j) as <- by (apply (runs_apart s s' _ _ b d x); auto; lia).
    rewrite Nat2Z.id, Hc in Hd. injection Hd as <-. apply elem_of_seqZ. lia. }
  apply NoDup_incl_length in Hin; [|apply NoDup_ListNoDup, NoDup_seqZ].
  rewrite length_app, !length_seqZ in Hin. unfold zlen in Hm.
  rewrite <- (Nat2Z.id i) in Hc. pose proof (free_small s' (Z.of_nat i) c Hfs' ltac:(lia) Hc). lia.
Qed.

(** ** The tree of an empty file system *)

Lemma lost_found_size (bs : Z) : 64 <= bs -> dentry_size bs [lost_found] = 52.
Proof.
  intros H. unfold dentry_size. cbn [dentry_size_loop].
  change (u32 (8 + ALIGN (zlen (filename lost_found)) 4)) with 20.
  rewrite (Z.mod_small 24), (u32_id (24 + 20)) by lia.
  rewrite (proj2 (Z.leb_gt bs (24 + 20))) by lia.
  rewrite (Z.mod_small (24 + 20)), (u32_id (24 + 20 + 8)) by lia.
  rewrite (proj2 (Z.ltb_ge bs (24 + 20 + 8))) by lia. reflexivity.
Qed.

Lemma empty_dir_size (bs : Z) : 64 <= bs -> dentry_size bs [] = 32.
Proof.
  intros H. unfold dentry_size. cbn [dentry_size_loop]. rewrite (Z.mod_small 24), (u32_id (24 + 8)) by lia.
  rewrite (proj2 (Z.ltb_ge bs (24 + 8))) by lia. reflexivity.
Qed.

Lemma one_block bs n : 0 < n <= bs -> DIV_ROUND_UP n bs = 1.
Proof. intros H. unfold DIV_ROUND_UP. symmetry. apply (Z.div_unique _ _ 1 (n - 1)); lia. Qed.

Lemma one_block_fits bs ds : 64 <= bs < 2 ^ 16 -> Forall (dentry_ok bs) ds -> zlen ds <= 1 ->
  0 < dentry_size bs ds <= bs -> dir_fits bs ds.
Proof.
  intros Hbs Hd Hn Hs. split; [exact Hd|nia|]. rewrite one_block by exact Hs.
  pose proof (dir_end_ge bs ds 24 ltac:(lia) ltac:(lia) Hd). lia.
Qed.

Lemma lost_found_fits bs : 64 <= bs < 2 ^ 16 -> dir_fits bs [lost_found].
Proof.
  intros H. apply one_block_fits; [exact H| |vm_compute; discriminate|rewrite lost_found_size; lia].
  constructor; [|constructor]. split; [vm_compute; reflexivity|].
  split; [change (rec_of (filename lost_found)) with 20; lia|vm_compute; split; congruence].
Qed.

Lemma empty_dir_fits bs : 64 <= bs < 2 ^ 16 -> dir_fits bs [].
Proof.
  intros H. apply one_block_fits; [exact H|constructor|vm_compute; discriminate|rewrite empty_dir_size; lia].
Qed.

(** ** Directories above an address *)

(** A directory none of whose contents are in memory below [lo]. *)
Record dir_from (lo : Z) (s : fs) (ino data : Z) (l : list (Z * entry)) : Prop := {
  df_layout : dir_layout s ino data l;
  df_data : lo <= data;
  df_leaf : forall inode a, itab s !! inode_key s ino = Some inode -> leaf_addr s inode = Some a -> lo <= a
}.

Lemma dir_from_weaken lo lo' s ino data l : lo' <= lo -> dir_from lo s ino data l -> dir_from lo' s ino data l.
Proof. intros H [A B C]. split; [exact A|lia|]. intros i a Hi Ha. specialize (C i a Hi Ha). lia. Qed.

Lemma dir_from_stable lo s s' ino data l : dir_from lo s ino data l -> queue_inv s -> queue_inv s' ->
  image_grows s s' -> itab s' !! inode_key s ino = itab s !! inode_key s ino -> dir_from lo s' ino data l.
Proof.
  intros [A B C] Hq Hq' Hg Hi. split; [exact (dir_layout_stable s s' ino data l A Hq Hq' Hg Hi)|exact B|].
  pose proof Hg as [Ei _ _]. assert (inode_key s' ino = inode_key s ino) as Ek by (unfold inode_key; rewrite Ei; reflexivity).
  rewrite Ek, Hi. intros inode a Hin Ha. apply (C inode a Hin). destruct A as [(i & blocks & buf & H1 & _ & H3 & _)].
  rewrite Hin in H1. injection H1 as <-. rewrite <- (leaf_addr_stable s s' inode blocks Hq' Hg H3). exact Ha.
Qed.

Lemma dir_from_kept lo s s' ino data l : dir_from lo s ino data l -> fs_ready s -> step_kept s s' -> dir_from lo s' ino data l.
Proof.
  intros H Hrd K. apply (dir_from_stable lo s s' ino data l H (rd_queue _ Hrd) (rd_queue _ (kp_ready _ _ K)) (kp_grows _ _ K)).
  rewrite (kp_itab _ _ K). reflexivity.
Qed.

Lemma dir_from_put lo s ino data l a buf : dir_from lo s ino data l -> a < lo -> dir_from lo (set_mem s a buf) ino data l.
Proof.
  intros [A B C] Ha. split; [|exact B|exact C]. apply dir_layout_other; [exact A|lia|].
  intros i Hi Hl. specialize (C i a Hi Hl). lia.
Qed.

(** Another inode record, with the blocks, the size and the kind as they were if
    it is the inode of the directory. *)
Lemma dir_from_inode lo s ino data l k i' : dir_from lo s ino data l ->
  (forall i, itab s !! inode_key s ino = Some i -> k = inode_key s ino ->
     i_block i' = i_block i /\ i_size_lo i' = i_size_lo i /\
     Z.land (i_mode i') 0xf000 = Z.land (i_mode i) 0xf000) ->
  dir_from lo (set_itab s k i') ino data l.
Proof.
  intros [A B C] Hi. split; [exact (dir_layout_inode s ino data l k i' A Hi)|exact B|].
  intros inode a Hin Ha. change (inode_key (set_itab s k i') ino) with (inode_key s ino) in Hin. cbn in Hin.
  destruct (decide (k = inode_key s ino)) as [->|Hne].
  - rewrite lookup_insert_eq in Hin. injection Hin as <-. destruct A as [(i & _ & _ & H1 & _)].
    destruct (Hi i H1 eq_refl) as (E & _). apply (C i a H1). rewrite <- (leaf_addr_iblock s i' i E). exact Ha.
  - rewrite lookup_insert_ne in Hin by congruence. exact (C inode a Hin Ha).
Qed.

(** The inodes of a directory that differ are at different places. *)
Lemma dir_from_other lo s ino data l n i' : dir_from lo s ino data l -> fs_ready s -> n <> ino ->
  dir_from lo (set_itab s (inode_key s n) i') ino data l.
Proof.
  intros H Hrd Hne. apply dir_from_inode; [exact H|]. intros i _ E. exfalso. apply Hne.
  refine (inode_key_inj s _ _ _ E). exact (proj1 (geo_inodes _ _ (fs_geometry _ (rd_ok _ Hrd)))).
Qed.

(** The layout of a root directory with one entry. *)
Lemma root_shape l e : map snd l = dot_entries EXT4_ROOT_INO EXT4_ROOT_INO ++ [e] ->
  exists l1 r, l = l1 ++ [(r, e)] /\ map snd l1 = dot_entries EXT4_ROOT_INO EXT4_ROOT_INO /\
    drop 2 (positions 0 l) = [layout_len l1].
Proof.
  intros H. destruct l as [|[r1 e1] [|[r2 e2] [|[r3 e3] [|]]]]; try discriminate.
  injection H as -> -> ->. exists [(r1, (EXT4_ROOT_INO, chars ".", EXT4_FT_DIR)); (r2, (EXT4_ROOT_INO, chars "..", EXT4_FT_DIR))], r3.
  split; [reflexivity|]. split; [reflexivity|]. cbn. f_equal. lia.
Qed.

(** The state before the tree is built: the root inode is set aside, another
    one is free, and some group has the blocks. *)
Record default_ready (s : fs) : Prop := {
  dr_ready : tree_ready_fs s;
  dr_bs : 64 <= block_size (info s);
  dr_root : inode_in_range s EXT4_ROOT_INO;
  dr_reserved : ~ free_inode s EXT4_ROOT_INO;
  dr_new : itab s !! inode_key s EXT4_ROOT_INO = None;
  dr_inode : exists y, free_inode s y;
  dr_blocks : exists i b, bgs s !! i = Some b /\ 4 <= free_blocks b
}.

Definition found_entry (n : Z) : entry := (n, chars "lost+found", EXT4_FT_DIR).

Lemma group_can_hold s i b m : bgs s !! i = Some b -> m <= free_blocks b -> can_hold s m = true.
Proof.
  intros Hb Hm. unfold can_hold. apply orb_true_iff. left. apply existsb_exists. exists b.
  split; [apply list_elem_of_In; eapply list_elem_of_lookup_2; exact Hb|apply Z.leb_le; exact Hm].
Qed.

(** The two directories, before the entry is filled in. *)
Lemma default_dirs s : default_ready s ->
  exists s1 s2 data l1 r ino data2 l2 taken1 taken2,
    make_directory 0 [lost_found] 1 s = Ok (Some (EXT4_ROOT_INO, [(data, layout_len l1)]), s1) /\
    make_directory EXT4_ROOT_INO [] 0 s1 = Ok (Some (ino, []), s2) /\
    tree_step s s1 EXT4_ROOT_INO taken1 /\ tree_step s1 s2 ino taken2 /\ free_inode s ino /\ ino <> EXT4_ROOT_INO /\
    inode_in_range s ino /\
    map snd l1 = dot_entries EXT4_ROOT_INO EXT4_ROOT_INO /\ map snd l2 = dot_entries ino EXT4_ROOT_INO /\
    dir_from (fresh s) s2 EXT4_ROOT_INO data (l1 ++ [(r, found_entry 0)]) /\ dir_from (data + 1) s2 ino data2 l2 /\
    data < fresh s2.
Proof.
  intros [Htf Hbs Hin Hnf Hnew (y & Hy) (i & b & Hb & Hfr)].
  pose proof (tf_ready _ Htf) as Hrd. pose proof (rd_leaf _ Hrd) as Hleaf.
  destruct (make_root_spec s [lost_found] 1 Htf Hin Hnf Hnew) as (s1 & data & l & taken1 & E1 & Hd1 & Hm1 & T1 & Hk1 & Hda & Hle);
    [apply lost_found_fits; lia|rewrite lost_found_size, one_block by lia; apply (group_can_hold s i b); [exact Hb|lia]|].
  rewrite lost_found_size, one_block in Hk1 by lia.
  pose proof (tree_ready_step _ _ _ _ Htf T1) as Htf1. pose proof (tf_ready _ Htf1) as Hrd1.
  pose proof T1 as [_ (_ & Ei & Ea & _) _ _ _ _ I1 _ _ _].
  destruct (make_directory_sub s1 EXT4_ROOT_INO [] 0 Htf1)
    as (ino & s2 & data2 & l2 & taken2 & E2 & Hfi & _ & Hin2 & Hd2 & Hm2 & T2 & _ & Hfr2 & Hleaf2);
    [exists y; apply I1; split; [exact Hy|intros ->; exact (Hnf Hy)]|vm_compute; split; congruence
    |apply empty_dir_fits; rewrite Ei; lia
    |rewrite Ei, empty_dir_size, one_block by lia; exact (can_hold_after s s1 _ _ i b 2 Hrd T1 Hb ltac:(lia))|].
  apply I1 in Hfi as (Hfi & Hne). pose proof (tf_ready _ (tree_ready_step _ _ _ _ Htf1 T2)) as Hrd2.
  destruct (root_shape l (found_entry 0) Hm1) as (l1 & r & -> & Hl1 & Hpos). rewrite Hpos in E1.
  assert (data < fresh s1) as Hdf by (destruct Hd1 as [(? & ? & buf & _ & _ & _ & Hmem & _)]; exact (rd_mem _ Hrd1 _ _ Hmem)).
  assert (drop 2 (positions 0 l2) = []) as Hpos2.
  { apply drop_ge. rewrite positions_length, <- (length_map snd l2), Hm2. cbn. lia. }
  rewrite Hpos2 in E2. pose proof T2 as [_ _ C2 G2 _ _ _ F2 _ _]. pose proof G2 as [Ei2 _ _].
  exists s1, s2, data, l1, r, ino, data2, l2, taken1, taken2.
  split; [exact E1|]. split; [exact E2|]. split; [exact T1|]. split; [exact T2|]. split; [exact Hfi|].
  split; [exact Hne|]. split; [unfold inode_in_range in *; rewrite <- Ei, <- Ea; exact Hin2|].
  split; [exact Hl1|]. split; [rewrite Hm2, app_nil_r; reflexivity|].
  split; [|split; [|lia]].
  - apply (dir_from_stable _ s1); auto using rd_queue.
    + split; [exact Hd1|exact Hda|]. unfold inode_key. rewrite Ei. exact Hle.
    + apply C2. intros E. apply Hne. symmetry. refine (inode_key_inj s1 _ _ _ E).
      exact (proj1 (geo_inodes _ _ (fs_geometry _ (rd_ok _ Hrd1)))).
  - split; [exact Hd2|lia|]. intros i0 a Hi0 Ha.
    assert (inode_key s2 ino = inode_key s1 ino) as Ek by (unfold inode_key; rewrite Ei2; reflexivity).
    rewrite Ek in Hi0. pose proof (Hleaf2 i0 a Hi0 Ha). lia.
Qed.

Lemma found_mode m : Z.land m 0xf000 = S_IFDIR ->
  Z.land (Z.lor m 0x1c0) 0xf000 = S_IFDIR /\ Z.land (Z.lor m 0x1c0) 0x1c0 = 0x1c0.
Proof.
  intros H. rewrite Z.land_lor_distr_l, H. split; [reflexivity|].
  rewrite Z.land_lor_distr_l, Z.land_diag.
  apply Z.bits_inj'. intros n Hn. rewrite Z.lor_spec, Z.land_spec. destruct (Z.testbit m n), (Z.testbit 0x1c0 n); reflexivity.
Qed.

(** The permissions of a directory. *)
Lemma dir_permissions lo s ino data l mode : fs_ready s -> inode_in_range s ino ->
  groups (aux_info s) * inodes_per_group (info s) < 2 ^ 32 -> Z.land mode 0xf000 = 0 -> dir_from lo s ino data l ->
  exists s1 i', let s' := set_itab s1 (inode_key s ino) i' in
    inode_set_permissions ino mode 0 0 0 s = Ok (Some 0, s') /\ kept s s1 /\
    (forall y, free_inode s' y <-> free_inode s y) /\ (forall x, free_block s' x <-> free_block s x) /\
    dir_from lo s' ino data l /\
    (forall n d k, n <> ino -> dir_from lo s n d k -> dir_from lo s' n d k) /\
    Z.land (i_mode i') mode = mode /\ i_uid i' = 0 /\ i_gid i' = 0 /\ has_table s' ino.
Proof.
  intros Hrd Hin Htot Hz Hd.
  destruct (set_permissions_spec s ino mode 0 0 0 Hrd Hin Htot) as (s1 & i' & E & K & SC & HT & Hb & Hs & Hm & Hu & Hg & _).
  pose proof (kp_globals _ _ K) as (_ & Ei & _). pose proof (df_layout _ _ _ _ _ Hd) as [(inode & _ & _ & Hi & (Hmode & _) & _)].
  rewrite Hi in Hb, Hs, Hm. change (default zero_inode (Some inode)) with inode in *.
  assert (forall n, inode_key s1 n = inode_key s n) as Ek by (intros n; unfold inode_key; rewrite Ei; reflexivity).
  exists s1, i'. cbv zeta. split; [exact E|]. split; [exact K|]. split; [|split; [exact (kp_free _ _ K)|split; [|split; [|split; [|auto]]]]].
  - intros y. exact (same_counts_free_inode s s1 y (rd_ok _ Hrd) (kp_globals _ _ K) SC).
  - apply dir_from_inode; [exact (dir_from_kept _ _ _ _ _ _ Hd Hrd K)|]. intros j Hj _. rewrite Ek, (kp_itab _ _ K), Hi in Hj.
    injection Hj as <-. split; [exact Hb|]. split; [exact Hs|]. rewrite Hm, Z.land_lor_distr_l, Hz. apply Z.lor_0_r.
  - intros n d k Hne Hn. rewrite <- Ek. apply dir_from_other; [exact (dir_from_kept _ _ _ _ _ _ Hn Hrd K)|exact (kp_ready _ _ K)|congruence].
  - rewrite Hm, Z.land_lor_distr_l, Z.land_diag. apply Z.bits_inj'. intros n Hn. rewrite Z.lor_spec, Z.land_spec.
    destruct (Z.testbit (i_mode inode) n), (Z.testbit mode n); reflexivity.
Qed.

(** What making the tree of an empty file system leaves alone. *)
Record tree_made (s s' : fs) (ino : Z) (taken : list Z) : Prop := {
  tm_ready : fs_ready s';
  tm_globals : same_globals s s';
  tm_itab : forall k, k <> inode_key s EXT4_ROOT_INO -> k <> inode_key s ino -> itab s' !! k = itab s !! k;
  tm_grows : image_grows s s';
  tm_were_free : forall x, x ∈ taken -> free_block s x;
  tm_free : forall x, free_block s' x <-> free_block s x /\ x ∉ taken;
  tm_inodes : forall y, free_inode s' y <-> free_inode s y /\ y <> ino;
  tm_fresh : fresh s <= fresh s';
  tm_header : header_kept s s';
  tm_layout : group_layout s -> group_layout s'
}.

Lemma tree_made_steps s s1 s2 ino taken1 taken2 : ~ free_inode s EXT4_ROOT_INO ->
  tree_step s s1 EXT4_ROOT_INO taken1 -> tree_step s1 s2 ino taken2 -> tree_made s s2 ino (taken1 ++ taken2).
Proof.
  intros Hnf [A1 B1 C1 D1 W1 F1 I1 Fr1 H1 L1] [A2 B2 C2 D2 W2 F2 I2 Fr2 H2 L2].
  assert (forall n, inode_key s1 n = inode_key s n) as Ek by (intros n; unfold inode_key; destruct B1 as (_ & -> & _); reflexivity).
  split; auto; [exact (same_globals_trans _ _ _ B1 B2)| |exact (image_grows_trans _ _ _ D1 D2)| | | |lia|exact (header_kept_trans _ _ _ H1 H2)].
  - intros k Hr Hi. rewrite C2 by (rewrite Ek; exact Hi). exact (C1 k Hr).
  - intros x Hx. apply elem_of_app in Hx as [Hx|Hx]; [exact (W1 x Hx)|]. apply W2, F1 in Hx. tauto.
  - intros x. rewrite F2, F1, elem_of_app. tauto.
  - intros y. rewrite I2, I1. split; [tauto|]. intros (Hy & Hn). split; [|exact Hn]. split; [exact Hy|]. intros ->. exact (Hnf Hy).
Qed.

Lemma tree_made_put s s' ino taken a buf : tree_made s s' ino taken -> fresh s <= a < fresh s' -> fs_ready s ->
  tree_made s (set_mem s' a buf) ino taken.
Proof.
  intros [A B C D W F I Fr H L] Ha Hrd. split; auto; [exact (ready_mem s' a buf A ltac:(lia))| |destruct H; split; auto].
  apply put_grows; [exact D|]. destruct (mem s !! a) as [x|] eqn:E; [|reflexivity]. pose proof (rd_mem _ Hrd a x E). lia.
Qed.

Lemma tree_made_kept s s1 s2 ino taken i' : tree_made s s1 ino taken -> kept s1 s2 ->
  (forall y, free_inode s2 y <-> free_inode s1 y) -> tree_made s (set_itab s2 (inode_key s1 ino) i') ino taken.
Proof.
  intros [A B C D W F I Fr H L] K Hin. destruct K as [[A2 B2 F2 D2 M2 T2 _ Fr2 H2] L2].
  assert (inode_key s1 ino = inode_key s ino) as -> by (unfold inode_key; destruct B as (_ & -> & _); reflexivity).
  split; auto; [exact (ready_itab _ _ _ A2)|exact (same_globals_trans _ _ _ B B2)| | | | |cbn; lia|destruct (header_kept_trans _ _ _ H H2) as [HA HF HS]; split; [exact HA|exact HF|exact HS]].
  - intros k Hr Hi. cbn. rewrite lookup_insert_ne by congruence. rewrite T2. exact (C k Hr Hi).
  - apply (image_grows_trans _ _ _ D), (image_grows_trans _ _ _ D2), itab_grows.
  - intros x. change (free_block (set_itab s2 (inode_key s ino) i') x) with (free_block s2 x). rewrite F2. exact (F x).
  - intros y. change (free_inode (set_itab s2 (inode_key s ino) i') y) with (free_inode s2 y). rewrite Hin. exact (I y).
Qed.

Lemma build_default_spec s : default_ready s ->
  exists ino s' i data l data2 l2 (taken : list Z),
    build_default_directory_structure s = Ok (Some EXT4_ROOT_INO, s') /\
    free_inode s ino /\ ino <> EXT4_ROOT_INO /\ inode_in_range s ino /\ tree_made s s' ino taken /\
    dir_from (fresh s) s' EXT4_ROOT_INO data l /\ dir_from (fresh s) s' ino data2 l2 /\
    map snd l = dot_entries EXT4_ROOT_INO EXT4_ROOT_INO ++ [found_entry ino] /\ map snd l2 = dot_entries ino EXT4_ROOT_INO /\
    itab s' !! inode_key s' ino = Some i /\ Z.land (i_mode i) 0x1c0 = 0x1c0 /\ i_uid i = 0 /\ i_gid i = 0 /\ has_table s' ino.
Proof.
  intros Hdr. pose proof (tf_total _ (dr_ready _ Hdr)) as Htot.
  destruct (default_dirs s Hdr) as (s1 & s2 & data & l1 & r & ino & data2 & l2 & taken1 & taken2 & E1 & E2 & T1 & T2
    & Hfi & Hne & Hin & Hm1 & Hm2 & Hd1 & Hd2 & Hdf).
  pose proof (same_globals_trans _ _ _ (ts_globals _ _ _ _ T1) (ts_globals _ _ _ _ T2)) as (_ & Ei & Ea & _).
  pose proof (ts_ready _ _ _ _ T2) as Hrd2. pose proof Hin as (Hin1 & Hin2). pose proof (df_data _ _ _ _ _ Hd1) as Hda.
  destruct (fill_spec s2 EXT4_ROOT_INO data l1 r 0 (chars "lost+found") EXT4_FT_DIR [] ino (df_layout _ _ _ _ _ Hd1)) as (buf & E3 & Hd3); [lia|].
  set (s3 := set_mem s2 data buf) in *.
  assert (dir_from (fresh s) s3 EXT4_ROOT_INO data (l1 ++ [(r, found_entry ino)])) as Hd4
    by (split; [exact Hd3|exact Hda|exact (df_leaf _ _ _ _ _ Hd1)]).
  assert (dir_from (fresh s) s3 ino data2 l2) as Hd5
    by (apply (dir_from_weaken (data + 1)); [lia|]; apply dir_from_put; [exact Hd2|lia]).
  assert (fs_ready s3) as Hrd3 by (apply ready_mem; [exact Hrd2|exact Hdf]).
  destruct (dir_permissions (fresh s) s3 ino data2 l2 0x1c0 Hrd3) as (s4 & i & E4 & K & Fi & Fb & Hl & Hr & M & U & G & HT);
    [unfold inode_in_range; cbn; rewrite Ei, Ea; exact Hin|cbn; rewrite Ei, Ea; lia|reflexivity|exact Hd5|].
  pose proof (kp_globals _ _ K) as (_ & Ei4 & _).
  exists ino, (set_itab s4 (inode_key s3 ino) i), i, data, (l1 ++ [(r, found_entry ino)]), data2, l2, (taken1 ++ taken2).
  split; [|split; [exact Hfi|split; [exact Hne|split; [exact Hin|split; [|split; [exact (Hr EXT4_ROOT_INO _ _ ltac:(congruence) Hd4)|split; [exact Hl|]]]]]]].
  - unfold build_default_directory_structure. rewrite (bind_eq _ _ _ _ _ E1), (bind_eq _ _ _ _ _ E2), (bind_eq _ _ _ _ _ E3),
      (bind_eq _ _ _ _ _ E4). reflexivity.
  - apply tree_made_kept; [|exact K|exact Fi]. apply tree_made_put; [|lia|exact (tf_ready _ (dr_ready _ Hdr))].
    exact (tree_made_steps _ _ _ _ _ _ (dr_reserved _ Hdr) T1 T2).
  - split; [rewrite map_app, Hm1; reflexivity|]. split; [exact Hm2|]. split; [|auto].
    assert (inode_key (set_itab s4 (inode_key s3 ino) i) ino = inode_key s3 ino) as -> by (unfold inode_key; cbn; rewrite Ei4; reflexivity).
    apply lookup_insert_eq.
Qed.

(** The tree of an empty file system: a reader of the image finds the root
    directory with [lost+found] in it, and [lost+found] empty, owned by root
    and open to its owner; only the inode of [lost+found] and the blocks of the
    two directories were taken. *)
Theorem build_default_directory_structure_correct s : default_ready s ->
  exists ino s' i (taken : list Z),
    build_default_directory_structure s = Ok (Some EXT4_ROOT_INO, s') /\
    free_inode s ino /\ fs_ready s' /\
    dir_at s' EXT4_ROOT_INO (dot_entries EXT4_ROOT_INO EXT4_ROOT_INO ++ [found_entry ino; pad_entry]) /\
    dir_at s' ino (dot_entries ino EXT4_ROOT_INO ++ [pad_entry]) /\
    itab s' !! inode_key s' ino = Some i /\ Z.land (i_mode i) 0x1c0 = 0x1c0 /\ i_uid i = 0 /\ i_gid i = 0 /\
    (forall x, x ∈ taken -> free_block s x) /\
    (forall x, free_block s' x <-> free_block s x /\ x ∉ taken) /\
    (forall y, free_inode s' y <-> free_inode s y /\ y <> ino).
Proof.
  intros Hdr. destruct (build_default_spec s Hdr) as (ino & s' & i & data & l & data2 & l2 & taken & E & Hfi & _ & _ & T & Hr & Hl & Hm & Hm2 & Hi).
  apply df_layout, dir_layout_at in Hr, Hl. rewrite Hm, <- app_assoc in Hr. rewrite Hm2 in Hl. destruct T as [A _ _ _ W F I _ _ _].
  exists ino, s', i, taken. repeat (split; [first [assumption|apply Hi]|]). exact I.
Qed.


(** The file system of the examples with the inodes 1 and 2 set aside. *)
Definition after_inode (s : fs) : fs := match allocate_inode s with Ok (_, s') => s' | _ => s end.
Definition root_fs : fs := after_inode (after_inode ext_fs).

Lemma after_inode_spec s n : fs_ready s -> groups (aux_info s) * inodes_per_group (info s) < 2 ^ 32 - 1 ->
  (exists y, free_inode s y) -> (match allocate_inode s with Ok (Some m, _) => m =? n | _ => false end) = true ->
  kept s (after_inode s) /\ forall y, free_inode (after_inode s) y <-> free_inode s y /\ y <> n.
Proof.
  intros Hrd Ht Hf Hn. destruct (allocate_inode_kept s Hrd Ht Hf) as (ino & s' & E & K & _ & _ & F).
  unfold after_inode. rewrite E in *. apply Z.eqb_eq in Hn. subst n. auto.
Qed.

Lemma root_fs_ready : default_ready root_fs.
Proof.
  assert (forall y, 1 <= y <= 4 -> free_inode ext_fs y) as Hfree.
  { intros y Hy. exists 0, (default zero_bg (bgs ext_fs !! 0%nat)). split; [lia|].
    split; [vm_compute; reflexivity|]. vm_compute inode_start. vm_compute free_inodes. lia. }
  destruct (after_inode_spec ext_fs 1 ext_fs_ready) as (K1 & F1);
    [vm_compute; reflexivity|exists 1; apply Hfree; lia|vm_compute; reflexivity|].
  destruct (after_inode_spec (after_inode ext_fs) 2 (kp_ready _ _ K1)) as (K2 & F2);
    [vm_compute; reflexivity|exists 2; apply F1; split; [apply Hfree|]; lia|vm_compute; reflexivity|].
  assert (root_fs = after_inode (after_inode ext_fs)) as Er by reflexivity. rewrite <- Er in K2, F2.
  assert (itab root_fs = ∅) as Hi by (vm_compute; reflexivity).
  split; [split| | | | | |].
  - exact (kp_ready _ _ K2).
  - vm_compute; reflexivity.
  - intros y _. rewrite Hi. apply lookup_empty.
  - vm_compute; discriminate.
  - vm_compute; discriminate.
  - split; vm_compute; discriminate.
  - intros H. apply F2 in H as (_ & H). exact (H eq_refl).
  - rewrite Hi. apply lookup_empty.
  - exists 3. apply F2. rewrite F1. repeat split; [apply Hfree; lia|lia|lia].
  - exists 0%nat, (default zero_bg (bgs root_fs !! 0%nat)). split; [vm_compute; reflexivity|vm_compute; discriminate].
Qed.

(** The empty file system of the example. *)
Lemma build_default_directory_structure_correct_witness :
  exists ino s',
    build_default_directory_structure root_fs = Ok (Some EXT4_ROOT_INO, s') /\
    dir_at s' EXT4_ROOT_INO (dot_entries EXT4_ROOT_INO EXT4_ROOT_INO ++ [found_entry ino; pad_entry]) /\
    dir_at s' ino (dot_entries ino EXT4_ROOT_INO ++ [pad_entry]).
Proof.
  destruct (build_default_directory_structure_correct root_fs root_fs_ready) as (ino & s' & i & t & E & _ & _ & Hr & Hl & _).
  exists ino, s'. split; [exact E|]. split; [exact Hr|exact Hl].
Defined.


(** ** Files *)

(** The regular file [ino] of the image: its blocks in order, each with the
    part of the source file it is filled from. *)
Definition file_at (s : fs) (ino len : Z) (filename : string) (blocks : list Z) : Prop :=
  exists i, itab s !! inode_key s ino = Some i /\ i_mode i = S_IFREG /\ i_links_count i = 1 /\
    i_size_lo i + 2 ^ 32 * i_size_high i = len /\ zlen blocks = DIV_ROUND_UP len (block_size (info s)) /\
    (0 < len -> file_blocks (block_buffer s) i = Some blocks) /\
    (forall k x, blocks !! Z.to_nat k = Some x -> 0 <= k ->
       block_source s x = Some (from_file filename (k * block_size (info s)))).

Lemma dir_at_stable s s' ino es : dir_at s ino es -> queue_inv s -> queue_inv s' -> image_grows s s' ->
  itab s' !! inode_key s ino = itab s !! inode_key s ino -> dir_at s' ino es.
Proof.
  intros (i & data & blocks & buf & H1 & H2 & H3 & H4 & H5 & H6 & H7 & H8) Hq Hq' Hg Hi.
  pose proof Hg as [Ei _ Hm]. exists i, data, blocks, buf.
  assert (inode_key s' ino = inode_key s ino) as -> by (unfold inode_key; rewrite Ei; reflexivity).
  rewrite Hi, Ei. split; [exact H1|]. split; [exact H2|].
  split; [exact (file_blocks_stable s s' i blocks Hq' Hg H3)|]. split; [exact (Hm _ _ H4)|].
  repeat (split; [assumption|]). split; [|exact H8].
  intros k x Hk Hk0. exact (block_source_stable s s' x _ Hq Hq' Hg (H7 k x Hk Hk0)).
Qed.

Lemma file_at_stable s s' ino len f blocks : file_at s ino len f blocks -> queue_inv s -> queue_inv s' ->
  image_grows s s' -> itab s' !! inode_key s ino = itab s !! inode_key s ino -> file_at s' ino len f blocks.
Proof.
  intros (i & H1 & H2 & H3 & H4 & H5 & H6 & H7) Hq Hq' Hg Hi. pose proof Hg as [Ei _ _]. exists i.
  assert (inode_key s' ino = inode_key s ino) as -> by (unfold inode_key; rewrite Ei; reflexivity).
  rewrite Hi, Ei. repeat (split; [assumption|]).
  split; [intros Hl; exact (file_blocks_stable s s' i blocks Hq' Hg (H6 Hl))|].
  intros k x Hk Hk0. exact (block_source_stable s s' x _ Hq Hq' Hg (H7 k x Hk Hk0)).
Qed.

(** A later step leaves the directories and files there are. *)
Lemma tree_step_keeps s s' ino taken : fs_ready s -> tree_step s s' ino taken ->
  (forall n es, n <> ino -> dir_at s n es -> dir_at s' n es) /\
  (forall n len f blocks, n <> ino -> file_at s n len f blocks -> file_at s' n len f blocks).
Proof.
  intros Hrd [A _ C G _ _ _ _ _ _].
  assert (forall n, n <> ino -> itab s' !! inode_key s n = itab s !! inode_key s n) as Hi.
  { intros n Hne. apply C. intros E. apply Hne. refine (inode_key_inj s _ _ _ E).
    exact (proj1 (geo_inodes _ _ (fs_geometry _ (rd_ok _ Hrd)))). }
  split.
  - intros n es Hne Hd. apply (dir_at_stable s); auto using rd_queue.
  - intros n len f blocks Hne Hf. apply (file_at_stable s); auto using rd_queue.
Qed.

(** An inode and its record: the number is free, the record zero. *)
Lemma new_inode_spec s : tree_ready_fs s -> (exists y, free_inode s y) ->
  exists ino s1 s2, allocate_inode s = Ok (Some ino, s1) /\ ino <> EXT4_ALLOCATE_FAILED /\
    get_inode ino s1 = Ok (Some (inode_key s ino), s2) /\
    read_inode (inode_key s ino) s2 = Ok (Some zero_inode, s2) /\ kept s s2 /\ free_inode s ino /\
    (forall y, free_inode s2 y <-> free_inode s y /\ y <> ino).
Proof.
  intros Htf Hfree. pose proof (tf_ready _ Htf) as Hrd. pose proof (tf_total _ Htf) as Htot.
  destruct (allocate_inode_kept s Hrd Htot Hfree) as (ino & s1 & E1 & K1 & Hin & Hfi & Hfree1).
  pose proof (kp_globals _ _ K1) as (_ & Ei & Ea & _).
  destruct (get_inode_spec s1 ino (kp_ready _ _ K1)) as (s2 & E2 & K2 & SC & _);
    [unfold inode_in_range; rewrite Ei, Ea; exact Hin|rewrite Ei, Ea; lia|].
  assert (inode_key s1 ino = inode_key s ino) as Ek by (unfold inode_key; rewrite Ei; reflexivity). rewrite Ek in E2.
  exists ino, s1, s2. pose proof (image_kept_trans _ _ _ K1 K2) as K. split; [exact E1|].
  split; [unfold EXT4_ALLOCATE_FAILED; destruct Hin; lia|]. split; [exact E2|].
  split; [unfold read_inode; rewrite (kp_itab _ _ K), (tf_itab _ Htf ino Hfi); reflexivity|].
  split; [exact K|]. split; [exact Hfi|]. intros y.
  rewrite (same_counts_free_inode s1 s2 y (rd_ok _ (kp_ready _ _ K1)) (kp_globals _ _ K2) SC). apply Hfree1.
Qed.

(** Writing the record of the new inode. *)
Lemma record_step s s2 ino i : kept s s2 -> (forall y, free_inode s2 y <-> free_inode s y /\ y <> ino) ->
  tree_step s (set_itab s2 (inode_key s ino) i) ino [].
Proof.
  intros [[A B C D E F G H Hd] HL] Hf. split; auto; cbn.
  - apply ready_itab, A.
  - intros k Hk. rewrite lookup_insert_ne by congruence. rewrite F. reflexivity.
  - destruct D as [D1 D2 D3]. split; auto.
  - intros x Hx. apply elem_of_nil in Hx. contradiction.
  - intros x. change (free_block (set_itab s2 (inode_key s ino) i) x) with (free_block s2 x). rewrite C, elem_of_nil. tauto.
  - destruct Hd as [H1 H2 H3]. split; [exact H1|exact H2|exact H3].
Qed.

Lemma extents_step s s2 s3 ino i i' i'' blocks T len : kept s s2 ->
  (forall y, free_inode s2 y <-> free_inode s y /\ y <> ino) -> file_made s2 s3 i i' blocks T len ->
  tree_step s (set_itab s3 (inode_key s ino) i'') ino (T ++ blocks).
Proof.
  intros K Hf [M1 M2 M3 M4 M5 M6 M7 M8 M9 M10 M11 M12 M13 M14 M15]. pose proof (kp_fresh _ _ K).
  split; [apply ready_itab, M1|exact (same_globals_trans _ _ _ (kp_globals _ _ K) M2)| | | | | |cbn; lia| |].
  - intros k Hk. cbn. rewrite lookup_insert_ne by congruence. rewrite M12, (kp_itab _ _ K). reflexivity.
  - apply (image_grows_trans _ _ _ (kp_grows _ _ K)). apply (image_grows_trans _ _ _ M9), itab_grows.
  - intros x Hx. apply (kp_free _ _ K), M6. exact Hx.
  - intros x. change (free_block (set_itab s3 (inode_key s ino) i'') x) with (free_block s3 x). rewrite M7, (kp_free _ _ K). tauto.
  - intros y. change (free_inode (set_itab s3 (inode_key s ino) i'') y) with (free_inode s3 y).
    rewrite (groups_step_free_inode s2 s3 y (rd_ok _ (kp_ready _ _ K)) (rd_ok _ M1) M2 M11). apply Hf.
  - apply (header_kept_trans _ _ _ (kp_header _ _ K)).
    destruct (queues_free_header s2 s3 (kp_ready _ _ K) M1 M2 M11 M10) as [H1 H2 H3]. split; [exact H1|exact H2|exact H3].
  - intros HL. exact (group_layout_step s2 s3 M2 M9 (groups_step_places _ _ M11) (kp_layout _ _ K HL)).
Qed.

Lemma size_halves len : 0 <= len < 2 ^ 63 -> u32 len + 2 ^ 32 * u32 (Z.shiftr len 32) = len.
Proof.
  intros H. rewrite Z.shiftr_div_pow2 by lia. rewrite (u32_id (len / 2 ^ 32)).
  - unfold u32. pose proof (Z.div_mod len (2 ^ 32) ltac:(lia)). lia.
  - split; [apply Z.div_pos; lia|apply Z.div_lt_upper_bound; lia].
Qed.

Lemma make_file_spec s filename len : tree_ready_fs s -> (exists y, free_inode s y) -> 0 <= len < 2 ^ 63 ->
  DIV_ROUND_UP len (block_size (info s)) + 1 < 2 ^ 31 ->
  (0 < len -> can_hold s (DIV_ROUND_UP len (block_size (info s)) + 1) = true) ->
  exists ino s' blocks taken, make_file filename len s = Ok (Some ino, s') /\ free_inode s ino /\
    file_at s' ino len filename blocks /\ tree_step s s' ino taken.
Proof.
  intros Htf Hfree Hlen Hn Hcan.
  destruct (new_inode_spec s Htf Hfree) as (ino & s1 & s2 & E1 & Hne & E2 & E3 & K & Hfi & Hf).
  pose proof (kp_globals _ _ K) as (_ & Ei & Ea & _). set (key := inode_key s ino) in *.
  destruct (decide (0 < len)) as [Hpos|Hz].
  - destruct (file_extents_spec s2 zero_inode len filename (kp_ready _ _ K) eq_refl ltac:(lia))
      as (i' & s3 & blocks & T & E4 & Hfm & Hsrc); [rewrite Ei; exact Hn|rewrite Ei, (can_hold_kept _ _ _ K); exact (Hcan Hpos)|].
    set (i'' := set_mode i' S_IFREG 1 (Z.lor (i_flags i') (default_i_flags (aux_info s)))).
    exists ino, (set_itab s3 key i''), blocks, (T ++ blocks).
    split; [|split; [exact Hfi|split; [|exact (extents_step s s2 s3 ino _ i' i'' blocks T len K Hf Hfm)]]].
    + unfold make_file, bind at 1, get_state. rewrite (bind_eq _ _ _ _ _ E1), (proj2 (Z.eqb_neq _ _) Hne).
      rewrite (bind_eq _ _ _ _ _ E2), (bind_eq _ _ _ _ _ E3), (proj2 (Z.ltb_lt 0 len) Hpos), (bind_eq _ _ _ _ _ E4). reflexivity.
    + pose proof (fm_globals _ _ _ _ _ _ _ Hfm) as (_ & Ei3 & _). destruct (fm_inode _ _ _ _ _ _ _ Hfm) as (b & _ & Eb).
      exists i''. assert (inode_key (set_itab s3 key i'') ino = key) as -> by (unfold key, inode_key; cbn; rewrite Ei3, Ei; reflexivity).
      split; [apply lookup_insert_eq|]. split; [reflexivity|]. split; [reflexivity|].
      split; [unfold i''; rewrite Eb; exact (size_halves len Hlen)|]. cbn [info set_itab]. rewrite Ei3, Ei.
      split; [rewrite (fm_count _ _ _ _ _ _ _ Hfm), Ei; reflexivity|].
      split; [intros _; exact (fm_blocks _ _ _ _ _ _ _ Hfm)|].
      intros k x Hk Hk0. rewrite <- Ei. exact (Hsrc k x Hk Hk0).
  - assert (len = 0) as -> by lia.
    set (i'' := set_mode zero_inode S_IFREG 1 (Z.lor (i_flags zero_inode) (default_i_flags (aux_info s)))).
    exists ino, (set_itab s2 key i''), [], []. split; [|split; [exact Hfi|split; [|exact (record_step s s2 ino i'' K Hf)]]].
    + unfold make_file, bind at 1, get_state. rewrite (bind_eq _ _ _ _ _ E1), (proj2 (Z.eqb_neq _ _) Hne).
      rewrite (bind_eq _ _ _ _ _ E2), (bind_eq _ _ _ _ _ E3). reflexivity.
    + exists i''. assert (inode_key (set_itab s2 key i'') ino = key) as -> by (unfold key, inode_key; cbn; rewrite Ei; reflexivity).
      split; [apply lookup_insert_eq|]. repeat (split; [reflexivity|]). cbn [info set_itab].
      pose proof (tf_bs _ Htf). rewrite Ei. split; [|split; [lia|discriminate]].
      unfold DIV_ROUND_UP. symmetry. apply Z.div_small. lia.
Qed.

(** C22: [make_file] makes a regular file: a reader of the image finds the size,
    and behind the extents of its inode exactly the blocks of the source file,
    in order; the blocks and the inode were free, and every other directory and
    file is as before. *)
Theorem make_file_correct s filename len : tree_ready_fs s -> (exists y, free_inode s y) -> 0 <= len < 2 ^ 63 ->
  DIV_ROUND_UP len (block_size (info s)) + 1 < 2 ^ 31 ->
  (0 < len -> can_hold s (DIV_ROUND_UP len (block_size (info s)) + 1) = true) ->
  exists ino s' blocks taken, make_file filename len s = Ok (Some ino, s') /\ free_inode s ino /\
    file_at s' ino len filename blocks /\ tree_step s s' ino taken /\
    (forall n es, n <> ino -> dir_at s n es -> dir_at s' n es) /\
    (forall n l f bl, n <> ino -> file_at s n l f bl -> file_at s' n l f bl).
Proof.
  intros Htf Hfree Hlen Hn Hcan. destruct (make_file_spec s filename len Htf Hfree Hlen Hn Hcan)
    as (ino & s' & blocks & taken & E & Hfi & Hf & T).
  exists ino, s', blocks, taken. repeat (split; [assumption|]).
  exact (tree_step_keeps s s' ino taken (tf_ready _ Htf) T).
Qed.

(** A file of five blocks. *)
Lemma make_file_correct_witness :
  exists ino s' blocks taken, make_file "init" 300 ext_fs = Ok (Some ino, s') /\
    file_at s' ino 300 "init" blocks /\ tree_step ext_fs s' ino taken.
Proof.
  destruct (make_file_correct ext_fs "init" 300 ext_fs_tree) as (ino & s' & blocks & taken & E & _ & Hf & T & _).
  - exists 1, 0, (default zero_bg (bgs ext_fs !! 0%nat)). vm_compute. repeat split; congruence.
  - lia.
  - vm_compute. reflexivity.
  - intros _. vm_compute. reflexivity.
  - exists ino, s', blocks, taken. split; [exact E|]. split; [exact Hf|exact T].
Defined.


End Ext4Tree.
