(* ===== verification/Ext4Links.v ===== *)
(** * ext4_utils: symbolic links

    Theorems on [make_link] (contents.c): a target that fits is stored in the
    inode, a longer one in a block that the inode lists directly
    ([inode_allocate_data_indirect], indirect.c). *)

From S2P Require Import Prelude BackedBlock SparseFile Ext4Utils Ext4Alloc Ext4AllocBits Ext4AllocProps Ext4AllocLists Ext4Extent Ext4ExtentProps Ext4ExtentFiles Ext4Indirect Ext4Contents Ext4ContentsProps Ext4Dirs Ext4Tree.

Module Ext4Links.
Import Ext4Utils Ext4Alloc Ext4AllocBits Ext4AllocProps Ext4AllocLists Ext4Extent Ext4ExtentProps
  Ext4ExtentFiles Ext4Indirect Ext4Contents Ext4ContentsProps Ext4Dirs Ext4Tree.

(** ** One block without an extent tree *)

Lemma chain_tree_ready s s1 a l n : fs_ready s -> new_chain s s1 a l n ->
  tree_ready s s1 (mk_alloc (mk_list (Some a) (Some a) (Some a) 0) empty_list) l [] n.
Proof.
  intros Hrd (Hl & Hal & Ht & Hh & _ & _). pose proof (rd_ok _ Hrd) as Hfs. split; cbn [list_ iter first partial_iter app oob_list].
  - auto.
  - exact (lseg_fseg _ _ _ _ _ Hl).
  - exact Ht.
  - exact (al_ok _ _ _ Hal).
  - exact (al_globals _ _ _ Hal).
  - exact (al_sparse _ _ _ Hal).
  - split; [exact (al_fresh _ _ _ Hal)|exact Hh].
  - exact (al_nodup _ _ _ Hal).
  - exact (al_free _ _ _ Hal).
  - exact (al_were_free _ _ _ Hal).
  - intros a' b n' g. exact (allocated_node _ _ _ a' b n' g Hfs Hal).
  - exact (allocated_step _ _ _ Hal).
  - exists []. split; [reflexivity|]. intros c Hc. inversion Hc.
Qed.

Lemma create_loop_same fuel : forall alloc p len s, 0 <= len < 2 ^ 32 ->
  create_backing_loop fuel alloc p len s = backing_loop fuel alloc p len s.
Proof.
  induction fuel as [|fuel IH]; intros alloc p len s Hlen; [reflexivity|].
  cbn [create_backing_loop backing_loop]. destruct (0 <? len); [|reflexivity].
  unfold bind at 1 5, get_state. unfold bind at 1 4.
  destruct (get_region alloc s) as [[[[rb rl]|] s1]| | |]; try reflexivity.
  pose proof (u32_range (rl * block_size (info s))). set (k := Z.min _ len).
  assert (0 <= k <= len) as Hk by (unfold k; lia). rewrite (u32_id k) by lia. unfold bind at 1 3.
  destruct (sparse_add_data p k rb s1) as [[[[]|] s2]| | |]; try reflexivity. unfold bind.
  destruct (get_next_region alloc s2) as [[[a|] s3]| | |]; try reflexivity.
  rewrite u32_id, u64_id by lia. apply IH. lia.
Qed.

(** A chain of one block is one region. *)
Lemma chain_one s s1 a l : fs_ready s -> new_chain s s1 a l 1 -> exists b g, l = [(a, (b, 1, g))].
Proof.
  intros Hrd (Hl & Hal & Ht & _). destruct l as [|[a' [[b n] g]] l]; [discriminate|].
  destruct Hl as ([= <-] & _). exists b, g.
  destruct (al_nodes _ _ _ Hal a b n g ltac:(left)) as (_ & Hn & _).
  change (total_len ((a, (b, n, g)) :: l)) with (n + total_len l) in Ht.
  destruct l as [|[a2 [[b2 n2] g2]] l].
  - change (total_len []) with 0 in Ht. replace n with 1 by lia. reflexivity.
  - destruct (al_nodes _ _ _ Hal a2 b2 n2 g2 ltac:(right; left)) as (_ & Hn2 & _).
    change (total_len ((a2, (b2, n2, g2)) :: l)) with (n2 + total_len l) in Ht.
    assert (0 <= total_len l); [|lia]. apply total_len_nonneg, (small_of_nodes _ l (rd_group _ Hrd)).
    intros c d m h Hin. apply (allocated_node _ _ _ c d m h (rd_ok _ Hrd) Hal). right; right; exact Hin.
Qed.

(** Moving over the only region. *)
Lemma advance_one s a b g o : heap s !! a = Some (mk_region b 1 g None None) ->
  advance_blocks (mk_alloc (mk_list (Some a) (Some a) (Some a) 0) o) 1 s =
    Ok (Some (0, mk_alloc (mk_list (Some a) (Some a) (Some a) 0) o), s).
Proof.
  intros Ha. unfold advance_blocks, advance_list_ptr.
  assert (exists m, list_fuel s = S (S m)) as (m & Em).
  { unfold list_fuel. destruct (size (heap s)) eqn:E; [|eauto]. apply map_size_empty_iff in E.
    rewrite E, lookup_empty in Ha. discriminate. }
  unfold bind, get_state. rewrite Em. cbn. unfold deref, bind. rewrite Ha. reflexivity.
Qed.

(** The block is listed in the inode. *)
Lemma attach_one s a b g i o : heap s !! a = Some (mk_region b 1 g None None) -> 0 <= b < 2 ^ 32 - 1 ->
  zlen (i_block i) = 60 ->
  do_inode_attach_indirect i (mk_alloc (mk_list (Some a) (Some a) (Some a) 0) o) 1 s =
    Ok (Some (0, set_iblock i (le_bytes 4 b ++ drop 4 (i_block i)),
              mk_alloc (mk_list (Some a) (Some a) (Some a) 0) o), s).
Proof.
  intros Ha Hb Hi. set (al := mk_alloc _ o).
  assert (fseg (heap s) (Some a) [(a, (b, 1, g))] None) as Hseg
    by (split; [reflexivity|]; exists None, None; split; [exact Ha|reflexivity]).
  assert (get_block al 0 s = Ok (Some b, s)) as Eg.
  { unfold get_block. rewrite (get_list_block_spec s (list_ al) [(a, (b, 1, g))] 0 Hseg); [reflexivity| |lia|cbn; lia|cbn; lia].
    intros a' b' n' g' Hin. apply list_elem_of_singleton in Hin as [= -> -> -> ->]. lia. }
  assert (set_block i 0 b s = Ok (Some (set_iblock i (le_bytes 4 b ++ drop 4 (i_block i))), s)) as Es.
  { unfold set_block, bind, lift. rewrite Z.mul_0_r, splice_zero by (autorewrite with zlen; lia). reflexivity. }
  unfold do_inode_attach_indirect, inode_attach_direct_blocks.
  change (Z.min 1 EXT4_NDIR_BLOCKS) with 1. change (seqZ 0 1) with [0].
  assert (attach_loop [0] i al s = Ok (Some (set_iblock i (le_bytes 4 b ++ drop 4 (i_block i))), s)) as El
    by (cbn [attach_loop]; rewrite (bind_eq _ _ _ _ _ Eg), (bind_eq _ _ _ _ _ Es); reflexivity).
  unfold bind at 1. rewrite (bind_eq _ _ _ _ _ El), (bind_eq _ _ _ _ _ (advance_one s a b g o Ha)). reflexivity.
Qed.

(** A block of contents, listed directly. *)
Lemma data_indirect_spec s i : fs_ready s -> zlen (i_block i) = 60 -> can_hold s 1 = true ->
  exists b data s' fake fake', let bs := block_size (info s) in
    inode_allocate_data_indirect i bs bs s =
      Ok (Some (Some data, set_iblock i (le_bytes 4 b ++ drop 4 (i_block i))), s') /\
    file_made s s' fake fake' [b] [] bs /\ mem s' !! data = Some (zeros bs) /\
    block_source s' b = Some (from_memory data) /\ fresh s <= data < fresh s' /\ 0 <= b < 2 ^ 32 - 1.
Proof.
  intros Hrd Hib Hcan. pose proof (rd_ok _ Hrd) as Hfs. pose proof (rd_leaf _ Hrd) as Hlf.
  pose proof (geo_groups _ _ (fs_geometry _ Hfs)) as Hgr. set (bs := block_size (info s)) in *.
  pose proof (allocate_blocks_spec s 1 Hfs (rd_memory _ Hrd) (rd_fresh _ Hrd) (unused_roomy_free _ (rd_roomy _ Hrd)) ltac:(lia)) as Hal.
  rewrite Hcan in Hal. destruct Hal as (a & s1 & l & Eal & Hc).
  destruct (chain_one s s1 a l Hrd Hc) as (b & g & ->).
  pose proof (chain_tree_ready s s1 a _ 1 Hrd Hc) as Htr. set (al := mk_alloc _ empty_list) in *.
  assert (DIV_ROUND_UP bs bs = 1) as Ed by (apply div_round_up_self; lia).
  destruct (write_tree_small s s1 al [(a, (b, 1, g))] [] bs i Hrd) as (fk & _ & Hfa);
    [fold bs; rewrite Ed; exact Htr|exact Hib|fold bs; rewrite Ed; lia|change (zlen [(a, (b, 1, g))]) with 1; lia|reflexivity|vm_compute; discriminate|].
  destruct (fa_nodes _ _ _ _ _ _ _ _ Hfa a b 1 g ltac:(left)) as (_ & Hb & _).
  assert (b < 2 ^ 32 - 1) as Hb2.
  { assert (free_block s b) as (j & c & Hj & Hcj & Hr).
    { apply (fa_were_free _ _ _ _ _ _ _ _ Hfa). cbn [app]. rewrite blocks_of_cons. apply elem_of_app. left. apply elem_of_seqZ. lia. }
    pose proof (run_start_bound s j c Hfs Hj Hcj). lia. }
  destruct (allocated_globals s s1 al i fk _ [] bs bs Hrd Hfa ltac:(lia)) as (Ei & Hm & Hbs & Hcov).
  assert (0 <= bs) as Hb0 by lia. assert (bs < 2 ^ 63) as Hb63 by lia.
  set (d := fresh s1). set (s2 := set_mem (set_fresh s1 (d + Z.max 1 bs)) d (zeros bs)).
  assert (calloc bs s1 = Ok (Some (Some d), s2)) as Ec by (unfold calloc; rewrite Hm; reflexivity).
  assert (queue_inv s2) as Hq2
    by (apply (queue_inv_mono s1); try reflexivity; [exact (fa_queue _ _ _ _ _ _ _ _ Hfa)|cbn; unfold d; lia|auto]).
  destruct (data_loop_spec s2 (Some a) (Some a) empty_list [(a, (b, 1, g))] d bs Hm Hq2 Hbs (fa_seg _ _ _ _ _ _ _ _ Hfa)
    (allocated_takeable _ _ _ _ _ _ _ _ Hrd Hfa) (conj Hb0 Hcov) Hb63) as (p' & s3 & El & Hq3 & Hm3 & Ho3 & Hh).
  pose proof Hm3 as [Hg3 Hb3 Hh3 (Em3 & Et3) Hf3 Hi3]. cbn in Hf3.
  pose proof (fa_mem _ _ _ _ _ _ _ _ Hfa) as Hmf.
  destruct (finish_file s s1 s3 al al i fk _ [] bs Hrd Hfa) as (h & Ef & Hmade & _); try reflexivity; auto.
  - unfold d in *. lia.
  - intros c x Hx. rewrite Em3 in Hx. cbn in Hx. destruct (decide (c = d)) as [->|Hne]; [lia|].
    rewrite lookup_insert_ne in Hx by congruence. specialize (Hmf c x Hx). unfold d in *. lia.
  - split; [apply Hg3|exact Hi3|]. intros c x Hx. rewrite Em3. cbn. specialize (Hmf c x Hx).
    rewrite lookup_insert_ne; [exact Hx|unfold d; lia].
  - exists b, d, (set_heap s3 h), i, fk. cbv zeta. split; [|split; [exact Hmade|]].
    + unfold inode_allocate_data_indirect, bind at 1, get_state. fold bs. rewrite (proj2 (Z.eqb_neq bs 0)) by lia.
      assert (div_round_up32 bs bs = 1) as E1.
      { unfold div_round_up32. rewrite (u32_id (bs + bs)), u32_id by lia. exact Ed. }
      rewrite E1.
      assert (do_inode_allocate_indirect 1 s = Ok (Some (Some al), s1)) as E2.
      { unfold do_inode_allocate_indirect. change (indirect_blocks_needed 1) with (let* s := get_state in ret 0).
        unfold bind at 1 2, get_state, ret. change (u32 (1 + 0)) with 1. rewrite (bind_eq _ _ _ _ _ Eal). reflexivity. }
      rewrite (bind_eq _ _ _ _ _ E2). cbn [negb].
      assert (create_backing al bs s1 = Ok (Some (d, mk_alloc (mk_list (Some a) (Some a) p' 0) empty_list), s3)) as E3.
      { unfold create_backing, bind at 1, get_state. rewrite Ei. fold bs. rewrite (proj2 (Z.eqb_neq bs 0)), E1 by lia.
        change (EXT4_NDIR_BLOCKS <? 1) with false. cbv iota. rewrite (bind_eq _ _ _ _ _ Ec). unfold bind at 1.
        unfold bind. rewrite create_loop_same by lia. unfold al. rewrite El. reflexivity. }
      assert (bind (create_backing al bs) (fun x => let (d0, alloc) := x in ret (Some d0, alloc)) s1 =
        Ok (Some (Some d, mk_alloc (mk_list (Some a) (Some a) p' 0) empty_list), s3)) as E4
        by (rewrite (bind_eq _ _ _ _ _ E3); reflexivity).
      rewrite (bind_eq _ _ _ _ _ E4). cbn [rewind_alloc list_ first last oob_list].
      assert (heap s3 !! a = Some (mk_region b 1 g None None)) as Ha.
      { rewrite Hh3. destruct (fa_seg _ _ _ _ _ _ _ _ Hfa) as (_ & nx & pv & Ha & Hn). cbn in Hn. subst nx.
        cbn. rewrite Ha. f_equal. f_equal.
        destruct Hc as ((_ & pv' & Ha' & _) & _). rewrite Ha in Ha'. congruence. }
      rewrite (bind_eq _ _ _ _ _ (attach_one s3 a b g i empty_list Ha (conj Hb Hb2) Hib)). cbn [Z.eqb negb].
      rewrite (bind_eq (ret tt) _ s3 tt s3 eq_refl). fold al. rewrite (bind_eq _ _ _ _ _ Ef). reflexivity.
    + split; [cbn; rewrite Em3; cbn; apply lookup_insert_eq|]. split.
      * apply (holds_find (set_heap s3 h)); [exact (rd_queue _ (fm_ready _ _ _ _ _ _ _ Hmade))|].
        specialize (Hh 0 b). rewrite Z.mul_0_l, Z.add_0_r in Hh. apply Hh; [reflexivity|]. cbn. rewrite Ei. fold bs. lia.
      * pose proof (fa_fresh_le _ _ _ _ _ _ _ _ Hfa). cbn. unfold d in *. lia.
Qed.

(** ** Links in the image *)

(** What a reader of the format takes the target from. *)
Definition link_target (s : fs) (i : ext4_inode) : option (list Z) :=
  if i_size_lo i <? 60 then Some (take (Z.to_nat (i_size_lo i)) (i_block i))
  else
    match block_source s (le_val (take 4 (i_block i))) with
    | Some (from_memory a) => option_map (take (Z.to_nat (i_size_lo i))) (mem s !! a)
    | _ => None
    end.

Definition link_at (s : fs) (ino : Z) (target : list Z) : Prop :=
  exists i, itab s !! inode_key s ino = Some i /\ i_mode i = S_IFLNK /\ i_links_count i = 1 /\
    link_target s i = Some target.

Lemma link_at_stable s s' ino t : link_at s ino t -> queue_inv s -> queue_inv s' -> image_grows s s' ->
  itab s' !! inode_key s ino = itab s !! inode_key s ino -> link_at s' ino t.
Proof.
  intros (i & H1 & H2 & H3 & H4) Hq Hq' Hg Hi. pose proof Hg as [Ei _ Hm]. exists i.
  assert (inode_key s' ino = inode_key s ino) as -> by (unfold inode_key; rewrite Ei; reflexivity).
  rewrite Hi. repeat (split; [assumption|]). unfold link_target in *. destruct (i_size_lo i <? 60); [exact H4|].
  destruct (block_source s _) as [[a|f o]|] eqn:E; try discriminate.
  rewrite (block_source_stable s s' _ _ Hq Hq' Hg E). destruct (mem s !! a) as [b|] eqn:Eb; [|discriminate].
  rewrite (Hm a b Eb). exact H4.
Qed.

Lemma tree_step_mem s s' ino taken a buf : tree_step s s' ino taken -> mem s !! a = None -> a < fresh s' ->
  tree_step s (set_mem s' a buf) ino taken.
Proof.
  intros [A B C D W F I Fr Hd HL] Ha Hf. split; auto; [apply ready_mem; assumption|apply put_grows; assumption|].
  destruct Hd as [H1 H2 H3]. split; [exact H1|exact H2|exact H3].
Qed.

Lemma make_link_spec s target : tree_ready_fs s -> (exists y, free_inode s y) -> 0 < zlen target ->
  zlen target <= block_size (info s) \/ zlen target < 60 -> (60 <= zlen target -> can_hold s 1 = true) ->
  exists ino s' taken, make_link target s = Ok (Some ino, s') /\ free_inode s ino /\
    link_at s' ino target /\ tree_step s s' ino taken.
Proof.
  intros Htf Hfree Hpos Hlen Hcan. pose proof (rd_leaf _ (tf_ready _ Htf)) as Hlf.
  assert (zlen target < 2 ^ 16) as Hsm by lia.
  destruct (new_inode_spec s Htf Hfree) as (ino & s1 & s2 & E1 & Hne & E2 & E3 & K & Hfi & Hf).
  pose proof (kp_globals _ _ K) as (_ & Ei & Ea & _). set (key := inode_key s ino) in *.
  set (i0 := set_link zero_inode (zlen target) (default_i_flags (aux_info s))).
  assert (forall s', info s' = info s -> inode_key s' ino = key) as Ekey
    by (intros s' E; unfold key, inode_key; rewrite E; reflexivity).
  destruct (Z.lt_ge_cases (zlen target) 60) as [Hfast|Hslow].
  - set (i'' := set_iblock i0 (target ++ drop (length target) (zeros 60))).
    exists ino, (set_itab s2 key i''), []. split; [|split; [exact Hfi|split; [|exact (record_step s s2 ino i'' K Hf)]]].
    + unfold make_link, bind at 1, get_state. rewrite (bind_eq _ _ _ _ _ E1), (proj2 (Z.eqb_neq _ _) Hne).
      rewrite (bind_eq _ _ _ _ _ E2), (bind_eq _ _ _ _ _ E3). rewrite (u32_id (zlen target)), u32_id by lia.
      rewrite (proj2 (Z.leb_le _ _)) by lia. fold i0.
      assert (lift (splice (i_block i0) 0 target) s2 = Ok (Some (target ++ drop (length target) (zeros 60)), s2)) as El
        by (unfold lift; cbn [i_block i0 set_link zero_inode]; rewrite splice_zero by (change (zlen (zeros 60)) with 60; lia); reflexivity).
      rewrite (bind_eq _ _ _ _ _ El). reflexivity.
    + exists i''. rewrite (Ekey (set_itab s2 key i'') Ei). split; [apply lookup_insert_eq|].
      split; [reflexivity|]. split; [reflexivity|]. unfold link_target. cbn [i_size_lo i_block i'' set_iblock i0 set_link].
      rewrite (proj2 (Z.ltb_lt _ _)) by lia. unfold zlen. rewrite Nat2Z.id, take_app_length. reflexivity.
  - destruct (data_indirect_spec s2 i0 (kp_ready _ _ K) eq_refl) as (b & data & s3 & fk & fk' & E4 & Hfm & Hmem & Hsrc & Hdata & Hb);
      [rewrite (can_hold_kept _ _ _ K); exact (Hcan Hslow)|]. cbv zeta in *. rewrite Ei in *.
    set (bs := block_size (info s)) in *. set (i1 := set_iblock i0 _) in *.
    set (buf := target ++ drop (length target) (zeros bs)). set (i'' := set_blocks_lo i1 (bs / 512)).
    exists ino, (set_itab (set_mem s3 data buf) key i''), ([] ++ [b]). pose proof (fm_globals _ _ _ _ _ _ _ Hfm) as (_ & Ei3 & _).
    pose proof (kp_fresh _ _ K).
    assert (mem s !! data = None) as Hnone.
    { destruct (mem s !! data) as [x|] eqn:Ex; [|reflexivity]. pose proof (rd_mem _ (tf_ready _ Htf) data x Ex). lia. }
    split; [|split; [exact Hfi|split]].
    + unfold make_link, bind at 1, get_state. rewrite (bind_eq _ _ _ _ _ E1), (proj2 (Z.eqb_neq _ _) Hne).
      rewrite (bind_eq _ _ _ _ _ E2), (bind_eq _ _ _ _ _ E3). rewrite (u32_id (zlen target)), u32_id by lia.
      rewrite (proj2 (Z.leb_gt _ _)) by lia. fold i0 bs. rewrite (bind_eq _ _ _ _ _ E4).
      rewrite (bind_eq (lift (oof (Some data))) _ s3 data s3 eq_refl).
      assert (copy_mem data target s3 = Ok (Some tt, set_mem s3 data buf)) as Ec.
      { unfold copy_mem, bind at 1, get_state. unfold bind at 1, lift. rewrite Hmem. cbn [oof obind]. unfold bind.
        rewrite splice_zero by (rewrite zlen_zeros by lia; lia). reflexivity. }
      rewrite (bind_eq _ _ _ _ _ Ec). reflexivity.
    + exists i''. rewrite (Ekey (set_itab (set_mem s3 data buf) key i'')) by (cbn; congruence).
      split; [apply lookup_insert_eq|]. split; [reflexivity|]. split; [reflexivity|].
      unfold link_target. cbn [i_size_lo i_block i'' i1 set_blocks_lo set_iblock i0 set_link].
      rewrite (proj2 (Z.ltb_ge _ _)) by lia.
      rewrite (take_app_length' (le_bytes 4 b)) by (rewrite le_bytes_length; reflexivity).
      rewrite le_val_bytes_id by (change (256 ^ Z.of_nat 4) with (2 ^ 32); lia).
      change (block_source (set_itab (set_mem s3 data buf) key i'') b) with (block_source s3 b). rewrite Hsrc.
      cbn [mem set_itab set_mem]. rewrite lookup_insert_eq. cbn [option_map].
      unfold zlen, buf. rewrite Nat2Z.id, take_app_length. reflexivity.
    + change (set_itab (set_mem s3 data buf) key i'') with (set_mem (set_itab s3 key i'') data buf).
      apply tree_step_mem; [|exact Hnone|cbn; lia].
      exact (extents_step s s2 s3 ino fk fk' i'' [b] [] bs K Hf Hfm).
Qed.

(** C37: [make_link] makes a symbolic link: a reader of the image finds the whole
    target, in the inode or in the block the inode lists, and every other
    directory, file and link is as before. *)
Theorem make_link_correct s target : tree_ready_fs s -> (exists y, free_inode s y) -> 0 < zlen target ->
  zlen target <= block_size (info s) \/ zlen target < 60 -> (60 <= zlen target -> can_hold s 1 = true) ->
  exists ino s' taken, make_link target s = Ok (Some ino, s') /\ free_inode s ino /\
    link_at s' ino target /\ tree_step s s' ino taken /\
    (forall n es, n <> ino -> dir_at s n es -> dir_at s' n es) /\
    (forall n l f bl, n <> ino -> file_at s n l f bl -> file_at s' n l f bl) /\
    (forall n t, n <> ino -> link_at s n t -> link_at s' n t).
Proof.
  intros Htf Hfree Hpos Hlen Hcan. destruct (make_link_spec s target Htf Hfree Hpos Hlen Hcan)
    as (ino & s' & taken & E & Hfi & Hl & T). pose proof (tf_ready _ Htf) as Hrd.
  exists ino, s', taken. repeat (split; [assumption|]).
  destruct (tree_step_keeps s s' ino taken Hrd T) as (H1 & H2). split; [exact H1|]. split; [exact H2|].
  intros n t Hne Hn. destruct T as [A _ C G _ _ _ _]. apply (link_at_stable s); auto using rd_queue.
  apply C. intros E'. apply Hne. refine (inode_key_inj s _ _ _ E').
  exact (proj1 (geo_inodes _ _ (fs_geometry _ (rd_ok _ Hrd)))).
Qed.

(** A link that needs a block. *)
Lemma make_link_correct_witness :
  exists ino s' taken, make_link (repeat 97 62) ext_fs = Ok (Some ino, s') /\
    link_at s' ino (repeat 97 62) /\ tree_step ext_fs s' ino taken.
Proof.
  destruct (make_link_correct ext_fs (repeat 97 62) ext_fs_tree) as (ino & s' & taken & E & _ & Hl & T & _).
  - exists 1, 0, (default zero_bg (bgs ext_fs !! 0%nat)). vm_compute. repeat split; congruence.
  - vm_compute. reflexivity.
  - left. vm_compute. discriminate.
  - intros _. vm_compute. reflexivity.
  - exists ino, s', taken. split; [exact E|]. split; [exact Hl|exact T].
Defined.


End Ext4Links.
