(* ===== verification/Ext4Super.v ===== *)
(** * ext4_utils.c: super block, descriptors, journal and resize inode

    The super block and the group descriptors are buffers of bytes in the layout
    of [struct ext4_super_block] and [struct ext2_group_desc]; a field is a place
    in them. The copies of the super block and the descriptors are queued for the
    image when they are filled in; the counters are stored later, in the buffer
    that is queued. *)

From S2P Require Import Prelude BackedBlock SparseFile Sha1 Ext4Utils Ext4Alloc Ext4Extent Ext4Indirect Ext4Contents.

Module Ext4Super.
Import Ext4Utils Ext4Alloc Ext4Extent Ext4Indirect Ext4Contents.

(** ** Fields of a structure

    A field is its offset and its size in bytes. Numbers are stored with the
    low byte first and cut to the size of the field. *)

Record field := mk_field { f_off : Z; f_size : Z }.

Definition get_field (b : list Z) (f : field) : Z := le_val (sub_bytes b (f_off f) (f_size f)).
Definition put_bytes (f : field) (bs : list Z) (b : list Z) : outcome (list Z) :=
  splice b (f_off f) bs.
Definition put_field (f : field) (v : Z) (b : list Z) : outcome (list Z) :=
  put_bytes f (le_bytes (Z.to_nat (f_size f)) v) b.

(** A sequence of assignments. *)
Fixpoint put_fields (l : list (field * Z)) (b : list Z) : outcome (list Z) :=
  match l with
  | [] => Ok b
  | (f, v) :: l => let! b := put_field f v b in put_fields l b
  end.

(** The field of the [i]-th structure of an array. *)
Definition at_index (size i : Z) (f : field) : field := mk_field (size * i + f_off f) (f_size f).

(** The fields follow each other without gaps; the result is the size. *)
Fixpoint layout_end (off : Z) (l : list field) : option Z :=
  match l with
  | [] => Some off
  | f :: l => if f_off f =? off then layout_end (off + f_size f) l else None
  end.

(** *** [struct ext4_super_block] *)

Definition s_inodes_count : field := mk_field 0 4.
Definition s_blocks_count_lo : field := mk_field 4 4.
Definition s_r_blocks_count_lo : field := mk_field 8 4.
Definition s_free_blocks_count_lo : field := mk_field 12 4.
Definition s_free_inodes_count : field := mk_field 16 4.
Definition s_first_data_block : field := mk_field 20 4.
Definition s_log_block_size : field := mk_field 24 4.
Definition s_obso_log_frag_size : field := mk_field 28 4.
Definition s_blocks_per_group : field := mk_field 32 4.
Definition s_obso_frags_per_group : field := mk_field 36 4.
Definition s_inodes_per_group : field := mk_field 40 4.
Definition s_mtime : field := mk_field 44 4.
Definition s_wtime : field := mk_field 48 4.
Definition s_mnt_count : field := mk_field 52 2.
Definition s_max_mnt_count : field := mk_field 54 2.
Definition s_magic : field := mk_field 56 2.
Definition s_state : field := mk_field 58 2.
Definition s_errors : field := mk_field 60 2.
Definition s_minor_rev_level : field := mk_field 62 2.
Definition s_lastcheck : field := mk_field 64 4.
Definition s_checkinterval : field := mk_field 68 4.
Definition s_creator_os : field := mk_field 72 4.
Definition s_rev_level : field := mk_field 76 4.
Definition s_def_resuid : field := mk_field 80 2.
Definition s_def_resgid : field := mk_field 82 2.
Definition s_first_ino : field := mk_field 84 4.
Definition s_inode_size : field := mk_field 88 2.
Definition s_block_group_nr : field := mk_field 90 2.
Definition s_feature_compat : field := mk_field 92 4.
Definition s_feature_incompat : field := mk_field 96 4.
Definition s_feature_ro_compat : field := mk_field 100 4.
Definition s_uuid : field := mk_field 104 16.
Definition s_volume_name : field := mk_field 120 16.
Definition s_last_mounted : field := mk_field 136 64.
Definition s_algorithm_usage_bitmap : field := mk_field 200 4.
Definition s_prealloc_blocks : field := mk_field 204 1.
Definition s_prealloc_dir_blocks : field := mk_field 205 1.
Definition s_reserved_gdt_blocks : field := mk_field 206 2.
Definition s_journal_uuid : field := mk_field 208 16.
Definition s_journal_inum : field := mk_field 224 4.
Definition s_journal_dev : field := mk_field 228 4.
Definition s_last_orphan : field := mk_field 232 4.
Definition s_hash_seed : field := mk_field 236 16.
Definition s_def_hash_version : field := mk_field 252 1.
Definition s_reserved_char_pad : field := mk_field 253 1.
Definition s_desc_size : field := mk_field 254 2.
Definition s_default_mount_opts : field := mk_field 256 4.
Definition s_first_meta_bg : field := mk_field 260 4.
Definition s_mkfs_time : field := mk_field 264 4.
Definition s_jnl_blocks : field := mk_field 268 68.
Definition s_blocks_count_hi : field := mk_field 336 4.
Definition s_r_blocks_count_hi : field := mk_field 340 4.
Definition s_free_blocks_count_hi : field := mk_field 344 4.
Definition s_min_extra_isize : field := mk_field 348 2.
Definition s_want_extra_isize : field := mk_field 350 2.
Definition s_flags : field := mk_field 352 4.
Definition s_raid_stride : field := mk_field 356 2.
Definition s_mmp_interval : field := mk_field 358 2.
Definition s_mmp_block : field := mk_field 360 8.
Definition s_raid_stripe_width : field := mk_field 368 4.
Definition s_log_groups_per_flex : field := mk_field 372 1.
Definition s_reserved_char_pad2 : field := mk_field 373 1.
Definition s_reserved_pad : field := mk_field 374 2.
Definition s_kbytes_written : field := mk_field 376 8.
Definition s_reserved : field := mk_field 384 640.

Definition ext4_super_block : list field := [
  s_inodes_count; s_blocks_count_lo; s_r_blocks_count_lo; s_free_blocks_count_lo;
  s_free_inodes_count; s_first_data_block; s_log_block_size; s_obso_log_frag_size;
  s_blocks_per_group; s_obso_frags_per_group; s_inodes_per_group; s_mtime; s_wtime; s_mnt_count;
  s_max_mnt_count; s_magic; s_state; s_errors; s_minor_rev_level; s_lastcheck; s_checkinterval;
  s_creator_os; s_rev_level; s_def_resuid; s_def_resgid; s_first_ino; s_inode_size;
  s_block_group_nr; s_feature_compat; s_feature_incompat; s_feature_ro_compat; s_uuid;
  s_volume_name; s_last_mounted; s_algorithm_usage_bitmap; s_prealloc_blocks; s_prealloc_dir_blocks;
  s_reserved_gdt_blocks; s_journal_uuid; s_journal_inum; s_journal_dev; s_last_orphan; s_hash_seed;
  s_def_hash_version; s_reserved_char_pad; s_desc_size; s_default_mount_opts; s_first_meta_bg;
  s_mkfs_time; s_jnl_blocks; s_blocks_count_hi; s_r_blocks_count_hi; s_free_blocks_count_hi;
  s_min_extra_isize; s_want_extra_isize; s_flags; s_raid_stride; s_mmp_interval; s_mmp_block;
  s_raid_stripe_width; s_log_groups_per_flex; s_reserved_char_pad2; s_reserved_pad;
  s_kbytes_written; s_reserved].

(** *** [struct ext2_group_desc] *)

Definition bg_block_bitmap : field := mk_field 0 4.
Definition bg_inode_bitmap : field := mk_field 4 4.
Definition bg_inode_table : field := mk_field 8 4.
Definition bg_free_blocks_count : field := mk_field 12 2.
Definition bg_free_inodes_count : field := mk_field 14 2.
Definition bg_used_dirs_count : field := mk_field 16 2.
Definition bg_pad : field := mk_field 18 2.
Definition bg_reserved : field := mk_field 20 12.

Definition ext2_group_desc : list field :=
  [bg_block_bitmap; bg_inode_bitmap; bg_inode_table; bg_free_blocks_count; bg_free_inodes_count;
   bg_used_dirs_count; bg_pad; bg_reserved].

(** *** The journal's [journal_superblock_t], up to the last field that is set *)

Definition h_magic : field := mk_field 0 4.
Definition h_blocktype : field := mk_field 4 4.
Definition s_blocksize : field := mk_field 12 4.
Definition s_maxlen : field := mk_field 16 4.
Definition s_first : field := mk_field 20 4.
Definition s_sequence : field := mk_field 24 4.
Definition s_nr_users : field := mk_field 64 4.

Definition EXT4_SUPER_MAGIC : Z := 0xEF53.
Definition EXT4_VALID_FS : Z := 1.
Definition EXT4_ERRORS_RO : Z := 2.
Definition EXT4_OS_LINUX : Z := 0.
Definition EXT4_DYNAMIC_REV : Z := 1.
Definition EXT4_DEF_RESUID : Z := 0.
Definition EXT4_DEF_RESGID : Z := 0.
Definition EXT4_GOOD_OLD_FIRST_INO : Z := 11.
Definition EXT4_GOOD_OLD_INODE_SIZE : Z := 128.
Definition EXT4_RESIZE_INO : Z := 7.
Definition EXT4_JOURNAL_INO : Z := 8.
Definition DX_HASH_TEA : Z := 2.
Definition EXT4_JNL_BACKUP_BLOCKS : Z := 1.
Definition JBD2_MAGIC_NUMBER : Z := 0xc03b3998.
Definition JBD2_SUPERBLOCK_V2 : Z := 4.

(** [sizeof(struct ext4_inode)] and [sizeof(struct ext4_super_block)]. *)
Definition sizeof_inode : Z := 156.
Definition sizeof_super : Z := 1024.

(** ** The buffers of [aux_info] *)

(** [backup_sb] is the array of pointers; [None] when it could not be
    allocated. *)
Record super := mk_super {
  sb : Z;
  backup_sb : option (list (option Z));
  bg_desc : Z
}.

Definition set_info (s : fs) (i : fs_info) : fs :=
  mk_fs (force s) i (aux_info s) (bgs s) (heap s) (fresh s) (avail s) (sparse_file s)
    (mem s) (itab s).
Definition set_aux (s : fs) (a : fs_aux_info) : fs :=
  mk_fs (force s) (info s) a (bgs s) (heap s) (fresh s) (avail s) (sparse_file s)
    (mem s) (itab s).

(** [ext4_create_fs_aux_info] with the buffers allocated at its end. *)
Definition create_fs_aux_info : M super :=
  let* s := get_state in
  let* aux := lift (ext4_create_fs_aux_info (info s)) in
  let* _ := put_state (set_aux s aux) in
  let* sb := calloc (block_size (info s)) in
  let* p := malloc in
  let backup_sb := match p with
                   | Some _ => Some (replicate (Z.to_nat (groups aux)) None)
                   | None => None
                   end in
  match sb with
  | None => critical_error
  | Some sb =>
      let* d := calloc (block_size (info s) * bg_desc_blocks aux) in
      match d with
      | None => critical_error
      | Some bg_desc => ret (mk_super sb backup_sb bg_desc)
      end
  end.

(** The pointers passed to [free]. *)
Definition ext4_free_fs_aux_info (a : super) : outcome (list Z) :=
  match backup_sb a with
  | None => Undef
  | Some l => Ok (omap id l ++ [sb a; bg_desc a])
  end.

(** ** [ext4_fill_in_sb] *)

(** The buffer a pointer points to, changed. *)
Definition update_mem (p : Z) (f : list Z -> outcome (list Z)) : M unit :=
  let* s := get_state in
  let* b := lift (oof (mem s !! p)) in
  let* b := lift (f b) in
  put_mem p b.

(** The assignments before the name of the volume; [log] is
    [log_2(info.block_size / 1024)]. *)
Definition sb_values1 (i : fs_info) (a : fs_aux_info) (log : Z) : list (field * Z) := [
  (s_inodes_count, inodes_per_group i * groups a);
  (s_blocks_count_lo, len_blocks a);
  (s_r_blocks_count_lo, 0);
  (s_free_blocks_count_lo, 0);
  (s_free_inodes_count, 0);
  (s_first_data_block, first_data_block a);
  (s_log_block_size, log);
  (s_obso_log_frag_size, log);
  (s_blocks_per_group, blocks_per_group i);
  (s_obso_frags_per_group, blocks_per_group i);
  (s_inodes_per_group, inodes_per_group i);
  (s_mtime, 0);
  (s_wtime, 0);
  (s_mnt_count, 0);
  (s_max_mnt_count, 0xFFFF);
  (s_magic, EXT4_SUPER_MAGIC);
  (s_state, EXT4_VALID_FS);
  (s_errors, EXT4_ERRORS_RO);
  (s_minor_rev_level, 0);
  (s_lastcheck, 0);
  (s_checkinterval, 0);
  (s_creator_os, EXT4_OS_LINUX);
  (s_rev_level, EXT4_DYNAMIC_REV);
  (s_def_resuid, EXT4_DEF_RESUID);
  (s_def_resgid, EXT4_DEF_RESGID);
  (s_first_ino, EXT4_GOOD_OLD_FIRST_INO);
  (s_inode_size, inode_size i);
  (s_block_group_nr, 0);
  (s_feature_compat, feat_compat i);
  (s_feature_incompat, feat_incompat i);
  (s_feature_ro_compat, feat_ro_compat i)].

(** The assignments behind it. *)
Definition sb_values2 (i : fs_info) (a : fs_aux_info) : list (field * Z) := [
  (s_algorithm_usage_bitmap, 0);
  (s_reserved_gdt_blocks, bg_desc_reserve_blocks i);
  (s_prealloc_blocks, 0);
  (s_prealloc_dir_blocks, 0)] ++
  (if negb (Z.land (feat_compat i) EXT4_FEATURE_COMPAT_HAS_JOURNAL =? 0)
   then [(s_journal_inum, EXT4_JOURNAL_INO)] else []) ++ [
  (s_journal_dev, 0);
  (s_last_orphan, 0);
  (mk_field (f_off s_hash_seed) 4, 0);
  (s_def_hash_version, DX_HASH_TEA);
  (s_reserved_char_pad, EXT4_JNL_BACKUP_BLOCKS);
  (s_desc_size, sizeof_group_desc);
  (s_default_mount_opts, 0);
  (s_first_meta_bg, 0);
  (s_mkfs_time, 0);
  (s_blocks_count_hi, Z.shiftr (len_blocks a) 32);
  (s_r_blocks_count_hi, 0);
  (s_free_blocks_count_hi, 0);
  (s_min_extra_isize, sizeof_inode - EXT4_GOOD_OLD_INODE_SIZE);
  (s_want_extra_isize, sizeof_inode - EXT4_GOOD_OLD_INODE_SIZE);
  (s_flags, 0);
  (s_raid_stride, 0);
  (s_mmp_interval, 0);
  (s_mmp_block, 0);
  (s_raid_stripe_width, 0);
  (s_log_groups_per_flex, 0);
  (s_kbytes_written, 0)].

(** [memset] and [strncpy] of at most 16 characters. *)
Definition volume_name (label : list Z) : list Z := take 16 (label ++ zeros 16).

(** The whole of the super block; [stack] is what the hash finds in its
    uninitialised buffer. *)
Definition fill_sb (stack : list Z) (i : fs_info) (a : fs_aux_info) (b : list Z) : outcome (list Z) :=
  let! log := log_2 (block_size i / 1024) in
  let! b := put_fields (sb_values1 i a log) b in
  match label i with
  | None => Undef
  | Some l =>
      let! uuid := Sha1.generate_uuid stack (chars "extandroid/make_ext4fs") (chars l) in
      let! b := put_bytes s_uuid uuid b in
      let! b := put_bytes s_volume_name (volume_name (chars l)) b in
      let! b := put_bytes s_last_mounted (zeros 64) b in
      put_fields (sb_values2 i a) b
  end.

(** [aux_info.backup_sb[i] = p] *)
Definition set_backup (a : super) (i p : Z) : outcome super :=
  match backup_sb a with
  | None => Undef
  | Some l => if (0 <=? i) && (i <? zlen l)
              then Ok (mk_super (sb a) (Some (<[Z.to_nat i := Some p]> l)) (bg_desc a))
              else Undef
  end.

(** The copy of the super block for group [i]. *)
Definition make_backup (a : super) (i group_start_block : Z) : M super :=
  let* s := get_state in
  let* p := calloc (block_size (info s)) in
  let* p := lift (oof p) in
  let* a := lift (set_backup a i p) in
  let* src := lift (oof (mem s !! sb a)) in
  let* _ := update_mem p (fun b => splice b 0 (take (Z.to_nat (block_size (info s))) src)) in
  let* _ := update_mem p (put_field s_block_group_nr i) in
  let* _ := sparse_add_data p (block_size (info s)) group_start_block in
  ret a.

(** [u64 group_start_block]; the sum has 32 bits. *)
Definition group_start_block (s : fs) (i : Z) : Z :=
  u32 (first_data_block (aux_info s) + i * blocks_per_group (info s)).

(** The values of the descriptor of a group. *)
Definition desc_values (s : fs) (i header_size bpg ipg : Z) : list (field * Z) :=
  map (fun '(f, v) => (at_index sizeof_group_desc i f, v)) [
    (bg_block_bitmap, group_start_block s i + header_size);
    (bg_inode_bitmap, group_start_block s i + header_size + 1);
    (bg_inode_table, group_start_block s i + header_size + 2);
    (bg_free_blocks_count, bpg);
    (bg_free_inodes_count, ipg);
    (bg_used_dirs_count, 0)].

Definition fill_group (a : super) (i : Z) : M super :=
  let* s := get_state in
  let* has_super := lift (ext4_bg_has_super_block (info s) (s32 i)) in
  let* (a, header_size) :=
    if has_super then
      let* a := if negb (i =? 0) then make_backup a i (group_start_block s i) else ret a in
      let* _ := sparse_add_data (bg_desc a) (u32 (bg_desc_blocks (aux_info s) * block_size (info s)))
                  (u32 (group_start_block s i + 1)) in
      ret (a, u32 (1 + bg_desc_blocks (aux_info s) + bg_desc_reserve_blocks (info s)))
    else ret (a, 0) in
  let* s1 := get_state in
  let* b := lift (oof (mem s1 !! sb a)) in
  let* _ := update_mem (bg_desc a) (put_fields (desc_values s i header_size
              (get_field b s_blocks_per_group) (get_field b s_inodes_per_group))) in
  ret a.

Fixpoint fill_groups (ids : list Z) (a : super) : M super :=
  match ids with
  | [] => ret a
  | i :: ids => let* a := fill_group a i in fill_groups ids a
  end.

Definition ext4_fill_in_sb (stack : list Z) (a : super) : M super :=
  let* s := get_state in
  let* _ := update_mem (sb a) (fill_sb stack (info s) (aux_info s)) in
  fill_groups (seqZ 0 (groups (aux_info s))) a.

(** ** Queueing and reading the super block *)

Definition ext4_queue_sb (a : super) : M unit :=
  let* s := get_state in
  let bs := block_size (info s) in
  if 1024 <? bs then
    let* p := calloc bs in
    let* buf := lift (oof p) in
    let* src := lift (oof (mem s !! sb a)) in
    let* _ := update_mem buf (fun b => splice b 1024 (take 1024 src)) in
    sparse_add_data buf bs 0
  else sparse_add_data (sb a) 1024 1.

(** The string that starts at the name of the volume. *)
Fixpoint c_string (l : list Z) : list Z :=
  match l with
  | [] => []
  | c :: l => if c =? 0 then [] else c :: c_string l
  end.
Definition label_text (b : list Z) : list Z := c_string (drop (Z.to_nat (f_off s_volume_name)) b).
Definition of_chars (l : list Z) : string :=
  String.string_of_list_ascii (map (fun c => Ascii.ascii_of_N (Z.to_N c)) l).

(** [info] as the super block [b] has it; [info.label] points to the name. *)
Definition parsed_info (i : fs_info) (b : list Z) : outcome (fs_info * Z) :=
  let log := get_field b s_log_block_size in
  if 21 <=? log then Undef
  else
    let bs := Z.shiftl 1024 log in
    let len_blocks := u64 (Z.shiftl (get_field b s_blocks_count_hi) 32 + get_field b s_blocks_count_lo) in
    Ok (mk_info (s64 (u64 (bs * len_blocks))) bs (get_field b s_blocks_per_group)
          (get_field b s_inodes_per_group) (get_field b s_inode_size) (get_field b s_inodes_count)
          (journal_blocks i) (u16 (get_field b s_feature_ro_compat)) (u16 (get_field b s_feature_compat))
          (u16 (get_field b s_feature_incompat)) (get_field b s_reserved_gdt_blocks)
          (Some (of_chars (label_text b))) (no_journal i), len_blocks).

Definition ext4_parse_sb (b : list Z) : M super :=
  let* _ := if negb (get_field b s_magic =? EXT4_SUPER_MAGIC) then error else ret tt in
  let* _ := if negb (Z.land (get_field b s_state) EXT4_VALID_FS =? EXT4_VALID_FS) then error
            else ret tt in
  let* s := get_state in
  let* (i, _) := lift (parsed_info (info s) b) in
  let* _ := put_state (set_info s i) in
  let* a := create_fs_aux_info in
  let* _ := update_mem (sb a) (fun d => splice d 0 (take (Z.to_nat sizeof_super) b)) in
  let* s := get_state in
  if negb (first_data_block (aux_info s) =? get_field b s_first_data_block) then critical_error
  else ret a.

(** ** The resize inode *)

Fixpoint reserve_regions (ids : list Z) (alloc : block_allocation) : M block_allocation :=
  match ids with
  | [] => ret alloc
  | i :: ids =>
      let* s := get_state in
      let* has_super := lift (ext4_bg_has_super_block (info s) (s32 i)) in
      let* alloc :=
        if has_super then
          append_region alloc (u32 (group_start_block s i + 1 + bg_desc_blocks (aux_info s)))
            (bg_desc_reserve_blocks (info s)) i
        else ret alloc in
      reserve_regions ids alloc
  end.

(** [S_IFREG | S_IRUSR | S_IWUSR] and one link. *)
Definition set_reserved (i : ext4_inode) : ext4_inode :=
  set_mode i (Z.lor S_IFREG 0x180) 1 (i_flags i).

Definition ext4_create_resize_inode : M unit :=
  let* alloc := create_allocation in
  let* p := get_inode EXT4_RESIZE_INO in
  let* s := get_state in
  let* alloc := reserve_regions (seqZ 0 (groups (aux_info s))) alloc in
  let* inode := read_inode p in
  let* (inode, alloc) := inode_attach_resize inode alloc in
  let* _ := write_inode p (set_reserved inode) in
  free_alloc alloc.

(** ** The journal *)

(** [htonl] *)
Definition htonl (v : Z) : Z := Sha1.ntoh 4 v.

Definition journal_values (i : fs_info) : list (field * Z) := [
  (h_magic, htonl JBD2_MAGIC_NUMBER);
  (h_blocktype, htonl JBD2_SUPERBLOCK_V2);
  (s_blocksize, htonl (block_size i));
  (s_maxlen, htonl (journal_blocks i));
  (s_nr_users, htonl 1);
  (s_first, htonl 1);
  (s_sequence, htonl 1)].

Definition ext4_create_journal_inode (a : super) : M unit :=
  let* p := get_inode EXT4_JOURNAL_INO in
  let* s := get_state in
  let len := u32 (journal_blocks (info s) * block_size (info s)) in
  let* inode := read_inode p in
  let* (journal_data, inode) := inode_allocate_data_extents inode len len in
  let* _ := write_inode p inode in
  match journal_data with
  | None => error
  | Some data =>
      let* _ := write_inode p (set_reserved inode) in
      let* _ := update_mem data (put_fields (journal_values (info s))) in
      update_mem (sb a) (put_bytes s_jnl_blocks (i_block inode))
  end.

(** ** Counting what is free *)

(** [*f += n] *)
Definition add_field (f : field) (n : Z) (b : list Z) : outcome (list Z) :=
  put_field f (get_field b f + n) b.

Fixpoint update_loop (ids : list Z) (a : super) : M unit :=
  match ids with
  | [] => ret tt
  | i :: ids =>
      let* bg_free_blocks := get_free_blocks i in
      let* bg_free_inodes := get_free_inodes i in
      let desc := at_index sizeof_group_desc i in
      let* _ := update_mem (bg_desc a) (put_field (desc bg_free_blocks_count) bg_free_blocks) in
      let* _ := update_mem (sb a) (add_field s_free_blocks_count_lo bg_free_blocks) in
      let* _ := update_mem (bg_desc a) (put_field (desc bg_free_inodes_count) bg_free_inodes) in
      let* _ := update_mem (sb a) (add_field s_free_inodes_count bg_free_inodes) in
      let* dirs := get_directories i in
      let* _ := update_mem (bg_desc a) (add_field (desc bg_used_dirs_count) dirs) in
      update_loop ids a
  end.

Definition ext4_update_free (a : super) : M unit :=
  let* s := get_state in update_loop (seqZ 0 (groups (aux_info s))) a.

(** ** The size of a file or device *)

Inductive st_mode := S_REG (size : Z) | S_BLK | S_OTHER.

(** [ret] and [size] are the answers of [ioctl(fd, BLKGETSIZE64, &size)]. *)
Definition get_block_device_size (ret size : Z) : Z := if negb (ret =? 0) then 0 else size.

(** [buf] is the answer of [fstat], [None] for a failure. *)
Definition get_file_size (len : Z) (buf : option st_mode) (ioctl_ret ioctl_size : Z) : Z :=
  match buf with
  | None => 0
  | Some m =>
      let reserve_len := if len <? 0 then u64 (- len) else 0 in
      let computed_size :=
        match m with
        | S_REG size => s64 (size - reserve_len)
        | S_BLK => s64 (get_block_device_size ioctl_ret ioctl_size - reserve_len)
        | S_OTHER => 0
        end in
      if computed_size <? 0 then 0 else computed_size
  end.

(** The layouts have no gaps and the sizes of the structures. *)
Lemma layouts : layout_end 0 ext4_super_block = Some sizeof_super /\ layout_end 0 ext2_group_desc = Some sizeof_group_desc.
Proof. split; vm_compute; reflexivity. Qed.

End Ext4Super.
