(* ===== verification/Ext4SuperProps.v ===== *)
(** * The super block and the counters: theorems

    Fields of a structure do not disturb each other; the super block that
    [ext4_fill_in_sb] writes is read back by [ext4_parse_sb], and
    [ext4_update_free] counts what the bitmaps leave free. *)

From S2P Require Import Prelude BackedBlock SparseFile Sha1 Ext4Utils Ext4Alloc Ext4AllocBits Ext4AllocProps Ext4AllocLists Ext4Extent Ext4Contents Ext4Super.

Module Ext4SuperProps.
Import Ext4Utils Ext4Alloc Ext4AllocBits Ext4AllocProps Ext4AllocLists Ext4Extent Ext4Contents Ext4Super.

(** ** Fields *)

(** The field lies inside a buffer of [n] bytes. *)
Definition fits (n : Z) (f : field) : bool :=
  (0 <=? f_off f) && (0 <=? f_size f) && (f_off f + f_size f <=? n).
Definition same_field (f g : field) : bool := (f_off f =? f_off g) && (f_size f =? f_size g).
Definition apart (f g : field) : bool :=
  (f_off f + f_size f <=? f_off g) || (f_off g + f_size g <=? f_off f).

Lemma splice_in b off bs : 0 <= off -> off + zlen bs <= zlen b ->
  exists b', splice b off bs = Ok b' /\ zlen b' = zlen b /\ sub_bytes b' off (zlen bs) = bs /\
    (forall o n, 0 <= o -> 0 <= n -> (o + n <= off \/ (off + zlen bs <= o /\ o + n <= zlen b)) ->
       sub_bytes b' o n = sub_bytes b o n).
Proof.
  intros H1 H2. pose proof (zlen_nonneg bs) as Hbs. unfold splice.
  rewrite (proj2 (Z.leb_le _ _) H1), (proj2 (Z.leb_le _ _) H2). cbn [andb].
  assert (zlen (take (Z.to_nat off) b) = off) as Ht by (unfold zlen in *; rewrite length_take; lia).
  eexists. split; [reflexivity|]. split; [|split].
  - rewrite !zlen_app, Ht. unfold zlen in *. rewrite length_drop. lia.
  - apply sub_bytes_exact; [symmetry; exact Ht|reflexivity].
  - intros o n Ho Hn [H|(H & H')].
    + rewrite sub_bytes_app_l by lia. unfold sub_bytes. rewrite <- (take_drop (Z.to_nat off) b) at 2.
      rewrite drop_app_le by (unfold zlen in *; lia). symmetry. apply take_app_le.
      rewrite length_drop. unfold zlen in *. lia.
    + rewrite sub_bytes_app_r, sub_bytes_app_r by lia. rewrite Ht. unfold sub_bytes. rewrite drop_drop.
      do 2 f_equal. lia.
Qed.

Lemma put_field_spec f v b : fits (zlen b) f = true ->
  exists b', put_field f v b = Ok b' /\ zlen b' = zlen b /\ get_field b' f = v mod 256 ^ f_size f /\
    (forall o n, 0 <= o -> 0 <= n -> o + n <= zlen b -> apart f (mk_field o n) = true ->
       sub_bytes b' o n = sub_bytes b o n).
Proof.
  unfold fits. rewrite !andb_true_iff, !Z.leb_le. intros ((H1 & H2) & H3).
  assert (zlen (le_bytes (Z.to_nat (f_size f)) v) = f_size f) as El by (rewrite zlen_le_bytes; lia).
  destruct (splice_in b (f_off f) (le_bytes (Z.to_nat (f_size f)) v)) as (b' & E & L & S & O); [lia|lia|].
  exists b'. split; [exact E|]. split; [exact L|]. rewrite El in S, O. split.
  - unfold get_field. rewrite S, le_val_bytes, Z2Nat.id by lia. reflexivity.
  - intros o n Ho Hn Hb Ha. apply O; [lia|lia|]. unfold apart in Ha. cbn in Ha.
    apply orb_true_iff in Ha as [Ha|Ha]; apply Z.leb_le in Ha; lia.
Qed.

(** The value of a field behind a sequence of assignments; [None] when one of
    them overlaps it. *)
Fixpoint assigned (f : field) (l : list (field * Z)) (old : Z) : option Z :=
  match l with
  | [] => Some old
  | (g, v) :: l =>
      if same_field f g then assigned f l (v mod 256 ^ f_size f)
      else if apart g f then assigned f l old
      else None
  end.

Lemma put_fields_spec l : forall b, forallb (fun '(f, _) => fits (zlen b) f) l = true ->
  exists b', put_fields l b = Ok b' /\ zlen b' = zlen b /\
    (forall f x, fits (zlen b) f = true -> assigned f l (get_field b f) = Some x -> get_field b' f = x) /\
    (forall o n, 0 <= o -> 0 <= n -> o + n <= zlen b ->
       forallb (fun '(g, _) => apart g (mk_field o n)) l = true -> sub_bytes b' o n = sub_bytes b o n).
Proof.
  induction l as [|[g v] l IH]; intros b H.
  - exists b. split; [reflexivity|]. split; [reflexivity|]. split; [|reflexivity].
    intros f x _ [= ->]. reflexivity.
  - cbn [forallb] in H. apply andb_true_iff in H as (Hg & Hl).
    destruct (put_field_spec g v b Hg) as (b1 & E1 & L1 & G1 & O1).
    destruct (IH b1) as (b2 & E2 & L2 & G2 & O2); [rewrite L1; exact Hl|]. rewrite L1 in *.
    exists b2. split; [cbn [put_fields]; rewrite E1; exact E2|]. split; [exact L2|]. split.
    + intros f x Hf Ha. apply (G2 f x Hf). cbn [assigned] in Ha.
      destruct (same_field f g) eqn:Es.
      * apply andb_true_iff in Es as (Eo & Ez). apply Z.eqb_eq in Eo, Ez.
        assert (f = g) as -> by (destruct f, g; cbn in *; congruence). rewrite G1. exact Ha.
      * destruct (apart g f) eqn:Ea; [|discriminate]. rewrite <- Ha. f_equal.
        unfold get_field. f_equal. unfold fits in Hf. rewrite !andb_true_iff, !Z.leb_le in Hf.
        apply O1; [lia|lia|lia|]. destruct f; exact Ea.
    + intros o n Ho Hn Hb Ha. cbn [forallb] in Ha. apply andb_true_iff in Ha as (Ha1 & Ha2).
      rewrite O2 by assumption. apply O1; assumption.
Qed.

Lemma put_bytes_spec f bs b : 0 <= f_off f -> f_off f + zlen bs <= zlen b ->
  exists b', put_bytes f bs b = Ok b' /\ zlen b' = zlen b /\ sub_bytes b' (f_off f) (zlen bs) = bs /\
    (forall o n, 0 <= o -> 0 <= n -> o + n <= zlen b -> apart (mk_field (f_off f) (zlen bs)) (mk_field o n) = true ->
       sub_bytes b' o n = sub_bytes b o n).
Proof.
  intros H1 H2. destruct (splice_in b (f_off f) bs H1 H2) as (b' & E & L & S & O).
  exists b'. split; [exact E|]. split; [exact L|]. split; [exact S|].
  intros o n Ho Hn Hb Ha. apply O; [lia|lia|]. unfold apart in Ha. cbn in Ha.
  apply orb_true_iff in Ha as [Ha|Ha]; apply Z.leb_le in Ha; lia.
Qed.

Lemma fits_more n m f : n <= m -> fits n f = true -> fits m f = true.
Proof. unfold fits. rewrite !andb_true_iff, !Z.leb_le. lia. Qed.

Lemma fits_all n m (l : list (field * Z)) : n <= m -> forallb (fun '(f, _) => fits n f) l = true ->
  forallb (fun '(f, _) => fits m f) l = true.
Proof.
  intros H. rewrite !forallb_forall. intros Hl [f v] Hin. apply (fits_more n m f H). exact (Hl (f, v) Hin).
Qed.

(** ** The logarithm of the block size *)

Lemma log_2_loop_pow k : forall fuel i, (k < fuel)%nat -> log_2_loop (S fuel) i (2 ^ Z.of_nat k) = Ok (i + Z.of_nat k).
Proof.
  induction k as [|k IH]; intros fuel i Hf.
  - destruct fuel as [|fuel]; [lia|]. cbn. f_equal. lia.
  - destruct fuel as [|fuel]; [lia|]. remember (S fuel) as f1 eqn:E1. cbn [log_2_loop].
    rewrite (proj2 (Z.ltb_lt _ _)) by (apply Z.pow_pos_nonneg; lia).
    rewrite Z.shiftr_div_pow2, Nat2Z.inj_succ, Z.pow_succ_r, Z.mul_comm, Z.div_mul by lia.
    subst f1. rewrite IH by lia. f_equal. lia.
Qed.

Lemma log_2_pow k : 0 <= k < 32 -> log_2 (2 ^ k) = Ok k.
Proof.
  intros H. pose proof (log_2_loop_pow (Z.to_nat k) 32 0 ltac:(lia)) as E. rewrite Z2Nat.id in E by lia. exact E.
Qed.

(** ** The contents of the super block *)

Definition is_byte_string (l : list Z) : Prop := bytes_ok l /\ Forall (fun c => c <> 0) l.

Lemma chars_ok l : bytes_ok (chars l).
Proof.
  unfold chars. apply Forall_forall. intros x Hx. apply list_elem_of_In, in_map_iff in Hx as (c & <- & _).
  pose proof (Ascii.N_ascii_bounded c). unfold byte_ok. lia.
Qed.

Lemma zlen_volume_name l : zlen (volume_name l) = 16.
Proof.
  unfold volume_name, zlen, zeros. rewrite length_take, length_app, length_replicate. lia.
Qed.

(** What the buffer [b] shows of the file system: [label] is its name. *)
Record sb_shows (i : fs_info) (a : fs_aux_info) (log : Z) (label : list Z) (b : list Z) : Prop := {
  sh_magic : get_field b s_magic = EXT4_SUPER_MAGIC;
  sh_state : get_field b s_state = EXT4_VALID_FS;
  sh_inodes : get_field b s_inodes_count = (inodes_per_group i * groups a) mod 256 ^ 4;
  sh_blocks_lo : get_field b s_blocks_count_lo = len_blocks a mod 256 ^ 4;
  sh_blocks_hi : get_field b s_blocks_count_hi = Z.shiftr (len_blocks a) 32 mod 256 ^ 4;
  sh_first : get_field b s_first_data_block = first_data_block a mod 256 ^ 4;
  sh_log : get_field b s_log_block_size = log mod 256 ^ 4;
  sh_bpg : get_field b s_blocks_per_group = blocks_per_group i mod 256 ^ 4;
  sh_ipg : get_field b s_inodes_per_group = inodes_per_group i mod 256 ^ 4;
  sh_isize : get_field b s_inode_size = inode_size i mod 256 ^ 2;
  sh_compat : get_field b s_feature_compat = feat_compat i mod 256 ^ 4;
  sh_incompat : get_field b s_feature_incompat = feat_incompat i mod 256 ^ 4;
  sh_ro : get_field b s_feature_ro_compat = feat_ro_compat i mod 256 ^ 4;
  sh_reserve : get_field b s_reserved_gdt_blocks = bg_desc_reserve_blocks i mod 256 ^ 2;
  sh_free_blocks : get_field b s_free_blocks_count_lo = 0;
  sh_free_inodes : get_field b s_free_inodes_count = 0;
  sh_uuid : sub_bytes b (f_off s_uuid) 16 = Sha1.uuid_of (Sha1.sha1 (chars "extandroid/make_ext4fs" ++ label));
  sh_name : sub_bytes b (f_off s_volume_name) 80 = volume_name label ++ zeros 64
}.

(** The bytes from the identifier to the place of the last mount. *)
Definition names_area : field := mk_field 104 96.

Lemma fill_sb_parts stack i a log label b : zlen stack = 64 -> 1024 <= zlen b ->
  Ext4Utils.label i = Some label -> zlen (chars label) < 2 ^ 29 -> log_2 (block_size i / 1024) = Ok log ->
  exists b', fill_sb stack i a b = Ok b' /\ zlen b' = zlen b /\
    (forall f x y, fits 1024 f = true -> apart names_area f = true ->
       assigned f (sb_values1 i a log) (get_field b f) = Some x -> assigned f (sb_values2 i a) x = Some y ->
       get_field b' f = y) /\
    sub_bytes b' (f_off s_uuid) 96 =
      Sha1.uuid_of (Sha1.sha1 (chars "extandroid/make_ext4fs" ++ chars label)) ++ volume_name (chars label) ++ zeros 64.
Proof.
  intros Hs Hb Hl Hlen Hlog. unfold fill_sb. rewrite Hlog. cbn [obind].
  destruct (put_fields_spec (sb_values1 i a log) b) as (b1 & -> & L1 & G1 & _);
    [apply (fits_all 1024); [exact Hb|reflexivity]|]. cbn [obind]. rewrite Hl.
  rewrite Sha1.generate_uuid_correct; [|exact Hs|bytes_tac|apply chars_ok|vm_compute; reflexivity|exact Hlen]. cbn [obind].
  set (u := Sha1.uuid_of _). assert (zlen u = 16) as Hu.
  { unfold u, Sha1.uuid_of. destruct (Sha1.sha1_bytes (chars "extandroid/make_ext4fs" ++ chars label)) as (_ & H20).
    rewrite zlen_app, zlen_sub; [reflexivity|lia|lia|]. unfold zlen. rewrite H20. cbn. lia. }
  pose proof (zlen_volume_name (chars label)) as Hv. set (v := volume_name (chars label)) in *.
  destruct (put_bytes_spec s_uuid u b1) as (b2 & -> & L2 & G2 & O2); [cbn; lia|cbn [f_off s_uuid s_volume_name s_last_mounted]; try change (zlen (zeros 64)) with 64; lia|]. cbn [obind].
  destruct (put_bytes_spec s_volume_name v b2) as (b3 & -> & L3 & G3 & O3); [cbn; lia|cbn [f_off s_uuid s_volume_name s_last_mounted]; try change (zlen (zeros 64)) with 64; lia|]. cbn [obind].
  destruct (put_bytes_spec s_last_mounted (zeros 64) b3) as (b4 & -> & L4 & G4 & O4); [cbn; lia|cbn [f_off s_uuid s_volume_name s_last_mounted]; try change (zlen (zeros 64)) with 64; lia|]. cbn [obind].
  assert (zlen b4 = zlen b) as L by lia. rewrite Hu in *. rewrite Hv in *. change (zlen (zeros 64)) with 64 in *.
  destruct (put_fields_spec (sb_values2 i a) b4) as (b5 & -> & L5 & G5 & O5).
  { apply (fits_all 1024); [lia|]. unfold sb_values2. destruct (negb _); reflexivity. }
  exists b5. split; [reflexivity|]. split; [lia|]. split.
  - intros f x y Hf Ha H1 H2. assert (fits (zlen b) f = true) as Hf' by (apply (fits_more 1024); [lia|exact Hf]).
    unfold fits in Hf. rewrite !andb_true_iff, !Z.leb_le in Hf. unfold apart in Ha. cbn in Ha.
    assert (get_field b4 f = x) as E4.
    { rewrite <- (G1 f x Hf' H1). unfold get_field. f_equal. unfold apart in O2, O3, O4. cbn in O2, O3, O4.
      apply orb_true_iff in Ha. rewrite !Z.leb_le in Ha.
      rewrite O4 by (try lia; rewrite orb_true_iff, !Z.leb_le; lia).
      rewrite O3 by (try lia; rewrite orb_true_iff, !Z.leb_le; lia).
      apply O2; try lia; rewrite orb_true_iff, !Z.leb_le; lia. }
    apply G5; [rewrite L; exact Hf'|]. rewrite E4. exact H2.
  - change (f_off s_uuid) with 104.
    rewrite O5; [|lia|lia|lia|unfold sb_values2; destruct (negb _); reflexivity].
    change (f_off s_uuid) with 104 in *. change (f_off s_volume_name) with 120 in *. change (f_off s_last_mounted) with 136 in *.
    assert (forall (c : list Z) o n k, 0 <= o -> 0 <= n -> 0 <= k -> o + n + k <= zlen c ->
      sub_bytes c o (n + k) = sub_bytes c o n ++ sub_bytes c (o + n) k) as Hsplit.
    { intros c o n k Ho Hn Hk _. unfold sub_bytes. rewrite !Z2Nat.inj_add by lia.
      rewrite <- drop_drop. symmetry. apply take_take_drop. }
    change 96 with (16 + 80). rewrite Hsplit by lia. change 80 with (16 + 64). rewrite Hsplit by lia.
    change (104 + 16) with 120. change (120 + 16) with 136. rewrite G4. f_equal; [|f_equal].
    + rewrite O4, O3 by (try lia; reflexivity). exact G2.
    + rewrite O4 by (try lia; reflexivity). exact G3.
Qed.


Lemma fill_sb_spec stack i a log label b : zlen stack = 64 -> 1024 <= zlen b ->
  Ext4Utils.label i = Some label -> zlen (chars label) < 2 ^ 29 -> log_2 (block_size i / 1024) = Ok log ->
  exists b', fill_sb stack i a b = Ok b' /\ zlen b' = zlen b /\ sb_shows i a log (chars label) b'.
Proof.
  intros Hs Hb Hl Hlen Hlog. destruct (fill_sb_parts stack i a log label b Hs Hb Hl Hlen Hlog) as (b' & E & L & F & N).
  exists b'. split; [exact E|]. split; [exact L|].
  assert (zlen (Sha1.uuid_of (Sha1.sha1 (chars "extandroid/make_ext4fs" ++ chars label))) = 16) as Hu.
  { assert (zlen (sub_bytes b' (f_off s_uuid) 96) = 96) as H96 by (apply zlen_sub; cbn; lia).
    rewrite N, !zlen_app, zlen_volume_name in H96. change (zlen (zeros 64)) with 64 in H96. lia. }
  split; try (eapply F; [reflexivity|reflexivity|reflexivity|unfold sb_values2; destruct (negb _); reflexivity]).
  - transitivity (sub_bytes (sub_bytes b' (f_off s_uuid) 96) 0 16).
    + unfold sub_bytes. rewrite drop_0, take_take. f_equal.
    + rewrite N, sub_bytes_app_l by lia. apply sub_bytes_all. lia.
  - transitivity (sub_bytes (sub_bytes b' (f_off s_uuid) 96) 16 80).
    + unfold sub_bytes. rewrite skipn_firstn_comm, drop_drop, take_take. f_equal.
    + rewrite N, sub_bytes_app_r by lia. rewrite Hu. apply sub_bytes_all.
      rewrite zlen_app, zlen_volume_name. change (zlen (zeros 64)) with 64. lia.
Qed.

(** ** Reading it back *)

(** Parameters of the widths of the fields, with blocks of more than 1024 bytes. *)
Record params_ok (i : fs_info) : Prop := {
  pr_bs : exists k, 1 <= k < 21 /\ block_size i = 1024 * 2 ^ k;
  pr_len : 0 <= len i < 2 ^ 63;
  pr_bpg : 0 < blocks_per_group i < 2 ^ 32;
  pr_ipg : 0 <= inodes_per_group i < 2 ^ 32;
  pr_isize : 0 <= inode_size i < 2 ^ 16;
  pr_feats : 0 <= feat_ro_compat i < 2 ^ 16 /\ 0 <= feat_compat i < 2 ^ 16 /\ 0 <= feat_incompat i < 2 ^ 16;
  pr_reserve : 0 <= bg_desc_reserve_blocks i < 2 ^ 16
}.

Lemma params_block_size i : params_ok i -> exists k, 1 <= k < 21 /\ block_size i = 1024 * 2 ^ k /\
  1024 < block_size i < 2 ^ 31 /\ log_2 (block_size i / 1024) = Ok k.
Proof.
  intros [(k & Hk & E) _ _ _ _ _ _]. exists k. split; [exact Hk|]. split; [exact E|].
  assert (2 ^ 1 <= 2 ^ k) by (apply Z.pow_le_mono_r; lia). assert (2 ^ k <= 2 ^ 20) by (apply Z.pow_le_mono_r; lia).
  split; [rewrite E; change (2 ^ 1) with 2 in *; change (2 ^ 20) with 1048576 in *; change (2 ^ 31) with 2147483648; lia|].
  rewrite E, Z.mul_comm, Z.div_mul by lia. apply log_2_pow. lia.
Qed.

(** The descriptors take the blocks they need for the groups there are. *)
Definition with_desc_blocks (a : fs_aux_info) (n : Z) : fs_aux_info :=
  mk_aux (first_data_block a) (len_blocks a) (inode_table_blocks a) (groups a) n (default_i_flags a)
    (blocks_per_ind a) (blocks_per_dind a) (blocks_per_tind a).

Definition desc_blocks (i : fs_info) (a : fs_aux_info) : Z :=
  div_round_up32 (u32 (groups a * sizeof_group_desc)) (block_size i).

(** What [ext4_create_fs_aux_info] takes from the parameters. *)
Definition same_geometry (i j : fs_info) : Prop :=
  block_size j = block_size i /\ blocks_per_group j = blocks_per_group i /\
  inodes_per_group j = inodes_per_group i /\ inode_size j = inode_size i /\
  feat_ro_compat j = feat_ro_compat i /\ bg_desc_reserve_blocks j = bg_desc_reserve_blocks i.

Lemma is_power_of_negative a b : a <= 0 -> 0 < b -> is_power_of a b = Ok 0.
Proof.
  intros Ha Hb. unfold is_power_of. cbn [is_power_of_loop]. rewrite (proj2 (Z.ltb_ge b a)) by lia.
  rewrite (proj2 (Z.eqb_neq a b)) by lia. reflexivity.
Qed.

Lemma s32_range z : - 2 ^ 31 <= s32 z < 2 ^ 31.
Proof.
  unfold s32. pose proof (Z.mod_pos_bound z (2 ^ 32) ltac:(lia)). destruct (Z.ltb_spec (z mod 2 ^ 32) (2 ^ 31)); lia.
Qed.

Lemma has_super_int i n : exists b, ext4_bg_has_super_block i (s32 n) = Ok b.
Proof.
  pose proof (s32_range n) as H. destruct (Z.lt_ge_cases (s32 n) 0) as [Hn|Hn]; [|apply has_super_total; lia].
  unfold ext4_bg_has_super_block. destruct (Z.land _ _ =? 0); [eauto|].
  rewrite (proj2 (Z.eqb_neq (s32 n) 0)), (proj2 (Z.eqb_neq (s32 n) 1)) by lia. cbn [orb].
  rewrite !is_power_of_negative by lia. cbn. eauto.
Qed.


Lemma ceil_exact q r y : 0 < y -> 0 < r < y -> DIV_ROUND_UP (q * y + r) y = q + 1.
Proof.
  intros Hy Hr. unfold DIV_ROUND_UP. symmetry. apply (Z.div_unique _ _ _ (r - 1)); lia.
Qed.

(** Deriving the geometry again from the blocks that are used. *)
Lemma geometry_again i j a : params_ok i -> ext4_create_fs_aux_info i = Ok a -> same_geometry i j ->
  len j = block_size i * len_blocks a ->
  0 <= len_blocks a <= len i / block_size i /\ first_data_block a = 0 /\
  ext4_create_fs_aux_info j = Ok (with_desc_blocks a (desc_blocks i a)).
Proof.
  intros Hp Ha (E1 & E2 & E3 & E4 & E5 & E6) El. destruct (params_block_size i Hp) as (k & _ & _ & Hbs & _).
  pose proof (pr_len _ Hp) as Hlen. pose proof (pr_bpg _ Hp) as Hbpg.
  assert (forall n, ext4_bg_has_super_block j n = ext4_bg_has_super_block i n) as Es
    by (intros n; unfold ext4_bg_has_super_block; rewrite E5; reflexivity).
  unfold ext4_create_fs_aux_info in *. rewrite E1, E2, E3, E4, E6.
  rewrite (proj2 (Z.eqb_neq (block_size i) 0)), (proj2 (Z.eqb_neq (blocks_per_group i) 0)) in * by lia.
  rewrite (proj2 (Z.ltb_lt 1024 _)) in * by lia. rewrite !Z.sub_0_r in *.
  rewrite (Z.quot_div_nonneg (len i)) in Ha by lia.
  assert (0 <= len i / block_size i < 2 ^ 63) as HL
    by (split; [apply Z.div_pos; lia|apply Z.div_lt_upper_bound; nia]).
  set (L := len i / block_size i) in *. rewrite (u64_id L), (u64_id L) in Ha by lia.
  rewrite div_round_up64_id in Ha by lia. set (bpg := blocks_per_group i) in *.
  destruct (ext4_bg_has_super_block i (s32 (u32 (DIV_ROUND_UP L bpg) - 1))) as [super| | |] eqn:Hs; try discriminate.
  cbn [obind] in Ha. pose proof (Z.mod_pos_bound L bpg ltac:(lia)) as Hm.
  pose proof (Z.div_mod L bpg ltac:(lia)) as Hd. assert (0 <= L / bpg) as Hq by (apply Z.div_pos; lia).
  rewrite (u32_id (L mod bpg)) in Ha by lia.
  destruct (_ && _) eqn:Hdrop in Ha; injection Ha as <-; cbn [first_data_block len_blocks groups] in *;
    unfold with_desc_blocks, desc_blocks; cbn [first_data_block len_blocks inode_table_blocks groups default_i_flags
      blocks_per_ind blocks_per_dind blocks_per_tind].
  - apply andb_true_iff in Hdrop as (H0 & _). apply Z.ltb_lt in H0.
    assert (u64 (L - L mod bpg) = L / bpg * bpg) as EL by (rewrite u64_id by lia; lia). rewrite EL in *.
    split; [nia|]. split; [reflexivity|].
    rewrite El, Z.mul_comm, Z.quot_mul by lia. rewrite !(u64_id (L / bpg * bpg)) by nia.
    rewrite div_round_up64_id, DIV_ROUND_UP_mul by nia. rewrite Z.mod_mul by lia.
    assert (u32 (u32 (DIV_ROUND_UP L bpg) - 1) = u32 (L / bpg)) as Eg.
    { replace L with (L / bpg * bpg + L mod bpg) at 1 by lia. rewrite ceil_exact by lia.
      unfold u32. rewrite Zminus_mod_idemp_l. f_equal. lia. }
    rewrite Eg. rewrite Es. destruct (has_super_int i (u32 (L / bpg) - 1)) as (sp & ->). cbn [obind].
    rewrite u32_id by lia. reflexivity.
  - split; [lia|]. split; [reflexivity|]. rewrite El, Z.mul_comm, Z.quot_mul by lia. rewrite !(u64_id L) by lia.
    rewrite div_round_up64_id by lia. rewrite Es, Hs. cbn [obind].
    rewrite (u32_id (L mod bpg)) by lia. rewrite Hdrop. reflexivity.
Qed.


(** The buffers of [aux_info], zeroed and apart from everything there was. *)
Record buffers_made (s s' : fs) (a : fs_aux_info) (p : super) : Prop := {
  bm_globals : force s' = force s /\ info s' = info s /\ aux_info s' = a /\ avail s' = avail s;
  bm_rest : bgs s' = bgs s /\ heap s' = heap s /\ sparse_file s' = sparse_file s /\ itab s' = itab s;
  bm_sb : sb p = fresh s;
  bm_desc : fresh s < bg_desc p < fresh s';
  bm_mem : mem s' = <[bg_desc p := zeros (block_size (info s) * bg_desc_blocks a)]>
                      (<[sb p := zeros (block_size (info s))]> (mem s));
  bm_backup : backup_sb p = Some (replicate (Z.to_nat (groups a)) None)
}.

Lemma calloc_eq s n : memory s ->
  calloc n s = Ok (Some (Some (fresh s)), set_mem (set_fresh s (fresh s + Z.max 1 n)) (fresh s) (zeros n)).
Proof. intros H. unfold calloc. rewrite H. reflexivity. Qed.

Lemma create_fs_aux_info_spec s a : memory s -> ext4_create_fs_aux_info (info s) = Ok a ->
  exists p s', create_fs_aux_info s = Ok (Some p, s') /\ buffers_made s s' a p.
Proof.
  intros Hm Ha. unfold create_fs_aux_info, bind, get_state, lift, put_state. rewrite Ha. cbn [obind].
  rewrite calloc_eq by exact Hm. rewrite malloc_eq by exact Hm. rewrite calloc_eq by exact Hm.
  eexists _, _. split; [reflexivity|]. split; cbn; try (repeat split; reflexivity); lia.
Qed.

Lemma update_mem_spec s p f b b' : mem s !! p = Some b -> f b = Ok b' -> update_mem p f s = Ok (Some tt, set_mem s p b').
Proof. intros E Ef. unfold update_mem, bind, get_state, lift. rewrite E. cbn [oof obind]. rewrite Ef. reflexivity. Qed.

(** ** The name *)

Lemma c_string_app l k : Forall (fun c => c <> 0) l -> c_string (l ++ 0 :: k) = l.
Proof.
  induction 1 as [|c l Hc Hl IH]; [reflexivity|]. cbn. rewrite (proj2 (Z.eqb_neq _ _) Hc), IH. reflexivity.
Qed.

Lemma volume_name_text l k : Forall (fun c => c <> 0) l -> c_string (volume_name l ++ 0 :: k) = take 16 l.
Proof.
  intros H. unfold volume_name. destruct (Nat.le_gt_cases 16 (length l)) as [Hl|Hl].
  - rewrite take_app_le by exact Hl. apply c_string_app. apply Forall_take. exact H.
  - rewrite take_app_ge, (take_ge l) by lia. rewrite <- app_assoc. unfold zeros. change (Z.to_nat 16) with 16%nat.
    destruct (16 - length l)%nat as [|m] eqn:E; [lia|]. cbn [take replicate app]. apply c_string_app. exact H.
Qed.

Lemma of_chars_chars l : of_chars (chars l) = l.
Proof.
  unfold of_chars, chars. rewrite map_map, <- (String.string_of_list_ascii_of_string l). f_equal.
  rewrite !String.string_of_list_ascii_of_string. transitivity (map id (String.list_ascii_of_string l)); [|apply map_id].
  apply map_ext. intros c. rewrite N2Z.id. apply Ascii.ascii_N_embedding.
Qed.

Lemma sb_label i a log l b : 1024 <= zlen b -> sb_shows i a log l b -> Forall (fun c => c <> 0) l ->
  label_text b = take 16 l.
Proof.
  intros Hb H Hl. unfold label_text. pose proof (sh_name _ _ _ _ _ H) as N. unfold sub_bytes in N.
  rewrite <- (take_drop (Z.to_nat 80) (drop (Z.to_nat (f_off s_volume_name)) b)), N.
  change (zeros 64) with (0 :: zeros 63). rewrite <- app_assoc. cbn [app]. apply volume_name_text. exact Hl.
Qed.

(** The parameters as they are read back. *)
Definition read_back (old i : fs_info) (a : fs_aux_info) : fs_info :=
  mk_info (block_size i * len_blocks a) (block_size i) (blocks_per_group i) (inodes_per_group i) (inode_size i)
    (u32 (inodes_per_group i * groups a)) (journal_blocks old) (feat_ro_compat i) (feat_compat i) (feat_incompat i)
    (bg_desc_reserve_blocks i) (Some (of_chars (take 16 (chars (default EmptyString (label i)))))) (no_journal old).

Lemma parsed_info_spec old i a l b k : params_ok i -> 0 <= len_blocks a <= len i / block_size i ->
  label i = Some l -> Forall (fun c => c <> 0) (chars l) -> 1024 <= zlen b ->
  1 <= k < 21 -> block_size i = 1024 * 2 ^ k -> sb_shows i a k (chars l) b ->
  parsed_info old b = Ok (read_back old i a, len_blocks a).
Proof.
  intros Hp Hlb Hl Hnz Hb Hk Ebs H. destruct (params_block_size i Hp) as (_ & _ & _ & Hbs & _).
  pose proof (pr_len _ Hp) as Hlen.
  assert (len i / block_size i * block_size i <= len i) as Hmul by (rewrite Z.mul_comm; apply Z.mul_div_le; lia).
  assert (len_blocks a < 2 ^ 63) as Hlb2 by nia.
  destruct (pr_feats _ Hp) as (F1 & F2 & F3). pose proof (pr_bpg _ Hp). pose proof (pr_ipg _ Hp).
  pose proof (pr_isize _ Hp). pose proof (pr_reserve _ Hp).
  unfold parsed_info. rewrite (sb_label i a k (chars l) b Hb H Hnz).
  destruct H as [M St In Bl Bh Fi Lo Bp Ip Is Co Ic Ro Re _ _ _ _]. rewrite Lo, Bl, Bh, Bp, Ip, Is, In, Ro, Co, Ic, Re.
  change (256 ^ 4) with (2 ^ 32) in *. change (256 ^ 2) with (2 ^ 16) in *.
  rewrite (Z.mod_small k) by lia. rewrite (proj2 (Z.leb_gt 21 k)) by lia.
  rewrite !Z.shiftl_mul_pow2, Z.shiftr_div_pow2 by lia. rewrite <- Ebs.
  assert (0 <= len_blocks a / 2 ^ 32 < 2 ^ 32) as Hd by (split; [apply Z.div_pos; lia|apply Z.div_lt_upper_bound; lia]).
  rewrite (Z.mod_small (len_blocks a / 2 ^ 32)) by lia.
  assert (len_blocks a / 2 ^ 32 * 2 ^ 32 + len_blocks a mod 2 ^ 32 = len_blocks a) as E
    by (pose proof (Z.div_mod (len_blocks a) (2 ^ 32) ltac:(lia)); lia).
  rewrite E, (u64_id (len_blocks a)) by lia. rewrite u64_id by nia. unfold read_back. rewrite Hl. cbn [default].
  rewrite s64_id by nia. unfold u16.
  rewrite (Z.mod_small (blocks_per_group i)), (Z.mod_small (inodes_per_group i)), (Z.mod_small (inode_size i)),
    (Z.mod_small (bg_desc_reserve_blocks i)) by lia.
  rewrite (Z.mod_small (feat_ro_compat i) (2 ^ 32)), (Z.mod_small (feat_compat i) (2 ^ 32)),
    (Z.mod_small (feat_incompat i) (2 ^ 32)) by lia.
  rewrite (Z.mod_small (feat_ro_compat i)), (Z.mod_small (feat_compat i)), (Z.mod_small (feat_incompat i)) by lia.
  reflexivity.
Qed.


(** C35: the super block round trip. Whatever the parameters, the block that
    [ext4_fill_in_sb] writes is accepted by [ext4_parse_sb], which finds the
    parameters and derives the geometry that were used: the length is that of
    the blocks in use, the inodes those of all groups, the name is cut to 16
    characters, and the blocks of the descriptors are those needed for the
    groups there are. *)
Theorem ext4_parse_sb_roundtrip stack i a l b0 s : params_ok i -> ext4_create_fs_aux_info i = Ok a ->
  label i = Some l -> Forall (fun c => c <> 0) (chars l) -> zlen (chars l) < 2 ^ 29 ->
  zlen stack = 64 -> 1024 <= zlen b0 -> memory s ->
  exists b p s', fill_sb stack i a b0 = Ok b /\ ext4_parse_sb b s = Ok (Some p, s') /\
    info s' = read_back (info s) i a /\
    aux_info s' = with_desc_blocks a (desc_blocks i a) /\
    mem s' !! sb p = Some (take 1024 b ++ zeros (block_size i - 1024)) /\
    sparse_file s' = sparse_file s /\ bgs s' = bgs s /\ itab s' = itab s /\ force s' = force s.
Proof.
  intros Hp Ha Hl Hnz Hlen Hs Hb Hm. destruct (params_block_size i Hp) as (k & Hk & Ebs & Hbs & Hlog).
  destruct (fill_sb_spec stack i a k l b0 Hs Hb Hl Hlen Hlog) as (b & Eb & Lb & Sh).
  destruct (geometry_again i (read_back (info s) i a) a Hp Ha) as (Hlb & Hf & Hagain); [repeat split|reflexivity|].
  destruct (create_fs_aux_info_spec (set_info s (read_back (info s) i a)) _ Hm Hagain) as (p & s1 & E1 & BM).
  exists b, p. destruct BM as [(G1 & G2 & G3 & _) (B1 & _ & B2 & B3) Hsb Hd Hmem _].
  cbn in G1, G2, G3, B1, B2, B3, Hsb, Hd, Hmem.
  assert (mem s1 !! sb p = Some (zeros (block_size i))) as Em
    by (rewrite Hmem, lookup_insert_ne by lia; apply lookup_insert_eq).
  set (b' := take 1024 b ++ zeros (block_size i - 1024)).
  assert (splice (zeros (block_size i)) 0 (take (Z.to_nat sizeof_super) b) = Ok b') as Esp.
  { assert (length (take (Z.to_nat sizeof_super) b) = 1024%nat) as Hlt
      by (rewrite length_take; change (Z.to_nat sizeof_super) with 1024%nat; unfold zlen in *; lia).
    unfold splice. rewrite (zlen_zeros (block_size i)) by lia. rewrite Z.add_0_l.
    rewrite (proj2 (Z.leb_le _ (block_size i))) by (unfold zlen; lia). cbn [andb Z.leb Z.compare].
    f_equal. change (Z.to_nat 0) with 0%nat. rewrite take_0. cbn [app]. unfold b'. f_equal.
    unfold zeros. rewrite drop_replicate. f_equal. unfold zlen. rewrite Hlt. lia. }
  pose proof (update_mem_spec s1 (sb p) (fun d => splice d 0 (take (Z.to_nat sizeof_super) b)) _ _ Em Esp) as E2.
  exists (set_mem s1 (sb p) b'). split; [exact Eb|]. split.
  - assert (lift (parsed_info (info s) b) s = Ok (Some (read_back (info s) i a, len_blocks a), s)) as E0
      by (unfold lift; rewrite (parsed_info_spec (info s) i a l b k) by (try assumption; lia); reflexivity).
    unfold ext4_parse_sb. rewrite (sh_magic _ _ _ _ _ Sh), (sh_state _ _ _ _ _ Sh).
    change (negb (EXT4_SUPER_MAGIC =? EXT4_SUPER_MAGIC)) with false.
    change (negb (Z.land EXT4_VALID_FS EXT4_VALID_FS =? EXT4_VALID_FS)) with false. cbv iota.
    rewrite (bind_eq _ _ s tt s eq_refl), (bind_eq _ _ s tt s eq_refl), (bind_eq _ _ s s s eq_refl), (bind_eq _ _ _ _ _ E0).
    rewrite (bind_eq _ _ _ tt (set_info s (read_back (info s) i a)) eq_refl), (bind_eq _ _ _ _ _ E1), (bind_eq _ _ _ _ _ E2).
    unfold bind, get_state. cbn [aux_info set_mem]. rewrite G3, (sh_first _ _ _ _ _ Sh). cbn [first_data_block with_desc_blocks].
    rewrite Hf. reflexivity.
  - cbn [info aux_info mem sparse_file bgs itab force set_mem]. rewrite G1, G2, G3, B1, B2, B3.
    split; [reflexivity|]. split; [reflexivity|]. split; [apply lookup_insert_eq|]. auto.
Qed.


(** A file system of 65 MB with a group that is given up: its parameters, and a
    name longer than the field. *)
Definition parse_info : fs_info :=
  mk_info (16484 * 4096) 4096 8192 2048 256 6144 1024 3 0x14 0x42 7 (Some "a name of 22 characters"%string) 0.

Lemma parse_info_ok : params_ok parse_info.
Proof. split; [exists 2; split; [lia|reflexivity]|vm_compute; intuition congruence..]. Qed.

Lemma ext4_parse_sb_roundtrip_witness :
  exists a b p s', ext4_create_fs_aux_info parse_info = Ok a /\ groups a = 2 /\
    fill_sb (zeros 64) parse_info a (zeros 4096) = Ok b /\
    ext4_parse_sb b (demo reset_ext4fs_info demo_aux) = Ok (Some p, s') /\ aux_info s' = a /\
    len (info s') = 16384 * 4096 /\ label (info s') = Some "a name of 22 cha"%string.
Proof.
  destruct (ext4_create_fs_aux_info parse_info) as [a| | |] eqn:Ea; try discriminate.
  destruct (ext4_parse_sb_roundtrip (zeros 64) parse_info a "a name of 22 characters" (zeros 4096)
              (demo reset_ext4fs_info demo_aux) parse_info_ok Ea eq_refl)
    as (b & p & s' & Hf & Hp & Hi & Hx & _).
  - apply Forall_forall. intros c Hc. vm_compute in Hc. intros ->.
    repeat (apply elem_of_cons in Hc as [Hc|Hc]; [discriminate|]). apply elem_of_nil in Hc. exact Hc.
  - vm_compute. reflexivity.
  - reflexivity.
  - vm_compute. discriminate.
  - intros n. reflexivity.
  - vm_compute in Ea. injection Ea as <-. eexists _, b, p, s'. split; [reflexivity|]. split; [reflexivity|].
    split; [exact Hf|]. split; [exact Hp|]. rewrite Hi, Hx. split; [reflexivity|]. split; reflexivity.
Defined.


(** ** Counting what is free *)

(** The clear bits among [n] of a bitmap that start at bit [off]. *)
Definition clear_bits (bm : list Z) (off n : Z) : Z :=
  zlen (List.filter (fun k => negb (bit bm (off + k))) (seqZ 0 n)).

Lemma count_range n a m : 0 <= a -> 0 <= m -> a + m <= n ->
  zlen (List.filter (in_range a m) (seqZ 0 n)) = m.
Proof.
  intros Ha Hm Hn. replace n with (a + (m + (n - a - m))) by lia.
  rewrite !seqZ_app by lia. rewrite !List.filter_app, !zlen_app.
  assert (forall l, (forall x, x ∈ l -> in_range a m x = false) -> zlen (List.filter (in_range a m) l) = 0) as H0.
  { induction l as [|x l IH]; intros H; [reflexivity|]. cbn. rewrite H by left.
    apply IH. intros y Hy. apply H. right. exact Hy. }
  assert (forall l, (forall x, x ∈ l -> in_range a m x = true) -> List.filter (in_range a m) l = l) as H1.
  { induction l as [|x l IH]; intros H; [reflexivity|]. cbn. rewrite H by left. f_equal.
    apply IH. intros y Hy. apply H. right. exact Hy. }
  rewrite H0, H1, H0.
  - unfold zlen. rewrite length_seqZ. lia.
  - intros x Hx. apply elem_of_seqZ in Hx. apply in_range_false. lia.
  - intros x Hx. apply elem_of_seqZ in Hx. apply in_range_true. lia.
  - intros x Hx. apply elem_of_seqZ in Hx. apply in_range_false. lia.
Qed.

(** The counters of a group are the clear bits of its bitmaps. *)
Lemma counters_clear inf aux i b : bg_ok inf aux i b ->
  clear_bits (bitmaps b) 0 (blocks_per_group inf) = free_blocks b /\
  clear_bits (bitmaps b) (8 * block_size inf) (inodes_per_group inf) = free_inodes b.
Proof.
  intros [F L B Fr Bi In Ib]. unfold clear_bits. split.
  - rewrite <- (count_range (blocks_per_group inf) (first_free_block b) (free_blocks b)) by lia. f_equal.
    apply filter_ext_in. intros k Hk. apply list_elem_of_In, elem_of_seqZ in Hk. rewrite Z.add_0_l, Bi by lia.
    apply negb_involutive.
  - rewrite <- (count_range (inodes_per_group inf) (first_free_inode b - 1) (free_inodes b)) by lia. f_equal.
    apply filter_ext_in. intros k Hk. apply list_elem_of_In, elem_of_seqZ in Hk. rewrite Ib by lia.
    unfold in_range. destruct (Z.ltb_spec k (first_free_inode b - 1)), (Z.leb_spec (first_free_inode b - 1) k),
      (Z.ltb_spec k (first_free_inode b - 1 + free_inodes b)); cbn; try reflexivity; lia.
Qed.

Definition with_mem (s : fs) (m : gmap Z (list Z)) : fs :=
  mk_fs (force s) (info s) (aux_info s) (bgs s) (heap s) (fresh s) (avail s) (sparse_file s) m (itab s).

(** The two fields of the super block with the sums. *)
Definition totals : field := mk_field 12 8.
(** The counters of the descriptor of group [i]. *)
Definition counters (i : Z) : field := mk_field (32 * i + 12) 6.

(** What one group adds to the super block [b] and stores in the descriptors [d]. *)
Record group_counted (g : block_group_info) (i : Z) (b d b' d' : list Z) : Prop := {
  gc_len : zlen b' = zlen b /\ zlen d' = zlen d;
  gc_blocks : get_field b' s_free_blocks_count_lo = u32 (get_field b s_free_blocks_count_lo + free_blocks g);
  gc_inodes : get_field b' s_free_inodes_count = u32 (get_field b s_free_inodes_count + free_inodes g);
  gc_b : forall o n, 0 <= o -> 0 <= n -> o + n <= zlen b -> apart totals (mk_field o n) = true ->
    sub_bytes b' o n = sub_bytes b o n;
  gc_desc : get_field d' (at_index 32 i bg_free_blocks_count) = u16 (free_blocks g) /\
            get_field d' (at_index 32 i bg_free_inodes_count) = u16 (free_inodes g) /\
            get_field d' (at_index 32 i bg_used_dirs_count) =
              u16 (get_field d (at_index 32 i bg_used_dirs_count) + used_dirs g);
  gc_d : forall o n, 0 <= o -> 0 <= n -> o + n <= zlen d -> apart (counters i) (mk_field o n) = true ->
    sub_bytes d' o n = sub_bytes d o n
}.

Lemma add_field_spec f n b : fits (zlen b) f = true ->
  exists b', add_field f n b = Ok b' /\ zlen b' = zlen b /\ get_field b' f = (get_field b f + n) mod 256 ^ f_size f /\
    (forall o k, 0 <= o -> 0 <= k -> o + k <= zlen b -> apart f (mk_field o k) = true ->
       sub_bytes b' o k = sub_bytes b o k).
Proof. intros H. apply (put_field_spec f (get_field b f + n) b H). Qed.

(** The assignments of one round. *)
Lemma group_counted_exists g i b d : 1024 <= zlen b -> 0 <= i -> 32 * (i + 1) <= zlen d ->
  exists d1 b1 d2 b2 d3,
    put_field (at_index sizeof_group_desc i bg_free_blocks_count) (free_blocks g) d = Ok d1 /\
    add_field s_free_blocks_count_lo (free_blocks g) b = Ok b1 /\
    put_field (at_index sizeof_group_desc i bg_free_inodes_count) (free_inodes g) d1 = Ok d2 /\
    add_field s_free_inodes_count (free_inodes g) b1 = Ok b2 /\
    add_field (at_index sizeof_group_desc i bg_used_dirs_count) (used_dirs g) d2 = Ok d3 /\
    group_counted g i b d b2 d3.
Proof.
  intros Hb Hi Hd. change sizeof_group_desc with 32.
  destruct (put_field_spec (at_index 32 i bg_free_blocks_count) (free_blocks g) d) as (d1 & E1 & L1 & G1 & O1).
  { unfold fits. cbn. rewrite !andb_true_iff, !Z.leb_le. lia. }
  destruct (add_field_spec s_free_blocks_count_lo (free_blocks g) b) as (b1 & E2 & L2 & G2 & O2);
    [apply (fits_more 1024); [lia|reflexivity]|].
  destruct (put_field_spec (at_index 32 i bg_free_inodes_count) (free_inodes g) d1) as (d2 & E3 & L3 & G3 & O3).
  { unfold fits. cbn. rewrite !andb_true_iff, !Z.leb_le. lia. }
  destruct (add_field_spec s_free_inodes_count (free_inodes g) b1) as (b2 & E4 & L4 & G4 & O4);
    [apply (fits_more 1024); [lia|reflexivity]|].
  destruct (add_field_spec (at_index 32 i bg_used_dirs_count) (used_dirs g) d2) as (d3 & E5 & L5 & G5 & O5).
  { unfold fits. cbn. rewrite !andb_true_iff, !Z.leb_le. lia. }
  exists d1, b1, d2, b2, d3. repeat (split; [assumption|]). unfold get_field in *. unfold apart in *.
  cbn [f_off f_size at_index bg_free_blocks_count bg_free_inodes_count bg_used_dirs_count s_free_blocks_count_lo
    s_free_inodes_count totals counters] in *. split.
  - lia.
  - unfold get_field. cbn. rewrite O4; [exact G2|lia|lia|lia|reflexivity].
  - unfold get_field. cbn. rewrite G4, O2; [reflexivity|lia|lia|lia|reflexivity].
  - intros o n Ho Hn Hz Ha. apply orb_true_iff in Ha. rewrite !Z.leb_le in Ha. cbn in Ha.
    rewrite O4, O2 by lia. reflexivity.
  - unfold get_field. cbn [f_off f_size at_index bg_free_blocks_count bg_free_inodes_count bg_used_dirs_count].
    split; [|split].
    + rewrite O5, O3 by lia. exact G1.
    + rewrite O5 by lia. exact G3.
    + rewrite G5, O3, O1 by lia. reflexivity.
  - intros o n Ho Hn Hz Ha. unfold apart in Ha. cbn in Ha. apply orb_true_iff in Ha. rewrite !Z.leb_le in Ha.
    rewrite O5, O3, O1 by lia. reflexivity.
Qed.


Lemma with_mem_ok s m : fs_ok s -> fs_ok (with_mem s m).
Proof. intros [G N B]. split; assumption. Qed.

Lemma update_with_mem s m p f b b' : m !! p = Some b -> f b = Ok b' ->
  update_mem p f (with_mem s m) = Ok (Some tt, with_mem s (<[p := b']> m)).
Proof. intros Hb Hf. exact (update_mem_spec (with_mem s m) p f b b' Hb Hf). Qed.

(** One round. *)
Lemma update_round s m p i g b d ids : 0 <= i -> bgs s !! Z.to_nat i = Some g ->
  m !! sb p = Some b -> m !! bg_desc p = Some d -> sb p <> bg_desc p ->
  1024 <= zlen b -> 32 * (i + 1) <= zlen d ->
  exists b' d', update_loop (i :: ids) p (with_mem s m) =
      update_loop ids p (with_mem s (<[sb p := b']> (<[bg_desc p := d']> m))) /\ group_counted g i b d b' d'.
Proof.
  intros Hi Hg Hb Hd Hne Lb Ld.
  destruct (group_counted_exists g i b d Lb Hi Ld) as (d1 & b1 & d2 & b2 & d3 & E1 & E2 & E3 & E4 & E5 & GC).
  exists b2, d3. split; [|exact GC].
  assert (get_bg i (with_mem s m) = Ok (Some g, with_mem s m)) as Eg by (apply get_bg_eq; [exact Hi|exact Hg]).
  assert (forall m', get_bg i (with_mem s m') = Ok (Some g, with_mem s m')) as Eg' by (intros m'; apply get_bg_eq; [exact Hi|exact Hg]).
  assert (get_free_blocks i (with_mem s m) = Ok (Some (free_blocks g), with_mem s m)) as F1
    by (unfold get_free_blocks; rewrite (bind_eq _ _ _ _ _ Eg); reflexivity).
  assert (get_free_inodes i (with_mem s m) = Ok (Some (free_inodes g), with_mem s m)) as F2
    by (unfold get_free_inodes; rewrite (bind_eq _ _ _ _ _ Eg); reflexivity).
  cbn [update_loop]. rewrite (bind_eq _ _ _ _ _ F1), (bind_eq _ _ _ _ _ F2).
  set (m1 := <[bg_desc p := d1]> m). set (m2 := <[sb p := b1]> m1). set (m3 := <[bg_desc p := d2]> m2).
  set (m4 := <[sb p := b2]> m3). set (m5 := <[bg_desc p := d3]> m4).
  assert (get_directories i (with_mem s m4) = Ok (Some (used_dirs g), with_mem s m4)) as F3
    by (unfold get_directories; rewrite (bind_eq _ _ _ _ _ (Eg' m4)); reflexivity).
  rewrite (bind_eq _ _ _ _ _ (update_with_mem s m _ _ _ _ Hd E1)). fold m1.
  rewrite (bind_eq _ _ _ _ _ (update_with_mem s m1 (sb p) _ b b1 ltac:(unfold m1; rewrite lookup_insert_ne by congruence; exact Hb) E2)). fold m2.
  rewrite (bind_eq _ _ _ _ _ (update_with_mem s m2 (bg_desc p) _ d1 d2
    ltac:(unfold m2, m1; rewrite lookup_insert_ne, lookup_insert_eq by congruence; reflexivity) E3)). fold m3.
  rewrite (bind_eq _ _ _ _ _ (update_with_mem s m3 (sb p) _ b1 b2
    ltac:(unfold m3, m2; rewrite lookup_insert_ne, lookup_insert_eq by congruence; reflexivity) E4)). fold m4.
  rewrite (bind_eq _ _ _ _ _ F3).
  rewrite (bind_eq _ _ _ _ _ (update_with_mem s m4 (bg_desc p) _ d2 d3
    ltac:(unfold m4, m3; rewrite lookup_insert_ne, lookup_insert_eq by congruence; reflexivity) E5)). fold m5.
  f_equal. f_equal. unfold m5, m4, m3, m2, m1. apply map_eq. intros a.
  destruct (decide (a = sb p)) as [->|H1]; [rewrite lookup_insert_ne, !lookup_insert_eq by congruence; reflexivity|].
  destruct (decide (a = bg_desc p)) as [->|H2];
    [rewrite (lookup_insert_ne _ (sb p) (bg_desc p)), !lookup_insert_eq by congruence; reflexivity|].
  rewrite !lookup_insert_ne by congruence. reflexivity.
Qed.

(** All groups from [k] on. *)
Record all_counted (s : fs) (k : Z) (b d b' d' : list Z) : Prop := {
  ac_len : zlen b' = zlen b /\ zlen d' = zlen d;
  ac_blocks : get_field b' s_free_blocks_count_lo =
    u32 (get_field b s_free_blocks_count_lo + sum_of free_blocks (drop (Z.to_nat k) (bgs s)));
  ac_inodes : get_field b' s_free_inodes_count =
    u32 (get_field b s_free_inodes_count + sum_of free_inodes (drop (Z.to_nat k) (bgs s)));
  ac_b : forall o n, 0 <= o -> 0 <= n -> o + n <= zlen b -> apart totals (mk_field o n) = true ->
    sub_bytes b' o n = sub_bytes b o n;
  ac_desc : forall i g, k <= i -> bgs s !! Z.to_nat i = Some g ->
    get_field d' (at_index 32 i bg_free_blocks_count) = u16 (free_blocks g) /\
    get_field d' (at_index 32 i bg_free_inodes_count) = u16 (free_inodes g) /\
    get_field d' (at_index 32 i bg_used_dirs_count) =
      u16 (get_field d (at_index 32 i bg_used_dirs_count) + used_dirs g);
  ac_before : forall o n, 0 <= o -> 0 <= n -> o + n <= 32 * k -> o + n <= zlen d -> sub_bytes d' o n = sub_bytes d o n;
  ac_d : forall i g, k <= i -> bgs s !! Z.to_nat i = Some g -> sub_bytes d' (32 * i) 12 = sub_bytes d (32 * i) 12
}.

Lemma u32_add_l x y : u32 (u32 x + y) = u32 (x + y).
Proof. unfold u32. apply Zplus_mod_idemp_l. Qed.

Lemma all_counted_step s k g b d b1 d1 b2 d2 : 0 <= k -> bgs s !! Z.to_nat k = Some g ->
  32 * zlen (bgs s) <= zlen d -> 1024 <= zlen b ->
  group_counted g k b d b1 d1 -> all_counted s (k + 1) b1 d1 b2 d2 -> all_counted s k b d b2 d2.
Proof.
  intros Hk Hg Ld Lb [(L1 & L1') B1 I1 O1 (D1 & D2 & D3) P1] [(L2 & L2') B2 I2 O2 D4 P2 Q2].
  pose proof (lookup_lt_Some _ _ _ Hg) as Hlt.
  assert (drop (Z.to_nat k) (bgs s) = g :: drop (Z.to_nat (k + 1)) (bgs s)) as Ed
    by (rewrite (drop_S _ _ _ Hg); do 2 f_equal; lia).
  assert (forall i h, k + 1 <= i -> bgs s !! Z.to_nat i = Some h -> 32 * (i + 1) <= zlen d) as Hi.
  { intros i h Hi Hh. apply lookup_lt_Some in Hh. unfold zlen in *. lia. }
  assert (32 * (k + 1) <= zlen d) as Hkd by (unfold zlen in *; lia).
  assert (forall o n, 32 * (k + 1) <= o -> 0 <= n -> o + n <= zlen d -> sub_bytes d1 o n = sub_bytes d o n) as Hlate
    by (intros o n Ho Hn Hz; apply P1; unfold apart; cbn; lia).
  unfold get_field in *. split.
  - lia.
  - rewrite Ed. change (sum_of free_blocks (g :: ?l)) with (free_blocks g + sum_of free_blocks l).
    unfold get_field. rewrite B2, B1, u32_add_l. f_equal. lia.
  - rewrite Ed. change (sum_of free_inodes (g :: ?l)) with (free_inodes g + sum_of free_inodes l).
    unfold get_field. rewrite I2, I1, u32_add_l. f_equal. lia.
  - intros o n Ho Hn Hz Ha. rewrite O2 by (try assumption; lia). apply O1; assumption.
  - intros i h Hi' Hh. unfold get_field in *. destruct (decide (i = k)) as [->|Hne].
    + rewrite Hg in Hh. injection Hh as <-. cbn [f_off f_size at_index bg_free_blocks_count bg_free_inodes_count bg_used_dirs_count] in *.
      rewrite !P2 by lia. auto.
    + destruct (D4 i h ltac:(lia) Hh) as (-> & -> & ->). split; [reflexivity|]. split; [reflexivity|].
      specialize (Hi i h ltac:(lia) Hh). cbn [f_off f_size at_index bg_used_dirs_count]. rewrite Hlate by lia. reflexivity.
  - intros o n Ho Hn Hz Hz'. rewrite P2 by lia. apply P1; unfold apart; cbn; lia.
  - intros i h Hi' Hh. destruct (decide (i = k)) as [->|Hne].
    + rewrite P2 by lia. apply P1; unfold apart; cbn; lia.
    + specialize (Hi i h ltac:(lia) Hh). rewrite (Q2 i h) by (try assumption; lia). apply Hlate; lia.
Qed.

Definition in_word (b : list Z) : Prop :=
  0 <= get_field b s_free_blocks_count_lo < 2 ^ 32 /\ 0 <= get_field b s_free_inodes_count < 2 ^ 32.

Lemma count_free_spec n : forall k s m p b d, 0 <= k -> k + Z.of_nat n = zlen (bgs s) ->
  m !! sb p = Some b -> m !! bg_desc p = Some d -> sb p <> bg_desc p ->
  1024 <= zlen b -> 32 * zlen (bgs s) <= zlen d -> in_word b ->
  exists b' d', update_loop (seqZ k (Z.of_nat n)) p (with_mem s m) =
      Ok (Some tt, with_mem s (<[sb p := b']> (<[bg_desc p := d']> m))) /\ all_counted s k b d b' d'.
Proof.
  induction n as [|n IH]; intros k s m p b d Hk Hn Hb Hd Hne Lb Ld (W1 & W2).
  - exists b, d. split.
    + change (seqZ k (Z.of_nat 0)) with (@nil Z). cbn. f_equal. f_equal. f_equal.
      rewrite (insert_id m (bg_desc p)) by exact Hd. rewrite insert_id by exact Hb. reflexivity.
    + assert (drop (Z.to_nat k) (bgs s) = []) as Ed by (apply drop_ge; unfold zlen in Hn; lia).
      split; rewrite ?Ed; auto; cbn; rewrite ?Z.add_0_r, ?u32_id by assumption; auto;
        intros i g Hi Hg; apply lookup_lt_Some in Hg; unfold zlen in Hn; lia.
  - destruct (lookup_lt_is_Some_2 (bgs s) (Z.to_nat k)) as [g Hg]; [unfold zlen in Hn; lia|].
    rewrite seqZ_cons by lia. replace (Z.pred (Z.of_nat (S n))) with (Z.of_nat n) by lia.
    destruct (update_round s m p k g b d (seqZ (Z.succ k) (Z.of_nat n)) Hk Hg Hb Hd Hne Lb) as (b1 & d1 & E & GC);
      [lia|]. rewrite E. pose proof GC as [(L1 & L2) B1 I1 _ _ _].
    destruct (IH (Z.succ k) s (<[sb p := b1]> (<[bg_desc p := d1]> m)) p b1 d1) as (b2 & d2 & E2 & AC);
      [lia|lia|apply lookup_insert_eq|rewrite lookup_insert_ne, lookup_insert_eq by congruence; reflexivity|exact Hne|lia|lia
      |split; [rewrite B1|rewrite I1]; apply u32_range|].
    exists b2, d2. split; [|exact (all_counted_step s k g b d b1 d1 b2 d2 Hk Hg Ld Lb GC AC)].
    rewrite E2. f_equal. f_equal. f_equal. apply map_eq. intros a.
    destruct (decide (a = sb p)) as [->|H1]; [rewrite !lookup_insert_eq; reflexivity|].
    rewrite !(lookup_insert_ne _ (sb p)) by congruence.
    destruct (decide (a = bg_desc p)) as [->|H2]; [rewrite !lookup_insert_eq; reflexivity|].
    rewrite !(lookup_insert_ne _ (bg_desc p)), (lookup_insert_ne _ (sb p)), (lookup_insert_ne _ (bg_desc p)) by congruence.
    reflexivity.
Qed.

Lemma update_free_spec s p b d : fs_ok s -> mem s !! sb p = Some b -> mem s !! bg_desc p = Some d ->
  sb p <> bg_desc p -> 1024 <= zlen b -> 32 * groups (aux_info s) <= zlen d ->
  get_field b s_free_blocks_count_lo = 0 -> get_field b s_free_inodes_count = 0 ->
  exists b' d', ext4_update_free p s = Ok (Some tt, with_mem s (<[sb p := b']> (<[bg_desc p := d']> (mem s)))) /\
    zlen b' = zlen b /\ zlen d' = zlen d /\
    (forall i g, 0 <= i -> bgs s !! Z.to_nat i = Some g ->
       get_field d' (at_index 32 i bg_free_blocks_count) =
         u16 (clear_bits (bitmaps g) 0 (blocks_per_group (info s))) /\
       get_field d' (at_index 32 i bg_free_inodes_count) =
         u16 (clear_bits (bitmaps g) (8 * block_size (info s)) (inodes_per_group (info s))) /\
       get_field d' (at_index 32 i bg_used_dirs_count) =
         u16 (get_field d (at_index 32 i bg_used_dirs_count) + used_dirs g) /\
       sub_bytes d' (32 * i) 12 = sub_bytes d (32 * i) 12) /\
    get_field b' s_free_blocks_count_lo =
      u32 (sum_of (fun g => clear_bits (bitmaps g) 0 (blocks_per_group (info s))) (bgs s)) /\
    get_field b' s_free_inodes_count =
      u32 (sum_of (fun g => clear_bits (bitmaps g) (8 * block_size (info s)) (inodes_per_group (info s))) (bgs s)) /\
    (forall o n, 0 <= o -> 0 <= n -> o + n <= zlen b -> apart totals (mk_field o n) = true ->
       sub_bytes b' o n = sub_bytes b o n).
Proof.
  intros Hfs Hb Hd Hne Lb Ld Z1 Z2. pose proof (fs_groups _ Hfs) as Hg.
  destruct (count_free_spec (length (bgs s)) 0 s (mem s) p b d ltac:(lia) ltac:(unfold zlen; lia) Hb Hd Hne Lb)
    as (b' & d' & E & [(L1 & L2) B I O D _ Q]); [lia|split; rewrite ?Z1, ?Z2; lia|].
  assert (forall i g, 0 <= i -> bgs s !! Z.to_nat i = Some g ->
    clear_bits (bitmaps g) 0 (blocks_per_group (info s)) = free_blocks g /\
    clear_bits (bitmaps g) (8 * block_size (info s)) (inodes_per_group (info s)) = free_inodes g) as Hc.
  { intros i g Hi Hgi. exact (counters_clear _ _ i g (fs_bgs _ Hfs i g Hi Hgi)). }
  assert (forall (f h : block_group_info -> Z) l, (forall i g, l !! i = Some g -> f g = h g) -> sum_of f l = sum_of h l) as Hsum.
  { intros f h. induction l as [|x l IHl]; intros H; [reflexivity|].
    change (f x + sum_of f l = h x + sum_of h l). rewrite (H 0%nat x eq_refl). f_equal. apply IHl.
    intros i g Hi. exact (H (S i) g Hi). }
  exists b', d'. split; [|split; [exact L1|split; [exact L2|]]].
  { unfold ext4_update_free, bind, get_state. rewrite <- Hg. unfold zlen. destruct s; exact E. }
  rewrite Z1 in B. rewrite Z2 in I. change (drop (Z.to_nat 0) (bgs s)) with (bgs s) in *.
  split; [|split; [rewrite B|split; [rewrite I|exact O]]].
  - intros i g Hi Hgi. destruct (Hc i g Hi Hgi) as (-> & ->). destruct (D i g Hi Hgi) as (D1 & D2 & D3).
    repeat (split; [assumption|]). exact (Q i g Hi Hgi).
  - f_equal. rewrite Z.add_0_l. apply Hsum. intros i g Hgi. symmetry.
    apply (Hc (Z.of_nat i) g); [lia|rewrite Nat2Z.id; exact Hgi].
  - f_equal. rewrite Z.add_0_l. apply Hsum. intros i g Hgi. symmetry.
    apply (Hc (Z.of_nat i) g); [lia|rewrite Nat2Z.id; exact Hgi].
Qed.

(** The counters of the image. [ext4_update_free] stores for each group the
    number of clear bits of its two bitmaps and adds its directories, the super
    block gets the sums, and no other byte of the two buffers changes. *)
Theorem ext4_update_free_correct s p b d : fs_ok s -> mem s !! sb p = Some b -> mem s !! bg_desc p = Some d ->
  sb p <> bg_desc p -> 1024 <= zlen b -> 32 * groups (aux_info s) <= zlen d ->
  get_field b s_free_blocks_count_lo = 0 -> get_field b s_free_inodes_count = 0 ->
  exists b' d', ext4_update_free p s = Ok (Some tt, with_mem s (<[sb p := b']> (<[bg_desc p := d']> (mem s)))) /\
    zlen b' = zlen b /\ zlen d' = zlen d /\
    (forall i g, 0 <= i -> bgs s !! Z.to_nat i = Some g ->
       get_field d' (at_index 32 i bg_free_blocks_count) =
         u16 (clear_bits (bitmaps g) 0 (blocks_per_group (info s))) /\
       get_field d' (at_index 32 i bg_free_inodes_count) =
         u16 (clear_bits (bitmaps g) (8 * block_size (info s)) (inodes_per_group (info s))) /\
       get_field d' (at_index 32 i bg_used_dirs_count) =
         u16 (get_field d (at_index 32 i bg_used_dirs_count) + used_dirs g) /\
       sub_bytes d' (32 * i) 12 = sub_bytes d (32 * i) 12) /\
    get_field b' s_free_blocks_count_lo =
      u32 (sum_of (fun g => clear_bits (bitmaps g) 0 (blocks_per_group (info s))) (bgs s)) /\
    get_field b' s_free_inodes_count =
      u32 (sum_of (fun g => clear_bits (bitmaps g) (8 * block_size (info s)) (inodes_per_group (info s))) (bgs s)) /\
    (forall o n, 0 <= o -> 0 <= n -> o + n <= zlen b -> apart totals (mk_field o n) = true ->
       sub_bytes b' o n = sub_bytes b o n).
Proof. exact (update_free_spec s p b d). Qed.

(** Three groups: the last one has less blocks, no inode is used. *)
Definition counted_fs : fs := with_mem demo_fs (<[100 := zeros 1024]> (<[2000 := zeros 96]> ∅)).

Lemma ext4_update_free_correct_witness :
  exists b' d', ext4_update_free (mk_super 100 None 2000) counted_fs =
      Ok (Some tt, with_mem counted_fs (<[100 := b']> (<[2000 := d']> (mem counted_fs)))) /\
    get_field b' s_free_inodes_count = 48 /\ get_field b' s_free_blocks_count_lo = 90.
Proof.
  pose proof (with_mem_ok demo_fs (<[100 := zeros 1024]> (<[2000 := zeros 96]> ∅)) (proj1 demo_fs_ok)) as Hfs.
  destruct (ext4_update_free_correct counted_fs (mk_super 100 None 2000) (zeros 1024) (zeros 96) Hfs)
    as (b' & d' & E & _ & _ & _ & B & I & _);
    [reflexivity|reflexivity|discriminate|vm_compute; discriminate|vm_compute; discriminate|reflexivity|reflexivity|].
  exists b', d'. split; [exact E|]. rewrite B, I. split; vm_compute; reflexivity.
Defined.


End Ext4SuperProps.
