(* ===== verification/Ext4Disk.v ===== *)
(** * An ext4 image as bytes

    The inode as it is in memory and on disk, and a reader of an image: from
    the super block to the block bitmaps and the files, with nothing but the
    bytes of the image to go by. *)

From S2P Require Import Prelude Ext4Utils Ext4Alloc Ext4AllocProps Ext4Extent Ext4Contents Ext4ContentsProps Ext4Super Ext4SuperProps.

Module Ext4Disk.
Import Ext4Utils Ext4Alloc Ext4AllocProps Ext4Extent Ext4Contents Ext4ContentsProps Ext4Super Ext4SuperProps.

(** ** The inode *)

(** [struct ext4_inode]; the fields the program never sets are zero. *)
Definition inode_bytes (i : ext4_inode) : list Z :=
  le_bytes 2 (i_mode i) ++ le_bytes 2 (i_uid i) ++ le_bytes 4 (i_size_lo i) ++ le_bytes 4 (i_atime i) ++
  le_bytes 4 (i_ctime i) ++ le_bytes 4 (i_mtime i) ++ zeros 4 ++ le_bytes 2 (i_gid i) ++
  le_bytes 2 (i_links_count i) ++ le_bytes 4 (i_blocks_lo i) ++ le_bytes 4 (i_flags i) ++ zeros 4 ++
  take 60 (i_block i ++ zeros 60) ++ zeros 8 ++ le_bytes 4 (i_size_high i) ++ zeros 4 ++
  le_bytes 2 (l_i_blocks_high i) ++ zeros 38.

(** An inode of a table whose inodes are [isz] bytes apart. *)
Definition inode_slot (isz : Z) (i : ext4_inode) : list Z :=
  take (Z.to_nat isz) (inode_bytes i ++ zeros isz).

Definition inode_of_bytes (b : list Z) : ext4_inode :=
  let get o n := le_val (sub_bytes b o n) in
  mk_inode (get 0 2) (get 2 2) (get 4 4) (get 8 4) (get 12 4) (get 16 4) (get 24 2) (get 26 2) (get 28 4) (get 32 4)
    (sub_bytes b 40 60) (get 108 4) (get 116 2).

(** ** The image *)

(** A block of the image, if it is inside. *)
Definition disk_block (bs : Z) (img : list Z) (x : Z) : option (list Z) :=
  if (0 <=? x) && ((x + 1) * bs <=? zlen img) then Some (sub_bytes img (x * bs) bs) else None.

Fixpoint disk_blocks (bs : Z) (img : list Z) (l : list Z) : option (list Z) :=
  match l with
  | [] => Some []
  | x :: l' =>
      match disk_block bs img x, disk_blocks bs img l' with
      | Some b, Some r => Some (b ++ r)
      | _, _ => None
      end
  end.

(** What the super block says. *)
Record disk := mk_disk {
  d_block_size : Z;
  d_first : Z;
  d_blocks : Z;
  d_blocks_per_group : Z;
  d_inodes_per_group : Z;
  d_inode_size : Z;
  d_free_blocks : Z;
  d_free_inodes : Z
}.

Definition read_super (img : list Z) : option disk :=
  let get f := get_field (sub_bytes img 1024 1024) f in
  if negb (get s_magic =? EXT4_SUPER_MAGIC) || (10 <? get s_log_block_size) then None
  else Some (mk_disk (1024 * 2 ^ get s_log_block_size) (get s_first_data_block)
    (get s_blocks_count_lo + 2 ^ 32 * get s_blocks_count_hi) (get s_blocks_per_group) (get s_inodes_per_group)
    (get s_inode_size) (get s_free_blocks_count_lo) (get s_free_inodes_count)).

Definition d_groups (d : disk) : Z := DIV_ROUND_UP (d_blocks d - d_first d) (d_blocks_per_group d).

(** A field of the descriptor of group [g]: the descriptors are behind the super
    block. *)
Definition read_desc (d : disk) (img : list Z) (g : Z) (f : field) : Z :=
  get_field (sub_bytes img ((d_first d + 1) * d_block_size d + 32 * g) 32) f.

(** The inode [ino], and its contents. *)
Definition read_inode_at (d : disk) (img : list Z) (ino : Z) : ext4_inode :=
  let g := (ino - 1) / d_inodes_per_group d in
  let k := (ino - 1) mod d_inodes_per_group d in
  inode_of_bytes (sub_bytes img (read_desc d img g bg_inode_table * d_block_size d + k * d_inode_size d) (d_inode_size d)).

Definition read_file (d : disk) (img : list Z) (ino : Z) : option (list Z) :=
  let i := read_inode_at d img ino in
  match file_blocks (disk_block (d_block_size d) img) i with
  | Some blocks =>
      match disk_blocks (d_block_size d) img blocks with
      | Some b => if i_size_lo i <=? zlen b then Some (take (Z.to_nat (i_size_lo i)) b) else None
      | None => None
      end
  | None => None
  end.

(** The entries of the directory [ino]: the inode of each, the name and the kind. *)
Definition read_directory (d : disk) (img : list Z) (ino : Z) : option (list entry) :=
  if Z.land (i_mode (read_inode_at d img ino)) 0xf000 =? S_IFDIR then
    match read_file d img ino with
    | Some b => dir_entries (d_block_size d) b
    | None => None
    end
  else None.

(** The blocks and the inodes the bitmaps of group [g] have free. *)
Definition bitmap_blocks (d : disk) (img : list Z) (g : Z) : Z :=
  clear_bits (sub_bytes img (read_desc d img g bg_block_bitmap * d_block_size d) (d_block_size d)) 0 (d_blocks_per_group d).
Definition bitmap_inodes (d : disk) (img : list Z) (g : Z) : Z :=
  clear_bits (sub_bytes img (read_desc d img g bg_inode_bitmap * d_block_size d) (d_block_size d)) 0 (d_inodes_per_group d).

(** The counts of the descriptors and of the super block are what the bitmaps
    say. *)
Definition counts_agree (d : disk) (img : list Z) : bool :=
  forallb (fun g => (read_desc d img g bg_free_blocks_count =? bitmap_blocks d img g) &&
                    (read_desc d img g bg_free_inodes_count =? bitmap_inodes d img g)) (seqZ 0 (d_groups d)) &&
  (d_free_blocks d =? sum_of (bitmap_blocks d img) (seqZ 0 (d_groups d))) &&
  (d_free_inodes d =? sum_of (bitmap_inodes d img) (seqZ 0 (d_groups d))).

End Ext4Disk.
