(* ===== verification/MakeExt4fs.v ===== *)
(** * make_ext4fs.c: making a file system

    The tree of a directory of the host is copied into the image, or the tree of
    an empty file system is made; around it the parameters are chosen, the
    allocator and the super block set up, the journal and the resize inode
    made, and the image is written. *)

From S2P Require Import Prelude Posix BackedBlock OutputFile SparseFile Ext4Utils Ext4Alloc Ext4Extent Ext4Indirect Ext4Contents Ext4Super.

Module MakeExt4fs.
Import Ext4Utils Ext4Alloc Ext4Extent Ext4Indirect Ext4Contents Ext4Super.
Module OF := OutputFile.OutputFile.

(** ** The directory tree of the host *)

Inductive file_kind := K_REG | K_DIR | K_CHR | K_BLK | K_FIFO | K_SOCK | K_LNK | K_OTHER.

(** [struct stat]: the kind and the permission bits of [st_mode]. *)
Record stat := mk_stat { st_kind : file_kind; st_perm : Z; st_size : Z; st_mtime : Z }.

(** What the system answers: [scandir] the names of a directory in the order of
    [alphasort], [None] for a failure; [lstat] and [readlink] of a path. *)
Class host_tree := {
  scandir : string -> option (list string);
  lstat : string -> option stat;
  readlink : string -> option (list Z)
}.

Definition filter_dot (d_name : string) : bool :=
  negb (String.eqb d_name "..") && negb (String.eqb d_name ".").

Definition EXT4_FT_CHRDEV : Z := 3.
Definition EXT4_FT_BLKDEV : Z := 4.
Definition EXT4_FT_FIFO : Z := 5.
Definition EXT4_FT_SOCK : Z := 6.

(** [struct dentry], with the fields set here; [link] is the buffer, [None] for
    a null pointer. [secon] stays null. *)
Record entry := mk_entry {
  path : string;
  full_path : string;
  name : string;
  link : option (list Z);
  size : Z;
  type : Z;
  mode : Z;
  uid : Z;
  gid : Z;
  mtime : Z
}.

Definition as_dentry (e : entry) : dentry := mk_dentry (chars (name e)) (type e).

(** [asprintf(&p, "%s/%s", dir, name)] *)
Definition join (dir name : string) : string := (dir +:+ "/" +:+ name)%string.

(** An allocation of the C library that must succeed: [strdup] is tested,
    [asprintf] is not. *)
Definition strdup : M unit :=
  let* p := malloc in match p with Some _ => ret tt | None => critical_error end.
Definition asprintf : M unit :=
  let* p := malloc in match p with Some _ => ret tt | None => undef end.

(** The buffer for a link, of [info.block_size] bytes, and what [readlink] stores
    there: at most one byte less. *)
Definition read_link (target : option (list Z)) : M (option (list Z)) :=
  let* s := get_state in
  let n := block_size (info s) in
  let* p := malloc in
  ret (match p with
       | None => None
       | Some _ => Some (take (Z.to_nat n) (take (Z.to_nat (n - 1)) (default [] target) ++ zeros n))
       end).

(** The type of the entry, [None] for the last branch. *)
Definition type_of (k : file_kind) : option Z :=
  match k with
  | K_REG => Some EXT4_FT_REG_FILE
  | K_DIR => Some EXT4_FT_DIR
  | K_CHR => Some EXT4_FT_CHRDEV
  | K_BLK => Some EXT4_FT_BLKDEV
  | K_FIFO => Some EXT4_FT_FIFO
  | K_SOCK => Some EXT4_FT_SOCK
  | K_LNK => Some EXT4_FT_SYMLINK
  | K_OTHER => None
  end.

Section Host.
Context {host : host_tree}.

(** The loop that fills in the entries. An entry that cannot be examined is
    given up when [force] is set: [i] and [entries] are decremented, and the next
    round reads [namelist[i]] again, which is freed by then, unless the entry
    was the last one. [config] is whether [fs_config_func] is given. *)
Fixpoint scan_entries (config : bool) (full dir : string) (names : list string) (dirs : Z)
  : M (list entry * Z) :=
  match names with
  | [] => ret ([], dirs)
  | d_name :: names =>
      let skip_entry : M (list entry * Z) :=
        let* _ := error in
        match names with [] => ret ([], dirs) | _ :: _ => undef end in
      let* _ := strdup in
      let* _ := asprintf in
      let* _ := asprintf in
      match lstat (join full d_name) with
      | None => skip_entry
      | Some st =>
          let* _ := if config then error else ret tt in
          match type_of (st_kind st) with
          | None => skip_entry
          | Some t =>
              let dirs := if t =? EXT4_FT_DIR then u32 (dirs + 1) else dirs in
              let* l := if t =? EXT4_FT_SYMLINK then read_link (readlink (join full d_name)) else ret None in
              let e := mk_entry (join dir d_name) (join full d_name) d_name l (u32 (st_size st)) t
                         (Z.land (st_perm st) 0xfff) 0 0 (u32 (st_mtime st)) in
              let* (es, dirs) := scan_entries config full dir names dirs in
              ret (e :: es, dirs)
          end
      end
  end.

(** The loop over the entries; [build] is the recursive call. *)
Fixpoint make_entries (build : string -> string -> Z -> M Z) (inode : Z) (es : list entry)
    (places : list (Z * Z)) : M unit :=
  match es with
  | [] => ret tt
  | e :: es =>
      let* entry_inode :=
        if type e =? EXT4_FT_REG_FILE then make_file (full_path e) (size e)
        else if type e =? EXT4_FT_DIR then build (full_path e) (path e) inode
        else if type e =? EXT4_FT_SYMLINK then
          match link e with None => undef | Some l => make_link (c_string l) end
        else let* _ := error in ret 0 in
      match places with
      | [] => undef
      | p :: places =>
          let* _ := fill_inode p entry_inode in
          let* r := inode_set_permissions entry_inode (mode e) (uid e) (gid e) (mtime e) in
          let* _ := if negb (r =? 0) then error else ret tt in
          let* r := inode_set_selinux entry_inode None in
          let* _ := if negb (r =? 0) then error else ret tt in
          make_entries build inode es places
      end
  end.

(** One call for each level of the tree. *)
Fixpoint build_directory_structure (fuel : nat) (config : bool) (full dir : string) (dir_inode : Z)
  : M Z :=
  match fuel with
  | O => nofuel
  | S f =>
      match scandir full with
      | None => let* _ := error in ret EXT4_ALLOCATE_FAILED
      | Some names =>
          let* p := malloc in
          match p with
          | None => critical_error
          | Some _ =>
              let* (es, dirs) := scan_entries config full dir (List.filter filter_dot names) 0 in
              let* (inode, places) := make_directory dir_inode (map as_dentry es) dirs in
              let* _ := make_entries (build_directory_structure f config) inode es places in
              ret inode
          end
      end
  end.

(** ** [make_ext4fs_internal] *)

(** The arguments, and the answers of [fstat] and [ioctl] for the size. *)
Record request := mk_request {
  rq_fstat : option st_mode;
  rq_ioctl : Z * Z;
  rq_directory : option string;
  rq_mountpoint : string;
  rq_config : bool;
  rq_wipe : bool;
  rq_init_itabs : bool
}.

(** [S_IRWXU | S_IRGRP | S_IXGRP | S_IROTH | S_IXOTH] *)
Definition root_mode : Z := 0x1ed.

Definition new_sparse_file : M unit :=
  let* s := get_state in
  let* p := malloc in
  let* q := malloc in
  match SparseFile.sparse_file_new (match p with Some _ => true | None => false end,
                                    match q with Some _ => true | None => false end)
          (block_size (info s)) (len (info s)) with
  | Some f => let* s := get_state in put_state (set_sparse s f)
  | None => undef
  end.

(** The tree: [depth] bounds the levels of the host's directory. *)
Definition build_tree (depth : nat) (rq : request) : M Z :=
  match rq_directory rq with
  | Some directory => build_directory_structure depth (rq_config rq) directory (rq_mountpoint rq) 0
  | None => build_default_directory_structure
  end.

(** From the set-up of the allocator to the queue with everything in it. *)
Definition fill_image (stack : list Z) (depth : nat) (rq : request) (a : super) : M super :=
  let* _ := block_allocator_init in
  let* a := ext4_fill_in_sb stack a in
  let* r := reserve_inodes 0 10 in
  let* _ := if r =? EXT4_ALLOCATE_FAILED then error else ret tt in
  let* s := get_state in
  let* _ := if negb (Z.land (feat_compat (info s)) EXT4_FEATURE_COMPAT_HAS_JOURNAL =? 0)
            then ext4_create_journal_inode a else ret tt in
  let* _ := if negb (Z.land (feat_compat (info s)) EXT4_FEATURE_COMPAT_RESIZE_INODE =? 0)
            then ext4_create_resize_inode else ret tt in
  let* root_inode_num := build_tree depth rq in
  let* _ := inode_set_permissions root_inode_num root_mode 0 0 0 in
  let* _ := ext4_update_free a in
  let* _ := if rq_init_itabs rq then init_unused_inode_tables else ret tt in
  let* _ := ext4_queue_sb a in
  ret a.

(** The computation up to the point where the image is written; [None] is a
    length that is not known. *)
Definition make_image (stack : list Z) (depth : nat) (rq : request) : M (option super) :=
  let* s := get_state in
  let fd_size := get_file_size (len (info s)) (rq_fstat rq) (fst (rq_ioctl rq)) (snd (rq_ioctl rq)) in
  let* i := lift (choose_parameters fd_size (info s)) in
  match i with
  | None => ret None
  | Some i =>
      let* _ := put_state (set_info s i) in
      let* a := create_fs_aux_info in
      let* _ := new_sparse_file in
      let* a := fill_image stack depth rq a in
      ret (Some a)
  end.

End Host.

(** ** Writing *)

Section Device.
Context {host : host_tree} {W : Type} (ops : OF.output_file_ops W) (mem_of : fs -> OF.host).
Context (secdiscard discard : W -> W * Z).

(** [wipe.c]: the two requests of the device. *)
Definition wipe_block_device (w : W) : W * Z :=
  let '(w, ret) := secdiscard w in
  if ret <? 0 then
    let '(w, ret) := discard w in
    if ret <? 0 then (w, 1) else (w, 0)
  else (w, 0).

(** The result of the library is dropped. *)
Definition write_ext4_image (w : W) (fd : Posix.file) (alloc : bool) (allocs : bool * bool)
    (sparse crc : bool) (s : fs) : outcome W :=
  let! (w, _) := SparseFile.sparse_file_write ops (mem_of s) (sparse_file s) w fd alloc allocs sparse crc in
  Ok w.

(** The status (EXIT_FAILURE after a jump), the device and the globals; the
    sparse file is destroyed at the end. *)
Definition make_ext4fs_internal (stack : list Z) (depth : nat) (rq : request) (w : W) (fd : Posix.file)
    (alloc : bool) (allocs : bool * bool) (sparse crc : bool) (s : fs) : outcome (Z * W * fs) :=
  let! (r, s) := make_image stack depth rq s in
  match r with
  | None | Some None => Ok (1, w, s)
  | Some (Some _) =>
      let w := if rq_wipe rq then fst (wipe_block_device w) else w in
      let! w := write_ext4_image w fd alloc allocs sparse crc s in
      Ok (0, w, s)
  end.

(** [reset_ext4fs_info] on the globals. *)
Definition reset_globals (s : fs) : fs :=
  mk_fs (force s) reset_ext4fs_info (mk_aux 0 0 0 0 0 0 0 0 0) [] (heap s) (fresh s) (avail s)
    (sparse_file s) (mem s) (itab s).

(** [opened] is the answer of [open], with the device and the size. When it fails
    and [force] is not set, [error_errno] jumps to [setjmp_env], which was not
    set for this call. *)
Definition make_ext4fs (stack : list Z) (opened : option (W * Posix.file * st_mode * (Z * Z))) (w0 : W)
    (alloc : bool) (allocs : bool * bool) (len : Z) (s : fs) : outcome (Z * W * fs) :=
  let s := set_info (reset_globals s) (set_len reset_ext4fs_info len) in
  match opened with
  | None => if force s then Ok (1, w0, s) else Undef
  | Some (w, fd, m, io) =>
      make_ext4fs_internal stack 0 (mk_request (Some m) io None EmptyString false false false)
        w fd alloc allocs false false s
  end.

Definition make_ext4fs_quick := make_ext4fs.

End Device.

End MakeExt4fs.
