(* ===== verification/MakeExt4Init.v ===== *)
(** * Making an image: the groups and the super block

    The first steps of [make_ext4fs_internal] on a file system with nothing in
    it: the buffers, the sparse file, the groups, and the copies of the super
    block and of the descriptors that [ext4_fill_in_sb] queues. *)

From S2P Require Import Prelude BackedBlock SparseFile Sha1 Ext4Utils Ext4Alloc Ext4AllocBits Ext4AllocProps Ext4AllocLists Ext4Extent Ext4ExtentProps Ext4ExtentFiles Ext4Contents Ext4ContentsProps Ext4Dirs Ext4Tree Ext4Super Ext4SuperProps MakeExt4fs.

Module MakeExt4Init.
Import Ext4Utils Ext4Alloc Ext4AllocBits Ext4AllocProps Ext4AllocLists Ext4Extent Ext4ExtentProps
  Ext4ExtentFiles Ext4Contents Ext4ContentsProps Ext4Dirs Ext4Tree Ext4Super Ext4SuperProps MakeExt4fs.

(** ** Operations that leave the buffers and the inodes alone *)

Definition quiet {A} (m : M A) : Prop :=
  forall s r s', m s = Ok (r, s') -> mem s' = mem s /\ itab s' = itab s /\ fresh s <= fresh s'.

Create HintDb quiet.

Lemma quiet_bind {A B} (m : M A) (k : A -> M B) : quiet m -> (forall x, quiet (k x)) -> quiet (bind m k).
Proof.
  intros Hm Hk s r s'. unfold bind. destruct (m s) as [[[a|] s1]| | |] eqn:E; intros H; try discriminate H.
  - destruct (Hm _ _ _ E) as (M1 & I1 & F1). destruct (Hk a _ _ _ H) as (M2 & I2 & F2).
    split; [congruence|]. split; [congruence|lia].
  - injection H as <- <-. exact (Hm _ _ _ E).
Qed.

Ltac quiet_done := cbn; split; [reflexivity|split; [reflexivity|lia]].
Ltac quiet_step := intros s r s' H; cbv beta in H;
  repeat match type of H with
         | context [match ?x with _ => _ end] => destruct x eqn:?; try discriminate H
         end; (injection H as <- <-; quiet_done).

Lemma quiet_ret {A} (x : A) : quiet (ret x).
Proof. unfold ret. quiet_step. Qed.
Lemma quiet_get_state : quiet get_state.
Proof. unfold get_state. quiet_step. Qed.
Lemma quiet_malloc : quiet malloc.
Proof. unfold malloc. intros s r s' [= <- <-]. cbn. split; [reflexivity|]. split; [reflexivity|lia]. Qed.
Lemma quiet_error : quiet error.
Proof. unfold error. quiet_step. Qed.
Lemma quiet_critical {A} : quiet (@critical_error A).
Proof. unfold critical_error. quiet_step. Qed.
Lemma quiet_undef {A} : quiet (@undef A).
Proof. unfold undef. intros s r s' H. discriminate. Qed.
Lemma quiet_get_bg i : quiet (get_bg i).
Proof. unfold get_bg. quiet_step. Qed.
Lemma quiet_put_bg i b : quiet (put_bg i b).
Proof. unfold put_bg. quiet_step. Qed.
Lemma quiet_pure {A} (f : fs -> outcome A) : quiet (fun s => let! r := f s in Ok (Some r, s)).
Proof. intros s r s'. cbv beta. destruct (f s); cbn; intros H; try discriminate. injection H as <- <-. split; [reflexivity|split; [reflexivity|lia]]. Qed.
Lemma quiet_calloc_of n : quiet (calloc_of n).
Proof. unfold calloc_of. intros s r s' H. destruct (avail s (fresh s)); injection H as <- <-; cbn; (split; [reflexivity|split; [reflexivity|lia]]). Qed.
#[export] Hint Resolve quiet_ret quiet_get_state quiet_malloc quiet_calloc_of quiet_error quiet_critical quiet_undef
  quiet_get_bg quiet_put_bg quiet_pure : quiet.

Lemma quiet_sparse_add_data d n b : quiet (sparse_add_data d n b).
Proof.
  unfold sparse_add_data. apply quiet_bind; [apply quiet_malloc|]. intros p s r s'. cbv beta.
  destruct (SparseFile.sparse_file_add_data _ _ _ _ _) as [[c f]| | |]; cbn; intros H; try discriminate H.
  injection H as <- <-. cbn. split; [reflexivity|split; [reflexivity|lia]].
Qed.
#[export] Hint Resolve quiet_sparse_add_data : quiet.

Ltac quiet := repeat match goal with
  | |- forall _, _ => intros ?
  | |- quiet (match ?x with _ => _ end) => destruct x
  | |- quiet (bind _ _) => apply quiet_bind
  | |- quiet _ => solve [auto with quiet nocore]
  end.

Lemma quiet_reserve_blocks bg start num : quiet (reserve_blocks bg start num).
Proof. unfold reserve_blocks. quiet. Qed.
#[export] Hint Resolve quiet_reserve_blocks : quiet.

Lemma quiet_init_bg i : quiet (init_bg i).
Proof. unfold init_bg. quiet. Qed.

Lemma quiet_init_loop ids : quiet (init_loop ids).
Proof. induction ids as [|i ids IH]; cbn [init_loop]; quiet. apply quiet_init_bg. Qed.

Lemma init_quiet s s' : block_allocator_init s = Ok (Some tt, s') ->
  mem s' = mem s /\ itab s' = itab s /\ fresh s <= fresh s'.
Proof.
  unfold block_allocator_init, bind, get_state, malloc.
  destruct (avail s (fresh s)); cbn; [|discriminate].
  intros H. apply quiet_init_loop in H. cbn in H. destruct H as (H1 & H2 & H3). split; [exact H1|]. split; [exact H2|lia].
Qed.

(** ** Steps that keep a file system ready *)

Lemma ready_fresh s n : fs_ready s -> fresh s <= n -> fs_ready (set_fresh s n).
Proof.
  intros Hrd Hn. split.
  - destruct (rd_ok _ Hrd) as [G N B]. split; assumption.
  - exact (rd_memory _ Hrd).
  - intros c Hc. apply (rd_fresh _ Hrd). cbn in Hc. lia.
  - exact (rd_roomy _ Hrd).
  - apply (queue_inv_mono s); auto; exact (rd_queue _ Hrd).
  - exact (rd_zero _ Hrd).
  - intros c b Hc. pose proof (rd_mem _ Hrd c b Hc). cbn. lia.
  - exact (rd_used _ Hrd).
  - exact (rd_header _ Hrd).
  - exact (rd_tables _ Hrd).
  - exact (rd_itab _ Hrd).
  - exact (rd_hsize _ Hrd).
  - exact (rd_group _ Hrd).
  - exact (rd_leaf _ Hrd).
Qed.

(** What stays in the image when the buffers at the addresses [ws] are written. *)
Record image_moves (ws : list Z) (s s' : fs) : Prop := {
  im_info : info s' = info s;
  im_queued : forall bb, In bb (queued s) -> In bb (queued s');
  im_mem : forall a b, a ∉ ws -> mem s !! a = Some b -> mem s' !! a = Some b
}.

(** One step of the making of an image. *)
Record grown (ws : list Z) (s s' : fs) : Prop := {
  gr_ready : fs_ready s';
  gr_globals : same_globals s s';
  gr_moves : image_moves ws s s';
  gr_fresh : fresh s <= fresh s';
  gr_header : header_kept s s';
  gr_layout : group_layout s -> group_layout s'
}.

Lemma grows_moves ws s s' : image_grows s s' -> image_moves ws s s'.
Proof. intros [A B C]. split; auto. Qed.

Lemma image_moves_trans ws s1 s2 s3 : image_moves ws s1 s2 -> image_moves ws s2 s3 -> image_moves ws s1 s3.
Proof. intros [A B C] [A' B' C']. split; [congruence|auto|auto]. Qed.

Lemma grown_refl ws s : fs_ready s -> grown ws s s.
Proof. intros H. split; auto using same_globals_refl, header_kept_refl; [split; auto|lia]. Qed.

Lemma grown_trans ws s1 s2 s3 : grown ws s1 s2 -> grown ws s2 s3 -> grown ws s1 s3.
Proof.
  intros [A B C D E F] [A' B' C' D' E' F']. split; auto; [exact (same_globals_trans _ _ _ B B')| |lia|].
  - exact (image_moves_trans _ _ _ _ C C').
  - exact (header_kept_trans _ _ _ E E').
Qed.

Lemma kept_grown ws s s' : kept s s' -> grown ws s s'.
Proof.
  intros K. split; [exact (kp_ready _ _ K)|exact (kp_globals _ _ K)|apply grows_moves, (kp_grows _ _ K)
    |exact (kp_fresh _ _ K)|exact (kp_header _ _ K)|exact (kp_layout _ _ K)].
Qed.

Lemma tree_step_grown ws s s' ino taken : tree_step s s' ino taken -> grown ws s s'.
Proof.
  intros [A B _ D _ _ _ F G H]. split; auto. apply grows_moves. exact D.
Qed.

Lemma holds_moves ws s s' x src : image_moves ws s s' -> holds s x src -> holds s' x src.
Proof. intros [Ei Hq _] (bb & Hin & H). exists bb. rewrite Ei. auto. Qed.

(** Steps that queue contents for the blocks [blk] and write buffers, and do
    nothing to the groups and the inodes. *)
Record plain (ws : list Z) (blk : Z -> Prop) (s s' : fs) : Prop := {
  pl_ready : fs_ready s';
  pl_globals : same_globals s s';
  pl_bgs : bgs s' = bgs s;
  pl_itab : itab s' = itab s;
  pl_moves : image_moves ws s s';
  pl_fresh : fresh s <= fresh s';
  pl_others : forall x, unqueued s x 1 -> blk x \/ unqueued s' x 1;
  pl_layout : group_layout s -> group_layout s'
}.

Definition no_block (x : Z) : Prop := False.

Lemma plain_refl ws blk s : fs_ready s -> plain ws blk s s.
Proof. intros H. split; auto using same_globals_refl; [split; auto|lia]. Qed.

Lemma plain_weaken ws (P Q : Z -> Prop) s s' : (forall x, P x -> Q x) -> plain ws P s s' -> plain ws Q s s'.
Proof. intros H [A B C D E F G I]. split; auto. intros x Hx. destruct (G x Hx); auto. Qed.

Lemma plain_none ws P s s' : plain ws no_block s s' -> plain ws P s s'.
Proof. apply plain_weaken. intros x H. destruct H. Qed.

Lemma plain_trans ws P s1 s2 s3 : plain ws P s1 s2 -> plain ws P s2 s3 -> plain ws P s1 s3.
Proof.
  intros [A B C D E F G I] [A' B' C' D' E' F' G' I'].
  split; auto; [exact (same_globals_trans _ _ _ B B')|congruence|congruence|exact (image_moves_trans _ _ _ _ E E')|lia|].
  intros x Hx. destruct (G x Hx); auto.
Qed.

Lemma plain_supers ws P s s' : plain ws P s s' -> same_supers s s'.
Proof. intros Hp. exact (same_supers_bgs _ _ (pl_bgs _ _ _ _ Hp)). Qed.

Lemma plain_grown ws s s' : plain ws no_block s s' -> grown ws s s'.
Proof.
  intros Hp. pose proof (plain_supers _ _ _ _ Hp) as Hs. destruct Hp as [A B C D E F G I]. split; auto. split; [| |exact Hs].
  - intros x. exact (header_area_same s s' x B Hs).
  - intros x _ Hu. destruct (G x Hu) as [[]|H]. exact H.
Qed.

(** The buffers of another state, with nothing else changed. *)
Lemma plain_same ws s s' : fs_ready s' -> same_globals s s' -> bgs s' = bgs s -> itab s' = itab s ->
  sparse_file s' = sparse_file s -> fresh s <= fresh s' ->
  (forall a b, a ∉ ws -> mem s !! a = Some b -> mem s' !! a = Some b) -> plain ws no_block s s'.
Proof.
  intros Hrd' G Hb Ht Hq Hf Hm. pose proof G as (_ & Ei & _).
  assert (queued s' = queued s) as Eq by (unfold queued; rewrite Hq; reflexivity).
  split; auto.
  - split; [exact Ei|rewrite Eq; auto|exact Hm].
  - intros x Hu. right. intros bb Hbb. rewrite Eq in Hbb. rewrite Ei. exact (Hu bb Hbb).
  - intros HL i d Hd. rewrite Hb in Hd. destruct G as (_ & _ & Ea & _). destruct (HL i d Hd) as (H1 & H2).
    assert (forall x src, holds s x src -> holds s' x src) as Hh
      by (intros x src (bb & Hin & H); exists bb; rewrite Eq, Ei; auto).
    unfold table_end in *. rewrite Ei, Ea. split; [intros k Hk|intros p Hp k Hk]; apply Hh; auto.
Qed.

Lemma write_plain ws s a buf : fs_ready s -> a < fresh s -> a ∈ ws -> plain ws no_block s (set_mem s a buf).
Proof.
  intros Hrd Ha Hw. apply plain_same; auto; [exact (ready_mem s a buf Hrd Ha)|repeat split|cbn; lia|].
  intros c b Hc Hm. cbn. rewrite lookup_insert_ne; [exact Hm|]. intros ->. exact (Hc Hw).
Qed.

Lemma update_plain ws s p f b b' : fs_ready s -> mem s !! p = Some b -> f b = Ok b' -> p ∈ ws ->
  update_mem p f s = Ok (Some tt, set_mem s p b') /\ plain ws no_block s (set_mem s p b').
Proof.
  intros Hrd Hp Hf Hw. split; [exact (update_mem_spec s p f b b' Hp Hf)|].
  exact (write_plain ws s p b' Hrd (rd_mem _ Hrd p b Hp) Hw).
Qed.

(** A buffer that is filled in before it is in use anywhere. *)
Definition with_buffer (s : fs) (n : Z) (buf : list Z) : fs :=
  set_mem (set_fresh s (fresh s + Z.max 1 n)) (fresh s) buf.

Lemma calloc_buffer s n : memory s -> calloc n s = Ok (Some (Some (fresh s)), with_buffer s n (zeros n)).
Proof. apply calloc_eq. Qed.

Lemma update_buffer s n b f b' : f b = Ok b' ->
  update_mem (fresh s) f (with_buffer s n b) = Ok (Some tt, with_buffer s n b').
Proof.
  intros E. rewrite (update_mem_spec (with_buffer s n b) (fresh s) f b b' (lookup_insert_eq _ _ _) E).
  unfold with_buffer, set_mem. cbn. rewrite insert_insert_eq. reflexivity.
Qed.

Lemma buffer_plain ws s n buf : fs_ready s -> plain ws no_block s (with_buffer s n buf).
Proof.
  intros Hrd. apply plain_same; auto.
  - apply ready_mem; [apply ready_fresh; [exact Hrd|lia]|cbn; lia].
  - repeat split.
  - cbn. lia.
  - intros a b _ Hm. pose proof (rd_mem _ Hrd a b Hm). cbn. rewrite lookup_insert_ne by lia. exact Hm.
Qed.

(** A step that also queues contents for the blocks [blk] of the headers. *)
Record spread (ws : list Z) (blk : Z -> Prop) (s s' : fs) : Prop := {
  sp_ready : fs_ready s';
  sp_globals : same_globals s s';
  sp_moves : image_moves ws s s';
  sp_fresh : fresh s <= fresh s';
  sp_area : forall x, header_area s x -> header_area s' x;
  sp_others : forall x, header_area s x -> unqueued s x 1 -> blk x \/ unqueued s' x 1;
  sp_supers : same_supers s s';
  sp_layout : group_layout s -> group_layout s'
}.

Lemma grown_spread ws P s s' : grown ws s s' -> spread ws P s s'.
Proof. intros [A B C D [E F H] G]. split; auto. Qed.

Lemma plain_spread ws P s s' : plain ws P s s' -> spread ws P s s'.
Proof.
  intros Hp. pose proof (plain_supers _ _ _ _ Hp) as Hs. destruct Hp as [A B C D E F G H]. split; auto.
  intros x. exact (header_area_same s s' x B Hs).
Qed.

Lemma spread_trans ws P s1 s2 s3 : spread ws P s1 s2 -> spread ws P s2 s3 -> spread ws P s1 s3.
Proof.
  intros [A B C D E F S G] [A' B' C' D' E' F' S' G'].
  split; auto; [exact (same_globals_trans _ _ _ B B')|exact (image_moves_trans _ _ _ _ C C')|lia| |exact (same_supers_trans _ _ _ S S')].
  intros x Hx Hu. destruct (F x Hx Hu); auto.
Qed.

Lemma image_moves_new ws a s s' : image_moves (a :: ws) s s' -> mem s !! a = None -> image_moves ws s s'.
Proof.
  intros [C1 C2 C3] Ha. split; auto. intros c b Hc Hm. apply C3; [|exact Hm].
  intros Hin. apply elem_of_cons in Hin as [->|Hin]; [congruence|exact (Hc Hin)].
Qed.

(** ** Queueing in the header of a group *)

Lemma header_not_table s x j d : fs_ready s -> header_area s x -> bgs s !! j = Some d ->
  x < table_end s j d - inode_table_blocks (aux_info s) \/ table_end s j d <= x.
Proof.
  intros Hrd (i & b & Hb & Hx) Hd.
  destruct (inode_table_start s i b Hrd Hb) as (_ & I1 & _ & I3 & I4 & _).
  destruct (inode_table_start s j d Hrd Hd) as (_ & J1 & _ & J3 & J4 & _).
  pose proof (rd_itab _ Hrd) as Hit. pose proof (geo_group _ _ (fs_geometry _ (rd_ok _ Hrd))) as Hg.
  unfold group_start in *. destruct (Z.lt_trichotomy (Z.of_nat i) (Z.of_nat j)) as [H|[H|H]].
  - left. nia.
  - assert (i = j) as <- by lia. rewrite Hb in Hd. injection Hd as <-. lia.
  - right. nia.
Qed.


Lemma header_bounds s x : fs_ready s -> header_area s x -> 0 <= x < 2 ^ 32 - 1 /\ in_use s x.
Proof.
  intros Hrd (i & b & Hb & Hx). destruct (inode_table_start s i b Hrd Hb) as (_ & I1 & I2 & _ & _ & I5).
  pose proof (rd_itab _ Hrd). split; [lia|]. pose proof (table_inside s i b Hrd Hb). split; [lia|]. apply (rd_header _ Hrd i b x Hb). lia.
Qed.

(** A block contents can be queued for: nothing is, it is not free, and it is
    not part of an inode table. *)
Definition queueable (s : fs) (x : Z) : Prop :=
  unqueued s x 1 /\ 0 <= x < 2 ^ 32 - 1 /\ in_use s x /\
  forall (j : nat) d, bgs s !! j = Some d ->
    x < table_end s j d - inode_table_blocks (aux_info s) \/ table_end s j d <= x.

Lemma header_queueable s x : fs_ready s -> header_area s x -> unqueued s x 1 -> queueable s x.
Proof.
  intros Hrd Hx Hu. destruct (header_bounds s x Hrd Hx) as (H1 & H2). split; [exact Hu|]. split; [exact H1|].
  split; [exact H2|]. intros j d Hd. exact (header_not_table s x j d Hrd Hx Hd).
Qed.

Lemma queue_blocks s d n b : fs_ready s -> 0 < n < 2 ^ 32 ->
  let c := DIV_ROUND_UP n (block_size (info s)) in
  (forall x, b <= x < b + c -> queueable s x) ->
  exists s', sparse_add_data d n b s = Ok (Some tt, s') /\ queued_more s s' /\
    (forall x, b <= x < b + c -> holds s' x (from_memory (d + (x - b) * block_size (info s)))) /\
    forall ws, plain ws (fun x => b <= x < b + c) s s'.
Proof.
  intros Hrd Hn c Hx. pose proof (geo_block_size _ _ (fs_geometry _ (rd_ok _ Hrd))) as Hbs.
  pose proof (DIV_ROUND_UP_pos n (block_size (info s)) ltac:(lia) ltac:(lia)) as Hc. fold c in Hc.
  assert (takeable s b c) as Ht.
  { destruct (Hx b ltac:(lia)) as (_ & H1 & _). destruct (Hx (b + c - 1) ltac:(lia)) as (_ & H2 & _).
    split; [lia|]. split; [lia|]. intros x Hr. destruct (Hx x Hr) as (H3 & _ & H4 & _). auto. }
  destruct (add_data_region s d n b (rd_memory _ Hrd) (rd_queue _ Hrd) ltac:(lia) Hn Ht) as (s' & E & Hrq).
  fold c in Hrq. exists s'. split; [exact E|]. pose proof Hrq as [Hq Hm Hon Hh].
  pose proof (qm_globals _ _ Hm) as (_ & Ei & _). split; [exact Hm|]. split; [exact Hh|]. intros ws. split.
  - apply (queued_ready s s' b c _ Hrd Hrq). intros j d' Hd _.
    destruct (Z.le_gt_cases (b + c) (table_end s j d' - inode_table_blocks (aux_info s))) as [|H1]; [auto|].
    destruct (Z.le_gt_cases (table_end s j d') b) as [|H2]; [auto|]. exfalso.
    pose proof (rd_itab _ Hrd).
    set (y := Z.max b (table_end s j d' - inode_table_blocks (aux_info s))).
    assert (b <= y < b + c) as Hy by (unfold y; lia).
    destruct (Hx y Hy) as (_ & _ & _ & Ht'). specialize (Ht' j d' Hd). unfold y in *. lia.
  - exact (qm_globals _ _ Hm).
  - exact (qm_bgs _ _ Hm).
  - exact (proj2 (qm_mem _ _ Hm)).
  - split; [exact Ei|exact (qm_queued _ _ Hm)|]. intros a bu _. rewrite (proj1 (qm_mem _ _ Hm)). auto.
  - exact (qm_fresh _ _ Hm).
  - intros x Hu. destruct (decide (b <= x < b + c)) as [Hr|Hr]; [auto|]. right. intros bb Hbb. rewrite Ei.
    destruct (Hon bb Hbb) as [Hb1|(E1 & E2)]; [exact (Hu bb Hb1)|]. rewrite E1, E2. lia.
  - apply (group_layout_step s s' (qm_globals _ _ Hm)).
    + split; [exact Ei|exact (qm_queued _ _ Hm)|]. intros a bu. rewrite (proj1 (qm_mem _ _ Hm)). auto.
    + intros i bg Hbg. exists bg. rewrite (qm_bgs _ _ Hm) in Hbg. auto.
Qed.

Lemma queue_header s d n b : fs_ready s -> 0 < n < 2 ^ 32 ->
  let c := DIV_ROUND_UP n (block_size (info s)) in
  (forall x, b <= x < b + c -> header_area s x /\ unqueued s x 1) ->
  exists s', sparse_add_data d n b s = Ok (Some tt, s') /\ queued_more s s' /\
    (forall x, b <= x < b + c -> holds s' x (from_memory (d + (x - b) * block_size (info s)))) /\
    forall ws, plain ws (fun x => b <= x < b + c) s s'.
Proof.
  intros Hrd Hn c Hx. apply (queue_blocks s d n b Hrd Hn). intros x Hr. destruct (Hx x Hr) as (H1 & H2).
  exact (header_queueable s x Hrd H1 H2).
Qed.

(** ** The groups of a new image *)

(** The blocks of a header before the bitmaps. *)
Definition super_area (s : fs) (x : Z) : Prop :=
  exists (i : nat) b, bgs s !! i = Some b /\
    group_start (info s) (aux_info s) (Z.of_nat i) <= x
      < table_end s i b - inode_table_blocks (aux_info s) - 2.

Lemma super_header s x : super_area s x -> header_area s x.
Proof. intros (i & b & Hb & Hx). exists i, b. split; [exact Hb|lia]. Qed.

Lemma init_layout s s' : geometry_ok (info s) (aux_info s) -> init_upto s s' (groups (aux_info s)) -> group_layout s'.
Proof.
  intros G Hu i b Hb. pose proof Hu as [(_ & Ei & Ea & _) _ Hn _ _ Hf].
  pose proof (lookup_lt_Some _ _ _ Hb) as Hlt. pose proof (geo_block_size _ _ G) as Hbs.
  destruct (Hf (Z.of_nat i)) as (b' & super & p & Hb' & _ & Fb & Hq); [unfold zlen in Hn; lia|].
  rewrite Nat2Z.id in Hb', Hq. rewrite Hb in Hb'. injection Hb' as <-. destruct Fb as (_ & _ & <- & Ht & _).
  cbv zeta. split; [|intros q Hq'; rewrite Ht in Hq'; discriminate].
  intros k Hk. exists (bitmap_block s (Z.of_nat i) b p).
  split; [apply list_elem_of_In; eapply list_elem_of_lookup_2; exact Hq|].
  unfold table_end, BackedBlock.bb_end, bitmap_block, super_blocks, header_size. rewrite Ei, Ea.
  cbn [BackedBlock.block BackedBlock.len BackedBlock.payload]. rewrite DIV_ROUND_UP_mul by lia.
  split; [destruct (has_superblock b); lia|]. cbn [payload_source]. do 3 f_equal.
  destruct (has_superblock b); lia.
Qed.

Lemma init_unqueued s s' x : geometry_ok (info s) (aux_info s) -> init_upto s s' (groups (aux_info s)) ->
  0 < inode_table_blocks (aux_info s) -> super_area s' x -> unqueued s' x 1.
Proof.
  intros G Hu Hit (i & b & Hb & Hx) bb Hin. destruct (init_super s s' i b Hu Hb) as (Hi & Hs).
  pose proof (iu_globals _ _ _ Hu) as (_ & Ei & Ea & _). unfold table_end in Hx. rewrite Ei, Ea in *.
  destruct (init_queued s s' bb G Hu Hin) as (j & super & Hj & Hsj & Hlo & Hhi & p & d & Eb). rewrite Hhi.
  assert (BackedBlock.bb_end (block_size (info s)) bb - 2 <= BackedBlock.block bb) as Hlo2.
  { destruct Hu as [_ _ Hn _ Hq Hf]. apply list_elem_of_In, list_elem_of_lookup in Hin as (m & Hm).
    pose proof (lookup_lt_Some _ _ _ Hm) as Hlt.
    destruct (Hf (Z.of_nat m)) as (b' & super' & p' & _ & _ & _ & Hqm); [unfold zlen in Hq; lia|].
    rewrite Nat2Z.id, Hm in Hqm. injection Hqm as ->. unfold BackedBlock.bb_end, bitmap_block.
    cbn [BackedBlock.block BackedBlock.len]. pose proof (geo_block_size _ _ G). rewrite DIV_ROUND_UP_mul by lia. lia. }
  rewrite Hhi in Hlo2. pose proof (geo_header _ _ G _ _ Hi Hs) as H1. pose proof (geo_header _ _ G _ _ Hj Hsj) as H2.
  pose proof (group_size_bound (info s) (aux_info s) j). pose proof (group_size_bound (info s) (aux_info s) (Z.of_nat i)).
  unfold group_start in *. destruct (Z.lt_trichotomy (Z.of_nat i) j) as [Hlt|[<-|Hlt]].
  - right. nia.
  - rewrite Hs in Hsj. injection Hsj as <-. right. lia.
  - left. nia.
Qed.

(** ** What an image can be made for *)

(** Whether group [g] has a copy of the super block. *)
Definition super_in (i : fs_info) (g : Z) : bool :=
  match ext4_bg_has_super_block i g with Ok b => b | _ => false end.

(** The blocks of group [g] behind its header, and those of all groups. *)
Definition group_room (i : fs_info) (a : fs_aux_info) (g : Z) : Z :=
  group_size i a g - header_size i a (super_in i g).
Definition total_room (i : fs_info) (a : fs_aux_info) : Z :=
  sum_of (group_room i a) (seqZ 0 (groups a)).

(** The feature that asks for a journal. *)
Definition has_journal (i : fs_info) : bool := negb (Z.land (feat_compat i) EXT4_FEATURE_COMPAT_HAS_JOURNAL =? 0).

(** The parameters an image can be made for: blocks of more than 1024 bytes, one
    block that holds a leaf with every group, bitmaps, tables and descriptors
    in their places, and room for the journal, the indirect block of the resize
    inode and the two directories. *)
Record makeable (i : fs_info) (a : fs_aux_info) : Prop := {
  mk_params : params_ok i;
  mk_aux_ok : ext4_create_fs_aux_info i = Ok a;
  mk_geometry : geometry_ok i a;
  mk_leaf : 12 + 12 * groups a <= block_size i < 2 ^ 16;
  mk_group : blocks_per_group i <= 2 ^ 15;
  mk_tables : 0 < inode_table_blocks a;
  mk_inodes : 11 <= inodes_per_group i;
  mk_total : groups a * inodes_per_group i < 2 ^ 32 - 1;
  mk_descs : 32 * groups a <= bg_desc_blocks a * block_size i < 2 ^ 32;
  mk_roomy : forall g, 0 <= g < groups a -> 2 <= group_room i a g;
  mk_journal : 0 <= journal_blocks i /\ journal_blocks i * block_size i < 2 ^ 32 /\
    (has_journal i = true -> 0 < journal_blocks i);
  mk_resize : 0 < bg_desc_reserve_blocks i <= block_size i / 4;
  mk_blocks : journal_blocks i + 2 + 3 * groups a < total_room i a
}.

Lemma mk_first i a : makeable i a -> first_data_block a = 0.
Proof.
  intros [Hp Ha _ _ _ _ _ _ _ _ _ _ _]. destruct (params_block_size i Hp) as (_ & _ & _ & Hbs & _).
  unfold ext4_create_fs_aux_info in Ha. rewrite (proj2 (Z.ltb_lt 1024 _)) in Ha by lia.
  destruct (_ =? 0); [discriminate|]. destruct (_ =? 0); [discriminate|].
  destruct (ext4_bg_has_super_block _ _) as [b| | |]; try discriminate. cbn [obind] in Ha. injection Ha as <-. reflexivity.
Qed.

Lemma mk_per_ind i a : makeable i a -> blocks_per_ind a = block_size i / 4.
Proof.
  intros [_ Ha _ _ _ _ _ _ _ _ _ _ _]. unfold ext4_create_fs_aux_info in Ha.
  destruct (_ =? 0); [discriminate|]. destruct (_ =? 0); [discriminate|].
  destruct (ext4_bg_has_super_block _ _) as [b| | |]; try discriminate. cbn [obind] in Ha. injection Ha as <-. reflexivity.
Qed.

Lemma super_in_eq i g b : ext4_bg_has_super_block i g = Ok b -> super_in i g = b.
Proof. intros E. unfold super_in. rewrite E. reflexivity. Qed.

Lemma super_ok i g : 0 <= g < 2 ^ 31 -> ext4_bg_has_super_block i g = Ok (super_in i g).
Proof. intros H. destruct (has_super_total i g H) as (b & E). rewrite (super_in_eq _ _ _ E). exact E. Qed.

(** ** The sparse file and the groups *)

Lemma new_sparse_file_spec s : memory s ->
  exists s', new_sparse_file s = Ok (Some tt, s') /\ new_image s' /\ same_globals s s' /\ bgs s' = bgs s /\
    heap s' = heap s /\ mem s' = mem s /\ itab s' = itab s /\ fresh s' = fresh s + 2.
Proof.
  intros Hm. unfold new_sparse_file, bind at 1, get_state. rewrite (bind_eq _ _ _ _ _ (malloc_eq s Hm)).
  rewrite (bind_eq _ _ _ _ _ (malloc_eq (bump s) Hm)). eexists. split; [reflexivity|].
  split; [reflexivity|]. split; [repeat split|]. cbn. repeat (split; [reflexivity|]). lia.
Qed.

(** The state when the groups are there, nothing of them in use. *)
Record groups_made (s0 s : fs) : Prop := {
  gm_ready : fs_ready s;
  gm_globals : same_globals s0 s;
  gm_layout : group_layout s;
  gm_mem : mem s = mem s0;
  gm_itab : itab s = itab s0;
  gm_fresh : fresh s0 <= fresh s;
  gm_super : forall x, super_area s x -> unqueued s x 1;
  gm_groups : forall (g : nat) b, bgs s !! g = Some b -> fresh_bg s0 (Z.of_nat g) (super_in (info s0) (Z.of_nat g)) b
}.

Lemma init_groups s : makeable (info s) (aux_info s) -> memory s -> new_image s -> heap_fresh s -> mem_fresh s ->
  exists s', block_allocator_init s = Ok (Some tt, s') /\ groups_made s s'.
Proof.
  intros Hmk Hm Hnew Hhf Hmf. pose proof (mk_geometry _ _ Hmk) as G.
  destruct (block_allocator_init_spec s G Hm Hnew) as (s' & E & Hu). exists s'. split; [exact E|].
  destruct (init_quiet s s' E) as (Em & Et & Ef). pose proof Hu as [Gl _ Hn _ _ Hf].
  assert (forall (g : nat) b, bgs s' !! g = Some b -> 0 <= Z.of_nat g < groups (aux_info s) /\
    fresh_bg s (Z.of_nat g) (super_in (info s) (Z.of_nat g)) b) as Hg.
  { intros g b Hb. pose proof (lookup_lt_Some _ _ _ Hb) as Hlt.
    destruct (Hf (Z.of_nat g)) as (b' & super & p & Hb' & Hs & Fb & _); [unfold zlen in Hn; lia|].
    rewrite Nat2Z.id, Hb in Hb'. injection Hb' as <-. rewrite (super_in_eq _ _ _ Hs). split; [unfold zlen in Hn; lia|exact Fb]. }
  assert (fs_ready s') as Hrd.
  { apply (init_ready s s' G Hm Hnew E Hhf Ef); [|intros g b Hb _|exact (mk_group _ _ Hmk)|exact (mk_tables _ _ Hmk)|exact (mk_leaf _ _ Hmk)].
    - intros c b Hc. rewrite Em in Hc. specialize (Hmf c b Hc). lia.
    - destruct (Hg g b Hb) as (Hr & (_ & _ & _ & _ & _ & _ & -> & _)). exact (mk_roomy _ _ Hmk _ Hr). }
  split; auto.
  - exact (init_layout s s' G Hu).
  - intros x. apply (init_unqueued s s' x G Hu (mk_tables _ _ Hmk)).
  - intros g b Hb. apply (Hg g b Hb).
Qed.

End MakeExt4Init.
