(* ===== verification/MakeExt4Fill.v ===== *)
(** * Making an image: the super block, its copies and the descriptors

    [ext4_fill_in_sb] on the groups of a new image: what the buffers hold, and
    for which blocks they are queued. *)

From S2P Require Import Prelude BackedBlock SparseFile Sha1 Ext4Utils Ext4Alloc Ext4AllocBits Ext4AllocProps Ext4AllocLists Ext4Extent Ext4ExtentProps Ext4ExtentFiles Ext4Contents Ext4ContentsProps Ext4Dirs Ext4Tree Ext4Super Ext4SuperProps MakeExt4fs MakeExt4Init.

Module MakeExt4Fill.
Import Ext4Utils Ext4Alloc Ext4AllocBits Ext4AllocProps Ext4AllocLists Ext4Extent Ext4ExtentProps
  Ext4ExtentFiles Ext4Contents Ext4ContentsProps Ext4Dirs Ext4Tree Ext4Super Ext4SuperProps MakeExt4fs MakeExt4Init.

(** ** Structures in an array *)

Definition in_array (sz i : Z) (l : list (field * Z)) : list (field * Z) :=
  map (fun '(f, v) => (at_index sz i f, v)) l.

Lemma assigned_in_array sz i f l : forall old, assigned (at_index sz i f) (in_array sz i l) old = assigned f l old.
Proof.
  induction l as [|[g v] l IH]; intros old; [reflexivity|]. cbn [in_array map assigned].
  assert (same_field (at_index sz i f) (at_index sz i g) = same_field f g) as ->.
  { unfold same_field. cbn. f_equal. destruct (Z.eqb_spec (f_off f) (f_off g)); [apply Z.eqb_eq|apply Z.eqb_neq]; lia. }
  assert (apart (at_index sz i g) (at_index sz i f) = apart g f) as ->.
  { unfold apart. cbn. f_equal.
    - destruct (Z.leb_spec (f_off g + f_size g) (f_off f)); [apply Z.leb_le|apply Z.leb_gt]; lia.
    - destruct (Z.leb_spec (f_off f + f_size f) (f_off g)); [apply Z.leb_le|apply Z.leb_gt]; lia. }
  change (f_size (at_index sz i f)) with (f_size f). fold (in_array sz i l). rewrite !IH. reflexivity.
Qed.

(** The assignments to the [i]-th structure of an array. *)
Lemma put_in_array sz i l b : 0 <= i -> 0 <= sz -> sz * (i + 1) <= zlen b ->
  forallb (fun '(f, _) => fits sz f) l = true ->
  exists b', put_fields (in_array sz i l) b = Ok b' /\ zlen b' = zlen b /\
    (forall f x, fits sz f = true -> assigned f l (get_field b (at_index sz i f)) = Some x ->
       get_field b' (at_index sz i f) = x) /\
    (forall o n, 0 <= o -> 0 <= n -> o + n <= zlen b -> o + n <= sz * i \/ sz * (i + 1) <= o ->
       sub_bytes b' o n = sub_bytes b o n).
Proof.
  intros Hi Hsz Hb Hl. assert (0 <= sz * i) as H0 by (apply Z.mul_nonneg_nonneg; lia).
  assert (forall f, fits sz f = true -> fits (zlen b) (at_index sz i f) = true) as Hfit
    by (unfold fits; intros f; cbn; rewrite !andb_true_iff, !Z.leb_le; lia).
  destruct (put_fields_spec (in_array sz i l) b) as (b' & E & L & G & O).
  { rewrite forallb_forall in *. intros [f v] Hin. apply in_map_iff in Hin as ([g w] & [= <- <-] & Hin).
    apply Hfit. exact (Hl (g, w) Hin). }
  exists b'. split; [exact E|]. split; [exact L|]. split.
  - intros f x Hf Ha. apply (G _ _ (Hfit f Hf)). rewrite assigned_in_array. exact Ha.
  - intros o n Ho Hn Hz Hr. apply O; auto. apply forallb_forall. intros [f v] Hin.
    apply in_map_iff in Hin as ([g w] & [= <- <-] & Hin). rewrite forallb_forall in Hl. specialize (Hl (g, w) Hin).
    cbn in Hl. unfold fits in Hl. rewrite !andb_true_iff, !Z.leb_le in Hl. unfold apart. cbn.
    apply orb_true_iff. rewrite !Z.leb_le. lia.
Qed.

(** ** A copy of the super block *)

(** [buf] is the block [b] with the number of group [g] in it. *)
Definition copy_of (b : list Z) (g : Z) (buf : list Z) : Prop :=
  zlen buf = zlen b /\ get_field buf s_block_group_nr = g /\
  forall o n, 0 <= o -> 0 <= n -> o + n <= zlen b -> apart s_block_group_nr (mk_field o n) = true ->
    sub_bytes buf o n = sub_bytes b o n.

Lemma make_backup_spec s a l b g : fs_ready s -> mem s !! sb a = Some b -> zlen b = block_size (info s) ->
  1024 <= zlen b -> backup_sb a = Some l -> zlen l = groups (aux_info s) -> 0 <= g < groups (aux_info s) ->
  g < 2 ^ 16 -> header_area s (group_start (info s) (aux_info s) g) ->
  unqueued s (group_start (info s) (aux_info s) g) 1 ->
  exists c buf s', make_backup a g (group_start (info s) (aux_info s) g) s =
      Ok (Some (mk_super (sb a) (Some (<[Z.to_nat g := Some c]> l)) (bg_desc a)), s') /\
    copy_of b g buf /\ mem s' !! c = Some buf /\ fresh s <= c /\
    holds s' (group_start (info s) (aux_info s) g) (from_memory c) /\
    forall ws, plain ws (fun x => x = group_start (info s) (aux_info s) g) s s'.
Proof.
  intros Hrd Hsb Lb L1 Hl Ll Hg Hg16 Hha Hun. set (gs := group_start (info s) (aux_info s) g) in *.
  set (bs := block_size (info s)) in *. set (c := fresh s).
  destruct (put_field_spec s_block_group_nr g b) as (buf & Ep & Lp & Gp & Op); [apply (fits_more 1024); [lia|reflexivity]|].
  set (s1 := with_buffer s bs buf).
  assert (forall ws, plain ws no_block s s1) as P1 by (intros ws; exact (buffer_plain ws s bs buf Hrd)).
  pose proof (pl_ready _ _ _ _ (P1 [])) as Hrd1.
  assert (DIV_ROUND_UP bs bs = 1) as Ed by (apply div_round_up_self; lia).
  pose proof (rd_leaf _ Hrd) as Hlf. fold bs in Hlf.
  destruct (queue_header s1 c bs gs Hrd1 ltac:(lia)) as (s2 & E2 & M2 & H2 & P2).
  { change (block_size (info s1)) with bs. rewrite Ed. intros x Hx. assert (x = gs) as -> by lia.
    split; [exact Hha|exact Hun]. }
  change (block_size (info s1)) with bs in *. rewrite Ed in *.
  exists c, buf, s2. split; [|split; [|split; [|split; [lia|split]]]].
  - unfold make_backup, bind at 1, get_state. fold bs.
    rewrite (bind_eq _ _ _ _ _ (calloc_buffer s bs (rd_memory _ Hrd))).
    rewrite (bind_eq (lift (oof (Some (fresh s)))) _ _ (fresh s) _ eq_refl).
    assert (set_backup a g (fresh s) = Ok (mk_super (sb a) (Some (<[Z.to_nat g := Some c]> l)) (bg_desc a))) as Es.
    { unfold set_backup. rewrite Hl, (proj2 (Z.leb_le 0 g)), (proj2 (Z.ltb_lt g _)) by lia. reflexivity. }
    set (s0 := with_buffer s bs (zeros bs)).
    assert (lift (set_backup a g (fresh s)) s0 = Ok (Some (mk_super (sb a) (Some (<[Z.to_nat g := Some c]> l)) (bg_desc a)), s0)) as El
      by (unfold lift; rewrite Es; reflexivity).
    rewrite (bind_eq _ _ _ _ _ El). cbn [sb]. rewrite Hsb.
    rewrite (bind_eq (lift (oof (Some b))) _ s0 b s0 eq_refl).
    assert (splice (zeros bs) 0 (take (Z.to_nat bs) b) = Ok b) as Esp.
    { rewrite take_ge by (unfold zlen in Lb; lia). rewrite splice_zero by (rewrite zlen_zeros by lia; lia).
      rewrite drop_ge by (unfold zeros; rewrite length_replicate; unfold zlen in Lb; lia). rewrite app_nil_r. reflexivity. }
    unfold s0. rewrite (bind_eq _ _ _ _ _ (update_buffer s bs (zeros bs) _ b Esp)).
    rewrite (bind_eq _ _ _ _ _ (update_buffer s bs b _ buf Ep)). fold s1. fold c.
    rewrite (bind_eq _ _ _ _ _ E2). reflexivity.
  - split; [exact Lp|]. split; [|exact Op]. rewrite Gp. apply Z.mod_small. cbn. lia.
  - rewrite (proj1 (qm_mem _ _ M2)). apply lookup_insert_eq.
  - specialize (H2 gs ltac:(lia)). rewrite Z.sub_diag, Z.mul_0_l, Z.add_0_r in H2. exact H2.
  - intros ws. apply (plain_trans ws _ s s1 s2); [exact (plain_none ws _ _ _ (P1 ws))|].
    eapply plain_weaken; [|exact (P2 ws)]. cbv beta. intros x Hx. lia.
Qed.

(** ** The loop over the groups *)

(** The first block of the inode table of group [g]. *)
Definition table_start (i : fs_info) (a : fs_aux_info) (g : Z) : Z :=
  group_start i a g + header_size i a (super_in i g) - inode_table_blocks a.

(** What the descriptor of group [g] shows. *)
Definition desc_shows (i : fs_info) (a : fs_aux_info) (d : list Z) (g : Z) : Prop :=
  get_field d (at_index 32 g bg_block_bitmap) = table_start i a g - 2 /\
  get_field d (at_index 32 g bg_inode_bitmap) = table_start i a g - 1 /\
  get_field d (at_index 32 g bg_inode_table) = table_start i a g.

(** The copy of the super block for group [g] is queued, from a buffer that
    starts at [lo] or later. *)
Definition backup_queued (lo : Z) (s : fs) (b : list Z) (l : list (option Z)) (g : Z) : Prop :=
  exists c buf, l !! Z.to_nat g = Some (Some c) /\ lo <= c /\ holds s (group_start (info s) (aux_info s) g) (from_memory c) /\
    mem s !! c = Some buf /\ copy_of b g buf.

(** The descriptors are queued behind the super block of group [g]. *)
Definition descs_queued (s : fs) (p g : Z) : Prop :=
  forall k, 0 <= k < bg_desc_blocks (aux_info s) ->
    holds s (group_start (info s) (aux_info s) g + 1 + k) (from_memory (p + k * block_size (info s))).

(** The state when [ext4_fill_in_sb] has been through the first [k] groups; [q]
    is [aux_info] with the pointers to the copies. *)
Record filled (s0 s : fs) (p q : super) (b : list Z) (k : Z) : Prop := {
  fi_ready : fs_ready s;
  fi_globals : same_globals s0 s;
  fi_bgs : bgs s = bgs s0;
  fi_itab : itab s = itab s0;
  fi_moves : image_moves [sb p; bg_desc p] s0 s;
  fi_fresh : fresh s0 <= fresh s;
  fi_layout : group_layout s;
  fi_ptrs : sb q = sb p /\ bg_desc q = bg_desc p;
  fi_sb : mem s !! sb p = Some b;
  fi_desc : exists d, mem s !! bg_desc p = Some d /\
    zlen d = block_size (info s0) * bg_desc_blocks (aux_info s0) /\
    (forall g, 0 <= g < k -> desc_shows (info s0) (aux_info s0) d g /\
       get_field d (at_index 32 g bg_used_dirs_count) = 0);
  fi_backups : exists l, backup_sb q = Some l /\ zlen l = groups (aux_info s0) /\
    (forall g, 0 < g < k -> super_in (info s0) g = true -> backup_queued (fresh s0) s b l g);
  fi_descs : forall g, 0 <= g < k -> super_in (info s0) g = true -> descs_queued s (bg_desc p) g;
  fi_unqueued : forall (j : nat) x, Z.of_nat j < groups (aux_info s0) ->
    group_start (info s0) (aux_info s0) (Z.of_nat j) <= x < table_start (info s0) (aux_info s0) (Z.of_nat j) - 2 ->
    k <= Z.of_nat j \/ group_start (info s0) (aux_info s0) (Z.of_nat j) + 1 + bg_desc_blocks (aux_info s0) <= x \/ x = 0 ->
    unqueued s x 1
}.

Section Groups.
Context (s0 : fs) (p : super) (b : list Z).
Let i := info s0.
Let a := aux_info s0.
Let bs := block_size i.
Context (Hmk : makeable i a) (Hsb : sb p < fresh s0) (Hds : bg_desc p < fresh s0) (Hne : sb p <> bg_desc p)
  (Lb : zlen b = bs)
  (Hbgs : forall g, 0 <= g < groups a -> exists c, bgs s0 !! Z.to_nat g = Some c /\ has_superblock c = super_in i g).

(** The blocks group [g] gets its copies in. *)
Definition copy_blocks (g x : Z) : Prop :=
  super_in i g = true /\
  (group_start i a g + 1 <= x < group_start i a g + 1 + bg_desc_blocks a \/ 0 < g /\ x = group_start i a g).

Lemma group_bounds g : 0 <= g < groups a -> 0 <= group_start i a g /\ g < 2 ^ 16 /\
  group_start i a g + header_size i a (super_in i g) <= group_start i a (g + 1) /\
  group_start i a (g + 1) < 2 ^ 32 - 1 /\ 0 <= bg_desc_blocks a /\ 0 <= bg_desc_reserve_blocks i /\
  group_start i a g = g * blocks_per_group i.
Proof.
  intros Hg. pose proof (mk_geometry _ _ Hmk) as G. pose proof (mk_leaf _ _ Hmk). pose proof (mk_first _ _ Hmk) as Hf.
  pose proof (geo_tables _ _ G). pose proof (geo_groups _ _ G). pose proof (geo_group _ _ G) as Hbg.
  pose proof (geo_header _ _ G g (super_in i g) Hg (super_ok i g ltac:(lia))) as Hh.
  pose proof (group_size_bound i a g). pose proof (geo_range _ _ G) as Hr. unfold group_start in *. rewrite Hf in *.
  assert (g * blocks_per_group i <= groups a * blocks_per_group i - blocks_per_group i) by nia.
  assert (0 <= g * blocks_per_group i) by nia. split; [lia|]. split; [lia|]. lia.
Qed.

Lemma super_blocks_area g x : 0 <= g < groups a -> group_start i a g <= x < table_start i a g - 2 ->
  forall s, same_globals s0 s -> bgs s = bgs s0 -> header_area s x.
Proof.
  intros Hg Hx s (_ & Ei & Ea & _) Eb. destruct (Hbgs g Hg) as (c & Hc & Es). exists (Z.to_nat g), c.
  rewrite Eb, Ei, Ea, Z2Nat.id by lia. split; [exact Hc|]. unfold table_end. rewrite Ei, Ea, Es, Z2Nat.id by lia.
  fold i a. unfold table_start in Hx. lia.
Qed.

Lemma copy_blocks_place g x : 0 <= g < groups a -> copy_blocks g x ->
  group_start i a g <= x < table_start i a g - 2 - bg_desc_reserve_blocks i.
Proof.
  intros Hg (Hs & Hx). destruct (group_bounds g Hg) as (_ & _ & _ & _ & H1 & H2 & _). unfold table_start, header_size.
  rewrite Hs. lia.
Qed.

(** The copy of the super block of a group. *)
Lemma fill_copy s q k : filled s0 s p q b k -> 0 <= k < groups a -> super_in i k = true ->
  exists q' s', (if negb (k =? 0) then make_backup q k (group_start i a k) else ret q) s = Ok (Some q', s') /\
    sb q' = sb p /\ bg_desc q' = bg_desc p /\
    (forall ws, plain ws (fun x => 0 < k /\ x = group_start i a k) s s') /\
    exists l l', backup_sb q = Some l /\ backup_sb q' = Some l' /\ zlen l' = groups a /\
      (forall g, g <> k -> 0 <= g -> l' !! Z.to_nat g = l !! Z.to_nat g) /\ (0 < k -> backup_queued (fresh s0) s' b l' k).
Proof.
  intros Hf Hk Hs. pose proof Hf as [Hrd Gl Eb _ _ Hfr _ (P1 & P2) Hb (d & Hd & _) (l & Hl & Ll & _) _ Hun].
  pose proof Gl as (_ & Ei & Ea & _). destruct (Z.eqb_spec k 0) as [->|Hk0]; cbn [negb].
  - exists q, s. split; [reflexivity|]. split; [exact P1|]. split; [exact P2|].
    split; [intros ws; apply plain_refl; exact Hrd|]. exists l, l. split; [exact Hl|]. split; [exact Hl|]. split; [exact Ll|].
    split; [reflexivity|lia].
  - destruct (group_bounds k Hk) as (B1 & B2 & B3 & B4 & B5 & B6 & _).
    assert (group_start i a k <= group_start i a k < table_start i a k - 2) as Hgs
      by (unfold table_start, header_size; rewrite Hs; lia).
    pose proof (params_block_size i (mk_params _ _ Hmk)) as (_ & _ & _ & Hbs & _). fold bs in Hbs.
    assert (group_start (info s) (aux_info s) k = group_start i a k) as Egs by (rewrite Ei, Ea; reflexivity).
    destruct (make_backup_spec s q l b k Hrd) as (c & buf & s' & E & Hcp & Hmc & Hc & Hh & Hp); rewrite ?P1, ?Ei, ?Ea; auto.
    { lia. } { exact (super_blocks_area k _ Hk Hgs s Gl Eb). }
    { fold i a. apply (Hun (Z.to_nat k)); rewrite ?Z2Nat.id by lia; auto; fold i a; lia. }
    rewrite Egs in *. exists (mk_super (sb q) (Some (<[Z.to_nat k := Some c]> l)) (bg_desc q)), s'.
    split; [exact E|]. split; [exact P1|]. split; [exact P2|].
    split; [intros ws; eapply plain_weaken; [|exact (Hp ws)]; cbv beta; intros x ->; split; [lia|reflexivity]|].
    exists l, (<[Z.to_nat k := Some c]> l). split; [exact Hl|]. split; [reflexivity|].
    split; [unfold zlen; rewrite length_insert; exact Ll|]. split.
    + intros g Hg Hg0. apply list_lookup_insert_ne. lia.
    + intros _. exists c, buf. split; [apply list_lookup_insert_eq; unfold zlen in Ll; fold a in Ll; lia|].
      pose proof (pl_globals _ _ _ _ (Hp [])) as (_ & Ei' & Ea' & _). rewrite Ei', Ea', Egs.
      split; [lia|]. auto.
Qed.

(** The copies of a group, if it has them, and the place of its bitmaps. *)
Definition fill_copies (s : fs) (q : super) (k : Z) (has_super : bool) : M (super * Z) :=
  if has_super then
    let* a := if negb (k =? 0) then make_backup q k (group_start_block s k) else ret q in
    let* _ := sparse_add_data (bg_desc a) (u32 (bg_desc_blocks (aux_info s) * block_size (info s)))
                (u32 (group_start_block s k + 1)) in
    ret (a, u32 (1 + bg_desc_blocks (aux_info s) + bg_desc_reserve_blocks (info s)))
  else ret (q, 0).

Lemma group_start_block_eq s k : same_globals s0 s -> 0 <= k < groups a ->
  group_start_block s k = group_start i a k.
Proof.
  intros (_ & Ei & Ea & _) Hk. destruct (group_bounds k Hk) as (B1 & _ & B3 & B4 & B5 & B6 & _).
  unfold group_start_block. rewrite Ei, Ea. fold i a. change (first_data_block a + k * blocks_per_group i) with (group_start i a k).
  pose proof (geo_tables _ _ (mk_geometry _ _ Hmk)). apply u32_id. unfold header_size in B3. destruct (super_in i k); lia.
Qed.

Lemma fill_copies_spec s q k : filled s0 s p q b k -> 0 <= k < groups a ->
  exists q' s' n, fill_copies s q k (super_in i k) s = Ok (Some (q', n), s') /\
    group_start i a k + n = table_start i a k - 2 /\ 0 <= n /\ sb q' = sb p /\ bg_desc q' = bg_desc p /\
    (forall ws, plain ws (copy_blocks k) s s') /\
    exists l l', backup_sb q = Some l /\ backup_sb q' = Some l' /\ zlen l' = groups a /\
      (forall g, g <> k -> 0 <= g -> l' !! Z.to_nat g = l !! Z.to_nat g) /\
      (super_in i k = true -> (0 < k -> backup_queued (fresh s0) s' b l' k) /\ descs_queued s' (bg_desc p) k).
Proof.
  intros Hf Hk. pose proof (fi_globals _ _ _ _ _ _ Hf) as Gl. pose proof Gl as (_ & Ei & Ea & _).
  destruct (group_bounds k Hk) as (B1 & B2 & B3 & B4 & B5 & B6 & _). unfold fill_copies.
  destruct (super_in i k) eqn:Hs.
  2:{ destruct (fi_backups _ _ _ _ _ _ Hf) as (l & Hl & Ll & _). destruct (fi_ptrs _ _ _ _ _ _ Hf) as (P1 & P2).
      exists q, s, 0. split; [reflexivity|]. split; [unfold table_start, header_size; rewrite Hs; lia|]. split; [lia|].
      split; [exact P1|]. split; [exact P2|]. split; [intros ws; apply plain_refl, (fi_ready _ _ _ _ _ _ Hf)|].
      exists l, l. split; [exact Hl|]. split; [exact Hl|]. split; [exact Ll|]. split; [reflexivity|discriminate]. }
  rewrite (group_start_block_eq s k Gl Hk), Ei, Ea. fold i a bs.
  destruct (fill_copy s q k Hf Hk Hs) as (q' & s1 & E1 & P1 & P2 & Hp1 & l & l' & Hl & Hl' & Ll & Hother & Hbk).
  pose proof (mk_descs _ _ Hmk) as Hd. fold bs in Hd. pose proof (params_block_size i (mk_params _ _ Hmk)) as (_ & _ & _ & Hbs & _).
  fold bs in Hbs. pose proof (geo_groups _ _ (mk_geometry _ _ Hmk)) as Hgr.
  pose proof (geo_tables _ _ (mk_geometry _ _ Hmk)) as Htb.
  rewrite (u32_id (bg_desc_blocks a * bs)) by lia.
  rewrite (u32_id (group_start i a k + 1)) by (unfold header_size in B3; lia).
  pose proof (Hp1 []) as [R1 G1 Eb1 _ _ _ O1 _]. pose proof G1 as (_ & Ei1 & Ea1 & _).
  assert (DIV_ROUND_UP (bg_desc_blocks a * bs) bs = bg_desc_blocks a) as Ed by (apply DIV_ROUND_UP_mul; lia).
  assert (block_size (info s1) = bs) as Ebs by (rewrite Ei1, Ei; reflexivity).
  destruct (queue_header s1 (bg_desc p) (bg_desc_blocks a * bs) (group_start i a k + 1) R1 ltac:(lia))
    as (s2 & E2 & M2 & H2 & Hp2).
  { rewrite Ebs, Ed. intros x Hx. assert (group_start i a k <= x < table_start i a k - 2) as Hr
      by (unfold table_start, header_size; rewrite Hs; lia).
    split; [apply (super_blocks_area k x Hk Hr); [exact (same_globals_trans _ _ _ Gl G1)|rewrite Eb1; exact (fi_bgs _ _ _ _ _ _ Hf)]|].
    destruct (O1 x) as [(_ & ->)|Hu]; [|lia|exact Hu].
    apply (fi_unqueued _ _ _ _ _ _ Hf (Z.to_nat k)); rewrite ?Z2Nat.id by lia; auto; fold i a; lia. }
  rewrite Ebs, Ed in *.
  exists q', s2, (u32 (1 + bg_desc_blocks a + bg_desc_reserve_blocks i)).
  rewrite (u32_id (1 + bg_desc_blocks a + bg_desc_reserve_blocks i)) by (unfold header_size in B3; cbv iota in B3; lia).
  split; [rewrite (bind_eq _ _ _ _ _ E1), P2, (bind_eq _ _ _ _ _ E2); reflexivity|].
  split; [unfold table_start, header_size; rewrite Hs; lia|]. split; [lia|]. split; [exact P1|]. split; [exact P2|].
  split.
  { intros ws. apply (plain_trans ws _ s s1 s2).
    - eapply plain_weaken; [|exact (Hp1 ws)]. unfold copy_blocks. rewrite Hs. cbv beta. tauto.
    - eapply plain_weaken; [|exact (Hp2 ws)]. unfold copy_blocks. rewrite Hs. cbv beta. tauto. }
  exists l, l'. repeat (split; [assumption|]). intros _. pose proof (Hp2 []) as [_ G2 _ _ Im2 _ _ _].
  pose proof G2 as (_ & Ei2 & Ea2 & _). split.
  - intros H0. destruct (Hbk H0) as (c & buf & C1 & C0 & C2 & C3 & C4). exists c, buf. rewrite Ei2, Ea2.
    split; [exact C1|]. split; [exact C0|]. split; [exact (holds_moves [] s1 s2 _ _ Im2 C2)|].
    split; [apply (im_mem _ _ _ Im2); [apply not_elem_of_nil|exact C3]|exact C4].
  - intros x Hx. rewrite Ei2, Ea2, Ei1, Ea1, Ei, Ea in *. fold i a bs in Hx |- *.
    specialize (H2 (group_start i a k + 1 + x) ltac:(lia)).
    replace (group_start i a k + 1 + x - (group_start i a k + 1)) with x in H2 by lia. exact H2.
Qed.

(** The values stored in the descriptor of group [k]. *)
Definition descriptor (s : fs) (k n x y : Z) : list (field * Z) := [
  (bg_block_bitmap, group_start_block s k + n);
  (bg_inode_bitmap, group_start_block s k + n + 1);
  (bg_inode_table, group_start_block s k + n + 2);
  (bg_free_blocks_count, x);
  (bg_free_inodes_count, y);
  (bg_used_dirs_count, 0)].

Lemma write_descriptor s k n d x y : same_globals s0 s -> 0 <= k < groups a ->
  group_start i a k + n = table_start i a k - 2 -> 0 <= n -> zlen d = bs * bg_desc_blocks a ->
  exists d', put_fields (desc_values s k n x y) d = Ok d' /\ zlen d' = zlen d /\ desc_shows i a d' k /\
    get_field d' (at_index 32 k bg_used_dirs_count) = 0 /\
    (forall g, 0 <= g < k -> desc_shows i a d g /\ get_field d (at_index 32 g bg_used_dirs_count) = 0 ->
       desc_shows i a d' g /\ get_field d' (at_index 32 g bg_used_dirs_count) = 0).
Proof.
  intros Gl Hk Hn Hn0 Ld. destruct (group_bounds k Hk) as (B1 & B2 & B3 & B4 & B5 & B6 & _).
  pose proof (mk_descs _ _ Hmk) as Hd. fold bs in Hd. pose proof (mk_tables _ _ Hmk) as Hit.
  assert (32 * (k + 1) <= zlen d) as Hz by lia.
  destruct (put_in_array 32 k (descriptor s k n x y) d ltac:(lia) ltac:(lia) Hz eq_refl) as (d' & E & L & G & O).
  exists d'. split; [exact E|]. split; [exact L|].
  assert (table_start i a k - 2 < 2 ^ 32 - 3) as Hts by (unfold table_start, header_size in *; destruct (super_in i k); lia).
  unfold descriptor in G. rewrite (group_start_block_eq s k Gl Hk), Hn in G. split; [|split].
  - unfold desc_shows. rewrite (G bg_block_bitmap _ eq_refl eq_refl), (G bg_inode_bitmap _ eq_refl eq_refl),
      (G bg_inode_table _ eq_refl eq_refl). cbn [f_size bg_block_bitmap bg_inode_bitmap bg_inode_table].
    change (256 ^ 4) with (2 ^ 32). rewrite !Z.mod_small by lia. lia.
  - rewrite (G bg_used_dirs_count _ eq_refl eq_refl). reflexivity.
  - intros g Hg. assert (forall f, fits 32 f = true -> get_field d' (at_index 32 g f) = get_field d (at_index 32 g f)) as Hsame.
    { intros f Hf. unfold get_field. f_equal. unfold fits in Hf. rewrite !andb_true_iff, !Z.leb_le in Hf.
      cbn. apply O; lia. }
    unfold desc_shows. rewrite !Hsame by reflexivity. auto.
Qed.

Lemma fill_group_step s q k : filled s0 s p q b k -> 0 <= k < groups a ->
  exists q' s', fill_group q k s = Ok (Some q', s') /\ filled s0 s' p q' b (k + 1).
Proof.
  intros Hf Hk. pose proof Hf as [Hrd Gl Eb Et Im Hfr Hly _ Hb (d & Hd & Ld & Hsh) (l0 & Hl0 & _ & Hbk) Hdq Hun].
  pose proof Gl as (_ & Ei & Ea & _).
  destruct (fill_copies_spec s q k Hf Hk) as (q' & s1 & n & E1 & Hn & Hn0 & P1 & P2 & Hp1 & l & l' & Hl & Hl' & Ll & Ho & Hnew).
  rewrite Hl0 in Hl. injection Hl as <-.
  pose proof (Hp1 []) as [R1 G1 Eb1 Et1 Im1 F1 O1 L1].
  pose proof (im_mem _ _ _ Im1 _ _ (not_elem_of_nil _) Hb) as Hb1.
  pose proof (im_mem _ _ _ Im1 _ _ (not_elem_of_nil _) Hd) as Hd1.
  destruct (write_descriptor s k n d (get_field b s_blocks_per_group) (get_field b s_inodes_per_group) Gl Hk Hn Hn0 Ld)
    as (d' & Ed & Ld' & Sh & Ud & Hold).
  set (s2 := set_mem s1 (bg_desc p) d').
  assert (plain [sb p; bg_desc p] no_block s1 s2) as Hp2.
  { apply write_plain; [exact R1|lia|]. apply elem_of_cons. right. apply list_elem_of_singleton. reflexivity. }
  assert (forall x src, holds s x src -> holds s2 x src) as Hh2.
  { intros x src H. apply (holds_moves _ s1 s2 x src (pl_moves _ _ _ _ Hp2)). exact (holds_moves _ s s1 x src Im1 H). }
  pose proof (same_globals_trans _ _ _ Gl G1) as Gl1. pose proof Gl1 as (_ & Ei1 & Ea1 & _).
  assert (forall g c buf, fresh s0 <= c -> copy_of b g buf -> mem s1 !! c = Some buf -> mem s2 !! c = Some buf) as Hm2.
  { intros g c buf Hc _ H. cbn. rewrite lookup_insert_ne by lia. exact H. }
  assert (forall (j : nat) x, Z.of_nat j < groups a ->
    group_start i a (Z.of_nat j) <= x < table_start i a (Z.of_nat j) - 2 ->
    k + 1 <= Z.of_nat j \/ group_start i a (Z.of_nat j) + 1 + bg_desc_blocks a <= x \/ x = 0 -> ~ copy_blocks k x) as Hnot.
  { intros j x Hj Hx Hc Hcp. destruct (group_bounds (Z.of_nat j) ltac:(lia)) as (J1 & _ & J3 & _ & _ & _ & J7).
    destruct (group_bounds k Hk) as (B1 & _ & B3 & _ & B5 & B6 & B7). pose proof (geo_group _ _ (mk_geometry _ _ Hmk)) as Hg.
    pose proof (mk_tables _ _ Hmk). rewrite group_start_succ in J3, B3. unfold table_start in Hx.
    assert (group_start i a k <= x < group_start i a k + blocks_per_group i) as Hxk.
    { pose proof (copy_blocks_place k x Hk Hcp) as Hpl. unfold table_start in Hpl. lia. }
    destruct Hcp as (_ & Hcp). rewrite J7 in *. rewrite B7 in *. destruct (Z.lt_trichotomy (Z.of_nat j) k) as [Hjk|[Hjk|Hjk]].
    - assert ((Z.of_nat j + 1) * blocks_per_group i <= k * blocks_per_group i) by (apply Z.mul_le_mono_nonneg_r; lia). lia.
    - rewrite Hjk in *. destruct Hc as [Hc|[Hc|Hc]]; [lia|lia|]. destruct Hcp as [Hcp|(H0 & Hcp)]; [lia|].
      assert (0 < k * blocks_per_group i) by (apply Z.mul_pos_pos; lia). lia.
    - assert ((k + 1) * blocks_per_group i <= Z.of_nat j * blocks_per_group i) by (apply Z.mul_le_mono_nonneg_r; lia). lia. }
  exists q', s2. split.
  - unfold fill_group, bind at 1, get_state at 1.
    assert (lift (ext4_bg_has_super_block (info s) (s32 k)) s = Ok (Some (super_in i k), s)) as Es.
    { pose proof (geo_groups _ _ (mk_geometry _ _ Hmk)). unfold lift. rewrite s32_id, Ei, super_ok by lia. reflexivity. }
    rewrite (bind_eq _ _ _ _ _ Es). unfold fill_copies in E1. rewrite (bind_eq _ _ _ _ _ E1).
    unfold bind at 1, get_state. rewrite P1, Hb1. rewrite (bind_eq (lift (oof (Some b))) _ s1 b s1 eq_refl).
    rewrite P2, (bind_eq _ _ _ _ _ (update_mem_spec s1 (bg_desc p) _ d d' Hd1 Ed)). reflexivity.
  - split.
    + exact (pl_ready _ _ _ _ Hp2).
    + exact (same_globals_trans _ _ _ Gl1 (pl_globals _ _ _ _ Hp2)).
    + cbn. rewrite Eb1. exact Eb.
    + cbn. rewrite Et1. exact Et.
    + apply (image_moves_trans _ _ s); [exact Im|]. apply (image_moves_trans _ _ s1); [exact (pl_moves _ _ _ _ (Hp1 _))|exact (pl_moves _ _ _ _ Hp2)].
    + cbn. lia.
    + apply (pl_layout _ _ _ _ Hp2), L1, Hly.
    + auto.
    + cbn. rewrite lookup_insert_ne by congruence. exact Hb1.
    + exists d'. split; [apply lookup_insert_eq|]. split; [lia|]. intros g Hg. fold i a.
      destruct (decide (g = k)) as [->|Hgk]; [auto|]. apply Hold; [lia|]. apply Hsh. lia.
    + exists l'. split; [exact Hl'|]. split; [exact Ll|]. intros g Hg Hs.
      destruct (decide (g = k)) as [->|Hgk].
      * destruct (Hnew Hs) as (Hn1 & _). destruct (Hn1 ltac:(lia)) as (c & buf & C1 & C0 & C2 & C3 & C4).
        exists c, buf. split; [exact C1|]. split; [exact C0|]. split; [exact (holds_moves _ s1 s2 _ _ (pl_moves _ _ _ _ Hp2) C2)|].
        split; [exact (Hm2 k c buf C0 C4 C3)|exact C4].
      * destruct (Hbk g ltac:(lia) Hs) as (c & buf & C1 & C0 & C2 & C3 & C4). exists c, buf.
        split; [rewrite Ho by lia; exact C1|]. split; [exact C0|].
        split; [change (info s2) with (info s1); change (aux_info s2) with (aux_info s1); rewrite Ei1, Ea1; rewrite Ei, Ea in C2; exact (Hh2 _ _ C2)|].
        split; [exact (Hm2 g c buf C0 C4 (im_mem _ _ _ Im1 _ _ (not_elem_of_nil _) C3))|exact C4].
    + intros g Hg Hs. destruct (decide (g = k)) as [->|Hgk].
      * destruct (Hnew Hs) as (_ & Hn2). intros x Hx. exact (holds_moves _ s1 s2 _ _ (pl_moves _ _ _ _ Hp2) (Hn2 x Hx)).
      * intros x Hx. specialize (Hdq g ltac:(lia) Hs x). rewrite Ei, Ea in Hdq.
        change (info s2) with (info s1) in *. change (aux_info s2) with (aux_info s1) in *. rewrite Ei1, Ea1 in *. apply Hh2, Hdq, Hx.
    + intros j x Hj Hx Hc. fold i a in Hj, Hx, Hc. destruct (pl_others _ _ _ _ Hp2 x) as [[]|Hu]; [|exact Hu].
      destruct (O1 x) as [Hcp|Hu]; [|destruct (Hnot j x Hj Hx Hc Hcp)|exact Hu].
      apply (Hun j x Hj Hx). fold i a. lia.
Qed.

Lemma fill_groups_spec n : forall k s q, filled s0 s p q b k -> 0 <= k -> k + Z.of_nat n = groups a ->
  exists q' s', fill_groups (seqZ k (Z.of_nat n)) q s = Ok (Some q', s') /\ filled s0 s' p q' b (groups a).
Proof.
  induction n as [|n IH]; intros k s q Hf Hk Hn.
  - exists q, s. split; [reflexivity|]. replace (groups a) with k by lia. exact Hf.
  - rewrite seqZ_cons by lia. cbn [fill_groups]. replace (Z.pred (Z.of_nat (S n))) with (Z.of_nat n) by lia.
    destruct (fill_group_step s q k Hf ltac:(lia)) as (q1 & s1 & E1 & Hf1). rewrite (bind_eq _ _ _ _ _ E1).
    apply (IH (Z.succ k) s1 q1); [exact Hf1|lia|lia].
Qed.

End Groups.

(** The pointers of [aux_info] before anything is filled in. *)
Record buffers_ready (s : fs) (p : super) : Prop := {
  br_sb : exists b, mem s !! sb p = Some b /\ zlen b = block_size (info s);
  br_desc : exists d, mem s !! bg_desc p = Some d /\ zlen d = block_size (info s) * bg_desc_blocks (aux_info s);
  br_apart : sb p <> bg_desc p;
  br_backup : exists l, backup_sb p = Some l /\ zlen l = groups (aux_info s)
}.

Lemma fill_in_sb_spec stack s0 s p lab : makeable (info s0) (aux_info s0) -> groups_made s0 s -> buffers_ready s p ->
  label (info s0) = Some lab -> zlen (chars lab) < 2 ^ 29 -> zlen stack = 64 ->
  exists k b q s', ext4_fill_in_sb stack p s = Ok (Some q, s') /\ block_size (info s0) = 1024 * 2 ^ k /\
    sb_shows (info s0) (aux_info s0) k (chars lab) b /\ zlen b = block_size (info s0) /\
    filled s s' p q b (groups (aux_info s)).
Proof.
  intros Hmk [Hrd Gl Hly _ _ _ Hsup Hgr] [(b0 & Hb0 & Lb0) (d & Hd & Ld) Hne (l & Hl & Ll)] Hlab Hlen Hst.
  pose proof Gl as (_ & Ei & Ea & _). destruct (params_block_size _ (mk_params _ _ Hmk)) as (k & _ & Ek & Hbs & Hlog).
  destruct (fill_sb_spec stack (info s0) (aux_info s0) k lab b0 Hst) as (b & Eb & Lb & Sh); rewrite ?Lb0, ?Ei; auto; [lia|].
  destruct (update_plain [sb p; bg_desc p] s (sb p) (fill_sb stack (info s) (aux_info s)) b0 b Hrd Hb0) as (E1 & P1);
    [rewrite Ei, Ea; exact Eb|left|]. set (s1 := set_mem s (sb p) b) in *.
  assert (forall (g : nat) c, bgs s !! g = Some c -> has_superblock c = super_in (info s0) (Z.of_nat g)) as Hs
    by (intros g c Hc; destruct (Hgr g c Hc) as (_ & _ & H & _); exact H).
  pose proof (geo_groups _ _ (mk_geometry _ _ Hmk)) as Hg0.
  assert (forall g, 0 <= g < groups (aux_info s) -> exists c, bgs s !! Z.to_nat g = Some c /\ has_superblock c = super_in (info s) g) as Hbgs.
  { intros g Hg. destruct (lookup_lt_is_Some_2 (bgs s) (Z.to_nat g)) as [c Hc].
    { pose proof (fs_groups _ (rd_ok _ Hrd)) as Hn. unfold zlen in Hn. lia. }
    exists c. split; [exact Hc|]. rewrite (Hs _ c Hc), Ei, Z2Nat.id by lia. reflexivity. }
  assert (filled s s1 p p b 0) as Hf0.
  { split.
    - exact (pl_ready _ _ _ _ P1).
    - exact (pl_globals _ _ _ _ P1).
    - reflexivity.
    - reflexivity.
    - exact (pl_moves _ _ _ _ P1).
    - cbn. lia.
    - exact (pl_layout _ _ _ _ P1 Hly).
    - auto.
    - apply lookup_insert_eq.
    - exists d. split; [cbn; rewrite lookup_insert_ne by congruence; exact Hd|]. split; [exact Ld|lia].
    - exists l. split; [exact Hl|]. split; [exact Ll|lia].
    - lia.
    - intros j x Hj Hx _. apply (Hsup x). exists j.
      destruct (Hbgs (Z.of_nat j) ltac:(lia)) as (c & Hc & Es). rewrite Nat2Z.id in Hc. exists c. split; [exact Hc|].
      unfold table_end. unfold table_start in Hx. rewrite Es. lia. }
  assert (makeable (info s) (aux_info s)) as Hmk' by (rewrite Ei, Ea; exact Hmk).
  destruct (fill_groups_spec s p b Hmk' (rd_mem _ Hrd _ _ Hb0) (rd_mem _ Hrd _ _ Hd) Hne ltac:(lia) Hbgs
    (Z.to_nat (groups (aux_info s))) 0 s1 p Hf0) as (q & s' & E2 & Hf); [lia|rewrite Ea; lia|].
  exists k, b, q, s'. split; [|split; [exact Ek|split; [exact Sh|split; [congruence|exact Hf]]]].
  unfold ext4_fill_in_sb, bind at 1, get_state. rewrite (bind_eq _ _ _ _ _ E1).
  rewrite Z2Nat.id in E2 by (rewrite Ea; lia). exact E2.
Qed.

End MakeExt4Fill.
