(* ===== verification/MakeExt4Inodes.v ===== *)
(** * Making an image: the reserved inodes

    The inodes set aside, the journal and the resize inode, on the groups of a
    new image. *)

From S2P Require Import Prelude BackedBlock SparseFile Sha1 Ext4Utils Ext4Alloc Ext4AllocBits Ext4AllocProps Ext4AllocLists Ext4Extent Ext4ExtentProps Ext4ExtentFiles Ext4Indirect Ext4Contents Ext4ContentsProps Ext4Dirs Ext4Tree Ext4Super Ext4SuperProps MakeExt4fs MakeExt4Init.

Module MakeExt4Inodes.
Import Ext4Utils Ext4Alloc Ext4AllocBits Ext4AllocProps Ext4AllocLists Ext4Extent Ext4ExtentProps
  Ext4ExtentFiles Ext4Indirect Ext4Contents Ext4ContentsProps Ext4Dirs Ext4Tree Ext4Super Ext4SuperProps
  MakeExt4fs MakeExt4Init.

(** ** A file whose contents are in memory *)

(** The inode [ino] lists [blocks], which hold the buffer [buf] at [data]; none
    of it is in memory below [lo]. *)
Record memory_file (lo : Z) (s : fs) (ino : Z) (inode : ext4_inode) (data : Z) (blocks buf : list Z) : Prop := {
  mf_inode : itab s !! inode_key s ino = Some inode;
  mf_blocks : file_blocks (block_buffer s) inode = Some blocks;
  mf_data : lo <= data;
  mf_leaf : forall a, leaf_addr s inode = Some a -> lo <= a /\ a <> data;
  mf_mem : mem s !! data = Some buf;
  mf_len : zlen buf = zlen blocks * block_size (info s);
  mf_source : forall k x, blocks !! Z.to_nat k = Some x -> 0 <= k ->
    block_source s x = Some (from_memory (data + k * block_size (info s)))
}.

Lemma memory_file_grows lo s s' ino inode data blocks buf : memory_file lo s ino inode data blocks buf ->
  queue_inv s -> queue_inv s' -> image_grows s s' -> itab s' !! inode_key s ino = itab s !! inode_key s ino ->
  memory_file lo s' ino inode data blocks buf.
Proof.
  intros [A B C D E F G] Hq Hq' Hg Hi. pose proof Hg as [Ei _ Hm].
  assert (inode_key s' ino = inode_key s ino) as Ek by (unfold inode_key; rewrite Ei; reflexivity).
  split; rewrite ?Ek, ?Ei; auto.
  - rewrite Hi. exact A.
  - exact (file_blocks_stable s s' inode blocks Hq' Hg B).
  - rewrite (leaf_addr_stable s s' inode blocks Hq' Hg B). exact D.
  - intros k x Hk Hk0. exact (block_source_stable s s' x _ Hq Hq' Hg (G k x Hk Hk0)).
Qed.

Lemma memory_file_put lo s ino inode data blocks buf a buf' : memory_file lo s ino inode data blocks buf ->
  a < lo -> memory_file lo (set_mem s a buf') ino inode data blocks buf.
Proof.
  intros [A B C D E F G] Ha. split; auto.
  - rewrite file_blocks_put; [exact B|]. intros H. apply D in H. lia.
  - cbn. rewrite lookup_insert_ne by lia. exact E.
Qed.

(** The contents written. *)
Lemma memory_file_write lo s ino inode data blocks buf buf' : memory_file lo s ino inode data blocks buf ->
  zlen buf' = zlen buf -> memory_file lo (set_mem s data buf') ino inode data blocks buf'.
Proof.
  intros [A B C D E F G] Hl. split; auto.
  - rewrite file_blocks_put; [exact B|]. intros H. apply D in H. destruct H as (_ & H). exact (H eq_refl).
  - apply lookup_insert_eq.
  - cbn. lia.
Qed.

Lemma memory_file_other lo s ino inode data blocks buf k i : memory_file lo s ino inode data blocks buf ->
  k <> inode_key s ino -> memory_file lo (set_itab s k i) ino inode data blocks buf.
Proof.
  intros [A B C D E F G] Hk. split; auto. cbn. rewrite lookup_insert_ne by exact Hk. exact A.
Qed.

(** Another inode record with the same blocks. *)
Lemma memory_file_inode lo s ino inode data blocks buf i : memory_file lo s ino inode data blocks buf ->
  i_block i = i_block inode -> memory_file lo (set_itab s (inode_key s ino) i) ino i data blocks buf.
Proof.
  intros [A B C D E F G] Hi. split; auto.
  - apply lookup_insert_eq.
  - rewrite (file_blocks_iblock _ i inode Hi). exact B.
  - intros a Ha. apply D. rewrite <- (leaf_addr_iblock _ i inode Hi). exact Ha.
Qed.

(** ** The inodes set aside *)

Lemma reserve_first_inodes s b n : fs_ready s -> bgs s !! 0%nat = Some b -> 0 <= n <= free_inodes b ->
  exists s', reserve_inodes 0 n s = Ok (Some (first_free_inode b), s') /\ kept s s' /\
    (forall y, free_inode s' y <-> free_inode s y /\ ~ first_free_inode b <= y < first_free_inode b + n).
Proof.
  intros Hrd Hb Hn. pose proof (rd_ok _ Hrd) as Hfs.
  destruct (reserve_inodes_spec s 0 b n Hfs ltac:(lia) Hb Hn) as (bm & E & Hok).
  eexists. split; [exact E|]. split.
  - apply (update_kept s 0 b); auto. repeat split.
  - pose proof (lookup_lt_Some _ _ _ Hb) as Hlt.
    pose proof (fs_bgs _ Hfs 0 b ltac:(lia) Hb) as [_ _ _ _ _ Hin _].
    pose proof (geo_inodes _ _ (fs_geometry _ Hfs)) as Hipg. intros z. split.
    + intros (j & c & Hj & Hc & Hz). cbn in Hc. destruct (decide (0 = j)) as [<-|Hne].
      * change (Z.to_nat 0) with 0%nat in Hc. rewrite list_lookup_insert_eq in Hc by exact Hlt. injection Hc as <-.
        unfold inode_start in *. cbn in Hz. split; [exists 0, b; unfold inode_start; repeat split; auto; lia|lia].
      * rewrite list_lookup_insert_ne in Hc by lia. split; [exists j, c; auto|].
        pose proof (fs_bgs _ Hfs j c Hj Hc) as [_ _ _ _ _ Hin' _]. unfold inode_start in *. cbn in Hz. nia.
    + intros ((j & c & Hj & Hc & Hz) & Hne'). destruct (decide (0 = j)) as [<-|Hne].
      * change (Z.to_nat 0) with 0%nat in Hc. rewrite Hb in Hc. injection Hc as <-. exists 0, (inodes_taken b n bm). split; [lia|].
        split; [apply list_lookup_insert_eq; exact Hlt|]. unfold inode_start in *. cbn. cbn in Hz. lia.
      * exists j, c. split; [exact Hj|]. split; [cbn; rewrite list_lookup_insert_ne by lia; exact Hc|exact Hz].
Qed.

(** A buffer that was not there before was not written. *)
Lemma grown_new ws a s s' : grown (a :: ws) s s' -> mem s !! a = None -> grown ws s s'.
Proof.
  intros [A B C D E F] Ha. split; auto. exact (image_moves_new ws a s s' C Ha).
Qed.

(** ** The journal *)

(** What making one of the reserved inodes leaves alone. *)
Record inode_step (s s' : fs) (ino : Z) (taken : list Z) : Prop := {
  is_itab : forall k, k <> inode_key s ino -> itab s' !! k = itab s !! k;
  is_were_free : forall x, x ∈ taken -> free_block s x;
  is_free : forall x, free_block s' x <-> free_block s x /\ x ∉ taken;
  is_inodes : forall y, free_inode s' y <-> free_inode s y
}.

Lemma journal_values_fit i n : 1024 <= n -> forallb (fun '(f, _) => fits n f) (journal_values i) = true.
Proof. intros H. apply (fits_all 1024 n _ H). reflexivity. Qed.

Lemma file_made_grown ws s s' i i' blocks T len : fs_ready s -> file_made s s' i i' blocks T len -> grown ws s s'.
Proof.
  intros Hrd [M1 M2 M3 M4 M5 M6 M7 M8 M9 M10 M11 M12 M13 M14 M15]. split; auto.
  - apply grows_moves, M9.
  - exact (queues_free_header s s' Hrd M1 M2 M11 M10).
  - exact (group_layout_step s s' M2 M9 (groups_step_places _ _ M11)).
Qed.

Lemma itab_grown ws s k i : fs_ready s -> grown ws s (set_itab s k i).
Proof.
  intros Hrd. split; auto; [exact (ready_itab s k i Hrd)|repeat split|split; auto|cbn; lia|split; auto; exact (same_supers_refl s)].
Qed.

(** The journal in the image: its first block is the journal super block. *)
Definition journal_made (lo : Z) (s : fs) (blocks buf : list Z) (inode : ext4_inode) : Prop :=
  exists data, memory_file lo s EXT4_JOURNAL_INO inode data blocks buf /\
    i_mode inode = Z.lor S_IFREG 0x180 /\ zlen blocks = journal_blocks (info s) /\
    put_fields (journal_values (info s)) (zeros (journal_blocks (info s) * block_size (info s))) = Ok buf.

Lemma create_journal_spec s p b : fs_ready s -> inode_in_range s EXT4_JOURNAL_INO ->
  groups (aux_info s) * inodes_per_group (info s) < 2 ^ 32 ->
  itab s !! inode_key s EXT4_JOURNAL_INO = None -> mem s !! sb p = Some b -> 1024 <= zlen b ->
  1024 <= block_size (info s) -> 0 < journal_blocks (info s) -> journal_blocks (info s) * block_size (info s) < 2 ^ 32 ->
  can_hold s (journal_blocks (info s) + 1) = true ->
  exists s' inode blocks T buf b', ext4_create_journal_inode p s = Ok (Some tt, s') /\ grown [sb p] s s' /\
    journal_made (fresh s) s' blocks buf inode /\ inode_step s s' EXT4_JOURNAL_INO (T ++ blocks) /\ zlen T <= 1 /\
    mem s' !! sb p = Some b' /\ zlen b' = zlen b /\ sub_bytes b' 268 60 = i_block inode /\
    (forall o n, 0 <= o -> 0 <= n -> o + n <= zlen b -> apart (mk_field 268 60) (mk_field o n) = true ->
       sub_bytes b' o n = sub_bytes b o n).
Proof.
  intros Hrd Hin Htot Hnew Hb Lb Hbs0 HJ HJb Hcan. set (J := journal_blocks (info s)) in *. set (bs := block_size (info s)) in *.
  destruct (get_inode_spec s EXT4_JOURNAL_INO Hrd Hin Htot) as (s1 & E1 & K1 & SC1 & _).
  pose proof (kp_globals _ _ K1) as (_ & Ei & _). pose proof (kp_ready _ _ K1) as Hrd1. pose proof (kp_fresh _ _ K1) as Hf1.
  pose proof (rd_leaf _ Hrd) as Hlf. fold bs in Hlf.
  assert (DIV_ROUND_UP (J * bs) bs = J) as Ed by (apply DIV_ROUND_UP_mul; lia).
  assert (J < 2 ^ 22 /\ 0 < J * bs) as (HJ22 & HJ0) by nia.
  destruct (data_extents_spec s1 zero_inode (J * bs) (J * bs) Hrd1 eq_refl) as (data & i1 & s2 & blocks & T & E2 & Hfm & Hmem & Hsrc & Hdata & Hleaf);
    rewrite ?Ei; fold bs; rewrite ?Ed; [lia|lia|rewrite (can_hold_kept _ _ _ K1); exact Hcan|lia|lia|].
  pose proof Hfm as [M1 M2 M3 M4 M5 M6 M7 M8 M9 M10 M11 M12 M13 M14 M15]. pose proof M2 as (_ & Ei2 & _).
  rewrite Ei in *. fold bs in M4, Hsrc. rewrite Ed in *. set (key := inode_key s EXT4_JOURNAL_INO) in *.
  assert (forall s', info s' = info s -> inode_key s' EXT4_JOURNAL_INO = key) as Ekey
    by (intros s' E; unfold key, inode_key; rewrite E; reflexivity).
  set (i2 := set_reserved i1). set (s3 := set_itab (set_itab s2 key i1) key i2).
  destruct (put_fields_spec (journal_values (info s)) (zeros (J * bs))) as (buf & Ebuf & Lbuf & _ & _);
    [apply journal_values_fit; rewrite zlen_zeros by nia; nia|]. rewrite zlen_zeros in Lbuf by nia.
  set (s4 := set_mem s3 data buf).
  assert (zlen (i_block i2) = 60) as Li.
  { destruct M8 as (b60 & Lb60 & ->). exact Lb60. }
  destruct (put_bytes_spec s_jnl_blocks (i_block i2) b) as (b' & Eb' & Lb' & Sb' & Ob'); [change (f_off s_jnl_blocks) with 268; lia|change (f_off s_jnl_blocks) with 268; lia|].
  rewrite Li in Sb', Ob'. change (f_off s_jnl_blocks) with 268 in Sb', Ob'. set (s5 := set_mem s4 (sb p) b').
  pose proof (rd_mem _ Hrd _ _ Hb) as Hsbf.
  assert (memory_file (fresh s) s3 EXT4_JOURNAL_INO i2 data blocks (zeros (J * bs))) as Hmf.
  { unfold s3. rewrite <- (Ekey (set_itab s2 key i1) Ei2) at 2. apply (memory_file_inode _ _ _ i1); [|reflexivity].
    split; rewrite ?(Ekey (set_itab s2 key i1) Ei2); [apply lookup_insert_eq|exact M3|lia| |exact Hmem| |].
    - intros a Ha. split; [apply M13 in Ha; lia|]. intros ->. exact (Hleaf Ha).
    - rewrite zlen_zeros by nia. change (info (set_itab s2 key i1)) with (info s2). rewrite Ei2. fold bs. rewrite M4. reflexivity.
    - intros k x Hk Hk0. change (info (set_itab s2 key i1)) with (info s2). rewrite Ei2. fold bs. apply (Hsrc k x Hk).
      apply lookup_lt_Some in Hk. unfold zlen in M4. lia. }
  assert (fs_ready s3) as Hrd3 by (apply ready_itab, ready_itab, M1).
  assert (mem s !! data = None) as Hnone.
  { destruct (mem s !! data) as [x|] eqn:Ex; [|reflexivity]. pose proof (rd_mem _ Hrd data x Ex). lia. }
  exists s5, i2, blocks, T, buf, b'. split; [|split; [|split; [|split; [|split; [exact M15|]]]]].
  - unfold ext4_create_journal_inode. rewrite (bind_eq _ _ _ _ _ E1). unfold bind at 1, get_state. rewrite Ei. fold J bs.
    rewrite (u32_id (J * bs)) by nia.
    assert (read_inode key s1 = Ok (Some zero_inode, s1)) as Er by (unfold read_inode; rewrite (kp_itab _ _ K1), Hnew; reflexivity).
    rewrite (bind_eq _ _ _ _ _ Er), (bind_eq _ _ _ _ _ E2).
    rewrite (bind_eq (write_inode key i1) _ s2 tt (set_itab s2 key i1) eq_refl).
    rewrite (bind_eq (write_inode key i2) _ _ tt s3 eq_refl).
    rewrite (bind_eq _ _ _ _ _ (update_mem_spec s3 data _ _ _ Hmem Ebuf)). fold s4.
    apply (update_mem_spec s4 (sb p) _ b b'); [|exact Eb'].
    cbn. rewrite lookup_insert_ne by lia. apply (ig_mem _ _ M9), (ig_mem _ _ (kp_grows _ _ K1)). exact Hb.
  - apply (grown_new [sb p] data); [|exact Hnone].
    apply (grown_trans _ s s1); [exact (kept_grown _ _ _ K1)|]. apply (grown_trans _ s1 s2); [exact (file_made_grown _ _ _ _ _ _ _ _ Hrd1 Hfm)|].
    apply (grown_trans _ _ (set_itab s2 key i1)); [exact (itab_grown _ _ _ _ M1)|].
    apply (grown_trans _ _ s3); [exact (itab_grown _ _ _ _ (ready_itab _ _ _ M1))|].
    assert (plain [data; sb p] no_block s3 s4) as P4 by (apply write_plain; [exact Hrd3|cbn; lia|left]).
    apply (grown_trans _ _ s4); [exact (plain_grown _ _ _ P4)|]. apply plain_grown, write_plain; [exact (pl_ready _ _ _ _ P4)|cbn; lia|].
    right. left.
  - exists data. change (info s5) with (info s2). rewrite Ei2. split; [|split; [reflexivity|split; [exact M4|exact Ebuf]]].
    apply memory_file_put; [|lia]. exact (memory_file_write _ _ _ _ _ _ _ buf Hmf ltac:(rewrite zlen_zeros by nia; exact Lbuf)).
  - split.
    + intros k Hk. fold key in Hk. cbn. rewrite !lookup_insert_ne by congruence. rewrite M12, (kp_itab _ _ K1). reflexivity.
    + intros x Hx. apply (kp_free _ _ K1), M6. exact Hx.
    + intros x. change (free_block s5 x) with (free_block s2 x). rewrite M7, (kp_free _ _ K1). tauto.
    + intros y. change (free_inode s5 y) with (free_inode s2 y).
      rewrite (groups_step_free_inode s1 s2 y (rd_ok _ Hrd1) (rd_ok _ M1) M2 M11).
      exact (same_counts_free_inode s s1 y (rd_ok _ Hrd) (kp_globals _ _ K1) SC1).
  - split; [apply lookup_insert_eq|]. split; [exact Lb'|]. split; [exact Sb'|exact Ob'].
Qed.

End MakeExt4Inodes.
