(* ===== verification/MakeExt4Resize.v ===== *)
(** * Making an image: the resize inode

    The regions of reserved descriptor blocks, the blocks the resize inode lists
    them in, and what [ext4_create_resize_inode] leaves alone. *)

From S2P Require Import Prelude BackedBlock SparseFile Ext4Utils Ext4Alloc Ext4AllocBits Ext4AllocProps Ext4AllocLists Ext4Extent Ext4ExtentProps Ext4ExtentFiles Ext4Indirect Ext4Contents Ext4Dirs Ext4Links Ext4Super Ext4SuperProps MakeExt4Init MakeExt4Fill MakeExt4Inodes.

Module MakeExt4Resize.
Import Ext4Utils Ext4Alloc Ext4AllocBits Ext4AllocProps Ext4AllocLists Ext4Extent Ext4ExtentProps
  Ext4ExtentFiles Ext4Indirect Ext4Contents Ext4Dirs Ext4Links Ext4Super Ext4SuperProps
  MakeExt4Init MakeExt4Fill MakeExt4Inodes.

(** ** Regions appended by hand *)

Lemma ready_heap s h : fs_ready s -> (forall c, fresh s <= c -> h !! c = None) -> fs_ready (set_heap s h).
Proof.
  intros H Hh. destruct H as [[G N B] R2 R3 R4 [Q1 Q2 Q3 Q4 Q5 Q6] R6 R6' R7 Rh Rt Ri Rz R8 R9].
  split; try assumption; split; assumption.
Qed.

Lemma heap_plain ws s h : fs_ready s -> (forall c, fresh s + 1 <= c -> h !! c = None) ->
  plain ws no_block s (set_heap (bump s) h).
Proof.
  intros Hrd Hh. apply plain_same; auto.
  - apply ready_heap; [exact (ready_fresh s (fresh s + 1) Hrd ltac:(lia))|exact Hh].
  - repeat split.
  - cbn. lia.
Qed.

(** An allocation that is read from its first region on. *)
Definition region_alloc (h : gmap Z region) (alloc : block_allocation) (l : list node) : Prop :=
  exists f, alloc = mk_alloc (mk_list f (last_addr None l) f 0) empty_list /\ lseg h f None l None.

Lemma append_region_spec s alloc l b n g : memory s -> heap_fresh s -> region_alloc (heap s) alloc l ->
  exists alloc' h, append_region alloc b n g s = Ok (Some alloc', set_heap (bump s) h) /\
    region_alloc h alloc' (l ++ [(fresh s, (b, n, g))]) /\
    (forall c, c ∉ addrs l -> c <> fresh s -> h !! c = heap s !! c).
Proof.
  intros Hm Hhf (f & -> & Hl). assert (heap s !! fresh s = None) as Hnew by (apply Hhf; lia).
  set (reg := mk_region b n g None None). set (h1 := <[fresh s := reg]> (heap s)). set (s1 := set_heap (bump s) h1).
  assert (new_region reg s = Ok (Some (fresh s), s1)) as En by exact (new_region_eq s reg Hm).
  destruct l as [|[a x] l _] using rev_ind.
  - cbn in Hl. subst f. exists (mk_alloc (mk_list (Some (fresh s)) (Some (fresh s)) (Some (fresh s)) 0) empty_list), h1.
    split; [|split].
    + unfold append_region. fold reg. rewrite (bind_eq _ _ _ _ _ En). cbn [list_ oob_list].
      rewrite (bind_eq _ _ _ _ _ (append_empty s1 empty_list (fresh s) b n g (lookup_insert_eq _ _ _) eq_refl)). reflexivity.
    + exists (Some (fresh s)). split; [reflexivity|]. split; [reflexivity|]. exists None. split; [apply lookup_insert_eq|reflexivity].
    + intros c _ Hc. apply lookup_insert_ne. congruence.
  - destruct x as [[b' n'] g'].
    pose proof (lseg_link _ _ _ _ _ (fresh s) (b, n, g) Hl Hnew) as Hlink. cbn [fst] in Hlink.
    pose proof Hl as Hl'. apply lseg_app in Hl' as (m & Hm' & Hlast). destruct Hlast as (-> & nx & Ea & ->).
    assert (a <> fresh s) as Hane by congruence.
    assert (h1 !! a = Some (mk_region b' n' g' None (last_addr None l))) as Ea1
      by (unfold h1; rewrite lookup_insert_ne by congruence; exact Ea).
    set (h2 := <[a := mk_region b' n' g' (Some (fresh s)) (last_addr None l)]> h1) in *.
    set (h3 := <[fresh s := mk_region b n g None (Some a)]> h2) in *.
    assert (exists p0, f = Some p0) as (p0 & ->).
    { destruct l as [|[c [[]]] l]; cbn in Hl; destruct Hl as (Hl & _); eauto. }
    rewrite last_addr_snoc.
    exists (mk_alloc (mk_list (Some p0) (Some (fresh s)) (Some p0) 0) empty_list), h3. split; [|split].
    + unfold append_region. fold reg. rewrite (bind_eq _ _ _ _ _ En).
      assert (region_list_append (mk_list (Some p0) (Some a) (Some p0) 0) (Some (fresh s)) s1 =
        Ok (Some (mk_list (Some p0) (Some (fresh s)) (Some p0) 0), set_heap (bump s) h3)) as Ap.
      { unfold region_list_append. cbn [first last]. unfold bind.
        rewrite (set_next_eq s1 a _ _ Ea1). cbn [r_block r_len r_bg r_next r_prev heap set_heap s1]. fold h2.
        rewrite (set_prev_eq _ (fresh s) reg) by (cbn; unfold h2; rewrite lookup_insert_ne by congruence; apply lookup_insert_eq).
        cbn [r_block r_len r_bg r_next r_prev reg heap set_heap]. fold h3.
        rewrite (set_next_eq _ (fresh s) (mk_region b n g None (Some a))) by apply lookup_insert_eq.
        cbn [r_block r_len r_bg r_next r_prev heap set_heap iter partial_iter]. rewrite insert_id by apply lookup_insert_eq. reflexivity. }
      cbn [list_ oob_list]. rewrite (bind_eq _ _ _ _ _ Ap). reflexivity.
    + exists (Some p0). split; [rewrite last_addr_snoc; reflexivity|exact Hlink].
    + intros c Hc Hne. assert (c <> a).
      { intros ->. apply Hc. unfold addrs. rewrite map_app. apply elem_of_app. right. left. }
      unfold h3, h2, h1. rewrite !lookup_insert_ne by congruence. reflexivity.
Qed.

(** ** The reserved descriptor blocks *)

(** The blocks reserved for descriptors in group [g]. *)
Definition reserve_start (i : fs_info) (a : fs_aux_info) (g : Z) : Z := group_start i a g + 1 + bg_desc_blocks a.
Definition reserved_region (i : fs_info) (a : fs_aux_info) (g : Z) : Z * Z * Z :=
  (reserve_start i a g, bg_desc_reserve_blocks i, g).
Definition super_groups (i : fs_info) (ids : list Z) : list Z := List.filter (super_in i) ids.

Lemma reserve_bounds s g : makeable (info s) (aux_info s) -> 0 <= g < groups (aux_info s) ->
  super_in (info s) g = true ->
  0 <= reserve_start (info s) (aux_info s) g /\
  reserve_start (info s) (aux_info s) g + bg_desc_reserve_blocks (info s) = table_start (info s) (aux_info s) g - 2 /\
  table_start (info s) (aux_info s) g < 2 ^ 32 - 1.
Proof.
  intros Hmk Hg Hs. destruct (group_bounds s Hmk g Hg) as (B1 & _ & B3 & B4 & B5 & B6 & _).
  pose proof (mk_tables _ _ Hmk). unfold reserve_start, table_start, header_size in *. rewrite Hs in *. lia.
Qed.

Lemma reserve_regions_spec ids : forall s alloc l, fs_ready s -> makeable (info s) (aux_info s) ->
  (forall g, g ∈ ids -> 0 <= g < groups (aux_info s)) -> region_alloc (heap s) alloc l ->
  (forall c, c ∈ addrs l -> c < fresh s) ->
  exists alloc' l' s', reserve_regions ids alloc s = Ok (Some alloc', s') /\ plain [] no_block s s' /\
    region_alloc (heap s') alloc' (l ++ l') /\ (forall c, c ∈ addrs (l ++ l') -> c < fresh s') /\
    map snd l' = map (reserved_region (info s) (aux_info s)) (super_groups (info s) ids).
Proof.
  induction ids as [|g ids IH]; intros s alloc l Hrd Hmk Hids Hal Hlt.
  - exists alloc, [], s. rewrite app_nil_r. split; [reflexivity|]. split; [exact (plain_refl _ _ s Hrd)|]. auto.
  - pose proof (Hids g ltac:(left)) as Hg. pose proof (geo_groups _ _ (mk_geometry _ _ Hmk)) as Hgr.
    assert (lift (ext4_bg_has_super_block (info s) (s32 g)) s = Ok (Some (super_in (info s) g), s)) as Es.
    { unfold lift. rewrite s32_id, super_ok by lia. reflexivity. }
    assert (forall g', g' ∈ ids -> 0 <= g' < groups (aux_info s)) as Hids' by (intros; apply Hids; right; assumption).
    cbn [reserve_regions super_groups List.filter]. fold (super_groups (info s) ids). destruct (super_in (info s) g) eqn:Hs.
    + destruct (reserve_bounds s g Hmk Hg Hs) as (R1 & R2 & R3).
      pose proof (mk_resize _ _ Hmk).
      destruct (append_region_spec s alloc l (reserve_start (info s) (aux_info s) g) (bg_desc_reserve_blocks (info s)) g
        (rd_memory _ Hrd) (rd_fresh _ Hrd) Hal) as (al1 & h & E1 & Hal1 & Hh).
      set (s1 := set_heap (bump s) h) in *.
      assert (plain [] no_block s s1) as P1.
      { apply heap_plain; [exact Hrd|]. intros c Hc. rewrite Hh; [apply (rd_fresh _ Hrd); lia| |lia].
        intros Hin. specialize (Hlt c Hin). lia. }
      destruct (IH s1 al1 (l ++ [(fresh s, reserved_region (info s) (aux_info s) g)]) (pl_ready _ _ _ _ P1) Hmk Hids' Hal1)
        as (al2 & l' & s2 & E2 & P2 & Hal2 & Hlt2 & Hmap).
      { intros c Hc. unfold addrs in Hc. rewrite map_app in Hc. apply elem_of_app in Hc as [Hc|Hc].
        - specialize (Hlt c Hc). cbn. lia.
        - apply list_elem_of_singleton in Hc. subst c. cbn. lia. }
      exists al2, ((fresh s, reserved_region (info s) (aux_info s) g) :: l'), s2.
      rewrite <- app_assoc in Hal2, Hlt2. cbn [app] in Hal2, Hlt2.
      split; [|split; [exact (plain_trans _ _ _ _ _ P1 P2)|split; [exact Hal2|split; [exact Hlt2|cbn; rewrite Hmap; reflexivity]]]].
      unfold bind at 1, get_state. rewrite (bind_eq _ _ _ _ _ Es).
      rewrite (group_start_block_eq s Hmk s g (same_globals_refl s) Hg).
      change (group_start (info s) (aux_info s) g + 1 + bg_desc_blocks (aux_info s)) with (reserve_start (info s) (aux_info s) g).
      rewrite u32_id by lia. rewrite (bind_eq _ _ _ _ _ E1). exact E2.
    + destruct (IH s alloc l Hrd Hmk Hids' Hal Hlt) as (al2 & l' & s2 & E2 & P2 & Hal2 & Hlt2 & Hmap).
      exists al2, l', s2. split; [|auto]. unfold bind at 1, get_state. rewrite (bind_eq _ _ _ _ _ Es).
      rewrite (bind_eq (ret alloc) _ s alloc s eq_refl). exact E2.
Qed.

(** The number of blocks of an allocation. *)
Lemma allocation_len_spec s alloc l : fseg (heap s) (first (list_ alloc)) l None ->
  (forall a b n g, (a, (b, n, g)) ∈ l -> 0 <= n) -> total_len l < 2 ^ 31 ->
  block_allocation_len alloc s = Ok (Some (total_len l), s).
Proof.
  intros Hl Hpos Ht.
  assert (forall k, (forall a b n g, (a, (b, n, g)) ∈ k -> 0 <= n) -> 0 <= total_len k) as Hnn.
  { induction k as [|[a [[b n] g]] k IH]; intros H; [cbn; lia|]. change (total_len ((a, (b, n, g)) :: k)) with (n + total_len k).
    pose proof (H a b n g ltac:(left)). assert (0 <= total_len k) by (apply IH; intros; eapply H; right; eassumption). lia. }
  assert (forall k fuel p i, fseg (heap s) p k None -> (length k < fuel)%nat -> 0 <= i ->
    (forall a b n g, (a, (b, n, g)) ∈ k -> 0 <= n) -> i + total_len k < 2 ^ 31 ->
    fold_regions fuel (fun i r => u32 (i + r_len r)) i p s = Ok (Some (i + total_len k), s)) as Hfold.
  { induction k as [|[a [[b n] g]] k IH]; intros fuel p i Hk Hf Hi Hp Hw;
      (destruct fuel as [|fuel]; [cbn in Hf; lia|]); cbn [fold_regions].
    - cbn in Hk. subst p. cbn. rewrite Z.add_0_r. reflexivity.
    - destruct Hk as (-> & nx & pv & Ha & Hk). change (total_len ((a, (b, n, g)) :: k)) with (n + total_len k) in *.
      pose proof (Hp a b n g ltac:(left)). assert (forall a b n g, (a, (b, n, g)) ∈ k -> 0 <= n) as Hp'
        by (intros; eapply Hp; right; eassumption). pose proof (Hnn k Hp').
      rewrite (bind_eq _ _ _ _ _ (deref_eq s a _ Ha)). cbn [r_next r_len]. rewrite u32_id by lia.
      rewrite (IH fuel nx (i + n) Hk) by (try assumption; cbn in Hf; lia). do 3 f_equal. lia. }
  unfold block_allocation_len, bind at 1, get_state. pose proof (Hnn l Hpos).
  rewrite (bind_eq _ _ _ _ _ (Hfold l (list_fuel s) _ 0 Hl (list_fuel_enough s l _ Hl) ltac:(lia) Hpos ltac:(lia))).
  cbn [Z.add]. unfold ret. rewrite s32_id by lia. reflexivity.
Qed.

(** ** One block for the resize inode itself *)

Lemma append_one_all s a b g : heap s !! a = Some (mk_region b 1 g None None) ->
  append_all (list_fuel s) empty_list (Some a) s = Ok (Some (mk_list (Some a) (Some a) (Some a) 0), s).
Proof.
  intros Ha. assert (exists m, list_fuel s = S (S m)) as (m & ->).
  { unfold list_fuel. destruct (size (heap s)) eqn:E; [|eauto]. apply map_size_empty_iff in E.
    rewrite E, lookup_empty in Ha. discriminate. }
  cbn [append_all]. rewrite (bind_eq _ _ _ _ _ (append_empty s empty_list a b 1 g Ha eq_refl)).
  rewrite (bind_eq _ _ _ _ _ (deref_eq s a _ Ha)). reflexivity.
Qed.

Record block_taken (s s' : fs) (b : Z) : Prop := {
  bt_grown : forall ws, grown ws s s';
  bt_images : mem s' = mem s /\ itab s' = itab s /\ sparse_file s' = sparse_file s;
  bt_was_free : free_block s b;
  bt_free : forall x, free_block s' x <-> free_block s x /\ x <> b;
  bt_inodes : forall y, free_inode s' y <-> free_inode s y;
  bt_heap : forall c, c < fresh s -> heap s' !! c = heap s !! c;
  bt_places : same_places s s'
}.

Lemma append_oob_spec s alloc : fs_ready s -> can_hold s 1 = true -> oob_list alloc = empty_list ->
  exists a b g s', append_oob_allocation alloc 1 s =
      Ok (Some (0, mk_alloc (list_ alloc) (mk_list (Some a) (Some a) (Some a) 0)), s') /\
    block_taken s s' b /\ fseg (heap s') (Some a) [(a, (b, 1, g))] None /\ fresh s <= a.
Proof.
  intros Hrd Hcan Ho. pose proof (rd_ok _ Hrd) as Hfs.
  pose proof (do_allocate_spec s 1 Hfs (rd_memory _ Hrd) (rd_fresh _ Hrd) (unused_roomy_free _ (rd_roomy _ Hrd)) ltac:(lia)) as Hal.
  rewrite Hcan in Hal. destruct Hal as (a & s' & l & E & Hc). destruct (chain_one s s' a l Hrd Hc) as (b & g & ->).
  destruct Hc as (Hl & Hal & _ & Hh & _ & Hsame). exists a, b, g, s'.
  pose proof (al_globals _ _ _ Hal) as G. pose proof G as (_ & Ei & _).
  destruct (al_nodes _ _ _ Hal a b 1 g ltac:(left)) as (Ha & _). destruct (al_sparse _ _ _ Hal) as (Es & Em & Et).
  assert (blocks_of [(a, (b, 1, g))] = [b]) as Eb by reflexivity. pose proof (al_free _ _ _ Hal) as Hf. rewrite Eb in Hf.
  assert (queued s' = queued s) as Eq by (unfold queued; rewrite Es; reflexivity).
  assert (queues_free s s') as Hqf by (intros bb Hbb; rewrite Eq in Hbb; auto).
  assert (image_grows s s') as Hig by (split; [exact Ei|rewrite Eq; auto|rewrite Em; auto]).
  pose proof (allocated_step _ _ _ Hal) as Hst.
  assert (fs_ready s') as Hrd'.
  { apply (fs_ready_step s); auto; [exact (al_ok _ _ _ Hal)| | |].
    - apply (queue_inv_mono s); auto; [exact (rd_queue _ Hrd)|exact (proj1 (proj2 (proj2 G)))|exact (al_fresh _ _ _ Hal)|]. intros x Hx. apply Hf in Hx. tauto.
    - intros x Hx. apply Hf in Hx. tauto.
    - intros c d Hc. rewrite Em in Hc. pose proof (rd_mem _ Hrd c d Hc). pose proof (al_fresh _ _ _ Hal). lia. }
  split; [|split; [|split; [exact (lseg_fseg _ _ _ _ _ Hl)|lia]]].
  - unfold append_oob_allocation. rewrite (bind_eq _ _ _ _ _ E). unfold bind at 1, get_state. rewrite Ho.
    destruct Hl as (_ & nx & Hha & Hn). cbn in Hn. subst nx. rewrite (bind_eq _ _ _ _ _ (append_one_all s' a b g Hha)). reflexivity.
  - split.
    + intros ws. split; auto; [exact (grows_moves ws _ _ Hig)|exact (al_fresh _ _ _ Hal)|exact (queues_free_header s s' Hrd Hrd' G Hst Hqf)|].
      exact (group_layout_step s s' G Hig (groups_step_places _ _ Hst)).
    + auto.
    + apply (al_were_free _ _ _ Hal). rewrite Eb. left.
    + intros x. rewrite Hf, list_elem_of_singleton. tauto.
    + intros y. exact (groups_step_free_inode s s' y Hfs (al_ok _ _ _ Hal) G Hst).
    + intros c Hc. apply Hsame. unfold addrs. cbn. rewrite list_elem_of_singleton. lia.
    + exact (groups_step_places _ _ Hst).
Qed.

(** ** The words the blocks hold *)

Definition word (b : list Z) (i : Z) : Z := get_field b (mk_field (4 * i) 4).

Lemma write_word_spec s m p i v buf : m !! p = Some buf -> 0 <= i -> 4 * i + 4 <= zlen buf ->
  exists buf', write_word p i v (with_mem s m) = Ok (Some tt, with_mem s (<[p := buf']> m)) /\
    zlen buf' = zlen buf /\ word buf' i = v mod 2 ^ 32 /\
    (forall j, 0 <= j -> 4 * j + 4 <= zlen buf -> j <> i -> word buf' j = word buf j).
Proof.
  intros Hp Hi Hl. destruct (put_field_spec (mk_field (4 * i) 4) v buf) as (buf' & E & L & G & O).
  { unfold fits. cbn [f_off f_size]. rewrite !andb_true_iff, !Z.leb_le. lia. }
  exists buf'. split; [|split; [exact L|split; [exact G|]]].
  - unfold write_word, bind, get_state. cbn [mem with_mem]. rewrite Hp. unfold lift, oof. cbn [obind].
    unfold put_field, put_bytes in E. cbn [f_off f_size] in E. change (Z.to_nat 4) with 4%nat in E. rewrite E. reflexivity.
  - intros j Hj Hjl Hne. unfold word, get_field. f_equal. apply O; [cbn; lia|cbn; lia|cbn; lia|].
    unfold apart. cbn. apply orb_true_iff. rewrite !Z.leb_le. lia.
Qed.

Section Words.
Context (s : fs) (alloc : block_allocation) (l : list node) (reserve per n : Z) (dind data : Z).
Context (Hseg : fseg (heap s) (iter (list_ alloc)) l None) (Hpi : partial_iter (list_ alloc) = 0) (Hok : nodes_ok l).
Context (Hr : 0 < reserve < 2 ^ 16) (Hn : 1 <= n <= per) (Hper : reserve * per < 2 ^ 31)
  (Hne : dind <> data).

(** The reserved block [r] of copy [j], which the word [w] of the data is for. *)
Definition listed (j r : Z) : Z := default EXT4_ALLOCATE_FAILED (blocks_of l !! Z.to_nat (j * reserve + r)) mod 2 ^ 32.
Definition data_word (w : Z) : Z := listed (w mod per + 1) (w / per).

Lemma data_word_at r j : 1 <= j < n -> data_word (r * per + j - 1) = listed j r.
Proof.
  intros Hj. unfold data_word. replace (r * per + j - 1) with (j - 1 + r * per) by lia. rewrite Z.mod_add, Z.div_add by lia.
  rewrite Z.mod_small, Z.div_small by lia. f_equal; lia.
Qed.

Lemma read_listed m j r : 0 <= j < n -> 0 <= r < reserve ->
  exists v, get_block alloc (u32 (u32 (j * reserve) + r)) (with_mem s m) = Ok (Some v, with_mem s m) /\ v mod 2 ^ 32 = listed j r.
Proof.
  intros Hj Hrr. assert (0 <= j * reserve /\ j * reserve + r < 2 ^ 31) as (H1 & H2) by nia.
  rewrite (u32_id (j * reserve)), u32_id by lia. eexists. split.
  - unfold get_block. apply (get_list_block_spec (with_mem s m) (list_ alloc) l (j * reserve + r)); [exact Hseg|exact Hok|lia|lia|lia].
  - rewrite Hpi, Z.add_0_r. reflexivity.
Qed.

Lemma resize_inner_spec r : 0 <= r < reserve -> forall ids m b, m !! data = Some b -> zlen b = 4 * (reserve * per) ->
  (forall j, j ∈ ids -> 1 <= j < n) ->
  exists b', resize_inner ids alloc reserve per data r (with_mem s m) = Ok (Some tt, with_mem s (<[data := b']> m)) /\
    zlen b' = zlen b /\
    (forall w, 0 <= w < reserve * per -> word b' w = word b w \/ word b' w = data_word w) /\
    (forall j, j ∈ ids -> word b' (r * per + j - 1) = listed j r).
Proof.
  intros Hrr. induction ids as [|j ids IH]; intros m b Hb Lb Hids.
  - exists b. split; [cbn; rewrite insert_id by exact Hb; reflexivity|]. split; [reflexivity|]. split; [auto|].
    intros j Hj. inversion Hj.
  - pose proof (Hids j ltac:(left)) as Hj. cbn [resize_inner].
    destruct (read_listed m j r ltac:(lia) Hrr) as (v & Ev & Hv). rewrite (bind_eq _ _ _ _ _ Ev).
    assert (0 <= r * per /\ r * per + per <= reserve * per) as (W1 & W2) by nia.
    rewrite (u32_id (r * per)), (u32_id (r * per + j)), u32_id by lia.
    destruct (write_word_spec s m data (r * per + j - 1) v b Hb ltac:(lia) ltac:(lia)) as (b1 & E1 & L1 & V1 & O1).
    rewrite (bind_eq _ _ _ _ _ E1).
    destruct (IH (<[data := b1]> m) b1 (lookup_insert_eq _ _ _) ltac:(lia) ltac:(intros; apply Hids; right; assumption))
      as (b2 & E2 & L2 & W & D). rewrite insert_insert_eq in E2.
    exists b2. split; [exact E2|]. split; [lia|].
    assert (word b1 (r * per + j - 1) = data_word (r * per + j - 1)) as Hw by (rewrite V1, Hv, data_word_at by lia; reflexivity).
    split.
    + intros w Hw'. destruct (W w Hw') as [Ew|Ew]; [|auto]. destruct (decide (w = r * per + j - 1)) as [->|Hd].
      * right. rewrite Ew. exact Hw.
      * left. rewrite Ew. apply O1; lia.
    + intros j' Hj'. apply elem_of_cons in Hj' as [->|Hj']; [|exact (D j' Hj')].
      rewrite <- (data_word_at r j Hj). destruct (W (r * per + j - 1) ltac:(lia)) as [Ew|Ew]; [|exact Ew]. rewrite Ew. exact Hw.
Qed.

Lemma resize_index_range bgd i : 0 <= resize_index bgd reserve i < reserve.
Proof.
  unfold resize_index. pose proof (Z.mod_pos_bound (u32 (i - bgd)) reserve ltac:(lia)) as B.
  rewrite !s32_id by lia. rewrite (proj2 (Z.ltb_ge _ 0)) by lia. lia.
Qed.

Lemma resize_outer_spec bgd : reserve <= per -> forall ids m b d, m !! dind = Some b -> m !! data = Some d ->
  zlen b = 4 * per -> zlen d = 4 * (reserve * per) -> (forall i, i ∈ ids -> 0 <= i < reserve) ->
  exists b' d', resize_outer ids alloc n bgd reserve per dind data (with_mem s m) =
      Ok (Some tt, with_mem s (<[data := d']> (<[dind := b']> m))) /\
    zlen b' = zlen b /\ zlen d' = zlen d /\
    (forall i, 0 <= i < reserve -> word b' i = word b i \/ word b' i = listed 0 (resize_index bgd reserve i)) /\
    (forall w, 0 <= w < reserve * per -> word d' w = word d w \/ word d' w = data_word w) /\
    (forall i, i ∈ ids -> word b' i = listed 0 (resize_index bgd reserve i) /\
       forall j, 1 <= j < n -> word d' (resize_index bgd reserve i * per + j - 1) = listed j (resize_index bgd reserve i)).
Proof.
  intros Hrp. induction ids as [|i ids IH]; intros m b d Hb Hd Lb Ld Hids.
  - exists b, d. split; [cbn; rewrite (insert_id m dind), insert_id by assumption; reflexivity|]. split; [reflexivity|].
    split; [reflexivity|]. split; [auto|]. split; [auto|]. intros i Hi. inversion Hi.
  - pose proof (Hids i ltac:(left)) as Hi. cbn [resize_outer]. pose proof (resize_index_range bgd i) as Hri.
    set (r := resize_index bgd reserve i) in *.
    destruct (read_listed m 0 r ltac:(lia) Hri) as (v & Ev & Hv). change (u32 (u32 (0 * reserve) + r)) with (u32 r) in Ev.
    rewrite (bind_eq _ _ _ _ _ Ev).
    destruct (write_word_spec s m dind i v b Hb ltac:(lia) ltac:(lia)) as (b1 & E1 & L1 & V1 & O1).
    rewrite (bind_eq _ _ _ _ _ E1).
    destruct (resize_inner_spec r Hri (seqZ 1 (n - 1)) (<[dind := b1]> m) d) as (d1 & E2 & L2 & W2 & D2);
      [rewrite lookup_insert_ne by congruence; exact Hd|exact Ld|intros j Hj; apply elem_of_seqZ in Hj; lia|].
    rewrite (bind_eq _ _ _ _ _ E2).
    destruct (IH (<[data := d1]> (<[dind := b1]> m)) b1 d1) as (b' & d' & E3 & L3 & L4 & W3 & W4 & D3);
      [rewrite lookup_insert_ne by congruence; apply lookup_insert_eq|apply lookup_insert_eq|lia|lia|intros; apply Hids; right; assumption|].
    exists b', d'. split; [rewrite E3; do 3 f_equal|].
    { apply map_eq. intros c. destruct (decide (c = data)) as [->|H1]; [rewrite !lookup_insert_eq; reflexivity|].
      rewrite !(lookup_insert_ne _ data) by congruence. destruct (decide (c = dind)) as [->|H2]; [rewrite !lookup_insert_eq; reflexivity|].
      rewrite !(lookup_insert_ne _ dind), (lookup_insert_ne _ data), lookup_insert_ne by congruence. reflexivity. }
    split; [lia|]. split; [lia|].
    assert (word b1 i = listed 0 r) as Hbi by (rewrite V1; exact Hv). split; [|split].
    + intros k Hk. destruct (W3 k Hk) as [Ew|Ew]; [|auto]. destruct (decide (k = i)) as [->|Hd'].
      * right. rewrite Ew. exact Hbi.
      * left. rewrite Ew. apply O1; lia.
    + intros w Hw. destruct (W4 w Hw) as [Ew|Ew]; [|auto]. rewrite Ew. apply W2. exact Hw.
    + intros k Hk. apply elem_of_cons in Hk as [->|Hk]; [|exact (D3 k Hk)]. split.
      * destruct (W3 i Hi) as [Ew|Ew]; [rewrite Ew; exact Hbi|exact Ew].
      * intros j Hj. fold r. rewrite <- (data_word_at r j Hj).
        assert (0 <= r * per /\ r * per + per <= reserve * per) as (B1 & B2) by nia.
        destruct (W4 (r * per + j - 1) ltac:(lia)) as [Ew|Ew]; [|exact Ew]. rewrite Ew, (data_word_at r j Hj).
        apply D2, elem_of_seqZ. lia.
Qed.

End Words.

(** ** The regions of the reserved blocks *)

Section Regions.
Context (f : Z -> Z) (R : Z) (HR : 0 <= R).

Definition regions_at (l : list node) (gs : list Z) : Prop := map snd l = map (fun g => (f g, R, g)) gs.

Lemma regions_cons l gs : regions_at l gs -> l = [] /\ gs = [] \/
  exists a g l' gs', l = (a, (f g, R, g)) :: l' /\ gs = g :: gs' /\ regions_at l' gs'.
Proof.
  unfold regions_at. destruct l as [|[a x] l], gs as [|g gs]; cbn; intros H; try discriminate; [auto|].
  injection H as -> H. right. exists a, g, l, gs. auto.
Qed.

Lemma regions_total l : forall gs, regions_at l gs -> total_len l = R * zlen gs.
Proof.
  induction l as [|x l IH]; intros gs H; apply regions_cons in H as [(E & ->)|(a & g & l' & gs' & E & -> & H)]; try discriminate.
  - unfold zlen. cbn. lia.
  - injection E as -> ->. rewrite zlen_cons. change (total_len ((a, (f g, R, g)) :: l')) with (R + total_len l').
    rewrite (IH gs' H). lia.
Qed.

Lemma regions_in l : forall gs a b n g, regions_at l gs -> (a, (b, n, g)) ∈ l -> b = f g /\ n = R /\ g ∈ gs.
Proof.
  induction l as [|x l IH]; intros gs a b n g H Hin; apply regions_cons in H as [(E & ->)|(a' & g' & l' & gs' & E & -> & H)];
    try discriminate; [inversion Hin|].
  injection E as -> ->. apply elem_of_cons in Hin as [[= -> -> -> ->]|Hin]; [split; [reflexivity|]; split; [reflexivity|left]|].
  destruct (IH gs' a b n g H Hin) as (-> & -> & Hg). split; [reflexivity|]. split; [reflexivity|right; exact Hg].
Qed.

(** The blocks in the order of the groups. *)
Lemma regions_lookup l : forall gs (j : nat) g r, regions_at l gs -> gs !! j = Some g -> 0 <= r < R ->
  blocks_of l !! Z.to_nat (Z.of_nat j * R + r) = Some (f g + r).
Proof.
  induction l as [|x l IH]; intros gs j g r H Hj Hr; apply regions_cons in H as [(E & ->)|(a & g' & l' & gs' & E & -> & H)];
    try discriminate. injection E as -> ->.
  unfold blocks_of. cbn [map concat node_blocks]. fold (blocks_of l'). destruct j as [|j].
  - injection Hj as ->. rewrite lookup_app_l by (rewrite length_seqZ; lia). rewrite lookup_seqZ_lt by lia. f_equal. lia.
  - assert (0 <= Z.of_nat j * R) by (apply Z.mul_nonneg_nonneg; lia).
    replace (Z.of_nat (S j) * R + r) with (R + (Z.of_nat j * R + r)) by lia.
    rewrite lookup_app_r by (rewrite length_seqZ; lia). rewrite length_seqZ.
    replace (Z.to_nat (R + (Z.of_nat j * R + r)) - Z.to_nat R)%nat with (Z.to_nat (Z.of_nat j * R + r)) by lia.
    exact (IH gs' j g r H Hj Hr).
Qed.

End Regions.

Lemma super_in_first i : super_in i 0 = true.
Proof. unfold super_in, ext4_bg_has_super_block. destruct (_ =? 0); reflexivity. Qed.

Lemma super_groups_head i n : 0 < n -> exists gs, super_groups i (seqZ 0 n) = 0 :: gs.
Proof. intros Hn. rewrite seqZ_cons by lia. unfold super_groups. cbn [List.filter]. rewrite super_in_first. eauto. Qed.

Lemma super_groups_in i g ids : g ∈ super_groups i ids -> g ∈ ids /\ super_in i g = true.
Proof. unfold super_groups. rewrite !list_elem_of_In, filter_In. auto. Qed.

Lemma super_groups_len i n : 0 <= n -> zlen (super_groups i (seqZ 0 n)) <= n.
Proof.
  intros Hn. unfold zlen, super_groups. pose proof (List.filter_length_le (super_in i) (seqZ 0 n)) as H.
  rewrite length_seqZ in H. lia.
Qed.


(** ** The indirect blocks *)

(** The block [b] names the reserved blocks of the first group, and each of
    those names the reserved blocks of the other groups at its place. *)
Record resize_listed (s : fs) (b dind data : Z) (db buf : list Z) : Prop := {
  rl_top : holds s b (from_memory dind);
  rl_db : mem s !! dind = Some db;
  rl_first : forall r, 0 <= r < bg_desc_reserve_blocks (info s) ->
    holds s (reserve_start (info s) (aux_info s) 0 + r) (from_memory (data + r * block_size (info s)));
  rl_buf : mem s !! data = Some buf;
  rl_dind : forall i, 0 <= i < bg_desc_reserve_blocks (info s) ->
    let r := resize_index (bg_desc_blocks (aux_info s)) (bg_desc_reserve_blocks (info s)) i in
    word db i = reserve_start (info s) (aux_info s) 0 + r;
  rl_data : forall i (j : nat) g, 0 <= i < bg_desc_reserve_blocks (info s) -> (1 <= j)%nat ->
    super_groups (info s) (seqZ 0 (groups (aux_info s))) !! j = Some g ->
    let r := resize_index (bg_desc_blocks (aux_info s)) (bg_desc_reserve_blocks (info s)) i in
    word buf (r * (block_size (info s) / 4) + Z.of_nat j - 1) = reserve_start (info s) (aux_info s) g + r
}.

(** The blocks the second buffer is queued for. *)
Definition first_reserved (s : fs) (x : Z) : Prop :=
  reserve_start (info s) (aux_info s) 0 <= x
    < reserve_start (info s) (aux_info s) 0 + bg_desc_reserve_blocks (info s).

Lemma taken_queueable s s' b : fs_ready s -> block_taken s s' b -> queueable s' b.
Proof.
  intros Hrd Hb. pose proof (bt_was_free _ _ _ Hb) as Hf. pose proof (gr_ready _ _ _ (bt_grown _ _ _ Hb [])) as Hrd'.
  destruct (gr_globals _ _ _ (bt_grown _ _ _ Hb [])) as (_ & Ei & Ea & _).
  pose proof Hf as (j & c & Hj & Hc & Hr). pose proof (run_start_bound s j c (rd_ok _ Hrd) Hj Hc) as Hrs.
  split; [|split; [lia|split]].
  - assert (unqueued s b 1) as Hu by (apply (queue_inv_unqueued s); [exact (rd_queue _ Hrd)|lia|]; intros x Hx; assert (x = b) as -> by lia; exact Hf).
    intros bb Hbb. rewrite Ei. apply Hu. unfold queued in *. rewrite (proj2 (proj2 (bt_images _ _ _ Hb))) in Hbb. exact Hbb.
  - split; [rewrite Ea; exact (proj2 (free_bound s b (rd_ok _ Hrd) Hf))|].
    intros H. apply (bt_free _ _ _ Hb) in H. destruct H as (_ & H). exact (H eq_refl).
  - intros k d Hd. destruct (bt_places _ _ _ Hb k d Hd) as (c' & Hc' & Es & _).
    destruct (Z.lt_ge_cases b (table_end s' k d - inode_table_blocks (aux_info s'))) as [|H1]; [auto|].
    destruct (Z.le_gt_cases (table_end s' k d) b) as [|H2]; [auto|]. exfalso.
    destruct (inode_table_start s k c' Hrd Hc') as (_ & H3 & _). unfold table_end in *. rewrite Ei, Ea, Es in *.
    apply (rd_header _ Hrd k c' b Hc'); [unfold table_end; lia|exact Hf].
Qed.

Lemma with_mem_same s : with_mem s (mem s) = s.
Proof. destruct s. reflexivity. Qed.

Lemma set_dind_spec s i b : zlen (i_block i) = 60 -> 0 <= b < 2 ^ 32 ->
  exists i', set_block i EXT4_DIND_BLOCK b s = Ok (Some i', s) /\ word (i_block i') 13 = b.
Proof.
  intros Hi Hb. destruct (put_field_spec (mk_field 52 4) b (i_block i)) as (w & E & _ & G & _).
  { unfold fits. rewrite Hi. reflexivity. }
  exists (set_iblock i w). split; [|change (word w 13 = b); unfold word; change (mk_field (4 * 13) 4) with (mk_field 52 4); rewrite G; apply Z.mod_small; exact Hb].
  unfold put_field, put_bytes in E. cbn [f_off f_size] in E. change (Z.to_nat 4) with 4%nat in E.
  unfold set_block, bind, lift. change (4 * EXT4_DIND_BLOCK) with 52. rewrite E. reflexivity.
Qed.

(** The numbers involved. *)
Lemma resize_numbers i a : makeable i a -> let n := zlen (super_groups i (seqZ 0 (groups a))) in
  let R := bg_desc_reserve_blocks i in let per := block_size i / 4 in
  block_size i = 4 * per /\ 1024 < block_size i < 2 ^ 16 /\ 0 < R <= per /\ R * per < 2 ^ 28 /\ 1 <= n <= per /\
  n * R < 2 ^ 28 /\ blocks_per_ind a = per /\ block_size i * R < 2 ^ 30.
Proof.
  intros Hmk n R per. destruct (params_block_size i (mk_params _ _ Hmk)) as (k & Hk & Ek & Hbs & _).
  pose proof (mk_leaf _ _ Hmk) as Hl. pose proof (mk_resize _ _ Hmk) as HR. fold R in HR. fold per in HR.
  assert (block_size i = 4 * per) as E4.
  { unfold per. rewrite Ek. replace (1024 * 2 ^ k) with ((256 * 2 ^ k) * 4) by lia. rewrite Z.div_mul by lia. lia. }
  pose proof (geo_groups _ _ (mk_geometry _ _ Hmk)) as Hg.
  destruct (super_groups_head i (groups a) ltac:(lia)) as (gs & Egs).
  pose proof (super_groups_len i (groups a) ltac:(lia)) as Hn. fold n in Hn.
  assert (1 <= n) as Hn1 by (unfold n; rewrite Egs, zlen_cons; pose proof (zlen_nonneg gs); lia).
  assert (per < 2 ^ 14 /\ n <= per) as (Hper & Hnp) by lia.
  rewrite (mk_per_ind _ _ Hmk). fold per. repeat split; try lia; nia.
Qed.

Lemma queue_one s p b : fs_ready s -> queueable s b ->
  exists s', sparse_add_data p (block_size (info s)) b s = Ok (Some tt, s') /\ queued_more s s' /\
    holds s' b (from_memory p) /\ forall ws, plain ws (fun x => x = b) s s'.
Proof.
  intros Hrd Hb. pose proof (rd_leaf _ Hrd). pose proof (geo_groups _ _ (fs_geometry _ (rd_ok _ Hrd))).
  assert (DIV_ROUND_UP (block_size (info s)) (block_size (info s)) = 1) as Ed by (apply div_round_up_self; lia).
  destruct (queue_blocks s p (block_size (info s)) b Hrd ltac:(lia)) as (s' & E & M & H1 & P); rewrite ?Ed in *.
  - intros x Hx. assert (x = b) as -> by lia. exact Hb.
  - exists s'. split; [exact E|]. split; [exact M|]. split.
    + specialize (H1 b ltac:(lia)). rewrite Z.sub_diag, Z.mul_0_l, Z.add_0_r in H1. exact H1.
    + intros ws. eapply plain_weaken; [|exact (P ws)]. cbv beta. intros x Hx. lia.
Qed.


(** The block of the resize inode, with a buffer queued for it. *)
Lemma take_indirect s alloc : fs_ready s -> can_hold s 1 = true -> oob_list alloc = empty_list ->
  exists a b g s1 s2, let bs := block_size (info s) in
    let alloc' := mk_alloc (list_ alloc) (mk_list (Some a) (Some a) (Some a) 0) in
    append_oob_allocation alloc 1 s = Ok (Some (0, alloc'), s1) /\ get_oob_block alloc' 0 s1 = Ok (Some b, s1) /\
    calloc bs s1 = Ok (Some (Some (fresh s1)), with_buffer s1 bs (zeros bs)) /\
    sparse_add_data (fresh s1) bs b (with_buffer s1 bs (zeros bs)) = Ok (Some tt, s2) /\
    block_taken s s1 b /\ 0 <= b < 2 ^ 32 - 1 /\ fseg (heap s2) (Some a) [(a, (b, 1, g))] None /\ fresh s <= a /\
    (forall c, c < fresh s -> heap s2 !! c = heap s !! c) /\
    holds s2 b (from_memory (fresh s1)) /\ mem s2 !! fresh s1 = Some (zeros bs) /\ fresh s1 < fresh s2 /\
    forall ws, plain ws (fun x => x = b) s1 s2.
Proof.
  intros Hrd Hcan Ho. destruct (append_oob_spec s alloc Hrd Hcan Ho) as (a & b & g & s1 & E1 & Hb & Hseg & Ha).
  pose proof (bt_grown _ _ _ Hb []) as Gr. pose proof (gr_ready _ _ _ Gr) as Hrd1. pose proof (gr_globals _ _ _ Gr) as (_ & Ei & _).
  set (bs := block_size (info s)). pose proof (buffer_plain [] s1 bs (zeros bs) Hrd1) as P1.
  pose proof (taken_queueable s s1 b Hrd Hb) as Hq. pose proof Hq as (_ & Hb0 & _).
  destruct (queue_one (with_buffer s1 bs (zeros bs)) (fresh s1) b (pl_ready _ _ _ _ P1) Hq) as (s2 & E2 & M2 & H2 & P2).
  change (block_size (info (with_buffer s1 bs (zeros bs)))) with (block_size (info s1)) in E2. rewrite Ei in E2. fold bs in E2.
  exists a, b, g, s1, s2. cbv zeta. fold bs. pose proof (qm_fresh _ _ M2) as Hf2. cbn in Hf2.
  split; [exact E1|]. split; [|split; [exact (calloc_buffer s1 bs (rd_memory _ Hrd1))|]].
  - unfold get_oob_block. cbn [oob_list].
    rewrite (get_list_block_spec s1 (mk_list (Some a) (Some a) (Some a) 0) [(a, (b, 1, g))] 0 Hseg); [reflexivity| |lia|cbn; lia|cbn; lia].
    intros a' b' n' g' Hin. apply list_elem_of_singleton in Hin as [= -> -> -> ->]. lia.
  - split; [exact E2|]. split; [exact Hb|]. split; [exact Hb0|]. split; [rewrite (qm_heap _ _ M2); exact Hseg|]. split; [exact Ha|].
    split; [intros c Hc; rewrite (qm_heap _ _ M2); exact (bt_heap _ _ _ Hb c Hc)|]. split; [exact H2|].
    split; [rewrite (proj1 (qm_mem _ _ M2)); apply lookup_insert_eq|]. split; [lia|].
    intros ws. apply (plain_trans ws _ s1 (with_buffer s1 bs (zeros bs))); [|exact (P2 ws)].
    apply plain_none, buffer_plain, Hrd1.
Qed.

(** The buffer of the reserved blocks of the first group. *)
Lemma queue_reserved s : fs_ready s -> makeable (info s) (aux_info s) ->
  (forall x, first_reserved s x -> header_area s x /\ unqueued s x 1) ->
  exists s', let n := block_size (info s) * bg_desc_reserve_blocks (info s) in
    sparse_add_data (fresh s) n (reserve_start (info s) (aux_info s) 0) (with_buffer s n (zeros n)) = Ok (Some tt, s') /\
    (forall r, 0 <= r < bg_desc_reserve_blocks (info s) ->
       holds s' (reserve_start (info s) (aux_info s) 0 + r) (from_memory (fresh s + r * block_size (info s)))) /\
    heap s' = heap s /\ mem s' !! fresh s = Some (zeros n) /\ fresh s < fresh s' /\
    forall ws, plain ws (first_reserved s) s s'.
Proof.
  intros Hrd Hmk Hx. destruct (resize_numbers _ _ Hmk) as (E4 & Hbs & HR & _ & _ & _ & _ & HbR).
  set (bs := block_size (info s)) in *. set (R := bg_desc_reserve_blocks (info s)) in *.
  assert (DIV_ROUND_UP (bs * R) bs = R) as Ed by (rewrite Z.mul_comm; apply DIV_ROUND_UP_mul; lia).
  pose proof (buffer_plain [] s (bs * R) (zeros (bs * R)) Hrd) as P1.
  destruct (queue_header (with_buffer s (bs * R) (zeros (bs * R))) (fresh s) (bs * R) (reserve_start (info s) (aux_info s) 0)
    (pl_ready _ _ _ _ P1)) as (s' & E & M & H1 & P2); [nia| |].
  - change (block_size (info (with_buffer s (bs * R) (zeros (bs * R))))) with bs. rewrite Ed. exact Hx.
  - change (block_size (info (with_buffer s (bs * R) (zeros (bs * R))))) with bs in *. rewrite Ed in *.
    exists s'. cbv zeta. fold bs R. pose proof (qm_fresh _ _ M) as Hf. cbn in Hf. split; [exact E|]. split; [|split; [exact (qm_heap _ _ M)|]].
    + intros r Hr. specialize (H1 (reserve_start (info s) (aux_info s) 0 + r) ltac:(lia)).
      replace (reserve_start (info s) (aux_info s) 0 + r - reserve_start (info s) (aux_info s) 0) with r in H1 by lia. exact H1.
    + split; [rewrite (proj1 (qm_mem _ _ M)); apply lookup_insert_eq|]. split; [lia|].
      intros ws. apply (plain_trans ws _ s (with_buffer s (bs * R) (zeros (bs * R)))); [|exact (P2 ws)].
      apply plain_none, buffer_plain, Hrd.
Qed.


Lemma plain_free ws P s s' x : plain ws P s s' -> (free_block s' x <-> free_block s x).
Proof. intros Hp. unfold free_block. rewrite (pl_bgs _ _ _ _ Hp). reflexivity. Qed.

Lemma plain_free_inode ws P s s' x : plain ws P s s' -> (free_inode s' x <-> free_inode s x).
Proof.
  intros Hp. destruct (pl_globals _ _ _ _ Hp) as (_ & Ei & _). unfold free_inode, inode_start.
  rewrite (pl_bgs _ _ _ _ Hp), Ei. reflexivity.
Qed.

(** What taking the one block does to the rest. *)
Record resize_step (s s' : fs) (b : Z) : Prop := {
  rs_spread : spread [] (first_reserved s) s s';
  rs_itab : itab s' = itab s;
  rs_was_free : free_block s b;
  rs_free : forall x, free_block s' x <-> free_block s x /\ x <> b;
  rs_inodes : forall y, free_inode s' y <-> free_inode s y
}.

Lemma resize_step_plain ws s s1 s2 s3 b : fs_ready s -> block_taken s s1 b -> plain [] (fun x => x = b) s1 s2 ->
  plain ws (first_reserved s) s2 s3 -> (forall a, a ∈ ws -> mem s !! a = None) -> resize_step s s3 b.
Proof.
  intros Hrd Hb P2 P3 Hws. pose proof (bt_grown _ _ _ Hb []) as Gr.
  assert (spread [] (first_reserved s) s1 s2) as S2.
  { pose proof (plain_spread _ _ _ _ P2) as [A B C D E F S G]. split; auto. intros x Hx Hu.
    destruct (F x Hx Hu) as [->|H]; [|auto]. exfalso.
    destruct Hx as (i & c & Hc & Hr). destruct (bt_places _ _ _ Hb i c Hc) as (d & Hd & Es & _).
    destruct (gr_globals _ _ _ Gr) as (_ & Ei & Ea & _). apply (rd_header _ Hrd i d b Hd); [|exact (bt_was_free _ _ _ Hb)].
    unfold table_end in *. rewrite Ei, Ea, Es in Hr. pose proof (rd_itab _ Hrd). lia. }
  pose proof (spread_trans _ _ _ _ _ (grown_spread _ (first_reserved s) _ _ Gr) S2) as S12.
  split.
  - pose proof (plain_spread _ _ _ _ P3) as [A B C D E F S G]. destruct S12 as [A' B' C' D' E' F' S' G']. split; auto.
    + exact (same_globals_trans _ _ _ B' B).
    + destruct C as [C1 C2 C3], C' as [C1' C2' C3']. split; [congruence|auto|]. intros a x Ha Hm. apply C3; [|auto].
      intros Hin. rewrite (Hws a Hin) in Hm. discriminate.
    + lia.
    + intros x Hx Hu. destruct (F' x Hx Hu); auto.
    + exact (same_supers_trans _ _ _ S' S).
  - rewrite (pl_itab _ _ _ _ P3), (pl_itab _ _ _ _ P2). apply (bt_images _ _ _ Hb).
  - exact (bt_was_free _ _ _ Hb).
  - intros x. rewrite (plain_free _ _ _ _ x P3), (plain_free _ _ _ _ x P2). apply (bt_free _ _ _ Hb).
  - intros x. rewrite (plain_free_inode _ _ _ _ x P3), (plain_free_inode _ _ _ _ x P2). apply (bt_inodes _ _ _ Hb).
Qed.

Lemma listed_region s l r (j : nat) g gs : regions_at (reserve_start (info s) (aux_info s)) (bg_desc_reserve_blocks (info s)) l gs ->
  gs !! j = Some g -> 0 <= r < bg_desc_reserve_blocks (info s) ->
  0 <= reserve_start (info s) (aux_info s) g + r < 2 ^ 32 ->
  listed l (bg_desc_reserve_blocks (info s)) (Z.of_nat j) r = reserve_start (info s) (aux_info s) g + r.
Proof.
  intros Hl Hj Hr Hb. unfold listed. rewrite (regions_lookup _ (bg_desc_reserve_blocks (info s)) ltac:(lia) l gs j g r Hl Hj Hr). cbn [default]. apply Z.mod_small. exact Hb.
Qed.


(** What the list of the regions gives. *)
Definition super_regions (i : fs_info) (a : fs_aux_info) (l : list node) : Prop :=
  regions_at (reserve_start i a) (bg_desc_reserve_blocks i) l (super_groups i (seqZ 0 (groups a))).

Lemma super_regions_ok s l : makeable (info s) (aux_info s) -> super_regions (info s) (aux_info s) l ->
  nodes_ok l /\
  total_len l = bg_desc_reserve_blocks (info s) * zlen (super_groups (info s) (seqZ 0 (groups (aux_info s)))) /\
  forall g, g ∈ super_groups (info s) (seqZ 0 (groups (aux_info s))) ->
    0 <= reserve_start (info s) (aux_info s) g /\
    reserve_start (info s) (aux_info s) g + bg_desc_reserve_blocks (info s) < 2 ^ 32.
Proof.
  intros Hmk Hl. assert (forall g, g ∈ super_groups (info s) (seqZ 0 (groups (aux_info s))) ->
    0 <= reserve_start (info s) (aux_info s) g /\
    reserve_start (info s) (aux_info s) g + bg_desc_reserve_blocks (info s) < 2 ^ 32) as Hrange.
  { intros g Hg. apply super_groups_in in Hg as (Hg & Hs). apply elem_of_seqZ in Hg.
    destruct (reserve_bounds s g Hmk ltac:(lia) Hs) as (B1 & B2 & B3). lia. }
  split; [|split; [exact (regions_total _ _ l _ Hl)|exact Hrange]].
  intros c b k g Hin. destruct (regions_in _ _ l _ c b k g Hl Hin) as (-> & -> & Hg). pose proof (Hrange g Hg).
  pose proof (mk_resize _ _ Hmk). lia.
Qed.

(** The words of the two buffers. *)
Lemma resize_words_spec s l al dind data : makeable (info s) (aux_info s) -> super_regions (info s) (aux_info s) l ->
  fseg (heap s) (iter (list_ al)) l None -> partial_iter (list_ al) = 0 -> dind <> data ->
  mem s !! dind = Some (zeros (block_size (info s))) ->
  mem s !! data = Some (zeros (block_size (info s) * bg_desc_reserve_blocks (info s))) ->
  exists db buf, let R := bg_desc_reserve_blocks (info s) in let bgd := bg_desc_blocks (aux_info s) in
    resize_outer (seqZ 0 R) al (zlen (super_groups (info s) (seqZ 0 (groups (aux_info s))))) bgd R
      (block_size (info s) / 4) dind data s = Ok (Some tt, set_mem (set_mem s dind db) data buf) /\
    (forall i, 0 <= i < R -> word db i = reserve_start (info s) (aux_info s) 0 + resize_index bgd R i) /\
    forall i (j : nat) g, 0 <= i < R -> (1 <= j)%nat -> super_groups (info s) (seqZ 0 (groups (aux_info s))) !! j = Some g ->
      word buf (resize_index bgd R i * (block_size (info s) / 4) + Z.of_nat j - 1) =
        reserve_start (info s) (aux_info s) g + resize_index bgd R i.
Proof.
  intros Hmk Hreg Hl Hpi Hne Hd Hdd. destruct (super_regions_ok s l Hmk Hreg) as (Hok & _ & Hrange).
  destruct (resize_numbers _ _ Hmk) as (E4 & Hbs & HR & HRp & Hn & HnR & _ & HbR).
  destruct (super_groups_head (info s) (groups (aux_info s))) as (gs' & Egs);
    [pose proof (geo_groups _ _ (mk_geometry _ _ Hmk)); lia|].
  set (gs := super_groups (info s) (seqZ 0 (groups (aux_info s)))) in *. unfold super_regions in Hreg. fold gs in Hreg.
  set (R := bg_desc_reserve_blocks (info s)) in *. set (bs := block_size (info s)) in *. set (per := bs / 4) in *.
  assert (0 < R < 2 ^ 16 /\ R * per < 2 ^ 31) as (N1 & N2) by lia.
  assert (zlen (zeros bs) = 4 * per /\ zlen (zeros (bs * R)) = 4 * (R * per)) as (L1 & L2) by (rewrite !zlen_zeros by nia; nia).
  destruct (resize_outer_spec s al l R per (zlen gs) dind data Hl Hpi Hok N1 Hn N2 Hne (bg_desc_blocks (aux_info s)) ltac:(lia)
    (seqZ 0 R) (mem s) _ _ Hd Hdd L1 L2) as (db & buf & E & _ & _ & _ & _ & W).
  { intros i Hi. apply elem_of_seqZ in Hi. lia. }
  assert (forall (j : nat) g r, gs !! j = Some g -> 0 <= r < R -> listed l R (Z.of_nat j) r = reserve_start (info s) (aux_info s) g + r) as HL.
  { intros j g r Hj Hr. apply (listed_region s l r j g gs Hreg Hj Hr).
    pose proof (Hrange g (list_elem_of_lookup_2 _ _ _ Hj)). lia. }
  exists db, buf. cbv zeta. split; [rewrite with_mem_same in E; exact E|]. split.
  - intros i Hi. destruct (W i ltac:(apply elem_of_seqZ; lia)) as (W1 & _). rewrite W1. apply (HL 0%nat); [rewrite Egs; reflexivity|].
    apply (resize_index_range R N1).
  - intros i j g Hi Hj Hg. destruct (W i ltac:(apply elem_of_seqZ; lia)) as (_ & W2).
    pose proof (lookup_lt_Some _ _ _ Hg) as Hlt. rewrite W2 by (unfold zlen; lia). apply HL; [exact Hg|].
    apply (resize_index_range R N1).
Qed.

Lemma attach_resize_spec s alloc l i : fs_ready s -> makeable (info s) (aux_info s) -> region_alloc (heap s) alloc l ->
  (forall c, c ∈ addrs l -> c < fresh s) -> zlen (i_block i) = 60 -> can_hold s 1 = true ->
  super_regions (info s) (aux_info s) l -> (forall x, first_reserved s x -> header_area s x /\ unqueued s x 1) ->
  exists i' alloc' a g b dind data db buf s', inode_attach_resize i alloc s = Ok (Some (i', alloc'), s') /\
    word (i_block i') 13 = b /\ resize_step s s' b /\ resize_listed s' b dind data db buf /\
    fseg (heap s') (first (list_ alloc')) l None /\ fseg (heap s') (first (oob_list alloc')) [(a, (b, 1, g))] None /\ fresh s <= a /\
    fresh s <= dind /\ fresh s <= data.
Proof.
  intros Hrd Hmk (f & -> & Hl) Hlt Hi Hcan Hreg Hx. apply lseg_fseg in Hl.
  destruct (super_regions_ok s l Hmk Hreg) as (Hok & Htot & Hrange).
  destruct (resize_numbers _ _ Hmk) as (E4 & Hbs & HR & HRp & Hn & HnR & Eper & HbR).
  destruct (super_groups_head (info s) (groups (aux_info s))) as (gs' & Egs);
    [pose proof (geo_groups _ _ (mk_geometry _ _ Hmk)); lia|].
  set (al := mk_alloc (mk_list f (last_addr None l) f 0) empty_list) in *.
  assert (block_allocation_len al s = Ok (Some (total_len l), s)) as E0.
  { apply (allocation_len_spec s al l Hl); [|lia]. intros c b k g Hin. apply (Hok c b k g Hin). }
  destruct (take_indirect s al Hrd Hcan eq_refl) as (a & b & g & s1 & s2 & E1 & E2 & E3 & E5 & Hb & Hb0 & Hoob & Ha & Hheap & Hhold & Hdm & Hfr & P2).
  cbn [list_ al] in E1, E2. set (al' := mk_alloc (mk_list f (last_addr None l) f 0) (mk_list (Some a) (Some a) (Some a) 0)) in *.
  pose proof (bt_grown _ _ _ Hb []) as Gr. pose proof (gr_globals _ _ _ Gr) as G1. pose proof (pl_globals _ _ _ _ (P2 [])) as G2.
  pose proof (same_globals_trans _ _ _ G1 G2) as (_ & Ei2 & Ea2 & _).
  pose proof (pl_ready _ _ _ _ (P2 [])) as Hrd2. pose proof (gr_fresh _ _ _ Gr) as Hf1.
  assert (fseg (heap s2) f l None) as Hl2 by (apply (fseg_frame (heap s)); [intros c Hc; apply Hheap, Hlt, Hc|exact Hl]).
  destruct (queue_reserved s2 Hrd2) as (s3 & E6 & Hres & Hh3 & Hdat & Hfr3 & P3);
    [rewrite Ei2, Ea2; exact Hmk| |].
  { intros x Hr. unfold first_reserved in Hr. rewrite Ei2, Ea2 in Hr. destruct (Hx x Hr) as (Hha & Hu).
    destruct (gr_header _ _ _ Gr) as [HA HU _]. split; [apply (sp_area _ _ _ _ (plain_spread _ _ _ _ (P2 []))), HA, Hha|].
    destruct (pl_others _ _ _ _ (P2 []) x (HU x Hha Hu)) as [->|H]; [|exact H]. exfalso.
    destruct (header_bounds s b Hrd Hha) as (_ & _ & Hnf). exact (Hnf (bt_was_free _ _ _ Hb)). }
  pose proof (same_globals_trans _ _ _ (same_globals_trans _ _ _ G1 G2) (pl_globals _ _ _ _ (P3 []))) as (_ & Ei3 & Ea3 & _).
  rewrite Ei2, Ea2 in *.
  assert (mem s3 !! fresh s1 = Some (zeros (block_size (info s)))) as Hdm3
    by (apply (im_mem _ _ _ (pl_moves _ _ _ _ (P3 []))); [apply not_elem_of_nil|exact Hdm]).
  destruct (resize_words_spec s3 l al' (fresh s1) (fresh s2)) as (db & buf & E7 & W1 & W2); rewrite ?Ei3, ?Ea3; auto;
    [rewrite Hh3; exact Hl2|lia|]. cbv zeta in E7. rewrite Ei3, Ea3 in *.
  set (s4 := set_mem (set_mem s3 (fresh s1) db) (fresh s2) buf) in *.
  assert (plain [fresh s1; fresh s2] no_block s3 s4) as P4.
  { assert (plain [fresh s1; fresh s2] no_block s3 (set_mem s3 (fresh s1) db)) as P4
      by (apply write_plain; [exact (pl_ready _ _ _ _ (P3 []))|lia|left]).
    apply (plain_trans _ _ _ _ _ P4), write_plain; [exact (pl_ready _ _ _ _ P4)|cbn; lia|right; left]. }
  assert (forall ws, plain ws (first_reserved s) s2 s3) as P3'.
  { intros ws. eapply plain_weaken; [|exact (P3 ws)]. unfold first_reserved. rewrite Ei2, Ea2. auto. }
  destruct (set_dind_spec s4 i b Hi ltac:(lia)) as (i1 & E8 & Hw).
  eexists _, al', a, g, b, (fresh s1), (fresh s2), db, buf, s4. split.
  { unfold inode_attach_resize, bind at 1, get_state. rewrite (bind_eq _ _ _ _ _ E0), Htot.
    rewrite u32_id by lia. rewrite (proj2 (Z.eqb_neq _ 0)) by lia.
    rewrite (Z.mul_comm (bg_desc_reserve_blocks (info s))), Z.mod_mul, Z.div_mul by lia. cbn [Z.eqb negb].
    rewrite (bind_eq _ _ _ _ _ E1), (bind_eq _ _ _ _ _ E2), (bind_eq _ _ _ _ _ E3), (bind_eq _ _ _ _ _ E5), (bind_eq _ _ _ _ _ (calloc_buffer s2 _ (rd_memory _ Hrd2))).
    assert (forall s', fseg (heap s') f l None -> get_block al' 0 s' = Ok (Some (reserve_start (info s) (aux_info s) 0), s')) as Eg.
    { intros s' Hs'. unfold get_block. rewrite (get_list_block_spec s' (list_ al') l 0 Hs' Hok) by (cbn; lia).
      assert (blocks_of l !! Z.to_nat 0 = Some (reserve_start (info s) (aux_info s) 0 + 0)) as H0
        by exact (regions_lookup _ (bg_desc_reserve_blocks (info s)) ltac:(lia) l _ 0 0 0 Hreg ltac:(rewrite Egs; reflexivity) ltac:(lia)).
      change (0 + partial_iter (list_ al')) with 0. rewrite H0. cbn [default]. rewrite Z.add_0_r. reflexivity. }
    rewrite (bind_eq _ _ _ _ _ (Eg (with_buffer s2 _ _) Hl2)), u32_id by lia. rewrite (bind_eq _ _ _ _ _ E6), Eper, (bind_eq _ _ _ _ _ E7), (bind_eq _ _ _ _ _ E8).
    reflexivity. }
  split; [exact Hw|split; [|split]].
  - apply (resize_step_plain [fresh s1; fresh s2] s s1 s2 s4 b Hrd Hb (P2 [])).
    + exact (plain_trans _ _ _ _ _ (P3' _) (plain_none _ _ _ _ P4)).
    + intros c Hc. destruct (mem s !! c) as [x|] eqn:Ex; [|reflexivity]. pose proof (rd_mem _ Hrd c x Ex).
      apply elem_of_cons in Hc as [->|Hc]; [lia|]. apply list_elem_of_singleton in Hc. lia.
  - change (resize_listed s4 b (fresh s1) (fresh s2) db buf). split; change (info s4) with (info s3); change (aux_info s4) with (aux_info s3); rewrite ?Ei3, ?Ea3.
    + exact (holds_moves _ s3 s4 _ _ (pl_moves _ _ _ _ P4) (holds_moves _ s2 s3 _ _ (pl_moves _ _ _ _ (P3 [])) Hhold)).
    + cbn. rewrite lookup_insert_ne by lia. apply lookup_insert_eq.
    + intros r Hr. exact (holds_moves _ s3 s4 _ _ (pl_moves _ _ _ _ P4) (Hres r Hr)).
    + apply lookup_insert_eq.
    + exact W1.
    + exact W2.
  - change (heap s4) with (heap s3). rewrite Hh3. split; [exact Hl2|]. split; [exact Hoob|]. lia.
Qed.

(** ** The resize inode *)

Lemma heap_grown ws s h : fs_ready s -> (forall c r, h !! c = Some r -> heap s !! c = Some r) -> grown ws s (set_heap s h).
Proof.
  intros Hrd Hh. split; auto; [|repeat split|split; auto|cbn; lia|split; auto; exact (same_supers_refl s)].
  apply ready_heap; [exact Hrd|]. intros c Hc. destruct (h !! c) as [r|] eqn:E; [|reflexivity].
  apply Hh in E. rewrite (rd_fresh _ Hrd c Hc) in E. discriminate.
Qed.

Definition resize_made (s : fs) (inode : ext4_inode) (b dind data : Z) (db buf : list Z) : Prop :=
  itab s !! inode_key s EXT4_RESIZE_INO = Some inode /\ i_mode inode = Z.lor S_IFREG 0x180 /\
  word (i_block inode) 13 = b /\ resize_listed s b dind data db buf.

Lemma resize_listed_moves s s' b dind data db buf : image_moves [] s s' -> aux_info s' = aux_info s ->
  resize_listed s b dind data db buf -> resize_listed s' b dind data db buf.
Proof.
  intros Hm Ea [A B C D E F]. pose proof Hm as [Ei _ Hmem]. split; rewrite ?Ei, ?Ea; auto.
  - exact (holds_moves _ _ _ _ _ Hm A).
  - apply Hmem; [apply not_elem_of_nil|exact B].
  - intros r Hr. exact (holds_moves _ _ _ _ _ Hm (C r Hr)).
  - apply Hmem; [apply not_elem_of_nil|exact D].
Qed.

Lemma spread_weaken ws (P Q : Z -> Prop) s s' : (forall x, P x -> Q x) -> spread ws P s s' -> spread ws Q s s'.
Proof. intros H [A B C D E F G I]. split; auto. intros x Hx Hu. destruct (F x Hx Hu); auto. Qed.

(** What follows the allocation of the structure. *)
Definition resize_inode_of (alloc : block_allocation) : M unit :=
  let* p := get_inode EXT4_RESIZE_INO in
  let* s := get_state in
  let* alloc := reserve_regions (seqZ 0 (groups (aux_info s))) alloc in
  let* inode := read_inode p in
  let* (inode, alloc) := inode_attach_resize inode alloc in
  let* _ := write_inode p (set_reserved inode) in
  free_alloc alloc.

Lemma resize_inode_of_spec s : fs_ready s -> makeable (info s) (aux_info s) ->
  itab s !! inode_key s EXT4_RESIZE_INO = None -> can_hold s 1 = true ->
  (forall x, first_reserved s x -> header_area s x /\ unqueued s x 1) ->
  exists s' inode b dind data db buf, resize_inode_of no_regions s = Ok (Some tt, s') /\
    spread [] (first_reserved s) s s' /\ inode_step s s' EXT4_RESIZE_INO [b] /\ resize_made s' inode b dind data db buf /\
    fresh s <= dind /\ fresh s <= data.
Proof.
  intros Hrd Hmk Hnew Hcan Hx. pose proof (mk_total _ _ Hmk) as Htot. pose proof (mk_inodes _ _ Hmk) as Hipg.
  pose proof (geo_groups _ _ (mk_geometry _ _ Hmk)) as Hgr.
  assert (inode_in_range s EXT4_RESIZE_INO) as Hin by (unfold inode_in_range, EXT4_RESIZE_INO; nia).
  destruct (get_inode_spec s EXT4_RESIZE_INO Hrd Hin ltac:(lia)) as (s1 & E1 & K1 & SC1 & _). set (key := inode_key s EXT4_RESIZE_INO) in *.
  pose proof (kp_globals _ _ K1) as G1. pose proof G1 as (_ & Ei1 & Ea1 & _). pose proof (kp_ready _ _ K1) as Hrd1.
  destruct (reserve_regions_spec (seqZ 0 (groups (aux_info s1))) s1 no_regions [] Hrd1) as (al & l & s2 & E2 & P2 & Hal & Hlt & Hmap);
    [rewrite Ei1, Ea1; exact Hmk|intros g Hg; apply elem_of_seqZ in Hg; lia|exists None; split; reflexivity|intros c Hc; inversion Hc|].
  pose proof (pl_globals _ _ _ _ P2) as G2. pose proof (same_globals_trans _ _ _ G1 G2) as (_ & Ei2 & Ea2 & _).
  rewrite Ei1, Ea1 in Hmap. cbn [app] in Hal, Hlt.
  assert (can_hold s2 1 = true) as Hcan2.
  { rewrite <- Hcan, <- (can_hold_kept _ _ 1 K1). unfold can_hold, capacity. rewrite (pl_bgs _ _ _ _ P2). reflexivity. }
  pose proof (spread_trans _ _ _ _ _ (grown_spread [] (first_reserved s) _ _ (kept_grown [] _ _ K1))
    (grown_spread [] (first_reserved s) _ _ (plain_grown _ _ _ P2))) as S2.
  destruct (attach_resize_spec s2 al l zero_inode (pl_ready _ _ _ _ P2)) as (i' & al' & a & g & b & dind & data & db & buf & s3 & E3 & Hw & Hrs & Hli & Hl & Ho & Ha & Hdi & Hda);
    rewrite ?Ei2, ?Ea2; auto.
  { unfold first_reserved. rewrite Ei2, Ea2. intros x Hr. destruct (Hx x Hr) as (Hha & Hu).
    split; [apply (sp_area _ _ _ _ S2), Hha|]. destruct (kp_header _ _ K1) as [HA HU _].
    destruct (pl_others _ _ _ _ P2 x (HU x Hha Hu)) as [[]|H]; exact H. }
  set (s4 := set_itab s3 key (set_reserved i')). pose proof Hrs as [Sp3 Et3 Wf3 Fr3 In3].
  destruct (free_alloc_spec s4 al' l [(a, (b, 1, g))] Hl Ho) as (h & E5 & Hh).
  { intros c Hc Hc'. apply list_elem_of_singleton in Hc. subst c. specialize (Hlt a Hc'). lia. }
  pose proof (itab_grown [] s3 key (set_reserved i') (sp_ready _ _ _ _ Sp3)) as Gr4.
  pose proof (grown_trans _ _ _ _ Gr4 (heap_grown [] s4 h (gr_ready _ _ _ Gr4) Hh)) as Gr5. set (s5 := set_heap s4 h) in *.
  pose proof (sp_globals _ _ _ _ Sp3) as (_ & Ei3 & Ea3 & _).
  pose proof (kp_fresh _ _ K1) as Hf1. pose proof (pl_fresh _ _ _ _ P2) as Hf2.
  exists s5, (set_reserved i'), b, dind, data, db, buf. split; [|split; [|split; [|split; [|lia]]]].
  - unfold resize_inode_of. rewrite (bind_eq _ _ _ _ _ E1). unfold bind at 1, get_state. rewrite (bind_eq _ _ _ _ _ E2).
    assert (read_inode key s2 = Ok (Some zero_inode, s2)) as Er.
    { unfold read_inode. rewrite (pl_itab _ _ _ _ P2), (kp_itab _ _ K1), Hnew. reflexivity. }
    rewrite (bind_eq _ _ _ _ _ Er), (bind_eq _ _ _ _ _ E3).
    rewrite (bind_eq (write_inode key (set_reserved i')) _ s3 tt s4 eq_refl). exact E5.
  - apply (spread_trans _ _ _ _ _ S2). apply (spread_trans _ _ s2 s3 s5); [|exact (grown_spread _ _ _ _ Gr5)].
    eapply spread_weaken; [|exact Sp3]. unfold first_reserved. rewrite Ei2, Ea2. auto.
  - split.
    + intros k Hk. fold key in Hk. cbn. rewrite lookup_insert_ne by congruence. rewrite Et3, (pl_itab _ _ _ _ P2). f_equal. exact (kp_itab _ _ K1).
    + intros x Hx'. apply list_elem_of_singleton in Hx'. subst x. apply (kp_free _ _ K1). rewrite <- (plain_free _ _ _ _ b P2). exact Wf3.
    + intros x. change (free_block s5 x) with (free_block s3 x). rewrite Fr3, (plain_free _ _ _ _ x P2), (kp_free _ _ K1), list_elem_of_singleton. tauto.
    + intros y. change (free_inode s5 y) with (free_inode s3 y). rewrite In3, (plain_free_inode _ _ _ _ y P2).
      exact (same_counts_free_inode s s1 y (rd_ok _ Hrd) G1 SC1).
  - assert (inode_key s5 EXT4_RESIZE_INO = key) as Ek by (unfold key, inode_key; change (info s5) with (info s3); rewrite Ei3, Ei2; reflexivity).
    split; [rewrite Ek; apply lookup_insert_eq|]. split; [reflexivity|]. split; [exact Hw|].
    apply (resize_listed_moves s3); [exact (gr_moves _ _ _ Gr5)|reflexivity|exact Hli].
Qed.

Lemma bump_plain s : fs_ready s -> plain [] no_block s (bump s).
Proof.
  intros Hrd. split; auto; [|repeat split|split; auto|cbn; lia].
  apply (ready_fresh s); [exact Hrd|lia].
Qed.

Lemma create_resize_spec s : fs_ready s -> makeable (info s) (aux_info s) ->
  itab s !! inode_key s EXT4_RESIZE_INO = None -> can_hold s 1 = true ->
  (forall x, first_reserved s x -> header_area s x /\ unqueued s x 1) ->
  exists s' inode b dind data db buf, ext4_create_resize_inode s = Ok (Some tt, s') /\
    spread [] (first_reserved s) s s' /\ inode_step s s' EXT4_RESIZE_INO [b] /\ resize_made s' inode b dind data db buf /\
    fresh s <= dind /\ fresh s <= data.
Proof.
  intros Hrd Hmk Hnew Hcan Hx. pose proof (bump_plain s Hrd) as P.
  destruct (resize_inode_of_spec (bump s) (pl_ready _ _ _ _ P) Hmk Hnew Hcan Hx)
    as (s' & inode & b & dind & data & db & buf & E & Sp & St & Hm & Hd1 & Hd2).
  exists s', inode, b, dind, data, db, buf. split; [|split; [|split; [|split; [exact Hm|cbn in Hd1, Hd2; lia]]]].
  - unfold ext4_create_resize_inode. rewrite (bind_eq _ _ _ _ _ (create_allocation_eq s (rd_memory _ Hrd))). exact E.
  - exact (spread_trans _ _ _ _ _ (grown_spread _ _ _ _ (plain_grown _ _ _ P)) Sp).
  - destruct St as [A B C D]. split; [exact A|exact B|exact C|exact D].
Qed.

End MakeExt4Resize.
