(* ===== verification/MakeExt4Room.v ===== *)
(** * Making an image: the room for the files

    How many blocks are left: in the groups of a new image all of them, and
    after blocks were taken enough of them in one group. *)

From S2P Require Import Prelude Ext4Utils Ext4Alloc Ext4AllocBits Ext4AllocProps Ext4Extent Ext4ExtentProps Ext4Super Ext4SuperProps MakeExt4Init.

Module MakeExt4Room.
Import Ext4Utils Ext4Alloc Ext4AllocBits Ext4AllocProps Ext4Extent Ext4ExtentProps Ext4Super Ext4SuperProps MakeExt4Init.

(** ** The free blocks as a list *)

Definition runs (l : list block_group_info) : list Z :=
  concat (map (fun b => seqZ (run_start b) (free_blocks b)) l).

Lemma runs_in l x : x ∈ runs l <-> exists b, b ∈ l /\ run_start b <= x < run_start b + free_blocks b.
Proof.
  unfold runs. rewrite list_elem_of_In, in_concat. split.
  - intros (k & Hk & Hx). apply in_map_iff in Hk as (b & <- & Hb). exists b. rewrite list_elem_of_In.
    apply list_elem_of_In, elem_of_seqZ in Hx. split; [exact Hb|lia].
  - intros (b & Hb & Hx). exists (seqZ (run_start b) (free_blocks b)). rewrite in_map_iff. split.
    + exists b. rewrite <- list_elem_of_In. auto.
    + apply list_elem_of_In, elem_of_seqZ. lia.
Qed.

Lemma runs_free s x : x ∈ runs (bgs s) <-> free_block s x.
Proof.
  rewrite runs_in. split.
  - intros (b & Hb & Hx). apply list_elem_of_lookup in Hb as (i & Hi). exists (Z.of_nat i), b. rewrite Nat2Z.id. auto with lia.
  - intros (i & b & _ & Hb & Hx). exists b. split; [eapply list_elem_of_lookup_2; exact Hb|exact Hx].
Qed.

Lemma runs_len l : (forall i b, l !! i = Some b -> 0 <= free_blocks b) -> zlen (runs l) = sum_of free_blocks l.
Proof.
  induction l as [|b l IH]; intros H; [reflexivity|]. unfold runs. cbn [map concat]. fold (runs l).
  change (sum_of free_blocks (b :: l)) with (free_blocks b + sum_of free_blocks l).
  rewrite zlen_app, (IH (fun i c Hc => H (S i) c Hc)). pose proof (H 0%nat b eq_refl). unfold zlen. rewrite length_seqZ. lia.
Qed.

Lemma runs_nodup s : fs_ok s -> NoDup (runs (bgs s)).
Proof.
  intros Hfs. assert (forall l k, (forall i b, l !! i = Some b -> bgs s !! (k + i)%nat = Some b) -> NoDup (runs l)) as H.
  { induction l as [|b l IH]; intros k Hl; [constructor|]. unfold runs. cbn [map concat]. fold (runs l).
    apply NoDup_app. split; [apply NoDup_seqZ|]. split.
    - intros x Hx Hin. apply elem_of_seqZ in Hx. apply runs_in in Hin as (c & Hc & Hxc).
      apply list_elem_of_lookup in Hc as (i & Hi). pose proof (Hl 0%nat b eq_refl) as H0. pose proof (Hl (S i) c Hi) as H1.
      assert (Z.of_nat (k + 0) = Z.of_nat (k + S i)) as E; [|lia].
      apply (free_block_group s _ _ b c x Hfs); rewrite ?Nat2Z.id; auto; lia.
    - apply (IH (S k)). intros i c Hc. replace (S k + i)%nat with (k + S i)%nat by lia. exact (Hl (S i) c Hc). }
  apply (H (bgs s) 0%nat). auto.
Qed.

Lemma free_nonneg s i b : fs_ok s -> bgs s !! i = Some b -> 0 <= free_blocks b.
Proof.
  intros Hfs Hb. rewrite <- (Nat2Z.id i) in Hb. destruct (fs_bgs _ Hfs (Z.of_nat i) b ltac:(lia) Hb) as [_ _ _ Fr _ _ _]. lia.
Qed.

(** What is left when the blocks [taken] are gone. *)
Lemma blocks_left s s' taken : fs_ok s -> fs_ok s' -> (forall x, free_block s x -> free_block s' x \/ x ∈ taken) ->
  sum_of free_blocks (bgs s) <= zlen taken + sum_of free_blocks (bgs s').
Proof.
  intros Hfs Hfs' H.
  rewrite <- (runs_len (bgs s)) by (intros i b; apply (free_nonneg s i b Hfs)).
  rewrite <- (runs_len (bgs s')) by (intros i b; apply (free_nonneg s' i b Hfs')).
  rewrite <- zlen_app. unfold zlen. apply inj_le, NoDup_incl_length; [apply NoDup_ListNoDup, runs_nodup, Hfs|].
  intros x Hx. apply list_elem_of_In, runs_free in Hx. apply list_elem_of_In, elem_of_app. rewrite runs_free. destruct (H x Hx); auto.
Qed.

(** One of the groups has more than its share. *)
Lemma group_with l m : m * zlen l < sum_of free_blocks l -> exists i b, l !! i = Some b /\ m < free_blocks b.
Proof.
  induction l as [|b l IH]; intros H; [unfold zlen in H; cbn in H; lia|].
  change (sum_of free_blocks (b :: l)) with (free_blocks b + sum_of free_blocks l) in H. rewrite zlen_cons in H.
  destruct (Z.lt_ge_cases m (free_blocks b)) as [Hb|Hb]; [exists 0%nat, b; auto|].
  destruct IH as (i & c & Hi & Hc); [lia|]. exists (S i), c. auto.
Qed.

Lemma room_left s s' taken m : fs_ok s -> fs_ok s' -> aux_info s' = aux_info s ->
  (forall x, free_block s x -> free_block s' x \/ x ∈ taken) ->
  zlen taken + m * groups (aux_info s) < sum_of free_blocks (bgs s) ->
  exists i b, bgs s' !! i = Some b /\ m < free_blocks b.
Proof.
  intros Hfs Hfs' Ea H Hm. apply group_with. pose proof (blocks_left s s' taken Hfs Hfs' H).
  rewrite (fs_groups _ Hfs'), Ea. lia.
Qed.

(** ** A new image *)

(** All groups of a new image are unused, and their room is that of the image. *)
Lemma new_room s0 s : makeable (info s0) (aux_info s0) -> groups_made s0 s ->
  sum_of free_blocks (bgs s) = total_room (info s0) (aux_info s0) /\ capacity s = total_room (info s0) (aux_info s0).
Proof.
  intros Hmk [Hrd Gl _ _ _ _ _ Hgr]. pose proof Gl as (_ & Ei & Ea & _).
  pose proof (fs_groups _ (rd_ok _ Hrd)) as Hn. rewrite Ea in Hn.
  assert (forall l k, (forall (g : nat) b, l !! g = Some b -> bgs s !! (k + g)%nat = Some b) ->
    sum_of free_blocks l = sum_of (group_room (info s0) (aux_info s0)) (seqZ (Z.of_nat k) (zlen l)) /\
    sum_of room l = sum_of free_blocks l) as H.
  { induction l as [|b l IH]; intros k Hl; [split; reflexivity|].
    pose proof (Hl 0%nat b eq_refl) as Hb. rewrite Nat.add_0_r in Hb.
    destruct (Hgr k b Hb) as (_ & Hu & _ & _ & _ & _ & Hf & _).
    destruct (IH (S k)) as (H1 & H2); [intros g c Hc; replace (S k + g)%nat with (k + S g)%nat by lia; exact (Hl (S g) c Hc)|].
    rewrite zlen_cons, seqZ_cons by (pose proof (zlen_nonneg l); lia).
    replace (Z.pred (1 + zlen l)) with (zlen l) by lia. replace (Z.succ (Z.of_nat k)) with (Z.of_nat (S k)) by lia.
    change (sum_of free_blocks (b :: l)) with (free_blocks b + sum_of free_blocks l).
    change (sum_of room (b :: l)) with (room b + sum_of room l).
    change (sum_of (group_room (info s0) (aux_info s0)) (Z.of_nat k :: ?r)) with
      (group_room (info s0) (aux_info s0) (Z.of_nat k) + sum_of (group_room (info s0) (aux_info s0)) r).
    assert (room b = free_blocks b) as -> by (unfold room, unused; rewrite Hu; reflexivity).
    split; [|lia]. rewrite H1, Hf. reflexivity. }
  destruct (H (bgs s) 0%nat ltac:(auto)) as (H1 & H2). unfold capacity. rewrite H2, H1, Hn. split; reflexivity.
Qed.

End MakeExt4Room.
