(* ===== verification/MakeExt4Image.v ===== *)
(** * Making an image: the whole computation

    [make_image] from the parameters to the queue with everything in it, for
    the tree of an empty file system: what each step adds, what the later ones
    leave alone, and the image that comes out. *)

From S2P Require Import Prelude BackedBlock SparseFile Sha1 Ext4Utils Ext4Alloc Ext4AllocBits Ext4AllocProps Ext4AllocLists Ext4Extent Ext4ExtentProps Ext4ExtentFiles Ext4Indirect Ext4Contents Ext4ContentsProps Ext4Dirs Ext4Tree Ext4Super Ext4SuperProps MakeExt4fs MakeExt4Init MakeExt4Fill MakeExt4Inodes MakeExt4Resize MakeExt4Room.

Module MakeExt4Image.
Import Ext4Utils Ext4Alloc Ext4AllocBits Ext4AllocProps Ext4AllocLists Ext4Extent Ext4ExtentProps
  Ext4ExtentFiles Ext4Indirect Ext4Contents Ext4ContentsProps Ext4Dirs Ext4Tree Ext4Super Ext4SuperProps
  MakeExt4fs MakeExt4Init MakeExt4Fill MakeExt4Inodes MakeExt4Resize MakeExt4Room.

(** ** The super block and the groups *)

(** The state an image is made in. *)
Record blank (s : fs) : Prop := {
  bl_memory : memory s;
  bl_heap : heap_fresh s;
  bl_mem : mem_fresh s;
  bl_itab : itab s = ∅
}.

Lemma image_prepared stack s a lab : makeable (info s) a -> blank s -> label (info s) = Some lab ->
  zlen (chars lab) < 2 ^ 29 -> zlen stack = 64 ->
  exists p s1 s2 s3 s4 q b k, create_fs_aux_info s = Ok (Some p, s1) /\ new_sparse_file s1 = Ok (Some tt, s2) /\
    block_allocator_init s2 = Ok (Some tt, s3) /\ ext4_fill_in_sb stack p s3 = Ok (Some q, s4) /\
    info s2 = info s /\ aux_info s2 = a /\ itab s4 = ∅ /\ groups_made s2 s3 /\ filled s3 s4 p q b (groups a) /\
    block_size (info s) = 1024 * 2 ^ k /\ sb_shows (info s) a k (chars lab) b /\ zlen b = block_size (info s) /\
    sb p < fresh s3 /\ bg_desc p < fresh s3 /\ sb p <> bg_desc p.
Proof.
  intros Hmk [Bm Bh Bf Bi] Hlab Hlen Hst.
  destruct (create_fs_aux_info_spec s a Bm (mk_aux_ok _ _ Hmk)) as (p & s1 & E1 & [(_ & Ei1 & Ea1 & Ev1) (_ & Eh1 & _ & Et1) Hsb Hds Hmem Hbk]).
  destruct (new_sparse_file_spec s1) as (s2 & E2 & Hnew & (Ef2 & Ei2 & Ea2 & Ev2) & _ & Eh2 & Em2 & Et2 & Fr2); [intros x; rewrite Ev1; apply Bm|].
  assert (makeable (info s2) (aux_info s2)) as Hmk2 by (rewrite Ei2, Ea2, Ei1, Ea1; exact Hmk).
  destruct (init_groups s2 Hmk2) as (s3 & E3 & Hgm); auto.
  { intros x. rewrite Ev2, Ev1. apply Bm. }
  { intros c Hc. rewrite Eh2, Eh1. apply Bh. lia. }
  { intros c x Hc. rewrite Em2, Hmem in Hc. apply lookup_insert_Some in Hc as [(<- & _)|(_ & Hc)]; [lia|].
    apply lookup_insert_Some in Hc as [(<- & _)|(_ & Hc)]; [lia|]. specialize (Bf c x Hc). lia. }
  pose proof Hgm as [Hrd3 (_ & Ei3 & Ea3 & _) _ Em3 Et3 Fr3 _ _].
  destruct (params_block_size _ (mk_params _ _ Hmk)) as (_ & _ & _ & Hbs & _). pose proof (mk_descs _ _ Hmk) as Hd.
  pose proof (geo_groups _ _ (mk_geometry _ _ Hmk)) as Hgr.
  assert (mem s3 !! sb p = Some (zeros (block_size (info s))) /\ mem s3 !! bg_desc p = Some (zeros (block_size (info s) * bg_desc_blocks a))) as (M1 & M2).
  { rewrite Em3, Em2, Hmem. split; [rewrite lookup_insert_ne by lia|]; apply lookup_insert_eq. }
  destruct (fill_in_sb_spec stack s2 s3 p lab Hmk2 Hgm) as (k & b & q & s4 & E4 & Hk & Hsh & Lb & Hf); rewrite ?Ei2, ?Ei1; auto.
  { split; [|rewrite ?Ei3, ?Ei2, ?Ei1, ?Ea3, ?Ea2, ?Ea1|lia|].
    - eexists. split; [exact M1|]. rewrite Ei3, Ei2, Ei1. apply zlen_zeros. lia.
    - eexists. split; [exact M2|]. apply zlen_zeros. lia.
    - eexists. split; [exact Hbk|]. unfold zlen. rewrite length_replicate, Ea3, Ea2, Ea1. lia. }
  assert (itab s4 = ∅) as Hit by (rewrite (fi_itab _ _ _ _ _ _ Hf), Et3, Et2, Et1; exact Bi).
  rewrite Ea3, Ea2, Ea1 in Hf. rewrite Ei2, Ei1 in Hk, Hsh. rewrite Ea2, Ea1 in Hsh.
  exists p, s1, s2, s3, s4, q, b, k. repeat (split; [first [assumption|congruence]|]).
  split; [lia|split; lia].
Qed.

(** The reserved inodes are set aside: what is free starts at 11. *)
Lemma inodes_set_aside s2 s3 s4 p q b n : makeable (info s2) (aux_info s2) -> groups_made s2 s3 -> filled s3 s4 p q b n ->
  exists s5, reserve_inodes 0 10 s4 = Ok (Some 1, s5) /\ kept s4 s5 /\
    (forall y, free_inode s5 y -> 11 <= y) /\ free_inode s5 11.
Proof.
  intros Hmk [Hrd3 Gl3 _ _ _ _ _ Hgr] Hf. pose proof (fi_ready _ _ _ _ _ _ Hf) as Hrd. pose proof (fi_globals _ _ _ _ _ _ Hf) as Gl.
  pose proof (same_globals_trans _ _ _ Gl3 Gl) as (_ & Ei & Ea & _).
  pose proof (geo_groups _ _ (mk_geometry _ _ Hmk)) as Hg. pose proof (mk_inodes _ _ Hmk) as Hipg.
  destruct (lookup_lt_is_Some_2 (bgs s4) 0) as [c Hc].
  { pose proof (fs_groups _ (rd_ok _ Hrd)) as Hn. rewrite Ea in Hn. unfold zlen in Hn. lia. }
  pose proof Hc as Hc3. rewrite (fi_bgs _ _ _ _ _ _ Hf) in Hc3.
  destruct (Hgr 0%nat c Hc3) as (Hok & _ & _ & _ & _ & H1 & _). pose proof (bg_inodes _ _ _ _ Hok) as (I1 & I2 & I3).
  destruct (reserve_first_inodes s4 c 10 Hrd Hc ltac:(lia)) as (s5 & E & K & F). rewrite H1 in *.
  exists s5. split; [exact E|]. split; [exact K|]. split.
  - intros y Hy. apply F in Hy as ((i & d & Hi & Hd & Hy) & Hn). unfold inode_start in Hy. rewrite Ei in Hy.
    assert (Hd3 := Hd). rewrite (fi_bgs _ _ _ _ _ _ Hf) in Hd3.
    destruct (Hgr _ d Hd3) as (_ & _ & _ & _ & _ & H1' & _). rewrite H1' in Hy. nia.
  - apply F. split; [|lia]. exists 0, c. split; [lia|]. split; [exact Hc|]. unfold inode_start. rewrite H1. lia.
Qed.

(** ** The journal and the resize inode, where they are asked for *)

Definition has_resize (i : fs_info) : bool := negb (Z.land (feat_compat i) EXT4_FEATURE_COMPAT_RESIZE_INODE =? 0).

Lemma image_in_range s ino : makeable (info s) (aux_info s) -> 1 <= ino <= 11 -> inode_in_range s ino.
Proof.
  intros Hmk Hi. pose proof (mk_inodes _ _ Hmk). pose proof (geo_groups _ _ (mk_geometry _ _ Hmk)). unfold inode_in_range. nia.
Qed.

Lemma inode_step_refl s ino : inode_step s s ino [].
Proof. split; auto; [intros x Hx; inversion Hx|intros x; split; [intros H; split; [exact H|apply not_elem_of_nil]|tauto]]. Qed.

Lemma journal_made_step s p b : fs_ready s -> makeable (info s) (aux_info s) ->
  itab s !! inode_key s EXT4_JOURNAL_INO = None -> mem s !! sb p = Some b -> zlen b = block_size (info s) ->
  can_hold s (journal_blocks (info s) + 1) = true ->
  exists s' taken b', (if has_journal (info s) then ext4_create_journal_inode p else ret tt) s = Ok (Some tt, s') /\
    grown [sb p] s s' /\ inode_step s s' EXT4_JOURNAL_INO taken /\ zlen taken <= journal_blocks (info s) + 1 /\
    mem s' !! sb p = Some b' /\ zlen b' = zlen b /\
    (forall o n, 0 <= o -> 0 <= n -> o + n <= zlen b -> apart (mk_field 268 60) (mk_field o n) = true ->
       sub_bytes b' o n = sub_bytes b o n) /\
    (has_journal (info s) = true -> exists blocks buf inode, journal_made (fresh s) s' blocks buf inode /\
       sub_bytes b' 268 60 = i_block inode).
Proof.
  intros Hrd Hmk Hnew Hb Lb Hcan. pose proof (mk_total _ _ Hmk) as Htot. destruct (mk_journal _ _ Hmk) as (HJ & HJb & HJp).
  destruct (params_block_size _ (mk_params _ _ Hmk)) as (_ & _ & _ & Hbs & _).
  destruct (has_journal (info s)) eqn:Hj.
  - specialize (HJp eq_refl). destruct (create_journal_spec s p b Hrd) as (s' & inode & blocks & T & buf & b' & E & Gr & Jm & St & HT & Hb' & Lb' & Sb' & Ob');
      try assumption; try lia; [apply image_in_range; [exact Hmk|vm_compute; split; discriminate]|].
    exists s', (T ++ blocks), b'. repeat (split; [assumption|]). split.
    + rewrite zlen_app. destruct Jm as (data & _ & _ & HL & _). pose proof (gr_globals _ _ _ Gr) as (_ & Ei & _). rewrite Ei in HL. lia.
    + repeat (split; [assumption|]). intros _. exists blocks, buf, inode. auto.
  - exists s, [], b. split; [reflexivity|]. split; [exact (grown_refl _ s Hrd)|]. split; [exact (inode_step_refl s _)|].
    split; [unfold zlen; cbn; lia|]. repeat (split; [auto|]). discriminate.
Qed.

Lemma resize_made_step s : fs_ready s -> makeable (info s) (aux_info s) ->
  itab s !! inode_key s EXT4_RESIZE_INO = None -> can_hold s 1 = true ->
  (forall x, first_reserved s x -> header_area s x /\ unqueued s x 1) ->
  exists s' taken, (if has_resize (info s) then ext4_create_resize_inode else ret tt) s = Ok (Some tt, s') /\
    spread [] (first_reserved s) s s' /\ inode_step s s' EXT4_RESIZE_INO taken /\ zlen taken <= 1 /\
    (has_resize (info s) = true -> exists inode b dind data db buf, resize_made s' inode b dind data db buf /\
       fresh s <= dind /\ fresh s <= data).
Proof.
  intros Hrd Hmk Hnew Hcan Hx. destruct (has_resize (info s)) eqn:Hr.
  - destruct (create_resize_spec s Hrd Hmk Hnew Hcan Hx) as (s' & inode & b & dind & data & db & buf & E & Sp & St & Hm & Hl).
    exists s', [b]. split; [exact E|]. split; [exact Sp|]. split; [exact St|]. split; [vm_compute; discriminate|].
    intros _. exists inode, b, dind, data, db, buf. auto.
  - exists s, []. split; [reflexivity|]. split; [exact (grown_spread _ _ _ _ (grown_refl _ s Hrd))|].
    split; [exact (inode_step_refl s _)|]. split; [vm_compute; discriminate|discriminate].
Qed.

(** ** The tree *)

Lemma image_tree_ready s0 s taken : fs_ready s0 -> fs_ready s -> same_globals s0 s -> makeable (info s0) (aux_info s0) ->
  (forall y, free_inode s0 y -> 11 <= y) -> free_inode s0 11 -> (forall y, free_inode s y <-> free_inode s0 y) ->
  (forall k, k <> inode_key s0 EXT4_JOURNAL_INO -> k <> inode_key s0 EXT4_RESIZE_INO -> itab s !! k = None) ->
  (forall x, free_block s0 x -> free_block s x \/ x ∈ taken) -> zlen taken <= journal_blocks (info s0) + 2 ->
  sum_of free_blocks (bgs s0) = total_room (info s0) (aux_info s0) -> default_ready s.
Proof.
  intros Hrd0 Hrd (_ & Ei & Ea & _) Hmk Hge H11 Hfi Hit Hfb Htk Hsum.
  destruct (params_block_size _ (mk_params _ _ Hmk)) as (_ & _ & _ & Hbs & _). pose proof (mk_total _ _ Hmk) as Htot.
  pose proof (geo_inodes _ _ (mk_geometry _ _ Hmk)) as Hipg.
  assert (forall n, inode_key s n = inode_key s0 n) as Ek by (intros n; unfold inode_key; rewrite Ei; reflexivity).
  assert (forall y, y <> EXT4_JOURNAL_INO -> y <> EXT4_RESIZE_INO -> itab s !! inode_key s y = None) as Hno.
  { intros y H8 H7. rewrite Ek. apply Hit; intros E; apply (inode_key_inj s0) in E; auto; lia. }
  split; [split| | | | | |]; rewrite ?Ei, ?Ea; auto; try lia.
  - intros y Hy. apply Hfi, Hge in Hy. apply Hno; unfold EXT4_JOURNAL_INO, EXT4_RESIZE_INO; lia.
  - apply image_in_range; [rewrite Ei, Ea; exact Hmk|vm_compute; split; discriminate].
  - intros H. apply Hfi, Hge in H. unfold EXT4_ROOT_INO in H. lia.
  - exists 11. apply Hfi. exact H11.
  - destruct (room_left s0 s taken 3 (rd_ok _ Hrd0) (rd_ok _ Hrd) Ea Hfb) as (j & c & Hc & Hm).
    { rewrite Hsum. pose proof (mk_blocks _ _ Hmk). lia. }
    exists j, c. split; [exact Hc|lia].
Qed.

(** ** The super block at last *)

Lemma queue_sb_spec s p b : fs_ready s -> mem s !! sb p = Some b -> zlen b = block_size (info s) ->
  2048 <= block_size (info s) -> header_area s 0 -> unqueued s 0 1 ->
  exists c buf s', ext4_queue_sb p s = Ok (Some tt, s') /\ holds s' 0 (from_memory c) /\ mem s' !! c = Some buf /\
    zlen buf = block_size (info s) /\ fresh s <= c /\
    (forall o n, 0 <= o -> 0 <= n -> o + n <= 1024 -> sub_bytes buf (1024 + o) n = sub_bytes b o n) /\
    forall ws, plain ws (fun x => x = 0) s s'.
Proof.
  intros Hrd Hb Lb Hbs Hha Hun. set (bs := block_size (info s)) in *.
  assert (zlen (take 1024 b) = 1024) as Lt by (unfold zlen in *; rewrite length_take; lia).
  assert (zlen (zeros bs) = bs) as Lz by (apply zlen_zeros; lia).
  destruct (put_bytes_spec (mk_field 1024 1024) (take 1024 b) (zeros bs)) as (buf & E & L & Sb & _);
    [cbn; lia|cbn [f_off]; lia|]. unfold put_bytes in E. cbn [f_off] in E, Sb. rewrite Lt in Sb.
  pose proof (buffer_plain [] s bs buf Hrd) as P1.
  destruct (queue_one (with_buffer s bs buf) (fresh s) 0 (pl_ready _ _ _ _ P1)) as (s' & E2 & M2 & H2 & P2).
  { apply (header_queueable s 0 Hrd Hha Hun). }
  change (block_size (info (with_buffer s bs buf))) with bs in E2.
  exists (fresh s), buf, s'. split; [|split; [exact H2|split; [|split; [lia|split; [lia|split]]]]].
  - unfold ext4_queue_sb, bind at 1, get_state. fold bs. rewrite (proj2 (Z.ltb_lt 1024 bs)) by lia.
    rewrite (bind_eq _ _ _ _ _ (calloc_buffer s bs (rd_memory _ Hrd))).
    rewrite (bind_eq (lift (oof (Some (fresh s)))) _ _ (fresh s) _ eq_refl).
    rewrite Hb.
    rewrite (bind_eq (lift (oof (Some b))) _ _ b _ eq_refl).
    rewrite (bind_eq _ _ _ _ _ (update_buffer s bs (zeros bs) (fun x => splice x 1024 (take 1024 b)) buf E)). exact E2.
  - rewrite (proj1 (qm_mem _ _ M2)). apply lookup_insert_eq.
  - intros o n Ho Hn Hz.
    replace (sub_bytes buf (1024 + o) n) with (sub_bytes (sub_bytes buf 1024 1024) o n).
    + rewrite Sb. unfold sub_bytes. rewrite skipn_firstn_comm, take_take. f_equal. lia.
    + unfold sub_bytes. rewrite skipn_firstn_comm, take_take, drop_drop. f_equal; [lia|]. f_equal. lia.
  - intros ws. exact (plain_trans _ _ _ _ _ (plain_none ws _ _ _ (buffer_plain ws s bs buf Hrd)) (P2 ws)).
Qed.


(** ** What the image holds besides *)

(** The journal, if there is one; [jb] is what the super block says about it. *)
Definition journal_part (lo : Z) (s : fs) (jb : list Z) : Prop :=
  has_journal (info s) = true -> exists blocks buf inode, journal_made lo s blocks buf inode /\ jb = i_block inode.

(** The resize inode, if there is one. *)
Definition resize_part (lo : Z) (s : fs) : Prop :=
  has_resize (info s) = true -> exists inode b dind data db buf, resize_made s inode b dind data db buf /\
    lo <= dind /\ lo <= data.

(** The inode of a directory of the superuser with the permissions [mode]. *)
Definition owned (s : fs) (ino mode : Z) : Prop :=
  exists i, itab s !! inode_key s ino = Some i /\ Z.land (i_mode i) mode = mode /\ i_uid i = 0 /\ i_gid i = 0.

(** The tree of an empty file system. *)
Definition tree_part (lo : Z) (s : fs) : Prop :=
  exists ino data l data2 l2, dir_from lo s EXT4_ROOT_INO data l /\ dir_from lo s ino data2 l2 /\ 11 <= ino /\
    map snd l = dot_entries EXT4_ROOT_INO EXT4_ROOT_INO ++ [found_entry ino] /\ map snd l2 = dot_entries ino EXT4_ROOT_INO /\
    owned s EXT4_ROOT_INO root_mode /\ owned s ino 0x1c0 /\ has_table s EXT4_ROOT_INO /\ has_table s ino /\
    ino <= groups (aux_info s) * inodes_per_group (info s).

Lemma key_same s s' n : info s' = info s -> inode_key s' n = inode_key s n.
Proof. intros Ei. unfold inode_key. rewrite Ei. reflexivity. Qed.

Lemma journal_part_stable lo s s' jb : journal_part lo s jb -> queue_inv s -> queue_inv s' -> image_grows s s' ->
  itab s' !! inode_key s EXT4_JOURNAL_INO = itab s !! inode_key s EXT4_JOURNAL_INO -> journal_part lo s' jb.
Proof.
  intros H Hq Hq' Hg Hi Hj. pose proof Hg as [Ei _ _]. rewrite Ei in Hj.
  destruct (H Hj) as (blocks & buf & inode & (data & Hm & Hmd & HL & Hb) & ->). exists blocks, buf, inode.
  split; [|reflexivity]. exists data. rewrite Ei. split; [|auto]. exact (memory_file_grows lo s s' _ _ _ _ _ Hm Hq Hq' Hg Hi).
Qed.

Lemma journal_part_put lo s jb a buf : journal_part lo s jb -> a < lo -> journal_part lo (set_mem s a buf) jb.
Proof.
  intros H Ha Hj. destruct (H Hj) as (blocks & jbuf & inode & (data & Hm & Hr) & E). exists blocks, jbuf, inode.
  split; [|exact E]. exists data. split; [exact (memory_file_put _ _ _ _ _ _ _ _ _ Hm Ha)|exact Hr].
Qed.

Lemma resize_part_stable lo s s' : resize_part lo s -> image_grows s s' -> aux_info s' = aux_info s ->
  itab s' !! inode_key s EXT4_RESIZE_INO = itab s !! inode_key s EXT4_RESIZE_INO -> resize_part lo s'.
Proof.
  intros H Hg Ea Hi Hj. pose proof Hg as [Ei _ _]. rewrite Ei in Hj.
  destruct (H Hj) as (inode & b & dind & data & db & buf & (H1 & H2 & H3 & H4) & Hl). exists inode, b, dind, data, db, buf.
  split; [|exact Hl]. split; [rewrite (key_same _ _ _ Ei), Hi; exact H1|]. split; [exact H2|]. split; [exact H3|].
  exact (resize_listed_moves s s' b dind data db buf (grows_moves [] _ _ Hg) Ea H4).
Qed.

Lemma resize_part_put lo s a buf : resize_part lo s -> a < lo -> resize_part lo (set_mem s a buf).
Proof.
  intros H Ha Hj. destruct (H Hj) as (inode & b & dind & data & db & rbuf & (H1 & H2 & H3 & H4) & Hl & Hl').
  exists inode, b, dind, data, db, rbuf. split; [|auto]. split; [exact H1|]. split; [exact H2|]. split; [exact H3|].
  destruct H4 as [A B C D E F]. split; auto; cbn; rewrite lookup_insert_ne by lia; assumption.
Qed.

Lemma owned_stable s s' ino mode : owned s ino mode -> info s' = info s ->
  itab s' !! inode_key s ino = itab s !! inode_key s ino -> owned s' ino mode.
Proof. intros (i & Hi & H) Ei E. exists i. rewrite (key_same _ _ _ Ei), E. auto. Qed.

Lemma tree_part_stable lo s s' : tree_part lo s -> queue_inv s -> queue_inv s' -> image_grows s s' -> itab s' = itab s ->
  bgs s' = bgs s -> aux_info s' = aux_info s -> tree_part lo s'.
Proof.
  intros (ino & data & l & data2 & l2 & Hr & Hl & Hi & M1 & M2 & O1 & O2 & T1 & T2 & Hmax) Hq Hq' Hg Et Eb Ea. pose proof Hg as [Ei _ _].
  exists ino, data, l, data2, l2. split; [apply (dir_from_stable lo s); auto; rewrite Et; reflexivity|].
  split; [apply (dir_from_stable lo s); auto; rewrite Et; reflexivity|]. repeat (split; [assumption|]).
  pose proof (same_supers_bgs s s' Eb). rewrite Ea, Ei.
  split; [|split; [|split; [|split; [|exact Hmax]]]]; [apply (owned_stable s)|apply (owned_stable s)|apply (has_table_stays s)|apply (has_table_stays s)];
    auto; rewrite Et; reflexivity.
Qed.

Lemma tree_part_put lo s a buf : tree_part lo s -> a < lo -> tree_part lo (set_mem s a buf).
Proof.
  intros (ino & data & l & data2 & l2 & Hr & Hl & H) Ha. exists ino, data, l, data2, l2.
  split; [exact (dir_from_put _ _ _ _ _ _ _ Hr Ha)|]. split; [exact (dir_from_put _ _ _ _ _ _ _ Hl Ha)|exact H].
Qed.


Lemma moves_grows s s' : image_moves [] s s' -> image_grows s s'.
Proof. intros [A B C]. split; auto. intros a b. apply C, not_elem_of_nil. Qed.

Lemma tree_made_grown ws s s' ino taken : tree_made s s' ino taken -> grown ws s s'.
Proof. intros [A B _ D _ _ _ F G H]. split; auto. apply grows_moves. exact D. Qed.

Lemma tree_part_made s : default_ready s -> (forall y, free_inode s y -> 11 <= y) ->
  exists s1 s2, build_default_directory_structure s = Ok (Some EXT4_ROOT_INO, s1) /\
    inode_set_permissions EXT4_ROOT_INO root_mode 0 0 0 s1 = Ok (Some 0, s2) /\ tree_part (fresh s) s2 /\
    grown [] s s2 /\ forall n, 0 < n < 11 -> n <> EXT4_ROOT_INO -> itab s2 !! inode_key s n = itab s !! inode_key s n.
Proof.
  intros Hdr Hge. destruct (build_default_spec s Hdr) as (ino & s1 & i & data & l & data2 & l2 & taken & E1 & Hfi & Hne & Hin & T & Hr & Hl & M1 & M2 & Hi & Hm & Hu & Hg & HT1).
  specialize (Hge ino Hfi). pose proof (tm_globals _ _ _ _ T) as (_ & Ei & Ea & _). pose proof (tm_ready _ _ _ _ T) as Hrd1.
  pose proof (tf_total _ (dr_ready _ Hdr)) as Htot. pose proof (tf_ready _ (dr_ready _ Hdr)) as Hrd.
  pose proof (proj1 (geo_inodes _ _ (fs_geometry _ (rd_ok _ Hrd)))) as Hipg.
  destruct (dir_permissions (fresh s) s1 EXT4_ROOT_INO data l root_mode Hrd1) as (s1' & r & E2 & K & _ & _ & Hr' & Ho & Rm & Ru & Rg & HT2);
    [unfold inode_in_range; rewrite Ei, Ea; exact (dr_root _ Hdr)|rewrite Ei, Ea; lia|reflexivity|exact Hr|].
  set (s2 := set_itab s1' (inode_key s1 EXT4_ROOT_INO) r) in *. pose proof (kp_globals _ _ K) as (_ & Ei1 & _).
  assert (forall n, inode_key s2 n = inode_key s n) as Ek by (intros n; unfold inode_key; change (info s2) with (info s1'); rewrite Ei1, Ei; reflexivity).
  assert (forall n, inode_key s1 n = inode_key s n) as Ek1 by (intros n; exact (key_same _ _ n Ei)).
  assert (forall n, n <> EXT4_ROOT_INO -> itab s2 !! inode_key s n = itab s1 !! inode_key s n) as Hit.
  { intros n Hn. cbn. rewrite Ek1, lookup_insert_ne by (intros E; apply Hn; symmetry; exact (inode_key_inj s _ _ Hipg E)).
    rewrite (kp_itab _ _ K). reflexivity. }
  exists s1, s2. split; [exact E1|]. split; [exact E2|]. split; [|split].
  - exists ino, data, l, data2, l2. split; [exact Hr'|]. split; [exact (Ho ino _ _ Hne Hl)|]. repeat (split; [assumption|]). split.
    + exists r. split; [rewrite Ek; cbn; rewrite Ek1; apply lookup_insert_eq|auto].
    + split; [exists i; split; [rewrite Ek, Hit, <- Ek1 by congruence; exact Hi|auto]|].
      split; [exact HT2|]. change (aux_info s2) with (aux_info s1'). change (info s2) with (info s1').
      destruct (kp_globals _ _ K) as (_ & _ & Ea1 & _). rewrite Ea1, Ei1, Ea, Ei. split; [|exact (proj2 Hin)].
      apply (has_table_stays s1 s2 ino); [exact Ei1|exact (hk_supers _ _ (kp_header _ _ K))|exact HT1].
  - apply (grown_trans _ _ s1); [exact (tree_made_grown _ _ _ _ _ T)|]. apply (grown_trans _ _ s1'); [exact (kept_grown _ _ _ K)|].
    exact (itab_grown _ _ _ _ (kp_ready _ _ K)).
  - intros n Hn Hn2. rewrite Hit by exact Hn2. apply (tm_itab _ _ _ _ T); intros E; apply (inode_key_inj s _ _ Hipg) in E; lia || congruence.
Qed.


(** ** The files *)

(** The state behind the reserved inodes. *)
Record image_started (s : fs) (p : super) (b : list Z) : Prop := {
  ig_ready : fs_ready s;
  ig_make : makeable (info s) (aux_info s);
  ig_itab : itab s = ∅;
  ig_inodes : forall y, free_inode s y -> 11 <= y;
  ig_inode : free_inode s 11;
  ig_sb : mem s !! sb p = Some b;
  ig_len : zlen b = block_size (info s);
  ig_room : sum_of free_blocks (bgs s) = total_room (info s) (aux_info s);
  ig_capacity : capacity s = total_room (info s) (aux_info s);
  ig_reserved : forall x, first_reserved s x -> header_area s x /\ unqueued s x 1
}.

(** What the journal changes of the super block. *)
Definition jnl_area : field := mk_field 268 60.

Lemma grown_reserved ws s s' : grown ws s s' -> (forall x, first_reserved s x -> header_area s x /\ unqueued s x 1) ->
  forall x, first_reserved s' x -> header_area s' x /\ unqueued s' x 1.
Proof.
  intros Gr H x Hx. destruct (gr_globals _ _ _ Gr) as (_ & Ei & Ea & _). unfold first_reserved in Hx. rewrite Ei, Ea in Hx.
  destruct (H x Hx) as (H1 & H2). destruct (gr_header _ _ _ Gr) as [HA HU _]. auto.
Qed.

Lemma spread_more ws ws' P s s' : (forall a, a ∈ ws -> a ∈ ws') -> spread ws P s s' -> spread ws' P s s'.
Proof. intros H [A B [C1 C2 C3] D E F G I]. split; auto. split; auto. Qed.

Lemma tree_part_weaken lo lo' s : lo' <= lo -> tree_part lo s -> tree_part lo' s.
Proof.
  intros H (ino & data & l & data2 & l2 & Hr & Hl & Hx). exists ino, data, l, data2, l2.
  split; [exact (dir_from_weaken _ _ _ _ _ _ H Hr)|]. split; [exact (dir_from_weaken _ _ _ _ _ _ H Hl)|exact Hx].
Qed.

Lemma image_files s p b : image_started s p b ->
  exists s1 s2 s3 s4 b', (if has_journal (info s) then ext4_create_journal_inode p else ret tt) s = Ok (Some tt, s1) /\
    (if has_resize (info s) then ext4_create_resize_inode else ret tt) s1 = Ok (Some tt, s2) /\
    build_default_directory_structure s2 = Ok (Some EXT4_ROOT_INO, s3) /\
    inode_set_permissions EXT4_ROOT_INO root_mode 0 0 0 s3 = Ok (Some 0, s4) /\
    spread [sb p] (first_reserved s) s s4 /\ mem s4 !! sb p = Some b' /\ zlen b' = zlen b /\
    (forall o n, 0 <= o -> 0 <= n -> o + n <= zlen b -> apart jnl_area (mk_field o n) = true -> sub_bytes b' o n = sub_bytes b o n) /\
    journal_part (fresh s) s4 (sub_bytes b' 268 60) /\ resize_part (fresh s) s4 /\ tree_part (fresh s) s4.
Proof.
  intros [Hrd Hmk Hit Hge H11 Hb Lb Hsum Hcap Hres]. pose proof (mk_blocks _ _ Hmk) as Hroom.
  pose proof (geo_groups _ _ (mk_geometry _ _ Hmk)) as Hgr. pose proof (proj1 (geo_inodes _ _ (mk_geometry _ _ Hmk))) as Hipg.
  destruct (journal_made_step s p b Hrd Hmk) as (s1 & T1 & b' & E1 & Gr1 & [I1 W1 F1 N1] & L1 & Hb1 & Lb1 & Ob1 & J1); auto.
  { rewrite Hit. apply lookup_empty. }
  { unfold can_hold. rewrite Hcap. apply orb_true_iff. right. apply Z.leb_le. lia. }
  pose proof (gr_ready _ _ _ Gr1) as Hrd1. pose proof (gr_globals _ _ _ Gr1) as G1. pose proof G1 as (_ & Ei1 & Ea1 & _).
  assert (forall a c, a <> c -> inode_key s a <> inode_key s c) as Hk by (intros a c Hne E; exact (Hne (inode_key_inj s _ _ Hipg E))).
  destruct (resize_made_step s1 Hrd1) as (s2 & T2 & E2 & Sp2 & [I2 W2 F2 N2] & L2 & R2).
  { rewrite Ei1, Ea1. exact Hmk. }
  { rewrite (key_same _ _ _ Ei1), I1, Hit by (apply Hk; discriminate). apply lookup_empty. }
  { destruct (room_left s s1 T1 0 (rd_ok _ Hrd) (rd_ok _ Hrd1) Ea1) as (j & c & Hc & Hm);
      [intros x Hx; rewrite F1; destruct (decide (x ∈ T1)); auto|lia|]. apply (group_can_hold s1 j c); [exact Hc|lia]. }
  { exact (grown_reserved _ _ _ Gr1 Hres). }
  pose proof (sp_ready _ _ _ _ Sp2) as Hrd2. pose proof (same_globals_trans _ _ _ G1 (sp_globals _ _ _ _ Sp2)) as G2.
  pose proof G2 as (_ & Ei2 & Ea2 & _). rewrite (key_same _ _ _ Ei1) in I2. rewrite Ei1 in E2.
  assert (default_ready s2) as Hdr.
  { apply (image_tree_ready s s2 (T1 ++ T2)); auto.
    - intros y. rewrite N2, N1. reflexivity.
    - intros k H8 H7. rewrite I2, I1, Hit by assumption. apply lookup_empty.
    - intros x Hx. rewrite F2, F1, elem_of_app. destruct (decide (x ∈ T1)), (decide (x ∈ T2)); auto.
    - rewrite zlen_app. lia. }
  destruct (tree_part_made s2 Hdr) as (s3 & s4 & E3 & E4 & Ht & Gr4 & It4).
  { intros y Hy. apply Hge, N1, N2, Hy. }
  pose proof (moves_grows _ _ (gr_moves _ _ _ Gr4)) as Ig4. pose proof (moves_grows _ _ (sp_moves _ _ _ _ Sp2)) as Ig2.
  pose proof (gr_ready _ _ _ Gr4) as Hrd4. pose proof (gr_globals _ _ _ Gr4) as (_ & Ei4 & Ea4 & _).
  pose proof (gr_fresh _ _ _ Gr1) as Fr1. pose proof (sp_fresh _ _ _ _ Sp2) as Fr2.
  exists s1, s2, s3, s4, b'. repeat (split; [assumption|]). split; [|split; [|split; [exact Lb1|split; [exact Ob1|split; [|split]]]]].
  - assert (forall a, a ∈ [] -> a ∈ [sb p]) as Hws by (intros a Ha; inversion Ha).
    apply (spread_trans _ _ s s1); [exact (grown_spread _ _ _ _ Gr1)|]. apply (spread_trans _ _ s1 s2).
    + apply (spread_more [] _ _ _ _ Hws). eapply spread_weaken; [|exact Sp2]. unfold first_reserved. rewrite Ei1, Ea1. auto.
    + exact (spread_more [] _ _ _ _ Hws (grown_spread _ _ _ _ Gr4)).
  - apply (ig_mem _ _ Ig4), (ig_mem _ _ Ig2). exact Hb1.
  - apply (journal_part_stable _ s2); auto using rd_queue.
    + apply (journal_part_stable _ s1); auto using rd_queue.
      * intros Hj. rewrite Ei1 in Hj. destruct (J1 Hj) as (blocks & buf & inode & Hjm & E). exists blocks, buf, inode. auto.
      * rewrite (key_same _ _ _ Ei1). apply I2, Hk. discriminate.
    + apply It4; [vm_compute; split; reflexivity|discriminate].
  - apply (resize_part_stable _ s2); auto.
    + intros Hj. rewrite Ei2 in Hj. rewrite <- Ei1 in Hj. destruct (R2 Hj) as (inode & c & dind & data & db & buf & Hm & Hd1 & Hd2).
      exists inode, c, dind, data, db, buf. split; [exact Hm|lia].
    + apply It4; [vm_compute; split; reflexivity|discriminate].
  - apply (tree_part_weaken (fresh s2)); [lia|exact Ht].
Qed.

(** ** From the groups to the files *)

Lemma started_from s2 s3 s4 s5 p q b : makeable (info s2) (aux_info s2) -> groups_made s2 s3 ->
  filled s3 s4 p q b (groups (aux_info s3)) -> zlen b = block_size (info s2) -> itab s4 = ∅ -> kept s4 s5 ->
  (forall y, free_inode s5 y -> 11 <= y) -> free_inode s5 11 ->
  image_started s5 p b /\ header_area s5 0 /\ unqueued s5 0 1.
Proof.
  intros Hmk Hgm Hf Lb Hit K Hge H11. pose proof (gm_globals _ _ Hgm) as G3. pose proof (fi_globals _ _ _ _ _ _ Hf) as G4.
  pose proof (same_globals_trans _ _ _ G3 (same_globals_trans _ _ _ G4 (kp_globals _ _ K))) as (_ & Ei & Ea & _).
  pose proof G3 as (_ & Ei3 & Ea3 & _). destruct (new_room s2 s3 Hmk Hgm) as (R1 & R2). destruct (room_kept _ _ K) as (R3 & R4).
  assert (forall g, 0 <= g < groups (aux_info s3) -> exists c, bgs s3 !! Z.to_nat g = Some c /\ has_superblock c = super_in (info s3) g) as Hbgs.
  { intros g Hg. destruct (lookup_lt_is_Some_2 (bgs s3) (Z.to_nat g)) as [c Hc].
    { pose proof (fs_groups _ (rd_ok _ (gm_ready _ _ Hgm))) as Hn. unfold zlen in Hn. lia. }
    exists c. split; [exact Hc|]. destruct (gm_groups _ _ Hgm _ c Hc) as (_ & _ & H & _). rewrite H, Z2Nat.id, Ei3 by lia. reflexivity. }
  assert (makeable (info s3) (aux_info s3)) as Hmk3 by (rewrite Ei3, Ea3; exact Hmk).
  pose proof (geo_groups _ _ (mk_geometry _ _ Hmk3)) as Hgr. pose proof (mk_resize _ _ Hmk3) as HR.
  destruct (reserve_bounds s3 0 Hmk3 ltac:(lia) (super_in_first _)) as (B1 & B2 & B3).
  destruct (group_bounds s3 Hmk3 0 ltac:(lia)) as (B4 & _ & _ & _ & B5 & _ & B6).
  assert (forall x, x = 0 \/ group_start (info s3) (aux_info s3) 0 + 1 + bg_desc_blocks (aux_info s3) <= x < table_start (info s3) (aux_info s3) 0 - 2 ->
    header_area s5 x /\ unqueued s5 x 1) as Hx.
  { intros x Hx. unfold reserve_start in *.
    assert (header_area s4 x) as Hha by (apply (super_blocks_area s3 Hbgs 0 x); [lia|lia|exact G4|exact (fi_bgs _ _ _ _ _ _ Hf)]).
    split; [apply (hk_area _ _ (kp_header _ _ K)), Hha|]. apply (hk_free _ _ (kp_header _ _ K)); [exact Hha|].
    apply (fi_unqueued _ _ _ _ _ _ Hf 0%nat); change (Z.of_nat 0) with 0; lia. }
  split; [|apply Hx; auto]. split; rewrite ?Ei, ?Ea; auto.
  - exact (kp_ready _ _ K).
  - rewrite (kp_itab _ _ K). exact Hit.
  - rewrite (kp_mem _ _ K). exact (fi_sb _ _ _ _ _ _ Hf).
  - rewrite R4, (fi_bgs _ _ _ _ _ _ Hf). exact R1.
  - rewrite R3. unfold capacity. rewrite (fi_bgs _ _ _ _ _ _ Hf). exact R2.
  - intros x Hr. apply Hx. right. unfold first_reserved in Hr. rewrite Ei, Ea, <- Ei3, <- Ea3 in Hr. unfold reserve_start in *. lia.
Qed.


(** ** The image *)

(** The descriptor of group [g] in [d]: where its bitmaps and its inode table are
    queued, and what of it is free. *)
Definition group_shown (s : fs) (d : list Z) (g : Z) (b : block_group_info) : Prop :=
  let D f := get_field d (at_index 32 g f) in
  holds s (D bg_block_bitmap) (from_memory (bitmaps_ptr b)) /\
  holds s (D bg_inode_bitmap) (from_memory (bitmaps_ptr b + block_size (info s))) /\
  (forall t, inode_table b = Some t -> forall k, 0 <= k < inode_table_blocks (aux_info s) ->
     holds s (D bg_inode_table + k) (from_memory (t + k * block_size (info s)))) /\
  D bg_free_blocks_count = u16 (clear_bits (bitmaps b) 0 (blocks_per_group (info s))) /\
  D bg_free_inodes_count = u16 (clear_bits (bitmaps b) (8 * block_size (info s)) (inodes_per_group (info s))) /\
  D bg_used_dirs_count = u16 (used_dirs b).

(** The super block [b] as it was filled in, its copies in the groups, and the
    buffer [buf] for block 0, which has the sums and the journal in addition. *)
Definition super_shown (label : string) (s : fs) (buf : list Z) : Prop :=
  exists k b, block_size (info s) = 1024 * 2 ^ k /\ sb_shows (info s) (aux_info s) k (chars label) b /\
    (forall g, 0 < g < groups (aux_info s) -> super_in (info s) g = true ->
       exists c copy, holds s (group_start (info s) (aux_info s) g) (from_memory c) /\ mem s !! c = Some copy /\
         copy_of b g copy) /\
    (forall o n, 0 <= o -> 0 <= n -> o + n <= 1024 -> apart totals (mk_field o n) = true ->
       apart jnl_area (mk_field o n) = true -> sub_bytes buf (1024 + o) n = sub_bytes b o n).

(** The image: [buf] for block 0 and [d] with the descriptors are at [c] and [p]. *)
Record image_made (label : string) (lo : Z) (s : fs) (c : Z) (buf : list Z) (p : Z) (d : list Z) : Prop := {
  md_block0 : holds s 0 (from_memory c) /\ mem s !! c = Some buf /\ zlen buf = block_size (info s);
  md_super : super_shown label s buf;
  md_blocks : le_val (sub_bytes buf (1024 + f_off s_free_blocks_count_lo) 4) =
    u32 (sum_of (fun b => clear_bits (bitmaps b) 0 (blocks_per_group (info s))) (bgs s));
  md_inodes : le_val (sub_bytes buf (1024 + f_off s_free_inodes_count) 4) =
    u32 (sum_of (fun b => clear_bits (bitmaps b) (8 * block_size (info s)) (inodes_per_group (info s))) (bgs s));
  md_descs : mem s !! p = Some d /\ 32 * groups (aux_info s) <= zlen d /\
    forall g, 0 <= g < groups (aux_info s) -> super_in (info s) g = true -> descs_queued s p g;
  md_groups : forall (g : nat) b, bgs s !! g = Some b -> group_shown s d (Z.of_nat g) b;
  md_journal : journal_part lo s (sub_bytes buf (1024 + f_off s_jnl_blocks) 60);
  md_resize : resize_part lo s;
  md_tree : tree_part lo s
}.


(** ** The last two steps *)

Lemma put_two s p d b : sb p <> bg_desc p ->
  with_mem s (<[sb p := b]> (<[bg_desc p := d]> (mem s))) = set_mem (set_mem s (bg_desc p) d) (sb p) b.
Proof. reflexivity. Qed.

Lemma image_finished s p b d : fs_ready s -> mem s !! sb p = Some b -> mem s !! bg_desc p = Some d -> sb p <> bg_desc p ->
  zlen b = block_size (info s) -> 2048 <= block_size (info s) -> 32 * groups (aux_info s) <= zlen d ->
  get_field b s_free_blocks_count_lo = 0 -> get_field b s_free_inodes_count = 0 -> header_area s 0 -> unqueued s 0 1 ->
  exists b' d' s' c buf, let s1 := set_mem (set_mem s (bg_desc p) d') (sb p) b' in
    ext4_update_free p s = Ok (Some tt, s1) /\ ext4_queue_sb p s1 = Ok (Some tt, s') /\
    plain [sb p; bg_desc p] no_block s s1 /\ (forall ws, plain ws (fun x => x = 0) s1 s') /\
    holds s' 0 (from_memory c) /\ mem s' !! c = Some buf /\ zlen buf = block_size (info s) /\ fresh s <= c /\
    (forall o n, 0 <= o -> 0 <= n -> o + n <= 1024 -> apart totals (mk_field o n) = true ->
       sub_bytes buf (1024 + o) n = sub_bytes b o n) /\
    le_val (sub_bytes buf (1024 + f_off s_free_blocks_count_lo) 4) =
      u32 (sum_of (fun g => clear_bits (bitmaps g) 0 (blocks_per_group (info s))) (bgs s)) /\
    le_val (sub_bytes buf (1024 + f_off s_free_inodes_count) 4) =
      u32 (sum_of (fun g => clear_bits (bitmaps g) (8 * block_size (info s)) (inodes_per_group (info s))) (bgs s)) /\
    zlen d' = zlen d /\
    forall (i : nat) g, bgs s !! i = Some g ->
      get_field d' (at_index 32 (Z.of_nat i) bg_free_blocks_count) = u16 (clear_bits (bitmaps g) 0 (blocks_per_group (info s))) /\
      get_field d' (at_index 32 (Z.of_nat i) bg_free_inodes_count) =
        u16 (clear_bits (bitmaps g) (8 * block_size (info s)) (inodes_per_group (info s))) /\
      get_field d' (at_index 32 (Z.of_nat i) bg_used_dirs_count) =
        u16 (get_field d (at_index 32 (Z.of_nat i) bg_used_dirs_count) + used_dirs g) /\
      sub_bytes d' (32 * Z.of_nat i) 12 = sub_bytes d (32 * Z.of_nat i) 12.
Proof.
  intros Hrd Hb Hd Hne Lb Hbs Ld Z1 Z2 Hha Hun.
  destruct (update_free_spec s p b d (rd_ok _ Hrd) Hb Hd Hne ltac:(lia) Ld Z1 Z2) as (b' & d' & E1 & Lb' & Ld' & Hg & B & I & O).
  rewrite (put_two s p d' b' Hne) in E1. set (s1 := set_mem (set_mem s (bg_desc p) d') (sb p) b') in *.
  assert (plain [sb p; bg_desc p] no_block s s1) as P1.
  { assert (plain [sb p; bg_desc p] no_block s (set_mem s (bg_desc p) d')) as P0
      by (apply write_plain; [exact Hrd|exact (rd_mem _ Hrd _ _ Hd)|right; left]).
    apply (plain_trans _ _ _ _ _ P0), write_plain; [exact (pl_ready _ _ _ _ P0)|exact (rd_mem _ Hrd _ _ Hb)|left]. }
  destruct (queue_sb_spec s1 p b' (pl_ready _ _ _ _ P1)) as (c & buf & s' & E2 & H2 & M2 & Lbuf & Hc & Sb & P2);
    [apply lookup_insert_eq|exact (eq_trans Lb' Lb)|exact Hbs|exact Hha|exact Hun|].
  exists b', d', s', c, buf. cbv zeta. fold s1. repeat (split; [assumption|]).
  split; [|split; [|split; [|split; [exact Ld'|]]]].
  - intros o n Ho Hn Hz Ha. rewrite Sb by assumption. apply O; auto. lia.
  - rewrite Sb by (cbn; lia). exact B.
  - rewrite Sb by (cbn; lia). exact I.
  - intros i g Hi. apply (Hg (Z.of_nat i) g); [lia|]. rewrite Nat2Z.id. exact Hi.
Qed.


Lemma groups_shown s0 s d0 d : fs_ready s0 -> fs_ready s -> same_globals s0 s -> same_supers s0 s -> group_layout s ->
  (forall (g : nat) b, bgs s0 !! g = Some b -> has_superblock b = super_in (info s0) (Z.of_nat g)) ->
  (forall g, 0 <= g < groups (aux_info s0) -> desc_shows (info s0) (aux_info s0) d0 g /\
     get_field d0 (at_index 32 g bg_used_dirs_count) = 0) ->
  (forall (g : nat) b, bgs s !! g = Some b ->
     get_field d (at_index 32 (Z.of_nat g) bg_free_blocks_count) = u16 (clear_bits (bitmaps b) 0 (blocks_per_group (info s))) /\
     get_field d (at_index 32 (Z.of_nat g) bg_free_inodes_count) =
       u16 (clear_bits (bitmaps b) (8 * block_size (info s)) (inodes_per_group (info s))) /\
     get_field d (at_index 32 (Z.of_nat g) bg_used_dirs_count) =
       u16 (get_field d0 (at_index 32 (Z.of_nat g) bg_used_dirs_count) + used_dirs b) /\
     sub_bytes d (32 * Z.of_nat g) 12 = sub_bytes d0 (32 * Z.of_nat g) 12) ->
  forall (g : nat) b, bgs s !! g = Some b -> group_shown s d (Z.of_nat g) b.
Proof.
  intros Hrd0 Hrd (_ & Ei & Ea & _) Hsup HL Hs0 Hd0 Hd g b Hb.
  pose proof (lookup_lt_Some _ _ _ Hb) as Hlt. pose proof (fs_groups _ (rd_ok _ Hrd)) as Hn. pose proof (fs_groups _ (rd_ok _ Hrd0)) as Hn0.
  rewrite Ea in Hn. destruct (lookup_lt_is_Some_2 (bgs s0) g) as [b0 Hb0]; [unfold zlen in *; lia|].
  destruct (Hsup g b0 Hb0) as (b1 & Hb1 & Es & _). rewrite Hb in Hb1. injection Hb1 as <-. rewrite (Hs0 g b0 Hb0) in Es.
  destruct (Hd g b Hb) as (D1 & D2 & D3 & D4). destruct (Hd0 (Z.of_nat g)) as ((T1 & T2 & T3) & Z0); [unfold zlen in *; lia|].
  assert (forall f, 0 <= f_off f -> 0 <= f_size f -> f_off f + f_size f <= 12 -> get_field d (at_index 32 (Z.of_nat g) f) = get_field d0 (at_index 32 (Z.of_nat g) f)) as Hf.
  { intros f F1 F2 F3. unfold get_field. cbn. f_equal.
    assert (forall x : list Z, sub_bytes x (f_off f + 32 * Z.of_nat g) (f_size f) = sub_bytes (sub_bytes x (32 * Z.of_nat g) 12) (f_off f) (f_size f)) as Hsb.
    { intros x. unfold sub_bytes. rewrite skipn_firstn_comm, take_take, drop_drop. f_equal; [lia|]. f_equal. lia. }
    replace (32 * Z.of_nat g + f_off f) with (f_off f + 32 * Z.of_nat g) by lia. rewrite !Hsb, D4. reflexivity. }
  assert (table_end s g b - inode_table_blocks (aux_info s) = table_start (info s0) (aux_info s0) (Z.of_nat g)) as Et.
  { unfold table_end, table_start. rewrite Ei, Ea, Es. lia. }
  destruct (HL g b Hb) as (H1 & H2). rewrite Et in H1, H2. rewrite <- !Hf in T1, T2, T3 by (cbn; lia).
  unfold group_shown. rewrite T1, T2, T3, D1, D2, D3, Z0.
  split; [specialize (H1 0 ltac:(lia)); rewrite Z.mul_0_l, !Z.add_0_r in H1; exact H1|].
  split; [specialize (H1 1 ltac:(lia)); rewrite Z.mul_1_l in H1; replace (table_start (info s0) (aux_info s0) (Z.of_nat g) - 2 + 1) with
    (table_start (info s0) (aux_info s0) (Z.of_nat g) - 1) in H1 by lia; exact H1|].
  split; [exact H2|]. auto.
Qed.


(** What [ext4_fill_in_sb] left is there in the image. *)
Lemma copies_shown s3 s4 s p q b buf lab k : filled s3 s4 p q b (groups (aux_info s3)) -> same_globals s3 s ->
  sb p < fresh s3 -> bg_desc p < fresh s3 -> image_moves [sb p; bg_desc p] s4 s ->
  block_size (info s) = 1024 * 2 ^ k -> sb_shows (info s) (aux_info s) k (chars lab) b ->
  (forall o n, 0 <= o -> 0 <= n -> o + n <= 1024 -> apart totals (mk_field o n) = true ->
     apart jnl_area (mk_field o n) = true -> sub_bytes buf (1024 + o) n = sub_bytes b o n) ->
  super_shown lab s buf /\
  forall g, 0 <= g < groups (aux_info s) -> super_in (info s) g = true -> descs_queued s (bg_desc p) g.
Proof.
  intros Hf (_ & Ei & Ea & _) L1 L2 Hm Hk Hsh Hbuf. pose proof (fi_globals _ _ _ _ _ _ Hf) as (_ & Ei4 & Ea4 & _).
  split.
  - exists k, b. split; [exact Hk|]. split; [exact Hsh|]. split; [|exact Hbuf]. rewrite Ei, Ea. intros g Hg Hs.
    destruct (fi_backups _ _ _ _ _ _ Hf) as (l & _ & _ & Hbk).
    destruct (Hbk g Hg Hs) as (c & copy & _ & Hc & Hh & Hmc & Hcp). rewrite Ei4, Ea4 in Hh. exists c, copy.
    split; [exact (holds_moves _ _ _ _ _ Hm Hh)|]. split; [|exact Hcp]. apply (im_mem _ _ _ Hm); [|exact Hmc].
    intros Hin. apply elem_of_cons in Hin as [->|Hin]; [lia|]. apply list_elem_of_singleton in Hin. lia.
  - rewrite Ei, Ea. intros g Hg Hs x Hx. rewrite Ei, Ea in *. apply (holds_moves _ _ _ _ _ Hm).
    pose proof (fi_descs _ _ _ _ _ _ Hf g Hg Hs x) as Hd. rewrite Ei4, Ea4 in Hd. exact (Hd Hx).
Qed.

Lemma apart_fields f o n : apart f (mk_field o n) = true <-> f_off f + f_size f <= o \/ o + n <= f_off f.
Proof. unfold apart. cbn. rewrite orb_true_iff, !Z.leb_le. reflexivity. Qed.

Lemma image_moves_more ws ws' s s' : (forall a, a ∈ ws -> a ∈ ws') -> image_moves ws s s' -> image_moves ws' s s'.
Proof. intros H [A B C]. split; auto. Qed.

Lemma spread_zero s s' ws : makeable (info s) (aux_info s) -> spread ws (first_reserved s) s s' ->
  header_area s 0 -> unqueued s 0 1 -> header_area s' 0 /\ unqueued s' 0 1.
Proof.
  intros Hmk Sp Hha Hun. split; [exact (sp_area _ _ _ _ Sp 0 Hha)|].
  destruct (sp_others _ _ _ _ Sp 0 Hha Hun) as [Hr|Hu]; [exfalso|exact Hu]. unfold first_reserved, reserve_start in Hr.
  pose proof (geo_groups _ _ (mk_geometry _ _ Hmk)) as Hg.
  destruct (group_bounds s Hmk 0 ltac:(lia)) as (B0 & _ & _ & _ & B5 & _). lia.
Qed.

(** From the filled super block to the image. *)
Lemma image_complete s2 s3 s4 p q b lab k : makeable (info s2) (aux_info s2) -> groups_made s2 s3 ->
  filled s3 s4 p q b (groups (aux_info s3)) -> zlen b = block_size (info s2) -> itab s4 = ∅ ->
  sb p < fresh s3 -> bg_desc p < fresh s3 -> sb p <> bg_desc p ->
  block_size (info s2) = 1024 * 2 ^ k -> sb_shows (info s2) (aux_info s2) k (chars lab) b ->
  exists s5 s6 s7 s8 s9 s10 s11 lo c buf d,
    reserve_inodes 0 10 s4 = Ok (Some 1, s5) /\
    (if has_journal (info s5) then ext4_create_journal_inode q else ret tt) s5 = Ok (Some tt, s6) /\
    (if has_resize (info s5) then ext4_create_resize_inode else ret tt) s6 = Ok (Some tt, s7) /\
    build_default_directory_structure s7 = Ok (Some EXT4_ROOT_INO, s8) /\
    inode_set_permissions EXT4_ROOT_INO root_mode 0 0 0 s8 = Ok (Some 0, s9) /\
    ext4_update_free q s9 = Ok (Some tt, s10) /\ ext4_queue_sb q s10 = Ok (Some tt, s11) /\
    fs_ready s11 /\ same_globals s2 s11 /\ image_made lab lo s11 c buf (bg_desc p) d.
Proof.
  intros Hmk Hgm Hf Lb Hit L1 L2 Hne Hk Hsh. destruct (inodes_set_aside s2 s3 s4 p q b _ Hmk Hgm Hf) as (s5 & E5 & K & Hge & H11).
  destruct (started_from s2 s3 s4 s5 p q b Hmk Hgm Hf Lb Hit K Hge H11) as (Hst & Hha & Hun).
  destruct (fi_ptrs _ _ _ _ _ _ Hf) as (P1 & P2).
  assert (image_started s5 q b) as Hst' by (destruct Hst; split; auto; rewrite P1; assumption).
  destruct (image_files s5 q b Hst') as (s6 & s7 & s8 & s9 & b' & E6 & E7 & E8 & E9 & Sp & Hb' & Lb' & Ob' & HJ & HR & HT).
  pose proof (gm_globals _ _ Hgm) as G23. pose proof (fi_globals _ _ _ _ _ _ Hf) as G34. pose proof (kp_globals _ _ K) as G45.
  pose proof (same_globals_trans _ _ _ G34 (same_globals_trans _ _ _ G45 (sp_globals _ _ _ _ Sp))) as G39.
  pose proof (same_globals_trans _ _ _ G23 G39) as (_ & Ei9 & Ea9 & _). pose proof G39 as (_ & Ei39 & Ea39 & _).
  destruct (params_block_size _ (mk_params _ _ Hmk)) as (k' & Hk' & Ek' & _). assert (2 ^ 1 <= 2 ^ k') as H2k by (apply Z.pow_le_mono_r; lia).
  destruct (fi_desc _ _ _ _ _ _ Hf) as (d0 & Hd0 & Ld0 & Hsh0).
  assert (image_moves [sb p; bg_desc p] s4 s9) as Hm9.
  { apply (image_moves_trans _ _ s5); [exact (grows_moves _ _ _ (kp_grows _ _ K))|].
    apply (image_moves_more [sb q]); [intros a Ha; rewrite P1 in Ha; apply list_elem_of_singleton in Ha as ->; left|exact (sp_moves _ _ _ _ Sp)]. }
  assert (mem s9 !! bg_desc q = Some d0) as Hd9.
  { rewrite P2. apply (im_mem _ _ _ (sp_moves _ _ _ _ Sp)); [rewrite list_elem_of_singleton; congruence|]. rewrite (kp_mem _ _ K). exact Hd0. }
  destruct (spread_zero s5 s9 _ (ig_make _ _ _ Hst) Sp Hha Hun) as (Hha9 & Hun9).
  rewrite (ig_len _ _ _ Hst') in Lb'. pose proof (same_globals_trans _ _ _ G23 (same_globals_trans _ _ _ G34 G45)) as (_ & Ei5 & Ea5 & _).
  rewrite Ei5 in Lb'.
  assert (32 * groups (aux_info s2) <= zlen d0) as Hd32
    by (pose proof (mk_descs _ _ Hmk); destruct G23 as (_ & E1 & E2 & _); rewrite E1, E2 in Ld0; lia).
  assert (forall f, f_off f + f_size f <= 268 -> 0 <= f_off f -> 0 <= f_size f -> get_field b' f = get_field b f) as Hfld.
  { intros f F1 F2 F3. unfold get_field. f_equal. apply Ob'; [lia|lia|lia|]. apply apart_fields. cbn. lia. }
  destruct (image_finished s9 q b' d0 (sp_ready _ _ _ _ Sp) Hb' Hd9) as (b2 & d & s11 & c & buf & E10 & E11 & Pl1 & Pl2 & Hc & Hmc & Lbuf & Hlc & Hbuf & B & I & Ld & Hg).
  { congruence. } { congruence. } { rewrite Ei9. lia. }
  { rewrite Ea9. exact Hd32. }
  { rewrite Hfld by (cbn; lia). exact (sh_free_blocks _ _ _ _ _ Hsh). } { rewrite Hfld by (cbn; lia). exact (sh_free_inodes _ _ _ _ _ Hsh). }
  { exact Hha9. } { exact Hun9. }
  exists s5, s6, s7, s8, s9, (set_mem (set_mem s9 (bg_desc q) d) (sb q) b2), s11, (fresh s5), c, buf, d.
  repeat (split; [assumption|]).
  set (s10 := set_mem (set_mem s9 (bg_desc q) d) (sb q) b2) in *. pose proof (Pl2 []) as Pl2'.
  pose proof (same_globals_trans _ _ _ (pl_globals _ _ _ _ Pl1) (pl_globals _ _ _ _ Pl2')) as G911.
  pose proof (same_globals_trans _ _ _ G39 G911) as G311. pose proof (same_globals_trans _ _ _ G23 G311) as G211.
  pose proof G211 as (_ & Ei & Ea & _). pose proof G911 as (_ & Ei911 & Ea911 & _). pose proof G311 as (_ & Ei311 & Ea311 & _).
  pose proof (pl_bgs _ _ _ _ Pl2') as Eb11. change (bgs s10) with (bgs s9) in Eb11.
  assert (image_moves [sb p; bg_desc p] s4 s11) as Hm.
  { apply (image_moves_trans _ _ _ _ Hm9). rewrite <- P1, <- P2.
    exact (image_moves_trans _ _ _ _ (pl_moves _ _ _ _ Pl1) (pl_moves _ _ _ _ (Pl2 _))). }
  pose proof (moves_grows _ _ (pl_moves _ _ _ _ Pl2')) as Ig11.
  pose proof (pl_ready _ _ _ _ Pl1) as Hrd10. pose proof (pl_ready _ _ _ _ Pl2') as Hrd11.
  pose proof (kp_fresh _ _ K) as Fr5. pose proof (fi_fresh _ _ _ _ _ _ Hf) as Fr4.
  split; [exact Hrd11|]. split; [exact G211|].
  destruct (copies_shown s3 s4 s11 p q b buf lab k Hf G311 L1 L2 Hm) as (Hsup & Hdq); rewrite ?Ei, ?Ea; auto.
  { intros o n Ho Hn Hz Ht Hj. rewrite Hbuf by assumption. apply Ob'; auto.
    rewrite (ig_len _ _ _ Hst'), Ei5. lia. }
  split.
  - split; [exact Hc|]. split; [exact Hmc|]. rewrite Ei911. exact Lbuf.
  - exact Hsup.
  - rewrite Eb11, Ei911. exact B.
  - rewrite Eb11, Ei911. exact I.
  - split; [|split; [rewrite Ld, Ea; exact Hd32|exact Hdq]]. apply (ig_mem _ _ Ig11). cbn. rewrite lookup_insert_ne by congruence. rewrite P2. apply lookup_insert_eq.
  - apply (groups_shown s3 s11 d0 d (gm_ready _ _ Hgm) Hrd11 G311).
    + apply (same_supers_trans _ s4); [exact (same_supers_bgs _ _ (fi_bgs _ _ _ _ _ _ Hf))|].
      apply (same_supers_trans _ s5); [exact (hk_supers _ _ (kp_header _ _ K))|].
      apply (same_supers_trans _ s9); [exact (sp_supers _ _ _ _ Sp)|].
      exact (same_supers_trans _ _ _ (plain_supers _ _ _ _ Pl1) (plain_supers _ _ _ _ Pl2')).
    + apply (pl_layout _ _ _ _ Pl2'), (pl_layout _ _ _ _ Pl1), (sp_layout _ _ _ _ Sp), (kp_layout _ _ K), (fi_layout _ _ _ _ _ _ Hf).
    + intros g c' Hc'. destruct G23 as (_ & -> & _). destruct (gm_groups _ _ Hgm g c' Hc') as (_ & _ & H & _). exact H.
    + exact Hsh0.
    + rewrite Eb11, Ei911. exact Hg.
  - change (f_off s_jnl_blocks) with 268. rewrite Hbuf by (first [lia|apply apart_fields; cbn; lia]).
    apply (journal_part_stable _ s10); [|exact (rd_queue _ Hrd10)|exact (rd_queue _ Hrd11)|exact Ig11|rewrite (pl_itab _ _ _ _ Pl2'); reflexivity].
    apply journal_part_put; [|lia]. apply journal_part_put; [exact HJ|lia].
  - apply (resize_part_stable _ s10); [|exact Ig11|exact Ea911|rewrite (pl_itab _ _ _ _ Pl2'); reflexivity].
    apply resize_part_put; [|lia]. apply resize_part_put; [exact HR|lia].
  - apply (tree_part_stable _ s10); [|exact (rd_queue _ Hrd10)|exact (rd_queue _ Hrd11)|exact Ig11|exact (pl_itab _ _ _ _ Pl2')|exact Eb11|exact Ea911].
    apply tree_part_put; [|lia]. apply tree_part_put; [exact HT|lia].
Qed.

(** ** [make_image] *)

Lemma make_image_spec {host : host_tree} stack depth rq s i a lab :
  let fd_size := get_file_size (len (info s)) (rq_fstat rq) (fst (rq_ioctl rq)) (snd (rq_ioctl rq)) in
  choose_parameters fd_size (info s) = Ok (Some i) -> makeable i a -> blank s ->
  label i = Some lab -> zlen (chars lab) < 2 ^ 29 -> zlen stack = 64 ->
  rq_directory rq = None -> rq_init_itabs rq = false ->
  exists q s' lo c buf p d, make_image stack depth rq s = Ok (Some (Some q), s') /\
    fs_ready s' /\ info s' = i /\ aux_info s' = a /\ image_made lab lo s' c buf p d.
Proof.
  intros fd_size Hch Hmk Hbl Hlab Hlen Hst Hdir Hitab. set (s0 := set_info s i).
  assert (blank s0) as Hbl0 by (destruct Hbl; split; assumption).
  destruct (image_prepared stack s0 a lab Hmk Hbl0 Hlab Hlen Hst) as (p & s1 & s2 & s3 & s4 & q & b & k & E1 & E2 & E3 & E4 & Ei2 & Ea2
    & Hit & Hgm & Hf & Hk & Hsh & Lb & L1 & L2 & Hne). change (info s0) with i in *.
  destruct (gm_globals _ _ Hgm) as (_ & _ & Ea3 & _).
  destruct (image_complete s2 s3 s4 p q b lab k) as (s5 & s6 & s7 & s8 & s9 & s10 & s11 & lo & c & buf & d & E5 & E6 & E7 & E8 & E9
    & E10 & E11 & Hrd & (_ & Ei & Ea & _) & Him); rewrite ?Ea3, ?Ei2, ?Ea2; auto.
  exists q, s11, lo, c, buf, (bg_desc p), d.
  split; [|split; [exact Hrd|split; [congruence|split; [congruence|exact Him]]]].
  assert (fill_image stack depth rq p s2 = Ok (Some q, s11)) as Efill.
  { unfold fill_image. rewrite (bind_eq _ _ _ _ _ E3), (bind_eq _ _ _ _ _ E4), (bind_eq _ _ _ _ _ E5).
    change (1 =? EXT4_ALLOCATE_FAILED) with false. rewrite (bind_eq (ret tt) _ s5 tt s5 eq_refl).
    unfold bind at 1, get_state. unfold has_journal in E6. unfold has_resize in E7.
    rewrite (bind_eq _ _ _ _ _ E6), (bind_eq _ _ _ _ _ E7). unfold build_tree. rewrite Hdir, (bind_eq _ _ _ _ _ E8), (bind_eq _ _ _ _ _ E9).
    rewrite (bind_eq _ _ _ _ _ E10), Hitab, (bind_eq (ret tt) _ s10 tt s10 eq_refl), (bind_eq _ _ _ _ _ E11). reflexivity. }
  unfold make_image, bind at 1, get_state. fold fd_size.
  assert (lift (choose_parameters fd_size (info s)) s = Ok (Some (Some i), s)) as El by (unfold lift; rewrite Hch; reflexivity).
  rewrite (bind_eq _ _ _ _ _ El), (bind_eq (put_state (set_info s i)) _ s tt s0 eq_refl), (bind_eq _ _ _ _ _ E1), (bind_eq _ _ _ _ _ E2), (bind_eq _ _ _ _ _ Efill).
  reflexivity.
Qed.


End MakeExt4Image.
