(* ===== verification/MakeExt4Memory.v ===== *)
(** * Making an image: the memory

    Buffers, bitmaps and inode tables are never at the same addresses, and what
    is queued is memory, in whole blocks: an invariant of every operation the
    image of an empty file system takes. *)

From S2P Require Import Prelude BackedBlock SparseFile Sha1 Ext4Utils Ext4Alloc Ext4AllocBits Ext4AllocLists Ext4Extent Ext4ExtentProps Ext4Indirect Ext4Contents Ext4Super Ext4SuperProps MakeExt4fs MakeExt4Init.

Module MakeExt4Memory.
Import Ext4Utils Ext4Alloc Ext4AllocBits Ext4AllocLists Ext4Extent Ext4ExtentProps Ext4Indirect Ext4Contents
  Ext4Super Ext4SuperProps MakeExt4fs MakeExt4Init.

(** ** The invariant *)

Inductive place := P_buffer (a : Z) | P_bitmaps (g : nat) | P_table (g : nat).

#[export] Instance place_eq_dec : EqDecision place.
Proof. solve_decision. Defined.

(** The address and the size of what a place holds. *)
Definition area (s : fs) (p : place) : option (Z * Z) :=
  match p with
  | P_buffer a => match mem s !! a with Some b => Some (a, zlen b) | None => None end
  | P_bitmaps g => match bgs s !! g with Some b => Some (bitmaps_ptr b, zlen (bitmaps b)) | None => None end
  | P_table g =>
      match bgs s !! g with
      | Some b => match inode_table b with
                  | Some t => Some (t, inode_table_blocks (aux_info s) * block_size (info s))
                  | None => None
                  end
      | None => None
      end
  end.

(** Everything from here on is for one geometry; [L] bounds what is queued at
    once. *)
Section Made.
Context (inf : fs_info) (ax : fs_aux_info) (L : Z).

(** What can be queued: whole blocks. *)
Definition whole (n : Z) : Prop := (block_size inf | n) /\ 0 <= n <= L.

Context (whole_size : (block_size inf | 2 ^ 32)) (whole_block : whole (block_size inf)) (whole_bitmaps : whole (2 * block_size inf))
  (whole_table : whole (inode_table_blocks ax * block_size inf)) (whole_descs : whole (bg_desc_blocks ax * block_size inf))
  (whole_reserve : whole (block_size inf * bg_desc_reserve_blocks inf)) (whole_journal : whole (journal_blocks inf * block_size inf))
  (whole_dir1 : whole (u32 (div_round_up32 (dentry_size (block_size inf) [lost_found]) (block_size inf) * block_size inf)))
  (whole_dir2 : whole (u32 (div_round_up32 (dentry_size (block_size inf) []) (block_size inf) * block_size inf))).

(** Memory in whole blocks. *)
Definition whole_data (bb : BackedBlock.backed_block) : Prop :=
  whole (BackedBlock.len bb) /\ exists d, BackedBlock.payload bb = BackedBlock.bb_data d.

(** The geometry of a state. *)
Definition made (s : fs) : Prop := info s = inf /\ aux_info s = ax.

Record orderly (s : fs) : Prop := {
  od_fresh : 0 <= fresh s;
  od_end : forall p a n, area s p = Some (a, n) -> 0 <= a /\ a + n <= fresh s;
  od_apart : forall p q a n b m, p <> q -> area s p = Some (a, n) -> area s q = Some (b, m) -> a + n <= b \/ b + m <= a;
  od_queue : Forall whole_data (queued s)
}.

(** What no operation changes. *)
Definition frame (s s' : fs) : Prop :=
  info s' = info s /\ aux_info s' = aux_info s /\
  SparseFile.s_len (sparse_file s') = SparseFile.s_len (sparse_file s) /\
  SparseFile.s_block_size (sparse_file s') = SparseFile.s_block_size (sparse_file s).

Lemma frame_refl s : frame s s.
Proof. repeat split. Qed.
Lemma frame_trans s1 s2 s3 : frame s1 s2 -> frame s2 s3 -> frame s1 s3.
Proof. intros (A & B & C & D) (A' & B' & C' & D'). repeat split; congruence. Qed.

Lemma made_frame s s' : made s -> frame s s' -> made s'.
Proof. intros (A & B) (C & D & _). split; congruence. Qed.

Lemma area_fun s p a n b m : area s p = Some (a, n) -> area s p = Some (b, m) -> a = b /\ n = m.
Proof. intros H1 H2. rewrite H1 in H2. injection H2 as -> ->. auto. Qed.

(** A step after which every place is as large as before at most, but for [q],
    which is new. *)
Lemma orderly_step q s s' : orderly s -> info s' = info s -> fresh s <= fresh s' ->
  (forall p a n, area s' p = Some (a, n) ->
     (exists m, area s p = Some (a, m) /\ n <= m) \/ (p = q /\ fresh s <= a /\ a + n <= fresh s')) ->
  Forall whole_data (queued s') -> orderly s'.
Proof.
  intros [O1 O3 O4 O5] Ei Hf Hstep Hq. split; auto; [lia| |].
  - intros p a n Hp. destruct (Hstep p a n Hp) as [(m & Hm & Hn)|(_ & H1 & H2)]; [destruct (O3 p a m Hm); lia|lia].
  - intros p p' a n b m Hne Hp Hp'.
    destruct (Hstep p a n Hp) as [(n' & Hn & Hn')|(E1 & H1 & H2)], (Hstep p' b m Hp') as [(m' & Hm & Hm')|(E2 & H3 & H4)].
    + destruct (O4 p p' a n' b m' Hne Hn Hm); lia.
    + destruct (O3 p a n' Hn). lia.
    + destruct (O3 p' b m' Hm). lia.
    + congruence.
Qed.

(** A step that leaves the places alone. *)
Lemma orderly_same s s' : orderly s -> info s' = info s -> aux_info s' = aux_info s -> bgs s' = bgs s -> mem s' = mem s ->
  fresh s <= fresh s' -> Forall whole_data (queued s') -> orderly s'.
Proof.
  intros H Ei Ea Eb Em Hf Hq. apply (orderly_step (P_buffer 0) s s' H Ei Hf); [|exact Hq].
  intros p a n Hp. left. exists n. split; [|lia]. rewrite <- Hp. unfold area. rewrite Ei, Ea, Eb, Em. reflexivity.
Qed.

(** ** Operations that keep it *)

Definition steady {A} (m : M A) : Prop :=
  forall s r s', made s -> m s = Ok (r, s') -> orderly s -> orderly s' /\ frame s s'.

Create HintDb steady.

Lemma bind_inv {A B} (m : M A) (k : A -> M B) s r s' : bind m k s = Ok (r, s') ->
  (exists x s1, m s = Ok (Some x, s1) /\ k x s1 = Ok (r, s')) \/ (m s = Ok (None, s') /\ r = None).
Proof.
  unfold bind. destruct (m s) as [[[a|] s1]| | |]; intros H; try discriminate H; [left; eauto|].
  injection H as <- <-. auto.
Qed.

Lemma steady_bind {A B} (m : M A) (k : A -> M B) : steady m -> (forall x, steady (k x)) -> steady (bind m k).
Proof.
  intros Hm Hk s r s' Hi H Ho. apply bind_inv in H as [(v & s1 & E & H)|(E & _)]; [|exact (Hm _ _ _ Hi E Ho)].
  destruct (Hm _ _ _ Hi E Ho) as (Ho1 & F1). destruct (Hk v s1 r s' (made_frame _ _ Hi F1) H Ho1) as (Ho2 & F2).
  split; [exact Ho2|]. exact (frame_trans _ _ _ F1 F2).
Qed.

(** Reading the state: the parameters are known. *)
Lemma steady_get {B} (k : fs -> M B) : (forall s, made s -> steady (k s)) -> steady (bind get_state k).
Proof. intros Hk s r s' Hi H Ho. unfold bind, get_state in H. exact (Hk s Hi s r s' Hi H Ho). Qed.

(** Computations that do not change the state. *)
Definition pure {A} (m : M A) : Prop := forall s r s', m s = Ok (r, s') -> s' = s.

Lemma steady_pure {A} (m : M A) : pure m -> steady m.
Proof. intros H s r s' _ E Ho. rewrite (H _ _ _ E). split; [exact Ho|apply frame_refl]. Qed.

Lemma pure_bind {A B} (m : M A) (k : A -> M B) : pure m -> (forall x, pure (k x)) -> pure (bind m k).
Proof.
  intros Hm Hk s r s' H. apply bind_inv in H as [(x & s1 & E & H)|(E & _)]; [|exact (Hm _ _ _ E)].
  rewrite (Hk _ _ _ _ H). exact (Hm _ _ _ E).
Qed.

Ltac pure_step := let H := fresh "H" in intros ? ? ? H; cbv beta in H;
  repeat match type of H with context [match ?x with _ => _ end] => destruct x; try discriminate H end;
  injection H as _ <-; reflexivity.

Lemma pure_ret {A} (x : A) : pure (ret x).
Proof. unfold ret. pure_step. Qed.
Lemma pure_get_state : pure get_state.
Proof. unfold get_state. pure_step. Qed.
Lemma pure_error : pure error.
Proof. unfold error. pure_step. Qed.
Lemma pure_critical {A} : pure (@critical_error A).
Proof. unfold critical_error. pure_step. Qed.
Lemma pure_undef {A} : pure (@undef A).
Proof. intros s r s' H. discriminate H. Qed.
Lemma pure_nofuel {A} : pure (@nofuel A).
Proof. intros s r s' H. discriminate H. Qed.
Lemma pure_get_bg i : pure (get_bg i).
Proof. unfold get_bg. pure_step. Qed.
Lemma pure_deref p : pure (deref p).
Proof. unfold deref. pure_step. Qed.
Lemma pure_read_inode p : pure (read_inode p).
Proof. unfold read_inode. pure_step. Qed.
Lemma pure_lift {A} (x : outcome A) : pure (lift x).
Proof. intros s r s'. unfold lift. destruct x; cbn; intros H; try discriminate. injection H as _ <-. reflexivity. Qed.
Lemma pure_lift_jump {A} (x : outcome (option A)) : pure (lift_jump x).
Proof. intros s r s'. unfold lift_jump. destruct x; cbn; intros H; try discriminate. injection H as _ <-. reflexivity. Qed.
Lemma pure_fun {A} (f : fs -> outcome A) : pure (fun s => let! r := f s in Ok (Some r, s)).
Proof. intros s r s'. cbv beta. destruct (f s); cbn; intros H; try discriminate. injection H as _ <-. reflexivity. Qed.

Create HintDb pure.
#[local] Hint Resolve pure_ret pure_get_state pure_error pure_critical pure_undef pure_nofuel pure_get_bg pure_deref
  pure_read_inode pure_lift pure_lift_jump pure_fun : pure.

Ltac pure := repeat match goal with
  | |- forall _, _ => intros ?
  | |- pure (match ?x with _ => _ end) => destruct x
  | |- pure (let _ := _ in _) => cbv zeta
  | |- pure (bind _ _) => apply pure_bind
  | |- pure _ => solve [auto with pure nocore]
  end.


(** ** Reading *)

Lemma pure_fold_regions fuel f : forall i reg, pure (fold_regions fuel f i reg).
Proof. induction fuel as [|fuel IH]; intros i reg; cbn [fold_regions]; pure; apply IH. Qed.
Lemma pure_get_block_loop fuel : forall reg b, pure (get_block_loop fuel reg b).
Proof. induction fuel as [|fuel IH]; intros reg b; cbn [get_block_loop]; pure; apply IH. Qed.
Lemma pure_split_walk fuel : forall reg n, pure (split_walk fuel reg n).
Proof. induction fuel as [|fuel IH]; intros reg n; cbn [split_walk]; pure; apply IH. Qed.
Lemma pure_advance_loop fuel : forall l reg n, pure (advance_loop fuel l reg n).
Proof. induction fuel as [|fuel IH]; intros l reg n; cbn [advance_loop]; pure; apply IH. Qed.
#[local] Hint Resolve pure_fold_regions pure_get_block_loop pure_split_walk pure_advance_loop : pure.

Lemma pure_num_regions a : pure (block_allocation_num_regions a).
Proof. unfold block_allocation_num_regions. pure. Qed.
Lemma pure_allocation_len a : pure (block_allocation_len a).
Proof. unfold block_allocation_len. pure. Qed.
Lemma pure_get_block a b : pure (get_block a b).
Proof. unfold get_block, get_list_block. pure. Qed.
Lemma pure_get_oob_block a b : pure (get_oob_block a b).
Proof. unfold get_oob_block, get_list_block. pure. Qed.
Lemma pure_get_region a : pure (get_region a).
Proof. unfold get_region. pure. Qed.
Lemma pure_get_next_region a : pure (get_next_region a).
Proof. unfold get_next_region. pure. Qed.
Lemma pure_advance_blocks a n : pure (advance_blocks a n).
Proof. unfold advance_blocks, advance_list_ptr. pure. Qed.
Lemma pure_advance_oob a n : pure (advance_oob_blocks a n).
Proof. unfold advance_oob_blocks, advance_list_ptr. pure. Qed.
Lemma pure_set_block i n v : pure (set_block i n v).
Proof. unfold set_block. pure. Qed.
Lemma pure_get_free_blocks g : pure (get_free_blocks g).
Proof. unfold get_free_blocks. pure. Qed.
Lemma pure_get_free_inodes g : pure (get_free_inodes g).
Proof. unfold get_free_inodes. pure. Qed.
Lemma pure_get_directories g : pure (get_directories g).
Proof. unfold get_directories. pure. Qed.
#[local] Hint Resolve pure_num_regions pure_allocation_len pure_get_block pure_get_oob_block pure_get_region
  pure_get_next_region pure_advance_blocks pure_advance_oob pure_set_block pure_get_free_blocks pure_get_free_inodes
  pure_get_directories : pure.

Lemma pure_extents_loop fuel : forall a fb off b, pure (extents_loop fuel a fb off b).
Proof. induction fuel as [|fuel IH]; intros a fb off b; cbn [extents_loop]; pure; apply IH. Qed.
Lemma pure_attach_loop ids : forall i a, pure (attach_loop ids i a).
Proof. induction ids as [|k ids IH]; intros i a; cbn [attach_loop]; pure; apply IH. Qed.
Lemma pure_indirect_needed n : pure (indirect_blocks_needed n).
Proof. unfold indirect_blocks_needed. pure. Qed.
#[local] Hint Resolve pure_extents_loop pure_attach_loop pure_indirect_needed : pure.

(** ** Regions *)

Lemma same_steady {A} (m : M A) : (forall s r s', m s = Ok (r, s') -> info s' = info s /\ aux_info s' = aux_info s /\
  bgs s' = bgs s /\ mem s' = mem s /\ sparse_file s' = sparse_file s /\ fresh s <= fresh s') -> steady m.
Proof.
  intros H s r s' _ E Ho. destruct (H _ _ _ E) as (Ei & Ea & Eb & Em & Es & Ef).
  split; [|repeat split; congruence]. apply (orderly_same s); auto. unfold queued. rewrite Es. exact (od_queue _ Ho).
Qed.

Ltac same_step := apply same_steady; let H := fresh "H" in intros ? ? ? H; cbv beta in H;
  repeat match type of H with context [match ?x with _ => _ end] => destruct x; try discriminate H end;
  injection H as _ <-; cbn; repeat split; lia.

Lemma steady_malloc : steady malloc.
Proof. unfold malloc. same_step. Qed.
Lemma steady_store p r : steady (store p r).
Proof. unfold store. same_step. Qed.
Lemma steady_free p : steady (free p).
Proof. unfold free. same_step. Qed.
Lemma steady_write_inode p n : steady (write_inode p n).
Proof. unfold write_inode. same_step. Qed.
Lemma steady_new_region r : steady (new_region r).
Proof. unfold new_region, bind, malloc, get_state, put_state, ret, undef. same_step. Qed.
#[local] Hint Resolve steady_malloc steady_store steady_free steady_write_inode steady_new_region : steady.
#[local] Hint Extern 5 (steady _) => (apply steady_pure; solve [auto with pure nocore]) : steady.

Ltac steady := repeat match goal with
  | |- forall _, _ => intros ?
  | |- steady (match ?x with _ => _ end) => destruct x
  | |- steady (let _ := _ in _) => cbv zeta
  | |- steady (bind get_state _) => apply steady_get; intros ? ?
  | |- steady (bind _ _) => apply steady_bind
  | |- steady _ => solve [auto with steady nocore]
  end.

Lemma steady_set_next p q : steady (set_next p q).
Proof. unfold set_next. steady. Qed.
Lemma steady_set_prev p q : steady (set_prev p q).
Proof. unfold set_prev. steady. Qed.
Lemma steady_set_rlen p q : steady (set_rlen p q).
Proof. unfold set_rlen. steady. Qed.
#[local] Hint Resolve steady_set_next steady_set_prev steady_set_rlen : steady.

Lemma steady_list_remove l r : steady (region_list_remove l r).
Proof. unfold region_list_remove. steady. Qed.
Lemma steady_list_append l r : steady (region_list_append l r).
Proof. unfold region_list_append. steady. Qed.
#[local] Hint Resolve steady_list_remove steady_list_append : steady.

Lemma steady_append_region a b n g : steady (append_region a b n g).
Proof. unfold append_region. steady. Qed.
Lemma steady_do_split a n : steady (do_split_allocation a n).
Proof. unfold do_split_allocation. steady. Qed.
#[local] Hint Resolve steady_append_region steady_do_split : steady.
Lemma steady_split a n : steady (split_allocation a n).
Proof. unfold split_allocation. steady. Qed.
Lemma steady_move_oob fuel : forall a o, steady (move_oob fuel a o).
Proof. induction fuel as [|fuel IH]; intros a o; cbn [move_oob]; steady; apply IH. Qed.
#[local] Hint Resolve steady_split steady_move_oob : steady.
Lemma steady_reserve_oob a n : steady (reserve_oob_blocks a n).
Proof. unfold reserve_oob_blocks. steady. Qed.
Lemma steady_append_all fuel : forall l r, steady (append_all fuel l r).
Proof. induction fuel as [|fuel IH]; intros l r; cbn [append_all]; steady; apply IH. Qed.
Lemma steady_free_list fuel : forall r, steady (free_list fuel r).
Proof. induction fuel as [|fuel IH]; intros r; cbn [free_list]; steady; apply IH. Qed.
#[local] Hint Resolve steady_reserve_oob steady_append_all steady_free_list : steady.
Lemma steady_free_alloc a : steady (free_alloc a).
Proof. unfold free_alloc. steady. Qed.
#[local] Hint Resolve steady_free_alloc : steady.


(** ** Buffers *)

(** The places when a buffer is replaced by one that is not larger. *)
Lemma orderly_put s a b b' : orderly s -> mem s !! a = Some b -> zlen b' <= zlen b -> orderly (set_mem s a b').
Proof.
  intros Ho Hb Hl. apply (orderly_step (P_buffer 0) s _ Ho); [reflexivity|cbn; lia| |exact (od_queue _ Ho)].
  intros p c n Hp. left. destruct p as [a'| |]; [|exists n; split; [exact Hp|lia]..]. cbn in Hp |- *.
  destruct (decide (a = a')) as [<-|Hne].
  - rewrite lookup_insert_eq in Hp. injection Hp as <- <-. rewrite Hb. eauto.
  - rewrite lookup_insert_ne in Hp by exact Hne. exists n. split; [exact Hp|lia].
Qed.

Lemma steady_calloc n : steady (calloc n).
Proof.
  intros s r s' _ H Ho. unfold calloc in H. destruct (avail s (fresh s)); injection H as _ <-; (split; [|repeat split]).
  - apply (orderly_step (P_buffer (fresh s)) s _ Ho); [reflexivity|cbn; lia| |exact (od_queue _ Ho)].
    intros p a m Hp. destruct p as [a'| |]; [|left; exists m; split; [exact Hp|lia]..]. cbn in Hp |- *.
    destruct (decide (fresh s = a')) as [<-|Hne].
    + right. rewrite lookup_insert_eq in Hp. injection Hp as <- <-. split; [reflexivity|]. unfold zlen, zeros. rewrite length_replicate. lia.
    + left. rewrite lookup_insert_ne in Hp by exact Hne. exists m. split; [exact Hp|lia].
  - apply (orderly_same s); auto; [cbn; lia|exact (od_queue _ Ho)].
Qed.

Definition same_size (f : list Z -> outcome (list Z)) : Prop := forall b b', f b = Ok b' -> zlen b' = zlen b.

Lemma steady_update_mem p f : same_size f -> steady (update_mem p f).
Proof.
  intros Hf s r s' _ H Ho. unfold update_mem, bind, get_state, lift, put_mem in H.
  destruct (mem s !! p) as [b|] eqn:Eb; cbn in H; [|discriminate].
  destruct (f b) as [b'| | |] eqn:Ef; cbn in H; try discriminate. injection H as _ <-.
  split; [|repeat split]. apply (orderly_put s p b); [exact Ho|exact Eb|]. rewrite (Hf _ _ Ef). lia.
Qed.

(** The same with a result. *)
Lemma steady_rewrite {A B} p (f : list Z -> outcome (option (list Z * A))) (k : A -> M B) :
  (forall b b' x, f b = Ok (Some (b', x)) -> zlen b' = zlen b) -> (forall x, steady (k x)) ->
  steady (let* s := get_state in let* b := lift (oof (mem s !! p)) in let* (b, x) := lift_jump (f b) in
            let* _ := put_mem p b in k x).
Proof.
  intros Hf Hk s r s' Hi H Ho. unfold bind at 1, get_state in H. apply bind_inv in H as [(b & s1 & E & H)|(E & _)].
  2:{ rewrite (pure_lift _ _ _ _ E). split; [exact Ho|apply frame_refl]. }
  rewrite (pure_lift _ _ _ _ E) in H. assert (mem s !! p = Some b) as Eb.
  { unfold lift in E. destruct (mem s !! p); cbn in E; [|discriminate]. injection E as -> _. reflexivity. }
  apply bind_inv in H as [([b' x] & s2 & E2 & H)|(E2 & _)].
  2:{ rewrite (pure_lift_jump _ _ _ _ E2). split; [exact Ho|apply frame_refl]. }
  rewrite (pure_lift_jump _ _ _ _ E2) in H. assert (f b = Ok (Some (b', x))) as Ef.
  { unfold lift_jump in E2. destruct (f b); cbn in E2; try discriminate. injection E2 as -> _. reflexivity. }
  unfold bind, put_mem in H. apply (Hk x (set_mem s p b') r s' Hi H). apply (orderly_put s p b); [exact Ho|exact Eb|].
  rewrite (Hf _ _ _ Ef). lia.
Qed.

Lemma splice_same off bs : same_size (fun b => splice b off bs).
Proof. intros b b'. apply splice_len. Qed.

Lemma put_bytes_same f bs : same_size (put_bytes f bs).
Proof. intros b b'. apply splice_len. Qed.

Lemma put_field_same f v : same_size (put_field f v).
Proof. apply put_bytes_same. Qed.

Lemma put_fields_same l : same_size (put_fields l).
Proof.
  induction l as [|[f v] l IH]; intros b b'; cbn; [intros [= <-]; reflexivity|].
  destruct (put_field f v b) as [b1| | |] eqn:E; cbn; try discriminate. intros H.
  rewrite (IH _ _ H). exact (put_field_same _ _ _ _ E).
Qed.
#[local] Hint Resolve splice_same put_bytes_same put_field_same put_fields_same : steady.

Lemma add_field_same f n : same_size (add_field f n).
Proof. intros b b'. apply put_field_same. Qed.

Lemma fill_sb_same st i a : same_size (fill_sb st i a).
Proof.
  intros b b'. unfold fill_sb. destruct (log_2 _) as [log| | |]; cbn [obind]; try discriminate.
  destruct (put_fields (sb_values1 i a log) b) as [b1| | |] eqn:E1; cbn [obind]; try discriminate.
  destruct (label i) as [l|]; try discriminate. destruct (Sha1.generate_uuid _ _ _) as [u| | |]; cbn [obind]; try discriminate.
  destruct (put_bytes s_uuid u b1) as [b2| | |] eqn:E2; cbn [obind]; try discriminate.
  destruct (put_bytes s_volume_name _ b2) as [b3| | |] eqn:E3; cbn [obind]; try discriminate.
  destruct (put_bytes s_last_mounted _ b3) as [b4| | |] eqn:E4; cbn [obind]; try discriminate. intros E5.
  apply put_fields_same in E1, E5. apply put_bytes_same in E2, E3, E4. congruence.
Qed.
#[local] Hint Resolve add_field_same fill_sb_same steady_calloc steady_update_mem : steady.

Lemma steady_write_word p k v : steady (write_word p k v).
Proof. exact (steady_update_mem p _ (splice_same _ _)). Qed.
Lemma steady_fill_inode p n : steady (fill_inode p n).
Proof. exact (steady_update_mem _ _ (splice_same _ _)). Qed.
#[local] Hint Resolve steady_write_word steady_fill_inode : steady.


(** ** The queue *)

Definition is_data (bb : BackedBlock.backed_block) : Prop := exists d, BackedBlock.payload bb = BackedBlock.bb_data d.

Lemma merge_data l a b r m : (forall x, a = Some x -> is_data x) -> BackedBlock.merge_bb l a b = Ok (r, m) -> m = None.
Proof.
  intros Ha. unfold BackedBlock.merge_bb. destruct a as [x|]; [|intros [= _ <-]; reflexivity].
  destruct (Ha x eq_refl) as (d & Ex). destruct b as [y|]; [|intros [= _ <-]; reflexivity].
  destruct (negb (_ <? _)); [discriminate|]. destruct (negb (bool_decide _)); [intros [= _ <-]; reflexivity|].
  destruct (_ =? 0); [discriminate|]. destruct (negb (_ =? _)); [intros [= _ <-]; reflexivity|].
  unfold BackedBlock.mergeable. rewrite Ex. cbn. intros [= _ <-]. reflexivity.
Qed.

(** Memory is never merged: the queue gets one entry more. *)
Lemma queue_data l new r l' : Forall is_data (BackedBlock.data_blocks l) -> is_data new ->
  BackedBlock.queue_bb l new = Ok (r, l') ->
  forall x, In x (BackedBlock.data_blocks l') -> x = new \/ In x (BackedBlock.data_blocks l).
Proof.
  intros Hl Hn. unfold BackedBlock.queue_bb. destruct (BackedBlock.data_blocks l) as [|hd tl].
  { intros [= _ <-] x [<-|[]]. auto. }
  destruct (_ <? _); [intros [= _ <-] x [<-|H]; auto|].
  destruct (BackedBlock.queue_start l new hd tl) as [[[pre bb0] post]| | |] eqn:Es; cbn [obind]; try discriminate.
  assert (hd :: tl = pre ++ bb0 :: post) as El.
  { unfold BackedBlock.queue_start in Es. destruct (BackedBlock.last_used l) as [p|]; [|injection Es as <- <- <-; reflexivity].
    destruct (BackedBlock.deref _ _) as [lu|]; cbn in Es; [|discriminate]. destruct (_ <? _); [|injection Es as <- <- <-; reflexivity].
    destruct (_ =? p) eqn:Ep; [injection Es as <- <- <-; reflexivity|].
    destruct (BackedBlock.split_at p tl) as [[[a b] c]|] eqn:E; cbn in Es; [|discriminate]. injection Es as <- <- <-.
    apply BackedBlock.split_at_spec in E as (-> & _). reflexivity. }
  destruct (BackedBlock.walk bb0 post (BackedBlock.block new)) as [[w bb] rest] eqn:Ew.
  apply BackedBlock.walk_spec in Ew as (Ew & _ & _). rewrite Ew in El. rewrite El in Hl.
  assert (is_data bb) as Hbb by (apply Forall_app in Hl as (_ & Hl); apply Forall_app in Hl as (_ & Hl); inversion Hl; assumption).
  destruct (BackedBlock.merge_bb l (Some new) (head rest)) as [[r1 m1]| | |] eqn:E1; cbn [obind]; try discriminate.
  apply merge_data in E1 as ->; [|intros x [= <-]; exact Hn].
  destruct (BackedBlock.merge_bb l (Some bb) (Some new)) as [[r2 m2]| | |] eqn:E2; cbn [obind]; try discriminate.
  apply merge_data in E2 as ->; [|intros x [= <-]; exact Hbb]. intros [= _ <-] x. cbn [BackedBlock.data_blocks].
  rewrite El. rewrite !in_app_iff. cbn. intuition.
Qed.

Lemma steady_sparse_add_data d n b : whole n -> steady (sparse_add_data d n b).
Proof.
  intros Hn s r s' Hi H Ho. unfold sparse_add_data, bind, malloc in H.
  unfold SparseFile.sparse_file_add_data, SparseFile.with_list, BackedBlock.backed_block_add_data in H.
  change (sparse_file (bump s)) with (sparse_file s) in H.
  destruct (avail s (fresh s)); cbn in H.
  2:{ injection H as _ <-. split; [|repeat split]. apply (orderly_same s); auto; [cbn; lia|exact (od_queue _ Ho)]. }
  set (new := BackedBlock.mk_bb (fresh s) b n (BackedBlock.bb_data d)) in H.
  destruct (BackedBlock.queue_bb (SparseFile.s_list (sparse_file s)) new) as [[c l]| | |] eqn:E; cbn in H; try discriminate.
  injection H as _ <-. split; [|repeat split]. apply (orderly_same s); auto; [cbn; lia|].
  rewrite Forall_forall. intros x Hx. apply list_elem_of_In in Hx.
  pose proof (od_queue _ Ho) as Hq. rewrite Forall_forall in Hq.
  destruct (queue_data _ new _ _ ltac:(rewrite Forall_forall; intros y Hy; exact (proj2 (Hq y Hy))) ltac:(exists d; reflexivity) E x Hx) as [->|Hin].
  - split; [exact Hn|exists d; reflexivity].
  - apply Hq, list_elem_of_In. exact Hin.
Qed.

Lemma whole_mod n m : (block_size inf | m) -> 0 < m -> whole n -> whole (n mod m).
Proof.
  intros Hm Hm0 (Hd & H0 & H1). split; [|pose proof (Z.mod_le n m H0 Hm0); pose proof (Z.mod_pos_bound n m Hm0); lia].
  rewrite Z.mod_eq by lia. apply Z.divide_sub_r; [exact Hd|]. apply Z.divide_mul_l. exact Hm.
Qed.

Lemma whole_u32 n : whole n -> whole (u32 n).
Proof. apply whole_mod; [exact whole_size|lia]. Qed.

Lemma whole_u64 n : whole n -> whole (u64 n).
Proof. apply whole_mod; [|lia]. change (2 ^ 64) with (2 ^ 32 * 2 ^ 32). apply Z.divide_mul_l. exact whole_size. Qed.

Lemma steady_add_u32 d n b : whole n -> steady (sparse_add_data d (u32 n) b).
Proof. intros Hn. exact (steady_sparse_add_data d (u32 n) b (whole_u32 n Hn)). Qed.

(** A part of [n] bytes: [k] bytes of memory in whole blocks at most. *)
Lemma whole_part k n : 0 <= k -> (block_size inf | k) -> whole n -> whole (Z.min k n) /\ whole (n - Z.min k n).
Proof.
  intros Hk Hd (Hn & H0 & H1). destruct (Z.min_spec k n) as [(H & ->)|(H & ->)].
  - split; (split; [auto using Z.divide_sub_r|lia]).
  - split; (split; [auto using Z.divide_sub_r|lia]).
Qed.

(** ** Groups *)

Lemma orderly_group s (g : nat) b c : orderly s -> bgs s !! g = Some b -> bitmaps_ptr c = bitmaps_ptr b ->
  zlen (bitmaps c) <= zlen (bitmaps b) -> inode_table c = inode_table b -> orderly (set_bgs s (<[g := c]> (bgs s))).
Proof.
  intros Ho Hb Hp Hl Ht. apply (orderly_step (P_buffer 0) s _ Ho); [reflexivity|cbn; lia| |exact (od_queue _ Ho)].
  intros p a n H. left. pose proof (lookup_lt_Some _ _ _ Hb) as Hlt. destruct p as [a'|h|h]; [exists n; split; [exact H|lia]|..]; cbn in H |- *;
    (destruct (decide (g = h)) as [<-|Hne]; [rewrite list_lookup_insert_eq in H by exact Hlt; rewrite Hb|
      rewrite list_lookup_insert_ne in H by exact Hne; exists n; split; [exact H|lia]]).
  - injection H as <- <-. rewrite Hp. eauto.
  - rewrite Ht in H. exists n. split; [exact H|lia].
Qed.

Lemma put_bg_inv g c s r s' : put_bg g c s = Ok (r, s') -> s' = set_bgs s (<[Z.to_nat g := c]> (bgs s)) /\ 0 <= g < zlen (bgs s).
Proof.
  unfold put_bg. destruct ((0 <=? g) && (g <? zlen (bgs s))) eqn:E; [|discriminate]. intros [= _ <-].
  apply andb_true_iff in E as (H1 & H2). apply Z.leb_le in H1. apply Z.ltb_lt in H2. auto.
Qed.

Lemma get_bg_inv g s r s' : get_bg g s = Ok (r, s') -> s' = s /\ exists b, r = Some b /\ bgs s !! Z.to_nat g = Some b.
Proof.
  unfold get_bg. destruct (g <? 0); [discriminate|]. destruct (bgs s !! Z.to_nat g) as [b|] eqn:E; [|discriminate].
  intros [= <- <-]. eauto.
Qed.

(** A group that is read and written back with its places. *)
Definition same_places (b c : block_group_info) : Prop :=
  bitmaps_ptr c = bitmaps_ptr b /\ zlen (bitmaps c) <= zlen (bitmaps b) /\ inode_table c = inode_table b.

Lemma same_places_refl b : same_places b b.
Proof. unfold same_places. repeat split. lia. Qed.

Lemma same_places_trans b c d : same_places b c -> same_places c d -> same_places b d.
Proof. intros (A & B & C) (A' & B' & C'). unfold same_places. repeat split; [congruence|lia|congruence]. Qed.

(** [m] is run when group [g] has the places of [b]. *)
Definition steady_with (g : Z) (b : block_group_info) {A} (m : M A) : Prop :=
  forall s r s' c, made s -> bgs s !! Z.to_nat g = Some c -> same_places b c -> same_places c b -> m s = Ok (r, s') ->
    orderly s -> orderly s' /\ frame s s'.

Lemma steady_get_bg g {B} (k : block_group_info -> M B) : (forall b, steady_with g b (k b)) -> steady (bind (get_bg g) k).
Proof.
  intros Hk s r s' Hi H Ho. apply bind_inv in H as [(x & s1 & E & H)|(E & _)]; apply get_bg_inv in E as (-> & b & Eb & Hb).
  - injection Eb as ->. apply (Hk b s r s' b); auto using same_places_refl.
  - discriminate.
Qed.

Lemma with_steady g b {A} (m : M A) : steady m -> steady_with g b m.
Proof. intros Hm s r s' c Hi _ _ _ H Ho. exact (Hm s r s' Hi H Ho). Qed.

Lemma with_pure g b {A B} (m : M A) (k : A -> M B) : pure m -> (forall s x s1, m s = Ok (Some x, s1) -> steady_with g b (k x)) ->
  steady_with g b (bind m k).
Proof.
  intros Hm Hk s r s' c Hi Hc H1 H2 H Ho. apply bind_inv in H as [(x & s1 & E & H)|(E & _)].
  - pose proof (Hk _ _ _ E) as Hx. rewrite (Hm _ _ _ E) in H. exact (Hx s r s' c Hi Hc H1 H2 H Ho).
  - rewrite (Hm _ _ _ E). split; [exact Ho|apply frame_refl].
Qed.

Lemma with_put_bg g b c {B} (k : unit -> M B) : same_places b c -> (forall x, steady_with g c (k x)) ->
  steady_with g b (bind (put_bg g c) k).
Proof.
  intros Hs Hk s r s' d Hi Hd H1 H2 H Ho. pose proof (same_places_trans _ _ _ H2 Hs) as Hdc.
  assert (same_places c c) as Hcc by apply same_places_refl.
  apply bind_inv in H as [(x & s1 & E & H)|(E & _)]; apply put_bg_inv in E as (-> & Hg);
    pose proof (orderly_group s _ d c Ho Hd (proj1 Hdc) (proj1 (proj2 Hdc)) (proj2 (proj2 Hdc))) as Ho1.
  - assert (bgs (set_bgs s (<[Z.to_nat g := c]> (bgs s))) !! Z.to_nat g = Some c) as Hl
      by (apply list_lookup_insert_eq; unfold zlen in Hg; lia).
    exact (Hk x (set_bgs s (<[Z.to_nat g := c]> (bgs s))) r s' c Hi Hl Hcc Hcc H Ho1).
  - split; [exact Ho1|repeat split].
Qed.

Lemma with_last_put g b c : same_places b c -> steady_with g b (put_bg g c).
Proof.
  intros Hs s r s' d Hi Hd H1 H2 H Ho. pose proof (same_places_trans _ _ _ H2 Hs) as (A & B & C).
  apply put_bg_inv in H as (-> & _). split; [exact (orderly_group s _ d c Ho Hd A B C)|repeat split].
Qed.


(** The bitmaps keep their size. *)
Lemma bit_loop_len fuel : forall al n k b bm r, bit_loop fuel al n k b bm = Ok r -> zlen (snd r) = zlen bm.
Proof.
  induction fuel as [|fuel IH]; intros al n k b bm r; cbn [bit_loop]; [discriminate|].
  destruct (_ && _); [|intros [= <-]; reflexivity]. unfold bitmap_set_bit.
  destruct (bm !! Z.to_nat (b / 8)) as [v|]; cbn [oof obind]; [|discriminate].
  destruct (negb _); cbn [obind]; [intros [= <-]; reflexivity|]. cbn [negb Z.eqb].
  intros H. rewrite (IH _ _ _ _ _ _ H). unfold zlen. rewrite length_insert. reflexivity.
Qed.

Lemma byte_loop_len fuel : forall n k b bm r, byte_loop fuel n k b bm = Ok r -> zlen (snd r) = zlen bm.
Proof.
  induction fuel as [|fuel IH]; intros n k b bm r; cbn [byte_loop]; [discriminate|].
  destruct (_ <=? _); [|intros [= <-]; reflexivity]. unfold bitmap_set_8_bits.
  destruct (bm !! Z.to_nat (b / 8)) as [v|]; cbn [oof obind]; [|discriminate].
  destruct (negb _); [intros [= <-]; unfold zlen; cbn; rewrite length_insert; reflexivity|].
  intros H. rewrite (IH _ _ _ _ _ H). unfold zlen. rewrite length_insert. reflexivity.
Qed.

Lemma mark_blocks_len st n bm ok bm' : mark_blocks st n bm = Ok (ok, bm') -> zlen bm' = zlen bm.
Proof.
  unfold mark_blocks. destruct (bit_loop _ true n 0 st bm) as [[[[o1 k1] b1] m1]| | |] eqn:E1; cbn [obind]; try discriminate.
  apply bit_loop_len in E1. cbn in E1. destruct (negb o1); [intros [= _ <-]; exact E1|].
  destruct (byte_loop _ n k1 b1 m1) as [[[[o2 k2] b2] m2]| | |] eqn:E2; cbn [obind]; try discriminate.
  apply byte_loop_len in E2. cbn in E2. destruct (negb o2); [intros [= _ <-]; congruence|].
  destruct (bit_loop _ false n k2 b2 m2) as [[[[o3 k3] b3] m3]| | |] eqn:E3; cbn [obind]; try discriminate.
  apply bit_loop_len in E3. cbn in E3. intros [= _ <-]. congruence.
Qed.

Lemma clear_loop_len n : forall b bm bm', clear_loop n b bm = Ok bm' -> zlen bm' = zlen bm.
Proof.
  induction n as [|n IH]; intros b bm bm'; cbn [clear_loop]; [intros [= <-]; reflexivity|].
  destruct (bm !! _); cbn [oof obind]; [|discriminate]. intros H. rewrite (IH _ _ _ H). unfold zlen. rewrite length_insert. reflexivity.
Qed.

Lemma set_inode_bits_len n : forall off k bm bm', set_inode_bits n off k bm = Ok bm' -> zlen bm' = zlen bm.
Proof.
  induction n as [|n IH]; intros off k bm bm'; cbn [set_inode_bits]; [intros [= <-]; reflexivity|].
  destruct (bm !! _); cbn [oof obind]; [|discriminate]. intros H. rewrite (IH _ _ _ _ H). unfold zlen. rewrite length_insert. reflexivity.
Qed.

Lemma fun_value {A} (x : outcome A) (s s1 : fs) y : (let! r := x in Ok (Some r, s)) = Ok (Some y, s1) -> x = Ok y.
Proof. destruct x; cbn; intros H; try discriminate. injection H as <- _. reflexivity. Qed.

Lemma steady_reserve_blocks g st n : steady (reserve_blocks g st n).
Proof.
  unfold reserve_blocks. apply steady_get_bg. intros b. destruct (_ <? _); [apply with_steady; steady|].
  apply with_pure; [apply pure_fun|]. intros s [ok bm] s1 E. apply fun_value, mark_blocks_len in E.
  assert (same_places b (set_bitmaps b bm)) as Hs by (split; [reflexivity|split; [cbn; lia|reflexivity]]).
  apply with_put_bg; [exact Hs|]. intros _. destruct (negb ok); [apply with_steady; steady|].
  apply with_put_bg; [split; [reflexivity|split; [cbn; lia|reflexivity]]|]. intros _. apply with_steady. steady.
Qed.

Lemma steady_free_blocks_of g n : steady (free_blocks_of g n).
Proof.
  unfold free_blocks_of. apply steady_get_bg. intros b. apply with_pure; [apply pure_fun|].
  intros s bm s1 E. apply fun_value, clear_loop_len in E. apply with_last_put. split; [reflexivity|split; [cbn; lia|reflexivity]].
Qed.

Lemma steady_reserve_inodes g n : steady (reserve_inodes g n).
Proof.
  unfold reserve_inodes. apply steady_bind; [auto with steady nocore|]. intros m. destruct (_ <? _); [steady|].
  apply steady_get. intros s0 _. apply steady_get_bg. intros b. apply with_pure; [apply pure_fun|].
  intros s bm s1 E. apply fun_value, set_inode_bits_len in E.
  apply with_put_bg; [split; [reflexivity|split; [cbn; lia|reflexivity]]|]. intros _. apply with_steady. steady.
Qed.

Lemma steady_add_directory n : steady (add_directory n).
Proof.
  unfold add_directory. apply steady_get. intros s _. destruct (_ =? 0); [steady|]. cbv zeta. apply steady_get_bg. intros b.
  apply with_last_put. split; [reflexivity|split; [cbn; lia|reflexivity]].
Qed.
#[local] Hint Resolve steady_reserve_blocks steady_free_blocks_of steady_reserve_inodes steady_add_directory : steady.

Lemma steady_from_group n g : steady (ext4_allocate_blocks_from_block_group n g).
Proof.
  unfold ext4_allocate_blocks_from_block_group. apply steady_bind; [auto with steady nocore|]. intros m. destruct (_ <? _); [steady|].
  apply steady_bind; [auto with steady nocore|]. intros b. cbv zeta. apply steady_bind; [auto with steady nocore|]. intros r.
  destruct (_ <? _); [steady|]. apply steady_get_bg. intros c.
  apply with_put_bg; [split; [reflexivity|split; [cbn; lia|reflexivity]]|]. intros _. apply with_steady. steady.
Qed.
#[local] Hint Resolve steady_from_group : steady.

(** ** Allocation *)

Lemma steady_contiguous ids : forall n, steady (contiguous_loop ids n).
Proof. induction ids as [|g ids IH]; intros n; cbn [contiguous_loop]; steady; apply IH. Qed.
#[local] Hint Resolve steady_contiguous : steady.
Lemma steady_partial ids : forall n, steady (partial_loop ids n).
Proof. induction ids as [|g ids IH]; intros n; cbn [partial_loop]; unfold ext4_allocate_contiguous_blocks; steady; apply IH. Qed.
#[local] Hint Resolve steady_partial : steady.
Lemma steady_multiple fuel : forall p q n, steady (multiple_loop fuel p q n).
Proof. induction fuel as [|fuel IH]; intros p q n; cbn [multiple_loop]; unfold ext4_allocate_partial; steady; apply IH. Qed.
#[local] Hint Resolve steady_multiple : steady.
Lemma steady_do_allocate n : steady (do_allocate n).
Proof. unfold do_allocate, ext4_allocate_contiguous_blocks, ext4_allocate_multiple_contiguous_blocks. steady. Qed.
#[local] Hint Resolve steady_do_allocate : steady.
Lemma steady_allocate_blocks n : steady (allocate_blocks n).
Proof. unfold allocate_blocks, create_allocation. steady. Qed.
Lemma steady_reduce_loop fuel : forall l n, steady (reduce_loop fuel l n).
Proof. induction fuel as [|fuel IH]; intros l n; cbn [reduce_loop]; steady; apply IH. Qed.
#[local] Hint Resolve steady_allocate_blocks steady_reduce_loop : steady.
Lemma steady_reduce a n : steady (reduce_allocation a n).
Proof. unfold reduce_allocation. steady. Qed.
Lemma steady_inode_loop ids : steady (allocate_inode_loop ids).
Proof. induction ids as [|g ids IH]; cbn [allocate_inode_loop]; steady; apply IH. Qed.
Lemma steady_append_oob a n : steady (append_oob_allocation a n).
Proof. unfold append_oob_allocation. steady. Qed.
#[local] Hint Resolve steady_reduce steady_inode_loop steady_append_oob : steady.
Lemma steady_allocate_inode : steady allocate_inode.
Proof. unfold allocate_inode. steady. Qed.
#[local] Hint Resolve steady_allocate_inode : steady.


(** ** Inode tables and bitmaps *)

Lemma sparse_add_inv d n b s r s' : sparse_add_data d n b s = Ok (r, s') -> exists f, s' = set_sparse (bump s) f.
Proof.
  unfold sparse_add_data, bind, malloc. destruct (SparseFile.sparse_file_add_data _ _ _ _ _) as [[c f]| | |]; cbn; try discriminate.
  intros [= _ <-]. eauto.
Qed.

Lemma orderly_advance n s : orderly s -> orderly (advance n s).
Proof. intros Ho. apply (orderly_same s); auto; [cbn; lia|exact (od_queue _ Ho)]. Qed.

Lemma calloc_of_inv n s r s' : calloc_of n s = Ok (r, s') -> (r = Some (Some (fresh s)) /\ s' = advance n s) \/ (r = Some None /\ s' = bump s).
Proof. unfold calloc_of. destruct (avail s (fresh s)); intros [= <- <-]; auto. Qed.

(** The table of a group that has none. *)
Lemma orderly_table s s' (g : nat) b c : orderly s -> bgs s !! g = Some b -> inode_table b = None -> info s' = info s ->
  aux_info s' = aux_info s -> bgs s' = <[g := c]> (bgs s) -> mem s' = mem s -> sparse_file s' = sparse_file s ->
  bitmaps_ptr c = bitmaps_ptr b -> bitmaps c = bitmaps b ->
  (inode_table c = None \/ inode_table c = Some (fresh s)) -> fresh s <= fresh s' ->
  fresh s + inode_table_blocks (aux_info s) * block_size (info s) <= fresh s' \/ inode_table c = None -> orderly s'.
Proof.
  intros Ho Hb Ht Ei Ea Eb Em Es Ep Ebm Hc Hf Hn. pose proof (lookup_lt_Some _ _ _ Hb) as Hlt.
  apply (orderly_step (P_table g) s s' Ho Ei Hf); [|unfold queued; rewrite Es; exact (od_queue _ Ho)].
  intros p a n H. unfold area in *. rewrite Ei, Ea, Eb, Em in H. destruct p as [a'|h|h].
  - left. exists n. split; [exact H|lia].
  - left. exists n. split; [|lia]. destruct (decide (g = h)) as [<-|Hne];
      [rewrite list_lookup_insert_eq in H by exact Hlt; rewrite Hb, <- Ep, <- Ebm; exact H|
       rewrite list_lookup_insert_ne in H by exact Hne; exact H].
  - destruct (decide (g = h)) as [<-|Hne].
    + rewrite list_lookup_insert_eq in H by exact Hlt. destruct Hc as [Hc|Hc]; rewrite Hc in H; [discriminate|].
      injection H as <- <-. right. split; [reflexivity|]. destruct Hn as [Hn|Hn]; [lia|congruence].
    + rewrite list_lookup_insert_ne in H by exact Hne. left. exists n. split; [exact H|lia].
Qed.

Lemma steady_table g : steady (allocate_bg_inode_table g).
Proof.
  intros s r s' Hi H Ho. unfold allocate_bg_inode_table in H.
  apply bind_inv in H as [(b & s1 & E & H)|(E & _)]; apply get_bg_inv in E as (-> & b' & Eb & Hb); [|discriminate].
  injection Eb as <-. destruct (inode_table b) as [t|] eqn:Et; [injection H as _ <-; split; [exact Ho|apply frame_refl]|].
  unfold bind at 1, get_state in H. apply bind_inv in H as [(p & s1 & E & H)|(E & _)];
    apply calloc_of_inv in E as [(Ep & ->)|(Ep & ->)]; try discriminate; injection Ep as ->.
  - set (n := inode_table_blocks (aux_info s) * block_size (info s)) in *.
    assert (orderly (set_bgs (advance n s) (<[Z.to_nat g := set_inode_table b (Some (fresh s))]> (bgs s)))) as Ho1.
    { apply (orderly_table s _ (Z.to_nat g) b (set_inode_table b (Some (fresh s)))); auto; cbn; try lia. }
    apply bind_inv in H as [(x & s1 & E & H)|(E & _)]; apply put_bg_inv in E as (-> & _).
    + assert (whole n) as Hn by (unfold n; destruct Hi as (-> & ->); exact whole_table).
      exact (steady_add_u32 _ n _ Hn (set_bgs (advance n s) _) _ _ Hi H Ho1).
    + split; [exact Ho1|repeat split].
  - assert (orderly (set_bgs (bump s) (<[Z.to_nat g := set_inode_table b None]> (bgs s)))) as Ho1.
    { apply (orderly_table s _ (Z.to_nat g) b (set_inode_table b None)); auto; cbn; lia. }
    apply bind_inv in H as [(x & s1 & E & H)|(E & _)]; apply put_bg_inv in E as (-> & _).
    + injection H as _ <-. split; [exact Ho1|repeat split].
    + split; [exact Ho1|repeat split].
Qed.
#[local] Hint Resolve steady_table : steady.

Lemma steady_get_inode n : steady (get_inode n).
Proof. unfold get_inode. steady. Qed.
#[local] Hint Resolve steady_get_inode : steady.

(** A group that is set up. *)
Lemma orderly_init s s' (g : nat) c : orderly s -> (g < length (bgs s))%nat -> info s' = info s -> aux_info s' = aux_info s ->
  bgs s' = <[g := c]> (bgs s) -> mem s' = mem s -> inode_table c = None -> bitmaps_ptr c = fresh s ->
  fresh s + zlen (bitmaps c) <= fresh s' -> Forall whole_data (queued s') -> orderly s'.
Proof.
  intros Ho Hlt Ei Ea Eb Em Ht Hp Hf Hq. pose proof (zlen_nonneg (bitmaps c)).
  apply (orderly_step (P_bitmaps g) s s' Ho Ei ltac:(lia)); [|exact Hq]. intros p a n H0. unfold area in *. rewrite Ei, Ea, Eb, Em in H0.
  destruct p as [a'|h|h]; [left; exists n; split; [exact H0|lia]|..];
    (destruct (decide (g = h)) as [<-|Hne]; [rewrite list_lookup_insert_eq in H0 by exact Hlt|
      rewrite list_lookup_insert_ne in H0 by exact Hne; left; exists n; split; [exact H0|lia]]).
  - injection H0 as <- <-. right. split; [reflexivity|lia].
  - rewrite Ht in H0. discriminate.
Qed.

Lemma steady_init_bg g : steady (init_bg g).
Proof.
  unfold init_bg. apply steady_get. intros s0 Hi0. apply steady_bind; [apply steady_pure, pure_fun|]. intros super. cbv zeta.
  set (sb := if super then _ else 0). set (n := 2 * block_size (info s0)).
  intros s r s' Hi H Ho. apply bind_inv in H as [(p & s1 & E & H)|(E & _)];
    apply calloc_of_inv in E as [(Ep & ->)|(Ep & ->)]; try discriminate; injection Ep as ->; [|discriminate].
  assert (whole n) as Hn by (unfold n; rewrite (proj1 Hi0); exact whole_bitmaps).
  apply bind_inv in H as [(x & s1 & E & H)|(E & _)].
  2:{ exact (steady_add_u32 _ n _ Hn (advance n s) _ _ Hi E (orderly_advance n s Ho)). }
  destruct (steady_add_u32 _ n _ Hn (advance n s) _ _ Hi E (orderly_advance n s Ho)) as (Ho1 & F1).
  apply sparse_add_inv in E as (f & ->). destruct F1 as (_ & _ & F1 & F2).
  match type of H with bind (put_bg g ?c) _ _ = _ => set (c0 := c) in H end.
  assert (0 <= g < zlen (bgs s) -> orderly (set_bgs (set_sparse (bump (advance n s)) f) (<[Z.to_nat g := c0]> (bgs s)))) as Ho2.
  { intros Hg. apply (orderly_init s _ (Z.to_nat g) c0); auto; [unfold zlen in Hg; lia| |exact (od_queue _ Ho1)].
    cbn. fold n. unfold zlen, zeros. rewrite length_replicate. lia. }
  apply bind_inv in H as [(x' & s1 & E & H)|(E & _)]; apply put_bg_inv in E as (-> & Hg); specialize (Ho2 Hg).
  2:{ split; [exact Ho2|]. repeat split; assumption. }
  match type of H with ?m _ = _ => assert (steady m) as Hs by steady end.
  destruct (Hs (set_bgs (set_sparse (bump (advance n s)) f) (<[Z.to_nat g := c0]> (bgs s))) _ _ Hi H Ho2) as (Ho3 & F3). split; [exact Ho3|].
  apply (frame_trans _ (set_bgs (set_sparse (bump (advance n s)) f) (<[Z.to_nat g := c0]> (bgs s)))); [repeat split; assumption|exact F3].
Qed.

Lemma steady_init_loop ids : steady (init_loop ids).
Proof. induction ids as [|g ids IH]; cbn [init_loop]; [steady|]. apply steady_bind; [apply steady_init_bg|]. intros _. exact IH. Qed.


(** ** Files *)

Lemma u32_part k n : whole n -> whole (u32 (Z.min (u32 (k * block_size inf)) n)) /\
  whole (u64 (n - u32 (Z.min (u32 (k * block_size inf)) n))).
Proof.
  intros Hn. assert (block_size inf | u32 (k * block_size inf)) as Hd.
  { unfold u32. rewrite Z.mod_eq by lia. apply Z.divide_sub_r; [apply Z.divide_factor_r|]. apply Z.divide_mul_l. exact whole_size. }
  pose proof (u32_range (k * block_size inf)) as Hr. destruct (whole_part _ n (proj1 Hr) Hd Hn) as (H1 & H2).
  rewrite (u32_id (Z.min _ _)) by (destruct Hn as (_ & H3); lia). split; [exact H1|apply whole_u64, H2].
Qed.

Lemma steady_backing_loop fuel : forall a p n, whole n -> steady (backing_loop fuel a p n).
Proof.
  induction fuel as [|fuel IH]; intros a p n Hn; cbn [backing_loop]; [steady|]. destruct (0 <? n); [|steady].
  apply steady_get. intros s0 (Es & _). apply steady_bind; [auto with steady nocore|]. intros [rb rl]. cbv zeta. rewrite Es.
  destruct (u32_part rl n Hn) as (H1 & H2).
  apply steady_bind; [exact (steady_sparse_add_data _ _ _ H1)|]. intros _.
  apply steady_bind; [auto with steady nocore|]. intros al. apply IH. exact H2.
Qed.

Lemma steady_create_backing a n : whole n -> steady (extent_create_backing a n).
Proof.
  intros Hn. unfold extent_create_backing. apply steady_bind; [auto with steady nocore|].
  intros [d|]; [|steady]. apply steady_get. intros s0 _. apply steady_bind; [apply steady_backing_loop; assumption|]. steady.
Qed.

(** The leaf of a tree is written to the buffer it has. *)
Lemma steady_write_leaf bs eb (nr : Z) alloc {B} (f : B) (k : block_allocation -> M B) : bs = block_size inf -> (forall a, steady (k a)) ->
  steady (let* p := calloc bs in
    match p with
    | None => critical_error
    | Some data =>
        let* _ := sparse_add_data data bs eb in
        if s32 (u32 (bs - sizeof_extent / sizeof_extent)) <? nr then let* _ := error in ret f
        else
          let* d := lift (splice (zeros bs) 0 (header_bytes (mk_eh EXT4_EXT_MAGIC (u16 nr) (u16 (u32 (bs - sizeof_extent) / sizeof_extent)) 0 0))) in
          let* s1 := get_state in
          let* (alloc, d) := extents_loop (list_fuel s1) alloc 0 sizeof_extent d in
          let* _ := put_mem data d in k alloc
    end).
Proof.
  intros -> Hk s r s' Hi H Ho. set (bs := block_size inf) in *.
  apply bind_inv in H as [(p & s1 & E & H)|(E & _)]; destruct (steady_calloc bs s _ _ Hi E Ho) as (Ho1 & F1); [|auto].
  unfold calloc in E. destruct (avail s (fresh s)); injection E as Ep Es; [|subst p s1; injection H as _ <-; auto]. subst p.
  assert (mem s1 !! fresh s = Some (zeros bs)) as Hm by (rewrite <- Es; apply lookup_insert_eq). clear Es.
  pose proof (made_frame _ _ Hi F1) as Hi1.
  apply bind_inv in H as [(x & s2 & E & H)|(E & _)];
    destruct (steady_sparse_add_data _ bs _ whole_block s1 _ _ Hi1 E Ho1) as (Ho2 & F2);
    pose proof (frame_trans _ _ _ F1 F2) as F; [|auto].
  apply sparse_add_inv in E as (g & Es2). assert (mem s2 !! fresh s = Some (zeros bs)) as Hm2 by (rewrite Es2; exact Hm). clear Es2.
  pose proof (made_frame _ _ Hi F) as Hi2.
  assert (forall A (m : M A) (q : option A) t, steady m -> m s2 = Ok (q, t) -> orderly t /\ frame s t) as Hfin.
  { intros A m q t Hm' E. destruct (Hm' s2 q t Hi2 E Ho2) as (H1 & H2). split; [exact H1|exact (frame_trans _ _ _ F H2)]. }
  destruct (_ <? nr); [refine (Hfin _ _ _ _ _ H); steady|].
  apply bind_inv in H as [(d & s3 & E & H)|(E & _)]; [|rewrite (pure_lift _ _ _ _ E); auto].
  rewrite (pure_lift _ _ _ _ E) in H. apply fun_value in E. apply splice_len in E. unfold bind at 1, get_state in H.
  apply bind_inv in H as [([al d'] & s4 & E' & H)|(E' & _)]; [|rewrite (pure_extents_loop _ _ _ _ _ _ _ _ E'); auto].
  rewrite (pure_extents_loop _ _ _ _ _ _ _ _ E') in *. apply extents_loop_len in E'. unfold bind, put_mem in H.
  assert (orderly (set_mem s2 (fresh s) d')) as Ho3 by (apply (orderly_put s2 (fresh s) (zeros bs)); [exact Ho2|exact Hm2|lia]).
  destruct (Hk al (set_mem s2 (fresh s) d') r s' Hi2 H Ho3) as (H1 & H2). split; [exact H1|]. exact (frame_trans s s2 s' F H2).
Qed.

Lemma steady_write_tree bs inode len bl nr a eb : bs = block_size inf -> steady (write_tree bs inode len bl nr a eb).
Proof.
  intros Hbs. unfold write_tree. cbv zeta. destruct (eb =? 0); [steady|]. apply steady_bind; [auto with steady nocore|]. intros b.
  apply (steady_write_leaf bs eb nr a (None, set_iblock inode b) (fun al => ret _) Hbs). steady.
Qed.

Lemma steady_tree_block a n : steady (tree_block a n).
Proof. unfold tree_block. steady. Qed.
#[local] Hint Resolve steady_tree_block : steady.

Lemma steady_do_extents inode n : steady (do_inode_allocate_extents inode n).
Proof.
  unfold do_inode_allocate_extents. apply steady_get. intros s0 Es. destruct (_ =? 0); [steady|]. cbv zeta.
  apply steady_bind; [auto with steady nocore|]. intros [al|]; [|steady]. apply steady_bind; [auto with steady nocore|]. intros m.
  apply steady_bind; [auto with steady nocore|]. intros [al' eb]. apply steady_write_tree. rewrite (proj1 Es). reflexivity.
Qed.

Lemma steady_data_extents inode n bl : whole bl -> steady (inode_allocate_data_extents inode n bl).
Proof.
  intros Hn. unfold inode_allocate_data_extents. apply steady_bind; [apply steady_do_extents|]. intros [[al|] ino]; [|steady].
  apply steady_bind; [|steady]. destruct (negb _); [|steady]. apply steady_bind; [apply steady_create_backing; exact Hn|]. steady.
Qed.


(** ** The resize inode *)

Lemma steady_resize_inner ids : forall a rs per d r, steady (resize_inner ids a rs per d r).
Proof. induction ids as [|k ids IH]; intros a rs per d r; cbn [resize_inner]; steady; apply IH. Qed.
#[local] Hint Resolve steady_resize_inner : steady.
Lemma steady_resize_outer ids : forall a sp bgd rs per p d, steady (resize_outer ids a sp bgd rs per p d).
Proof. induction ids as [|k ids IH]; intros a sp bgd rs per p d; cbn [resize_outer]; steady; apply IH. Qed.
#[local] Hint Resolve steady_resize_outer : steady.

Lemma steady_add_block s d b : made s -> steady (sparse_add_data d (block_size (info s)) b).
Proof. intros (-> & _). exact (steady_sparse_add_data _ _ _ whole_block). Qed.
#[local] Hint Resolve steady_add_block : steady.

Lemma steady_attach_resize inode a : steady (inode_attach_resize inode a).
Proof.
  unfold inode_attach_resize. apply steady_get. intros s0 (Es & _). cbv zeta. rewrite Es.
  pose proof (fun d b => steady_sparse_add_data d _ b whole_block). pose proof (fun d b => steady_add_u32 d _ b whole_reserve).
  steady; auto.
Qed.


(** ** Directories *)

Lemma add_dentry_len bs b o p n name t b' o' x : add_dentry bs b o p n name t = Ok (Some (b', o', x)) -> zlen b' = zlen b.
Proof.
  unfold add_dentry. cbv zeta. destruct (negb _).
  - destruct p as [p|]; [|discriminate]. unfold extend_rec_len. destruct (splice b _ _) as [b1| | |] eqn:E1; cbn [obind]; try discriminate.
    destruct (splice b1 _ _) as [b2| | |] eqn:E2; cbn [obind]; try discriminate. intros [= <- _ _]. apply splice_len in E1, E2. congruence.
  - destruct (splice b _ _) as [b1| | |] eqn:E1; cbn [obind]; try discriminate. intros [= <- _ _]. exact (splice_len _ _ _ _ E1).
Qed.

Lemma add_dentries_len bs len ds : forall b o p b' o' x, add_dentries bs len b o p ds = Ok (Some (b', o', x)) -> zlen b' = zlen b.
Proof.
  induction ds as [|d ds IH]; intros b o p b' o' x; cbn [add_dentries]; [intros [= <- _ _]; reflexivity|].
  destruct (add_dentry bs b o (Some p) 0 _ _) as [[[[b1 o1] p1]|]| | |] eqn:E1; cbn [obind]; try discriminate.
  destruct (_ || _); [discriminate|].
  destruct (add_dentries bs len b1 o1 p1 ds) as [[[[b2 o2] l2]|]| | |] eqn:E2; cbn [obind]; try discriminate.
  intros [= <- _ _]. rewrite (IH _ _ _ _ _ _ E2). exact (add_dentry_len _ _ _ _ _ _ _ _ _ _ E1).
Qed.

Lemma dir_contents_len bs len n p ds b b' x : dir_contents bs len b n p ds = Ok (Some (b', x)) -> zlen b' = zlen b.
Proof.
  unfold dir_contents. destruct (add_dentry bs b 0 None _ _ _) as [[[[b1 o1] p1]|]| | |] eqn:E1; cbn [obind]; try discriminate.
  destruct (add_dentry bs b1 o1 _ _ _ _) as [[[[b2 o2] p2]|]| | |] eqn:E2; cbn [obind]; try discriminate.
  destruct (add_dentries bs len b2 o2 p2 ds) as [[[[b3 o3] p3]|]| | |] eqn:E3; cbn [obind]; try discriminate.
  destruct (splice b3 _ _) as [b4| | |] eqn:E4; cbn [obind]; try discriminate. intros [= <- _].
  apply add_dentry_len in E1, E2. apply add_dentries_len in E3. apply splice_len in E4. congruence.
Qed.

Lemma steady_directory_at bs len pn n ds dirs : whole len -> steady (make_directory_at bs len pn n ds dirs).
Proof.
  intros Hn. unfold make_directory_at. apply steady_get. intros s0 Es.
  apply steady_bind; [auto with steady nocore|]. intros _. apply steady_bind; [apply steady_get_inode|]. intros p.
  apply steady_bind; [auto with steady nocore|]. intros ino. apply steady_bind; [apply steady_data_extents; exact Hn|]. intros [d ino'].
  apply steady_bind; [auto with steady nocore|]. intros _. destruct d as [d|]; [|steady].
  apply steady_bind; [auto with steady nocore|]. intros _.
  apply (steady_rewrite d (fun b => dir_contents bs len b n pn ds) (fun places => ret (n, map (fun o => (d, o)) places)));
    [|steady]. intros b b' x. apply dir_contents_len.
Qed.

Lemma steady_make_directory pn ds dirs : whole (u32 (div_round_up32 (dentry_size (block_size inf) ds) (block_size inf) * block_size inf)) -> steady (make_directory pn ds dirs).
Proof.
  intros Hn. unfold make_directory. apply steady_get. intros s0 Es. cbv zeta. destruct (_ =? 0); [steady|].
  apply steady_bind; [steady|]. intros [a n]. destruct (n =? _); [steady|]. apply steady_directory_at. rewrite (proj1 Es).
  exact Hn.
Qed.

Lemma steady_permissions n m u g t : steady (inode_set_permissions n m u g t).
Proof. unfold inode_set_permissions. steady. Qed.
#[local] Hint Resolve steady_permissions steady_attach_resize : steady.

Lemma steady_default_tree : steady build_default_directory_structure.
Proof.
  unfold build_default_directory_structure. apply steady_bind; [exact (steady_make_directory _ _ _ whole_dir1)|]. intros [ri pl].
  apply steady_bind; [exact (steady_make_directory _ _ _ whole_dir2)|]. steady.
Qed.
#[local] Hint Resolve steady_default_tree : steady.

(** ** The super block, the journal, the counts *)

Lemma steady_make_backup a g b : steady (make_backup a g b).
Proof. unfold make_backup. steady. Qed.
#[local] Hint Resolve steady_make_backup : steady.

Lemma steady_fill_group a g : steady (fill_group a g).
Proof.
  unfold fill_group. apply steady_get. intros s0 Es.
  assert (forall d b, steady (sparse_add_data d (u32 (bg_desc_blocks (aux_info s0) * block_size (info s0))) b)) as Hadd.
  { intros d b. apply steady_add_u32. destruct Es as (-> & ->). exact whole_descs. }
  steady; apply Hadd.
Qed.
#[local] Hint Resolve steady_fill_group : steady.

Lemma steady_fill_groups ids : forall a, steady (fill_groups ids a).
Proof. induction ids as [|g ids IH]; intros a; cbn [fill_groups]; [steady|]. apply steady_bind; [auto with steady nocore|]. intros b. apply IH. Qed.
#[local] Hint Resolve steady_fill_groups : steady.

Lemma steady_fill_in_sb st a : steady (ext4_fill_in_sb st a).
Proof. unfold ext4_fill_in_sb. steady. Qed.

Lemma steady_reserve_regions ids : forall a, steady (reserve_regions ids a).
Proof. induction ids as [|g ids IH]; intros a; cbn [reserve_regions]; steady; apply IH. Qed.
#[local] Hint Resolve steady_reserve_regions : steady.

Lemma steady_resize : steady ext4_create_resize_inode.
Proof. unfold ext4_create_resize_inode, create_allocation. steady. Qed.

Lemma steady_journal a : steady (ext4_create_journal_inode a).
Proof.
  unfold ext4_create_journal_inode. apply steady_bind; [auto with steady nocore|]. intros p.
  apply steady_get. intros s0 Es. cbv zeta. apply steady_bind; [auto with steady nocore|]. intros ino.
  apply steady_bind; [apply steady_data_extents; rewrite (proj1 Es); exact (whole_u32 _ whole_journal)|]. steady.
Qed.

Lemma steady_update_loop ids : forall a, steady (Ext4Super.update_loop ids a).
Proof. induction ids as [|g ids IH]; intros a; cbn [Ext4Super.update_loop]; steady; apply IH. Qed.
#[local] Hint Resolve steady_fill_in_sb steady_resize steady_journal steady_update_loop : steady.

Lemma steady_update_free a : steady (ext4_update_free a).
Proof. unfold ext4_update_free. steady. Qed.

Lemma steady_queue_sb a : 1024 < block_size inf -> steady (ext4_queue_sb a).
Proof.
  intros Hb. unfold ext4_queue_sb. apply steady_get. intros s0 Es. cbv zeta. rewrite (proj1 Es), (proj2 (Z.ltb_lt 1024 _) Hb).
  pose proof (fun d b => steady_sparse_add_data d _ b whole_block). steady; auto.
Qed.


(** ** The whole computation *)

Lemma steady_allocator_init : steady block_allocator_init.
Proof.
  unfold block_allocator_init. apply steady_get. intros s0 _. apply steady_bind; [auto with steady nocore|]. intros [p|]; [|steady].
  intros s r s' Hi H Ho. unfold bind at 1, get_state in H. unfold bind at 1, put_state in H.
  set (s1 := set_bgs s (replicate (Z.to_nat (groups (aux_info s0))) zero_bg)) in *.
  assert (orderly s1) as Ho1.
  { destruct Ho as [O1 O3 O4 O5].
    assert (forall p a n, area s1 p = Some (a, n) -> area s p = Some (a, n) \/ a = 0 /\ n = 0) as Hp.
    { intros q a n Hq. destruct q as [c|g|g]; [left; exact Hq|right|]; cbn in Hq;
        destruct (replicate (Z.to_nat (groups (aux_info s0))) zero_bg !! g) as [b|] eqn:Eb; try discriminate;
        apply lookup_replicate in Eb as (-> & _); cbn in Hq; [|discriminate]. injection Hq as <- <-. auto. }
    split; auto.
    - intros q a n Hq. destruct (Hp q a n Hq) as [Hq'|(-> & ->)]; [exact (O3 q a n Hq')|cbn; lia].
    - intros q q' a n b m Hne Hq Hq'. destruct (Hp q a n Hq) as [H1|(-> & ->)], (Hp q' b m Hq') as [H2|(-> & ->)].
      + exact (O4 q q' a n b m Hne H1 H2).
      + destruct (O3 q a n H1). lia.
      + destruct (O3 q' b m H2). lia.
      + lia. }
  destruct (steady_init_loop _ s1 r s' Hi H Ho1) as (H1 & F). split; [exact H1|]. exact F.
Qed.

Lemma steady_fill_image {host : host_tree} st depth rq a : 1024 < block_size inf -> rq_directory rq = None -> rq_init_itabs rq = false ->
  steady (fill_image st depth rq a).
Proof.
  intros Hb Hd Hi. unfold fill_image, build_tree. rewrite Hd, Hi.
  apply steady_bind; [apply steady_allocator_init|]. intros _. apply steady_bind; [auto with steady nocore|]. intros q.
  apply steady_bind; [auto with steady nocore|]. intros r. apply steady_bind; [steady|]. intros _.
  apply steady_get. intros s0 _. apply steady_bind; [steady|]. intros _. apply steady_bind; [steady|]. intros _.
  apply steady_bind; [auto with steady nocore|]. intros n. apply steady_bind; [auto with steady nocore|]. intros _.
  apply steady_bind; [apply steady_update_free|]. intros _. apply steady_bind; [steady|]. intros _.
  apply steady_bind; [apply steady_queue_sb; exact Hb|]. steady.
Qed.

(** The buffers of a state before an image is made. *)
Record tidy (s : fs) : Prop := {
  td_fresh : 0 <= fresh s;
  td_bgs : bgs s = [];
  td_end : forall a b, mem s !! a = Some b -> 0 <= a /\ a + zlen b <= fresh s;
  td_apart : forall a b a' b', a < a' -> mem s !! a = Some b -> mem s !! a' = Some b' -> a + zlen b <= a'
}.

Lemma orderly_tidy s : tidy s -> queued s = [] -> orderly s.
Proof.
  intros [T1 T2 T3 T4] Hq.
  assert (forall p a n, area s p = Some (a, n) -> p = P_buffer a /\ exists b, mem s !! a = Some b /\ n = zlen b) as Hp.
  { intros p a n H. unfold area in H. rewrite T2 in H. destruct p as [c|g|g]; [|discriminate..].
    destruct (mem s !! c) as [b|] eqn:E; [|discriminate]. injection H as <- <-. eauto. }
  split; auto; [| |rewrite Hq; constructor].
  - intros p a n H. destruct (Hp p a n H) as (_ & b & E & ->). exact (T3 a b E).
  - intros p q a n b m Hne H1 H2. destruct (Hp p a n H1) as (-> & x & Ex & ->), (Hp q b m H2) as (-> & y & Ey & ->).
    destruct (Z.lt_trichotomy a b) as [H|[->|H]]; [left; exact (T4 _ _ _ _ H Ex Ey)|congruence|right; exact (T4 _ _ _ _ H Ey Ex)].
Qed.

(** A tidy state with new buffers behind the others. *)
Lemma tidy_buffer s n : tidy s -> tidy (set_mem (set_fresh s (fresh s + Z.max 1 n)) (fresh s) (zeros n)).
Proof.
  intros [T1 T2 T3 T4]. assert (zlen (zeros n) <= Z.max 1 n) as Hz by (unfold zlen, zeros; rewrite length_replicate; lia).
  split; cbn; [lia|exact T2| |].
  - intros a b H. destruct (decide (fresh s = a)) as [<-|Hne].
    + rewrite lookup_insert_eq in H. injection H as <-. lia.
    + rewrite lookup_insert_ne in H by exact Hne. destruct (T3 a b H). lia.
  - intros a b a' b' Hlt H H'. destruct (decide (fresh s = a')) as [<-|Hne'].
    + rewrite lookup_insert_ne in H by lia. destruct (T3 a b H). lia.
    + rewrite lookup_insert_ne in H' by exact Hne'. destruct (T3 a' b' H') as (_ & H2). pose proof (zlen_nonneg b').
      rewrite lookup_insert_ne in H by lia. exact (T4 a b a' b' Hlt H H').
Qed.

Lemma tidy_same s s' : tidy s -> bgs s' = bgs s -> mem s' = mem s -> fresh s <= fresh s' -> tidy s'.
Proof.
  intros [T1 T2 T3 T4] Eb Em Hf. split; rewrite ?Em; [lia|congruence| |exact T4].
  intros a b H. destruct (T3 a b H). lia.
Qed.

Lemma prepared_orderly s p s1 s2 : tidy s -> memory s ->
  create_fs_aux_info s = Ok (Some p, s1) -> new_sparse_file s1 = Ok (Some tt, s2) -> orderly s2 /\ new_image s2.
Proof.
  intros Ht Hm E1 E2. destruct (ext4_create_fs_aux_info (info s)) as [a| | |] eqn:Ea;
    unfold create_fs_aux_info, bind, get_state, lift, put_state in E1; rewrite Ea in E1; cbn [obind] in E1; try discriminate.
  rewrite calloc_eq in E1 by exact Hm. rewrite malloc_eq in E1 by exact Hm. rewrite calloc_eq in E1 by exact Hm.
  injection E1 as _ E1. match type of E1 with ?x = s1 => assert (tidy x) as Ht1 end.
  { apply (tidy_buffer (bump (set_mem (set_fresh (set_aux s a) (fresh s + Z.max 1 (block_size (info s)))) (fresh s) (zeros (block_size (info s)))))).
    eapply tidy_same; [apply (tidy_buffer (set_aux s a)); apply (tidy_same s); auto; cbn; lia|reflexivity|reflexivity|cbn; lia]. }
  assert (memory s1) as Hm1 by (rewrite <- E1; exact Hm). assert (info s1 = info s) as Ei by (rewrite <- E1; reflexivity).
  rewrite E1 in Ht1. clear E1.
  destruct (new_sparse_file_spec s1 Hm1) as (s2' & E & Hn & (_ & Ei2 & _) & Eb & _ & Em & _ & Ef). rewrite E in E2. injection E2 as <-.
  split; [|exact Hn]. apply orderly_tidy; [|unfold queued; rewrite Hn; reflexivity].
  apply (tidy_same s1); auto. lia.
Qed.


Lemma make_image_orderly {host : host_tree} st depth rq s q s' :
  choose_parameters (get_file_size (len (info s)) (rq_fstat rq) (fst (rq_ioctl rq)) (snd (rq_ioctl rq))) (info s) = Ok (Some inf) ->
  ext4_create_fs_aux_info inf = Ok ax -> 1024 < block_size inf -> tidy s -> memory s ->
  rq_directory rq = None -> rq_init_itabs rq = false -> make_image st depth rq s = Ok (Some (Some q), s') ->
  orderly s' /\ SparseFile.s_len (sparse_file s') = len inf /\ SparseFile.s_block_size (sparse_file s') = block_size inf.
Proof.
  intros Hc Ha Hb Ht Hm Hd Hi H. unfold make_image in H. unfold bind at 1, get_state in H.
  apply bind_inv in H as [(o & s1 & E & H)|(_ & E)]; [|discriminate].
  pose proof (pure_lift _ _ _ _ E) as ->. apply fun_value in E. rewrite Hc in E. injection E as <-.
  unfold bind at 1, put_state in H. set (s1 := set_info s inf) in *.
  assert (tidy s1) as Ht1 by (apply (tidy_same s); auto; cbn; lia).
  apply bind_inv in H as [(p & s2 & E2 & H)|(_ & E2)]; [|discriminate].
  apply bind_inv in H as [([] & s3 & E3 & H)|(_ & E3)]; [|discriminate].
  destruct (prepared_orderly s1 p s2 s3 Ht1 Hm E2 E3) as (Ho3 & Hn3).
  destruct (create_fs_aux_info_spec s1 ax Hm Ha) as (p' & s2' & E2' & [(_ & Ei2 & Ea2 & Ev2) _ _ _ _ _]). rewrite E2' in E2. injection E2 as -> ->.
  destruct (new_sparse_file_spec s2) as (s3' & E3' & _ & (_ & Ei3 & Ea3 & _) & _); [intros n; rewrite Ev2; apply Hm|].
  rewrite E3' in E3. injection E3 as ->.
  assert (made s3) as Hmade by (split; [rewrite Ei3, Ei2; reflexivity|congruence]).
  apply bind_inv in H as [(q' & s4 & E4 & H)|(_ & E4)]; [|discriminate]. injection H as -> <-.
  destruct (steady_fill_image st depth rq p Hb Hd Hi s3 _ _ Hmade E4 Ho3) as (Ho4 & F). split; [exact Ho4|].
  destruct F as (_ & _ & -> & ->). rewrite Hn3. cbn. rewrite (proj1 Hmade). auto.
Qed.

End Made.

End MakeExt4Memory.
