(* ===== verification/MakeExt4Disk.v ===== *)
(** * Making an image: the bytes

    From the queue and the memory to the bytes of the file that is written, and
    what a reader of these bytes finds. *)

From S2P Require Import Prelude Posix BackedBlock OutputFile SparseFormat SparseFile Sha1 Ext4Utils Ext4Alloc Ext4AllocBits Ext4AllocProps Ext4AllocLists Ext4Extent Ext4ExtentProps Ext4ExtentFiles Ext4Indirect Ext4Contents Ext4ContentsProps Ext4Dirs Ext4Tree Ext4Super Ext4SuperProps Ext4Disk MakeExt4fs MakeExt4Init MakeExt4Fill MakeExt4Inodes MakeExt4Resize MakeExt4Room MakeExt4Image MakeExt4Memory.

Module MakeExt4Disk.
Import Ext4Utils Ext4Alloc Ext4AllocBits Ext4AllocProps Ext4AllocLists Ext4Extent Ext4ExtentProps
  Ext4ExtentFiles Ext4Indirect Ext4Contents Ext4ContentsProps Ext4Dirs Ext4Tree Ext4Super Ext4SuperProps Ext4Disk
  MakeExt4fs MakeExt4Init MakeExt4Fill MakeExt4Inodes MakeExt4Resize MakeExt4Room MakeExt4Image MakeExt4Memory.
Import SparseFormat(chunks_image, chunks_image_app, chunk_image, pad_block).

(** ** What is queued, in the image *)

Section Queue.
Context (h : OF.host) (bs : Z) (bs_pos : 0 < bs) (bs_words : bs mod 4 = 0).

Lemma skipped_image a b : a <= b -> zlen (chunks_image bs (SparseFile.gap a b)) = (b - a) * bs.
Proof.
  intros H. exact (SparseFile.zlen_chunks_image h bs [] a b bs_pos bs_words H (Forall_nil_2 _)).
Qed.

Lemma entry_image bb : BackedBlock.node_ok bs bb -> SparseFile.source_ok h bs bb ->
  zlen (chunks_image bs [SparseFile.bb_chunk h bs bb]) = DIV_ROUND_UP (BackedBlock.len bb) bs * bs.
Proof.
  intros Hn Hs. pose proof (SparseFile.zlen_chunks_image h bs [bb] (BackedBlock.block bb) (BackedBlock.bb_end bs bb) bs_pos bs_words) as H.
  cbn [SparseFile.chunks_from] in H. unfold SparseFile.gap in H. rewrite !Z.ltb_irrefl in H. cbn [app] in H.
  rewrite H; [unfold BackedBlock.bb_end; lia| |auto]. split; [lia|]. split; [exact Hn|cbn; lia].
Qed.

(** Memory in whole blocks is in the image as it is. *)
Lemma data_image l : forall last nb bb d, BackedBlock.blocks_ok bs last l nb -> Forall (SparseFile.source_ok h bs) l ->
  In bb l -> BackedBlock.payload bb = BackedBlock.bb_data d -> (bs | BackedBlock.len bb) ->
  last <= BackedBlock.block bb /\
  sub_bytes (chunks_image bs (SparseFile.chunks_from h bs last l nb)) ((BackedBlock.block bb - last) * bs) (BackedBlock.len bb) =
    OF.mem_bytes h d (BackedBlock.len bb).
Proof.
  induction l as [|c l IH]; intros last nb bb d Hok Hs Hin Hp Hw; [destruct Hin|].
  destruct Hok as (Hl & Hn & Hok). apply Forall_cons in Hs as [Hsc Hs]. cbn [SparseFile.chunks_from].
  change (SparseFile.bb_chunk h bs c :: ?r) with ([SparseFile.bb_chunk h bs c] ++ r).
  rewrite !chunks_image_app. pose proof (skipped_image last (BackedBlock.block c) Hl) as Hg.
  pose proof (entry_image c Hn Hsc) as He. destruct Hin as [->|Hin].
  - split; [exact Hl|]. destruct Hw as (k & Hk). destruct Hn as (_ & Hlen & _).
    rewrite Hk, DIV_ROUND_UP_mul in He by exact bs_pos.
    assert (chunks_image bs [SparseFile.bb_chunk h bs bb] = OF.mem_bytes h d (BackedBlock.len bb)) as Ei.
    { unfold chunks_image, SparseFile.bb_chunk in *. rewrite Hp in *. cbn [map concat chunk_image] in *. rewrite app_nil_r in *.
      unfold SparseFile.bb_bytes, pad_block in *. rewrite Hp in *. set (m := OF.mem_bytes h d (BackedBlock.len bb)) in *.
      assert (zlen m = k * bs) as Lm by (unfold m, OF.mem_bytes, zlen; rewrite length_map, length_seqZ; lia).
      rewrite Lm. unfold ALIGN. rewrite DIV_ROUND_UP_mul by exact bs_pos. replace (bs * k - k * bs) with 0 by lia. apply app_nil_r. }
    rewrite Ei in He |- *. apply sub_bytes_exact; [symmetry; exact Hg|lia].
  - destruct (IH _ _ bb d Hok Hs Hin Hp Hw) as (Hle & E). pose proof (DIV_ROUND_UP_pos (BackedBlock.len c) bs bs_pos) as Hd.
    destruct Hn as (_ & Hlen & _). unfold BackedBlock.bb_end in Hle, E. split; [lia|].
    rewrite sub_bytes_app_r by nia. rewrite sub_bytes_app_r by nia. rewrite Hg, He, <- E. f_equal. lia.
Qed.

(** The list is shorter than the image has blocks. *)
Lemma blocks_count l : forall lo hi, BackedBlock.blocks_ok bs lo l hi -> zlen l <= hi - lo.
Proof.
  induction l as [|c l IH]; intros lo hi H; [cbn in H; unfold zlen; cbn; lia|]. destruct H as (Hl & (_ & Hlen & _) & H).
  rewrite zlen_cons. specialize (IH _ _ H). pose proof (DIV_ROUND_UP_pos (BackedBlock.len c) bs bs_pos). unfold BackedBlock.bb_end in IH. lia.
Qed.

End Queue.


(** ** The memory *)

Lemma concat_slots {A} (f : A -> list Z) n l : (forall x, x ∈ l -> zlen (f x) = n) -> zlen (concat (map f l)) = n * zlen l.
Proof.
  induction l as [|x l IH]; intros H; [unfold zlen; cbn; lia|]. cbn [map concat]. rewrite zlen_app, zlen_cons.
  rewrite (H x ltac:(left)), IH by (intros y Hy; apply H; right; exact Hy). lia.
Qed.

(** The part of one of them. *)
Lemma concat_part {A} (f : A -> list Z) n (l : list A) k x tl : 0 <= n -> (forall y, y ∈ l -> zlen (f y) = n) -> l !! k = Some x ->
  sub_bytes (concat (map f l) ++ tl) (Z.of_nat k * n) n = f x.
Proof.
  intros Hn Hl Hk. pose proof (take_drop_middle l k x Hk) as E. rewrite <- E, map_app, concat_app. cbn [map concat].
  rewrite <- !app_assoc. pose proof (lookup_lt_Some _ _ _ Hk) as Hlt. apply sub_bytes_exact.
  - rewrite (concat_slots f n); [unfold zlen; rewrite length_take; lia|]. intros y Hy. apply Hl.
    rewrite <- (take_drop k l). apply elem_of_app. left. exact Hy.
  - symmetry. apply Hl. rewrite <- E. apply elem_of_app. right. left.
Qed.

Lemma zlen_inode_slot isz i : 0 <= isz -> zlen (inode_slot isz i) = isz.
Proof.
  intros H. unfold inode_slot, zlen. rewrite length_take, length_app. pose proof (zlen_zeros isz H). unfold zlen in *. lia.
Qed.

(** The inode table of group [g], with zeros where nothing was written. *)
Definition slot (s : fs) (g k : Z) : list Z := inode_slot (inode_size (info s)) (default zero_inode (itab s !! (g, k))).
Definition table_bytes (s : fs) (g : Z) : list Z :=
  concat (map (slot s g) (seqZ 0 (inodes_per_group (info s)))) ++
  zeros (inode_table_blocks (aux_info s) * block_size (info s) - inodes_per_group (info s) * inode_size (info s)).

(** The address and the bytes of a place. *)
Definition place_bytes (s : fs) (p : place) : option (Z * list Z) :=
  match p with
  | P_buffer a => match mem s !! a with Some b => Some (a, b) | None => None end
  | P_bitmaps g => match bgs s !! g with Some b => Some (bitmaps_ptr b, bitmaps b) | None => None end
  | P_table g =>
      match bgs s !! g with
      | Some b => match inode_table b with Some t => Some (t, table_bytes s (Z.of_nat g)) | None => None end
      | None => None
      end
  end.

(** A host whose memory holds every place. *)
Definition faithful (h : OF.host) (s : fs) : Prop :=
  forall p a b, place_bytes s p = Some (a, b) -> OF.mem_bytes h a (zlen b) = b.

(** One such host. *)
Definition places (s : fs) : list place :=
  map (fun x => P_buffer (fst x)) (map_to_list (mem s)) ++
  map P_bitmaps (seq 0 (length (bgs s))) ++ map P_table (seq 0 (length (bgs s))).
Definition memory_image (s : fs) : OF.host :=
  OF.mk_host
    (fun x => match find (fun ab => (fst ab <=? x) && (x <? fst ab + zlen (snd ab))) (omap (place_bytes s) (places s)) with
              | Some (a, b) => nth (Z.to_nat (x - a)) b 0
              | None => 0
              end)
    (fun _ => []) (fun _ => -1) (fun _ _ _ => -1).

Lemma place_in s p x : place_bytes s p = Some x -> p ∈ places s.
Proof.
  intros H. unfold places. rewrite !elem_of_app, !list_elem_of_fmap. destruct p as [a|g|g]; cbn in H.
  - destruct (mem s !! a) as [b|] eqn:E; [|discriminate]. left. exists (a, b). split; [reflexivity|]. apply elem_of_map_to_list. exact E.
  - destruct (bgs s !! g) as [b|] eqn:E; [|discriminate]. right. left. exists g. split; [reflexivity|].
    apply lookup_lt_Some in E. apply elem_of_seq. lia.
  - destruct (bgs s !! g) as [b|] eqn:E; [|discriminate]. right. right. exists g. split; [reflexivity|].
    apply lookup_lt_Some in E. apply elem_of_seq. lia.
Qed.

Definition tables_fit (s : fs) : Prop :=
  0 <= inodes_per_group (info s) /\ 0 <= inode_size (info s) /\
  inodes_per_group (info s) * inode_size (info s) <= inode_table_blocks (aux_info s) * block_size (info s).

Lemma zlen_table s g : tables_fit s -> zlen (table_bytes s g) = inode_table_blocks (aux_info s) * block_size (info s).
Proof.
  intros (H1 & H2 & H3). unfold table_bytes. rewrite zlen_app, (concat_slots _ (inode_size (info s))).
  - rewrite zlen_zeros by lia. unfold zlen. rewrite length_seqZ. lia.
  - intros k _. apply zlen_inode_slot. exact H2.
Qed.

Lemma place_area s p a b : tables_fit s -> place_bytes s p = Some (a, b) -> area s p = Some (a, zlen b).
Proof.
  intros Ht H. destruct p as [c|g|g]; cbn in *.
  - destruct (mem s !! c); [|discriminate]. injection H as <- <-. reflexivity.
  - destruct (bgs s !! g); [|discriminate]. injection H as <- <-. reflexivity.
  - destruct (bgs s !! g) as [x|]; [|discriminate]. destruct (inode_table x); [|discriminate]. injection H as <- <-.
    rewrite zlen_table by exact Ht. reflexivity.
Qed.

Lemma mem_bytes_lookup h a n i : (Z.of_nat i < n) -> OF.mem_bytes h a n !! i = Some (OF.h_mem h (a + Z.of_nat i)).
Proof.
  intros H. unfold OF.mem_bytes. change (map ?f ?l) with (f <$> l). rewrite list_lookup_fmap, lookup_seqZ_lt by lia. reflexivity.
Qed.

Lemma mem_bytes_end h a n i : (n <= Z.of_nat i) -> OF.mem_bytes h a n !! i = None.
Proof. intros H. apply lookup_ge_None. unfold OF.mem_bytes. rewrite length_map, length_seqZ. lia. Qed.

Lemma memory_image_faithful inf L s : tables_fit s -> orderly inf L s -> faithful (memory_image s) s.
Proof.
  intros Ht Ho p a b Hp. apply list_eq. intros i. destruct (decide (i < length b)%nat) as [Hi|Hi];
    [|rewrite mem_bytes_end, lookup_ge_None_2 by (unfold zlen; lia); reflexivity].
  rewrite mem_bytes_lookup by (unfold zlen; lia). destruct (lookup_lt_is_Some_2 b i Hi) as [v Hv]. rewrite Hv. f_equal.
  unfold memory_image. cbn [OF.h_mem]. set (x := a + Z.of_nat i).
  assert (In (a, b) (omap (place_bytes s) (places s))) as Hin
    by (apply list_elem_of_In, list_elem_of_omap; exists p; split; [exact (place_in s p _ Hp)|exact Hp]).
  destruct (find _ _) as [[a' b']|] eqn:E.
  - apply find_some in E as (Hin' & Hx). cbn [fst snd] in Hx. apply andb_true_iff in Hx as (Hx1 & Hx2). apply Z.leb_le in Hx1. apply Z.ltb_lt in Hx2.
    apply list_elem_of_In, list_elem_of_omap in Hin' as (q & _ & Hq).
    assert (p = q) as <-.
    { destruct (decide (p = q)) as [E|Hne]; [exact E|exfalso].
      pose proof (od_apart _ _ _ Ho p q a (zlen b) a' (zlen b') Hne (place_area s p a b Ht Hp) (place_area s q a' b' Ht Hq)) as Hd.
      unfold x, zlen in *. lia. }
    rewrite Hp in Hq. injection Hq as <- <-. replace (x - a) with (Z.of_nat i) by lia. rewrite Nat2Z.id. exact (nth_lookup_Some b i 0 v Hv).
  - pose proof (find_none _ _ E (a, b) Hin) as Hx. cbn [fst snd] in Hx.
    rewrite (proj2 (Z.leb_le a x)), (proj2 (Z.ltb_lt x (a + zlen b))) in Hx by (unfold x, zlen; lia). discriminate.
Qed.


(** ** The file that is written *)

Lemma sub_lookup {A} (l : list A) o n i : 0 <= o -> Z.of_nat i < n -> sub_bytes l o n !! i = l !! Z.to_nat (o + Z.of_nat i).
Proof.
  intros Ho Hi. unfold sub_bytes. rewrite lookup_take_lt, lookup_drop by lia. f_equal. lia.
Qed.

(** The image of a state that can be written: [n] blocks. *)
Record writable (L : Z) (s : fs) (n : Z) : Prop := {
  wr_queue : queue_inv s;
  wr_whole : Forall (whole_data (info s) L) (queued s);
  wr_bs : SparseFile.s_block_size (sparse_file s) = block_size (info s);
  wr_len : SparseFile.s_len (sparse_file s) = n * block_size (info s);
  wr_words : block_size (info s) mod 4 = 0;
  wr_blocks : 0 <= n < 2 ^ 30 /\ len_blocks (aux_info s) <= n;
  wr_fits : 0 < block_size (info s) <= L /\ L + 12 < 2 ^ 31
}.

Lemma writable_sparse L h s n : writable L s n -> SparseFile.sparse_ok h (sparse_file s) n /\ SparseFile.countable (sparse_file s).
Proof.
  intros [Q W B Hl H4 Hn (Hbs & HL)]. pose proof Q as [Q1 (Q2 & Q3 & _) _ _ Q4 _]. rewrite Q1 in Q2, Q3.
  set (bs := block_size (info s)) in *. set (l := BackedBlock.data_blocks (SparseFile.s_list (sparse_file s))) in *.
  assert (forall bb, In bb l -> BackedBlock.bb_end bs bb <= n) as Hend.
  { intros bb Hin. destruct (BackedBlock.blocks_ok_in bs _ _ _ bb ltac:(lia) Q3 Hin) as (_ & Hnode & _).
    pose proof (BackedBlock.bb_end_gt bs bb ltac:(lia) Hnode). destruct (Q4 bb (BackedBlock.bb_end bs bb - 1) Hin) as (Hx & _); [fold bs; lia|lia]. }
  pose proof (BackedBlock.blocks_ok_upper bs 0 l _ n Q3 ltac:(lia) Hend) as Hok.
  pose proof (blocks_count bs ltac:(lia) l _ _ Hok) as Hc. split.
  - unfold SparseFile.sparse_ok. rewrite B. fold bs l. split; [lia|]. split; [exact H4|]. split; [lia|]. split; [exact Hl|]. split; [exact Hok|].
    apply (Forall_impl _ _ _ W). intros bb ((( k & Hk) & Hb) & d & Hd). fold bs in Hk. split; [|rewrite Hd; exact I].
    unfold ALIGN. rewrite Hk, DIV_ROUND_UP_mul by lia. change SparseFormat.CHUNK_HEADER_LEN with 12. lia.
  - unfold SparseFile.countable. fold l. lia.
Qed.

Section Written.
Context (h : OF.host) (L : Z) (s : fs) (n : Z) (Hw : writable L s n) (Hf : faithful h s).
Let bs := block_size (info s).
Let img := SparseFile.file_image h (sparse_file s).

Lemma zlen_written : zlen img = n * bs.
Proof.
  destruct (writable_sparse L h s n Hw) as (Hs & _). unfold img. rewrite (SparseFile.zlen_file_image _ _ _ Hs). exact (wr_len _ _ _ Hw).
Qed.

(** What is held for a block is in the file. *)
Lemma image_byte x p j : holds s x (from_memory p) -> 0 <= j < bs ->
  0 <= x < n /\ img !! Z.to_nat (x * bs + j) = Some (OF.h_mem h (p + j)).
Proof.
  intros (bb & Hin & Hx & Hp) Hj. pose proof (wr_whole _ _ _ Hw) as W. rewrite Forall_forall in W.
  destruct (W bb ltac:(apply list_elem_of_In; exact Hin)) as (((k & Hk) & Hb) & d & Hd). fold bs in Hk, Hx, Hp.
  rewrite Hd in Hp. injection Hp as <-. destruct (writable_sparse L h s n Hw) as ((Hbs & H4 & Hn & Hlen & Hok & Hs) & _).
  rewrite (wr_bs _ _ _ Hw) in *. fold bs in Hbs, H4, Hok, Hs, Hlen. unfold BackedBlock.bb_end in Hx. rewrite Hk, DIV_ROUND_UP_mul in Hx by lia.
  destruct (BackedBlock.blocks_ok_in bs _ _ _ bb ltac:(lia) Hok Hin) as (H0 & _ & He). unfold BackedBlock.bb_end in He. rewrite Hk, DIV_ROUND_UP_mul in He by lia.
  split; [lia|]. destruct (data_image h bs ltac:(lia) H4 _ 0 n bb d Hok Hs Hin Hd) as (_ & E); [exists k; exact Hk|].
  unfold img, SparseFile.file_image, SparseFile.file_chunks. rewrite (wr_bs _ _ _ Hw), Hlen. fold bs. rewrite Z.div_mul by lia.
  set (o := (x - BackedBlock.block bb) * bs + j). assert (0 <= o < k * bs) as Ho by (unfold o; nia).
  assert (OF.mem_bytes h d (BackedBlock.len bb) !! Z.to_nat o = Some (OF.h_mem h (d + o))) as Hm
    by (rewrite mem_bytes_lookup by lia; do 2 f_equal; lia).
  rewrite <- E, sub_lookup in Hm by nia. rewrite Z2Nat.id in Hm by lia.
  replace ((BackedBlock.block bb - 0) * bs + o) with (x * bs + j) in Hm by (unfold o; lia). rewrite Hm. do 2 f_equal. unfold o. lia.
Qed.

(** A part of consecutive blocks. *)
Lemma image_run x p c o m : (forall k, 0 <= k < c -> holds s (x + k) (from_memory (p + k * bs))) -> 0 <= o -> 0 <= m -> o + m <= c * bs ->
  sub_bytes img (x * bs + o) m = OF.mem_bytes h (p + o) m.
Proof.
  intros Hh Ho Hm Hom. pose proof (wr_fits _ _ _ Hw) as ((Hbs & _) & _). fold bs in Hbs. apply list_eq. intros i.
  destruct (Z.lt_ge_cases (Z.of_nat i) m) as [Hi|Hi].
  - rewrite mem_bytes_lookup by exact Hi. set (y := o + Z.of_nat i).
    pose proof (Z.div_mod y bs ltac:(lia)) as Hd. pose proof (Z.mod_pos_bound y bs ltac:(lia)) as Hr.
    assert (0 <= y / bs < c) as Hq by (unfold y in *; nia).
    destruct (image_byte _ _ (y mod bs) (Hh (y / bs) Hq) Hr) as (Hx & E).
    replace ((x + y / bs) * bs + y mod bs) with (x * bs + y) in E by lia. replace (p + y / bs * bs + y mod bs) with (p + y) in E by lia.
    assert (0 <= x) as Hx0.
    { destruct (image_byte _ _ 0 (Hh 0 ltac:(lia)) ltac:(lia)). lia. }
    rewrite sub_lookup by nia. replace (x * bs + o + Z.of_nat i) with (x * bs + y) by (unfold y; lia). rewrite E. do 2 f_equal. unfold y. lia.
  - rewrite mem_bytes_end by lia. apply lookup_ge_None. unfold sub_bytes. rewrite length_take. lia.
Qed.

Lemma image_block x p : holds s x (from_memory p) -> disk_block bs img x = Some (OF.mem_bytes h p bs).
Proof.
  intros Hx. pose proof (wr_fits _ _ _ Hw) as ((Hbs & _) & _). fold bs in Hbs. destruct (image_byte x p 0 Hx ltac:(lia)) as (H0 & _).
  unfold disk_block. rewrite zlen_written, (proj2 (Z.leb_le 0 x)), (proj2 (Z.leb_le ((x + 1) * bs) _)) by nia. cbn [andb]. f_equal.
  pose proof (image_run x p 1 0 bs) as H. rewrite !Z.add_0_r in H. apply H; try lia. intros k Hk. assert (k = 0) as -> by lia.
  rewrite Z.mul_0_l, !Z.add_0_r. exact Hx.
Qed.

(** Buffers as they are in the file. *)
Lemma memory_part p a b o m : place_bytes s p = Some (a, b) -> 0 <= o -> 0 <= m -> o + m <= zlen b ->
  OF.mem_bytes h (a + o) m = sub_bytes b o m.
Proof.
  intros Hp Ho Hm Hom. apply list_eq. intros i. destruct (Z.lt_ge_cases (Z.of_nat i) m) as [Hi|Hi].
  - rewrite mem_bytes_lookup, sub_lookup by lia. rewrite <- (Hf p a b Hp) at 1. rewrite mem_bytes_lookup by lia. do 2 f_equal. lia.
  - rewrite mem_bytes_end by lia. symmetry. apply lookup_ge_None. unfold sub_bytes. rewrite length_take. lia.
Qed.

(** A part of a place that is queued. *)
Lemma place_run q x a b c o m : place_bytes s q = Some (a, b) ->
  (forall k, 0 <= k < c -> holds s (x + k) (from_memory (a + k * bs))) -> 0 <= o -> 0 <= m -> o + m <= c * bs -> o + m <= zlen b ->
  sub_bytes img (x * bs + o) m = sub_bytes b o m.
Proof. intros Hq Hh Ho Hm H1 H2. rewrite (image_run x a c o m Hh Ho Hm H1). exact (memory_part q a b o m Hq Ho Hm H2). Qed.

End Written.


(** ** Parts of lists *)

Lemma sub_sub {A} (l : list A) a n o m : 0 <= a -> 0 <= o -> 0 <= m -> o + m <= n -> sub_bytes (sub_bytes l a n) o m = sub_bytes l (a + o) m.
Proof.
  intros Ha Ho Hm Hn. unfold sub_bytes. rewrite skipn_firstn_comm, take_take, drop_drop. f_equal; [lia|]. f_equal. lia.
Qed.

Lemma take_sub {A} (l : list A) n o m : 0 <= o -> 0 <= m -> o + m <= n -> sub_bytes (take (Z.to_nat n) l) o m = sub_bytes l o m.
Proof. intros Ho Hm Hn. exact (sub_sub l 0 n o m ltac:(lia) Ho Hm Hn). Qed.

Lemma sub_bit (l : list Z) o n k : 0 <= o -> 0 <= k < 8 * n -> bit (sub_bytes l o n) k = bit l (8 * o + k).
Proof.
  intros Ho Hk. unfold bit.
  assert ((8 * o + k) / 8 = o + k / 8 /\ (8 * o + k) mod 8 = k mod 8) as (-> & ->).
  { replace (8 * o + k) with (k + o * 8) by lia. rewrite Z.div_add, Z.mod_add by lia. split; lia. }
  pose proof (Z.div_pos k 8 ltac:(lia) ltac:(lia)). assert (k / 8 < n) by (apply Z.div_lt_upper_bound; lia). f_equal.
  rewrite !nth_lookup, sub_lookup by lia. do 2 f_equal. lia.
Qed.

Lemma sub_clear (l : list Z) o n m : 0 <= o -> m <= 8 * n -> clear_bits (sub_bytes l o n) 0 m = clear_bits l (8 * o) m.
Proof.
  intros Ho Hm. unfold clear_bits. f_equal. apply filter_ext_in. intros k Hk. apply list_elem_of_In, elem_of_seqZ in Hk.
  f_equal. rewrite Z.add_0_l. apply sub_bit; lia.
Qed.

Lemma clear_bound l o n : 0 <= n -> 0 <= clear_bits l o n <= n.
Proof.
  intros Hn. unfold clear_bits, zlen. pose proof (List.filter_length_le (fun k => negb (bit l (o + k))) (seqZ 0 n)) as H.
  rewrite length_seqZ in H. lia.
Qed.

(** ** An inode on disk *)

Lemma slot_inode isz i : 128 <= isz -> zlen (i_block i) = 60 -> let j := inode_of_bytes (inode_slot isz i) in
  i_mode j = i_mode i mod 2 ^ 16 /\ i_size_lo j = i_size_lo i mod 2 ^ 32 /\ i_block j = i_block i.
Proof.
  intros Hz H60. unfold inode_of_bytes, inode_slot. cbn [i_mode i_size_lo i_block]. rewrite !take_sub by lia.
  unfold inode_bytes. split; [|split].
  - change (sub_bytes _ 0 2) with (le_bytes 2 (i_mode i)). exact (le_val_bytes 2 _).
  - change (sub_bytes _ 4 4) with (le_bytes 4 (i_size_lo i)). exact (le_val_bytes 4 _).
  - rewrite <- !app_assoc. set (b := take 60 (i_block i ++ zeros 60)).
    assert (b = i_block i) as Hb by (unfold b; apply take_app_length'; unfold zlen in H60; lia). clearbody b. subst b.
    do 12 (rewrite sub_bytes_app_r by (rewrite ?zlen_le_bytes; vm_compute; discriminate)). rewrite !zlen_le_bytes.
    change (sub_bytes (i_block i ++ ?r) _ 60) with (sub_bytes (i_block i ++ r) 0 60). rewrite sub_bytes_app_l by lia. apply sub_bytes_all. lia.
Qed.

(** ** Files on disk *)

Lemma file_blocks_more (r r' : Z -> option (list Z)) i bl : (forall x b, r x = Some b -> r' x = Some b) ->
  file_blocks r i = Some bl -> file_blocks r' i = Some bl.
Proof.
  intros H. unfold file_blocks, read_tree. destruct (eh_depth _ =? 0); [auto|]. destruct (_ || _); [auto|].
  destruct (r _) as [b|] eqn:E; [|discriminate]. rewrite (H _ _ E). auto.
Qed.

Lemma mem_bytes_app h a n m : 0 <= n -> 0 <= m -> OF.mem_bytes h a (n + m) = OF.mem_bytes h a n ++ OF.mem_bytes h (a + n) m.
Proof. intros Hn Hm. unfold OF.mem_bytes. rewrite seqZ_app by lia. apply map_app. Qed.

Lemma source_holds s x src : block_source s x = Some src -> holds s x src.
Proof.
  unfold block_source. destruct (find _ (queued s)) as [bb|] eqn:E; [|discriminate]. intros Hp.
  apply find_some in E as (Hin & Hx). apply andb_true_iff in Hx as (H1 & H2). apply Z.leb_le in H1. apply Z.ltb_lt in H2. exists bb. auto.
Qed.

Section Files.
Context (h : OF.host) (L : Z) (s : fs) (n : Z) (Hw : writable L s n) (Hf : faithful h s).
Let bs := block_size (info s).
Let img := SparseFile.file_image h (sparse_file s).

Lemma buffer_on_disk x b : block_buffer s x = Some b -> disk_block bs img x = Some b.
Proof.
  unfold block_buffer. destruct (find _ (queued s)) as [bb|] eqn:E; [|discriminate]. destruct (BackedBlock.payload bb) as [a| | |] eqn:Ep; try discriminate.
  unfold whole_buffer. destruct (mem s !! a) as [buf|] eqn:Em; [|discriminate]. destruct (zlen buf =? block_size (info s)) eqn:El; [|discriminate].
  intros [= <-]. apply Z.eqb_eq in El. apply find_some in E as (Hin & Hx). apply Z.eqb_eq in Hx.
  destruct (wr_fits _ _ _ Hw) as ((Hbs & _) & _). destruct (wr_queue _ _ _ Hw) as [Q1 (_ & Q2 & _) _ _ _ _]. rewrite Q1 in Q2.
  destruct (BackedBlock.blocks_ok_in _ _ _ _ bb Hbs Q2 Hin) as (_ & Hnode & _). pose proof (BackedBlock.bb_end_gt _ bb Hbs Hnode).
  unfold img, bs. rewrite (image_block h L s n Hw x a).
  - f_equal. rewrite <- El. apply (Hf (P_buffer a) a buf). cbn. rewrite Em. reflexivity.
  - exists bb. split; [exact Hin|]. split; [lia|]. rewrite Ep, <- Hx, Z.sub_diag. cbn. do 2 f_equal. lia.
Qed.

Lemma blocks_on_disk blocks : forall data,
  (forall k x, blocks !! Z.to_nat k = Some x -> 0 <= k -> block_source s x = Some (from_memory (data + k * bs))) ->
  disk_blocks bs img blocks = Some (OF.mem_bytes h data (zlen blocks * bs)).
Proof.
  destruct (wr_fits _ _ _ Hw) as ((Hbs & _) & _). fold bs in Hbs.
  induction blocks as [|x l IH]; intros data H; [reflexivity|]. cbn [disk_blocks].
  pose proof (H 0 x eq_refl ltac:(lia)) as H0. rewrite Z.mul_0_l, Z.add_0_r in H0.
  unfold img, bs. rewrite (image_block h L s n Hw x data (source_holds _ _ _ H0)). fold bs img. rewrite (IH (data + bs)).
  - f_equal. rewrite zlen_cons. pose proof (zlen_nonneg l). replace ((1 + zlen l) * bs) with (bs + zlen l * bs) by lia.
    symmetry. apply mem_bytes_app; nia.
  - intros k y Hk Hk0. replace (data + bs + k * bs) with (data + (k + 1) * bs) by lia. apply H; [|lia].
    rewrite Z2Nat.inj_add by lia. rewrite Nat.add_1_r. exact Hk.
Qed.

End Files.


(** ** Reading the image *)

Section Reading.
Context (h : OF.host) (L : Z) (s : fs) (n : Z) (Hw : writable L s n) (Hf : faithful h s).
Context (lab : string) (lo c : Z) (buf : list Z) (p : Z) (d : list Z) (Him : image_made lab lo s c buf p d).
Context (Hmk : makeable (info s) (aux_info s)) (Hrd : fs_ready s).
Context (isize_ok : 128 <= inode_size (info s) < 2 ^ 16) (ipg_ok : inodes_per_group (info s) < 2 ^ 16).
Let bs := block_size (info s).
Let img := SparseFile.file_image h (sparse_file s).
Let blocks_free := sum_of (fun b => clear_bits (bitmaps b) 0 (blocks_per_group (info s))) (bgs s).
Let inodes_free := sum_of (fun b => clear_bits (bitmaps b) (8 * block_size (info s)) (inodes_per_group (info s))) (bgs s).

Lemma sum_bound {A} (f : A -> Z) m l : (forall x, x ∈ l -> 0 <= f x <= m) -> 0 <= sum_of f l <= m * zlen l.
Proof.
  induction l as [|x l IH]; intros H; [unfold zlen; cbn; lia|]. rewrite zlen_cons. change (sum_of f (x :: l)) with (f x + sum_of f l).
  pose proof (H x ltac:(left)). assert (0 <= sum_of f l <= m * zlen l) by (apply IH; intros y Hy; apply H; right; exact Hy). lia.
Qed.

Lemma free_sums : 0 <= blocks_free < 2 ^ 32 /\ 0 <= inodes_free < 2 ^ 32.
Proof.
  pose proof (fs_groups _ (rd_ok _ Hrd)) as Hg. pose proof (mk_group _ _ Hmk) as Hb. pose proof (mk_total _ _ Hmk) as Ht.
  pose proof (geo_groups _ _ (mk_geometry _ _ Hmk)) as Hgr. pose proof (geo_group _ _ (mk_geometry _ _ Hmk)) as (Hb0 & _).
  pose proof (geo_inodes _ _ (mk_geometry _ _ Hmk)) as (Hi0 & _). pose proof (geo_range _ _ (mk_geometry _ _ Hmk)) as Hr.
  pose proof (mk_first _ _ Hmk) as F. unfold group_start in Hr. rewrite F in Hr.
  split; [pose proof (sum_bound (fun b => clear_bits (bitmaps b) 0 (blocks_per_group (info s))) (blocks_per_group (info s)) (bgs s)) as H|
    pose proof (sum_bound (fun b => clear_bits (bitmaps b) (8 * block_size (info s)) (inodes_per_group (info s))) (inodes_per_group (info s)) (bgs s)) as H];
    rewrite Hg in H; [fold blocks_free in H|fold inodes_free in H]; specialize (H ltac:(intros x _; apply clear_bound; lia)); nia.
Qed.

(** The super block. *)
Definition disk_of : disk :=
  mk_disk bs 0 (len_blocks (aux_info s)) (blocks_per_group (info s)) (inodes_per_group (info s)) (inode_size (info s)) blocks_free inodes_free.

Lemma super_field f : 0 <= f_off f -> 0 <= f_size f -> f_off f + f_size f <= 1024 ->
  get_field (sub_bytes img 1024 1024) f = le_val (sub_bytes buf (1024 + f_off f) (f_size f)).
Proof.
  intros H1 H2 H3. destruct (md_block0 _ _ _ _ _ _ _ Him) as (H0 & Hc & Lb). fold bs in Lb.
  destruct (params_block_size _ (mk_params _ _ Hmk)) as (k' & Hk & Ek & Hbs & _). fold bs in Hbs, Ek.
  assert (2 ^ 1 <= 2 ^ k') by (apply Z.pow_le_mono_r; lia).
  pose proof (place_run h L s n Hw Hf (P_buffer c) 0 c buf 1 1024 1024) as E. cbn [place_bytes] in E. rewrite Hc in E.
  fold bs img in E. rewrite Z.mul_0_l, Z.add_0_l in E. rewrite E; try lia; [|reflexivity|].
  - unfold get_field. f_equal. apply sub_sub; lia.
  - intros k Hk0. assert (k = 0) as -> by lia. rewrite Z.mul_0_l, !Z.add_0_r. exact H0.
Qed.

Lemma super_on_disk : read_super img = Some disk_of.
Proof.
  destruct (md_super _ _ _ _ _ _ _ Him) as (k & b & Ek & Hsh & _ & Hbuf). fold bs in Ek.
  assert (forall f, 0 <= f_off f -> 0 <= f_size f -> f_off f + f_size f <= 1024 -> apart totals f = true -> apart jnl_area f = true ->
    get_field (sub_bytes img 1024 1024) f = get_field b f) as Hget.
  { intros f F1 F2 F3 F4 F5. rewrite super_field by assumption. unfold get_field. f_equal. apply Hbuf; auto; destruct f; assumption. }
  pose proof (mk_leaf _ _ Hmk) as Hl. fold bs in Hl. pose proof (geo_groups _ _ (mk_geometry _ _ Hmk)) as Hg.
  pose proof (geo_group _ _ (mk_geometry _ _ Hmk)) as (Hb0 & _). pose proof (geo_inodes _ _ (mk_geometry _ _ Hmk)) as (Hi0 & _).
  pose proof (geo_range _ _ (mk_geometry _ _ Hmk)) as Hr. pose proof (geo_cover _ _ (mk_geometry _ _ Hmk)) as Hcov.
  pose proof (geo_first _ _ (mk_geometry _ _ Hmk)) as Hf0. unfold group_start in Hcov.
  assert (0 <= k <= 6) as Hk.
  { destruct (Z.lt_ge_cases k 0) as [Hn|Hn]; [rewrite Z.pow_neg_r in Ek by exact Hn; lia|]. split; [exact Hn|].
    destruct (Z.le_gt_cases k 6) as [H6|H6]; [exact H6|]. assert (2 ^ 7 <= 2 ^ k) by (apply Z.pow_le_mono_r; lia). lia. }
  assert (0 <= len_blocks (aux_info s) < 2 ^ 32) as Hlen by (unfold group_start in Hr; nia).
  destruct free_sums as (Hfb & Hfi). unfold read_super.
  rewrite (super_field s_free_blocks_count_lo), (super_field s_free_inodes_count) by (cbn; lia).
  change (f_size s_free_blocks_count_lo) with 4. change (f_size s_free_inodes_count) with 4.
  rewrite (md_blocks _ _ _ _ _ _ _ Him), (md_inodes _ _ _ _ _ _ _ Him).
  rewrite !Hget by (cbn; first [lia|reflexivity]). destruct Hsh as [Sm _ _ Sb Sh Sf Sl Sg Si Sz _ _ _ _ _ _ _ _].
  rewrite Sm, Sb, Sh, Sf, Sl, Sg, Si, Sz, (mk_first _ _ Hmk). change (256 ^ 4) with (2 ^ 32). change (256 ^ 2) with (2 ^ 16).
  rewrite (Z.mod_small k), Z.eqb_refl by lia. rewrite (proj2 (Z.ltb_ge 10 k)) by lia. cbn [negb orb].
  unfold disk_of. fold blocks_free inodes_free. rewrite !u32_id by assumption. rewrite <- Ek.
  rewrite Z.shiftr_div_pow2, (Z.div_small (len_blocks _)) by lia. rewrite (Z.mod_small (len_blocks _)) by lia. change (0 mod 2 ^ 32) with 0. pose proof (mk_group _ _ Hmk).
  do 2 f_equal; first [lia|apply Z.mod_small; lia].
Qed.


Lemma groups_on_disk : d_groups disk_of = groups (aux_info s).
Proof.
  unfold d_groups, disk_of. cbn [d_blocks d_first d_blocks_per_group]. rewrite Z.sub_0_r.
  pose proof (geo_cover _ _ (mk_geometry _ _ Hmk)) as Hc. unfold group_start in Hc. rewrite (mk_first _ _ Hmk) in Hc.
  pose proof (geo_group _ _ (mk_geometry _ _ Hmk)) as (Hb & _).
  pose proof (DIV_ROUND_UP_bound (len_blocks (aux_info s)) (blocks_per_group (info s)) Hb). nia.
Qed.

(** The descriptors. *)
Lemma desc_on_disk g f : 0 <= g < groups (aux_info s) -> 0 <= f_off f -> 0 <= f_size f -> f_off f + f_size f <= 32 ->
  read_desc disk_of img g f = get_field d (at_index 32 g f).
Proof.
  intros Hg F1 F2 F3. destruct (md_descs _ _ _ _ _ _ _ Him) as (Hd & Ld & Hq).
  destruct (mk_descs _ _ Hmk) as (Hc & _). pose proof (mk_first _ _ Hmk) as H0.
  unfold read_desc, disk_of. cbn [d_first d_block_size].
  pose proof (place_run h L s n Hw Hf (P_buffer p) 1 p d (bg_desc_blocks (aux_info s)) (32 * g) 32) as E. cbn [place_bytes] in E.
  rewrite Hd in E. fold bs img in E. change (0 + 1) with 1. rewrite E; try lia; [|reflexivity|].
  - unfold get_field. f_equal. cbn [at_index f_off f_size]. apply sub_sub; lia.
  - intros k Hk. pose proof (geo_groups _ _ (mk_geometry _ _ Hmk)) as Hgr.
    pose proof (Hq 0 ltac:(lia) (super_in_first _) k Hk) as Hh. unfold group_start in Hh. rewrite H0 in Hh. exact Hh.
Qed.

(** A group: its record, and what its descriptor says. *)
Lemma group_on_disk g : 0 <= g < groups (aux_info s) -> exists b, bgs s !! Z.to_nat g = Some b /\
  zlen (bitmaps b) = 2 * bs /\ group_shown s d g b.
Proof.
  intros Hg. pose proof (fs_groups _ (rd_ok _ Hrd)) as Hn.
  destruct (lookup_lt_is_Some_2 (bgs s) (Z.to_nat g)) as [b Hb]; [unfold zlen in Hn; lia|]. exists b. split; [exact Hb|].
  pose proof (fs_bgs _ (rd_ok _ Hrd) g b ltac:(lia) Hb) as Hok. split; [exact (bg_len _ _ _ _ Hok)|].
  pose proof (md_groups _ _ _ _ _ _ _ Him _ b Hb) as H. rewrite Z2Nat.id in H by lia. exact H.
Qed.

Context (tables : tables_fit s).

(** An inode that was written. *)
Lemma inode_on_disk ino i : inode_in_range s ino -> has_table s ino -> itab s !! inode_key s ino = Some i ->
  read_inode_at disk_of img ino = inode_of_bytes (inode_slot (inode_size (info s)) i).
Proof.
  intros (H1 & H2) (b & Hb & t & Ht) Hi. destruct tables as (T1 & T2 & T3).
  pose proof (geo_inodes _ _ (mk_geometry _ _ Hmk)) as (Hi0 & _). set (ipg := inodes_per_group (info s)) in *.
  unfold read_inode_at, disk_of. cbn [d_inodes_per_group d_block_size d_inode_size]. fold disk_of. fold ipg.
  set (g := (ino - 1) / ipg) in *. set (k := (ino - 1) mod ipg).
  assert (0 <= g < groups (aux_info s)) as Hg by (unfold g; split; [apply Z.div_pos; lia|apply Z.div_lt_upper_bound; lia]).
  assert (0 <= k < ipg) as Hk by (apply Z.mod_pos_bound; lia).
  rewrite desc_on_disk by (cbn; lia). destruct (group_on_disk g Hg) as (b' & Hb' & _ & Hsh). rewrite Hb in Hb'. injection Hb' as <-.
  destruct Hsh as (_ & _ & Htab & _). specialize (Htab t Ht).
  pose proof (place_run h L s n Hw Hf (P_table (Z.to_nat g)) (get_field d (at_index 32 g bg_inode_table)) t (table_bytes s g)
    (inode_table_blocks (aux_info s)) (k * inode_size (info s)) (inode_size (info s))) as E.
  cbn [place_bytes] in E. rewrite Hb, Ht, Z2Nat.id in E by lia. fold bs img in E. rewrite zlen_table in E by exact tables.
  rewrite E; try nia; [|reflexivity|exact Htab]. f_equal. unfold table_bytes. fold ipg.
  pose proof (concat_part (slot s g) (inode_size (info s)) (seqZ 0 ipg) (Z.to_nat k) k
    (zeros (inode_table_blocks (aux_info s) * block_size (info s) - ipg * inode_size (info s)))) as Hp.
  rewrite Z2Nat.id in Hp by lia. rewrite Hp; [|lia|intros y _; apply zlen_inode_slot; lia|rewrite lookup_seqZ_lt by lia; f_equal; lia].
  unfold slot. unfold inode_key in Hi. fold ipg g k in Hi. rewrite Hi. reflexivity.
Qed.

Lemma packed_bound bsz l : forall pos hi, packed bsz pos l hi -> layout_len l <= 2 ^ 16 * zlen l.
Proof.
  induction l as [|[r e] l IH]; intros pos hi H; [unfold zlen; cbn; lia|]. destruct H as (Hr & _ & _ & H).
  rewrite zlen_cons. change (layout_len ((r, e) :: l)) with (r + layout_len l). specialize (IH _ _ H). lia.
Qed.

(** A directory, read from the bytes of the image. *)
Lemma dir_on_disk ino data l : dir_layout s ino data l -> inode_in_range s ino -> has_table s ino -> zlen l < 2 ^ 15 ->
  read_directory disk_of img ino = Some (map snd l ++ [pad_entry]).
Proof.
  intros [(i & blocks & b & Hi & (Hm & H60) & Hbl & Hb & Lb & Hs & _ & Hsrc & hi & r & Eb & Hp & Hr & Ho)] Hin Ht Hl.
  unfold read_directory, read_file. rewrite (inode_on_disk ino i Hin Ht Hi). destruct (slot_inode (inode_size (info s)) i ltac:(lia) H60) as (Jm & Js & Jb).
  set (j := inode_of_bytes (inode_slot (inode_size (info s)) i)) in *.
  assert (Z.land (i_mode j) 0xf000 = S_IFDIR) as ->.
  { rewrite Jm, <- Z.land_ones, <- Z.land_assoc by lia. change (Z.land (Z.ones 16) 0xf000) with 0xf000. exact Hm. }
  rewrite Z.eqb_refl. destruct (packed_len _ _ _ _ Hp) as (L1 & L2). pose proof (packed_bound _ _ _ _ Hp) as L3.
  assert (zlen b = layout_len l + r) as Lb'.
  { rewrite Eb, zlen_app, entry_bytes_len by (change (zlen (entry_name pad_entry)) with 0; lia). lia. }
  pose proof (zlen_nonneg b). assert (i_size_lo j = zlen b) as Hsz by (rewrite Js, Hs; apply Z.mod_small; lia).
  rewrite (file_blocks_iblock _ j i Jb). change (d_block_size disk_of) with bs.
  rewrite (file_blocks_more (block_buffer s) (disk_block bs img) i blocks (buffer_on_disk h L s n Hw Hf) Hbl).
  unfold bs, img at 1. rewrite (blocks_on_disk h L s n Hw blocks data Hsrc). rewrite <- Lb.
  rewrite (Hf (P_buffer data) data b) by (cbn; rewrite Hb; reflexivity). rewrite Hsz, Z.leb_refl.
  rewrite take_ge by (unfold zlen; lia). rewrite Eb, (read_padded _ l hi r Hp Hr). unfold in_one_block in Ho.
  rewrite (proj2 (Z.eqb_eq _ _) Ho). reflexivity.
Qed.


(** A bitmap: the block bitmap, then the inode bitmap. *)
Lemma bitmap_on_disk g b x k m : bgs s !! Z.to_nat g = Some b -> zlen (bitmaps b) = 2 * bs -> 0 <= k < 2 -> m <= 8 * bs ->
  holds s x (from_memory (bitmaps_ptr b + k * bs)) ->
  clear_bits (sub_bytes img (x * bs) bs) 0 m = clear_bits (bitmaps b) (8 * (k * bs)) m.
Proof.
  intros Hb Lb Hk Hm Hx. destruct (wr_fits _ _ _ Hw) as ((Hbs & _) & _). fold bs in Hbs.
  pose proof (image_run h L s n Hw x (bitmaps_ptr b + k * bs) 1 0 bs) as E. rewrite !Z.add_0_r in E. fold bs img in E.
  rewrite E; try lia; [|intros i Hi; assert (i = 0) as -> by lia; rewrite Z.mul_0_l, !Z.add_0_r; exact Hx].
  rewrite (memory_part h s Hf (P_bitmaps (Z.to_nat g)) (bitmaps_ptr b) (bitmaps b)) by (cbn [place_bytes]; first [rewrite Hb; reflexivity|nia]).
  apply sub_clear; nia.
Qed.

Lemma sum_index {A} (f : A -> Z) (F : Z -> Z) (l : list A) : forall o, (forall i b, l !! i = Some b -> F (o + Z.of_nat i) = f b) ->
  sum_of F (seqZ o (zlen l)) = sum_of f l.
Proof.
  induction l as [|x l IH]; intros o H; [reflexivity|]. pose proof (zlen_nonneg l). rewrite zlen_cons, seqZ_cons by lia.
  change (sum_of F (o :: ?r)) with (F o + sum_of F r). change (sum_of f (x :: l)) with (f x + sum_of f l).
  replace (Z.pred (1 + zlen l)) with (zlen l) by lia. rewrite (IH (Z.succ o)).
  - pose proof (H 0%nat x eq_refl) as E0. rewrite Z.add_0_r in E0. rewrite E0. reflexivity.
  - intros i b Hi. replace (Z.succ o + Z.of_nat i) with (o + Z.of_nat (S i)) by lia. exact (H (S i) b Hi).
Qed.

(** The bitmaps of a group and what its descriptor counts. *)
Lemma group_counts g : 0 <= g < groups (aux_info s) -> exists b, bgs s !! Z.to_nat g = Some b /\
  bitmap_blocks disk_of img g = clear_bits (bitmaps b) 0 (blocks_per_group (info s)) /\
  bitmap_inodes disk_of img g = clear_bits (bitmaps b) (8 * bs) (inodes_per_group (info s)) /\
  read_desc disk_of img g bg_free_blocks_count = bitmap_blocks disk_of img g /\
  read_desc disk_of img g bg_free_inodes_count = bitmap_inodes disk_of img g.
Proof.
  intros Hg. destruct (group_on_disk g Hg) as (b & Hb & Lb & H1 & H2 & _ & H3 & H4 & _). exists b. split; [exact Hb|].
  pose proof (geo_group _ _ (mk_geometry _ _ Hmk)) as (Hb0 & Hb1). pose proof (geo_inodes _ _ (mk_geometry _ _ Hmk)) as (Hi0 & Hi1).
  pose proof (mk_group _ _ Hmk) as Hmg. fold bs in Hb1, Hi1, H4.
  assert (bitmap_blocks disk_of img g = clear_bits (bitmaps b) 0 (blocks_per_group (info s))) as E1.
  { unfold bitmap_blocks. rewrite desc_on_disk by (cbn; lia). change (d_block_size disk_of) with bs.
    change (d_blocks_per_group disk_of) with (blocks_per_group (info s)). apply (bitmap_on_disk g b _ 0); auto; [lia|].
    rewrite Z.mul_0_l, Z.add_0_r. exact H1. }
  assert (bitmap_inodes disk_of img g = clear_bits (bitmaps b) (8 * bs) (inodes_per_group (info s))) as E2.
  { unfold bitmap_inodes. rewrite desc_on_disk by (cbn; lia). change (d_block_size disk_of) with bs.
    change (d_inodes_per_group disk_of) with (inodes_per_group (info s)). rewrite (bitmap_on_disk g b _ 1); auto; [|lia|];
    rewrite Z.mul_1_l; [reflexivity|exact H2]. }
  split; [exact E1|]. split; [exact E2|]. rewrite !desc_on_disk, E1, E2 by (cbn; lia).
  pose proof (clear_bound (bitmaps b) 0 (blocks_per_group (info s)) ltac:(lia)).
  pose proof (clear_bound (bitmaps b) (8 * bs) (inodes_per_group (info s)) ltac:(lia)).
  rewrite H3, H4, !u16_id by lia. auto.
Qed.

Lemma counts_on_disk : counts_agree disk_of img = true.
Proof.
  pose proof (fs_groups _ (rd_ok _ Hrd)) as Hn.
  assert (forall (i : nat) b, bgs s !! i = Some b -> 0 <= 0 + Z.of_nat i < groups (aux_info s) /\ Z.to_nat (0 + Z.of_nat i) = i) as Hidx
    by (intros i b Hi; apply lookup_lt_Some in Hi; unfold zlen in Hn; lia).
  unfold counts_agree. rewrite groups_on_disk. apply andb_true_iff. split; [apply andb_true_iff; split|].
  - apply forallb_forall. intros g Hg. apply list_elem_of_In, elem_of_seqZ in Hg.
    destruct (group_counts g ltac:(lia)) as (b & _ & _ & _ & E1 & E2). rewrite E1, E2, !Z.eqb_refl. reflexivity.
  - apply Z.eqb_eq. change (d_free_blocks disk_of) with blocks_free. rewrite <- Hn. symmetry. apply sum_index.
    intros i b Hi. destruct (Hidx i b Hi) as (Hr & Ei). destruct (group_counts _ Hr) as (b' & Hb' & E & _). rewrite Ei, Hi in Hb'. injection Hb' as <-. exact E.
  - apply Z.eqb_eq. change (d_free_inodes disk_of) with inodes_free. rewrite <- Hn. symmetry. apply sum_index.
    intros i b Hi. destruct (Hidx i b Hi) as (Hr & Ei). destruct (group_counts _ Hr) as (b' & Hb' & _ & E & _). rewrite Ei, Hi in Hb'. injection Hb' as <-. exact E.
Qed.

(** The tree. *)
Lemma tree_on_disk : exists ino, 11 <= ino /\
  read_directory disk_of img EXT4_ROOT_INO = Some (dot_entries EXT4_ROOT_INO EXT4_ROOT_INO ++ [found_entry ino; pad_entry]) /\
  read_directory disk_of img ino = Some (dot_entries ino EXT4_ROOT_INO ++ [pad_entry]).
Proof.
  destruct (md_tree _ _ _ _ _ _ _ Him) as (ino & data & l & data2 & l2 & Hr & Hl & Hi & M1 & M2 & _ & _ & T1 & T2 & Hmax).
  exists ino. split; [exact Hi|]. pose proof (geo_groups _ _ (mk_geometry _ _ Hmk)) as Hg. pose proof (mk_inodes _ _ Hmk) as Hip.
  assert (forall k : list (Z * Ext4ContentsProps.entry), zlen k = zlen (map snd k)) as Hmap by (intros k; unfold zlen; rewrite length_map; reflexivity).
  split.
  - rewrite (dir_on_disk _ data l (df_layout _ _ _ _ _ Hr)); [rewrite M1, <- app_assoc; reflexivity|unfold inode_in_range, EXT4_ROOT_INO; nia|exact T1|].
    rewrite (Hmap l), M1. vm_compute. reflexivity.
  - rewrite (dir_on_disk _ data2 l2 (df_layout _ _ _ _ _ Hl)); [rewrite M2; reflexivity|unfold inode_in_range; lia|exact T2|].
    rewrite (Hmap l2), M2. vm_compute. reflexivity.
Qed.

End Reading.

End MakeExt4Disk.
