(* ===== verification/MakeExt4Props.v ===== *)
(** * make_ext4fs.c: theorems

    The parameters chosen for a length, the image made with them, and the
    function other programs call. *)

From S2P Require Import Prelude Posix BackedBlock OutputFile SparseFile Sha1 Ext4Utils Ext4Alloc Ext4AllocBits Ext4AllocProps Ext4AllocLists Ext4Extent Ext4ExtentProps Ext4ExtentFiles Ext4Indirect Ext4Contents Ext4ContentsProps Ext4Dirs Ext4Tree Ext4Super Ext4SuperProps MakeExt4fs MakeExt4Init MakeExt4Fill MakeExt4Inodes MakeExt4Resize MakeExt4Room MakeExt4Image.

Module MakeExt4Props.
Import Ext4Utils Ext4Alloc Ext4AllocBits Ext4AllocProps Ext4AllocLists Ext4Extent Ext4ExtentProps
  Ext4ExtentFiles Ext4Indirect Ext4Contents Ext4ContentsProps Ext4Dirs Ext4Tree Ext4Super Ext4SuperProps
  MakeExt4fs MakeExt4Init MakeExt4Fill MakeExt4Inodes MakeExt4Resize MakeExt4Room MakeExt4Image.

(** ** The parameters for a length *)

Lemma sum_of_bound {A} (f : A -> Z) c l : (forall x, x ∈ l -> c <= f x) -> c * zlen l <= sum_of f l.
Proof.
  induction l as [|x l IH]; intros H; [unfold zlen; cbn; lia|]. rewrite zlen_cons.
  change (sum_of f (x :: l)) with (f x + sum_of f l). pose proof (H x ltac:(left)).
  assert (c * zlen l <= sum_of f l) by (apply IH; intros y Hy; apply H; right; exact Hy). lia.
Qed.

Lemma sum_of_app {A} (f : A -> Z) l k : sum_of f (l ++ k) = sum_of f l + sum_of f k.
Proof. induction l as [|x l IH]; [reflexivity|]. cbn. fold (sum_of f (l ++ k)) (sum_of f l). lia. Qed.

(** The geometry for a length of 8 MB up to 32 GB. *)
Lemma default_aux l : 2 ^ 23 <= l < 2 ^ 35 -> let i := default_info l in let n := l / 4096 in
  let g := DIV_ROUND_UP n 32768 in let t := DIV_ROUND_UP (DIV_ROUND_UP (n / 4) g) 16 in
  exists a, ext4_create_fs_aux_info i = Ok a /\ geometry_ok i a /\ first_data_block a = 0 /\
    inode_table_blocks a = t /\ bg_desc_blocks a = DIV_ROUND_UP (g * 32) 4096 /\
    (groups a = g /\ len_blocks a = n \/ groups a = g - 1 /\ 1 < g /\ len_blocks a = (g - 1) * 32768).
Proof.
  intros Hl i n g t. destruct (choose_parameters_default 0 l ltac:(lia)) as (_ & Hp). fold i in Hp.
  destruct (create_aux_geometry i Hp) as (a & Ea & G & F & Hlen). exists a. split; [exact Ea|]. split; [exact G|]. split; [exact F|].
  destruct (create_aux_eq i Hp) as (super & _ & ind & dind & tind & E). rewrite Ea in E.
  assert (len i = 4096 * n /\ block_size i = 4096 /\ blocks_per_group i = 32768 /\ inodes_per_group i * inode_size i = t * 4096) as (I1 & I2 & I3 & I4).
  { repeat split; try reflexivity. change (16 * t * 256 = t * 4096). lia. }
  clearbody i. injection E as E. rewrite I1, I2, I3, I4 in E. replace (4096 * n / 4096) with n in E by (rewrite Z.mul_comm, Z.div_mul; lia).
  rewrite DIV_ROUND_UP_mul in E by lia. fold g in E. subst a. cbn [inode_table_blocks bg_desc_blocks groups len_blocks] in *.
  split; [reflexivity|]. split; [reflexivity|].
  pose proof (Z.div_mod l 4096 ltac:(lia)). pose proof (Z.mod_pos_bound l 4096 ltac:(lia)).
  destruct (groups_cover n 32768 ltac:(lia) ltac:(lia)) as (Gpos & Gcov & Gr). fold g in Gpos, Gcov, Gr.
  match goal with |- context [if ?c then _ else _] => destruct c eqn:Ed end; [right|left; auto].
  apply andb_true_iff in Ed as (E1 & E2). apply Z.ltb_lt in E1. destruct Gr as [(Gr & _)|(_ & Gr)]; [lia|].
  pose proof (geo_groups _ _ G) as Hg. cbn in Hg. split; [reflexivity|]. lia.
Qed.

(** The room of the groups, all but the last of which are complete. *)
Lemma default_room i a c : geometry_ok i a -> first_data_block a = 0 -> blocks_per_group i = 32768 ->
  (forall g, 0 <= g < groups a -> header_size i a (super_in i g) <= c) ->
  (32768 - c) * (groups a - 1) + group_room i a (groups a - 1) <= total_room i a.
Proof.
  intros G F B Hc. pose proof (geo_groups _ _ G) as Hg. pose proof (geo_cover _ _ G) as Hcov. unfold group_start in Hcov.
  rewrite F, B in Hcov. unfold total_room. replace (seqZ 0 (groups a)) with (seqZ 0 (groups a - 1 + 1)) by (f_equal; lia). rewrite seqZ_app by lia.
  rewrite sum_of_app. change (seqZ (0 + (groups a - 1)) 1) with [0 + (groups a - 1)].
  assert ((32768 - c) * zlen (seqZ 0 (groups a - 1)) <= sum_of (group_room i a) (seqZ 0 (groups a - 1))) as H.
  { apply sum_of_bound. intros g Hin. apply elem_of_seqZ in Hin. specialize (Hc g ltac:(lia)). unfold group_room, group_size, group_start.
    rewrite F, B. assert (g * 32768 <= (groups a - 2) * 32768) by (apply Z.mul_le_mono_nonneg_r; lia). lia. }
  unfold zlen in H. rewrite length_seqZ, Z2Nat.id in H by lia.
  change (sum_of (group_room i a) [?x]) with (group_room i a x + 0). rewrite Z.add_0_l. lia.
Qed.

Lemma default_makeable fd_size l : 2 ^ 23 <= l < 2 ^ 35 -> exists a,
  choose_parameters fd_size (set_len reset_ext4fs_info l) = Ok (Some (default_info l)) /\
  ext4_create_fs_aux_info (default_info l) = Ok a /\
  (2 <= group_room (default_info l) a (groups a - 1) -> makeable (default_info l) a) /\
  (l <= 2 ^ 27 -> 2 <= group_room (default_info l) a (groups a - 1)).
Proof.
  intros Hl. destruct (default_aux l Hl) as (a & Ea & G & F & Et & Ed & Hcase). cbv zeta in *.
  exists a. split; [apply choose_parameters_default; lia|]. split; [exact Ea|].
  set (i := default_info l) in *. set (n := l / 4096) in *. set (g := DIV_ROUND_UP n 32768) in *.
  pose proof (Z.div_mod l 4096 ltac:(lia)) as Hdm. pose proof (Z.mod_pos_bound l 4096 ltac:(lia)). fold n in Hdm.
  destruct (default_inodes n ltac:(lia)) as (Hg & Hg1 & Hper & Ht & Ht1). fold g in Hg, Hg1, Hper, Ht, Ht1.
  set (t := DIV_ROUND_UP (DIV_ROUND_UP (n / 4) g) 16) in *.
  pose proof (DIV_ROUND_UP_bound (g * 32) 4096 ltac:(lia)) as Hgdb. set (gdb := DIV_ROUND_UP (g * 32) 4096) in *.
  pose proof (DIV_ROUND_UP_bound n 32768 ltac:(lia)) as Hgb. fold g in Hgb.
  assert (block_size i = 4096 /\ blocks_per_group i = 32768 /\ inodes_per_group i = 16 * t /\ inode_size i = 256 /\ len i = 4096 * n /\
    journal_blocks i = Z.min 32768 (Z.max 1024 (n / 64)) /\ bg_desc_reserve_blocks i = Z.min 1024 (8 * g - gdb) /\
    feat_ro_compat i = 3 /\ feat_compat i = 20 /\ feat_incompat i = 66) as (I1 & I2 & I3 & I4 & I5 & I6 & I7 & I8 & I9 & I10) by (repeat split; reflexivity).
  clearbody i. pose proof (Z.div_mod n 64 ltac:(lia)) as Hn64. pose proof (Z.mod_pos_bound n 64 ltac:(lia)).
  assert (forall b, header_size i a b <= 3 + t + gdb + Z.min 1024 (8 * g - gdb)) as Hhd
    by (intros b; unfold header_size; rewrite Et, Ed, I7; destruct b; lia).
  assert (0 < gdb <= 3) as Hgdb3 by lia.
  assert (n <= 32768 -> groups a = 1 /\ len_blocks a = n /\ gdb = 1 /\ g = 1) as Hone by lia.
  split.
  - intros Hroom. split; try assumption; rewrite ?I1, ?I2, ?I3, ?Et, ?Ed, ?I6, ?I7; try lia.
    + split; rewrite ?I1, ?I2, ?I3, ?I4, ?I5, ?I7, ?I8, ?I9, ?I10; try lia. exists 2. split; [lia|reflexivity].
    + nia.
    + intros g' Hg'. destruct (Z.eq_dec g' (groups a - 1)) as [->|Hne]; [exact Hroom|].
      pose proof (geo_cover _ _ G) as Hcov. unfold group_start in Hcov. rewrite F, I2 in Hcov.
      unfold group_room, group_size, group_start. rewrite F, I2. specialize (Hhd (super_in i g')).
      assert (g' * 32768 <= (groups a - 2) * 32768) by (apply Z.mul_le_mono_nonneg_r; lia). lia.
    + change (4096 / 4) with 1024. lia.
    + destruct (Z.le_gt_cases n 32768) as [Hn|Hn].
      * destruct (Hone Hn) as (G1 & L1 & Eg & Eg1). rewrite Eg, Eg1 in *. rewrite G1. unfold total_room. rewrite G1. change (seqZ 0 1) with [0].
        change (sum_of (group_room i a) [0]) with (group_room i a 0 + 0). unfold group_room, group_size, group_start. rewrite F, I2, L1.
        specialize (Hhd (super_in i 0)). lia.
      * pose proof (geo_groups _ _ G) as Hgr. pose proof (default_room i a 1542 G F I2) as Hr. specialize (Hr ltac:(intros g' _; specialize (Hhd (super_in i g')); lia)).
        specialize (Hhd (super_in i (groups a - 1))).
        destruct Hcase as [(Hc & Hn')|(Hc & Hc1 & Hn')]; [lia|].
        assert (32768 - 1542 <= group_room i a (groups a - 1)); [|lia].
        unfold group_room, group_size, group_start. rewrite F, I2, Hn'. rewrite Hc in *. lia.
  - intros Hl27. destruct (Hone ltac:(lia)) as (G1 & L1 & Eg & Eg1). rewrite Eg, Eg1 in *. rewrite G1. change (1 - 1) with 0.
    unfold group_room, group_size, group_start. rewrite F, I2, L1. specialize (Hhd (super_in i 0)). lia.
Qed.


(** ** The image of a request *)

(** C15: Whenever the parameters are chosen and the geometry is one that can be made, the whole computation from the
    parameters to the queue succeeds, and its queue holds the image of an empty file system: the super block with
    its copies and the counts of what is free, the group descriptors with the place and the counts of every
    group's bitmaps and inode table, the journal, the reserved blocks of the resize inode and the tree. *)
Theorem make_image_correct {host : host_tree} stack depth rq s i a lab :
  choose_parameters (get_file_size (len (info s)) (rq_fstat rq) (fst (rq_ioctl rq)) (snd (rq_ioctl rq))) (info s) = Ok (Some i) ->
  makeable i a -> blank s -> label i = Some lab -> zlen (chars lab) < 2 ^ 29 -> zlen stack = 64 ->
  rq_directory rq = None -> rq_init_itabs rq = false ->
  exists q s' lo c buf p d, make_image stack depth rq s = Ok (Some (Some q), s') /\
    fs_ready s' /\ info s' = i /\ aux_info s' = a /\ image_made lab lo s' c buf p d.
Proof. exact (make_image_spec stack depth rq s i a lab). Qed.

(** A system without files. *)
Definition no_host : host_tree := {| scandir := fun _ => None; lstat := fun _ => None; readlink := fun _ => None |}.

(** A state without any buffer. *)
Definition no_state (i : fs_info) : fs :=
  mk_fs false i (mk_aux 0 0 0 0 0 0 0 0 0) [] ∅ 1 (fun _ => true) (SparseFile.mk_sparse_file 4096 0 false (BackedBlock.backed_block_list_new 4096)) ∅ ∅.

Lemma no_state_blank i : blank (no_state i).
Proof.
  split; [intros x; reflexivity|intros x _; apply lookup_empty|intros x b Hb|reflexivity].
  cbn in Hb. rewrite lookup_empty in Hb. discriminate.
Qed.

Lemma make_image_correct_witness : exists q s' lo c buf p d,
  make_image (host := no_host) (replicate 64 0) 0 (mk_request None (0, 0) None EmptyString false false false)
    (no_state (set_len reset_ext4fs_info (2 ^ 24 + 123))) = Ok (Some (Some q), s') /\ fs_ready s' /\
    info s' = default_info (2 ^ 24 + 123) /\ groups (aux_info s') = 1 /\ image_made EmptyString lo s' c buf p d.
Proof.
  destruct (default_makeable (get_file_size (2 ^ 24 + 123) None 0 0) (2 ^ 24 + 123) ltac:(lia)) as (a & Ec & Ea & Hmk & Hr).
  specialize (Hmk (Hr ltac:(lia))).
  destruct (make_image_correct (host := no_host) (replicate 64 0) 0 (mk_request None (0, 0) None EmptyString false false false)
    (no_state (set_len reset_ext4fs_info (2 ^ 24 + 123))) (default_info (2 ^ 24 + 123)) a EmptyString Ec Hmk (no_state_blank _)
    eq_refl ltac:(reflexivity) ltac:(reflexivity) eq_refl eq_refl) as (q & s' & lo & c & buf & p & d & E & Hrd & Ei & Eaux & Him).
  exists q, s', lo, c, buf, p, d. repeat (split; [assumption|]). split; [|exact Him]. rewrite Eaux.
  assert (match ext4_create_fs_aux_info (default_info (2 ^ 24 + 123)) with Ok a => groups a = 1 | _ => True end) as H by (vm_compute; reflexivity).
  rewrite Ea in H. exact H.
Defined.

(** ** [make_ext4fs] *)


(** The request [make_ext4fs] makes, and the state it makes it in. *)
Definition plain_request (m : st_mode) (io : Z * Z) : request := mk_request (Some m) io None EmptyString false false false.
Definition made_from (s : fs) (l : Z) : fs := set_info (reset_globals s) (set_len reset_ext4fs_info l).

Lemma make_ext4fs_spec {host : host_tree} {W} (ops : OF.output_file_ops W) mem_of secdiscard discard
    stack w fd m io w0 alloc allocs l s a : 2 ^ 23 <= l < 2 ^ 35 -> ext4_create_fs_aux_info (default_info l) = Ok a ->
  l <= 2 ^ 27 \/ 2 <= group_room (default_info l) a (groups a - 1) -> blank s -> zlen stack = 64 ->
  makeable (default_info l) a /\
  choose_parameters (get_file_size l (Some m) (fst io) (snd io)) (set_len reset_ext4fs_info l) = Ok (Some (default_info l)) /\
  exists q s' lo c buf p d, make_image stack 0 (plain_request m io) (made_from s l) = Ok (Some (Some q), s') /\
    fs_ready s' /\ info s' = default_info l /\ aux_info s' = a /\ image_made EmptyString lo s' c buf p d /\
    make_ext4fs ops mem_of secdiscard discard stack (Some (w, fd, m, io)) w0 alloc allocs l s =
      let! w := write_ext4_image ops mem_of w fd alloc allocs false false s' in Ok (0, w, s').
Proof.
  intros Hl Ha Hroom [Bm Bh Bf Bi] Hst.
  destruct (default_makeable (get_file_size l (Some m) (fst io) (snd io)) l Hl) as (a' & Ec & Ea & Hmk & Hr).
  rewrite Ea in Ha. injection Ha as ->. specialize (Hmk ltac:(destruct Hroom; auto)). split; [exact Hmk|]. split; [exact Ec|].
  destruct (make_image_spec stack 0 (plain_request m io) (made_from s l) (default_info l) a EmptyString Ec Hmk)
    as (q & s' & lo & c & buf & p & d & E & Hrd & Ei & Eaux & Him);
    [split; assumption|reflexivity|reflexivity|exact Hst|reflexivity|reflexivity|].
  exists q, s', lo, c, buf, p, d. repeat (split; [assumption|]). unfold make_ext4fs, make_ext4fs_internal.
  fold (made_from s l) (plain_request m io). rewrite E. reflexivity.
Qed.

(** C14: [make_ext4fs], called for 8 MB up to 32 GB on a device that can be opened, with memory and with a last group that
    has room for two blocks (one of 128 MB or less always has it), makes the image of an empty file system with the
    parameters the length asks for, hands it to the writer once, and returns 0, whatever the writer reports: the
    code drops the writer's result. *)
Theorem make_ext4fs_correct {host : host_tree} {W} (ops : OF.output_file_ops W) mem_of secdiscard discard
    stack w fd m io w0 alloc allocs l s a : 2 ^ 23 <= l < 2 ^ 35 -> ext4_create_fs_aux_info (default_info l) = Ok a ->
  l <= 2 ^ 27 \/ 2 <= group_room (default_info l) a (groups a - 1) -> blank s -> zlen stack = 64 ->
  exists s' lo c buf p d, fs_ready s' /\ info s' = default_info l /\ aux_info s' = a /\
    image_made EmptyString lo s' c buf p d /\
    make_ext4fs ops mem_of secdiscard discard stack (Some (w, fd, m, io)) w0 alloc allocs l s =
      let! w := write_ext4_image ops mem_of w fd alloc allocs false false s' in Ok (0, w, s').
Proof.
  intros Hl Ha Hroom Hb Hst.
  destruct (make_ext4fs_spec ops mem_of secdiscard discard stack w fd m io w0 alloc allocs l s a Hl Ha Hroom Hb Hst)
    as (_ & _ & q & s' & lo & c & buf & p & d & _ & H). exists s', lo, c, buf, p, d. exact H.
Qed.


Lemma make_ext4fs_correct_witness : exists s' lo c buf p d,
  info s' = default_info (2 ^ 23 + 123) /\ image_made EmptyString lo s' c buf p d /\
  make_ext4fs (host := no_host) OF.file_ops (fun _ => SparseFile.ex_host) (fun w => (w, 0)) (fun w => (w, 0)) (replicate 64 0)
    (Some (Posix.plain_file [], Posix.plain_file [], S_REG 0, (0, 0))) (Posix.plain_file []) true (true, true) (2 ^ 23 + 123)
    (no_state reset_ext4fs_info) =
    let! w := write_ext4_image OF.file_ops (fun _ => SparseFile.ex_host) (Posix.plain_file []) (Posix.plain_file []) true (true, true) false false s' in
    Ok (0, w, s').
Proof.
  destruct (default_makeable 0 (2 ^ 23 + 123) ltac:(lia)) as (a & _ & Ea & _ & _).
  destruct (make_ext4fs_correct (host := no_host) OF.file_ops (fun _ => SparseFile.ex_host) (fun w => (w, 0)) (fun w => (w, 0)) (replicate 64 0)
    (Posix.plain_file []) (Posix.plain_file []) (S_REG 0) (0, 0) (Posix.plain_file []) true (true, true) (2 ^ 23 + 123) (no_state reset_ext4fs_info) a
    ltac:(lia) Ea ltac:(left; lia) (no_state_blank _) ltac:(reflexivity)) as (s' & lo & c & buf & p & d & _ & Ei & _ & Him & E).
  exists s', lo, c, buf, p, d. auto.
Defined.

(** ** The resize inode *)

(** The double indirect block [b] of the resize inode, as it is meant to be: word [i] names the reserved block
    [i - descriptor blocks] of the first group, counted modulo the number of reserved blocks, and each reserved
    block [r] of the first group names the blocks [r] of the other groups with a super block, in order. The code
    subtracts in 32 unsigned bits, so that the words before the descriptor blocks are right only when the number
    of reserved blocks divides 2^32. *)
Record resize_indirect (s : fs) (b dind data : Z) (db buf : list Z) : Prop := {
  rn_top : holds s b (from_memory dind);
  rn_db : mem s !! dind = Some db;
  rn_first : forall r, 0 <= r < bg_desc_reserve_blocks (info s) ->
    holds s (reserve_start (info s) (aux_info s) 0 + r) (from_memory (data + r * block_size (info s)));
  rn_buf : mem s !! data = Some buf;
  rn_dind : forall i, 0 <= i < bg_desc_reserve_blocks (info s) ->
    0 <= word db i - reserve_start (info s) (aux_info s) 0 < bg_desc_reserve_blocks (info s) /\
    (word db i = reserve_start (info s) (aux_info s) 0 + (i - bg_desc_blocks (aux_info s)) mod bg_desc_reserve_blocks (info s) <->
      bg_desc_blocks (aux_info s) <= i \/ 2 ^ 32 mod bg_desc_reserve_blocks (info s) = 0);
  rn_data : forall r (j : nat) g, 0 <= r < bg_desc_reserve_blocks (info s) -> (1 <= j)%nat ->
    r + bg_desc_blocks (aux_info s) < bg_desc_reserve_blocks (info s) \/ 2 ^ 32 mod bg_desc_reserve_blocks (info s) = 0 ->
    super_groups (info s) (seqZ 0 (groups (aux_info s))) !! j = Some g ->
    word buf (r * (block_size (info s) / 4) + Z.of_nat j - 1) = reserve_start (info s) (aux_info s) g + r
}.

(** The slot that names the reserved block [r]. *)
Lemma resize_slot bgd R r : 0 < R < 2 ^ 31 -> 0 <= bgd < 2 ^ 31 -> 0 <= r < R -> r + bgd < R \/ 2 ^ 32 mod R = 0 ->
  exists i, 0 <= i < R /\ resize_index bgd R i = r.
Proof.
  intros HR Hb Hr H. exists ((r + bgd) mod R). pose proof (Z.mod_pos_bound (r + bgd) R ltac:(lia)) as B. split; [exact B|].
  rewrite (proj2 (resize_index_eq bgd R ((r + bgd) mod R) ltac:(lia) B Hb)).
  - rewrite Zminus_mod_idemp_l. replace (r + bgd - bgd) with r by lia. apply Z.mod_small. exact Hr.
  - destruct H as [H|H]; [left; rewrite Z.mod_small by lia; lia|right; exact H].
Qed.

Lemma resize_indirect_of s b dind data db buf : makeable (info s) (aux_info s) ->
  resize_listed s b dind data db buf -> resize_indirect s b dind data db buf.
Proof.
  intros Hmk [A B C D E F]. destruct (resize_numbers _ _ Hmk) as (_ & Hbs & HR & HRp & _).
  assert (0 <= bg_desc_blocks (aux_info s) < 2 ^ 31) as Hb by (pose proof (mk_descs _ _ Hmk);
    pose proof (geo_groups _ _ (mk_geometry _ _ Hmk)); nia).
  assert (0 < bg_desc_reserve_blocks (info s) < 2 ^ 16) as HR1.
  { split; [lia|]. apply (Z.le_lt_trans _ _ _ (proj2 HR)), Z.div_lt_upper_bound; lia. }
  assert (0 < bg_desc_reserve_blocks (info s) < 2 ^ 31) as HR2 by lia.
  split; try assumption.
  - intros i Hi. rewrite (E i Hi).
    pose proof (resize_index_range _ HR1 (bg_desc_blocks (aux_info s)) i).
    pose proof (resize_index_eq _ _ i HR2 Hi Hb) as (K1 & K2). split; [lia|].
    split; intros K; [apply K1; lia|specialize (K2 K); lia].
  - intros r j g Hr Hj Hok Hg. destruct (resize_slot _ _ r HR2 Hb Hr Hok) as (i & Hi & Ei).
    pose proof (F i j g Hi Hj Hg) as K. cbn zeta in K. rewrite Ei in K. exact K.
Qed.

(** C36: The resize inode is made of one free block, which names the blocks reserved for more descriptors in the
    first group: word [i] names the block [(i - d) mod r] of them, for [d] descriptor blocks and [r] reserved
    ones, whenever [d <= i] or [r] divides 2^32, and another of these blocks in no other case. The reserved
    blocks [k] of the first group are queued, and for [k + d < r], or for all [k] when [r] divides 2^32, such a
    block names the blocks [k] of the other groups with a super block, in order. One block is taken and nothing
    else that is queued or allocated changes. *)
Theorem create_resize_inode_correct s : fs_ready s -> makeable (info s) (aux_info s) ->
  itab s !! inode_key s EXT4_RESIZE_INO = None -> can_hold s 1 = true ->
  (forall x, first_reserved s x -> header_area s x /\ unqueued s x 1) ->
  exists s' inode b dind data db buf, ext4_create_resize_inode s = Ok (Some tt, s') /\
    spread [] (first_reserved s) s s' /\ inode_step s s' EXT4_RESIZE_INO [b] /\
    itab s' !! inode_key s' EXT4_RESIZE_INO = Some inode /\ i_mode inode = Z.lor S_IFREG 0x180 /\
    word (i_block inode) 13 = b /\ resize_indirect s' b dind data db buf.
Proof.
  intros Hrd Hmk Hit Hcan Hres.
  destruct (create_resize_spec s Hrd Hmk Hit Hcan Hres) as (s' & inode & b & dind & data & db & buf & E & H1 & H2 & (H3 & H4 & H5 & H6) & _).
  exists s', inode, b, dind, data, db, buf. repeat (split; [assumption|]). apply resize_indirect_of; [|exact H6].
  pose proof (sp_globals _ _ _ _ H1) as (_ & -> & -> & _). exact Hmk.
Qed.

(** The state in which the reserved inodes have been set aside. *)
Lemma default_started l : 2 ^ 23 <= l <= 2 ^ 27 -> exists s p b, image_started s p b /\ info s = default_info l.
Proof.
  intros Hl. destruct (default_makeable 0 l ltac:(lia)) as (a & _ & _ & Hmk & Hr). specialize (Hmk (Hr ltac:(lia))).
  destruct (image_prepared (replicate 64 0) (no_state (default_info l)) a EmptyString Hmk (no_state_blank _) eq_refl ltac:(reflexivity) ltac:(reflexivity))
    as (p & s1 & s2 & s3 & s4 & q & b & k & _ & _ & _ & _ & Ei2 & Ea2 & Hit & Hgm & Hf & _ & _ & Lb & _ & _ & _).
  cbn [info no_state] in *. pose proof (gm_globals _ _ Hgm) as (_ & _ & Ea3 & _).
  assert (makeable (info s2) (aux_info s2)) as Hmk2 by (rewrite Ei2, Ea2; exact Hmk). rewrite <- Ea2, <- Ea3 in Hf.
  destruct (inodes_set_aside s2 s3 s4 p q b _ Hmk2 Hgm Hf) as (s5 & _ & K & Hge & H11).
  exists s5, p, b. split; [apply (started_from s2 s3 s4 s5 p q b); auto; rewrite Ei2; exact Lb|].
  pose proof (same_globals_trans _ _ _ (gm_globals _ _ Hgm) (same_globals_trans _ _ _ (fi_globals _ _ _ _ _ _ Hf) (kp_globals _ _ K))) as (_ & Ei & _).
  congruence.
Qed.

Lemma create_resize_inode_correct_witness : exists s s' inode b dind data db buf,
  info s = default_info (2 ^ 24) /\ ext4_create_resize_inode s = Ok (Some tt, s') /\
  itab s' !! inode_key s' EXT4_RESIZE_INO = Some inode /\ resize_indirect s' b dind data db buf.
Proof.
  destruct (default_started (2 ^ 24) ltac:(lia)) as (s & p & sbuf & [Hrd Hmk Hit _ _ _ _ Hsum Hcap Hres] & Ei).
  destruct (create_resize_inode_correct s Hrd Hmk) as (s' & inode & b & dind & data & db & buf & E & _ & _ & Hi & _ & _ & Hm).
  - rewrite Hit. apply lookup_empty.
  - unfold can_hold. rewrite Hcap. apply orb_true_iff. right. apply Z.leb_le. pose proof (mk_blocks _ _ Hmk).
    pose proof (mk_journal _ _ Hmk). pose proof (geo_groups _ _ (mk_geometry _ _ Hmk)). lia.
  - exact Hres.
  - exists s, s', inode, b, dind, data, db, buf. auto.
Defined.

End MakeExt4Props.
