(* ===== verification/MakeExt4File.v ===== *)
(** * Making an image: the file

    [make_ext4fs] on an empty file, read back from the bytes it leaves there. *)

From S2P Require Import Prelude Posix BackedBlock OutputFile SparseFile Sha1 Ext4Utils Ext4Alloc Ext4AllocBits Ext4AllocProps Ext4AllocLists Ext4Extent Ext4ExtentProps Ext4ExtentFiles Ext4Indirect Ext4Contents Ext4ContentsProps Ext4Dirs Ext4Tree Ext4Super Ext4SuperProps Ext4Disk MakeExt4fs MakeExt4Init MakeExt4Fill MakeExt4Inodes MakeExt4Resize MakeExt4Room MakeExt4Image MakeExt4Memory MakeExt4Disk MakeExt4Props.

Module MakeExt4File.
Import Ext4Utils Ext4Alloc Ext4AllocBits Ext4AllocProps Ext4AllocLists Ext4Extent Ext4ExtentProps
  Ext4ExtentFiles Ext4Indirect Ext4Contents Ext4ContentsProps Ext4Dirs Ext4Tree Ext4Super Ext4SuperProps Ext4Disk
  MakeExt4fs MakeExt4Init MakeExt4Fill MakeExt4Inodes MakeExt4Resize MakeExt4Room MakeExt4Image MakeExt4Memory MakeExt4Disk
  MakeExt4Props.

(** ** The sizes for a length *)

(** What is queued at once is at most the journal of 2^27 bytes. *)
Definition most : Z := 2 ^ 27.

Lemma default_whole l k : 0 <= k <= 32768 -> whole (default_info l) most (k * 4096).
Proof. intros H. split; [exists k; reflexivity|unfold most; lia]. Qed.

Section Default.
Context (l : Z) (Hl : 2 ^ 23 <= l < 2 ^ 35) (a : fs_aux_info) (Ha : ext4_create_fs_aux_info (default_info l) = Ok a).

Record default_sizes : Prop := {
  ds_table : 0 < inode_table_blocks a <= 512 /\ inodes_per_group (default_info l) = 16 * inode_table_blocks a;
  ds_descs : 0 < bg_desc_blocks a <= 1024;
  ds_reserve : 0 <= bg_desc_reserve_blocks (default_info l) <= 1024;
  ds_journal : 0 <= journal_blocks (default_info l) <= 32768;
  ds_blocks : 0 <= len_blocks a <= l / 4096
}.

Lemma default_sizes_ok : default_sizes.
Proof.
  destruct (default_aux l Hl) as (a' & Ea & G & F & Et & Ed & Hcase). rewrite Ea in Ha. injection Ha as ->. cbv zeta in *.
  pose proof (Z.div_mod l 4096 ltac:(lia)). pose proof (Z.mod_pos_bound l 4096 ltac:(lia)). set (n := l / 4096) in *.
  destruct (default_inodes n ltac:(lia)) as (Hg & Hg1 & Hper & Ht & _). set (g := DIV_ROUND_UP n 32768) in *.
  pose proof (DIV_ROUND_UP_bound (g * 32) 4096 ltac:(lia)) as Hgdb. pose proof (DIV_ROUND_UP_bound n 32768 ltac:(lia)) as Hgb. fold g in Hgb.
  set (t := DIV_ROUND_UP (DIV_ROUND_UP (n / 4) g) 16) in *. set (gdb := DIV_ROUND_UP (g * 32) 4096) in *.
  assert (inodes_per_group (default_info l) = 16 * t /\ journal_blocks (default_info l) = Z.min 32768 (Z.max 1024 (n / 64)) /\
    bg_desc_reserve_blocks (default_info l) = Z.min 1024 (8 * g - gdb)) as (I1 & I2 & I3) by (repeat split; reflexivity).
  split; rewrite ?Et, ?Ed, ?I1, ?I2, ?I3; lia.
Qed.


(** An inode table of 256 bytes an inode fills its blocks. *)
Lemma default_tables s : info s = default_info l -> aux_info s = a -> tables_fit s.
Proof.
  intros Ei Ea. destruct default_sizes_ok as [(H1 & H2) _ _ _ _]. unfold tables_fit. rewrite Ei, Ea, H2.
  change (inode_size (default_info l)) with 256. change (block_size (default_info l)) with 4096. lia.
Qed.

Lemma default_image {host : host_tree} stack m io s q s' : tidy (reset_globals s) -> blank s ->
  choose_parameters (get_file_size l (Some m) (fst io) (snd io)) (set_len reset_ext4fs_info l) = Ok (Some (default_info l)) ->
  make_image stack 0 (plain_request m io) (made_from s l) = Ok (Some (Some q), s') -> fs_ready s' ->
  info s' = default_info l -> aux_info s' = a -> orderly (default_info l) most s' /\ writable most s' (l / 4096).
Proof.
  intros Ht Hb Hc E Hrd Ei Ea. destruct default_sizes_ok as [(H1 & H2) H3 H4 H5 H6].
  pose proof (default_whole l) as W. set (i := default_info l) in *.
  assert (block_size i = 4096) as Ebs by reflexivity.
  assert (len i = l / 4096 * 4096) as El by (change (4096 * (l / 4096) = l / 4096 * 4096); lia).
  destruct (make_image_orderly i a most) with (host := host) (st := stack) (depth := 0%nat) (rq := plain_request m io)
    (s := made_from s l) (q := q) (s' := s') as (Ho & Hlen & Hbs); rewrite ?Ebs; auto.
  - exists (2 ^ 20). reflexivity.
  - apply (W 1). lia.
  - apply (W 2). lia.
  - apply W. lia.
  - apply W. lia.
  - replace (4096 * bg_desc_reserve_blocks i) with (bg_desc_reserve_blocks i * 4096) by lia. apply W. lia.
  - assert (u32 (div_round_up32 (dentry_size 4096 [lost_found]) 4096 * 4096) = 1 * 4096) as -> by (vm_compute; reflexivity). apply W. lia.
  - assert (u32 (div_round_up32 (dentry_size 4096 []) 4096 * 4096) = 1 * 4096) as -> by (vm_compute; reflexivity). apply W. lia.
  - reflexivity.
  - apply (tidy_same (reset_globals s)); auto. cbn. lia.
  - exact (bl_memory _ Hb).
  - split; [exact Ho|]. assert (0 <= l / 4096 < 2 ^ 30) by (split; [apply Z.div_pos; lia|apply Z.div_lt_upper_bound; lia]).
    split; rewrite ?Ei, ?Ea; rewrite ?Ebs; auto; [exact (rd_queue _ Hrd)|exact (od_queue _ _ _ Ho)|rewrite Hlen; exact El|lia|unfold most; lia].
Qed.

End Default.


(** The writer sees the buffers of a state, which are at different addresses. *)
Definition sees_memory (mem_of : fs -> OF.host) : Prop :=
  forall inf L s, tables_fit s -> orderly inf L s -> faithful (mem_of s) s.

Lemma memory_image_sees : sees_memory memory_image.
Proof. intros inf L s. apply memory_image_faithful. Qed.

(** ** The file that was made, read back *)

(** The super block for a length, with some counts of what is free. *)
Definition disk_for (l : Z) (a : fs_aux_info) (blocks_free inodes_free : Z) : disk :=
  mk_disk 4096 0 (len_blocks a) 32768 (inodes_per_group (default_info l)) 256 blocks_free inodes_free.

(** C13: [make_ext4fs] on an empty file leaves a file of whole blocks up to the length asked for, from whose bytes
    alone a reader finds the super block, descriptors whose counts are what the bitmaps they name have free, with
    the sums in the super block, the root directory with [lost+found], and [lost+found], empty. *)
Theorem make_ext4fs_readable {host : host_tree} mem_of secdiscard discard stack f m io w0 l s a :
  2 ^ 23 <= l < 2 ^ 35 -> ext4_create_fs_aux_info (default_info l) = Ok a ->
  l <= 2 ^ 27 \/ 2 <= group_room (default_info l) a (groups a - 1) ->
  blank s -> tidy (reset_globals s) -> zlen stack = 64 -> SparseFile.blank f -> sees_memory mem_of ->
  exists f' s' fb fi ino, let d := disk_for l a fb fi in let img := Posix.f_data f' in
    make_ext4fs OF.file_ops mem_of secdiscard discard stack (Some (f, f, m, io)) w0 true (true, true) l s = Ok (0, f', s') /\
    zlen img = l / 4096 * 4096 /\ read_super img = Some d /\ d_groups d = groups a /\ counts_agree d img = true /\
    read_directory d img EXT4_ROOT_INO = Some (dot_entries EXT4_ROOT_INO EXT4_ROOT_INO ++ [found_entry ino; pad_entry]) /\
    read_directory d img ino = Some (dot_entries ino EXT4_ROOT_INO ++ [pad_entry]).
Proof.
  intros Hl Ha Hroom Hb Ht Hst Hf Hmem.
  destruct (make_ext4fs_spec OF.file_ops mem_of secdiscard discard stack f f m io w0 true (true, true) l s a Hl Ha Hroom Hb Hst)
    as (Hmk & Hc & q & s' & lo & c & buf & p & d & E & Hrd & Ei & Ea & Him & Ew).
  destruct (default_image l Hl a Ha stack m io s q s' Ht Hb Hc E Hrd Ei Ea) as (Ho & Hw).
  pose proof (default_tables l Hl a Ha s' Ei Ea) as Htab. pose proof (Hmem _ _ s' Htab Ho) as Hfa.
  destruct (writable_sparse most (mem_of s') s' _ Hw) as (Hsp & Hcnt).
  destruct (SparseFile.write_normal_ok (mem_of s') (sparse_file s') _ f Hsp Hcnt Hf) as (f' & Ef & Hdata).
  destruct (default_sizes_ok l Hl a Ha) as [(T1 & T2) _ _ _ _].
  assert (makeable (info s') (aux_info s')) as Hmk' by (rewrite Ei, Ea; exact Hmk).
  assert (128 <= inode_size (info s') < 2 ^ 16) as Hisz by (rewrite Ei; change (inode_size (default_info l)) with 256; lia).
  assert (inodes_per_group (info s') < 2 ^ 16) as Hipg by (rewrite Ei, T2; lia).
  destruct (tree_on_disk _ _ _ _ Hw Hfa _ _ _ _ _ _ Him Hmk' Hrd Hisz Htab) as (ino & _ & R1 & R2).
  pose proof (super_on_disk _ _ _ _ Hw Hfa _ _ _ _ _ _ Him Hmk' Hrd Hisz Hipg) as R3.
  pose proof (counts_on_disk _ _ _ _ Hw Hfa _ _ _ _ _ _ Him Hmk' Hrd Hipg) as R4.
  pose proof (groups_on_disk s' Hmk') as R5.
  assert (exists fb fi, disk_of s' = disk_for l a fb fi) as (fb & fi & Ed) by (unfold disk_of, disk_for; rewrite Ei, Ea; eauto).
  exists f', s', fb, fi, ino. cbv zeta. rewrite Hdata, <- Ed. split; [|split; [|split; [exact R3|split; [|auto]]]].
  - rewrite Ew. unfold write_ext4_image. rewrite Ef. reflexivity.
  - rewrite (zlen_written (mem_of s') most s' (l / 4096) Hw), Ei. reflexivity.
  - rewrite R5, Ea. reflexivity.
Qed.

Lemma no_state_tidy i : tidy (reset_globals (no_state i)).
Proof. split; try reflexivity; [cbn; lia| |]; intros x b; intros; cbn in *; rewrite lookup_empty in *; discriminate. Qed.

Lemma plain_blank : SparseFile.blank (Posix.plain_file []).
Proof. by repeat split. Qed.

Lemma make_ext4fs_readable_witness : exists f' s' d ino,
  make_ext4fs (host := no_host) OF.file_ops memory_image (fun w => (w, 0)) (fun w => (w, 0)) (replicate 64 0)
    (Some (Posix.plain_file [], Posix.plain_file [], S_REG 0, (0, 0))) (Posix.plain_file []) true (true, true) (2 ^ 23 + 123)
    (no_state reset_ext4fs_info) = Ok (0, f', s') /\
  zlen (Posix.f_data f') = 2 ^ 23 /\ read_super (Posix.f_data f') = Some d /\
  read_directory d (Posix.f_data f') ino = Some (dot_entries ino EXT4_ROOT_INO ++ [pad_entry]).
Proof.
  destruct (default_makeable 0 (2 ^ 23 + 123) ltac:(lia)) as (a & _ & Ea & _ & _).
  destruct (make_ext4fs_readable (host := no_host) memory_image (fun w => (w, 0)) (fun w => (w, 0)) (replicate 64 0)
    (Posix.plain_file []) (S_REG 0) (0, 0) (Posix.plain_file []) (2 ^ 23 + 123) (no_state reset_ext4fs_info) a
    ltac:(lia) Ea ltac:(left; lia) (no_state_blank _) (no_state_tidy _) ltac:(reflexivity) plain_blank memory_image_sees)
    as (f' & s' & fb & fi & ino & E & Hl & Hs & _ & _ & _ & Hd).
  exists f', s', (disk_for (2 ^ 23 + 123) a fb fi), ino. auto.
Defined.

End MakeExt4File.
